(* ===== verification/_CoqProject ===== *)
-Q . S2P
Prelude.v
Bits.v
Arrays.v
SlotArray.v
TaskTable.v
Chain.v
LogicalPtrace.v
LogicalPtraceOps.v
LogicalPtraceInv.v
LogicalPtraceQueue.v
LogicalPtracePreserve.v
LogicalPtraceSafety.v
LogicalPtraceEvents.v
LogicalPtraceWait.v
Dispatcher.v
DispatcherOps.v
DispatcherInv.v
DispatcherSteps.v
DispatcherSafety.v
DispatcherCalls.v
DispatcherRekey.v
DispatcherReach.v
DispatcherRegs.v
DispatcherFrame.v
Resident.v
ResidentInv.v
ResidentCollect.v
ResidentSteps.v
ResidentRetire.v
ResidentExec.v
ResidentReach.v
Arm64Encoding.v
CodeWriter.v
Arm64Relocator.v
Arm64Machine.v
RelocatorLayout.v
RelocatorTotal.v
RelocatorSim.v
CloseRange.v
WaitDecoder.v
EventRing.v
SeccompFilter.v
SeccompPlan.v
SlotPool.v
GuestPath.v
GuestPathText.v
PathState.v
PathStorage.v
PathStateOps.v
PathTaskOps.v
PathFdOps.v
PathStateInv.v
PathMounts.v
PathTranslate.v
PathMountMoves.v
PathTreeOps.v
PathViews.v
PathSteps.v
PathObjectSteps.v
PathResolve.v
PathReleases.v
PathCopies.v
PathTaskInv.v
PathMountSteps.v
PathMountInv.v
PathMoveInv.v
PathVisible.v
PathPivotInv.v
PathCloneInv.v
PathFdInv.v
PathTreeInv.v
PathReach.v
PathMountReach.v
MountSyscalls.v
MountSyscallsReach.v
ProcStatus.v
ProcStatusLines.v
ProcStatusViews.v
VirtualFileProvider.v
VirtualFileStore.v
