(* ===== verification/Prelude.v ===== *)
(** * HookSelf: a verification library (root file)

    HookSelf lets an Android/arm64 process hook its own functions and its own
    system calls.  [src/hookself/src/main/cpp] has three libraries: an inline
    hook, which overwrites the start of a function and relocates the
    instruction it displaced; an ELF hook, which replaces relocation slots; and
    the runtime [hookself], in which a tracer (a [clone]d child that stays
    resident) runs the application's threads under [ptrace], stops them at the
    system calls a seccomp filter selects, rewrites arguments, results and
    paths, and reports events to the application.  Because the traced program
    may itself use [ptrace] and [wait4], the tracer keeps a logical world of
    processes, tracers, pending events and waiters that it answers from.

    This library models the self-contained logic of that program: the parts
    that keep state of their own and decide, apart from the parts that only
    issue system calls.  Names under [src/hookself/src/main/cpp] below are
    relative to that directory.

    ** The files

    Shared foundations:
    - [Prelude]: C integer types and their wrap-around, errno values, tactics,
      hint databases ([hook], [wrap]).
    - [Bits]: masks, shifted fields, two's complement; little-endian bytes and
      [memcpy] into a buffer.
    - [Arrays]: sorted insertion into a counted C array, shared by
      [CloseRange] and [SeccompPlan].
    - [SlotArray]: arrays of slots with an [occupied] word, a count and a free
      hint.  The class [SlotRecord] states what a record type must provide;
      the loops of the code ([find_slot], [free_slot], [validate_slots]) are
      defined once for every instance, and the array is related to the finite
      map it stands for ([slots_ok], [to_map]).  [TaskTable] and the four
      arrays of [LogicalPtrace] are instances.
    - [Chain]: bounded walks along a partial function.  A walk of [capacity]
      links is proved enough to decide whether the chain ends
      ([walk_complete]).

    The inline hook (inline_hook/internal):
    - [Arm64Encoding], [CodeWriter]: arm64_encoding.{h,cpp}.
    - [Arm64Relocator]: arm64_relocator.{h,cpp}, in a state-and-error monad.
    - [Arm64Machine]: the specification side, a small-step semantics of the
      A64 instructions the relocator reads and writes.
    - [RelocatorLayout], [RelocatorTotal], [RelocatorSim]: what a relocation
      leaves in the buffer, when it succeeds, and that the relocated code
      simulates the original instruction.

    The tracer (hookself/tracer):
    - [TaskTable]: task_table.{h,cpp}.
    - [LogicalPtrace] (data), [LogicalPtraceOps] (operations):
      logical_ptrace.{h,cpp}.  [LogicalPtraceInv], [LogicalPtraceQueue] and
      [LogicalPtracePreserve] hold the invariant, the event queues and one
      preservation lemma per operation; [LogicalPtraceSafety],
      [LogicalPtraceEvents] and [LogicalPtraceWait] hold the theorems.
    - [CloseRange]: close_range_replay.{h,cpp}.
    - [WaitDecoder]: wait_decoder.{h,cpp}.

    The runtime (hookself/internal):
    - [EventRing]: event_ring.{h,cpp}, once as sequential functions and once
      as interleaved atomic steps of one producer and one consumer.
    - [SeccompFilter]: selective_seccomp_filter.{h,cpp} and an interpreter of
      classic BPF as its specification.
    - [SeccompPlan]: selective_seccomp_plan.{h,cpp}, whose plans are compiled
      by [SeccompFilter].
    - [Dispatcher] (data, monad), [DispatcherOps] (handlers):
      logical_ptrace_dispatcher.{h,cpp}, the emulation of ptrace, wait4 and
      waitid on top of the logical table.  A handler is a function of the
      state monad [M W] over the environment [Env W]: the dispatcher, the
      logical table and the state [W] of whatever is behind the callbacks of
      [LogicalPtraceDispatchIo], which stay arbitrary.  [DispatcherInv] has the
      invariant, [DispatcherSteps] its preservation by each call on the table
      and the rules that compute postconditions, [DispatcherSafety],
      [DispatcherCalls] and [DispatcherRekey] one lemma per handler,
      [DispatcherReach] the step relation and the theorems, [DispatcherRegs]
      the user area,
      [DispatcherFrame] that no handler touches a process record.
    - [Resident]: logical_ptrace_resident_state.{h,cpp}, the index of the
      registered tasks beside the table and the dispatcher: registration,
      exit, collection of processes, retirement, renaming, exec by a thread,
      and the callbacks the dispatcher gets over the index.  [ResidentInv] has
      the invariant, [ResidentCollect] the collection loop, [ResidentSteps],
      [ResidentRetire] and [ResidentExec] one lemma per operation, [ResidentReach] the step relation and the theorems.
    - [ProcStatus]: proc_status_view.{h,cpp} and the combination of its
      rewritings in resident_session/proc_status.inc, over the bytes of the
      buffer.  [ProcStatusLines] gives each loop its meaning on the lines of
      the buffer, [ProcStatusViews] has the theorems.
    - [VirtualFileProvider]: internal/virtual_file_provider.{h,cpp}, what a
      program reads in place of /proc/<pid>/status, maps and attr/current; the
      system calls are parameters with the laws of a file that does not change
      while it is read ([FileLaws]).
    - [VirtualFileStore]: internal/virtual_file_store.{h,cpp} and
      fd_identity.h, the directory with the files that hold those contents and
      the snapshots that replace them; the file system calls are parameters
      with the laws of a directory nobody else writes to ([Laws]).
    - The path state, tracer/path_state.h with path_state/*.inc: [SlotPool]
      is one of its seven arrays; [GuestPath] has its string functions
      ([GuestPathText]: their meaning on lists of components), [PathState] the
      records and [PathStorage] the taking, sharing and giving back of slots
      (storage_validation.inc), [PathStateOps] the audit, [PathTaskOps] and
      [PathFdOps] the operations on tasks and descriptors (task_fd.inc).
      mount_translation.inc is in [PathMounts] (resolution, adding, removing,
      attributes), [PathTranslate] (paths to the host and back),
      [PathMountMoves] (recursive binds, moves, pivot_root) and [PathTreeOps]
      (mount trees and their descriptors).  A text one loop both reads and
      rewrites is modelled as a place ([FromGuest]), not as a value, and a
      buffer reused after a failed substitution keeps its old contents.
      [PathStateInv] states the invariant, with the references the running
      code holds as a parameter, and shows that it implies the audit;
      [PathViews] is an abstract account of shared descriptor tables as Unix
      has them; [PathSteps] and [PathObjectSteps] have one lemma per store,
      [PathResolve] the way of a mount to its root and the resolution as
      a relation, [PathReleases] and [PathCopies] the two
      recursive halves of the reference counting and the stored paths.  One lemma per operation: [PathTaskInv], [PathFdInv],
      [PathMountSteps], [PathMountInv], [PathMoveInv], [PathPivotInv],
      [PathCloneInv] and [PathTreeInv]; [PathVisible] says what a new mount
      changes and how paths come back.
      [PathReach] and [PathMountReach] have the theorems.
    - [MountSyscalls]: tracer/mount_syscall_state.{h,cpp}, the completed mount
      calls as operations of the path state; [MountSyscallsReach] has the
      theorems about sequences of both.

    ** What the theorems show

    - Relocation: the encoders and decoders of PC-relative instructions are
      inverse to each other within the reach of each format; a relocation
      succeeds whenever the buffer has room and the targets are in reach,
      never writes outside the buffer, and the relocated code, executed at its
      new address, reaches the state the original instruction reaches at its
      own address.
    - Tables: each operation of the task table refines an operation on a
      finite map, errors included; every reachable logical ptrace table passes
      the code's own [ValidateLogicalPtraceTable]; nobody is its own ancestor
      or tracer; a call that fails changes nothing.  The one exception the
      proofs found, a rekeying that succeeds between identities which a chain
      of tracers links, is kept out of the steps ([rekey_safe]); a theorem
      states that exactly then the table no longer passes, and it is listed as
      a finding.
    - Events and waits: pending events are a bounded queue; the wait selection
      returns the oldest reportable event of the covered tracees and what it
      selects can be consumed; the shared ring delivers every accepted event
      once, in order and unmodified under every interleaving.
    - close_range: the replay covers exactly the requested range without the
      protected descriptors, in order.
    - seccomp: a filter the validator accepts decides every system call as its
      rules say; the builder's filter is always accepted; a plan's filter
      agrees with the plan's lookup.
    - Dispatcher: every state its calls reach passes
      [ValidateLogicalPtraceDispatcher], whatever the callbacks do, as long as
      a publication that succeeds finds the tracee's previous stop taken
      ([publish_safe]) and a renaming that succeeds links nothing to itself
      ([rekey_safe]); an answered
      call gets its result once; the tracer is asked to act only on tracees of
      the caller; a held wait is woken when there is something to report, and a
      status that cannot be written loses no event; a poked register is the
      one peeked.  That an event published
      behind one that was not taken leads to a state the audit rejects is
      stated as a theorem and listed as a finding.
    - Resident state: every state the tracer reaches, the dispatcher's
      handlers included and under the same two restrictions, passes
      [ValidateLogicalPtraceResidentState], when parents and callers are
      registered tasks; the collection loop terminates and removes exactly what
      nothing needs; a retired task leaves no trace; the exec of a thread is
      atomic, and its final validation catches the chains of tracers that a
      renaming alone does not look for.
    - Views of /proc: a rewritten status parses as before and shows no tracer,
      provided its line was read to the end; rewriting settles after one pass
      and keeps the size of every buffer; stat shows no tracing stop and parses
      as before; wchan names no ptrace symbol.
    - Virtual file contents: reading returns under finitely many
      interruptions, with the whole file or EFBIG; maps comes back as exactly
      the lines that are not hidden, a line is hidden exactly when it shares an
      address with a hidden range or names one of the program's files, and
      status comes back with tracer 0.
    - Virtual file storage: after any calls with any failures the file of a
      virtual file has exactly the content last published; a publication whose
      descriptor cannot be identified afterwards is the last one of its file.
    - Path state: every table its operations lead to passes
      [ValidatePathState]; an operation that fails has changed nothing, and
      nothing a descriptor shows when it is one of the three that work on many
      mounts; one that succeeds changes the descriptors the tasks see as the
      Unix account of clone, exec, unshare, dup, close and close_range
      prescribes.  The sequences are those in which no removal takes the parent
      of a detached mount away ([leaves_no_strand]): with one, the audit fails,
      which is stated as a theorem and listed as a finding.
    - Mounts: a path resolves as a relation prescribes; a new mount is found at
      its target and removing it gives every mount and every resolution back; a
      recursive bind copies every mount below its source or leaves none; a path
      that comes back from the host leads there again; substituting a path
      prefix and substituting it back is the identity.
    - Mount system calls: whatever their arguments, paths and results they keep
      the path state consistent and, open_tree apart, the descriptors; a bind
      mount shows its source at its target.

    ** Conventions

    - A pointer parameter the code never passes as null is a value; where the
      code tests for null the parameter is an [option].  Out-parameters are
      components of the result.  A pointer into an array is the index of the
      element.  A [bool] result with an out-pointer is an [option].
    - Unsigned integers are [Z] with [u8] ... [u64] at the places where the
      code computes at that width; signed values are [Z] in range.  A C++
      enumeration whose cleared record holds a value outside the enumeration
      is kept as its [Z] value; the others are inductive types.
    - A loop with an early exit is a [Fixpoint] over the iterations left.  The
      bounds: [next_loop] of [CloseRange] runs at most once per protected
      descriptor and once more; a binary search gets the element count plus
      one; a BPF program runs at most as many steps as it has instructions,
      because every jump goes forward; the chain walks take the capacity of
      the table; a scan of lines takes the size of the buffer and one more;
      the passes of a recursive bind get the number of mounts to be cloned,
      and attaching a tree the number of mounts below its source, as the code's
      own counters do.  Each bound is proved to be enough by the theorem that
      uses it.
    - Generations are 64-bit counters.  The theorems on the path state are
      about sequences during which they cannot wrap: [generations] counts 1025
      for an operation, one for each mount it can add and one more.
    - [siginfo_t] is its 128 bytes, of which the code reads and writes the
      fields at their offsets.  [Arm64Machine] has the parameter [other] for
      the instructions that are copied unchanged; [SeccompFilter] has the
      installing system call as a parameter.
    - The interleaving model of [EventRing] lets each side read a stale value
      of the other's cursor, which is what acquire loads of a single-writer
      counter allow; everything else is sequentially consistent.

    ** Not modelled

    - The vendored trees (Dobby-master, proot-master) and the demo application:
      not this program's code.
    - inline_hook.cpp, inline_hook/internal/memory.cpp, elf_hook: page
      protections, instruction-cache flushes and walks of the ELF structures of
      loaded libraries; they are system calls and reads of foreign memory
      around the relocation modelled here.
    - hookself/internal/resident_session: the ptrace loop itself and the path
      rewriting of single system calls, almost entirely system calls on a
      stopped thread; their state is in the tables modelled here.
    - The virtual /proc files that are rendered from scratch, the gathering and
      scattering of a read's memory around [ProcStatus] (both copy the memory
      of a stopped thread), the public configuration interface, the shared
      memory layout, logging, and the self tests.
    - Null and alignment checks of pointers whose only effect is to return
      EINVAL, except where the pointer is optional. *)

From Stdlib Require Export ZArith Lia ZifyBool Bool.
From stdpp Require Export base list numbers.

#[global] Open Scope Z_scope.

(** ** C integer types

    A w-bit unsigned value is a [Z]; the wrap-around of an arithmetic
    operation is written out with the functions below, at the places where the
    C++ code performs the arithmetic at that width. *)

Definition u8 (x : Z) : Z := x mod 2 ^ 8.
Definition u16 (x : Z) : Z := x mod 2 ^ 16.
Definition u32 (x : Z) : Z := x mod 2 ^ 32.
Definition u64 (x : Z) : Z := x mod 2 ^ 64.

(** Reading the bits of an unsigned value as two's complement. *)
Definition as_signed (bits x : Z) : Z :=
  let m := x mod 2 ^ bits in
  if m <? 2 ^ (bits - 1) then m else m - 2 ^ bits.
Definition s32 (x : Z) : Z := as_signed 32 x.
Definition s64 (x : Z) : Z := as_signed 64 x.

Definition UINT32_MAX : Z := 4294967295.
Definition UINT64_MAX : Z := 18446744073709551615.
Definition INT32_MAX : Z := 2147483647.
Definition INT32_MIN : Z := -2147483648.
Definition INT64_MAX : Z := 9223372036854775807.
Definition INT64_MIN : Z := -9223372036854775808.

Declare Scope c_scope.
Delimit Scope c_scope with c.
Notation "a &&& b" := (Z.land a b) (at level 40, left associativity) : c_scope.
Notation "a ||| b" := (Z.lor a b) (at level 50, left associativity) : c_scope.
Notation "a ^^^ b" := (Z.lxor a b) (at level 50, left associativity) : c_scope.
Notation "a <<< b" := (Z.shiftl a b) (at level 38, left associativity) : c_scope.
Notation "a >>> b" := (Z.shiftr a b) (at level 38, left associativity) : c_scope.
#[global] Open Scope c_scope.

(** [~x] on a 32-bit and a 64-bit operand. *)
Definition not32 (x : Z) : Z := u32 (Z.lnot x).
Definition not64 (x : Z) : Z := u64 (Z.lnot x).

(** [(flags & mask) != 0]. *)
Definition has (flags mask : Z) : bool := negb ((flags &&& mask) =? 0).

(** ** errno values of Linux/arm64 (asm-generic) *)

Definition EPERM : Z := 1.
Definition ESRCH : Z := 3.
Definition EIO : Z := 5.
Definition E2BIG : Z := 7.
Definition ECHILD : Z := 10.
Definition EAGAIN : Z := 11.
Definition ENOMEM : Z := 12.
Definition EBUSY : Z := 16.
Definition EEXIST : Z := 17.
Definition EXDEV : Z := 18.
Definition EINVAL : Z := 22.
Definition ENOSPC : Z := 28.
Definition ELOOP : Z := 40.
Definition EPROTO : Z := 71.
Definition EOVERFLOW : Z := 75.
Definition EPROTONOSUPPORT : Z := 93.
Definition EOPNOTSUPP : Z := 95.
Definition ESTALE : Z := 116.

(** ** Hint databases and tactics *)

Create HintDb hook.
Create Rewrite HintDb wrap.

(** Split every [if] and [match] on a boolean that is in the goal. *)
Ltac split_ifs :=
  repeat match goal with
  | |- context [if ?b then _ else _] =>
      lazymatch b with context [if _ then _ else _] => fail | _ => destruct b eqn:? end
  end.

(** Split every [if] of one hypothesis. *)
Ltac split_ifs_in H :=
  repeat match type of H with
  | context [if ?b then _ else _] =>
      lazymatch b with context [if _ then _ else _] => fail | _ => destruct b eqn:? end
  end.

(** Turn boolean conjunctions and negated disjunctions in the context into
    separate hypotheses. *)
Ltac bool_hyps :=
  repeat match goal with
  | H : (_ && _)%bool = true |- _ => apply andb_true_iff in H; destruct H
  | H : (_ || _)%bool = false |- _ => apply orb_false_iff in H; destruct H
  | H : negb _ = true |- _ => apply negb_true_iff in H
  | H : negb _ = false |- _ => apply negb_false_iff in H
  end.

(** Case split on the outermost [match] scrutinee of a hypothesis. *)
Ltac destr_in H :=
  match type of H with
  | context [match ?x with _ => _ end] => destruct x eqn:?
  end.

(** ** Wrap-around lemmas *)

Lemma u32_small x : 0 <= x < 2 ^ 32 -> u32 x = x.
Proof. apply Z.mod_small. Qed.

Lemma u64_small x : 0 <= x < 2 ^ 64 -> u64 x = x.
Proof. apply Z.mod_small. Qed.

Lemma u16_small x : 0 <= x < 2 ^ 16 -> u16 x = x.
Proof. apply Z.mod_small. Qed.

Lemma u32_range x : 0 <= u32 x < 2 ^ 32.
Proof. apply Z.mod_pos_bound. reflexivity. Qed.

Lemma u64_range x : 0 <= u64 x < 2 ^ 64.
Proof. apply Z.mod_pos_bound. reflexivity. Qed.

Lemma u64_u64 x : u64 (u64 x) = u64 x.
Proof. apply u64_small, u64_range. Qed.

Lemma u64_add_l x y : u64 (u64 x + y) = u64 (x + y).
Proof. apply Zplus_mod_idemp_l. Qed.

Lemma u64_add_r x y : u64 (x + u64 y) = u64 (x + y).
Proof. apply Zplus_mod_idemp_r. Qed.

#[export] Hint Rewrite u64_u64 u64_add_l u64_add_r : wrap.
#[export] Hint Resolve u32_range u64_range : hook.

(** ** Option and list lemmas shared by the components *)

Lemma Forall_elem {A} (P : A -> Prop) l : Forall P l <-> forall x, x ∈ l -> P x.
Proof.
  split.
  - intros H x Hx. induction H; [by apply not_elem_of_nil in Hx|].
    apply elem_of_cons in Hx as [->|Hx]; auto.
  - intros H. induction l; constructor; [apply H, elem_of_cons; auto|].
    apply IHl. intros x Hx. apply H, elem_of_cons. auto.
Qed.

Lemma Forall_elem_1 {A} (P : A -> Prop) l x : Forall P l -> x ∈ l -> P x.
Proof. rewrite Forall_elem. auto. Qed.
