(* ===== verification/Bits.v ===== *)
(** * Bit-field lemmas on machine words

    Masks, shifted fields and two's complement: what the encoders of
    [Arm64Encoding] and the flag tests of the tracer components share; and
    integers as little-endian bytes in a buffer. *)

From S2P Require Import Prelude.

(** ** Masks *)

Lemma land_mask_mono x m k v :
  x &&& m = v -> k &&& m = k -> x &&& k = v &&& k.
Proof. intros Hx Hk. by rewrite <- Hx, <- Z.land_assoc, (Z.land_comm m), Hk. Qed.

Lemma land_ones_mod x n : 0 <= n -> x &&& ((1 <<< n) - 1) = x mod 2 ^ n.
Proof.
  intros. rewrite Z.shiftl_1_l.
  replace (2 ^ n - 1) with (Z.ones n) by (rewrite Z.ones_equiv; lia).
  by apply Z.land_ones.
Qed.

Lemma land_const_mod x k n :
  0 <= n -> k = 2 ^ n - 1 -> x &&& k = x mod 2 ^ n.
Proof.
  intros ? ->. replace (2 ^ n - 1) with (Z.ones n) by (rewrite Z.ones_equiv; lia).
  by apply Z.land_ones.
Qed.

Lemma mod_pow2_land x n : 0 <= n -> 0 <= x < 2 ^ n -> x = x &&& Z.ones n.
Proof. intros. rewrite Z.land_ones by lia. by rewrite Z.mod_small. Qed.

Lemma testbit_high x n i : 0 <= x < 2 ^ n -> 0 <= n <= i -> Z.testbit x i = false.
Proof.
  intros. rewrite <- (Z.mod_small x (2 ^ n)) by lia.
  by apply Z.mod_pow2_bits_high.
Qed.

(** ** A field of width [w] at position [s] *)

Lemma field_land_out imm w s k :
  0 <= s -> 0 <= imm < 2 ^ w -> 0 <= w -> (Z.ones w <<< s) &&& k = 0 ->
  (imm <<< s) &&& k = 0.
Proof.
  intros Hs Him Hw Hk.
  rewrite (mod_pow2_land imm w) by lia.
  rewrite Z.shiftl_land by lia. rewrite <- Z.land_assoc, Hk. apply Z.land_0_r.
Qed.

Lemma field_keeps x a imm w s k :
  0 <= s -> 0 <= imm < 2 ^ w -> 0 <= w ->
  (Z.ones w <<< s) &&& k = 0 -> a &&& k = k ->
  ((x &&& a) ||| (imm <<< s)) &&& k = x &&& k.
Proof.
  intros. rewrite Z.land_lor_distr_l, <- Z.land_assoc.
  rewrite (field_land_out imm w s k) by done.
  rewrite Z.lor_0_r. by f_equal.
Qed.

Lemma field_read x a imm w s :
  0 <= s -> 0 <= imm < 2 ^ w -> 0 <= w -> (a >>> s) &&& Z.ones w = 0 ->
  (((x &&& a) ||| (imm <<< s)) >>> s) &&& Z.ones w = imm.
Proof.
  intros Hs Him Hw Ha.
  rewrite Z.shiftr_lor, Z.shiftr_land, Z.shiftr_shiftl_l by lia.
  rewrite Z.sub_diag, Z.shiftl_0_r, Z.land_lor_distr_l, <- Z.land_assoc, Ha.
  rewrite Z.land_0_r, Z.lor_0_l. symmetry. by apply mod_pow2_land.
Qed.

Lemma shiftl_bound x w s b :
  0 <= s -> 0 <= x < 2 ^ w -> 0 <= w -> w + s <= b -> 0 <= x <<< s < 2 ^ b.
Proof.
  intros. rewrite Z.shiftl_mul_pow2 by lia.
  assert (2 ^ (w + s) <= 2 ^ b) by (apply Z.pow_le_mono_r; lia).
  rewrite Z.pow_add_r in * by lia. nia.
Qed.

Lemma lor_bound x y b : 0 <= b -> 0 <= x < 2 ^ b -> 0 <= y < 2 ^ b -> 0 <= x ||| y < 2 ^ b.
Proof.
  intros Hb Hx Hy. rewrite (mod_pow2_land x b), (mod_pow2_land y b) by lia.
  rewrite <- Z.land_lor_distr_l, Z.land_ones by lia.
  apply Z.mod_pos_bound. lia.
Qed.

Lemma land_bound_r x k b : 0 <= k < 2 ^ b -> 0 <= b -> 0 <= x &&& k < 2 ^ b.
Proof.
  intros Hk Hb. rewrite (mod_pow2_land k b) by lia.
  rewrite Z.land_assoc, Z.land_ones by lia. apply Z.mod_pos_bound. lia.
Qed.

Lemma split_or_mask x m1 m2 : (x &&& m1) ||| (x &&& m2) = x &&& (m1 ||| m2).
Proof. by rewrite Z.land_lor_distr_r. Qed.

Lemma lor_disjoint a b : a &&& b = 0 -> a ||| b = a + b.
Proof. intros H. by rewrite <- Z.lxor_lor, Z.add_nocarry_lxor. Qed.

Lemma lor_low_high lo hi n :
  0 <= n -> 0 <= lo < 2 ^ n -> lo ||| (hi <<< n) = lo + hi * 2 ^ n.
Proof.
  intros Hn Hlo. rewrite lor_disjoint; [by rewrite Z.shiftl_mul_pow2|].
  apply Z.bits_inj'. intros k Hk. rewrite Z.land_spec, Z.testbit_0_l, Z.shiftl_spec by lia.
  destruct (decide (k < n)).
  - rewrite (Z.testbit_neg_r _ (k - n)) by lia. apply andb_false_r.
  - by rewrite (testbit_high lo n) by lia.
Qed.

Lemma land_lxor_distr a c k : (a ^^^ c) &&& k = (a &&& k) ^^^ (c &&& k).
Proof.
  apply Z.bits_inj'. intros n _. rewrite !Z.land_spec, !Z.lxor_spec, !Z.land_spec.
  by destruct (Z.testbit a n), (Z.testbit c n), (Z.testbit k n).
Qed.

(** Flipping bits outside a mask does not change the masked value. *)
Lemma lxor_keeps a c k : c &&& k = 0 -> (a ^^^ c) &&& k = a &&& k.
Proof. intros H. by rewrite land_lxor_distr, H, Z.lxor_0_r. Qed.

Lemma lxor_bound x y b : 0 <= b -> 0 <= x < 2 ^ b -> 0 <= y < 2 ^ b -> 0 <= x ^^^ y < 2 ^ b.
Proof.
  intros Hb Hx Hy. rewrite (mod_pow2_land x b), (mod_pow2_land y b) by lia.
  rewrite <- land_lxor_distr, Z.land_ones by lia. apply Z.mod_pos_bound. lia.
Qed.

Lemma lxor_involutive a c : (a ^^^ c) ^^^ c = a.
Proof. by rewrite Z.lxor_assoc, Z.lxor_nilpotent, Z.lxor_0_r. Qed.

(** A word cleared of a field, with the field put back, is the word. *)
Lemma field_restore x a w s b :
  0 <= s -> 0 <= w -> 0 <= b -> 0 <= x < 2 ^ b -> a ||| (Z.ones w <<< s) = Z.ones b ->
  (x &&& a) ||| (((x >>> s) &&& Z.ones w) <<< s) = x.
Proof.
  intros Hs Hw Hb Hx Ha.
  rewrite Z.shiftl_land by lia.
  assert (((x >>> s) <<< s) &&& (Z.ones w <<< s) = x &&& (Z.ones w <<< s)) as ->.
  { apply Z.bits_inj'. intros n Hn. rewrite !Z.land_spec, !Z.shiftl_spec by lia.
    destruct (decide (n < s)).
    - rewrite !(Z.testbit_neg_r _ (n - s)) by lia. by rewrite !andb_false_r.
    - rewrite Z.shiftr_spec by lia. by replace (n - s + s) with n by lia. }
  rewrite split_or_mask, Ha. symmetry. by apply mod_pow2_land.
Qed.

(** ** Two's complement *)

Lemma mod_pow2_low x a b : 0 <= b <= a -> (x mod 2 ^ a) mod 2 ^ b = x mod 2 ^ b.
Proof.
  intros. apply Z.mod_mod_divide. exists (2 ^ (a - b)).
  rewrite <- Z.pow_add_r by lia. f_equal. lia.
Qed.

Lemma as_signed_unique b x y :
  0 < b -> - 2 ^ (b - 1) <= y < 2 ^ (b - 1) -> x mod 2 ^ b = y mod 2 ^ b ->
  as_signed b x = y.
Proof.
  intros Hb Hy Heq. unfold as_signed. rewrite Heq.
  assert (2 ^ b = 2 * 2 ^ (b - 1)) as Hp.
  { replace b with (Z.succ (b - 1)) at 1 by lia. rewrite Z.pow_succ_r by lia. lia. }
  destruct (decide (0 <= y)).
  - rewrite Z.mod_small by lia. destruct (Z.ltb_spec y (2 ^ (b - 1))); lia.
  - assert (y mod 2 ^ b = y + 2 ^ b) as ->.
    { rewrite <- (Z.mod_small (y + 2 ^ b) (2 ^ b)) by lia.
      rewrite <- (Z.mul_1_l (2 ^ b)) at 2. by rewrite Z_mod_plus_full. }
    destruct (Z.ltb_spec (y + 2 ^ b) (2 ^ (b - 1))); lia.
Qed.

Lemma as_signed_range b x :
  0 < b -> - 2 ^ (b - 1) <= as_signed b x < 2 ^ (b - 1).
Proof.
  intros Hb. unfold as_signed.
  assert (2 ^ b = 2 * 2 ^ (b - 1)) as Hp.
  { replace b with (Z.succ (b - 1)) at 1 by lia. rewrite Z.pow_succ_r by lia. lia. }
  pose proof (Z.mod_pos_bound x (2 ^ b) ltac:(lia)).
  destruct (Z.ltb_spec (x mod 2 ^ b) (2 ^ (b - 1))); lia.
Qed.

Lemma as_signed_mod b x : 0 < b -> as_signed b x mod 2 ^ b = x mod 2 ^ b.
Proof.
  intros Hb. unfold as_signed.
  assert (0 < 2 ^ b) by lia.
  destruct (Z.ltb_spec (x mod 2 ^ b) (2 ^ (b - 1))).
  - by rewrite Z.mod_mod by lia.
  - rewrite <- (Z.mul_1_l (2 ^ b)) at 2. rewrite <- Z.add_opp_r, <- Z.mul_opp_l.
    rewrite Z_mod_plus_full. by rewrite Z.mod_mod by lia.
Qed.

Lemma land_pow2_zero m b :
  0 <= b -> 0 <= m < 2 ^ (b + 1) -> (m &&& (1 <<< b) = 0 <-> m < 2 ^ b).
Proof.
  intros Hb Hm. rewrite Z.shiftl_1_l.
  assert (Z.testbit m b = (2 ^ b <=? m)) as Ht.
  { rewrite Z.testbit_eqb by lia.
    assert (2 ^ (b + 1) = 2 * 2 ^ b) by (rewrite Z.pow_add_r by lia; lia).
    destruct (Z.leb_spec (2 ^ b) m).
    - replace (m / 2 ^ b) with 1; [done|].
      apply Z.div_unique with (m - 2 ^ b); lia.
    - rewrite Z.div_small by lia. done. }
  split.
  - intros H0. destruct (decide (m < 2 ^ b)); [done|exfalso].
    assert (Z.testbit (m &&& 2 ^ b) b = true) as Hb1.
    { rewrite Z.land_spec, Z.pow2_bits_true, Ht by lia. lia. }
    rewrite H0, Z.testbit_0_l in Hb1. done.
  - intros Hlt. apply Z.bits_inj'. intros n Hn.
    rewrite Z.land_spec, Z.testbit_0_l, Z.pow2_bits_eqb by lia.
    destruct (Z.eqb_spec b n) as [->|]; [|apply andb_false_r].
    rewrite Ht. destruct (Z.leb_spec (2 ^ n) m); [lia|done].
Qed.

(** ** Flags *)

Lemma has_lor_same f m : m <> 0 -> has (f ||| m) m = true.
Proof.
  intros. unfold has. rewrite Z.land_lor_distr_l, Z.land_diag.
  apply negb_true_iff, Z.eqb_neq. intros H0.
  apply Z.lor_eq_0_iff in H0. tauto.
Qed.

Lemma has_pow2 x b : 0 <= b -> has x (2 ^ b) = Z.testbit x b.
Proof.
  intros Hb. unfold has. destruct (Z.testbit x b) eqn:E.
  - apply negb_true_iff, Z.eqb_neq. intros H0.
    assert (Z.testbit (x &&& 2 ^ b) b = true) as H1
      by (by rewrite Z.land_spec, E, Z.pow2_bits_true by lia).
    by rewrite H0, Z.testbit_0_l in H1.
  - apply negb_false_iff, Z.eqb_eq. apply Z.bits_inj'. intros n Hn.
    rewrite Z.land_spec, Z.testbit_0_l, Z.pow2_bits_eqb by lia.
    destruct (Z.eqb_spec b n) as [<-|]; [by rewrite E|apply andb_false_r].
Qed.

(** Setting, clearing and testing flags. *)
Lemma has_lor_disjoint a b c : b &&& c = 0 -> has (a ||| b) c = has a c.
Proof. intros H. unfold has. by rewrite Z.land_lor_distr_l, H, Z.lor_0_r. Qed.

Lemma has_land a b c : has (a &&& b) c = has a (b &&& c).
Proof. unfold has. by rewrite Z.land_assoc. Qed.

Lemma has_union x a b : has x (a ||| b) = has x a || has x b.
Proof.
  unfold has. rewrite Z.land_lor_distr_r. rewrite <- negb_andb. f_equal. apply eq_bool_prop_intro.
  rewrite !Is_true_true, andb_true_iff, !Z.eqb_eq. apply Z.lor_eq_0_iff.
Qed.

(** ** Bytes in memory *)

(** ** Little-endian bytes *)

Fixpoint le_bytes (n : nat) (v : Z) : list Z :=
  match n with
  | O => []
  | S n => u8 v :: le_bytes n (v >>> 8)
  end.

Fixpoint le_value (bs : list Z) : Z :=
  match bs with
  | [] => 0
  | b :: bs => b + 256 * le_value bs
  end.

(** [memcpy(buffer + offset, bytes, length)]. *)
Definition write_bytes (buffer : list Z) (offset : Z) (bs : list Z) : list Z :=
  take (Z.to_nat offset) buffer ++ bs ++ drop (Z.to_nat offset + length bs) buffer.

(** ** Byte lemmas *)

Lemma length_le_bytes n v : length (le_bytes n v) = n.
Proof. revert v. induction n as [|n IH]; intros; simpl; [done|by rewrite IH]. Qed.

Lemma le_value_bytes n v : le_value (le_bytes n v) = v mod 2 ^ (8 * Z.of_nat n).
Proof.
  revert v. induction n as [|n IH]; intros v; simpl le_bytes; simpl le_value.
  - by rewrite Z.mod_1_r.
  - rewrite IH. unfold u8. rewrite Z.shiftr_div_pow2 by lia.
    replace (8 * Z.of_nat (S n)) with (8 + 8 * Z.of_nat n) by lia.
    rewrite Z.pow_add_r, Z.rem_mul_r by lia. lia.
Qed.

Lemma le_bytes_app n m v :
  le_bytes (n + m) v = le_bytes n v ++ le_bytes m (v >>> (8 * Z.of_nat n)).
Proof.
  revert v. induction n as [|n IH]; intros v; simpl; [by rewrite Z.shiftr_0_r|].
  f_equal. rewrite IH. do 2 f_equal. rewrite Z.shiftr_shiftr by lia. f_equal. lia.
Qed.
