(* ===== verification/Arrays.v ===== *)
(** * Sorted insertion into a counted C array

    Two components keep a sorted prefix in a fixed-size array: the scan for the
    insertion point and the loop that shifts the tail up are the same code. *)

From S2P Require Import Prelude.
From stdpp Require Import list sorting.
#[local] Open Scope Z_scope.

(** The scan: [n] entries before the count, [below] the loop condition. *)
Fixpoint insert_position {A} `{Inhabited A} (n : nat) (arr : list A) (below : A -> bool)
    (insert : nat) : nat :=
  match n with
  | O => insert
  | S n => if below (arr !!! insert) then insert_position n arr below (S insert) else insert
  end.

(** The shift loop, from [insert + n] down to [insert + 1]. *)
Fixpoint shift_up {A} `{Inhabited A} (n : nat) (insert : nat) (arr : list A) : list A :=
  match n with
  | O => arr
  | S m => shift_up m insert (<[(insert + n)%nat := arr !!! (insert + n - 1)%nat]> arr)
  end.

Lemma insert_middle {A} (l1 l2 : list A) x y :
  <[length l1 := y]> (l1 ++ x :: l2) = l1 ++ y :: l2.
Proof.
  rewrite <- (Nat.add_0_r (length l1)). by rewrite insert_app_r.
Qed.

Section Arrays.
Context {A : Type} `{Inhabited A}.

(** The scan stops behind the longest prefix that is [below]. *)
Lemma insert_position_spec (lo hi pre rest : list A) (below : A -> bool) :
  Forall (fun p => below p = true) lo ->
  match hi with [] => True | p :: _ => below p = false end ->
  insert_position (length (lo ++ hi)) (pre ++ lo ++ hi ++ rest) below (length pre)
    = length (pre ++ lo).
Proof.
  intros Hlo Hhi. revert pre. induction Hlo as [|p lo Hp Hlo IH]; intros pre; simpl.
  - rewrite app_nil_r. destruct hi as [|p hi]; [done|]. simpl.
    rewrite list_lookup_total_middle by done. by rewrite Hhi.
  - rewrite list_lookup_total_middle by done. rewrite Hp.
    specialize (IH (pre ++ [p])). rewrite <- !app_assoc in IH. simpl in IH.
    rewrite <- IH. f_equal. rewrite length_app. simpl. lia.
Qed.

(** Shifting and storing is insertion. *)
Lemma shift_up_spec n pre mid x rest (y : A) :
  length mid = n ->
  <[length pre := y]> (shift_up n (length pre) (pre ++ mid ++ x :: rest))
    = pre ++ y :: mid ++ rest.
Proof.
  revert mid x rest. induction n as [|n IH]; intros mid x rest Hn.
  - destruct mid; [|done]. simpl. by rewrite insert_middle.
  - destruct mid as [|z mid _] using rev_ind; [done|].
    rewrite length_app in Hn. simpl in Hn.
    cbn [shift_up]. rewrite <- !app_assoc. cbn [app].
    rewrite !(app_assoc pre mid).
    rewrite list_lookup_total_middle by (rewrite length_app; lia).
    replace (length pre + S n)%nat with (length ((pre ++ mid) ++ [z]))
      by (rewrite !length_app; simpl; lia).
    rewrite (app_assoc (pre ++ mid) [z] (x :: rest) : (pre ++ mid) ++ z :: x :: rest = _).
    rewrite insert_middle. rewrite <- !app_assoc. cbn [app].
    rewrite IH by lia. done.
Qed.
End Arrays.

(** ** The sorted list the array holds *)

Definition strictly_sorted (l : list Z) : Prop := StronglySorted Z.lt l.

(** Sorted insertion without duplicates. *)
Fixpoint sinsert (fd : Z) (ps : list Z) : list Z :=
  match ps with
  | [] => [fd]
  | p :: ps' => if p <? fd then p :: sinsert fd ps' else if p =? fd then ps else fd :: ps
  end.

Lemma sinsert_elem fd ps x : x ∈ sinsert fd ps <-> x = fd \/ x ∈ ps.
Proof.
  induction ps as [|p ps IH]; simpl.
  - rewrite list_elem_of_singleton. split; [by left|]. by intros [?|?%not_elem_of_nil].
  - destruct (Z.ltb_spec p fd); [rewrite !elem_of_cons, IH; tauto|].
    destruct (Z.eqb_spec p fd); rewrite !elem_of_cons; [subst; tauto|tauto].
Qed.

Lemma sinsert_sorted fd ps : strictly_sorted ps -> strictly_sorted (sinsert fd ps).
Proof.
  intros Hs. induction Hs as [|p ps Hs IH Hp]; simpl; [by repeat constructor|].
  destruct (Z.ltb_spec p fd).
  - constructor; [done|]. apply Forall_elem. intros x [->|Hx]%sinsert_elem; [done|].
    by apply (Forall_elem_1 _ _ _ Hp).
  - destruct (Z.eqb_spec p fd); [by constructor|].
    constructor; [by constructor|]. constructor; [lia|].
    eapply Forall_impl; [done|]. simpl. lia.
Qed.

Lemma sinsert_length fd ps : (length (sinsert fd ps) <= S (length ps))%nat.
Proof. induction ps as [|p ps IH]; simpl; [done|]. split_ifs; simpl; lia. Qed.

(** The split the scan finds. *)
Lemma sinsert_split fd ps :
  exists lo hi, ps = lo ++ hi /\ Forall (fun p => p < fd) lo /\
    match hi with
    | [] => sinsert fd ps = lo ++ [fd]
    | p :: _ => fd <= p /\ sinsert fd ps = lo ++ (if p =? fd then hi else fd :: hi)
    end.
Proof.
  induction ps as [|p ps (lo & hi & -> & Hlo & Hhi)]; [by exists [], []|]. simpl.
  destruct (Z.ltb_spec p fd).
  - exists (p :: lo), hi. split; [done|]. split; [by constructor|].
    destruct hi as [|q hi]; simpl; [by rewrite Hhi|]. destruct Hhi as [? ->]. done.
  - exists [], (p :: lo ++ hi). simpl. split; [done|]. split; [constructor|]. split; [lia|done].
Qed.

(** Scanning and shifting an array of keyed entries inserts the key. *)
Lemma sorted_array_insert {A} `{Inhabited A} (key : A -> Z) (mk : Z -> A) ps rest x v :
  (forall n, key (mk n) = n) ->
  let arr := (mk <$> ps) ++ x :: rest in
  let insert := insert_position (length ps) arr (fun p => key p <? v) 0 in
  let present := (insert <? length ps)%nat && (key (arr !!! insert) =? v) in
  (present = true /\ sinsert v ps = ps) \/
  (present = false /\
   <[insert := mk v]> (shift_up (length ps - insert) insert arr) = (mk <$> sinsert v ps) ++ rest /\
   length (sinsert v ps) = S (length ps)).
Proof.
  intros Hk. cbv zeta. destruct (sinsert_split v ps) as (lo & hi & -> & Hlo & Hhi).
  pose proof (insert_position_spec (mk <$> lo) (mk <$> hi) [] (x :: rest) (fun p => key p <? v)) as Hpos.
  rewrite length_app, !length_fmap, <- length_app in Hpos. simpl app in Hpos.
  rewrite fmap_app, <- app_assoc. change (length []) with 0%nat in Hpos. rewrite Hpos; clear Hpos.
  2: { apply Forall_elem. intros p (n & -> & Hn)%list_elem_of_fmap. rewrite Hk.
       pose proof (Forall_elem_1 _ _ _ Hlo Hn). simpl in *. lia. }
  2: { destruct hi; [done|]. simpl. rewrite Hk. destruct Hhi. lia. }
  assert (length (mk <$> lo) = length lo) as El by apply length_fmap. rewrite El.
  destruct hi as [|p hi].
  - right. rewrite app_nil_r in Hhi |- *. rewrite Nat.ltb_irrefl, Nat.sub_diag, Hhi.
    split; [done|]. split; [|rewrite length_app; simpl; lia].
    pose proof (shift_up_spec 0 (mk <$> lo) [] x rest (mk v) eq_refl) as Hs. rewrite El in Hs.
    simpl in Hs |- *. rewrite Hs, fmap_app, <- app_assoc. done.
  - destruct Hhi as [Hle Hsi]. rewrite length_app.
    rewrite (proj2 (Nat.ltb_lt _ _)) by (simpl; lia). rewrite fmap_cons.
    change ((mk p :: (mk <$> hi)) ++ x :: rest) with (mk p :: (mk <$> hi) ++ x :: rest).
    rewrite list_lookup_total_middle by done. rewrite Hk. cbn [andb].
    destruct (Z.eqb_spec p v) as [->|]; [by left|right]. split; [done|]. rewrite Hsi. split.
    + replace (length lo + length (p :: hi) - length lo)%nat with (length (mk <$> (p :: hi)))
        by (rewrite length_fmap; lia).
      pose proof (shift_up_spec _ (mk <$> lo) (mk <$> p :: hi) x rest (mk v) eq_refl) as Hs.
      rewrite El in Hs. cbn [fmap list_fmap app] in Hs |- *. rewrite Hs, fmap_app, <- app_assoc. done.
    + rewrite !length_app. simpl. lia.
Qed.
