(* ===== verification/SlotArray.v ===== *)
(** * Fixed arrays of slots

    The task table and the four arrays of the logical ptrace table are the same
    data structure: an array of records that carry their own index and an
    [occupied] word, a count of the records in use and a hint where the scan
    for a free slot starts. The loops of the C++ code over such an array are
    defined here once, for every record type that is an instance of
    [SlotRecord]; the invariant they check and the finite map the array stands
    for are the interface the tables' theorems are proved against. *)

From S2P Require Import Prelude.
From stdpp Require Import list gmap.
#[local] Open Scope Z_scope.

(** What the loops read of a record. [sr_same] is the key comparison of the
    code, which is equality on the keys the code considers valid. *)
Class SlotRecord (A K : Type) := {
  sr_occupied : A -> Z;
  sr_slot : A -> Z;
  sr_key : A -> K;
  sr_same : K -> K -> bool;
  sr_key_ok : K -> bool;
  sr_same_spec : forall k k', sr_key_ok k = true -> sr_key_ok k' = true ->
    sr_same k k' = true <-> k = k' }.

(** The first index whose record satisfies [p]. *)
Fixpoint find_index {A} (p : A -> bool) (arr : list A) : option nat :=
  match arr with
  | [] => None
  | r :: rest => if p r then Some O else option_map S (find_index p rest)
  end.

(** AdvanceHint: the slot after the one just taken, wrapping at the capacity. *)
Definition advance_hint (slot capacity : Z) : Z :=
  let hint := u32 (slot + 1) in if hint =? capacity then 0 else hint.

Section Slots.
Context {A K : Type} `{SlotRecord A K} `{Inhabited A}.

(** [record.occupied != 0U]. *)
Definition in_use (r : A) : bool := negb (sr_occupied r =? 0).

(** The search loop of the Find functions. *)
Definition find_slot (k : K) (arr : list A) : option nat :=
  find_index (fun r => in_use r && sr_same (sr_key r) k) arr.

(** The scan for a free slot: [offset] counts up, the candidate wraps around. *)
Fixpoint free_scan (n : nat) (hint offset capacity : Z) (arr : list A) : option Z :=
  match n with
  | O => None
  | S n =>
    let candidate := u32 (hint + offset) in
    let candidate := if capacity <=? candidate then u32 (candidate - capacity) else candidate in
    if in_use (arr !!! Z.to_nat candidate) then free_scan n hint (offset + 1) capacity arr
    else Some candidate
  end.
Definition free_slot (hint : Z) (arr : list A) : option Z :=
  free_scan (length arr) hint 0 (Z.of_nat (length arr)) arr.

(** The loop of the Validate functions: the slot number, the [occupied] word,
    the contents of a vacant record, those of an entry, and no later entry
    with the same key; the entries are counted. *)
Fixpoint validate_slots (vacant entry : A -> bool) (slot count : Z) (arr : list A) : option Z :=
  match arr with
  | [] => Some count
  | r :: rest =>
    if negb (sr_slot r =? slot) || (1 <? sr_occupied r) then None
    else if sr_occupied r =? 0 then
      if vacant r then validate_slots vacant entry (slot + 1) count rest else None
    else if negb (entry r) then None
    else if existsb (fun other => in_use other && sr_same (sr_key r) (sr_key other)) rest then None
    else validate_slots vacant entry (slot + 1) (count + 1) rest
  end.

(** ** The invariant the loop checks *)

Definition weight (r : A) : Z := if in_use r then 1 else 0.
Fixpoint used (arr : list A) : Z :=
  match arr with [] => 0 | r :: rest => weight r + used rest end.

Definition record_ok (vacant entry : A -> Prop) (r : A) : Prop :=
  (in_use r = false /\ vacant r) \/ (in_use r = true /\ sr_occupied r <= 1 /\ entry r).

Record slots_ok (cap : nat) (vacant entry : A -> Prop) (arr : list A) (count : Z) : Prop := {
  so_length : length arr = cap;
  so_slot : forall i r, arr !! i = Some r -> sr_slot r = Z.of_nat i;
  so_record : forall i r, arr !! i = Some r -> record_ok vacant entry r;
  so_unique : forall i j r r', arr !! i = Some r -> arr !! j = Some r' ->
    in_use r = true -> in_use r' = true -> sr_key r = sr_key r' -> i = j;
  so_count : used arr = count }.

(** A record in use and its index. *)
Definition entry_at (arr : list A) (i : nat) (r : A) : Prop := arr !! i = Some r /\ in_use r = true.

Lemma used_bounds arr : 0 <= used arr <= Z.of_nat (length arr).
Proof. induction arr; simpl; [lia|]. unfold weight. case_match; lia. Qed.

Lemma used_insert arr i r r' : arr !! i = Some r ->
  used (<[i := r']> arr) = used arr - weight r + weight r'.
Proof.
  revert i. induction arr as [|x arr IH]; intros [|i] Hi; simplify_eq/=; [lia|].
  rewrite (IH i) by done. lia.
Qed.

Lemma used_full arr : used arr = Z.of_nat (length arr) -> forall i r, arr !! i = Some r -> in_use r = true.
Proof.
  induction arr as [|x arr IH]; simpl; intros Hu i r Hi; [done|].
  pose proof (used_bounds arr). unfold weight in Hu.
  destruct (in_use x) eqn:E; [|lia]. destruct i; simplify_eq/=; [done|]. apply (IH ltac:(lia) i r Hi).
Qed.

Lemma used_free arr : used arr < Z.of_nat (length arr) ->
  exists i r, arr !! i = Some r /\ in_use r = false.
Proof.
  induction arr as [|x arr IH]; simpl; [lia|]. intros Hu.
  destruct (in_use x) eqn:E; [|by exists O, x]. unfold weight in Hu. rewrite E in Hu.
  destruct IH as (i & r & ? & ?); [lia|]. by exists (S i), r.
Qed.

(** ** Searching *)

Lemma find_index_Some (p : A -> bool) arr i : find_index p arr = Some i ->
  exists r, arr !! i = Some r /\ p r = true.
Proof.
  revert i. induction arr as [|x arr IH]; intros i; simpl; [done|].
  destruct (p x) eqn:E; [intros [= <-]; by exists x|].
  destruct (find_index p arr) as [j|]; simpl; [intros [= <-]; by apply IH|done].
Qed.

Lemma find_index_None (p : A -> bool) arr : find_index p arr = None ->
  forall i r, arr !! i = Some r -> p r = false.
Proof.
  induction arr as [|x arr IH]; simpl; intros Hf i r Hi; [done|].
  destruct (p x) eqn:E; [done|]. destruct i; simplify_eq/=; [done|].
  apply (IH ltac:(by destruct (find_index p arr)) i r Hi).
Qed.

Section Invariant.
Context {cap : nat} {vacant entry : A -> Prop}.
Hypothesis entry_key : forall r, entry r -> sr_key_ok (sr_key r) = true.

Lemma entry_at_ok arr count i r : slots_ok cap vacant entry arr count -> entry_at arr i r ->
  entry r /\ sr_occupied r <= 1 /\ sr_slot r = Z.of_nat i /\ (i < cap)%nat.
Proof.
  intros Hs [Hi Hu]. destruct (so_record _ _ _ _ _ Hs i r Hi) as [[? _]|(_ & ? & ?)]; [congruence|].
  split; [done|]. split; [done|]. split; [by apply (so_slot _ _ _ _ _ Hs)|].
  rewrite <- (so_length _ _ _ _ _ Hs). by apply lookup_lt_Some in Hi.
Qed.

Lemma find_slot_Some arr count k i : slots_ok cap vacant entry arr count -> sr_key_ok k = true ->
  find_slot k arr = Some i <-> exists r, entry_at arr i r /\ sr_key r = k.
Proof.
  intros Hs Hk.
  assert (forall j, find_slot k arr = Some j -> exists r, entry_at arr j r /\ sr_key r = k) as Hf.
  { intros j (r & Hj & Hp)%find_index_Some. apply andb_true_iff in Hp as [Hu He].
    exists r. split; [done|]. destruct (entry_at_ok arr count j r Hs) as (Hr & _); [done|].
    apply sr_same_spec in He; auto. }
  split; [apply Hf|]. intros (r & [Hi Hu] & <-). destruct (find_slot (sr_key r) arr) as [j|] eqn:E.
  - destruct (Hf j eq_refl) as (r' & [Hj Hu'] & Hkk). f_equal. by eapply (so_unique _ _ _ _ _ Hs).
  - pose proof (find_index_None _ _ E i r Hi) as Hp. simpl in Hp.
    rewrite Hu, (proj2 (sr_same_spec _ _ Hk Hk) eq_refl) in Hp. done.
Qed.

Lemma find_slot_None arr count k : slots_ok cap vacant entry arr count -> sr_key_ok k = true ->
  find_slot k arr = None <-> forall i r, entry_at arr i r -> sr_key r <> k.
Proof.
  intros Hs Hk. split.
  - intros Hn i r Hi Hr. rewrite (proj2 (find_slot_Some arr count k i Hs Hk)) in Hn; [done|by exists r].
  - intros Hn. destruct (find_slot k arr) as [i|] eqn:E; [|done].
    apply (find_slot_Some arr count k i Hs Hk) in E as (r & Hi & Hr). by destruct (Hn i r Hi).
Qed.

(** ** Changing one slot *)

Lemma slots_ok_mono (entry' : A -> Prop) arr count :
  (forall i r, entry_at arr i r -> entry r -> entry' r) ->
  slots_ok cap vacant entry arr count -> slots_ok cap vacant entry' arr count.
Proof.
  intros Hm Hs. split; try apply Hs.
  intros i r Hi. destruct (so_record _ _ _ _ _ Hs i r Hi) as [?|(? & ? & ?)]; [by left|].
  right. split; [done|]. split; [done|]. by apply (Hm i r).
Qed.

Lemma slots_ok_set (entry' : A -> Prop) arr count i r r' :
  slots_ok cap vacant entry arr count -> arr !! i = Some r ->
  sr_slot r' = Z.of_nat i -> record_ok vacant entry' r' ->
  (in_use r' = true -> forall j r0, j <> i -> entry_at arr j r0 -> sr_key r0 <> sr_key r') ->
  (forall j r0, j <> i -> entry_at arr j r0 -> entry r0 -> entry' r0) ->
  slots_ok cap vacant entry' (<[i := r']> arr) (count - weight r + weight r').
Proof.
  intros Hs Hi Hsl Hr' Hfresh Hm.
  assert (forall j x, <[i := r']> arr !! j = Some x -> (j = i /\ x = r') \/ (j <> i /\ arr !! j = Some x)) as Hl.
  { intros j x. destruct (decide (j = i)) as [->|].
    - rewrite list_lookup_insert_eq by (by eapply lookup_lt_Some). intros [= <-]. by left.
    - rewrite list_lookup_insert_ne by done. by right. }
  split.
  - rewrite length_insert. apply Hs.
  - intros j x [[-> ->]|[? Hj]]%Hl; [done|]. by apply (so_slot _ _ _ _ _ Hs).
  - intros j x [[-> ->]|[? Hj]]%Hl; [done|].
    destruct (so_record _ _ _ _ _ Hs j x Hj) as [?|(? & ? & ?)]; [by left|]. right.
    split; [done|]. split; [done|]. by apply (Hm j x).
  - intros j1 j2 x1 x2 [[-> ->]|[? Hj1]]%Hl [[-> ->]|[? Hj2]]%Hl Hu1 Hu2 Hk; [done| | |].
    + symmetry in Hk. by apply (Hfresh Hu1 j2 x2) in Hk.
    + by apply (Hfresh Hu2 j1 x1) in Hk.
    + by eapply (so_unique _ _ _ _ _ Hs).
  - rewrite (used_insert _ _ r) by done. rewrite (so_count _ _ _ _ _ Hs). done.
Qed.

(** An entry replaced by one with the same key. *)
Lemma slots_ok_update (entry' : A -> Prop) arr count i r r' :
  slots_ok cap vacant entry arr count -> entry_at arr i r ->
  sr_slot r' = sr_slot r -> sr_occupied r' = sr_occupied r -> sr_key r' = sr_key r -> entry' r' ->
  (forall j r0, j <> i -> entry_at arr j r0 -> entry r0 -> entry' r0) ->
  slots_ok cap vacant entry' (<[i := r']> arr) count.
Proof.
  intros Hs [Hi Hu] Hsl Ho Hk He Hm.
  assert (in_use r' = true) as Hu' by (unfold in_use in *; by rewrite Ho).
  replace count with (count - weight r + weight r') by (unfold weight; rewrite Hu, Hu'; lia).
  destruct (entry_at_ok _ _ i r Hs) as (_ & ? & ? & _); [done|].
  eapply slots_ok_set; eauto.
  - congruence.
  - right. split; [done|]. split; [lia|done].
  - intros _ j r0 Hj [Hj0 Hu0] Hkk. apply Hj. eapply (so_unique _ _ _ _ _ Hs); eauto. congruence.
Qed.

(** A free slot filled with a new key. *)
Lemma slots_ok_fill (entry' : A -> Prop) arr count i r r' :
  slots_ok cap vacant entry arr count -> arr !! i = Some r -> in_use r = false ->
  sr_slot r' = Z.of_nat i -> sr_occupied r' = 1 -> entry' r' ->
  (forall j r0, entry_at arr j r0 -> sr_key r0 <> sr_key r') ->
  (forall j r0, entry_at arr j r0 -> entry r0 -> entry' r0) ->
  slots_ok cap vacant entry' (<[i := r']> arr) (count + 1).
Proof.
  intros Hs Hi Hu Hsl Ho He Hf Hm.
  assert (in_use r' = true) as Hu' by (unfold in_use; by rewrite Ho).
  replace (count + 1) with (count - weight r + weight r') by (unfold weight; rewrite Hu, Hu'; lia).
  eapply slots_ok_set; eauto. right. split; [done|]. split; [lia|done].
Qed.

(** An entry cleared. *)
Lemma slots_ok_clear (entry' : A -> Prop) arr count i r r' :
  slots_ok cap vacant entry arr count -> entry_at arr i r ->
  sr_slot r' = Z.of_nat i -> in_use r' = false -> vacant r' ->
  (forall j r0, j <> i -> entry_at arr j r0 -> entry r0 -> entry' r0) ->
  slots_ok cap vacant entry' (<[i := r']> arr) (count - 1).
Proof.
  intros Hs [Hi Hu] Hsl Hu' Hv Hm.
  replace (count - 1) with (count - weight r + weight r') by (unfold weight; rewrite Hu, Hu'; lia).
  eapply slots_ok_set; eauto; [by left|]. by rewrite Hu'.
Qed.

(** Every record rewritten in place, the keys staying distinct. *)
Lemma slots_ok_fmap (entry' : A -> Prop) (f : A -> A) arr count :
  slots_ok cap vacant entry arr count ->
  (forall r, sr_slot (f r) = sr_slot r /\ sr_occupied (f r) = sr_occupied r) ->
  (forall r, in_use r = false -> f r = r) ->
  (forall i r, entry_at arr i r -> entry r -> entry' (f r)) ->
  (forall i j r r', entry_at arr i r -> entry_at arr j r' -> sr_key (f r) = sr_key (f r') ->
    sr_key r = sr_key r') ->
  slots_ok cap vacant entry' (f <$> arr) count.
Proof.
  intros Hs Hf Hfree He Hk.
  assert (forall r, in_use (f r) = in_use r) as Hu by (intros r; unfold in_use; by rewrite (proj2 (Hf r))).
  split.
  - rewrite length_fmap. apply Hs.
  - intros i r' (r & -> & Hi)%list_lookup_fmap_Some. rewrite (proj1 (Hf r)). by apply (so_slot _ _ _ _ _ Hs).
  - intros i r' (r & -> & Hi)%list_lookup_fmap_Some.
    destruct (so_record _ _ _ _ _ Hs i r Hi) as [[Hfr Hv]|(Hus & Ho & Hen)].
    + left. by rewrite Hfree.
    + right. rewrite Hu, (proj2 (Hf r)). split; [done|]. split; [done|]. by apply (He i).
  - intros i j r1' r2' (r1 & -> & Hi)%list_lookup_fmap_Some (r2 & -> & Hj)%list_lookup_fmap_Some.
    rewrite !Hu. intros Hu1 Hu2 Hkk. apply (so_unique _ _ _ _ _ Hs i j r1 r2 Hi Hj Hu1 Hu2).
    by apply (Hk i j).
  - rewrite <- (so_count _ _ _ _ _ Hs). clear -Hu. induction arr as [|x arr IH]; [done|].
    cbn. unfold weight. by rewrite Hu, IH.
Qed.

Lemma slots_ok_count arr count : slots_ok cap vacant entry arr count -> 0 <= count <= Z.of_nat cap.
Proof.
  intros Hs. rewrite <- (so_count _ _ _ _ _ Hs), <- (so_length _ _ _ _ _ Hs). apply used_bounds.
Qed.
End Invariant.

(** ** The validation loop decides the invariant *)

Definition later_distinct (r : A) (rest : list A) : Prop :=
  forall j r', rest !! j = Some r' -> in_use r = true -> in_use r' = true -> sr_key r <> sr_key r'.
Fixpoint all_distinct (arr : list A) : Prop :=
  match arr with [] => True | r :: rest => later_distinct r rest /\ all_distinct rest end.

Lemma all_distinct_unique arr : all_distinct arr <->
  (forall i j r r', arr !! i = Some r -> arr !! j = Some r' ->
    in_use r = true -> in_use r' = true -> sr_key r = sr_key r' -> i = j).
Proof.
  induction arr as [|x arr IH]; [split; [intros _ i j r r' Hi; done|done]|]. simpl. rewrite IH. split.
  - intros [Hx Hr] [|i] [|j] r r' Hi Hj Hu Hu' Hk; simplify_eq/=; [done| | |].
    + by destruct (Hx j r').
    + by destruct (Hx i r).
    + f_equal. by eapply Hr.
  - intros Hall. split.
    + intros j r' Hj Hu Hu' Hk. specialize (Hall O (S j) x r' eq_refl Hj Hu Hu' Hk). done.
    + intros i j r r' Hi Hj Hu Hu' Hk. specialize (Hall (S i) (S j) r r' Hi Hj Hu Hu' Hk). by simplify_eq.
Qed.

Lemma validate_slots_spec (vacantb entryb : A -> bool) :
  (forall r, entryb r = true -> sr_key_ok (sr_key r) = true) ->
  forall arr slot count c, validate_slots vacantb entryb slot count arr = Some c <->
    (forall i r, arr !! i = Some r -> sr_slot r = slot + Z.of_nat i /\
      record_ok (fun r => vacantb r = true) (fun r => entryb r = true) r) /\
    all_distinct arr /\ c = count + used arr.
Proof.
  intros Hkey. induction arr as [|x arr IH]; intros slot count c; simpl.
  { split; [intros [= <-]|intros (_ & _ & ->)]; [|f_equal; lia]. split; [done|]. split; [done|lia]. }
  assert (forall Q : Prop, (forall i r, (x :: arr) !! i = Some r -> sr_slot r = slot + Z.of_nat i /\
      record_ok (fun r => vacantb r = true) (fun r => entryb r = true) r) /\ Q <->
    (sr_slot x = slot /\ record_ok (fun r => vacantb r = true) (fun r => entryb r = true) x) /\
    (forall i r, arr !! i = Some r -> sr_slot r = (slot + 1) + Z.of_nat i /\
      record_ok (fun r => vacantb r = true) (fun r => entryb r = true) r) /\ Q) as Hsplit.
  { intros Q. split.
    - intros [Hall HQ]. split; [destruct (Hall O x eq_refl); split; [lia|done]|]. split; [|done].
      intros i r Hi. destruct (Hall (S i) r Hi). split; [lia|done].
    - intros ([Hx Hr] & Hall & HQ). split; [|done]. intros [|i] r Hi; simplify_eq/=; [split; [lia|done]|].
      destruct (Hall i r Hi). split; [lia|done]. }
  rewrite Hsplit; clear Hsplit. unfold weight, record_ok.
  destruct (Z.eqb_spec (sr_slot x) slot) as [Hsl|]; simpl; [|split; [done|tauto]].
  assert (in_use x = negb (sr_occupied x =? 0)) as Hu by done.
  destruct (Z.ltb_spec 1 (sr_occupied x)); [split; [done|]|].
  { intros ((_ & [[Hf _]|(_ & ? & _)]) & _); [|lia]. rewrite Hf in Hu. destruct (sr_occupied x =? 0) eqn:E; [lia|done]. }
  destruct (sr_occupied x =? 0); simpl in Hu; rewrite Hu.
  - destruct (vacantb x) eqn:Hv; [|split; [done|]; intros ((_ & [[_ ?]|[? _]]) & _); done].
    rewrite IH. split; [intros (Hall & Hd & ->)|intros (_ & ? & [_ ?] & ->); done].
    split; [split; [done|by left]|]. split; [done|]. split; [|lia].
    split; [intros j r' ? ?; congruence|done].
  - destruct (entryb x) eqn:He; [|split; [done|]; intros ((_ & [[? _]|(_ & _ & ?)]) & _); done]. simpl.
    destruct (existsb _ arr) eqn:Hex.
    + split; [done|]. intros (_ & Hall & [Hd _] & _). exfalso.
      apply existsb_exists in Hex as (o & Ho%list_elem_of_In & Hp). apply andb_true_iff in Hp as [Huo Hs].
      apply list_elem_of_lookup_1 in Ho as [j Hj]. apply (Hd j o Hj Hu Huo).
      destruct (Hall j o Hj) as (_ & [[? _]|(_ & _ & Heo)]); [congruence|]. apply sr_same_spec in Hs; auto.
    + rewrite IH. split.
      * intros (Hall & Hdr & ->). split; [split; [done|]; right; repeat split; [lia]|]. split; [done|].
        split; [|lia]. split; [|done]. intros j r' Hj _ Hu' Hk.
        destruct (Hall j r' Hj) as (_ & [[? _]|(_ & _ & Her)]); [congruence|].
        assert (existsb (fun other => in_use other && sr_same (sr_key x) (sr_key other)) arr = true); [|congruence].
        apply existsb_exists. exists r'. split; [apply list_elem_of_In; by eapply list_elem_of_lookup_2|].
        rewrite Hu'. simpl. apply sr_same_spec; auto.
      * intros (_ & ? & [_ ?] & ->). split; [done|]. split; [done|lia].
Qed.

Lemma validate_slots_ok cap (vacantb entryb : A -> bool) (vacant entry : A -> Prop) arr count :
  (forall r, entryb r = true -> sr_key_ok (sr_key r) = true) ->
  (forall r, vacantb r = true <-> vacant r) -> (forall r, entryb r = true <-> entry r) ->
  length arr = cap ->
  validate_slots vacantb entryb 0 0 arr = Some count <-> slots_ok cap vacant entry arr count.
Proof.
  intros Hkey Hv He Hlen. rewrite (validate_slots_spec _ _ Hkey). split.
  - intros (Hall & Hd & ->). split.
    + done.
    + intros i r Hi. apply (Hall i r Hi).
    + intros i r Hi. destruct (Hall i r Hi) as [_ [[? ?%Hv]|(? & ? & ?%He)]]; [by left|by right].
    + by apply all_distinct_unique.
    + done.
  - intros Hs. split; [|split; [by apply all_distinct_unique, Hs|symmetry; apply Hs]].
    intros i r Hi. split; [by apply (so_slot _ _ _ _ _ Hs)|].
    destruct (so_record _ _ _ _ _ Hs i r Hi) as [[? ?%Hv]|(? & ? & ?%He)]; [by left|by right].
Qed.

(** ** The scan for a free slot *)

Lemma free_scan_Some n hint offset arr s :
  0 <= hint < Z.of_nat (length arr) -> 0 <= offset -> Z.of_nat (length arr) < 2 ^ 31 ->
  offset + Z.of_nat n <= Z.of_nat (length arr) ->
  free_scan n hint offset (Z.of_nat (length arr)) arr = Some s ->
  0 <= s < Z.of_nat (length arr) /\ exists r, arr !! Z.to_nat s = Some r /\ in_use r = false.
Proof.
  revert offset. induction n as [|n IH]; intros offset Hh Ho Hl Hn; [done|]. cbn [free_scan].
  rewrite (u32_small (hint + offset)) by lia.
  assert (0 <= (if Z.of_nat (length arr) <=? hint + offset then u32 (hint + offset - Z.of_nat (length arr))
               else hint + offset) < Z.of_nat (length arr)) as Hc.
  { destruct (Z.leb_spec (Z.of_nat (length arr)) (hint + offset)); [rewrite u32_small|]; lia. }
  set (c := if Z.of_nat (length arr) <=? hint + offset then _ else _) in *.
  destruct (in_use (arr !!! Z.to_nat c)) eqn:Hu; [apply IH; lia|].
  intros [= <-]. split; [done|]. exists (arr !!! Z.to_nat c). split; [|done].
  apply list_lookup_lookup_total_lt. lia.
Qed.

Lemma free_scan_None n hint offset arr :
  0 <= hint < Z.of_nat (length arr) -> 0 <= offset -> Z.of_nat (length arr) < 2 ^ 31 ->
  offset + Z.of_nat n <= Z.of_nat (length arr) ->
  free_scan n hint offset (Z.of_nat (length arr)) arr = None ->
  forall d, offset <= d < offset + Z.of_nat n ->
    in_use (arr !!! Z.to_nat ((hint + d) mod Z.of_nat (length arr))) = true.
Proof.
  revert offset. induction n as [|n IH]; intros offset Hh Ho Hl Hn; [intros _ d; lia|]. cbn [free_scan].
  rewrite (u32_small (hint + offset)) by lia.
  assert ((if Z.of_nat (length arr) <=? hint + offset then u32 (hint + offset - Z.of_nat (length arr))
               else hint + offset) = (hint + offset) mod Z.of_nat (length arr)) as ->.
  { destruct (Z.leb_spec (Z.of_nat (length arr)) (hint + offset)).
    - rewrite u32_small by lia. apply (Z.mod_unique_pos _ _ 1); lia.
    - rewrite Z.mod_small; lia. }
  destruct (in_use _) eqn:Hu; [|done]. intros Hf d Hd.
  destruct (Z.eq_dec d offset) as [->|]; [done|]. apply (IH (offset + 1)); [lia..|done|lia].
Qed.

(** The scan finds a free slot exactly when there is one. *)
Lemma free_slot_Some hint arr s : 0 <= hint < Z.of_nat (length arr) -> Z.of_nat (length arr) < 2 ^ 31 ->
  free_slot hint arr = Some s ->
  0 <= s < Z.of_nat (length arr) /\ exists r, arr !! Z.to_nat s = Some r /\ in_use r = false.
Proof. intros. eapply free_scan_Some; eauto; lia. Qed.

Lemma free_slot_not_full hint arr : 0 <= hint < Z.of_nat (length arr) -> Z.of_nat (length arr) < 2 ^ 31 ->
  used arr < Z.of_nat (length arr) -> exists s, free_slot hint arr = Some s.
Proof.
  intros Hh Hl (i & r & Hi & Hu)%used_free. destruct (free_slot hint arr) as [s|] eqn:E; [by exists s|].
  pose proof (lookup_lt_Some _ _ _ Hi) as Hlt.
  set (N := Z.of_nat (length arr)) in *.
  pose proof (Z.mod_pos_bound (Z.of_nat i - hint) N ltac:(lia)) as Hb.
  pose proof (free_scan_None (length arr) hint 0 arr Hh (Z.le_refl 0) Hl ltac:(lia) E _ Hb) as Hd.
  fold N in Hd. rewrite Zplus_mod_idemp_r, Zplus_minus, Z.mod_small, Nat2Z.id in Hd by lia.
  rewrite (list_lookup_total_correct _ _ _ Hi), Hu in Hd. done.
Qed.

Lemma advance_hint_range slot capacity : 0 <= slot < capacity -> capacity < 2 ^ 31 ->
  0 <= advance_hint slot capacity < capacity.
Proof.
  intros. unfold advance_hint. rewrite u32_small by lia.
  destruct (Z.eqb_spec (slot + 1) capacity); lia.
Qed.

(** ** The finite map an array stands for *)

Section Map.
Context `{!EqDecision K, !Countable K}.

Definition to_map (arr : list A) : gmap K A :=
  list_to_map ((fun r => (sr_key r, r)) <$> filter (fun r => in_use r = true) arr).

Lemma all_distinct_keys arr : all_distinct arr ->
  NoDup (((fun r => (sr_key r, r)) <$> filter (fun r => in_use r = true) arr).*1).
Proof.
  rewrite <- list_fmap_compose. induction arr as [|x arr IH]; simpl; [constructor|].
  intros [Hx Hd]. rewrite filter_cons. destruct (decide (in_use x = true)) as [Hu|]; [|auto].
  constructor; [|auto]. intros (r & Hk & [Hur Hr]%list_elem_of_filter)%list_elem_of_fmap.
  apply list_elem_of_lookup_1 in Hr as [j Hj]. by apply (Hx j r).
Qed.

Context {cap : nat} {vacant entry : A -> Prop}.
Hypothesis entry_key : forall r, entry r -> sr_key_ok (sr_key r) = true.

Lemma to_map_lookup arr count k r : slots_ok cap vacant entry arr count ->
  to_map arr !! k = Some r <-> exists i, entry_at arr i r /\ sr_key r = k.
Proof.
  intros Hs. unfold to_map. rewrite <- elem_of_list_to_map.
  2: by apply all_distinct_keys, all_distinct_unique, Hs.
  rewrite list_elem_of_fmap. split.
  - intros (r' & [= -> ->] & [Hu Hr]%list_elem_of_filter).
    apply list_elem_of_lookup_1 in Hr as [i Hi]. by exists i.
  - intros (i & [Hi Hu] & <-). exists r. split; [done|]. apply list_elem_of_filter.
    split; [done|]. by eapply list_elem_of_lookup_2.
Qed.

Lemma to_map_find arr count k : slots_ok cap vacant entry arr count -> sr_key_ok k = true ->
  (find_slot k arr ≫= fun i => arr !! i) = to_map arr !! k.
Proof.
  intros Hs Hk. apply option_eq. intros r. rewrite (to_map_lookup arr count k r Hs). split.
  - intros (i & Hf & Hi)%bind_Some. pose proof Hf as Hf'.
    apply (find_slot_Some entry_key arr count k i Hs Hk) in Hf' as (r' & [Hi' Hu] & Hkk).
    rewrite Hi in Hi'. injection Hi' as <-. by exists i.
  - intros (i & He & Hkk). apply bind_Some. exists i. split; [|apply He].
    apply (find_slot_Some entry_key arr count k i Hs Hk). by exists r.
Qed.

(** What a guarded search finds, for any key. *)
Lemma find_map_spec arr count k : slots_ok cap vacant entry arr count ->
  match (if sr_key_ok k then find_slot k arr else None) with
  | Some i => exists r, entry_at arr i r /\ sr_key r = k /\ to_map arr !! k = Some r /\ entry r /\
      sr_key_ok k = true
  | None => to_map arr !! k = None
  end.
Proof.
  intros Hs. destruct (sr_key_ok k) eqn:Hk.
  - destruct (find_slot k arr) as [i|] eqn:Hf.
    + pose proof Hf as Hf'. apply (find_slot_Some entry_key arr count k i Hs Hk) in Hf' as (r & He & Hr).
      exists r. split; [done|]. split; [done|]. split; [|by split; [apply (entry_at_ok _ _ _ _ Hs He)|]].
      apply (to_map_lookup arr count k r Hs). by exists i.
    + rewrite <- (to_map_find arr count k Hs Hk). by rewrite Hf.
  - destruct (to_map arr !! k) as [r|] eqn:E; [|done].
    apply (to_map_lookup arr count k r Hs) in E as (i & He & Hr).
    destruct (entry_at_ok _ _ _ _ Hs He) as (Hent & _). apply entry_key in Hent. congruence.
Qed.

Lemma used_filter arr : used arr = Z.of_nat (length (filter (fun r => in_use r = true) arr)).
Proof.
  induction arr as [|x arr IH]; [done|]. cbn [used]. rewrite filter_cons, IH. unfold weight.
  destruct (in_use x); simpl; lia.
Qed.

(** The count is the size of the map. *)
Lemma to_map_size arr count : slots_ok cap vacant entry arr count ->
  Z.of_nat (size (to_map arr)) = count.
Proof.
  intros Hs. unfold to_map. rewrite map_size_list_to_map.
  - rewrite length_fmap, <- used_filter. apply Hs.
  - by apply all_distinct_keys, all_distinct_unique, Hs.
Qed.

Lemma to_map_None arr count k : slots_ok cap vacant entry arr count ->
  to_map arr !! k = None <-> forall i r, entry_at arr i r -> sr_key r <> k.
Proof.
  intros Hs. rewrite eq_None_not_Some. split.
  - intros Hn i r He Hk. apply Hn. exists r. apply (to_map_lookup arr count k r Hs). by exists i.
  - intros Hn [r (i & He & Hk)%(to_map_lookup arr count k r Hs)]. by apply (Hn i r).
Qed.

End Map.

(** ** Changing one slot changes one key of the map *)

Section Store.
Context `{!EqDecision K, !Countable K} {cap : nat} {vacant entry entry' : A -> Prop}.
Context (arr : list A) (count count' : Z) (i : nat) (r r' : A).
Hypothesis Hs : slots_ok cap vacant entry arr count.
Hypothesis Hs' : slots_ok cap vacant entry' (<[i := r']> arr) count'.
Hypothesis Hi : arr !! i = Some r.

Lemma entry_at_set j x : entry_at (<[i := r']> arr) j x <->
  (j = i /\ x = r' /\ in_use r' = true) \/ (j <> i /\ entry_at arr j x).
Proof.
  unfold entry_at. destruct (decide (j = i)) as [->|].
  - rewrite list_lookup_insert_eq by (by eapply lookup_lt_Some). split.
    + intros [[= <-] ?]. by left.
    + intros [(_ & -> & ?)|[? _]]; done.
  - rewrite list_lookup_insert_ne by done. split; [by right|]. by intros [[? _]|[_ ?]].
Qed.

(** Storing an entry under its key: into a free slot, or over the entry that
    had this key. *)
Lemma to_map_store : in_use r' = true -> (in_use r = true -> sr_key r = sr_key r') ->
  to_map (<[i := r']> arr) = <[sr_key r' := r']> (to_map arr).
Proof.
  intros Hu' Hr. apply map_eq. intros k. apply option_eq. intros x.
  rewrite (to_map_lookup _ _ _ _ Hs'), lookup_insert_Some, (to_map_lookup _ _ _ _ Hs). split.
  - intros (j & [(-> & -> & _)|[Hj He]]%entry_at_set & Hk); [by left|]. right. split; [|by exists j].
    intros Hkk. apply Hj. destruct He as [Hj' Hu].
    apply (so_unique _ _ _ _ _ Hs' j i x r'); [by rewrite list_lookup_insert_ne| |done|done|congruence].
    apply list_lookup_insert_eq. by eapply lookup_lt_Some.
  - intros [[<- <-]|(Hk & j & He & Hj)]; [exists i; rewrite entry_at_set; auto|].
    exists j. rewrite entry_at_set. split; [|done]. right. split; [|done]. intros ->.
    destruct He as [Hj' Hu]. rewrite Hi in Hj'. injection Hj' as <-. apply Hk. rewrite <- Hj. symmetry. auto.
Qed.

(** Clearing an entry deletes its key. *)
Lemma to_map_clear : in_use r = true -> in_use r' = false ->
  to_map (<[i := r']> arr) = delete (sr_key r) (to_map arr).
Proof.
  intros Hu Hu'. apply map_eq. intros k. apply option_eq. intros x.
  rewrite (to_map_lookup _ _ _ _ Hs'), lookup_delete_Some, (to_map_lookup _ _ _ _ Hs). split.
  - intros (j & [(_ & _ & ?)|[Hj [Hj' Hx]]]%entry_at_set & Hk); [congruence|]. split; [|by exists j].
    intros Hkk. apply Hj. eapply (so_unique _ _ _ _ _ Hs); eauto. congruence.
  - intros (Hk & j & He & Hj). exists j. rewrite entry_at_set. split; [|done]. right. split; [|done].
    intros ->. destruct He as [Hj' _]. rewrite Hi in Hj'. injection Hj' as <-. done.
Qed.
End Store.
End Slots.
