(* ===== verification/TaskTable.v ===== *)
(** * The task table (tracer/task_table.h, tracer/task_table.cpp)

    The fixed table of traced tasks: 512 slots, a count, a hint for the next
    free slot and a mutation counter. A [TaskTable *] that is never null is a
    value; a [TaskRecord *] result is the slot the pointer refers to. The
    abstract table is the finite map from thread ids to records. *)

From S2P Require Import Prelude SlotArray.
From stdpp Require Import list gmap.
#[local] Open Scope Z_scope.

Definition kTaskTableCapacity : Z := 512.
Definition kInvalidTaskSlot : Z := UINT32_MAX.
Definition kTaskTableMagic : Z := 0x48535454.
Definition kTaskTableVersion : Z := 8.

(** enum class TaskLifeState: a [uint32_t]; only the two states the table
    itself uses are named. *)
Definition TaskLifeState_kEmpty : Z := 0.
Definition TaskLifeState_kDiscovered : Z := 1.

(** enum class TaskResumeMode *)
Definition TaskResumeMode_kUnknown : Z := 0.
Definition TaskResumeMode_kCont : Z := 1.
Definition TaskResumeMode_kSyscall : Z := 2.

(** ** Data *)

Record Arm64RegisterSnapshot := {
  rs_x : list Z; rs_sp : Z; rs_pc : Z; rs_pstate : Z }.

Record ActiveSyscallSnapshot := {
  as_flags : Z; as_syscall_number : Z; as_user_syscall_number : Z;
  as_modified_argument_mask : Z; as_executed_syscall_number : Z;
  as_entry_policy_action : Z; as_entry_policy_rule_id : Z; as_exit_policy_rule_id : Z;
  as_arguments : list Z; as_result : Z; as_replacement_result : Z; as_rule_generation : Z;
  as_scratch_slot : Z; as_nested_ptrace_operation_slot : Z; as_scratch_generation : Z;
  as_internal_fd_sequence : Z; as_entry_registers : Arm64RegisterSnapshot }.

Record TaskRecord := {
  occupied : Z; slot : Z; tid : Z; tgid : Z; life : Z; stop : Z; syscall_phase : Z; flags : Z;
  pending_signal : Z; last_wait_status : Z; last_ptrace_event : Z; resume_mode : Z;
  ptrace_options : Z; exec_generation : Z; tracee_scratch_address : Z; stop_sequence : Z;
  last_ptrace_event_message : Z; active_syscall : ActiveSyscallSnapshot }.

Record TaskTable := {
  magic : Z; version : Z; count : Z; free_hint : Z; mutation_generation : Z; reserved : list Z;
  tasks : list TaskRecord }.

(** enum class TaskInsertResult *)
Inductive TaskInsertResult :=
  | kInserted | kAlreadyPresent | kInvalidArgument | kFull | kIdentityConflict.

(** ** Clearing *)

(** The snapshot ClearRecord and ClearActiveSyscall leave: all bytes zero
    except the three numbers and the two slots. *)
Definition cleared_syscall : ActiveSyscallSnapshot :=
  {| as_flags := 0; as_syscall_number := -1; as_user_syscall_number := -1;
     as_modified_argument_mask := 0; as_executed_syscall_number := -1;
     as_entry_policy_action := 0; as_entry_policy_rule_id := 0; as_exit_policy_rule_id := 0;
     as_arguments := replicate 6 0; as_result := 0; as_replacement_result := 0;
     as_rule_generation := 0; as_scratch_slot := kInvalidTaskSlot;
     as_nested_ptrace_operation_slot := UINT32_MAX; as_scratch_generation := 0;
     as_internal_fd_sequence := 0;
     as_entry_registers := {| rs_x := replicate 31 0; rs_sp := 0; rs_pc := 0; rs_pstate := 0 |} |}.

(** A record as ClearRecord leaves it, with the four words Insert then sets. *)
Definition fresh_record (o s i g l : Z) : TaskRecord :=
  {| occupied := o; slot := s; tid := i; tgid := g; life := l; stop := 0;
     syscall_phase := 0; flags := 0; pending_signal := 0; last_wait_status := 0;
     last_ptrace_event := 0; resume_mode := TaskResumeMode_kUnknown; ptrace_options := 0;
     exec_generation := 0; tracee_scratch_address := 0; stop_sequence := 0;
     last_ptrace_event_message := 0; active_syscall := cleared_syscall |}.

Definition ClearRecord (slot : Z) : TaskRecord := fresh_record 0 slot 0 0 TaskLifeState_kEmpty.

Definition ClearActiveSyscall (r : TaskRecord) : TaskRecord :=
  {| occupied := occupied r; slot := slot r; tid := tid r; tgid := tgid r; life := life r;
     stop := stop r; syscall_phase := syscall_phase r; flags := flags r;
     pending_signal := pending_signal r; last_wait_status := last_wait_status r;
     last_ptrace_event := last_ptrace_event r; resume_mode := resume_mode r;
     ptrace_options := ptrace_options r; exec_generation := exec_generation r;
     tracee_scratch_address := tracee_scratch_address r; stop_sequence := stop_sequence r;
     last_ptrace_event_message := last_ptrace_event_message r; active_syscall := cleared_syscall |}.

#[export] Instance TaskRecord_inhabited : Inhabited TaskRecord := populate (ClearRecord 0).

#[export] Program Instance TaskRecord_slots : SlotRecord TaskRecord Z := {|
  sr_occupied := occupied; sr_slot := slot; sr_key := tid; sr_same := Z.eqb;
  sr_key_ok := fun tid => 0 <? tid |}.
Next Obligation. intros. apply Z.eqb_eq. Qed.

(** ** Operations *)

Definition Init : TaskTable :=
  {| magic := kTaskTableMagic; version := kTaskTableVersion; count := 0; free_hint := 0;
     mutation_generation := 0; reserved := replicate 3 0;
     tasks := ClearRecord <$> seqZ 0 kTaskTableCapacity |}.

Definition IsInitialized (t : TaskTable) : bool :=
  (magic t =? kTaskTableMagic) && (version t =? kTaskTableVersion) &&
  (count t <=? kTaskTableCapacity) && (free_hint t <? kTaskTableCapacity).

Definition IsValidResumeMode (mode : Z) : bool :=
  (mode =? TaskResumeMode_kUnknown) || (mode =? TaskResumeMode_kCont) || (mode =? TaskResumeMode_kSyscall).

(** The conditions Validate puts on a free and on an occupied record. *)
Definition vacant_record (task : TaskRecord) : bool :=
  (tid task =? 0) && (tgid task =? 0) && (life task =? TaskLifeState_kEmpty) &&
  (resume_mode task =? TaskResumeMode_kUnknown).
Definition occupied_record (task : TaskRecord) : bool :=
  (0 <? tid task) && (0 <? tgid task) && negb (life task =? TaskLifeState_kEmpty) &&
  IsValidResumeMode (resume_mode task).

Definition Validate (t : TaskTable) : bool :=
  IsInitialized t &&
  match validate_slots vacant_record occupied_record 0 0 (tasks t) with
  | Some occupied_count => occupied_count =? count t
  | None => false
  end.

(** Find: the slot of the record the pointer refers to. *)
Definition Find (t : TaskTable) (tid : Z) : option Z :=
  if negb (IsInitialized t) || (tid <=? 0) || (count t =? 0) then None
  else Z.of_nat <$> find_slot tid (tasks t).

Definition FindSlot (t : TaskTable) (tid : Z) : Z :=
  match Find t tid with
  | None => kInvalidTaskSlot
  | Some task => slot (tasks t !!! Z.to_nat task)
  end.

Definition At (t : TaskTable) (s : Z) : option Z :=
  if negb (IsInitialized t) || (kTaskTableCapacity <=? s) ||
     (occupied (tasks t !!! Z.to_nat s) =? 0)
  then None else Some s.

(** The table after a record was stored, [count] and [mutation_generation]
    having been changed and the hint set. *)
Definition store (t : TaskTable) (count free_hint : Z) (s : Z) (r : TaskRecord) : TaskTable :=
  {| magic := magic t; version := version t; count := count; free_hint := free_hint;
     mutation_generation := u64 (mutation_generation t + 1); reserved := reserved t;
     tasks := <[Z.to_nat s := r]> (tasks t) |}.

Definition Insert (t : TaskTable) (new_tid new_tgid : Z) : TaskInsertResult * TaskTable * option Z :=
  if negb (IsInitialized t) || (new_tid <=? 0) || (new_tgid <=? 0) then (kInvalidArgument, t, None)
  else match Find t new_tid with
  | Some existing =>
    (if tgid (tasks t !!! Z.to_nat existing) =? new_tgid
     then kAlreadyPresent else kIdentityConflict, t, Some existing)
  | None =>
    if kTaskTableCapacity <=? count t then (kFull, t, None)
    else match free_slot (free_hint t) (tasks t) with
    | None => (kFull, t, None)
    | Some s =>
      (kInserted,
       store t (u32 (count t + 1)) (advance_hint s kTaskTableCapacity) s
         (fresh_record 1 s new_tid new_tgid TaskLifeState_kDiscovered),
       Some s)
    end
  end.

Definition EraseAt (t : TaskTable) (s : Z) : bool * TaskTable :=
  match At t s with
  | None => (false, t)
  | Some s => (true, store t (u32 (count t - 1)) s s (ClearRecord s))
  end.

Definition Erase (t : TaskTable) (tid : Z) : bool * TaskTable :=
  let s := FindSlot t tid in
  if s =? kInvalidTaskSlot then (false, t) else EraseAt t s.

Definition Count (t : TaskTable) : Z := if IsInitialized t then count t else 0.
Definition Empty (t : TaskTable) : bool := Count t =? 0.
Definition Full (t : TaskTable) : bool := IsInitialized t && (count t =? kTaskTableCapacity).

Example insert_three :
  let '(_, t, _) := Insert Init 10 10 in
  let '(_, t, _) := Insert t 11 10 in
  let '(_, t) := Erase t 10 in
  let '(r, t, s) := Insert t 12 12 in
  (r, s, Validate t, Find t 11, FindSlot t 10, Count t, free_hint t, mutation_generation t)
  = (kInserted, Some 0, true, Some 1, kInvalidTaskSlot, 2, 1, 4).
Proof. vm_compute. reflexivity. Qed.

(** ** The invariant *)

(** What the C++ types give: an unsigned hint and an array of the capacity. *)
Definition typed (t : TaskTable) : Prop := 0 <= free_hint t /\ length (tasks t) = 512%nat.

Definition valid_table (t : TaskTable) : Prop :=
  typed t /\ IsInitialized t = true /\
  slots_ok 512 (fun r => vacant_record r = true) (fun r => occupied_record r = true) (tasks t) (count t).

Lemma occupied_key r : occupied_record r = true -> sr_key_ok (sr_key r) = true.
Proof. unfold occupied_record. simpl. intros. bool_hyps. done. Qed.

Lemma Validate_iff t : typed t -> Validate t = true <-> valid_table t.
Proof.
  intros Ht. unfold Validate, valid_table.
  pose proof (validate_slots_ok 512 _ _ (fun r => vacant_record r = true) (fun r => occupied_record r = true)
    (tasks t) (count t) occupied_key (fun _ => iff_refl _) (fun _ => iff_refl _) (proj2 Ht)) as Hs.
  rewrite andb_true_iff. split.
  - intros [Hi Hv]. destruct (validate_slots _ _ 0 0 (tasks t)); [|done]. apply Z.eqb_eq in Hv as ->. tauto.
  - intros (_ & Hi & Hok). split; [done|]. apply Hs in Hok. rewrite Hok. apply Z.eqb_refl.
Qed.

Lemma initialized_hint t : valid_table t -> 0 <= free_hint t < 512.
Proof. intros ([? _] & Hi & _). unfold IsInitialized in Hi. bool_hyps. unfold kTaskTableCapacity in *. lia. Qed.

(** The abstract table. *)
Definition task_map (t : TaskTable) : gmap Z TaskRecord := to_map (tasks t).

Lemma task_map_size t : valid_table t -> Z.of_nat (size (task_map t)) = count t.
Proof. intros (_ & _ & Hs). by eapply to_map_size. Qed.

Lemma Find_map t id : valid_table t ->
  (Find t id ≫= fun s => tasks t !! Z.to_nat s) = (if 0 <? id then task_map t !! id else None).
Proof.
  intros (Ht & Hi & Hs). unfold Find, task_map. rewrite Hi. simpl. rewrite Z.leb_antisym.
  destruct (Z.ltb_spec 0 id) as [Hpos|]; simpl; [|done].
  rewrite <- (to_map_find occupied_key (tasks t) (count t) id Hs) by (simpl; lia).
  destruct (Z.eqb_spec (count t) 0) as [E|].
  - destruct (find_slot id (tasks t)) as [i|] eqn:Ef; [|done]. exfalso.
    apply (find_slot_Some occupied_key _ _ id i Hs ltac:(simpl; lia)) in Ef as (r & [Hl Hu] & _).
    pose proof (used_insert (tasks t) i r (ClearRecord 0) Hl) as Hc. unfold weight in Hc.
    rewrite Hu in Hc. rewrite (so_count _ _ _ _ _ Hs) in Hc.
    pose proof (used_bounds (<[i:=ClearRecord 0]> (tasks t))). simpl in Hc. lia.
  - destruct (find_slot id (tasks t)) as [i|]; simpl; [|done]. by rewrite Nat2Z.id.
Qed.

Lemma Find_Some t id s : valid_table t -> Find t id = Some s ->
  exists i r, s = Z.of_nat i /\ entry_at (tasks t) i r /\ tid r = id /\ slot r = s /\ 0 < id.
Proof.
  intros (Ht & Hi & Hs) Hf. unfold Find in Hf. rewrite Hi in Hf. simpl in Hf.
  destruct (Z.leb_spec id 0); [done|]. simpl in Hf. destruct (count t =? 0); [done|].
  destruct (find_slot id (tasks t)) as [i|] eqn:E; [|done]. injection Hf as <-.
  apply (find_slot_Some occupied_key _ _ id i Hs ltac:(simpl; lia)) in E as (r & He & Hk).
  exists i, r. split; [done|]. split; [done|]. split; [done|].
  split; [by apply (so_slot _ _ _ _ _ Hs), He|lia].
Qed.

Lemma Find_None t id : valid_table t -> 0 < id -> Find t id = None -> task_map t !! id = None.
Proof.
  intros Hv Hp Hf. pose proof (Find_map t id Hv) as Hm. rewrite Hf in Hm.
  apply Z.ltb_lt in Hp. by rewrite Hp in Hm.
Qed.

(** ** The operations on the abstract table *)

Lemma store_initialized t c h s r : valid_table t -> 0 <= c <= 512 -> 0 <= h < 512 ->
  IsInitialized (store t c h s r) = true.
Proof.
  intros (_ & Hi & _) Hc Hh. unfold IsInitialized in *. simpl. bool_hyps.
  unfold kTaskTableCapacity in *. lia.
Qed.

Lemma Insert_valid_shape t id grp s r : valid_table t -> 0 < id -> 0 < grp ->
  Find t id = None -> 0 <= s < 512 -> tasks t !! Z.to_nat s = Some r -> in_use r = false ->
  let r' := fresh_record 1 s id grp TaskLifeState_kDiscovered in
  slots_ok 512 (fun r => vacant_record r = true) (fun r => occupied_record r = true)
    (<[Z.to_nat s := r']> (tasks t)) (count t + 1).
Proof.
  intros Hv Hp Hq Hf Hs Hr Hu r'. pose proof Hv as (Ht & Hi & Hok).
  apply (Find_None t id Hv Hp) in Hf. unfold task_map in Hf. pose proof (proj1 (to_map_None _ _ id Hok) Hf) as Hn.
  eapply slots_ok_fill; eauto; simpl; try lia. unfold occupied_record. simpl.
  rewrite !andb_true_iff. repeat split; lia.
Qed.

Lemma EraseAt_valid_shape t i r : valid_table t -> entry_at (tasks t) i r ->
  slots_ok 512 (fun r => vacant_record r = true) (fun r => occupied_record r = true)
    (<[i := ClearRecord (Z.of_nat i)]> (tasks t)) (count t - 1).
Proof. intros Hv He. pose proof Hv as (_ & _ & Hok). eapply slots_ok_clear; eauto. Qed.

Lemma valid_count t i r : valid_table t -> entry_at (tasks t) i r -> 1 <= count t <= 512 /\ (i < 512)%nat.
Proof.
  intros Hv He. pose proof Hv as (_ & _ & Hok).
  pose proof (slots_ok_count _ _ (EraseAt_valid_shape t i r Hv He)).
  pose proof (slots_ok_count _ _ Hok).
  destruct (entry_at_ok _ _ _ _ Hok He) as (_ & _ & _ & ?). lia.
Qed.

Lemma valid_store t c h s r : valid_table t -> 0 <= h < 512 ->
  slots_ok 512 (fun r => vacant_record r = true) (fun r => occupied_record r = true)
    (<[Z.to_nat s := r]> (tasks t)) c -> valid_table (store t c h s r).
Proof.
  intros Hv Hh Hok. pose proof (slots_ok_count _ _ Hok). pose proof Hv as ((_ & Hl) & _).
  split; [split; simpl; [lia|by rewrite length_insert]|].
  split; [apply store_initialized; [done|lia|done]|done].
Qed.

(** What Insert does to a valid table, case by case. *)
Lemma Insert_cases t id grp : valid_table t -> 0 < id -> 0 < grp ->
  let '(res, t', s) := Insert t id grp in
  match task_map t !! id with
  | Some old => t' = t /\ res = (if tgid old =? grp then kAlreadyPresent else kIdentityConflict) /\
      exists i, s = Some i /\ tasks t !! Z.to_nat i = Some old
  | None => if Z.of_nat (size (task_map t)) =? 512 then res = kFull /\ t' = t /\ s = None
      else res = kInserted /\ valid_table t' /\ exists i, s = Some i /\ 0 <= i < 512 /\
        task_map t' = <[id := fresh_record 1 i id grp TaskLifeState_kDiscovered]> (task_map t)
  end.
Proof.
  intros Hv Hp Hq. pose proof Hv as ([? Hl] & Hi & Hok). pose proof (initialized_hint t Hv) as Hh.
  rewrite (task_map_size t Hv). unfold Insert. rewrite Hi.
  destruct (Z.leb_spec id 0); [lia|]. destruct (Z.leb_spec grp 0); [lia|]. simpl.
  pose proof (Find_map t id Hv) as Hm. rewrite (proj2 (Z.ltb_lt 0 id) Hp) in Hm.
  destruct (Find t id) as [e|] eqn:Hf; simpl in Hm.
  - destruct (Find_Some t id e Hv Hf) as (i & r & -> & [Hr _] & _). rewrite Nat2Z.id in Hm |- *.
    rewrite <- Hm, Hr. rewrite (list_lookup_total_correct _ _ _ Hr). split; [done|]. split; [done|].
    exists (Z.of_nat i). rewrite Nat2Z.id. done.
  - rewrite <- Hm. pose proof (slots_ok_count _ _ Hok) as Hc. unfold kTaskTableCapacity.
    destruct (Z.leb_spec 512 (count t)); [by rewrite (proj2 (Z.eqb_eq _ _)) by lia|].
    rewrite (proj2 (Z.eqb_neq (count t) 512)) by lia.
    destruct (free_slot_not_full (free_hint t) (tasks t)) as [s Hs]; [rewrite Hl; lia..|rewrite Hl; lia| |].
    { rewrite (so_count _ _ _ _ _ Hok), Hl. lia. }
    rewrite Hs. apply free_slot_Some in Hs as (Hrange & r & Hr & Hu); [|rewrite Hl; lia..].
    rewrite Hl in Hrange. rewrite (u32_small (count t + 1)) by lia.
    pose proof (Insert_valid_shape t id grp s r Hv Hp Hq Hf ltac:(lia) Hr Hu) as Hok'.
    split; [done|]. split.
    + apply valid_store; [done| |done]. apply (advance_hint_range s 512); lia.
    + exists s. split; [done|]. split; [lia|]. unfold task_map. simpl.
      apply (to_map_store _ _ _ _ _ _ Hok Hok' Hr); [done|congruence].
Qed.

Lemma EraseAt_entry t i r : valid_table t -> entry_at (tasks t) i r ->
  exists t', EraseAt t (Z.of_nat i) = (true, t') /\ valid_table t' /\
    task_map t' = delete (tid r) (task_map t).
Proof.
  intros Hv He. pose proof Hv as ([? Hl] & Hi & Hok). destruct (valid_count t i r Hv He) as [Hc Hi512].
  pose proof He as [Hr Hu].
  unfold EraseAt, At. rewrite Hi, Nat2Z.id, (list_lookup_total_correct _ _ _ Hr). unfold kTaskTableCapacity.
  destruct (Z.leb_spec 512 (Z.of_nat i)); [lia|].
  assert ((occupied r =? 0) = false) as -> by (by apply negb_true_iff in Hu). cbn [negb orb].
  rewrite (u32_small (count t - 1)) by lia. eexists. split; [done|].
  pose proof (EraseAt_valid_shape t i r Hv He) as Hok'. split.
  - apply valid_store; [done|lia|]. by rewrite Nat2Z.id.
  - unfold task_map. simpl. rewrite Nat2Z.id. by apply (to_map_clear _ _ _ _ _ _ Hok Hok' Hr).
Qed.

(** Erase on a valid table removes the thread from the map, or does nothing
    when it is not there. *)
Lemma Erase_cases t id : valid_table t ->
  let '(b, t') := Erase t id in
  match task_map t !! id with
  | Some _ => b = true /\ valid_table t' /\ task_map t' = delete id (task_map t)
  | None => b = false /\ t' = t
  end.
Proof.
  intros Hv. pose proof Hv as ([? Hl] & Hi & Hok). unfold Erase, FindSlot.
  pose proof (Find_map t id Hv) as Hm. destruct (Find t id) as [s|] eqn:Hf; simpl in Hm.
  - destruct (Find_Some t id s Hv Hf) as (i & r & -> & He & Hid & Hslot & Hpos).
    rewrite (proj2 (Z.ltb_lt 0 id) Hpos) in Hm. rewrite Nat2Z.id in Hm |- *.
    pose proof He as [Hr Hu]. rewrite Hr in Hm. rewrite <- Hm, (list_lookup_total_correct _ _ _ Hr), Hslot.
    destruct (valid_count t i r Hv He) as [_ Hlt].
    destruct (Z.eqb_spec (Z.of_nat i) kInvalidTaskSlot) as [E|_];
      [unfold kInvalidTaskSlot, UINT32_MAX in E; lia|].
    destruct (EraseAt_entry t i r Hv He) as (t' & -> & Hv' & Hmap). by rewrite <- Hid.
  - rewrite Z.eqb_refl. destruct (Z.ltb_spec 0 id) as [|Hle]; [by rewrite <- Hm|].
    destruct (task_map t !! id) as [r|] eqn:E; [|done]. exfalso.
    unfold task_map in E. apply (proj1 (to_map_lookup _ _ id r Hok)) in E as (i & He & Hk).
    destruct (entry_at_ok _ _ _ _ Hok He) as (Hr & _). apply occupied_key in Hr. simpl in Hr, Hk. lia.
Qed.

(** What the holders of a record pointer may change. *)
Definition keeps_record (r r' : TaskRecord) : Prop :=
  slot r' = slot r /\ occupied r' = occupied r /\ tid r' = tid r /\ 0 < tgid r' /\
  life r' <> TaskLifeState_kEmpty /\ IsValidResumeMode (resume_mode r') = true.

Definition modify (t : TaskTable) (i : nat) (r' : TaskRecord) : TaskTable :=
  {| magic := magic t; version := version t; count := count t; free_hint := free_hint t;
     mutation_generation := mutation_generation t; reserved := reserved t;
     tasks := <[i := r']> (tasks t) |}.

(** The life of a table: its operations, and changes through a record pointer. *)
Inductive table_step : TaskTable -> TaskTable -> Prop :=
  | step_insert t id grp : table_step t (Insert t id grp).1.2
  | step_erase t id : table_step t (Erase t id).2
  | step_erase_at t s : 0 <= s -> table_step t (EraseAt t s).2
  | step_modify t i r r' : entry_at (tasks t) i r -> keeps_record r r' -> table_step t (modify t i r').

Lemma Init_valid : valid_table Init.
Proof. apply Validate_iff; [split; vm_compute; [discriminate|reflexivity]|]. vm_compute. reflexivity. Qed.

Lemma Insert_valid t id grp : valid_table t -> valid_table (Insert t id grp).1.2.
Proof.
  intros Hv. destruct (Z.leb_spec id 0) as [Hid|Hid]; [|destruct (Z.leb_spec grp 0) as [Hg|Hg]].
  - unfold Insert. rewrite (proj2 (Z.leb_le id 0) Hid), orb_true_r. done.
  - unfold Insert. rewrite (proj2 (Z.leb_le grp 0) Hg), orb_true_r. done.
  - pose proof (Insert_cases t id grp Hv Hid Hg) as Hc. destruct (Insert t id grp) as [[res t'] s]. simpl.
    destruct (task_map t !! id); [by destruct Hc as [-> _]|].
    destruct (_ =? 512); [by destruct Hc as (_ & -> & _)|apply Hc].
Qed.

Lemma EraseAt_valid t s : valid_table t -> 0 <= s -> valid_table (EraseAt t s).2.
Proof.
  intros Hv Hs. pose proof Hv as ([? Hl] & Hi & Hok). destruct (At t s) as [s'|] eqn:HA.
  2: { unfold EraseAt. by rewrite HA. }
  assert (entry_at (tasks t) (Z.to_nat s) (tasks t !!! Z.to_nat s)) as He.
  { unfold At in HA. rewrite Hi in HA. unfold kTaskTableCapacity in HA. simpl in HA.
    destruct (Z.leb_spec 512 s); [done|]. destruct (occupied _ =? 0) eqn:E; [done|]. split.
    - apply list_lookup_lookup_total_lt. lia.
    - unfold in_use. simpl. by rewrite E. }
  destruct (EraseAt_entry t _ _ Hv He) as (t' & Ht' & Hv' & _). rewrite Z2Nat.id in Ht' by done. by rewrite Ht'.
Qed.

Lemma modify_valid t i r r' : valid_table t -> entry_at (tasks t) i r -> keeps_record r r' ->
  valid_table (modify t i r').
Proof.
  intros ([Hh Hl] & Hi & Hok) He (Hs & Ho & Hk & Hg & Hlf & Hm).
  split; [split; [done|simpl; by rewrite length_insert]|]. split; [done|]. simpl.
  eapply slots_ok_update; eauto. destruct (entry_at_ok _ _ _ _ Hok He) as (Hr & _).
  apply occupied_key in Hr. simpl in Hr. unfold occupied_record. rewrite Hk, Hr, Hm, !andb_true_iff.
  split; [split; [split|]|]; [done|lia| |done]. by apply negb_true_iff, Z.eqb_neq.
Qed.

(** A task table that is used only through its operations - and
    whose record holders keep the identity of a record - always passes
    Validate: slot numbers, occupancy, unique thread ids and the count are
    consistent in every reachable state. *)
Theorem reachable_table_valid t : rtc table_step Init t -> Validate t = true.
Proof.
  intros Hr. enough (valid_table t) as Hv by (apply Validate_iff; [apply Hv|done]).
  revert t Hr. apply rtc_ind_r; [apply Init_valid|]. intros t1 t2 _ Hstep Hv.
  destruct Hstep; [by apply Insert_valid| |by apply EraseAt_valid|by eapply modify_valid].
  pose proof (Erase_cases t id Hv) as Hc. destruct (Erase t id) as [b t']. simpl.
  destruct (task_map t !! id); [apply Hc|by destruct Hc as [_ ->]].
Qed.

Lemma reachable_table_valid_witness :
  let t := (Erase (Insert (Insert Init 7 7).1.2 8 7).1.2 7).2 in
  rtc table_step Init t /\ Validate t = true.
Proof.
  assert (rtc table_step Init (Erase (Insert (Insert Init 7 7).1.2 8 7).1.2 7).2) as Hr.
  { eapply rtc_l; [apply (step_insert _ 7 7)|]. eapply rtc_l; [apply (step_insert _ 8 7)|].
    eapply rtc_l; [apply (step_erase _ 7)|]. apply rtc_refl. }
  split; [exact Hr|exact (reachable_table_valid _ Hr)].
Defined.

(** The arguments Insert refuses. *)
Lemma Insert_refused t id grp : let '(res, t', s) := Insert t id grp in
  (res = kInvalidArgument <-> IsInitialized t = false \/ id <= 0 \/ grp <= 0) /\ (res = kInvalidArgument -> t' = t /\ s = None).
Proof.
  unfold Insert. destruct (IsInitialized t), (Z.leb_spec id 0), (Z.leb_spec grp 0); cbn [negb orb]; try by (split; [split; auto|done]).
  assert (~ (true = false \/ id <= 0 \/ grp <= 0)) as Hno by (intros [?|?]; [done|lia]).
  destruct (Find t id); [destruct (_ =? grp)|destruct (_ <=? count t); [|destruct (free_slot _ _)]]; (split; [split; done|done]).
Qed.

(** C33 (refinement): Insert implements insertion into the map from thread ids
    to records, for every table and every pair of ids: a table that is not
    initialized or an id that is not positive is an invalid argument; on a valid
    table an unknown thread is stored as a fresh discovered record unless the
    map has 512 entries, a known one is reported with its slot, as a conflict
    when the thread group differs; the table is otherwise unchanged and stays
    valid. *)
Theorem Insert_refines t id grp :
  let '(res, t', s) := Insert t id grp in
  (res = kInvalidArgument <-> IsInitialized t = false \/ id <= 0 \/ grp <= 0) /\
  (res = kInvalidArgument -> t' = t /\ s = None) /\
  (typed t -> Validate t = true -> 0 < id -> 0 < grp ->
   match task_map t !! id with
   | Some old => t' = t /\ res = (if tgid old =? grp then kAlreadyPresent else kIdentityConflict) /\
       exists i, s = Some i /\ tasks t !! Z.to_nat i = Some old
   | None => if Z.of_nat (size (task_map t)) =? 512 then res = kFull /\ t' = t /\ s = None
       else res = kInserted /\ Validate t' = true /\ exists i, s = Some i /\ 0 <= i < 512 /\
         task_map t' = <[id := fresh_record 1 i id grp TaskLifeState_kDiscovered]> (task_map t)
   end).
Proof.
  pose proof (Insert_refused t id grp) as Hinv.
  assert (valid_table t -> 0 < id -> 0 < grp -> _) as Hcases by exact (Insert_cases t id grp).
  destruct (Insert t id grp) as [[res t'] s]. destruct Hinv as [Hinv Hsame]. split; [done|]. split; [done|].
  intros Ht Hv Hp Hq. apply Validate_iff in Hv; [|done]. specialize (Hcases Hv Hp Hq). destruct (task_map t !! id); [done|].
  destruct (_ =? 512); [done|]. destruct Hcases as (? & Hv' & ?). split; [done|]. split; [|done].
  apply Validate_iff; [apply Hv'|done].
Qed.

Lemma Insert_refines_witness :
  let '(res, t', s) := Insert (Insert Init 7 7).1.2 9 9 in
  res = kInserted /\ Validate t' = true /\ exists i, s = Some i /\ 0 <= i < 512 /\
    task_map t' = <[9 := fresh_record 1 i 9 9 TaskLifeState_kDiscovered]> (task_map (Insert Init 7 7).1.2).
Proof.
  assert (typed (Insert Init 7 7).1.2) as Ht by (split; vm_compute; [discriminate|reflexivity]).
  assert (Validate (Insert Init 7 7).1.2 = true) as Hv by (vm_compute; reflexivity).
  assert (task_map (Insert Init 7 7).1.2 !! 9 = None) as Hn by (vm_compute; reflexivity).
  assert ((Z.of_nat (size (task_map (Insert Init 7 7).1.2)) =? 512) = false) as Hf by (vm_compute; reflexivity).
  pose proof (Insert_refines (Insert Init 7 7).1.2 9 9) as Hc. destruct (Insert (Insert Init 7 7).1.2 9 9) as [[res t'] s].
  destruct Hc as (_ & _ & Hc). specialize (Hc Ht Hv eq_refl eq_refl). rewrite Hn, Hf in Hc. exact Hc.
Defined.

(** On a valid table Erase deletes the thread from the map and
    reports whether it was there; the table stays valid; and Find agrees with
    the map. *)
Theorem Erase_refines t id : typed t -> Validate t = true ->
  (let '(b, t') := Erase t id in
   b = bool_decide (is_Some (task_map t !! id)) /\ Validate t' = true /\
   task_map t' = delete id (task_map t)) /\
  (0 < id -> (Find t id ≫= fun s => tasks t !! Z.to_nat s) = task_map t !! id).
Proof.
  intros Ht Hv. pose proof Hv as Hval. apply Validate_iff in Hv; [|done]. split.
  - pose proof (Erase_cases t id Hv) as Hc. destruct (Erase t id) as [b t'].
    destruct (task_map t !! id) as [r|] eqn:E.
    + destruct Hc as (-> & Hv' & Hm). split; [by rewrite bool_decide_eq_true_2|].
      split; [|done]. apply Validate_iff; [apply Hv'|done].
    + destruct Hc as [-> ->]. split; [by rewrite bool_decide_eq_false_2 by (by intros [??])|].
      split; [done|]. by rewrite delete_id.
  - intros Hp. rewrite (Find_map t id Hv). by rewrite (proj2 (Z.ltb_lt 0 id) Hp).
Qed.

Lemma Erase_refines_witness :
  (Erase (Insert Init 7 7).1.2 7).1 = true /\
  task_map (Erase (Insert Init 7 7).1.2 7).2 = delete 7 (task_map (Insert Init 7 7).1.2).
Proof.
  assert (typed (Insert Init 7 7).1.2) as Ht by (split; vm_compute; [discriminate|reflexivity]).
  assert (Validate (Insert Init 7 7).1.2 = true) as Hv by (vm_compute; reflexivity).
  destruct (Erase_refines (Insert Init 7 7).1.2 7 Ht Hv) as [Hc _].
  destruct (Erase (Insert Init 7 7).1.2 7) as [b t'] eqn:E. simpl. destruct Hc as (-> & _ & Hm).
  split; [|exact Hm]. apply bool_decide_eq_true_2. vm_compute. eexists. reflexivity.
Defined.
