(* ===== verification/Chain.v ===== *)
(** * Bounded walks along a chain

    The parent relation of processes and the tracer relation of tasks are
    partial functions, and the C++ code looks for cycles by walking at most
    [capacity] links. This file relates the bounded walk to the mathematical
    property: every walk ends. *)

From S2P Require Import Prelude.
From stdpp Require Import list relations.
#[local] Open Scope Z_scope.

Section Chain.
Context {K : Type} `{EqDecision K} (next : K -> option K).

(** The bounded walk of ParentChainContains and PtraceChainContains: running
    out of depth counts as containing the target. *)
Fixpoint chain_contains (depth : nat) (current expected : K) : bool :=
  match depth with
  | O => true
  | S depth =>
    if decide (current = expected) then true
    else match next current with
    | None => false
    | Some k => chain_contains depth k expected
    end
  end.

Definition link (k k' : K) : Prop := next k = Some k'.

(** The walk from [k] ends. *)
Inductive ends : K -> Prop :=
  | ends_stop k : next k = None -> ends k
  | ends_link k k' : next k = Some k' -> ends k' -> ends k.

Lemma ends_next k k' : ends k -> next k = Some k' -> ends k'.
Proof. destruct 1; congruence. Qed.

Lemma ends_no_cycle k : ends k -> ~ tc link k k.
Proof.
  induction 1 as [k Hn|k k' Hn He IH]; intros Hc.
  - inversion Hc as [? ? Hl|? ? ? Hl]; unfold link in Hl; congruence.
  - apply IH. inversion Hc as [? ? Hl|? y ? Hl Ht]; unfold link in Hl; simplify_eq.
    + by apply tc_once.
    + eapply tc_r; [done|]. done.
Qed.

Lemma ends_no_return k k' : ends k -> next k = Some k' -> ~ rtc link k' k.
Proof. intros He Hn Hr. apply (ends_no_cycle k He). eapply tc_rtc_r; [by apply tc_once|done]. Qed.

Lemma chain_false depth k t : chain_contains depth k t = false -> ends k /\ ~ rtc link k t.
Proof.
  revert k. induction depth as [|depth IH]; intros k; simpl; [done|].
  destruct (decide (k = t)) as [|Hne]; [done|]. destruct (next k) as [k'|] eqn:Hn.
  - intros [He Hr]%IH. split; [by eapply ends_link|].
    intros [->|(y & Hl & Hy)]%rtc_inv; [done|]. unfold link in Hl. by simplify_eq.
  - intros _. split; [by constructor|]. intros [->|(y & Hl & _)]%rtc_inv; [done|].
    unfold link in Hl. congruence.
Qed.

(** With the nodes of the chain among at most [depth] ones, the target being
    one of them, the bounded walk is exact. *)
Lemma chain_complete k t : ends k -> forall depth l,
  (forall x y, rtc link k x -> next x = Some y -> x ∈ l) -> t ∈ l -> (length l <= depth)%nat ->
  ~ rtc link k t -> chain_contains depth k t = false.
Proof.
  induction 1 as [k Hn|k k' Hn He IH]; intros [|depth] l Hl Ht Hd Hr; simpl.
  1, 3: destruct l; [by apply not_elem_of_nil in Ht|simpl in Hd; lia].
  - destruct (decide (k = t)) as [->|]; [by destruct Hr|]. by rewrite Hn.
  - destruct (decide (k = t)) as [->|Hne]; [by destruct Hr|]. rewrite Hn.
    assert (k ∈ l) as Hk by (eapply Hl; [apply rtc_refl|done]).
    apply (IH depth (filter (fun x => x <> k) l)).
    + intros x y Hx Hy. apply list_elem_of_filter. split.
      * intros ->. by apply (ends_no_return k k' (ends_link k k' Hn He) Hn).
      * eapply Hl; [|done]. by eapply rtc_l.
    + apply list_elem_of_filter. by split.
    + enough (length (filter (fun x => x <> k) l) < length l)%nat by lia.
      apply (length_filter_lt (fun x => x <> k) l k); [done|]. by intros [].
    + intros Hc. apply Hr. by eapply rtc_l.
Qed.
End Chain.

(** ** Changing links *)

Section Update.
Context {K : Type} `{EqDecision K} (next next' : K -> option K).

(** Walks that avoid the changed nodes are unchanged. *)
Lemma ends_avoid (changed : K -> Prop) k :
  (forall x, ~ changed x -> next' x = next x) -> ends next k ->
  (forall x, changed x -> ~ rtc (link next) k x) -> ends next' k.
Proof.
  intros Heq He. induction He as [k Hn|k k' Hn He IH]; intros Hc.
  - apply ends_stop. rewrite Heq; [done|]. intros Hk. by apply (Hc k Hk).
  - apply (ends_link _ k k').
    + rewrite Heq; [done|]. intros Hk. by apply (Hc k Hk).
    + apply IH. intros x Hx Hr. apply (Hc x Hx). by eapply rtc_l.
Qed.

Lemma ends_update x y : (forall k, k <> x -> next' k = next k) -> next' x = Some y ->
  (forall k, ends next k) -> ~ rtc (link next) y x -> forall k, ends next' k.
Proof.
  intros Heq Hx He Hr.
  assert (ends next' x) as Hx'.
  { apply (ends_link _ x y); [done|]. apply (ends_avoid (fun k => k = x)); [auto|done|by intros ? ->]. }
  intros k. induction (He k) as [k Hn|k k' Hn _ IH].
  - destruct (decide (k = x)) as [->|]; [done|]. apply ends_stop. by rewrite Heq.
  - destruct (decide (k = x)) as [->|]; [done|]. apply (ends_link _ k k'); [by rewrite Heq|done].
Qed.

Lemma ends_remove x : (forall k, k <> x -> next' k = next k) -> next' x = None ->
  (forall k, ends next k) -> forall k, ends next' k.
Proof.
  intros Heq Hx He k. induction (He k) as [k Hn|k k' Hn _ IH];
    (destruct (decide (k = x)) as [->|]; [by apply ends_stop|]).
  - apply ends_stop. by rewrite Heq.
  - apply (ends_link _ k k'); [by rewrite Heq|done].
Qed.

(** Renaming a node to another one, when neither reaches the other. *)
Lemma ends_rename old new : old <> new ->
  let rename k := if decide (k = old) then new else k in
  (forall k, k <> old -> k <> new -> next' k = rename <$> next k) ->
  next' old = None ->
  (next old = None \/ next new = None) ->
  next' new = rename <$> (match next old with Some c => Some c | None => next new end) ->
  (forall k, ends next k) -> ~ rtc (link next) old new -> ~ rtc (link next) new old ->
  forall k, ends next' k.
Proof.
  intros Hne rename Heq Hold Hone Hnew He Hon Hno.
  assert (forall k, ends next k -> ~ rtc (link next) k old -> ~ rtc (link next) k new -> ends next' k) as Havoid.
  { intros k Hk. induction Hk as [k Hn|k k' Hn Hk' IH]; intros Ho Hw.
    - apply ends_stop. rewrite Heq, Hn; [done| |]; intros ->; eauto using rtc_refl.
    - apply (ends_link _ k k').
      + rewrite Heq, Hn; [|intros ->; eauto using rtc_refl..]. simpl. unfold rename.
        destruct (decide (k' = old)) as [->|]; [|done]. destruct Ho. by apply rtc_once.
      + apply IH; intros Hr; [apply Ho|apply Hw]; by eapply rtc_l. }
  assert (forall c, next old = Some c \/ next new = Some c -> rename c = c /\ ends next' c) as Hc.
  { intros c Hc. assert (~ rtc (link next) c old /\ ~ rtc (link next) c new) as [Ho Hw].
    { destruct Hc as [Hc|Hc]; split; intros Hr.
      - by apply (ends_no_return next old c).
      - apply Hon. by eapply rtc_l.
      - apply Hno. by eapply rtc_l.
      - by apply (ends_no_return next new c). }
    split; [|by apply Havoid]. unfold rename. destruct (decide (c = old)) as [->|]; [|done].
    by destruct Ho. }
  assert (ends next' new) as Hn'.
  { destruct (next old) as [c|] eqn:E1; [|destruct (next new) as [c|] eqn:E2].
    - destruct (Hc c) as [Hr Hk]; [by left|]. apply (ends_link _ _ c); [|done]. rewrite Hnew. simpl. congruence.
    - destruct (Hc c) as [Hr Hk]; [by right|]. apply (ends_link _ _ c); [|done]. rewrite Hnew. simpl. congruence.
    - by apply ends_stop. }
  intros k. induction (He k) as [k Hn|k k' Hn _ IH];
    (destruct (decide (k = old)) as [->|]; [by apply ends_stop|]);
    (destruct (decide (k = new)) as [->|]; [done|]).
  - apply ends_stop. by rewrite Heq, Hn.
  - apply (ends_link _ k (rename k')); [by rewrite Heq, Hn|]. unfold rename. by case_decide.
Qed.
End Update.
