(* ===== verification/LogicalPtrace.v ===== *)
(** * The logical ptrace table (tracer/logical_ptrace.h, tracer/logical_ptrace.cpp)

    The table in which the tracer keeps, for the programs it runs, who is whose
    parent, who traces whom with which events pending, and who waits: four slot
    arrays with their counts and hints. Every operation is a function from the
    table to an errno value and the new table; a pointer into the table is the
    index of the record. A C++ enumeration is its [uint32_t] value, because a
    cleared record holds the value 0, which is no enumerator, and the code
    tests for it. *)

From S2P Require Import Prelude SlotArray Chain.
From stdpp Require Import list gmap.
#[local] Open Scope Z_scope.

(** ** Constants *)

Definition kLogicalPtraceProcessCapacity : Z := 512.
Definition kLogicalPtraceRelationCapacity : Z := 512.
Definition kLogicalPtraceFakeTracemeCapacity : Z := 512.
Definition kLogicalPtraceWaitCapacity : Z := 512.
Definition kLogicalPtraceEventQueueCapacity : Z := 4.
Definition kInvalidLogicalPtraceSlot : Z := UINT32_MAX.
Definition kLogicalPtraceMagic : Z := 0x48534c50.
Definition kLogicalPtraceVersion : Z := 1.

(** The union of the ten PTRACE_O_ bits. *)
Definition kLogicalPtraceKnownOptionMask : Z :=
  0x1 ||| 0x2 ||| 0x4 ||| 0x8 ||| 0x10 ||| 0x20 ||| 0x40 ||| 0x80 ||| 0x100000 ||| 0x200000.

Definition kLogicalWaitNoHang : Z := 0x1.
Definition kLogicalWaitStopped : Z := 0x2.
Definition kLogicalWaitExited : Z := 0x4.
Definition kLogicalWaitContinued : Z := 0x8.
Definition kLogicalWaitNowait : Z := 0x01000000.
Definition kLogicalWaitNoThread : Z := 0x20000000.
Definition kLogicalWaitAll : Z := 0x40000000.
Definition kLogicalWaitClone : Z := 0x80000000.

Definition kWait4OptionMask : Z :=
  kLogicalWaitNoHang ||| kLogicalWaitStopped ||| kLogicalWaitContinued ||| kLogicalWaitNoThread |||
  kLogicalWaitAll ||| kLogicalWaitClone.
Definition kWaitIdOptionMask : Z :=
  kLogicalWaitNoHang ||| kLogicalWaitStopped ||| kLogicalWaitExited ||| kLogicalWaitContinued |||
  kLogicalWaitNowait ||| kLogicalWaitNoThread ||| kLogicalWaitAll ||| kLogicalWaitClone.

Definition kLogicalProcessFlagParentKnown : Z := 1.

(** enum class LogicalPtraceAttachKind *)
Definition kTraceme : Z := 1.
Definition kAttach : Z := 2.
Definition kSeize : Z := 3.

(** enum class LogicalPtraceRelationState *)
Definition kAttachPending : Z := 1.
Definition kSeizeRunning : Z := 2.
Definition kStopped : Z := 3.
Definition kRunningCont : Z := 4.
Definition kRunningSyscall : Z := 5.
Definition kExitZombie : Z := 6.
Definition kRunningSingleStep : Z := 7.
Definition kListening : Z := 8.

(** enum class LogicalPtraceResumeMode *)
Definition ResumeMode_kCont : Z := 1.
Definition ResumeMode_kSyscall : Z := 2.
Definition ResumeMode_kSingleStep : Z := 3.

(** enum class LogicalPtraceWaitClass *)
Definition kNormal : Z := 1.
Definition kClone : Z := 2.

(** enum class LogicalPtraceEventKind *)
Definition kAttachStop : Z := 1.
Definition kExited : Z := 8.
Definition kSignaled : Z := 9.
Definition kContinued : Z := 10.

Definition kEventFlagSiginfoValid : Z := 1.
Definition kEventFlagRegistersValid : Z := 2.
Definition kEventFlagSyscallNumberValid : Z := 4.
Definition kLogicalPtraceEventFlagMask : Z :=
  kEventFlagSiginfoValid ||| kEventFlagRegistersValid ||| kEventFlagSyscallNumberValid.

(** enum class LogicalWaitKind, LogicalWaitSelectorKind, LogicalWaitIdType *)
Definition kWait4 : Z := 1.
Definition kWaitId : Z := 2.
Definition Selector_kAny : Z := 1.
Definition Selector_kTid : Z := 2.
Definition Selector_kProcessGroup : Z := 3.
Definition IdType_kAll : Z := 1.
Definition IdType_kPid : Z := 2.
Definition IdType_kProcessGroup : Z := 3.
Definition IdType_kPidFd : Z := 4.

(** NSIG of bionic on arm64. *)
Definition NSIG : Z := 65.

(** ** Data *)

Record LogicalProcessKey := { pk_tgid : Z; pk_reserved : Z; pk_generation : Z }.
Record LogicalTaskKey := { tk_tid : Z; tk_tgid : Z; tk_generation : Z; tk_process_generation : Z }.
Record LogicalPidIdentity := { pi_pid : Z; pi_reserved : Z; pi_start_time : Z }.

Record LogicalProcessRecord := {
  lp_occupied : Z; lp_slot : Z; lp_key : LogicalProcessKey; lp_parent : LogicalProcessKey;
  lp_process_group : Z; lp_logical_dumpable : Z; lp_logical_ptracer : LogicalPidIdentity;
  lp_flags : Z; lp_reserved : Z }.

(** arch/arm64_regs.h *)
Record Arm64Regs := { ar_regs : list Z; ar_sp : Z; ar_pc : Z; ar_pstate : Z }.

(** [signal_info] holds the 128 bytes of the libc's siginfo_t, which the table
    only copies and clears. *)
Record LogicalPtraceEvent := {
  ev_sequence : Z; ev_kind : Z; ev_flags : Z; ev_wait_status : Z; ev_signal_number : Z;
  ev_ptrace_event : Z; ev_guest_syscall_number : Z; ev_reserved : Z; ev_event_message : Z;
  ev_signal_info : list Z; ev_guest_registers : Arm64Regs }.

Record LogicalPtraceRelation := {
  lr_occupied : Z; lr_slot : Z; lr_generation : Z; lr_tracee : LogicalTaskKey;
  lr_tracer : LogicalTaskKey; lr_attach_kind : Z; lr_state : Z; lr_wait_class : Z;
  lr_event_head : Z; lr_event_count : Z; lr_reserved : Z; lr_options : Z;
  lr_events : list LogicalPtraceEvent }.

Record LogicalFakeTracemeRecord := { lf_occupied : Z; lf_slot : Z; lf_task : LogicalTaskKey }.

Record LogicalWaitRequest := {
  rq_waiter : LogicalTaskKey; rq_kind : Z; rq_selector_kind : Z; rq_selector_id : Z;
  rq_options : Z; rq_nohang : Z; rq_nowait : Z; rq_reserved : Z; rq_status_address : Z;
  rq_info_address : Z; rq_rusage_address : Z; rq_token : Z }.

Record LogicalWaitRecord := {
  lw_occupied : Z; lw_slot : Z; lw_generation : Z; lw_request : LogicalWaitRequest }.

Record LogicalWaitMatch := {
  wm_relation_slot : Z; wm_reserved : Z; wm_relation_generation : Z; wm_event_sequence : Z }.

Record LogicalPtraceTable := {
  magic : Z; version : Z; process_count : Z; relation_count : Z; fake_traceme_count : Z;
  wait_count : Z; process_free_hint : Z; relation_free_hint : Z; fake_traceme_free_hint : Z;
  wait_free_hint : Z; mutation_generation : Z; next_relation_generation : Z;
  next_event_sequence : Z; next_wait_generation : Z;
  processes : list LogicalProcessRecord; relations : list LogicalPtraceRelation;
  fake_traceme : list LogicalFakeTracemeRecord; waits : list LogicalWaitRecord }.

(** ** Writing a table: one array with its count and hint, the counters *)

Definition set_processes (t : LogicalPtraceTable) (count hint : Z)
    (arr : list LogicalProcessRecord) : LogicalPtraceTable :=
  Build_LogicalPtraceTable (magic t) (version t) count (relation_count t) (fake_traceme_count t)
    (wait_count t) hint (relation_free_hint t) (fake_traceme_free_hint t) (wait_free_hint t)
    (mutation_generation t) (next_relation_generation t) (next_event_sequence t)
    (next_wait_generation t) arr (relations t) (fake_traceme t) (waits t).

Definition set_relations (t : LogicalPtraceTable) (count hint : Z)
    (arr : list LogicalPtraceRelation) : LogicalPtraceTable :=
  Build_LogicalPtraceTable (magic t) (version t) (process_count t) count (fake_traceme_count t)
    (wait_count t) (process_free_hint t) hint (fake_traceme_free_hint t) (wait_free_hint t)
    (mutation_generation t) (next_relation_generation t) (next_event_sequence t)
    (next_wait_generation t) (processes t) arr (fake_traceme t) (waits t).

Definition set_fake_traceme (t : LogicalPtraceTable) (count hint : Z)
    (arr : list LogicalFakeTracemeRecord) : LogicalPtraceTable :=
  Build_LogicalPtraceTable (magic t) (version t) (process_count t) (relation_count t) count
    (wait_count t) (process_free_hint t) (relation_free_hint t) hint (wait_free_hint t)
    (mutation_generation t) (next_relation_generation t) (next_event_sequence t)
    (next_wait_generation t) (processes t) (relations t) arr (waits t).

Definition set_waits (t : LogicalPtraceTable) (count hint : Z)
    (arr : list LogicalWaitRecord) : LogicalPtraceTable :=
  Build_LogicalPtraceTable (magic t) (version t) (process_count t) (relation_count t)
    (fake_traceme_count t) count (process_free_hint t) (relation_free_hint t)
    (fake_traceme_free_hint t) hint (mutation_generation t) (next_relation_generation t)
    (next_event_sequence t) (next_wait_generation t) (processes t) (relations t) (fake_traceme t) arr.

Definition set_counters (t : LogicalPtraceTable) (mutation relation event wait : Z) : LogicalPtraceTable :=
  Build_LogicalPtraceTable (magic t) (version t) (process_count t) (relation_count t)
    (fake_traceme_count t) (wait_count t) (process_free_hint t) (relation_free_hint t)
    (fake_traceme_free_hint t) (wait_free_hint t) mutation relation event wait
    (processes t) (relations t) (fake_traceme t) (waits t).

(** [++table->mutation_generation] *)
Definition bump (t : LogicalPtraceTable) : LogicalPtraceTable :=
  set_counters t (u64 (mutation_generation t + 1)) (next_relation_generation t)
    (next_event_sequence t) (next_wait_generation t).

(** ** Keys and validity of the parts *)

#[export] Instance LogicalProcessKey_eq_dec : EqDecision LogicalProcessKey.
Proof. solve_decision. Defined.
#[export] Instance LogicalTaskKey_eq_dec : EqDecision LogicalTaskKey.
Proof. solve_decision. Defined.

Definition LogicalProcessKeysEqual (first second : LogicalProcessKey) : bool :=
  (pk_tgid first =? pk_tgid second) && (pk_generation first =? pk_generation second).

Definition LogicalTaskKeysEqual (first second : LogicalTaskKey) : bool :=
  (tk_tid first =? tk_tid second) && (tk_tgid first =? tk_tgid second) &&
  (tk_generation first =? tk_generation second) &&
  (tk_process_generation first =? tk_process_generation second).

Definition LogicalProcessKeyForTask (task : LogicalTaskKey) : LogicalProcessKey :=
  {| pk_tgid := tk_tgid task; pk_reserved := 0; pk_generation := tk_process_generation task |}.

Definition ProcessKeyValid (key : LogicalProcessKey) : bool :=
  (0 <? pk_tgid key) && (pk_reserved key =? 0) && negb (pk_generation key =? 0).

Definition TaskKeyValid (key : LogicalTaskKey) : bool :=
  (0 <? tk_tid key) && (0 <? tk_tgid key) && negb (tk_generation key =? 0) &&
  negb (tk_process_generation key =? 0).

Definition PidIdentityValid (identity : LogicalPidIdentity) : bool :=
  if (pi_pid identity <? -1) || negb (pi_reserved identity =? 0) then false
  else (0 <? pi_pid identity) || (pi_start_time identity =? 0).

Definition DumpableValid (dumpable : Z) : bool := (0 <=? dumpable) && (dumpable <=? 2).

Definition AttachKindValid (kind : Z) : bool :=
  (kind =? kTraceme) || (kind =? kAttach) || (kind =? kSeize).

Definition RelationStateValid (state : Z) : bool :=
  (state =? kAttachPending) || (state =? kSeizeRunning) || (state =? kStopped) ||
  (state =? kRunningCont) || (state =? kRunningSyscall) || (state =? kExitZombie) ||
  (state =? kRunningSingleStep) || (state =? kListening).

Definition WaitClassValid (wait_class : Z) : bool := (wait_class =? kNormal) || (wait_class =? kClone).

Definition EventKindValid (kind : Z) : bool := (kAttachStop <=? kind) && (kind <=? kContinued).

Definition EventIsExit (event : LogicalPtraceEvent) : bool :=
  (ev_kind event =? kExited) || (ev_kind event =? kSignaled).

Definition WaitKindValid (kind : Z) : bool := (kind =? kWait4) || (kind =? kWaitId).

Definition WaitSelectorValid (kind : Z) : bool :=
  (kind =? Selector_kAny) || (kind =? Selector_kTid) || (kind =? Selector_kProcessGroup).

(** [(options & ~mask) != 0] *)
Definition unknown_bits (options mask : Z) : bool := negb (Z.land options (not64 mask) =? 0).

Definition WaitRequestValid (request : LogicalWaitRequest) : bool :=
  if negb (TaskKeyValid (rq_waiter request)) || negb (WaitKindValid (rq_kind request)) ||
     negb (WaitSelectorValid (rq_selector_kind request)) ||
     (1 <? rq_nohang request) || (1 <? rq_nowait request) || negb (rq_reserved request =? 0) ||
     negb (rq_nohang request =? (if has (rq_options request) kLogicalWaitNoHang then 1 else 0)) ||
     negb (rq_nowait request =? (if has (rq_options request) kLogicalWaitNowait then 1 else 0))
  then false
  else if (if rq_selector_kind request =? Selector_kAny then negb (rq_selector_id request =? 0)
           else rq_selector_id request <=? 0) then false
  else if rq_kind request =? kWait4 then
    negb (unknown_bits (rq_options request) kWait4OptionMask) && (rq_nowait request =? 0) &&
    (rq_info_address request =? 0)
  else
    negb (unknown_bits (rq_options request) kWaitIdOptionMask) &&
    has (rq_options request) (kLogicalWaitStopped ||| kLogicalWaitExited ||| kLogicalWaitContinued) &&
    (rq_status_address request =? 0).

(** The value handed out and the next one; 0 is never handed out. *)
Definition AllocateSequence (next : Z) : Z * Z :=
  let value := if next =? 0 then 1 else next in
  let next := u64 (value + 1) in
  (value, if next =? 0 then 1 else next).

(** ** Cleared records *)

Definition zero_process_key : LogicalProcessKey := Build_LogicalProcessKey 0 0 0.
Definition zero_task_key : LogicalTaskKey := Build_LogicalTaskKey 0 0 0 0.
Definition zero_regs : Arm64Regs := Build_Arm64Regs (replicate 31 0) 0 0 0.

Definition ClearProcessRecord (slot : Z) : LogicalProcessRecord :=
  Build_LogicalProcessRecord 0 slot zero_process_key zero_process_key 0 0
    (Build_LogicalPidIdentity 0 0 0) 0 0.

(** A zeroed event with [guest_syscall_number] -1. *)
Definition cleared_event : LogicalPtraceEvent :=
  Build_LogicalPtraceEvent 0 0 0 0 0 0 (-1) 0 0 (replicate 128 0) zero_regs.

Definition ClearRelationRecord (slot : Z) : LogicalPtraceRelation :=
  Build_LogicalPtraceRelation 0 slot 0 zero_task_key zero_task_key 0 0 0 0 0 0 0
    (replicate 4 cleared_event).

Definition ClearFakeTracemeRecord (slot : Z) : LogicalFakeTracemeRecord :=
  Build_LogicalFakeTracemeRecord 0 slot zero_task_key.

Definition zero_request : LogicalWaitRequest :=
  Build_LogicalWaitRequest zero_task_key 0 0 0 0 0 0 0 0 0 0 0.

Definition ClearWaitRecord (slot : Z) : LogicalWaitRecord :=
  Build_LogicalWaitRecord 0 slot 0 zero_request.

#[export] Instance process_inhabited : Inhabited LogicalProcessRecord := populate (ClearProcessRecord 0).
#[export] Instance event_inhabited : Inhabited LogicalPtraceEvent := populate cleared_event.
#[export] Instance relation_inhabited : Inhabited LogicalPtraceRelation := populate (ClearRelationRecord 0).
#[export] Instance fake_inhabited : Inhabited LogicalFakeTracemeRecord := populate (ClearFakeTracemeRecord 0).
#[export] Instance wait_inhabited : Inhabited LogicalWaitRecord := populate (ClearWaitRecord 0).

(** ** The four arrays are slot arrays *)

Lemma LogicalProcessKeysEqual_spec k k' : ProcessKeyValid k = true -> ProcessKeyValid k' = true ->
  LogicalProcessKeysEqual k k' = true <-> k = k'.
Proof.
  destruct k, k'. unfold ProcessKeyValid, LogicalProcessKeysEqual. simpl. intros. bool_hyps. split.
  - intros. bool_hyps. f_equal; lia.
  - intros [= -> -> ->]. by rewrite !Z.eqb_refl.
Qed.

Lemma LogicalTaskKeysEqual_spec k k' : LogicalTaskKeysEqual k k' = true <-> k = k'.
Proof.
  destruct k, k'. unfold LogicalTaskKeysEqual. simpl. split.
  - intros. bool_hyps. f_equal; lia.
  - intros [= -> -> -> ->]. by rewrite !Z.eqb_refl.
Qed.

#[export] Instance process_slots : SlotRecord LogicalProcessRecord LogicalProcessKey := {|
  sr_occupied := lp_occupied; sr_slot := lp_slot; sr_key := lp_key;
  sr_same := LogicalProcessKeysEqual; sr_key_ok := ProcessKeyValid;
  sr_same_spec := LogicalProcessKeysEqual_spec |}.

#[export] Instance relation_slots : SlotRecord LogicalPtraceRelation LogicalTaskKey := {|
  sr_occupied := lr_occupied; sr_slot := lr_slot; sr_key := lr_tracee;
  sr_same := LogicalTaskKeysEqual; sr_key_ok := TaskKeyValid;
  sr_same_spec := fun k k' _ _ => LogicalTaskKeysEqual_spec k k' |}.

#[export] Instance fake_slots : SlotRecord LogicalFakeTracemeRecord LogicalTaskKey := {|
  sr_occupied := lf_occupied; sr_slot := lf_slot; sr_key := lf_task;
  sr_same := LogicalTaskKeysEqual; sr_key_ok := TaskKeyValid;
  sr_same_spec := fun k k' _ _ => LogicalTaskKeysEqual_spec k k' |}.

#[export] Instance wait_slots : SlotRecord LogicalWaitRecord LogicalTaskKey := {|
  sr_occupied := lw_occupied; sr_slot := lw_slot; sr_key := fun w => rq_waiter (lw_request w);
  sr_same := LogicalTaskKeysEqual; sr_key_ok := TaskKeyValid;
  sr_same_spec := fun k k' _ _ => LogicalTaskKeysEqual_spec k k' |}.

(** ** Initialisation and lookup *)

Definition InitLogicalPtraceTable : LogicalPtraceTable :=
  Build_LogicalPtraceTable kLogicalPtraceMagic kLogicalPtraceVersion 0 0 0 0 0 0 0 0 0 1 1 1
    (ClearProcessRecord <$> seqZ 0 kLogicalPtraceProcessCapacity)
    (ClearRelationRecord <$> seqZ 0 kLogicalPtraceRelationCapacity)
    (ClearFakeTracemeRecord <$> seqZ 0 kLogicalPtraceFakeTracemeCapacity)
    (ClearWaitRecord <$> seqZ 0 kLogicalPtraceWaitCapacity).

Definition IsLogicalPtraceTableInitialized (t : LogicalPtraceTable) : bool :=
  (magic t =? kLogicalPtraceMagic) && (version t =? kLogicalPtraceVersion) &&
  (process_count t <=? kLogicalPtraceProcessCapacity) &&
  (relation_count t <=? kLogicalPtraceRelationCapacity) &&
  (fake_traceme_count t <=? kLogicalPtraceFakeTracemeCapacity) &&
  (wait_count t <=? kLogicalPtraceWaitCapacity) &&
  (process_free_hint t <? kLogicalPtraceProcessCapacity) &&
  (relation_free_hint t <? kLogicalPtraceRelationCapacity) &&
  (fake_traceme_free_hint t <? kLogicalPtraceFakeTracemeCapacity) &&
  (wait_free_hint t <? kLogicalPtraceWaitCapacity) &&
  negb (next_relation_generation t =? 0) && negb (next_event_sequence t =? 0) &&
  negb (next_wait_generation t =? 0).

(** The Find functions return the index of the record. *)
Definition FindLogicalProcess (t : LogicalPtraceTable) (key : LogicalProcessKey) : option nat :=
  if negb (IsLogicalPtraceTableInitialized t) || negb (ProcessKeyValid key) then None
  else find_slot key (processes t).

Definition FindLogicalPtraceRelation (t : LogicalPtraceTable) (tracee : LogicalTaskKey) : option nat :=
  if negb (IsLogicalPtraceTableInitialized t) || negb (TaskKeyValid tracee) then None
  else find_slot tracee (relations t).

Definition FindFakeTraceme (t : LogicalPtraceTable) (task : LogicalTaskKey) : option nat :=
  if negb (IsLogicalPtraceTableInitialized t) || negb (TaskKeyValid task) then None
  else find_slot task (fake_traceme t).

Definition FindLogicalWait (t : LogicalPtraceTable) (waiter : LogicalTaskKey) : option nat :=
  if negb (IsLogicalPtraceTableInitialized t) || negb (TaskKeyValid waiter) then None
  else find_slot waiter (waits t).

Definition HasLogicalFakeTraceme (t : LogicalPtraceTable) (task : LogicalTaskKey) : bool :=
  match FindFakeTraceme t task with Some _ => true | None => false end.

(** The At functions: the record of a slot in use. *)
Definition LogicalProcessAt (t : LogicalPtraceTable) (slot : Z) : option Z :=
  if negb (IsLogicalPtraceTableInitialized t) || (kLogicalPtraceProcessCapacity <=? slot) ||
     (lp_occupied (processes t !!! Z.to_nat slot) =? 0) then None else Some slot.
Definition LogicalPtraceRelationAt (t : LogicalPtraceTable) (slot : Z) : option Z :=
  if negb (IsLogicalPtraceTableInitialized t) || (kLogicalPtraceRelationCapacity <=? slot) ||
     (lr_occupied (relations t !!! Z.to_nat slot) =? 0) then None else Some slot.
Definition LogicalWaitAt (t : LogicalPtraceTable) (slot : Z) : option Z :=
  if negb (IsLogicalPtraceTableInitialized t) || (kLogicalPtraceWaitCapacity <=? slot) ||
     (lw_occupied (waits t !!! Z.to_nat slot) =? 0) then None else Some slot.

(** ** Chains and references *)

(** [(process.flags & kLogicalProcessFlagParentKnown) != 0U] *)
Definition parent_known (process : LogicalProcessRecord) : bool :=
  has (lp_flags process) kLogicalProcessFlagParentKnown.

Fixpoint parent_chain (depth : nat) (t : LogicalPtraceTable) (current expected : LogicalProcessKey) : bool :=
  match depth with
  | O => true
  | S depth =>
    if LogicalProcessKeysEqual current expected then true
    else match FindLogicalProcess t current with
    | None => false
    | Some process =>
      if negb (parent_known (processes t !!! process)) then false
      else parent_chain depth t (lp_parent (processes t !!! process)) expected
    end
  end.
Definition ParentChainContains (t : LogicalPtraceTable) (current expected : LogicalProcessKey) : bool :=
  parent_chain (Z.to_nat kLogicalPtraceProcessCapacity) t current expected.

Fixpoint ptrace_chain (depth : nat) (t : LogicalPtraceTable) (current expected : LogicalTaskKey) : bool :=
  match depth with
  | O => true
  | S depth =>
    if LogicalTaskKeysEqual current expected then true
    else match FindLogicalPtraceRelation t current with
    | None => false
    | Some relation => ptrace_chain depth t (lr_tracer (relations t !!! relation)) expected
    end
  end.
Definition PtraceChainContains (t : LogicalPtraceTable) (current expected : LogicalTaskKey) : bool :=
  ptrace_chain (Z.to_nat kLogicalPtraceRelationCapacity) t current expected.

Definition ProcessReferenced (t : LogicalPtraceTable) (key : LogicalProcessKey) : bool :=
  existsb (fun process => in_use process && parent_known process &&
    LogicalProcessKeysEqual (lp_parent process) key) (processes t) ||
  existsb (fun relation => in_use relation &&
    (LogicalProcessKeysEqual (LogicalProcessKeyForTask (lr_tracee relation)) key ||
     LogicalProcessKeysEqual (LogicalProcessKeyForTask (lr_tracer relation)) key)) (relations t) ||
  existsb (fun fake => in_use fake &&
    LogicalProcessKeysEqual (LogicalProcessKeyForTask (lf_task fake)) key) (fake_traceme t) ||
  existsb (fun wait => in_use wait &&
    LogicalProcessKeysEqual (LogicalProcessKeyForTask (rq_waiter (lw_request wait))) key) (waits t).
