(* ===== verification/LogicalPtraceOps.v ===== *)
(** * The operations of the logical ptrace table (tracer/logical_ptrace.cpp)

    Every function of the file that changes the table, with its checks in the
    order of the code, and ValidateLogicalPtraceTable. The result is the errno
    value, the new table and the output parameters. *)

From S2P Require Import Prelude SlotArray LogicalPtrace.
From stdpp Require Import list gmap.
#[local] Open Scope Z_scope.

(** ** Processes *)

Definition InsertLogicalProcess (t : LogicalPtraceTable) (key : LogicalProcessKey)
    (parent : option LogicalProcessKey) (process_group logical_dumpable : Z)
    (logical_ptracer : LogicalPidIdentity) : Z * LogicalPtraceTable * Z :=
  if negb (IsLogicalPtraceTableInitialized t) || negb (ProcessKeyValid key) ||
     (process_group <=? 0) || negb (DumpableValid logical_dumpable) ||
     negb (PidIdentityValid logical_ptracer) then (EINVAL, t, kInvalidLogicalPtraceSlot)
  else if FindLogicalProcess t key is Some _ then (EEXIST, t, kInvalidLogicalPtraceSlot)
  else if match parent with
     | None => false
     | Some parent =>
       negb (ProcessKeyValid parent) || LogicalProcessKeysEqual key parent ||
       match FindLogicalProcess t parent with None => true | Some _ => false end
     end then (ESRCH, t, kInvalidLogicalPtraceSlot)
  else if process_count t =? kLogicalPtraceProcessCapacity then (ENOSPC, t, kInvalidLogicalPtraceSlot)
  else match free_slot (process_free_hint t) (processes t) with
  | None => (ENOSPC, t, kInvalidLogicalPtraceSlot)
  | Some candidate =>
    let process :=
      {| lp_occupied := 1; lp_slot := candidate; lp_key := key;
         lp_parent := match parent with Some parent => parent | None => zero_process_key end;
         lp_process_group := process_group; lp_logical_dumpable := logical_dumpable;
         lp_logical_ptracer := logical_ptracer;
         lp_flags := match parent with Some _ => 0 ||| kLogicalProcessFlagParentKnown | None => 0 end;
         lp_reserved := 0 |} in
    (0, bump (set_processes t (u32 (process_count t + 1))
               (advance_hint candidate kLogicalPtraceProcessCapacity)
               (<[Z.to_nat candidate := process]> (processes t))), candidate)
  end.

(** The slot output is not written by the two early returns. *)
Definition InheritLogicalProcess (t : LogicalPtraceTable) (child parent : LogicalProcessKey)
    (child_process_group : Z) : Z * LogicalPtraceTable * option Z :=
  if negb (IsLogicalPtraceTableInitialized t) then (EINVAL, t, None)
  else match FindLogicalProcess t parent with
  | None => (ESRCH, t, None)
  | Some parent_record =>
    let '(error, t', slot) := InsertLogicalProcess t child (Some parent) child_process_group
      (lp_logical_dumpable (processes t !!! parent_record))
      (lp_logical_ptracer (processes t !!! parent_record)) in
    (error, t', Some slot)
  end.

Definition EraseLogicalProcess (t : LogicalPtraceTable) (key : LogicalProcessKey) : Z * LogicalPtraceTable :=
  if negb (IsLogicalPtraceTableInitialized t) || negb (ProcessKeyValid key) then (EINVAL, t)
  else match FindLogicalProcess t key with
  | None => (ESRCH, t)
  | Some process =>
    if ProcessReferenced t key then (EBUSY, t)
    else let slot := lp_slot (processes t !!! process) in
      (0, bump (set_processes t (u32 (process_count t - 1)) slot
                 (<[process := ClearProcessRecord slot]> (processes t))))
  end.

(** A process record with some of its fields replaced. *)
Definition with_process (p : LogicalProcessRecord) (parent : LogicalProcessKey) (process_group
    logical_dumpable : Z) (logical_ptracer : LogicalPidIdentity) (flags : Z) : LogicalProcessRecord :=
  Build_LogicalProcessRecord (lp_occupied p) (lp_slot p) (lp_key p) parent process_group
    logical_dumpable logical_ptracer flags (lp_reserved p).

(** The record at [i] replaced, [mutation_generation] advanced. *)
Definition update_process (t : LogicalPtraceTable) (i : nat) (p : LogicalProcessRecord) : LogicalPtraceTable :=
  bump (set_processes t (process_count t) (process_free_hint t) (<[i := p]> (processes t))).

Definition SetLogicalProcessDumpable (t : LogicalPtraceTable) (key : LogicalProcessKey)
    (logical_dumpable : Z) : Z * LogicalPtraceTable :=
  if negb (IsLogicalPtraceTableInitialized t) || negb (DumpableValid logical_dumpable) then (EINVAL, t)
  else match FindLogicalProcess t key with
  | None => (ESRCH, t)
  | Some i => let p := processes t !!! i in
    (0, update_process t i (with_process p (lp_parent p) (lp_process_group p) logical_dumpable
          (lp_logical_ptracer p) (lp_flags p)))
  end.

Definition SetLogicalProcessPtracer (t : LogicalPtraceTable) (key : LogicalProcessKey)
    (logical_ptracer : LogicalPidIdentity) : Z * LogicalPtraceTable :=
  if negb (IsLogicalPtraceTableInitialized t) || negb (PidIdentityValid logical_ptracer) then (EINVAL, t)
  else match FindLogicalProcess t key with
  | None => (ESRCH, t)
  | Some i => let p := processes t !!! i in
    (0, update_process t i (with_process p (lp_parent p) (lp_process_group p) (lp_logical_dumpable p)
          logical_ptracer (lp_flags p)))
  end.

Definition SetLogicalProcessGroup (t : LogicalPtraceTable) (key : LogicalProcessKey)
    (process_group : Z) : Z * LogicalPtraceTable :=
  if negb (IsLogicalPtraceTableInitialized t) || (process_group <=? 0) then (EINVAL, t)
  else match FindLogicalProcess t key with
  | None => (ESRCH, t)
  | Some i => let p := processes t !!! i in
    (0, update_process t i (with_process p (lp_parent p) process_group (lp_logical_dumpable p)
          (lp_logical_ptracer p) (lp_flags p)))
  end.

Definition SetLogicalProcessParent (t : LogicalPtraceTable) (key : LogicalProcessKey)
    (parent : option LogicalProcessKey) : Z * LogicalPtraceTable :=
  if negb (IsLogicalPtraceTableInitialized t) || negb (ProcessKeyValid key) then (EINVAL, t)
  else match FindLogicalProcess t key with
  | None => (ESRCH, t)
  | Some i =>
    let p := processes t !!! i in
    let cleared := Z.land (lp_flags p) (not32 kLogicalProcessFlagParentKnown) in
    match parent with
    | None =>
      (0, update_process t i (with_process p zero_process_key (lp_process_group p)
            (lp_logical_dumpable p) (lp_logical_ptracer p) cleared))
    | Some parent =>
      if negb (ProcessKeyValid parent) then (EINVAL, t)
      else if LogicalProcessKeysEqual key parent || ParentChainContains t parent key then (ELOOP, t)
      else match FindLogicalProcess t parent with
      | None => (ESRCH, t)
      | Some _ =>
        (0, update_process t i (with_process p parent (lp_process_group p) (lp_logical_dumpable p)
              (lp_logical_ptracer p) (cleared ||| kLogicalProcessFlagParentKnown)))
      end
    end
  end.

(** ** Fake TRACEME records *)

Definition ClaimLogicalFakeTraceme (t : LogicalPtraceTable) (task : LogicalTaskKey) : Z * LogicalPtraceTable :=
  if negb (IsLogicalPtraceTableInitialized t) || negb (TaskKeyValid task) then (EINVAL, t)
  else if FindLogicalProcess t (LogicalProcessKeyForTask task) is None then (ESRCH, t)
  else if FindFakeTraceme t task is Some _ then (EPERM, t)
  else if fake_traceme_count t =? kLogicalPtraceFakeTracemeCapacity then (ENOSPC, t)
  else match free_slot (fake_traceme_free_hint t) (fake_traceme t) with
  | None => (ENOSPC, t)
  | Some candidate =>
    (0, bump (set_fake_traceme t (u32 (fake_traceme_count t + 1))
               (advance_hint candidate kLogicalPtraceFakeTracemeCapacity)
               (<[Z.to_nat candidate := Build_LogicalFakeTracemeRecord 1 candidate task]> (fake_traceme t))))
  end.

Definition ClearLogicalFakeTraceme (t : LogicalPtraceTable) (task : LogicalTaskKey) : Z * LogicalPtraceTable :=
  if negb (IsLogicalPtraceTableInitialized t) || negb (TaskKeyValid task) then (EINVAL, t)
  else match FindFakeTraceme t task with
  | None => (ESRCH, t)
  | Some record =>
    let slot := lf_slot (fake_traceme t !!! record) in
    (0, bump (set_fake_traceme t (u32 (fake_traceme_count t - 1)) slot
               (<[record := ClearFakeTracemeRecord slot]> (fake_traceme t))))
  end.

(** ** Relations *)

(** The mutable parts of a relation replaced: state, queue, options. *)
Definition with_relation (r : LogicalPtraceRelation) (state head count options : Z)
    (events : list LogicalPtraceEvent) : LogicalPtraceRelation :=
  Build_LogicalPtraceRelation (lr_occupied r) (lr_slot r) (lr_generation r) (lr_tracee r) (lr_tracer r)
    (lr_attach_kind r) state (lr_wait_class r) head count (lr_reserved r) options events.

Definition with_state (r : LogicalPtraceRelation) (state : Z) : LogicalPtraceRelation :=
  with_relation r state (lr_event_head r) (lr_event_count r) (lr_options r) (lr_events r).

(** The record at [i] replaced, [mutation_generation] advanced. *)
Definition update_relation (t : LogicalPtraceTable) (i : nat) (r : LogicalPtraceRelation) : LogicalPtraceTable :=
  bump (set_relations t (relation_count t) (relation_free_hint t) (<[i := r]> (relations t))).

(** A new relation stored at a free slot. *)
Definition add_relation (t : LogicalPtraceTable) (candidate next_relation next_event : Z)
    (r : LogicalPtraceRelation) : LogicalPtraceTable :=
  let t' := set_relations t (u32 (relation_count t + 1))
    (advance_hint candidate kLogicalPtraceRelationCapacity)
    (<[Z.to_nat candidate := r]> (relations t)) in
  bump (set_counters t' (mutation_generation t) next_relation next_event (next_wait_generation t)).

Definition initial_state (attach_kind : Z) : Z :=
  if attach_kind =? kAttach then kAttachPending
  else if attach_kind =? kSeize then kSeizeRunning else kRunningCont.

Definition CreateLogicalPtraceRelation (t : LogicalPtraceTable) (tracee tracer : LogicalTaskKey)
    (attach_kind wait_class options : Z) : Z * LogicalPtraceTable * Z :=
  if negb (IsLogicalPtraceTableInitialized t) || negb (TaskKeyValid tracee) ||
     negb (TaskKeyValid tracer) || negb (AttachKindValid attach_kind) ||
     negb (WaitClassValid wait_class) || unknown_bits options kLogicalPtraceKnownOptionMask
  then (EINVAL, t, kInvalidLogicalPtraceSlot)
  else if tk_tgid tracee =? tk_tgid tracer then (EPERM, t, kInvalidLogicalPtraceSlot)
  else match FindLogicalProcess t (LogicalProcessKeyForTask tracee),
             FindLogicalProcess t (LogicalProcessKeyForTask tracer) with
  | Some tracee_process, Some tracer_process =>
    let tracee_process := processes t !!! tracee_process in
    let tracer_process := processes t !!! tracer_process in
    if (attach_kind =? kTraceme) &&
       (negb (parent_known tracee_process) ||
        negb (LogicalProcessKeysEqual (lp_parent tracee_process) (lp_key tracer_process)))
    then (EPERM, t, kInvalidLogicalPtraceSlot)
    else if PtraceChainContains t tracer tracee then (ELOOP, t, kInvalidLogicalPtraceSlot)
    else if FindLogicalPtraceRelation t tracee is Some _ then (EPERM, t, kInvalidLogicalPtraceSlot)
    else if relation_count t =? kLogicalPtraceRelationCapacity then (ENOSPC, t, kInvalidLogicalPtraceSlot)
    else match free_slot (relation_free_hint t) (relations t) with
    | None => (ENOSPC, t, kInvalidLogicalPtraceSlot)
    | Some candidate =>
      let '(generation, next) := AllocateSequence (next_relation_generation t) in
      let relation := Build_LogicalPtraceRelation 1 candidate generation tracee tracer attach_kind
        (initial_state attach_kind) wait_class 0 0 0 options (replicate 4 cleared_event) in
      (0, add_relation t candidate next (next_event_sequence t) relation, candidate)
    end
  | _, _ => (ESRCH, t, kInvalidLogicalPtraceSlot)
  end.

(** [stored]: the event with its sequence number, and the system call number
    reset when its flag is clear. *)
Definition stored_event (event : LogicalPtraceEvent) (sequence : Z) : LogicalPtraceEvent :=
  Build_LogicalPtraceEvent sequence (ev_kind event) (ev_flags event) (ev_wait_status event)
    (ev_signal_number event) (ev_ptrace_event event)
    (if has (ev_flags event) kEventFlagSyscallNumberValid then ev_guest_syscall_number event else -1)
    (ev_reserved event) (ev_event_message event) (ev_signal_info event) (ev_guest_registers event).

(** The checks Queue and CreateInherited make on an event given by the caller. *)
Definition event_argument_bad (event : LogicalPtraceEvent) : bool :=
  negb (ev_sequence event =? 0) || negb (EventKindValid (ev_kind event)) ||
  unknown_bits (ev_flags event) kLogicalPtraceEventFlagMask ||
  (ev_signal_number event <? 0) || (NSIG <=? ev_signal_number event) || negb (ev_reserved event =? 0).

Definition CreateInheritedLogicalPtraceRelation (t : LogicalPtraceTable)
    (parent_tracee child_tracee : LogicalTaskKey) (wait_class : Z) (initial_stop : LogicalPtraceEvent)
    : Z * LogicalPtraceTable * Z * Z :=
  let fail error := (error, t, kInvalidLogicalPtraceSlot, 0) in
  if negb (IsLogicalPtraceTableInitialized t) || negb (TaskKeyValid parent_tracee) ||
     negb (TaskKeyValid child_tracee) || negb (WaitClassValid wait_class) ||
     EventIsExit initial_stop || (ev_kind initial_stop =? kContinued) ||
     event_argument_bad initial_stop then fail EINVAL
  else match FindLogicalPtraceRelation t parent_tracee with
  | None => fail ESRCH
  | Some parent =>
    let parent := relations t !!! parent in
    if lr_state parent =? kExitZombie then fail ESRCH
    else if tk_tgid child_tracee =? tk_tgid (lr_tracer parent) then fail EPERM
    else if match FindLogicalProcess t (LogicalProcessKeyForTask child_tracee),
                  FindLogicalProcess t (LogicalProcessKeyForTask (lr_tracer parent)) with
            | Some _, Some _ => false
            | _, _ => true
            end then fail ESRCH
    else if PtraceChainContains t (lr_tracer parent) child_tracee then fail ELOOP
    else if FindLogicalPtraceRelation t child_tracee is Some _ then fail EPERM
    else if relation_count t =? kLogicalPtraceRelationCapacity then fail ENOSPC
    else match free_slot (relation_free_hint t) (relations t) with
    | None => fail ENOSPC
    | Some candidate =>
      let '(generation, next) := AllocateSequence (next_relation_generation t) in
      let '(sequence, next_event) := AllocateSequence (next_event_sequence t) in
      let child := Build_LogicalPtraceRelation 1 candidate generation child_tracee (lr_tracer parent)
        (lr_attach_kind parent) kStopped wait_class 0 1 0 (lr_options parent)
        (<[0%nat := stored_event initial_stop sequence]> (replicate 4 cleared_event)) in
      (0, add_relation t candidate next next_event child, candidate, sequence)
    end
  end.

Definition EraseRelationAt (t : LogicalPtraceTable) (slot : Z) : LogicalPtraceTable :=
  bump (set_relations t (u32 (relation_count t - 1)) slot
         (<[Z.to_nat slot := ClearRelationRecord slot]> (relations t))).

Definition EraseLogicalPtraceRelation (t : LogicalPtraceTable) (tracee : LogicalTaskKey)
    (discard_pending_events : bool) : Z * LogicalPtraceTable :=
  if negb (IsLogicalPtraceTableInitialized t) || negb (TaskKeyValid tracee) then (EINVAL, t)
  else match FindLogicalPtraceRelation t tracee with
  | None => (ESRCH, t)
  | Some i => let r := relations t !!! i in
    if negb discard_pending_events && negb (lr_event_count r =? 0) then (EBUSY, t)
    else (0, EraseRelationAt t (lr_slot r))
  end.

Definition SetLogicalPtraceOptions (t : LogicalPtraceTable) (tracee : LogicalTaskKey)
    (options : Z) : Z * LogicalPtraceTable :=
  if negb (IsLogicalPtraceTableInitialized t) || unknown_bits options kLogicalPtraceKnownOptionMask
  then (EINVAL, t)
  else match FindLogicalPtraceRelation t tracee with
  | None => (ESRCH, t)
  | Some i => let r := relations t !!! i in
    if negb (lr_state r =? kStopped) then (EBUSY, t)
    else (0, update_relation t i (with_relation r (lr_state r) (lr_event_head r) (lr_event_count r)
                                    options (lr_events r)))
  end.

Definition ResumeLogicalPtraceRelation (t : LogicalPtraceTable) (tracee : LogicalTaskKey)
    (mode : Z) : Z * LogicalPtraceTable :=
  if negb (IsLogicalPtraceTableInitialized t) ||
     (negb (mode =? ResumeMode_kCont) && negb (mode =? ResumeMode_kSyscall) &&
      negb (mode =? ResumeMode_kSingleStep)) then (EINVAL, t)
  else match FindLogicalPtraceRelation t tracee with
  | None => (ESRCH, t)
  | Some i => let r := relations t !!! i in
    if negb (lr_state r =? kStopped) then (if lr_state r =? kExitZombie then ESRCH else EBUSY, t)
    else if negb (lr_event_count r =? 0) then (EBUSY, t)
    else (0, update_relation t i (with_state r
            (if mode =? ResumeMode_kCont then kRunningCont
             else if mode =? ResumeMode_kSyscall then kRunningSyscall else kRunningSingleStep)))
  end.

Definition ListenLogicalPtraceRelation (t : LogicalPtraceTable) (tracee : LogicalTaskKey)
    : Z * LogicalPtraceTable :=
  if negb (IsLogicalPtraceTableInitialized t) then (EINVAL, t)
  else match FindLogicalPtraceRelation t tracee with
  | None => (ESRCH, t)
  | Some i => let r := relations t !!! i in
    if negb (lr_attach_kind r =? kSeize) then (EIO, t)
    else if negb (lr_state r =? kStopped) || negb (lr_event_count r =? 0)
    then (if lr_state r =? kExitZombie then ESRCH else EBUSY, t)
    else (0, update_relation t i (with_state r kListening))
  end.

(** ** Events *)

Definition queue_slot (head index : Z) : Z := u32 (head + index) mod kLogicalPtraceEventQueueCapacity.

Definition QueueLogicalPtraceEvent (t : LogicalPtraceTable) (tracee : LogicalTaskKey)
    (event : LogicalPtraceEvent) : Z * LogicalPtraceTable * Z :=
  if negb (IsLogicalPtraceTableInitialized t) || event_argument_bad event then (EINVAL, t, 0)
  else match FindLogicalPtraceRelation t tracee with
  | None => (ESRCH, t, 0)
  | Some i => let r := relations t !!! i in
    if lr_state r =? kExitZombie then (ESRCH, t, 0)
    else if lr_event_count r =? kLogicalPtraceEventQueueCapacity then (ENOSPC, t, 0)
    else
      let event_slot := queue_slot (lr_event_head r) (lr_event_count r) in
      let '(sequence, next) := AllocateSequence (next_event_sequence t) in
      let stored := stored_event event sequence in
      let r' := with_relation r (if EventIsExit stored then kExitZombie else kStopped)
        (lr_event_head r) (u32 (lr_event_count r + 1)) (lr_options r)
        (<[Z.to_nat event_slot := stored]> (lr_events r)) in
      let t' := set_relations t (relation_count t) (relation_free_hint t) (<[i := r']> (relations t)) in
      (0, bump (set_counters t' (mutation_generation t) (next_relation_generation t) next
                  (next_wait_generation t)), sequence)
  end.

(** [relation.events[relation.event_head]] *)
Definition head_event (r : LogicalPtraceRelation) : LogicalPtraceEvent :=
  lr_events r !!! Z.to_nat (lr_event_head r).

Definition PeekLogicalPtraceEvent (t : LogicalPtraceTable) (tracee : LogicalTaskKey)
    : Z * option LogicalPtraceEvent :=
  if negb (IsLogicalPtraceTableInitialized t) then (EINVAL, None)
  else match FindLogicalPtraceRelation t tracee with
  | None => (ESRCH, None)
  | Some i => let r := relations t !!! i in
    if lr_event_count r =? 0 then (EAGAIN, None) else (0, Some (head_event r))
  end.

(** An event with the parts the two setters write replaced. *)
Definition with_event (e : LogicalPtraceEvent) (flags guest_syscall_number : Z)
    (signal_info : list Z) (registers : Arm64Regs) : LogicalPtraceEvent :=
  Build_LogicalPtraceEvent (ev_sequence e) (ev_kind e) flags (ev_wait_status e) (ev_signal_number e)
    (ev_ptrace_event e) guest_syscall_number (ev_reserved e) (ev_event_message e) signal_info registers.

Definition with_head_event (r : LogicalPtraceRelation) (e : LogicalPtraceEvent) : LogicalPtraceRelation :=
  with_relation r (lr_state r) (lr_event_head r) (lr_event_count r) (lr_options r)
    (<[Z.to_nat (lr_event_head r) := e]> (lr_events r)).

Definition SetLogicalPtraceEventRegisters (t : LogicalPtraceTable) (tracee : LogicalTaskKey)
    (registers : Arm64Regs) (syscall_number_valid : bool) (syscall_number : Z) : Z * LogicalPtraceTable :=
  if negb (IsLogicalPtraceTableInitialized t) then (EINVAL, t)
  else match FindLogicalPtraceRelation t tracee with
  | None => (ESRCH, t)
  | Some i => let r := relations t !!! i in
    if (lr_event_count r =? 0) || (negb (lr_state r =? kStopped) && negb (lr_state r =? kExitZombie))
    then (EBUSY, t)
    else
      let event := head_event r in
      let flags := ev_flags event ||| kEventFlagRegistersValid in
      let event' :=
        if syscall_number_valid
        then with_event event (flags ||| kEventFlagSyscallNumberValid) syscall_number
               (ev_signal_info event) registers
        else with_event event (Z.land flags (not32 kEventFlagSyscallNumberValid)) (-1)
               (ev_signal_info event) registers in
      (0, update_relation t i (with_head_event r event'))
  end.

Definition SetLogicalPtraceEventSiginfo (t : LogicalPtraceTable) (tracee : LogicalTaskKey)
    (signal_info : list Z) : Z * LogicalPtraceTable :=
  if negb (IsLogicalPtraceTableInitialized t) then (EINVAL, t)
  else match FindLogicalPtraceRelation t tracee with
  | None => (ESRCH, t)
  | Some i => let r := relations t !!! i in
    if (lr_event_count r =? 0) || (negb (lr_state r =? kStopped) && negb (lr_state r =? kExitZombie))
    then (EBUSY, t)
    else
      let event := head_event r in
      (0, update_relation t i (with_head_event r
            (with_event event (ev_flags event ||| kEventFlagSiginfoValid) (ev_guest_syscall_number event)
               signal_info (ev_guest_registers event))))
  end.

Definition PopRelationEvent (r : LogicalPtraceRelation) : LogicalPtraceRelation :=
  let head := u32 (lr_event_head r + 1) mod kLogicalPtraceEventQueueCapacity in
  let count := u32 (lr_event_count r - 1) in
  with_relation r (lr_state r) (if count =? 0 then 0 else head) count (lr_options r)
    (<[Z.to_nat (lr_event_head r) := cleared_event]> (lr_events r)).

Definition ConsumeLogicalPtraceEvent (t : LogicalPtraceTable) (tracee : LogicalTaskKey) (preserve : bool)
    : Z * LogicalPtraceTable * option LogicalPtraceEvent :=
  if negb (IsLogicalPtraceTableInitialized t) then (EINVAL, t, None)
  else match FindLogicalPtraceRelation t tracee with
  | None => (ESRCH, t, None)
  | Some i => let r := relations t !!! i in
    if lr_event_count r =? 0 then (EAGAIN, t, None)
    else
      let event := head_event r in
      if preserve then (0, t, Some event)
      else
        let exit_event := EventIsExit event in
        if exit_event && negb (lr_event_count r =? 1) then (EPROTO, t, Some event)
        else
          let r' := PopRelationEvent r in
          let t' := update_relation t i r' in
          if exit_event then
            if negb (lr_event_count r' =? 0) then (EPROTO, t', Some event)
            else (0, EraseRelationAt t' (lr_slot r'), Some event)
          else (0, t', Some event)
  end.

(** ** Waits *)

Definition wait_request (waiter : LogicalTaskKey) (kind selector selector_id options nowait
    status_address info_address rusage_address token : Z) : LogicalWaitRequest :=
  {| rq_waiter := waiter; rq_kind := kind; rq_selector_kind := selector; rq_selector_id := selector_id;
     rq_options := options; rq_nohang := if has options kLogicalWaitNoHang then 1 else 0;
     rq_nowait := nowait; rq_reserved := 0; rq_status_address := status_address;
     rq_info_address := info_address; rq_rusage_address := rusage_address; rq_token := token |}.

Definition BuildLogicalWait4Request (waiter : LogicalTaskKey) (pid caller_process_group options
    status_address rusage_address token : Z) : Z * option LogicalWaitRequest :=
  if negb (TaskKeyValid waiter) || unknown_bits options kWait4OptionMask then (EINVAL, None)
  else
    let build selector selector_id :=
      (0, Some (wait_request waiter kWait4 selector selector_id options 0 status_address 0
                  rusage_address token)) in
    if 0 <? pid then build Selector_kTid pid
    else if pid =? 0 then
      if caller_process_group <=? 0 then (EINVAL, None)
      else build Selector_kProcessGroup caller_process_group
    else if negb (pid =? -1) then
      if pid =? INT32_MIN then (EINVAL, None) else build Selector_kProcessGroup (- pid)
    else build Selector_kAny 0.

Definition BuildLogicalWaitIdRequest (waiter : LogicalTaskKey) (id_type id caller_process_group options
    info_address rusage_address token : Z) : Z * option LogicalWaitRequest :=
  if negb (TaskKeyValid waiter) || unknown_bits options kWaitIdOptionMask ||
     negb (has options (kLogicalWaitStopped ||| kLogicalWaitExited ||| kLogicalWaitContinued))
  then (EINVAL, None)
  else
    let build selector selector_id :=
      (0, Some (wait_request waiter kWaitId selector selector_id options
                  (if has options kLogicalWaitNowait then 1 else 0) 0 info_address rusage_address token)) in
    if id_type =? IdType_kAll then build Selector_kAny 0
    else if id_type =? IdType_kPid then
      if (id =? 0) || (INT32_MAX <? id) then (EINVAL, None) else build Selector_kTid (s32 id)
    else if id_type =? IdType_kProcessGroup then
      if (INT32_MAX <? id) || ((id =? 0) && (caller_process_group <=? 0)) then (EINVAL, None)
      else build Selector_kProcessGroup (if id =? 0 then caller_process_group else s32 id)
    else if id_type =? IdType_kPidFd then (EOPNOTSUPP, None)
    else (EINVAL, None).

Definition BeginLogicalWait (t : LogicalPtraceTable) (request : LogicalWaitRequest)
    : Z * LogicalPtraceTable * Z :=
  if negb (IsLogicalPtraceTableInitialized t) || negb (WaitRequestValid request)
  then (EINVAL, t, kInvalidLogicalPtraceSlot)
  else if FindLogicalProcess t (LogicalProcessKeyForTask (rq_waiter request)) is None
  then (ESRCH, t, kInvalidLogicalPtraceSlot)
  else if FindLogicalWait t (rq_waiter request) is Some _ then (EBUSY, t, kInvalidLogicalPtraceSlot)
  else if wait_count t =? kLogicalPtraceWaitCapacity then (ENOSPC, t, kInvalidLogicalPtraceSlot)
  else match free_slot (wait_free_hint t) (waits t) with
  | None => (ENOSPC, t, kInvalidLogicalPtraceSlot)
  | Some candidate =>
    let '(generation, next) := AllocateSequence (next_wait_generation t) in
    let t' := set_waits t (u32 (wait_count t + 1)) (advance_hint candidate kLogicalPtraceWaitCapacity)
      (<[Z.to_nat candidate := Build_LogicalWaitRecord 1 candidate generation request]> (waits t)) in
    (0, bump (set_counters t' (mutation_generation t) (next_relation_generation t)
                (next_event_sequence t) next), candidate)
  end.

Definition EraseWaitAt (t : LogicalPtraceTable) (slot : Z) : LogicalPtraceTable :=
  bump (set_waits t (u32 (wait_count t - 1)) slot (<[Z.to_nat slot := ClearWaitRecord slot]> (waits t))).

Definition EndLogicalWait (t : LogicalPtraceTable) (waiter : LogicalTaskKey) : Z * LogicalPtraceTable :=
  if negb (IsLogicalPtraceTableInitialized t) || negb (TaskKeyValid waiter) then (EINVAL, t)
  else match FindLogicalWait t waiter with
  | None => (ESRCH, t)
  | Some i => (0, EraseWaitAt t (lw_slot (waits t !!! i)))
  end.

(** ** Selecting and consuming the event of a wait *)

Definition EventMatchesWaitKind (request : LogicalWaitRequest) (event : LogicalPtraceEvent) : bool :=
  if rq_kind request =? kWait4 then
    negb (ev_kind event =? kContinued) || has (rq_options request) kLogicalWaitContinued
  else if EventIsExit event then has (rq_options request) kLogicalWaitExited
  else if ev_kind event =? kContinued then has (rq_options request) kLogicalWaitContinued
  else has (rq_options request) kLogicalWaitStopped.

Definition WaitClassMatches (options wait_class : Z) : bool :=
  if has options kLogicalWaitAll then true
  else Bool.eqb (has options kLogicalWaitClone) (wait_class =? kClone).

Definition RelationOwnedByWaiter (relation : LogicalPtraceRelation) (request : LogicalWaitRequest) : bool :=
  if negb (tk_tgid (lr_tracer relation) =? tk_tgid (rq_waiter request)) ||
     negb (tk_process_generation (lr_tracer relation) =? tk_process_generation (rq_waiter request))
  then false
  else negb (has (rq_options request) kLogicalWaitNoThread) ||
       LogicalTaskKeysEqual (lr_tracer relation) (rq_waiter request).

Definition SelectorMatches (t : LogicalPtraceTable) (relation : LogicalPtraceRelation)
    (request : LogicalWaitRequest) : bool :=
  if rq_selector_kind request =? Selector_kAny then true
  else if rq_selector_kind request =? Selector_kTid then
    tk_tid (lr_tracee relation) =? rq_selector_id request
  else match FindLogicalProcess t (LogicalProcessKeyForTask (lr_tracee relation)) with
  | None => false
  | Some process => lp_process_group (processes t !!! process) =? rq_selector_id request
  end.

(** The loop state of SelectLogicalWaitEvent: whether a relation matched, the
    oldest sequence so far, and the match. *)
Definition select_one (t : LogicalPtraceTable) (request : LogicalWaitRequest) (slot : Z)
    (relation : LogicalPtraceRelation) (st : bool * Z * LogicalWaitMatch) : bool * Z * LogicalWaitMatch :=
  let '(matching_relation, oldest_sequence, m) := st in
  if (lr_occupied relation =? 0) || negb (RelationOwnedByWaiter relation request) ||
     negb (SelectorMatches t relation request) ||
     negb (WaitClassMatches (rq_options request) (lr_wait_class relation)) then st
  else if lr_event_count relation =? 0 then (true, oldest_sequence, m)
  else
    let event := head_event relation in
    if negb (EventMatchesWaitKind request event) || (oldest_sequence <=? ev_sequence event)
    then (true, oldest_sequence, m)
    else (true, ev_sequence event,
          {| wm_relation_slot := slot; wm_reserved := wm_reserved m;
             wm_relation_generation := lr_generation relation;
             wm_event_sequence := ev_sequence event |}).

Fixpoint select_loop (t : LogicalPtraceTable) (request : LogicalWaitRequest) (slot : Z)
    (arr : list LogicalPtraceRelation) (st : bool * Z * LogicalWaitMatch) : bool * Z * LogicalWaitMatch :=
  match arr with
  | [] => st
  | relation :: rest => select_loop t request (slot + 1) rest (select_one t request slot relation st)
  end.

(** The match is only written when the table is initialised. *)
Definition SelectLogicalWaitEvent (t : LogicalPtraceTable) (waiter : LogicalTaskKey)
    : Z * option LogicalWaitMatch :=
  if negb (IsLogicalPtraceTableInitialized t) then (EINVAL, None)
  else
    let cleared := Build_LogicalWaitMatch kInvalidLogicalPtraceSlot 0 0 0 in
    match FindLogicalWait t waiter with
    | None => (ESRCH, Some cleared)
    | Some wait =>
      let '(matching_relation, _, m) :=
        select_loop t (lw_request (waits t !!! wait)) 0 (relations t) (false, UINT64_MAX, cleared) in
      if negb (wm_relation_slot m =? kInvalidLogicalPtraceSlot) then (0, Some m)
      else (if matching_relation then EAGAIN else ECHILD, Some m)
    end.

Definition ConsumeLogicalWaitEvent (t : LogicalPtraceTable) (waiter : LogicalTaskKey)
    (m : LogicalWaitMatch) : Z * LogicalPtraceTable * option LogicalPtraceEvent :=
  if negb (IsLogicalPtraceTableInitialized t) ||
     (kLogicalPtraceRelationCapacity <=? wm_relation_slot m) ||
     (wm_relation_generation m =? 0) || (wm_event_sequence m =? 0) then (EINVAL, t, None)
  else match FindLogicalWait t waiter with
  | None => (ESRCH, t, None)
  | Some wait =>
    let wait := waits t !!! wait in
    let i := Z.to_nat (wm_relation_slot m) in
    let relation := relations t !!! i in
    if (lr_occupied relation =? 0) ||
       negb (lr_generation relation =? wm_relation_generation m) ||
       (lr_event_count relation =? 0) ||
       negb (ev_sequence (head_event relation) =? wm_event_sequence m) ||
       negb (RelationOwnedByWaiter relation (lw_request wait)) ||
       negb (SelectorMatches t relation (lw_request wait)) ||
       negb (WaitClassMatches (rq_options (lw_request wait)) (lr_wait_class relation)) ||
       negb (EventMatchesWaitKind (lw_request wait) (head_event relation))
    then (ESTALE, t, None)
    else
      let event := head_event relation in
      if negb (rq_nowait (lw_request wait) =? 0) then (0, EraseWaitAt t (lw_slot wait), Some event)
      else
        let exit_event := EventIsExit event in
        if exit_event && negb (lr_event_count relation =? 1) then (EPROTO, t, Some event)
        else
          let popped := set_relations t (relation_count t) (relation_free_hint t)
            (<[i := PopRelationEvent relation]> (relations t)) in
          let t' := if exit_event then EraseRelationAt popped (lr_slot relation) else bump popped in
          (0, EraseWaitAt t' (lw_slot wait), Some event)
  end.

(** ** RekeyLogicalPtraceTask *)

Definition rekey_tracee (r : LogicalPtraceRelation) (tracee : LogicalTaskKey) : LogicalPtraceRelation :=
  Build_LogicalPtraceRelation (lr_occupied r) (lr_slot r) (lr_generation r) tracee (lr_tracer r)
    (lr_attach_kind r) (lr_state r) (lr_wait_class r) (lr_event_head r) (lr_event_count r)
    (lr_reserved r) (lr_options r) (lr_events r).

(** The body of the second loop. *)
Definition rekey_tracer (old_identity new_identity : LogicalTaskKey) (r : LogicalPtraceRelation)
    : LogicalPtraceRelation :=
  if in_use r && LogicalTaskKeysEqual (lr_tracer r) old_identity then
    Build_LogicalPtraceRelation (lr_occupied r) (lr_slot r) (lr_generation r) (lr_tracee r) new_identity
      (lr_attach_kind r) (lr_state r) (lr_wait_class r) (lr_event_head r) (lr_event_count r)
      (lr_reserved r) (lr_options r) (lr_events r)
  else r.

Definition rekey_waiter (w : LogicalWaitRecord) (waiter : LogicalTaskKey) : LogicalWaitRecord :=
  let q := lw_request w in
  Build_LogicalWaitRecord (lw_occupied w) (lw_slot w) (lw_generation w)
    (Build_LogicalWaitRequest waiter (rq_kind q) (rq_selector_kind q) (rq_selector_id q) (rq_options q)
       (rq_nohang q) (rq_nowait q) (rq_reserved q) (rq_status_address q) (rq_info_address q)
       (rq_rusage_address q) (rq_token q)).

(** [first != nullptr && second != nullptr] *)
Definition both {A} (first second : option A) : bool :=
  match first, second with Some _, Some _ => true | _, _ => false end.

(** The record a pointer refers to replaced, nothing for a null pointer. *)
Definition alter_at {A} `{Inhabited A} (f : A -> A) (i : option nat) (arr : list A) : list A :=
  match i with None => arr | Some i => <[i := f (arr !!! i)]> arr end.

(** The first loop: EPERM when a task of the same thread group is traced, else
    whether [old_identity] traces anything. *)
Fixpoint rekey_scan (old_identity new_identity : LogicalTaskKey) (arr : list LogicalPtraceRelation)
    (referenced : bool) : option bool :=
  match arr with
  | [] => Some referenced
  | r :: rest =>
    if negb (in_use r) || negb (LogicalTaskKeysEqual (lr_tracer r) old_identity)
    then rekey_scan old_identity new_identity rest referenced
    else if tk_tgid (lr_tracee r) =? tk_tgid new_identity then None
    else rekey_scan old_identity new_identity rest true
  end.

Definition RekeyLogicalPtraceTask (t : LogicalPtraceTable) (old_identity new_identity : LogicalTaskKey)
    : Z * LogicalPtraceTable :=
  if negb (IsLogicalPtraceTableInitialized t) || negb (TaskKeyValid old_identity) ||
     negb (TaskKeyValid new_identity) then (EINVAL, t)
  else if LogicalTaskKeysEqual old_identity new_identity then (0, t)
  else if negb (tk_tgid old_identity =? tk_tgid new_identity) ||
          negb (tk_process_generation old_identity =? tk_process_generation new_identity) then (EXDEV, t)
  else if match FindLogicalProcess t (LogicalProcessKeyForTask old_identity),
                FindLogicalProcess t (LogicalProcessKeyForTask new_identity) with
          | Some _, Some _ => false | _, _ => true end then (ESRCH, t)
  else
    let old_fake := FindFakeTraceme t old_identity in
    let old_wait := FindLogicalWait t old_identity in
    let old_tracee := FindLogicalPtraceRelation t old_identity in
    if both old_fake (FindFakeTraceme t new_identity) then (EEXIST, t)
    else if both old_wait (FindLogicalWait t new_identity) then (EEXIST, t)
    else if both old_tracee (FindLogicalPtraceRelation t new_identity) then (EEXIST, t)
    else if match old_tracee with
       | Some i => tk_tgid (lr_tracer (relations t !!! i)) =? tk_tgid new_identity
       | None => false
       end then (EPERM, t)
    else
      match rekey_scan old_identity new_identity (relations t)
              (bool_decide (is_Some old_fake) || bool_decide (is_Some old_wait) ||
               bool_decide (is_Some old_tracee)) with
      | None => (EPERM, t)
      | Some false => (ESRCH, t)
      | Some true =>
        let fakes := alter_at (fun r => Build_LogicalFakeTracemeRecord (lf_occupied r) (lf_slot r)
          new_identity) old_fake (fake_traceme t) in
        let waits' := alter_at (fun w => rekey_waiter w new_identity) old_wait (waits t) in
        let rels := alter_at (fun r => rekey_tracee r new_identity) old_tracee (relations t) in
        let t1 := set_fake_traceme t (fake_traceme_count t) (fake_traceme_free_hint t) fakes in
        let t2 := set_waits t1 (wait_count t) (wait_free_hint t) waits' in
        let t3 := set_relations t2 (relation_count t) (relation_free_hint t)
          (rekey_tracer old_identity new_identity <$> rels) in
        (0, bump t3)
      end.

(** ** Validation *)

Definition RelationInitialStateValid (r : LogicalPtraceRelation) : bool :=
  if lr_state r =? kAttachPending then lr_attach_kind r =? kAttach
  else if lr_state r =? kSeizeRunning then lr_attach_kind r =? kSeize
  else if lr_state r =? kListening then lr_attach_kind r =? kSeize
  else true.

Definition EventValid (event : LogicalPtraceEvent) : bool :=
  if (ev_sequence event =? 0) || negb (EventKindValid (ev_kind event)) ||
     unknown_bits (ev_flags event) kLogicalPtraceEventFlagMask ||
     (ev_signal_number event <? 0) || (NSIG <=? ev_signal_number event) ||
     negb (ev_reserved event =? 0) then false
  else if negb (has (ev_flags event) kEventFlagSyscallNumberValid) &&
          negb (ev_guest_syscall_number event =? -1) then false
  else true.

Definition vacant_process (p : LogicalProcessRecord) : bool :=
  (pk_tgid (lp_key p) =? 0) && (pk_generation (lp_key p) =? 0).

Definition process_entry (t : LogicalPtraceTable) (p : LogicalProcessRecord) : bool :=
  ProcessKeyValid (lp_key p) && (0 <? lp_process_group p) && DumpableValid (lp_logical_dumpable p) &&
  PidIdentityValid (lp_logical_ptracer p) && (lp_reserved p =? 0) &&
  negb (unknown_bits (lp_flags p) kLogicalProcessFlagParentKnown) &&
  (if parent_known p then
     ProcessKeyValid (lp_parent p) && negb (LogicalProcessKeysEqual (lp_key p) (lp_parent p)) &&
     match FindLogicalProcess t (lp_parent p) with Some _ => true | None => false end &&
     negb (ParentChainContains t (lp_parent p) (lp_key p))
   else (pk_tgid (lp_parent p) =? 0) && (pk_generation (lp_parent p) =? 0)).

Definition vacant_relation (r : LogicalPtraceRelation) : bool :=
  (lr_generation r =? 0) && (lr_event_count r =? 0).

(** The loop over the pending events: [n] events from [index] on. *)
Fixpoint validate_events (n : nat) (r : LogicalPtraceRelation) (index : Z) (exit_seen : bool) : option bool :=
  match n with
  | O => Some exit_seen
  | S n =>
    let event := lr_events r !!! Z.to_nat (queue_slot (lr_event_head r) index) in
    if negb (EventValid event) || exit_seen then None
    else validate_events n r (index + 1) (EventIsExit event)
  end.

(** The checks on the state and the queue of a relation. *)
Definition relation_queue_valid (r : LogicalPtraceRelation) : bool :=
  (lr_event_head r <? kLogicalPtraceEventQueueCapacity) &&
  (lr_event_count r <=? kLogicalPtraceEventQueueCapacity) &&
  negb (((lr_state r =? kAttachPending) || (lr_state r =? kSeizeRunning) || (lr_state r =? kRunningCont) ||
         (lr_state r =? kRunningSyscall) || (lr_state r =? kRunningSingleStep) ||
         (lr_state r =? kListening)) && negb (lr_event_count r =? 0)) &&
  negb ((lr_state r =? kExitZombie) && (lr_event_count r =? 0)) &&
  match validate_events (Z.to_nat (lr_event_count r)) r 0 false with
  | None => false
  | Some exit_seen => Bool.eqb exit_seen (lr_state r =? kExitZombie)
  end.

Definition relation_entry (t : LogicalPtraceTable) (r : LogicalPtraceRelation) : bool :=
  negb (lr_generation r =? 0) && TaskKeyValid (lr_tracee r) && TaskKeyValid (lr_tracer r) &&
  negb (tk_tgid (lr_tracee r) =? tk_tgid (lr_tracer r)) && AttachKindValid (lr_attach_kind r) &&
  RelationStateValid (lr_state r) && WaitClassValid (lr_wait_class r) && RelationInitialStateValid r &&
  negb (PtraceChainContains t (lr_tracer r) (lr_tracee r)) &&
  negb (unknown_bits (lr_options r) kLogicalPtraceKnownOptionMask) && (lr_reserved r =? 0) &&
  match FindLogicalProcess t (LogicalProcessKeyForTask (lr_tracee r)),
        FindLogicalProcess t (LogicalProcessKeyForTask (lr_tracer r)) with
  | Some _, Some _ => true
  | _, _ => false
  end && relation_queue_valid r.

Definition vacant_fake (f : LogicalFakeTracemeRecord) : bool :=
  (tk_tid (lf_task f) =? 0) && (tk_generation (lf_task f) =? 0).
Definition fake_entry (t : LogicalPtraceTable) (f : LogicalFakeTracemeRecord) : bool :=
  TaskKeyValid (lf_task f) &&
  match FindLogicalProcess t (LogicalProcessKeyForTask (lf_task f)) with Some _ => true | None => false end.

Definition vacant_wait (w : LogicalWaitRecord) : bool :=
  (lw_generation w =? 0) && (tk_tid (rq_waiter (lw_request w)) =? 0).
Definition wait_entry (t : LogicalPtraceTable) (w : LogicalWaitRecord) : bool :=
  negb (lw_generation w =? 0) && WaitRequestValid (lw_request w) &&
  match FindLogicalProcess t (LogicalProcessKeyForTask (rq_waiter (lw_request w))) with
  | Some _ => true | None => false
  end.

Definition ValidateLogicalPtraceTable (t : LogicalPtraceTable) : bool :=
  IsLogicalPtraceTableInitialized t &&
  match validate_slots vacant_process (process_entry t) 0 0 (processes t),
        validate_slots vacant_relation (relation_entry t) 0 0 (relations t),
        validate_slots vacant_fake (fake_entry t) 0 0 (fake_traceme t),
        validate_slots vacant_wait (wait_entry t) 0 0 (waits t) with
  | Some process_count', Some relation_count', Some fake_count, Some wait_count' =>
    (process_count' =? process_count t) && (relation_count' =? relation_count t) &&
    (fake_count =? fake_traceme_count t) && (wait_count' =? wait_count t)
  | _, _, _, _ => false
  end.
