(* ===== verification/LogicalPtraceInv.v ===== *)
(** * The invariant of the logical ptrace table

    What ValidateLogicalPtraceTable checks with loops over slots and bounded
    walks, stated on the four finite maps the arrays stand for: keys are unique
    and valid, every reference is to a live process, no process is its own
    ancestor and no task traces itself through a chain of tracers. *)

From S2P Require Import Prelude SlotArray Chain LogicalPtrace LogicalPtraceOps.
From stdpp Require Import list gmap.
#[local] Open Scope Z_scope.

#[export] Instance LogicalProcessKey_countable : Countable LogicalProcessKey.
Proof.
  apply (inj_countable' (fun k => (pk_tgid k, pk_reserved k, pk_generation k))
    (fun '(a, b, c) => Build_LogicalProcessKey a b c)). by intros [].
Defined.
#[export] Instance LogicalTaskKey_countable : Countable LogicalTaskKey.
Proof.
  apply (inj_countable' (fun k => (tk_tid k, tk_tgid k, tk_generation k, tk_process_generation k))
    (fun '(a, b, c, d) => Build_LogicalTaskKey a b c d)). by intros [].
Defined.

(** ** The abstract table *)

Abbreviation process_map t := (to_map (processes t)).
Abbreviation relation_map t := (to_map (relations t)).
Abbreviation fake_map t := (to_map (fake_traceme t)).
Abbreviation wait_map t := (to_map (waits t)).

Definition parent_of (m : gmap LogicalProcessKey LogicalProcessRecord) (k : LogicalProcessKey)
    : option LogicalProcessKey :=
  match m !! k with
  | Some p => if parent_known p then Some (lp_parent p) else None
  | None => None
  end.
Definition tracer_of (m : gmap LogicalTaskKey LogicalPtraceRelation) (k : LogicalTaskKey)
    : option LogicalTaskKey := lr_tracer <$> m !! k.

(** The part of [process_entry] that does not look at the table. *)
Definition process_static (p : LogicalProcessRecord) : bool :=
  ProcessKeyValid (lp_key p) && (0 <? lp_process_group p) && DumpableValid (lp_logical_dumpable p) &&
  PidIdentityValid (lp_logical_ptracer p) && (lp_reserved p =? 0) &&
  negb (unknown_bits (lp_flags p) kLogicalProcessFlagParentKnown).

Definition parent_ok (live : LogicalProcessKey -> Prop) (p : LogicalProcessRecord) : Prop :=
  if parent_known p
  then ProcessKeyValid (lp_parent p) = true /\ lp_key p <> lp_parent p /\ live (lp_parent p)
  else pk_tgid (lp_parent p) = 0 /\ pk_generation (lp_parent p) = 0.

Definition process_ok (live : LogicalProcessKey -> Prop) (p : LogicalProcessRecord) : Prop :=
  process_static p = true /\ parent_ok live p.

Definition relation_static (r : LogicalPtraceRelation) : bool :=
  negb (lr_generation r =? 0) && TaskKeyValid (lr_tracee r) && TaskKeyValid (lr_tracer r) &&
  negb (tk_tgid (lr_tracee r) =? tk_tgid (lr_tracer r)) && AttachKindValid (lr_attach_kind r) &&
  RelationStateValid (lr_state r) && WaitClassValid (lr_wait_class r) && RelationInitialStateValid r &&
  negb (unknown_bits (lr_options r) kLogicalPtraceKnownOptionMask) && (lr_reserved r =? 0) &&
  relation_queue_valid r.

Definition relation_ok (live : LogicalProcessKey -> Prop) (r : LogicalPtraceRelation) : Prop :=
  relation_static r = true /\ live (LogicalProcessKeyForTask (lr_tracee r)) /\
  live (LogicalProcessKeyForTask (lr_tracer r)).

Definition fake_ok (live : LogicalProcessKey -> Prop) (f : LogicalFakeTracemeRecord) : Prop :=
  TaskKeyValid (lf_task f) = true /\ live (LogicalProcessKeyForTask (lf_task f)).

Definition wait_ok (live : LogicalProcessKey -> Prop) (w : LogicalWaitRecord) : Prop :=
  lw_generation w <> 0 /\ WaitRequestValid (lw_request w) = true /\
  live (LogicalProcessKeyForTask (rq_waiter (lw_request w))).

(** What the C++ types give: array lengths and unsigned words. *)
Definition typed_relation (r : LogicalPtraceRelation) : Prop :=
  length (lr_events r) = 4%nat /\ 0 <= lr_event_head r /\ 0 <= lr_event_count r.

Record typed_table (t : LogicalPtraceTable) : Prop := {
  ty_processes : length (processes t) = 512%nat;
  ty_relations : length (relations t) = 512%nat;
  ty_fakes : length (fake_traceme t) = 512%nat;
  ty_waits : length (waits t) = 512%nat;
  ty_hints : 0 <= process_free_hint t /\ 0 <= relation_free_hint t /\
             0 <= fake_traceme_free_hint t /\ 0 <= wait_free_hint t;
  ty_relation : Forall typed_relation (relations t) }.

Definition live_in (m : gmap LogicalProcessKey LogicalProcessRecord) (k : LogicalProcessKey) : Prop :=
  is_Some (m !! k).

Record table_ok (t : LogicalPtraceTable) : Prop := {
  ok_typed : typed_table t;
  ok_init : IsLogicalPtraceTableInitialized t = true;
  ok_processes : slots_ok 512 (fun p => vacant_process p = true) (process_ok (live_in (process_map t)))
    (processes t) (process_count t);
  ok_parents : forall k, ends (parent_of (process_map t)) k;
  ok_relations : slots_ok 512 (fun r => vacant_relation r = true) (relation_ok (live_in (process_map t)))
    (relations t) (relation_count t);
  ok_tracers : forall k, ends (tracer_of (relation_map t)) k;
  ok_fakes : slots_ok 512 (fun f => vacant_fake f = true) (fake_ok (live_in (process_map t)))
    (fake_traceme t) (fake_traceme_count t);
  ok_waits : slots_ok 512 (fun w => vacant_wait w = true) (wait_ok (live_in (process_map t)))
    (waits t) (wait_count t) }.

(** ** Keys of entries are valid *)

Lemma process_ok_key live p : process_ok live p -> @sr_key_ok _ _ process_slots (@sr_key _ _ process_slots p) = true.
Proof. intros [Hs _]. unfold process_static in Hs. bool_hyps. done. Qed.
Lemma relation_ok_key live r : relation_ok live r -> @sr_key_ok _ _ relation_slots (@sr_key _ _ relation_slots r) = true.
Proof. intros [Hs _]. unfold relation_static in Hs. bool_hyps. done. Qed.
Lemma fake_ok_key live f : fake_ok live f -> @sr_key_ok _ _ fake_slots (@sr_key _ _ fake_slots f) = true.
Proof. by intros [? _]. Qed.
Lemma wait_ok_key live w : wait_ok live w -> @sr_key_ok _ _ wait_slots (@sr_key _ _ wait_slots w) = true.
Proof.
  intros (_ & Hw & _). unfold WaitRequestValid in Hw. simpl.
  destruct (TaskKeyValid (rq_waiter (lw_request w))); [done|]. done.
Qed.

Lemma process_static_split t p : process_entry t p = true <->
  process_static p = true /\
  (if parent_known p then
     ProcessKeyValid (lp_parent p) && negb (LogicalProcessKeysEqual (lp_key p) (lp_parent p)) &&
     match FindLogicalProcess t (lp_parent p) with Some _ => true | None => false end &&
     negb (ParentChainContains t (lp_parent p) (lp_key p))
   else (pk_tgid (lp_parent p) =? 0) && (pk_generation (lp_parent p) =? 0)) = true.
Proof. unfold process_entry, process_static. by rewrite andb_true_iff. Qed.

Lemma both_found {A B} (o1 : option A) (o2 : option B) :
  match o1, o2 with Some _, Some _ => true | _, _ => false end = true <-> is_Some o1 /\ is_Some o2.
Proof. destruct o1, o2; split; try done; by intros [[? ?] [? ?]]. Qed.

Lemma relation_static_split t r : relation_entry t r = true <->
  relation_static r = true /\ PtraceChainContains t (lr_tracer r) (lr_tracee r) = false /\
  is_Some (FindLogicalProcess t (LogicalProcessKeyForTask (lr_tracee r))) /\
  is_Some (FindLogicalProcess t (LogicalProcessKeyForTask (lr_tracer r))).
Proof.
  unfold relation_entry, relation_static. rewrite <- both_found, !andb_true_iff, !negb_true_iff. tauto.
Qed.

(** ** Lookup through the maps *)

Section Lookup.
Context (t : LogicalPtraceTable).
Hypothesis Hinit : IsLogicalPtraceTableInitialized t = true.

Lemma find_process_spec vacant live count k :
  slots_ok 512 vacant (process_ok live) (processes t) count ->
  match FindLogicalProcess t k with
  | Some i => exists p, entry_at (processes t) i p /\ lp_key p = k /\ process_map t !! k = Some p /\
      process_ok live p /\ ProcessKeyValid k = true
  | None => process_map t !! k = None
  end.
Proof.
  intros Hs. pose proof (find_map_spec (process_ok_key live) _ _ k Hs) as Hf. simpl in Hf.
  unfold FindLogicalProcess. rewrite Hinit. simpl. by destruct (ProcessKeyValid k).
Qed.

Lemma find_relation_spec vacant live count k :
  slots_ok 512 vacant (relation_ok live) (relations t) count ->
  match FindLogicalPtraceRelation t k with
  | Some i => exists r, entry_at (relations t) i r /\ lr_tracee r = k /\ relation_map t !! k = Some r /\
      relation_ok live r /\ TaskKeyValid k = true
  | None => relation_map t !! k = None
  end.
Proof.
  intros Hs. pose proof (find_map_spec (relation_ok_key live) _ _ k Hs) as Hf. simpl in Hf.
  unfold FindLogicalPtraceRelation. rewrite Hinit. simpl. by destruct (TaskKeyValid k).
Qed.

Lemma find_fake_spec vacant live count k :
  slots_ok 512 vacant (fake_ok live) (fake_traceme t) count ->
  match FindFakeTraceme t k with
  | Some i => exists f, entry_at (fake_traceme t) i f /\ lf_task f = k /\ fake_map t !! k = Some f /\
      fake_ok live f /\ TaskKeyValid k = true
  | None => fake_map t !! k = None
  end.
Proof.
  intros Hs. pose proof (find_map_spec (fake_ok_key live) _ _ k Hs) as Hf. simpl in Hf.
  unfold FindFakeTraceme. rewrite Hinit. simpl. by destruct (TaskKeyValid k).
Qed.

Lemma find_wait_spec vacant live count k :
  slots_ok 512 vacant (wait_ok live) (waits t) count ->
  match FindLogicalWait t k with
  | Some i => exists w, entry_at (waits t) i w /\ rq_waiter (lw_request w) = k /\ wait_map t !! k = Some w /\
      wait_ok live w /\ TaskKeyValid k = true
  | None => wait_map t !! k = None
  end.
Proof.
  intros Hs. pose proof (find_map_spec (wait_ok_key live) _ _ k Hs) as Hf. simpl in Hf.
  unfold FindLogicalWait. rewrite Hinit. simpl. by destruct (TaskKeyValid k).
Qed.

(** ** The bounded walks on the maps *)

Lemma parent_chain_spec vacant live count depth current expected :
  slots_ok 512 vacant (process_ok live) (processes t) count ->
  ProcessKeyValid current = true -> ProcessKeyValid expected = true ->
  parent_chain depth t current expected = chain_contains (parent_of (process_map t)) depth current expected.
Proof.
  intros Hs Hc He. revert current Hc. induction depth as [|depth IH]; intros current Hc; simpl; [done|].
  pose proof (LogicalProcessKeysEqual_spec current expected Hc He) as Heq.
  destruct (decide (current = expected)) as [E|E].
  { by rewrite (proj2 Heq E). }
  destruct (LogicalProcessKeysEqual current expected); [by destruct E; apply Heq|].
  pose proof (find_process_spec vacant live count current Hs) as Hf. unfold parent_of.
  destruct (FindLogicalProcess t current) as [i|]; [|by rewrite Hf].
  destruct Hf as (p & [Hi _] & _ & Hm & [_ Hp] & _). rewrite Hm, (list_lookup_total_correct _ _ _ Hi).
  unfold parent_ok in Hp. destruct (parent_known p); simpl; [|done]. apply IH, Hp.
Qed.

Lemma ptrace_chain_spec vacant live count depth current expected :
  slots_ok 512 vacant (relation_ok live) (relations t) count ->
  ptrace_chain depth t current expected = chain_contains (tracer_of (relation_map t)) depth current expected.
Proof.
  intros Hs. revert current. induction depth as [|depth IH]; intros current; simpl; [done|].
  pose proof (LogicalTaskKeysEqual_spec current expected) as Heq.
  destruct (decide (current = expected)) as [E|E].
  { by rewrite (proj2 Heq E). }
  destruct (LogicalTaskKeysEqual current expected); [by destruct E; apply Heq|].
  pose proof (find_relation_spec vacant live count current Hs) as Hf. unfold tracer_of.
  destruct (FindLogicalPtraceRelation t current) as [i|]; [|by rewrite Hf].
  destruct Hf as (r & [Hi _] & _ & Hm & _). rewrite Hm, (list_lookup_total_correct _ _ _ Hi). apply IH.
Qed.
End Lookup.

(** A relation between the keys of an array whose walks all end passes the
    bounded check: the capacity is enough. *)
Lemma walk_complete {A K} `{SlotRecord A K, !Inhabited A, !EqDecision K, !Countable K}
    cap vacant entry (arr : list A) count (next : K -> option K) k k' :
  slots_ok cap vacant entry arr count ->
  (forall x y, next x = Some y -> is_Some (to_map arr !! x)) ->
  (forall x, ends next x) -> next k = Some k' -> chain_contains next cap k' k = false.
Proof.
  intros Hs Hdom Hends Hk.
  assert (forall x y, next x = Some y -> x ∈ (sr_key <$> arr)) as Hin.
  { intros x y [r Hr]%Hdom. apply (to_map_lookup _ _ _ _ Hs) in Hr as (i & [Hi _] & <-).
    apply list_elem_of_fmap. exists r. split; [done|]. by eapply list_elem_of_lookup_2. }
  apply (chain_complete next k' k (Hends k') cap (sr_key <$> arr)).
  - intros x y _. apply Hin.
  - by eapply Hin.
  - rewrite length_fmap. rewrite (so_length _ _ _ _ _ Hs). lia.
  - by apply ends_no_return.
Qed.

Section Validate.
Context (t : LogicalPtraceTable).
Hypothesis Hty : typed_table t.
Hypothesis Hinit : IsLogicalPtraceTableInitialized t = true.
Abbreviation vacantP := (fun p => vacant_process p = true).
Abbreviation vacantR := (fun r => vacant_relation r = true).
Abbreviation m := (process_map t).

Lemma process_entry_key p : process_entry t p = true -> @sr_key_ok _ _ process_slots (sr_key p) = true.
Proof. intros [Hs _]%process_static_split. unfold process_static in Hs. bool_hyps. done. Qed.
Lemma relation_entry_key r : relation_entry t r = true -> @sr_key_ok _ _ relation_slots (sr_key r) = true.
Proof. intros [Hs _]%relation_static_split. unfold relation_static in Hs. bool_hyps. done. Qed.

Lemma live_found vacant live count k : slots_ok 512 vacant (process_ok live) (processes t) count ->
  is_Some (FindLogicalProcess t k) <-> live_in m k.
Proof.
  intros Hs. pose proof (find_process_spec t Hinit _ _ _ k Hs) as Hf. unfold live_in.
  destruct (FindLogicalProcess t k); [destruct Hf as (p & _ & _ & -> & _)|rewrite Hf]; split; try done;
    by intros [??].
Qed.

(** An entry that passes [process_entry] is well formed on its own. *)
Lemma process_entry_weaken p : process_entry t p = true -> process_ok (fun _ => True) p.
Proof.
  intros [Hs Hp]%process_static_split. split; [done|]. unfold parent_ok.
  destruct (parent_known p); [|bool_hyps; lia].
  apply andb_true_iff in Hp as [Hp _]. apply andb_true_iff in Hp as [Hp _].
  apply andb_true_iff in Hp as [Hv He]. split; [done|]. split; [|done]. intros E.
  rewrite E in He. apply negb_true_iff in He.
  rewrite (proj2 (LogicalProcessKeysEqual_spec _ _ Hv Hv) eq_refl) in He. done.
Qed.

Lemma process_entries_ok count :
  slots_ok 512 vacantP (fun p => process_entry t p = true) (processes t) count <->
  slots_ok 512 vacantP (process_ok (live_in m)) (processes t) count /\ forall k, ends (parent_of m) k.
Proof.
  split.
  - intros Hs.
    assert (slots_ok 512 vacantP (process_ok (fun _ => True)) (processes t) count) as Hw.
    { revert Hs. apply slots_ok_mono. intros i p _. apply process_entry_weaken. }
    assert (forall i p, entry_at (processes t) i p -> process_entry t p = true -> parent_known p = true ->
      ProcessKeyValid (lp_parent p) = true /\ live_in m (lp_parent p) /\
      chain_contains (parent_of m) 512 (lp_parent p) (lp_key p) = false) as Hpar.
    { intros i p _ Hp Hk. pose proof (process_entry_key p Hp) as Hkey. simpl in Hkey.
      apply process_static_split in Hp as [_ Hp]. rewrite Hk in Hp.
      apply andb_true_iff in Hp as [Hp Hc]. apply andb_true_iff in Hp as [Hp Hf].
      apply andb_true_iff in Hp as [Hv _]. split; [done|]. split.
      - apply (live_found _ _ _ _ Hw). by destruct (FindLogicalProcess t (lp_parent p)).
      - apply negb_true_iff in Hc. unfold ParentChainContains in Hc.
        by rewrite (parent_chain_spec t Hinit _ _ _ _ _ _ Hw Hv Hkey) in Hc. }
    split.
    + revert Hs. apply slots_ok_mono. intros i p Hi Hp. destruct (process_entry_weaken p Hp) as [Hst Hpk].
      split; [done|]. unfold parent_ok in *. destruct (parent_known p) eqn:Hk; [|done].
      destruct Hpk as (? & ? & _). destruct (Hpar i p Hi Hp Hk) as (_ & ? & _). done.
    + intros k. destruct (parent_of m k) as [q|] eqn:Hn; [|by apply ends_stop].
      apply (ends_link _ k q); [done|]. unfold parent_of in Hn. destruct (m !! k) as [p|] eqn:Hm; [|done].
      destruct (parent_known p) eqn:Hk; [|done]. injection Hn as <-.
      apply (to_map_lookup _ _ _ _ Hs) in Hm as (i & Hi & _).
      destruct (entry_at_ok _ _ _ _ Hs Hi) as (Hp & _).
      destruct (Hpar i p Hi Hp Hk) as (_ & _ & Hc). by apply chain_false in Hc as [? _].
  - intros [Hs He]. generalize Hs. apply slots_ok_mono. intros i p Hi [Hst Hp]. apply process_static_split.
    split; [done|]. unfold parent_ok in Hp. destruct (parent_known p) eqn:Hk; [|lia].
    destruct Hp as (Hv & Hne & Hl). rewrite Hv. simpl.
    assert (ProcessKeyValid (lp_key p) = true) as Hkey by (by apply (process_ok_key (fun _ => True)); split; [|unfold parent_ok; rewrite Hk]).
    destruct (LogicalProcessKeysEqual (lp_key p) (lp_parent p)) eqn:E.
    { apply LogicalProcessKeysEqual_spec in E; done. }
    apply (live_found _ _ _ _ Hs) in Hl as [j ->]. simpl. apply negb_true_iff.
    unfold ParentChainContains. rewrite (parent_chain_spec t Hinit _ _ _ _ _ _ Hs Hv Hkey).
    apply (walk_complete 512 _ _ _ _ _ _ _ Hs); [|done|].
    + intros x y. unfold parent_of. destruct (m !! x); [by eexists|done].
    + unfold parent_of. assert (m !! lp_key p = Some p) as ->; [|by rewrite Hk].
      apply (to_map_lookup _ _ _ _ Hs). by exists i.
Qed.

Lemma relation_entries_ok vacant live count count' :
  slots_ok 512 vacant (process_ok live) (processes t) count' ->
  slots_ok 512 vacantR (fun r => relation_entry t r = true) (relations t) count <->
  slots_ok 512 vacantR (relation_ok (live_in m)) (relations t) count /\
  forall k, ends (tracer_of (relation_map t)) k.
Proof.
  intros Hp. split.
  - intros Hs.
    assert (slots_ok 512 vacantR (relation_ok (live_in m)) (relations t) count) as Hw.
    { revert Hs. apply slots_ok_mono. intros i r _ (? & _ & ? & ?)%relation_static_split.
      split; [done|]. split; by apply (live_found _ _ _ _ Hp). }
    split; [done|]. intros k. destruct (tracer_of (relation_map t) k) as [q|] eqn:Hn; [|by apply ends_stop].
    apply (ends_link _ k q); [done|]. unfold tracer_of in Hn.
    apply fmap_Some in Hn as (r & Hm & ->). apply (to_map_lookup _ _ _ _ Hs) in Hm as (i & Hi & _).
    destruct (entry_at_ok _ _ _ _ Hs Hi) as (Hr & _). apply relation_static_split in Hr as (_ & Hc & _).
    unfold PtraceChainContains in Hc. rewrite (ptrace_chain_spec t Hinit _ _ _ _ _ _ Hw) in Hc.
    by apply chain_false in Hc as [? _].
  - intros [Hs He]. generalize Hs. apply slots_ok_mono. intros i r Hi (Hst & Hl1 & Hl2).
    apply relation_static_split. split; [done|]. split; [|split; by apply (live_found _ _ _ _ Hp)].
    unfold PtraceChainContains. rewrite (ptrace_chain_spec t Hinit _ _ _ _ _ _ Hs).
    apply (walk_complete 512 _ _ _ _ _ _ _ Hs); [|done|].
    + intros x y. unfold tracer_of. intros (r' & -> & _)%fmap_Some. by eexists.
    + unfold tracer_of. assert (relation_map t !! lr_tracee r = Some r) as ->; [|done].
      apply (to_map_lookup _ _ _ _ Hs). by exists i.
Qed.
End Validate.

Lemma live_found_b t vacant live count k : IsLogicalPtraceTableInitialized t = true ->
  slots_ok 512 vacant (process_ok live) (processes t) count ->
  match FindLogicalProcess t k with Some _ => true | None => false end = true <->
  live_in (process_map t) k.
Proof.
  intros Hi Hs. rewrite <- (live_found t Hi _ _ _ k Hs).
  destruct (FindLogicalProcess t k); split; done.
Qed.

Lemma fake_entries_ok t vacant live count count' : IsLogicalPtraceTableInitialized t = true ->
  slots_ok 512 vacant (process_ok live) (processes t) count' ->
  slots_ok 512 (fun f => vacant_fake f = true) (fun f => fake_entry t f = true) (fake_traceme t) count <->
  slots_ok 512 (fun f => vacant_fake f = true) (fake_ok (live_in (process_map t))) (fake_traceme t) count.
Proof.
  intros Hi Hp. split; apply slots_ok_mono; intros i f _;
    unfold fake_entry, fake_ok; rewrite andb_true_iff, (live_found_b _ _ _ _ _ Hi Hp); done.
Qed.

Lemma wait_entries_ok t vacant live count count' : IsLogicalPtraceTableInitialized t = true ->
  slots_ok 512 vacant (process_ok live) (processes t) count' ->
  slots_ok 512 (fun w => vacant_wait w = true) (fun w => wait_entry t w = true) (waits t) count <->
  slots_ok 512 (fun w => vacant_wait w = true) (wait_ok (live_in (process_map t))) (waits t) count.
Proof.
  intros Hi Hp. split; apply slots_ok_mono; intros i w _; unfold wait_entry, wait_ok;
    rewrite !andb_true_iff, (live_found_b _ _ _ _ _ Hi Hp), negb_true_iff, Z.eqb_neq; tauto.
Qed.

(** The loops of ValidateLogicalPtraceTable decide the invariant. *)
Lemma Validate_table_ok t : typed_table t -> ValidateLogicalPtraceTable t = true <-> table_ok t.
Proof.
  intros Hty. pose proof Hty as []. unfold ValidateLogicalPtraceTable. rewrite andb_true_iff.
  destruct (IsLogicalPtraceTableInitialized t) eqn:Hi; [|split; [by intros [? _]|intros []; congruence]].
  assert (forall c, validate_slots vacant_process (process_entry t) 0 0 (processes t) = Some c <->
    slots_ok 512 (fun p => vacant_process p = true) (fun p => process_entry t p = true) (processes t) c) as HP.
  { intros c. apply validate_slots_ok; [apply process_entry_key|done|done|done]. }
  assert (forall c, validate_slots vacant_relation (relation_entry t) 0 0 (relations t) = Some c <->
    slots_ok 512 (fun p => vacant_relation p = true) (fun p => relation_entry t p = true) (relations t) c) as HR.
  { intros c. apply validate_slots_ok; [apply relation_entry_key|done|done|done]. }
  assert (forall c, validate_slots vacant_fake (fake_entry t) 0 0 (fake_traceme t) = Some c <->
    slots_ok 512 (fun p => vacant_fake p = true) (fun p => fake_entry t p = true) (fake_traceme t) c) as HF.
  { intros c. apply validate_slots_ok; [|done|done|done]. intros f Hf. unfold fake_entry in Hf. by bool_hyps. }
  assert (forall c, validate_slots vacant_wait (wait_entry t) 0 0 (waits t) = Some c <->
    slots_ok 512 (fun p => vacant_wait p = true) (fun p => wait_entry t p = true) (waits t) c) as HW.
  { intros c. apply validate_slots_ok; [|done|done|done]. intros w Hw. unfold wait_entry in Hw.
    bool_hyps. eapply (wait_ok_key (fun _ => True)). split; [|by split]. lia. }
  split.
  - intros [_ Hv]. destruct (validate_slots vacant_process _ _ _ _) as [c1|]; [|done].
    destruct (validate_slots vacant_relation _ _ _ _) as [c2|]; [|done].
    destruct (validate_slots vacant_fake _ _ _ _) as [c3|]; [|done].
    destruct (validate_slots vacant_wait _ _ _ _) as [c4|]; [|done].
    apply andb_true_iff in Hv as [Hv E4%Z.eqb_eq]. apply andb_true_iff in Hv as [Hv E3%Z.eqb_eq].
    apply andb_true_iff in Hv as [E1%Z.eqb_eq E2%Z.eqb_eq]. subst.
    pose proof (proj1 (HP _) eq_refl) as HP'. apply (process_entries_ok t Hi) in HP' as [HP' Hpar].
    pose proof (proj1 (HR _) eq_refl) as HR'. apply (relation_entries_ok t Hi _ _ _ _ HP') in HR' as [HR' Htr].
    split; try done.
    + by apply (fake_entries_ok t _ _ _ _ Hi HP'), HF.
    + by apply (wait_entries_ok t _ _ _ _ Hi HP'), HW.
  - intros [_ _ HP' Hpar HR' Htr HF' HW']. split; [done|].
    rewrite (proj2 (HP _) (proj2 (process_entries_ok t Hi _) (conj HP' Hpar))).
    rewrite (proj2 (HR _) (proj2 (relation_entries_ok t Hi _ _ _ _ HP') (conj HR' Htr))).
    rewrite (proj2 (HF _) (proj2 (fake_entries_ok t _ _ _ _ Hi HP') HF')).
    rewrite (proj2 (HW _) (proj2 (wait_entries_ok t _ _ _ _ Hi HP') HW')).
    by rewrite !Z.eqb_refl.
Qed.
