(* ===== verification/LogicalPtraceQueue.v ===== *)
(** * The event queue of a relation

    Each relation holds at most four pending events in a circular buffer. The
    queue is the list of the pending events, oldest first; the writes of
    QueueLogicalPtraceEvent, PopRelationEvent and the two event setters are
    operations on that list, and the queue part of the validation is a property
    of the list and the state. *)

From S2P Require Import Prelude SlotArray LogicalPtrace LogicalPtraceOps LogicalPtraceInv.
From stdpp Require Import list.
#[local] Open Scope Z_scope.

Definition event_at (r : LogicalPtraceRelation) (index : Z) : LogicalPtraceEvent :=
  lr_events r !!! Z.to_nat (queue_slot (lr_event_head r) index).

(** The pending events, oldest first. *)
Definition pending (r : LogicalPtraceRelation) : list LogicalPtraceEvent :=
  event_at r <$> seqZ 0 (lr_event_count r).

(** A circular buffer whose words are in range. *)
Definition queue_wf (r : LogicalPtraceRelation) : Prop :=
  length (lr_events r) = 4%nat /\ 0 <= lr_event_head r < 4 /\ 0 <= lr_event_count r <= 4.

(** The relation after QueueLogicalPtraceEvent stored an event. *)
Definition enqueue (r : LogicalPtraceRelation) (e : LogicalPtraceEvent) : LogicalPtraceRelation :=
  with_relation r (if EventIsExit e then kExitZombie else kStopped)
    (lr_event_head r) (u32 (lr_event_count r + 1)) (lr_options r)
    (<[Z.to_nat (queue_slot (lr_event_head r) (lr_event_count r)) := e]> (lr_events r)).

Lemma queue_slot_mod head index : 0 <= head < 4 -> 0 <= index < 8 ->
  queue_slot head index = (head + index) mod 4.
Proof. intros. unfold queue_slot. by rewrite u32_small by lia. Qed.

Lemma queue_slot_range head index : 0 <= queue_slot head index < 4.
Proof. apply Z.mod_pos_bound. done. Qed.

Lemma queue_slot_inj head i j : 0 <= head < 4 -> 0 <= i < 4 -> 0 <= j < 4 ->
  queue_slot head i = queue_slot head j -> i = j.
Proof.
  intros Hh Hi Hj. rewrite !queue_slot_mod by lia.
  pose proof (Z.div_mod (head + i) 4). pose proof (Z.div_mod (head + j) 4).
  pose proof (Z.mod_pos_bound (head + i) 4). pose proof (Z.mod_pos_bound (head + j) 4). lia.
Qed.

Lemma length_pending r : 0 <= lr_event_count r -> Z.of_nat (length (pending r)) = lr_event_count r.
Proof. intros. unfold pending. rewrite length_fmap, length_seqZ. lia. Qed.

(** Reading the buffer after one slot was written. *)
Lemma event_at_write r state count options j e i :
  length (lr_events r) = 4%nat -> 0 <= lr_event_head r < 4 -> 0 <= i < 4 -> 0 <= j < 4 ->
  event_at (with_relation r state (lr_event_head r) count options
    (<[Z.to_nat (queue_slot (lr_event_head r) j) := e]> (lr_events r))) i =
  if decide (i = j) then e else event_at r i.
Proof.
  intros Hl Hh Hi Hj. unfold event_at. simpl. pose proof (queue_slot_range (lr_event_head r) i).
  pose proof (queue_slot_range (lr_event_head r) j). destruct (decide (i = j)) as [->|Hne].
  - rewrite list_lookup_total_insert_eq; [done|lia].
  - rewrite list_lookup_total_insert_ne; [done|].
    intros E. apply Hne. apply (queue_slot_inj (lr_event_head r)); lia.
Qed.

Lemma pending_enqueue r e : queue_wf r -> lr_event_count r < 4 ->
  pending (enqueue r e) = pending r ++ [e] /\ queue_wf (enqueue r e).
Proof.
  intros (Hl & Hh & Hc) Hlt. split.
  - unfold pending, enqueue at 2. cbn [with_relation lr_event_count]. rewrite u32_small by lia.
    rewrite (seqZ_app 0 (lr_event_count r) 1), fmap_app by lia. f_equal.
    + apply list_fmap_ext. intros n i Hi. apply lookup_seqZ in Hi as [-> Hi].
      unfold enqueue. rewrite event_at_write by lia. rewrite decide_False by lia. done.
    + change (seqZ (0 + lr_event_count r) 1) with [0 + 0 + lr_event_count r]. simpl. f_equal.
      unfold enqueue. rewrite event_at_write by lia. by rewrite decide_True by lia.
  - unfold queue_wf, enqueue. cbn. rewrite length_insert, u32_small by lia. lia.
Qed.

Lemma pending_head r : queue_wf r -> 0 < lr_event_count r ->
  exists rest, pending r = head_event r :: rest.
Proof.
  intros (_ & Hh & Hc) Hlt. unfold pending. rewrite seqZ_cons by lia. eexists. simpl. f_equal.
  unfold event_at, head_event. rewrite queue_slot_mod, Z.add_0_r, Z.mod_small by lia. done.
Qed.

Lemma pending_pop r : queue_wf r -> 0 < lr_event_count r ->
  pending (PopRelationEvent r) = tail (pending r) /\ queue_wf (PopRelationEvent r).
Proof.
  intros (Hl & Hh & Hc) Hlt.
  assert (lr_event_count (PopRelationEvent r) = lr_event_count r - 1) as Hcnt.
  { unfold PopRelationEvent. cbn. apply u32_small. lia. }
  assert (0 <= lr_event_head (PopRelationEvent r) < 4) as Hhd.
  { unfold PopRelationEvent. cbn. destruct (_ =? 0); [lia|]. by apply Z.mod_pos_bound. }
  split; [|unfold queue_wf; rewrite Hcnt; split; [|lia]; unfold PopRelationEvent; cbn; by rewrite length_insert].
  unfold pending. rewrite Hcnt, (seqZ_cons 0 (lr_event_count r)) by lia. simpl.
  replace (Z.pred (lr_event_count r)) with (lr_event_count r - 1) by lia.
  rewrite <- (fmap_add_seqZ 1 0), <- list_fmap_compose.
  apply list_fmap_ext. intros n i Hi. apply lookup_seqZ in Hi as [-> Hi]. simpl.
  unfold event_at. unfold PopRelationEvent. cbn. rewrite (u32_small (lr_event_count r - 1)) by lia.
  rewrite (proj2 (Z.eqb_neq (lr_event_count r - 1) 0)) by lia.
  rewrite u32_small by lia. change kLogicalPtraceEventQueueCapacity with 4.
  rewrite Z.add_0_l.
  assert (queue_slot ((lr_event_head r + 1) mod 4) (Z.of_nat n) = queue_slot (lr_event_head r) (1 + Z.of_nat n)) as ->.
  { rewrite !queue_slot_mod by (try (pose proof (Z.mod_pos_bound (lr_event_head r + 1) 4); lia); lia).
    rewrite Zplus_mod_idemp_l. f_equal. lia. }
  rewrite list_lookup_total_insert_ne; [done|]. intros E.
  pose proof (queue_slot_range (lr_event_head r) (1 + Z.of_nat n)) as Hr.
  apply Z2Nat.inj in E; [|lia..].
  assert (queue_slot (lr_event_head r) 0 = queue_slot (lr_event_head r) (1 + Z.of_nat n)) as E'.
  { rewrite <- E, queue_slot_mod, Z.add_0_r, Z.mod_small by lia. done. }
  apply queue_slot_inj in E'; lia.
Qed.

Lemma pending_set_head r e : queue_wf r -> 0 < lr_event_count r ->
  pending (with_head_event r e) = e :: tail (pending r) /\ queue_wf (with_head_event r e).
Proof.
  intros (Hl & Hh & Hc) Hlt. split.
  2: { unfold queue_wf, with_head_event. cbn. rewrite length_insert. lia. }
  assert (lr_event_head r = queue_slot (lr_event_head r) 0) as Hq.
  { rewrite queue_slot_mod, Z.add_0_r, Z.mod_small by lia. done. }
  unfold pending at 1. unfold with_head_event at 2. cbn [with_relation lr_event_count].
  unfold pending. rewrite (seqZ_cons 0 (lr_event_count r)) by lia. simpl. f_equal.
  - unfold with_head_event. rewrite Hq at 2. rewrite event_at_write by lia. done.
  - apply list_fmap_ext. intros n i Hi. apply lookup_seqZ in Hi as [-> Hi].
    unfold with_head_event. rewrite Hq at 2. rewrite event_at_write by lia. by rewrite decide_False by lia.
Qed.

(** ** The queue part of the validation *)

(** Valid events, an exit event only as the last one; whether it is one. *)
Fixpoint events_valid (exit_seen : bool) (l : list LogicalPtraceEvent) : option bool :=
  match l with
  | [] => Some exit_seen
  | e :: rest => if negb (EventValid e) || exit_seen then None else events_valid (EventIsExit e) rest
  end.

Lemma validate_events_list n r index exit_seen :
  validate_events n r index exit_seen = events_valid exit_seen (event_at r <$> seqZ index (Z.of_nat n)).
Proof.
  revert index exit_seen. induction n as [|n IH]; intros index exit_seen; [done|].
  rewrite seqZ_cons by lia. cbn [validate_events fmap list_fmap events_valid]. unfold event_at at 1 2.
  destruct (_ || _); [done|]. rewrite IH. repeat f_equal; lia.
Qed.

(** States in which no event may be pending. *)
Definition running (state : Z) : bool :=
  (state =? kAttachPending) || (state =? kSeizeRunning) || (state =? kRunningCont) ||
  (state =? kRunningSyscall) || (state =? kRunningSingleStep) || (state =? kListening).

Definition queue_ok (r : LogicalPtraceRelation) : Prop :=
  queue_wf r /\ events_valid false (pending r) = Some (lr_state r =? kExitZombie) /\
  (running (lr_state r) = true -> lr_event_count r = 0).

Lemma relation_queue_valid_ok r : typed_relation r -> relation_queue_valid r = true <-> queue_ok r.
Proof.
  intros (Hl & Hh & Hc). unfold relation_queue_valid, queue_ok, queue_wf. fold (running (lr_state r)).
  rewrite validate_events_list, Z2Nat.id by done. fold (pending r).
  change kLogicalPtraceEventQueueCapacity with 4. rewrite !andb_true_iff, !negb_true_iff.
  assert ((running (lr_state r) && negb (lr_event_count r =? 0)) = false <->
    (running (lr_state r) = true -> lr_event_count r = 0)) as ->.
  { destruct (running _); simpl; [rewrite negb_false_iff, Z.eqb_eq; tauto|done]. }
  destruct (events_valid false (pending r)) as [b|] eqn:Ev.
  - rewrite eqb_true_iff. split.
    + intros ((((? & ?) & ?) & _) & ->). split; [lia|]. by split.
    + intros (? & [= ->] & ?). split; [split; [split; [split; lia|done]|]|done].
      destruct (lr_state r =? kExitZombie) eqn:E; [|done]. simpl. apply Z.eqb_neq. intros Hz.
      unfold pending in Ev. rewrite Hz in Ev. done.
  - split; [by intros [_ ?]|]. by intros (_ & ? & _).
Qed.

Lemma events_valid_app exit_seen l e : events_valid exit_seen (l ++ [e]) =
  match events_valid exit_seen l with
  | Some b => if negb (EventValid e) || b then None else Some (EventIsExit e)
  | None => None
  end.
Proof.
  revert exit_seen. induction l as [|x l IH]; intros exit_seen; [done|]. simpl.
  by destruct (negb (EventValid x) || exit_seen).
Qed.

Lemma events_valid_head e l b : events_valid false (e :: l) = Some b ->
  EventValid e = true /\ (l = [] /\ b = EventIsExit e \/ EventIsExit e = false /\ events_valid false l = Some b).
Proof.
  simpl. rewrite orb_false_r. destruct (EventValid e); [|done]. simpl. intros Hv. split; [done|].
  destruct (EventIsExit e) eqn:E; [|by right]. destruct l as [|x l]; [left; by simplify_eq/=|].
  simpl in Hv. by rewrite orb_true_r in Hv.
Qed.

Lemma enqueue_ok r e : queue_ok r -> lr_state r <> kExitZombie -> lr_event_count r < 4 ->
  EventValid e = true -> queue_ok (enqueue r e).
Proof.
  intros (Hw & Hv & Hr) Hz Hlt He. destruct (pending_enqueue r e Hw Hlt) as [Hp Hw'].
  split; [done|]. rewrite Hp, events_valid_app, Hv, He. rewrite (proj2 (Z.eqb_neq _ _) Hz). simpl.
  by destruct (EventIsExit e).
Qed.

Lemma pop_ok r : queue_ok r -> 0 < lr_event_count r -> EventIsExit (head_event r) = false ->
  queue_ok (PopRelationEvent r).
Proof.
  intros (Hw & Hv & Hr) Hlt He. destruct (pending_pop r Hw Hlt) as [Hp Hw'].
  destruct (pending_head r Hw Hlt) as [rest Hh]. rewrite Hh in Hp, Hv. simpl in Hp.
  split; [done|]. change (lr_state (PopRelationEvent r)) with (lr_state r). rewrite Hp. split.
  - apply events_valid_head in Hv as [_ [[-> ->]|[_ ->]]]; [by rewrite He|done].
  - intros Hrun. apply Hr in Hrun. lia.
Qed.

(** An exit event at the head is alone in the queue. *)
Lemma exit_head_alone r : queue_ok r -> 0 < lr_event_count r -> EventIsExit (head_event r) = true ->
  lr_event_count r = 1.
Proof.
  intros (Hw & Hv & Hr) Hlt He. destruct (pending_head r Hw Hlt) as [rest Hh]. rewrite Hh in Hv.
  apply events_valid_head in Hv as [_ [[-> _]|[? _]]]; [|congruence].
  pose proof (length_pending r ltac:(lia)) as Hl. rewrite Hh in Hl. simpl in Hl. lia.
Qed.

Lemma set_head_ok r e : queue_ok r -> 0 < lr_event_count r -> EventValid e = true ->
  EventIsExit e = EventIsExit (head_event r) -> queue_ok (with_head_event r e).
Proof.
  intros (Hw & Hv & Hr) Hlt He Hx. destruct (pending_set_head r e Hw Hlt) as [Hp Hw'].
  destruct (pending_head r Hw Hlt) as [rest Hh]. rewrite Hh in Hp, Hv. simpl in Hp.
  split; [done|]. rewrite Hp. change (lr_state (with_head_event r e)) with (lr_state r). split; [|done].
  simpl in Hv |- *. rewrite He, Hx. by destruct (EventValid (head_event r)).
Qed.

(** A stopped relation without pending events may change its state. *)
Lemma with_state_ok r state : queue_ok r -> lr_state r = kStopped -> lr_event_count r = 0 ->
  state <> kExitZombie -> queue_ok (with_state r state).
Proof.
  intros (Hw & Hv & Hr) Hs Hc Hz. split; [done|]. split; [|done].
  change (events_valid false (pending r) = Some (state =? kExitZombie)).
  rewrite Hv, Hs, (proj2 (Z.eqb_neq _ _) Hz). done.
Qed.

Lemma head_event_valid r : queue_ok r -> 0 < lr_event_count r -> EventValid (head_event r) = true.
Proof.
  intros (Hw & Hv & Hr) Hlt. destruct (pending_head r Hw Hlt) as [rest Hh]. rewrite Hh in Hv.
  by apply events_valid_head in Hv as [? _].
Qed.

(** ** The events that are stored *)

Lemma AllocateSequence_spec next : (AllocateSequence next).1 <> 0 /\ (AllocateSequence next).2 <> 0.
Proof.
  unfold AllocateSequence. simpl. split; [destruct (Z.eqb_spec next 0); lia|].
  destruct (Z.eqb_spec (u64 ((if next =? 0 then 1 else next) + 1)) 0); lia.
Qed.

Lemma unknown_bits_lor a b mask : unknown_bits a mask = false -> unknown_bits b mask = false ->
  unknown_bits (a ||| b) mask = false.
Proof.
  unfold unknown_bits. intros Ha Hb. apply negb_false_iff, Z.eqb_eq in Ha, Hb.
  by rewrite Z.land_lor_distr_l, Ha, Hb.
Qed.

Lemma unknown_bits_land a b mask : unknown_bits a mask = false -> unknown_bits (Z.land a b) mask = false.
Proof.
  unfold unknown_bits. intros Ha. apply negb_false_iff, Z.eqb_eq in Ha.
  by rewrite <- Z.land_assoc, (Z.land_comm b), Z.land_assoc, Ha.
Qed.

Lemma has_lor a b : b <> 0 -> has (a ||| b) b = true.
Proof.
  intros Hb. unfold has. apply negb_true_iff, Z.eqb_neq.
  assert (Z.land (Z.lor a b) b = b) as ->; [|done]. apply Z.bits_inj'. intros n _.
  rewrite Z.land_spec, Z.lor_spec. by destruct (Z.testbit a n), (Z.testbit b n).
Qed.

Lemma EventValid_iff e : EventValid e = true <->
  ev_sequence e <> 0 /\ EventKindValid (ev_kind e) = true /\
  unknown_bits (ev_flags e) kLogicalPtraceEventFlagMask = false /\
  0 <= ev_signal_number e < NSIG /\ ev_reserved e = 0 /\
  (has (ev_flags e) kEventFlagSyscallNumberValid = false -> ev_guest_syscall_number e = -1).
Proof.
  unfold EventValid.
  assert (forall P1 P2 P3 P4 P5 P6 : Prop, ~ (P1 /\ P2 /\ P3 /\ P4 /\ P5 /\ P6) ->
    false = true <-> P1 /\ P2 /\ P3 /\ P4 /\ P5 /\ P6) as Hno by (intros; split; [done|tauto]).
  destruct (Z.eqb_spec (ev_sequence e) 0); simpl; [apply Hno; tauto|].
  destruct (EventKindValid (ev_kind e)); simpl; [|apply Hno; by intros (_ & ? & _)].
  destruct (unknown_bits _ _); simpl; [apply Hno; by intros (_ & _ & ? & _)|].
  destruct (Z.ltb_spec (ev_signal_number e) 0); simpl; [apply Hno; lia|].
  destruct (Z.leb_spec NSIG (ev_signal_number e)); simpl; [apply Hno; lia|].
  destruct (Z.eqb_spec (ev_reserved e) 0); simpl; [|apply Hno; tauto].
  destruct (has (ev_flags e) _); simpl; [split; [by repeat split|done]|].
  destruct (Z.eqb_spec (ev_guest_syscall_number e) (-1)); simpl; [by repeat split|].
  apply Hno. intros (_ & _ & _ & _ & _ & Hx). by destruct (Hx eq_refl).
Qed.

Lemma stored_event_valid e sequence : event_argument_bad e = false -> sequence <> 0 ->
  EventValid (stored_event e sequence) = true.
Proof.
  unfold event_argument_bad. intros Hb Hs. bool_hyps. apply EventValid_iff. unfold stored_event. cbn.
  repeat split; try done; try lia.
  all: by intros ->.
Qed.

Lemma registers_event_valid e (valid : bool) number regs :
  EventValid e = true ->
  let flags := ev_flags e ||| kEventFlagRegistersValid in
  EventValid (if valid
    then with_event e (flags ||| kEventFlagSyscallNumberValid) number (ev_signal_info e) regs
    else with_event e (Z.land flags (not32 kEventFlagSyscallNumberValid)) (-1) (ev_signal_info e) regs) = true.
Proof.
  intros (? & ? & Hf & ? & ? & ?)%EventValid_iff flags. apply EventValid_iff.
  assert (unknown_bits flags kLogicalPtraceEventFlagMask = false) as Hfl by (by apply unknown_bits_lor).
  destruct valid; unfold with_event; cbn; repeat split; try done; try lia.
  - by apply unknown_bits_lor.
  - by rewrite has_lor.
  - by apply unknown_bits_land.
Qed.

Lemma siginfo_event_valid e info : EventValid e = true ->
  EventValid (with_event e (ev_flags e ||| kEventFlagSiginfoValid) (ev_guest_syscall_number e) info
    (ev_guest_registers e)) = true.
Proof.
  intros (? & ? & Hf & ? & ? & Hn)%EventValid_iff. apply EventValid_iff. unfold with_event. cbn.
  repeat split; try done; try lia; [by apply unknown_bits_lor|]. intros Hh. apply Hn.
  revert Hh. unfold has. rewrite Z.land_lor_distr_l. by rewrite Z.lor_0_r.
Qed.
