(* ===== verification/LogicalPtracePreserve.v ===== *)
(** * Every operation preserves the invariant of the logical ptrace table

    One lemma per operation; the lemmas on replacing one of the four arrays
    carry the proofs. The section at the end puts the operations together as a
    step relation. *)

From S2P Require Import Prelude SlotArray Chain LogicalPtrace LogicalPtraceOps LogicalPtraceInv LogicalPtraceQueue.
From stdpp Require Import list gmap.
#[local] Open Scope Z_scope.

(** ** Replacing an array or the counters *)

Lemma init_iff t : IsLogicalPtraceTableInitialized t = true <->
  (magic t = kLogicalPtraceMagic /\ version t = kLogicalPtraceVersion) /\
  (process_count t <= 512 /\ process_free_hint t < 512) /\
  (relation_count t <= 512 /\ relation_free_hint t < 512) /\
  (fake_traceme_count t <= 512 /\ fake_traceme_free_hint t < 512) /\
  (wait_count t <= 512 /\ wait_free_hint t < 512) /\
  next_relation_generation t <> 0 /\ next_event_sequence t <> 0 /\ next_wait_generation t <> 0.
Proof.
  unfold IsLogicalPtraceTableInitialized. rewrite !andb_true_iff, !negb_true_iff.
  change kLogicalPtraceProcessCapacity with 512. change kLogicalPtraceRelationCapacity with 512.
  change kLogicalPtraceFakeTracemeCapacity with 512. change kLogicalPtraceWaitCapacity with 512. lia.
Qed.

Lemma ok_set_counters t mutation relation event wait : table_ok t ->
  relation <> 0 -> event <> 0 -> wait <> 0 -> table_ok (set_counters t mutation relation event wait).
Proof.
  intros [[] Hi HP Hpar HR Htr HF HW] Hr He Hw. split; [by split| |done..].
  apply init_iff. apply init_iff in Hi. simpl. tauto.
Qed.

Lemma ok_bump t : table_ok t -> table_ok (bump t).
Proof.
  intros Hok. pose proof (ok_init t Hok) as Hi. apply init_iff in Hi. apply ok_set_counters; tauto.
Qed.

(** The processes a record of the other arrays refers to. *)
Definition referenced (t : LogicalPtraceTable) (k : LogicalProcessKey) : Prop :=
  (exists i r, entry_at (relations t) i r /\
    (LogicalProcessKeyForTask (lr_tracee r) = k \/ LogicalProcessKeyForTask (lr_tracer r) = k)) \/
  (exists i f, entry_at (fake_traceme t) i f /\ LogicalProcessKeyForTask (lf_task f) = k) \/
  (exists i w, entry_at (waits t) i w /\ LogicalProcessKeyForTask (rq_waiter (lw_request w)) = k).

Lemma ok_set_processes t count hint arr : table_ok t -> 0 <= hint < 512 ->
  slots_ok 512 (fun p => vacant_process p = true) (process_ok (live_in (to_map arr))) arr count ->
  (forall k, ends (parent_of (to_map arr)) k) ->
  (forall k, live_in (process_map t) k -> referenced t k -> live_in (to_map arr) k) ->
  table_ok (set_processes t count hint arr).
Proof.
  intros [[] Hi HP Hpar HR Htr HF HW] Hh Hs He Hlive.
  pose proof (slots_ok_count _ _ Hs). split; simpl; try done.
  - split; simpl; try done; [apply Hs|lia].
  - apply init_iff. apply init_iff in Hi. simpl. tauto || (repeat split; try apply Hi; lia).
  - revert HR. apply slots_ok_mono. intros i r Hr (? & ? & ?). split; [done|].
    split; apply Hlive; try done; left; exists i, r; auto.
  - revert HF. apply slots_ok_mono. intros i r Hr (? & ?). split; [done|].
    apply Hlive; [done|]. right; left. by exists i, r.
  - revert HW. apply slots_ok_mono. intros i r Hr (? & ? & ?). split; [done|]. split; [done|].
    apply Hlive; [done|]. right; right. by exists i, r.
Qed.

Lemma ok_set_relations t count hint arr : table_ok t -> 0 <= hint < 512 ->
  slots_ok 512 (fun r => vacant_relation r = true) (relation_ok (live_in (process_map t))) arr count ->
  (forall k, ends (tracer_of (to_map arr)) k) -> Forall typed_relation arr ->
  table_ok (set_relations t count hint arr).
Proof.
  intros [[] Hi HP Hpar HR Htr HF HW] Hh Hs He Hty.
  pose proof (slots_ok_count _ _ Hs). split; simpl; try done.
  - split; simpl; try done; [apply Hs|lia].
  - apply init_iff. apply init_iff in Hi. simpl. repeat split; try apply Hi; lia.
Qed.

Lemma ok_set_fakes t count hint arr : table_ok t -> 0 <= hint < 512 ->
  slots_ok 512 (fun f => vacant_fake f = true) (fake_ok (live_in (process_map t))) arr count ->
  table_ok (set_fake_traceme t count hint arr).
Proof.
  intros [[] Hi HP Hpar HR Htr HF HW] Hh Hs.
  pose proof (slots_ok_count _ _ Hs). split; simpl; try done.
  - split; simpl; try done; [apply Hs|lia].
  - apply init_iff. apply init_iff in Hi. simpl. repeat split; try apply Hi; lia.
Qed.

Lemma ok_set_waits t count hint arr : table_ok t -> 0 <= hint < 512 ->
  slots_ok 512 (fun w => vacant_wait w = true) (wait_ok (live_in (process_map t))) arr count ->
  table_ok (set_waits t count hint arr).
Proof.
  intros [[] Hi HP Hpar HR Htr HF HW] Hh Hs.
  pose proof (slots_ok_count _ _ Hs). split; simpl; try done.
  - split; simpl; try done; [apply Hs|lia].
  - apply init_iff. apply init_iff in Hi. simpl. repeat split; try apply Hi; lia.
Qed.

(** ** Free slots *)

(** A scan of an array with room finds a free slot. *)
Lemma free_slot_spec {A K} `{SlotRecord A K, !Inhabited A} vacant entry (arr : list A) count hint :
  slots_ok 512 vacant entry arr count -> 0 <= hint < 512 ->
  match free_slot hint arr with
  | Some s => 0 <= s < 512 /\ exists r, arr !! Z.to_nat s = Some r /\ in_use r = false
  | None => count = 512
  end.
Proof.
  intros Hs Hh. pose proof (so_length _ _ _ _ _ Hs) as Hl.
  destruct (free_slot hint arr) as [s|] eqn:E.
  - apply free_slot_Some in E; rewrite ?Hl in *; [done|lia|lia].
  - pose proof (used_bounds arr). rewrite (so_count _ _ _ _ _ Hs), Hl in *.
    destruct (Z.eq_dec count 512) as [|Hne]; [done|]. exfalso.
    destruct (free_slot_not_full hint arr) as [s Hss]; [rewrite Hl; lia..| |congruence].
    rewrite (so_count _ _ _ _ _ Hs), Hl. lia.
Qed.

(** ** Processes *)

Lemma parent_of_insert (m : gmap LogicalProcessKey LogicalProcessRecord) k p x :
  parent_of (<[k := p]> m) x =
  if decide (x = k) then (if parent_known p then Some (lp_parent p) else None) else parent_of m x.
Proof.
  unfold parent_of. destruct (decide (x = k)) as [->|]; [by rewrite lookup_insert_eq|].
  by rewrite lookup_insert_ne.
Qed.

Lemma live_insert (m : gmap LogicalProcessKey LogicalProcessRecord) k p x :
  live_in m x -> live_in (<[k := p]> m) x.
Proof. unfold live_in. intros. apply lookup_insert_is_Some'. by right. Qed.

Lemma process_ok_mono (live live' : LogicalProcessKey -> Prop) p :
  (forall k, live k -> live' k) -> process_ok live p -> process_ok live' p.
Proof. intros Hl [Hs Hp]. split; [done|]. unfold parent_ok in *. destruct (parent_known p); [|done]. split; [apply Hp|split; [apply Hp|apply Hl, Hp]]. Qed.

(** Links of the parent relation end at live processes. *)
Lemma parent_link_live t x y : table_ok t -> rtc (link (parent_of (process_map t))) x y ->
  live_in (process_map t) x -> live_in (process_map t) y.
Proof.
  intros Hok. induction 1 as [|x y z Hl _ IH]; [done|]. intros Hx. apply IH.
  unfold link, parent_of in Hl. destruct (process_map t !! x) as [p|] eqn:E; [|done].
  destruct (parent_known p) eqn:Hk; [|done]. injection Hl as <-.
  apply (to_map_lookup _ _ _ _ (ok_processes t Hok)) in E as (i & Hi & _).
  destruct (entry_at_ok _ _ _ _ (ok_processes t Hok) Hi) as ([_ Hp] & _).
  unfold parent_ok in Hp. rewrite Hk in Hp. apply Hp.
Qed.

Lemma process_at t i p : table_ok t -> entry_at (processes t) i p ->
  process_map t !! lp_key p = Some p /\ process_ok (live_in (process_map t)) p /\
  lp_slot p = Z.of_nat i /\ (i < 512)%nat /\ lp_occupied p <= 1.
Proof.
  intros Hok Hi. split; [apply (to_map_lookup _ _ _ _ (ok_processes t Hok)); by exists i|].
  destruct (entry_at_ok _ _ _ _ (ok_processes t Hok) Hi) as (? & ? & ? & ?). done.
Qed.

Lemma insert_process_ok t s r p : table_ok t -> 0 <= s < 512 ->
  processes t !! Z.to_nat s = Some r -> in_use r = false ->
  lp_slot p = s -> lp_occupied p = 1 -> process_map t !! lp_key p = None ->
  process_ok (live_in (process_map t)) p ->
  table_ok (bump (set_processes t (u32 (process_count t + 1))
    (advance_hint s kLogicalPtraceProcessCapacity) (<[Z.to_nat s := p]> (processes t)))) /\
  to_map (<[Z.to_nat s := p]> (processes t)) = <[lp_key p := p]> (process_map t).
Proof.
  intros Hok Hs Hr Hu Hsl Hocc Hnew Hp. pose proof (ok_processes t Hok) as HP.
  assert (slots_ok 512 (fun p => vacant_process p = true)
    (process_ok (live_in (<[lp_key p := p]> (process_map t)))) (<[Z.to_nat s := p]> (processes t))
    (process_count t + 1)) as HP'.
  { eapply (slots_ok_fill _ _ _ _ _ _ HP Hr Hu); [|done|..].
    - simpl. lia.
    - revert Hp. apply process_ok_mono. intros k. apply live_insert.
    - intros j q Hj. pose proof (proj1 (to_map_None _ _ _ HP) Hnew j q Hj) as Hne. done.
    - intros j q _. apply process_ok_mono. intros k. apply live_insert. }
  pose proof (to_map_store _ _ _ _ _ _ HP HP' Hr) as Hm. simpl in Hm.
  rewrite <- Hm in HP'; [|unfold in_use; simpl; by rewrite Hocc|congruence].
  rewrite <- Hm; [|unfold in_use; simpl; by rewrite Hocc|congruence]. split; [|done].
  pose proof (slots_ok_count _ _ HP). pose proof (slots_ok_count _ _ HP').
  rewrite u32_small by lia. apply ok_bump, ok_set_processes; [done| |done| |].
  - apply (advance_hint_range s 512); lia.
  - rewrite Hm; [|unfold in_use; simpl; by rewrite Hocc|congruence].
    assert (forall x, x <> lp_key p -> parent_of (<[lp_key p := p]> (process_map t)) x = parent_of (process_map t) x) as Heq.
    { intros x Hx. rewrite parent_of_insert. by rewrite decide_False. }
    pose proof (parent_of_insert (process_map t) (lp_key p) p (lp_key p)) as Hk. rewrite decide_True in Hk by done.
    destruct Hp as [_ Hp]. unfold parent_ok in Hp. destruct (parent_known p).
    + apply (ends_update _ _ _ _ Heq Hk (ok_parents t Hok)). intros Hrt.
      destruct Hp as (_ & _ & Hl). apply (parent_link_live t _ _ Hok Hrt) in Hl as [q Hq]. congruence.
    + by apply (ends_remove _ _ _ Heq Hk (ok_parents t Hok)).
  - intros k Hk _. rewrite Hm; [by apply live_insert|unfold in_use; simpl; by rewrite Hocc|congruence].
Qed.

(** A process record replaced; what is left to show is that parents still end. *)
Lemma update_process_ok t i p p' : table_ok t -> entry_at (processes t) i p ->
  lp_key p' = lp_key p -> lp_slot p' = lp_slot p -> lp_occupied p' = lp_occupied p ->
  process_ok (live_in (process_map t)) p' ->
  (forall k, ends (parent_of (<[lp_key p := p']> (process_map t))) k) ->
  table_ok (update_process t i p') /\
  process_map (update_process t i p') = <[lp_key p := p']> (process_map t).
Proof.
  intros Hok Hi Hk Hsl Hocc Hp He. pose proof (ok_processes t Hok) as HP.
  assert (slots_ok 512 (fun p => vacant_process p = true)
    (process_ok (live_in (<[lp_key p := p']> (process_map t)))) (<[i := p']> (processes t))
    (process_count t)) as HP'.
  { eapply (slots_ok_update _ _ _ _ _ _ HP Hi); [done..| |].
    - revert Hp. apply process_ok_mono. intros k. apply live_insert.
    - intros j q _ _. apply process_ok_mono. intros k. apply live_insert. }
  assert (to_map (<[i := p']> (processes t)) = <[lp_key p := p']> (process_map t)) as Hm.
  { rewrite <- Hk. apply (to_map_store _ _ _ _ _ _ HP HP' (proj1 Hi)); [|done].
    destruct Hi as [_ Hu]. unfold in_use in *. simpl in *. by rewrite Hocc. }
  split; [|done]. apply ok_bump, ok_set_processes; [done| |by rewrite Hm|by rewrite Hm|].
  - pose proof (ok_init t Hok) as Hin. apply init_iff in Hin. pose proof (ty_hints t (ok_typed t Hok)). lia.
  - intros k Hlk _. rewrite Hm. by apply live_insert.
Qed.

Lemma erase_process_ok t i p : table_ok t -> entry_at (processes t) i p ->
  ~ referenced t (lp_key p) ->
  (forall j q, entry_at (processes t) j q -> parent_known q = true -> lp_parent q <> lp_key p) ->
  let t' := bump (set_processes t (u32 (process_count t - 1)) (lp_slot p)
              (<[i := ClearProcessRecord (lp_slot p)]> (processes t))) in
  table_ok t' /\ process_map t' = delete (lp_key p) (process_map t).
Proof.
  intros Hok Hi Href Hpar t'. pose proof (ok_processes t Hok) as HP.
  destruct (process_at t i p Hok Hi) as (Hmp & _ & Hsl & Hlt & _).
  assert (forall k, k <> lp_key p -> live_in (process_map t) k -> live_in (delete (lp_key p) (process_map t)) k) as Hlive.
  { intros k Hne Hk. unfold live_in. by rewrite lookup_delete_ne. }
  assert (slots_ok 512 (fun p => vacant_process p = true)
    (process_ok (live_in (delete (lp_key p) (process_map t))))
    (<[i := ClearProcessRecord (lp_slot p)]> (processes t)) (process_count t - 1)) as HP'.
  { eapply (slots_ok_clear _ _ _ _ _ _ HP Hi); [done|done|done|].
    intros j q _ Hj [Hs Hq]. split; [done|]. unfold parent_ok in *.
    destruct (parent_known q) eqn:Hk; [|done]. destruct Hq as (? & ? & ?). split; [done|]. split; [done|].
    apply Hlive; [by apply (Hpar j q)|done]. }
  pose proof (to_map_clear _ _ _ _ _ _ HP HP' (proj1 Hi) (proj2 Hi) eq_refl) as Hm. simpl in Hm.
  split; [|done]. pose proof (slots_ok_count _ _ HP'). pose proof (slots_ok_count _ _ HP).
  unfold t'. rewrite u32_small by lia. apply ok_bump, ok_set_processes; [done|lia|by rewrite Hm| |].
  - rewrite Hm. apply (ends_remove (parent_of (process_map t)) _ (lp_key p)); [| |apply (ok_parents t Hok)].
    + intros k Hk. unfold parent_of. by rewrite lookup_delete_ne.
    + unfold parent_of. by rewrite lookup_delete_eq.
  - intros k Hk Hrk. rewrite Hm. apply Hlive; [|done]. intros ->. by apply Href.
Qed.

(** Case analysis on a Find function of a table that satisfies the invariant;
    [Hf] gets what it found. *)
Ltac find_process t k Hok :=
  let Hf := fresh "Hf" in
  pose proof (find_process_spec t (ok_init t Hok) _ _ _ k (ok_processes t Hok)) as Hf;
  destruct (FindLogicalProcess t k) eqn:?.
Ltac find_relation t k Hok :=
  let Hf := fresh "Hf" in
  pose proof (find_relation_spec t (ok_init t Hok) _ _ _ k (ok_relations t Hok)) as Hf;
  destruct (FindLogicalPtraceRelation t k) eqn:?.
Ltac find_fake t k Hok :=
  let Hf := fresh "Hf" in
  pose proof (find_fake_spec t (ok_init t Hok) _ _ _ k (ok_fakes t Hok)) as Hf;
  destruct (FindFakeTraceme t k) eqn:?.
Ltac find_wait t k Hok :=
  let Hf := fresh "Hf" in
  pose proof (find_wait_spec t (ok_init t Hok) _ _ _ k (ok_waits t Hok)) as Hf;
  destruct (FindLogicalWait t k) eqn:?.

Lemma hints_ok t : table_ok t -> 0 <= process_free_hint t < 512 /\ 0 <= relation_free_hint t < 512 /\
  0 <= fake_traceme_free_hint t < 512 /\ 0 <= wait_free_hint t < 512.
Proof.
  intros Hok. pose proof (ok_init t Hok) as Hin. apply init_iff in Hin.
  pose proof (ty_hints t (ok_typed t Hok)). lia.
Qed.

Lemma InsertLogicalProcess_ok t key parent group dumpable ptracer : table_ok t ->
  let '(error, t', slot) := InsertLogicalProcess t key parent group dumpable ptracer in
  table_ok t' /\ (error <> 0 -> t' = t) /\
  (error = 0 -> process_map t !! key = None /\ exists p, lp_key p = key /\
     process_map t' = <[key := p]> (process_map t) /\ lp_slot p = slot /\
     parent_of (process_map t') key = parent /\ lp_process_group p = group /\
     lp_logical_dumpable p = dumpable /\ lp_logical_ptracer p = ptracer).
Proof.
  intros Hok. unfold InsertLogicalProcess. rewrite (ok_init t Hok). cbn [negb orb].
  destruct (ProcessKeyValid key) eqn:Hkey; [|done]. cbn [negb orb].
  destruct (Z.leb_spec group 0) as [|Hgroup]; [done|]. cbn [negb orb].
  destruct (DumpableValid dumpable) eqn:Hdump; [|done]. cbn [negb orb].
  destruct (PidIdentityValid ptracer) eqn:Hpid; [|done]. cbn [negb orb].
  find_process t key Hok; [done|].
  destruct (match parent with Some _ => _ | None => false end) eqn:Hpar; [done|].
  destruct (process_count t =? kLogicalPtraceProcessCapacity); [done|].
  pose proof (free_slot_spec _ _ _ _ (process_free_hint t) (ok_processes t Hok)) as Hfree.
  destruct (free_slot (process_free_hint t) (processes t)) as [s|]; [|done].
  destruct Hfree as (Hs & r & Hr & Hu); [apply (hints_ok t Hok)|].
  set (p := Build_LogicalProcessRecord _ _ _ _ _ _ _ _ _). cbv zeta.
  assert (parent_known p = match parent with Some _ => true | None => false end) as Hpk by (by destruct parent).
  destruct (insert_process_ok t s r p Hok Hs Hr Hu eq_refl eq_refl Hf) as [Hok' Hm].
  { split.
    - unfold process_static. cbn. rewrite Hkey, Hdump, Hpid, (proj2 (Z.ltb_lt _ _) Hgroup). by destruct parent.
    - unfold parent_ok. rewrite Hpk. destruct parent as [q|]; [|done]. cbn [lp_parent lp_key p].
      apply orb_false_iff in Hpar as [Hpar Hl]. apply orb_false_iff in Hpar as [Hv He].
      apply negb_false_iff in Hv. split; [done|]. split.
      + intros ->. by rewrite (proj2 (LogicalProcessKeysEqual_spec q q Hv Hv) eq_refl) in He.
      + find_process t q Hok; [|done]. destruct Hf0 as (? & _ & _ & Hq & _). by eexists. }
  split; [done|]. split; [done|]. intros _. split; [done|]. exists p. split; [done|].
  split; [exact Hm|]. split; [done|]. split; [|done].
  change (parent_of (to_map (<[Z.to_nat s:=p]> (processes t))) key = parent).
  rewrite Hm, parent_of_insert, decide_True, Hpk by done. by destruct parent.
Qed.

Lemma InheritLogicalProcess_ok t child parent group : table_ok t ->
  table_ok (InheritLogicalProcess t child parent group).1.2.
Proof.
  intros Hok. unfold InheritLogicalProcess. destruct (negb _); [done|].
  destruct (FindLogicalProcess t parent) as [i|]; [|done].
  pose proof (InsertLogicalProcess_ok t child (Some parent) group
    (lp_logical_dumpable (processes t !!! i)) (lp_logical_ptracer (processes t !!! i)) Hok) as Hins.
  destruct (InsertLogicalProcess _ _ _ _ _ _) as [[e t'] s]. apply Hins.
Qed.

(** ProcessReferenced sees every reference. *)
Lemma existsb_entry {A K} `{SlotRecord A K, !Inhabited A} (arr : list A) (p : A -> bool) i r :
  entry_at arr i r -> p r = true -> existsb (fun x => in_use x && p x) arr = true.
Proof.
  intros [Hi Hu] Hp. apply existsb_exists. exists r. split; [|by rewrite Hu].
  apply list_elem_of_In. by eapply list_elem_of_lookup_2.
Qed.

Lemma same_process k : LogicalProcessKeysEqual k k = true.
Proof. unfold LogicalProcessKeysEqual. by rewrite !Z.eqb_refl. Qed.

Lemma not_referenced t key : ProcessReferenced t key = false ->
  ~ referenced t key /\
  (forall j q, entry_at (processes t) j q -> parent_known q = true -> lp_parent q <> key).
Proof.
  unfold ProcessReferenced. intros Hn. apply orb_false_iff in Hn as [Hn Hw].
  apply orb_false_iff in Hn as [Hn Hf]. apply orb_false_iff in Hn as [Hp Hr]. split.
  - intros [(i & r & Hi & Hk)|[(i & r & Hi & Hk)|(i & r & Hi & Hk)]].
    + rewrite (existsb_entry (relations t) (fun r => LogicalProcessKeysEqual (LogicalProcessKeyForTask (lr_tracee r)) key ||
        LogicalProcessKeysEqual (LogicalProcessKeyForTask (lr_tracer r)) key) i r Hi) in Hr; [done|].
      apply orb_true_iff. destruct Hk as [<-|<-]; [left|right]; apply same_process.
    + rewrite (existsb_entry (fake_traceme t) (fun f => LogicalProcessKeysEqual (LogicalProcessKeyForTask (lf_task f)) key)
        i r Hi) in Hf; [done|]. rewrite <- Hk. apply same_process.
    + rewrite (existsb_entry (waits t) (fun w => LogicalProcessKeysEqual
        (LogicalProcessKeyForTask (rq_waiter (lw_request w))) key) i r Hi) in Hw; [done|].
      rewrite <- Hk. apply same_process.
  - intros j q Hj Hk Heq.
    assert (existsb (fun process => in_use process && parent_known process &&
      LogicalProcessKeysEqual (lp_parent process) key) (processes t) = true); [|congruence].
    destruct Hj as [Hj Hu]. apply existsb_exists. exists q.
    split; [apply list_elem_of_In; by eapply list_elem_of_lookup_2|].
    by rewrite Hu, Hk, Heq, same_process.
Qed.

Lemma EraseLogicalProcess_ok t key : table_ok t ->
  let '(error, t') := EraseLogicalProcess t key in
  table_ok t' /\ (error <> 0 -> t' = t) /\
  (error = 0 -> process_map t' = delete key (process_map t) /\ ~ referenced t key).
Proof.
  intros Hok. unfold EraseLogicalProcess. rewrite (ok_init t Hok). cbn [negb orb].
  destruct (ProcessKeyValid key) eqn:Hkey; [|done]. cbn [negb].
  find_process t key Hok; [|done]. destruct (ProcessReferenced t key) eqn:Href; [done|].
  destruct Hf as (p & Hi & Hk & Hm & _). pose proof (proj1 Hi) as Hl.
  rewrite (list_lookup_total_correct _ _ _ Hl). apply not_referenced in Href as [Href Hpar].
  rewrite <- Hk in Href, Hpar |- *. destruct (erase_process_ok t n p Hok Hi Href Hpar) as [Hok' Hm'].
  split; [done|]. split; [done|]. intros _. by split.
Qed.

(** The setters replace a field and keep parent and key. *)
Lemma set_process_field t i p p' : table_ok t -> entry_at (processes t) i p ->
  lp_key p' = lp_key p -> lp_slot p' = lp_slot p -> lp_occupied p' = lp_occupied p ->
  lp_parent p' = lp_parent p -> lp_flags p' = lp_flags p -> process_static p' = true ->
  table_ok (update_process t i p').
Proof.
  intros Hok Hi Hk Hsl Ho Hpar Hfl Hst. destruct (process_at t i p Hok Hi) as (Hm & [_ Hp] & _).
  assert (parent_known p' = parent_known p) as Hpk by (unfold parent_known; by rewrite Hfl).
  apply (update_process_ok t i p p'); try done.
  - split; [done|]. unfold parent_ok in *. by rewrite Hpk, Hpar, Hk.
  - intros k. apply (ends_avoid (parent_of (process_map t)) _ (fun _ => False)); [|apply (ok_parents t Hok)|done].
    intros x _. rewrite parent_of_insert, Hpk, Hpar. unfold parent_of.
    destruct (decide (x = lp_key p)) as [->|]; [by rewrite Hm|done].
Qed.

Lemma static_change p p' : process_static p = true -> lp_key p' = lp_key p ->
  lp_reserved p' = lp_reserved p -> lp_flags p' = lp_flags p ->
  (lp_process_group p' = lp_process_group p \/ (0 <? lp_process_group p') = true) ->
  (lp_logical_dumpable p' = lp_logical_dumpable p \/ DumpableValid (lp_logical_dumpable p') = true) ->
  (lp_logical_ptracer p' = lp_logical_ptracer p \/ PidIdentityValid (lp_logical_ptracer p') = true) ->
  process_static p' = true.
Proof.
  unfold process_static. rewrite !andb_true_iff. intros Hs -> -> -> Hg Hd Ht.
  destruct Hg as [->|?], Hd as [->|?], Ht as [->|?]; tauto.
Qed.

Lemma SetLogicalProcessDumpable_ok t key d : table_ok t -> table_ok (SetLogicalProcessDumpable t key d).2.
Proof.
  intros Hok. unfold SetLogicalProcessDumpable. rewrite (ok_init t Hok). cbn [negb orb].
  destruct (DumpableValid d) eqn:Hd; [|done]. cbn [negb]. find_process t key Hok; [|done].
  destruct Hf as (p & Hi & _ & _ & [Hst _] & _). rewrite (list_lookup_total_correct _ _ _ (proj1 Hi)).
  apply (set_process_field t n p); try done. apply (static_change p); auto.
Qed.

Lemma SetLogicalProcessPtracer_ok t key d : table_ok t -> table_ok (SetLogicalProcessPtracer t key d).2.
Proof.
  intros Hok. unfold SetLogicalProcessPtracer. rewrite (ok_init t Hok). cbn [negb orb].
  destruct (PidIdentityValid d) eqn:Hd; [|done]. cbn [negb]. find_process t key Hok; [|done].
  destruct Hf as (p & Hi & _ & _ & [Hst _] & _). rewrite (list_lookup_total_correct _ _ _ (proj1 Hi)).
  apply (set_process_field t n p); try done. apply (static_change p); auto.
Qed.

Lemma SetLogicalProcessGroup_ok t key g : table_ok t -> table_ok (SetLogicalProcessGroup t key g).2.
Proof.
  intros Hok. unfold SetLogicalProcessGroup. rewrite (ok_init t Hok). cbn [negb orb].
  destruct (Z.leb_spec g 0) as [|Hg]; [done|]. find_process t key Hok; [|done].
  destruct Hf as (p & Hi & _ & _ & [Hst _] & _). rewrite (list_lookup_total_correct _ _ _ (proj1 Hi)).
  apply (set_process_field t n p); try done. apply (static_change p); auto. right. by apply Z.ltb_lt.
Qed.

(** The flag word of a valid record is 0 or 1. *)
Lemma process_flags p : process_static p = true ->
  unknown_bits (Z.land (lp_flags p) (not32 kLogicalProcessFlagParentKnown)) kLogicalProcessFlagParentKnown = false /\
  has (Z.land (lp_flags p) (not32 kLogicalProcessFlagParentKnown)) kLogicalProcessFlagParentKnown = false /\
  unknown_bits (Z.land (lp_flags p) (not32 kLogicalProcessFlagParentKnown) ||| kLogicalProcessFlagParentKnown)
    kLogicalProcessFlagParentKnown = false /\
  has (Z.land (lp_flags p) (not32 kLogicalProcessFlagParentKnown) ||| kLogicalProcessFlagParentKnown)
    kLogicalProcessFlagParentKnown = true.
Proof.
  unfold process_static. intros Hs. bool_hyps.
  match goal with Hf : unknown_bits (lp_flags p) _ = false |- _ => revert Hf end.
  unfold unknown_bits, has. intros Hf. apply negb_false_iff, Z.eqb_eq in Hf.
  assert (Z.land (lp_flags p) (not32 kLogicalProcessFlagParentKnown) = 0) as E.
  { change (not32 kLogicalProcessFlagParentKnown)
      with (Z.land (not64 kLogicalProcessFlagParentKnown) (Z.ones 32)).
    by rewrite Z.land_assoc, Hf. }
  rewrite E. by vm_compute.
Qed.

Lemma SetLogicalProcessParent_ok t key parent : table_ok t ->
  let '(error, t') := SetLogicalProcessParent t key parent in
  table_ok t' /\ (error <> 0 -> t' = t) /\
  (error = 0 -> forall k, parent_of (process_map t') k =
     if decide (k = key) then parent else parent_of (process_map t) k).
Proof.
  intros Hok. unfold SetLogicalProcessParent. rewrite (ok_init t Hok). cbn [negb orb].
  destruct (ProcessKeyValid key) eqn:Hkey; [|done]. cbn [negb].
  find_process t key Hok; [|done].
  destruct Hf as (p & Hi & Hk & Hm & [Hst Hp] & _). rewrite (list_lookup_total_correct _ _ _ (proj1 Hi)).
  pose proof (process_flags p Hst) as (Hu0 & Hh0 & Hu1 & Hh1).
  set (cleared := Z.land (lp_flags p) _) in *. cbv zeta.
  assert (forall q fl, process_static (with_process p q (lp_process_group p) (lp_logical_dumpable p)
      (lp_logical_ptracer p) fl) = negb (unknown_bits fl kLogicalProcessFlagParentKnown)) as Hstat.
  { intros q fl. revert Hst. unfold process_static. cbn. rewrite andb_true_iff. by intros [-> _]. }
  destruct parent as [q|].
  - destruct (ProcessKeyValid q) eqn:Hq; [|done]. cbn [negb].
    destruct (LogicalProcessKeysEqual key q || ParentChainContains t q key) eqn:Hloop; [done|].
    apply orb_false_iff in Hloop as [Hne Hloop].
    find_process t q Hok; [|done]. destruct Hf as (pq & _ & _ & Hmq & _).
    set (p' := with_process _ _ _ _ _ _).
    assert (parent_known p' = true) as Hpk by done.
    destruct (update_process_ok t n p p' Hok Hi) as [Hok' Hm']; try done.
    + split; [by unfold p'; rewrite Hstat, Hu1|]. unfold parent_ok. rewrite Hpk. split; [done|]. split; [|by eexists].
      cbn. rewrite Hk. intros ->. by rewrite same_process in Hne.
    + apply (ends_update (parent_of (process_map t)) _ (lp_key p) q); [| |apply (ok_parents t Hok)|].
      * intros x Hx. rewrite parent_of_insert. by rewrite decide_False.
      * rewrite parent_of_insert, decide_True, Hpk by done. done.
      * unfold ParentChainContains in Hloop. change (Z.to_nat kLogicalPtraceProcessCapacity) with 512%nat in Hloop.
        rewrite (parent_chain_spec t (ok_init t Hok) _ _ _ _ _ _ (ok_processes t Hok) Hq Hkey) in Hloop.
        apply chain_false in Hloop as [_ Hr]. by rewrite Hk.
    + split; [done|]. split; [done|]. intros _ k. rewrite Hm', parent_of_insert, Hk, Hpk. done.
  - set (p' := with_process _ _ _ _ _ _).
    assert (parent_known p' = false) as Hpk by done.
    destruct (update_process_ok t n p p' Hok Hi) as [Hok' Hm']; try done.
    + split; [by unfold p'; rewrite Hstat, Hu0|]. unfold parent_ok. by rewrite Hpk.
    + apply (ends_remove (parent_of (process_map t)) _ (lp_key p)); [| |apply (ok_parents t Hok)].
      * intros x Hx. rewrite parent_of_insert. by rewrite decide_False.
      * rewrite parent_of_insert, decide_True, Hpk by done. done.
    + split; [done|]. split; [done|]. intros _ k. rewrite Hm', parent_of_insert, Hk, Hpk. done.
Qed.

(** ** Fake TRACEME records *)

Lemma ClaimLogicalFakeTraceme_ok t task : table_ok t ->
  let '(error, t') := ClaimLogicalFakeTraceme t task in
  table_ok t' /\ (error <> 0 -> t' = t).
Proof.
  intros Hok. unfold ClaimLogicalFakeTraceme. rewrite (ok_init t Hok). cbn [negb orb].
  destruct (TaskKeyValid task) eqn:Hv; [|done]. cbn [negb].
  find_process t (LogicalProcessKeyForTask task) Hok; [|done].
  find_fake t task Hok; [done|]. destruct (_ =? _); [done|].
  pose proof (free_slot_spec _ _ _ _ (fake_traceme_free_hint t) (ok_fakes t Hok)) as Hfree.
  destruct (free_slot (fake_traceme_free_hint t) (fake_traceme t)) as [s|]; [|done].
  destruct Hfree as (Hs & r & Hr & Hu); [apply (hints_ok t Hok)|]. split; [|done].
  destruct Hf as (p & _ & _ & Hm & _).
  assert (slots_ok 512 (fun f => vacant_fake f = true) (fake_ok (live_in (process_map t)))
    (<[Z.to_nat s := Build_LogicalFakeTracemeRecord 1 s task]> (fake_traceme t)) (fake_traceme_count t + 1)) as HF'.
  { eapply (slots_ok_fill _ _ _ _ _ _ (ok_fakes t Hok) Hr Hu); [|done| |..].
    - simpl. lia.
    - split; [done|]. by eexists.
    - intros j q Hj. exact (proj1 (to_map_None _ _ _ (ok_fakes t Hok)) Hf0 j q Hj).
    - done. }
  pose proof (slots_ok_count _ _ HF'). pose proof (slots_ok_count _ _ (ok_fakes t Hok)).
  rewrite u32_small by lia. apply ok_bump, ok_set_fakes; [done| |done].
  apply (advance_hint_range s 512); lia.
Qed.

Lemma ClearLogicalFakeTraceme_ok t task : table_ok t ->
  let '(error, t') := ClearLogicalFakeTraceme t task in
  table_ok t' /\ (error <> 0 -> t' = t).
Proof.
  intros Hok. unfold ClearLogicalFakeTraceme. rewrite (ok_init t Hok). cbn [negb orb].
  destruct (TaskKeyValid task) eqn:Hv; [|done]. cbn [negb].
  find_fake t task Hok; [|done]. destruct Hf as (f & Hi & _). split; [|done].
  rewrite (list_lookup_total_correct _ _ _ (proj1 Hi)).
  destruct (entry_at_ok _ _ _ _ (ok_fakes t Hok) Hi) as (_ & _ & Hsl & Hlt). simpl in Hsl.
  assert (slots_ok 512 (fun f => vacant_fake f = true) (fake_ok (live_in (process_map t)))
    (<[n := ClearFakeTracemeRecord (lf_slot f)]> (fake_traceme t)) (fake_traceme_count t - 1)) as HF'.
  { by eapply (slots_ok_clear _ _ _ _ _ _ (ok_fakes t Hok) Hi). }
  pose proof (slots_ok_count _ _ HF'). pose proof (slots_ok_count _ _ (ok_fakes t Hok)).
  rewrite u32_small by lia. apply ok_bump, ok_set_fakes; [done|lia|done].
Qed.

(** ** Relations *)

Lemma relation_at t i r : table_ok t -> entry_at (relations t) i r ->
  relation_map t !! lr_tracee r = Some r /\ relation_ok (live_in (process_map t)) r /\
  lr_slot r = Z.of_nat i /\ (i < 512)%nat /\ typed_relation r.
Proof.
  intros Hok Hi. split; [apply (to_map_lookup _ _ _ _ (ok_relations t Hok)); by exists i|].
  destruct (entry_at_ok _ _ _ _ (ok_relations t Hok) Hi) as (? & ? & ? & ?).
  split; [done|]. split; [done|]. split; [done|].
  apply (Forall_elem_1 _ _ _ (ty_relation t (ok_typed t Hok))). by eapply list_elem_of_lookup_2, Hi.
Qed.

(** The checks of a relation that its events and state do not touch. *)
Definition relation_frame (r : LogicalPtraceRelation) : bool :=
  negb (lr_generation r =? 0) && TaskKeyValid (lr_tracee r) && TaskKeyValid (lr_tracer r) &&
  negb (tk_tgid (lr_tracee r) =? tk_tgid (lr_tracer r)) && AttachKindValid (lr_attach_kind r) &&
  WaitClassValid (lr_wait_class r) && (lr_reserved r =? 0).

Lemma relation_static_iff r : typed_relation r -> relation_static r = true <->
  relation_frame r = true /\ RelationStateValid (lr_state r) = true /\
  RelationInitialStateValid r = true /\ unknown_bits (lr_options r) kLogicalPtraceKnownOptionMask = false /\
  queue_ok r.
Proof.
  intros Hty. rewrite <- (relation_queue_valid_ok r Hty). unfold relation_static, relation_frame.
  rewrite !andb_true_iff, !negb_true_iff. tauto.
Qed.

Lemma tracer_of_insert (m : gmap LogicalTaskKey LogicalPtraceRelation) k r x :
  tracer_of (<[k := r]> m) x = if decide (x = k) then Some (lr_tracer r) else tracer_of m x.
Proof.
  unfold tracer_of. destruct (decide (x = k)) as [->|]; [by rewrite lookup_insert_eq|].
  by rewrite lookup_insert_ne.
Qed.

Lemma typed_insert t i r : table_ok t -> typed_relation r -> Forall typed_relation (<[i := r]> (relations t)).
Proof. intros Hok Hr. apply Forall_insert; [apply (ty_relation t (ok_typed t Hok))|done]. Qed.

Lemma add_relation_ok t s r0 r next_relation next_event : table_ok t -> 0 <= s < 512 ->
  relations t !! Z.to_nat s = Some r0 -> in_use r0 = false ->
  lr_slot r = s -> lr_occupied r = 1 -> relation_map t !! lr_tracee r = None ->
  typed_relation r -> relation_ok (live_in (process_map t)) r ->
  PtraceChainContains t (lr_tracer r) (lr_tracee r) = false -> next_relation <> 0 -> next_event <> 0 ->
  table_ok (add_relation t s next_relation next_event r) /\
  relation_map (add_relation t s next_relation next_event r) = <[lr_tracee r := r]> (relation_map t).
Proof.
  intros Hok Hs Hr0 Hu Hsl Hocc Hnew Hty Hr Hchain Hnr Hne. pose proof (ok_relations t Hok) as HR.
  assert (slots_ok 512 (fun r => vacant_relation r = true) (relation_ok (live_in (process_map t)))
    (<[Z.to_nat s := r]> (relations t)) (relation_count t + 1)) as HR'.
  { eapply (slots_ok_fill _ _ _ _ _ _ HR Hr0 Hu); [|done|done|..|done].
    - simpl. lia.
    - intros j q Hj. exact (proj1 (to_map_None _ _ _ HR) Hnew j q Hj). }
  pose proof (to_map_store _ _ _ _ _ _ HR HR' Hr0) as Hm. simpl in Hm.
  specialize (Hm ltac:(unfold in_use; simpl; by rewrite Hocc) ltac:(congruence)).
  split; [|done]. unfold add_relation. pose proof (slots_ok_count _ _ HR). pose proof (slots_ok_count _ _ HR').
  rewrite u32_small by lia. cbv zeta. apply ok_bump, ok_set_counters; [|done|done|].
  2: { pose proof (ok_init t Hok) as Hin. apply init_iff in Hin. tauto. }
  apply ok_set_relations; [done| |done| |by apply typed_insert].
  - apply (advance_hint_range s 512); lia.
  - rewrite Hm. unfold PtraceChainContains in Hchain.
    change (Z.to_nat kLogicalPtraceRelationCapacity) with 512%nat in Hchain.
    rewrite (ptrace_chain_spec t (ok_init t Hok) _ _ _ _ _ _ HR) in Hchain.
    apply chain_false in Hchain as [_ Hch].
    apply (ends_update (tracer_of (relation_map t)) _ (lr_tracee r) (lr_tracer r));
      [| |apply (ok_tracers t Hok)|done].
    + intros x Hx. rewrite tracer_of_insert. by rewrite decide_False.
    + rewrite tracer_of_insert. by rewrite decide_True.
Qed.

(** The identity of a relation: everything but its state, queue and options. *)
Definition same_relation (r r' : LogicalPtraceRelation) : Prop :=
  lr_occupied r' = lr_occupied r /\ lr_slot r' = lr_slot r /\ lr_generation r' = lr_generation r /\
  lr_tracee r' = lr_tracee r /\ lr_tracer r' = lr_tracer r /\ lr_attach_kind r' = lr_attach_kind r /\
  lr_wait_class r' = lr_wait_class r /\ lr_reserved r' = lr_reserved r.

Lemma same_relation_with r state head count options events :
  same_relation r (with_relation r state head count options events).
Proof. by repeat split. Qed.
#[local] Hint Resolve same_relation_with : hook.

Lemma replace_relation_ok t i r r' : table_ok t -> entry_at (relations t) i r -> same_relation r r' ->
  queue_ok r' -> RelationStateValid (lr_state r') = true -> RelationInitialStateValid r' = true ->
  unknown_bits (lr_options r') kLogicalPtraceKnownOptionMask = false ->
  table_ok (set_relations t (relation_count t) (relation_free_hint t) (<[i := r']> (relations t))) /\
  to_map (<[i := r']> (relations t)) = <[lr_tracee r := r']> (relation_map t).
Proof.
  intros Hok Hi Hsame Hq Hst Hinit Hopt. pose proof (ok_relations t Hok) as HR.
  destruct Hsame as (Ho & Hsl & Hg & Htee & Htr & Hak & Hwc & Hres).
  destruct (relation_at t i r Hok Hi) as (Hm & (Hs & Hl1 & Hl2) & _ & _ & Hty).
  assert (typed_relation r') as Hty' by (destruct Hq as ((? & ? & ?) & _); by split; [|lia]).
  assert (relation_ok (live_in (process_map t)) r') as Hr'.
  { split; [|by rewrite Htee, Htr]. apply relation_static_iff; [done|].
    apply relation_static_iff in Hs as [Hf _]; [|done]. split; [|done].
    unfold relation_frame in *. by rewrite Hg, Htee, Htr, Hak, Hwc, Hres. }
  assert (slots_ok 512 (fun r => vacant_relation r = true) (relation_ok (live_in (process_map t)))
    (<[i := r']> (relations t)) (relation_count t)) as HR'.
  { by eapply (slots_ok_update _ _ _ _ _ _ HR Hi). }
  assert (to_map (<[i := r']> (relations t)) = <[lr_tracee r := r']> (relation_map t)) as Hm'.
  { rewrite <- Htee. apply (to_map_store _ _ _ _ _ _ HR HR' (proj1 Hi)); [|done].
    destruct Hi as [_ Hu]. unfold in_use in *. simpl in *. by rewrite Ho. }
  split; [|done]. apply ok_set_relations; [done|apply (hints_ok t Hok)|done| |by apply typed_insert].
  rewrite Hm'. intros k. apply (ends_avoid (tracer_of (relation_map t)) _ (fun _ => False));
    [|apply (ok_tracers t Hok)|done].
  intros x _. rewrite tracer_of_insert, Htr. unfold tracer_of.
  destruct (decide (x = lr_tracee r)) as [->|]; [by rewrite Hm|done].
Qed.

Lemma update_relation_ok t i r r' : table_ok t -> entry_at (relations t) i r -> same_relation r r' ->
  queue_ok r' -> RelationStateValid (lr_state r') = true -> RelationInitialStateValid r' = true ->
  unknown_bits (lr_options r') kLogicalPtraceKnownOptionMask = false ->
  table_ok (update_relation t i r').
Proof. intros. apply ok_bump. by eapply replace_relation_ok. Qed.

Lemma EraseRelationAt_ok t i r : table_ok t -> entry_at (relations t) i r ->
  table_ok (EraseRelationAt t (lr_slot r)) /\
  relation_map (EraseRelationAt t (lr_slot r)) = delete (lr_tracee r) (relation_map t).
Proof.
  intros Hok Hi. pose proof (ok_relations t Hok) as HR.
  destruct (relation_at t i r Hok Hi) as (Hm & _ & Hsl & Hlt & _).
  assert (slots_ok 512 (fun r => vacant_relation r = true) (relation_ok (live_in (process_map t)))
    (<[i := ClearRelationRecord (lr_slot r)]> (relations t)) (relation_count t - 1)) as HR'.
  { by eapply (slots_ok_clear _ _ _ _ _ _ HR Hi). }
  pose proof (to_map_clear _ _ _ _ _ _ HR HR' (proj1 Hi) (proj2 Hi) eq_refl) as Hm'. simpl in Hm'.
  unfold EraseRelationAt. rewrite Hsl in *. rewrite Nat2Z.id. split; [|done].
  pose proof (slots_ok_count _ _ HR). pose proof (slots_ok_count _ _ HR'). rewrite u32_small by lia.
  apply ok_bump, ok_set_relations; [done|lia|done| |].
  - rewrite Hm'. apply (ends_remove (tracer_of (relation_map t)) _ (lr_tracee r)); [| |apply (ok_tracers t Hok)].
    + intros k Hk. unfold tracer_of. by rewrite lookup_delete_ne.
    + unfold tracer_of. by rewrite lookup_delete_eq.
  - apply typed_insert; [done|]. by split; [|vm_compute].
Qed.

(** What CreateLogicalPtraceRelation does, with the check it failed. *)
Lemma CreateLogicalPtraceRelation_ok t tracee tracer kind class options : table_ok t ->
  let '(error, t', slot) := CreateLogicalPtraceRelation t tracee tracer kind class options in
  table_ok t' /\ (error <> 0 -> t' = t) /\
  (error = 0 -> relation_map t !! tracee = None /\
     ~ rtc (link (tracer_of (relation_map t))) tracer tracee /\
     exists r, relation_map t' = <[tracee := r]> (relation_map t) /\ lr_tracee r = tracee /\
       lr_tracer r = tracer /\ lr_attach_kind r = kind /\ lr_state r = initial_state kind /\
       lr_slot r = slot /\ pending r = []).
Proof.
  intros Hok. unfold CreateLogicalPtraceRelation. rewrite (ok_init t Hok). cbn [negb orb].
  destruct (TaskKeyValid tracee) eqn:Htee; [|done]. destruct (TaskKeyValid tracer) eqn:Htr; [|done].
  destruct (AttachKindValid kind) eqn:Hk; [|done]. destruct (WaitClassValid class) eqn:Hwc; [|done].
  destruct (unknown_bits options kLogicalPtraceKnownOptionMask) eqn:Hopt; [done|]. cbn [negb orb].
  destruct (tk_tgid tracee =? tk_tgid tracer) eqn:Hg; [done|].
  find_process t (LogicalProcessKeyForTask tracee) Hok; [|done].
  find_process t (LogicalProcessKeyForTask tracer) Hok; [|done].
  cbv zeta. destruct (_ && _) eqn:Hpar; [done|].
  destruct (PtraceChainContains t tracer tracee) eqn:Hchain; [done|].
  find_relation t tracee Hok; [done|]. destruct (relation_count t =? _); [done|].
  pose proof (free_slot_spec _ _ _ _ (relation_free_hint t) (ok_relations t Hok)) as Hfree.
  destruct (free_slot (relation_free_hint t) (relations t)) as [s|]; [|done].
  destruct Hfree as (Hs & r0 & Hr0 & Hu); [apply (hints_ok t Hok)|].
  pose proof (AllocateSequence_spec (next_relation_generation t)) as [Hgen Hnext].
  destruct (AllocateSequence (next_relation_generation t)) as [generation next]. simpl in Hgen, Hnext.
  set (r := Build_LogicalPtraceRelation _ _ _ _ _ _ _ _ _ _ _ _ _).
  destruct Hf as (p1 & _ & _ & Hm1 & _), Hf0 as (p2 & _ & _ & Hm2 & _).
  assert (typed_relation r) as Hty by (by split; [|vm_compute]).
  assert (lr_state r <> kExitZombie /\ RelationStateValid (lr_state r) = true /\ RelationInitialStateValid r = true)
    as (Hz & Hsv & Hiv).
  { unfold r, RelationInitialStateValid, initial_state. cbn. revert Hk. unfold AttachKindValid.
    destruct (kind =? kAttach) eqn:E1; [done|]. destruct (kind =? kSeize) eqn:E2; done. }
  destruct (add_relation_ok t s r0 r next (next_event_sequence t) Hok Hs Hr0 Hu) as [Hok' Hm']; try done.
  - split; [|by split; eexists]. apply relation_static_iff; [done|]. split.
    + unfold relation_frame. cbn. by rewrite Htee, Htr, Hk, Hwc, Hg, (proj2 (Z.eqb_neq _ _) Hgen).
    + split; [done|]. split; [done|]. split; [done|]. split; [done|]. split; [|done].
      change (Some false = Some (lr_state r =? kExitZombie)). by rewrite (proj2 (Z.eqb_neq _ _) Hz).
  - pose proof (ok_init t Hok) as Hin. apply init_iff in Hin. tauto.
  - split; [done|]. split; [done|]. intros _. split; [done|]. split; [|by exists r].
    unfold PtraceChainContains in Hchain.
    rewrite (ptrace_chain_spec t (ok_init t Hok) _ _ _ _ _ _ (ok_relations t Hok)) in Hchain.
    by apply chain_false in Hchain as [_ ?].
Qed.

Lemma CreateInheritedLogicalPtraceRelation_ok t parent child class stop : table_ok t ->
  let '(error, t', slot, sequence) := CreateInheritedLogicalPtraceRelation t parent child class stop in
  table_ok t' /\ (error <> 0 -> t' = t /\ slot = kInvalidLogicalPtraceSlot /\ sequence = 0) /\
  (error = 0 -> exists pr r, relation_map t !! parent = Some pr /\ relation_map t !! child = None /\
     relation_map t' = <[child := r]> (relation_map t) /\ lr_tracee r = child /\
     lr_tracer r = lr_tracer pr /\ lr_attach_kind r = lr_attach_kind pr /\
     lr_options r = lr_options pr /\ lr_state r = kStopped /\ lr_slot r = slot /\
     pending r = [stored_event stop sequence]).
Proof.
  intros Hok. unfold CreateInheritedLogicalPtraceRelation. rewrite (ok_init t Hok). cbn [negb orb].
  destruct (TaskKeyValid parent); [|done].
  destruct (TaskKeyValid child) eqn:Hchild; [|done]. destruct (WaitClassValid class) eqn:Hwc; [|done].
  destruct (EventIsExit stop) eqn:Hexit; [done|]. destruct (ev_kind stop =? kContinued); [done|].
  destruct (event_argument_bad stop) eqn:Hbad; [done|]. cbn [negb orb].
  find_relation t parent Hok; [|done]. destruct Hf as (pr & Hi & Hpk & Hmp & [Hst Hlive] & _).
  rewrite (list_lookup_total_correct _ _ _ (proj1 Hi)). cbv zeta.
  destruct (relation_at t n pr Hok Hi) as (_ & _ & _ & _ & Htyp).
  apply relation_static_iff in Hst as (Hfr & _ & _ & Hopt & _); [|done].
  unfold relation_frame in Hfr. rewrite !andb_true_iff in Hfr. destruct Hfr as ((((((_ & _) & Htr) & _) & Hk) & _) & _).
  destruct (lr_state pr =? kExitZombie) eqn:Hzs; [done|].
  destruct (tk_tgid child =? tk_tgid (lr_tracer pr)) eqn:Hg; [done|].
  find_process t (LogicalProcessKeyForTask child) Hok; [|done].
  destruct Hf as (p1 & _ & _ & Hm1 & _).
  destruct (FindLogicalProcess t (LogicalProcessKeyForTask (lr_tracer pr))); [|done].
  destruct (PtraceChainContains t (lr_tracer pr) child) eqn:Hchain; [done|].
  find_relation t child Hok; [done|]. destruct (relation_count t =? _); [done|].
  pose proof (free_slot_spec _ _ _ _ (relation_free_hint t) (ok_relations t Hok)) as Hfree.
  destruct (free_slot (relation_free_hint t) (relations t)) as [s|]; [|done].
  destruct Hfree as (Hs & r0 & Hr0 & Hu); [apply (hints_ok t Hok)|].
  pose proof (AllocateSequence_spec (next_relation_generation t)) as [Hgen Hnext].
  destruct (AllocateSequence (next_relation_generation t)) as [generation next].
  pose proof (AllocateSequence_spec (next_event_sequence t)) as [Hseq Hnexte].
  destruct (AllocateSequence (next_event_sequence t)) as [sequence next_e]. simpl in Hgen, Hnext, Hseq, Hnexte.
  set (r := Build_LogicalPtraceRelation _ _ _ _ _ _ _ _ _ _ _ _ _).
  assert (typed_relation r) as Hty by (by split; [|vm_compute]).
  assert (pending r = [stored_event stop sequence]) as Hp by done.
  destruct (add_relation_ok t s r0 r next next_e Hok Hs Hr0 Hu) as [Hok' Hm']; try done.
  - split; [|split; [by eexists|apply Hlive]]. apply relation_static_iff; [done|]. split.
    + unfold relation_frame. cbn. by rewrite Hchild, Htr, Hk, Hwc, Hg, (proj2 (Z.eqb_neq _ _) Hgen).
    + split; [done|]. split; [done|]. split; [done|]. split; [done|]. split; [|done].
      rewrite Hp. cbn [events_valid]. rewrite stored_event_valid by done. simpl.
      change (EventIsExit (stored_event stop sequence)) with (EventIsExit stop). by rewrite Hexit.
  - split; [done|]. split; [done|]. intros _. by exists pr, r.
Qed.

Lemma EraseLogicalPtraceRelation_ok t tracee discard : table_ok t ->
  let '(error, t') := EraseLogicalPtraceRelation t tracee discard in
  table_ok t' /\ (error <> 0 -> t' = t) /\
  (error = 0 -> relation_map t' = delete tracee (relation_map t)).
Proof.
  intros Hok. unfold EraseLogicalPtraceRelation. destruct (negb _ || negb _); [done|].
  find_relation t tracee Hok; [|done]. destruct Hf as (r & Hi & Hk & _).
  rewrite (list_lookup_total_correct _ _ _ (proj1 Hi)). destruct (_ && _); [done|].
  destruct (EraseRelationAt_ok t n r Hok Hi) as [? Hm]. rewrite Hk in Hm. done.
Qed.

(** What a found relation satisfies. *)
Lemma found_relation t i r : table_ok t -> entry_at (relations t) i r ->
  queue_ok r /\ RelationStateValid (lr_state r) = true /\ RelationInitialStateValid r = true /\
  unknown_bits (lr_options r) kLogicalPtraceKnownOptionMask = false.
Proof.
  intros Hok Hi. destruct (relation_at t i r Hok Hi) as (_ & (Hs & _) & _ & _ & Hty).
  apply relation_static_iff in Hs as (_ & ? & ? & ? & ?); done.
Qed.

Lemma count_positive r : queue_ok r -> (lr_event_count r =? 0) = false -> 0 < lr_event_count r.
Proof. intros ((_ & _ & ?) & _) ?%Z.eqb_neq. lia. Qed.

Lemma SetLogicalPtraceOptions_ok t tracee options : table_ok t ->
  let '(error, t') := SetLogicalPtraceOptions t tracee options in table_ok t' /\ (error <> 0 -> t' = t).
Proof.
  intros Hok. unfold SetLogicalPtraceOptions. destruct (negb _ || _) eqn:Hb; [done|].
  apply orb_false_iff in Hb as [_ Hopt].
  find_relation t tracee Hok; [|done]. destruct Hf as (r & Hi & _).
  rewrite (list_lookup_total_correct _ _ _ (proj1 Hi)). destruct (found_relation t n r Hok Hi) as (Hq & ? & ? & ?).
  cbv zeta. destruct (negb _); [done|]. split; [|done].
  by apply (update_relation_ok t n r); [| |apply same_relation_with|..].
Qed.

Lemma ResumeLogicalPtraceRelation_ok t tracee mode : table_ok t ->
  let '(error, t') := ResumeLogicalPtraceRelation t tracee mode in table_ok t' /\ (error <> 0 -> t' = t).
Proof.
  intros Hok. unfold ResumeLogicalPtraceRelation. destruct (negb _ || _); [done|].
  find_relation t tracee Hok; [|done]. destruct Hf as (r & Hi & _).
  rewrite (list_lookup_total_correct _ _ _ (proj1 Hi)). destruct (found_relation t n r Hok Hi) as (Hq & ? & ? & ?).
  cbv zeta. destruct (lr_state r =? kStopped) eqn:Hs; [|by destruct (lr_state r =? kExitZombie)].
  destruct (lr_event_count r =? 0) eqn:Hc; [|done]. apply Z.eqb_eq in Hs, Hc. split; [|done].
  apply (update_relation_ok t n r); [done|done|apply same_relation_with|apply with_state_ok; try done|..|done];
    unfold with_state, RelationInitialStateValid; cbn; by repeat case_match.
Qed.

Lemma ListenLogicalPtraceRelation_ok t tracee : table_ok t ->
  let '(error, t') := ListenLogicalPtraceRelation t tracee in table_ok t' /\ (error <> 0 -> t' = t).
Proof.
  intros Hok. unfold ListenLogicalPtraceRelation. destruct (negb _); [done|].
  find_relation t tracee Hok; [|done]. destruct Hf as (r & Hi & _).
  rewrite (list_lookup_total_correct _ _ _ (proj1 Hi)). destruct (found_relation t n r Hok Hi) as (Hq & ? & ? & ?).
  cbv zeta. destruct (lr_attach_kind r =? kSeize) eqn:Hk; [|done].
  destruct (lr_state r =? kStopped) eqn:Hs; [|by destruct (lr_state r =? kExitZombie)].
  destruct (lr_event_count r =? 0) eqn:Hc; [|by destruct (lr_state r =? kExitZombie)].
  apply Z.eqb_eq in Hs, Hc. split; [|done].
  by apply (update_relation_ok t n r); [| |apply same_relation_with|apply with_state_ok|..].
Qed.

Lemma QueueLogicalPtraceEvent_ok t tracee event : table_ok t ->
  let '(error, t', sequence) := QueueLogicalPtraceEvent t tracee event in
  table_ok t' /\ (error <> 0 -> t' = t /\ sequence = 0) /\
  (error = 0 -> exists r, relation_map t !! tracee = Some r /\ lr_state r <> kExitZombie /\
     lr_event_count r < 4 /\ queue_wf r /\
     relation_map t' = <[tracee := enqueue r (stored_event event sequence)]> (relation_map t) /\
     sequence = (AllocateSequence (next_event_sequence t)).1 /\
     next_event_sequence t' = (AllocateSequence (next_event_sequence t)).2).
Proof.
  intros Hok. unfold QueueLogicalPtraceEvent. destruct (negb _ || _) eqn:Hb; [done|].
  apply orb_false_iff in Hb as [_ Hbad].
  find_relation t tracee Hok; [|done]. destruct Hf as (r & Hi & Hk & Hm & _).
  rewrite (list_lookup_total_correct _ _ _ (proj1 Hi)). destruct (found_relation t n r Hok Hi) as (Hq & Hst & Hin & Hopt).
  cbv zeta. destruct (Z.eqb_spec (lr_state r) kExitZombie) as [|Hz]; [done|].
  destruct (Z.eqb_spec (lr_event_count r) kLogicalPtraceEventQueueCapacity) as [|Hc]; [done|].
  assert (lr_event_count r < 4) as Hlt.
  { destruct Hq as ((_ & _ & ?) & _). unfold kLogicalPtraceEventQueueCapacity in Hc. lia. }
  pose proof (AllocateSequence_spec (next_event_sequence t)) as [Hseq Hnext].
  destruct (AllocateSequence (next_event_sequence t)) as [sequence next] eqn:Hal. simpl in Hseq, Hnext.
  change (with_relation r _ _ _ _ _) with (enqueue r (stored_event event sequence)).
  pose proof (stored_event_valid event sequence Hbad Hseq) as Hev.
  destruct (replace_relation_ok t n r (enqueue r (stored_event event sequence)) Hok Hi) as [Hok' Hm'];
    [apply same_relation_with|by apply enqueue_ok|..|done|].
  1-2: unfold enqueue, RelationInitialStateValid; cbn; by destruct (EventIsExit _).
  split; [|split; [done|]].
  - apply ok_bump, ok_set_counters; [done|..|done|];
      pose proof (ok_init t Hok) as Hini; apply init_iff in Hini; tauto.
  - intros _. exists r. split; [done|]. split; [done|]. split; [done|]. split; [apply Hq|].
    rewrite Hk in Hm'. split; [exact Hm'|done].
Qed.

Lemma set_head_event_ok t i r e : table_ok t -> entry_at (relations t) i r ->
  (lr_event_count r =? 0) = false -> EventValid e = true -> EventIsExit e = EventIsExit (head_event r) ->
  table_ok (update_relation t i (with_head_event r e)).
Proof.
  intros Hok Hi Hc He Hx. destruct (found_relation t i r Hok Hi) as (Hq & ? & ? & ?).
  apply (update_relation_ok t i r); [done|done|apply same_relation_with| |done..].
  apply set_head_ok; [done|by apply count_positive|done|done].
Qed.

Lemma SetLogicalPtraceEventRegisters_ok t tracee regs valid number : table_ok t ->
  let '(error, t') := SetLogicalPtraceEventRegisters t tracee regs valid number in
  table_ok t' /\ (error <> 0 -> t' = t).
Proof.
  intros Hok. unfold SetLogicalPtraceEventRegisters. destruct (negb _); [done|].
  find_relation t tracee Hok; [|done]. destruct Hf as (r & Hi & _).
  rewrite (list_lookup_total_correct _ _ _ (proj1 Hi)). destruct (found_relation t n r Hok Hi) as (Hq & _).
  cbv zeta. destruct (_ || _) eqn:Hb; [done|]. apply orb_false_iff in Hb as [Hc _]. split; [|done].
  apply set_head_event_ok; [done|done|done| |by destruct valid].
  apply registers_event_valid, head_event_valid; [done|by apply count_positive].
Qed.

Lemma SetLogicalPtraceEventSiginfo_ok t tracee info : table_ok t ->
  let '(error, t') := SetLogicalPtraceEventSiginfo t tracee info in
  table_ok t' /\ (error <> 0 -> t' = t).
Proof.
  intros Hok. unfold SetLogicalPtraceEventSiginfo. destruct (negb _); [done|].
  find_relation t tracee Hok; [|done]. destruct Hf as (r & Hi & _).
  rewrite (list_lookup_total_correct _ _ _ (proj1 Hi)). destruct (found_relation t n r Hok Hi) as (Hq & _).
  cbv zeta. destruct (_ || _) eqn:Hb; [done|]. apply orb_false_iff in Hb as [Hc _]. split; [|done].
  apply set_head_event_ok; [done|done|done| |done].
  apply siginfo_event_valid, head_event_valid; [done|by apply count_positive].
Qed.

(** Popping the head event, and erasing the relation of an exit event. *)
Lemma pop_relation_ok t i r : table_ok t -> entry_at (relations t) i r -> 0 < lr_event_count r ->
  EventIsExit (head_event r) = false ->
  table_ok (set_relations t (relation_count t) (relation_free_hint t) (<[i := PopRelationEvent r]> (relations t))) /\
  to_map (<[i := PopRelationEvent r]> (relations t)) = <[lr_tracee r := PopRelationEvent r]> (relation_map t).
Proof.
  intros Hok Hi Hc Hx. destruct (found_relation t i r Hok Hi) as (Hq & ? & ? & ?).
  apply replace_relation_ok; [done|done|apply same_relation_with|by apply pop_ok|done..].
Qed.

(** Popping the only event and erasing the relation is erasing it. *)
Lemma EraseRelationAt_popped t i r : table_ok t -> entry_at (relations t) i r ->
  EraseRelationAt (set_relations t (relation_count t) (relation_free_hint t)
    (<[i := PopRelationEvent r]> (relations t))) (lr_slot r) = EraseRelationAt t (lr_slot r).
Proof.
  intros Hok Hi. destruct (relation_at t i r Hok Hi) as (_ & _ & Hsl & _).
  unfold EraseRelationAt, set_relations. cbn. rewrite Hsl, Nat2Z.id. by rewrite list_insert_insert_eq.
Qed.

Lemma ConsumeLogicalPtraceEvent_ok t tracee preserve : table_ok t ->
  let '(error, t', event) := ConsumeLogicalPtraceEvent t tracee preserve in
  table_ok t' /\ (error <> 0 -> t' = t) /\ error <> EPROTO /\
  (error = 0 -> exists r, relation_map t !! tracee = Some r /\ 0 < lr_event_count r /\ queue_wf r /\
     event = Some (head_event r) /\
     relation_map t' = (if preserve then relation_map t
       else if EventIsExit (head_event r) then delete tracee (relation_map t)
       else <[tracee := PopRelationEvent r]> (relation_map t))).
Proof.
  intros Hok. unfold ConsumeLogicalPtraceEvent. destruct (negb _); [done|].
  find_relation t tracee Hok; [|done]. destruct Hf as (r & Hi & Hk & Hm & _).
  rewrite (list_lookup_total_correct _ _ _ (proj1 Hi)). destruct (found_relation t n r Hok Hi) as (Hq & _).
  cbv zeta. destruct (lr_event_count r =? 0) eqn:Hc; [done|]. pose proof (count_positive r Hq Hc) as Hpos.
  destruct preserve.
  { split; [done|]. split; [done|]. split; [done|]. intros _. exists r. by repeat split; try apply Hq. }
  destruct (EventIsExit (head_event r)) eqn:Hx.
  - rewrite (exit_head_alone r Hq Hpos Hx). cbn [negb andb].
    assert ((lr_event_count (PopRelationEvent r) =? 0) = true) as ->.
    { unfold PopRelationEvent. cbn. by rewrite (exit_head_alone r Hq Hpos Hx). }
    cbn [negb]. change (lr_slot (PopRelationEvent r)) with (lr_slot r).
    change (EraseRelationAt (update_relation t n (PopRelationEvent r)) (lr_slot r))
      with (bump (EraseRelationAt (set_relations t (relation_count t) (relation_free_hint t)
              (<[n := PopRelationEvent r]> (relations t))) (lr_slot r))).
    rewrite (EraseRelationAt_popped t n r Hok Hi).
    destruct (EraseRelationAt_ok t n r Hok Hi) as [Hok' Hm']. rewrite Hk in Hm'.
    split; [by apply ok_bump|]. split; [done|]. split; [done|]. intros _. exists r. rewrite Hx.
    split; [done|]. split; [done|]. split; [apply Hq|]. split; [done|exact Hm'].
  - cbn [andb]. destruct (pop_relation_ok t n r Hok Hi Hpos Hx) as [Hok' Hm']. rewrite Hk in Hm'.
    split; [by apply ok_bump|]. split; [done|]. split; [done|]. intros _. exists r. rewrite Hx.
    split; [done|]. split; [done|]. split; [apply Hq|]. split; [done|exact Hm'].
Qed.

(** ** Waits *)

Lemma BeginLogicalWait_ok t request : table_ok t ->
  let '(error, t', slot) := BeginLogicalWait t request in
  table_ok t' /\ (error <> 0 -> t' = t) /\
  (error = 0 -> exists w, wait_map t' = <[rq_waiter request := w]> (wait_map t) /\
     wait_map t !! rq_waiter request = None /\ lw_request w = request).
Proof.
  intros Hok. unfold BeginLogicalWait. destruct (negb _ || _) eqn:Hb; [done|].
  apply orb_false_iff in Hb as [_ Hreq%negb_false_iff].
  find_process t (LogicalProcessKeyForTask (rq_waiter request)) Hok; [|done].
  find_wait t (rq_waiter request) Hok; [done|]. destruct (_ =? _); [done|].
  pose proof (free_slot_spec _ _ _ _ (wait_free_hint t) (ok_waits t Hok)) as Hfree.
  destruct (free_slot (wait_free_hint t) (waits t)) as [s|]; [|done].
  destruct Hfree as (Hs & w0 & Hw0 & Hu); [apply (hints_ok t Hok)|].
  pose proof (AllocateSequence_spec (next_wait_generation t)) as [Hgen Hnext].
  destruct (AllocateSequence (next_wait_generation t)) as [generation next]. simpl in Hgen, Hnext.
  destruct Hf as (p & _ & _ & Hm & _). set (w := Build_LogicalWaitRecord 1 s generation request).
  assert (slots_ok 512 (fun w => vacant_wait w = true) (wait_ok (live_in (process_map t)))
    (<[Z.to_nat s := w]> (waits t)) (wait_count t + 1)) as HW'.
  { eapply (slots_ok_fill _ _ _ _ _ _ (ok_waits t Hok) Hw0 Hu); [|done|..|done].
    - simpl. lia.
    - split; [done|]. split; [done|]. by eexists.
    - intros j q Hj. exact (proj1 (to_map_None _ _ _ (ok_waits t Hok)) Hf0 j q Hj). }
  pose proof (to_map_store _ _ _ _ _ _ (ok_waits t Hok) HW' Hw0 eq_refl) as Hm'.
  pose proof (slots_ok_count _ _ HW'). pose proof (slots_ok_count _ _ (ok_waits t Hok)).
  split; [|split; [done|]].
  - rewrite u32_small by lia. apply ok_bump, ok_set_counters; [|..|done];
      [|pose proof (ok_init t Hok) as Hin; apply init_iff in Hin; tauto..].
    apply ok_set_waits; [done| |done]. apply (advance_hint_range s 512); lia.
  - intros _. exists w. split; [|done]. apply Hm'. congruence.
Qed.

Lemma EraseWaitAt_ok t i w : table_ok t -> entry_at (waits t) i w ->
  table_ok (EraseWaitAt t (lw_slot w)) /\
  wait_map (EraseWaitAt t (lw_slot w)) = delete (rq_waiter (lw_request w)) (wait_map t).
Proof.
  intros Hok Hi. pose proof (ok_waits t Hok) as HW.
  destruct (entry_at_ok _ _ _ _ HW Hi) as (_ & _ & Hsl & Hlt). simpl in Hsl.
  assert (slots_ok 512 (fun w => vacant_wait w = true) (wait_ok (live_in (process_map t)))
    (<[i := ClearWaitRecord (lw_slot w)]> (waits t)) (wait_count t - 1)) as HW'.
  { by eapply (slots_ok_clear _ _ _ _ _ _ HW Hi). }
  pose proof (to_map_clear _ _ _ _ _ _ HW HW' (proj1 Hi) (proj2 Hi) eq_refl) as Hm'. simpl in Hm'.
  unfold EraseWaitAt. rewrite Hsl in *. rewrite Nat2Z.id. split; [|done].
  pose proof (slots_ok_count _ _ HW). pose proof (slots_ok_count _ _ HW'). rewrite u32_small by lia.
  apply ok_bump, ok_set_waits; [done|lia|done].
Qed.

Lemma EndLogicalWait_ok t waiter : table_ok t ->
  let '(error, t') := EndLogicalWait t waiter in table_ok t' /\ (error <> 0 -> t' = t).
Proof.
  intros Hok. unfold EndLogicalWait. destruct (negb _ || _); [done|].
  find_wait t waiter Hok; [|done]. destruct Hf as (w & Hi & _).
  rewrite (list_lookup_total_correct _ _ _ (proj1 Hi)). split; [|done]. by eapply EraseWaitAt_ok.
Qed.

(** The entry a wait match refers to. *)
Lemma relation_in_use t s r : table_ok t -> 0 <= s < 512 -> relations t !!! Z.to_nat s = r ->
  (lr_occupied r =? 0) = false -> entry_at (relations t) (Z.to_nat s) r.
Proof.
  intros Hok Hs <- Ho. split; [|unfold in_use; simpl; by rewrite Ho].
  apply list_lookup_lookup_total_lt. rewrite (so_length _ _ _ _ _ (ok_relations t Hok)). lia.
Qed.

(** ConsumeLogicalWaitEvent removes the wait; the event stays (WNOWAIT), is
    popped, or takes its relation with it. *)
Lemma ConsumeLogicalWaitEvent_ok t waiter m : table_ok t -> 0 <= wm_relation_slot m ->
  let '(error, t', event) := ConsumeLogicalWaitEvent t waiter m in
  table_ok t' /\ (error <> 0 -> t' = t) /\ error <> EPROTO /\
  (error = 0 -> exists w r, wait_map t !! waiter = Some w /\
     entry_at (relations t) (Z.to_nat (wm_relation_slot m)) r /\
     0 < lr_event_count r /\ queue_wf r /\ event = Some (head_event r) /\
     wait_map t' = delete waiter (wait_map t) /\
     relation_map t' = (if negb (rq_nowait (lw_request w) =? 0) then relation_map t
       else if EventIsExit (head_event r) then delete (lr_tracee r) (relation_map t)
       else <[lr_tracee r := PopRelationEvent r]> (relation_map t))).
Proof.
  intros Hok Hs0. unfold ConsumeLogicalWaitEvent.
  destruct (negb _ || _ || _ || _) eqn:Hb; [done|].
  apply orb_false_iff in Hb as [Hb _]. apply orb_false_iff in Hb as [Hb _].
  apply orb_false_iff in Hb as [_ Hs%Z.leb_gt]. change kLogicalPtraceRelationCapacity with 512 in Hs.
  find_wait t waiter Hok; [|done]. destruct Hf as (w & Hwi & Hwk & Hwm & _).
  rewrite (list_lookup_total_correct _ _ _ (proj1 Hwi)). cbv zeta.
  remember (relations t !!! Z.to_nat (wm_relation_slot m)) as r eqn:Hr. symmetry in Hr.
  destruct (_ || _ || _ || _ || _ || _ || _ || _) eqn:Hstale; [done|].
  rewrite !orb_false_iff in Hstale. destruct Hstale as (((((((Ho & _) & Hc) & _) & _) & _) & _) & _).
  pose proof (relation_in_use t _ r Hok (conj Hs0 Hs) Hr Ho) as Hi.
  destruct (found_relation t _ r Hok Hi) as (Hq & _). pose proof (count_positive r Hq Hc) as Hpos.
  destruct (negb (rq_nowait (lw_request w) =? 0)) eqn:Hnw.
  { destruct (EraseWaitAt_ok t n w Hok Hwi) as [Hok' Hm']. rewrite Hwk in Hm'.
    split; [done|]. split; [done|]. split; [done|]. intros _. exists w, r. rewrite Hnw.
    by repeat split; try apply Hq; try apply Hi. }
  destruct (EventIsExit (head_event r)) eqn:Hx.
  - rewrite (exit_head_alone r Hq Hpos Hx). cbn [negb andb Z.eqb Pos.eqb].
    rewrite (EraseRelationAt_popped t _ r Hok Hi).
    destruct (EraseRelationAt_ok t _ r Hok Hi) as [Hok1 Hm1].
    destruct (EraseWaitAt_ok _ n w Hok1 Hwi) as [Hok2 Hm2]. rewrite Hwk in Hm2.
    split; [done|]. split; [done|]. split; [done|]. intros _. exists w, r. rewrite Hnw, Hx.
    by repeat split; try apply Hq; try apply Hi.
  - cbn [andb]. destruct (pop_relation_ok t _ r Hok Hi Hpos Hx) as [Hok1%ok_bump Hm1].
    destruct (EraseWaitAt_ok _ n w Hok1 Hwi) as [Hok2 Hm2]. rewrite Hwk in Hm2.
    split; [done|]. split; [done|]. split; [done|]. intros _. exists w, r. rewrite Hnw, Hx.
    by repeat split; try apply Hq; try apply Hi.
Qed.

(** ** Rekeying a task *)

Definition rename (old new k : LogicalTaskKey) : LogicalTaskKey := if decide (k = old) then new else k.

(** Writing through the pointer a Find returned changes the records with the key. *)
Lemma alter_found {A K} `{SlotRecord A K, !Inhabited A, !EqDecision K} vacant entry
    (arr : list A) count (f : A -> A) k :
  (forall r, entry r -> sr_key_ok (sr_key r) = true) -> slots_ok 512 vacant entry arr count ->
  sr_key_ok k = true ->
  alter_at f (find_slot k arr) arr =
  (fun r => if in_use r && bool_decide (sr_key r = k) then f r else r) <$> arr.
Proof.
  intros Hkey Hs Hk. apply list_eq. intros j. rewrite list_lookup_fmap.
  destruct (find_slot k arr) as [i|] eqn:Hf; simpl.
  - apply (find_slot_Some Hkey arr count k i Hs Hk) in Hf as (r & [Hi Hu] & Hr).
    rewrite (list_lookup_total_correct _ _ _ Hi). destruct (decide (j = i)) as [->|Hne].
    + rewrite list_lookup_insert_eq by (by eapply lookup_lt_Some). rewrite Hi. simpl.
      by rewrite Hu, bool_decide_eq_true_2.
    + rewrite list_lookup_insert_ne by done. destruct (arr !! j) as [x|] eqn:Hj; [|done]. simpl.
      destruct (in_use x) eqn:Hux; [|done]. rewrite bool_decide_eq_false_2; [done|].
      intros Hkx. apply Hne. eapply (so_unique _ _ _ _ _ Hs); eauto. congruence.
  - pose proof (proj1 (find_slot_None Hkey arr count k Hs Hk) Hf) as Hn.
    destruct (arr !! j) as [x|] eqn:Hj; [|done]. simpl.
    destruct (in_use x) eqn:Hux; [|done]. rewrite bool_decide_eq_false_2; [done|]. by apply (Hn j).
Qed.

(** Renaming the keys of a slot array, when old and new are not both in it. *)
Lemma slots_ok_rename {A} `{!Inhabited A, SlotRecord A LogicalTaskKey} vacant (entry : A -> Prop)
    (arr : list A) count (f : A -> A) old new :
  slots_ok 512 vacant entry arr count ->
  (forall r, sr_slot (f r) = sr_slot r /\ sr_occupied (f r) = sr_occupied r) ->
  (forall r, in_use r = false -> f r = r) ->
  (forall r, in_use r = true -> sr_key (f r) = rename old new (sr_key r)) ->
  (forall i r, entry_at arr i r -> entry r -> entry (f r)) ->
  (to_map arr !! old = None \/ to_map arr !! new = None) ->
  slots_ok 512 vacant entry (f <$> arr) count.
Proof.
  intros Hs Hf Hfree Hk He Hnone. apply (slots_ok_fmap entry f arr count Hs); try done.
  intros i j r r' Hi Hj. rewrite (Hk r), (Hk r') by (apply Hi || apply Hj). unfold rename.
  pose proof (proj2 (to_map_lookup _ _ _ r Hs) (ex_intro _ i (conj Hi eq_refl))) as Hr.
  pose proof (proj2 (to_map_lookup _ _ _ r' Hs) (ex_intro _ j (conj Hj eq_refl))) as Hr'.
  destruct (decide (sr_key r = old)) as [E|], (decide (sr_key r' = old)) as [E'|]; try congruence; intros Hkk;
    rewrite ?E, ?E', <- ?Hkk in *; destruct Hnone; congruence.
Qed.

Section Rekey.
Context (old new : LogicalTaskKey).
Hypothesis Hne : old <> new.
Hypothesis Hnew : TaskKeyValid new = true.
Hypothesis Hprocess : LogicalProcessKeyForTask old = LogicalProcessKeyForTask new.

Lemma rename_process k : LogicalProcessKeyForTask (rename old new k) = LogicalProcessKeyForTask k.
Proof. unfold rename. by destruct (decide (k = old)) as [->|]. Qed.
Lemma rename_tgid k : tk_tgid (rename old new k) = tk_tgid k.
Proof. pose proof (rename_process k) as E. by injection E. Qed.
Lemma rename_valid k : TaskKeyValid k = true -> TaskKeyValid (rename old new k) = true.
Proof. unfold rename. by destruct (decide (k = old)). Qed.

Definition rename_relation (r : LogicalPtraceRelation) : LogicalPtraceRelation :=
  if in_use r then
    Build_LogicalPtraceRelation (lr_occupied r) (lr_slot r) (lr_generation r) (rename old new (lr_tracee r))
      (rename old new (lr_tracer r)) (lr_attach_kind r) (lr_state r) (lr_wait_class r) (lr_event_head r)
      (lr_event_count r) (lr_reserved r) (lr_options r) (lr_events r)
  else r.

Lemma rename_relation_ok live r : relation_ok live r -> relation_ok live (rename_relation r).
Proof.
  intros (Hs & H1 & H2). unfold rename_relation. destruct (in_use r); [|done].
  split; [|cbn; by rewrite !rename_process]. revert Hs. unfold relation_static. cbn.
  rewrite !andb_true_iff, !rename_tgid. intros Hs. repeat split; try apply Hs; try by apply rename_valid, Hs.
  destruct Hs as [_ Hs]. rewrite <- Hs. unfold relation_queue_valid. by rewrite !validate_events_list.
Qed.

(** Writing the found tracee and then every tracer renames the relations. *)
Lemma rekey_relations_rename arr live count :
  slots_ok 512 (fun r => vacant_relation r = true) (relation_ok live) arr count -> TaskKeyValid old = true ->
  rekey_tracer old new <$> alter_at (fun r => rekey_tracee r new) (find_slot old arr) arr =
  rename_relation <$> arr.
Proof.
  intros Hs Ho. rewrite (alter_found _ _ arr count _ old (relation_ok_key live) Hs Ho), <- list_fmap_compose.
  apply list_fmap_ext. intros i r Hi. simpl. unfold rename_relation.
  destruct (in_use r) eqn:Hu; simpl.
  - unfold rename, rekey_tracer. pose proof (LogicalTaskKeysEqual_spec (lr_tracer r) old) as Ht.
    destruct (decide (lr_tracee r = old)) as [E|E];
      [rewrite bool_decide_eq_true_2 by done|rewrite bool_decide_eq_false_2 by done];
      unfold rekey_tracee, in_use in *; cbn in *; rewrite Hu; cbn;
      (destruct (decide (lr_tracer r = old)) as [E2|E2];
        [rewrite (proj2 Ht E2)
        |destruct (LogicalTaskKeysEqual (lr_tracer r) old); [by destruct E2; apply Ht|]]);
      by destruct r.
  - unfold rekey_tracer. by rewrite Hu.
Qed.

Lemma rename_relation_key r : in_use r = true -> lr_tracee (rename_relation r) = rename old new (lr_tracee r).
Proof. intros Hu. unfold rename_relation. by rewrite Hu. Qed.

Lemma rename_relation_slot r : lr_slot (rename_relation r) = lr_slot r /\
  lr_occupied (rename_relation r) = lr_occupied r.
Proof. unfold rename_relation. by destruct (in_use r). Qed.

(** The tracer links of the renamed array. *)
Lemma rename_tracer_of arr live count x y :
  slots_ok 512 (fun r => vacant_relation r = true) (relation_ok live) arr count ->
  slots_ok 512 (fun r => vacant_relation r = true) (relation_ok live) (rename_relation <$> arr) count ->
  tracer_of (to_map (rename_relation <$> arr)) x = Some y <->
  exists k z, tracer_of (to_map arr) k = Some z /\ rename old new k = x /\ rename old new z = y.
Proof.
  intros Hs Hs'. unfold tracer_of. rewrite fmap_Some. split.
  - intros (r' & Hr' & ->). apply (to_map_lookup _ _ _ _ Hs') in Hr' as (i & [Hi Hu] & <-).
    apply list_lookup_fmap_Some in Hi as (r & -> & Hi).
    assert (in_use r = true) as Hur.
    { unfold in_use in *. simpl in *. by rewrite (proj2 (rename_relation_slot r)) in Hu. }
    exists (lr_tracee r), (lr_tracer r).
    rewrite (proj2 (to_map_lookup _ _ _ r Hs)); [|by exists i]. split; [done|].
    split; [symmetry; by apply rename_relation_key|]. unfold rename_relation. by rewrite Hur.
  - intros (k & z & Hk & <- & <-). apply fmap_Some in Hk as (r & Hr & ->).
    apply (to_map_lookup _ _ _ _ Hs) in Hr as (i & [Hi Hu] & <-).
    exists (rename_relation r). split; [|unfold rename_relation; by rewrite Hu].
    apply (to_map_lookup _ _ _ _ Hs'). exists i. split; [|by apply rename_relation_key].
    split; [by rewrite list_lookup_fmap, Hi|].
    unfold in_use in *. simpl in *. by rewrite (proj2 (rename_relation_slot r)).
Qed.

Lemma rename_tracers_end arr live count :
  slots_ok 512 (fun r => vacant_relation r = true) (relation_ok live) arr count ->
  slots_ok 512 (fun r => vacant_relation r = true) (relation_ok live) (rename_relation <$> arr) count ->
  (to_map arr !! old = None \/ to_map arr !! new = None) ->
  (forall k, ends (tracer_of (to_map arr)) k) ->
  ~ rtc (link (tracer_of (to_map arr))) old new -> ~ rtc (link (tracer_of (to_map arr))) new old ->
  forall k, ends (tracer_of (to_map (rename_relation <$> arr))) k.
Proof.
  intros Hs Hs' Hnone He Hon Hno.
  pose proof (fun x y => rename_tracer_of arr live count x y Hs Hs') as Hspec.
  assert (tracer_of (to_map arr) old = None \/ tracer_of (to_map arr) new = None) as Hnone'.
  { unfold tracer_of. destruct Hnone as [-> | ->]; [by left|by right]. }
  apply (ends_rename (tracer_of (to_map arr)) _ old new); try done.
  - intros k Hk1 Hk2. apply option_eq. intros y. rewrite Hspec, fmap_Some. split.
    + intros (k' & z & Hz & Hr & <-). exists z. split; [|done]. unfold rename in Hr.
      destruct (decide (k' = old)); congruence.
    + intros (z & Hz & ->). exists k, z. split; [done|]. split; [|done]. unfold rename. by rewrite decide_False.
  - apply eq_None_not_Some. intros [y (k & z & _ & Hr & _)%Hspec]. unfold rename in Hr.
    destruct (decide (k = old)); congruence.
  - apply option_eq. intros y. rewrite Hspec, fmap_Some. split.
    + intros (k & z & Hz & Hr & <-). exists z. split; [|done]. unfold rename in Hr.
      destruct (decide (k = old)) as [->|]; [by rewrite Hz|]. subst k.
      destruct Hnone' as [->|?]; [done|congruence].
    + intros (z & Hz & ->). destruct (tracer_of (to_map arr) old) as [c|] eqn:E.
      * injection Hz as ->. exists old, z. split; [done|]. split; [|done]. unfold rename. by rewrite decide_True.
      * exists new, z. split; [done|]. split; [|done]. unfold rename. by rewrite decide_False by congruence.
Qed.
End Rekey.

(** ** Chains of tracers *)

(** [a] is traced by [b]. *)
Definition traced_by (t : LogicalPtraceTable) (a b : LogicalTaskKey) : Prop :=
  exists i, FindLogicalPtraceRelation t a = Some i /\ lr_tracer (relations t !!! i) = b.

(** No chain of tracers leads from one identity to the other. *)
Definition rekey_unlinked (t : LogicalPtraceTable) (old new : LogicalTaskKey) : Prop :=
  ~ tc (traced_by t) old new /\ ~ tc (traced_by t) new old.

Lemma traced_by_slots t vacant live count a b : IsLogicalPtraceTableInitialized t = true ->
  slots_ok 512 vacant (relation_ok live) (relations t) count ->
  traced_by t a b <-> link (tracer_of (relation_map t)) a b.
Proof.
  intros Hi Hs0. pose proof (find_relation_spec t Hi _ _ _ a Hs0) as Hs.
  unfold traced_by, link, tracer_of. destruct (FindLogicalPtraceRelation t a) as [i|].
  - destruct Hs as (r & [Hr _] & _ & -> & _). simpl. split; [intros (? & [= <-] & <-)|intros [= <-]; exists i];
      by rewrite (list_lookup_total_correct _ _ _ Hr).
  - rewrite Hs. split; [by intros (? & ? & _)|done].
Qed.

Lemma traced_by_link t a b : table_ok t -> traced_by t a b <-> link (tracer_of (relation_map t)) a b.
Proof. intros Hok. eapply traced_by_slots; [apply Hok|apply (ok_relations t Hok)]. Qed.

Lemma traced_by_chain t a b : table_ok t -> tc (traced_by t) a b <-> tc (link (tracer_of (relation_map t))) a b.
Proof.
  intros Hok. split; apply tc_congruence with (f := id); intros x y; by apply traced_by_link.
Qed.

Lemma unlinked_rtc t old new : table_ok t -> old <> new -> rekey_unlinked t old new ->
  ~ rtc (link (tracer_of (relation_map t))) old new /\ ~ rtc (link (tracer_of (relation_map t))) new old.
Proof.
  intros Hok Hne [Hon Hno].
  split; intros [?|Hc]%rtc_tc; [done|by apply Hon, traced_by_chain|done|by apply Hno, traced_by_chain].
Qed.

(** The code's own walk finds no chain when there is none to be found. *)
Lemma walk_unlinked t old new : table_ok t -> PtraceChainContains t old new = false ->
  PtraceChainContains t new old = false -> rekey_unlinked t old new.
Proof.
  intros Hok. unfold PtraceChainContains.
  rewrite !(ptrace_chain_spec t (ok_init t Hok) _ _ _ _ _ _ (ok_relations t Hok)).
  intros [_ Hon]%chain_false [_ Hno]%chain_false.
  split; intros Hc%traced_by_chain; try done; by apply tc_rtc in Hc.
Qed.

Lemma both_None {A} (o1 o2 : option A) : both o1 o2 = false -> o1 = None \/ o2 = None.
Proof. destruct o1, o2; simpl; auto. done. Qed.

(** The relations stay one per tracee. *)
Lemma renamed_slots t old new : table_ok t -> TaskKeyValid new = true ->
  LogicalProcessKeyForTask old = LogicalProcessKeyForTask new ->
  (relation_map t !! old = None \/ relation_map t !! new = None) ->
  slots_ok 512 (fun r => vacant_relation r = true) (relation_ok (live_in (process_map t)))
    (rename_relation old new <$> relations t) (relation_count t).
Proof.
  intros Hok Hnew Hproc Hr. apply (slots_ok_rename _ _ _ _ _ old new (ok_relations t Hok)); [| | | |done].
  - apply rename_relation_slot.
  - intros r Hu. unfold rename_relation. by rewrite Hu.
  - apply rename_relation_key.
  - intros i r _. by apply rename_relation_ok.
Qed.

(** The table after the renaming. *)
Lemma rekeyed_ok t old new : table_ok t -> TaskKeyValid old = true -> TaskKeyValid new = true ->
  old <> new -> LogicalProcessKeyForTask old = LogicalProcessKeyForTask new -> rekey_unlinked t old new ->
  (fake_map t !! old = None \/ fake_map t !! new = None) ->
  (wait_map t !! old = None \/ wait_map t !! new = None) ->
  (relation_map t !! old = None \/ relation_map t !! new = None) ->
  let fakes := alter_at (fun r => Build_LogicalFakeTracemeRecord (lf_occupied r) (lf_slot r) new)
    (FindFakeTraceme t old) (fake_traceme t) in
  let waits' := alter_at (fun w => rekey_waiter w new) (FindLogicalWait t old) (waits t) in
  let rels := alter_at (fun r => rekey_tracee r new) (FindLogicalPtraceRelation t old) (relations t) in
  let t1 := set_fake_traceme t (fake_traceme_count t) (fake_traceme_free_hint t) fakes in
  let t2 := set_waits t1 (wait_count t) (wait_free_hint t) waits' in
  table_ok (bump (set_relations t2 (relation_count t) (relation_free_hint t) (rekey_tracer old new <$> rels))).
Proof.
  intros Hok Hold Hnew Hne Hproc Hun Hf Hw Hr fakes waits' rels t1 t2.
  assert (FindFakeTraceme t old = find_slot old (fake_traceme t)) as Ef.
  { unfold FindFakeTraceme. by rewrite (ok_init t Hok), Hold. }
  assert (FindLogicalWait t old = find_slot old (waits t)) as Ew.
  { unfold FindLogicalWait. by rewrite (ok_init t Hok), Hold. }
  assert (FindLogicalPtraceRelation t old = find_slot old (relations t)) as Er.
  { unfold FindLogicalPtraceRelation. by rewrite (ok_init t Hok), Hold. }
  assert (table_ok t1) as H1.
  { apply ok_set_fakes; [done|apply (hints_ok t Hok)|]. unfold fakes.
    rewrite Ef, (alter_found _ _ _ _ _ old (fake_ok_key _) (ok_fakes t Hok) Hold).
    apply (slots_ok_rename _ _ _ _ _ old new (ok_fakes t Hok)); [| | | |done].
    - intros r. by destruct (_ && _).
    - intros r Hu. by rewrite Hu.
    - intros r Hu. rewrite Hu. unfold rename. simpl.
      case_bool_decide; [by rewrite decide_True|by rewrite decide_False].
    - intros i r [_ Hu] [Hv Hl]. rewrite Hu. simpl. case_bool_decide as E; [|by split].
      simpl in E. split; simpl; [done|]. by rewrite <- Hproc, <- E. }
  assert (table_ok t2) as H2.
  { apply ok_set_waits; [done|apply (hints_ok t Hok)|]. unfold waits'.
    rewrite Ew, (alter_found _ _ _ _ _ old (wait_ok_key _) (ok_waits t Hok) Hold).
    apply (slots_ok_rename _ _ _ _ _ old new (ok_waits t Hok)); [| | | |done].
    - intros r. by destruct (_ && _).
    - intros r Hu. by rewrite Hu.
    - intros r Hu. rewrite Hu. unfold rename. simpl.
      case_bool_decide; [by rewrite decide_True|by rewrite decide_False].
    - intros i r [_ Hu] (Hg & Hv & Hl). rewrite Hu. simpl. case_bool_decide as E; [|by split].
      simpl in E. split; [done|]. simpl. rewrite <- Hproc, <- E. split; [|done].
      revert Hv. unfold WaitRequestValid, rekey_waiter. cbn. by rewrite Hnew, E, Hold. }
  assert (rekey_tracer old new <$> rels = rename_relation old new <$> relations t) as Erel.
  { unfold rels. rewrite Er. by apply (rekey_relations_rename old new _ _ _ (ok_relations t Hok)). }
  pose proof (renamed_slots t old new Hok Hnew Hproc Hr) as HR.
  apply ok_bump. rewrite Erel. apply (ok_set_relations t2); [done|apply (hints_ok t Hok)|exact HR| |].
  - destruct (unlinked_rtc t old new Hok Hne Hun) as [Hon Hno].
    eapply (rename_tracers_end old new Hne _ _ _ (ok_relations t Hok) HR Hr (ok_tracers t Hok) Hon Hno).
  - apply Forall_fmap. apply (Forall_impl _ _ _ (ty_relation t (ok_typed t Hok))).
    intros r Hty. simpl. unfold rename_relation. by destruct (in_use r).
Qed.

(** The cases of the call: an error with the table as it was, nothing to do,
    or the renamed table. *)
Variant rekey_cases (t : LogicalPtraceTable) (old new : LogicalTaskKey) : Z * LogicalPtraceTable -> Prop :=
  | rekey_refused error : error <> 0 -> rekey_cases t old new (error, t)
  | rekey_nothing : old = new -> rekey_cases t old new (0, t)
  | rekey_done :
      TaskKeyValid old = true -> TaskKeyValid new = true -> old <> new ->
      LogicalProcessKeyForTask old = LogicalProcessKeyForTask new ->
      (fake_map t !! old = None \/ fake_map t !! new = None) ->
      (wait_map t !! old = None \/ wait_map t !! new = None) ->
      (relation_map t !! old = None \/ relation_map t !! new = None) ->
      let fakes := alter_at (fun r => Build_LogicalFakeTracemeRecord (lf_occupied r) (lf_slot r) new)
        (FindFakeTraceme t old) (fake_traceme t) in
      let waits' := alter_at (fun w => rekey_waiter w new) (FindLogicalWait t old) (waits t) in
      let rels := alter_at (fun r => rekey_tracee r new) (FindLogicalPtraceRelation t old) (relations t) in
      let t1 := set_fake_traceme t (fake_traceme_count t) (fake_traceme_free_hint t) fakes in
      let t2 := set_waits t1 (wait_count t) (wait_free_hint t) waits' in
      rekey_cases t old new
        (0, bump (set_relations t2 (relation_count t) (relation_free_hint t) (rekey_tracer old new <$> rels))).

Lemma RekeyLogicalPtraceTask_cases t old new : table_ok t ->
  rekey_cases t old new (RekeyLogicalPtraceTask t old new).
Proof.
  intros Hok. unfold RekeyLogicalPtraceTask. rewrite (ok_init t Hok). cbn [negb orb].
  destruct (TaskKeyValid old) eqn:Hold; [|by constructor]. destruct (TaskKeyValid new) eqn:Hnew; [|by constructor].
  cbn [negb orb]. destruct (LogicalTaskKeysEqual old new) eqn:Heq.
  { apply rekey_nothing. by apply LogicalTaskKeysEqual_spec. }
  assert (old <> new) as Hne.
  { intros ->. by rewrite (proj2 (LogicalTaskKeysEqual_spec new new) eq_refl) in Heq. }
  destruct (negb _ || negb _) eqn:Hxdev; [by constructor|].
  assert (LogicalProcessKeyForTask old = LogicalProcessKeyForTask new) as Hproc.
  { unfold LogicalProcessKeyForTask. bool_hyps. f_equal; lia. }
  destruct (match FindLogicalProcess t _ with Some _ => _ | None => _ end); [by constructor|]. cbv zeta.
  destruct (both (FindFakeTraceme t old) _) eqn:Hbf; [by constructor|].
  destruct (both (FindLogicalWait t old) _) eqn:Hbw; [by constructor|].
  destruct (both (FindLogicalPtraceRelation t old) _) eqn:Hbr; [by constructor|].
  destruct (match FindLogicalPtraceRelation t old with Some _ => _ | None => _ end); [by constructor|].
  destruct (rekey_scan _ _ _ _) as [[]|]; [|by constructor..]. apply rekey_done; try done.
  - apply both_None in Hbf as [E|E]; [left|right];
      [pose proof (find_fake_spec t (ok_init t Hok) _ _ _ old (ok_fakes t Hok)) as Hs
      |pose proof (find_fake_spec t (ok_init t Hok) _ _ _ new (ok_fakes t Hok)) as Hs]; by rewrite E in Hs.
  - apply both_None in Hbw as [E|E]; [left|right];
      [pose proof (find_wait_spec t (ok_init t Hok) _ _ _ old (ok_waits t Hok)) as Hs
      |pose proof (find_wait_spec t (ok_init t Hok) _ _ _ new (ok_waits t Hok)) as Hs]; by rewrite E in Hs.
  - apply both_None in Hbr as [E|E]; [left|right];
      [pose proof (find_relation_spec t (ok_init t Hok) _ _ _ old (ok_relations t Hok)) as Hs
      |pose proof (find_relation_spec t (ok_init t Hok) _ _ _ new (ok_relations t Hok)) as Hs]; by rewrite E in Hs.
Qed.

(** A renaming that goes through is safe between unlinked identities; one that
    is refused is safe between any. *)
Definition rekey_safe (t : LogicalPtraceTable) (old new : LogicalTaskKey) : Prop :=
  (RekeyLogicalPtraceTask t old new).1 = 0 -> old = new \/ rekey_unlinked t old new.

Lemma RekeyLogicalPtraceTask_ok t old new : table_ok t -> rekey_safe t old new ->
  let '(error, t') := RekeyLogicalPtraceTask t old new in table_ok t' /\ (error <> 0 -> t' = t).
Proof.
  unfold rekey_safe. intros Hok.
  destruct (RekeyLogicalPtraceTask_cases t old new Hok); cbn [fst]; intros Hsafe; [done..|]. split; [|done].
  destruct (Hsafe eq_refl); [done|]. by apply rekeyed_ok.
Qed.

(** ** Renaming an identity linked to the new one *)

Lemma length_alter_at {A} `{!Inhabited A} (f : A -> A) i arr : length (alter_at f i arr) = length arr.
Proof. destruct i; [apply length_insert|done]. Qed.

Section Linked.
Context (t t' : LogicalPtraceTable) (old new : LogicalTaskKey).
Hypothesis Hok : table_ok t.
Hypothesis Hne : old <> new.
Hypothesis Hcall : RekeyLogicalPtraceTask t old new = (0, t').

(** The relations after a renaming that goes through. *)
Lemma rekeyed_relations :
  IsLogicalPtraceTableInitialized t' = true /\ relations t' = rename_relation old new <$> relations t /\
  slots_ok 512 (fun r => vacant_relation r = true) (relation_ok (live_in (process_map t)))
    (rename_relation old new <$> relations t) (relation_count t).
Proof using Hok Hne Hcall.
  pose proof (RekeyLogicalPtraceTask_cases t old new Hok) as Hc. rewrite Hcall in Hc.
  inversion Hc as [? ? Heq| |Hold Hnew _ Hproc _ _ Hr]; [done|done|]. split; [exact (ok_init t Hok)|].
  split; [|by apply renamed_slots]. assert (FindLogicalPtraceRelation t old = find_slot old (relations t)) as Er.
  { unfold FindLogicalPtraceRelation. by rewrite (ok_init t Hok), Hold. }
  subst t' rels. cbn [relations bump set_relations]. rewrite Er.
  by apply (rekey_relations_rename old new _ _ _ (ok_relations t Hok)).
Qed.

(** A link between two identities becomes one between their new names. *)
Lemma rekeyed_chain a b : tc (traced_by t) a b -> tc (traced_by t') (rename old new a) (rename old new b).
Proof using Hok Hne Hcall.
  destruct rekeyed_relations as (Hi & Hr & Hs). apply tc_congruence. intros x y Ht%traced_by_link; [|done].
  rewrite <- Hr in Hs. apply (traced_by_slots t' _ _ _ _ _ Hi Hs). unfold link, relation_map in *. rewrite Hr in *.
  apply (rename_tracer_of old new _ _ _ _ _ (ok_relations t Hok) Hs). by exists x, y.
Qed.

(** The new identity then traces itself when a chain linked the two. *)
Lemma rekeyed_linked : tc (traced_by t) old new \/ tc (traced_by t) new old -> tc (traced_by t') new new.
Proof using Hok Hne Hcall.
  assert (rename old new old = new /\ rename old new new = new) as [Ho Hn].
  { unfold rename. by rewrite decide_True, decide_False. }
  intros [Hc|Hc]; apply rekeyed_chain in Hc; by rewrite Ho, Hn in Hc.
Qed.

Lemma rekeyed_unlinked : table_ok t' -> rekey_unlinked t old new.
Proof using Hok Hne Hcall.
  intros Hok'. assert (~ tc (traced_by t') new new) as Hn.
  { intros Hc%traced_by_chain; [|done]. by apply (ends_no_cycle _ new (ok_tracers t' Hok' new)). }
  split; intros Hc; apply Hn, rekeyed_linked; auto.
Qed.

Lemma rekeyed_typed : typed_table t'.
Proof using Hok Hne Hcall.
  destruct rekeyed_relations as (_ & Hrel & _). destruct (ok_typed t Hok) as [? ? ? ? ? Hty].
  pose proof (RekeyLogicalPtraceTask_cases t old new Hok) as Hc. rewrite Hcall in Hc.
  inversion Hc as [? ? Heq| |]; [done|done|]. subst t'. split; try done.
  - rewrite Hrel. by rewrite length_fmap.
  - etransitivity; [apply length_alter_at|done].
  - etransitivity; [apply length_alter_at|done].
  - rewrite Hrel. apply Forall_fmap. apply (Forall_impl _ _ _ Hty).
    intros r Hr. simpl. unfold rename_relation. by destruct (in_use r).
Qed.
End Linked.
