(* ===== verification/LogicalPtraceSafety.v ===== *)
(** * Safety of the logical ptrace table

    The life of a table as a step relation over all its operations, and what
    holds in every reachable state: the table validates, failed operations
    change nothing, nobody is its own ancestor or tracer. *)

From S2P Require Import Prelude SlotArray Chain LogicalPtrace LogicalPtraceOps LogicalPtraceInv.
From S2P Require Import LogicalPtraceQueue LogicalPtracePreserve.
From stdpp Require Import list gmap relations.
#[local] Open Scope Z_scope.

(** One call of an operation: the table, the errno value, the table after. A
    rekeying that is refused is admitted with any arguments, one that goes
    through when no chain of tracers connects the two identities. *)
Inductive ptrace_call (t : LogicalPtraceTable) : Z -> LogicalPtraceTable -> Prop :=
  | call_insert_process key parent group dumpable ptracer :
      let r := InsertLogicalProcess t key parent group dumpable ptracer in ptrace_call t r.1.1 r.1.2
  | call_inherit_process child parent group :
      let r := InheritLogicalProcess t child parent group in ptrace_call t r.1.1 r.1.2
  | call_erase_process key : let r := EraseLogicalProcess t key in ptrace_call t r.1 r.2
  | call_set_dumpable key d : let r := SetLogicalProcessDumpable t key d in ptrace_call t r.1 r.2
  | call_set_ptracer key id : let r := SetLogicalProcessPtracer t key id in ptrace_call t r.1 r.2
  | call_set_group key g : let r := SetLogicalProcessGroup t key g in ptrace_call t r.1 r.2
  | call_set_parent key p : let r := SetLogicalProcessParent t key p in ptrace_call t r.1 r.2
  | call_claim_fake task : let r := ClaimLogicalFakeTraceme t task in ptrace_call t r.1 r.2
  | call_clear_fake task : let r := ClearLogicalFakeTraceme t task in ptrace_call t r.1 r.2
  | call_create tracee tracer kind class options :
      let r := CreateLogicalPtraceRelation t tracee tracer kind class options in ptrace_call t r.1.1 r.1.2
  | call_inherit parent child class stop :
      let r := CreateInheritedLogicalPtraceRelation t parent child class stop in
      ptrace_call t r.1.1.1 r.1.1.2
  | call_erase_relation tracee discard :
      let r := EraseLogicalPtraceRelation t tracee discard in ptrace_call t r.1 r.2
  | call_set_options tracee options : let r := SetLogicalPtraceOptions t tracee options in ptrace_call t r.1 r.2
  | call_resume tracee mode : let r := ResumeLogicalPtraceRelation t tracee mode in ptrace_call t r.1 r.2
  | call_listen tracee : let r := ListenLogicalPtraceRelation t tracee in ptrace_call t r.1 r.2
  | call_queue tracee event : let r := QueueLogicalPtraceEvent t tracee event in ptrace_call t r.1.1 r.1.2
  | call_set_registers tracee regs valid number :
      let r := SetLogicalPtraceEventRegisters t tracee regs valid number in ptrace_call t r.1 r.2
  | call_set_siginfo tracee info : let r := SetLogicalPtraceEventSiginfo t tracee info in ptrace_call t r.1 r.2
  | call_consume tracee preserve :
      let r := ConsumeLogicalPtraceEvent t tracee preserve in ptrace_call t r.1.1 r.1.2
  | call_begin_wait request : let r := BeginLogicalWait t request in ptrace_call t r.1.1 r.1.2
  | call_end_wait waiter : let r := EndLogicalWait t waiter in ptrace_call t r.1 r.2
  | call_consume_wait waiter m : 0 <= wm_relation_slot m ->
      let r := ConsumeLogicalWaitEvent t waiter m in ptrace_call t r.1.1 r.1.2
  | call_rekey old new : rekey_safe t old new ->
      let r := RekeyLogicalPtraceTask t old new in ptrace_call t r.1 r.2.

Definition ptrace_step (t t' : LogicalPtraceTable) : Prop := exists error, ptrace_call t error t'.

Lemma setter_ok (t : LogicalPtraceTable) (r : Z * LogicalPtraceTable) :
  (let '(error, t') := r in table_ok t' /\ (error <> 0 -> t' = t)) ->
  table_ok r.2 /\ (r.1 <> 0 -> r.2 = t).
Proof. by destruct r. Qed.

Lemma SetLogicalProcessDumpable_atomic t key d :
  (SetLogicalProcessDumpable t key d).1 <> 0 -> (SetLogicalProcessDumpable t key d).2 = t.
Proof. unfold SetLogicalProcessDumpable. destruct (_ || _); [done|]. by destruct (FindLogicalProcess t key). Qed.
Lemma SetLogicalProcessPtracer_atomic t key d :
  (SetLogicalProcessPtracer t key d).1 <> 0 -> (SetLogicalProcessPtracer t key d).2 = t.
Proof. unfold SetLogicalProcessPtracer. destruct (_ || _); [done|]. by destruct (FindLogicalProcess t key). Qed.
Lemma SetLogicalProcessGroup_atomic t key d :
  (SetLogicalProcessGroup t key d).1 <> 0 -> (SetLogicalProcessGroup t key d).2 = t.
Proof. unfold SetLogicalProcessGroup. destruct (_ || _); [done|]. by destruct (FindLogicalProcess t key). Qed.

Lemma InheritLogicalProcess_atomic t child parent group : table_ok t ->
  (InheritLogicalProcess t child parent group).1.1 <> 0 ->
  (InheritLogicalProcess t child parent group).1.2 = t.
Proof.
  intros Hok. unfold InheritLogicalProcess. destruct (negb _); [done|].
  destruct (FindLogicalProcess t parent) as [i|]; [|done].
  pose proof (InsertLogicalProcess_ok t child (Some parent) group
    (lp_logical_dumpable (processes t !!! i)) (lp_logical_ptracer (processes t !!! i)) Hok) as Hins.
  destruct (InsertLogicalProcess _ _ _ _ _ _) as [[e t'] s]. apply Hins.
Qed.

(** Each operation keeps the invariant, and a failed one changes nothing. *)
Lemma ptrace_call_ok t error t' : table_ok t -> ptrace_call t error t' ->
  table_ok t' /\ (error <> 0 -> t' = t).
Proof.
  intros Hok Hcall. destruct Hcall; subst r.
  - pose proof (InsertLogicalProcess_ok t key parent group dumpable ptracer Hok) as Hc.
    destruct (InsertLogicalProcess _ _ _ _ _ _) as [[e t'] s]. tauto.
  - split; [by apply InheritLogicalProcess_ok|by apply InheritLogicalProcess_atomic].
  - pose proof (EraseLogicalProcess_ok t key Hok) as Hc. destruct (EraseLogicalProcess _ _). tauto.
  - split; [by apply SetLogicalProcessDumpable_ok|by apply SetLogicalProcessDumpable_atomic].
  - split; [by apply SetLogicalProcessPtracer_ok|by apply SetLogicalProcessPtracer_atomic].
  - split; [by apply SetLogicalProcessGroup_ok|by apply SetLogicalProcessGroup_atomic].
  - pose proof (SetLogicalProcessParent_ok t key p Hok) as Hc. destruct (SetLogicalProcessParent _ _ _). tauto.
  - by apply setter_ok, ClaimLogicalFakeTraceme_ok.
  - by apply setter_ok, ClearLogicalFakeTraceme_ok.
  - pose proof (CreateLogicalPtraceRelation_ok t tracee tracer kind class options Hok) as Hc.
    destruct (CreateLogicalPtraceRelation _ _ _ _ _ _) as [[e t'] s]. tauto.
  - pose proof (CreateInheritedLogicalPtraceRelation_ok t parent child class stop Hok) as Hc.
    destruct (CreateInheritedLogicalPtraceRelation _ _ _ _ _) as [[[e t'] s] q]. simpl. tauto.
  - pose proof (EraseLogicalPtraceRelation_ok t tracee discard Hok) as Hc.
    destruct (EraseLogicalPtraceRelation _ _ _). tauto.
  - by apply setter_ok, SetLogicalPtraceOptions_ok.
  - by apply setter_ok, ResumeLogicalPtraceRelation_ok.
  - by apply setter_ok, ListenLogicalPtraceRelation_ok.
  - pose proof (QueueLogicalPtraceEvent_ok t tracee event Hok) as Hc.
    destruct (QueueLogicalPtraceEvent _ _ _) as [[e t'] s]. simpl. tauto.
  - by apply setter_ok, SetLogicalPtraceEventRegisters_ok.
  - by apply setter_ok, SetLogicalPtraceEventSiginfo_ok.
  - pose proof (ConsumeLogicalPtraceEvent_ok t tracee preserve Hok) as Hc.
    destruct (ConsumeLogicalPtraceEvent _ _ _) as [[e t'] s]. tauto.
  - pose proof (BeginLogicalWait_ok t request Hok) as Hc. destruct (BeginLogicalWait _ _) as [[e t'] s]. tauto.
  - by apply setter_ok, EndLogicalWait_ok.
  - pose proof (ConsumeLogicalWaitEvent_ok t waiter m Hok ltac:(assumption)) as Hc.
    destruct (ConsumeLogicalWaitEvent _ _ _) as [[e t'] s]. tauto.
  - by apply setter_ok, RekeyLogicalPtraceTask_ok.
Qed.

Lemma InitLogicalPtraceTable_typed : typed_table InitLogicalPtraceTable.
Proof.
  split; try by vm_compute.
  apply Forall_elem. intros r Hr. unfold InitLogicalPtraceTable in Hr. cbn [relations] in Hr.
  apply list_elem_of_fmap in Hr as (s & -> & _). by split; [|vm_compute].
Qed.

Lemma InitLogicalPtraceTable_ok : table_ok InitLogicalPtraceTable.
Proof. apply Validate_table_ok; [apply InitLogicalPtraceTable_typed|]. vm_compute. reflexivity. Qed.

Lemma reachable_ok t : rtc ptrace_step InitLogicalPtraceTable t -> table_ok t.
Proof.
  revert t. apply rtc_ind_r; [apply InitLogicalPtraceTable_ok|].
  intros t1 t2 _ [e Hc] Hok. by apply (ptrace_call_ok t1 e t2 Hok).
Qed.

(** ** A scenario: process 10 with the threads 10 and 11, process 20 *)

Definition process10 : LogicalProcessKey := Build_LogicalProcessKey 10 0 1.
Definition process20 : LogicalProcessKey := Build_LogicalProcessKey 20 0 1.
Definition task10 : LogicalTaskKey := Build_LogicalTaskKey 10 10 6 1.
Definition task11 : LogicalTaskKey := Build_LogicalTaskKey 11 10 5 1.
Definition task12 : LogicalTaskKey := Build_LogicalTaskKey 12 10 7 1.
Definition task20 : LogicalTaskKey := Build_LogicalTaskKey 20 20 2 1.
Definition nobody : LogicalPidIdentity := Build_LogicalPidIdentity 0 0 0.

Definition two_processes : LogicalPtraceTable :=
  let t := (InsertLogicalProcess InitLogicalPtraceTable process10 None 10 1 nobody).1.2 in
  (InsertLogicalProcess t process20 (Some process10) 20 1 nobody).1.2.

(** Thread 10 traces task 20, which traces thread 11. *)
Definition chained : LogicalPtraceTable :=
  let t := (CreateLogicalPtraceRelation two_processes task20 task10 kSeize kNormal 0).1.2 in
  (CreateLogicalPtraceRelation t task11 task20 kSeize kNormal 0).1.2.

Lemma chained_reachable : rtc ptrace_step InitLogicalPtraceTable chained.
Proof.
  unfold chained, two_processes. cbv zeta.
  eapply rtc_l; [eexists; exact (call_insert_process _ process10 None 10 1 nobody)|].
  eapply rtc_l; [eexists; exact (call_insert_process _ process20 (Some process10) 20 1 nobody)|].
  eapply rtc_l; [eexists; exact (call_create _ task20 task10 kSeize kNormal 0)|].
  eapply rtc_l; [eexists; exact (call_create _ task11 task20 kSeize kNormal 0)|].
  apply rtc_refl.
Qed.

(** ** What a valid table excludes *)

(** [a] is a child of [b]. *)
Definition child_of (t : LogicalPtraceTable) (a b : LogicalProcessKey) : Prop :=
  exists i, FindLogicalProcess t a = Some i /\ parent_known (processes t !!! i) = true /\
    lp_parent (processes t !!! i) = b.

Lemma child_of_link t a b : table_ok t -> child_of t a b -> link (parent_of (process_map t)) a b.
Proof.
  intros Hok (i & Hf & Hk & <-). pose proof (find_process_spec t (ok_init t Hok) _ _ _ a (ok_processes t Hok)) as Hs.
  rewrite Hf in Hs. destruct Hs as (p & [Hi _] & _ & Hm & _). unfold link, parent_of.
  rewrite (list_lookup_total_correct _ _ _ Hi) in Hk |- *. by rewrite Hm, Hk.
Qed.

(** C13 (invariant): Every table reachable through the operations of the logical
    ptrace table - processes, fake TRACEME records, relations, events, waits
    and rekeying, in any order and with any arguments - passes
    ValidateLogicalPtraceTable, as long as no rekeying that goes through
    renames an identity to one that a chain of tracers links it with. That one
    restriction is needed: C37 shows that such a rekeying leaves a table that
    does not validate. *)
Theorem reachable_ptrace_valid t :
  rtc ptrace_step InitLogicalPtraceTable t -> ValidateLogicalPtraceTable t = true.
Proof. intros Hok%reachable_ok. apply Validate_table_ok; [apply Hok|done]. Qed.

Lemma reachable_ptrace_valid_witness :
  rtc ptrace_step InitLogicalPtraceTable chained /\ ValidateLogicalPtraceTable chained = true.
Proof. split; [exact chained_reachable|exact (reachable_ptrace_valid _ chained_reachable)]. Defined.

(** In a reachable table an operation that reports an error leaves
    the whole table - arrays, counts, hints, counters - unchanged. *)
Theorem failed_call_unchanged t error t' :
  rtc ptrace_step InitLogicalPtraceTable t -> ptrace_call t error t' -> error <> 0 -> t' = t.
Proof. intros Hok%reachable_ok Hc. by apply (ptrace_call_ok t error t' Hok). Qed.

Lemma failed_call_unchanged_witness :
  (CreateLogicalPtraceRelation chained task10 task20 kSeize kNormal 0).1.1 = ELOOP /\
  (CreateLogicalPtraceRelation chained task10 task20 kSeize kNormal 0).1.2 = chained.
Proof.
  assert ((CreateLogicalPtraceRelation chained task10 task20 kSeize kNormal 0).1.1 = ELOOP) as He
    by (vm_compute; reflexivity).
  split; [exact He|].
  apply (failed_call_unchanged chained _ _ chained_reachable (call_create chained task10 task20 kSeize kNormal 0)).
  rewrite He. discriminate.
Defined.

(** In a table that validates no task traces itself through a
    chain of tracers and no process is its own ancestor: the walks bounded by
    the capacity of the arrays miss no cycle. *)
Theorem no_tracing_cycles t : typed_table t -> ValidateLogicalPtraceTable t = true ->
  (forall k, ~ tc (traced_by t) k k) /\ (forall k, ~ tc (child_of t) k k).
Proof.
  intros Hty Hv. apply Validate_table_ok in Hv as Hok; [|done]. split; intros k Hc.
  - apply (ends_no_cycle _ k (ok_tracers t Hok k)). revert Hc. apply tc_congruence with (f := id).
    intros a b. by apply traced_by_link.
  - apply (ends_no_cycle _ k (ok_parents t Hok k)). revert Hc. apply tc_congruence with (f := id).
    intros a b. by apply child_of_link.
Qed.

Lemma no_tracing_cycles_witness :
  traced_by chained task11 task20 /\ traced_by chained task20 task10 /\ ~ tc (traced_by chained) task11 task11.
Proof.
  split; [exists 1%nat; split; vm_compute; reflexivity|].
  split; [exists 0%nat; split; vm_compute; reflexivity|].
  exact (proj1 (no_tracing_cycles chained (ok_typed _ (reachable_ok _ chained_reachable))
    ltac:(vm_compute; reflexivity)) task11).
Defined.

(** C37 (safety): When rekeying changes an identity in a reachable table, the
    table it leaves validates exactly when no chain of tracers led from one of
    the two identities to the other: RekeyLogicalPtraceTask looks for relations
    inside the thread group, but not for chains through other processes, and
    behind such a chain the new identity traces itself. *)
Theorem rekey_valid_iff_unlinked t t' old new :
  rtc ptrace_step InitLogicalPtraceTable t -> old <> new -> RekeyLogicalPtraceTask t old new = (0, t') ->
  (ValidateLogicalPtraceTable t' = true <-> ~ (tc (traced_by t) old new \/ tc (traced_by t) new old)) /\
  (tc (traced_by t) old new \/ tc (traced_by t) new old -> tc (traced_by t') new new).
Proof.
  intros Hok%reachable_ok Hne Hc. split; [|by apply rekeyed_linked].
  rewrite (Validate_table_ok t' (rekeyed_typed t t' old new Hok Hne Hc)). split.
  - intros Hok'. pose proof (rekeyed_unlinked t t' old new Hok Hne Hc Hok'). unfold rekey_unlinked in *. tauto.
  - intros Hn. pose proof (RekeyLogicalPtraceTask_ok t old new Hok) as Hr. rewrite Hc in Hr.
    apply Hr. intros _. right. unfold rekey_unlinked. tauto.
Qed.

(** Renaming thread 11 to 10, with task 20 between them, and renaming it to a
    name no relation leads to. *)
Lemma rekey_valid_iff_unlinked_witness :
  (RekeyLogicalPtraceTask chained task11 task10).1 = 0 /\
  ValidateLogicalPtraceTable (RekeyLogicalPtraceTask chained task11 task10).2 = false /\
  tc (traced_by (RekeyLogicalPtraceTask chained task11 task10).2) task10 task10 /\
  (RekeyLogicalPtraceTask chained task10 task12).1 = 0 /\
  ~ (tc (traced_by chained) task10 task12 \/ tc (traced_by chained) task12 task10).
Proof.
  assert (tc (traced_by chained) task11 task10) as Hl.
  { eapply tc_l; [|apply tc_once]; [exists 1%nat; split; vm_compute; reflexivity|].
    exists 0%nat; split; vm_compute; reflexivity. }
  destruct (RekeyLogicalPtraceTask chained task11 task10) as [e1 t1] eqn:E1.
  destruct (RekeyLogicalPtraceTask chained task10 task12) as [e2 t2] eqn:E2.
  assert (e1 = 0) as -> by (change e1 with (e1, t1).1; rewrite <- E1; vm_compute; reflexivity).
  assert (e2 = 0) as -> by (change e2 with (e2, t2).1; rewrite <- E2; vm_compute; reflexivity).
  destruct (rekey_valid_iff_unlinked chained t1 task11 task10 chained_reachable ltac:(discriminate) E1) as [Hv Hc].
  destruct (rekey_valid_iff_unlinked chained t2 task10 task12 chained_reachable ltac:(discriminate) E2) as [Hv2 _].
  cbn [fst snd]. split; [reflexivity|]. split.
  - apply not_true_iff_false. intros E. apply (proj1 Hv E). left. exact Hl.
  - split; [apply Hc; left; exact Hl|]. split; [reflexivity|]. apply Hv2.
    change t2 with (0, t2).2. rewrite <- E2. vm_compute. reflexivity.
Defined.
