(* ===== verification/LogicalPtraceEvents.v ===== *)
(** * The events of a tracee are a bounded queue

    The abstract state of a relation's events is the list of the pending ones,
    oldest first; the operations on events and on relations are shown to
    implement the operations of a queue of capacity four with an end marker
    (the exit event), for every outcome. *)

From S2P Require Import Prelude SlotArray Chain LogicalPtrace LogicalPtraceOps LogicalPtraceInv.
From S2P Require Import LogicalPtraceQueue LogicalPtracePreserve LogicalPtraceSafety.
From stdpp Require Import list gmap relations.
#[local] Open Scope Z_scope.

(** The pending events of a tracee; [None] when it is not traced. *)
Definition queue_of (t : LogicalPtraceTable) (tracee : LogicalTaskKey) : option (list LogicalPtraceEvent) :=
  pending <$> relation_map t !! tracee.

(** The error of queueing an event behind [q]. *)
Definition queue_error (q : option (list LogicalPtraceEvent)) (event : LogicalPtraceEvent) : Z :=
  if event_argument_bad event then EINVAL
  else match q with
  | None => ESRCH
  | Some q => if existsb EventIsExit q then ESRCH else if Z.of_nat (length q) =? 4 then ENOSPC else 0
  end.

Lemma events_valid_exit exit_seen q b : events_valid exit_seen q = Some b ->
  (exit_seen || existsb EventIsExit q) = b.
Proof.
  revert exit_seen. induction q as [|e q IH]; intros exit_seen; simpl.
  - intros [= ->]. apply orb_false_r.
  - destruct (negb (EventValid e)); [done|]. destruct exit_seen; [done|]. simpl. apply IH.
Qed.

(** A relation is a zombie exactly when an exit event is pending. *)
Lemma zombie_exit r : queue_ok r -> (lr_state r =? kExitZombie) = existsb EventIsExit (pending r).
Proof. intros (_ & Hv & _). symmetry. by apply (events_valid_exit false). Qed.

Lemma queue_of_insert t t' k r x : relation_map t' = <[k := r]> (relation_map t) ->
  queue_of t' x = if decide (x = k) then Some (pending r) else queue_of t x.
Proof.
  intros Hm. unfold queue_of. rewrite Hm. destruct (decide (x = k)) as [->|]; [by rewrite lookup_insert_eq|].
  by rewrite lookup_insert_ne.
Qed.

Lemma queue_of_delete t t' k x : relation_map t' = delete k (relation_map t) ->
  queue_of t' x = if decide (x = k) then None else queue_of t x.
Proof.
  intros Hm. unfold queue_of. rewrite Hm. destruct (decide (x = k)) as [->|]; [by rewrite lookup_delete_eq|].
  by rewrite lookup_delete_ne.
Qed.

(** What a Find of a valid table says about the queue. *)
Lemma find_queue t tracee : table_ok t ->
  match FindLogicalPtraceRelation t tracee with
  | Some i => exists r, relations t !!! i = r /\ relation_map t !! tracee = Some r /\ queue_ok r /\
      queue_of t tracee = Some (pending r)
  | None => queue_of t tracee = None
  end.
Proof.
  intros Hok. unfold queue_of. find_relation t tracee Hok; [|by rewrite Hf].
  destruct Hf as (r & Hi & _ & Hm & _). exists r. rewrite Hm.
  split; [by apply list_lookup_total_correct, Hi|]. split; [done|]. split; [|done].
  by destruct (found_relation t n r Hok Hi).
Qed.

(** C28 (refinement): QueueLogicalPtraceEvent appends to the tracee's bounded
    queue. It reports EINVAL for a malformed event, ESRCH for a task that is
    not traced or whose exit event is already pending, ENOSPC for four pending
    events; otherwise the event, with the next sequence number, becomes the
    last pending event of this tracee and no other queue changes. *)
Theorem queue_refines t tracee event : typed_table t -> ValidateLogicalPtraceTable t = true ->
  let '(error, t', sequence) := QueueLogicalPtraceEvent t tracee event in
  error = queue_error (queue_of t tracee) event /\
  (error = 0 -> exists q, queue_of t tracee = Some q /\ (length q < 4)%nat /\
     sequence = (AllocateSequence (next_event_sequence t)).1 /\
     forall x, queue_of t' x =
       if decide (x = tracee) then Some (q ++ [stored_event event sequence]) else queue_of t x).
Proof.
  intros Hty Hv. apply Validate_table_ok in Hv as Hok; [|done].
  pose proof (QueueLogicalPtraceEvent_ok t tracee event Hok) as Hq.
  destruct (QueueLogicalPtraceEvent t tracee event) as [[error t'] sequence] eqn:E.
  destruct Hq as (_ & _ & Heff). split.
  - unfold QueueLogicalPtraceEvent in E. rewrite (ok_init t Hok) in E. cbn [negb orb] in E. unfold queue_error.
    destruct (event_argument_bad event); [by injection E as <- _ _|].
    pose proof (find_queue t tracee Hok) as Hf. destruct (FindLogicalPtraceRelation t tracee) as [i|].
    2: { rewrite Hf. by injection E as <- _ _. }
    destruct Hf as (r & Hr & _ & Hqok & ->). rewrite Hr in E. cbv zeta in E.
    rewrite <- (zombie_exit r Hqok), (length_pending r) by (destruct Hqok as ((_ & _ & ?) & _); lia).
    change kLogicalPtraceEventQueueCapacity with 4 in E.
    destruct (lr_state r =? kExitZombie); [by injection E as <- _ _|].
    destruct (lr_event_count r =? 4); [by injection E as <- _ _|].
    destruct (AllocateSequence _). by injection E as <- _ _.
  - intros Herr. destruct (Heff Herr) as (r & Hm & Hz & Hlt & Hw & Hm' & Hs & _).
    exists (pending r). split; [unfold queue_of; by rewrite Hm|].
    pose proof (length_pending r ltac:(destruct Hw as (_ & _ & ?); lia)). split; [lia|]. split; [done|].
    intros x. rewrite (queue_of_insert _ _ _ _ x Hm').
    by rewrite (proj1 (pending_enqueue r (stored_event event sequence) Hw Hlt)).
Qed.

(** ConsumeLogicalPtraceEvent removes from the front of the
    queue. It reports ESRCH for a task that is not traced and EAGAIN for an
    empty queue, and never a protocol error; otherwise it returns the oldest
    pending event, which stays when it is to be preserved, is removed from the
    queue, or, being an exit event, retires the relation. *)
Theorem consume_refines t tracee preserve : typed_table t -> ValidateLogicalPtraceTable t = true ->
  let '(error, t', event) := ConsumeLogicalPtraceEvent t tracee preserve in
  match queue_of t tracee with
  | None => error = ESRCH /\ event = None
  | Some [] => error = EAGAIN /\ event = None
  | Some (e :: rest) => error = 0 /\ event = Some e /\
      forall x, queue_of t' x =
        if preserve then queue_of t x
        else if decide (x = tracee) then (if EventIsExit e then None else Some rest) else queue_of t x
  end.
Proof.
  intros Hty Hv. apply Validate_table_ok in Hv as Hok; [|done].
  pose proof (ConsumeLogicalPtraceEvent_ok t tracee preserve Hok) as Hc.
  destruct (ConsumeLogicalPtraceEvent t tracee preserve) as [[error t'] event] eqn:E.
  destruct Hc as (_ & _ & Hproto & Heff). unfold ConsumeLogicalPtraceEvent in E.
  rewrite (ok_init t Hok) in E. cbn [negb orb] in E.
  pose proof (find_queue t tracee Hok) as Hf. destruct (FindLogicalPtraceRelation t tracee) as [i|].
  2: { rewrite Hf. by injection E as <- _ <-. }
  destruct Hf as (r & Hr & Hm & Hqok & Hq). rewrite Hr in E. cbv zeta in E. rewrite Hq.
  pose proof Hqok as (Hw & _). destruct (lr_event_count r =? 0) eqn:Hc0.
  { apply Z.eqb_eq in Hc0. assert (pending r = []) as -> by (unfold pending; by rewrite Hc0).
    by injection E as <- _ <-. }
  pose proof (count_positive r Hqok Hc0) as Hpos. destruct (pending_head r Hw Hpos) as [rest Hh]. rewrite Hh.
  assert (error = 0) as Herr.
  { destruct preserve; [by injection E|]. destruct (_ && _); [by injection E as <- _ _|].
    destruct (EventIsExit (head_event r)); [|by injection E].
    destruct (negb _); [by injection E as <- _ _|by injection E]. }
  split; [done|]. destruct (Heff Herr) as (r' & Hm2 & _ & _ & -> & Hm'). rewrite Hm in Hm2. injection Hm2 as <-.
  split; [done|]. intros x. destruct preserve; [unfold queue_of; by rewrite Hm'|].
  destruct (EventIsExit (head_event r)) eqn:Hx.
  - by apply queue_of_delete.
  - rewrite (queue_of_insert _ _ _ _ x Hm'). rewrite (proj1 (pending_pop r Hw Hpos)). by rewrite Hh.
Qed.

(** ** Witnesses: the traced task of the scenario *)

Definition stop_event (signal : Z) : LogicalPtraceEvent :=
  Build_LogicalPtraceEvent 0 3 0 0 signal 0 (-1) 0 0 (replicate 128 0) zero_regs.

(** Two stops of task 20 are pending. *)
Definition stopped : LogicalPtraceTable :=
  (QueueLogicalPtraceEvent (QueueLogicalPtraceEvent chained task20 (stop_event 5)).1.2
     task20 (stop_event 19)).1.2.

Lemma stopped_ok : typed_table stopped /\ ValidateLogicalPtraceTable stopped = true.
Proof.
  assert (rtc ptrace_step InitLogicalPtraceTable stopped) as Hr.
  { transitivity chained; [apply chained_reachable|]. unfold stopped.
    eapply rtc_l; [eexists; exact (call_queue _ task20 (stop_event 5))|].
    eapply rtc_l; [eexists; exact (call_queue _ task20 (stop_event 19))|]. apply rtc_refl. }
  pose proof (reachable_ok _ Hr) as Hok. split; [apply Hok|]. apply Validate_table_ok; [apply Hok|done].
Qed.

Lemma queue_refines_witness :
  exists t', QueueLogicalPtraceEvent stopped task20 (stop_event 11) = (0, t', 3) /\
    queue_of t' task20 = Some [stored_event (stop_event 5) 1; stored_event (stop_event 19) 2;
      stored_event (stop_event 11) 3].
Proof.
  pose proof (queue_refines stopped task20 (stop_event 11) (proj1 stopped_ok) (proj2 stopped_ok)) as Hq.
  assert (queue_of stopped task20 = Some [stored_event (stop_event 5) 1; stored_event (stop_event 19) 2]) as Hs
    by (vm_compute; reflexivity).
  assert ((AllocateSequence (next_event_sequence stopped)).1 = 3) as Ha by (vm_compute; reflexivity).
  destruct (QueueLogicalPtraceEvent stopped task20 (stop_event 11)) as [[error t'] sequence].
  destruct Hq as [He Hq]. rewrite Hs in He. change (queue_error _ _) with 0 in He. subst error.
  destruct (Hq eq_refl) as (q & Hqs & _ & -> & Ht). rewrite Hs in Hqs. injection Hqs as <-.
  rewrite Ha in Ht |- *. exists t'. split; [reflexivity|]. rewrite Ht, decide_True by reflexivity. reflexivity.
Defined.

Lemma consume_refines_witness :
  exists t', ConsumeLogicalPtraceEvent stopped task20 false = (0, t', Some (stored_event (stop_event 5) 1)) /\
    queue_of t' task20 = Some [stored_event (stop_event 19) 2].
Proof.
  pose proof (consume_refines stopped task20 false (proj1 stopped_ok) (proj2 stopped_ok)) as Hc.
  assert (queue_of stopped task20 = Some [stored_event (stop_event 5) 1; stored_event (stop_event 19) 2]) as Hs
    by (vm_compute; reflexivity).
  destruct (ConsumeLogicalPtraceEvent stopped task20 false) as [[error t'] event]. rewrite Hs in Hc.
  destruct Hc as (-> & -> & Ht). exists t'. split; [reflexivity|].
  rewrite Ht, decide_True by reflexivity. reflexivity.
Defined.

(** ** Creating relations *)

(** Who may start tracing whom: the error of CreateLogicalPtraceRelation for
    well-formed arguments, on the maps. *)
Definition create_error (t : LogicalPtraceTable) (tracee tracer : LogicalTaskKey) (kind : Z) : Z :=
  if tk_tgid tracee =? tk_tgid tracer then EPERM
  else match process_map t !! LogicalProcessKeyForTask tracee,
             process_map t !! LogicalProcessKeyForTask tracer with
  | Some p, Some q =>
    if (kind =? kTraceme) && negb (bool_decide (parent_of (process_map t) (lp_key p) = Some (lp_key q)))
    then EPERM
    else if PtraceChainContains t tracer tracee then ELOOP
    else if bool_decide (is_Some (relation_map t !! tracee)) then EPERM
    else if Z.of_nat (size (relation_map t)) =? 512 then ENOSPC else 0
  | _, _ => ESRCH
  end.

(** CreateLogicalPtraceRelation, called with valid keys, an
    attach kind, a wait class and known options, decides as [create_error] says
    - EPERM inside a thread group, ESRCH for unknown processes, EPERM for a
    TRACEME not aimed at the parent, ELOOP for a tracing cycle, EPERM for a
    task already traced, ENOSPC for 512 relations - and on success the tracee,
    which was untraced, has the tracer, the initial state of the attach kind
    and no pending events, every other task keeping its tracer and its queue. *)
Theorem create_outcome t tracee tracer kind class options :
  typed_table t -> ValidateLogicalPtraceTable t = true ->
  TaskKeyValid tracee = true -> TaskKeyValid tracer = true -> AttachKindValid kind = true ->
  WaitClassValid class = true -> unknown_bits options kLogicalPtraceKnownOptionMask = false ->
  let '(error, t', slot) := CreateLogicalPtraceRelation t tracee tracer kind class options in
  error = create_error t tracee tracer kind /\
  (error = 0 -> queue_of t tracee = None /\
     exists r, relation_map t' !! tracee = Some r /\ lr_state r = initial_state kind /\ lr_slot r = slot /\
     forall x, tracer_of (relation_map t') x =
         (if decide (x = tracee) then Some tracer else tracer_of (relation_map t) x) /\
       queue_of t' x = (if decide (x = tracee) then Some [] else queue_of t x)).
Proof.
  intros Hty Hv Htee Htr Hk Hwc Hopt. apply Validate_table_ok in Hv as Hok; [|done].
  pose proof (CreateLogicalPtraceRelation_ok t tracee tracer kind class options Hok) as Hc.
  destruct (CreateLogicalPtraceRelation t tracee tracer kind class options) as [[error t'] slot] eqn:E.
  destruct Hc as (_ & _ & Heff). split.
  - unfold CreateLogicalPtraceRelation in E. rewrite (ok_init t Hok), Htee, Htr, Hk, Hwc, Hopt in E.
    cbn [negb orb] in E. unfold create_error.
    destruct (tk_tgid tracee =? tk_tgid tracer); [by injection E as <- _ _|].
    find_process t (LogicalProcessKeyForTask tracee) Hok; [|rewrite Hf; by injection E as <- _ _].
    destruct Hf as (p & Hpi & Hpk & Hpm & [_ Hpp] & Hpv). rewrite Hpm.
    find_process t (LogicalProcessKeyForTask tracer) Hok; [|rewrite Hf; by injection E as <- _ _].
    destruct Hf as (q & Hqi & Hqk & Hqm & _ & Hqv). rewrite Hqm. cbv zeta in E.
    rewrite (list_lookup_total_correct _ _ _ (proj1 Hpi)), (list_lookup_total_correct _ _ _ (proj1 Hqi)) in E.
    assert ((negb (parent_known p) || negb (LogicalProcessKeysEqual (lp_parent p) (lp_key q))) =
      negb (bool_decide (parent_of (process_map t) (lp_key p) = Some (lp_key q)))) as <-.
    { unfold parent_of. rewrite Hpk, Hpm. unfold parent_ok in Hpp. destruct (parent_known p); [|done]. simpl. f_equal.
      destruct Hpp as (Hv1 & _ & _). rewrite <- Hqk in Hqv.
      pose proof (LogicalProcessKeysEqual_spec _ _ Hv1 Hqv) as Heq.
      case_bool_decide as Hd; [injection Hd as Hd; by apply Heq|].
      destruct (LogicalProcessKeysEqual _ _); [|done]. destruct Hd. f_equal. by apply Heq. }
    destruct (_ && _); [by injection E as <- _ _|].
    destruct (PtraceChainContains t tracer tracee); [by injection E as <- _ _|].
    find_relation t tracee Hok.
    { destruct Hf as (r & _ & _ & -> & _). by injection E as <- _ _. }
    rewrite Hf. rewrite (to_map_size _ _ (ok_relations t Hok)).
    rewrite bool_decide_eq_false_2 by (by intros [??]).
    change kLogicalPtraceRelationCapacity with 512 in E.
    destruct (Z.eqb_spec (relation_count t) 512) as [|Hn]; [by injection E as <- _ _|].
    pose proof (free_slot_spec _ _ _ _ (relation_free_hint t) (ok_relations t Hok)) as Hfree.
    destruct (free_slot _ _) as [s|]; [|destruct Hn; apply Hfree, (hints_ok t Hok)].
    destruct (AllocateSequence _). by injection E as <- _ _.
  - intros Herr. destruct (Heff Herr) as (Hn & _ & r & Hm & Hr1 & Hr2 & _ & Hst & Hsl & Hp).
    split; [unfold queue_of; by rewrite Hn|]. exists r. rewrite Hm. split; [by rewrite lookup_insert_eq|].
    split; [done|]. split; [done|]. intros x. split.
    + rewrite tracer_of_insert. by rewrite Hr2.
    + rewrite (queue_of_insert _ _ _ _ x Hm). by rewrite Hp.
Qed.

Lemma two_processes_ok : typed_table two_processes /\ ValidateLogicalPtraceTable two_processes = true.
Proof.
  assert (rtc ptrace_step InitLogicalPtraceTable two_processes) as Hr.
  { unfold two_processes. cbv zeta.
    eapply rtc_l; [eexists; exact (call_insert_process _ process10 None 10 1 nobody)|].
    eapply rtc_l; [eexists; exact (call_insert_process _ process20 (Some process10) 20 1 nobody)|].
    apply rtc_refl. }
  pose proof (reachable_ok _ Hr) as Hok. split; [apply Hok|]. apply Validate_table_ok; [apply Hok|done].
Qed.

(** The child process 20 asks to be traced by its parent. *)
Lemma create_outcome_witness :
  let '(error, t', _) := CreateLogicalPtraceRelation two_processes task20 task10 kTraceme kNormal 0 in
  error = 0 /\ tracer_of (relation_map t') task20 = Some task10 /\ queue_of t' task20 = Some [].
Proof.
  pose proof (create_outcome two_processes task20 task10 kTraceme kNormal 0 (proj1 two_processes_ok)
    (proj2 two_processes_ok) eq_refl eq_refl eq_refl eq_refl eq_refl) as Hc.
  assert (create_error two_processes task20 task10 kTraceme = 0) as Hz by (vm_compute; reflexivity).
  destruct (CreateLogicalPtraceRelation two_processes task20 task10 kTraceme kNormal 0) as [[error t'] slot].
  rewrite Hz in Hc. destruct Hc as [-> Hc]. split; [reflexivity|].
  destruct (Hc eq_refl) as (_ & r & _ & _ & _ & Hx). destruct (Hx task20) as [Ht Hq].
  rewrite decide_True in Ht by reflexivity. rewrite decide_True in Hq by reflexivity. split; [exact Ht|exact Hq].
Defined.

(** CreateInheritedLogicalPtraceRelation is one transaction: on
    success the child is traced by the tracer of its parent, stopped, with the
    parent's attach kind and options and exactly the given stop pending, and
    nothing else changes; on an error the table is unchanged and both outputs
    are reset. *)
Theorem inherited_transaction t parent child class stop :
  typed_table t -> ValidateLogicalPtraceTable t = true ->
  let '(error, t', slot, sequence) := CreateInheritedLogicalPtraceRelation t parent child class stop in
  (error <> 0 -> t' = t /\ slot = kInvalidLogicalPtraceSlot /\ sequence = 0) /\
  (error = 0 -> ValidateLogicalPtraceTable t' = true /\ exists pr r,
     relation_map t !! parent = Some pr /\ relation_map t' !! child = Some r /\
     lr_attach_kind r = lr_attach_kind pr /\ lr_options r = lr_options pr /\
     lr_state r = kStopped /\ lr_slot r = slot /\ queue_of t child = None /\
     forall x, tracer_of (relation_map t') x =
         (if decide (x = child) then Some (lr_tracer pr) else tracer_of (relation_map t) x) /\
       queue_of t' x =
         (if decide (x = child) then Some [stored_event stop sequence] else queue_of t x)).
Proof.
  intros Hty Hv. apply Validate_table_ok in Hv as Hok; [|done].
  pose proof (CreateInheritedLogicalPtraceRelation_ok t parent child class stop Hok) as Hc.
  destruct (CreateInheritedLogicalPtraceRelation _ _ _ _ _) as [[[error t'] slot] sequence].
  destruct Hc as (Hok' & Hfail & Heff). split; [done|]. intros Herr.
  split; [apply Validate_table_ok; [apply Hok'|done]|].
  destruct (Heff Herr) as (pr & r & Hp & Hn & Hm & _ & Htr & Hak & Hopt & Hst & Hsl & Hpend).
  exists pr, r. split; [done|]. split; [rewrite Hm; by rewrite lookup_insert_eq|]. repeat (split; [done|]).
  split; [unfold queue_of; by rewrite Hn|]. intros x. split.
  - rewrite Hm, tracer_of_insert. by rewrite Htr.
  - rewrite (queue_of_insert _ _ _ _ x Hm). by rewrite Hpend.
Qed.

Definition process30 : LogicalProcessKey := Build_LogicalProcessKey 30 0 9.
Definition task30 : LogicalTaskKey := Build_LogicalTaskKey 30 30 7 9.
Definition forking : LogicalPtraceTable :=
  (InsertLogicalProcess chained process30 (Some process20) 20 1 nobody).1.2.

(** Task 20, traced by thread 10, forks process 30. *)
Lemma inherited_transaction_witness :
  let '(error, t', _, sequence) :=
    CreateInheritedLogicalPtraceRelation forking task20 task30 kNormal (stop_event 19) in
  error = 0 /\ tracer_of (relation_map t') task30 = Some task10 /\
  queue_of t' task30 = Some [stored_event (stop_event 19) sequence].
Proof.
  assert (rtc ptrace_step InitLogicalPtraceTable forking) as Hr.
  { transitivity chained; [apply chained_reachable|]. unfold forking.
    eapply rtc_l; [eexists; exact (call_insert_process _ process30 (Some process20) 20 1 nobody)|].
    apply rtc_refl. }
  pose proof (reachable_ok _ Hr) as Hok.
  pose proof (inherited_transaction forking task20 task30 kNormal (stop_event 19) (ok_typed _ Hok)
    (proj2 (Validate_table_ok _ (ok_typed _ Hok)) Hok)) as Hc.
  assert ((CreateInheritedLogicalPtraceRelation forking task20 task30 kNormal (stop_event 19)).1.1.1 = 0) as Hz
    by (vm_compute; reflexivity).
  assert (lr_tracer <$> relation_map forking !! task20 = Some task10) as Ht by (vm_compute; reflexivity).
  destruct (CreateInheritedLogicalPtraceRelation _ _ _ _ _) as [[[error t'] slot] sequence].
  simpl in Hz. subst error. split; [reflexivity|].
  destruct Hc as [_ Hc]. destruct (Hc eq_refl) as (_ & pr & r & Hp & _ & _ & _ & _ & _ & _ & Hx).
  rewrite Hp in Ht. injection Ht as Htr. destruct (Hx task30) as [H1 H2].
  rewrite decide_True in H1 by reflexivity. rewrite decide_True in H2 by reflexivity.
  rewrite Htr in H1. split; [exact H1|exact H2].
Defined.
