(* ===== verification/LogicalPtraceWait.v ===== *)
(** * Logical waits

    What wait4 and waitid mean on the logical ptrace table: which tracees a
    request covers, which event a wait returns, and that the event that was
    selected can be consumed. *)

From S2P Require Import Prelude SlotArray Chain LogicalPtrace LogicalPtraceOps LogicalPtraceInv.
From S2P Require Import LogicalPtraceQueue LogicalPtracePreserve LogicalPtraceSafety LogicalPtraceEvents.
From stdpp Require Import list gmap relations.
#[local] Open Scope Z_scope.

(** A tracee the request waits for. *)
Definition covered (t : LogicalPtraceTable) (q : LogicalWaitRequest) (r : LogicalPtraceRelation) : bool :=
  in_use r && RelationOwnedByWaiter r q && SelectorMatches t r q &&
  WaitClassMatches (rq_options q) (lr_wait_class r).

(** Its oldest event is of a kind the request asks for. *)
Definition reportable (t : LogicalPtraceTable) (q : LogicalWaitRequest) (r : LogicalPtraceRelation) : bool :=
  covered t q r && negb (lr_event_count r =? 0) && EventMatchesWaitKind q (head_event r).

Definition head_sequence (r : LogicalPtraceRelation) : Z := ev_sequence (head_event r).

Definition match_of (slot : Z) (r : LogicalPtraceRelation) : LogicalWaitMatch :=
  Build_LogicalWaitMatch slot 0 (lr_generation r) (head_sequence r).

Lemma select_one_spec t q slot r mr o m : wm_reserved m = 0 ->
  select_one t q slot r (mr, o, m) =
  (mr || covered t q r,
   if reportable t q r && (head_sequence r <? o) then head_sequence r else o,
   if reportable t q r && (head_sequence r <? o) then match_of slot r else m).
Proof.
  intros Hm. unfold select_one, reportable, covered, in_use, match_of, head_sequence. simpl.
  rewrite Hm, Z.ltb_antisym.
  destruct (lr_occupied r =? 0); simpl; [by rewrite orb_false_r|].
  destruct (RelationOwnedByWaiter r q); simpl; [|by rewrite orb_false_r].
  destruct (SelectorMatches t r q); simpl; [|by rewrite orb_false_r].
  destruct (WaitClassMatches _ _); simpl; [|by rewrite orb_false_r].
  rewrite orb_true_r. destruct (lr_event_count r =? 0); simpl; [done|].
  destruct (EventMatchesWaitKind q (head_event r)); simpl; [|done].
  by destruct (o <=? ev_sequence (head_event r)).
Qed.

(** The loop finds a reportable tracee with the least sequence below the bound. *)
Lemma select_loop_spec t q arr slot mr o m : wm_reserved m = 0 ->
  let '(mr', o', m') := select_loop t q slot arr (mr, o, m) in
  mr' = (mr || existsb (covered t q) arr) /\ o' <= o /\
  (forall r, r ∈ arr -> reportable t q r = true -> o' <= head_sequence r) /\
  ((o' = o /\ m' = m) \/
   exists j r, arr !! j = Some r /\ reportable t q r = true /\ o' = head_sequence r /\ o' < o /\
     m' = match_of (slot + Z.of_nat j) r).
Proof.
  revert slot mr o m. induction arr as [|r arr IH]; intros slot mr o m Hm; cbn [select_loop existsb].
  { split; [by rewrite orb_false_r|]. split; [lia|]. split; [|by left]. by intros r ?%not_elem_of_nil. }
  rewrite (select_one_spec t q slot r mr o m Hm).
  set (take := reportable t q r && (head_sequence r <? o)).
  specialize (IH (slot + 1) (mr || covered t q r) (if take then head_sequence r else o)
    (if take then match_of slot r else m) ltac:(by destruct take)).
  destruct (select_loop _ _ _ _ _) as [[mr' o'] m']. destruct IH as (Hmr & Hle & Hmin & Hres).
  split; [by rewrite Hmr, orb_assoc|].
  assert (o' <= o /\ (reportable t q r = true -> o' <= head_sequence r)) as [Ho Hr].
  { unfold take in Hle. destruct (reportable t q r); simpl in Hle; [|done].
    destruct (Z.ltb_spec (head_sequence r) o); lia. }
  split; [done|]. split; [intros x [->|Hx]%elem_of_cons; [done|by apply Hmin]|].
  destruct Hres as [[-> ->]|(j & x & Hj & Hx & Hs & Hlt & ->)].
  - unfold take in *. destruct (reportable t q r) eqn:Hrep; simpl in *; [|by left].
    destruct (Z.ltb_spec (head_sequence r) o); [|by left]. right. exists O, r.
    repeat (split; [done|]). by rewrite Z.add_0_r.
  - right. exists (S j), x. split; [done|]. split; [done|]. split; [done|]. split.
    + unfold take in Hlt. destruct (_ && _) eqn:E; [|done]. apply andb_true_iff in E as [_ E%Z.ltb_lt]. lia.
    + f_equal. lia.
Qed.

Lemma select_spec t waiter : table_ok t ->
  match wait_map t !! waiter with
  | None => (SelectLogicalWaitEvent t waiter).1 = ESRCH
  | Some w =>
    let q := lw_request w in
    let '(error, found) := SelectLogicalWaitEvent t waiter in
    let ready r := reportable t q r && (head_sequence r <? UINT64_MAX) in
    error = (if existsb ready (relations t) then 0
             else if existsb (covered t q) (relations t) then EAGAIN else ECHILD) /\
    (error = 0 -> exists j r, relations t !! j = Some r /\ ready r = true /\
       found = Some (match_of (Z.of_nat j) r) /\
       forall r', r' ∈ relations t -> reportable t q r' = true -> head_sequence r <= head_sequence r')
  end.
Proof.
  intros Hok. unfold SelectLogicalWaitEvent. rewrite (ok_init t Hok). cbn [negb].
  find_wait t waiter Hok; [|by rewrite Hf]. destruct Hf as (w & Hi & _ & Hm & _). rewrite Hm.
  rewrite (list_lookup_total_correct _ _ _ (proj1 Hi)). cbv zeta.
  set (q := lw_request w). set (cleared := Build_LogicalWaitMatch _ _ _ _).
  pose proof (select_loop_spec t q (relations t) 0 false UINT64_MAX cleared eq_refl) as Hl.
  destruct (select_loop _ _ _ _ _) as [[mr o] m]. destruct Hl as (-> & Hle & Hmin & Hres).
  destruct Hres as [[-> ->]|(j & r & Hj & Hr & -> & Hlt & ->)].
  - change (negb (wm_relation_slot cleared =? kInvalidLogicalPtraceSlot)) with false. cbn [orb].
    assert (existsb (fun r => reportable t q r && (head_sequence r <? UINT64_MAX)) (relations t) = false) as ->.
    { apply not_true_is_false. intros (r & Hin%list_elem_of_In & [Hr ?%Z.ltb_lt]%andb_true_iff)%existsb_exists.
      specialize (Hmin r Hin Hr). lia. }
    split; [done|]. by destruct (existsb _ _).
  - assert ((wm_relation_slot (match_of (0 + Z.of_nat j) r) =? kInvalidLogicalPtraceSlot) = false) as ->.
    { cbn. apply lookup_lt_Some in Hj. rewrite (so_length _ _ _ _ _ (ok_relations t Hok)) in Hj.
      unfold kInvalidLogicalPtraceSlot, UINT32_MAX. lia. }
    assert (existsb (fun r => reportable t q r && (head_sequence r <? UINT64_MAX)) (relations t) = true) as ->.
    { apply existsb_exists. exists r. split; [apply list_elem_of_In; by eapply list_elem_of_lookup_2|].
      by rewrite Hr, (proj2 (Z.ltb_lt _ _) Hlt). }
    split; [done|]. intros _. exists j, r. split; [done|]. split; [by rewrite Hr, (proj2 (Z.ltb_lt _ _) Hlt)|].
    split; [done|]. exact Hmin.
Qed.

(** C27 (functional): SelectLogicalWaitEvent. Without a registered wait it
    reports ESRCH. Otherwise it reports 0 exactly when some covered tracee has
    an oldest event of a requested kind (with a sequence below 2^64 - 1), and
    the match names such a tracee whose event has the least sequence of all;
    EAGAIN when there are covered tracees but no such event; ECHILD when no
    tracee is covered. *)
Theorem select_outcome t waiter : typed_table t -> ValidateLogicalPtraceTable t = true ->
  match wait_map t !! waiter with
  | None => (SelectLogicalWaitEvent t waiter).1 = ESRCH
  | Some w =>
    let q := lw_request w in
    let '(error, found) := SelectLogicalWaitEvent t waiter in
    let ready r := reportable t q r && (head_sequence r <? UINT64_MAX) in
    error = (if existsb ready (relations t) then 0
             else if existsb (covered t q) (relations t) then EAGAIN else ECHILD) /\
    (error = 0 -> exists j r, relations t !! j = Some r /\ ready r = true /\
       found = Some (match_of (Z.of_nat j) r) /\
       forall r', r' ∈ relations t -> reportable t q r' = true -> head_sequence r <= head_sequence r')
  end.
Proof. intros Hty Hv. apply select_spec. by apply Validate_table_ok in Hv. Qed.

(** What a successful selection found. *)
Lemma select_found t waiter m : table_ok t -> SelectLogicalWaitEvent t waiter = (0, Some m) ->
  exists i w j r, entry_at (waits t) i w /\ FindLogicalWait t waiter = Some i /\
    wait_map t !! waiter = Some w /\ relations t !! j = Some r /\
    reportable t (lw_request w) r = true /\ m = match_of (Z.of_nat j) r.
Proof.
  intros Hok. unfold SelectLogicalWaitEvent. rewrite (ok_init t Hok). cbn [negb].
  find_wait t waiter Hok; [|by intros [=]]. destruct Hf as (w & Hi & _ & Hm & _).
  rewrite (list_lookup_total_correct _ _ _ (proj1 Hi)). cbv zeta.
  set (cleared := Build_LogicalWaitMatch _ _ _ _).
  pose proof (select_loop_spec t (lw_request w) (relations t) 0 false UINT64_MAX cleared eq_refl) as Hl.
  destruct (select_loop _ _ _ _ _) as [[mr o] m']. destruct Hl as (_ & _ & _ & Hres).
  destruct Hres as [[_ ->]|(j & r & Hj & Hr & _ & _ & ->)].
  - change (negb (wm_relation_slot cleared =? kInvalidLogicalPtraceSlot)) with false.
    destruct mr; by intros [=].
  - destruct (negb _); [intros [= <-]|by destruct mr; intros [=]].
    exists n, w, j, r. by repeat (split; [done|]).
Qed.

Lemma reportable_split t q r : reportable t q r = true ->
  (lr_occupied r =? 0) = false /\ RelationOwnedByWaiter r q = true /\ SelectorMatches t r q = true /\
  WaitClassMatches (rq_options q) (lr_wait_class r) = true /\ (lr_event_count r =? 0) = false /\
  EventMatchesWaitKind q (head_event r) = true.
Proof.
  unfold reportable, covered, in_use. simpl. rewrite !andb_true_iff, !negb_true_iff. tauto.
Qed.

(** The match of a selection is accepted: nothing is stale, and the protocol
    error of an exit event that is not alone does not occur. *)
Lemma consume_selected t waiter i w j r : table_ok t ->
  FindLogicalWait t waiter = Some i -> entry_at (waits t) i w -> relations t !! j = Some r ->
  reportable t (lw_request w) r = true ->
  (ConsumeLogicalWaitEvent t waiter (match_of (Z.of_nat j) r)).1.1 = 0.
Proof.
  intros Hok Hfw Hi Hj Hr. pose proof (lookup_lt_Some _ _ _ Hj) as Hlt.
  rewrite (so_length _ _ _ _ _ (ok_relations t Hok)) in Hlt.
  destruct (reportable_split _ _ _ Hr) as (Ho & Hown & Hsel & Hcls & Hc & Hev).
  assert (entry_at (relations t) j r) as Hent by (split; [done|unfold in_use; simpl; by rewrite Ho]).
  destruct (found_relation t j r Hok Hent) as (Hq & _). pose proof (count_positive r Hq Hc) as Hpos.
  destruct (relation_at t j r Hok Hent) as (_ & (Hst & _) & _).
  assert ((lr_generation r =? 0) = false) as Hgen.
  { unfold relation_static in Hst. rewrite !andb_true_iff in Hst. apply negb_true_iff, Hst. }
  pose proof (head_event_valid r Hq Hpos) as Hvalid. apply EventValid_iff in Hvalid as (Hseq & _).
  unfold ConsumeLogicalWaitEvent, match_of. cbn [wm_relation_slot wm_relation_generation wm_event_sequence].
  rewrite (ok_init t Hok), Hfw, (list_lookup_total_correct _ _ _ (proj1 Hi)), Nat2Z.id,
    (list_lookup_total_correct _ _ _ Hj), Hgen.
  unfold head_sequence. rewrite (proj2 (Z.eqb_neq _ _) Hseq).
  destruct (Z.leb_spec kLogicalPtraceRelationCapacity (Z.of_nat j)) as [Hbig|];
    [unfold kLogicalPtraceRelationCapacity in Hbig; lia|].
  cbv zeta. rewrite Ho, Hown, Hsel, Hcls, Hc, Hev, !Z.eqb_refl. cbn [negb orb].
  destruct (negb (rq_nowait (lw_request w) =? 0)); [done|].
  destruct (EventIsExit (head_event r)) eqn:Hx; [|done].
  by rewrite (exit_head_alone r Hq Hpos Hx).
Qed.

(** C20 (liveness): The event SelectLogicalWaitEvent found can be consumed: right
    after a successful selection ConsumeLogicalWaitEvent succeeds, returns the
    selected tracee's oldest event, ends the wait and leaves a valid table; the
    event is kept for WNOWAIT, else taken from the queue, and an exit event
    retires the relation. *)
Theorem selected_event_consumed t waiter m : typed_table t -> ValidateLogicalPtraceTable t = true ->
  SelectLogicalWaitEvent t waiter = (0, Some m) ->
  exists w r rest t',
    wait_map t !! waiter = Some w /\ relations t !! Z.to_nat (wm_relation_slot m) = Some r /\
    reportable t (lw_request w) r = true /\ queue_of t (lr_tracee r) = Some (head_event r :: rest) /\
    ConsumeLogicalWaitEvent t waiter m = (0, t', Some (head_event r)) /\
    ValidateLogicalPtraceTable t' = true /\ wait_map t' = delete waiter (wait_map t) /\
    forall x, queue_of t' x =
      if negb (rq_nowait (lw_request w) =? 0) then queue_of t x
      else if decide (x = lr_tracee r)
      then (if EventIsExit (head_event r) then None else Some rest) else queue_of t x.
Proof.
  intros Hty Hv Hsel. apply Validate_table_ok in Hv as Hok; [|done].
  destruct (select_found t waiter m Hok Hsel) as (i & w & j & r & Hi & Hfw & Hwm & Hj & Hr & ->).
  pose proof (consume_selected t waiter i w j r Hok Hfw Hi Hj Hr) as Hz.
  assert (0 <= wm_relation_slot (match_of (Z.of_nat j) r)) as Hs0 by (cbn; lia).
  pose proof (ConsumeLogicalWaitEvent_ok t waiter _ Hok Hs0) as Hc.
  destruct (ConsumeLogicalWaitEvent t waiter _) as [[error t'] event]. simpl in Hz. subst error.
  destruct Hc as (Hok' & _ & _ & Heff). destruct (Heff eq_refl) as (w' & r' & Hw' & Hi' & Hpos & Hwf & -> & Hwd & Hrel).
  rewrite Hwm in Hw'. injection Hw' as <-. destruct Hi' as [Hj' Hu]. cbn in Hj'. rewrite Nat2Z.id, Hj in Hj'.
  injection Hj' as <-. destruct (pending_head r Hwf Hpos) as [rest Hh].
  destruct (relation_at t j r Hok (conj Hj Hu)) as (Hm & _).
  exists w, r, rest, t'. split; [done|]. split; [cbn; by rewrite Nat2Z.id|]. split; [done|].
  split; [unfold queue_of; rewrite Hm; simpl; by rewrite Hh|]. split; [done|].
  split; [apply Validate_table_ok; [apply Hok'|done]|]. split; [done|]. intros x.
  destruct (negb (rq_nowait (lw_request w) =? 0)); [unfold queue_of; by rewrite Hrel|].
  destruct (EventIsExit (head_event r)).
  - by apply queue_of_delete.
  - rewrite (queue_of_insert _ _ _ _ x Hrel). rewrite (proj1 (pending_pop r Hwf Hpos)). by rewrite Hh.
Qed.

(** ** Witnesses: thread 10 waits for its stopped tracee *)

Definition wait_any : LogicalWaitRequest := wait_request task10 kWait4 Selector_kAny 0 0 0 0x1000 0 0 1.
Definition waiting : LogicalPtraceTable := (BeginLogicalWait stopped wait_any).1.2.

Lemma waiting_ok : typed_table waiting /\ ValidateLogicalPtraceTable waiting = true.
Proof.
  destruct stopped_ok as [Hty Hv]. apply Validate_table_ok in Hv; [|done].
  pose proof (BeginLogicalWait_ok stopped wait_any Hv) as Hb. unfold waiting.
  destruct (BeginLogicalWait stopped wait_any) as [[e t'] s]. destruct Hb as [Hok _].
  split; [apply Hok|]. apply Validate_table_ok; [apply Hok|done].
Qed.

Lemma select_outcome_witness :
  exists j r, SelectLogicalWaitEvent waiting task10 = (0, Some (match_of (Z.of_nat j) r)) /\
    relations waiting !! j = Some r /\ head_sequence r = 1.
Proof.
  pose proof (select_outcome waiting task10 (proj1 waiting_ok) (proj2 waiting_ok)) as Hs.
  assert (lw_request <$> wait_map waiting !! task10 = Some wait_any) as Hw by (vm_compute; reflexivity).
  assert ((SelectLogicalWaitEvent waiting task10).1 = 0) as Hz by (vm_compute; reflexivity).
  assert (existsb (fun r => reportable waiting wait_any r && negb (head_sequence r =? 1)) (relations waiting) = false)
    as Hone by (vm_compute; reflexivity).
  revert Hs Hw Hz Hone. generalize waiting as t. intros t Hs Hw Hz Hone.
  destruct (wait_map t !! task10) as [w|]; [|discriminate]. injection Hw as Hw.
  rewrite Hw in Hs. destruct (SelectLogicalWaitEvent t task10) as [error found]. simpl in Hz. subst error.
  destruct Hs as [_ Hs]. destruct (Hs eq_refl) as (j & r & Hj & Hr & -> & _). exists j, r.
  split; [reflexivity|]. split; [exact Hj|].
  apply andb_true_iff in Hr as [Hr _]. destruct (Z.eqb_spec (head_sequence r) 1) as [|Hne]; [assumption|].
  assert (existsb (fun r => reportable t wait_any r && negb (head_sequence r =? 1)) (relations t) = true);
    [|congruence].
  apply existsb_exists. exists r. split; [apply list_elem_of_In; exact (list_elem_of_lookup_2 _ _ _ Hj)|].
  rewrite Hr, (proj2 (Z.eqb_neq _ _) Hne). reflexivity.
Defined.

Lemma selected_event_consumed_witness :
  exists t' event, ConsumeLogicalWaitEvent waiting task10 (Build_LogicalWaitMatch 0 0 1 1) = (0, t', Some event) /\
    ValidateLogicalPtraceTable t' = true /\ wait_map t' = delete task10 (wait_map waiting).
Proof.
  assert (SelectLogicalWaitEvent waiting task10 = (0, Some (Build_LogicalWaitMatch 0 0 1 1))) as Hs
    by (vm_compute; reflexivity).
  destruct (selected_event_consumed waiting task10 _ (proj1 waiting_ok) (proj2 waiting_ok) Hs)
    as (w & r & rest & t' & _ & _ & _ & _ & Hc & Hv & Hw & _).
  exists t', (head_event r). split; [exact Hc|]. split; [exact Hv|exact Hw].
Defined.

(** ** The requests the two system calls build *)

Lemma s32_id x : 0 <= x < 2 ^ 31 -> s32 x = x.
Proof. intros. unfold s32, as_signed. rewrite Z.mod_small by lia. destruct (Z.ltb_spec x (2 ^ (32 - 1))); lia. Qed.

(** The children a waiting system call asks for. *)
Inductive wait_target := TargetAny | TargetTid (id : Z) | TargetGroup (id : Z).

(** waitpid(2): [pid] greater than 0, 0, -1, less than -1. *)
Definition wait4_target (pid caller_group : Z) : option wait_target :=
  if 0 <? pid then Some (TargetTid pid)
  else if pid =? 0 then (if 0 <? caller_group then Some (TargetGroup caller_group) else None)
  else if pid =? -1 then Some TargetAny
  else if pid =? INT32_MIN then None else Some (TargetGroup (- pid)).

(** waitid(2): P_ALL, P_PID, P_PGID (0 for the caller's group). *)
Definition waitid_target (id_type id caller_group : Z) : option wait_target :=
  if id_type =? IdType_kAll then Some TargetAny
  else if id_type =? IdType_kPid then
    (if (0 <? id) && (id <=? INT32_MAX) then Some (TargetTid id) else None)
  else if id_type =? IdType_kProcessGroup then
    (if id =? 0 then (if 0 <? caller_group then Some (TargetGroup caller_group) else None)
     else if id <=? INT32_MAX then Some (TargetGroup id) else None)
  else None.

(** Whether a tracee is among them. *)
Definition in_target (t : LogicalPtraceTable) (target : wait_target) (r : LogicalPtraceRelation) : bool :=
  match target with
  | TargetAny => true
  | TargetTid id => tk_tid (lr_tracee r) =? id
  | TargetGroup id =>
    match process_map t !! LogicalProcessKeyForTask (lr_tracee r) with
    | Some p => lp_process_group p =? id
    | None => false
    end
  end.

Definition target_selector (target : wait_target) : Z * Z :=
  match target with
  | TargetAny => (Selector_kAny, 0)
  | TargetTid id => (Selector_kTid, id)
  | TargetGroup id => (Selector_kProcessGroup, id)
  end.

Definition target_ok (target : wait_target) : Prop :=
  match target with TargetAny => True | TargetTid id | TargetGroup id => 0 < id end.

Lemma SelectorMatches_target t r q target : table_ok t ->
  (rq_selector_kind q, rq_selector_id q) = target_selector target ->
  SelectorMatches t r q = in_target t target r.
Proof.
  intros Hok Hq. unfold SelectorMatches.
  destruct target as [|id|id]; simpl in Hq; injection Hq as -> ->; [done|done|]. simpl.
  find_process t (LogicalProcessKeyForTask (lr_tracee r)) Hok; [|by rewrite Hf].
  destruct Hf as (p & Hi & _ & -> & _). by rewrite (list_lookup_total_correct _ _ _ (proj1 Hi)).
Qed.

(** Options inside a mask have no bit outside it. *)
Lemma masked_has options mask bit : unknown_bits options mask = false ->
  Z.land (not64 mask) bit = bit -> has options bit = false.
Proof.
  unfold unknown_bits, has. intros Hu Hb. apply negb_false_iff, Z.eqb_eq in Hu.
  by rewrite <- Hb, Z.land_assoc, Hu.
Qed.

Lemma request_valid waiter kind options nowait status info rusage token target :
  TaskKeyValid waiter = true -> target_ok target ->
  nowait = (if has options kLogicalWaitNowait then 1 else 0) ->
  (kind = kWait4 /\ unknown_bits options kWait4OptionMask = false /\ info = 0 \/
   kind = kWaitId /\ unknown_bits options kWaitIdOptionMask = false /\ status = 0 /\
   has options (kLogicalWaitStopped ||| kLogicalWaitExited ||| kLogicalWaitContinued) = true) ->
  WaitRequestValid (wait_request waiter kind (target_selector target).1 (target_selector target).2 options
    nowait status info rusage token) = true.
Proof.
  intros Hw Ht -> Hkind. unfold WaitRequestValid, wait_request. cbn [rq_waiter rq_kind rq_selector_kind
    rq_selector_id rq_options rq_nohang rq_nowait rq_reserved rq_status_address rq_info_address].
  rewrite Hw, !Z.eqb_refl.
  assert (WaitKindValid kind = true) as -> by (by destruct Hkind as [[-> _]|[-> _]]).
  assert (WaitSelectorValid (target_selector target).1 = true) as -> by (by destruct target).
  assert ((1 <? (if has options kLogicalWaitNoHang then 1 else 0)) = false) as ->
    by (by destruct (has options kLogicalWaitNoHang)).
  assert ((1 <? (if has options kLogicalWaitNowait then 1 else 0)) = false) as ->
    by (by destruct (has options kLogicalWaitNowait)).
  assert ((if (target_selector target).1 =? Selector_kAny
           then negb ((target_selector target).2 =? 0) else (target_selector target).2 <=? 0) = false) as ->
    by (destruct target; simpl in *; [done|lia|lia]).
  cbn [negb orb]. destruct Hkind as [(-> & Hu & ->)|(-> & Hu & -> & Hh)].
  - cbn [Z.eqb Pos.eqb kWait4]. rewrite Hu, (masked_has options _ kLogicalWaitNowait Hu) by done. done.
  - change (kWaitId =? kWait4) with false. cbn [negb]. by rewrite Hu, Hh.
Qed.

(** The builders of wait requests implement the target rules
    of wait4 and waitid: for a valid waiter and known options they succeed
    exactly for the arguments that name a target, with a request that
    WaitRequestValid accepts and that selects, in every valid table, exactly
    the tracees of that target. *)
Theorem wait_requests_select waiter arg id_type id group options address rusage token :
  TaskKeyValid waiter = true -> INT32_MIN <= arg <= INT32_MAX -> 0 <= id < 2 ^ 64 ->
  (forall t, typed_table t -> ValidateLogicalPtraceTable t = true ->
   unknown_bits options kWait4OptionMask = false ->
   match BuildLogicalWait4Request waiter arg group options address rusage token, wait4_target arg group with
   | (error, Some q), Some target => error = 0 /\ WaitRequestValid q = true /\ rq_waiter q = waiter /\
       forall r, SelectorMatches t r q = in_target t target r
   | (error, None), None => error = EINVAL
   | _, _ => False
   end) /\
  (forall t, typed_table t -> ValidateLogicalPtraceTable t = true ->
   unknown_bits options kWaitIdOptionMask = false ->
   has options (kLogicalWaitStopped ||| kLogicalWaitExited ||| kLogicalWaitContinued) = true ->
   match BuildLogicalWaitIdRequest waiter id_type id group options address rusage token,
         waitid_target id_type id group with
   | (error, Some q), Some target => error = 0 /\ WaitRequestValid q = true /\ rq_waiter q = waiter /\
       forall r, SelectorMatches t r q = in_target t target r
   | (error, None), None => error = (if id_type =? IdType_kPidFd then EOPNOTSUPP else EINVAL)
   | _, _ => False
   end).
Proof.
  intros Hw Harg Hid. split; intros t Hty Hv Hu; apply Validate_table_ok in Hv as Hok; try done.
  - assert (forall target, target_ok target ->
      let q := wait_request waiter kWait4 (target_selector target).1 (target_selector target).2 options 0
        address 0 rusage token in
      0 = 0 /\ WaitRequestValid q = true /\ rq_waiter q = waiter /\
      forall r, SelectorMatches t r q = in_target t target r) as Hq.
    { intros target Ht q. split; [done|]. split; [|split; [done|]].
      - apply request_valid; [done|done| |by left].
        by rewrite (masked_has options _ kLogicalWaitNowait Hu).
      - intros r. apply SelectorMatches_target; [done|]. by destruct target. }
    unfold BuildLogicalWait4Request, wait4_target. rewrite Hw, Hu. cbn [negb orb].
    destruct (Z.ltb_spec 0 arg); [by apply (Hq (TargetTid arg))|].
    destruct (Z.eqb_spec arg 0).
    { rewrite Z.leb_antisym. destruct (Z.ltb_spec 0 group); [by apply (Hq (TargetGroup group))|done]. }
    destruct (Z.eqb_spec arg (-1)); [by apply (Hq TargetAny)|].
    destruct (Z.eqb_spec arg INT32_MIN); [done|]. apply (Hq (TargetGroup (- arg))). simpl. lia.
  - intros Hh. assert (forall target, target_ok target ->
      let q := wait_request waiter kWaitId (target_selector target).1 (target_selector target).2 options
        (if has options kLogicalWaitNowait then 1 else 0) 0 address rusage token in
      0 = 0 /\ WaitRequestValid q = true /\ rq_waiter q = waiter /\
      forall r, SelectorMatches t r q = in_target t target r) as Hq.
    { intros target Ht q. split; [done|]. split; [|split; [done|]].
      - by apply request_valid; [| | |right].
      - intros r. apply SelectorMatches_target; [done|]. by destruct target. }
    unfold BuildLogicalWaitIdRequest, waitid_target. rewrite Hw, Hu, Hh. cbn [negb orb].
    destruct (Z.eqb_spec id_type IdType_kAll) as [->|]; [by apply (Hq TargetAny)|].
    destruct (Z.eqb_spec id_type IdType_kPid) as [->|].
    { rewrite (Z.leb_antisym INT32_MAX id). destruct (Z.eqb_spec id 0) as [->|]; [done|].
      destruct (Z.ltb_spec 0 id); [|lia]. cbn [negb orb andb].
      destruct (Z.ltb_spec INT32_MAX id); [done|]. rewrite s32_id by (unfold INT32_MAX in *; lia).
      apply (Hq (TargetTid id)). simpl. lia. }
    destruct (Z.eqb_spec id_type IdType_kProcessGroup) as [->|]; [|by destruct (id_type =? IdType_kPidFd)].
    rewrite (Z.leb_antisym INT32_MAX id), (Z.leb_antisym 0 group).
    destruct (Z.eqb_spec id 0) as [->|].
    { change (INT32_MAX <? 0) with false. cbn [negb orb andb].
      destruct (Z.ltb_spec 0 group); [by apply (Hq (TargetGroup group))|done]. }
    rewrite orb_false_r. destruct (Z.ltb_spec INT32_MAX id); [done|].
    rewrite s32_id by (unfold INT32_MAX in *; lia). apply (Hq (TargetGroup id)). simpl. lia.
Qed.

Lemma wait_requests_select_witness :
  exists q, BuildLogicalWait4Request task10 (-20) 10 0 0x1000 0 1 = (0, Some q) /\
    WaitRequestValid q = true /\
    forall r, SelectorMatches waiting r q = in_target waiting (TargetGroup 20) r.
Proof.
  destruct (wait_requests_select task10 (-20) 1 0 10 0 0x1000 0 1 eq_refl
    ltac:(split; discriminate) ltac:(split; [discriminate|reflexivity])) as [Hb _].
  specialize (Hb waiting (proj1 waiting_ok) (proj2 waiting_ok) eq_refl).
  destruct (BuildLogicalWait4Request task10 (-20) 10 0 0x1000 0 1) as [error [q|]] eqn:E; [|discriminate].
  change (wait4_target (-20) 10) with (Some (TargetGroup 20)) in Hb. destruct Hb as (-> & Hv & _ & Hs).
  exists q. split; [reflexivity|]. split; [exact Hv|exact Hs].
Defined.
