(* ===== verification/Dispatcher.v ===== *)
(** * The logical ptrace dispatcher: data and helpers (internal/logical_ptrace_dispatcher.{h,cpp})

    The dispatcher answers the [ptrace], [wait4] and [waitid] calls of traced
    programs from the logical ptrace table. It keeps one in-flight operation
    per caller and, per relation, the stop that was last delivered to the
    tracer. What the callbacks of [LogicalPtraceDispatchIo] refer to through
    [opaque] is a type [W]; a handler is a function in the state monad over the
    dispatcher, the logical table and [W]. *)

From S2P Require Import Prelude Bits SlotArray LogicalPtrace LogicalPtraceOps.
From stdpp Require Import list gmap.
#[local] Open Scope Z_scope.

(** ** Constants *)

Definition kLogicalPtraceDispatchCapacity : Z := 512.
Definition kLogicalPtraceDispatchMagic : Z := 0x48534c44.
Definition kLogicalPtraceDispatchVersion : Z := 1.
Definition kLogicalPtraceDispatchInvalidSlot : Z := UINT32_MAX.

(** enum class LogicalPtraceTargetAction *)
Definition Action_kNone : Z := 0.
Definition Action_kInterrupt : Z := 1.
Definition Action_kResumeCont : Z := 2.
Definition Action_kResumeSyscall : Z := 3.
Definition Action_kListen : Z := 4.
Definition Action_kDetach : Z := 5.
Definition Action_kResumeSingleStep : Z := 6.

Definition kLogicalPtraceTargetRegistersValid : Z := 1.
Definition kLogicalPtraceTargetSyscallNumberValid : Z := 2.
Definition kLogicalPtraceTargetSiginfoValid : Z := 4.

Definition kLogicalPtraceEntryHandled : Z := 1.
Definition kLogicalPtraceEntrySuppress : Z := 2.
Definition kLogicalPtraceEntryMayHold : Z := 4.
Definition kLogicalPtraceEntryTargetAction : Z := 8.

Definition kLogicalPtraceExitHandled : Z := 1.
Definition kLogicalPtraceExitWriteResult : Z := 2.
Definition kLogicalPtraceExitHold : Z := 4.

(** enum class LogicalPtraceOperationState *)
Definition kImmediate : Z := 1.
Definition kHeldWait : Z := 2.
Definition kHeldReady : Z := 3.

Definition kLogicalPtraceStopCurrentValid : Z := 1.
Definition kLogicalPtraceStopInterruptPending : Z := 2.
Definition kLogicalPtraceStopAttachPending : Z := 4.
Definition kLogicalPtraceStopFlagMask : Z :=
  kLogicalPtraceStopCurrentValid ||| kLogicalPtraceStopInterruptPending |||
  kLogicalPtraceStopAttachPending.

(** The other event kinds of the logical table. *)
Definition kInterruptStop : Z := 2.
Definition kSignalDelivery : Z := 3.
Definition kGroupStop : Z := 4.
Definition kSyscallEntry : Z := 5.
Definition kSyscallExit : Z := 6.
Definition kPtraceEvent : Z := 7.

(** ** Data *)

Record LogicalPtraceTargetRequest := {
  tr_action : Z; tr_flags : Z; tr_target : LogicalTaskKey; tr_signal_number : Z;
  tr_syscall_number : Z; tr_stop_kind : Z; tr_reserved : Z; tr_signal_info : list Z;
  tr_registers : Arm64Regs }.

Record LogicalPtraceEntryResult := {
  er_flags : Z; er_operation_slot : Z; er_visible_result : Z; er_syscall_number : Z;
  er_reserved : Z; er_target : LogicalPtraceTargetRequest }.

Record LogicalPtraceExitResult := { xr_flags : Z; xr_operation_slot : Z; xr_visible_result : Z }.

Record LogicalPtraceDispatchOperation := {
  do_occupied : Z; do_slot : Z; do_generation : Z; do_caller : LogicalTaskKey;
  do_syscall_number : Z; do_state : Z; do_visible_result : Z }.

Record LogicalPtraceDispatchStop := {
  ds_flags : Z; ds_relation_slot : Z; ds_relation_generation : Z; ds_tracee : LogicalTaskKey;
  ds_current : LogicalPtraceEvent }.

Record LogicalPtraceDispatcher := {
  ld_magic : Z; ld_version : Z; ld_operation_count : Z; ld_operation_free_hint : Z;
  ld_mutation_generation : Z; ld_next_operation_generation : Z;
  ld_operations : list LogicalPtraceDispatchOperation; ld_stops : list LogicalPtraceDispatchStop }.

Record PtraceOutcome := { po_handled : bool; po_result : Z; po_target : LogicalPtraceTargetRequest }.

Definition zero_target : LogicalPtraceTargetRequest :=
  Build_LogicalPtraceTargetRequest Action_kNone 0 zero_task_key 0 0 0 0 (replicate 128 0) zero_regs.

Definition ClearOperation (slot : Z) : LogicalPtraceDispatchOperation :=
  Build_LogicalPtraceDispatchOperation 0 slot 0 zero_task_key 0 0 0.

Definition ClearStop (slot : Z) : LogicalPtraceDispatchStop :=
  Build_LogicalPtraceDispatchStop 0 slot 0 zero_task_key cleared_event.

#[export] Instance operation_inhabited : Inhabited LogicalPtraceDispatchOperation :=
  populate (ClearOperation 0).
#[export] Instance stop_inhabited : Inhabited LogicalPtraceDispatchStop := populate (ClearStop 0).

#[export] Instance operation_slots : SlotRecord LogicalPtraceDispatchOperation LogicalTaskKey := {|
  sr_occupied := do_occupied; sr_slot := do_slot; sr_key := do_caller;
  sr_same := LogicalTaskKeysEqual; sr_key_ok := TaskKeyValid;
  sr_same_spec := fun k k' _ _ => LogicalTaskKeysEqual_spec k k' |}.

(** ** Writing a dispatcher *)

Definition set_operations (d : LogicalPtraceDispatcher) (count hint next : Z)
    (ops : list LogicalPtraceDispatchOperation) : LogicalPtraceDispatcher :=
  Build_LogicalPtraceDispatcher (ld_magic d) (ld_version d) count hint (ld_mutation_generation d) next
    ops (ld_stops d).

Definition set_stops (d : LogicalPtraceDispatcher) (stops : list LogicalPtraceDispatchStop)
    : LogicalPtraceDispatcher :=
  Build_LogicalPtraceDispatcher (ld_magic d) (ld_version d) (ld_operation_count d)
    (ld_operation_free_hint d) (ld_mutation_generation d) (ld_next_operation_generation d)
    (ld_operations d) stops.

(** [++dispatcher->mutation_generation] *)
Definition dbump (d : LogicalPtraceDispatcher) : LogicalPtraceDispatcher :=
  Build_LogicalPtraceDispatcher (ld_magic d) (ld_version d) (ld_operation_count d)
    (ld_operation_free_hint d) (u64 (ld_mutation_generation d + 1)) (ld_next_operation_generation d)
    (ld_operations d) (ld_stops d).

(** The operation, the stop record at an index replaced. *)
Definition put_operation (i : nat) (o : LogicalPtraceDispatchOperation) (d : LogicalPtraceDispatcher)
    : LogicalPtraceDispatcher :=
  set_operations d (ld_operation_count d) (ld_operation_free_hint d) (ld_next_operation_generation d)
    (<[i := o]> (ld_operations d)).

Definition put_stop (s : nat) (stop : LogicalPtraceDispatchStop) (d : LogicalPtraceDispatcher)
    : LogicalPtraceDispatcher := set_stops d (<[s := stop]> (ld_stops d)).

Definition with_flags (stop : LogicalPtraceDispatchStop) (flags : Z) : LogicalPtraceDispatchStop :=
  Build_LogicalPtraceDispatchStop flags (ds_relation_slot stop) (ds_relation_generation stop)
    (ds_tracee stop) (ds_current stop).

Definition with_current (stop : LogicalPtraceDispatchStop) (current : LogicalPtraceEvent)
    : LogicalPtraceDispatchStop :=
  Build_LogicalPtraceDispatchStop (ds_flags stop) (ds_relation_slot stop) (ds_relation_generation stop)
    (ds_tracee stop) current.

(** ** Initialisation *)

Definition InitLogicalPtraceDispatcher : LogicalPtraceDispatcher :=
  Build_LogicalPtraceDispatcher kLogicalPtraceDispatchMagic kLogicalPtraceDispatchVersion 0 0 0 1
    (ClearOperation <$> seqZ 0 kLogicalPtraceDispatchCapacity)
    (ClearStop <$> seqZ 0 kLogicalPtraceDispatchCapacity).

Definition IsLogicalPtraceDispatcherInitialized (d : LogicalPtraceDispatcher) : bool :=
  (ld_magic d =? kLogicalPtraceDispatchMagic) && (ld_version d =? kLogicalPtraceDispatchVersion) &&
  (ld_operation_count d <=? kLogicalPtraceDispatchCapacity) &&
  (ld_operation_free_hint d <? kLogicalPtraceDispatchCapacity) &&
  negb (ld_next_operation_generation d =? 0).

Definition LogicalPtraceOperationAt (d : LogicalPtraceDispatcher) (slot : Z) : option Z :=
  if negb (IsLogicalPtraceDispatcherInitialized d) || (kLogicalPtraceDispatchCapacity <=? slot) ||
     (do_occupied (ld_operations d !!! Z.to_nat slot) =? 0) then None else Some slot.

(** ** Operations in flight *)

Definition OperationStateValid (state : Z) : bool :=
  (state =? kImmediate) || (state =? kHeldWait) || (state =? kHeldReady).

Definition FindOperation (d : LogicalPtraceDispatcher) (caller : LogicalTaskKey) : option nat :=
  if negb (IsLogicalPtraceDispatcherInitialized d) then None
  else find_slot caller (ld_operations d).

(** The slot output is the invalid slot on every error. *)
Definition InsertOperation (d : LogicalPtraceDispatcher) (caller : LogicalTaskKey)
    (syscall_number state result : Z) : Z * LogicalPtraceDispatcher * Z :=
  if FindOperation d caller is Some _ then (EBUSY, d, kLogicalPtraceDispatchInvalidSlot)
  else if ld_operation_count d =? kLogicalPtraceDispatchCapacity
  then (ENOSPC, d, kLogicalPtraceDispatchInvalidSlot)
  else match free_slot (ld_operation_free_hint d) (ld_operations d) with
  | None => (ENOSPC, d, kLogicalPtraceDispatchInvalidSlot)
  | Some candidate =>
    let '(generation, next) := AllocateSequence (ld_next_operation_generation d) in
    let operation := Build_LogicalPtraceDispatchOperation 1 candidate generation caller syscall_number
      state result in
    (0, dbump (set_operations d (u32 (ld_operation_count d + 1))
                 (advance_hint candidate kLogicalPtraceDispatchCapacity) next
                 (<[Z.to_nat candidate := operation]> (ld_operations d))), candidate)
  end.

Definition EraseOperation (d : LogicalPtraceDispatcher) (slot : Z) : LogicalPtraceDispatcher :=
  dbump (set_operations d (u32 (ld_operation_count d - 1)) slot (ld_next_operation_generation d)
           (<[Z.to_nat slot := ClearOperation slot]> (ld_operations d))).

(** ** Stop records *)

Definition EventSnapshotValid (event : LogicalPtraceEvent) : bool :=
  negb (ev_sequence event =? 0) && (kAttachStop <=? ev_kind event) && (ev_kind event <=? kContinued) &&
  negb (unknown_bits (ev_flags event) kLogicalPtraceEventFlagMask) &&
  (0 <=? ev_signal_number event) && (ev_signal_number event <? NSIG) && (ev_reserved event =? 0) &&
  (has (ev_flags event) kEventFlagSyscallNumberValid || (ev_guest_syscall_number event =? -1)).

(** A stop record is its index; [None] is the null pointer. *)
Definition EnsureStopRecord (d : LogicalPtraceDispatcher) (relation : LogicalPtraceRelation)
    : option nat * LogicalPtraceDispatcher :=
  if kLogicalPtraceDispatchCapacity <=? lr_slot relation then (None, d)
  else
    let s := Z.to_nat (lr_slot relation) in
    let stop := ld_stops d !!! s in
    if negb (ds_relation_generation stop =? lr_generation relation) ||
       negb (LogicalTaskKeysEqual (ds_tracee stop) (lr_tracee relation))
    then (Some s, put_stop s (Build_LogicalPtraceDispatchStop 0 (lr_slot relation) (lr_generation relation)
                                (lr_tracee relation) cleared_event) d)
    else (Some s, d).

Definition CurrentStop (d : LogicalPtraceDispatcher) (relation : LogicalPtraceRelation)
    : option nat * LogicalPtraceDispatcher :=
  let '(stop, d) := EnsureStopRecord d relation in
  match stop with
  | Some s => (if has (ds_flags (ld_stops d !!! s)) kLogicalPtraceStopCurrentValid then Some s else None, d)
  | None => (None, d)
  end.

Definition ForgetStop (relation_slot : Z) (d : LogicalPtraceDispatcher) : LogicalPtraceDispatcher :=
  if relation_slot <? kLogicalPtraceDispatchCapacity
  then dbump (put_stop (Z.to_nat relation_slot) (ClearStop relation_slot) d)
  else d.

Definition RememberDeliveredStop (relation_slot relation_generation : Z) (tracee : LogicalTaskKey)
    (event : LogicalPtraceEvent) (d : LogicalPtraceDispatcher) : LogicalPtraceDispatcher :=
  if kLogicalPtraceDispatchCapacity <=? relation_slot then d
  else dbump (put_stop (Z.to_nat relation_slot)
    (Build_LogicalPtraceDispatchStop kLogicalPtraceStopCurrentValid relation_slot relation_generation
       tracee event) d).

Definition FillTargetFromStop (action : Z) (target : LogicalTaskKey) (signal_number : Z)
    (stop : option LogicalPtraceDispatchStop) : LogicalPtraceTargetRequest :=
  match stop with
  | None => Build_LogicalPtraceTargetRequest action 0 target signal_number (-1) 0 0
      (replicate 128 0) zero_regs
  | Some stop =>
    let current := ds_current stop in
    let registers := has (ev_flags current) kEventFlagRegistersValid in
    let number := has (ev_flags current) kEventFlagSyscallNumberValid in
    let siginfo := has (ev_flags current) kEventFlagSiginfoValid in
    Build_LogicalPtraceTargetRequest action
      ((if registers then kLogicalPtraceTargetRegistersValid else 0) |||
       (if number then kLogicalPtraceTargetSyscallNumberValid else 0) |||
       (if siginfo then kLogicalPtraceTargetSiginfoValid else 0))
      target signal_number (if number then ev_guest_syscall_number current else -1) (ev_kind current) 0
      (if siginfo then ev_signal_info current else replicate 128 0)
      (if registers then ev_guest_registers current else zero_regs)
  end.

Definition RelationOwnedByCaller (relation : LogicalPtraceRelation) (caller : LogicalTaskKey) : bool :=
  (tk_tgid (lr_tracer relation) =? tk_tgid caller) &&
  (tk_process_generation (lr_tracer relation) =? tk_process_generation caller).

(** ** Registers as the bytes of NT_PRSTATUS *)

Definition regs_bytes (r : Arm64Regs) : list Z :=
  (ar_regs r ++ [ar_sp r; ar_pc r; ar_pstate r]) ≫= le_bytes 8.

(** The 64-bit word at a byte offset. *)
Definition word_at (bs : list Z) (offset : nat) : Z := le_value (take 8 (drop offset bs)).

Definition regs_of_bytes (bs : list Z) : Arm64Regs :=
  Build_Arm64Regs ((fun i => word_at bs (8 * i)) <$> seq 0 31) (word_at bs 248) (word_at bs 256)
    (word_at bs 264).

Definition sizeof_Arm64Regs : Z := 272.
Definition sizeof_siginfo : Z := 128.
Definition sizeof_rusage : Z := 144.

(** ** The handlers' monad *)

(** The callbacks of LogicalPtraceDispatchIo; [None] is a null pointer. Each
    returns its errno value, the output it stored and the state it left. *)
Record LogicalPtraceDispatchIo {W : Type} := {
  resolve_task : option (W -> LogicalTaskKey -> Z -> Z * LogicalTaskKey * W);
  resolve_parent : option (W -> LogicalTaskKey -> Z * LogicalTaskKey * W);
  may_attach : option (W -> LogicalTaskKey -> LogicalTaskKey -> Z -> Z * W);
  read_memory : option (W -> LogicalTaskKey -> Z -> Z -> Z * list Z * W);
  write_memory : option (W -> LogicalTaskKey -> Z -> list Z -> Z * W);
  query_uid : option (W -> LogicalTaskKey -> Z * Z * W);
  fill_rusage : option (W -> LogicalTaskKey -> LogicalPtraceEvent -> Z -> Z * list Z * W) }.
Arguments LogicalPtraceDispatchIo : clear implicits.

(** What a handler reads and writes. *)
Record Env {W : Type} := {
  dispatcher : LogicalPtraceDispatcher; logical : LogicalPtraceTable; world : W }.
Arguments Env : clear implicits.

Declare Scope dispatch_scope.
Delimit Scope dispatch_scope with dispatch.

Section Monad.
Context {W : Type}.

Definition M (A : Type) : Type := Env W -> A * Env W.

Definition ret {A} (x : A) : M A := fun e => (x, e).
Definition bind {A B} (m : M A) (k : A -> M B) : M B := fun e => let '(x, e') := m e in k x e'.

Definition set_dispatcher (e : Env W) (d : LogicalPtraceDispatcher) : Env W :=
  {| dispatcher := d; logical := logical e; world := world e |}.
Definition set_logical (e : Env W) (t : LogicalPtraceTable) : Env W :=
  {| dispatcher := dispatcher e; logical := t; world := world e |}.
Definition set_world (e : Env W) (w : W) : Env W :=
  {| dispatcher := dispatcher e; logical := logical e; world := w |}.

Definition get_dispatcher : M LogicalPtraceDispatcher := fun e => (dispatcher e, e).
Definition get_logical : M LogicalPtraceTable := fun e => (logical e, e).

(** A call that writes the dispatcher, with and without a result. *)
Definition on_dispatcher {A} (f : LogicalPtraceDispatcher -> A * LogicalPtraceDispatcher) : M A :=
  fun e => let '(x, d) := f (dispatcher e) in (x, set_dispatcher e d).
Definition write_dispatcher (f : LogicalPtraceDispatcher -> LogicalPtraceDispatcher) : M unit :=
  fun e => (tt, set_dispatcher e (f (dispatcher e))).

(** A call of an operation of the logical table: its errno value, and with an
    output parameter. *)
Definition on_logical (f : LogicalPtraceTable -> Z * LogicalPtraceTable) : M Z :=
  fun e => let '(error, t) := f (logical e) in (error, set_logical e t).
Definition on_logical_out {A} (f : LogicalPtraceTable -> Z * LogicalPtraceTable * A) : M (Z * A) :=
  fun e => let '(error, t, x) := f (logical e) in ((error, x), set_logical e t).

Definition CallbackError (error : Z) : Z := if 0 <=? error then error else EPROTO.

(** A callback, through CallbackError. *)
Definition call_io {A} (f : W -> Z * A * W) : M (Z * A) :=
  fun e => let '(error, x, w) := f (world e) in ((CallbackError error, x), set_world e w).
Definition call_io_ (f : W -> Z * W) : M Z :=
  fun e => let '(error, w) := f (world e) in (CallbackError error, set_world e w).
End Monad.
Arguments M : clear implicits.

Notation "'let*' x ':=' m 'in' k" := (bind m (fun x => k))
  (at level 10, x pattern, m at level 100, k at level 200) : dispatch_scope.
