(* ===== verification/DispatcherOps.v ===== *)
(** * The handlers of the logical ptrace dispatcher (internal/logical_ptrace_dispatcher.cpp)

    Every entry point of the dispatcher and the handlers behind it, in the
    order of the code: the emulated [ptrace] requests, the waits, the exit of
    a suppressed call, publishing a stop, waking and cancelling, rekeying, and
    the validator. A pointer to a relation or a stop record is its index. *)

From S2P Require Import Prelude Bits SlotArray LogicalPtrace LogicalPtraceOps Dispatcher.
From stdpp Require Import list gmap.
#[local] Open Scope Z_scope.
#[local] Open Scope dispatch_scope.

(** ** Constants of the kernel interface *)

Definition ENOENT : Z := 2.
Definition EFAULT : Z := 14.
Definition ENOSYS : Z := 38.

Definition NR_waitid : Z := 95.
Definition NR_ptrace : Z := 117.
Definition NR_wait4 : Z := 260.

Definition PTRACE_TRACEME : Z := 0.
Definition PTRACE_PEEKTEXT : Z := 1.
Definition PTRACE_PEEKDATA : Z := 2.
Definition PTRACE_PEEKUSR : Z := 3.
Definition PTRACE_POKETEXT : Z := 4.
Definition PTRACE_POKEDATA : Z := 5.
Definition PTRACE_POKEUSR : Z := 6.
Definition PTRACE_CONT : Z := 7.
Definition PTRACE_KILL : Z := 8.
Definition PTRACE_SINGLESTEP : Z := 9.
Definition PTRACE_ATTACH : Z := 16.
Definition PTRACE_DETACH : Z := 17.
Definition PTRACE_SYSCALL : Z := 24.
Definition PTRACE_SETOPTIONS : Z := 0x4200.
Definition PTRACE_GETEVENTMSG : Z := 0x4201.
Definition PTRACE_GETSIGINFO : Z := 0x4202.
Definition PTRACE_SETSIGINFO : Z := 0x4203.
Definition PTRACE_GETREGSET : Z := 0x4204.
Definition PTRACE_SETREGSET : Z := 0x4205.
Definition PTRACE_SEIZE : Z := 0x4206.
Definition PTRACE_INTERRUPT : Z := 0x4207.
Definition PTRACE_LISTEN : Z := 0x4208.
Definition PTRACE_GET_SYSCALL_INFO : Z := 0x420e.

Definition NT_PRSTATUS : Z := 1.
Definition NT_ARM_SYSTEM_CALL : Z := 0x404.
Definition PTRACE_EVENT_SECCOMP : Z := 7.
Definition AUDIT_ARCH_AARCH64 : Z := 0xC00000B7.
Definition SIGKILL : Z := 9.
Definition SIGCHLD : Z := 17.
Definition SIGCONT : Z := 18.

(** The wait status macros of the libc. *)
Definition WTERMSIG (status : Z) : Z := status &&& 0x7f.
Definition WEXITSTATUS (status : Z) : Z := (status &&& 0xff00) >>> 8.
Definition WIFEXITED (status : Z) : bool := WTERMSIG status =? 0.
Definition WCOREDUMP (status : Z) : bool := has status 0x80.
Definition WIFSTOPPED (status : Z) : bool := WTERMSIG status =? 0x7f.
Definition WSTOPSIG (status : Z) : Z := WEXITSTATUS status.
Definition WIFSIGNALED (status : Z) : bool := 2 <=? WTERMSIG (s32 (status + 1)).

(** siginfo_t of waitid: si_signo, si_code, si_pid, si_uid, si_status at their
    offsets in 128 zeroed bytes. *)
Definition BuildWaitIdSiginfo (tracee : LogicalTaskKey) (event : LogicalPtraceEvent) (uid : Z) : list Z :=
  let '(si_code, si_status) :=
    if ev_kind event =? kExited then
      (1, if WIFEXITED (ev_wait_status event) then WEXITSTATUS (ev_wait_status event) else 0)
    else if ev_kind event =? kSignaled then
      (if WCOREDUMP (ev_wait_status event) then 3 else 2,
       if WIFSIGNALED (ev_wait_status event) then WTERMSIG (ev_wait_status event)
       else ev_signal_number event)
    else if ev_kind event =? kContinued then (6, SIGCONT)
    else (4, if WIFSTOPPED (ev_wait_status event) then WSTOPSIG (ev_wait_status event)
             else ev_signal_number event) in
  le_bytes 4 SIGCHLD ++ le_bytes 4 0 ++ le_bytes 4 si_code ++ le_bytes 4 0 ++
  le_bytes 4 (tk_tid tracee) ++ le_bytes 4 uid ++ le_bytes 4 si_status ++ replicate 100 0.

(** struct ptrace_syscall_info with the fields of one variant behind the
    common 24 bytes. *)
Definition syscall_info (op arch instruction_pointer stack_pointer : Z) (variant : list Z) : list Z :=
  le_bytes 4 op ++ le_bytes 4 arch ++ le_bytes 8 instruction_pointer ++ le_bytes 8 stack_pointer ++ variant.

Section Handlers.
Context {W : Type} (io : LogicalPtraceDispatchIo W).
#[local] Abbreviation M := (Dispatcher.M W).

(** ** Memory and identity callbacks *)

(** [address > UINTPTR_MAX - (size - 1U)] *)
Definition range_wraps (address size : Z) : bool := UINT64_MAX - (size - 1) <? address.

(** A zeroed local of [size] bytes after a callback has written it. *)
Definition buffer (size : Z) (written : list Z) : list Z :=
  take (Z.to_nat size) (written ++ replicate (Z.to_nat size) 0).

Definition ReadMemory (task : LogicalTaskKey) (address size : Z) : M (Z * list Z) :=
  if size =? 0 then ret (0, [])
  else match read_memory io with
  | None => ret (ENOSYS, [])
  | Some read =>
    if (address =? 0) || range_wraps address size then ret (EFAULT, [])
    else
      let* (error, written) := call_io (fun w => read w task address size) in
      ret (error, buffer size written)
  end.

Definition WriteMemory (task : LogicalTaskKey) (address : Z) (input : list Z) : M Z :=
  let size := Z.of_nat (length input) in
  if size =? 0 then ret 0
  else match write_memory io with
  | None => ret ENOSYS
  | Some write =>
    if (address =? 0) || range_wraps address size then ret EFAULT
    else call_io_ (fun w => write w task address input)
  end.

Definition checked_key (r : Z * LogicalTaskKey) : Z * LogicalTaskKey :=
  let '(error, key) := r in
  if negb (error =? 0) then (error, key) else (if TaskKeyValid key then 0 else EPROTO, key).

Definition ResolveTask (caller : LogicalTaskKey) (tid : Z) : M (Z * LogicalTaskKey) :=
  match resolve_task io with
  | None => ret (ENOSYS, zero_task_key)
  | Some resolve => let* r := call_io (fun w => resolve w caller tid) in ret (checked_key r)
  end.

Definition ResolveParent (caller : LogicalTaskKey) : M (Z * LogicalTaskKey) :=
  match resolve_parent io with
  | None => ret (ENOSYS, zero_task_key)
  | Some resolve => let* r := call_io (fun w => resolve w caller) in ret (checked_key r)
  end.

Definition CheckAttachPermission (caller target : LogicalTaskKey) (kind : Z) : M Z :=
  match may_attach io with
  | None => ret 0
  | Some check => call_io_ (fun w => check w caller target kind)
  end.

Definition QueryUid (tracee : LogicalTaskKey) : M (Z * Z) :=
  match query_uid io with
  | None => ret (0, 0)
  | Some query => call_io (fun w => query w tracee)
  end.

Definition FillWaitRusage (tracee : LogicalTaskKey) (event : LogicalPtraceEvent) : M (Z * list Z) :=
  match fill_rusage io with
  | None => ret (0, replicate (Z.to_nat sizeof_rusage) 0)
  | Some fill =>
    let* (error, written) := call_io (fun w => fill w tracee event sizeof_rusage) in
    ret (error, buffer sizeof_rusage written)
  end.

(** ** Events still queued behind a delivered stop *)

Definition UpdateQueuedRegisters (i : nat) (registers : Arm64Regs) (syscall_number_valid : bool)
    (syscall_number : Z) : M Z :=
  on_logical (fun t => let relation := relations t !!! i in
    if lr_event_count relation =? 0 then (0, t)
    else SetLogicalPtraceEventRegisters t (lr_tracee relation) registers syscall_number_valid syscall_number).

Definition UpdateQueuedSyscallNumber (i : nat) (syscall_number : Z) : M Z :=
  on_logical (fun t => let relation := relations t !!! i in
    if lr_event_count relation =? 0 then (0, t)
    else if negb (lr_state relation =? kStopped) && negb (lr_state relation =? kExitZombie) then (EBUSY, t)
    else
      let event := head_event relation in
      (0, update_relation t i (with_head_event relation
            (with_event event (ev_flags event ||| kEventFlagSyscallNumberValid) syscall_number
               (ev_signal_info event) (ev_guest_registers event))))).

Definition UpdateQueuedSiginfo (i : nat) (signal_info : list Z) : M Z :=
  on_logical (fun t => let relation := relations t !!! i in
    if lr_event_count relation =? 0 then (0, t)
    else SetLogicalPtraceEventSiginfo t (lr_tracee relation) signal_info).

(** [stop->current = ...; ++dispatcher->mutation_generation] *)
Definition write_current (s : nat) (f : LogicalPtraceEvent -> LogicalPtraceEvent) : M unit :=
  write_dispatcher (fun d => let stop := ld_stops d !!! s in
    dbump (put_stop s (with_current stop (f (ds_current stop))) d)).

(** ** Register sets and user area *)

(** The iovec in the caller's memory. *)
Definition ReadRemoteIovec (caller : LogicalTaskKey) (address : Z) : M (Z * (Z * Z)) :=
  let* (error, bs) := ReadMemory caller address 16 in ret (error, (word_at bs 0, word_at bs 8)).

Definition WriteRemoteIovec (caller : LogicalTaskKey) (address base length : Z) : M Z :=
  WriteMemory caller address (le_bytes 8 base ++ le_bytes 8 length).

Definition HandleGetRegset (caller : LogicalTaskKey) (note_type vector_address : Z)
    (stop : LogicalPtraceDispatchStop) : M Z :=
  let* (error, (base, capacity)) := ReadRemoteIovec caller vector_address in
  if negb (error =? 0) then ret error else
  let current := ds_current stop in
  let copy (source : list Z) : M Z :=
    let copy_size := Z.min capacity (Z.of_nat (length source)) in
    let* error := (if negb (copy_size =? 0)
                   then WriteMemory caller base (take (Z.to_nat copy_size) source) else ret 0) in
    if negb (error =? 0) then ret error
    else WriteRemoteIovec caller vector_address base copy_size in
  if note_type =? NT_PRSTATUS then
    if negb (has (ev_flags current) kEventFlagRegistersValid) then ret EIO
    else copy (regs_bytes (ev_guest_registers current))
  else if note_type =? NT_ARM_SYSTEM_CALL then
    if negb (has (ev_flags current) kEventFlagSyscallNumberValid) then ret EIO
    else copy (le_bytes 4 (ev_guest_syscall_number current))
  else ret EINVAL.

Definition set_current_registers (registers : Arm64Regs) (e : LogicalPtraceEvent) : LogicalPtraceEvent :=
  with_event e (ev_flags e ||| kEventFlagRegistersValid) (ev_guest_syscall_number e) (ev_signal_info e)
    registers.
Definition set_current_number (number : Z) (e : LogicalPtraceEvent) : LogicalPtraceEvent :=
  with_event e (ev_flags e ||| kEventFlagSyscallNumberValid) number (ev_signal_info e)
    (ev_guest_registers e).
Definition set_current_siginfo (info : list Z) (e : LogicalPtraceEvent) : LogicalPtraceEvent :=
  with_event e (ev_flags e ||| kEventFlagSiginfoValid) (ev_guest_syscall_number e) info
    (ev_guest_registers e).

Definition HandleSetRegset (caller : LogicalTaskKey) (note_type vector_address : Z) (i s : nat) : M Z :=
  let* (error, (base, capacity)) := ReadRemoteIovec caller vector_address in
  if negb (error =? 0) then ret error else
  let* d := get_dispatcher in
  let current := ds_current (ld_stops d !!! s) in
  if note_type =? NT_PRSTATUS then
    if capacity <? sizeof_Arm64Regs then ret EINVAL else
    let* (error, bs) := ReadMemory caller base sizeof_Arm64Regs in
    if negb (error =? 0) then ret error else
    let registers := regs_of_bytes bs in
    let* error := UpdateQueuedRegisters i registers (has (ev_flags current) kEventFlagSyscallNumberValid)
      (ev_guest_syscall_number current) in
    if negb (error =? 0) then ret error else
    let* _ := write_current s (set_current_registers registers) in ret 0
  else if note_type =? NT_ARM_SYSTEM_CALL then
    if capacity <? 4 then ret EINVAL else
    let* (error, bs) := ReadMemory caller base 4 in
    if negb (error =? 0) then ret error else
    let syscall_number := s32 (le_value (take 4 bs)) in
    let* error := UpdateQueuedSyscallNumber i syscall_number in
    if negb (error =? 0) then ret error else
    let* _ := write_current s (set_current_number syscall_number) in ret 0
  else ret EINVAL.

(** No registers, an unaligned offset or one outside the registers. *)
Definition user_offset_bad (current : LogicalPtraceEvent) (offset : Z) : bool :=
  negb (has (ev_flags current) kEventFlagRegistersValid) || has offset 7 || (sizeof_Arm64Regs - 8 <? offset).

Definition HandlePeekUser (caller : LogicalTaskKey) (offset output_address : Z)
    (stop : LogicalPtraceDispatchStop) : M Z :=
  if user_offset_bad (ds_current stop) offset then ret EIO else
  let value := word_at (regs_bytes (ev_guest_registers (ds_current stop))) (Z.to_nat offset) in
  WriteMemory caller output_address (le_bytes 8 value).

Definition poke_registers (registers : Arm64Regs) (offset value : Z) : Arm64Regs :=
  regs_of_bytes (write_bytes (regs_bytes registers) offset (le_bytes 8 value)).

Definition HandlePokeUser (offset value : Z) (i s : nat) : M Z :=
  let* d := get_dispatcher in
  let current := ds_current (ld_stops d !!! s) in
  if user_offset_bad current offset then ret EIO else
  let registers := poke_registers (ev_guest_registers current) offset value in
  let* error := UpdateQueuedRegisters i registers (has (ev_flags current) kEventFlagSyscallNumberValid)
    (ev_guest_syscall_number current) in
  if negb (error =? 0) then ret error else
  let* _ := write_current s (fun e => with_event e (ev_flags e) (ev_guest_syscall_number e)
    (ev_signal_info e) registers) in ret 0.

(** The info structure for a stop and its size, or EIO. *)
Definition get_syscall_info (current : LogicalPtraceEvent) : option (list Z * Z) :=
  let registers_valid := has (ev_flags current) kEventFlagRegistersValid in
  let number_valid := has (ev_flags current) kEventFlagSyscallNumberValid in
  let regs := ev_guest_registers current in
  let info op variant :=
    if registers_valid then syscall_info op AUDIT_ARCH_AARCH64 (ar_pc regs) (ar_sp regs) variant
    else syscall_info op 0 0 0 variant in
  let call_fields := le_bytes 8 (ev_guest_syscall_number current) ++ (take 6 (ar_regs regs) ≫= le_bytes 8) in
  if ev_kind current =? kSyscallEntry then
    if negb registers_valid || negb number_valid then None else Some (info 1 (call_fields ++ replicate 8 0), 80)
  else if ev_kind current =? kSyscallExit then
    if negb registers_valid then None else
    let rval := s64 (ar_regs regs !!! 0%nat) in
    let is_error := if (rval <? 0) && (-4095 <=? rval) then 1 else 0 in
    Some (info 2 (le_bytes 8 rval ++ [is_error] ++ replicate 55 0), 40)
  else if (ev_kind current =? kPtraceEvent) && (ev_ptrace_event current =? PTRACE_EVENT_SECCOMP) then
    if negb registers_valid || negb number_valid then None
    else Some (info 3 (call_fields ++ le_bytes 4 (ev_event_message current) ++ replicate 4 0), 88)
  else Some (info 0 (replicate 64 0), 24).

Definition HandleGetSyscallInfo (caller : LogicalTaskKey) (output_capacity output_address : Z)
    (stop : LogicalPtraceDispatchStop) : M (Z * Z) :=
  match get_syscall_info (ds_current stop) with
  | None => ret (EIO, 0)
  | Some (info, info_size) =>
    let copy_size := Z.min output_capacity info_size in
    let* error := (if negb (copy_size =? 0)
                   then WriteMemory caller output_address (take (Z.to_nat copy_size) info) else ret 0) in
    if negb (error =? 0) then ret (error, 0) else ret (0, info_size)
  end.

(** ** Resuming a stopped tracee *)

Definition resume_mode (request : Z) : Z :=
  if request =? PTRACE_SYSCALL then ResumeMode_kSyscall
  else if request =? PTRACE_SINGLESTEP then ResumeMode_kSingleStep else ResumeMode_kCont.
Definition resume_action (request : Z) : Z :=
  if request =? PTRACE_SYSCALL then Action_kResumeSyscall
  else if request =? PTRACE_SINGLESTEP then Action_kResumeSingleStep else Action_kResumeCont.

(** The errno value and the request for the tracee. *)
Definition HandleResume (target : LogicalTaskKey) (request raw_signal : Z) (i s : nat)
    : M (Z * LogicalPtraceTargetRequest) :=
  let* d := get_dispatcher in
  let* t := get_logical in
  let relation := relations t !!! i in
  let stop := ld_stops d !!! s in
  if negb (request =? PTRACE_KILL) && (NSIG <=? raw_signal) then ret (EIO, zero_target) else
  let signal_number := if request =? PTRACE_KILL then SIGKILL else s32 raw_signal in
  let relation_slot := lr_slot relation in
  if (request =? PTRACE_LISTEN) &&
     (negb (raw_signal =? 0) || negb (lr_attach_kind relation =? kSeize) ||
      negb (ev_kind (ds_current stop) =? kGroupStop)) then ret (EIO, zero_target) else
  if negb (lr_event_count relation =? 0) &&
     (negb (lr_event_count relation =? 1) ||
      negb (ev_sequence (head_event relation) =? ev_sequence (ds_current stop)))
  then ret (EBUSY, zero_target) else
  let* consume_error := (if negb (lr_event_count relation =? 0)
    then let* (error, _) := on_logical_out (fun t => ConsumeLogicalPtraceEvent t target false) in ret error
    else ret 0) in
  if negb (consume_error =? 0) then ret (consume_error, zero_target) else
  let* (error, target_request) :=
    (if request =? PTRACE_DETACH then
       let* error := on_logical (fun t => EraseLogicalPtraceRelation t target false) in
       ret (error, FillTargetFromStop Action_kDetach target signal_number (Some stop))
     else if (request =? PTRACE_CONT) || (request =? PTRACE_SYSCALL) || (request =? PTRACE_SINGLESTEP) ||
             (request =? PTRACE_KILL) then
       let* error := on_logical (fun t => ResumeLogicalPtraceRelation t target (resume_mode request)) in
       ret (error, FillTargetFromStop (resume_action request) target signal_number (Some stop))
     else if request =? PTRACE_LISTEN then
       let* error := on_logical (fun t => ListenLogicalPtraceRelation t target) in
       ret (error, FillTargetFromStop Action_kListen target 0 (Some stop))
     else ret (EINVAL, zero_target)) in
  if error =? 0 then let* _ := write_dispatcher (ForgetStop relation_slot) in ret (0, target_request)
  else ret (error, target_request).

(** ** Requests on a tracee *)

(** [outcome->result = error == 0 ? 0 : -error], nothing for the tracee to do. *)
Definition answer (error : Z) : PtraceOutcome :=
  {| po_handled := true; po_result := - error; po_target := zero_target |}.

Definition FindOwnedRelation (caller target : LogicalTaskKey) : M (option nat) :=
  let* t := get_logical in
  match FindLogicalPtraceRelation t target with
  | None => ret None
  | Some i => ret (if RelationOwnedByCaller (relations t !!! i) caller then Some i else None)
  end.

Definition GetDeliveredStop (i : nat) : M (option nat) :=
  let* t := get_logical in
  let relation := relations t !!! i in
  let* stop := on_dispatcher (fun d => CurrentStop d relation) in
  match stop with
  | None => ret None
  | Some s => ret (if lr_state relation =? kStopped then Some s else None)
  end.

Definition is_resume_request (request : Z) : bool :=
  (request =? PTRACE_CONT) || (request =? PTRACE_SYSCALL) || (request =? PTRACE_SINGLESTEP) ||
  (request =? PTRACE_KILL) || (request =? PTRACE_DETACH) || (request =? PTRACE_LISTEN).

Definition HandleStoppedRequest (caller target : LogicalTaskKey) (request address data : Z) (i : nat)
    : M PtraceOutcome :=
  let* delivered := GetDeliveredStop i in
  match delivered with
  | None => ret (answer ESRCH)
  | Some s =>
    let* d := get_dispatcher in
    let stop := ld_stops d !!! s in
    let current := ds_current stop in
    if is_resume_request request then
      let* (error, target_request) := HandleResume target request data i s in
      ret {| po_handled := true; po_result := - error; po_target := target_request |}
    else if request =? PTRACE_SETOPTIONS then
      let* error := on_logical (fun t => SetLogicalPtraceOptions t target data) in ret (answer error)
    else if request =? PTRACE_GETEVENTMSG then
      if negb (ev_kind current =? kPtraceEvent) then ret (answer EINVAL) else
      let* error := WriteMemory caller data (le_bytes 8 (ev_event_message current)) in ret (answer error)
    else if request =? PTRACE_GETSIGINFO then
      if negb (has (ev_flags current) kEventFlagSiginfoValid) then ret (answer EINVAL) else
      let* error := WriteMemory caller data (ev_signal_info current) in ret (answer error)
    else if request =? PTRACE_SETSIGINFO then
      if negb (ev_kind current =? kSignalDelivery) then ret (answer EINVAL) else
      let* (error, signal_info) := ReadMemory caller data sizeof_siginfo in
      if negb (error =? 0) then ret (answer error) else
      let* error := UpdateQueuedSiginfo i signal_info in
      if negb (error =? 0) then ret (answer error) else
      let* _ := write_current s (set_current_siginfo signal_info) in ret (answer 0)
    else if request =? PTRACE_GETREGSET then
      let* error := HandleGetRegset caller address data stop in ret (answer error)
    else if request =? PTRACE_SETREGSET then
      let* error := HandleSetRegset caller address data i s in ret (answer error)
    else if (request =? PTRACE_PEEKTEXT) || (request =? PTRACE_PEEKDATA) then
      let* (error, value) := ReadMemory target address 8 in
      if negb (error =? 0) then ret (answer error) else
      let* error := WriteMemory caller data value in ret (answer error)
    else if (request =? PTRACE_POKETEXT) || (request =? PTRACE_POKEDATA) then
      let* error := WriteMemory target address (le_bytes 8 data) in ret (answer error)
    else if request =? PTRACE_PEEKUSR then
      let* error := HandlePeekUser caller address data stop in ret (answer error)
    else if request =? PTRACE_POKEUSR then
      let* error := HandlePokeUser address data i s in ret (answer error)
    else if request =? PTRACE_GET_SYSCALL_INFO then
      let* (error, visible_result) := HandleGetSyscallInfo caller address data stop in
      if negb (error =? 0) then ret (answer error)
      else ret {| po_handled := true; po_result := visible_result; po_target := zero_target |}
    else ret (answer EIO)
  end.

(** ** The ptrace system call *)

(** The errno value of the function and the outcome. *)
Definition unhandled : PtraceOutcome :=
  {| po_handled := false; po_result := 0; po_target := zero_target |}.

(** An error of the resolving callbacks that means: not a task of ours. *)
Definition foreign (error : Z) : bool := (error =? ESRCH) || (error =? ENOENT) || (error =? ENOSYS).

Definition HandleTraceme (caller : LogicalTaskKey) : M (Z * PtraceOutcome) :=
  let* (error, parent) := ResolveParent caller in
  let* d := get_dispatcher in
  let full := ld_operation_count d =? kLogicalPtraceDispatchCapacity in
  if foreign error then
    if full then ret (ENOSPC, answer 0) else
    let* error := on_logical (fun t => ClaimLogicalFakeTraceme t caller) in ret (0, answer error)
  else if full then ret (ENOSPC, answer 0)
  else
    let* error := (if error =? 0 then CheckAttachPermission parent caller kTraceme else ret error) in
    let* error := (if error =? 0 then
      let* (error, _) := on_logical_out
        (fun t => CreateLogicalPtraceRelation t caller parent kTraceme kNormal 0) in ret error
      else ret error) in
    ret (0, answer error).

Definition HandleAttach (caller target : LogicalTaskKey) (request address data : Z) : M (Z * PtraceOutcome) :=
  let kind := if request =? PTRACE_ATTACH then kAttach else kSeize in
  if (request =? PTRACE_SEIZE) && negb (address =? 0) then ret (0, answer EIO) else
  let* error := CheckAttachPermission caller target kind in
  let* error := (if error =? 0 then
    let* (error, _) := on_logical_out (fun t => CreateLogicalPtraceRelation t target caller kind kNormal
      (if request =? PTRACE_SEIZE then data else 0)) in ret error
    else ret error) in
  if negb (error =? 0) then ret (0, answer error) else
  let* t := get_logical in
  let* stop := (match FindLogicalPtraceRelation t target with
    | None => ret None
    | Some i => on_dispatcher (fun d => EnsureStopRecord d (relations t !!! i))
    end) in
  match stop with
  | None =>
    let* _ := on_logical (fun t => EraseLogicalPtraceRelation t target true) in ret (EPROTO, answer 0)
  | Some s =>
    if request =? PTRACE_ATTACH then
      let* _ := write_dispatcher (fun d => let stop := ld_stops d !!! s in
        dbump (put_stop s (with_flags stop (ds_flags stop ||| kLogicalPtraceStopAttachPending)) d)) in
      ret (0, {| po_handled := true; po_result := 0;
                 po_target := FillTargetFromStop Action_kInterrupt target 0 None |})
    else ret (0, answer 0)
  end.

Definition HandleInterrupt (target : LogicalTaskKey) (address data : Z) (i : nat) : M (Z * PtraceOutcome) :=
  let* t := get_logical in
  let relation := relations t !!! i in
  let* stop := on_dispatcher (fun d => EnsureStopRecord d relation) in
  let* d := get_dispatcher in
  match stop with
  | Some s =>
    let stop := ld_stops d !!! s in
    if negb (address =? 0) || negb (data =? 0) || negb (lr_attach_kind relation =? kSeize) ||
       (lr_state relation =? kStopped) || (lr_state relation =? kExitZombie) ||
       has (ds_flags stop) (kLogicalPtraceStopInterruptPending ||| kLogicalPtraceStopCurrentValid)
    then ret (0, answer EIO)
    else
      let* _ := write_dispatcher (fun d =>
        dbump (put_stop s (with_flags stop (ds_flags stop ||| kLogicalPtraceStopInterruptPending)) d)) in
      ret (0, {| po_handled := true; po_result := 0;
                 po_target := FillTargetFromStop Action_kInterrupt target 0 None |})
  | None => ret (0, answer EIO)
  end.

Definition HandlePtraceEntry (caller : LogicalTaskKey) (arguments : list Z) : M (Z * PtraceOutcome) :=
  let request := arguments !!! 0%nat in
  let argument1 := arguments !!! 1%nat in
  let address := arguments !!! 2%nat in
  let data := arguments !!! 3%nat in
  if request =? PTRACE_TRACEME then HandleTraceme caller
  else if (argument1 =? 0) || (INT32_MAX <? argument1) then
    let* d := get_dispatcher in
    if ld_operation_count d =? kLogicalPtraceDispatchCapacity then ret (ENOSPC, unhandled)
    else ret (0, answer ESRCH)
  else
    let* (error, target) := ResolveTask caller (s32 argument1) in
    if foreign error then ret (0, unhandled) else
    let* d := get_dispatcher in
    if ld_operation_count d =? kLogicalPtraceDispatchCapacity then ret (ENOSPC, answer 0)
    else if negb (error =? 0) then ret (0, answer error)
    else if (request =? PTRACE_ATTACH) || (request =? PTRACE_SEIZE)
    then HandleAttach caller target request address data
    else
      let* relation := FindOwnedRelation caller target in
      match relation with
      | None => ret (0, answer ESRCH)
      | Some i =>
        if request =? PTRACE_INTERRUPT then HandleInterrupt target address data i
        else let* outcome := HandleStoppedRequest caller target request address data i in ret (0, outcome)
      end.

(** ** Waits *)

Definition WriteRusage (waiter tracee : LogicalTaskKey) (event : LogicalPtraceEvent) (address : Z) : M Z :=
  let* (error, usage) := FillWaitRusage tracee event in
  if negb (error =? 0) then ret error else WriteMemory waiter address usage.

(** The errno value and the result of the system call. *)
Definition WriteWaitOutput (wait : LogicalWaitRecord) (tracee : LogicalTaskKey) (event : LogicalPtraceEvent)
    : M (Z * Z) :=
  let request := lw_request wait in
  let waiter := rq_waiter request in
  let rusage : M Z :=
    if negb (rq_rusage_address request =? 0)
    then WriteRusage waiter tracee event (rq_rusage_address request) else ret 0 in
  if rq_kind request =? kWait4 then
    let* error := (if negb (rq_status_address request =? 0)
      then WriteMemory waiter (rq_status_address request) (le_bytes 4 (ev_wait_status event)) else ret 0) in
    if negb (error =? 0) then ret (error, 0) else
    let* error := rusage in
    if negb (error =? 0) then ret (error, 0) else ret (0, tk_tid tracee)
  else
    let* (error, uid) := QueryUid tracee in
    if negb (error =? 0) then ret (error, 0) else
    let* error := (if negb (rq_info_address request =? 0)
      then WriteMemory waiter (rq_info_address request) (BuildWaitIdSiginfo tracee event uid) else ret 0) in
    if negb (error =? 0) then ret (error, 0) else
    let* error := rusage in
    if negb (error =? 0) then ret (error, 0) else ret (0, 0).

(** The errno value and the result of the system call. *)
Definition CompleteSelectedWait (waiter : LogicalTaskKey) (m : LogicalWaitMatch) : M (Z * Z) :=
  let* t := get_logical in
  match FindLogicalWait t waiter, LogicalPtraceRelationAt t (wm_relation_slot m) with
  | Some wait, Some slot =>
    let relation := relations t !!! Z.to_nat slot in
    if negb (lr_generation relation =? wm_relation_generation m) || (lr_event_count relation =? 0) ||
       negb (ev_sequence (head_event relation) =? wm_event_sequence m) then ret (ESTALE, 0) else
    let tracee := lr_tracee relation in
    let event := head_event relation in
    let* (output_error, visible_result) := WriteWaitOutput (waits t !!! wait) tracee event in
    if negb (output_error =? 0) then
      let* _ := on_logical (fun t => EndLogicalWait t waiter) in ret (0, - output_error)
    else
      let* (consume_error, consumed) := on_logical_out (fun t => ConsumeLogicalWaitEvent t waiter m) in
      if negb (consume_error =? 0) then ret (consume_error, visible_result) else
      let event := default event consumed in
      let* _ := write_dispatcher (if negb (EventIsExit event)
        then RememberDeliveredStop (lr_slot relation) (lr_generation relation) tracee event
        else ForgetStop (lr_slot relation)) in
      ret (0, visible_result)
  | _, _ => ret (ESTALE, 0)
  end.

Definition ZeroNoHangWaitId (request : LogicalWaitRequest) : M Z :=
  if negb (rq_kind request =? kWaitId) || (rq_info_address request =? 0) then ret 0
  else WriteMemory (rq_waiter request) (rq_info_address request) (replicate (Z.to_nat sizeof_siginfo) 0).

Definition MapWaitIdType (raw : Z) : option Z :=
  if raw =? 0 then Some IdType_kAll
  else if raw =? 1 then Some IdType_kPid
  else if raw =? 2 then Some IdType_kProcessGroup
  else if raw =? 3 then Some IdType_kPidFd
  else None.

Definition BuildWaitRequest (t : LogicalPtraceTable) (caller : LogicalTaskKey) (syscall_number : Z)
    (arguments : list Z) : Z * option LogicalWaitRequest :=
  match FindLogicalProcess t (LogicalProcessKeyForTask caller) with
  | None => (ESRCH, None)
  | Some process =>
    let group := lp_process_group (processes t !!! process) in
    if syscall_number =? NR_wait4 then
      BuildLogicalWait4Request caller (s32 (arguments !!! 0%nat)) group (u32 (arguments !!! 2%nat))
        (arguments !!! 1%nat) (arguments !!! 3%nat) 0
    else match MapWaitIdType (arguments !!! 0%nat) with
    | None => (EINVAL, None)
    | Some type =>
      BuildLogicalWaitIdRequest caller type (arguments !!! 1%nat) group (u32 (arguments !!! 3%nat))
        (arguments !!! 2%nat) (arguments !!! 4%nat) 0
    end
  end.

Definition entry_result (flags slot visible syscall_number : Z) (target : LogicalPtraceTargetRequest)
    : LogicalPtraceEntryResult :=
  Build_LogicalPtraceEntryResult flags slot visible syscall_number 0 target.

(** The result before anything is decided. *)
Definition initial_entry_result (syscall_number : Z) : LogicalPtraceEntryResult :=
  entry_result 0 kLogicalPtraceDispatchInvalidSlot 0 syscall_number
    (Build_LogicalPtraceTargetRequest Action_kNone 0 zero_task_key 0 (-1) 0 0 (replicate 128 0) zero_regs).

(** [match] after the selection; without a match the code does not read it. *)
Definition selected (found : option LogicalWaitMatch) : LogicalWaitMatch :=
  default (Build_LogicalWaitMatch 0 0 0 0) found.

Definition insert_operation (caller : LogicalTaskKey) (syscall_number state result : Z) : M (Z * Z) :=
  on_dispatcher (fun d =>
    let '(error, d', slot) := InsertOperation d caller syscall_number state result in ((error, slot), d')).

(** The end of HandleWaitEntry: the operation and the entry result. *)
Definition finish_wait_entry (caller : LogicalTaskKey) (syscall_number state visible_result : Z)
    : M (Z * LogicalPtraceEntryResult) :=
  let initial := initial_entry_result syscall_number in
  let* (error, slot) := insert_operation caller syscall_number state visible_result in
  if negb (error =? 0) then
    let* _ := (if state =? kHeldWait then on_logical (fun t => EndLogicalWait t caller) else ret 0) in
    ret (error, initial)
  else ret (0, entry_result
    (kLogicalPtraceEntryHandled ||| kLogicalPtraceEntrySuppress |||
     (if state =? kHeldWait then kLogicalPtraceEntryMayHold else 0))
    slot visible_result syscall_number (er_target initial)).

Definition HandleWaitEntry (caller : LogicalTaskKey) (syscall_number : Z) (arguments : list Z)
    : M (Z * LogicalPtraceEntryResult) :=
  let initial := initial_entry_result syscall_number in
  let* t := get_logical in
  match BuildWaitRequest t caller syscall_number arguments with
  | (0, Some request) =>
    let* (error, _) := on_logical_out (fun t => BeginLogicalWait t request) in
    if negb (error =? 0) then ret (error, initial) else
    let* t := get_logical in
    let* d := get_dispatcher in
    let '(select_error, found) := SelectLogicalWaitEvent t caller in
    let end_wait : M Z := on_logical (fun t => EndLogicalWait t caller) in
    if ((select_error =? 0) || (select_error =? EAGAIN)) &&
       (ld_operation_count d =? kLogicalPtraceDispatchCapacity) then
      let* _ := end_wait in ret (ENOSPC, initial)
    else
      if select_error =? 0 then
        let* (error, visible_result) := CompleteSelectedWait caller (selected found) in
        if negb (error =? 0) then ret (error, initial)
        else finish_wait_entry caller syscall_number kImmediate visible_result
      else if (select_error =? EAGAIN) && negb (rq_nohang request =? 0) then
        let* output_error := ZeroNoHangWaitId request in
        let* _ := end_wait in
        finish_wait_entry caller syscall_number kImmediate (- output_error)
      else if select_error =? EAGAIN then finish_wait_entry caller syscall_number kHeldWait 0
      else if select_error =? ECHILD then let* _ := end_wait in ret (0, initial)
      else let* _ := end_wait in ret (select_error, initial)
  | _ => ret (0, initial)
  end.

(** ** The entry points *)

(** [result == nullptr] and [arguments == nullptr] never hold; on the first
    error the result is not written. *)
Definition DispatchLogicalPtraceEntry (caller : LogicalTaskKey) (syscall_number : Z) (arguments : list Z)
    : M (Z * LogicalPtraceEntryResult) :=
  let initial := initial_entry_result syscall_number in
  let* d := get_dispatcher in
  let* t := get_logical in
  if negb (IsLogicalPtraceDispatcherInitialized d) || negb (IsLogicalPtraceTableInitialized t) ||
     negb (TaskKeyValid caller) ||
     match FindLogicalProcess t (LogicalProcessKeyForTask caller) with None => true | Some _ => false end
  then ret (EINVAL, initial)
  else if FindOperation d caller is Some _ then ret (EBUSY, initial)
  else if (syscall_number =? NR_wait4) || (syscall_number =? NR_waitid)
  then HandleWaitEntry caller syscall_number arguments
  else if negb (syscall_number =? NR_ptrace) then ret (0, initial)
  else
    let* (ptrace_error, outcome) := HandlePtraceEntry caller arguments in
    if negb (ptrace_error =? 0) || negb (po_handled outcome) then ret (ptrace_error, initial) else
    let* (insert_error, slot) := insert_operation caller syscall_number kImmediate (po_result outcome) in
    if negb (insert_error =? 0) then ret (insert_error, initial)
    else ret (0, entry_result
      (kLogicalPtraceEntryHandled ||| kLogicalPtraceEntrySuppress |||
       (if negb (tr_action (po_target outcome) =? Action_kNone) then kLogicalPtraceEntryTargetAction else 0))
      slot (po_result outcome) syscall_number (po_target outcome)).

Definition no_exit_result : LogicalPtraceExitResult :=
  Build_LogicalPtraceExitResult 0 kLogicalPtraceDispatchInvalidSlot 0.

Definition DispatchLogicalPtraceExit (caller : LogicalTaskKey) (syscall_number : Z)
    : M (Z * LogicalPtraceExitResult) :=
  let* d := get_dispatcher in
  let* t := get_logical in
  if negb (IsLogicalPtraceDispatcherInitialized d) || negb (IsLogicalPtraceTableInitialized t) ||
     negb (TaskKeyValid caller) then ret (EINVAL, no_exit_result)
  else match FindOperation d caller with
  | None => ret (0, no_exit_result)
  | Some i =>
    let operation := ld_operations d !!! i in
    if negb (do_syscall_number operation =? syscall_number) then ret (ESTALE, no_exit_result)
    else if do_state operation =? kHeldWait then
      ret (0, Build_LogicalPtraceExitResult (kLogicalPtraceExitHandled ||| kLogicalPtraceExitHold)
                (do_slot operation) 0)
    else
      let* _ := write_dispatcher (fun d => EraseOperation d (do_slot operation)) in
      ret (0, Build_LogicalPtraceExitResult (kLogicalPtraceExitHandled ||| kLogicalPtraceExitWriteResult)
                (do_slot operation) (do_visible_result operation))
  end.

(** The errno value and the sequence number of the event, which is written
    by QueueLogicalPtraceEvent. *)
Definition PublishLogicalPtraceStop (tracee : LogicalTaskKey) (event : LogicalPtraceEvent) : M (Z * Z) :=
  let* d := get_dispatcher in
  let* t := get_logical in
  if negb (IsLogicalPtraceDispatcherInitialized d) || negb (IsLogicalPtraceTableInitialized t) ||
     negb (TaskKeyValid tracee) then ret (EINVAL, 0)
  else match FindLogicalPtraceRelation t tracee with
  | None => ret (ESRCH, 0)
  | Some i =>
    let* stop := on_dispatcher (fun d => EnsureStopRecord d (relations t !!! i)) in
    let* d := get_dispatcher in
    match stop with
    | None => ret (EPROTO, 0)
    | Some s =>
      let flags := ds_flags (ld_stops d !!! s) in
      if has flags kLogicalPtraceStopAttachPending && negb (ev_kind event =? kAttachStop) &&
         negb (EventIsExit event) then ret (EPROTO, 0)
      else if has flags kLogicalPtraceStopCurrentValid then ret (EBUSY, 0)
      else if has flags kLogicalPtraceStopInterruptPending && negb (ev_kind event =? kInterruptStop) &&
              negb (EventIsExit event) then ret (EPROTO, 0)
      else
        let* (error, sequence) := on_logical_out (fun t => QueueLogicalPtraceEvent t tracee event) in
        if negb (error =? 0) then ret (error, sequence) else
        let* _ := write_dispatcher (fun d => let stop := ld_stops d !!! s in
          dbump (put_stop s (with_current (with_flags stop (Z.land (ds_flags stop)
            (not32 (kLogicalPtraceStopAttachPending ||| kLogicalPtraceStopInterruptPending |||
                    kLogicalPtraceStopCurrentValid)))) cleared_event) d)) in
        ret (0, sequence)
    end
  end.

(** [operation->visible_result = ...; operation->state = kHeldReady] *)
Definition ready_operation (i : nat) (visible_result : Z) (d : LogicalPtraceDispatcher)
    : LogicalPtraceDispatcher :=
  let o := ld_operations d !!! i in
  dbump (put_operation i (Build_LogicalPtraceDispatchOperation (do_occupied o) (do_slot o)
    (do_generation o) (do_caller o) (do_syscall_number o) kHeldReady visible_result) d).

Definition TryWakeLogicalPtraceWait (waiter : LogicalTaskKey) : M Z :=
  let* d := get_dispatcher in
  let* t := get_logical in
  if negb (IsLogicalPtraceDispatcherInitialized d) || negb (IsLogicalPtraceTableInitialized t) ||
     negb (TaskKeyValid waiter) then ret EINVAL
  else match FindOperation d waiter with
  | None => ret ESRCH
  | Some i =>
    if negb (do_state (ld_operations d !!! i) =? kHeldWait) then ret ESRCH
    else
      let '(select_error, found) := SelectLogicalWaitEvent t waiter in
      if select_error =? EAGAIN then ret EAGAIN
      else if select_error =? ECHILD then
        let* _ := on_logical (fun t => EndLogicalWait t waiter) in
        let* _ := write_dispatcher (ready_operation i (- ECHILD)) in ret 0
      else if negb (select_error =? 0) then ret select_error
      else
        let* (complete_error, visible_result) := CompleteSelectedWait waiter (selected found) in
        if negb (complete_error =? 0) then ret complete_error
        else let* _ := write_dispatcher (ready_operation i visible_result) in ret 0
  end.

Definition CancelLogicalPtraceDispatch (caller : LogicalTaskKey) : M Z :=
  let* d := get_dispatcher in
  let* t := get_logical in
  if negb (IsLogicalPtraceDispatcherInitialized d) || negb (IsLogicalPtraceTableInitialized t) ||
     negb (TaskKeyValid caller) then ret EINVAL
  else match FindOperation d caller with
  | None => ret ESRCH
  | Some i =>
    let operation := ld_operations d !!! i in
    let* wait_error := (if do_state operation =? kHeldWait
      then on_logical (fun t => EndLogicalWait t caller) else ret 0) in
    if negb (wait_error =? 0) && negb (wait_error =? ESRCH) then ret wait_error
    else let* _ := write_dispatcher (fun d => EraseOperation d (do_slot operation)) in ret 0
  end.

Definition stop_of (tracee : LogicalTaskKey) (stop : LogicalPtraceDispatchStop) : bool :=
  negb (ds_relation_generation stop =? 0) && LogicalTaskKeysEqual (ds_tracee stop) tracee.

(** The writes of the rekeying: the operation's caller, then the tracee of
    every stop record of the old identity. *)
Definition rekey_dispatcher (old_operation : option nat) (old_identity new_identity : LogicalTaskKey)
    (d : LogicalPtraceDispatcher) : LogicalPtraceDispatcher :=
  let ops := alter_at (fun o => Build_LogicalPtraceDispatchOperation (do_occupied o) (do_slot o)
    (do_generation o) new_identity (do_syscall_number o) (do_state o) (do_visible_result o))
    old_operation (ld_operations d) in
  let stops := (fun stop => if stop_of old_identity stop
    then Build_LogicalPtraceDispatchStop (ds_flags stop) (ds_relation_slot stop)
           (ds_relation_generation stop) new_identity (ds_current stop)
    else stop) <$> ld_stops d in
  let changed := match old_operation with Some _ => true | None => false end ||
                 existsb (stop_of old_identity) (ld_stops d) in
  let d' := set_stops (set_operations d (ld_operation_count d) (ld_operation_free_hint d)
                         (ld_next_operation_generation d) ops) stops in
  if changed then dbump d' else d'.

Definition RekeyLogicalPtraceDispatchTask (old_identity new_identity : LogicalTaskKey) : M Z :=
  let* d := get_dispatcher in
  let* t := get_logical in
  if negb (IsLogicalPtraceDispatcherInitialized d) || negb (IsLogicalPtraceTableInitialized t) ||
     negb (TaskKeyValid old_identity) || negb (TaskKeyValid new_identity) then ret EINVAL
  else if LogicalTaskKeysEqual old_identity new_identity then ret 0
  else if negb (tk_tgid old_identity =? tk_tgid new_identity) ||
          negb (tk_process_generation old_identity =? tk_process_generation new_identity) then ret EXDEV
  else if FindLogicalProcess t (LogicalProcessKeyForTask old_identity) is None then ret ESRCH
  else
    let old_operation := FindOperation d old_identity in
    let new_operation := FindOperation d new_identity in
    if both old_operation new_operation && negb (bool_decide (old_operation = new_operation))
    then ret EEXIST
    else
      let dispatcher_referenced := match old_operation with Some _ => true | None => false end ||
        existsb (stop_of old_identity) (ld_stops d) in
      let* logical_error := on_logical (fun t => RekeyLogicalPtraceTask t old_identity new_identity) in
      if negb (logical_error =? 0) && negb ((logical_error =? ESRCH) && dispatcher_referenced)
      then ret logical_error
      else let* _ := write_dispatcher (rekey_dispatcher old_operation old_identity new_identity) in ret 0.
End Handlers.

(** ** Validation *)

Definition vacant_operation (o : LogicalPtraceDispatchOperation) : bool :=
  (do_generation o =? 0) && (tk_tid (do_caller o) =? 0).

Definition operation_entry (t : LogicalPtraceTable) (o : LogicalPtraceDispatchOperation) : bool :=
  negb (do_generation o =? 0) && TaskKeyValid (do_caller o) && (0 <=? do_syscall_number o) &&
  OperationStateValid (do_state o) &&
  match FindLogicalProcess t (LogicalProcessKeyForTask (do_caller o)) with
  | Some _ => true | None => false end &&
  Bool.eqb (do_state o =? kHeldWait)
    match FindLogicalWait t (do_caller o) with Some _ => true | None => false end.

(** The checks on one stop record. *)
Definition stop_entry (t : LogicalPtraceTable) (slot : Z) (stop : LogicalPtraceDispatchStop) : bool :=
  let current_valid := has (ds_flags stop) kLogicalPtraceStopCurrentValid in
  (ds_relation_slot stop =? slot) && negb (unknown_bits (ds_flags stop) kLogicalPtraceStopFlagMask) &&
  negb (current_valid &&
        has (ds_flags stop) (kLogicalPtraceStopInterruptPending ||| kLogicalPtraceStopAttachPending)) &&
  if ds_relation_generation stop =? 0 then
    (ds_flags stop =? 0) && (tk_tid (ds_tracee stop) =? 0) && (ev_sequence (ds_current stop) =? 0)
  else match LogicalPtraceRelationAt t slot with
  | None => false
  | Some _ =>
    let relation := relations t !!! Z.to_nat slot in
    (lr_generation relation =? ds_relation_generation stop) &&
    LogicalTaskKeysEqual (lr_tracee relation) (ds_tracee stop) &&
    negb (current_valid && (negb (EventSnapshotValid (ds_current stop)) ||
                            negb (lr_state relation =? kStopped))) &&
    negb (negb current_valid && negb (ev_sequence (ds_current stop) =? 0)) &&
    negb (current_valid && negb (lr_event_count relation =? 0) &&
          (negb (lr_event_count relation =? 1) ||
           negb (ev_sequence (head_event relation) =? ev_sequence (ds_current stop)))) &&
    negb (has (ds_flags stop) kLogicalPtraceStopAttachPending &&
          (negb (lr_attach_kind relation =? kAttach) || negb (lr_state relation =? kAttachPending))) &&
    negb (has (ds_flags stop) kLogicalPtraceStopInterruptPending &&
          (negb (lr_attach_kind relation =? kSeize) || (lr_state relation =? kStopped) ||
           (lr_state relation =? kExitZombie)))
  end.

Fixpoint validate_stops (t : LogicalPtraceTable) (slot : Z) (stops : list LogicalPtraceDispatchStop) : bool :=
  match stops with
  | [] => true
  | stop :: rest => if stop_entry t slot stop then validate_stops t (slot + 1) rest else false
  end.

Definition ValidateLogicalPtraceDispatcher (d : LogicalPtraceDispatcher) (t : LogicalPtraceTable) : bool :=
  IsLogicalPtraceDispatcherInitialized d && ValidateLogicalPtraceTable t &&
  match validate_slots vacant_operation (operation_entry t) 0 0 (ld_operations d) with
  | None => false
  | Some count => validate_stops t 0 (ld_stops d) && (count =? ld_operation_count d)
  end.
