(* ===== verification/DispatcherInv.v ===== *)
(** * The invariant of the logical ptrace dispatcher

    What ValidateLogicalPtraceDispatcher checks, as a property of the
    dispatcher and the logical table: the operations in flight are a slot
    array with one entry per caller, every stop record describes the relation
    of its slot, and a caller waits in the table exactly when its operation is
    a held wait. The lemmas say how the invariant survives a change of one
    relation, of one stop record or of the operations. *)

From S2P Require Import Prelude SlotArray Chain LogicalPtrace LogicalPtraceOps LogicalPtraceInv.
From S2P Require Import LogicalPtraceQueue LogicalPtracePreserve LogicalPtraceWait Dispatcher DispatcherOps.
From stdpp Require Import list gmap.
#[local] Open Scope Z_scope.

(** ** Stop records *)

(** The stop record of a relation: what it says about the relation holds. *)
Record attached (r : LogicalPtraceRelation) (stop : LogicalPtraceDispatchStop) : Prop := {
  at_use : in_use r = true;
  at_generation : lr_generation r = ds_relation_generation stop;
  at_tracee : lr_tracee r = ds_tracee stop;
  at_current : has (ds_flags stop) kLogicalPtraceStopCurrentValid = true ->
    EventSnapshotValid (ds_current stop) = true /\ lr_state r = kStopped /\
    (lr_event_count r = 0 \/ (lr_event_count r = 1 /\ head_sequence r = ev_sequence (ds_current stop)));
  at_no_current : has (ds_flags stop) kLogicalPtraceStopCurrentValid = false ->
    ev_sequence (ds_current stop) = 0;
  at_attach : has (ds_flags stop) kLogicalPtraceStopAttachPending = true ->
    lr_attach_kind r = kAttach /\ lr_state r = kAttachPending;
  at_interrupt : has (ds_flags stop) kLogicalPtraceStopInterruptPending = true ->
    lr_attach_kind r = kSeize /\ lr_state r <> kStopped /\ lr_state r <> kExitZombie }.

Definition unattached (stop : LogicalPtraceDispatchStop) : Prop :=
  ds_relation_generation stop = 0 /\ ds_flags stop = 0 /\ tk_tid (ds_tracee stop) = 0 /\
  ev_sequence (ds_current stop) = 0.

Record stop_ok (slot : Z) (r : LogicalPtraceRelation) (stop : LogicalPtraceDispatchStop) : Prop := {
  sk_slot : ds_relation_slot stop = slot;
  sk_flags : unknown_bits (ds_flags stop) kLogicalPtraceStopFlagMask = false;
  sk_exclusive : has (ds_flags stop) kLogicalPtraceStopCurrentValid = true ->
    has (ds_flags stop) (kLogicalPtraceStopInterruptPending ||| kLogicalPtraceStopAttachPending) = false;
  sk_relation : unattached stop \/ (ds_relation_generation stop <> 0 /\ attached r stop) }.

(** ** The invariant *)

Definition operation_ok (live : LogicalProcessKey -> Prop) (o : LogicalPtraceDispatchOperation) : Prop :=
  do_generation o <> 0 /\ TaskKeyValid (do_caller o) = true /\ 0 <= do_syscall_number o /\
  OperationStateValid (do_state o) = true /\ live (LogicalProcessKeyForTask (do_caller o)).

Lemma operation_ok_key live o : operation_ok live o ->
  @sr_key_ok _ _ operation_slots (@sr_key _ _ operation_slots o) = true.
Proof. by intros (_ & ? & _). Qed.

Abbreviation operation_map d := (to_map (ld_operations d)).

Record core_ok (d : LogicalPtraceDispatcher) (t : LogicalPtraceTable) : Prop := {
  ck_table : table_ok t;
  ck_init : IsLogicalPtraceDispatcherInitialized d = true;
  ck_hint : 0 <= ld_operation_free_hint d;
  ck_length : length (ld_stops d) = 512%nat;
  ck_operations : slots_ok 512 (fun o => vacant_operation o = true) (operation_ok (live_in (process_map t)))
    (ld_operations d) (ld_operation_count d);
  ck_stops : forall i r stop, relations t !! i = Some r -> ld_stops d !! i = Some stop ->
    stop_ok (Z.of_nat i) r stop;
  ck_single : forall i r, relations t !! i = Some r -> lr_event_count r <= 1 }.

(** The caller's operation is a held wait. *)
Definition held (d : LogicalPtraceDispatcher) (k : LogicalTaskKey) : Prop :=
  exists o, operation_map d !! k = Some o /\ do_state o = kHeldWait.

Definition dispatch_ok (d : LogicalPtraceDispatcher) (t : LogicalPtraceTable) : Prop :=
  core_ok d t /\ forall k, is_Some (wait_map t !! k) <-> held d k.

(** ** Looking up *)

Lemma dispatcher_init_iff d : IsLogicalPtraceDispatcherInitialized d = true <->
  ld_magic d = kLogicalPtraceDispatchMagic /\ ld_version d = kLogicalPtraceDispatchVersion /\
  ld_operation_count d <= 512 /\ ld_operation_free_hint d < 512 /\ ld_next_operation_generation d <> 0.
Proof.
  unfold IsLogicalPtraceDispatcherInitialized, kLogicalPtraceDispatchCapacity.
  rewrite !andb_true_iff, !negb_true_iff. split; intros; lia.
Qed.

Lemma relation_generation live r : relation_ok live r -> lr_generation r <> 0.
Proof. intros [Hs _]. unfold relation_static in Hs. bool_hyps. by apply Z.eqb_neq. Qed.

Section Core.
Context (d : LogicalPtraceDispatcher) (t : LogicalPtraceTable).
Hypothesis Hok : core_ok d t.

Lemma find_operation_spec k : TaskKeyValid k = true ->
  match FindOperation d k with
  | Some i => exists o, entry_at (ld_operations d) i o /\ do_caller o = k /\
      operation_map d !! k = Some o /\ operation_ok (live_in (process_map t)) o
  | None => operation_map d !! k = None
  end.
Proof.
  intros Hk. pose proof (find_map_spec (operation_ok_key _) _ _ k (ck_operations _ _ Hok)) as Hf.
  simpl in Hf. rewrite Hk in Hf. unfold FindOperation. rewrite (ck_init _ _ Hok). simpl.
  destruct (find_slot k (ld_operations d)); [|done]. destruct Hf as (o & ? & ? & ? & ? & _). eauto.
Qed.

Lemma stop_at i r : relations t !! i = Some r ->
  exists stop, ld_stops d !! i = Some stop /\ stop_ok (Z.of_nat i) r stop.
Proof.
  intros Hr. destruct (lookup_lt_is_Some_2 (ld_stops d) i) as [stop Hs].
  { rewrite (ck_length _ _ Hok), <- (ty_relations t (ok_typed t (ck_table _ _ Hok))).
    by eapply lookup_lt_Some. }
  exists stop. split; [done|]. by apply (ck_stops _ _ Hok).
Qed.

Lemma relation_facts i r : entry_at (relations t) i r ->
  lr_slot r = Z.of_nat i /\ (i < 512)%nat /\ typed_relation r /\ queue_ok r /\ lr_event_count r <= 1 /\
  relation_ok (live_in (process_map t)) r /\ relation_map t !! lr_tracee r = Some r.
Proof.
  intros Hi. pose proof (ck_table _ _ Hok) as Ht.
  destruct (relation_at t i r Ht Hi) as (Hm & Hr & Hs & Hl & Hty).
  destruct (found_relation t i r Ht Hi) as (Hq & _). repeat (split; [done|]).
  split; [by apply (ck_single _ _ Hok i), Hi|]. split; [apply Hr|done].
Qed.

(** The record of a relation, with the indices the code computes. *)
Lemma stop_of_relation i r : entry_at (relations t) i r ->
  (kLogicalPtraceDispatchCapacity <=? lr_slot r) = false /\ Z.to_nat (lr_slot r) = i /\
  exists stop, ld_stops d !! i = Some stop /\ ld_stops d !!! i = stop /\ stop_ok (lr_slot r) r stop.
Proof.
  intros Hi. destruct (relation_facts i r Hi) as (Hs & Hl & _). rewrite Hs.
  split; [unfold kLogicalPtraceDispatchCapacity; lia|]. split; [lia|].
  destruct (stop_at i r (proj1 Hi)) as (stop & Hst & Hstop). exists stop.
  by rewrite (list_lookup_total_correct _ _ _ Hst).
Qed.
End Core.

(** ** Changes *)

(** The operations part of two dispatchers is the same. *)
Record same_operations (d d' : LogicalPtraceDispatcher) : Prop := {
  so_magic : ld_magic d' = ld_magic d;
  so_version : ld_version d' = ld_version d;
  so_count : ld_operation_count d' = ld_operation_count d;
  so_hint : ld_operation_free_hint d' = ld_operation_free_hint d;
  so_next : ld_next_operation_generation d' = ld_next_operation_generation d;
  so_operations : ld_operations d' = ld_operations d }.

#[export] Instance same_operations_preorder : PreOrder same_operations.
Proof. split; [by intros d|]. intros d1 d2 d3 [] []. split; congruence. Qed.

Lemma same_operations_init d d' : same_operations d d' ->
  IsLogicalPtraceDispatcherInitialized d' = IsLogicalPtraceDispatcherInitialized d.
Proof. intros [? ? ? ? ? ?]. unfold IsLogicalPtraceDispatcherInitialized. congruence. Qed.

Lemma same_operations_find d d' k : same_operations d d' -> FindOperation d' k = FindOperation d k.
Proof.
  intros Hs. unfold FindOperation. rewrite (same_operations_init d d' Hs). by rewrite (so_operations _ _ Hs).
Qed.

Lemma same_operations_held d d' k : same_operations d d' -> held d' k <-> held d k.
Proof. intros Hs. unfold held. by rewrite (so_operations _ _ Hs). Qed.

(** The parts of the table the operations and waits depend on are the same. *)
Definition same_tasks (t t' : LogicalPtraceTable) : Prop :=
  processes t' = processes t /\ waits t' = waits t.

Lemma core_step d t d' t' : core_ok d t -> table_ok t' -> processes t' = processes t ->
  same_operations d d' -> length (ld_stops d') = length (ld_stops d) ->
  (forall i r stop, relations t' !! i = Some r -> ld_stops d' !! i = Some stop ->
    stop_ok (Z.of_nat i) r stop /\ lr_event_count r <= 1) ->
  core_ok d' t'.
Proof.
  intros Hok Ht Hp Hs Hl Hall. split.
  - done.
  - by rewrite (same_operations_init _ _ Hs), (ck_init _ _ Hok).
  - rewrite (so_hint _ _ Hs). apply (ck_hint _ _ Hok).
  - rewrite Hl. apply (ck_length _ _ Hok).
  - rewrite (so_operations _ _ Hs), (so_count _ _ Hs), Hp. apply (ck_operations _ _ Hok).
  - intros i r stop Hr Hst. by apply (Hall i r stop).
  - intros i r Hr. destruct (lookup_lt_is_Some_2 (ld_stops d') i) as [stop Hst]; [|by apply (Hall i r stop)].
    rewrite Hl, (ck_length _ _ Hok), <- (ty_relations t' (ok_typed t' Ht)). by eapply lookup_lt_Some.
Qed.

(** One relation and its stop record replaced. *)
Lemma core_pair d t d' t' i r' stop' : core_ok d t -> table_ok t' -> processes t' = processes t ->
  same_operations d d' -> relations t' = <[i := r']> (relations t) ->
  ld_stops d' = <[i := stop']> (ld_stops d) -> stop_ok (Z.of_nat i) r' stop' -> lr_event_count r' <= 1 ->
  core_ok d' t'.
Proof.
  intros Hok Ht Hp Hs Hr Hst Hok' Hc. apply (core_step d t); try done.
  { by rewrite Hst, length_insert. }
  intros j r stop. rewrite Hr, Hst. intros Hj Hj'.
  apply list_lookup_insert_Some in Hj as [(<- & <- & _)|[Hne Hj]].
  - apply list_lookup_insert_Some in Hj' as [(_ & <- & _)|[Hne Hj']]; done.
  - rewrite list_lookup_insert_ne in Hj' by done.
    split; [by apply (ck_stops _ _ Hok)|by apply (ck_single _ _ Hok j)].
Qed.

(** Only the relation replaced. *)
Lemma core_relation d t t' i r' : core_ok d t -> table_ok t' -> processes t' = processes t ->
  relations t' = <[i := r']> (relations t) ->
  (forall r stop, relations t !! i = Some r -> stop_ok (Z.of_nat i) r stop -> stop_ok (Z.of_nat i) r' stop) ->
  lr_event_count r' <= 1 -> core_ok d t'.
Proof.
  intros Hok Ht Hp Hr Hst Hc.
  destruct (relations t !! i) as [r|] eqn:Hi.
  - destruct (stop_at d t Hok i r Hi) as (stop & Hs & Hstop).
    apply (core_pair d t d t' i r' stop); eauto; [done|]. by rewrite list_insert_id.
  - apply (core_step d t); try done. intros j x stop.
    rewrite Hr, list_insert_ge by (by apply lookup_ge_None_1).
    intros. split; [by apply (ck_stops _ _ Hok)|by apply (ck_single _ _ Hok j)].
Qed.

(** Only the stop record replaced. *)
Lemma core_stop d t d' i stop' : core_ok d t -> same_operations d d' ->
  ld_stops d' = <[i := stop']> (ld_stops d) ->
  (forall r, relations t !! i = Some r -> stop_ok (Z.of_nat i) r stop') -> core_ok d' t.
Proof.
  intros Hok Hs Hst Hr. apply (core_step d t); try done; [apply Hok|by rewrite Hst, length_insert|].
  intros j r stop Hj. rewrite Hst. intros Hj'. split; [|by apply (ck_single _ _ Hok j)].
  apply list_lookup_insert_Some in Hj' as [(<- & <- & _)|[Hne Hj']]; [by apply Hr|by apply (ck_stops _ _ Hok)].
Qed.

Lemma core_tables d t t' : core_ok d t -> table_ok t' -> processes t' = processes t ->
  relations t' = relations t -> core_ok d t'.
Proof.
  intros Hok Ht Hp Hr. apply (core_step d t); try done. intros i r stop. rewrite Hr.
  split; [by apply (ck_stops _ _ Hok)|by apply (ck_single _ _ Hok i)].
Qed.

(** What a stop record can see of its relation. *)
Definition view (r : LogicalPtraceRelation) :=
  (lr_occupied r, lr_generation r, lr_tracee r, lr_attach_kind r, lr_state r, lr_event_count r,
   head_sequence r).

Lemma stop_ok_view slot r r' stop : view r' = view r -> stop_ok slot r stop -> stop_ok slot r' stop.
Proof.
  intros [= E1 E2 E3 E4 E5 E6 E7] [Hs Hf He [Hu|[Hg [A1 A2 A3 A4 A5 A6 A7]]]]; split; auto. right.
  split; [done|]. split; unfold in_use in *; simpl in *; rewrite ?E1, ?E2, ?E3, ?E4, ?E5, ?E6, ?E7; auto.
Qed.

Lemma core_view d t t' i r r' : core_ok d t -> table_ok t' -> processes t' = processes t ->
  relations t !! i = Some r -> relations t' = <[i := r']> (relations t) -> view r' = view r ->
  core_ok d t'.
Proof.
  intros Hok Ht Hp Hi Hr Hv. apply (core_relation d t t' i r'); try done.
  - intros r0 stop Hi'. assert (r0 = r) as -> by congruence. by apply stop_ok_view.
  - pose proof (ck_single _ _ Hok i r Hi). by injection Hv as _ _ _ _ _ -> _.
Qed.

(** ** The validator accepts the invariant *)

Lemma stop_entry_ok d t i stop : core_ok d t -> ld_stops d !! i = Some stop ->
  stop_entry t (Z.of_nat i) stop = true.
Proof.
  intros Hok Hst. pose proof (ck_table _ _ Hok) as Ht.
  assert (i < 512)%nat as Hi by (rewrite <- (ck_length _ _ Hok); by eapply lookup_lt_Some).
  destruct (lookup_lt_is_Some_2 (relations t) i) as [r Hr]; [by rewrite (ty_relations t (ok_typed t Ht))|].
  destruct (ck_stops _ _ Hok i r stop Hr Hst) as [Hs Hf He Hrel]. unfold stop_entry.
  rewrite Hs, Z.eqb_refl, Hf. cbn [negb andb].
  destruct (has (ds_flags stop) kLogicalPtraceStopCurrentValid) eqn:Hcur; [rewrite (He eq_refl)|];
    cbn [negb andb].
  - destruct Hrel as [(_ & Hfl & _)|[Hg [Hu Hgen Htr Hc _ Ha Hin]]]; [rewrite Hfl in Hcur; done|].
    rewrite (proj2 (Z.eqb_neq _ _) Hg). unfold LogicalPtraceRelationAt. rewrite (ok_init t Ht).
    rewrite Nat2Z.id, (list_lookup_total_correct _ _ _ Hr).
    replace (kLogicalPtraceRelationCapacity <=? Z.of_nat i) with false
      by (unfold kLogicalPtraceRelationCapacity; lia).
    unfold in_use in Hu. simpl in Hu. apply negb_true_iff in Hu. rewrite Hu. cbn [negb orb].
    destruct (Hc Hcur) as (Hev & Hstate & Hcount).
    rewrite Hgen, Z.eqb_refl, Htr, (proj2 (LogicalTaskKeysEqual_spec _ _) eq_refl), Hev, Hstate.
    assert (has (ds_flags stop) kLogicalPtraceStopAttachPending = false) as ->.
    { destruct (has _ kLogicalPtraceStopAttachPending); [destruct Ha as [_ E]; [done|]; by rewrite Hstate in E|done]. }
    assert (has (ds_flags stop) kLogicalPtraceStopInterruptPending = false) as ->.
    { destruct (has _ kLogicalPtraceStopInterruptPending); [destruct Hin as (_ & E & _); [done|]; by destruct (E Hstate)|done]. }
    change (kStopped =? kStopped) with true. cbn [negb andb orb].
    destruct Hcount as [->|[-> Hh]]; [done|]. unfold head_sequence in Hh. by rewrite Hh, !Z.eqb_refl.
  - destruct Hrel as [(-> & -> & -> & ->)|[Hg [Hu Hgen Htr _ Hn Ha Hin]]]; [done|].
    rewrite (proj2 (Z.eqb_neq _ _) Hg). unfold LogicalPtraceRelationAt. rewrite (ok_init t Ht).
    rewrite Nat2Z.id, (list_lookup_total_correct _ _ _ Hr).
    replace (kLogicalPtraceRelationCapacity <=? Z.of_nat i) with false
      by (unfold kLogicalPtraceRelationCapacity; lia).
    unfold in_use in Hu. simpl in Hu. apply negb_true_iff in Hu. rewrite Hu. cbn [negb orb].
    rewrite Hgen, Z.eqb_refl, Htr, (proj2 (LogicalTaskKeysEqual_spec _ _) eq_refl), (Hn Hcur).
    cbn [negb andb orb Z.eqb].
    replace (has (ds_flags stop) kLogicalPtraceStopAttachPending && _) with false.
    2:{ destruct (has _ kLogicalPtraceStopAttachPending); [|done]. by destruct Ha as [-> ->]. }
    replace (has (ds_flags stop) kLogicalPtraceStopInterruptPending && _) with false; [done|].
    destruct (has _ kLogicalPtraceStopInterruptPending); [|done]. destruct Hin as (-> & E1 & E2); [done|].
    by rewrite (proj2 (Z.eqb_neq _ _) E1), (proj2 (Z.eqb_neq _ _) E2).
Qed.

Lemma validate_stops_ok t slot stops :
  (forall j stop, stops !! j = Some stop -> stop_entry t (slot + Z.of_nat j) stop = true) ->
  validate_stops t slot stops = true.
Proof.
  revert slot. induction stops as [|stop stops IH]; intros slot Hall; [done|]. simpl.
  pose proof (Hall O stop eq_refl) as H0. rewrite Z.add_0_r in H0. rewrite H0. apply IH. intros j x Hj.
  replace (slot + 1 + Z.of_nat j) with (slot + Z.of_nat (S j)) by lia. by apply Hall.
Qed.

Lemma validate_stops_entry t slot stops j stop : validate_stops t slot stops = true -> stops !! j = Some stop ->
  stop_entry t (slot + Z.of_nat j) stop = true.
Proof.
  revert slot j. induction stops as [|x stops IH]; intros slot j Hv Hj; [done|]. simpl in Hv.
  destruct (stop_entry t slot x) eqn:Hx; [|done]. destruct j as [|j].
  - injection Hj as ->. by rewrite Z.add_0_r.
  - replace (slot + Z.of_nat (S j)) with (slot + 1 + Z.of_nat j) by lia. by apply IH.
Qed.

Lemma operation_entry_ok d t i o : dispatch_ok d t -> entry_at (ld_operations d) i o ->
  operation_ok (live_in (process_map t)) o -> operation_entry t o = true.
Proof.
  intros [Hok Hheld] Hi (Hg & Hk & Hn & Hs & Hl). pose proof (ck_table _ _ Hok) as Ht.
  unfold operation_entry. rewrite (proj2 (Z.eqb_neq _ _) Hg), Hk, Hs.
  replace (0 <=? do_syscall_number o) with true by lia.
  rewrite (proj2 (live_found_b t _ _ _ _ (ok_init t Ht) (ok_processes t Ht)) Hl). cbn [negb andb].
  apply eqb_true_iff, eq_bool_prop_intro.
  assert (operation_map d !! do_caller o = Some o) as Hm.
  { apply (to_map_lookup _ _ _ _ (ck_operations _ _ Hok)). eauto. }
  find_wait t (do_caller o) Ht.
  - destruct Hf as (w & _ & _ & Hw & _). destruct (proj1 (Hheld (do_caller o))) as (o' & Ho & Hst); [by eexists|].
    assert (o' = o) as -> by congruence. by rewrite Hst.
  - split; [|done]. intros Hst%Is_true_eq_true%Z.eqb_eq.
    destruct (proj2 (Hheld (do_caller o))) as [w Hw]; [by exists o|congruence].
Qed.

Lemma dispatch_ok_validates d t : dispatch_ok d t -> ValidateLogicalPtraceDispatcher d t = true.
Proof.
  intros Hd. pose proof Hd as [Hok _]. pose proof (ck_table _ _ Hok) as Ht.
  unfold ValidateLogicalPtraceDispatcher. rewrite (ck_init _ _ Hok).
  rewrite (proj2 (Validate_table_ok t (ok_typed t Ht)) Ht). cbn [andb].
  assert (slots_ok 512 (fun o => vacant_operation o = true) (fun o => operation_entry t o = true)
    (ld_operations d) (ld_operation_count d)) as Hs.
  { eapply slots_ok_mono; [|apply (ck_operations _ _ Hok)]. intros. by eapply operation_entry_ok. }
  apply (validate_slots_ok 512 vacant_operation (operation_entry t)) in Hs as ->.
  - rewrite Z.eqb_refl, andb_true_r. apply validate_stops_ok. intros j stop Hj. by apply (stop_entry_ok d).
  - intros o Ho. unfold operation_entry in Ho. by bool_hyps.
  - done.
  - done.
  - apply (so_length _ _ _ _ _ Hs).
Qed.
