(* ===== verification/DispatcherSteps.v ===== *)
(** * The dispatcher's invariant under the operations it calls

    What each operation of the logical table, and each write of the
    dispatcher, does to the invariant of [DispatcherInv]; and the rules by
    which the postcondition of a handler is computed. *)

From S2P Require Import Prelude Bits SlotArray Chain LogicalPtrace LogicalPtraceOps LogicalPtraceInv.
From S2P Require Import LogicalPtraceQueue LogicalPtracePreserve LogicalPtraceEvents LogicalPtraceWait.
From S2P Require Import Dispatcher DispatcherOps DispatcherInv.
From stdpp Require Import list gmap.
#[local] Open Scope Z_scope.

(** ** Postconditions of handlers *)

Section Post.
Context {W : Type}.

Definition post {A} (m : M W A) (e : Env W) (Q : A -> Env W -> Prop) : Prop := Q (m e).1 (m e).2.

Lemma post_ret {A} (x : A) e (Q : A -> Env W -> Prop) : Q x e -> post (ret x) e Q.
Proof. done. Qed.

Lemma post_bind {A B} (m : M W A) (k : A -> M W B) e (Q : B -> Env W -> Prop) :
  post m e (fun x e' => post (k x) e' Q) -> post (bind m k) e Q.
Proof. unfold post, bind. by destruct (m e). Qed.

Lemma post_mono {A} (m : M W A) e (Q Q' : A -> Env W -> Prop) :
  post m e Q -> (forall x e', Q x e' -> Q' x e') -> post m e Q'.
Proof. unfold post. auto. Qed.

Lemma post_get_dispatcher e (Q : LogicalPtraceDispatcher -> Env W -> Prop) :
  Q (dispatcher e) e -> post get_dispatcher e Q.
Proof. done. Qed.

Lemma post_get_logical e (Q : LogicalPtraceTable -> Env W -> Prop) :
  Q (logical e) e -> post get_logical e Q.
Proof. done. Qed.

Lemma post_write_dispatcher f e (Q : unit -> Env W -> Prop) :
  Q tt (set_dispatcher e (f (dispatcher e))) -> post (write_dispatcher f) e Q.
Proof. done. Qed.

Lemma post_on_dispatcher {A} (f : LogicalPtraceDispatcher -> A * LogicalPtraceDispatcher) e
    (Q : A -> Env W -> Prop) :
  Q (f (dispatcher e)).1 (set_dispatcher e (f (dispatcher e)).2) -> post (on_dispatcher f) e Q.
Proof. unfold post, on_dispatcher. by destruct (f (dispatcher e)). Qed.

Lemma post_on_logical f e (Q : Z -> Env W -> Prop) :
  Q (f (logical e)).1 (set_logical e (f (logical e)).2) -> post (on_logical f) e Q.
Proof. unfold post, on_logical. by destruct (f (logical e)). Qed.

Lemma post_on_logical_out {A} (f : LogicalPtraceTable -> Z * LogicalPtraceTable * A) e
    (Q : Z * A -> Env W -> Prop) :
  Q ((f (logical e)).1.1, (f (logical e)).2) (set_logical e (f (logical e)).1.2) ->
  post (on_logical_out f) e Q.
Proof. unfold post, on_logical_out. by destruct (f (logical e)) as [[? ?] ?]. Qed.

(** A computation that only talks to the world. *)
Definition world_only {A} (m : M W A) : Prop :=
  forall e, exists x w, m e = (x, set_world e w).

Lemma post_world_only {A} (m : M W A) e (Q : A -> Env W -> Prop) :
  world_only m -> (forall x w, Q x (set_world e w)) -> post m e Q.
Proof. intros Hm HQ. unfold post. destruct (Hm e) as (x & w & ->). apply HQ. Qed.

Lemma world_ret {A} (x : A) : world_only (ret x).
Proof. intros e. exists x, (world e). by destruct e. Qed.

Lemma world_bind {A B} (m : M W A) (k : A -> M W B) :
  world_only m -> (forall x, world_only (k x)) -> world_only (bind m k).
Proof.
  intros Hm Hk e. unfold bind. destruct (Hm e) as (x & w & ->).
  destruct (Hk x (set_world e w)) as (y & w' & ->). by exists y, w'.
Qed.

Lemma world_call_io {A} (f : W -> Z * A * W) : world_only (call_io f).
Proof. intros e. unfold call_io. destruct (f (world e)) as [[error x] w]. eauto. Qed.

Lemma world_call_io_ (f : W -> Z * W) : world_only (call_io_ f).
Proof. intros e. unfold call_io_. destruct (f (world e)) as [error w]. eauto. Qed.
End Post.

Create HintDb world.
#[export] Hint Resolve world_ret world_call_io world_call_io_ : world.

(** Splits a computation on the world into its calls. *)
Ltac world_steps :=
  repeat first
    [ progress eauto 2 with world
    | apply world_bind; [|intros ?]
    | progress cbv beta zeta
    | match goal with
      | |- world_only (if ?b then _ else _) => destruct b
      | |- world_only (match ?x with _ => _ end) => destruct x
      end ].

Section World.
Context {W : Type} (io : LogicalPtraceDispatchIo W).

Lemma world_ReadMemory task address size : world_only (ReadMemory io task address size).
Proof. unfold ReadMemory. world_steps. Qed.
Lemma world_WriteMemory task address input : world_only (WriteMemory io task address input).
Proof. unfold WriteMemory. world_steps. Qed.
Lemma world_ResolveTask caller tid : world_only (ResolveTask io caller tid).
Proof. unfold ResolveTask. world_steps. Qed.
Lemma world_ResolveParent caller : world_only (ResolveParent io caller).
Proof. unfold ResolveParent. world_steps. Qed.
Lemma world_CheckAttachPermission caller target kind : world_only (CheckAttachPermission io caller target kind).
Proof. unfold CheckAttachPermission. world_steps. Qed.
Lemma world_QueryUid tracee : world_only (QueryUid io tracee).
Proof. unfold QueryUid. world_steps. Qed.
Lemma world_FillWaitRusage tracee event : world_only (FillWaitRusage io tracee event).
Proof. unfold FillWaitRusage. world_steps. Qed.
End World.

#[export] Hint Resolve world_ReadMemory world_WriteMemory world_ResolveTask world_ResolveParent
  world_CheckAttachPermission world_QueryUid world_FillWaitRusage : world.

Section WorldHandlers.
Context {W : Type} (io : LogicalPtraceDispatchIo W).

Lemma world_ReadRemoteIovec caller address : world_only (ReadRemoteIovec io caller address).
Proof. unfold ReadRemoteIovec. world_steps. Qed.
Lemma world_HandleGetRegset caller note address stop : world_only (HandleGetRegset io caller note address stop).
Proof. pose proof world_ReadRemoteIovec. unfold HandleGetRegset, WriteRemoteIovec. world_steps. Qed.
Lemma world_HandlePeekUser caller offset address stop : world_only (HandlePeekUser io caller offset address stop).
Proof. unfold HandlePeekUser. world_steps. Qed.
Lemma world_HandleGetSyscallInfo caller capacity address stop :
  world_only (HandleGetSyscallInfo io caller capacity address stop).
Proof. unfold HandleGetSyscallInfo. world_steps. Qed.
Lemma world_WriteWaitOutput wait tracee event : world_only (WriteWaitOutput io wait tracee event).
Proof. unfold WriteWaitOutput, WriteRusage. world_steps. Qed.
Lemma world_ZeroNoHangWaitId request : world_only (ZeroNoHangWaitId io request).
Proof. unfold ZeroNoHangWaitId. world_steps. Qed.
End WorldHandlers.

#[export] Hint Resolve world_ReadRemoteIovec world_HandleGetRegset world_HandlePeekUser
  world_HandleGetSyscallInfo world_WriteWaitOutput world_ZeroNoHangWaitId : world.

(** ** Operations of the logical table *)

Section Table.
Context (d : LogicalPtraceDispatcher) (t : LogicalPtraceTable).
Hypothesis Hok : core_ok d t.

(** The table after an operation keeps the dispatcher's invariant and nobody's
    process or wait changed. *)
Definition kept (t' : LogicalPtraceTable) : Prop := core_ok d t' /\ same_tasks t t'.

Lemma kept_refl : kept t.
Proof. done. Qed.

Lemma fake_claimed task : kept (ClaimLogicalFakeTraceme t task).2.
Proof.
  pose proof (ClaimLogicalFakeTraceme_ok t task (ck_table _ _ Hok)) as Hc.
  assert (relations (ClaimLogicalFakeTraceme t task).2 = relations t /\
    same_tasks t (ClaimLogicalFakeTraceme t task).2) as [Hr Hs].
  { unfold ClaimLogicalFakeTraceme. repeat case_match; done. }
  destruct (ClaimLogicalFakeTraceme t task) as [error t']. split; [|done].
  apply (core_tables d t); [done|apply Hc|apply Hs|done].
Qed.

Lemma wait_ended k : core_ok d (EndLogicalWait t k).2 /\ processes (EndLogicalWait t k).2 = processes t /\
  ((EndLogicalWait t k).1 = 0 \/ (EndLogicalWait t k).1 = ESRCH \/ TaskKeyValid k = false) /\
  (TaskKeyValid k = true -> wait_map (EndLogicalWait t k).2 = delete k (wait_map t)).
Proof.
  pose proof (ck_table _ _ Hok) as Ht. unfold EndLogicalWait. rewrite (ok_init t Ht).
  destruct (TaskKeyValid k) eqn:Hk; [|by simpl; split_and!; eauto]. cbn [negb orb].
  find_wait t k Ht.
  - destruct Hf as (w & Hw & <- & Hm & _). rewrite (list_lookup_total_correct _ _ _ (proj1 Hw)).
    destruct (EraseWaitAt_ok t n w Ht Hw) as [Hok' Hm'].
    split; [by apply (core_tables d t)|]. split; [done|]. split; [by left|]. done.
  - split; [done|]. split; [done|]. split; [by eauto|]. intros _. by rewrite delete_id.
Qed.

(** A relation found by its tracee is replaced. *)
Lemma found_core i r r' : relations t !! i = Some r -> view r' = view r ->
  table_ok (update_relation t i r') -> kept (update_relation t i r').
Proof. intros Hi Hv Ht'. split; [|done]. by apply (core_view d t _ i r r'). Qed.

Lemma options_set tracee options : kept (SetLogicalPtraceOptions t tracee options).2.
Proof.
  pose proof (ck_table _ _ Hok) as Ht.
  pose proof (SetLogicalPtraceOptions_ok t tracee options Ht) as Hc. revert Hc.
  unfold SetLogicalPtraceOptions. destruct (_ || _); [done|].
  find_relation t tracee Ht; [|done]. destruct Hf as (r & [Hi Hu] & _).
  rewrite (list_lookup_total_correct _ _ _ Hi). destruct (negb (lr_state r =? kStopped)); [done|].
  intros [Hok' _]. by apply (found_core n r).
Qed.

Lemma head_view r e : typed_relation r -> lr_event_head r < 4 -> ev_sequence e = head_sequence r ->
  view (with_head_event r e) = view r.
Proof.
  intros (Hl & H1 & _) H2 He. unfold view, with_head_event, head_sequence, head_event, with_relation in *.
  cbn. rewrite list_lookup_total_insert_eq by lia. by rewrite He.
Qed.

Lemma registers_set tracee regs valid number :
  kept (SetLogicalPtraceEventRegisters t tracee regs valid number).2.
Proof.
  pose proof (ck_table _ _ Hok) as Ht.
  pose proof (SetLogicalPtraceEventRegisters_ok t tracee regs valid number Ht) as Hc. revert Hc.
  unfold SetLogicalPtraceEventRegisters. destruct (negb _); [done|].
  find_relation t tracee Ht; [|done]. destruct Hf as (r & Hi & _).
  rewrite (list_lookup_total_correct _ _ _ (proj1 Hi)). destruct (_ || _); [done|].
  destruct (relation_facts d t Hok n r Hi) as (_ & _ & Hty & [(_ & Hh & _) _] & _).
  intros [Hok' _]. apply (found_core n r); [apply Hi| |done]. apply head_view; [done|lia|]. by destruct valid.
Qed.

Lemma siginfo_set tracee info : kept (SetLogicalPtraceEventSiginfo t tracee info).2.
Proof.
  pose proof (ck_table _ _ Hok) as Ht.
  pose proof (SetLogicalPtraceEventSiginfo_ok t tracee info Ht) as Hc. revert Hc.
  unfold SetLogicalPtraceEventSiginfo. destruct (negb _); [done|].
  find_relation t tracee Ht; [|done]. destruct Hf as (r & Hi & _).
  rewrite (list_lookup_total_correct _ _ _ (proj1 Hi)). destruct (_ || _); [done|].
  destruct (relation_facts d t Hok n r Hi) as (_ & _ & Hty & [(_ & Hh & _) _] & _).
  intros [Hok' _]. apply (found_core n r); [apply Hi| |done]. by apply head_view; [|lia|].
Qed.

Lemma number_set i r number : entry_at (relations t) i r -> (lr_event_count r =? 0) = false ->
  let event := head_event r in
  kept (update_relation t i (with_head_event r
    (with_event event (ev_flags event ||| kEventFlagSyscallNumberValid) number
       (ev_signal_info event) (ev_guest_registers event)))).
Proof.
  intros Hi Hc event. pose proof (ck_table _ _ Hok) as Ht.
  destruct (relation_facts d t Hok i r Hi) as (_ & _ & Hty & Hq & _). pose proof (proj1 Hq) as (_ & Hh & _).
  apply (found_core i r); [apply Hi|by apply head_view; [|lia|]|].
  apply set_head_event_ok; [done|done|done| |done].
  pose proof (head_event_valid r Hq (count_positive r Hq Hc)) as Hv. fold event in Hv.
  apply EventValid_iff in Hv as (? & ? & ? & ? & ? & ?). apply EventValid_iff. cbn.
  do 2 (split; [done|]). split; [by apply unknown_bits_lor|]. do 2 (split; [done|]).
  rewrite has_lor; [done|by unfold kEventFlagSyscallNumberValid].
Qed.

(** *** A relation known by its entry *)

Lemma find_entry i r : entry_at (relations t) i r -> FindLogicalPtraceRelation t (lr_tracee r) = Some i.
Proof.
  intros Hi. pose proof (ck_table _ _ Hok) as Ht. destruct (relation_facts d t Hok i r Hi) as (_ & _ & _ & _ & _ & _ & Hm).
  find_relation t (lr_tracee r) Ht; [|congruence]. destruct Hf as (r' & [Hn Hu] & Hk & _).
  f_equal. destruct Hi as [Hi Hui]. by apply (so_unique _ _ _ _ _ (ok_relations t Ht) n i r' r).
Qed.

Lemma clear_stop_ok i r : stop_ok (Z.of_nat i) r (ClearStop (Z.of_nat i)).
Proof. split; [done..|by left]. Qed.

Lemma forget_same slot : same_operations d (ForgetStop slot d).
Proof. unfold ForgetStop. by destruct (slot <? _). Qed.

(** A relation changed and its stop record forgotten. *)
Lemma forgotten_core t' i r r' : entry_at (relations t) i r -> table_ok t' -> processes t' = processes t ->
  relations t' = <[i := r']> (relations t) -> lr_event_count r' <= 1 -> core_ok (ForgetStop (lr_slot r) d) t'.
Proof.
  intros Hi Ht Hp Hr Hc. destruct (stop_of_relation d t Hok i r Hi) as (Hs & Hn & _).
  destruct (relation_facts d t Hok i r Hi) as (Hsl & _).
  apply (core_pair d t _ t' i r' (ClearStop (lr_slot r))); try done.
  - apply forget_same.
  - unfold ForgetStop. rewrite Z.ltb_antisym, Hs. simpl. by rewrite Hn.
  - rewrite Hsl. apply clear_stop_ok.
Qed.

Lemma relation_resumed i r mode : entry_at (relations t) i r ->
  let '(error, t') := ResumeLogicalPtraceRelation t (lr_tracee r) mode in
  same_tasks t t' /\ (error <> 0 -> t' = t) /\ (error = 0 -> core_ok (ForgetStop (lr_slot r) d) t') /\
  (lr_state r = kStopped -> lr_event_count r = 0 ->
   (mode = ResumeMode_kCont \/ mode = ResumeMode_kSyscall \/ mode = ResumeMode_kSingleStep) -> error = 0).
Proof.
  intros Hi. pose proof (ck_table _ _ Hok) as Ht.
  pose proof (ResumeLogicalPtraceRelation_ok t (lr_tracee r) mode Ht) as Hc. revert Hc.
  unfold ResumeLogicalPtraceRelation. rewrite (ok_init t Ht), (find_entry i r Hi).
  rewrite (list_lookup_total_correct _ _ _ (proj1 Hi)).
  destruct (negb true || _) eqn:Hm.
  { intros _. split; [done|]. split; [done|]. split; [done|]. intros _ _ [-> | [-> | ->]]; done. }
  destruct (lr_state r =? kStopped) eqn:Hst; cbn [negb].
  2:{ intros _. split; [done|]. split; [done|]. split; [by destruct (lr_state r =? kExitZombie)|]. lia. }
  destruct (lr_event_count r =? 0) eqn:Hz; cbn [negb].
  2:{ intros _. split; [done|]. split; [done|]. split; [done|]. lia. }
  intros [Hok' _]. split; [done|]. split; [done|]. split; [|done]. intros _.
  eapply (forgotten_core _ i r); [exact Hi|exact Hok'|reflexivity|reflexivity|].
  exact (ck_single _ _ Hok i r (proj1 Hi)).
Qed.

Lemma relation_listening i r : entry_at (relations t) i r ->
  let '(error, t') := ListenLogicalPtraceRelation t (lr_tracee r) in
  same_tasks t t' /\ (error <> 0 -> t' = t) /\ (error = 0 -> core_ok (ForgetStop (lr_slot r) d) t') /\
  (lr_state r = kStopped -> lr_event_count r = 0 -> lr_attach_kind r = kSeize -> error = 0).
Proof.
  intros Hi. pose proof (ck_table _ _ Hok) as Ht.
  pose proof (ListenLogicalPtraceRelation_ok t (lr_tracee r) Ht) as Hc. revert Hc.
  unfold ListenLogicalPtraceRelation. rewrite (ok_init t Ht), (find_entry i r Hi).
  rewrite (list_lookup_total_correct _ _ _ (proj1 Hi)). cbn [negb].
  destruct (lr_attach_kind r =? kSeize) eqn:Hk; cbn [negb].
  2:{ intros _. split; [done|]. split; [done|]. split; [done|]. lia. }
  destruct (lr_state r =? kStopped) eqn:Hst; cbn [negb orb].
  2:{ intros _. split; [done|]. split; [done|]. split; [by destruct (lr_state r =? kExitZombie)|]. lia. }
  destruct (lr_event_count r =? 0) eqn:Hz; cbn [negb].
  2:{ intros _. split; [done|]. split; [done|]. split; [by destruct (lr_state r =? kExitZombie)|]. lia. }
  intros [Hok' _]. split; [done|]. split; [done|]. split; [|done]. intros _.
  eapply (forgotten_core _ i r); [exact Hi|exact Hok'|reflexivity|reflexivity|].
  exact (ck_single _ _ Hok i r (proj1 Hi)).
Qed.

Lemma relation_erased i r discard : entry_at (relations t) i r ->
  let '(error, t') := EraseLogicalPtraceRelation t (lr_tracee r) discard in
  same_tasks t t' /\ (error <> 0 -> t' = t) /\ (error = 0 -> core_ok (ForgetStop (lr_slot r) d) t') /\
  (lr_event_count r = 0 -> error = 0).
Proof.
  intros Hi. pose proof (ck_table _ _ Hok) as Ht.
  pose proof (EraseLogicalPtraceRelation_ok t (lr_tracee r) discard Ht) as Hc. revert Hc.
  destruct (relation_facts d t Hok i r Hi) as (_ & _ & _ & _ & _ & Hr & _).
  pose proof (relation_ok_key _ _ Hr) as Hk. simpl in Hk.
  unfold EraseLogicalPtraceRelation. rewrite (ok_init t Ht), Hk, (find_entry i r Hi).
  rewrite (list_lookup_total_correct _ _ _ (proj1 Hi)). cbn [negb orb].
  destruct (negb discard && negb (lr_event_count r =? 0)) eqn:Hz.
  { intros _. split; [done|]. split; [done|]. split; [done|]. lia. }
  intros (Hok' & _). split; [done|]. split; [done|]. split; [|done]. intros _.
  destruct (stop_of_relation d t Hok i r Hi) as (_ & Hn & _).
  apply (forgotten_core _ i r (ClearRelationRecord (lr_slot r))); [done|done|done| |done].
  unfold EraseRelationAt. simpl. by rewrite Hn.
Qed.

(** *** Events *)

(** A queue without an exit event, as long as the relation is not a zombie. *)
Lemma stopped_head i r : entry_at (relations t) i r -> lr_state r <> kExitZombie ->
  0 < lr_event_count r -> EventIsExit (head_event r) = false.
Proof.
  intros Hi Hst Hc. destruct (relation_facts d t Hok i r Hi) as (_ & _ & _ & Hq & _).
  pose proof (zombie_exit r Hq) as Hz. destruct (pending_head r (proj1 Hq) Hc) as [rest Hp].
  rewrite Hp in Hz. simpl in Hz. rewrite (proj2 (Z.eqb_neq _ _) Hst) in Hz.
  by destruct (EventIsExit (head_event r)).
Qed.

Lemma pop_count r : lr_event_count r = 1 -> lr_event_count (PopRelationEvent r) = 0.
Proof. intros H. unfold PopRelationEvent. cbn. by rewrite H. Qed.

Lemma stop_ok_pop slot r stop : lr_event_count r = 1 -> stop_ok slot r stop ->
  stop_ok slot (PopRelationEvent r) stop.
Proof.
  intros Hc [Hs Hf He [Hu|[Hg [A1 A2 A3 A4 A5 A6 A7]]]]; split; auto. right. split; [done|]. split; try done.
  intros Hcur. destruct (A4 Hcur) as (? & ? & _). split; [done|]. split; [done|]. left. by apply pop_count.
Qed.

Lemma event_discarded i r : entry_at (relations t) i r -> lr_state r = kStopped -> lr_event_count r = 1 ->
  exists t', ConsumeLogicalPtraceEvent t (lr_tracee r) false = (0, t', Some (head_event r)) /\
    kept t' /\ entry_at (relations t') i (PopRelationEvent r).
Proof.
  intros Hi Hst Hc. pose proof (ck_table _ _ Hok) as Ht.
  pose proof (ConsumeLogicalPtraceEvent_ok t (lr_tracee r) false Ht) as Hcons. revert Hcons.
  unfold ConsumeLogicalPtraceEvent. rewrite (ok_init t Ht), (find_entry i r Hi).
  rewrite (list_lookup_total_correct _ _ _ (proj1 Hi)), Hc. cbn [negb Z.eqb].
  rewrite (stopped_head i r Hi); [|by rewrite Hst|lia]. cbn [andb].
  intros (Hok' & _). eexists. split; [done|]. split.
  - split; [|done]. apply (core_relation d t _ i (PopRelationEvent r)); [done|done|done|done| |].
    + intros r0 stop Hi'. assert (r0 = r) as -> by (destruct Hi; congruence). by apply stop_ok_pop.
    + rewrite pop_count; [lia|done].
  - split; [|apply Hi]. cbn. apply list_lookup_insert_eq. by eapply lookup_lt_Some, Hi.
Qed.

Lemma event_queued i r event : entry_at (relations t) i r ->
  let '(error, t', sequence) := QueueLogicalPtraceEvent t (lr_tracee r) event in
  table_ok t' /\ same_tasks t t' /\ (error <> 0 -> t' = t) /\
  (error = 0 -> relations t' = <[i := enqueue r (stored_event event sequence)]> (relations t)).
Proof.
  intros Hi. pose proof (ck_table _ _ Hok) as Ht.
  pose proof (QueueLogicalPtraceEvent_ok t (lr_tracee r) event Ht) as Hc. revert Hc.
  unfold QueueLogicalPtraceEvent. rewrite (ok_init t Ht), (find_entry i r Hi).
  rewrite (list_lookup_total_correct _ _ _ (proj1 Hi)).
  destruct (_ || _); [intros Hc; repeat (split; [done|]); done|].
  destruct (lr_state r =? kExitZombie); [intros Hc; repeat (split; [done|]); done|].
  destruct (lr_event_count r =? _); [intros Hc; repeat (split; [done|]); done|].
  destruct (AllocateSequence _) as [sequence next]. intros (Hok' & _). by repeat (split; [done|]).
Qed.

Lemma relation_created tracee tracer kind class options :
  let '(error, t', slot) := CreateLogicalPtraceRelation t tracee tracer kind class options in
  kept t' /\ (error <> 0 -> t' = t) /\
  (error = 0 -> exists i r, entry_at (relations t') i r /\ lr_tracee r = tracee /\
     lr_tracer r = tracer /\ lr_attach_kind r = kind /\ lr_state r = initial_state kind).
Proof.
  pose proof (ck_table _ _ Hok) as Ht.
  pose proof (CreateLogicalPtraceRelation_ok t tracee tracer kind class options Ht) as Hc. revert Hc.
  unfold CreateLogicalPtraceRelation.
  destruct (_ || _); [done|]. destruct (_ =? _); [done|].
  destruct (FindLogicalProcess t (LogicalProcessKeyForTask tracee)); [|done].
  destruct (FindLogicalProcess t (LogicalProcessKeyForTask tracer)); [|done].
  destruct (_ && _); [done|]. destruct (PtraceChainContains _ _ _); [done|].
  destruct (FindLogicalPtraceRelation t tracee); [done|]. destruct (_ =? _); [done|].
  pose proof (free_slot_spec _ _ _ _ _ (ok_relations t Ht) (proj1 (proj2 (hints_ok t Ht)))) as Hfree.
  destruct (free_slot _ _) as [c|]; [|done]. destruct (AllocateSequence _) as [generation next].
  destruct Hfree as (Hc & r0 & Hr0 & Hfree). intros (Hok' & _). split; [|split; [done|]].
  - split; [|done]. eapply (core_relation d t _ (Z.to_nat c)); [done|done|done|done| |done].
    intros r1 stop Hr1 [Hs Hf He [Hu|[_ Ha]]]; [by split; auto; left|].
    assert (r1 = r0) as -> by congruence. pose proof (at_use _ _ Ha). congruence.
  - intros _. eexists (Z.to_nat c), _. split; [split|].
    + cbn. apply list_lookup_insert_eq. by eapply lookup_lt_Some.
    + done.
    + by split_and!.
Qed.
End Table.

(** ** Writes of the dispatcher *)

Section Stops.
Context (d : LogicalPtraceDispatcher) (t : LogicalPtraceTable).
Hypothesis Hok : core_ok d t.

(** The stop record of a relation is there and describes it. *)
Lemma stop_ensured i r : entry_at (relations t) i r ->
  let '(s, d') := EnsureStopRecord d r in
  s = Some i /\ core_ok d' t /\ same_operations d d' /\
  exists stop, ld_stops d' !! i = Some stop /\ stop_ok (Z.of_nat i) r stop /\ attached r stop.
Proof.
  intros Hi. destruct (stop_of_relation d t Hok i r Hi) as (Hs & Hn & stop & Hst & Hst' & Hstop).
  destruct (relation_facts d t Hok i r Hi) as (Hsl & Hlt & _ & _ & _ & Hrok & _).
  apply relation_generation in Hrok as Hgen. unfold EnsureStopRecord. rewrite Hs, Hn, Hst'.
  destruct (_ || _) eqn:Hm.
  - assert (attached r (Build_LogicalPtraceDispatchStop 0 (lr_slot r) (lr_generation r) (lr_tracee r)
      cleared_event)) as Ha by (split; try done; apply Hi).
    assert (stop_ok (Z.of_nat i) r (Build_LogicalPtraceDispatchStop 0 (lr_slot r) (lr_generation r)
      (lr_tracee r) cleared_event)) as Hstop'.
    { split; try done. by right. }
    split; [done|]. split; [|split; [done|]].
    + eapply (core_stop d t _ i); [done|done|done|]. intros r' Hr'.
      by assert (r' = r) as -> by (destruct Hi; congruence).
    + eexists. split; [|done]. cbn. apply list_lookup_insert_eq. by eapply lookup_lt_Some.
  - split; [done|]. split; [done|]. split; [done|]. exists stop. rewrite <- Hsl. split; [done|].
    split; [done|]. bool_hyps. destruct (sk_relation _ _ _ Hstop) as [(Hg & _)|[_ Ha]]; [exfalso; lia|done].
Qed.

Lemma current_stop i r : entry_at (relations t) i r ->
  let '(s, d') := CurrentStop d r in
  core_ok d' t /\ same_operations d d' /\
  (s = None \/ s = Some i /\ exists stop, ld_stops d' !! i = Some stop /\ stop_ok (Z.of_nat i) r stop /\
     attached r stop /\ has (ds_flags stop) kLogicalPtraceStopCurrentValid = true).
Proof.
  intros Hi. pose proof (stop_ensured i r Hi) as He. unfold CurrentStop.
  destruct (EnsureStopRecord d r) as [s d']. destruct He as (-> & Hok' & Hs & stop & Hst & Hstop & Ha).
  rewrite (list_lookup_total_correct _ _ _ Hst). split; [done|]. split; [done|].
  destruct (has (ds_flags stop) kLogicalPtraceStopCurrentValid) eqn:Hc; [|by left].
  right. split; [done|]. by exists stop.
Qed.

(** A record rewritten where it is. *)
Lemma stop_written i r stop : relations t !! i = Some r -> stop_ok (Z.of_nat i) r stop ->
  core_ok (dbump (put_stop i stop d)) t.
Proof.
  intros Hr Hs. apply (core_stop d t _ i stop); [done|done|done|]. intros r' Hr'. by simplify_eq.
Qed.

(** A pending flag set on a record without a delivered stop. *)
Lemma pending_flag i r stop flag : relations t !! i = Some r -> stop_ok (Z.of_nat i) r stop ->
  attached r stop -> has (ds_flags stop) kLogicalPtraceStopCurrentValid = false ->
  (flag = kLogicalPtraceStopAttachPending /\ lr_attach_kind r = kAttach /\ lr_state r = kAttachPending \/
   flag = kLogicalPtraceStopInterruptPending /\ lr_attach_kind r = kSeize /\ lr_state r <> kStopped /\
   lr_state r <> kExitZombie) ->
  core_ok (dbump (put_stop i (with_flags stop (ds_flags stop ||| flag)) d)) t.
Proof.
  intros Hr [Hs Hf He Hrel] [A1 A2 A3 A4 A5 A6 A7] Hc Hflag.
  assert (ds_relation_generation stop <> 0) as Hg.
  { destruct Hrel as [(Hg & _)|[? _]]; [|done]. rewrite <- A2.
    destruct (relation_facts d t Hok i r (conj Hr A1)) as (_ & _ & _ & _ & _ & Hrok & _).
    by eapply relation_generation. }
  assert (has (ds_flags stop ||| flag) kLogicalPtraceStopCurrentValid = false) as Hc'.
  { rewrite has_lor_disjoint; [done|]. by destruct Hflag as [(-> & _)|(-> & _)]. }
  apply (stop_written i r); [done|]. split; try done; cbn [ds_flags with_flags].
  - apply unknown_bits_lor; [done|]. by destruct Hflag as [(-> & _)|(-> & _)].
  - congruence.
  - right. split; [done|]. split; try done; cbn [ds_flags with_flags ds_current].
    + congruence.
    + intros _. by apply A5.
    + destruct Hflag as [(-> & ? & ?)|(-> & _)]; [done|]. rewrite has_lor_disjoint by done. done.
    + destruct Hflag as [(-> & _)|(-> & ? & ? & ?)]; [|done]. rewrite has_lor_disjoint by done. done.
Qed.

(** The delivered event rewritten: registers, system call number, siginfo. *)
Lemma current_written i r stop event : relations t !! i = Some r -> stop_ok (Z.of_nat i) r stop ->
  EventSnapshotValid event = true -> ev_sequence event = ev_sequence (ds_current stop) ->
  core_ok (dbump (put_stop i (with_current stop event) d)) t.
Proof.
  intros Hr [Hs Hf He Hrel] Hv Hseq. apply (stop_written i r); [done|]. split; try done.
  destruct Hrel as [(Hg & Hfl & Htid & Hsq)|[Hg [A1 A2 A3 A4 A5 A6 A7]]].
  - left. unfold unattached. cbn. by rewrite Hseq.
  - right. split; [done|]. split; try done; cbn [ds_flags with_current ds_current].
    + intros Hc. destruct (A4 Hc) as (_ & ? & ?). by rewrite Hseq.
    + intros Hc. rewrite Hseq. by apply A5.
Qed.
End Stops.

Section Operations.
Context (d : LogicalPtraceDispatcher) (t : LogicalPtraceTable).
Hypothesis Hok : core_ok d t.

Lemma dispatcher_hint : 0 <= ld_operation_free_hint d < 512.
Proof. split; [apply (ck_hint _ _ Hok)|]. by apply dispatcher_init_iff, (ck_init _ _ Hok). Qed.

(** The operations replaced; the stop records stay. *)
Lemma core_operations count hint next ops :
  slots_ok 512 (fun o => vacant_operation o = true) (operation_ok (live_in (process_map t))) ops count ->
  0 <= hint < 512 -> next <> 0 -> core_ok (dbump (set_operations d count hint next ops)) t.
Proof.
  intros Hs Hh Hn. pose proof (proj1 (dispatcher_init_iff d) (ck_init _ _ Hok)) as (? & ? & _).
  pose proof (slots_ok_count _ _ Hs). split; try apply Hok; try done; cbn; [|lia].
  apply dispatcher_init_iff. cbn. repeat split; try done; lia.
Qed.

Lemma operation_inserted caller number state result : TaskKeyValid caller = true ->
  live_in (process_map t) (LogicalProcessKeyForTask caller) -> 0 <= number ->
  OperationStateValid state = true -> operation_map d !! caller = None ->
  (ld_operation_count d =? kLogicalPtraceDispatchCapacity) = false ->
  exists d' slot o, InsertOperation d caller number state result = (0, d', slot) /\ core_ok d' t /\
    operation_map d' = <[caller := o]> (operation_map d) /\ do_caller o = caller /\
    do_syscall_number o = number /\ do_state o = state /\ do_visible_result o = result /\ do_slot o = slot.
Proof.
  intros Hk Hl Hn Hst Hm Hfull. pose proof (ck_operations _ _ Hok) as Hops.
  pose proof (find_operation_spec d t Hok caller Hk) as Hf. unfold InsertOperation.
  destruct (FindOperation d caller); [destruct Hf as (o & _ & _ & ? & _); congruence|]. rewrite Hfull.
  pose proof (free_slot_spec _ _ _ _ _ Hops dispatcher_hint) as Hfree.
  destruct (free_slot _ _) as [c|]; [|unfold kLogicalPtraceDispatchCapacity in Hfull; lia].
  destruct Hfree as (Hc & o0 & Ho & Hu).
  pose proof (AllocateSequence_spec (ld_next_operation_generation d)) as [Hg Hnext].
  destruct (AllocateSequence _) as [generation next]. simpl in Hg, Hnext.
  set (o := Build_LogicalPtraceDispatchOperation 1 c generation caller number state result).
  assert (slots_ok 512 (fun o => vacant_operation o = true) (operation_ok (live_in (process_map t)))
    (<[Z.to_nat c := o]> (ld_operations d)) (ld_operation_count d + 1)) as Hs'.
  { eapply slots_ok_fill; [exact Hops|exact Ho|exact Hu|simpl; lia|done|done| |done].
    intros j r0 Hj. by apply (proj1 (to_map_None _ _ _ Hops) Hm j). }
  pose proof (slots_ok_count _ _ Hs').
  exists (dbump (set_operations d (u32 (ld_operation_count d + 1))
    (advance_hint c kLogicalPtraceDispatchCapacity) next (<[Z.to_nat c := o]> (ld_operations d)))), c, o.
  split; [done|]. split; [|split; [|done]].
  2:{ apply (to_map_store _ _ _ _ _ _ Hops Hs' Ho); [done|congruence]. }
  rewrite u32_small by lia. apply core_operations; [done| |done].
  apply advance_hint_range; [unfold kLogicalPtraceDispatchCapacity; lia|done].
Qed.

Lemma operation_at i o : entry_at (ld_operations d) i o ->
  do_slot o = Z.of_nat i /\ (i < 512)%nat /\ operation_ok (live_in (process_map t)) o /\
  operation_map d !! do_caller o = Some o.
Proof.
  intros Hi. pose proof (ck_operations _ _ Hok) as Hops.
  destruct (entry_at_ok _ _ i o Hops Hi) as (Ho & _ & Hs & Hl).
  split; [done|]. split; [done|]. split; [done|]. apply (to_map_lookup _ _ _ _ Hops). eauto.
Qed.

Lemma operation_erased i o : entry_at (ld_operations d) i o ->
  core_ok (EraseOperation d (do_slot o)) t /\
  operation_map (EraseOperation d (do_slot o)) = delete (do_caller o) (operation_map d).
Proof.
  intros Hi. pose proof (ck_operations _ _ Hok) as Hops. destruct (operation_at i o Hi) as (Hs & Hl & _).
  assert (slots_ok 512 (fun o => vacant_operation o = true) (operation_ok (live_in (process_map t)))
    (<[i := ClearOperation (do_slot o)]> (ld_operations d)) (ld_operation_count d - 1)) as Hs'.
  { by eapply slots_ok_clear. }
  pose proof (slots_ok_count _ _ Hs'). unfold EraseOperation. rewrite Hs, Nat2Z.id.
  rewrite Hs in Hs'. split.
  - rewrite u32_small by lia. apply core_operations; [done|lia|].
    by apply dispatcher_init_iff, (ck_init _ _ Hok).
  - by apply (to_map_clear _ _ _ _ _ _ Hops Hs' (proj1 Hi)); [apply Hi|].
Qed.

Lemma operation_ready i o result : entry_at (ld_operations d) i o ->
  exists o', core_ok (ready_operation i result d) t /\
    operation_map (ready_operation i result d) = <[do_caller o := o']> (operation_map d) /\
    do_caller o' = do_caller o /\ do_syscall_number o' = do_syscall_number o /\ do_state o' = kHeldReady /\
    do_visible_result o' = result /\ do_slot o' = do_slot o.
Proof.
  intros Hi. pose proof (ck_operations _ _ Hok) as Hops. destruct (operation_at i o Hi) as (Hs & Hl & Ho & _).
  set (o' := Build_LogicalPtraceDispatchOperation (do_occupied o) (do_slot o) (do_generation o) (do_caller o)
    (do_syscall_number o) kHeldReady result).
  assert (operation_ok (live_in (process_map t)) o') as Ho'.
  { destruct Ho as (? & ? & ? & _ & ?). by split_and!. }
  assert (slots_ok 512 (fun o => vacant_operation o = true) (operation_ok (live_in (process_map t)))
    (<[i := o']> (ld_operations d)) (ld_operation_count d)) as Hs'.
  { by eapply slots_ok_update. }
  exists o'. unfold ready_operation. rewrite (list_lookup_total_correct _ _ _ (proj1 Hi)).
  split; [|split; [by apply (to_map_store _ _ _ _ _ _ Hops Hs' (proj1 Hi)); [apply Hi|]|done]].
  apply core_operations; [done|apply dispatcher_hint|]. by apply dispatcher_init_iff, (ck_init _ _ Hok).
Qed.
End Operations.

(** ** Waits *)

Section Waits.
Context (d : LogicalPtraceDispatcher) (t : LogicalPtraceTable).
Hypothesis Hok : core_ok d t.

Lemma wait_begun request :
  let '(error, t', slot) := BeginLogicalWait t request in
  (error <> 0 -> t' = t) /\
  (error = 0 -> core_ok d t' /\ processes t' = processes t /\ relations t' = relations t /\
     wait_map t !! rq_waiter request = None /\
     exists w, wait_map t' = <[rq_waiter request := w]> (wait_map t) /\ lw_request w = request).
Proof.
  pose proof (ck_table _ _ Hok) as Ht. pose proof (BeginLogicalWait_ok t request Ht) as Hc. revert Hc.
  assert (processes (BeginLogicalWait t request).1.2 = processes t /\
    relations (BeginLogicalWait t request).1.2 = relations t) as [Hp Hr].
  { unfold BeginLogicalWait. repeat case_match; done. }
  destruct (BeginLogicalWait t request) as [[error t'] slot]. simpl in Hp, Hr.
  intros (Hok' & Hf & Hs). split; [done|]. intros H0. destruct (Hs H0) as (w & Hw & Hnone & Hreq).
  split; [by apply (core_tables d t)|]. repeat (split; [done|]). by exists w.
Qed.

Lemma snapshot_of_event e : EventValid e = true -> EventSnapshotValid e = true.
Proof.
  intros (? & Hk & Hf & ? & ? & Hn)%EventValid_iff. unfold EventSnapshotValid, EventKindValid in *.
  bool_hyps. rewrite Hf. destruct (has (ev_flags e) kEventFlagSyscallNumberValid).
  - unfold NSIG in *. rewrite !andb_true_iff, !negb_true_iff. lia.
  - rewrite (Hn eq_refl). unfold NSIG in *. rewrite !andb_true_iff, !negb_true_iff. lia.
Qed.

(** The state of a relation with one pending event that is no exit. *)
Lemma one_event_stopped i r : entry_at (relations t) i r -> 0 < lr_event_count r ->
  EventIsExit (head_event r) = false -> lr_state r = kStopped /\ lr_event_count r = 1.
Proof.
  intros Hi Hc He. destruct (relation_facts d t Hok i r Hi) as (_ & _ & _ & Hq & H1 & _).
  assert (lr_event_count r = 1) as Hone by lia. split; [|done].
  pose proof (zombie_exit r Hq) as Hz. destruct (pending_head r (proj1 Hq) Hc) as [rest Hp].
  pose proof (length_pending r ltac:(lia)) as Hl. rewrite Hp, Hone in Hl. destruct rest; [|simpl in Hl; lia].
  rewrite Hp in Hz. simpl in Hz. rewrite He in Hz. simpl in Hz.
  destruct (found_relation t i r (ck_table _ _ Hok) Hi) as (_ & Hst & _).
  destruct Hq as (_ & _ & Hrun). destruct (running (lr_state r)) eqn:Hr; [specialize (Hrun eq_refl); lia|].
  unfold RelationStateValid in Hst. unfold running in Hr.
  repeat match goal with H : (_ || _) = false |- _ => apply orb_false_iff in H as [H ?] end.
  destruct (lr_state r =? kStopped) eqn:E; [by apply Z.eqb_eq|].
  repeat match goal with H : (lr_state r =? _) = false |- _ => rewrite H in Hst; clear H end. done.
Qed.

(** The stop record after the wait took the head event of relation [j]. *)
Definition delivered (r : LogicalPtraceRelation) : LogicalPtraceDispatcher -> LogicalPtraceDispatcher :=
  if negb (EventIsExit (head_event r))
  then RememberDeliveredStop (lr_slot r) (lr_generation r) (lr_tracee r) (head_event r)
  else ForgetStop (lr_slot r).

Lemma delivered_same r : same_operations d (delivered r d).
Proof.
  unfold delivered, RememberDeliveredStop. destruct (negb _); [by destruct (_ <=? _)|apply forget_same].
Qed.

Lemma delivered_core t' j r r' : entry_at (relations t) j r -> 0 < lr_event_count r ->
  table_ok t' -> processes t' = processes t -> relations t' = <[j := r']> (relations t) ->
  (EventIsExit (head_event r) = false -> r' = r \/ r' = PopRelationEvent r) -> lr_event_count r' <= 1 ->
  core_ok (delivered r d) t'.
Proof.
  intros Hj Hc Ht Hp Hr Hr' Hle. pose proof (delivered_same r) as Hsame. revert Hsame. unfold delivered.
  destruct (EventIsExit (head_event r)) eqn:Hexit; simpl; intros Hsame.
  { by apply (forgotten_core d t Hok _ j r r'). }
  destruct (one_event_stopped j r Hj Hc Hexit) as [Hst Hone].
  destruct (stop_of_relation d t Hok j r Hj) as (Hs & Hn & _).
  destruct (relation_facts d t Hok j r Hj) as (Hsl & _ & _ & Hq & _ & Hrok & _).
  apply relation_generation in Hrok.
  eapply (core_pair d t _ t' j r'); [done|done|done|exact Hsame|done| | |done].
  { unfold RememberDeliveredStop. rewrite Hs. cbn. by rewrite Hn. }
  split; cbn; [done|done|done|]. right. split; [done|].
  split; cbn; try done; try by destruct (Hr' eq_refl) as [-> | ->]; try apply Hj.
  intros _. split; [by apply snapshot_of_event, head_event_valid|].
  destruct (Hr' eq_refl) as [-> | ->]; [by auto|]. split; [done|]. left. by apply pop_count.
Qed.

Lemma wait_consumed waiter i w j r : FindLogicalWait t waiter = Some i -> entry_at (waits t) i w ->
  relations t !! j = Some r -> reportable t (lw_request w) r = true ->
  exists t', ConsumeLogicalWaitEvent t waiter (match_of (Z.of_nat j) r) = (0, t', Some (head_event r)) /\
    core_ok (delivered r d) t' /\ processes t' = processes t /\ wait_map t' = delete waiter (wait_map t).
Proof.
  intros Hf Hw Hj Hr. pose proof (ck_table _ _ Hok) as Ht.
  destruct (reportable_split _ _ _ Hr) as (Ho & _ & _ & _ & Hc & _).
  assert (entry_at (relations t) j r) as Hjr by (split; [done|unfold in_use; simpl; by rewrite Ho]).
  destruct (relation_facts d t Hok j r Hjr) as (Hsl & Hlt & _ & Hq & Hle & _).
  pose proof (count_positive r Hq Hc) as Hpos.
  pose proof (consume_selected t waiter i w j r Ht Hf Hw Hj Hr) as He.
  pose proof (ConsumeLogicalWaitEvent_ok t waiter (match_of (Z.of_nat j) r) Ht ltac:(simpl; lia)) as Hcons.
  revert He Hcons. unfold ConsumeLogicalWaitEvent. rewrite Hf, (list_lookup_total_correct _ _ _ (proj1 Hw)).
  destruct (_ || _ || _ || _); [done|]. cbn [wm_relation_slot match_of]. rewrite Nat2Z.id.
  rewrite (list_lookup_total_correct _ _ _ Hj).
  match goal with |- context [if ?b then (ESTALE, _, _) else _] => destruct b end; [done|].
  destruct (negb (rq_nowait (lw_request w) =? 0)).
  { intros _ (Hok' & _ & _ & Hs). destruct (Hs eq_refl) as (_ & _ & _ & _ & _ & _ & _ & Hwm & _).
    eexists. split; [done|]. split; [|done].
    eapply (delivered_core _ j r r); [done|done|done|done| |by left|done]. by rewrite list_insert_id. }
  destruct (EventIsExit (head_event r)) eqn:Hexit; cbn [andb].
  - destruct (negb _); [done|]. intros _ (Hok' & _ & _ & Hs).
    destruct (Hs eq_refl) as (_ & _ & _ & _ & _ & _ & _ & Hwm & _).
    eexists. split; [done|]. split; [|done].
    eapply (delivered_core _ j r (ClearRelationRecord (lr_slot r))); [done|done|done|done| |congruence|done].
    cbn. by rewrite Hsl, Nat2Z.id, list_insert_insert_eq.
  - intros _ (Hok' & _ & _ & Hs). destruct (Hs eq_refl) as (_ & _ & _ & _ & _ & _ & _ & Hwm & _).
    eexists. split; [done|]. split; [|done].
    eapply (delivered_core _ j r (PopRelationEvent r)); [done|done|done|done|done|by right|].
    rewrite pop_count; lia.
Qed.
End Waits.
