(* ===== verification/DispatcherSafety.v ===== *)
(** * Safety of the logical ptrace dispatcher

    Every handler keeps the invariant of [DispatcherInv]: the postconditions of
    the handlers, the calls of the dispatcher as a step relation, and what
    holds in every reachable state. *)

From S2P Require Import Prelude Bits SlotArray Chain LogicalPtrace LogicalPtraceOps LogicalPtraceInv.
From S2P Require Import LogicalPtraceQueue LogicalPtracePreserve LogicalPtraceSafety LogicalPtraceEvents.
From S2P Require Import LogicalPtraceWait Dispatcher DispatcherOps DispatcherInv DispatcherSteps.
From stdpp Require Import list gmap relations.
#[local] Open Scope Z_scope.
#[local] Open Scope dispatch_scope.

(** The computation rules of [post], applied until a call of the table. *)
Ltac wp_step :=
  lazymatch goal with
  | |- post (ret _) _ _ => apply post_ret
  | |- post (bind _ _) _ _ => apply post_bind
  | |- post get_dispatcher _ _ => apply post_get_dispatcher
  | |- post get_logical _ _ => apply post_get_logical
  | |- post (write_dispatcher _) _ _ => apply post_write_dispatcher
  | |- post (on_dispatcher _) _ _ => apply post_on_dispatcher
  | |- post _ _ _ => first
      [ progress cbv beta zeta iota
      | apply post_world_only; [solve [eauto 2 with world]|intros ? ?] ]
  end.
(** The outermost test of a handler. *)
Tactic Notation "test" "as" ident(H) :=
  lazymatch goal with |- post (if ?b then _ else _) _ _ => destruct b eqn:H end.
Ltac wp := repeat wp_step; cbn [dispatcher logical world set_dispatcher set_logical set_world].

(** ** Delivered events *)

Lemma snapshot_iff e : EventSnapshotValid e = true <-> EventValid e = true.
Proof.
  split; [|apply snapshot_of_event]. intros H. apply EventValid_iff. unfold EventSnapshotValid in H.
  unfold EventKindValid. bool_hyps. split_and!; try lia; done.
Qed.

Lemma registers_kept e regs number : EventSnapshotValid e = true ->
  (number = ev_guest_syscall_number e) ->
  EventSnapshotValid (with_event e (ev_flags e ||| kEventFlagRegistersValid) number (ev_signal_info e) regs) = true.
Proof.
  rewrite !snapshot_iff, !EventValid_iff. intros (? & ? & ? & ? & ? & Hn) ->. cbn.
  do 2 (split; [done|]). split; [by apply unknown_bits_lor|]. do 2 (split; [done|]).
  by rewrite has_lor_disjoint.
Qed.

Lemma poked_kept e regs : EventSnapshotValid e = true ->
  EventSnapshotValid (with_event e (ev_flags e) (ev_guest_syscall_number e) (ev_signal_info e) regs) = true.
Proof. by rewrite !snapshot_iff, !EventValid_iff. Qed.

Lemma number_kept e number : EventSnapshotValid e = true -> EventSnapshotValid (set_current_number number e) = true.
Proof.
  rewrite !snapshot_iff, !EventValid_iff. intros (? & ? & ? & ? & ? & Hn). cbn.
  do 2 (split; [done|]). split; [by apply unknown_bits_lor|]. do 2 (split; [done|]).
  by rewrite has_lor_same by done.
Qed.

Lemma siginfo_kept e info : EventSnapshotValid e = true -> EventSnapshotValid (set_current_siginfo info e) = true.
Proof.
  rewrite !snapshot_iff, !EventValid_iff. intros (? & ? & ? & ? & ? & Hn). cbn.
  do 2 (split; [done|]). split; [by apply unknown_bits_lor|]. do 2 (split; [done|]).
  by rewrite has_lor_disjoint.
Qed.

Section Safety.
Context {W : Type} (io : LogicalPtraceDispatchIo W).

Definition env_core (e : Env W) : Prop := core_ok (dispatcher e) (logical e).

(** The invariant holds after, and no operation, process or wait changed. *)
Definition safe (e e' : Env W) : Prop :=
  env_core e' /\ same_operations (dispatcher e) (dispatcher e') /\ same_tasks (logical e) (logical e').

Lemma safe_refl e : env_core e -> safe e e.
Proof. done. Qed.

Lemma safe_trans e1 e2 e3 : safe e1 e2 -> safe e2 e3 -> safe e1 e3.
Proof.
  intros (_ & Hs & Hp & Hw) (? & Hs' & Hp' & Hw'). split; [done|]. split; [by etrans|].
  split; congruence.
Qed.

(** A later part of a handler. *)
Lemma post_from {A} e1 e2 (Q : A -> Prop) (m : M W A) : safe e1 e2 ->
  post m e2 (fun x e' => safe e2 e' /\ Q x) -> post m e2 (fun x e' => safe e1 e' /\ Q x).
Proof. intros Hs H. eapply post_mono; [exact H|]. intros x e' [Hs' HQ]. split; [by eapply safe_trans|done]. Qed.

Lemma kept_safe e t' : kept (dispatcher e) (logical e) t' -> safe e (set_logical e t').
Proof. by intros []. Qed.

(** The events behind a delivered stop and the stop itself. *)
Lemma UpdateQueuedRegisters_safe i regs valid number e : env_core e ->
  post (UpdateQueuedRegisters i regs valid number) e (fun _ e' => safe e e' /\ dispatcher e' = dispatcher e).
Proof.
  intros Hok. apply post_on_logical. split; [|done]. cbv zeta. apply kept_safe. destruct (_ =? 0); [by apply kept_refl|].
  by apply (registers_set _ _ Hok (lr_tracee (relations (logical e) !!! i)) regs valid number).
Qed.

Lemma UpdateQueuedSiginfo_safe i info e : env_core e ->
  post (UpdateQueuedSiginfo i info) e (fun _ e' => safe e e' /\ dispatcher e' = dispatcher e).
Proof.
  intros Hok. apply post_on_logical. split; [|done]. cbv zeta. apply kept_safe. destruct (_ =? 0); [by apply kept_refl|].
  by apply (siginfo_set _ _ Hok (lr_tracee (relations (logical e) !!! i)) info).
Qed.

Lemma UpdateQueuedSyscallNumber_safe i r number e : env_core e -> entry_at (relations (logical e)) i r ->
  post (UpdateQueuedSyscallNumber i number) e (fun _ e' => safe e e' /\ dispatcher e' = dispatcher e).
Proof.
  intros Hok Hi. apply post_on_logical. split; [|done]. cbv zeta. apply kept_safe.
  rewrite (list_lookup_total_correct _ _ _ (proj1 Hi)).
  destruct (lr_event_count r =? 0) eqn:Hc; [by apply kept_refl|]. destruct (_ && _); [by apply kept_refl|].
  by apply (number_set _ _ Hok i r number Hi Hc).
Qed.

Lemma write_current_safe s stop f e : env_core e -> ld_stops (dispatcher e) !! s = Some stop ->
  EventSnapshotValid (f (ds_current stop)) = true ->
  ev_sequence (f (ds_current stop)) = ev_sequence (ds_current stop) ->
  post (write_current s f) e (fun _ e' => safe e e').
Proof.
  intros Hok Hs Hv Hq. apply post_write_dispatcher. cbv zeta. rewrite (list_lookup_total_correct _ _ _ Hs).
  assert (s < 512)%nat by (rewrite <- (ck_length _ _ Hok); by eapply lookup_lt_Some).
  destruct (lookup_lt_is_Some_2 (relations (logical e)) s) as [r Hr].
  { by rewrite (ty_relations _ (ok_typed _ (ck_table _ _ Hok))). }
  split; [|by split; [|done]]. eapply current_written; [done|exact Hr| |done|done].
  by apply (ck_stops _ _ Hok).
Qed.

(** ** Requests on a stopped tracee *)

(** The handlers' situation: relation [i] of the table, with a delivered stop. *)
Record stopped_at (e : Env W) (i : nat) (r : LogicalPtraceRelation) (stop : LogicalPtraceDispatchStop)
    : Prop := {
  sa_core : env_core e;
  sa_relation : entry_at (relations (logical e)) i r;
  sa_state : lr_state r = kStopped;
  sa_stop : ld_stops (dispatcher e) !! i = Some stop;
  sa_attached : attached r stop;
  sa_current : has (ds_flags stop) kLogicalPtraceStopCurrentValid = true }.

Lemma sa_event e i r stop : stopped_at e i r stop -> EventSnapshotValid (ds_current stop) = true.
Proof. intros H. by destruct (at_current _ _ (sa_attached _ _ _ _ H) (sa_current _ _ _ _ H)). Qed.

Lemma sa_world e i r stop w : stopped_at e i r stop -> stopped_at (set_world e w) i r stop.
Proof. by intros []. Qed.

Lemma HandleSetRegset_safe caller note address e i r stop : stopped_at e i r stop ->
  post (HandleSetRegset io caller note address i i) e (fun _ e' => safe e e').
Proof.
  intros Hs. pose proof (sa_event _ _ _ _ Hs) as Hev. destruct Hs as [Hok Hi _ Hst _ _].
  unfold HandleSetRegset. wp. destruct x as [error [base capacity]].
  destruct (negb _); [by wp|]. wp. rewrite (list_lookup_total_correct _ _ _ Hst).
  destruct (note =? NT_PRSTATUS); [|destruct (note =? NT_ARM_SYSTEM_CALL)]; [| |by wp].
  - destruct (_ <? _); [by wp|]. wp. destruct x as [error' bs]. destruct (negb _); [by wp|]. wp.
    eapply post_mono; [by apply (UpdateQueuedRegisters_safe i)|].
    intros error2 e2 [Hs2 Hd2]. destruct (negb _); [by wp|]. wp.
    eapply post_mono; [apply (write_current_safe i stop)|].
    + apply Hs2.
    + by rewrite Hd2.
    + by apply registers_kept.
    + done.
    + intros ? e3 Hs3. wp. by eapply safe_trans.
  - destruct (_ <? _); [by wp|]. wp. destruct x as [error' bs]. destruct (negb _); [by wp|]. wp.
    eapply post_mono; [by apply (UpdateQueuedSyscallNumber_safe i r)|].
    intros error2 e2 [Hs2 Hd2]. destruct (negb _); [by wp|]. wp.
    eapply post_mono; [apply (write_current_safe i stop)|].
    + apply Hs2.
    + by rewrite Hd2.
    + by apply number_kept.
    + done.
    + intros ? e3 Hs3. wp. by eapply safe_trans.
Qed.

Lemma HandlePokeUser_safe offset value e i r stop : stopped_at e i r stop ->
  post (HandlePokeUser offset value i i) e (fun _ e' => safe e e').
Proof.
  intros Hs. pose proof (sa_event _ _ _ _ Hs) as Hev. destruct Hs as [Hok Hi _ Hst _ _].
  unfold HandlePokeUser. wp. rewrite (list_lookup_total_correct _ _ _ Hst).
  destruct (user_offset_bad _ _); [by wp|]. wp.
  eapply post_mono; [by apply (UpdateQueuedRegisters_safe i)|].
  intros error2 e2 [Hs2 Hd2]. destruct (negb _); [by wp|]. wp.
  eapply post_mono; [apply (write_current_safe i stop)|].
  - apply Hs2.
  - by rewrite Hd2.
  - by apply poked_kept.
  - done.
  - intros ? e3 Hs3. wp. by eapply safe_trans.
Qed.

(** Something is asked of a tracee only by a request that succeeds, and only
    of [target]. *)
Definition acts_on (target : LogicalTaskKey) (outcome : PtraceOutcome) : Prop :=
  tr_action (po_target outcome) = Action_kNone \/
  po_result outcome = 0 /\ tr_target (po_target outcome) = target.

(** What a resumed tracee's relation goes through: the pending event is
    dropped, then the state changes and the stop record is forgotten. *)
Lemma HandleResume_safe request data e i r stop : stopped_at e i r stop ->
  post (HandleResume (lr_tracee r) request data i i) e (fun x e' =>
    safe e e' /\ (tr_action x.2 = Action_kNone \/ x.1 = 0 /\ tr_target x.2 = lr_tracee r)).
Proof.
  intros [Hok Hi Hst Hstop Ha Hc]. destruct (at_current _ _ Ha Hc) as (_ & _ & Hcount).
  unfold HandleResume. wp. rewrite (list_lookup_total_correct _ _ _ (proj1 Hi)).
  rewrite (list_lookup_total_correct _ _ _ Hstop).
  test as Hsignal; [wp; by split; [|left]|]. test as Hlisten; [wp; by split; [|left]|].
  test as Hbusy; [wp; by split; [|left]|]. wp.
  (* the pending event *)
  eapply (post_mono _ _ (fun error e1 => error = 0 /\ safe e e1 /\ dispatcher e1 = dispatcher e /\
    exists r1, entry_at (relations (logical e1)) i r1 /\ lr_tracee r1 = lr_tracee r /\ lr_slot r1 = lr_slot r /\
      lr_state r1 = kStopped /\ lr_event_count r1 = 0 /\ lr_attach_kind r1 = lr_attach_kind r)).
  { destruct Hcount as [Hz|[Hone _]].
    - rewrite Hz. change (negb (0 =? 0)) with false. wp. split; [done|]. split; [by apply safe_refl|].
      split; [done|]. by exists r.
    - rewrite Hone. change (negb (1 =? 0)) with true. wp. apply post_on_logical_out. wp.
      destruct (event_discarded _ _ Hok i r Hi Hst Hone) as (t' & -> & Hk & Hi').
      split; [done|]. split; [by apply kept_safe|]. split; [done|]. exists (PopRelationEvent r).
      by rewrite pop_count. }
  intros ? e1 (-> & Hs1 & Hd1 & r1 & Hi1 & Htr & Hsl & Hst1 & Hz1 & Hk1). cbn [negb Z.eqb]. wp.
  (* the change of state *)
  rewrite <- Htr, <- Hsl. pose proof (proj1 Hs1) as Hok1. unfold env_core in Hok1. rewrite Hd1 in Hok1.
  assert (forall req t', tr_target req = lr_tracee r1 -> same_tasks (logical e1) t' -> core_ok (ForgetStop (lr_slot r1) (dispatcher e)) t' ->
    post (if 0 =? 0 then let* _ := write_dispatcher (ForgetStop (lr_slot r1)) in ret (0, req) else ret (0, req))
      (set_logical e1 t') (fun x e' => safe e e' /\ (tr_action x.2 = Action_kNone \/ x.1 = 0 /\ tr_target x.2 = lr_tracee r1))) as Hdone.
  { intros req t' Hreq Ht Hc'. change (0 =? 0) with true. wp. split; [|by right]. eapply safe_trans; [exact Hs1|].
    split; [unfold env_core; cbn; by rewrite Hd1|]. split; [apply forget_same|done]. }
  test as Hdetach; [|test as Hcont; [|test as El]].
  - wp. apply post_on_logical. wp. pose proof (relation_erased _ _ Hok1 i r1 false Hi1) as Hr.
    destruct (EraseLogicalPtraceRelation _ _ _) as [error t']. destruct Hr as (Hsame & _ & Hcore & H0).
    specialize (H0 Hz1) as ->. apply Hdone; [done|done|]. by apply Hcore.
  - wp. apply post_on_logical. wp. pose proof (relation_resumed _ _ Hok1 i r1 (resume_mode request) Hi1) as Hr.
    destruct (ResumeLogicalPtraceRelation _ _ _) as [error t']. destruct Hr as (Hsame & _ & Hcore & H0).
    assert (error = 0) as ->; [|apply Hdone; [done|done|by apply Hcore]]. apply H0; [done..|].
    unfold resume_mode. destruct (request =? PTRACE_SYSCALL), (request =? PTRACE_SINGLESTEP); auto.
  - wp. apply post_on_logical. wp. pose proof (relation_listening _ _ Hok1 i r1 Hi1) as Hr.
    destruct (ListenLogicalPtraceRelation _ _) as [error t']. destruct Hr as (Hsame & _ & Hcore & H0).
    assert (error = 0) as ->; [|apply Hdone; [done|done|by apply Hcore]]. apply H0; [done..|].
    rewrite Hk1. lia.
  - wp. split; [done|by left].
Qed.

Lemma GetDeliveredStop_safe i r e : env_core e -> entry_at (relations (logical e)) i r ->
  post (GetDeliveredStop i) e (fun s e' => safe e e' /\ logical e' = logical e /\
    (s = None \/ s = Some i /\ exists stop, stopped_at e' i r stop)).
Proof.
  intros Hok Hi. unfold GetDeliveredStop. wp. rewrite (list_lookup_total_correct _ _ _ (proj1 Hi)).
  pose proof (current_stop _ _ Hok i r Hi) as Hc. destruct (CurrentStop (dispatcher e) r) as [s d'].
  cbn [fst snd]. destruct Hc as (Hok' & Hs & Hc).
  assert (safe e (set_dispatcher e d')) as Hsafe by done.
  destruct Hc as [-> | (-> & stop & Hst & _ & Ha & Hcur)]; [wp; by auto|]. wp. split; [done|]. split; [done|].
  destruct (lr_state r =? kStopped) eqn:E; [right|by left]. split; [done|]. exists stop. apply Z.eqb_eq in E. done.
Qed.

(** The outcome of a request that only reports an errno value. *)
Lemma acts_answer target error : acts_on target (answer error).
Proof. by left. Qed.

Lemma HandleStoppedRequest_safe caller request address data i r e : env_core e ->
  entry_at (relations (logical e)) i r ->
  post (HandleStoppedRequest io caller (lr_tracee r) request address data i) e (fun outcome e' =>
    safe e e' /\ acts_on (lr_tracee r) outcome).
Proof.
  intros Hok Hi. unfold HandleStoppedRequest. wp.
  eapply post_mono; [by apply (GetDeliveredStop_safe i r)|].
  intros s e1 (Hs1 & _ & [-> | (-> & stop & Hst)]); wp; [by split; [|apply acts_answer]|].
  apply (post_from e e1); [done|].
  rewrite (list_lookup_total_correct _ _ _ (sa_stop _ _ _ _ Hst)).
  pose proof (sa_core _ _ _ _ Hst) as Hok1.
  assert (forall error e', safe e1 e' -> safe e1 e' /\ acts_on (lr_tracee r) (answer error)) as Hans.
  { intros. split; [done|apply acts_answer]. }
  test as H1.
  { wp. eapply post_mono; [by apply (HandleResume_safe _ _ _ _ _ stop)|]. intros [error req] e2 [Hs2 Hr].
    wp. split; [done|]. destruct Hr as [?|[E ?]]; [by left|right]. simpl in E. by subst error. }
  clear H1. test as H1.
  { wp. apply post_on_logical. wp. apply Hans, kept_safe. by apply options_set. }
  clear H1. test as H1.
  { test as H2; wp; by apply Hans. }
  clear H1. test as H1.
  { test as H2; wp; by apply Hans. }
  clear H1. test as H1.
  { test as H2; [wp; by apply Hans|]. wp. destruct x as [error info].
    test as H3; [wp; by apply Hans|]. wp.
    eapply post_mono; [by apply (UpdateQueuedSiginfo_safe i)|]. intros error2 e2 [Hs2 Hd2].
    test as H4; [wp; by apply Hans|]. wp. eapply post_mono; [apply (write_current_safe i stop)|].
    - apply Hs2.
    - rewrite Hd2. apply (sa_stop _ _ _ _ Hst).
    - apply siginfo_kept, (sa_event _ _ _ _ Hst).
    - done.
    - intros ? e3 Hs3. wp. apply Hans. by eapply safe_trans. }
  clear H1. test as H1; [wp; by apply Hans|].
  clear H1. test as H1.
  { wp. eapply post_mono; [by apply (HandleSetRegset_safe _ _ _ _ _ _ _ Hst)|]. intros error e2 Hs2. wp. by apply Hans. }
  clear H1. test as H1.
  { wp. destruct x as [error value]. test as H2; wp; by apply Hans. }
  clear H1. test as H1; [wp; by apply Hans|].
  clear H1. test as H1; [wp; by apply Hans|].
  clear H1. test as H1.
  { wp. eapply post_mono; [by apply (HandlePokeUser_safe _ _ _ _ _ _ Hst)|]. intros error e2 Hs2. wp. by apply Hans. }
  clear H1. test as H1; [|wp; by apply Hans].
  wp. destruct x as [error value]. test as H2; wp; [by apply Hans|]. split; [done|by left].
Qed.

(** ** Attaching *)

(** [target] is traced by a thread of the caller's process. *)
Definition owns (t : LogicalPtraceTable) (caller target : LogicalTaskKey) : Prop :=
  exists i, FindLogicalPtraceRelation t target = Some i /\
    RelationOwnedByCaller (relations t !!! i) caller = true.

Lemma owns_entry d t i r caller : core_ok d t -> entry_at (relations t) i r ->
  RelationOwnedByCaller r caller = true -> owns t caller (lr_tracee r).
Proof.
  intros Hok Hi Ho. exists i. by rewrite (find_entry d t Hok i r Hi), (list_lookup_total_correct _ _ _ (proj1 Hi)).
Qed.

(** The errno value, the outcome: safe, no action with an error, and actions
    only on tracees of the caller, the one it just attached included. *)
Definition safe_outcome (caller : LogicalTaskKey) (e : Env W) (x : Z * PtraceOutcome) (e' : Env W) : Prop :=
  safe e e' /\
  (tr_action (po_target x.2) = Action_kNone \/
   po_result x.2 = 0 /\ (owns (logical e) caller (tr_target (po_target x.2)) \/
                        owns (logical e') caller (tr_target (po_target x.2)))).

Lemma answered caller e e' error number : safe e e' -> safe_outcome caller e (number, answer error) e'.
Proof. intros. split; [done|by left]. Qed.

Lemma HandleTraceme_safe caller e : env_core e ->
  post (HandleTraceme io caller) e (safe_outcome caller e).
Proof.
  intros Hok. unfold HandleTraceme. wp. destruct x as [error parent]. wp.
  test as Hforeign; test as Hfull; [wp; by apply answered| |wp; by apply answered|].
  - wp. apply post_on_logical. wp. apply answered, (kept_safe (set_world e w)). by apply fake_claimed.
  - wp. eapply (post_mono _ _ (fun _ e' => safe e e')).
    { test as H0; wp; done. }
    intros error1 e1 Hs1. wp. eapply (post_mono _ _ (fun _ e' => safe e e')).
    { test as H0; wp; [|done]. apply post_on_logical_out. wp.
      pose proof (relation_created _ _ (proj1 Hs1) caller parent kTraceme kNormal 0) as Hc.
      destruct (CreateLogicalPtraceRelation _ _ _ _ _ _) as [[? t'] ?]. destruct Hc as (Hk & _).
      eapply safe_trans; [exact Hs1|]. by apply kept_safe. }
    intros error2 e2 Hs2. wp. by apply answered.
Qed.

Lemma HandleAttach_safe caller target request address data e : env_core e ->
  (request = PTRACE_ATTACH \/ request = PTRACE_SEIZE) ->
  post (HandleAttach io caller target request address data) e (safe_outcome caller e).
Proof.
  intros Hok Hreq. unfold HandleAttach. wp. test as Hseize; [wp; by apply answered|]. wp.
  set (kind := if request =? PTRACE_ATTACH then kAttach else kSeize).
  eapply (post_mono _ _ (fun error e1 => safe e e1 /\ (error = 0 -> exists i r,
    entry_at (relations (logical e1)) i r /\ lr_tracee r = target /\ lr_tracer r = caller /\
    lr_attach_kind r = kind /\ lr_state r = initial_state kind))).
  { test as H0; wp; [|by split; [|lia]]. apply post_on_logical_out. wp.
    pose proof (relation_created _ _ Hok target caller kind kNormal
      (if request =? PTRACE_SEIZE then data else 0)) as Hc.
    destruct (CreateLogicalPtraceRelation _ _ _ _ _ _) as [[error t'] slot]. destruct Hc as (Hk & _ & Hrel).
    split; [by apply (kept_safe (set_world e w))|done]. }
  intros error e1 [Hs1 Hrel]. test as H0; [wp; by apply answered|].
  destruct Hrel as (i & r & Hi & <- & Htracer & Hkind & Hstate); [lia|]. wp.
  pose proof (proj1 Hs1) as Hok1. rewrite (find_entry _ _ Hok1 i r Hi). wp.
  rewrite (list_lookup_total_correct _ _ _ (proj1 Hi)). pose proof (stop_ensured _ _ Hok1 i r Hi) as He.
  destruct (EnsureStopRecord (dispatcher e1) r) as [s d']. cbn [fst snd].
  destruct He as (-> & Hok' & Hsame & stop & Hst & Hstop & Hatt).
  assert (safe e (set_dispatcher e1 d')) as Hs2 by (eapply safe_trans; [exact Hs1|done]).
  test as Ha; [|wp; by apply answered]. wp. split.
  2:{ right. split; [done|]. right. apply (owns_entry d' _ i r); [done|done|].
      unfold RelationOwnedByCaller. by rewrite Htracer, !Z.eqb_refl. }
  rewrite (list_lookup_total_correct _ _ _ Hst). eapply safe_trans; [exact Hs2|].
  split; [|by split; [|done]]. eapply (pending_flag _ _ Hok' i r); [apply Hi|done|done| |].
  - destruct (has (ds_flags stop) kLogicalPtraceStopCurrentValid) eqn:Hc; [|done].
    destruct (at_current _ _ Hatt Hc) as (_ & Hbad & _). by rewrite Hstate in Hbad.
  - left. split; [done|]. by rewrite Hstate, Hkind.
Qed.

Lemma HandleInterrupt_safe caller address data i r e : env_core e -> entry_at (relations (logical e)) i r ->
  RelationOwnedByCaller r caller = true ->
  post (HandleInterrupt (lr_tracee r) address data i) e (safe_outcome caller e).
Proof.
  intros Hok Hi Hown. unfold HandleInterrupt. wp. rewrite (list_lookup_total_correct _ _ _ (proj1 Hi)).
  pose proof (stop_ensured _ _ Hok i r Hi) as He.
  destruct (EnsureStopRecord (dispatcher e) r) as [s d']. cbn [fst snd].
  destruct He as (-> & Hok' & Hsame & stop & Hst & Hstop & Hatt). wp.
  rewrite (list_lookup_total_correct _ _ _ Hst).
  assert (safe e (set_dispatcher e d')) as Hs2 by done.
  test as Hbad; [wp; by apply answered|]. wp. split.
  2:{ right. split; [done|]. left. by apply (owns_entry (dispatcher e) _ i r). }
  rewrite has_union in Hbad.
  repeat match goal with H : (_ || _) = false |- _ => apply orb_false_iff in H as [H ?] end.
  eapply safe_trans; [exact Hs2|]. split; [|by split; [|done]].
  eapply (pending_flag _ _ Hok' i r); [apply Hi|done|done|done|]. right. split; [done|]. lia.
Qed.

(** ** The ptrace system call *)

Lemma HandlePtraceEntry_safe caller arguments e : env_core e ->
  post (HandlePtraceEntry io caller arguments) e (safe_outcome caller e).
Proof.
  intros Hok. unfold HandlePtraceEntry. cbv zeta. test as Htrace; [by apply HandleTraceme_safe|].
  test as Hpid; [wp; test as Hfull; wp; [by split; [|left]|by apply answered]|].
  wp. destruct x as [error target]. test as Hforeign; [wp; by split; [|left]|]. wp.
  test as Hfull; [wp; by apply answered|]. test as Herr; [wp; by apply answered|].
  test as Hattach.
  { apply (HandleAttach_safe caller target (arguments !!! 0%nat) _ _ (set_world e w)); [done|].
    apply orb_true_iff in Hattach. rewrite !Z.eqb_eq in Hattach. done. }
  wp. unfold FindOwnedRelation. wp.
  pose proof (ck_table _ _ Hok) as Ht. find_relation (logical e) target Ht; [|wp; by apply answered].
  destruct Hf as (r & Hi & <- & _). wp. rewrite (list_lookup_total_correct _ _ _ (proj1 Hi)).
  destruct (RelationOwnedByCaller r caller) eqn:Hown; [|wp; by apply answered]. test as Hint.
  - by apply (HandleInterrupt_safe _ _ _ _ _ (set_world e w)).
  - wp. eapply post_mono; [by apply (HandleStoppedRequest_safe _ _ _ _ _ r (set_world e w))|].
    intros outcome e1 [Hs Ho]. wp. split; [done|].
    destruct Ho as [?|[? Heq]]; [by left|right]. split; [done|]. left. cbn [snd]. rewrite Heq.
    by apply (owns_entry (dispatcher e) _ n r).
Qed.

(** ** Completing a wait *)

(** The invariant holds after, the wait of [waiter] ended, the operations are
    the same. *)
Definition wait_over (waiter : LogicalTaskKey) (e e' : Env W) : Prop :=
  env_core e' /\ same_operations (dispatcher e) (dispatcher e') /\
  processes (logical e') = processes (logical e) /\
  wait_map (logical e') = delete waiter (wait_map (logical e)).

Lemma end_wait_over waiter e : env_core e -> TaskKeyValid waiter = true ->
  post (on_logical (fun t => EndLogicalWait t waiter)) e (fun _ e' =>
    wait_over waiter e e' /\ dispatcher e' = dispatcher e /\ relations (logical e') = relations (logical e)).
Proof.
  intros Hok Hk. apply post_on_logical. destruct (wait_ended _ _ Hok waiter) as (Hc & Hp & _ & Hm).
  split; [|split; [done|]].
  - split; [done|]. split; [done|]. split; [done|]. by apply Hm.
  - cbn. unfold EndLogicalWait. repeat case_match; done.
Qed.

(** What the handler does with the selected event of relation [r]: the wait is
    over; when the output could not be written nothing else changed, else the
    event was consumed and the stop is the delivered one. *)
Definition completed (waiter : LogicalTaskKey) (m : LogicalWaitMatch) (w : LogicalWaitRecord)
    (r : LogicalPtraceRelation) (e : Env W) (x : Z * Z) (e' : Env W) : Prop :=
  let output := (WriteWaitOutput io w (lr_tracee r) (head_event r) e).1 in
  wait_over waiter e e' /\ x.1 = 0 /\
  if output.1 =? 0 then
    x.2 = output.2 /\ ld_stops (dispatcher e') = ld_stops (delivered r (dispatcher e)) /\
    ConsumeLogicalWaitEvent (logical e) waiter m = (0, logical e', Some (head_event r))
  else x.2 = - output.1 /\ relations (logical e') = relations (logical e) /\
    dispatcher e' = dispatcher e.

Definition completion (waiter : LogicalTaskKey) (m : LogicalWaitMatch) (e : Env W) (x : Z * Z) (e' : Env W)
    : Prop :=
  exists w j r, wait_map (logical e) !! waiter = Some w /\ relations (logical e) !! j = Some r /\
    reportable (logical e) (lw_request w) r = true /\ m = match_of (Z.of_nat j) r /\
    completed waiter m w r e x e'.

Lemma CompleteSelectedWait_spec waiter m e : env_core e -> TaskKeyValid waiter = true ->
  SelectLogicalWaitEvent (logical e) waiter = (0, Some m) ->
  post (CompleteSelectedWait io waiter m) e (completion waiter m e).
Proof.
  intros Hok Hk Hsel. pose proof (ck_table _ _ Hok) as Ht.
  destruct (select_found _ _ _ Ht Hsel) as (i & w & j & r & Hw & Hf & Hm & Hj & Hr & ->).
  apply (post_mono _ _ (completed waiter (match_of (Z.of_nat j) r) w r e)); [|intros x e' H; by exists w, j, r].
  unfold completed.
  destruct (reportable_split _ _ _ Hr) as (Ho & _ & _ & _ & Hc & _).
  assert (j < 512)%nat as Hlt.
  { rewrite <- (ty_relations _ (ok_typed _ Ht)). by eapply lookup_lt_Some. }
  unfold CompleteSelectedWait. wp. rewrite Hf.
  assert (LogicalPtraceRelationAt (logical e) (wm_relation_slot (match_of (Z.of_nat j) r)) = Some (Z.of_nat j))
    as ->.
  { unfold LogicalPtraceRelationAt. cbn [wm_relation_slot match_of].
    rewrite (ok_init _ Ht), Nat2Z.id, (list_lookup_total_correct _ _ _ Hj), Ho.
    replace (kLogicalPtraceRelationCapacity <=? Z.of_nat j) with false; [done|].
    unfold kLogicalPtraceRelationCapacity. lia. }
  rewrite Nat2Z.id, (list_lookup_total_correct _ _ _ Hj), (list_lookup_total_correct _ _ _ (proj1 Hw)).
  cbn [wm_relation_generation wm_event_sequence match_of]. unfold head_sequence.
  rewrite !Z.eqb_refl, Hc. cbn [negb orb]. apply post_bind.
  destruct (world_WriteWaitOutput io w (lr_tracee r) (head_event r) e) as ([oe vis] & w' & Eq).
  unfold post at 1. rewrite Eq. cbn [fst snd]. destruct (oe =? 0) eqn:Hoe; cbn [negb].
  - wp. apply post_on_logical_out. wp.
    destruct (wait_consumed _ _ Hok waiter i w j r Hf Hw Hj Hr) as (t' & Hcons & Hcore & Hp & Hwm).
    rewrite Hcons. cbn [fst snd negb Z.eqb default]. wp. split; [|done]. split; [exact Hcore|].
    split; [apply delivered_same|done].
  - wp. eapply post_mono; [by apply (end_wait_over waiter (set_world e w'))|].
    intros ? e2 (Hover & Hd & Hr2). by wp.
Qed.

(** ** The invariant with the operations in flight *)

Definition env_ok (e : Env W) : Prop := dispatch_ok (dispatcher e) (logical e).

(** The operations are the same and nothing else broke. *)
Lemma safe_ok e e' : env_ok e -> safe e e' ->
  env_ok e' /\ operation_map (dispatcher e') = operation_map (dispatcher e).
Proof.
  intros [_ Hheld] (Hok' & Hs & _ & Hw). rewrite (so_operations _ _ Hs). split; [|done].
  split; [done|]. intros k. rewrite Hw, Hheld. unfold held. by rewrite (so_operations _ _ Hs).
Qed.

(** What an operation in flight is for its caller. *)
Record in_flight (o : LogicalPtraceDispatchOperation) (caller : LogicalTaskKey) (number state result slot : Z)
    : Prop := {
  if_caller : do_caller o = caller;
  if_number : do_syscall_number o = number;
  if_state : do_state o = state;
  if_result : do_visible_result o = result;
  if_slot : do_slot o = slot }.

(** An operation for the caller added: [state] says whether the caller's wait
    is still in the table. *)
Lemma insert_operation_ok caller number state result e : env_core e -> TaskKeyValid caller = true ->
  live_in (process_map (logical e)) (LogicalProcessKeyForTask caller) -> 0 <= number ->
  OperationStateValid state = true -> operation_map (dispatcher e) !! caller = None ->
  (ld_operation_count (dispatcher e) =? kLogicalPtraceDispatchCapacity) = false ->
  (forall k, is_Some (wait_map (logical e) !! k) <->
     held (dispatcher e) k \/ (k = caller /\ state = kHeldWait)) ->
  post (insert_operation caller number state result) e (fun x e' =>
    x.1 = 0 /\ env_ok e' /\ logical e' = logical e /\ exists o, in_flight o caller number state result x.2 /\
      operation_map (dispatcher e') = <[caller := o]> (operation_map (dispatcher e))).
Proof.
  intros Hok Hk Hl Hn Hst Hnone Hfull Hwait. apply post_on_dispatcher.
  destruct (operation_inserted _ _ Hok caller number state result Hk Hl Hn Hst Hnone Hfull)
    as (d' & slot & o & -> & Hok' & Hm & Hc & Hnum & Hs & Hr & Hslot).
  cbn [fst snd]. split; [done|]. split; [|split; [done|]].
  - split; [done|]. intros k. cbn [dispatcher logical set_dispatcher]. rewrite Hwait. unfold held. rewrite Hm.
    split.
    + intros [(o' & Ho' & Hheld)|[-> ->]].
      * exists o'. rewrite lookup_insert_ne by congruence. done.
      * exists o. by rewrite lookup_insert_eq.
    + intros (o' & Ho' & Hheld). destruct (decide (k = caller)) as [->|Hne].
      * rewrite lookup_insert_eq in Ho'. injection Ho' as <-. right. by rewrite <- Hs.
      * rewrite lookup_insert_ne in Ho' by done. left. by exists o'.
  - exists o. split; [by split|done].
Qed.

(** What a call of the entry dispatcher does to the operations: the handled
    calls have an operation with the reported result. *)
Definition entry_effect (caller : LogicalTaskKey) (number : Z) (e : Env W)
    (x : Z * LogicalPtraceEntryResult) (e' : Env W) : Prop :=
  env_ok e' /\
  if has (er_flags x.2) kLogicalPtraceEntryHandled then
    x.1 = 0 /\
    (tr_action (er_target x.2) = Action_kNone \/
     er_visible_result x.2 = 0 /\ (owns (logical e) caller (tr_target (er_target x.2)) \/
                                 owns (logical e') caller (tr_target (er_target x.2)))) /\
    exists o, in_flight o caller number
        (if has (er_flags x.2) kLogicalPtraceEntryMayHold then kHeldWait else kImmediate)
        (er_visible_result x.2) (er_operation_slot x.2) /\
      operation_map (dispatcher e') = <[caller := o]> (operation_map (dispatcher e))
  else operation_map (dispatcher e') = operation_map (dispatcher e).

Lemma entry_unhandled caller number e e' error : env_ok e' ->
  operation_map (dispatcher e') = operation_map (dispatcher e) ->
  entry_effect caller number e (error, initial_entry_result number) e'.
Proof. by split. Qed.

Lemma entry_same caller number e e' error : env_ok e -> dispatcher e' = dispatcher e ->
  logical e' = logical e -> entry_effect caller number e (error, initial_entry_result number) e'.
Proof. intros Hok Hd Ht. apply entry_unhandled; [unfold env_ok; by rewrite Hd, Ht|by rewrite Hd]. Qed.

Lemma finish_wait_entry_ok caller number state visible e0 e : env_core e -> TaskKeyValid caller = true ->
  live_in (process_map (logical e)) (LogicalProcessKeyForTask caller) -> 0 <= number ->
  (state = kImmediate \/ state = kHeldWait) -> operation_map (dispatcher e) !! caller = None ->
  (ld_operation_count (dispatcher e) =? kLogicalPtraceDispatchCapacity) = false ->
  (forall k, is_Some (wait_map (logical e) !! k) <->
     held (dispatcher e) k \/ (k = caller /\ state = kHeldWait)) ->
  operation_map (dispatcher e) = operation_map (dispatcher e0) ->
  post (finish_wait_entry caller number state visible) e (entry_effect caller number e0).
Proof.
  intros Hok Hk Hl Hn Hst Hnone Hfull Hwait Hm. unfold finish_wait_entry. wp.
  eapply post_mono; [apply insert_operation_ok; try done; by destruct Hst as [-> | ->]|].
  intros [error slot] e' (H0 & Hok' & _ & o & Ho & Hm'). simpl in H0. subst error. cbn [negb Z.eqb]. wp.
  split; [done|]. cbn [er_flags er_visible_result er_operation_slot entry_result fst snd].
  destruct Hst as [-> | ->]; simpl; (split; [done|]; split; [by left|]; exists o; split; [done|]; by rewrite Hm', Hm).
Qed.

(** ** The waiting system calls *)

Lemma build_waiter t caller number arguments error q :
  BuildWaitRequest t caller number arguments = (error, Some q) -> rq_waiter q = caller.
Proof.
  unfold BuildWaitRequest, BuildLogicalWait4Request, BuildLogicalWaitIdRequest, wait_request.
  repeat case_match; intros; by simplify_eq.
Qed.

Lemma select_zero t k found : SelectLogicalWaitEvent t k = (0, found) -> exists m, found = Some m.
Proof. unfold SelectLogicalWaitEvent. repeat case_match; intros; simplify_eq; eauto. Qed.

(** A caller without an operation does not wait. *)
Lemma no_wait e k : env_ok e -> operation_map (dispatcher e) !! k = None -> wait_map (logical e) !! k = None.
Proof.
  intros [_ Hheld] Hk. apply eq_None_not_Some. rewrite Hheld. intros (o & Ho & _). congruence.
Qed.

Lemma HandleWaitEntry_ok caller number arguments e : env_ok e -> TaskKeyValid caller = true ->
  live_in (process_map (logical e)) (LogicalProcessKeyForTask caller) -> 0 <= number ->
  operation_map (dispatcher e) !! caller = None ->
  post (HandleWaitEntry io caller number arguments) e (entry_effect caller number e).
Proof.
  intros Hok Hk Hl Hn Hnone. pose proof Hok as [Hcore Hheld]. unfold HandleWaitEntry. wp.
  destruct (BuildWaitRequest (logical e) caller number arguments) as [berror found] eqn:Hb.
  destruct berror, found as [request|]; try by (wp; apply entry_same).
  apply build_waiter in Hb. wp. apply post_on_logical_out. wp.
  pose proof (wait_begun _ _ Hcore request) as Hbegin. rewrite Hb in Hbegin.
  destruct (BeginLogicalWait (logical e) request) as [[error t1] slot]. cbn [fst snd].
  destruct Hbegin as (Hfail & Hbegin). test as Herror.
  { wp. apply entry_same; [done|done|]. apply Hfail. lia. }
  assert (error = 0) as -> by lia. destruct (Hbegin eq_refl) as (Hcore1 & Hp1 & Hr1 & Hw0 & w & Hw1 & _).
  clear Hbegin Hfail. set (e1 := set_logical e t1). assert (env_core e1) as Hcore1' by done. wp.
  (* the wait is over: back to the correspondence of waits and operations *)
  assert (forall e2, wait_over caller e1 e2 -> env_core e2 /\
    operation_map (dispatcher e2) = operation_map (dispatcher e) /\
    processes (logical e2) = processes (logical e) /\
    (ld_operation_count (dispatcher e2) = ld_operation_count (dispatcher e)) /\
    forall k, is_Some (wait_map (logical e2) !! k) <-> held (dispatcher e2) k) as Hover.
  { intros e2 (Hc2 & Hs2 & Hp2 & Hw2). split; [done|]. rewrite (so_operations _ _ Hs2). split; [done|].
    split; [by rewrite Hp2|]. split; [by rewrite (so_count _ _ Hs2)|]. intros k. rewrite Hw2. cbn. rewrite Hw1.
    rewrite (same_operations_held _ _ k Hs2). change (dispatcher e1) with (dispatcher e). rewrite <- Hheld.
    destruct (decide (k = caller)) as [->|Hne].
    - rewrite lookup_delete_eq, Hw0. done.
    - by rewrite lookup_delete_ne, lookup_insert_ne by done. }
  assert (forall e2, wait_over caller e1 e2 -> entry_effect caller number e (0, initial_entry_result number) e2 /\
    entry_effect caller number e (ENOSPC, initial_entry_result number) e2) as Hended.
  { intros e2 H2. destruct (Hover e2 H2) as (? & ? & _ & _ & ?). split; by apply entry_unhandled. }
  destruct (SelectLogicalWaitEvent (logical e1) caller) as [select_error found] eqn:Hsel.
  cbv zeta. test as Hfull.
  { wp. eapply post_mono; [by apply (end_wait_over caller e1)|]. intros ? e2 (H2 & _). wp. by apply Hended. }
  test as Hzero.
  { assert (select_error = 0) as -> by lia. destruct (select_zero _ _ _ Hsel) as [m ->]. wp.
    eapply post_mono; [exact (CompleteSelectedWait_spec caller m e1 Hcore1' Hk Hsel)|].
    intros [error visible] e2 (? & ? & ? & _ & _ & _ & _ & H2 & H0 & _). simpl in H0. subst error. wp.
    destruct (Hover e2 H2) as (Hc2 & Hm2 & Hp2 & Hn2 & Hwait2).
    apply finish_wait_entry_ok; try done; [by rewrite Hp2|by left|by rewrite Hm2| |].
    - rewrite Hn2. cbn in Hfull. lia.
    - intros k. rewrite Hwait2. split; [by left|]. by intros [?|[_ ?]]. }
  test as Hnohang.
  { wp. eapply post_mono; [by apply (end_wait_over caller (set_world e1 w0))|]. intros ? e2 (H2 & _). wp.
    destruct (Hover e2 H2) as (Hc2 & Hm2 & Hp2 & Hn2 & Hwait2).
    apply finish_wait_entry_ok; try done; [by rewrite Hp2|by left|by rewrite Hm2| |].
    - rewrite Hn2. cbn in Hfull. lia.
    - intros k. rewrite Hwait2. split; [by left|]. by intros [?|[_ ?]]. }
  test as Hagain.
  { apply finish_wait_entry_ok; try done; [cbn; by rewrite Hp1|by right|].
    - intros k. cbn. rewrite Hw1. destruct (decide (k = caller)) as [->|Hne].
      + rewrite lookup_insert_eq. split; [by right|by eexists].
      + rewrite lookup_insert_ne, Hheld by done. split; [by left|]. by intros [?|[? _]]. }
  test as Hchild.
  { wp. eapply post_mono; [by apply (end_wait_over caller e1)|]. intros ? e2 (H2 & _). wp. by apply Hended. }
  wp. eapply post_mono; [by apply (end_wait_over caller e1)|]. intros ? e2 (H2 & _). wp.
  destruct (Hover e2 H2) as (? & ? & _ & _ & ?). by apply entry_unhandled.
Qed.

(** ** The entry points *)

Lemma no_operation e caller : env_core e -> TaskKeyValid caller = true ->
  FindOperation (dispatcher e) caller = None <-> operation_map (dispatcher e) !! caller = None.
Proof.
  intros Hok Hk. pose proof (find_operation_spec _ _ Hok caller Hk) as Hf.
  destruct (FindOperation (dispatcher e) caller); [|done]. destruct Hf as (o & _ & _ & Ho & _).
  split; congruence.
Qed.

Lemma DispatchLogicalPtraceEntry_ok caller number arguments e : env_ok e ->
  post (DispatchLogicalPtraceEntry io caller number arguments) e (entry_effect caller number e).
Proof.
  intros Hok. pose proof Hok as [Hcore _]. pose proof (ck_table _ _ Hcore) as Ht.
  unfold DispatchLogicalPtraceEntry. wp. test as Hbad; [wp; by apply entry_same|].
  repeat match goal with H : (_ || _) = false |- _ => apply orb_false_iff in H as [H ?] end.
  assert (TaskKeyValid caller = true) as Hk by (by apply negb_false_iff).
  assert (live_in (process_map (logical e)) (LogicalProcessKeyForTask caller)) as Hl.
  { apply (live_found_b (logical e) _ _ _ _ (ok_init _ Ht) (ok_processes _ Ht)).
    by destruct (FindLogicalProcess (logical e) (LogicalProcessKeyForTask caller)). }
  destruct (FindOperation (dispatcher e) caller) eqn:Hf; [wp; by apply entry_same|].
  apply no_operation in Hf as Hnone; [|done|done].
  test as Hwait.
  { apply HandleWaitEntry_ok; try done. apply orb_true_iff in Hwait. rewrite !Z.eqb_eq in Hwait.
    by destruct Hwait as [-> | ->]. }
  test as Hptrace; [wp; by apply entry_same|]. wp.
  eapply post_mono; [by apply HandlePtraceEntry_safe|]. intros [error outcome] e1 [Hs1 Hacts].
  destruct (safe_ok _ _ Hok Hs1) as [Hok1 Hm1]. test as Hdone; [wp; by apply entry_unhandled|].
  destruct (ld_operation_count (dispatcher e1) =? kLogicalPtraceDispatchCapacity) eqn:Hfull.
  { wp. apply post_on_dispatcher. unfold InsertOperation. rewrite Hfull.
    destruct (FindOperation (dispatcher e1) caller); cbn [fst snd]; wp; by apply entry_unhandled. }
  wp. destruct Hs1 as (Hc1 & Hso & Hp1 & _).
  eapply post_mono; [apply insert_operation_ok; try done|].
  - by rewrite Hp1.
  - apply negb_false_iff, Z.eqb_eq in Hptrace as ->. done.
  - by rewrite Hm1.
  - intros k. rewrite (proj2 Hok1). split; [by left|]. by intros [?|[_ ?]].
  - intros [ierror slot] e2 (He0 & Hok2 & Ht2 & o & Ho & Hm2). simpl in He0. subst ierror. cbn [negb Z.eqb]. wp.
    split; [done|]. cbn [er_flags er_visible_result er_operation_slot entry_result fst snd].
    destruct (negb (tr_action (po_target outcome) =? Action_kNone)); simpl;
      (split; [done|]; split; [by rewrite Ht2|]; exists o; split; [done|]; by rewrite Hm2, Hm1).
Qed.

(** The exit of a call: the operation answers and is gone, unless it is held. *)
Definition exit_effect (caller : LogicalTaskKey) (number : Z) (e : Env W)
    (x : Z * LogicalPtraceExitResult) (e' : Env W) : Prop :=
  env_ok e' /\ logical e' = logical e /\
  match operation_map (dispatcher e) !! caller with
  | None => x = (0, no_exit_result) /\ e' = e
  | Some o =>
    if negb (do_syscall_number o =? number) then x.1 = ESTALE /\ dispatcher e' = dispatcher e
    else x.1 = 0 /\ xr_operation_slot x.2 = do_slot o /\
      if do_state o =? kHeldWait then
        xr_flags x.2 = kLogicalPtraceExitHandled ||| kLogicalPtraceExitHold /\ dispatcher e' = dispatcher e
      else xr_flags x.2 = kLogicalPtraceExitHandled ||| kLogicalPtraceExitWriteResult /\
        xr_visible_result x.2 = do_visible_result o /\
        operation_map (dispatcher e') = delete caller (operation_map (dispatcher e))
  end.

Lemma held_delete (m : gmap LogicalTaskKey LogicalPtraceDispatchOperation) caller o :
  m !! caller = Some o -> do_state o <> kHeldWait -> forall k,
  (exists o', delete caller m !! k = Some o' /\ do_state o' = kHeldWait) <->
  (exists o', m !! k = Some o' /\ do_state o' = kHeldWait).
Proof.
  intros Ho Hst k. destruct (decide (k = caller)) as [->|Hne].
  - rewrite lookup_delete_eq. split; [by intros (? & ? & _)|]. intros (o' & Ho' & Hheld). congruence.
  - by rewrite lookup_delete_ne.
Qed.

Lemma DispatchLogicalPtraceExit_ok caller number e : env_ok e -> TaskKeyValid caller = true ->
  post (DispatchLogicalPtraceExit caller number) e (exit_effect caller number e).
Proof.
  intros Hok Hk. pose proof Hok as [Hcore Hheld]. unfold DispatchLogicalPtraceExit. wp.
  rewrite (ck_init _ _ Hcore), (ok_init _ (ck_table _ _ Hcore)), Hk. cbn [negb orb].
  pose proof (find_operation_spec _ _ Hcore caller Hk) as Hf.
  destruct (FindOperation (dispatcher e) caller) as [i|]; [|wp; split; [done|]; split; [done|]; by rewrite Hf].
  destruct Hf as (o & Hi & <- & Ho & _). rewrite (list_lookup_total_correct _ _ _ (proj1 Hi)).
  unfold exit_effect. rewrite Ho. test as Hn; [by wp|]. test as Hs; [by wp|]. wp.
  destruct (operation_erased _ _ Hcore i o Hi) as [Hc' Hm']. split; [|done].
  split; [done|]. intros k. cbn [dispatcher logical set_dispatcher]. unfold held. rewrite Hm'.
  rewrite (held_delete _ _ o Ho) by lia. apply Hheld.
Qed.
End Safety.
