(* ===== verification/DispatcherCalls.v ===== *)
(** * The calls the tracer makes on the dispatcher

    A stop is published, a held wait is woken, an operation is cancelled, a
    task changes its identity: what each does to the invariant of
    [DispatcherInv] and to the operations in flight. *)

From S2P Require Import Prelude Bits SlotArray Chain LogicalPtrace LogicalPtraceOps LogicalPtraceInv.
From S2P Require Import LogicalPtraceQueue LogicalPtracePreserve LogicalPtraceEvents LogicalPtraceWait.
From S2P Require Import Dispatcher DispatcherOps DispatcherInv DispatcherSteps DispatcherSafety.
From stdpp Require Import list gmap.
#[local] Open Scope Z_scope.
#[local] Open Scope dispatch_scope.

(** ** Stops *)

(** The tracee's relation has no event that waits to be reported. *)
Definition nothing_pending (t : LogicalPtraceTable) (tracee : LogicalTaskKey) : Prop :=
  forall i, FindLogicalPtraceRelation t tracee = Some i -> lr_event_count (relations t !!! i) = 0.

Lemma flags_cleared flags : unknown_bits flags kLogicalPtraceStopFlagMask = false ->
  Z.land flags (not32 (kLogicalPtraceStopAttachPending ||| kLogicalPtraceStopInterruptPending |||
                       kLogicalPtraceStopCurrentValid)) = 0.
Proof.
  unfold unknown_bits. intros H. apply negb_false_iff, Z.eqb_eq in H.
  change (not32 _) with (Z.land (not64 kLogicalPtraceStopFlagMask) (2 ^ 32 - 1)).
  by rewrite Z.land_assoc, H.
Qed.

Lemma enqueue_count r e : lr_event_count r = 0 -> lr_event_count (enqueue r e) = 1.
Proof. intros H. cbn. by rewrite H. Qed.

Section Calls.
Context {W : Type} (io : LogicalPtraceDispatchIo W).

(** A queued event and the record of the stop it supersedes. *)
Lemma queued_core d t t' i r stop event : core_ok d t -> entry_at (relations t) i r ->
  stop_ok (Z.of_nat i) r stop -> attached r stop -> table_ok t' -> processes t' = processes t ->
  relations t' = <[i := enqueue r event]> (relations t) -> lr_event_count r = 0 ->
  core_ok (dbump (put_stop i (with_current (with_flags stop 0) cleared_event) d)) t'.
Proof.
  intros Hok Hi [Hs Hf He Hrel] [A1 A2 A3 A4 A5 A6 A7] Ht Hp Hr Hz.
  assert (ds_relation_generation stop <> 0) as Hg.
  { rewrite <- A2. destruct (relation_facts d t Hok i r Hi) as (_ & _ & _ & _ & _ & Hrok & _).
    by eapply relation_generation. }
  eapply (core_pair d t _ t' i (enqueue r event)); [done|done|done|done|done|done| |by rewrite enqueue_count].
  split; [done|done|done|]. right. split; [done|]. by split.
Qed.

(** A stop is published while the previous one is still in the queue only by a
    call that is refused. *)
Definition publish_safe (tracee : LogicalTaskKey) (event : LogicalPtraceEvent) (e : Env W) : Prop :=
  (PublishLogicalPtraceStop tracee event e).1.1 = 0 -> nothing_pending (logical e) tracee.

Lemma published tracee event e : env_core e ->
  post (PublishLogicalPtraceStop (W:=W) tracee event) e (fun x e' =>
    (x.1 = 0 -> nothing_pending (logical e) tracee) -> safe e e').
Proof.
  intros Hok. unfold PublishLogicalPtraceStop. wp. test as Hbad; [by wp|].
  pose proof (ck_table _ _ Hok) as Ht. unfold nothing_pending.
  find_relation (logical e) tracee Ht; [|by wp]. destruct Hf as (r & Hi & <- & _). wp.
  rewrite (list_lookup_total_correct _ _ _ (proj1 Hi)).
  pose proof (stop_ensured _ _ Hok n r Hi) as He.
  destruct (EnsureStopRecord (dispatcher e) r) as [s d']. cbn [fst snd].
  destruct He as (-> & Hok' & Hsame & stop & Hst & Hstop & Hatt). wp.
  rewrite (list_lookup_total_correct _ _ _ Hst).
  assert (safe e (set_dispatcher e d')) as Hs2 by done.
  test as H1; [by wp|]. test as H2; [by wp|]. test as H3; [by wp|]. wp. apply post_on_logical_out. wp.
  pose proof (event_queued _ _ Hok' n r event Hi) as Hq.
  destruct (QueueLogicalPtraceEvent (logical e) (lr_tracee r) event) as [[error t'] sequence].
  cbn [fst snd]. destruct Hq as (Ht' & [Hp Hw] & Hfail & Hrel). test as H0.
  { wp. rewrite (Hfail ltac:(lia)). by destruct e. }
  wp. rewrite (list_lookup_total_correct _ _ _ Hst), flags_cleared by apply Hstop. intros Hpend.
  specialize (Hpend eq_refl _ eq_refl). rewrite (list_lookup_total_correct _ _ _ (proj1 Hi)) in Hpend.
  eapply safe_trans; [exact Hs2|]. split; [|by split; [|split]].
  eapply (queued_core d' (logical e)); try done. apply Hrel. lia.
Qed.

Lemma PublishLogicalPtraceStop_safe tracee event e : env_core e -> publish_safe tracee event e ->
  post (PublishLogicalPtraceStop (W:=W) tracee event) e (fun _ e' => safe e e').
Proof.
  intros Hok Hpend. pose proof (published tracee event e Hok) as Hp. revert Hpend Hp. unfold publish_safe, post.
  destruct (PublishLogicalPtraceStop tracee event e) as [x e']. auto.
Qed.

(** ** Held waits *)

Lemma select_errors t k : table_ok t -> is_Some (wait_map t !! k) ->
  (SelectLogicalWaitEvent t k).1 = 0 \/ (SelectLogicalWaitEvent t k).1 = EAGAIN \/
  (SelectLogicalWaitEvent t k).1 = ECHILD.
Proof.
  intros Ht [w Hw]. unfold SelectLogicalWaitEvent. rewrite (ok_init t Ht). cbn [negb]. cbv zeta.
  find_wait t k Ht; [|congruence]. destruct (select_loop _ _ _ _ _) as [[matching o] m].
  destruct (negb _); [by left|]. right. destruct matching; auto.
Qed.

(** An operation whose caller waits no longer, and the others as they were. *)
Lemma held_insert (m : gmap LogicalTaskKey LogicalPtraceDispatchOperation) k0 o' : do_state o' <> kHeldWait ->
  forall k, (exists o, <[k0 := o']> m !! k = Some o /\ do_state o = kHeldWait) <->
            k <> k0 /\ exists o, m !! k = Some o /\ do_state o = kHeldWait.
Proof.
  intros Hst k. destruct (decide (k = k0)) as [->|Hne].
  - rewrite lookup_insert_eq. split; [by intros (o & [= <-] & ?)|by intros [? _]].
  - rewrite lookup_insert_ne by done. by split; [|intros [_ ?]].
Qed.

Lemma delete_is_Some {A} (m : gmap LogicalTaskKey A) k0 k : is_Some (delete k0 m !! k) <-> k <> k0 /\ is_Some (m !! k).
Proof.
  destruct (decide (k = k0)) as [->|Hne].
  - rewrite lookup_delete_eq. split; [by intros []|by intros [? _]].
  - rewrite lookup_delete_ne by done. by split; [|intros [_ ?]].
Qed.

(** The operation answered: its wait is over, its result is set. *)
Definition answered_with (o : LogicalPtraceDispatchOperation) (result : Z)
    (o' : LogicalPtraceDispatchOperation) : Prop :=
  in_flight o' (do_caller o) (do_syscall_number o) kHeldReady result (do_slot o).

Lemma ready_ok (e1 e : Env W) i o result : env_ok e -> entry_at (ld_operations (dispatcher e)) i o ->
  wait_over (do_caller o) e e1 ->
  let e2 := set_dispatcher e1 (ready_operation i result (dispatcher e1)) in
  env_ok e2 /\ wait_map (logical e2) = delete (do_caller o) (wait_map (logical e)) /\
  exists o', answered_with o result o' /\
    operation_map (dispatcher e2) = <[do_caller o := o']> (operation_map (dispatcher e)).
Proof.
  intros [_ Hheld] Hi (Hc1 & Hs1 & Hp1 & Hw1) e2.
  assert (entry_at (ld_operations (dispatcher e1)) i o) as Hi1 by (by rewrite (so_operations _ _ Hs1)).
  destruct (operation_ready _ _ Hc1 i o result Hi1) as (o' & Hc2 & Hm & H1 & H2 & H3 & H4 & H5).
  rewrite (so_operations _ _ Hs1) in Hm. split; [|split; [done|exists o'; by split]].
  split; [done|]. intros k. unfold e2, held. cbn [dispatcher logical set_dispatcher].
  rewrite Hw1, Hm, held_insert by by rewrite H3. by rewrite delete_is_Some, Hheld.
Qed.

(** What waking a waiter does: nothing for a caller that does not wait, and
    nothing as long as no covered tracee has an event to report; else the wait
    is over and the operation has its result. *)
Definition wake_effect (waiter : LogicalTaskKey) (e : Env W) (error : Z) (e' : Env W) : Prop :=
  env_ok e' /\
  match operation_map (dispatcher e) !! waiter with
  | Some o =>
    if negb (do_state o =? kHeldWait) then error = ESRCH /\ e' = e
    else if (SelectLogicalWaitEvent (logical e) waiter).1 =? EAGAIN then error = EAGAIN /\ e' = e
    else error = 0 /\ wait_map (logical e') = delete waiter (wait_map (logical e)) /\
      exists o' result, answered_with o result o' /\
        operation_map (dispatcher e') = <[waiter := o']> (operation_map (dispatcher e)) /\
        forall m, SelectLogicalWaitEvent (logical e) waiter = (0, Some m) -> exists e1,
          completion io waiter m e (0, result) e1 /\ logical e' = logical e1 /\
          ld_stops (dispatcher e') = ld_stops (dispatcher e1)
  | None => error = ESRCH /\ e' = e
  end.

Lemma TryWakeLogicalPtraceWait_ok waiter e : env_ok e -> TaskKeyValid waiter = true ->
  post (TryWakeLogicalPtraceWait io waiter) e (wake_effect waiter e).
Proof.
  intros Hok Hk. pose proof Hok as [Hcore Hheld]. unfold TryWakeLogicalPtraceWait. wp.
  rewrite (ck_init _ _ Hcore), (ok_init _ (ck_table _ _ Hcore)), Hk. cbn [negb orb].
  pose proof (find_operation_spec _ _ Hcore waiter Hk) as Hf. unfold wake_effect.
  destruct (FindOperation (dispatcher e) waiter) as [i|]; [|wp; by rewrite Hf].
  destruct Hf as (o & Hi & <- & Ho & _). rewrite (list_lookup_total_correct _ _ _ (proj1 Hi)), Ho.
  test as Hst; [by wp|].
  assert (is_Some (wait_map (logical e) !! do_caller o)) as Hw by (apply Hheld; exists o; split; [done|lia]).
  pose proof (select_errors _ _ (ck_table _ _ Hcore) Hw) as Herr.
  destruct (SelectLogicalWaitEvent (logical e) (do_caller o)) as [select_error found] eqn:Hsel.
  cbn [fst] in Herr |- *. destruct (select_error =? EAGAIN) eqn:Hagain; [by wp|].
  test as Hchild.
  { wp. eapply post_mono; [by apply (end_wait_over (do_caller o) e)|]. intros ? e1 (Hover & _). wp.
    destruct (ready_ok e1 e i o (- ECHILD) Hok Hi Hover) as (? & ? & o' & ? & ?).
    split; [done|]. split; [done|]. split; [done|]. exists o', (- ECHILD). split; [done|]. split; [done|].
    intros m [= -> _]. done. }
  assert (select_error = 0) as -> by lia. destruct (select_zero _ _ _ Hsel) as [m ->]. cbn [negb Z.eqb selected]. wp.
  eapply post_mono; [exact (CompleteSelectedWait_spec io (do_caller o) m e Hcore Hk Hsel)|].
  intros [error visible] e1 Hdone. pose proof Hdone as (? & ? & ? & _ & _ & _ & _ & Hover & H0 & _).
  simpl in H0. subst error.
  cbn [negb Z.eqb]. wp. destruct (ready_ok e1 e i o visible Hok Hi Hover) as (? & ? & o' & ? & ?).
  split; [done|]. split; [done|]. split; [done|]. exists o', visible. split; [done|]. split; [done|].
  intros ? [= <-]. by exists e1.
Qed.

(** ** A stop published behind one that is still in the queue *)

(** Two events in a queue: the first is reported, the second is left. *)
Lemma second_event r event : queue_wf r -> lr_event_count r = 1 ->
  let r1 := enqueue r event in
  queue_wf r1 /\ lr_event_count r1 = 2 /\ head_event r1 = head_event r /\
  lr_event_count (PopRelationEvent r1) = 1 /\ head_event (PopRelationEvent r1) = event.
Proof.
  intros Hwf Hc r1. destruct (pending_enqueue r event Hwf ltac:(lia)) as [Hp1 Hwf1]. fold r1 in Hp1, Hwf1.
  assert (lr_event_count r1 = 2) as Hc1 by (unfold r1; cbn; by rewrite Hc).
  destruct (pending_head r Hwf ltac:(lia)) as [rest Hh]. destruct (pending_head r1 Hwf1 ltac:(lia)) as [rest1 Hh1].
  destruct (pending_pop r1 Hwf1 ltac:(lia)) as [Hp2 Hwf2].
  assert (lr_event_count (PopRelationEvent r1) = 1) as Hc2 by (unfold PopRelationEvent; cbn -[r1]; by rewrite Hc1).
  destruct (pending_head _ Hwf2 ltac:(lia)) as [rest2 Hh2].
  pose proof (length_pending r ltac:(lia)) as Hl. rewrite Hh, Hc in Hl. destruct rest; [|cbn in Hl; lia].
  rewrite Hp1, Hh in Hh1. injection Hh1 as Hh1 _. rewrite Hp2, Hp1, Hh in Hh2. injection Hh2 as Hh2 _. done.
Qed.

Lemma publish_done tracee event e i r : env_core e -> entry_at (relations (logical e)) i r -> lr_tracee r = tracee ->
  post (PublishLogicalPtraceStop (W:=W) tracee event) e (fun x e' => x.1 = 0 ->
    QueueLogicalPtraceEvent (logical e) tracee event = (0, logical e', x.2) /\
    IsLogicalPtraceDispatcherInitialized (dispatcher e') = true /\ length (ld_stops (dispatcher e')) = 512%nat /\
    ld_operations (dispatcher e') = ld_operations (dispatcher e)).
Proof.
  intros Hok Hi <-. unfold PublishLogicalPtraceStop. wp. test as Hbad; [by wp|].
  pose proof (ck_table _ _ Hok) as Ht. rewrite (find_entry _ _ Hok i r Hi).
  wp. rewrite (list_lookup_total_correct _ _ _ (proj1 Hi)).
  pose proof (stop_ensured _ _ Hok i r Hi) as He. destruct (EnsureStopRecord (dispatcher e) r) as [s d'].
  cbn [fst snd]. destruct He as (-> & Hok' & Hsame & stop & Hst & _). wp.
  test as H1; [by wp|]. test as H2; [by wp|]. test as H3; [by wp|]. wp. apply post_on_logical_out. wp.
  destruct (QueueLogicalPtraceEvent (logical e) (lr_tracee r) event) as [[error t'] sequence]. cbn [fst snd].
  test as H0; [wp; cbn; lia|]. wp. intros _. split; [f_equal; f_equal; lia|]. split; [exact (ck_init _ _ Hok')|].
  split; [cbn; rewrite length_insert; exact (ck_length _ _ Hok')|exact (so_operations _ _ Hsame)].
Qed.

(** The selected event of a wait is taken from the queue. *)
Lemma wait_popped t waiter i w j r : table_ok t -> FindLogicalWait t waiter = Some i -> entry_at (waits t) i w ->
  relations t !! j = Some r -> reportable t (lw_request w) r = true -> rq_nowait (lw_request w) = 0 ->
  EventIsExit (head_event r) = false ->
  exists t', ConsumeLogicalWaitEvent t waiter (match_of (Z.of_nat j) r) = (0, t', Some (head_event r)) /\
    relations t' = <[j := PopRelationEvent r]> (relations t).
Proof.
  intros Ht Hf Hw Hj Hr Hnw Hx. pose proof (consume_selected t waiter i w j r Ht Hf Hw Hj Hr) as He. revert He.
  unfold ConsumeLogicalWaitEvent. rewrite Hf, (list_lookup_total_correct _ _ _ (proj1 Hw)).
  destruct (_ || _ || _ || _); [done|]. cbn [wm_relation_slot match_of]. rewrite Nat2Z.id.
  rewrite (list_lookup_total_correct _ _ _ Hj).
  match goal with |- context [if ?b then (ESTALE, _, _) else _] => destruct b end; [done|].
  rewrite Hnw, Hx. intros _. by eexists.
Qed.

(** A record of a delivered stop beside a relation that is not stopped, or that
    has another event to report. *)
Lemma overtaken_rejected d t i r stop : relations t !! i = Some r -> ld_stops d !! i = Some stop ->
  ds_flags stop = kLogicalPtraceStopCurrentValid -> ds_relation_generation stop <> 0 ->
  lr_state r <> kStopped \/ (lr_event_count r = 1 /\ head_sequence r <> ev_sequence (ds_current stop)) ->
  ValidateLogicalPtraceDispatcher d t = false.
Proof.
  intros Hr Hst Hf Hg Hbad. apply not_true_iff_false. unfold ValidateLogicalPtraceDispatcher.
  intros [_ Hv]%andb_true_iff. destruct (validate_slots _ _ _ _ _); [|done]. apply andb_true_iff in Hv as [Hv _].
  apply (validate_stops_entry _ _ _ i stop) in Hv; [|done]. rewrite Z.add_0_l in Hv. revert Hv.
  unfold stop_entry. rewrite Hf, (proj2 (Z.eqb_neq _ _) Hg). intros [_ Hv]%andb_true_iff.
  destruct (LogicalPtraceRelationAt _ _); [|done]. rewrite Nat2Z.id, (list_lookup_total_correct _ _ _ Hr) in Hv.
  change (has kLogicalPtraceStopCurrentValid kLogicalPtraceStopCurrentValid) with true in Hv. cbn [andb negb] in Hv.
  repeat match goal with H : _ && _ = true |- _ => apply andb_true_iff in H as [H ?] end.
  unfold head_sequence in Hbad. bool_hyps. destruct Hbad as [?|[Hc ?]]; [lia|]. rewrite Hc in *. bool_hyps. lia.
Qed.

(** The table and the dispatcher after such a publication: the queue of the
    tracee holds two events. *)
Lemma published_behind tracee event sequence (e e1 : Env W) : env_ok e -> ~ nothing_pending (logical e) tracee ->
  PublishLogicalPtraceStop tracee event e = ((0, sequence), e1) ->
  table_ok (logical e1) /\ IsLogicalPtraceDispatcherInitialized (dispatcher e1) = true /\
  length (ld_stops (dispatcher e1)) = 512%nat /\ ld_operations (dispatcher e1) = ld_operations (dispatcher e) /\
  waits (logical e1) = waits (logical e) /\
  exists i r, lr_tracee r = tracee /\ queue_wf r /\ lr_event_count r = 1 /\ lr_generation r <> 0 /\
    lr_slot r = Z.of_nat i /\
    entry_at (relations (logical e1)) i (enqueue r (stored_event event sequence)).
Proof.
  intros [Hcore _] Hpend Hpub. pose proof (ck_table _ _ Hcore) as Ht. unfold nothing_pending in Hpend.
  find_relation (logical e) tracee Ht; [|by destruct Hpend].
  destruct Hf as (r & Hi & Hk & _). destruct (relation_facts _ _ Hcore n r Hi) as (Hsl & Hlt & _ & Hq & Hle & Hrok & _).
  assert (lr_event_count r = 1) as Hc.
  { destruct Hq as ((_ & _ & ?) & _). destruct (decide (lr_event_count r = 0)) as [E|]; [|lia].
    destruct Hpend. intros i [= <-]. by rewrite (list_lookup_total_correct _ _ _ (proj1 Hi)). }
  pose proof (publish_done tracee event e n r Hcore Hi Hk) as Hp. unfold post in Hp. rewrite Hpub in Hp. cbn [fst snd] in Hp.
  destruct (Hp eq_refl) as (Hqueue & Hinit & Hlen & Hops).
  pose proof (event_queued _ _ Hcore n r event Hi) as He. rewrite Hk, Hqueue in He.
  destruct He as (Ht1 & _ & _ & Hrel). split; [done|]. split; [done|]. split; [done|]. split; [done|]. split.
  - revert Hqueue. unfold QueueLogicalPtraceEvent. repeat case_match; intros [= <- _]; done.
  - exists n, r. split; [done|]. split; [apply Hq|]. split; [done|]. split; [by eapply relation_generation|].
    split; [done|]. split; [|exact (proj2 Hi)]. rewrite Hrel by done. apply list_lookup_insert_eq.
    by eapply lookup_lt_Some, Hi.
Qed.

(** A waiter of the table has a held operation. *)
Lemma held_found (e e1 : Env W) waiter w : env_ok e -> table_ok (logical e1) ->
  IsLogicalPtraceDispatcherInitialized (dispatcher e1) = true ->
  ld_operations (dispatcher e1) = ld_operations (dispatcher e) -> waits (logical e1) = waits (logical e) ->
  wait_map (logical e1) !! waiter = Some w -> TaskKeyValid waiter = true /\
  exists i o, FindOperation (dispatcher e1) waiter = Some i /\ ld_operations (dispatcher e1) !!! i = o /\
    do_state o = kHeldWait.
Proof.
  intros [Hcore Hheld] Ht1 Hinit Hops Hwaits Hw.
  find_wait (logical e1) waiter Ht1; [|congruence]. destruct Hf as (_ & _ & _ & _ & _ & Hk). split; [done|].
  destruct (proj1 (Hheld waiter)) as (o & Ho & Hst).
  { exists w. unfold wait_map in *. by rewrite <- Hwaits. }
  pose proof (find_operation_spec _ _ Hcore waiter Hk) as Hf.
  assert (FindOperation (dispatcher e1) waiter = FindOperation (dispatcher e) waiter) as ->.
  { unfold FindOperation. by rewrite Hinit, Hops, (ck_init _ _ Hcore). }
  destruct (FindOperation (dispatcher e) waiter) as [i|]; [|congruence].
  destruct Hf as (o' & [Hi _] & _ & Ho' & _). exists i, o. split; [done|]. split; [|done].
  rewrite Hops, (list_lookup_total_correct _ _ _ Hi). congruence.
Qed.

(** The wake of a held wait that takes an event which is not an exit, written
    out: no invariant of the dispatcher is needed. *)
Lemma wake_delivers (e1 : Env W) waiter i o iw w j r t2 :
  table_ok (logical e1) -> IsLogicalPtraceDispatcherInitialized (dispatcher e1) = true -> TaskKeyValid waiter = true ->
  FindOperation (dispatcher e1) waiter = Some i -> ld_operations (dispatcher e1) !!! i = o -> do_state o = kHeldWait ->
  SelectLogicalWaitEvent (logical e1) waiter = (0, Some (match_of (Z.of_nat j) r)) ->
  FindLogicalWait (logical e1) waiter = Some iw -> entry_at (waits (logical e1)) iw w ->
  entry_at (relations (logical e1)) j r -> (lr_event_count r =? 0) = false -> EventIsExit (head_event r) = false ->
  ConsumeLogicalWaitEvent (logical e1) waiter (match_of (Z.of_nat j) r) = (0, t2, Some (head_event r)) ->
  (WriteWaitOutput io w (lr_tracee r) (head_event r) e1).1.1 = 0 ->
  post (TryWakeLogicalPtraceWait io waiter) e1 (fun error e2 => error = 0 /\ logical e2 = t2 /\
    ld_stops (dispatcher e2) = <[j := Build_LogicalPtraceDispatchStop kLogicalPtraceStopCurrentValid
      (lr_slot r) (lr_generation r) (lr_tracee r) (head_event r)]> (ld_stops (dispatcher e1))).
Proof.
  intros Ht1 Hinit Hkw Hop Ho' Hst Hsel Hfw Hwi Hjx Hcx Hx Hcons Hout.
  destruct (relation_at _ j r Ht1 Hjx) as (_ & _ & Hsl & Hlt & _). pose proof (proj1 Hjx) as Hj.
  assert ((lr_occupied r =? 0) = false) as Ho by (apply negb_true_iff; exact (proj2 Hjx)).
  unfold TryWakeLogicalPtraceWait. wp. rewrite Hinit, (ok_init _ Ht1), Hkw, Hop. cbn [negb orb].
  rewrite Ho', Hst, Hsel. change (negb (kHeldWait =? kHeldWait)) with false.
  change (0 =? EAGAIN) with false. change (0 =? ECHILD) with false. cbn [negb Z.eqb selected]. cbn iota. wp.
  unfold CompleteSelectedWait. wp. change (selected (Some ?m)) with m. rewrite Hfw.
  assert (LogicalPtraceRelationAt (logical e1) (wm_relation_slot (match_of (Z.of_nat j) r)) = Some (Z.of_nat j)) as ->.
  { unfold LogicalPtraceRelationAt. cbn [wm_relation_slot match_of].
    rewrite (ok_init _ Ht1), Nat2Z.id, (list_lookup_total_correct _ _ _ Hj), Ho.
    replace (kLogicalPtraceRelationCapacity <=? Z.of_nat j) with false; [done|].
    unfold kLogicalPtraceRelationCapacity. lia. }
  rewrite Nat2Z.id, (list_lookup_total_correct _ _ _ Hj), (list_lookup_total_correct _ _ _ (proj1 Hwi)).
  cbn [wm_relation_generation wm_event_sequence match_of]. unfold head_sequence.
  rewrite !Z.eqb_refl, Hcx. cbn [negb orb]. apply post_bind.
  destruct (world_WriteWaitOutput io w (lr_tracee r) (head_event r) e1) as ([oe vis] & w1 & Eq).
  rewrite Eq in Hout. cbn [fst] in Hout. subst oe.
  unfold post at 1. rewrite Eq. cbn [fst snd negb Z.eqb]. wp. apply post_on_logical_out.
  cbn [logical set_world]. rewrite Hcons. cbn [fst snd negb Z.eqb default]. wp.
  change (id (head_event r)) with (head_event r). rewrite Hx. cbn [negb Z.eqb]. wp. split; [done|]. split; [done|].
  unfold RememberDeliveredStop. rewrite Hsl, Nat2Z.id.
  by replace (kLogicalPtraceDispatchCapacity <=? Z.of_nat j) with false by (unfold kLogicalPtraceDispatchCapacity; lia).
Qed.

(** The wake that takes the first of two events leaves the record of a stop
    that the second one has already ended. *)
Lemma overtaken tracee event (e e1 : Env W) sequence waiter w m :
  env_ok e -> ~ nothing_pending (logical e) tracee ->
  PublishLogicalPtraceStop tracee event e = ((0, sequence), e1) ->
  wait_map (logical e1) !! waiter = Some w -> rq_nowait (lw_request w) = 0 ->
  SelectLogicalWaitEvent (logical e1) waiter = (0, Some m) ->
  let r := relations (logical e1) !!! Z.to_nat (wm_relation_slot m) in lr_tracee r = tracee ->
  (EventIsExit event = true \/ sequence <> head_sequence r) ->
  (WriteWaitOutput io w tracee (head_event r) e1).1.1 = 0 ->
  let wake := TryWakeLogicalPtraceWait io waiter e1 in
  wake.1 = 0 /\ ValidateLogicalPtraceDispatcher (dispatcher wake.2) (logical wake.2) = false.
Proof.
  intros Hok Hpend Hpub Hw Hnw Hsel r1 Htr Hdiff Hout.
  destruct (published_behind tracee event sequence e e1 Hok Hpend Hpub)
    as (Ht1 & Hinit & Hlen & Hops & Hwaits & i & r & Hk & Hwf & Hc & Hg & Hsl & Hi).
  destruct (second_event r (stored_event event sequence) Hwf Hc) as (Hwf1 & Hc1 & Hh1 & Hc2 & Hh2).
  destruct (select_found _ _ _ Ht1 Hsel) as (iw & w' & j & x & Hwi & Hfw & Hw' & Hj & Hrep & ->).
  assert (w' = w) as -> by congruence.
  unfold r1 in *. cbn [match_of wm_relation_slot] in *. rewrite Nat2Z.id, (list_lookup_total_correct _ _ _ Hj) in *.
  destruct (reportable_split _ _ _ Hrep) as (Ho & _ & _ & _ & Hcx & _).
  assert (entry_at (relations (logical e1)) j x) as Hjx by (split; [done|unfold in_use; simpl; by rewrite Ho]).
  assert (j = i) as ->.
  { apply (so_unique _ _ _ _ _ (ok_relations _ Ht1) j i _ _ Hj (proj1 Hi) (proj2 Hjx) (proj2 Hi)). by rewrite <- Hk in Htr. }
  destruct Hi as [Hi Hu]. assert (x = enqueue r (stored_event event sequence)) as -> by congruence.
  set (r1' := enqueue r (stored_event event sequence)) in *. rewrite <- Htr in Hout.
  assert (EventIsExit (head_event r1') = false) as Hx.
  { destruct (found_relation _ i _ Ht1 Hjx) as (Hq & _).
    destruct (EventIsExit (head_event r1')) eqn:Hx; [|done]. pose proof (exit_head_alone r1' Hq ltac:(lia) Hx). lia. }
  destruct (wait_popped _ waiter iw w i r1' Ht1 Hfw Hwi Hj Hrep Hnw Hx) as (t2 & Hcons & Hrel).
  destruct (held_found e e1 waiter w Hok Ht1 Hinit Hops Hwaits Hw) as (Hkw & k & o & Hop & Ho' & Hst).
  pose proof (wake_delivers e1 waiter k o iw w i r1' t2 Ht1 Hinit Hkw Hop Ho' Hst Hsel Hfw Hwi Hjx Hcx Hx Hcons Hout) as Hwake.
  destruct Hwake as (H0 & Hl & Hs). split; [done|]. rewrite Hl.
  destruct (relation_at _ i r1' Ht1 Hjx) as (_ & _ & _ & Hlt & _). eapply (overtaken_rejected _ _ i (PopRelationEvent r1')).
  - rewrite Hrel. apply list_lookup_insert_eq. by eapply lookup_lt_Some.
  - rewrite Hs. apply list_lookup_insert_eq. lia.
  - done.
  - done.
  - destruct Hdiff as [He|Hs']; [left|right].
    + change (lr_state (PopRelationEvent r1')) with (lr_state r1'). unfold r1', enqueue. cbn.
      change (EventIsExit (stored_event event sequence)) with (EventIsExit event). by rewrite He.
    + split; [done|]. unfold head_sequence in *. by rewrite Hh2.
Qed.

(** ** Cancelling *)

Definition cancel_effect (caller : LogicalTaskKey) (e : Env W) (error : Z) (e' : Env W) : Prop :=
  env_ok e' /\ relations (logical e') = relations (logical e) /\
  operation_map (dispatcher e') = delete caller (operation_map (dispatcher e)) /\
  (error = 0 <-> is_Some (operation_map (dispatcher e) !! caller)).

Lemma CancelLogicalPtraceDispatch_ok caller e : env_ok e -> TaskKeyValid caller = true ->
  post (CancelLogicalPtraceDispatch (W:=W) caller) e (cancel_effect caller e).
Proof.
  intros Hok Hk. pose proof Hok as [Hcore Hheld]. unfold CancelLogicalPtraceDispatch. wp.
  rewrite (ck_init _ _ Hcore), (ok_init _ (ck_table _ _ Hcore)), Hk. cbn [negb orb].
  pose proof (find_operation_spec _ _ Hcore caller Hk) as Hf. unfold cancel_effect.
  destruct (FindOperation (dispatcher e) caller) as [i|].
  2:{ wp. rewrite Hf. split; [done|]. split; [done|]. split; [by rewrite delete_id|].
      split; [done|by intros []]. }
  destruct Hf as (o & Hi & <- & Ho & _). rewrite (list_lookup_total_correct _ _ _ (proj1 Hi)), Ho. wp.
  eapply (post_mono _ _ (fun error e1 => (error = 0 \/ error = ESRCH) /\ env_core e1 /\
    dispatcher e1 = dispatcher e /\ relations (logical e1) = relations (logical e) /\
    forall k, is_Some (wait_map (logical e1) !! k) <->
      exists o', delete (do_caller o) (operation_map (dispatcher e)) !! k = Some o' /\ do_state o' = kHeldWait)).
  - test as Hst.
    + apply post_on_logical. destruct (wait_ended _ _ Hcore (do_caller o)) as (Hc & Hp & He & Hm).
      specialize (Hm Hk). split; [destruct He as [?|[?|?]]; auto; congruence|]. split; [done|]. split; [done|].
      split; [cbn; unfold EndLogicalWait; by repeat case_match|]. intros k. cbn.
      rewrite Hm, delete_is_Some, Hheld. unfold held. destruct (decide (k = do_caller o)) as [->|Hne].
      * rewrite lookup_delete_eq. split; [by intros [? _]|by intros (? & ? & _)].
      * rewrite lookup_delete_ne by done. by split; [intros [_ ?]|].
    + wp. split; [by left|]. do 3 (split; [done|]). intros k. rewrite Hheld. symmetry.
      apply (held_delete _ _ o Ho). lia.
  - intros error e1 (Herr & Hc1 & Hd1 & Hr1 & Hw1).
    destruct (negb (error =? 0) && negb (error =? ESRCH)) eqn:Hbad; [exfalso; lia|]. wp.
    unfold env_core in Hc1. rewrite Hd1 in Hc1.
    destruct (operation_erased _ _ Hc1 i o Hi) as [Hc' Hm']. cbn [dispatcher logical set_dispatcher].
    rewrite Hd1, Hm', Hr1. split; [|by eauto]. unfold env_ok. cbn [dispatcher logical set_dispatcher].
    split; [done|]. intros k. rewrite Hw1. unfold held. by rewrite Hm'.
Qed.
End Calls.
