(* ===== verification/DispatcherRekey.v ===== *)
(** * Changing the identity of a task in the dispatcher

    RekeyLogicalPtraceDispatchTask renames a task in the operations, in the
    stop records and in the logical table at once: the three parts still
    describe each other afterwards. *)

From S2P Require Import Prelude Bits SlotArray Chain LogicalPtrace LogicalPtraceOps LogicalPtraceInv.
From S2P Require Import LogicalPtraceQueue LogicalPtracePreserve LogicalPtraceWait Dispatcher DispatcherOps DispatcherInv.
From S2P Require Import DispatcherSteps DispatcherSafety.
From stdpp Require Import list gmap.
#[local] Open Scope Z_scope.

(** ** Renaming the keys of a slot array *)

(** The map of a renamed array. *)
Lemma to_map_rename {A} `{!Inhabited A, SlotRecord A LogicalTaskKey} vacant entry vacant' entry'
    (arr : list A) count count' (f : A -> A) old new k x :
  slots_ok 512 vacant entry arr count -> slots_ok 512 vacant' entry' (f <$> arr) count' ->
  (forall r, sr_slot (f r) = sr_slot r /\ sr_occupied (f r) = sr_occupied r) ->
  (forall r, in_use r = true -> sr_key (f r) = rename old new (sr_key r)) ->
  to_map (f <$> arr) !! k = Some x <->
  exists k0 r, to_map arr !! k0 = Some r /\ rename old new k0 = k /\ f r = x.
Proof.
  intros Hs Hs' Hf Hk.
  assert (forall r, in_use (f r) = in_use r) as Hu by (intros r; unfold in_use; by rewrite (proj2 (Hf r))).
  rewrite (to_map_lookup _ _ _ x Hs'). split.
  - intros (i & [Hi Hux] & <-). apply list_lookup_fmap_Some in Hi as (r & -> & Hi). rewrite Hu in Hux.
    exists (sr_key r), r. rewrite (to_map_lookup _ _ _ r Hs). split; [by exists i|]. split; [by rewrite Hk|done].
  - intros (k0 & r & Hr & <- & <-). apply (to_map_lookup _ _ _ _ Hs) in Hr as (i & [Hi Hur] & <-).
    exists i. split; [|by apply Hk]. split; [by rewrite list_lookup_fmap, Hi|by rewrite Hu].
Qed.

Lemma rename_other old new k : k <> old -> rename old new k = k.
Proof. intros H. unfold rename. by rewrite decide_False. Qed.

Lemma rename_old old new : rename old new old = new.
Proof. unfold rename. by rewrite decide_True. Qed.

(** ** The logical table *)

Section Table.
Context (t : LogicalPtraceTable) (old new : LogicalTaskKey).
Hypothesis Ht : table_ok t.
Hypothesis Hold : TaskKeyValid old = true.
Hypothesis Hnew : TaskKeyValid new = true.
Hypothesis Hne : old <> new.
Hypothesis Hproc : LogicalProcessKeyForTask old = LogicalProcessKeyForTask new.
Hypothesis Hlive : live_in (process_map t) (LogicalProcessKeyForTask old).

Lemma scan_not_referenced arr referenced :
  rekey_scan old new arr referenced = Some false -> referenced = false.
Proof.
  revert referenced. induction arr as [|r arr IH]; simpl; intros referenced; [by intros [= ->]|].
  destruct (_ || _); [apply IH|]. destruct (_ =? _); [done|]. intros Hs. by apply IH in Hs.
Qed.

Lemma waits_renamed :
  (wait_map t !! old = None \/ wait_map t !! new = None) -> forall k,
  is_Some (to_map (alter_at (fun w => rekey_waiter w new) (FindLogicalWait t old) (waits t)) !! k) <->
  exists k0, is_Some (wait_map t !! k0) /\ rename old new k0 = k.
Proof.
  intros Hnone k.
  assert (FindLogicalWait t old = find_slot old (waits t)) as ->.
  { unfold FindLogicalWait. by rewrite (ok_init t Ht), Hold. }
  rewrite (alter_found _ _ _ _ _ old (wait_ok_key _) (ok_waits t Ht) Hold).
  set (f := fun w => if in_use w && bool_decide (sr_key w = old) then rekey_waiter w new else w).
  assert (forall w, in_use w = true -> sr_key (f w) = rename old new (sr_key w)) as Hk.
  { intros w Hu. unfold f, rename. rewrite Hu. simpl.
    case_bool_decide; [by rewrite decide_True|by rewrite decide_False]. }
  assert (forall w, sr_slot (f w) = sr_slot w /\ sr_occupied (f w) = sr_occupied w) as Hf.
  { intros w. unfold f. by destruct (_ && _). }
  assert (slots_ok 512 (fun w => vacant_wait w = true) (fun _ => True) (f <$> waits t) (wait_count t)) as Hs'.
  { apply (slots_ok_rename _ _ _ _ _ old new); [|done| |done|done|done].
    - eapply slots_ok_mono; [|exact (ok_waits t Ht)]. done.
    - intros w Hu. unfold f. by rewrite Hu. }
  pose proof (fun x => to_map_rename _ _ _ _ _ _ _ f old new k x (ok_waits t Ht) Hs' Hf Hk) as Hm.
  split.
  - intros [x Hx]. apply Hm in Hx as (k0 & w & Hw & <- & _). exists k0. split; [by eexists|done].
  - intros (k0 & [w Hw] & Hr). exists (f w). apply Hm. eauto.
Qed.

(** What RekeyLogicalPtraceTask does: nothing with an error, and ESRCH only
    when the old identity has neither a wait nor a relation. *)
Lemma table_rekeyed : rekey_safe t old new ->
  let '(error, t') := RekeyLogicalPtraceTask t old new in
  table_ok t' /\ (error <> 0 -> t' = t) /\
  (error = ESRCH -> wait_map t !! old = None /\ relation_map t !! old = None) /\
  (error = 0 -> processes t' = processes t /\ relations t' = rename_relation old new <$> relations t /\
     forall k, is_Some (wait_map t' !! k) <-> exists k0, is_Some (wait_map t !! k0) /\ rename old new k0 = k).
Proof.
  intros Hun. pose proof (RekeyLogicalPtraceTask_ok t old new Ht Hun) as Hc. revert Hc.
  unfold RekeyLogicalPtraceTask.
  pose proof (proj2 (live_found_b t _ _ _ _ (ok_init t Ht) (ok_processes t Ht)) Hlive) as Hfound.
  rewrite <- Hproc. destruct (FindLogicalProcess t (LogicalProcessKeyForTask old)); [|done].
  destruct (_ || _ || _) eqn:Hbad; [by rewrite (ok_init t Ht), Hold, Hnew in Hbad|].
  destruct (LogicalTaskKeysEqual old new) eqn:He; [by apply LogicalTaskKeysEqual_spec in He|].
  destruct (negb (tk_tgid old =? _) || _); [done|]. cbv zeta.
  destruct (both (FindFakeTraceme t old) _); [done|].
  destruct (both (FindLogicalWait t old) _) eqn:Hbw; [done|].
  destruct (both (FindLogicalPtraceRelation t old) _); [done|].
  destruct (match FindLogicalPtraceRelation t old with Some _ => _ | None => _ end); [done|].
  destruct (rekey_scan _ _ _ _) as [[]|] eqn:Hscan.
  - intros [Ht' _]. split; [done|]. split; [done|]. split; [done|]. intros _. split; [done|]. split.
    + cbn. unfold FindLogicalPtraceRelation. rewrite (ok_init t Ht), Hold.
      by apply (rekey_relations_rename old new _ _ _ (ok_relations t Ht)).
    + apply waits_renamed. apply both_None in Hbw as [E|E]; [left|right].
      * find_wait t old Ht; done.
      * find_wait t new Ht; done.
  - intros [Ht' _]. split; [done|]. split; [done|]. split; [|done]. intros _.
    apply scan_not_referenced in Hscan. apply orb_false_iff in Hscan as [Hscan Hr].
    apply orb_false_iff in Hscan as [_ Hw]. split.
    + find_wait t old Ht; done.
    + find_relation t old Ht; done.
  - done.
Qed.
End Table.

(** ** The dispatcher *)

Section Records.
Context (old new : LogicalTaskKey).
Hypothesis Hnew : TaskKeyValid new = true.
Hypothesis Hproc : LogicalProcessKeyForTask old = LogicalProcessKeyForTask new.

Definition rename_operation (o : LogicalPtraceDispatchOperation) : LogicalPtraceDispatchOperation :=
  if in_use o && bool_decide (sr_key o = old) then
    Build_LogicalPtraceDispatchOperation (do_occupied o) (do_slot o) (do_generation o) new
      (do_syscall_number o) (do_state o) (do_visible_result o)
  else o.

Definition rename_stop (stop : LogicalPtraceDispatchStop) : LogicalPtraceDispatchStop :=
  if stop_of old stop then
    Build_LogicalPtraceDispatchStop (ds_flags stop) (ds_relation_slot stop)
      (ds_relation_generation stop) new (ds_current stop)
  else stop.

Lemma rename_operation_slot o : sr_slot (rename_operation o) = sr_slot o /\
  sr_occupied (rename_operation o) = sr_occupied o.
Proof. unfold rename_operation. by destruct (_ && _). Qed.

Lemma rename_operation_key o : in_use o = true -> sr_key (rename_operation o) = rename old new (sr_key o).
Proof.
  intros Hu. unfold rename_operation, rename. rewrite Hu. cbn [andb].
  case_bool_decide; [by rewrite decide_True|by rewrite decide_False].
Qed.

Lemma rename_operation_state o : do_state (rename_operation o) = do_state o.
Proof. unfold rename_operation. by destruct (_ && _). Qed.

Lemma rename_operation_ok live o : operation_ok live o -> operation_ok live (rename_operation o).
Proof.
  intros (Hg & Hk & Hn & Hs & Hl). unfold rename_operation.
  destruct (_ && _) eqn:E; [|by split_and!]. apply andb_true_iff in E as [_ E]. case_bool_decide as Ek; [|done].
  simpl in Ek. split_and!; try done. cbn. by rewrite <- Hproc, <- Ek.
Qed.

(** The record of a renamed tracee. *)
Lemma rename_stop_ok slot r stop : stop_ok slot r stop ->
  stop_ok slot (rename_relation old new r) (rename_stop stop).
Proof.
  intros [Hs Hf He [Hu|[Hg [A1 A2 A3 A4 A5 A6 A7]]]]; unfold rename_stop.
  - assert (stop_of old stop = false) as -> by (unfold stop_of; by rewrite (proj1 Hu)).
    split; auto.
  - assert (lr_tracee (rename_relation old new r) = if stop_of old stop then new else ds_tracee stop) as Htr.
    { rewrite (rename_relation_key _ _ _ A1), A3. unfold rename, stop_of.
      rewrite (proj2 (Z.eqb_neq _ _) Hg). cbn [negb andb].
      pose proof (LogicalTaskKeysEqual_spec (ds_tracee stop) old) as Hk.
      destruct (LogicalTaskKeysEqual (ds_tracee stop) old).
      - by rewrite decide_True by (by apply Hk).
      - by rewrite decide_False by (intros E; by apply Hk in E). }
    assert (lr_generation (rename_relation old new r) = lr_generation r /\
      in_use (rename_relation old new r) = true /\
      lr_state (rename_relation old new r) = lr_state r /\
      lr_attach_kind (rename_relation old new r) = lr_attach_kind r /\
      lr_event_count (rename_relation old new r) = lr_event_count r /\
      head_sequence (rename_relation old new r) = head_sequence r) as (E1 & E2 & E3 & E4 & E5 & E6).
    { unfold rename_relation. by rewrite A1. }
    destruct (stop_of old stop); (split; cbn; try done; right; split; [done|];
      split; cbn; rewrite ?E1, ?E2, ?E3, ?E4, ?E5, ?E6; done).
Qed.

(** A record that no relation of the old identity explains is not renamed. *)
Lemma rename_stop_same slot r stop : lr_tracee r <> old -> stop_ok slot r stop -> rename_stop stop = stop.
Proof.
  intros Hr [_ _ _ [Hu|[Hg Ha]]]; unfold rename_stop, stop_of; [by rewrite (proj1 Hu)|].
  destruct (LogicalTaskKeysEqual _ _) eqn:E; [|by rewrite andb_false_r].
  apply LogicalTaskKeysEqual_spec in E. by rewrite <- (at_tracee _ _ Ha) in E.
Qed.

Context (d : LogicalPtraceDispatcher) (t : LogicalPtraceTable).
Hypothesis Hok : core_ok d t.
Hypothesis Hold : TaskKeyValid old = true.
Abbreviation d' := (rekey_dispatcher (FindOperation d old) old new d).

Lemma rekey_operations : ld_operations d' = rename_operation <$> ld_operations d.
Proof.
  transitivity (alter_at (fun o => Build_LogicalPtraceDispatchOperation (do_occupied o) (do_slot o)
    (do_generation o) new (do_syscall_number o) (do_state o) (do_visible_result o))
    (FindOperation d old) (ld_operations d)).
  { unfold rekey_dispatcher. by destruct (_ || _). }
  unfold FindOperation. rewrite (ck_init _ _ Hok).
  by rewrite (alter_found _ _ _ _ _ old (operation_ok_key _) (ck_operations _ _ Hok) Hold).
Qed.

Lemma rekey_rest : ld_stops d' = rename_stop <$> ld_stops d /\
  ld_operation_count d' = ld_operation_count d /\ ld_operation_free_hint d' = ld_operation_free_hint d /\
  IsLogicalPtraceDispatcherInitialized d' = IsLogicalPtraceDispatcherInitialized d.
Proof. unfold rekey_dispatcher. by destruct (_ || _). Qed.

Hypothesis Hnone : operation_map d !! old = None \/ operation_map d !! new = None.

Lemma rekey_slots : slots_ok 512 (fun o => vacant_operation o = true)
  (operation_ok (live_in (process_map t))) (rename_operation <$> ld_operations d) (ld_operation_count d).
Proof.
  apply (slots_ok_rename _ _ _ _ _ old new (ck_operations _ _ Hok)); [|  | | |done].
  - apply rename_operation_slot.
  - intros o Hu. unfold rename_operation. by rewrite Hu.
  - apply rename_operation_key.
  - intros i o _. by apply rename_operation_ok.
Qed.

Lemma rekey_map k o' : operation_map d' !! k = Some o' <->
  exists k0 o, operation_map d !! k0 = Some o /\ rename old new k0 = k /\ rename_operation o = o'.
Proof.
  rewrite rekey_operations. apply (to_map_rename _ _ _ _ _ _ _ _ _ _ _ _ (ck_operations _ _ Hok) rekey_slots).
  - apply rename_operation_slot.
  - apply rename_operation_key.
Qed.

Lemma rekey_held k : held d' k <-> exists k0, held d k0 /\ rename old new k0 = k.
Proof.
  unfold held. split.
  - intros (o' & Ho' & Hst). apply rekey_map in Ho' as (k0 & o & Ho & Hr & <-).
    rewrite rename_operation_state in Hst. eauto.
  - intros (k0 & (o & Ho & Hst) & Hr). exists (rename_operation o). rewrite rename_operation_state, rekey_map.
    split; [|done]. by exists k0, o.
Qed.

Lemma rekey_core t' : table_ok t' -> processes t' = processes t ->
  (forall i r', relations t' !! i = Some r' -> exists r, relations t !! i = Some r /\
     lr_event_count r' = lr_event_count r /\
     forall stop, stop_ok (Z.of_nat i) r stop -> stop_ok (Z.of_nat i) r' (rename_stop stop)) ->
  core_ok d' t'.
Proof.
  intros Ht Hp Hr. destruct rekey_rest as (Hs & Hc & Hh & Hi). split.
  - done.
  - rewrite Hi. apply (ck_init _ _ Hok).
  - rewrite Hh. apply (ck_hint _ _ Hok).
  - rewrite Hs, length_fmap. apply (ck_length _ _ Hok).
  - rewrite rekey_operations, Hc, Hp. exact rekey_slots.
  - intros i r' stop' Hi'. rewrite Hs. intros (stop & -> & Hst)%list_lookup_fmap_Some.
    destruct (Hr i r' Hi') as (r & Hri & _ & Hstop). apply Hstop. by apply (ck_stops _ _ Hok).
  - intros i r' Hi'. destruct (Hr i r' Hi') as (r & Hri & -> & _). by apply (ck_single _ _ Hok i).
Qed.
End Records.

(** The renamed dispatcher beside the table the rekeying left. *)
Lemma renamed_state d t old new : core_ok d t -> TaskKeyValid old = true -> TaskKeyValid new = true ->
  LogicalProcessKeyForTask old = LogicalProcessKeyForTask new ->
  (operation_map d !! old = None \/ operation_map d !! new = None) -> forall error t',
  (table_ok t' /\ (error <> 0 -> t' = t) /\
   (error = ESRCH -> wait_map t !! old = None /\ relation_map t !! old = None) /\
   (error = 0 -> processes t' = processes t /\ relations t' = rename_relation old new <$> relations t /\
      forall k, is_Some (wait_map t' !! k) <-> exists k0, is_Some (wait_map t !! k0) /\ rename old new k0 = k)) ->
  error = 0 \/ error = ESRCH ->
  core_ok (rekey_dispatcher (FindOperation d old) old new d) t' /\
  forall k, is_Some (wait_map t' !! k) <-> exists k0, is_Some (wait_map t !! k0) /\ rename old new k0 = k.
Proof.
  intros Hcore Hold Hnew Hproc Hnone error t' (Ht' & Hfail & Hesrch & Hdone) Herr.
  destruct (decide (error = 0)) as [->|Herr0].
  - destruct (Hdone eq_refl) as (Hp & Hrel & Hw). split; [|done].
    apply (rekey_core old new Hnew Hproc _ t Hcore); try done.
    intros i r'. rewrite Hrel. intros (r & -> & Hi)%list_lookup_fmap_Some. exists r. split; [done|].
    split; [unfold rename_relation; by destruct (in_use r)|]. intros. by apply rename_stop_ok.
  - destruct Herr as [|Herr]; [done|]. destruct (Hesrch Herr) as [Hwn Hrn].
    rewrite (Hfail Herr0) in *. split.
    + apply (rekey_core old new Hnew Hproc _ t Hcore); try done.
      intros i r Hi. exists r. split; [done|]. split; [done|]. intros stop Hst.
      destruct (in_use r) eqn:Hu.
      * rewrite (rename_stop_same old new (Z.of_nat i) r); [done| |done]. intros E.
        destruct (relation_facts _ _ Hcore i r (conj Hi Hu)) as (_ & _ & _ & _ & _ & _ & Hm). congruence.
      * unfold rename_stop, stop_of. destruct (sk_relation _ _ _ Hst) as [(-> & _)|[_ Ha]]; [done|].
        pose proof (at_use _ _ Ha). congruence.
    + intros k. split.
      * intros Hk. exists k. split; [done|]. apply rename_other. intros ->. rewrite Hwn in Hk. by destruct Hk.
      * intros (k0 & Hk & <-). rewrite rename_other; [done|]. intros ->. rewrite Hwn in Hk. by destruct Hk.
Qed.

(** ** The call *)

Section Call.
Context {W : Type}.

(** A failed call changes nothing; a successful one leaves each operation
    with its caller's new name. ESRCH, for a live process, says that the old
    identity has no operation. *)
Definition rekey_effect (old new : LogicalTaskKey) (e : Env W) (error : Z) (e' : Env W) : Prop :=
  env_ok e' /\ (error <> 0 -> e' = e) /\
  (error = 0 \/ error = ESRCH -> LogicalProcessKeyForTask old = LogicalProcessKeyForTask new \/
     ~ live_in (process_map (logical e)) (LogicalProcessKeyForTask old)) /\
  (error = ESRCH -> live_in (process_map (logical e)) (LogicalProcessKeyForTask old) ->
     operation_map (dispatcher e) !! old = None) /\
  (error = 0 -> old <> new -> forall k o', operation_map (dispatcher e') !! k = Some o' <->
     exists k0 o, operation_map (dispatcher e) !! k0 = Some o /\ rename old new k0 = k /\
       rename_operation old new o = o').

Lemma operation_unique e old new : env_core (W:=W) e -> TaskKeyValid old = true -> TaskKeyValid new = true ->
  old <> new -> both (FindOperation (dispatcher e) old) (FindOperation (dispatcher e) new) &&
    negb (bool_decide (FindOperation (dispatcher e) old = FindOperation (dispatcher e) new)) = false ->
  operation_map (dispatcher e) !! old = None \/ operation_map (dispatcher e) !! new = None.
Proof.
  intros Hok Hold Hnew Hne Hb.
  pose proof (find_operation_spec _ _ Hok old Hold) as Ho. pose proof (find_operation_spec _ _ Hok new Hnew) as Hn.
  destruct (FindOperation (dispatcher e) old) as [i|]; [|by left].
  destruct (FindOperation (dispatcher e) new) as [j|]; [|by right].
  cbn [both andb] in Hb. case_bool_decide as E; [|done]. injection E as ->.
  destruct Ho as (o & [Hi _] & <- & _), Hn as (o' & [Hi' _] & <- & _). congruence.
Qed.

Lemma RekeyLogicalPtraceDispatchTask_ok old new e : env_ok e ->
  rekey_safe (logical e) old new ->
  post (RekeyLogicalPtraceDispatchTask (W:=W) old new) e (rekey_effect old new e).
Proof.
  intros Hok Hun. pose proof Hok as [Hcore Hheld]. pose proof (ck_table _ _ Hcore) as Ht.
  assert (forall error, (error <> 0 /\ error <> ESRCH) \/ error = 0 /\ old = new -> rekey_effect old new e error e) as Hsame.
  { intros error Herr. split; [done|]. split; [done|].
    destruct Herr as [[? ?]|[-> ->]]; [|by repeat (split; [by left|])].
    split; [by intros [?|?]|]. by split. }
  unfold RekeyLogicalPtraceDispatchTask. wp. test as Hbad; [wp; apply Hsame; by left|].
  repeat match goal with H : (_ || _) = false |- _ => apply orb_false_iff in H as [H ?] end.
  repeat match goal with H : negb _ = false |- _ => apply negb_false_iff in H end.
  test as He; [wp; apply Hsame; right; split; [done|]; by apply LogicalTaskKeysEqual_spec|].
  assert (old <> new) as Hne.
  { intros ->. by rewrite (proj2 (LogicalTaskKeysEqual_spec new new) eq_refl) in He. }
  test as Hx; [wp; apply Hsame; by left|].
  assert (LogicalProcessKeyForTask old = LogicalProcessKeyForTask new) as Hproc.
  { unfold LogicalProcessKeyForTask. bool_hyps. f_equal; lia. }
  pose proof (live_found_b (logical e) _ _ _ (LogicalProcessKeyForTask old) (ok_init _ Ht) (ok_processes _ Ht)) as Hlb.
  destruct (FindLogicalProcess _ _) eqn:Hfind.
  2:{ wp. split; [done|]. split; [done|]. split; [by left|]. split; [|done]. intros _ Hl. by apply Hlb in Hl. }
  assert (live_in (process_map (logical e)) (LogicalProcessKeyForTask old)) as Hlive by by apply Hlb.
  cbv zeta. test as Hboth; [wp; apply Hsame; by left|].
  assert (operation_map (dispatcher e) !! old = None \/ operation_map (dispatcher e) !! new = None) as Hnone
    by by apply operation_unique.
  wp. apply post_on_logical.
  pose proof (table_rekeyed (logical e) old new Ht ltac:(done) ltac:(done) Hne Hproc Hlive Hun) as Hr.
  destruct (RekeyLogicalPtraceTask (logical e) old new) as [error t']. cbn [fst snd].
  destruct Hr as (Ht' & Hfail & Hesrch & Hdone). test as Herr.
  { wp. assert (error <> 0) as Herr0 by lia. rewrite (Hfail Herr0). destruct e as [d t w].
    split; [done|]. split; [done|]. split; [by left|]. split; [|done]. intros -> _.
    pose proof (find_operation_spec _ _ Hcore old ltac:(done)) as Hf. cbn [dispatcher] in *.
    by destruct (FindOperation d old). }
  wp. unfold rekey_effect, env_ok, dispatch_ok. cbn [dispatcher logical set_dispatcher set_logical].
  split; [|split; [done|split; [by left|split; [done|]]]; intros _ _; by apply (rekey_map old new ltac:(done) Hproc _ (logical e) Hcore)].
  destruct (renamed_state _ _ old new Hcore ltac:(done) ltac:(done) Hproc Hnone error t') as [Hc' Hw'];
    [by split_and!|lia|].
  split; [done|]. intros k. rewrite Hw', (rekey_held old new ltac:(done) Hproc _ (logical e) Hcore) by done.
  split; intros (k0 & Hk & Hr); exists k0; (split; [by apply Hheld|done]).
Qed.

(** When the table accepts the renaming, the renamed table is what a call that
    reports neither an error nor ESRCH leaves. *)
Lemma rekey_logical old new e t' : old <> new -> RekeyLogicalPtraceTask (logical e) old new = (0, t') ->
  post (RekeyLogicalPtraceDispatchTask (W:=W) old new) e
    (fun error e' => error = 0 \/ error = ESRCH -> logical e' = t').
Proof.
  intros Hne Hr. unfold RekeyLogicalPtraceDispatchTask. wp. test as Hbad; [wp; by intros [?|?]|].
  test as He; [by apply LogicalTaskKeysEqual_spec in He|].
  test as Hx; [wp; by intros [?|?]|].
  destruct (FindLogicalProcess _ _) eqn:Hf.
  - cbv zeta. test as Hboth; [wp; by intros [?|?]|]. wp. apply post_on_logical. rewrite Hr. cbn [fst snd].
    wp. done.
  - exfalso. revert Hr. unfold RekeyLogicalPtraceTask. rewrite Hf, He, Hx.
    by destruct (negb (IsLogicalPtraceTableInitialized _) || _ || _).
Qed.
End Call.
