(* ===== verification/DispatcherReach.v ===== *)
(** * The dispatcher as a whole

    The calls of the tracer on the dispatcher as a step relation, and what
    holds in every state that they reach. *)

From S2P Require Import Prelude Bits SlotArray Chain LogicalPtrace LogicalPtraceOps LogicalPtraceInv.
From S2P Require Import LogicalPtraceQueue LogicalPtracePreserve LogicalPtraceSafety LogicalPtraceEvents LogicalPtraceWait.
From S2P Require Import Dispatcher DispatcherOps DispatcherInv DispatcherSteps DispatcherSafety DispatcherCalls DispatcherRekey.
From stdpp Require Import list gmap relations.
#[local] Open Scope Z_scope.
#[local] Open Scope dispatch_scope.

(** ** Processes and the initial state *)

(** The processes changed; those with operations are still there. *)
Lemma core_processes d t t' : core_ok d t -> table_ok t' -> relations t' = relations t ->
  (forall i o, entry_at (ld_operations d) i o ->
     live_in (process_map t) (LogicalProcessKeyForTask (do_caller o)) ->
     live_in (process_map t') (LogicalProcessKeyForTask (do_caller o))) -> core_ok d t'.
Proof.
  intros [Ht Hi Hh Hl Ho Hs H1] Ht' Hr Hlive. split; try done; rewrite ?Hr; try done.
  eapply slots_ok_mono; [|exact Ho]. intros i o Hio (? & ? & ? & ? & ?). split_and!; try done. by apply (Hlive i).
Qed.

Lemma process_inserted d t key parent group dumpable ptracer : dispatch_ok d t ->
  dispatch_ok d (InsertLogicalProcess t key parent group dumpable ptracer).1.2.
Proof.
  intros [Hok Hheld]. pose proof (InsertLogicalProcess_ok t key parent group dumpable ptracer (ck_table _ _ Hok)) as Hc.
  assert (relations (InsertLogicalProcess t key parent group dumpable ptracer).1.2 = relations t /\
    waits (InsertLogicalProcess t key parent group dumpable ptracer).1.2 = waits t) as [Hr Hw].
  { unfold InsertLogicalProcess. repeat case_match; done. }
  destruct (InsertLogicalProcess _ _ _ _ _ _) as [[error t'] slot]. cbn [fst snd] in *.
  destruct Hc as (Ht' & Hfail & Hdone). destruct (decide (error = 0)) as [->|He]; [|by rewrite (Hfail He)].
  destruct (Hdone eq_refl) as (Hnone & p & _ & Hm & _). split; [|intros k; rewrite Hw; apply Hheld].
  apply (core_processes d t); try done. intros i o _. unfold live_in. rewrite Hm, lookup_insert_is_Some'. by right.
Qed.

Lemma InitLogicalPtraceDispatcher_ok t : table_ok t -> relations t = relations InitLogicalPtraceTable ->
  wait_map t = empty -> dispatch_ok InitLogicalPtraceDispatcher t.
Proof.
  intros Ht Hr Hw. split; [split|].
  - done.
  - done.
  - done.
  - done.
  - apply (slots_ok_mono (entry := fun _ => false = true)); [done|].
    apply (validate_slots_ok _ vacant_operation (fun _ => false)); done.
  - intros i r stop _ Hst. unfold InitLogicalPtraceDispatcher in Hst. cbn [ld_stops] in Hst.
    apply list_lookup_fmap_Some in Hst as (s & -> & Hs). apply lookup_seqZ in Hs as [-> _].
    rewrite Z.add_0_l. split; [done..|by left].
  - intros i r. rewrite Hr. intros Hi%list_elem_of_lookup_2. unfold InitLogicalPtraceTable in Hi. cbn [relations] in Hi.
    by apply list_elem_of_fmap in Hi as (s & -> & _).
  - intros k. rewrite Hw, lookup_empty. split; [by intros []|]. intros (o & Ho & _). by vm_compute in Ho.
Qed.

(** ** The calls *)

Section Steps.
Context {W : Type} (io : LogicalPtraceDispatchIo W).

(** One call of the tracer. A publication that goes through finds the previous
    stop taken from the queue, a renaming that goes through is to an identity
    that no chain of tracers links to the old one. *)
Inductive dispatch_step (e : Env W) : Env W -> Prop :=
  | step_process key parent group dumpable ptracer :
      dispatch_step e (set_logical e (InsertLogicalProcess (logical e) key parent group dumpable ptracer).1.2)
  | step_entry caller number arguments :
      dispatch_step e (DispatchLogicalPtraceEntry io caller number arguments e).2
  | step_exit caller number : dispatch_step e (DispatchLogicalPtraceExit caller number e).2
  | step_publish tracee event : publish_safe tracee event e ->
      dispatch_step e (PublishLogicalPtraceStop tracee event e).2
  | step_wake waiter : dispatch_step e (TryWakeLogicalPtraceWait io waiter e).2
  | step_cancel caller : dispatch_step e (CancelLogicalPtraceDispatch caller e).2
  | step_rekey old new : rekey_safe (logical e) old new ->
      dispatch_step e (RekeyLogicalPtraceDispatchTask old new e).2.

Definition initial_env (w : W) : Env W :=
  {| dispatcher := InitLogicalPtraceDispatcher; logical := InitLogicalPtraceTable; world := w |}.

Definition reachable (e : Env W) : Prop := exists w, rtc dispatch_step (initial_env w) e.

(** The guards of the entry points refuse a key that is not valid. *)
Lemma exit_invalid caller number (e : Env W) : TaskKeyValid caller = false ->
  DispatchLogicalPtraceExit caller number e = ((EINVAL, no_exit_result), e).
Proof.
  intros Hk. unfold DispatchLogicalPtraceExit, bind, get_dispatcher, get_logical. rewrite Hk.
  by rewrite orb_true_r.
Qed.

Lemma wake_invalid waiter (e : Env W) : TaskKeyValid waiter = false -> TryWakeLogicalPtraceWait io waiter e = (EINVAL, e).
Proof.
  intros Hk. unfold TryWakeLogicalPtraceWait, bind, get_dispatcher, get_logical. rewrite Hk.
  by rewrite orb_true_r.
Qed.

Lemma cancel_invalid caller (e : Env W) : TaskKeyValid caller = false ->
  CancelLogicalPtraceDispatch caller e = (EINVAL, e).
Proof.
  intros Hk. unfold CancelLogicalPtraceDispatch, bind, get_dispatcher, get_logical. rewrite Hk.
  by rewrite orb_true_r.
Qed.

Lemma dispatch_step_ok e e' : env_ok e -> dispatch_step e e' -> env_ok e'.
Proof.
  intros Hok [key parent group dumpable ptracer|caller number arguments|caller number|tracee event Hp|waiter|caller|old new Hun].
  - by apply process_inserted.
  - apply (DispatchLogicalPtraceEntry_ok io caller number arguments e Hok).
  - destruct (TaskKeyValid caller) eqn:Hk; [by apply DispatchLogicalPtraceExit_ok|by rewrite exit_invalid].
  - apply (safe_ok e _ Hok). apply (PublishLogicalPtraceStop_safe tracee event e (proj1 Hok) Hp).
  - destruct (TaskKeyValid waiter) eqn:Hk; [by apply TryWakeLogicalPtraceWait_ok|by rewrite wake_invalid].
  - destruct (TaskKeyValid caller) eqn:Hk; [by apply CancelLogicalPtraceDispatch_ok|by rewrite cancel_invalid].
  - by apply RekeyLogicalPtraceDispatchTask_ok.
Qed.

Lemma initial_env_ok w : env_ok (initial_env w).
Proof. apply InitLogicalPtraceDispatcher_ok; [apply InitLogicalPtraceTable_ok|done|by vm_compute]. Qed.

Lemma reachable_env e : reachable e -> env_ok e.
Proof.
  intros [w He]. revert e He. apply rtc_ind_r; [apply initial_env_ok|].
  intros e1 e2 _ Hs Hok. by eapply dispatch_step_ok.
Qed.

(** ** What the reachable states satisfy *)

(** C14 (invariant): Every dispatcher and logical table that the tracer's calls
    reach - processes, system call entries and exits with any arguments and
    any behaviour of the callbacks, published stops, wakes, cancellations and
    renamings - pass ValidateLogicalPtraceDispatcher, under two restrictions on
    calls that succeed: a stop is published only when the tracee's previous one
    was taken from the queue, and a task is renamed only to an identity that no
    chain of tracers links to it. Both are needed: C38 and C37 show that such
    calls lead to states that are rejected. *)
Theorem reachable_dispatch_valid e : reachable e ->
  ValidateLogicalPtraceDispatcher (dispatcher e) (logical e) = true.
Proof. intros He%reachable_env. by apply dispatch_ok_validates. Qed.

(** C22 (functional): A system call that the entry handler answered at once gets
    exactly the announced result at its exit, from the announced slot, and
    only once: a second exit finds nothing to do and changes nothing. *)
Theorem call_answered_once e caller number arguments : reachable e -> TaskKeyValid caller = true ->
  let entry := DispatchLogicalPtraceEntry io caller number arguments e in
  has (er_flags entry.1.2) kLogicalPtraceEntryHandled = true ->
  has (er_flags entry.1.2) kLogicalPtraceEntryMayHold = false ->
  let exit := DispatchLogicalPtraceExit caller number entry.2 in
  entry.1.1 = 0 /\ exit.1.1 = 0 /\
  xr_flags exit.1.2 = kLogicalPtraceExitHandled ||| kLogicalPtraceExitWriteResult /\
  xr_visible_result exit.1.2 = er_visible_result entry.1.2 /\
  xr_operation_slot exit.1.2 = er_operation_slot entry.1.2 /\
  DispatchLogicalPtraceExit caller number exit.2 = ((0, no_exit_result), exit.2).
Proof.
  intros He%reachable_env Hk. cbv zeta.
  pose proof (DispatchLogicalPtraceEntry_ok io caller number arguments e He) as Hentry. unfold post in Hentry.
  destruct (DispatchLogicalPtraceEntry io caller number arguments e) as [[error entry] e1].
  destruct Hentry as [He1 Hentry]. cbn [fst snd] in *. intros Hh Hm. rewrite Hh, Hm in Hentry.
  destruct Hentry as (-> & _ & o & [Hc Hn Hs Hr Hsl] & Hmap).
  pose proof (DispatchLogicalPtraceExit_ok caller number e1 He1 Hk) as Hexit. unfold post in Hexit.
  destruct (DispatchLogicalPtraceExit caller number e1) as [[exit_error exit] e2].
  destruct Hexit as (He2 & _ & Hexit). cbn [fst snd] in *.
  rewrite Hmap, lookup_insert_eq, Hn, Hs, Z.eqb_refl in Hexit.
  destruct Hexit as (-> & -> & -> & -> & Hmap2). do 5 (split; [done|]).
  pose proof (DispatchLogicalPtraceExit_ok caller number e2 He2 Hk) as Hagain. unfold post in Hagain.
  destruct (DispatchLogicalPtraceExit caller number e2) as [x e3].
  destruct Hagain as (_ & _ & Hagain). cbn [fst snd] in *.
  rewrite Hmap2, lookup_delete_eq in Hagain. by destruct Hagain as [-> ->].
Qed.

(** C15 (safety): The tracer is asked to act on a tracee - interrupt, resume,
    step, listen, detach - only by a call that succeeds, and only on a tracee
    of the caller's process, before the call or by it. *)
Theorem acts_on_own_tracees e caller number arguments : reachable e ->
  let entry := DispatchLogicalPtraceEntry io caller number arguments e in
  let target := er_target entry.1.2 in
  has (er_flags entry.1.2) kLogicalPtraceEntryHandled = true -> tr_action target <> Action_kNone ->
  entry.1.1 = 0 /\ er_visible_result entry.1.2 = 0 /\
  (owns (logical e) caller (tr_target target) \/ owns (logical entry.2) caller (tr_target target)).
Proof.
  intros He%reachable_env. cbv zeta.
  pose proof (DispatchLogicalPtraceEntry_ok io caller number arguments e He) as Hentry. unfold post in Hentry.
  destruct (DispatchLogicalPtraceEntry io caller number arguments e) as [[error entry] e'].
  destruct Hentry as [_ Hentry]. cbn [fst snd] in *. intros Hh Ha. rewrite Hh in Hentry.
  by destruct Hentry as (-> & [?|[? ?]] & _).
Qed.

(** C16 (liveness): A held wait is not lost: as soon as a tracee it covers has an
    event to report (below the largest sequence number), waking the waiter
    succeeds, ends its wait, and the exit of the held call gets its result. *)
Theorem held_wait_woken e waiter o w r : reachable e -> TaskKeyValid waiter = true ->
  operation_map (dispatcher e) !! waiter = Some o -> do_state o = kHeldWait ->
  wait_map (logical e) !! waiter = Some w -> r ∈ relations (logical e) ->
  reportable (logical e) (lw_request w) r = true -> head_sequence r < UINT64_MAX ->
  let wake := TryWakeLogicalPtraceWait io waiter e in
  let exit := DispatchLogicalPtraceExit waiter (do_syscall_number o) wake.2 in
  wake.1 = 0 /\ wait_map (logical wake.2) = delete waiter (wait_map (logical e)) /\
  exit.1.1 = 0 /\ xr_flags exit.1.2 = kLogicalPtraceExitHandled ||| kLogicalPtraceExitWriteResult /\
  operation_map (dispatcher exit.2) = delete waiter (operation_map (dispatcher e)).
Proof.
  intros He%reachable_env Hk Ho Hheld Hw Hr Hrep Hlt. cbv zeta.
  pose proof (TryWakeLogicalPtraceWait_ok io waiter e He Hk) as Hwake. unfold post in Hwake.
  destruct (TryWakeLogicalPtraceWait io waiter e) as [error e1]. destruct Hwake as [He1 Hwake].
  cbn [fst snd] in *. rewrite Ho, Hheld in Hwake. cbn [negb] in Hwake.
  change (negb (kHeldWait =? kHeldWait)) with false in Hwake. cbn iota in Hwake.
  pose proof (select_spec (logical e) waiter (ck_table _ _ (proj1 He))) as Hsel. rewrite Hw in Hsel. cbv zeta in Hsel.
  destruct (SelectLogicalWaitEvent (logical e) waiter) as [select_error found]. destruct Hsel as [Hsel _].
  rewrite (proj2 (existsb_exists _ _)) in Hsel.
  2:{ exists r. split; [by apply list_elem_of_In|]. by rewrite Hrep, (proj2 (Z.ltb_lt _ _) Hlt). }
  subst select_error. destruct Hwake as (-> & Hmap & o' & result & [Hc Hn Hs Hres Hsl] & Hops & _).
  pose proof (DispatchLogicalPtraceExit_ok waiter (do_syscall_number o) e1 He1 Hk) as Hexit. unfold post in Hexit.
  destruct (DispatchLogicalPtraceExit waiter (do_syscall_number o) e1) as [[exit_error exit] e2].
  destruct Hexit as (_ & _ & Hexit). cbn [fst snd] in *.
  rewrite Hops, lookup_insert_eq, Hn, Hs, Z.eqb_refl in Hexit. destruct Hexit as (-> & _ & -> & _ & ->).
  by rewrite delete_insert_eq.
Qed.

(** C21 (error): When the status of a held wait cannot be written, the event is
    not lost: the wait ends with the errno value as its result, and every
    relation, its queue of events and every stop record are as before. *)
Theorem failed_output_keeps_event e waiter o w j r : reachable e -> TaskKeyValid waiter = true ->
  operation_map (dispatcher e) !! waiter = Some o -> do_state o = kHeldWait ->
  wait_map (logical e) !! waiter = Some w -> relations (logical e) !! j = Some r ->
  SelectLogicalWaitEvent (logical e) waiter = (0, Some (match_of (Z.of_nat j) r)) ->
  let error := (WriteWaitOutput io w (lr_tracee r) (head_event r) e).1.1 in error <> 0 ->
  let wake := TryWakeLogicalPtraceWait io waiter e in
  wake.1 = 0 /\ relations (logical wake.2) = relations (logical e) /\
  ld_stops (dispatcher wake.2) = ld_stops (dispatcher e) /\
  wait_map (logical wake.2) = delete waiter (wait_map (logical e)) /\
  exists o', operation_map (dispatcher wake.2) = <[waiter := o']> (operation_map (dispatcher e)) /\
    do_state o' = kHeldReady /\ do_visible_result o' = - error.
Proof.
  intros He%reachable_env Hk Ho Hheld Hw Hr Hsel. cbv zeta. intros Herr.
  pose proof (TryWakeLogicalPtraceWait_ok io waiter e He Hk) as Hwake. unfold post in Hwake.
  destruct (TryWakeLogicalPtraceWait io waiter e) as [error e1]. destruct Hwake as [He1 Hwake].
  cbn [fst snd] in *. rewrite Ho, Hheld, Hsel in Hwake. cbn [fst] in Hwake.
  change (negb (kHeldWait =? kHeldWait)) with false in Hwake. change (0 =? EAGAIN) with false in Hwake.
  cbn iota in Hwake. destruct Hwake as (-> & Hmap & o' & result & [_ _ Hs Hres _] & Hops & Hdone).
  destruct (Hdone _ eq_refl) as (e2 & (w' & j' & r' & Hw' & Hr' & _ & Hm & Hover & _ & Hout) & Hl & Hst).
  assert (w' = w) as -> by congruence. assert (j' = j) as -> by (injection Hm; lia).
  assert (r' = r) as -> by congruence. rewrite (proj2 (Z.eqb_neq _ _) Herr) in Hout.
  destruct Hout as (Hvis & Hrel & Hd). split; [done|]. split; [by rewrite Hl|]. split; [by rewrite Hst, Hd|].
  split; [done|]. exists o'. split; [done|]. split; [done|]. by rewrite Hres.
Qed.

(** C38 (safety): PublishLogicalPtraceStop accepts an event while an earlier one
    of the same tracee still waits to be reported, and that is a mistake
    whatever the events are: in every reachable state with an undelivered
    event, after a second one was published, the wake of a held wait that takes
    the first one succeeds, and leaves a stop record that says "stopped"
    beside a relation that has moved on - ValidateLogicalPtraceDispatcher
    rejects it. (The two events carry different sequence numbers unless 2^64
    events passed between them; for an exit that does not matter.) *)
Theorem publish_behind_undelivered e tracee event sequence e1 waiter w m :
  reachable e -> ~ nothing_pending (logical e) tracee ->
  PublishLogicalPtraceStop tracee event e = ((0, sequence), e1) ->
  wait_map (logical e1) !! waiter = Some w -> rq_nowait (lw_request w) = 0 ->
  SelectLogicalWaitEvent (logical e1) waiter = (0, Some m) ->
  let r := relations (logical e1) !!! Z.to_nat (wm_relation_slot m) in lr_tracee r = tracee ->
  (EventIsExit event = true \/ sequence <> head_sequence r) ->
  (WriteWaitOutput io w tracee (head_event r) e1).1.1 = 0 ->
  let wake := TryWakeLogicalPtraceWait io waiter e1 in
  wake.1 = 0 /\ ValidateLogicalPtraceDispatcher (dispatcher wake.2) (logical wake.2) = false.
Proof. intros He%reachable_env. by apply overtaken. Qed.
End Steps.

(** ** A scenario: process 10 attaches to task 20 and waits for it *)

(** The traced program's memory: the writes made to it, and the error of the
    next ones. *)
Definition memory_io (error : Z) : LogicalPtraceDispatchIo (list (Z * list Z)) :=
  {| resolve_task := Some (fun w _ tid => ((if tid =? 20 then 0 else ESRCH), task20, w));
     resolve_parent := Some (fun w _ => (0, task10, w));
     may_attach := None;
     read_memory := None;
     write_memory := Some (fun w _ address bs => (error, if error =? 0 then (address, bs) :: w else w));
     query_uid := None;
     fill_rusage := None |}.

Definition attach_arguments : list Z := [PTRACE_ATTACH; 20; 0; 0; 0; 0].
Definition wait_arguments : list Z := [u64 (-1); 0x1000; 0; 0; 0; 0].
Definition attach_stop : LogicalPtraceEvent :=
  Build_LogicalPtraceEvent 0 kAttachStop 0 0x137f 19 0 (-1) 0 0 (replicate 128 0) zero_regs.
Definition exit_event : LogicalPtraceEvent :=
  Build_LogicalPtraceEvent 0 kExited 0 0 0 0 (-1) 0 0 (replicate 128 0) zero_regs.

Section Scenario.
Context (error : Z).
Abbreviation io := (memory_io error).

Definition started : Env (list (Z * list Z)) :=
  let e := initial_env [] in
  let e := set_logical e (InsertLogicalProcess (logical e) process10 None 10 1 nobody).1.2 in
  set_logical e (InsertLogicalProcess (logical e) process20 (Some process10) 20 1 nobody).1.2.

Definition attached_env := (DispatchLogicalPtraceExit task10 NR_ptrace
  (DispatchLogicalPtraceEntry io task10 NR_ptrace attach_arguments started).2).2.
Definition held_env := (DispatchLogicalPtraceEntry io task10 NR_wait4 wait_arguments attached_env).2.
Definition stopped_env := (PublishLogicalPtraceStop task20 attach_stop held_env).2.

Lemma started_reachable : reachable io started.
Proof.
  exists []. eapply rtc_l; [apply (step_process io _ process10 None 10 1 nobody)|].
  apply rtc_once. apply (step_process io _ process20 (Some process10) 20 1 nobody).
Qed.

Lemma reachable_step e e' : reachable io e -> dispatch_step io e e' -> reachable io e'.
Proof. intros [w He] Hs. exists w. by eapply rtc_r. Qed.

Lemma attached_reachable : reachable io attached_env.
Proof.
  eapply reachable_step; [|apply step_exit]. eapply reachable_step; [exact started_reachable|apply step_entry].
Qed.

Lemma held_reachable : reachable io held_env.
Proof. eapply reachable_step; [exact attached_reachable|apply step_entry]. Qed.

Lemma stopped_reachable : publish_safe task20 attach_stop held_env -> reachable io stopped_env.
Proof. intros H. eapply reachable_step; [exact held_reachable|by apply step_publish]. Qed.
End Scenario.

Lemma scenario_stopped error : error = 0 \/ error = EFAULT -> reachable (memory_io error) (stopped_env error).
Proof.
  intros Herr. apply stopped_reachable. intros _ i Hi.
  destruct Herr as [-> | ->]; vm_compute in Hi; injection Hi as <-; vm_compute; reflexivity.
Qed.

Lemma reachable_dispatch_valid_witness :
  reachable (memory_io 0) (stopped_env 0) /\
  ValidateLogicalPtraceDispatcher (dispatcher (stopped_env 0)) (logical (stopped_env 0)) = true.
Proof.
  pose proof (scenario_stopped 0 (or_introl eq_refl)) as H.
  split; [exact H|exact (reachable_dispatch_valid _ _ H)].
Defined.

Lemma call_answered_once_witness :
  let entry := DispatchLogicalPtraceEntry (memory_io 0) task10 NR_ptrace attach_arguments started in
  let exit := DispatchLogicalPtraceExit task10 NR_ptrace entry.2 in
  has (er_flags entry.1.2) kLogicalPtraceEntryHandled = true /\
  xr_visible_result exit.1.2 = er_visible_result entry.1.2 /\
  DispatchLogicalPtraceExit task10 NR_ptrace exit.2 = ((0, no_exit_result), exit.2).
Proof.
  pose proof (call_answered_once (memory_io 0) started task10 NR_ptrace attach_arguments (started_reachable 0)
    eq_refl ltac:(vm_compute; reflexivity) ltac:(vm_compute; reflexivity)) as (_ & _ & _ & Hr & _ & Hx).
  split; [vm_compute; reflexivity|]. split; [exact Hr|exact Hx].
Defined.

Lemma acts_on_own_tracees_witness :
  let entry := DispatchLogicalPtraceEntry (memory_io 0) task10 NR_ptrace attach_arguments started in
  tr_action (er_target entry.1.2) = Action_kInterrupt /\
  (owns (logical started) task10 (tr_target (er_target entry.1.2)) \/
   owns (logical entry.2) task10 (tr_target (er_target entry.1.2))).
Proof.
  assert (tr_action (er_target (DispatchLogicalPtraceEntry (memory_io 0) task10 NR_ptrace attach_arguments
    started).1.2) = Action_kInterrupt) as Ha by (vm_compute; reflexivity).
  split; [exact Ha|].
  apply (acts_on_own_tracees (memory_io 0) started task10 NR_ptrace attach_arguments (started_reachable 0));
    [vm_compute; reflexivity|]. rewrite Ha. discriminate.
Defined.

(** The held wait and the stop in the queue. *)
Lemma scenario_held error : error = 0 \/ error = EFAULT -> let e := stopped_env error in
  exists o w r, operation_map (dispatcher e) !! task10 = Some o /\ do_state o = kHeldWait /\
    wait_map (logical e) !! task10 = Some w /\ relations (logical e) !! 0%nat = Some r /\
    reportable (logical e) (lw_request w) r = true /\ head_sequence r < UINT64_MAX /\
    SelectLogicalWaitEvent (logical e) task10 = (0, Some (match_of (Z.of_nat 0) r)) /\
    (WriteWaitOutput (memory_io error) w (lr_tracee r) (head_event r) e).1.1 = error.
Proof.
  intros [-> | ->]; cbv zeta; do 3 eexists; (split; [vm_compute; reflexivity|]); (split; [reflexivity|]);
    (split; [vm_compute; reflexivity|]); (split; [vm_compute; reflexivity|]); by vm_compute.
Qed.

Lemma held_wait_woken_witness :
  let wake := TryWakeLogicalPtraceWait (memory_io 0) task10 (stopped_env 0) in
  reachable (memory_io 0) (stopped_env 0) /\ wake.1 = 0 /\
  wait_map (logical wake.2) = delete task10 (wait_map (logical (stopped_env 0))).
Proof.
  pose proof (scenario_stopped 0 (or_introl eq_refl)) as He.
  destruct (scenario_held 0 (or_introl eq_refl)) as (o & w & r & Ho & Hs & Hw & Hr & Hrep & Hlt & _).
  destruct (held_wait_woken (memory_io 0) (stopped_env 0) task10 o w r He eq_refl Ho Hs Hw
    (list_elem_of_lookup_2 _ _ _ Hr) Hrep Hlt) as (H0 & Hm & _).
  split; [exact He|]. split; [exact H0|exact Hm].
Defined.

Lemma failed_output_keeps_event_witness :
  let wake := TryWakeLogicalPtraceWait (memory_io EFAULT) task10 (stopped_env EFAULT) in
  wake.1 = 0 /\ relations (logical wake.2) = relations (logical (stopped_env EFAULT)) /\
  exists o, operation_map (dispatcher wake.2) !! task10 = Some o /\ do_visible_result o = - EFAULT.
Proof.
  pose proof (scenario_stopped EFAULT (or_intror eq_refl)) as He.
  destruct (scenario_held EFAULT (or_intror eq_refl)) as (o & w & r & Ho & Hs & Hw & Hr & _ & _ & Hsel & Herr).
  destruct (failed_output_keeps_event (memory_io EFAULT) (stopped_env EFAULT) task10 o w 0%nat r He eq_refl Ho Hs
    Hw Hr Hsel ltac:(rewrite Herr; discriminate)) as (H0 & Hrel & _ & _ & o' & Hm & _ & Hv).
  split; [exact H0|]. split; [exact Hrel|]. exists o'. rewrite Hm, lookup_insert_eq.
  split; [reflexivity|]. rewrite Hv, Herr. reflexivity.
Defined.

(** The exit of task 20 behind its stop, which a held wait then takes. *)
Lemma publish_behind_undelivered_witness :
  let e := stopped_env 0 in
  let exit := PublishLogicalPtraceStop task20 exit_event e in
  let wake := TryWakeLogicalPtraceWait (memory_io 0) task10 exit.2 in
  reachable (memory_io 0) e /\ exit.1.1 = 0 /\
  ValidateLogicalPtraceDispatcher (dispatcher exit.2) (logical exit.2) = true /\
  wake.1 = 0 /\ ValidateLogicalPtraceDispatcher (dispatcher wake.2) (logical wake.2) = false.
Proof.
  cbv zeta. pose proof (scenario_stopped 0 (or_introl eq_refl)) as He.
  assert (~ nothing_pending (logical (stopped_env 0)) task20) as Hp.
  { intros Hn. specialize (Hn 0%nat ltac:(vm_compute; reflexivity)). vm_compute in Hn. discriminate. }
  destruct (PublishLogicalPtraceStop task20 exit_event (stopped_env 0)) as [[error sequence] e1] eqn:Hpub.
  assert (error = 0) as -> by (change error with (error, sequence, e1).1.1; rewrite <- Hpub; vm_compute; reflexivity).
  assert (e1 = (PublishLogicalPtraceStop task20 exit_event (stopped_env 0)).2) as E1 by (rewrite Hpub; reflexivity).
  assert (exists w m, wait_map (logical e1) !! task10 = Some w /\ rq_nowait (lw_request w) = 0 /\
    SelectLogicalWaitEvent (logical e1) task10 = (0, Some m) /\
    let r := relations (logical e1) !!! Z.to_nat (wm_relation_slot m) in
    lr_tracee r = task20 /\ (WriteWaitOutput (memory_io 0) w task20 (head_event r) e1).1.1 = 0)
    as (w & m & Hw & Hnw & Hsel & Htr & Hout).
  { rewrite E1. do 2 eexists. split; [vm_compute; reflexivity|]. split; [reflexivity|].
    split; [vm_compute; reflexivity|]. cbv zeta. split; vm_compute; reflexivity. }
  destruct (publish_behind_undelivered (memory_io 0) (stopped_env 0) task20 exit_event sequence e1 task10 w m He Hp Hpub
    Hw Hnw Hsel Htr (or_introl eq_refl) Hout) as [H0 Hv].
  cbn [fst snd]. split; [exact He|]. split; [reflexivity|].
  split; [rewrite E1; vm_compute; reflexivity|]. split; [exact H0|exact Hv].
Defined.
