(* ===== verification/DispatcherRegs.v ===== *)
(** * The user area of a stopped tracee

    PTRACE_PEEKUSR and PTRACE_POKEUSR read and write the registers of a stop
    as bytes.  Here the bytes are related to the 34 words they stand for: a
    write of one word changes that register and no other. *)

From S2P Require Import Prelude Bits SlotArray LogicalPtrace LogicalPtraceOps LogicalPtraceInv.
From S2P Require Import LogicalPtraceQueue LogicalPtracePreserve LogicalPtraceSafety LogicalPtraceWait.
From S2P Require Import Dispatcher DispatcherOps DispatcherInv DispatcherSteps DispatcherSafety DispatcherReach.
From stdpp Require Import list gmap.
#[local] Open Scope Z_scope.
#[local] Open Scope dispatch_scope.

(** ** Words and their bytes *)

Definition word (v : Z) : Prop := 0 <= v < 2 ^ 64.

(** The user area as words: x0 to x30, sp, pc, pstate. *)
Definition user_words (r : Arm64Regs) : list Z := ar_regs r ++ [ar_sp r; ar_pc r; ar_pstate r].

Definition user_area (r : Arm64Regs) : Prop := length (ar_regs r) = 31%nat /\ Forall word (user_words r).

Abbreviation word_bytes ws := (ws ≫= le_bytes 8).

Lemma length_user_bytes ws : length (word_bytes ws) = (8 * length ws)%nat.
Proof. induction ws as [|w ws IH]; [done|]. cbn [mbind list_bind]. rewrite length_app, IH, length_le_bytes. simpl. lia. Qed.

Lemma drop_word_bytes n ws : drop (8 * n) (word_bytes ws) = word_bytes (drop n ws).
Proof.
  revert ws. induction n as [|n IH]; intros [|w ws]; try done.
  replace (8 * S n)%nat with (8 + 8 * n)%nat by lia. rewrite <- drop_drop.
  cbn [mbind list_bind]. rewrite drop_app_length' by by rewrite length_le_bytes. apply IH.
Qed.

Lemma take_word_bytes n ws : take (8 * n) (word_bytes ws) = word_bytes (take n ws).
Proof.
  revert ws. induction n as [|n IH]; intros [|w ws]; try done.
  replace (8 * S n)%nat with (8 + 8 * n)%nat by lia. cbn [mbind list_bind take].
  rewrite take_app, length_le_bytes, take_ge by (rewrite length_le_bytes; lia).
  f_equal. replace (8 + 8 * n - 8)%nat with (8 * n)%nat by lia. apply IH.
Qed.

Lemma word_at_bytes ws n offset v : offset = (8 * n)%nat -> ws !! n = Some v -> word v ->
  word_at (word_bytes ws) offset = v.
Proof.
  intros -> Hn Hv. unfold word_at. rewrite drop_word_bytes, (drop_S _ _ _ Hn). cbn [mbind list_bind].
  rewrite take_app_length' by by rewrite length_le_bytes. rewrite le_value_bytes. by apply Z.mod_small.
Qed.

Lemma write_word ws n v : (n < length ws)%nat ->
  write_bytes (word_bytes ws) (8 * Z.of_nat n) (le_bytes 8 v) = word_bytes (<[n := v]> ws).
Proof.
  intros Hn. unfold write_bytes. rewrite length_le_bytes.
  replace (Z.to_nat (8 * Z.of_nat n)) with (8 * n)%nat by lia.
  replace (8 * n + 8)%nat with (8 * S n)%nat by lia. rewrite take_word_bytes, drop_word_bytes.
  destruct (lookup_lt_is_Some_2 _ _ Hn) as [w Hw]. rewrite (insert_take_drop _ _ _ Hn).
  by rewrite bind_app.
Qed.

(** Registers made from the bytes of 34 words. *)
Lemma user_words_of_bytes ws : length ws = 34%nat -> Forall word ws ->
  user_words (regs_of_bytes (word_bytes ws)) = ws /\ user_area (regs_of_bytes (word_bytes ws)).
Proof.
  intros Hl Hw. assert (user_words (regs_of_bytes (word_bytes ws)) = ws) as E.
  { do 34 (destruct ws as [|? ws]; [done|]). destruct ws; [|done].
    pose proof (fun n v => proj1 (Forall_lookup word _) Hw n v) as Hall.
    unfold user_words, regs_of_bytes. cbn [ar_regs ar_sp ar_pc ar_pstate].
    cbn [seq fmap list_fmap app].
    repeat match goal with |- context [word_at (word_bytes ?ws) ?offset] =>
      let n := eval vm_compute in (offset / 8)%nat in
      rewrite (word_at_bytes ws n offset _ eq_refl eq_refl (Hall n _ eq_refl)) end. done. }
  split; [done|]. split; [done|by rewrite E].
Qed.

Lemma length_user_words r : user_area r -> length (user_words r) = 34%nat.
Proof. intros [H _]. unfold user_words. by rewrite length_app, H. Qed.

(** The byte-wise write is the write of one register. *)
Lemma poke_words r n v : user_area r -> (n < 34)%nat -> word v ->
  user_words (poke_registers r (8 * Z.of_nat n) v) = <[n := v]> (user_words r) /\
  user_area (poke_registers r (8 * Z.of_nat n) v).
Proof.
  intros Hr Hn Hv. unfold poke_registers. change (regs_bytes r) with (word_bytes (user_words r)).
  rewrite write_word by by rewrite length_user_words. apply user_words_of_bytes.
  - by rewrite length_insert, length_user_words.
  - apply Forall_insert; [apply Hr|done].
Qed.

(** ** The requests *)

Section Requests.
Context {W : Type} (io : LogicalPtraceDispatchIo W).

Lemma head_event_written r e : typed_relation r -> lr_event_head r < 4 -> head_event (with_head_event r e) = e.
Proof.
  intros (Hl & H1 & _) H2. unfold with_head_event, head_event, with_relation. cbn.
  rewrite list_lookup_total_insert_eq by lia. done.
Qed.

(** The registers of the queued event of a stopped tracee. *)
Lemma queued_registers i r regs valid number e : env_core e -> entry_at (relations (logical e)) i r ->
  lr_state r = kStopped ->
  post (W:=W) (UpdateQueuedRegisters i regs valid number) e (fun error e' =>
    error = 0 /\ dispatcher e' = dispatcher e /\ exists r', relations (logical e') !! i = Some r' /\
      (lr_event_count r <> 0 -> ev_guest_registers (head_event r') = regs)).
Proof.
  intros Hok Hi Hst. apply post_on_logical. cbv zeta. rewrite (list_lookup_total_correct _ _ _ (proj1 Hi)).
  destruct (lr_event_count r =? 0) eqn:Hc.
  { split; [done|]. split; [done|]. exists r. split; [apply Hi|]. lia. }
  unfold SetLogicalPtraceEventRegisters.
  rewrite (ok_init _ (ck_table _ _ Hok)), (find_entry _ _ Hok i r Hi), (list_lookup_total_correct _ _ _ (proj1 Hi)).
  rewrite Hc, Hst. change (negb true) with false. change (kStopped =? kStopped) with true. cbn [negb andb orb fst snd].
  split; [done|]. split; [done|].
  destruct (relation_facts _ _ Hok i r Hi) as (_ & _ & Hty & [(_ & Hh & _) _] & _).
  eexists. split; [cbn; apply list_lookup_insert_eq; by eapply lookup_lt_Some, Hi|].
  intros _. rewrite head_event_written by (done || lia). by destruct valid.
Qed.

Lemma user_offset_good current n : has (ev_flags current) kEventFlagRegistersValid = true -> (n < 34)%nat ->
  user_offset_bad current (8 * Z.of_nat n) = false.
Proof.
  intros Hv Hn. unfold user_offset_bad. rewrite Hv. apply orb_false_iff. split; [|unfold sizeof_Arm64Regs; lia].
  unfold has. apply negb_false_iff, Z.eqb_eq. change 7 with (Z.ones 3). rewrite Z.land_ones by lia.
  change (2 ^ 3) with 8. rewrite Z.mul_comm. by apply Z.mod_mul.
Qed.

Lemma HandlePokeUser_spec n value e i r stop : stopped_at e i r stop ->
  has (ev_flags (ds_current stop)) kEventFlagRegistersValid = true -> (n < 34)%nat ->
  let regs := poke_registers (ev_guest_registers (ds_current stop)) (8 * Z.of_nat n) value in
  post (W:=W) (HandlePokeUser (8 * Z.of_nat n) value i i) e (fun error e' =>
    error = 0 /\ ld_stops (dispatcher e') !! i = Some (with_current stop (with_event (ds_current stop)
      (ev_flags (ds_current stop)) (ev_guest_syscall_number (ds_current stop))
      (ev_signal_info (ds_current stop)) regs)) /\
    exists r', relations (logical e') !! i = Some r' /\
      (lr_event_count r <> 0 -> ev_guest_registers (head_event r') = regs)).
Proof.
  intros [Hok Hi Hst Hstop _ _] Hv Hn regs. unfold HandlePokeUser. wp.
  rewrite (list_lookup_total_correct _ _ _ Hstop), user_offset_good by done. wp.
  eapply post_mono; [by apply (queued_registers i r)|]. intros error e1 (-> & Hd & Hr). cbn [negb Z.eqb]. wp.
  split; [done|]. split; [|exact Hr]. unfold put_stop. cbn. rewrite Hd, (list_lookup_total_correct _ _ _ Hstop).
  apply list_lookup_insert_eq. by eapply lookup_lt_Some.
Qed.

(** The situation of the requests, in a reachable state. *)
Lemma reachable_stopped e i r stop : reachable io e -> entry_at (relations (logical e)) i r ->
  lr_state r = kStopped -> ld_stops (dispatcher e) !! i = Some stop ->
  has (ds_flags stop) kLogicalPtraceStopCurrentValid = true -> stopped_at e i r stop.
Proof.
  intros [Hok _]%reachable_env Hi Hst Hs Hc. split; try done.
  destruct (ck_stops _ _ Hok i r stop (proj1 Hi) Hs) as [_ _ _ [(_ & Hf & _)|[_ Ha]]]; [by rewrite Hf in Hc|done].
Qed.

(** PTRACE_POKEUSR of a word at the offset of a register of a
    stopped tracee succeeds; every PTRACE_PEEKUSR after it writes to the
    tracer the word poked at that offset, and at every other offset the
    register that was there before; and the event still in the queue gets the
    same registers, so that both copies agree. *)
Theorem poke_peek_user e i r stop n value : reachable io e -> entry_at (relations (logical e)) i r ->
  lr_state r = kStopped -> ld_stops (dispatcher e) !! i = Some stop ->
  has (ds_flags stop) kLogicalPtraceStopCurrentValid = true ->
  has (ev_flags (ds_current stop)) kEventFlagRegistersValid = true ->
  user_area (ev_guest_registers (ds_current stop)) -> (n < 34)%nat -> 0 <= value < 2 ^ 64 ->
  let poke := HandlePokeUser (8 * Z.of_nat n) value i i e in
  let words := <[n := value]> (user_words (ev_guest_registers (ds_current stop))) in
  poke.1 = 0 /\ exists stop', ld_stops (dispatcher poke.2) !! i = Some stop' /\
    (forall caller m v address, words !! m = Some v ->
      HandlePeekUser io caller (8 * Z.of_nat m) address stop' poke.2 =
      WriteMemory io caller address (le_bytes 8 v) poke.2) /\
    exists r', relations (logical poke.2) !! i = Some r' /\
      (lr_event_count r <> 0 -> ev_guest_registers (head_event r') = ev_guest_registers (ds_current stop')).
Proof.
  intros He Hi Hst Hs Hc Hv Hu Hn Hval poke words.
  pose proof (reachable_stopped e i r stop He Hi Hst Hs Hc) as Hat.
  pose proof (HandlePokeUser_spec n value e i r stop Hat Hv Hn) as Hp. unfold post in Hp.
  fold poke in Hp. destruct Hp as (H0 & Hs' & r' & Hr' & Hq). split; [done|].
  eexists. split; [exact Hs'|]. split; [|by exists r'].
  intros caller m v address Hm. destruct (poke_words _ n value Hu Hn Hval) as [Hw [Hl Hall]].
  assert (m < 34)%nat as Hm34.
  { apply lookup_lt_Some in Hm. unfold words in Hm. by rewrite length_insert, length_user_words in Hm. }
  unfold HandlePeekUser. rewrite user_offset_good by done. cbn [ds_current with_current ev_guest_registers with_event].
  replace (Z.to_nat (8 * Z.of_nat m)) with (8 * m)%nat by lia.
  match goal with |- context [regs_bytes ?r] => change (regs_bytes r) with (word_bytes (user_words r)) end.
  rewrite (word_at_bytes _ m _ v); [done|done| |].
  - by rewrite Hw.
  - eapply (proj1 (Forall_lookup _ _) Hall m). by rewrite Hw.
Qed.
End Requests.

(** ** A tracee stopped with its registers *)

Definition sample_regs : Arm64Regs := Build_Arm64Regs (Z.of_nat <$> seq 0 31) 0x7ff0 0x4000 0.
Definition stop_with_registers : LogicalPtraceEvent :=
  Build_LogicalPtraceEvent 0 kAttachStop kEventFlagRegistersValid 0x137f 19 0 (-1) 0 0 (replicate 128 0) sample_regs.

Definition delivered_env : Env (list (Z * list Z)) :=
  (DispatchLogicalPtraceEntry (memory_io 0) task10 NR_wait4 wait_arguments
    (PublishLogicalPtraceStop task20 stop_with_registers (attached_env 0)).2).2.

Lemma delivered_reachable : reachable (memory_io 0) delivered_env.
Proof.
  eapply reachable_step; [|apply step_entry]. eapply reachable_step; [exact (attached_reachable 0)|].
  apply step_publish. intros _ i Hi. vm_compute in Hi. injection Hi as <-. vm_compute. reflexivity.
Qed.

(** The stop record and the relation of the tracee. *)
Lemma delivered_stop : exists r stop,
  entry_at (relations (logical delivered_env)) 0 r /\ lr_state r = kStopped /\
  ld_stops (dispatcher delivered_env) !! 0%nat = Some stop /\
  has (ds_flags stop) kLogicalPtraceStopCurrentValid = true /\
  has (ev_flags (ds_current stop)) kEventFlagRegistersValid = true /\
  ev_guest_registers (ds_current stop) = sample_regs.
Proof.
  do 2 eexists. split; [split; [vm_compute; reflexivity|reflexivity]|]. split; [reflexivity|].
  split; [vm_compute; reflexivity|]. done.
Qed.

Lemma sample_area : user_area sample_regs.
Proof. split; [done|]. repeat constructor; done. Qed.

Lemma poke_peek_user_witness :
  reachable (memory_io 0) delivered_env /\
  (HandlePokeUser (8 * Z.of_nat 3) 77 0 0 delivered_env).1 = 0.
Proof.
  destruct delivered_stop as (r & stop & Hi & Hst & Hs & Hc & Hv & Hr).
  split; [exact delivered_reachable|].
  assert (user_area (ev_guest_registers (ds_current stop))) as Hu by (rewrite Hr; exact sample_area).
  refine (proj1 (poke_peek_user (memory_io 0) delivered_env 0 r stop 3 77 delivered_reachable Hi Hst Hs Hc Hv
    Hu _ _)); lia.
Defined.
