(* ===== verification/DispatcherFrame.v ===== *)
(** * What the dispatcher leaves alone

    No handler of the dispatcher inserts, changes or removes a process record:
    the property is proved for the operations of the table and follows for the
    handlers from their structure. *)

From S2P Require Import Prelude LogicalPtrace LogicalPtraceOps Dispatcher DispatcherOps DispatcherSteps.
#[local] Open Scope Z_scope.
#[local] Open Scope dispatch_scope.

Section Frame.
Context {W : Type}.

Definition keeps_processes {A} (m : M W A) : Prop :=
  forall e, processes (logical (m e).2) = processes (logical e).

Lemma keeps_ret {A} (x : A) : keeps_processes (ret x).
Proof. done. Qed.

Lemma keeps_bind {A B} (m : M W A) (k : A -> M W B) :
  keeps_processes m -> (forall x, keeps_processes (k x)) -> keeps_processes (bind m k).
Proof.
  intros Hm Hk e. specialize (Hm e). unfold bind. destruct (m e) as [x e1]. simpl in Hm. by rewrite <- Hm, Hk.
Qed.

Lemma keeps_world {A} (m : M W A) : world_only m -> keeps_processes m.
Proof. intros Hm e. by destruct (Hm e) as (x & w & ->). Qed.

Lemma keeps_get_dispatcher : keeps_processes get_dispatcher.
Proof. done. Qed.
Lemma keeps_get_logical : keeps_processes get_logical.
Proof. done. Qed.
Lemma keeps_write_dispatcher f : keeps_processes (write_dispatcher f).
Proof. done. Qed.
Lemma keeps_on_dispatcher {A} (f : LogicalPtraceDispatcher -> A * LogicalPtraceDispatcher) :
  keeps_processes (on_dispatcher f).
Proof. intros e. unfold on_dispatcher. by destruct (f _). Qed.

Lemma keeps_on_logical f : (forall t, processes (f t).2 = processes t) -> keeps_processes (on_logical f).
Proof. intros Hf e. unfold on_logical. specialize (Hf (logical e)). by destruct (f _). Qed.

Lemma keeps_on_logical_out {A} (f : LogicalPtraceTable -> Z * LogicalPtraceTable * A) :
  (forall t, processes (f t).1.2 = processes t) -> keeps_processes (on_logical_out f).
Proof. intros Hf e. unfold on_logical_out. specialize (Hf (logical e)). by destruct (f _) as [[? ?] ?]. Qed.
End Frame.

Create HintDb frame.
#[export] Hint Resolve keeps_ret keeps_get_dispatcher keeps_get_logical keeps_write_dispatcher
  keeps_on_dispatcher : frame.
#[export] Hint Extern 3 (keeps_processes _) => apply keeps_world; solve [eauto 2 with world] : frame.

(** Splits a handler into its calls; the calls of the table are decided by
    their branches. *)
Ltac table_frame := let t := fresh "t" in intros t; cbv zeta; repeat case_match; done.
Ltac frame_steps :=
  repeat first
    [ progress eauto 2 with frame
    | apply keeps_bind; [|intros ?]
    | progress cbv beta zeta
    | match goal with
      | |- keeps_processes (if ?b then _ else _) => destruct b
      | |- keeps_processes (match ?x with _ => _ end) => destruct x
      | |- keeps_processes (on_logical _) => apply keeps_on_logical
      | |- keeps_processes (on_logical_out _) => apply keeps_on_logical_out
      end ].

Section Tables.
Lemma frame_claim t task : processes (ClaimLogicalFakeTraceme t task).2 = processes t.
Proof. unfold ClaimLogicalFakeTraceme. repeat case_match; done. Qed.
Lemma frame_create t tracee tracer kind class options :
  processes (CreateLogicalPtraceRelation t tracee tracer kind class options).1.2 = processes t.
Proof. unfold CreateLogicalPtraceRelation. repeat case_match; done. Qed.
Lemma frame_erase t tracee discard : processes (EraseLogicalPtraceRelation t tracee discard).2 = processes t.
Proof. unfold EraseLogicalPtraceRelation. repeat case_match; done. Qed.
Lemma frame_options t tracee options : processes (SetLogicalPtraceOptions t tracee options).2 = processes t.
Proof. unfold SetLogicalPtraceOptions. repeat case_match; done. Qed.
Lemma frame_resume t tracee mode : processes (ResumeLogicalPtraceRelation t tracee mode).2 = processes t.
Proof. unfold ResumeLogicalPtraceRelation. repeat case_match; done. Qed.
Lemma frame_listen t tracee : processes (ListenLogicalPtraceRelation t tracee).2 = processes t.
Proof. unfold ListenLogicalPtraceRelation. repeat case_match; done. Qed.
Lemma frame_queue t tracee event : processes (QueueLogicalPtraceEvent t tracee event).1.2 = processes t.
Proof. unfold QueueLogicalPtraceEvent. repeat case_match; done. Qed.
Lemma frame_registers t tracee regs valid number :
  processes (SetLogicalPtraceEventRegisters t tracee regs valid number).2 = processes t.
Proof. unfold SetLogicalPtraceEventRegisters. repeat case_match; done. Qed.
Lemma frame_siginfo t tracee info : processes (SetLogicalPtraceEventSiginfo t tracee info).2 = processes t.
Proof. unfold SetLogicalPtraceEventSiginfo. repeat case_match; done. Qed.
Lemma frame_consume t tracee preserve : processes (ConsumeLogicalPtraceEvent t tracee preserve).1.2 = processes t.
Proof. unfold ConsumeLogicalPtraceEvent. repeat case_match; done. Qed.
Lemma frame_begin t request : processes (BeginLogicalWait t request).1.2 = processes t.
Proof. unfold BeginLogicalWait. repeat case_match; done. Qed.
Lemma frame_end t waiter : processes (EndLogicalWait t waiter).2 = processes t.
Proof. unfold EndLogicalWait. repeat case_match; done. Qed.
Lemma frame_consume_wait t waiter m : processes (ConsumeLogicalWaitEvent t waiter m).1.2 = processes t.
Proof. unfold ConsumeLogicalWaitEvent. repeat case_match; done. Qed.
Lemma frame_rekey t old new : processes (RekeyLogicalPtraceTask t old new).2 = processes t.
Proof. unfold RekeyLogicalPtraceTask. repeat case_match; done. Qed.
End Tables.

#[export] Hint Resolve frame_claim frame_create frame_erase frame_options frame_resume frame_listen frame_queue
  frame_registers frame_siginfo frame_consume frame_begin frame_end frame_consume_wait frame_rekey : frame.

Section Updates.
Context {W : Type}.

Lemma keeps_UpdateQueuedRegisters i regs valid number :
  keeps_processes (W:=W) (UpdateQueuedRegisters i regs valid number).
Proof. apply keeps_on_logical. intros t. cbv zeta. destruct (_ =? _); auto with frame. Qed.
Lemma keeps_UpdateQueuedSyscallNumber i number : keeps_processes (W:=W) (UpdateQueuedSyscallNumber i number).
Proof. apply keeps_on_logical. intros t. cbv zeta. repeat case_match; done. Qed.
Lemma keeps_UpdateQueuedSiginfo i info : keeps_processes (W:=W) (UpdateQueuedSiginfo i info).
Proof. apply keeps_on_logical. intros t. cbv zeta. destruct (_ =? _); auto with frame. Qed.
Lemma keeps_write_current s f : keeps_processes (W:=W) (write_current s f).
Proof. done. Qed.
End Updates.

#[export] Hint Resolve keeps_UpdateQueuedRegisters keeps_UpdateQueuedSyscallNumber keeps_UpdateQueuedSiginfo
  keeps_write_current : frame.

Section Handlers.
Context {W : Type} (io : LogicalPtraceDispatchIo W).

Lemma keeps_HandleSetRegset caller note address i s : keeps_processes (HandleSetRegset io caller note address i s).
Proof. unfold HandleSetRegset. frame_steps. Qed.
Lemma keeps_HandlePokeUser offset value i s : keeps_processes (W:=W) (HandlePokeUser offset value i s).
Proof. unfold HandlePokeUser. frame_steps. Qed.
Lemma keeps_HandleResume target request signal i s :
  keeps_processes (W:=W) (HandleResume target request signal i s).
Proof. unfold HandleResume. frame_steps. Qed.
Lemma keeps_GetDeliveredStop i : keeps_processes (W:=W) (GetDeliveredStop i).
Proof. unfold GetDeliveredStop. frame_steps. Qed.
End Handlers.

#[export] Hint Resolve keeps_HandleSetRegset keeps_HandlePokeUser keeps_HandleResume keeps_GetDeliveredStop : frame.

Section Entries.
Context {W : Type} (io : LogicalPtraceDispatchIo W).

Lemma keeps_HandleStoppedRequest caller target request address data i :
  keeps_processes (HandleStoppedRequest io caller target request address data i).
Proof. unfold HandleStoppedRequest. frame_steps. Qed.
Lemma keeps_HandleTraceme caller : keeps_processes (HandleTraceme io caller).
Proof. unfold HandleTraceme. frame_steps. Qed.
Lemma keeps_HandleAttach caller target request address data :
  keeps_processes (HandleAttach io caller target request address data).
Proof. unfold HandleAttach. frame_steps. Qed.
Lemma keeps_HandleInterrupt target address data i : keeps_processes (W:=W) (HandleInterrupt target address data i).
Proof. unfold HandleInterrupt. frame_steps. Qed.
Lemma keeps_FindOwnedRelation caller target : keeps_processes (W:=W) (FindOwnedRelation caller target).
Proof. unfold FindOwnedRelation. frame_steps. Qed.
Lemma keeps_CompleteSelectedWait waiter m : keeps_processes (CompleteSelectedWait io waiter m).
Proof. unfold CompleteSelectedWait. frame_steps. Qed.
Lemma keeps_finish_wait_entry caller number state result :
  keeps_processes (W:=W) (finish_wait_entry caller number state result).
Proof. unfold finish_wait_entry, insert_operation. frame_steps. Qed.
End Entries.

#[export] Hint Resolve keeps_HandleStoppedRequest keeps_HandleTraceme keeps_HandleAttach keeps_HandleInterrupt
  keeps_FindOwnedRelation keeps_CompleteSelectedWait keeps_finish_wait_entry : frame.

Section Calls.
Context {W : Type} (io : LogicalPtraceDispatchIo W).

Lemma keeps_HandlePtraceEntry caller arguments : keeps_processes (HandlePtraceEntry io caller arguments).
Proof. unfold HandlePtraceEntry. frame_steps. Qed.
Lemma keeps_HandleWaitEntry caller number arguments : keeps_processes (HandleWaitEntry io caller number arguments).
Proof. unfold HandleWaitEntry. frame_steps. Qed.

Lemma keeps_entry caller number arguments : keeps_processes (DispatchLogicalPtraceEntry io caller number arguments).
Proof.
  pose proof keeps_HandlePtraceEntry. pose proof keeps_HandleWaitEntry.
  unfold DispatchLogicalPtraceEntry, insert_operation. frame_steps.
Qed.
Lemma keeps_exit caller number : keeps_processes (W:=W) (DispatchLogicalPtraceExit caller number).
Proof. unfold DispatchLogicalPtraceExit. frame_steps. Qed.
Lemma keeps_publish tracee event : keeps_processes (W:=W) (PublishLogicalPtraceStop tracee event).
Proof. unfold PublishLogicalPtraceStop. frame_steps. Qed.
Lemma keeps_wake waiter : keeps_processes (TryWakeLogicalPtraceWait io waiter).
Proof. unfold TryWakeLogicalPtraceWait. frame_steps. Qed.
Lemma keeps_cancel caller : keeps_processes (W:=W) (CancelLogicalPtraceDispatch caller).
Proof. unfold CancelLogicalPtraceDispatch. frame_steps. Qed.
Lemma keeps_rekey old new : keeps_processes (W:=W) (RekeyLogicalPtraceDispatchTask old new).
Proof. unfold RekeyLogicalPtraceDispatchTask. frame_steps. Qed.
End Calls.
