(* ===== verification/Resident.v ===== *)
(** * The resident state of the nested ptrace world

    hookself/internal/logical_ptrace_resident_state.h and .cpp: the index of
    the tasks the tracer knows, beside the logical ptrace table and the
    dispatcher. The tasks are an array the tracer fills by slot; a process
    record lives as long as one of its tasks, or something that refers to it.

    The C++ functions take a pointer to the state, which the callers never
    pass as null, and write it in place; here they return the state. *)

From S2P Require Import Prelude Bits SlotArray LogicalPtrace LogicalPtraceOps Dispatcher DispatcherOps.
From stdpp Require Import list.
#[local] Open Scope Z_scope.

Definition kLogicalPtraceResidentCapacity : Z := 512.
Definition kLogicalPtraceResidentMagic : Z := 0x48534c52.
Definition kLogicalPtraceResidentVersion : Z := 1.

(** enum LogicalPtraceResidentTaskFlags *)
Definition kLogicalPtraceResidentTaskActive : Z := 1.
Definition kLogicalPtraceResidentTaskExited : Z := 2.
Definition kLogicalPtraceResidentTaskParentValid : Z := 4.
Definition kResidentTaskFlagMask : Z :=
  kLogicalPtraceResidentTaskActive ||| kLogicalPtraceResidentTaskExited |||
  kLogicalPtraceResidentTaskParentValid.

Record LogicalPtraceResidentTask := {
  rt_occupied : Z; rt_slot : Z; rt_flags : Z; rt_reserved : Z;
  rt_key : LogicalTaskKey; rt_parent : LogicalTaskKey }.

Record LogicalPtraceResidentState := {
  rs_magic : Z; rs_version : Z; rs_task_count : Z; rs_reserved : Z; rs_mutation_generation : Z;
  rs_tasks : list LogicalPtraceResidentTask;
  rs_logical : LogicalPtraceTable;
  rs_dispatcher : LogicalPtraceDispatcher }.

Definition ClearTask (slot : Z) : LogicalPtraceResidentTask :=
  Build_LogicalPtraceResidentTask 0 slot 0 0 zero_task_key zero_task_key.

#[export] Instance resident_task_inhabited : Inhabited LogicalPtraceResidentTask := populate (ClearTask 0).

#[export] Instance resident_slots : SlotRecord LogicalPtraceResidentTask LogicalTaskKey := {
  sr_occupied := rt_occupied; sr_slot := rt_slot; sr_key := rt_key;
  sr_same := LogicalTaskKeysEqual; sr_key_ok := TaskKeyValid;
  sr_same_spec k k' _ _ := LogicalTaskKeysEqual_spec k k' }.

(** ** Writes *)

Definition set_tasks (s : LogicalPtraceResidentState) (count : Z) (tasks : list LogicalPtraceResidentTask)
    : LogicalPtraceResidentState :=
  Build_LogicalPtraceResidentState (rs_magic s) (rs_version s) count (rs_reserved s)
    (rs_mutation_generation s) tasks (rs_logical s) (rs_dispatcher s).
Definition set_table (s : LogicalPtraceResidentState) (t : LogicalPtraceTable) : LogicalPtraceResidentState :=
  Build_LogicalPtraceResidentState (rs_magic s) (rs_version s) (rs_task_count s) (rs_reserved s)
    (rs_mutation_generation s) (rs_tasks s) t (rs_dispatcher s).
Definition set_operations_of (s : LogicalPtraceResidentState) (d : LogicalPtraceDispatcher)
    : LogicalPtraceResidentState :=
  Build_LogicalPtraceResidentState (rs_magic s) (rs_version s) (rs_task_count s) (rs_reserved s)
    (rs_mutation_generation s) (rs_tasks s) (rs_logical s) d.
(** [++state->mutation_generation] *)
Definition rbump (s : LogicalPtraceResidentState) : LogicalPtraceResidentState :=
  Build_LogicalPtraceResidentState (rs_magic s) (rs_version s) (rs_task_count s) (rs_reserved s)
    (u64 (rs_mutation_generation s + 1)) (rs_tasks s) (rs_logical s) (rs_dispatcher s).

Definition with_life (task : LogicalPtraceResidentTask) (flags : Z) : LogicalPtraceResidentTask :=
  Build_LogicalPtraceResidentTask (rt_occupied task) (rt_slot task) flags (rt_reserved task)
    (rt_key task) (rt_parent task).
Definition with_parent (task : LogicalPtraceResidentTask) (parent : LogicalTaskKey) : LogicalPtraceResidentTask :=
  Build_LogicalPtraceResidentTask (rt_occupied task) (rt_slot task) (rt_flags task) (rt_reserved task)
    (rt_key task) parent.
Definition with_key (task : LogicalPtraceResidentTask) (key : LogicalTaskKey) : LogicalPtraceResidentTask :=
  Build_LogicalPtraceResidentTask (rt_occupied task) (rt_slot task) (rt_flags task) (rt_reserved task)
    key (rt_parent task).

Definition is_active (task : LogicalPtraceResidentTask) : bool :=
  has (rt_flags task) kLogicalPtraceResidentTaskActive.
Definition parent_valid (task : LogicalPtraceResidentTask) : bool :=
  has (rt_flags task) kLogicalPtraceResidentTaskParentValid.

(** The parent link removed: [flags &= ~ParentValid], the parent cleared. *)
Definition drop_parent (task : LogicalPtraceResidentTask) : LogicalPtraceResidentTask :=
  with_parent (with_life task (Z.land (rt_flags task) (not32 kLogicalPtraceResidentTaskParentValid)))
    zero_task_key.

(** The dispatcher's environment over the state's own tables, and the state
    with the tables a call left. *)
Definition tables_env {W} (s : LogicalPtraceResidentState) (w : W) : Env W :=
  {| dispatcher := rs_dispatcher s; logical := rs_logical s; world := w |}.
Definition take_tables {W} (s : LogicalPtraceResidentState) (e : Env W) : LogicalPtraceResidentState :=
  set_operations_of (set_table s (logical e)) (dispatcher e).

(** A call of the dispatcher that uses no callback. *)
Definition on_tables {A} (m : M unit A) (s : LogicalPtraceResidentState) : A * LogicalPtraceResidentState :=
  let '(x, e) := m (tables_env s tt) in (x, take_tables s e).

(** A call of the logical table. *)
Definition on_table (f : LogicalPtraceTable -> Z * LogicalPtraceTable) (s : LogicalPtraceResidentState)
    : Z * LogicalPtraceResidentState :=
  let '(error, t) := f (rs_logical s) in (error, set_table s t).

(** ** Looking up *)

Definition InitLogicalPtraceResidentState : LogicalPtraceResidentState :=
  Build_LogicalPtraceResidentState kLogicalPtraceResidentMagic kLogicalPtraceResidentVersion 0 0 0
    (ClearTask <$> seqZ 0 kLogicalPtraceResidentCapacity) InitLogicalPtraceTable InitLogicalPtraceDispatcher.

Definition IsLogicalPtraceResidentStateInitialized (s : LogicalPtraceResidentState) : bool :=
  (rs_magic s =? kLogicalPtraceResidentMagic) && (rs_version s =? kLogicalPtraceResidentVersion) &&
  (rs_task_count s <=? kLogicalPtraceResidentCapacity) &&
  IsLogicalPtraceTableInitialized (rs_logical s) && IsLogicalPtraceDispatcherInitialized (rs_dispatcher s).

Definition LogicalPtraceResidentTaskAt (s : LogicalPtraceResidentState) (slot : Z) : option nat :=
  if negb (IsLogicalPtraceResidentStateInitialized s) || (kLogicalPtraceResidentCapacity <=? slot) ||
     (rt_occupied (rs_tasks s !!! Z.to_nat slot) =? 0) then None
  else Some (Z.to_nat slot).

Definition FindLogicalPtraceResidentTask (s : LogicalPtraceResidentState) (key : LogicalTaskKey) : option nat :=
  if negb (IsLogicalPtraceResidentStateInitialized s) || negb (TaskKeyValid key) then None
  else find_slot key (rs_tasks s).

Definition FindLogicalPtraceResidentTid (s : LogicalPtraceResidentState) (tid : Z) : option nat :=
  if negb (IsLogicalPtraceResidentStateInitialized s) || (tid <=? 0) then None
  else find_index (fun task => in_use task && (tk_tid (rt_key task) =? tid) && is_active task) (rs_tasks s).

(** A relation of the table names the task. *)
Definition TaskReferencedByRelation (s : LogicalPtraceResidentState) (key : LogicalTaskKey) : bool :=
  IsLogicalPtraceTableInitialized (rs_logical s) &&
  existsb (fun r => in_use r && (LogicalTaskKeysEqual (lr_tracee r) key || LogicalTaskKeysEqual (lr_tracer r) key))
    (relations (rs_logical s)).

(** ** Tasks *)

(** The process record of the task: inserted with its first task, and given the
    parent it did not have. *)
Definition register_process (process_key : LogicalProcessKey) (parent_process : option LogicalProcessKey)
    (process_group dumpable : Z) (ptracer : LogicalPidIdentity) (t : LogicalPtraceTable) : Z * LogicalPtraceTable :=
  match FindLogicalProcess t process_key, parent_process with
  | None, _ =>
    let '(error, t', _) := InsertLogicalProcess t process_key parent_process process_group dumpable ptracer in
    (error, t')
  | Some i, Some parent =>
    if negb (has (lp_flags (processes t !!! i)) kLogicalProcessFlagParentKnown)
    then SetLogicalProcessParent t process_key (Some parent) else (0, t)
  | Some _, None => (0, t)
  end.

Definition RegisterLogicalPtraceResidentTask (s : LogicalPtraceResidentState) (slot : Z) (key : LogicalTaskKey)
    (parent : option LogicalTaskKey) (process_group dumpable : Z) (ptracer : LogicalPidIdentity)
    : Z * LogicalPtraceResidentState :=
  if negb (IsLogicalPtraceResidentStateInitialized s) || (kLogicalPtraceResidentCapacity <=? slot) ||
     negb (TaskKeyValid key) || (process_group <=? 0) || (dumpable <? 0) || (2 <? dumpable) ||
     (pi_pid ptracer <? -1) || negb (pi_reserved ptracer =? 0) ||
     ((pi_pid ptracer <=? 0) && negb (pi_start_time ptracer =? 0)) ||
     match parent with Some parent => negb (TaskKeyValid parent) | None => false end
  then (EINVAL, s)
  else
    let entry := rs_tasks s !!! Z.to_nat slot in
    if negb (rt_occupied entry =? 0) then
      (if LogicalTaskKeysEqual (rt_key entry) key && is_active entry then 0 else EEXIST, s)
    else if FindLogicalPtraceResidentTask s key is Some _ then (EEXIST, s)
    else if FindLogicalPtraceResidentTid s (tk_tid key) is Some _ then (EEXIST, s)
    else
      let process_key := LogicalProcessKeyForTask key in
      let parent_process :=
        match parent with
        | Some parent => if negb (tk_tgid parent =? tk_tgid key) then Some (LogicalProcessKeyForTask parent) else None
        | None => None
        end in
      if match parent_process with
         | Some p => if FindLogicalProcess (rs_logical s) p is None then true else false
         | None => false
         end then (ESRCH, s)
      else
        let '(error, s1) :=
          on_table (register_process process_key parent_process process_group dumpable ptracer) s in
        if negb (error =? 0) then (error, s1) else
        let task := Build_LogicalPtraceResidentTask 1 slot
          (kLogicalPtraceResidentTaskActive |||
           match parent with Some _ => kLogicalPtraceResidentTaskParentValid | None => 0 end) 0 key
          match parent with Some parent => parent | None => zero_task_key end in
        (0, rbump (set_tasks s1 (u32 (rs_task_count s1 + 1)) (<[Z.to_nat slot := task]> (rs_tasks s1)))).

Definition MarkLogicalPtraceResidentTaskExited (s : LogicalPtraceResidentState) (key : LogicalTaskKey)
    : Z * LogicalPtraceResidentState :=
  match FindLogicalPtraceResidentTask s key with
  | None => (ESRCH, s)
  | Some i =>
    let task := rs_tasks s !!! i in
    (0, rbump (set_tasks s (rs_task_count s)
      (<[i := with_life task (Z.land (rt_flags task) (not32 kLogicalPtraceResidentTaskActive) |||
                              kLogicalPtraceResidentTaskExited)]> (rs_tasks s))))
  end.

(** ** Processes *)

(** [has_task]: some task of the array belongs to the process. *)
Definition has_task (tasks : list LogicalPtraceResidentTask) (key : LogicalProcessKey) : bool :=
  existsb (fun task => in_use task && (tk_tgid (rt_key task) =? pk_tgid key) &&
                       (tk_process_generation (rt_key task) =? pk_generation key)) tasks.

(** One pass over the process slots: the table after the first process that
    could be erased, if any. *)
Fixpoint collect_pass (tasks : list LogicalPtraceResidentTask) (slots : list Z) (t : LogicalPtraceTable)
    : option LogicalPtraceTable :=
  match slots with
  | [] => None
  | slot :: rest =>
    match LogicalProcessAt t slot with
    | None => collect_pass tasks rest t
    | Some i =>
      let key := lp_key (processes t !!! Z.to_nat i) in
      if has_task tasks key then collect_pass tasks rest t
      else
        let '(error, t') := EraseLogicalProcess t key in
        if error =? 0 then Some t' else collect_pass tasks rest t
    end
  end.

(** [while (progress)]: the passes, at most [fuel] of them; [None] when the
    fuel did not suffice. *)
Fixpoint collect_loop (fuel : nat) (tasks : list LogicalPtraceResidentTask) (t : LogicalPtraceTable)
    (collected : Z) : option (Z * LogicalPtraceTable) :=
  match fuel with
  | O => None
  | S fuel =>
    match collect_pass tasks (seqZ 0 kLogicalPtraceProcessCapacity) t with
    | None => Some (collected, t)
    | Some t' => collect_loop fuel tasks t' (u32 (collected + 1))
    end
  end.

(** The fuel is one more than the processes that can be erased. *)
Definition collect_fuel : nat := 513.

Definition CollectLogicalPtraceResidentProcesses (s : LogicalPtraceResidentState)
    : option (Z * LogicalPtraceResidentState) :=
  if negb (IsLogicalPtraceResidentStateInitialized s) then Some (0, s)
  else match collect_loop collect_fuel (rs_tasks s) (rs_logical s) 0 with
  | None => None
  | Some (collected, t) =>
    let s := set_table s t in
    Some (collected, if negb (collected =? 0) then rbump s else s)
  end.

(** ** Retiring and renaming *)

(** The record describes no relation of the table any more. *)
Definition stop_is_stale (t : LogicalPtraceTable) (key : LogicalTaskKey) (slot : Z)
    (stop : LogicalPtraceDispatchStop) : bool :=
  negb (ds_relation_generation stop =? 0) && LogicalTaskKeysEqual (ds_tracee stop) key &&
  negb match LogicalPtraceRelationAt t slot with
       | Some _ => let relation := relations t !!! Z.to_nat slot in
         (lr_generation relation =? ds_relation_generation stop) &&
         LogicalTaskKeysEqual (lr_tracee relation) (ds_tracee stop)
       | None => false
       end.

(** The body of the loop for one slot. *)
Definition clear_stale_stop (t : LogicalPtraceTable) (key : LogicalTaskKey) (d : LogicalPtraceDispatcher)
    (slot : nat) : LogicalPtraceDispatcher :=
  if stop_is_stale t key (Z.of_nat slot) (ld_stops d !!! slot)
  then dbump (put_stop slot (ClearStop (Z.of_nat slot)) d) else d.

Definition ClearStaleStop (s : LogicalPtraceResidentState) (key : LogicalTaskKey) : LogicalPtraceResidentState :=
  set_operations_of s (foldl (clear_stale_stop (rs_logical s) key) (rs_dispatcher s)
    (seq 0 (Z.to_nat kLogicalPtraceDispatchCapacity))).

Definition child_of_task (key : LogicalTaskKey) (child : LogicalPtraceResidentTask) : bool :=
  in_use child && parent_valid child && LogicalTaskKeysEqual (rt_parent child) key.

Definition RetireLogicalPtraceResidentTask (s : LogicalPtraceResidentState) (key : LogicalTaskKey)
    : option (Z * LogicalPtraceResidentState) :=
  match FindLogicalPtraceResidentTask s key with
  | None => Some (ESRCH, s)
  | Some i =>
    if TaskReferencedByRelation s key ||
       match FindLogicalWait (rs_logical s) key with Some _ => true | None => false end
    then Some (EBUSY, s)
    else
      let '(cancel_error, s) := on_tables (CancelLogicalPtraceDispatch key) s in
      if negb (cancel_error =? 0) && negb (cancel_error =? ESRCH) then Some (cancel_error, s) else
      let '(fake_error, s) := on_table (fun t => ClearLogicalFakeTraceme t key) s in
      if negb (fake_error =? 0) && negb (fake_error =? ESRCH) then Some (fake_error, s) else
      let s := ClearStaleStop s key in
      let tasks := (fun child => if child_of_task key child then drop_parent child else child) <$> rs_tasks s in
      let task_slot := rt_slot (tasks !!! i) in
      let s := rbump (set_tasks s (u32 (rs_task_count s - 1)) (<[i := ClearTask task_slot]> tasks)) in
      match CollectLogicalPtraceResidentProcesses s with
      | Some (_, s) => Some (0, s)
      | None => None
      end
  end.

Definition RekeyLogicalPtraceResidentTask (s : LogicalPtraceResidentState) (old_identity new_identity : LogicalTaskKey)
    : Z * LogicalPtraceResidentState :=
  if negb (IsLogicalPtraceResidentStateInitialized s) || negb (TaskKeyValid old_identity) ||
     negb (TaskKeyValid new_identity) then (EINVAL, s)
  else if LogicalTaskKeysEqual old_identity new_identity then (0, s)
  else
    let task := FindLogicalPtraceResidentTask s old_identity in
    let exact_duplicate := FindLogicalPtraceResidentTask s new_identity in
    let active_duplicate := FindLogicalPtraceResidentTid s (tk_tid new_identity) in
    match task with
    | None => (ESRCH, s)
    | Some i =>
      let other (duplicate : option nat) :=
        match duplicate with Some j => negb (bool_decide (j = i)) | None => false end in
      if other exact_duplicate || other active_duplicate then (EEXIST, s)
      else
        let '(rekey_error, s) := on_tables (RekeyLogicalPtraceDispatchTask old_identity new_identity) s in
        if negb (rekey_error =? 0) && negb (rekey_error =? ESRCH) then (rekey_error, s)
        else
          let tasks := <[i := with_key (rs_tasks s !!! i) new_identity]> (rs_tasks s) in
          (0, rbump (set_tasks s (rs_task_count s)
            ((fun child => if child_of_task old_identity child then with_parent child new_identity else child)
               <$> tasks)))
    end.

(** ** Validation *)

(** The loop over the later tasks: no second task with the key, no second
    active task with the thread id. *)
Definition task_conflict (task candidate : LogicalPtraceResidentTask) : bool :=
  in_use candidate &&
  (LogicalTaskKeysEqual (rt_key candidate) (rt_key task) ||
   ((tk_tid (rt_key candidate) =? tk_tid (rt_key task)) && is_active candidate && is_active task)).

Definition known_process (t : LogicalPtraceTable) (key : LogicalTaskKey) : bool :=
  match FindLogicalProcess t (LogicalProcessKeyForTask key) with Some _ => true | None => false end.

Definition task_entry (t : LogicalPtraceTable) (task : LogicalPtraceResidentTask) : bool :=
  let life_flags := Z.land (rt_flags task)
    (kLogicalPtraceResidentTaskActive ||| kLogicalPtraceResidentTaskExited) in
  (rt_reserved task =? 0) && TaskKeyValid (rt_key task) &&
  negb (has (rt_flags task) (not32 kResidentTaskFlagMask)) &&
  ((life_flags =? kLogicalPtraceResidentTaskActive) || (life_flags =? kLogicalPtraceResidentTaskExited)) &&
  known_process t (rt_key task) &&
  if parent_valid task then
    TaskKeyValid (rt_parent task) && negb (LogicalTaskKeysEqual (rt_parent task) (rt_key task)) &&
    known_process t (rt_parent task)
  else (tk_tid (rt_parent task) =? 0) && (tk_tgid (rt_parent task) =? 0) &&
       (tk_generation (rt_parent task) =? 0) && (tk_process_generation (rt_parent task) =? 0).

Definition vacant_task (task : LogicalPtraceResidentTask) : bool :=
  (rt_flags task =? 0) && (tk_tid (rt_key task) =? 0) && (tk_tid (rt_parent task) =? 0).

Fixpoint validate_tasks (t : LogicalPtraceTable) (slot count : Z) (tasks : list LogicalPtraceResidentTask)
    : option Z :=
  match tasks with
  | [] => Some count
  | task :: rest =>
    if negb (rt_slot task =? slot) || (1 <? rt_occupied task) then None
    else if rt_occupied task =? 0 then
      if vacant_task task then validate_tasks t (slot + 1) count rest else None
    else if negb (task_entry t task) then None
    else if existsb (task_conflict task) rest then None
    else validate_tasks t (slot + 1) (count + 1) rest
  end.

Definition ValidateLogicalPtraceResidentState (s : LogicalPtraceResidentState) : bool :=
  IsLogicalPtraceResidentStateInitialized s &&
  ValidateLogicalPtraceDispatcher (rs_dispatcher s) (rs_logical s) &&
  match validate_tasks (rs_logical s) 0 0 (rs_tasks s) with
  | Some count => count =? rs_task_count s
  | None => false
  end.

(** ** exec by a thread that is not the leader *)

Definition DiscardExecDestinationThreadState (s : LogicalPtraceResidentState) (destination : LogicalTaskKey)
    : Z * LogicalPtraceResidentState :=
  let '(error, s) := on_tables (CancelLogicalPtraceDispatch destination) s in
  if negb (error =? 0) && negb (error =? ESRCH) then (error, s) else
  let '(error, s) := on_table (fun t => EndLogicalWait t destination) s in
  if negb (error =? 0) && negb (error =? ESRCH) then (error, s) else
  let '(error, s) := on_table (fun t => ClearLogicalFakeTraceme t destination) s in
  if negb (error =? 0) && negb (error =? ESRCH) then (error, s) else
  let '(error, s) :=
    match FindLogicalPtraceRelation (rs_logical s) destination with
    | Some _ => on_table (fun t => EraseLogicalPtraceRelation t destination true) s
    | None => (0, s)
    end in
  if negb (error =? 0) then (error, s) else (0, ClearStaleStop s destination).

(** The body of the last loop: the children of the former task, and a task
    that became its own parent. *)
Definition merge_child (former destination : LogicalTaskKey) (task : LogicalPtraceResidentTask)
    : LogicalPtraceResidentTask :=
  if negb (in_use task) || negb (parent_valid task) then task
  else
    let task := if LogicalTaskKeysEqual (rt_parent task) former then with_parent task destination else task in
    if LogicalTaskKeysEqual (rt_parent task) (rt_key task) then drop_parent task else task.

Definition MergeExecLogicalPtraceResidentTaskInPlace (s : LogicalPtraceResidentState)
    (former_identity destination_identity : LogicalTaskKey) : Z * LogicalPtraceResidentState :=
  if negb (ValidateLogicalPtraceResidentState s) || negb (TaskKeyValid former_identity) ||
     negb (TaskKeyValid destination_identity) || LogicalTaskKeysEqual former_identity destination_identity ||
     (tk_tid former_identity =? tk_tgid former_identity) ||
     negb (tk_tid destination_identity =? tk_tgid destination_identity) then (EINVAL, s)
  else if negb (tk_tgid former_identity =? tk_tgid destination_identity) ||
          negb (tk_process_generation former_identity =? tk_process_generation destination_identity)
  then (EXDEV, s)
  else match FindLogicalPtraceResidentTask s former_identity,
             FindLogicalPtraceResidentTask s destination_identity with
  | Some former, Some destination =>
    let former_task := rs_tasks s !!! former in
    let destination_task := rs_tasks s !!! destination in
    if bool_decide (former = destination) || (rt_slot former_task =? rt_slot destination_task) ||
       negb (is_active former_task) then (EINVAL, s)
    else
      let '(error, s) := DiscardExecDestinationThreadState s destination_identity in
      if negb (error =? 0) then (error, s) else
      let '(error, s) := on_tables (RekeyLogicalPtraceDispatchTask former_identity destination_identity) s in
      if negb (error =? 0) && negb (error =? ESRCH) then (error, s) else
      let former_slot := rt_slot (rs_tasks s !!! former) in
      let destination_slot := rt_slot (rs_tasks s !!! destination) in
      let source := rs_tasks s !!! former in
      let merged := Build_LogicalPtraceResidentTask (rt_occupied source) destination_slot (rt_flags source)
        (rt_reserved source) destination_identity (rt_parent source) in
      let tasks := <[Z.to_nat destination_slot := merged]>
        (<[Z.to_nat former_slot := ClearTask former_slot]> (rs_tasks s)) in
      let s := rbump (set_tasks s (u32 (rs_task_count s - 1))
        (merge_child former_identity destination_identity <$> tasks)) in
      (if ValidateLogicalPtraceResidentState s then 0 else EPROTO, s)
  | _, _ => (ESRCH, s)
  end.

(** The candidate is a copy in fresh memory, whose [mmap] may fail with
    [errno]: [mapping] is that errno value, or [None] when the copy was made. *)
Definition MergeExecLogicalPtraceResidentTask (mapping : option Z) (s : LogicalPtraceResidentState)
    (former_identity destination_identity : LogicalTaskKey) : Z * LogicalPtraceResidentState :=
  if negb (IsLogicalPtraceResidentStateInitialized s) then (EINVAL, s)
  else match mapping with
  | Some error => (if negb (error =? 0) then error else ENOMEM, s)
  | None =>
    let '(error, candidate) := MergeExecLogicalPtraceResidentTaskInPlace s former_identity destination_identity in
    (error, if error =? 0 then candidate else s)
  end.

(** ** The callbacks of the dispatcher *)

(** The callbacks of the backend; [None] is a null pointer. *)
Record LogicalPtraceResidentIoContext {W : Type} := {
  rc_may_attach : option (W -> LogicalTaskKey -> LogicalTaskKey -> Z -> Z * W);
  rc_read_memory : option (W -> LogicalTaskKey -> Z -> Z -> Z * list Z * W);
  rc_write_memory : option (W -> LogicalTaskKey -> Z -> list Z -> Z * W);
  rc_query_uid : option (W -> LogicalTaskKey -> Z * Z * W);
  rc_fill_rusage : option (W -> LogicalTaskKey -> LogicalPtraceEvent -> Z -> Z * list Z * W) }.
Arguments LogicalPtraceResidentIoContext : clear implicits.

Definition ResolveTaskCallback (s : LogicalPtraceResidentState) (tid : Z) : Z * LogicalTaskKey :=
  match FindLogicalPtraceResidentTid s tid with
  | None => (ESRCH, zero_task_key)
  | Some i => (0, rt_key (rs_tasks s !!! i))
  end.

Definition ResolveParentCallback (s : LogicalPtraceResidentState) (caller : LogicalTaskKey) : Z * LogicalTaskKey :=
  match FindLogicalPtraceResidentTask s caller with
  | None => (ESRCH, zero_task_key)
  | Some i =>
    let task := rs_tasks s !!! i in
    if negb (parent_valid task) then (ESRCH, zero_task_key)
    else match FindLogicalPtraceResidentTask s (rt_parent task) with
    | None => (ESRCH, zero_task_key)
    | Some parent =>
      if negb (is_active (rs_tasks s !!! parent)) then (ESRCH, zero_task_key) else (0, rt_parent task)
    end
  end.

(** The remaining callbacks pass the call on to the backend, with a default for
    a null pointer. *)
Section Callbacks.
Context {W : Type} (io : LogicalPtraceResidentIoContext W).

Definition MayAttachCallback (w : W) (caller target : LogicalTaskKey) (kind : Z) : Z * W :=
  match rc_may_attach io with None => (0, w) | Some f => f w caller target kind end.

Definition ReadMemoryCallback (w : W) (task : LogicalTaskKey) (address size : Z) : Z * list Z * W :=
  match rc_read_memory io with None => (ENOSYS, [], w) | Some f => f w task address size end.

Definition WriteMemoryCallback (w : W) (task : LogicalTaskKey) (address : Z) (input : list Z) : Z * W :=
  match rc_write_memory io with None => (ENOSYS, w) | Some f => f w task address input end.

Definition QueryUidCallback (w : W) (task : LogicalTaskKey) : Z * Z * W :=
  match rc_query_uid io with None => (0, 0, w) | Some f => f w task end.

Definition FillRusageCallback (w : W) (tracee : LogicalTaskKey) (event : LogicalPtraceEvent) (size : Z)
    : Z * list Z * W :=
  match rc_fill_rusage io with
  | None => (0, replicate (Z.to_nat size) 0, w)
  | Some f => f w tracee event size
  end.
End Callbacks.

(** [io.opaque] points at the state. The dispatcher resolves tasks before it
    writes its tables, and never writes the tasks, so the callbacks read the
    state of the start of the call. *)
Definition MakeLogicalPtraceResidentIo {W} (s : LogicalPtraceResidentState)
    (io : LogicalPtraceResidentIoContext W) : LogicalPtraceDispatchIo W := {|
  resolve_task := Some (fun w _ tid => (ResolveTaskCallback s tid, w));
  resolve_parent := Some (fun w caller => (ResolveParentCallback s caller, w));
  may_attach := Some (MayAttachCallback io);
  read_memory := Some (ReadMemoryCallback io);
  write_memory := Some (WriteMemoryCallback io);
  query_uid := Some (QueryUidCallback io);
  fill_rusage := Some (FillRusageCallback io) |}.
