(* ===== verification/ResidentInv.v ===== *)
(** * The invariant of the resident state

    What ValidateLogicalPtraceResidentState checks, and what keeps it true:
    the tasks are a slot array with at most one active task per thread id, a
    parent link names a registered task, and only registered tasks have an
    operation in the dispatcher. *)

From S2P Require Import Prelude SlotArray LogicalPtrace LogicalPtraceOps LogicalPtraceInv LogicalPtracePreserve.
From S2P Require Import Dispatcher DispatcherOps DispatcherInv DispatcherReach Resident.
From stdpp Require Import list gmap.
#[local] Open Scope Z_scope.

(** ** Tasks *)

(** Active or exited, with or without a parent. *)
Definition life_ok (flags : Z) : Prop := flags = 1 \/ flags = 2 \/ flags = 5 \/ flags = 6.

Definition task_ok (live : LogicalProcessKey -> Prop) (r : LogicalPtraceResidentTask) : Prop :=
  rt_reserved r = 0 /\ TaskKeyValid (rt_key r) = true /\ life_ok (rt_flags r) /\
  live (LogicalProcessKeyForTask (rt_key r)) /\
  if parent_valid r then rt_parent r <> rt_key r else rt_parent r = zero_task_key.

Abbreviation task_map tasks := (to_map (K := LogicalTaskKey) tasks).

Record tasks_ok (live : LogicalProcessKey -> Prop) (tasks : list LogicalPtraceResidentTask) (count : Z)
    : Prop := {
  ta_slots : slots_ok 512 (fun r => vacant_task r = true) (task_ok live) tasks count;
  ta_tids : forall i j r r', entry_at tasks i r -> entry_at tasks j r' ->
    is_active r = true -> is_active r' = true -> tk_tid (rt_key r) = tk_tid (rt_key r') -> i = j;
  ta_parents : forall i r, entry_at tasks i r -> parent_valid r = true ->
    is_Some (task_map tasks !! rt_parent r) }.

Record resident_ok (s : LogicalPtraceResidentState) : Prop := {
  re_magic : rs_magic s = kLogicalPtraceResidentMagic;
  re_version : rs_version s = kLogicalPtraceResidentVersion;
  re_dispatch : dispatch_ok (rs_dispatcher s) (rs_logical s);
  re_tasks : tasks_ok (live_in (process_map (rs_logical s))) (rs_tasks s) (rs_task_count s);
  re_callers : forall k, is_Some (operation_map (rs_dispatcher s) !! k) -> is_Some (task_map (rs_tasks s) !! k) }.

Lemma task_ok_key live r : task_ok live r -> @sr_key_ok _ _ resident_slots (@sr_key _ _ resident_slots r) = true.
Proof. by intros (_ & ? & _). Qed.

Lemma re_table s : resident_ok s -> table_ok (rs_logical s).
Proof. intros H. apply (ck_table _ _ (proj1 (re_dispatch s H))). Qed.

Lemma re_init s : resident_ok s -> IsLogicalPtraceResidentStateInitialized s = true.
Proof.
  intros H. unfold IsLogicalPtraceResidentStateInitialized.
  rewrite (re_magic s H), (re_version s H), (ok_init _ (re_table s H)), (ck_init _ _ (proj1 (re_dispatch s H))).
  pose proof (slots_ok_count _ _ (ta_slots _ _ _ (re_tasks s H))).
  rewrite !andb_true_r. cbn [andb]. unfold kLogicalPtraceResidentCapacity.
  change (_ && _ && _) with (rs_task_count s <=? 512). lia.
Qed.

(** ** Looking up *)

Section Find.
Context (s : LogicalPtraceResidentState).
Hypothesis Hok : resident_ok s.

Lemma find_task_spec key :
  match FindLogicalPtraceResidentTask s key with
  | Some i => exists r, entry_at (rs_tasks s) i r /\ rt_key r = key /\ task_map (rs_tasks s) !! key = Some r /\
      task_ok (live_in (process_map (rs_logical s))) r /\ rt_slot r = Z.of_nat i /\ (i < 512)%nat
  | None => task_map (rs_tasks s) !! key = None
  end.
Proof.
  pose proof (find_map_spec (task_ok_key _) _ _ key (ta_slots _ _ _ (re_tasks s Hok))) as Hf. simpl in Hf.
  unfold FindLogicalPtraceResidentTask. rewrite (re_init s Hok). cbn [negb orb].
  destruct (TaskKeyValid key); cbn [negb]; [|done]. destruct (find_slot key (rs_tasks s)); [|done].
  destruct Hf as (r & Hi & Hk & Hm & Hr & _). exists r. repeat (split; [done|]).
  by apply (entry_at_ok _ _ _ _ (ta_slots _ _ _ (re_tasks s Hok)) Hi).
Qed.

(** The thread id finds the active task, and never an exited one. *)
Lemma find_tid_spec tid : 0 < tid ->
  match FindLogicalPtraceResidentTid s tid with
  | Some i => exists r, entry_at (rs_tasks s) i r /\ is_active r = true /\ tk_tid (rt_key r) = tid /\
      forall j r', entry_at (rs_tasks s) j r' -> is_active r' = true -> tk_tid (rt_key r') = tid -> j = i
  | None => forall j r', entry_at (rs_tasks s) j r' -> is_active r' = true -> tk_tid (rt_key r') <> tid
  end.
Proof.
  intros Ht. unfold FindLogicalPtraceResidentTid. rewrite (re_init s Hok). replace (tid <=? 0) with false by lia.
  cbn [negb orb]. destruct (find_index _ _) as [i|] eqn:Hf.
  - apply find_index_Some in Hf as (r & Hi & Hp). rewrite !andb_true_iff in Hp. destruct Hp as [[Hu Htid] Ha].
    exists r. split; [done|]. split; [done|]. split; [lia|]. intros j r' Hj Ha' Ht'.
    apply (ta_tids _ _ _ (re_tasks s Hok) j i r' r); try done. lia.
  - intros j r' [Hj Hu] Ha Htid. pose proof (find_index_None _ _ Hf j r' Hj) as Hp. simpl in Hp.
    rewrite Hu, Ha in Hp. simpl in Hp. lia.
Qed.
End Find.

(** ** The validator accepts the invariant *)

Lemma life_facts r : life_ok (rt_flags r) ->
  has (rt_flags r) (not32 kResidentTaskFlagMask) = false /\
  (let life := Z.land (rt_flags r) (kLogicalPtraceResidentTaskActive ||| kLogicalPtraceResidentTaskExited) in
   (life =? kLogicalPtraceResidentTaskActive) || (life =? kLogicalPtraceResidentTaskExited) = true).
Proof. by intros [-> | [-> | [-> | ->]]]. Qed.

Lemma known_process_iff t key : table_ok t ->
  known_process t key = true <-> live_in (process_map t) (LogicalProcessKeyForTask key).
Proof. intros Ht. apply (live_found_b t _ _ _ _ (ok_init t Ht) (ok_processes t Ht)). Qed.

Lemma task_entry_ok t tasks count i r : table_ok t -> tasks_ok (live_in (process_map t)) tasks count ->
  entry_at tasks i r -> task_entry t r = true.
Proof.
  intros Ht Hta Hi. destruct (entry_at_ok _ _ _ _ (ta_slots _ _ _ Hta) Hi) as ((Hr & Hk & Hlife & Hlive & Hp) & _).
  destruct (life_facts r Hlife) as [Hm Hl]. cbv zeta in Hl. unfold task_entry.
  rewrite Hr, Hk, Hm, Hl, (proj2 (known_process_iff t _ Ht) Hlive). cbn [negb andb Z.eqb].
  destruct (parent_valid r) eqn:Hpv; [|by rewrite Hp].
  destruct (ta_parents _ _ _ Hta i r Hi Hpv) as [p Hpm].
  apply (to_map_lookup _ _ _ _ (ta_slots _ _ _ Hta)) in Hpm as (j & Hj & Hpk). simpl in Hpk.
  destruct (entry_at_ok _ _ _ _ (ta_slots _ _ _ Hta) Hj) as ((_ & Hk' & _ & Hlive' & _) & _).
  rewrite <- Hpk, Hk', (proj2 (known_process_iff t _ Ht) Hlive'), andb_true_r. cbn [andb].
  apply negb_true_iff. destruct (LogicalTaskKeysEqual (rt_key p) (rt_key r)) eqn:E; [|done].
  apply LogicalTaskKeysEqual_spec in E. congruence.
Qed.

(** The loop over the tasks, from slot [n] on. *)
Lemma validate_tasks_ok t all count : table_ok t -> tasks_ok (live_in (process_map t)) all count ->
  forall tasks n c, drop n all = tasks ->
  validate_tasks t (Z.of_nat n) c tasks = Some (c + used tasks).
Proof.
  intros Ht Hta. induction tasks as [|r tasks IH]; intros n c Hd; simpl; [f_equal; lia|].
  assert (all !! n = Some r) as Hn.
  { pose proof (lookup_drop all n 0) as H. rewrite Nat.add_0_r in H. by rewrite <- H, Hd. }
  assert (drop (S n) all = tasks) as Hd'.
  { replace (S n) with (n + 1)%nat by lia. by rewrite <- drop_drop, Hd. }
  pose proof (ta_slots _ _ _ Hta) as Hs.
  assert (rt_slot r = Z.of_nat n) as -> by (apply (so_slot _ _ _ _ _ Hs n r Hn)).
  rewrite Z.eqb_refl. cbn [negb orb].
  replace (Z.of_nat n + 1) with (Z.of_nat (S n)) by lia.
  destruct (so_record _ _ _ _ _ Hs n r Hn) as [[Hu Hv]|(Hu & Hocc & _)]; unfold weight; rewrite Hu;
    unfold in_use in Hu; simpl in Hu.
  - apply negb_false_iff in Hu. assert (rt_occupied r = 0) as -> by lia. simpl. rewrite Hv, (IH (S n)) by done.
    f_equal. 
  - simpl in Hocc. apply negb_true_iff in Hu. rewrite Hu. replace (1 <? rt_occupied r) with false by lia.
    assert (entry_at all n r) as Hent by (split; [done|unfold in_use; simpl; by rewrite Hu]).
    rewrite (task_entry_ok t all count n r Ht Hta Hent). cbn [negb].
    assert (existsb (task_conflict r) tasks = false) as ->.
    { apply not_true_is_false. intros (x & Hx & Hc)%existsb_exists. unfold task_conflict in Hc.
      apply andb_true_iff in Hc as [Hux Hc]. apply list_elem_of_In, list_elem_of_lookup in Hx as [m Hm].
      rewrite <- Hd', lookup_drop in Hm. assert (entry_at all (S n + m) x) as Hxe by done.
      assert ((n = S n + m)%nat) as Hbad; [|lia]. apply orb_true_iff in Hc as [Hk|Ht'].
      - apply LogicalTaskKeysEqual_spec in Hk. by apply (so_unique _ _ _ _ _ Hs n (S n + m) r x); try apply Hent.
      - rewrite !andb_true_iff in Ht'. destruct Ht' as [[Htid Ha] Ha'].
        apply (ta_tids _ _ _ Hta n (S n + m) r x); try done. lia. }
    rewrite (IH (S n)) by done. f_equal. lia.
Qed.

Lemma resident_ok_validates s : resident_ok s -> ValidateLogicalPtraceResidentState s = true.
Proof.
  intros Hok. unfold ValidateLogicalPtraceResidentState.
  rewrite (re_init s Hok), (dispatch_ok_validates _ _ (re_dispatch s Hok)). cbn [andb].
  pose proof (validate_tasks_ok _ (rs_tasks s) (rs_task_count s) (re_table s Hok) (re_tasks s Hok) _ 0 0 eq_refl) as Hv.
  change (Z.of_nat 0) with 0 in Hv. rewrite drop_0 in Hv. rewrite Hv.
  rewrite (SlotArray.so_count _ _ _ _ _ (ta_slots _ _ _ (re_tasks s Hok))). apply Z.eqb_refl.
Qed.
