(* ===== verification/ResidentCollect.v ===== *)
(** * Collecting the processes without tasks

    The [while (progress)] loop of CollectLogicalPtraceResidentProcesses: each
    pass removes one process record, so the number of records bounds the
    passes, and what is left when no pass makes progress is exactly what must
    stay. *)

From S2P Require Import Prelude SlotArray LogicalPtrace LogicalPtraceOps LogicalPtraceInv LogicalPtracePreserve.
From S2P Require Import LogicalPtraceSafety Dispatcher DispatcherOps DispatcherInv DispatcherReach Resident ResidentInv.
From stdpp Require Import list gmap.
#[local] Open Scope Z_scope.

(** ** One process erased *)

Lemma erase_frame t key :
  let t' := (EraseLogicalProcess t key).2 in
  relations t' = relations t /\ waits t' = waits t /\ fake_traceme t' = fake_traceme t.
Proof. unfold EraseLogicalProcess. repeat case_match; done. Qed.

Lemma process_count_bounds t : table_ok t -> 0 <= process_count t <= 512.
Proof. intros Ht. apply (slots_ok_count _ _ (ok_processes t Ht)). Qed.

Lemma erase_count t key t' : table_ok t -> EraseLogicalProcess t key = (0, t') ->
  process_count t' = process_count t - 1.
Proof.
  intros Ht He. pose proof (EraseLogicalProcess_ok t key Ht) as Hc. rewrite He in Hc. destruct Hc as (Ht' & _).
  pose proof (process_count_bounds t Ht). pose proof (process_count_bounds t' Ht') as Hb. revert Hb.
  unfold EraseLogicalProcess in He. repeat case_match; simplify_eq; try done. cbn.
  intros [_ Hb]. destruct (decide (process_count t = 0)) as [E|]; [rewrite E in Hb; by vm_compute in Hb|].
  rewrite u32_small by lia. lia.
Qed.

(** Why a process stays: one of its tasks is registered, or the table refers
    to it. *)
Definition settled (tasks : list LogicalPtraceResidentTask) (t : LogicalPtraceTable) : Prop :=
  forall k, live_in (process_map t) k -> has_task tasks k = true \/ ProcessReferenced t k = true.

(** What collecting does to the table. *)
Record collected (tasks : list LogicalPtraceResidentTask) (t t' : LogicalPtraceTable) : Prop := {
  co_table : table_ok t';
  co_relations : relations t' = relations t;
  co_waits : waits t' = waits t;
  co_fake : fake_traceme t' = fake_traceme t;
  co_live : forall k, live_in (process_map t') k -> live_in (process_map t) k;
  co_kept : forall k, live_in (process_map t) k -> has_task tasks k = true -> live_in (process_map t') k }.

Lemma collected_refl tasks t : table_ok t -> collected tasks t t.
Proof. by split. Qed.

Lemma collected_trans tasks t1 t2 t3 : collected tasks t1 t2 -> collected tasks t2 t3 -> collected tasks t1 t3.
Proof. intros [] []. split; try congruence; auto. Qed.

Lemma collected_erase tasks t key t' : table_ok t -> has_task tasks key = false ->
  EraseLogicalProcess t key = (0, t') -> collected tasks t t'.
Proof.
  intros Ht Hk He. pose proof (EraseLogicalProcess_ok t key Ht) as Hc. pose proof (erase_frame t key) as Hf.
  rewrite He in Hc, Hf. destruct Hc as (Ht' & _ & Hm). destruct (Hm eq_refl) as [Hm' _].
  destruct Hf as (? & ? & ?). split; try done; intros k; unfold live_in; rewrite Hm'.
  - intros [x Hx]. apply lookup_delete_Some in Hx as [_ Hx]. by exists x.
  - intros Hl Hh. rewrite lookup_delete_ne; [done|]. intros ->. congruence.
Qed.

(** ** One pass *)

Lemma collect_pass_spec tasks slots t :
  match collect_pass tasks slots t with
  | Some t' => exists key, has_task tasks key = false /\ EraseLogicalProcess t key = (0, t')
  | None => forall slot i, slot ∈ slots -> LogicalProcessAt t slot = Some i ->
      let key := lp_key (processes t !!! Z.to_nat i) in
      has_task tasks key = true \/ (EraseLogicalProcess t key).1 <> 0
  end.
Proof.
  induction slots as [|slot slots IH]; simpl; [by intros slot i Hs; inversion Hs|].
  destruct (LogicalProcessAt t slot) as [i|] eqn:Hat.
  - destruct (has_task tasks (lp_key (processes t !!! Z.to_nat i))) eqn:Hh.
    + destruct (collect_pass tasks slots t); [done|].
      intros s j [->|Hs]%elem_of_cons Hj; [left; congruence|by apply (IH s)].
    + destruct (EraseLogicalProcess t _) as [error t'] eqn:He. destruct (error =? 0) eqn:H0.
      * eexists. split; [exact Hh|]. rewrite He. f_equal. lia.
      * destruct (collect_pass tasks slots t); [done|].
        intros s j [->|Hs]%elem_of_cons Hj; [|by apply (IH s)].
        assert (j = i) as -> by congruence. right. rewrite He. simpl. lia.
  - destruct (collect_pass tasks slots t); [done|].
    intros s j [->|Hs]%elem_of_cons Hj; [congruence|by apply (IH s)].
Qed.

(** No progress means that the processes left must stay. *)
Lemma collect_pass_settled tasks t : table_ok t ->
  collect_pass tasks (seqZ 0 kLogicalPtraceProcessCapacity) t = None -> settled tasks t.
Proof.
  intros Ht Hp. pose proof (collect_pass_spec tasks (seqZ 0 kLogicalPtraceProcessCapacity) t) as Hs.
  rewrite Hp in Hs. intros k [p Hk]. apply (to_map_lookup _ _ _ _ (ok_processes t Ht)) in Hk as (i & Hi & Hk).
  simpl in Hk. destruct (entry_at_ok _ _ _ _ (ok_processes t Ht) Hi) as (Hok & _ & _ & Hl).
  apply process_ok_key in Hok as Hkey. simpl in Hkey.
  destruct Hi as [Hi Hu]. unfold in_use in Hu. simpl in Hu.
  specialize (Hs (Z.of_nat i) (Z.of_nat i)). cbv zeta in Hs. rewrite Nat2Z.id in Hs.
  rewrite (list_lookup_total_correct _ _ _ Hi), Hk in Hs. destruct Hs as [Hs|Hs]; [| |by left|].
  - apply elem_of_seqZ. unfold kLogicalPtraceProcessCapacity. lia.
  - unfold LogicalProcessAt. rewrite (ok_init t Ht), Nat2Z.id, (list_lookup_total_correct _ _ _ Hi).
    apply negb_true_iff in Hu. rewrite Hu. replace (kLogicalPtraceProcessCapacity <=? Z.of_nat i) with false; [done|].
    unfold kLogicalPtraceProcessCapacity. lia.
  - right. unfold EraseLogicalProcess in Hs. rewrite (ok_init t Ht), <- Hk, Hkey in Hs. cbn [negb orb] in Hs.
    rewrite <- Hk. find_process t (lp_key p) Ht.
    + by destruct (ProcessReferenced t (lp_key p)).
    + rewrite (proj2 (to_map_lookup _ _ _ p (ok_processes t Ht))) in Hf; [done|].
      exists i. split; [split; [done|by unfold in_use; simpl; rewrite Hu]|done].
Qed.

(** ** The loop *)

Lemma collect_loop_spec tasks fuel t n : table_ok t -> process_count t < Z.of_nat fuel ->
  0 <= n -> n + process_count t < 2 ^ 32 ->
  exists t', collect_loop fuel tasks t n = Some (n + (process_count t - process_count t'), t') /\
    collected tasks t t' /\ settled tasks t' /\ process_count t' <= process_count t.
Proof.
  revert t n. induction fuel as [|fuel IH]; intros t n Ht Hf Hn Hw; [pose proof (process_count_bounds t Ht); lia|].
  cbn [collect_loop]. destruct (collect_pass _ _ t) as [t1|] eqn:Hp.
  - pose proof (collect_pass_spec tasks (seqZ 0 kLogicalPtraceProcessCapacity) t) as Hs. rewrite Hp in Hs.
    destruct Hs as (key & Hk & He). pose proof (erase_count t key t1 Ht He) as Hc.
    pose proof (collected_erase tasks t key t1 Ht Hk He) as Hco.
    pose proof (process_count_bounds t1 (co_table _ _ _ Hco)).
    rewrite (u32_small (n + 1)) by lia.
    destruct (IH t1 (n + 1)) as (t' & -> & Hco' & Hst & Hle); [apply Hco|lia..|].
    exists t'. split; [do 2 f_equal; lia|]. split; [by eapply collected_trans|]. split; [done|lia].
  - exists t. split; [do 2 f_equal; lia|]. split; [by apply collected_refl|].
    split; [by apply collect_pass_settled|lia].
Qed.

Section Collect.
Context (s : LogicalPtraceResidentState).

(** The call returns, whatever the tasks are. *)
Lemma collect_spec : IsLogicalPtraceResidentStateInitialized s = true -> table_ok (rs_logical s) ->
  exists s', CollectLogicalPtraceResidentProcesses s =
      Some (process_count (rs_logical s) - process_count (rs_logical s'), s') /\
    collected (rs_tasks s) (rs_logical s) (rs_logical s') /\ settled (rs_tasks s) (rs_logical s') /\
    rs_tasks s' = rs_tasks s /\ rs_task_count s' = rs_task_count s /\ rs_dispatcher s' = rs_dispatcher s /\
    rs_magic s' = rs_magic s /\ rs_version s' = rs_version s.
Proof.
  intros Hi Ht. pose proof (process_count_bounds _ Ht).
  destruct (collect_loop_spec (rs_tasks s) collect_fuel (rs_logical s) 0 Ht) as (t' & Hl & Hc & Hs & _);
    [unfold collect_fuel; lia|lia|lia|].
  unfold CollectLogicalPtraceResidentProcesses. rewrite Hi, Hl. cbn [negb].
  rewrite Z.add_0_l. destruct (_ =? 0); cbn [negb];
    [exists (set_table s t')|exists (rbump (set_table s t'))]; by split_and!.
Qed.
End Collect.

(** When nothing is left to collect the call changes nothing. *)
Lemma collect_again s : IsLogicalPtraceResidentStateInitialized s = true -> table_ok (rs_logical s) ->
  settled (rs_tasks s) (rs_logical s) -> CollectLogicalPtraceResidentProcesses s = Some (0, s).
Proof.
  intros Hi Ht Hst. unfold CollectLogicalPtraceResidentProcesses. rewrite Hi. cbn [negb].
  change collect_fuel with (S 512). cbn [collect_loop].
  pose proof (collect_pass_spec (rs_tasks s) (seqZ 0 kLogicalPtraceProcessCapacity) (rs_logical s)) as Hp.
  destruct (collect_pass _ _ _) as [t'|]; [|by destruct s]. destruct Hp as (key & Hh & He). exfalso.
  pose proof (EraseLogicalProcess_ok (rs_logical s) key Ht) as Hc. rewrite He in Hc. destruct Hc as (_ & _ & Hd).
  unfold EraseLogicalProcess in He. rewrite (ok_init _ Ht) in He. cbn [negb orb] in He.
  destruct (ProcessKeyValid key); [|done]. cbn [negb] in He. find_process (rs_logical s) key Ht; [|done].
  destruct Hf as (p & _ & _ & Hm & _). destruct (Hst key) as [Hh'|Href]; [by exists p|congruence|].
  by rewrite Href in He.
Qed.
