(* ===== verification/ResidentSteps.v ===== *)
(** * The invariant survives: tables, registration, exit, collection

    The lemmas that carry [ResidentInv.resident_ok] over a call of the
    dispatcher, over the registration and the exit of a task, and over the
    collection of processes. *)

From S2P Require Import Prelude SlotArray LogicalPtrace LogicalPtraceOps LogicalPtraceInv LogicalPtracePreserve.
From S2P Require Import Dispatcher DispatcherOps DispatcherInv DispatcherSteps DispatcherSafety DispatcherReach.
From S2P Require Import DispatcherFrame Resident ResidentInv ResidentCollect.
From stdpp Require Import list gmap.
#[local] Open Scope Z_scope.

(** ** Tasks *)

Lemma tasks_live (live live' : LogicalProcessKey -> Prop) tasks count :
  (forall i r, entry_at tasks i r -> live (LogicalProcessKeyForTask (rt_key r)) ->
     live' (LogicalProcessKeyForTask (rt_key r))) ->
  tasks_ok live tasks count -> tasks_ok live' tasks count.
Proof.
  intros Hl [Hs Ht Hp]. split; [|done|done]. eapply slots_ok_mono; [|exact Hs].
  intros i r Hi (? & ? & ? & ? & ?). split_and!; try done. by apply (Hl i).
Qed.

Lemma task_at live tasks count i r : tasks_ok live tasks count -> entry_at tasks i r ->
  task_map tasks !! rt_key r = Some r /\ task_ok live r /\ rt_slot r = Z.of_nat i /\ (i < 512)%nat.
Proof.
  intros Hta Hi. split; [apply (to_map_lookup _ _ _ _ (ta_slots _ _ _ Hta)); by exists i|].
  destruct (entry_at_ok _ _ _ _ (ta_slots _ _ _ Hta) Hi) as (? & _ & ? & ?). by split_and!.
Qed.

Lemma task_key_lookup live tasks count k r : tasks_ok live tasks count -> task_map tasks !! k = Some r ->
  exists i, entry_at tasks i r /\ rt_key r = k.
Proof. intros Hta Hk. by apply (to_map_lookup _ _ _ _ (ta_slots _ _ _ Hta)) in Hk. Qed.

(** ** Tables *)

(** The tables replaced: the processes of the tasks are still there, and the
    operations belong to tasks. *)
Lemma resident_tables s d t : resident_ok s -> dispatch_ok d t ->
  (forall i r, entry_at (rs_tasks s) i r -> live_in (process_map (rs_logical s)) (LogicalProcessKeyForTask (rt_key r)) ->
     live_in (process_map t) (LogicalProcessKeyForTask (rt_key r))) ->
  (forall k, is_Some (operation_map d !! k) -> is_Some (task_map (rs_tasks s) !! k)) ->
  resident_ok (set_operations_of (set_table s t) d).
Proof. intros [Hm Hv Hd Hta Hc] Hd' Hl Ho. split; try done. by eapply tasks_live. Qed.

Lemma resident_env {W} s (e : Env W) : resident_ok s -> env_ok e ->
  processes (logical e) = processes (rs_logical s) ->
  (forall k, is_Some (operation_map (dispatcher e) !! k) -> is_Some (task_map (rs_tasks s) !! k)) ->
  resident_ok (take_tables s e).
Proof. intros Hok He Hp Ho. apply resident_tables; try done. intros i r _. by rewrite Hp. Qed.

(** Only the logical table replaced. *)
Lemma resident_table s t : resident_ok s -> dispatch_ok (rs_dispatcher s) t ->
  (forall k, live_in (process_map (rs_logical s)) k -> live_in (process_map t) k) -> resident_ok (set_table s t).
Proof.
  intros Hok Hd Hl. apply (resident_tables s (rs_dispatcher s) t); [done|done|auto|apply (re_callers s Hok)].
Qed.

(** The index replaced. *)
Lemma resident_tasks s count tasks : resident_ok s ->
  tasks_ok (live_in (process_map (rs_logical s))) tasks count ->
  (forall k, is_Some (operation_map (rs_dispatcher s) !! k) -> is_Some (task_map tasks !! k)) ->
  resident_ok (rbump (set_tasks s count tasks)).
Proof. intros [Hm Hv Hd Hta Hc] Hta' Hc'. by split. Qed.

(** ** Registration *)

(** A process record replaced keeps its process. *)
Lemma live_updated t t' i p p' k : table_ok t -> table_ok t' -> entry_at (processes t) i p ->
  processes t' = <[i := p']> (processes t) -> in_use p' = true -> lp_key p' = lp_key p ->
  live_in (process_map t) k -> live_in (process_map t') k.
Proof.
  intros Ht Ht' Hi Hp Hu Hk [q Hq]. apply (to_map_lookup _ _ _ _ (ok_processes t Ht)) in Hq as (j & Hj & <-).
  destruct (decide (j = i)) as [->|Hne].
  - exists p'. apply (to_map_lookup _ _ _ _ (ok_processes t' Ht')). exists i. unfold entry_at. rewrite Hp.
    rewrite list_lookup_insert_eq by (by eapply lookup_lt_Some, Hi). split; [done|].
    assert (q = p) as -> by (destruct Hi, Hj; congruence). done.
  - exists q. apply (to_map_lookup _ _ _ _ (ok_processes t' Ht')). exists j. unfold entry_at. rewrite Hp.
    by rewrite list_lookup_insert_ne by done.
Qed.

Lemma parent_set_live t key parent : table_ok t -> let t' := (SetLogicalProcessParent t key parent).2 in
  table_ok t' /\ relations t' = relations t /\ waits t' = waits t /\
  forall k, live_in (process_map t) k -> live_in (process_map t') k.
Proof.
  intros Ht. assert (table_ok (SetLogicalProcessParent t key parent).2) as Hok.
  { pose proof (SetLogicalProcessParent_ok t key parent Ht) as Hc. destruct (SetLogicalProcessParent _ _ _). apply Hc. }
  revert Hok. unfold SetLogicalProcessParent. rewrite (ok_init t Ht). destruct (ProcessKeyValid key) eqn:Hk; [|done].
  cbn [negb orb]. find_process t key Ht; [|done]. destruct Hf as (p & Hi & _).
  rewrite (list_lookup_total_correct _ _ _ (proj1 Hi)).
  assert (forall p', in_use p' = true -> lp_key p' = lp_key p -> table_ok (update_process t n p') ->
    forall k, live_in (process_map t) k -> live_in (process_map (update_process t n p')) k) as Hlive.
  { intros p' Hu Hpk Hok' k. by apply (live_updated t _ n p p'). }
  repeat case_match; try done; cbv zeta; cbn [snd]; intros Hok; split_and!; try done;
    apply Hlive; try done; exact (proj2 Hi).
Qed.

Lemma register_process_ok d t key parent group dumpable ptracer : dispatch_ok d t ->
  let '(error, t') := register_process key parent group dumpable ptracer t in
  dispatch_ok d t' /\ (error <> 0 -> t' = t) /\ (error = 0 -> live_in (process_map t') key) /\
  forall k, live_in (process_map t) k -> live_in (process_map t') k.
Proof.
  intros Hd. pose proof (ck_table _ _ (proj1 Hd)) as Ht. unfold register_process. find_process t key Ht.
  - destruct Hf as (p & _ & _ & Hm & _). assert (live_in (process_map t) key) as Hlive by by exists p.
    destruct parent as [q|]; [|done]. destruct (negb _); [|done].
    pose proof (parent_set_live t key (Some q) Ht) as Hp. pose proof (SetLogicalProcessParent_ok t key (Some q) Ht) as Hc.
    destruct (SetLogicalProcessParent t key (Some q)) as [error t']. cbn [snd] in Hp. cbv zeta in Hp.
    destruct Hp as (Ht' & Hr & Hw & Hl), Hc as (_ & Hfail & _). split_and!; auto. split; [|intros k; rewrite Hw; apply Hd].
    apply (core_processes d t); [apply Hd|done..|]. intros i o _. apply Hl.
  - pose proof (process_inserted d t key parent group dumpable ptracer Hd) as Hi.
    pose proof (InsertLogicalProcess_ok t key parent group dumpable ptracer Ht) as Hc.
    destruct (InsertLogicalProcess _ _ _ _ _ _) as [[error t'] slot]. cbn [fst snd] in Hi.
    destruct Hc as (_ & Hfail & Hdone). split; [done|]. split; [done|]. split.
    + intros H0. destruct (Hdone H0) as (_ & p & _ & Hm & _). unfold live_in. rewrite Hm, lookup_insert_eq. by eexists.
    + destruct (decide (error = 0)) as [H0|H0]; [|by rewrite (Hfail H0)].
      destruct (Hdone H0) as (_ & p & _ & Hm & _). intros k Hk. unfold live_in. rewrite Hm. by apply live_insert.
Qed.

Lemma set_table_same s : set_table s (rs_logical s) = s.
Proof. by destruct s. Qed.

(** A new task in a free slot. *)
Lemma task_added s slot r : resident_ok s -> 0 <= slot < 512 -> in_use (rs_tasks s !!! Z.to_nat slot) = false ->
  rt_slot r = slot -> rt_occupied r = 1 -> task_ok (live_in (process_map (rs_logical s))) r ->
  task_map (rs_tasks s) !! rt_key r = None ->
  (forall i r', entry_at (rs_tasks s) i r' -> is_active r' = true -> tk_tid (rt_key r') <> tk_tid (rt_key r)) ->
  (parent_valid r = true -> is_Some (task_map (rs_tasks s) !! rt_parent r)) ->
  let s' := rbump (set_tasks s (u32 (rs_task_count s + 1)) (<[Z.to_nat slot := r]> (rs_tasks s))) in
  resident_ok s' /\ task_map (rs_tasks s') = <[rt_key r := r]> (task_map (rs_tasks s)).
Proof.
  intros Hok Hslot Hfree Hsl Hocc Hr Hnew Htid Hpar s'. pose proof (re_tasks s Hok) as Hta.
  pose proof (ta_slots _ _ _ Hta) as Hs.
  assert (exists r0, rs_tasks s !! Z.to_nat slot = Some r0 /\ in_use r0 = false) as (r0 & Hr0 & Hu0).
  { exists (rs_tasks s !!! Z.to_nat slot). split; [|done]. apply list_lookup_lookup_total_lt.
    rewrite (so_length _ _ _ _ _ Hs). lia. }
  assert (slots_ok 512 (fun r => vacant_task r = true) (task_ok (live_in (process_map (rs_logical s))))
    (<[Z.to_nat slot := r]> (rs_tasks s)) (rs_task_count s + 1)) as Hs'.
  { eapply (slots_ok_fill _ _ _ _ _ _ Hs Hr0 Hu0); try done; [simpl; lia|].
    intros j q Hj. by apply (proj1 (to_map_None _ _ _ Hs) Hnew j q). }
  pose proof (to_map_store _ _ _ _ _ _ Hs Hs' Hr0) as Hm. simpl in Hm.
  assert (task_map (<[Z.to_nat slot := r]> (rs_tasks s)) = <[rt_key r := r]> (task_map (rs_tasks s))) as Hmap.
  { apply Hm; [unfold in_use; simpl; by rewrite Hocc|congruence]. }
  split; [|done]. pose proof (slots_ok_count _ _ Hs). pose proof (slots_ok_count _ _ Hs').
  unfold s'. rewrite u32_small by lia. apply resident_tasks; [done| |].
  - pose proof (fun j x => proj1 (entry_at_set _ _ _ r Hr0 j x)) as Hset. split; [done| |].
    + intros i j x y [(-> & -> & _)|[? Hi]]%Hset [(-> & -> & _)|[? Hj]]%Hset Ha Ha' Ht; [done| | |].
      * symmetry in Ht. by apply (Htid j y Hj) in Ht.
      * by apply (Htid i x Hi) in Ht.
      * by eapply (ta_tids _ _ _ Hta).
    + intros i x [(-> & -> & _)|[? Hi]]%Hset Hp; rewrite Hmap; apply lookup_insert_is_Some'; right; [by apply Hpar|].
      by eapply (ta_parents _ _ _ Hta).
  - intros k Hk. rewrite Hmap. apply lookup_insert_is_Some'. right. by apply (re_callers s Hok).
Qed.

Definition parent_registered (s : LogicalPtraceResidentState) (parent : option LogicalTaskKey) : Prop :=
  forall p, parent = Some p -> is_Some (task_map (rs_tasks s) !! p).

Lemma RegisterLogicalPtraceResidentTask_ok s slot key parent group dumpable ptracer : resident_ok s ->
  0 <= slot -> parent_registered s parent ->
  let '(error, s') := RegisterLogicalPtraceResidentTask s slot key parent group dumpable ptracer in
  resident_ok s' /\ (error <> 0 -> s' = s) /\
  (error = 0 -> exists r, task_map (rs_tasks s') !! key = Some r /\ rt_slot r = slot /\ is_active r = true).
Proof.
  intros Hok Hslot Hpar. unfold RegisterLogicalPtraceResidentTask. destruct (_ || _) eqn:Hbad; [done|].
  repeat match goal with H : (_ || _) = false |- _ => apply orb_false_iff in H as [H ?] end.
  cbv zeta. set (entry := rs_tasks s !!! Z.to_nat slot).
  destruct (negb (rt_occupied entry =? 0)) eqn:Hocc.
  { split; [done|]. destruct (LogicalTaskKeysEqual (rt_key entry) key && is_active entry) eqn:Hsame; [|done].
    split; [done|]. intros _. apply andb_true_iff in Hsame as [Hsame Ha]. apply LogicalTaskKeysEqual_spec in Hsame.
    assert (rs_tasks s !! Z.to_nat slot = Some entry) as Hent.
    { apply list_lookup_lookup_total_lt. rewrite (so_length _ _ _ _ _ (ta_slots _ _ _ (re_tasks s Hok))).
      unfold kLogicalPtraceResidentCapacity in *. lia. }
    destruct (task_at _ _ _ _ _ (re_tasks s Hok) (conj Hent Hocc)) as (Hm & _ & Hsl & _).
    exists entry. rewrite <- Hsame. split; [done|]. split; [lia|done]. }
  pose proof (find_task_spec s Hok key) as Hf. destruct (FindLogicalPtraceResidentTask s key); [done|].
  pose proof (find_tid_spec s Hok (tk_tid key)) as Htid. destruct (FindLogicalPtraceResidentTid s (tk_tid key)); [done|].
  set (parent_process := match parent with Some _ => _ | None => _ end).
  destruct (match parent_process with Some _ => _ | None => false end); [done|]. unfold on_table.
  pose proof (register_process_ok (rs_dispatcher s) (rs_logical s) (LogicalProcessKeyForTask key) parent_process group
    dumpable ptracer (re_dispatch s Hok)) as Hp.
  destruct (register_process _ _ _ _ _ _) as [error t]. destruct Hp as (Hd & Hfail & Hlive & Hmono).
  destruct (negb (error =? 0)) eqn:Herr; [rewrite Hfail, set_table_same by lia; split_and!; [done|done|lia]|].
  specialize (Hlive ltac:(lia)). pose proof (resident_table s t Hok Hd Hmono) as Hok1.
  set (r := Build_LogicalPtraceResidentTask _ _ _ _ _ _).
  assert (TaskKeyValid key = true) as Hkey by by apply negb_false_iff.
  destruct (task_added (set_table s t) slot r) as [Hok' Hm]; try done.
  - unfold kLogicalPtraceResidentCapacity in *. lia.
  - unfold r. split_and!; try done; cbn [rt_flags rt_key]; [by destruct parent; [right; right; left|left]|].
    destruct parent as [p|]; cbn; [|done]. intros ->. destruct (Hpar key eq_refl). congruence.
  - apply Htid. unfold TaskKeyValid in Hkey. bool_hyps. lia.
  - destruct parent as [p|]; [|done]. intros _. by apply Hpar.
  - split; [done|]. split; [done|]. intros _. exists r. split; [|split; [done|by destruct parent]].
    etransitivity; [exact (f_equal (lookup key) Hm)|apply lookup_insert_eq].
Qed.

(** ** Exit *)

Lemma exited_life flags : life_ok flags ->
  let flags' := Z.land flags (not32 kLogicalPtraceResidentTaskActive) ||| kLogicalPtraceResidentTaskExited in
  life_ok flags' /\ has flags' kLogicalPtraceResidentTaskActive = false /\
  has flags' kLogicalPtraceResidentTaskParentValid = has flags kLogicalPtraceResidentTaskParentValid.
Proof.
  intros [-> | [-> | [-> | ->]]]; (split; [|done]); [right; left|right; left|do 3 right|do 3 right]; done.
Qed.

Lemma MarkLogicalPtraceResidentTaskExited_ok s key : resident_ok s ->
  let '(error, s') := MarkLogicalPtraceResidentTaskExited s key in
  resident_ok s' /\ (error <> 0 -> s' = s /\ task_map (rs_tasks s) !! key = None) /\
  (error = 0 -> exists r, task_map (rs_tasks s') = <[key := r]> (task_map (rs_tasks s)) /\ is_active r = false).
Proof.
  intros Hok. unfold MarkLogicalPtraceResidentTaskExited. pose proof (find_task_spec s Hok key) as Hf.
  destruct (FindLogicalPtraceResidentTask s key) as [i|]; [|by split_and!].
  destruct Hf as (r & Hi & <- & Hm & (Hres & Hk & Hlife & Hlive & Hp) & Hsl & _).
  rewrite (list_lookup_total_correct _ _ _ (proj1 Hi)).
  set (r' := with_life r _). destruct (exited_life _ Hlife) as (Hlife' & Hact & Hpv).
  pose proof (re_tasks s Hok) as Hta. pose proof (ta_slots _ _ _ Hta) as Hs.
  assert (parent_valid r' = parent_valid r) as Hpv' by done.
  assert (is_active r' = false) as Hact' by done.
  assert (slots_ok 512 (fun r => vacant_task r = true) (task_ok (live_in (process_map (rs_logical s))))
    (<[i := r']> (rs_tasks s)) (rs_task_count s)) as Hs'.
  { apply (slots_ok_update _ _ _ _ r r' Hs Hi); try done. unfold task_ok. rewrite Hpv'. by split_and!. }
  pose proof (to_map_store _ _ _ _ _ _ Hs Hs' (proj1 Hi) (proj2 Hi) ltac:(done)) as Hmap. cbn in Hmap.
  pose proof (fun j x => proj1 (entry_at_set _ _ _ r' (proj1 Hi) j x)) as Hset.
  split; [|split; [done|]; intros _; by exists r']. apply resident_tasks; [done| |].
  - split; [done| |].
    + intros j1 j2 x y [(-> & -> & _)|[? Hj1]]%Hset [(-> & -> & _)|[? Hj2]]%Hset Ha Ha' Ht; [done|congruence..|].
      by eapply (ta_tids _ _ _ Hta).
    + intros j x Hj Hpx. rewrite Hmap. apply lookup_insert_is_Some'. right.
      apply Hset in Hj as [(-> & -> & _)|[? Hj]]; [|by apply (ta_parents _ _ _ Hta j x)].
      rewrite Hpv' in Hpx. by apply (ta_parents _ _ _ Hta i r).
  - intros k Hk'. rewrite Hmap. apply lookup_insert_is_Some'. right. by apply (re_callers s Hok).
Qed.

(** ** Collection *)

Lemma has_task_entry tasks i r : entry_at tasks i r -> has_task tasks (LogicalProcessKeyForTask (rt_key r)) = true.
Proof.
  intros [Hi Hu]. apply existsb_exists. exists r. split; [by eapply list_elem_of_In, list_elem_of_lookup_2|].
  cbn. by rewrite Hu, !Z.eqb_refl.
Qed.

Lemma collected_ok s t : resident_ok s -> collected (rs_tasks s) (rs_logical s) t -> resident_ok (set_table s t).
Proof.
  intros Hok Hc. pose proof (re_dispatch s Hok) as [Hcore Hheld].
  apply (resident_tables s (rs_dispatcher s) t); [done| | |apply (re_callers s Hok)].
  - split; [|intros k; rewrite (co_waits _ _ _ Hc); apply Hheld].
    apply (core_processes _ (rs_logical s)); [done|apply Hc|apply Hc|]. intros i o Hi Hl.
    apply (co_kept _ _ _ Hc); [done|]. destruct (operation_at _ _ Hcore i o Hi) as (_ & _ & _ & Hm).
    destruct (re_callers s Hok (do_caller o)) as [r Hr]; [by exists o|].
    destruct (task_key_lookup _ _ _ _ _ (re_tasks s Hok) Hr) as (j & Hj & <-). by eapply has_task_entry.
  - intros i r Hi Hl. apply (co_kept _ _ _ Hc); [done|]. by eapply has_task_entry.
Qed.

Lemma resident_rbump s : resident_ok s -> resident_ok (rbump s).
Proof. intros [Hm Hv Hd Hta Hc]. by split. Qed.

Lemma CollectLogicalPtraceResidentProcesses_ok s : resident_ok s ->
  exists s', CollectLogicalPtraceResidentProcesses s =
      Some (process_count (rs_logical s) - process_count (rs_logical s'), s') /\
    resident_ok s' /\ collected (rs_tasks s) (rs_logical s) (rs_logical s') /\
    settled (rs_tasks s) (rs_logical s') /\ rs_tasks s' = rs_tasks s /\ rs_dispatcher s' = rs_dispatcher s.
Proof.
  intros Hok. destruct (collect_spec s (re_init s Hok) (re_table s Hok)) as (s' & Hs & Hc & Hst & Ht & Hn & Hd & Hm & Hv).
  exists s'. split_and!; try done. pose proof (collected_ok s _ Hok Hc) as [? ? Hdis Hta Hcal].
  cbn in Hdis, Hta, Hcal. split; rewrite ?Hm, ?Hv, ?Hd, ?Ht, ?Hn; done.
Qed.
