(* ===== verification/ResidentRetire.v ===== *)
(** * Tasks that leave, and tasks that change their identity

    Clearing stale stop records, rewriting parent links, and retiring a task,
    over the invariant of [ResidentInv]; and renaming one: the new name is
    free, the links of its children follow, and the dispatcher's records as
    well. *)

From S2P Require Import Prelude SlotArray LogicalPtrace LogicalPtraceOps LogicalPtraceInv LogicalPtracePreserve.
From S2P Require Import Dispatcher DispatcherOps DispatcherInv DispatcherSteps DispatcherSafety DispatcherCalls DispatcherRekey.
From S2P Require Import DispatcherReach DispatcherFrame Resident ResidentInv ResidentCollect ResidentSteps.
From stdpp Require Import list gmap.
#[local] Open Scope Z_scope.

(** ** Stale stop records *)

Section Stale.
Context (t : LogicalPtraceTable) (key : LogicalTaskKey).

Definition refreshed (j : nat) (stop : LogicalPtraceDispatchStop) : LogicalPtraceDispatchStop :=
  if stop_is_stale t key (Z.of_nat j) stop then ClearStop (Z.of_nat j) else stop.

Lemma clear_stale_same d j : same_operations d (clear_stale_stop t key d j).
Proof. unfold clear_stale_stop. by destruct (stop_is_stale _ _ _ _). Qed.

Lemma clear_stale_stops d j k : ld_stops (clear_stale_stop t key d j) !! k =
  (if decide (k = j) then refreshed j else id) <$> ld_stops d !! k.
Proof.
  unfold clear_stale_stop. destruct (decide (k = j)) as [->|Hne].
  - destruct (ld_stops d !! j) as [stop|] eqn:Hj.
    + rewrite (list_lookup_total_correct _ _ _ Hj). cbn. unfold refreshed.
      destruct (stop_is_stale _ _ _ _); [|done]. cbn. by apply list_lookup_insert_eq, (lookup_lt_Some _ _ stop).
    + destruct (stop_is_stale _ _ _ _); [|done]. cbn. rewrite list_insert_ge; [done|]. by apply lookup_ge_None.
  - rewrite option_fmap_id. destruct (stop_is_stale _ _ _ _); [|done]. cbn. by apply list_lookup_insert_ne.
Qed.

Lemma refreshed_twice j stop : refreshed j (refreshed j stop) = refreshed j stop.
Proof.
  unfold refreshed. destruct (stop_is_stale t key (Z.of_nat j) stop) eqn:E; [|by rewrite E].
  unfold stop_is_stale at 1. by cbn.
Qed.

Lemma clear_all_stops slots d : same_operations d (foldl (clear_stale_stop t key) d slots) /\
  length (ld_stops (foldl (clear_stale_stop t key) d slots)) = length (ld_stops d) /\
  forall k, ld_stops (foldl (clear_stale_stop t key) d slots) !! k =
    (if decide (k ∈ slots) then refreshed k else id) <$> ld_stops d !! k.
Proof.
  revert d. induction slots as [|j slots IH]; intros d; cbn [foldl].
  { split; [done|]. split; [done|]. intros k. rewrite decide_False by by apply not_elem_of_nil.
    by rewrite option_fmap_id. }
  destruct (IH (clear_stale_stop t key d j)) as (Hs & Hl & Hk). split; [|split].
  - etrans; [apply clear_stale_same|done].
  - rewrite Hl. unfold clear_stale_stop. destruct (stop_is_stale _ _ _ _); [|done]. apply length_insert.
  - intros k. rewrite Hk, clear_stale_stops. destruct (ld_stops d !! k) as [stop|]; [|by repeat case_decide]. cbn.
    f_equal. destruct (decide (k = j)) as [->|Hne].
    + rewrite (decide_True (P := j ∈ j :: slots)) by by left. case_decide; [apply refreshed_twice|done].
    + destruct (decide (k ∈ slots)) as [Hin|Hnin].
      * by rewrite decide_True by by right.
      * rewrite decide_False; [done|]. by intros [|]%elem_of_cons.
Qed.
End Stale.

(** The records that describe no relation of the new table are those of the
    task: clearing them is enough. *)
Lemma stale_cleared d t t' key slots : core_ok d t -> table_ok t' -> processes t' = processes t ->
  (forall j r', relations t' !! j = Some r' -> relations t !! j = Some r' \/
     (in_use r' = false /\ lr_event_count r' <= 1 /\
      forall stop, ld_stops d !! j = Some stop -> unattached stop \/ ds_tracee stop = key)) ->
  (forall j : nat, (j < 512)%nat -> j ∈ slots) ->
  core_ok (foldl (clear_stale_stop t' key) d slots) t'.
Proof.
  intros Hok Ht Hp Hr Hslots. destruct (clear_all_stops t' key slots d) as (Hs & Hl & Hk).
  apply (core_step d t); try done. intros j r stop Hj. rewrite Hk.
  assert (j < 512)%nat as Hlt.
  { rewrite <- (ty_relations t' (ok_typed t' Ht)). by eapply lookup_lt_Some. }
  rewrite decide_True by by apply Hslots. intros (stop0 & Hst0 & ->)%fmap_Some. unfold refreshed.
  destruct (lookup_lt_is_Some_2 (relations t) j) as [r0 Hr0].
  { by rewrite (ty_relations t (ok_typed t (ck_table _ _ Hok))). }
  pose proof (ck_stops _ _ Hok j r0 stop0 Hr0 Hst0) as Hstop.
  destruct (stop_is_stale t' key (Z.of_nat j) stop0) eqn:Hstale.
  - split; [apply clear_stop_ok|]. destruct (Hr j r Hj) as [Hj'|(_ & ? & _)]; [by apply (ck_single _ _ Hok j)|done].
  - destruct (Hr j r Hj) as [Hj'|(Hu & ? & Hun)].
    + split; [by apply (ck_stops _ _ Hok)|by apply (ck_single _ _ Hok j)].
    + split; [|done]. destruct (Hun stop0 Hst0) as [Hun'|Htr].
      * destruct Hstop as [H1 H2 H3 _]. split; try done. by left.
      * destruct Hstop as [H1 H2 H3 [Hun'|[Hg _]]]; [split; try done; by left|]. exfalso.
        unfold stop_is_stale in Hstale. rewrite Htr, (proj2 (LogicalTaskKeysEqual_spec key key) eq_refl) in Hstale.
        rewrite (proj2 (Z.eqb_neq _ _) Hg) in Hstale. cbn [negb andb] in Hstale.
        unfold LogicalPtraceRelationAt in Hstale. rewrite Nat2Z.id, (list_lookup_total_correct _ _ _ Hj) in Hstale.
        unfold in_use in Hu. simpl in Hu. apply negb_false_iff in Hu. rewrite Hu, orb_true_r in Hstale. done.
Qed.

Lemma all_slots (j : nat) : (j < 512)%nat -> j ∈ seq 0 (Z.to_nat kLogicalPtraceDispatchCapacity).
Proof. intros Hj. apply elem_of_seq. unfold kLogicalPtraceDispatchCapacity. lia. Qed.

(** ClearStaleStop keeps the invariant. *)
Lemma ClearStaleStop_ok s key : dispatch_ok (rs_dispatcher s) (rs_logical s) ->
  let s' := ClearStaleStop s key in
  dispatch_ok (rs_dispatcher s') (rs_logical s') /\ same_operations (rs_dispatcher s) (rs_dispatcher s').
Proof.
  intros [Hcore Hheld]. cbv zeta. unfold ClearStaleStop. cbn [rs_dispatcher rs_logical set_operations_of].
  pose proof (clear_all_stops (rs_logical s) key (seq 0 (Z.to_nat kLogicalPtraceDispatchCapacity)) (rs_dispatcher s))
    as (Hs & _). split; [|done]. split.
  - apply (stale_cleared _ (rs_logical s)); try done; [apply Hcore|by left|apply all_slots].
  - intros k. rewrite Hheld. symmetry. by apply same_operations_held.
Qed.

(** ** Parent links rewritten *)

(** A rewriting of the tasks that keeps what identifies them. *)
Record relinks (f : LogicalPtraceResidentTask -> LogicalPtraceResidentTask) : Prop := {
  rl_slot : forall r, rt_slot (f r) = rt_slot r;
  rl_occupied : forall r, rt_occupied (f r) = rt_occupied r;
  rl_key : forall r, rt_key (f r) = rt_key r;
  rl_free : forall r, in_use r = false -> f r = r;
  rl_active : forall r, in_use r = true -> life_ok (rt_flags r) -> is_active (f r) = is_active r }.

(** The part of the invariant without the parent links. *)
Definition task_named (live : LogicalProcessKey -> Prop) (r : LogicalPtraceResidentTask) : Prop :=
  rt_reserved r = 0 /\ TaskKeyValid (rt_key r) = true /\ life_ok (rt_flags r) /\
  live (LogicalProcessKeyForTask (rt_key r)) /\ (parent_valid r = false -> rt_parent r = zero_task_key).

Lemma task_ok_named live r : task_ok live r -> task_named live r.
Proof. intros (? & ? & ? & ? & Hp). split_and!; try done. intros E. by rewrite E in Hp. Qed.

Lemma task_named_key live r : task_named live r -> @sr_key_ok _ _ resident_slots (@sr_key _ _ resident_slots r) = true.
Proof. by intros (_ & ? & _). Qed.

Definition distinct_tids (tasks : list LogicalPtraceResidentTask) : Prop :=
  forall i j r r', entry_at tasks i r -> entry_at tasks j r' ->
    is_active r = true -> is_active r' = true -> tk_tid (rt_key r) = tk_tid (rt_key r') -> i = j.

Section Relink.
Context (f : LogicalPtraceResidentTask -> LogicalPtraceResidentTask) (live : LogicalProcessKey -> Prop).
Context (tasks : list LogicalPtraceResidentTask) (count : Z).
Hypothesis Hf : relinks f.
Hypothesis Hs : slots_ok 512 (fun r => vacant_task r = true) (task_named live) tasks count.

Lemma relink_entry i r' : entry_at (f <$> tasks) i r' <-> exists r, entry_at tasks i r /\ r' = f r.
Proof.
  assert (forall r, in_use (f r) = in_use r) as Hu by (intros r; unfold in_use; simpl; by rewrite (rl_occupied f Hf)).
  unfold entry_at. split.
  - intros [(r & -> & Hi)%list_lookup_fmap_Some Hr]. exists r. by rewrite <- Hu.
  - intros (r & [Hi Hr] & ->). split; [by rewrite list_lookup_fmap, Hi|by rewrite Hu].
Qed.

Lemma relink_slots (entry : LogicalPtraceResidentTask -> Prop) :
  (forall i r, entry_at tasks i r -> task_named live r -> entry (f r)) ->
  slots_ok 512 (fun r => vacant_task r = true) entry (f <$> tasks) count.
Proof.
  intros He. apply (slots_ok_fmap _ f tasks count Hs).
  - intros r. split; [apply (rl_slot f Hf)|apply (rl_occupied f Hf)].
  - apply (rl_free f Hf).
  - done.
  - intros i j r r' _ _. simpl. by rewrite !(rl_key f Hf).
Qed.

Lemma relink_tids : distinct_tids tasks -> distinct_tids (f <$> tasks).
Proof.
  intros Hd i j r r' (x & Hx & ->)%relink_entry (y & Hy & ->)%relink_entry.
  destruct (entry_at_ok _ _ _ _ Hs Hx) as ((_ & _ & Hlx & _) & _).
  destruct (entry_at_ok _ _ _ _ Hs Hy) as ((_ & _ & Hly & _) & _).
  rewrite !(rl_key f Hf), !(rl_active f Hf) by (done || apply Hx || apply Hy). by apply Hd.
Qed.

(** The same keys are registered. *)
Lemma relink_domain (entry : LogicalPtraceResidentTask -> Prop) k :
  slots_ok 512 (fun r => vacant_task r = true) entry (f <$> tasks) count ->
  is_Some (task_map (f <$> tasks) !! k) <-> is_Some (task_map tasks !! k).
Proof.
  intros Hs'. split.
  - intros [r (i & (x & Hx & ->)%relink_entry & Hk)%(to_map_lookup _ _ _ _ Hs')].
    exists x. apply (to_map_lookup _ _ _ _ Hs). exists i. split; [done|]. simpl in *. by rewrite (rl_key f Hf) in Hk.
  - intros [r (i & Hi & Hk)%(to_map_lookup _ _ _ _ Hs)]. exists (f r). apply (to_map_lookup _ _ _ _ Hs').
    exists i. split; [apply relink_entry; eauto|]. simpl. by rewrite (rl_key f Hf).
Qed.
End Relink.

Lemma tasks_named live tasks count : tasks_ok live tasks count ->
  slots_ok 512 (fun r => vacant_task r = true) (task_named live) tasks count.
Proof. intros Hta. eapply slots_ok_mono; [|apply Hta]. intros i r _. apply task_ok_named. Qed.

(** ** Retiring *)

Lemma orphaned_life flags : life_ok flags ->
  let flags' := Z.land flags (not32 kLogicalPtraceResidentTaskParentValid) in
  life_ok flags' /\ has flags' kLogicalPtraceResidentTaskParentValid = false /\
  has flags' kLogicalPtraceResidentTaskActive = has flags kLogicalPtraceResidentTaskActive.
Proof.
  intros [-> | [-> | [-> | ->]]]; (split; [|done]); [by left|by right; left|by left|by right; left].
Qed.

Lemma orphan_relinks key : relinks (fun child => if child_of_task key child then drop_parent child else child).
Proof.
  split; intros r; destruct (child_of_task key r) eqn:Hc; try done.
  - intros Hu. unfold child_of_task in Hc. by rewrite Hu in Hc.
  - intros _ Hl. apply (orphaned_life _ Hl).
Qed.

Section Removed.
Context (live : LogicalProcessKey -> Prop) (tasks : list LogicalPtraceResidentTask) (count : Z).
Context (i : nat) (r : LogicalPtraceResidentTask).
Hypothesis Hta : tasks_ok live tasks count.
Hypothesis Hi : entry_at tasks i r.

Let f child := if child_of_task (rt_key r) child then drop_parent child else child.
Let orphans := f <$> tasks.
Let remaining := <[i := ClearTask (rt_slot (orphans !!! i))]> orphans.

Lemma orphan_ok : tasks_ok live orphans count /\
  (forall j x, entry_at orphans j x -> parent_valid x = true -> rt_parent x <> rt_key r) /\
  forall k, is_Some (task_map orphans !! k) <-> is_Some (task_map tasks !! k).
Proof.
  pose proof (tasks_named _ _ _ Hta) as Hn.
  assert (forall x, task_ok live x -> task_ok live (f x)) as Hok.
  { intros x (Hr & Hk & Hl & Hlive & Hp). unfold f. destruct (child_of_task _ x); [|done].
    destruct (orphaned_life _ Hl) as (Hl' & Hpv & _). unfold task_ok, parent_valid. cbn. rewrite Hpv. by split_and!. }
  assert (slots_ok 512 (fun r => vacant_task r = true) (task_ok live) orphans count) as Hs.
  { apply (relink_slots f live tasks count (orphan_relinks _) Hn). intros j x Hj _. apply Hok.
    by apply (entry_at_ok _ _ _ _ (ta_slots _ _ _ Hta) Hj). }
  assert (forall j x, entry_at orphans j x -> parent_valid x = true ->
    rt_parent x <> rt_key r /\ exists y, entry_at tasks j y /\ parent_valid y = true /\ rt_parent y = rt_parent x) as Hpar.
  { intros j x (y & Hy & ->)%(relink_entry f tasks (orphan_relinks _)). unfold f.
    destruct (child_of_task (rt_key r) y) eqn:Hc.
    - destruct (entry_at_ok _ _ _ _ (ta_slots _ _ _ Hta) Hy) as ((_ & _ & Hl & _) & _).
      destruct (orphaned_life _ Hl) as (_ & Hpv & _). unfold parent_valid. cbn. by rewrite Hpv.
    - intros Hpv. split; [|by exists y]. intros E. unfold child_of_task in Hc.
      rewrite (proj2 Hy), Hpv, (proj2 (LogicalTaskKeysEqual_spec _ _) E) in Hc. done. }
  assert (forall k, is_Some (task_map orphans !! k) <-> is_Some (task_map tasks !! k)) as Hdom.
  { intros k. by apply (relink_domain f live tasks count (orphan_relinks _) Hn (task_ok live)). }
  split; [|split; [|done]]; [|intros j x Hj Hpv; by apply (Hpar j x)].
  split; [done| |].
  - exact (relink_tids f live tasks count (orphan_relinks _) Hn (ta_tids _ _ _ Hta)).
  - intros j x Hj Hpv. destruct (Hpar j x Hj Hpv) as (_ & y & Hy & Hpy & <-). apply Hdom.
    by apply (ta_parents _ _ _ Hta j y).
Qed.

Lemma removed_ok : tasks_ok live remaining (count - 1) /\
  task_map remaining = delete (rt_key r) (task_map orphans) /\
  forall j x, entry_at remaining j x -> parent_valid x = true -> rt_parent x <> rt_key r.
Proof.
  destruct orphan_ok as (Ho & Hno & Hdom).
  assert (entry_at orphans i (f r)) as Hfi by (apply (relink_entry f tasks (orphan_relinks _)); by exists r).
  pose proof (task_at _ _ _ _ _ Ho Hfi) as (_ & _ & Hsl & _).
  assert (rt_key (f r) = rt_key r) as Hfk by apply (rl_key _ (orphan_relinks (rt_key r))).
  assert (rt_slot (orphans !!! i) = Z.of_nat i) as Hslot by by rewrite (list_lookup_total_correct _ _ _ (proj1 Hfi)).
  unfold remaining. rewrite Hslot.
  assert (slots_ok 512 (fun r => vacant_task r = true) (task_ok live)
    (<[i := ClearTask (Z.of_nat i)]> orphans) (count - 1)) as Hs.
  { by apply (slots_ok_clear _ _ _ _ _ _ (ta_slots _ _ _ Ho) Hfi). }
  pose proof (to_map_clear _ _ _ _ _ _ (ta_slots _ _ _ Ho) Hs (proj1 Hfi) (proj2 Hfi) eq_refl) as Hm.
  simpl in Hm. rewrite Hfk in Hm.
  pose proof (fun j x => proj1 (entry_at_set _ _ _ (ClearTask (Z.of_nat i)) (proj1 Hfi) j x)) as Hset.
  split; [|split; [done|]].
  - split; [done| |].
    + intros j1 j2 x y [(_ & _ & ?)|[_ H1]]%Hset [(_ & _ & ?)|[_ H2]]%Hset; try done. by apply (ta_tids _ _ _ Ho).
    + intros j x [(_ & _ & ?)|[_ Hj]]%Hset Hpv; [done|]. rewrite Hm.
      rewrite lookup_delete_ne by by apply not_eq_sym, (Hno j x). by apply (ta_parents _ _ _ Ho j x).
  - intros j x [(_ & _ & ?)|[_ Hj]]%Hset; [done|]. by apply (Hno j x).
Qed.
End Removed.

(** *** The steps of retiring *)

Section Steps.
Context (s : LogicalPtraceResidentState).
Hypothesis Hok : resident_ok s.

(** The index of tasks is the same. *)
Definition same_index (s' : LogicalPtraceResidentState) : Prop :=
  rs_tasks s' = rs_tasks s /\ rs_task_count s' = rs_task_count s /\
  rs_magic s' = rs_magic s /\ rs_version s' = rs_version s.

Lemma cancelled_ok key : TaskKeyValid key = true ->
  let s' := (on_tables (CancelLogicalPtraceDispatch key) s).2 in
  resident_ok s' /\ same_index s' /\ relations (rs_logical s') = relations (rs_logical s) /\
  processes (rs_logical s') = processes (rs_logical s) /\
  operation_map (rs_dispatcher s') = delete key (operation_map (rs_dispatcher s)).
Proof.
  intros Hk. unfold on_tables. pose proof (re_dispatch s Hok) as Hd.
  pose proof (CancelLogicalPtraceDispatch_ok key (tables_env s tt) Hd Hk) as He. unfold post in He.
  pose proof (keeps_cancel (W := unit) key (tables_env s tt)) as Hp.
  destruct (CancelLogicalPtraceDispatch key (tables_env s tt)) as [error e]. cbn [fst snd] in *.
  destruct He as (He & Hr & Hm & _). split; [|by split_and!].
  apply resident_env; [done|done|done|]. intros k. rewrite Hm. intros [_ Hs]%delete_is_Some. by apply (re_callers s Hok).
Qed.

Lemma fake_frame t key : let t' := (ClearLogicalFakeTraceme t key).2 in
  processes t' = processes t /\ relations t' = relations t /\ waits t' = waits t.
Proof. unfold ClearLogicalFakeTraceme. repeat case_match; done. Qed.

Lemma fake_cleared_ok key : let s' := (on_table (fun t => ClearLogicalFakeTraceme t key) s).2 in
  resident_ok s' /\ same_index s' /\ relations (rs_logical s') = relations (rs_logical s) /\
  processes (rs_logical s') = processes (rs_logical s) /\ rs_dispatcher s' = rs_dispatcher s.
Proof.
  unfold on_table. pose proof (fake_frame (rs_logical s) key) as Hf.
  pose proof (ClearLogicalFakeTraceme_ok (rs_logical s) key (re_table s Hok)) as Hc.
  destruct (ClearLogicalFakeTraceme (rs_logical s) key) as [error t]. cbn [fst snd] in *.
  destruct Hf as (Hp & Hr & Hw), Hc as [Ht _]. split; [|by split_and!].
  apply resident_table; [done| |by rewrite Hp]. destruct (re_dispatch s Hok) as [Hcore Hheld].
  split; [by apply (core_tables _ (rs_logical s))|]. intros k. rewrite Hw. apply Hheld.
Qed.

Lemma stale_cleared_ok key : let s' := ClearStaleStop s key in
  resident_ok s' /\ same_index s' /\ rs_logical s' = rs_logical s /\
  operation_map (rs_dispatcher s') = operation_map (rs_dispatcher s).
Proof.
  pose proof (ClearStaleStop_ok s key (re_dispatch s Hok)) as H. revert H. unfold ClearStaleStop.
  generalize (foldl (clear_stale_stop (rs_logical s) key) (rs_dispatcher s)
    (seq 0 (Z.to_nat kLogicalPtraceDispatchCapacity))).
  intros d [Hd Hs]. cbn [rs_dispatcher rs_logical set_operations_of] in *. cbv zeta.
  assert (operation_map d = operation_map (rs_dispatcher s)) as Hm by by rewrite (so_operations _ _ Hs).
  split; [|by split_and!].
  apply (resident_tables s d (rs_logical s) Hok Hd); [done|]. intros k. rewrite Hm. apply (re_callers s Hok).
Qed.
End Steps.

(** What retiring leaves. *)
Record retired (key : LogicalTaskKey) (s s' : LogicalPtraceResidentState) : Prop := {
  rd_tasks : forall k, is_Some (task_map (rs_tasks s') !! k) <-> k <> key /\ is_Some (task_map (rs_tasks s) !! k);
  rd_parents : forall i x, entry_at (rs_tasks s') i x -> parent_valid x = true -> rt_parent x <> key;
  rd_operations : operation_map (rs_dispatcher s') = delete key (operation_map (rs_dispatcher s));
  rd_relations : relations (rs_logical s') = relations (rs_logical s);
  rd_settled : settled (rs_tasks s') (rs_logical s') }.

Lemma not_referenced_task s key : resident_ok s -> TaskReferencedByRelation s key = false ->
  forall i r, entry_at (relations (rs_logical s)) i r -> lr_tracee r <> key /\ lr_tracer r <> key.
Proof.
  intros Hok. unfold TaskReferencedByRelation. rewrite (ok_init _ (re_table s Hok)). cbn [andb]. intros Hn i r [Hi Hu].
  assert (LogicalTaskKeysEqual (lr_tracee r) key || LogicalTaskKeysEqual (lr_tracer r) key = false) as H.
  { apply not_true_is_false. intros Hx. apply not_true_iff_false in Hn. apply Hn, existsb_exists. exists r.
    split; [by eapply list_elem_of_In, list_elem_of_lookup_2|]. by rewrite Hu. }
  apply orb_false_iff in H as [H1 H2].
  split; intros E%LogicalTaskKeysEqual_spec; congruence.
Qed.

Lemma RetireLogicalPtraceResidentTask_ok s key : resident_ok s ->
  exists error s', RetireLogicalPtraceResidentTask s key = Some (error, s') /\ resident_ok s' /\
    (error = 0 -> retired key s s' /\
       forall i r, entry_at (relations (rs_logical s')) i r -> lr_tracee r <> key /\ lr_tracer r <> key).
Proof.
  intros Hok. unfold RetireLogicalPtraceResidentTask. pose proof (find_task_spec s Hok key) as Hf.
  destruct (FindLogicalPtraceResidentTask s key) as [i|]; [|by eexists _, _].
  destruct Hf as (r & Hi & <- & _ & (_ & Hk & _) & _).
  destruct (TaskReferencedByRelation s (rt_key r)) eqn:Href; [by eexists _, _|]. cbn [orb].
  destruct (FindLogicalWait _ _); [by eexists _, _|].
  pose proof (cancelled_ok s Hok (rt_key r) Hk) as H1. cbv zeta in H1.
  destruct (on_tables _ s) as [cancel_error s1]. cbn [snd] in H1. destruct H1 as (Hok1 & (Ht1 & Hn1 & _) & Hr1 & _ & Hm1).
  destruct (negb (cancel_error =? 0) && _) eqn:E1; [eexists _, _; split; [done|]; split; [done|lia]|].
  pose proof (fake_cleared_ok s1 Hok1 (rt_key r)) as H2. cbv zeta in H2.
  destruct (on_table _ s1) as [fake_error s2]. cbn [snd] in H2. destruct H2 as (Hok2 & (Ht2 & Hn2 & _) & Hr2 & _ & Hm2).
  destruct (negb (fake_error =? 0) && _) eqn:E2; [eexists _, _; split; [done|]; split; [done|lia]|]. cbv zeta.
  pose proof (stale_cleared_ok s2 Hok2 (rt_key r)) as H3. cbv zeta in H3. revert H3.
  generalize (ClearStaleStop s2 (rt_key r)). intros s3 (Hok3 & (Ht3 & Hn3 & _) & Hl3 & Hm3).
  assert (entry_at (rs_tasks s3) i r) as Hi3 by by rewrite Ht3, Ht2, Ht1.
  pose proof (removed_ok _ _ _ i r (re_tasks s3 Hok3) Hi3) as (Hta & Hmap & Hpar).
  pose proof (orphan_ok _ _ _ r (re_tasks s3 Hok3)) as (_ & _ & Hdom).
  set (tasks := <[i := _]> _) in *.
  pose proof (slots_ok_count _ _ (ta_slots _ _ _ Hta)).
  pose proof (slots_ok_count _ _ (ta_slots _ _ _ (re_tasks s3 Hok3))).
  rewrite u32_small by lia.
  destruct (CollectLogicalPtraceResidentProcesses_ok (rbump (set_tasks s3 (rs_task_count s3 - 1) tasks)))
    as (s' & -> & Hok' & Hc & Hset & Htasks & Hd').
  { apply resident_tasks; [done|done|]. intros k Hkop. rewrite Hmap. apply delete_is_Some.
    split; [|by apply Hdom, (re_callers s3 Hok3)]. intros ->. rewrite Hm3, Hm2, Hm1, lookup_delete_eq in Hkop. by destruct Hkop. }
  eexists _, s'. split; [done|]. split; [done|]. intros _.
  assert (relations (rs_logical s') = relations (rs_logical s)) as Hrel.
  { rewrite (co_relations _ _ _ Hc). cbn. by rewrite Hl3, Hr2, Hr1. }
  split.
  - split; rewrite ?Htasks; cbn [rs_tasks rbump set_tasks].
    + intros k. rewrite Hmap, delete_is_Some, Hdom. by rewrite Ht3, Ht2, Ht1.
    + exact Hpar.
    + rewrite Hd'. cbn. by rewrite Hm3, Hm2, Hm1.
    + done.
    + exact Hset.
  - intros j x. rewrite Hrel. by apply (not_referenced_task s).
Qed.

(** ** Renaming *)

Section Renamed.
Context (live : LogicalProcessKey -> Prop) (tasks : list LogicalPtraceResidentTask) (count : Z).
Context (i : nat) (r : LogicalPtraceResidentTask) (new : LogicalTaskKey).
Hypothesis Hta : tasks_ok live tasks count.
Hypothesis Hi : entry_at tasks i r.
Hypothesis Hvalid : TaskKeyValid new = true.
Hypothesis Hlive : live (LogicalProcessKeyForTask new).
Hypothesis Hnew : task_map tasks !! new = None.
Hypothesis Htid : forall j x, entry_at tasks j x -> is_active x = true -> tk_tid (rt_key x) = tk_tid new -> j = i.

Let f child := if child_of_task (rt_key r) child then with_parent child new else child.
Let named := <[i := with_key r new]> tasks.

Lemma follow_relinks : relinks f.
Proof.
  split; intros x; unfold f; destruct (child_of_task (rt_key r) x) eqn:Hc; try done.
  intros Hu. unfold child_of_task in Hc. by rewrite Hu in Hc.
Qed.

Let Hset := fun j x => entry_at_set tasks i r (with_key r new) (proj1 Hi) j x.

Lemma named_slots : slots_ok 512 (fun r => vacant_task r = true) (task_named live) named count /\
  distinct_tids named /\
  forall k, is_Some (task_map named !! k) <-> k = new \/ (k <> rt_key r /\ is_Some (task_map tasks !! k)).
Proof.
  pose proof (task_at _ _ _ _ _ Hta Hi) as (_ & Hr & Hsl & _ ). apply task_ok_named in Hr as (R1 & R2 & R3 & R4 & R5).
  assert (in_use (with_key r new) = true) as Hu by exact (proj2 Hi).
  assert (slots_ok 512 (fun r => vacant_task r = true) (task_named live) named count) as Hs.
  { replace count with (count - weight r + weight (with_key r new)) by (unfold weight; rewrite (proj2 Hi), Hu; lia).
    destruct (entry_at_ok _ _ _ _ (ta_slots _ _ _ Hta) Hi) as (_ & Hocc & _).
    eapply slots_ok_set; [apply (ta_slots _ _ _ Hta)|exact (proj1 Hi)|exact Hsl|..].
    - right. split; [done|]. split; [done|]. by split_and!.
    - intros _ j x _ Hj. by apply (proj1 (to_map_None _ _ _ (ta_slots _ _ _ Hta)) Hnew j x).
    - intros j x _ _. apply task_ok_named. }
  split; [done|]. split.
  - intros j1 j2 x y [(-> & -> & _)|[? H1]]%Hset [(-> & -> & _)|[? H2]]%Hset Ha Ha' Ht; [done| | |].
    + symmetry. by apply (Htid j2 y).
    + by apply (Htid j1 x).
    + by apply (ta_tids _ _ _ Hta j1 j2 x y).
  - intros k. split.
    + intros [x (j & [(-> & -> & _)|[Hj Hx]]%Hset & Hk)%(to_map_lookup _ _ _ _ Hs)]; [by left|right].
      simpl in Hk. subst k. destruct (task_at _ _ _ _ _ Hta Hx) as (Hm & _). split; [|by exists x].
      intros E. apply Hj. by apply (so_unique _ _ _ _ _ (ta_slots _ _ _ Hta) j i x r); try apply Hx; try apply Hi.
    + intros [->|[Hk [x (j & Hx & Hkx)%(to_map_lookup _ _ _ _ (ta_slots _ _ _ Hta))]]].
      * exists (with_key r new). apply (to_map_lookup _ _ _ _ Hs). exists i. split; [|done]. apply Hset. by left.
      * exists x. apply (to_map_lookup _ _ _ _ Hs). exists j. split; [|done]. apply Hset. right. split; [|done].
        intros ->. apply Hk. rewrite <- Hkx. pose proof (proj1 Hx). pose proof (proj1 Hi). simpl. congruence.
Qed.

Lemma renamed_ok : tasks_ok live (f <$> named) count /\
  forall k, is_Some (task_map (f <$> named) !! k) <-> k = new \/ (k <> rt_key r /\ is_Some (task_map tasks !! k)).
Proof.
  destruct named_slots as (Hn & Hd & Hdom). pose proof follow_relinks as Hf.
  (* a parent that was not renamed is registered and is not the new name *)
  assert (forall j x, entry_at named j x -> parent_valid x = true ->
    rt_parent x <> new /\ is_Some (task_map tasks !! rt_parent x) /\ (rt_parent x = rt_key r -> rt_key x <> new) /\
    (rt_parent x <> rt_key x)) as Hpar.
  { intros j x Hx Hp. assert (exists y, entry_at tasks j y /\ parent_valid y = true /\ rt_parent y = rt_parent x /\
      ((j = i /\ rt_key x = new /\ y = r) \/ (j <> i /\ x = y))) as (y & Hy & Hpy & <- & Hxy).
    { apply Hset in Hx as [(-> & -> & _)|[? Hx]]; [exists r; split_and!; try done; by left|].
      exists x. split_and!; try done. by right. }
    pose proof (ta_parents _ _ _ Hta j y Hy Hpy) as Hreg.
    destruct (task_at _ _ _ _ _ Hta Hy) as (Hmy & (_ & _ & _ & _ & Hpp) & _). rewrite Hpy in Hpp.
    assert (rt_parent y <> new) as Hnn by (intros E; rewrite E, Hnew in Hreg; by destruct Hreg).
    split; [done|]. split; [done|]. destruct Hxy as [(-> & -> & ->)|[Hj ->]].
    - split; [by intros ?|by congruence].
    - split; [|done]. intros _ E. rewrite E in Hmy. congruence. }
  assert (slots_ok 512 (fun r => vacant_task r = true) (task_ok live) (f <$> named) count) as Hs.
  { apply (relink_slots f live named count Hf Hn). intros j x Hx (X1 & X2 & X3 & X4 & X5).
    unfold f. destruct (child_of_task (rt_key r) x) eqn:Hc.
    - unfold child_of_task in Hc. rewrite !andb_true_iff in Hc. destruct Hc as [[_ Hp] Hk].
      apply LogicalTaskKeysEqual_spec in Hk. destruct (Hpar j x Hx Hp) as (_ & _ & Hkn & _).
      unfold task_ok, parent_valid. cbn. change (has (rt_flags x) _) with (parent_valid x). rewrite Hp.
      split_and!; try done. intros E. by apply Hkn.
    - split_and!; try done. destruct (parent_valid x) eqn:Hp; [|by apply X5]. by apply (Hpar j x Hx Hp). }
  assert (forall k, is_Some (task_map (f <$> named) !! k) <-> is_Some (task_map named !! k)) as Hsame.
  { intros k. by apply (relink_domain f live named count Hf Hn (task_ok live)). }
  split; [|intros k; by rewrite Hsame]. split; [done|exact (relink_tids f live named count Hf Hn Hd)|].
  intros j x (y & Hy & ->)%(relink_entry f named Hf). unfold f.
  destruct (child_of_task (rt_key r) y) eqn:Hc; intros Hp; apply Hsame, Hdom; [by left|right].
  destruct (Hpar j y Hy Hp) as (_ & Hreg & _). split; [|done]. intros E.
  unfold child_of_task in Hc. by rewrite (proj2 Hy), Hp, (proj2 (LogicalTaskKeysEqual_spec _ _) E) in Hc.
Qed.
End Renamed.

(** ** The dispatcher's records *)

(** After the dispatcher was told, its operations carry the new name. *)
Lemma rekeyed_tables s old new : resident_ok s -> is_Some (task_map (rs_tasks s) !! old) ->
  rekey_safe (rs_logical s) old new -> old <> new ->
  let '(error, s') := on_tables (RekeyLogicalPtraceDispatchTask old new) s in
  dispatch_ok (rs_dispatcher s') (rs_logical s') /\ processes (rs_logical s') = processes (rs_logical s) /\
  same_index s s' /\ (error <> 0 -> s' = s) /\
  (error = 0 \/ error = ESRCH -> LogicalProcessKeyForTask old = LogicalProcessKeyForTask new /\
     forall k, is_Some (operation_map (rs_dispatcher s') !! k) ->
       exists k0, is_Some (operation_map (rs_dispatcher s) !! k0) /\ rename old new k0 = k).
Proof.
  intros Hok [r Hr] Hun Hne. unfold on_tables.
  destruct (task_key_lookup _ _ _ _ _ (re_tasks s Hok) Hr) as (i & Hi & Hk).
  destruct (task_at _ _ _ _ _ (re_tasks s Hok) Hi) as (_ & (_ & _ & _ & Hlive & _) & _). rewrite Hk in Hlive.
  pose proof (RekeyLogicalPtraceDispatchTask_ok old new (tables_env s tt) (re_dispatch s Hok) Hun) as He.
  pose proof (keeps_rekey (W := unit) old new (tables_env s tt)) as Hp. unfold post in He.
  destruct (RekeyLogicalPtraceDispatchTask old new (tables_env s tt)) as [error e]. cbn [fst snd] in *.
  destruct He as (He & Hfail & Hproc & Hesrch & Hdone).
  assert (error <> 0 -> take_tables s e = s) as Hsame by (intros Herr; rewrite Hfail by done; by destruct s).
  split_and!; try done. intros Herr. split.
  - destruct (Hproc Herr) as [|Hn]; [done|]. exact (False_ind _ (Hn Hlive)).
  - intros k Hks. destruct (decide (error = 0)) as [->|Hn].
    + destruct Hks as [o' Ho']. apply (Hdone eq_refl Hne) in Ho' as (k0 & o & Ho & Hr0 & _). exists k0. split; [by exists o|done].
    + destruct Herr as [|Herr]; [done|]. specialize (Hesrch Herr Hlive). rewrite (Hsame Hn) in Hks.
      exists k. split; [done|]. apply rename_other. intros ->. cbn in Hesrch. rewrite Hesrch in Hks. by destruct Hks.
Qed.

(** The tasks of a state whose tables were replaced by ones with the same processes. *)
Lemma resident_parts s s' count tasks : resident_ok s -> same_index s s' ->
  dispatch_ok (rs_dispatcher s') (rs_logical s') -> processes (rs_logical s') = processes (rs_logical s) ->
  tasks_ok (live_in (process_map (rs_logical s))) tasks count ->
  (forall k, is_Some (operation_map (rs_dispatcher s') !! k) -> is_Some (task_map tasks !! k)) ->
  resident_ok (rbump (set_tasks s' count tasks)).
Proof.
  intros Hok (_ & _ & Hm & Hv) Hd Hp Hta Hc. split.
  - cbn. rewrite Hm. apply (re_magic s Hok).
  - cbn. rewrite Hv. apply (re_version s Hok).
  - done.
  - cbn [rs_tasks rs_logical rs_task_count rbump set_tasks]. by rewrite Hp.
  - done.
Qed.

(** What a renaming does to the index. *)
Definition task_renamed (old new : LogicalTaskKey) (s s' : LogicalPtraceResidentState) : Prop :=
  forall k, is_Some (task_map (rs_tasks s') !! k) <-> k = new \/ (k <> old /\ is_Some (task_map (rs_tasks s) !! k)).

Lemma RekeyLogicalPtraceResidentTask_ok s old new : resident_ok s ->
  rekey_safe (rs_logical s) old new ->
  let '(error, s') := RekeyLogicalPtraceResidentTask s old new in
  resident_ok s' /\ (error <> 0 -> s' = s) /\ (error = 0 -> old <> new -> task_renamed old new s s').
Proof.
  intros Hok Hun. unfold RekeyLogicalPtraceResidentTask. rewrite (re_init s Hok). cbn [negb orb].
  destruct (TaskKeyValid old) eqn:Hold; [|done]. destruct (TaskKeyValid new) eqn:Hnew; [|done]. cbn [negb orb].
  destruct (LogicalTaskKeysEqual old new) eqn:Heq.
  { apply LogicalTaskKeysEqual_spec in Heq. by split_and!. }
  assert (old <> new) as Hne.
  { intros ->. by rewrite (proj2 (LogicalTaskKeysEqual_spec new new) eq_refl) in Heq. }
  cbv zeta.
  pose proof (find_task_spec s Hok old) as Hf. destruct (FindLogicalPtraceResidentTask s old) as [i|]; [|done].
  destruct Hf as (r & Hi & <- & Hm & Hr & Hsl & Hlt).
  pose proof (find_task_spec s Hok new) as Hfn. pose proof (find_tid_spec s Hok (tk_tid new)) as Hft.
  destruct (_ || _) eqn:Hdup; [done|]. apply orb_false_iff in Hdup as [Hdup1 Hdup2].
  assert (task_map (rs_tasks s) !! new = None) as Hfree.
  { destruct (FindLogicalPtraceResidentTask s new) as [j|]; [|done]. exfalso.
    case_bool_decide as E; [subst j|done]. destruct Hfn as (r' & Hi' & Hk' & _). destruct Hi, Hi'. congruence. }
  assert (forall j x, entry_at (rs_tasks s) j x -> is_active x = true -> tk_tid (rt_key x) = tk_tid new -> j = i) as Htid.
  { intros j x Hj Ha Ht. specialize (Hft ltac:(unfold TaskKeyValid in Hnew; bool_hyps; lia)).
    destruct (FindLogicalPtraceResidentTid s (tk_tid new)) as [j'|]; [|by destruct (Hft j x Hj Ha)].
    case_bool_decide as E; [subst j'|done]. destruct Hft as (x' & _ & _ & _ & Huniq). by apply (Huniq j x). }
  pose proof (rekeyed_tables s (rt_key r) new Hok ltac:(by exists r) Hun Hne) as Ht.
  destruct (on_tables _ s) as [error s1]. destruct Ht as (Hd & Hp & Hsame & Hfail & Hops).
  destruct (negb (error =? 0) && negb (error =? ESRCH)) eqn:Herr.
  { rewrite Hfail by lia. split_and!; [done|done|lia]. }
  destruct (Hops ltac:(lia)) as [Hproc Hren]. pose proof Hsame as (Htasks & Hcount & _).
  rewrite Htasks, Hcount, (list_lookup_total_correct _ _ _ (proj1 Hi)).
  destruct (renamed_ok _ _ _ i r new (re_tasks s Hok) Hi Hnew) as [Hta Hdom]; [|done|done|].
  { destruct Hr as (_ & _ & _ & Hlive & _). by rewrite <- Hproc. }
  split; [|done]. apply (resident_parts s); try done. intros k Hk. apply Hdom.
  destruct (Hren k Hk) as (k0 & Hk0 & <-). unfold rename. case_decide as E; [by left|right].
  split; [done|]. by apply (re_callers s Hok).
Qed.
