(* ===== verification/ResidentExec.v ===== *)
(** * The exec of a thread that is not the leader

    MergeExecLogicalPtraceResidentTask: the thread takes over its leader's
    identity; what the leader had is discarded, and the two tasks become one. *)

From S2P Require Import Prelude SlotArray LogicalPtrace LogicalPtraceOps LogicalPtraceInv LogicalPtracePreserve.
From S2P Require Import Dispatcher DispatcherOps DispatcherInv DispatcherSteps DispatcherSafety DispatcherCalls DispatcherRekey.
From S2P Require Import Resident ResidentInv ResidentCollect ResidentSteps ResidentRetire.
From stdpp Require Import list gmap.
#[local] Open Scope Z_scope.

(** ** What the validator checks of the thread ids *)

Lemma validate_tasks_distinct t tasks slot count n : validate_tasks t slot count tasks = Some n -> distinct_tids tasks.
Proof.
  revert slot count. induction tasks as [|r tasks IH]; simpl; intros slot count Hv; [by intros i j ? ? [? ?]|].
  destruct (_ || _); [done|].
  assert (forall i j x y, entry_at (r :: tasks) i x -> entry_at (r :: tasks) j y -> is_active x = true -> is_active y = true ->
    tk_tid (rt_key x) = tk_tid (rt_key y) -> (i < j)%nat -> False) as Hlt.
  { intros i j x y [Hi Hux] [Hj Huy] Hx Hy Ht Hij. destruct j as [|j]; [lia|]. simpl in Hj. destruct i as [|i].
    - simpl in Hi. injection Hi as ->. unfold in_use in Hux. simpl in Hux. apply negb_true_iff in Hux. rewrite Hux in Hv.
      destruct (negb (task_entry t x)); [done|]. destruct (existsb (task_conflict x) tasks) eqn:Hc; [done|].
      apply not_true_iff_false in Hc. apply Hc, existsb_exists. exists y.
      split; [by eapply list_elem_of_In, list_elem_of_lookup_2|]. unfold task_conflict. rewrite Huy, Hx, Hy.
      apply orb_true_iff. right. rewrite Ht, Z.eqb_refl. done.
    - simpl in Hi. assert (distinct_tids tasks) as Hd by (repeat case_match; try done; by eapply IH).
      assert (i = j) by (by apply (Hd i j x y)). lia. }
  intros i j x y Hi Hj Hx Hy Ht. destruct (Nat.lt_trichotomy i j) as [H|[H|H]]; [|done|]; exfalso.
  - by apply (Hlt i j x y).
  - by apply (Hlt j i y x).
Qed.

(** ** The leader's own state is discarded *)

Lemma erased_relations d t i r : core_ok d t -> entry_at (relations t) i r ->
  let x := EraseLogicalPtraceRelation t (lr_tracee r) true in
  table_ok x.2 /\ relations x.2 = <[i := ClearRelationRecord (lr_slot r)]> (relations t) /\
  processes x.2 = processes t /\ waits x.2 = waits t.
Proof.
  intros Hok Hi. cbv zeta. pose proof (ck_table _ _ Hok) as Ht.
  pose proof (EraseLogicalPtraceRelation_ok t (lr_tracee r) true Ht) as Hc.
  destruct (EraseLogicalPtraceRelation t (lr_tracee r) true) as [error t'] eqn:He. destruct Hc as [Ht' _].
  split; [done|]. revert He. unfold EraseLogicalPtraceRelation. rewrite (ok_init t Ht), (find_entry d t Hok i r Hi).
  destruct (relation_at t i r Ht Hi) as (_ & Hr & Hsl & _). pose proof (relation_ok_key _ _ Hr) as Hk. simpl in Hk, Hsl.
  rewrite Hk, (list_lookup_total_correct _ _ _ (proj1 Hi)). cbn [negb orb andb]. intros [= _ <-].
  unfold EraseRelationAt. cbn. by rewrite Hsl, Nat2Z.id.
Qed.

Section Discard.
Context (s : LogicalPtraceResidentState) (key : LogicalTaskKey).
Hypothesis Hok : resident_ok s.

(** What discarding leaves: a valid state without an operation of the task. *)
Definition discarded (s' : LogicalPtraceResidentState) : Prop :=
  resident_ok s' /\ same_index s s' /\ processes (rs_logical s') = processes (rs_logical s) /\
  operation_map (rs_dispatcher s') = delete key (operation_map (rs_dispatcher s)).

(** Stale stop records of the task cleared after its relation went away. *)
Lemma refreshed_ok t' : table_ok t' -> processes t' = processes (rs_logical s) -> waits t' = waits (rs_logical s) ->
  (forall j r', relations t' !! j = Some r' -> relations (rs_logical s) !! j = Some r' \/
     (in_use r' = false /\ lr_event_count r' <= 1 /\
      forall stop, ld_stops (rs_dispatcher s) !! j = Some stop -> unattached stop \/ ds_tracee stop = key)) ->
  let s' := ClearStaleStop (set_table s t') key in
  resident_ok s' /\ same_index s s' /\ processes (rs_logical s') = processes (rs_logical s) /\
  operation_map (rs_dispatcher s') = operation_map (rs_dispatcher s).
Proof.
  intros Ht Hp Hw Hr. destruct (re_dispatch s Hok) as [Hcore Hheld].
  pose proof (stale_cleared _ _ t' key _ Hcore Ht Hp Hr all_slots) as Hc'.
  destruct (clear_all_stops t' key (seq 0 (Z.to_nat kLogicalPtraceDispatchCapacity)) (rs_dispatcher s)) as (Hs & _).
  unfold ClearStaleStop. cbn [rs_dispatcher rs_logical set_table] in *. revert Hc' Hs.
  generalize (foldl (clear_stale_stop t' key) (rs_dispatcher s) (seq 0 (Z.to_nat kLogicalPtraceDispatchCapacity))).
  intros d Hc' Hs. cbv zeta.
  assert (operation_map d = operation_map (rs_dispatcher s)) as Hm by by rewrite (so_operations _ _ Hs).
  split; [|by split_and!]. apply (resident_tables s d t' Hok); [split; [done|]| |].
  - intros k. rewrite Hw, Hheld. symmetry. by apply same_operations_held.
  - intros i r _. by rewrite Hp.
  - intros k. rewrite Hm. apply (re_callers s Hok).
Qed.

Lemma wait_discarded : TaskKeyValid key = true -> operation_map (rs_dispatcher s) !! key = None ->
  let s' := (on_table (fun t => EndLogicalWait t key) s).2 in
  resident_ok s' /\ same_index s s' /\ processes (rs_logical s') = processes (rs_logical s) /\
  rs_dispatcher s' = rs_dispatcher s.
Proof.
  intros Hk Hnone. unfold on_table. destruct (re_dispatch s Hok) as [Hcore Hheld].
  destruct (wait_ended _ _ Hcore key) as (Hc' & Hp & _ & Hm). specialize (Hm Hk).
  destruct (EndLogicalWait (rs_logical s) key) as [error t']. cbn [fst snd] in *. split; [|by split_and!].
  apply resident_table; [done| |by rewrite Hp]. split; [done|]. intros k. rewrite Hm, delete_is_Some, Hheld.
  split; [by intros [_ ?]|]. intros Hh. split; [|done]. intros ->. destruct Hh as (o & Ho & _). congruence.
Qed.
End Discard.

Lemma same_index_trans s1 s2 s3 : same_index s1 s2 -> same_index s2 s3 -> same_index s1 s3.
Proof. intros (? & ? & ? & ?) (? & ? & ? & ?). split_and!; congruence. Qed.

Lemma DiscardExecDestinationThreadState_ok s key : resident_ok s -> TaskKeyValid key = true ->
  let '(error, s') := DiscardExecDestinationThreadState s key in error = 0 -> discarded s key s'.
Proof.
  intros Hok Hk. unfold DiscardExecDestinationThreadState.
  pose proof (cancelled_ok s Hok key Hk) as H1. cbv zeta in H1.
  destruct (on_tables _ s) as [error1 s1]. cbn [snd] in H1. destruct H1 as (Hok1 & Hi1 & _ & Hp1 & Hm1).
  destruct (negb (error1 =? 0) && _) eqn:E1; [lia|].
  pose proof (wait_discarded s1 key Hok1 Hk ltac:(by rewrite Hm1, lookup_delete_eq)) as H2. cbv zeta in H2.
  destruct (on_table _ s1) as [error2 s2]. cbn [snd] in H2. destruct H2 as (Hok2 & Hi2 & Hp2 & Hm2).
  destruct (negb (error2 =? 0) && _) eqn:E2; [lia|].
  pose proof (fake_cleared_ok s2 Hok2 key) as H3. cbv zeta in H3.
  destruct (on_table _ s2) as [error3 s3]. cbn [snd] in H3. destruct H3 as (Hok3 & Hi3 & _ & Hp3 & Hm3).
  destruct (negb (error3 =? 0) && _) eqn:E3; [lia|].
  assert (forall s', resident_ok s' /\ same_index s3 s' /\ processes (rs_logical s') = processes (rs_logical s3) /\
    operation_map (rs_dispatcher s') = operation_map (rs_dispatcher s3) -> discarded s key s') as Hdone.
  { intros s' (Hok' & Hi' & Hp' & Hm'). split; [done|]. split; [|split].
    - eapply same_index_trans; [exact Hi1|]. eapply same_index_trans; [exact Hi2|]. by eapply same_index_trans.
    - by rewrite Hp', Hp3, Hp2, Hp1.
    - by rewrite Hm', Hm3, Hm2, Hm1. }
  pose proof (re_dispatch s3 Hok3) as [Hcore Hheld].
  find_relation (rs_logical s3) key (re_table s3 Hok3).
  - destruct Hf as (r & Hi & <- & _). unfold on_table.
    destruct (erased_relations _ _ n r Hcore Hi) as (Ht' & Hr' & Hp' & Hw').
    destruct (EraseLogicalPtraceRelation _ _ _) as [error4 t']. cbn [fst snd] in *.
    destruct (negb (error4 =? 0)) eqn:E4; [lia|]. intros _. apply Hdone, (refreshed_ok s3); try done.
    intros j r'. rewrite Hr'. intros [(<- & <- & _)|[_ Hj]]%list_lookup_insert_Some; [right|by left].
    split; [done|]. split; [done|]. intros stop Hst.
    destruct (sk_relation _ _ _ (ck_stops _ _ Hcore n r stop (proj1 Hi) Hst)) as [?|[_ Ha]]; [by left|right].
    symmetry. apply (at_tracee _ _ Ha).
  - cbn [negb Z.eqb]. intros _. apply Hdone. rewrite <- (set_table_same s3) at 2.
    apply (refreshed_ok s3); try done; [apply Hcore|by left].
Qed.

(** ** The two tasks become one *)

Section Merged.
Context (live : LogicalProcessKey -> Prop) (tasks : list LogicalPtraceResidentTask) (count : Z).
Context (i j : nat) (source target : LogicalPtraceResidentTask).
Hypothesis Hta : tasks_ok live tasks count.
Hypothesis Hi : entry_at tasks i source.
Hypothesis Hj : entry_at tasks j target.
Hypothesis Hij : i <> j.

Let former := rt_key source.
Let destination := rt_key target.
Let merged := Build_LogicalPtraceResidentTask (rt_occupied source) (Z.of_nat j) (rt_flags source)
  (rt_reserved source) destination (rt_parent source).
Let cleared := <[i := ClearTask (Z.of_nat i)]> tasks.
Let joined := <[j := merged]> cleared.
Let f := merge_child former destination.

Lemma cleared_target : entry_at cleared j target.
Proof. destruct Hj as [Hjl Hu]. split; [|done]. unfold cleared. by rewrite list_lookup_insert_ne. Qed.

Lemma joined_entry k x : entry_at joined k x -> (k = j /\ x = merged) \/ (k <> i /\ k <> j /\ entry_at tasks k x).
Proof.
  intros [(-> & -> & _)|[Hk Hx]]%(entry_at_set _ _ _ merged (proj1 cleared_target)); [by left|right].
  apply (entry_at_set _ _ _ (ClearTask (Z.of_nat i)) (proj1 Hi)) in Hx as [(_ & _ & ?)|[? ?]]; done.
Qed.

Lemma joined_slots : slots_ok 512 (fun r => vacant_task r = true) (task_named live) joined (count - 1).
Proof.
  assert (slots_ok 512 (fun r => vacant_task r = true) (task_ok live) cleared (count - 1)) as Hc.
  { by apply (slots_ok_clear _ _ _ _ _ _ (ta_slots _ _ _ Hta) Hi). }
  destruct (task_at _ _ _ _ _ Hta Hi) as (_ & Hr & _). apply task_ok_named in Hr as (R1 & R2 & R3 & R4 & R5).
  destruct (task_at _ _ _ _ _ Hta Hj) as (_ & (_ & Hk & _ & Hlive & _) & _).
  destruct (entry_at_ok _ _ _ _ (ta_slots _ _ _ Hta) Hi) as (_ & Hocc & _).
  assert (in_use merged = true) as Hu by exact (proj2 Hi).
  replace (count - 1) with (count - 1 - weight target + weight merged) by (unfold weight; rewrite (proj2 Hj), Hu; lia).
  eapply slots_ok_set; [exact Hc|exact (proj1 cleared_target)|done|right; by split_and!| |].
  - intros _ k x Hk' Hx E. apply Hk'.
    by apply (so_unique _ _ _ _ _ Hc k j x target); try apply Hx; try apply cleared_target.
  - intros k x _ _. apply task_ok_named.
Qed.

Lemma joined_domain k : is_Some (task_map joined !! k) <-> k <> former /\ is_Some (task_map tasks !! k).
Proof.
  pose proof joined_slots as Hs. split.
  - intros [x (n & Hx & Hk)%(to_map_lookup _ _ _ _ Hs)]. simpl in Hk. subst k.
    assert (exists m y, m <> i /\ entry_at tasks m y /\ rt_key y = rt_key x) as (m & y & Hm & Hy & <-).
    { apply joined_entry in Hx as [[-> ->]|(? & ? & ?)]; [exists j, target; by auto|exists n, x; auto]. }
    split; [|exists y; apply (task_at _ _ _ _ _ Hta Hy)]. intros E. apply Hm.
    by apply (so_unique _ _ _ _ _ (ta_slots _ _ _ Hta) m i y source); try apply Hy; try apply Hi.
  - intros [Hk [x (n & Hx & Hkx)%(to_map_lookup _ _ _ _ (ta_slots _ _ _ Hta))]]. simpl in Hkx. subst k.
    pose proof (proj2 Hi) as Hu. destruct (decide (n = j)) as [->|Hnj].
    + exists merged. apply (to_map_lookup _ _ _ _ Hs). exists j.
      split; [apply (entry_at_set _ _ _ _ (proj1 cleared_target)); by left|]. simpl.
      pose proof (proj1 Hx). pose proof (proj1 Hj). unfold destination. congruence.
    + exists x. apply (to_map_lookup _ _ _ _ Hs). exists n. split; [|done].
      apply (entry_at_set _ _ _ _ (proj1 cleared_target)). right. split; [done|].
      apply (entry_at_set _ _ _ _ (proj1 Hi)). right. split; [|done]. intros ->. apply Hk.
      pose proof (proj1 Hx). pose proof (proj1 Hi). unfold former. congruence.
Qed.

(** A parent link of the joined index names a task of the old one. *)
Lemma joined_parent k x : entry_at joined k x -> parent_valid x = true -> is_Some (task_map tasks !! rt_parent x).
Proof.
  intros [[-> ->]|(_ & _ & Hx)]%joined_entry Hp; [|by apply (ta_parents _ _ _ Hta k x)].
  by apply (ta_parents _ _ _ Hta i source).
Qed.

Lemma merge_relinks : relinks f.
Proof.
  split; intros x; unfold f, merge_child; try (destruct (negb (in_use x) || negb (parent_valid x));
    [done|]; repeat case_match; done).
  - intros Hu. by rewrite Hu.
  - intros _ Hl. destruct (negb (in_use x) || negb (parent_valid x)); [done|].
    destruct (LogicalTaskKeysEqual (rt_parent x) former); case_match; try done; apply (orphaned_life _ Hl).
Qed.

Lemma merged_child k x : entry_at joined k x -> task_named live x -> task_ok live (f x) /\
  (parent_valid (f x) = true -> rt_parent (f x) <> former /\ is_Some (task_map joined !! rt_parent (f x))).
Proof.
  intros Hx (X1 & X2 & X3 & X4 & X5). unfold f, merge_child. rewrite (proj2 Hx). cbn [negb orb].
  destruct (parent_valid x) eqn:Hp; cbn [negb].
  2:{ split; [unfold task_ok; rewrite Hp; split_and!; auto|by rewrite Hp]. }
  pose proof (joined_parent k x Hx Hp) as Hreg.
  set (y := if LogicalTaskKeysEqual (rt_parent x) former then with_parent x destination else x).
  assert (rt_reserved y = 0 /\ rt_key y = rt_key x /\ rt_flags y = rt_flags x) as (Y1 & Y2 & Y3)
    by (unfold y; by case_match).
  assert (rt_parent y <> former /\ is_Some (task_map joined !! rt_parent y)) as [Y4 Y5].
  { assert (destination <> former) as Hne.
    { intros E. apply Hij. by apply (so_unique _ _ _ _ _ (ta_slots _ _ _ Hta) i j source target);
        try apply Hi; try apply Hj. }
    unfold y. destruct (LogicalTaskKeysEqual (rt_parent x) former) eqn:E; cbn.
    - split; [done|]. apply joined_domain. split; [done|]. exists target. apply (task_at _ _ _ _ _ Hta Hj).
    - assert (rt_parent x <> former) as Hpf by by intros E'%LogicalTaskKeysEqual_spec; congruence.
      split; [done|]. by apply joined_domain. }
  assert (parent_valid y = true) as Hpy by (unfold parent_valid; by rewrite Y3).
  destruct (LogicalTaskKeysEqual (rt_parent y) (rt_key y)) eqn:E.
  - destruct (orphaned_life _ X3) as (Hl & Hno & _). unfold task_ok, parent_valid, drop_parent. cbn.
    rewrite Y1, Y2, Y3, Hno. split; [by split_and!|done].
  - unfold task_ok. rewrite Hpy, Y1, Y2, Y3. split; [|done]. split_and!; try done.
    intros E'. rewrite <- Y2 in E'. apply LogicalTaskKeysEqual_spec in E'. congruence.
Qed.

Lemma merged_ok : distinct_tids (f <$> joined) -> tasks_ok live (f <$> joined) (count - 1) /\
  (forall k, is_Some (task_map (f <$> joined) !! k) <-> k <> former /\ is_Some (task_map tasks !! k)) /\
  (forall k x, entry_at (f <$> joined) k x -> parent_valid x = true -> rt_parent x <> former) /\
  exists r, task_map (f <$> joined) !! destination = Some r /\ rt_slot r = Z.of_nat j /\
    is_active r = is_active source.
Proof.
  intros Hd. pose proof joined_slots as Hn. pose proof merge_relinks as Hf.
  assert (slots_ok 512 (fun r => vacant_task r = true) (task_ok live) (f <$> joined) (count - 1)) as Hs.
  { apply (relink_slots f live joined _ Hf Hn). intros k x Hx Hnx. by apply (merged_child k x). }
  assert (forall k, is_Some (task_map (f <$> joined) !! k) <-> is_Some (task_map joined !! k)) as Hsame.
  { intros k. by apply (relink_domain f live joined (count - 1) Hf Hn (task_ok live)). }
  assert (forall k x, entry_at (f <$> joined) k x -> parent_valid x = true ->
    rt_parent x <> former /\ is_Some (task_map joined !! rt_parent x)) as Hpar.
  { intros k x (y & Hy & ->)%(relink_entry f joined Hf). apply (merged_child k y Hy).
    by apply (entry_at_ok _ _ _ _ Hn Hy). }
  split; [|split; [|split]].
  - split; [done|done|]. intros k x Hx Hp. apply Hsame, (Hpar k x Hx Hp).
  - intros k. by rewrite Hsame, joined_domain.
  - intros k x Hx Hp. by apply (Hpar k x).
  - exists (f merged). assert (entry_at joined j merged) as Hm.
    { apply (entry_at_set _ _ _ _ (proj1 cleared_target)). left. split_and!; try done. exact (proj2 Hi). }
    split; [apply (to_map_lookup _ _ _ _ Hs); exists j; split; [apply (relink_entry f joined Hf); by exists merged|]|].
    + apply (rl_key f Hf).
    + rewrite (rl_slot f Hf). split; [done|]. rewrite (rl_active f Hf merged (proj2 Hm)); [done|].
      by destruct (task_at _ _ _ _ _ Hta Hi) as (_ & (_ & _ & Hl & _) & _).
Qed.
End Merged.

(** ** The call *)

(** When the renamed tables pass the validation, the renaming linked nothing to
    itself: the final check of the merge is what excludes a chain of tracers
    between the thread and its leader. *)
Lemma validated_safe s old new error s' : dispatch_ok (rs_dispatcher s) (rs_logical s) -> old <> new ->
  on_tables (RekeyLogicalPtraceDispatchTask old new) s = (error, s') -> error = 0 \/ error = ESRCH ->
  ValidateLogicalPtraceTable (rs_logical s') = true -> rekey_safe (rs_logical s) old new.
Proof.
  intros [Hcore _] Hne Ht Herr Hv H0. right. pose proof (ck_table _ _ Hcore) as Hok.
  destruct (RekeyLogicalPtraceTask (rs_logical s) old new) as [error0 t'] eqn:Hr. cbn [fst] in H0. subst error0.
  pose proof (rekey_logical old new (tables_env s tt) t' Hne Hr) as He. unfold post in He. unfold on_tables in Ht.
  destruct (RekeyLogicalPtraceDispatchTask old new (tables_env s tt)) as [error1 e]. cbn [fst snd] in He.
  injection Ht as -> <-. specialize (He Herr). cbn in Hv. rewrite He in Hv.
  apply (rekeyed_unlinked _ t' old new Hok Hne Hr), Validate_table_ok; [|done].
  by apply (rekeyed_typed (rs_logical s) t' old new).
Qed.

Lemma validated_table s count tasks :
  ValidateLogicalPtraceResidentState (rbump (set_tasks s count tasks)) = true ->
  ValidateLogicalPtraceTable (rs_logical s) = true.
Proof.
  unfold ValidateLogicalPtraceResidentState, ValidateLogicalPtraceDispatcher. rewrite !andb_true_iff. cbn. tauto.
Qed.

(** What a successful merge leaves. *)
Record merged (former destination : LogicalTaskKey) (s s' : LogicalPtraceResidentState) : Prop := {
  mg_tasks : forall k, is_Some (task_map (rs_tasks s') !! k) <-> k <> former /\ is_Some (task_map (rs_tasks s) !! k);
  mg_parents : forall i x, entry_at (rs_tasks s') i x -> parent_valid x = true -> rt_parent x <> former;
  mg_task : exists r r', task_map (rs_tasks s) !! destination = Some r /\
    task_map (rs_tasks s') !! destination = Some r' /\ rt_slot r' = rt_slot r /\ is_active r' = true;
  mg_operations : operation_map (rs_dispatcher s') !! former = None }.

Lemma validated_tids s : ValidateLogicalPtraceResidentState s = true -> distinct_tids (rs_tasks s).
Proof.
  unfold ValidateLogicalPtraceResidentState. rewrite !andb_true_iff. intros [_ Hv].
  destruct (validate_tasks _ _ _ _) eqn:E; [|done]. by eapply validate_tasks_distinct.
Qed.

Lemma MergeExecInPlace_ok s former destination : resident_ok s ->
  let '(error, s') := MergeExecLogicalPtraceResidentTaskInPlace s former destination in
  error = 0 -> resident_ok s' /\ merged former destination s s'.
Proof.
  intros Hok. unfold MergeExecLogicalPtraceResidentTaskInPlace. destruct (_ || _) eqn:Hbad; [done|].
  destruct (_ || _) eqn:Hdev in |- *; [done|].
  assert (former <> destination) as Hne.
  { intros ->. rewrite !orb_false_iff in Hbad. destruct Hbad as [[[_ E] _] _].
    by rewrite (proj2 (LogicalTaskKeysEqual_spec destination destination) eq_refl) in E. }
  clear Hbad Hdev. pose proof (find_task_spec s Hok former) as Hf. pose proof (find_task_spec s Hok destination) as Hg.
  destruct (FindLogicalPtraceResidentTask s former) as [i|]; [|done].
  destruct (FindLogicalPtraceResidentTask s destination) as [j|]; [|done].
  destruct Hf as (r & Hi & <- & Hmr & _ & Hsr & _), Hg as (q & Hj & <- & Hmq & (_ & Hkq & _) & Hsq & _). cbv zeta.
  rewrite (list_lookup_total_correct _ _ _ (proj1 Hi)), (list_lookup_total_correct _ _ _ (proj1 Hj)).
  destruct (_ || _) eqn:Hsame; [done|]. rewrite !orb_false_iff in Hsame. destruct Hsame as [[Hij%bool_decide_eq_false _] Ha].
  apply negb_false_iff in Ha.
  pose proof (DiscardExecDestinationThreadState_ok s (rt_key q) Hok Hkq) as Hdisc.
  destruct (DiscardExecDestinationThreadState s (rt_key q)) as [error s1].
  destruct (negb (error =? 0)) eqn:E1; [lia|]. destruct (Hdisc ltac:(lia)) as (Hok1 & Hi1 & Hp1 & Hm1).
  pose proof Hi1 as (Ht1 & Hc1 & _).
  assert (is_Some (task_map (rs_tasks s1) !! rt_key r)) as Hreg by (rewrite Ht1; by exists r).
  pose proof (fun H => rekeyed_tables s1 (rt_key r) (rt_key q) Hok1 Hreg H Hne) as Hre.
  destruct (on_tables _ s1) as [error2 s2] eqn:Hcall2.
  destruct (negb (error2 =? 0) && negb (error2 =? ESRCH)) eqn:E2; [lia|].
  destruct (ValidateLogicalPtraceResidentState _) eqn:Hv; [|done]. intros _.
  destruct Hre as (Hd2 & Hp2 & Hi2 & _ & Hops); [by eapply validated_safe; [apply Hok1|..|eapply validated_table]; eauto; lia|].
  destruct (Hops ltac:(lia)) as [_ Hren]. pose proof Hi2 as (Ht2 & Hc2 & _). revert Hv.
  rewrite Ht2, Hc2, Ht1, Hc1, (list_lookup_total_correct _ _ _ (proj1 Hi)), (list_lookup_total_correct _ _ _ (proj1 Hj)).
  rewrite Hsr, Hsq, !Nat2Z.id. set (tasks := merge_child _ _ <$> _). intros Hv.
  apply validated_tids in Hv. cbn [rs_tasks rbump set_tasks] in Hv.
  destruct (merged_ok _ _ _ i j r q (re_tasks s Hok) Hi Hj Hij Hv) as (Hta & Hdom & Hpar & r' & Hr' & Hslot & Hact).
  fold tasks in Hta, Hdom, Hpar, Hr'.
  pose proof (slots_ok_count _ _ (ta_slots _ _ _ Hta)). pose proof (slots_ok_count _ _ (ta_slots _ _ _ (re_tasks s Hok))).
  rewrite u32_small by lia.
  assert (forall k, is_Some (operation_map (rs_dispatcher s2) !! k) -> k <> rt_key r /\ is_Some (task_map (rs_tasks s) !! k)) as Hcall.
  { intros k Hk. destruct (Hren k Hk) as (k0 & Hk0 & <-). unfold rename. case_decide as E; [by split; [|exists q]|].
    split; [done|]. rewrite <- Ht1. by apply (re_callers s1 Hok1). }
  split.
  - apply (resident_parts s); [done|by eapply same_index_trans|done|by rewrite Hp2|done|].
    intros k Hk. by apply Hdom, Hcall.
  - split; cbn [rs_tasks rs_dispatcher rbump set_tasks]; try done.
    + exists q, r'. split_and!; try done; [by rewrite Hslot, Hsq|by rewrite Hact].
    + apply eq_None_not_Some. by intros [? _]%Hcall.
Qed.

Lemma MergeExecLogicalPtraceResidentTask_ok mapping s former destination : resident_ok s ->
  let '(error, s') := MergeExecLogicalPtraceResidentTask mapping s former destination in
  resident_ok s' /\ (error <> 0 -> s' = s) /\ (error = 0 -> merged former destination s s').
Proof.
  intros Hok. unfold MergeExecLogicalPtraceResidentTask. rewrite (re_init s Hok). cbn [negb].
  destruct mapping as [error|].
  - split; [done|]. split; [done|]. destruct (error =? 0) eqn:E; cbn [negb]; [done|lia].
  - pose proof (MergeExecInPlace_ok s former destination Hok) as Hm.
    destruct (MergeExecLogicalPtraceResidentTaskInPlace s former destination) as [error s'].
    destruct (error =? 0) eqn:E; [destruct (Hm ltac:(lia)); split_and!; [done|lia|done]|split_and!; [done|done|lia]].
Qed.
