(* ===== verification/ResidentReach.v ===== *)
(** * The resident state as a whole

    The calls of the tracer on the resident state as a step relation - its own
    operations and the dispatcher's handlers over its tables - and what holds
    in every state that they reach. *)

From S2P Require Import Prelude SlotArray LogicalPtrace LogicalPtraceOps LogicalPtraceInv LogicalPtracePreserve.
From S2P Require Import LogicalPtraceSafety LogicalPtraceEvents Dispatcher DispatcherOps DispatcherInv DispatcherSteps DispatcherSafety.
From S2P Require Import DispatcherCalls DispatcherRekey DispatcherReach DispatcherFrame Resident ResidentInv.
From S2P Require Import ResidentCollect ResidentSteps ResidentRetire ResidentExec.
From stdpp Require Import list gmap relations.
#[local] Open Scope Z_scope.

Section Steps.
Context {W : Type}.

(** One call of the tracer. A parent is a task that is registered, system
    calls come from registered tasks, a publication that goes through finds the
    previous stop taken from the queue, and a renaming that goes through is to
    an identity that no chain of tracers links to the old one. *)
Inductive resident_step (s : LogicalPtraceResidentState) : LogicalPtraceResidentState -> Prop :=
  | resident_register slot key parent group dumpable ptracer : 0 <= slot -> parent_registered s parent ->
      resident_step s (RegisterLogicalPtraceResidentTask s slot key parent group dumpable ptracer).2
  | resident_exited key : resident_step s (MarkLogicalPtraceResidentTaskExited s key).2
  | resident_collect n s' : CollectLogicalPtraceResidentProcesses s = Some (n, s') -> resident_step s s'
  | resident_retire key error s' : RetireLogicalPtraceResidentTask s key = Some (error, s') -> resident_step s s'
  | resident_rekey old new : rekey_safe (rs_logical s) old new ->
      resident_step s (RekeyLogicalPtraceResidentTask s old new).2
  | resident_exec mapping former destination :
      resident_step s (MergeExecLogicalPtraceResidentTask mapping s former destination).2
  | resident_entry (io : LogicalPtraceResidentIoContext W) w caller number arguments :
      is_Some (task_map (rs_tasks s) !! caller) ->
      resident_step s (take_tables s (DispatchLogicalPtraceEntry (MakeLogicalPtraceResidentIo s io) caller number
        arguments (tables_env s w)).2)
  | resident_exit (w : W) caller number :
      resident_step s (take_tables s (DispatchLogicalPtraceExit caller number (tables_env s w)).2)
  | resident_publish (w : W) tracee event : publish_safe tracee event (tables_env s w) ->
      resident_step s (take_tables s (PublishLogicalPtraceStop tracee event (tables_env s w)).2)
  | resident_wake (io : LogicalPtraceResidentIoContext W) w waiter :
      resident_step s (take_tables s (TryWakeLogicalPtraceWait (MakeLogicalPtraceResidentIo s io) waiter
        (tables_env s w)).2).

Definition resident_reachable (s : LogicalPtraceResidentState) : Prop :=
  rtc resident_step InitLogicalPtraceResidentState s.

(** ** The handlers of the dispatcher *)

Lemma entry_ok s (io : LogicalPtraceResidentIoContext W) w caller number arguments : resident_ok s ->
  is_Some (task_map (rs_tasks s) !! caller) ->
  resident_ok (take_tables s (DispatchLogicalPtraceEntry (MakeLogicalPtraceResidentIo s io) caller number
    arguments (tables_env s w)).2).
Proof.
  intros Hok Hcaller. set (rio := MakeLogicalPtraceResidentIo s io).
  pose proof (DispatchLogicalPtraceEntry_ok rio caller number arguments (tables_env s w) (re_dispatch s Hok)) as He.
  pose proof (keeps_entry rio caller number arguments (tables_env s w)) as Hp. unfold post in He.
  destruct (DispatchLogicalPtraceEntry rio caller number arguments (tables_env s w)) as [[error x] e].
  cbn [fst snd] in *. destruct He as [He Hm]. apply resident_env; [done..|]. intros k Hk.
  assert (k = caller \/ is_Some (operation_map (rs_dispatcher s) !! k)) as [->|]; [|done|by apply (re_callers s Hok)].
  cbn [fst snd] in Hm. destruct (has _ _).
  - destruct Hm as (_ & _ & o & _ & Hm). rewrite Hm in Hk. by apply lookup_insert_is_Some' in Hk as [->|?]; [left|right].
  - right. cbn in Hm. by rewrite <- Hm.
Qed.

Lemma exit_ok s (w : W) caller number : resident_ok s ->
  resident_ok (take_tables s (DispatchLogicalPtraceExit caller number (tables_env s w)).2).
Proof.
  intros Hok. destruct (TaskKeyValid caller) eqn:Hk; [|rewrite exit_invalid by done; by destruct s].
  pose proof (DispatchLogicalPtraceExit_ok caller number (tables_env s w) (re_dispatch s Hok) Hk) as He.
  pose proof (keeps_exit (W := W) caller number (tables_env s w)) as Hp. unfold post in He.
  destruct (DispatchLogicalPtraceExit caller number (tables_env s w)) as [x e]. cbn [fst snd] in *.
  destruct He as (He & _ & Hm). apply resident_env; [done..|]. intros k Hks. apply (re_callers s Hok).
  assert (operation_map (dispatcher e) = operation_map (rs_dispatcher s) \/
    operation_map (dispatcher e) = delete caller (operation_map (rs_dispatcher s))) as [Hd|Hd].
  { cbn [dispatcher tables_env] in Hm. destruct (operation_map (rs_dispatcher s) !! caller) as [o|].
    - destruct (negb _); [left; by destruct Hm as [_ ->]|]. destruct Hm as (_ & _ & Hm).
      destruct (do_state o =? kHeldWait); [left; by destruct Hm as [_ ->]|right; apply Hm].
    - left. by destruct Hm as [_ ->]. }
  - by rewrite <- Hd.
  - rewrite Hd in Hks. by apply delete_is_Some in Hks as [_ ?].
Qed.

Lemma publish_ok s (w : W) tracee event : resident_ok s -> publish_safe tracee event (tables_env s w) ->
  resident_ok (take_tables s (PublishLogicalPtraceStop tracee event (tables_env s w)).2).
Proof.
  intros Hok Hn. pose proof (re_dispatch s Hok) as Hd.
  pose proof (PublishLogicalPtraceStop_safe tracee event (tables_env s w) (proj1 Hd) Hn) as Hs. unfold post in Hs.
  pose proof (keeps_publish (W := W) tracee event (tables_env s w)) as Hp.
  destruct (PublishLogicalPtraceStop tracee event (tables_env s w)) as [x e]. cbn [fst snd] in *.
  destruct (safe_ok (tables_env s w) e Hd Hs) as [He Hm].
  apply resident_env; [done..|]. intros k. rewrite Hm. apply (re_callers s Hok).
Qed.

Lemma wake_ok s (io : LogicalPtraceResidentIoContext W) w waiter : resident_ok s ->
  resident_ok (take_tables s (TryWakeLogicalPtraceWait (MakeLogicalPtraceResidentIo s io) waiter (tables_env s w)).2).
Proof.
  intros Hok. set (rio := MakeLogicalPtraceResidentIo s io).
  destruct (TaskKeyValid waiter) eqn:Hk; [|rewrite wake_invalid by done; by destruct s].
  pose proof (TryWakeLogicalPtraceWait_ok rio waiter (tables_env s w) (re_dispatch s Hok) Hk) as He.
  pose proof (keeps_wake rio waiter (tables_env s w)) as Hp. unfold post in He.
  destruct (TryWakeLogicalPtraceWait rio waiter (tables_env s w)) as [error e]. cbn [fst snd] in *.
  destruct He as [He Hm]. apply resident_env; [done..|]. intros k Hks. apply (re_callers s Hok).
  cbn [dispatcher tables_env] in Hm. destruct (operation_map (rs_dispatcher s) !! waiter) as [o|] eqn:Ho.
  - destruct (negb _); [by destruct Hm as [_ ->]|]. destruct (_ =? EAGAIN); [by destruct Hm as [_ ->]|].
    destruct Hm as (_ & _ & o' & result & _ & Hm & _). rewrite Hm in Hks.
    apply lookup_insert_is_Some' in Hks as [->|?]; [by exists o|done].
  - by destruct Hm as [_ ->].
Qed.

(** ** Every step keeps the invariant *)

Lemma initial_vacant i r : ~ entry_at (rs_tasks InitLogicalPtraceResidentState) i r.
Proof.
  intros [Hi Hu]. cbn [rs_tasks InitLogicalPtraceResidentState] in Hi.
  by apply list_lookup_fmap_Some in Hi as (slot & -> & _).
Qed.

Lemma initial_resident_ok : resident_ok InitLogicalPtraceResidentState.
Proof.
  split; [done|done|exact (initial_env_ok tt)| |].
  - split.
    + apply (slots_ok_mono (entry := fun _ => false = true)); [done|].
      by apply (validate_slots_ok _ vacant_task (fun _ => false)).
    + by intros i j r r' Hi%initial_vacant.
    + by intros i r Hi%initial_vacant.
  - intros k [o Ho]. by vm_compute in Ho.
Qed.

Lemma resident_step_ok s s' : resident_ok s -> resident_step s s' -> resident_ok s'.
Proof.
  intros Hok [slot key parent group dumpable ptracer Hslot Hp|key|n s1 Hc|key error s1 Hr|old new Hun|
    mapping former destination|io w caller number arguments Hc|w caller number|w tracee event Hn|io w waiter].
  - pose proof (RegisterLogicalPtraceResidentTask_ok s slot key parent group dumpable ptracer Hok Hslot Hp) as H.
    destruct (RegisterLogicalPtraceResidentTask _ _ _ _ _ _ _). apply H.
  - pose proof (MarkLogicalPtraceResidentTaskExited_ok s key Hok) as H.
    destruct (MarkLogicalPtraceResidentTaskExited s key). apply H.
  - destruct (CollectLogicalPtraceResidentProcesses_ok s Hok) as (s2 & Hc' & Hok' & _). congruence.
  - destruct (RetireLogicalPtraceResidentTask_ok s key Hok) as (error' & s2 & Hr' & Hok' & _). congruence.
  - pose proof (RekeyLogicalPtraceResidentTask_ok s old new Hok Hun) as H.
    destruct (RekeyLogicalPtraceResidentTask s old new). apply H.
  - pose proof (MergeExecLogicalPtraceResidentTask_ok mapping s former destination Hok) as H.
    destruct (MergeExecLogicalPtraceResidentTask mapping s former destination). apply H.
  - by apply entry_ok.
  - by apply exit_ok.
  - by apply publish_ok.
  - by apply wake_ok.
Qed.

Lemma resident_reachable_ok s : resident_reachable s -> resident_ok s.
Proof.
  unfold resident_reachable. revert s. apply rtc_ind_r; [apply initial_resident_ok|].
  intros s1 s2 _ Hs Hok. by eapply resident_step_ok.
Qed.
End Steps.

(** ** What the reachable states satisfy *)

Section Claims.
Context {W : Type}.

Lemma find_none s key : resident_ok s -> task_map (rs_tasks s) !! key = None ->
  FindLogicalPtraceResidentTask s key = None.
Proof.
  intros Hok Hn. pose proof (find_task_spec s Hok key) as Hf.
  destruct (FindLogicalPtraceResidentTask s key); [|done]. destruct Hf as (r & _ & _ & Hm & _). congruence.
Qed.

(** The thread id resolves to the active task that has it. *)
Lemma resolve_iff s tid key : resident_ok s -> 0 < tid -> ResolveTaskCallback s tid = (0, key) <->
  exists r, task_map (rs_tasks s) !! key = Some r /\ is_active r = true /\ tk_tid key = tid.
Proof.
  intros Hok Htid. unfold ResolveTaskCallback. pose proof (find_tid_spec s Hok tid Htid) as Hf.
  destruct (FindLogicalPtraceResidentTid s tid) as [i|].
  - destruct Hf as (r & Hi & Ha & Ht & Huniq). rewrite (list_lookup_total_correct _ _ _ (proj1 Hi)).
    destruct (task_at _ _ _ _ _ (re_tasks s Hok) Hi) as (Hm & _). split.
    + intros [= <-]. by exists r.
    + intros (r' & Hr' & Ha' & Ht'). destruct (task_key_lookup _ _ _ _ _ (re_tasks s Hok) Hr') as (j & Hj & Hk).
      assert (j = i) as -> by (apply (Huniq j r'); [done|done|by rewrite Hk]).
      do 2 f_equal. rewrite <- Hk. f_equal. destruct Hi, Hj. congruence.
  - split; [done|]. intros (r' & Hr' & Ha' & Ht').
    destruct (task_key_lookup _ _ _ _ _ (re_tasks s Hok) Hr') as (j & Hj & Hk).
    destruct (Hf j r' Hj Ha'). by rewrite Hk.
Qed.

Lemma resolve_none s tid : resident_ok s -> 0 < tid ->
  (forall key r, task_map (rs_tasks s) !! key = Some r -> is_active r = true -> tk_tid key <> tid) ->
  ResolveTaskCallback s tid = (ESRCH, zero_task_key).
Proof.
  intros Hok Htid Hn. destruct (ResolveTaskCallback s tid) as [error key] eqn:E. revert E.
  unfold ResolveTaskCallback. pose proof (find_tid_spec s Hok tid Htid) as Hf.
  destruct (FindLogicalPtraceResidentTid s tid) as [i|]; [|congruence]. destruct Hf as (r & Hi & Ha & Ht & _).
  exfalso. destruct (task_at _ _ _ _ _ (re_tasks s Hok) Hi) as (Hm & _). by apply (Hn (rt_key r) r).
Qed.


(** C23 (termination): CollectLogicalPtraceResidentProcesses returns: its loop
    needs at most one pass per process record. It counts what it removed,
    keeps the process of every task and every relation and wait, leaves only
    processes that have a task or are referred to, and run again it removes
    nothing and changes nothing. *)
Theorem collection_terminates s : resident_reachable (W := W) s -> exists s',
  CollectLogicalPtraceResidentProcesses s =
    Some (process_count (rs_logical s) - process_count (rs_logical s'), s') /\
  (forall i r, entry_at (rs_tasks s) i r -> live_in (process_map (rs_logical s')) (LogicalProcessKeyForTask (rt_key r))) /\
  relations (rs_logical s') = relations (rs_logical s) /\ waits (rs_logical s') = waits (rs_logical s) /\
  settled (rs_tasks s) (rs_logical s') /\ CollectLogicalPtraceResidentProcesses s' = Some (0, s').
Proof.
  intros Hok%resident_reachable_ok.
  destruct (CollectLogicalPtraceResidentProcesses_ok s Hok) as (s' & Hc & Hok' & Hco & Hst & Ht & _).
  exists s'. split; [done|]. split; [|split; [apply Hco|split; [apply Hco|split; [done|]]]].
  - intros i r Hi. apply (co_kept _ _ _ Hco); [|by eapply has_task_entry].
    by destruct (task_at _ _ _ _ _ (re_tasks s Hok) Hi) as (_ & (_ & _ & _ & ? & _) & _).
  - apply collect_again; [by apply re_init|by apply re_table|by rewrite Ht].
Qed.

(** The life of a task as the callbacks see it: once
    registered its thread id resolves to exactly its key, and as soon as it is
    marked as exited the thread id is unknown. *)
Theorem registered_until_exited s slot key parent group dumpable ptracer : resident_reachable (W := W) s -> 0 <= slot ->
  parent_registered s parent -> TaskKeyValid key = true ->
  let register := RegisterLogicalPtraceResidentTask s slot key parent group dumpable ptracer in
  let exited := MarkLogicalPtraceResidentTaskExited register.2 key in
  register.1 = 0 ->
  ResolveTaskCallback register.2 (tk_tid key) = (0, key) /\ exited.1 = 0 /\
  ResolveTaskCallback exited.2 (tk_tid key) = (ESRCH, zero_task_key).
Proof.
  intros Hok%resident_reachable_ok Hslot Hp Hk. cbv zeta.
  assert (0 < tk_tid key) as Htid by (unfold TaskKeyValid in Hk; bool_hyps; lia).
  pose proof (RegisterLogicalPtraceResidentTask_ok s slot key parent group dumpable ptracer Hok Hslot Hp) as Hr.
  destruct (RegisterLogicalPtraceResidentTask _ _ _ _ _ _ _) as [error s1]. cbn [fst snd].
  destruct Hr as (Hok1 & _ & Hdone). intros H0. destruct (Hdone H0) as (r & Hm & _ & Ha).
  split; [apply resolve_iff; by eauto|].
  pose proof (MarkLogicalPtraceResidentTaskExited_ok s1 key Hok1) as He.
  destruct (MarkLogicalPtraceResidentTaskExited s1 key) as [error2 s2]. cbn [fst snd].
  destruct He as (Hok2 & Hfail & Hdone2).
  assert (error2 = 0) as E by (destruct (decide (error2 = 0)); [done|]; destruct (Hfail ltac:(done)); congruence).
  split; [done|]. destruct (Hdone2 E) as (r' & Hm2 & Ha'). apply resolve_none; [done|done|]. intros k x. rewrite Hm2.
  intros [[<- <-]|[Hne Hx]]%lookup_insert_Some Hax Htx; [congruence|].
  assert (ResolveTaskCallback s1 (tk_tid key) = (0, k)) as E1 by (apply resolve_iff; by eauto).
  assert (ResolveTaskCallback s1 (tk_tid key) = (0, key)) as E2 by (apply resolve_iff; by eauto).
  congruence.
Qed.

(** C24 (safety): Retiring a task returns, and when it succeeds nothing refers
    to the task any more: not the index, no parent link, no operation in
    flight, no wait, no relation and no stop record; every other task stays
    registered. *)
Theorem retire_leaves_no_trace s key : resident_reachable (W := W) s -> exists error s',
  RetireLogicalPtraceResidentTask s key = Some (error, s') /\
  (error = 0 ->
   FindLogicalPtraceResidentTask s' key = None /\
   (forall i x, entry_at (rs_tasks s') i x -> parent_valid x = true -> rt_parent x <> key) /\
   operation_map (rs_dispatcher s') !! key = None /\ wait_map (rs_logical s') !! key = None /\
   (forall i r, entry_at (relations (rs_logical s')) i r -> lr_tracee r <> key /\ lr_tracer r <> key) /\
   (forall i stop, ld_stops (rs_dispatcher s') !! i = Some stop -> ds_relation_generation stop <> 0 ->
      ds_tracee stop <> key) /\
   forall k, k <> key -> is_Some (task_map (rs_tasks s) !! k) -> is_Some (task_map (rs_tasks s') !! k)).
Proof.
  intros Hok%resident_reachable_ok.
  destruct (RetireLogicalPtraceResidentTask_ok s key Hok) as (error & s' & Hr & Hok' & Hdone).
  exists error, s'. split; [done|]. intros H0. destruct (Hdone H0) as ([Ht Hp Ho Hrel _] & Hno).
  destruct (re_dispatch s' Hok') as [Hcore Hheld].
  assert (operation_map (rs_dispatcher s') !! key = None) as Hop by (rewrite Ho; apply lookup_delete_eq).
  assert (task_map (rs_tasks s') !! key = None) as Hnone by (apply eq_None_not_Some; by intros [? _]%Ht).
  split; [by apply find_none|]. split; [done|]. split; [done|]. split; [|split; [done|split]].
  - apply eq_None_not_Some. intros Hw%Hheld. destruct Hw as (o & Hw & _). congruence.
  - intros i stop Hst Hg E. destruct (lookup_lt_is_Some_2 (relations (rs_logical s')) i) as [r Hri].
    { rewrite (ty_relations _ (ok_typed _ (ck_table _ _ Hcore))), <- (ck_length _ _ Hcore). by eapply lookup_lt_Some. }
    destruct (sk_relation _ _ _ (ck_stops _ _ Hcore i r stop Hri Hst)) as [[? _]|[_ Ha]]; [done|].
    destruct (Hno i r (conj Hri (at_use _ _ Ha))) as [Hn _]. apply Hn. by rewrite (at_tracee _ _ Ha).
  - intros k Hk Hs. by apply Ht.
Qed.

(** C25 (error): The exec of a thread that is not the leader is atomic: a call
    that fails - no memory for the copy, a wrong identity, a conflict found by
    the final validation, such as a chain of tracers between the thread and the
    leader - leaves the state as it was. When it succeeds the
    thread has become the leader: the old identity is gone from the index, the
    parent links and the operations, and the leader's thread id resolves to
    the leader's key, in the leader's slot. *)
Theorem exec_replaces_leader mapping s former destination : resident_reachable (W := W) s ->
  let x := MergeExecLogicalPtraceResidentTask mapping s former destination in
  (x.1 <> 0 -> x.2 = s) /\
  (x.1 = 0 -> ValidateLogicalPtraceResidentState x.2 = true /\
   FindLogicalPtraceResidentTask x.2 former = None /\
   FindLogicalPtraceResidentTask x.2 destination = FindLogicalPtraceResidentTask s destination /\
   ResolveTaskCallback x.2 (tk_tid destination) = (0, destination) /\
   operation_map (rs_dispatcher x.2) !! former = None /\
   forall i c, entry_at (rs_tasks x.2) i c -> parent_valid c = true -> rt_parent c <> former).
Proof.
  intros Hok%resident_reachable_ok. cbv zeta.
  pose proof (MergeExecLogicalPtraceResidentTask_ok mapping s former destination Hok) as Hm.
  destruct (MergeExecLogicalPtraceResidentTask mapping s former destination) as [error s']. cbn [fst snd].
  destruct Hm as (Hok' & Hfail & Hdone). split; [done|]. intros H0.
  destruct (Hdone H0) as [Ht Hp (r & r' & Hr & Hr' & Hsl & Ha) Ho].
  split; [by apply resident_ok_validates|].
  split; [apply find_none; [done|]; apply eq_None_not_Some; by intros [? _]%Ht|].
  split; [|split; [|split; [done|done]]].
  - pose proof (find_task_spec s Hok destination) as Hf. pose proof (find_task_spec s' Hok' destination) as Hf'.
    destruct (FindLogicalPtraceResidentTask s destination) as [i|]; [|congruence].
    destruct (FindLogicalPtraceResidentTask s' destination) as [j|]; [|congruence].
    destruct Hf as (x & _ & _ & Hx & _ & Hxs & _), Hf' as (y & _ & _ & Hy & _ & Hys & _).
    f_equal. assert (x = r) as -> by congruence. assert (y = r') as -> by congruence. lia.
  - apply resolve_iff; [done| |by exists r'].
    destruct (task_key_lookup _ _ _ _ _ (re_tasks s' Hok') Hr') as (j & Hj & <-).
    destruct (task_at _ _ _ _ _ (re_tasks s' Hok') Hj) as (_ & (_ & Hk & _) & _).
    unfold TaskKeyValid in Hk. bool_hyps. lia.
Qed.
End Claims.

(** ** A scenario: process 10 with a second thread, and its child process 20 *)

Definition thread11 : LogicalTaskKey := Build_LogicalTaskKey 11 10 7 1.

Definition leader_state := (RegisterLogicalPtraceResidentTask InitLogicalPtraceResidentState 0 task10 None 10 1 nobody).2.
Definition child_state := (RegisterLogicalPtraceResidentTask leader_state 1 task20 (Some task10) 20 1 nobody).2.
Definition thread_state := (RegisterLogicalPtraceResidentTask child_state 2 thread11 (Some task10) 10 1 nobody).2.

Abbreviation reached := (resident_reachable (W := unit)).

Lemma reached_register s slot key parent group : reached s -> 0 <= slot -> parent_registered s parent ->
  reached (RegisterLogicalPtraceResidentTask s slot key parent group 1 nobody).2.
Proof. intros Hs H0 Hp. eapply rtc_r; [exact Hs|]. by apply resident_register. Qed.

Lemma leader_reached : reached leader_state.
Proof. apply reached_register; [apply rtc_refl|lia|done]. Qed.

Lemma child_reached : reached child_state.
Proof.
  apply reached_register; [exact leader_reached|lia|]. intros p [= <-]. vm_compute. by eexists.
Qed.

Lemma thread_reached : reached thread_state.
Proof.
  apply reached_register; [exact child_reached|lia|]. intros p [= <-]. vm_compute. by eexists.
Qed.



Lemma collection_terminates_witness : exists s',
  CollectLogicalPtraceResidentProcesses thread_state =
    Some (process_count (rs_logical thread_state) - process_count (rs_logical s'), s') /\
  CollectLogicalPtraceResidentProcesses s' = Some (0, s').
Proof.
  destruct (collection_terminates thread_state thread_reached) as (s' & Hc & _ & _ & _ & _ & Ha).
  exists s'. split; [exact Hc|exact Ha].
Defined.

Lemma registered_until_exited_witness :
  let register := RegisterLogicalPtraceResidentTask leader_state 1 task20 (Some task10) 20 1 nobody in
  let exited := MarkLogicalPtraceResidentTaskExited register.2 task20 in
  register.1 = 0 /\ ResolveTaskCallback register.2 20 = (0, task20) /\
  ResolveTaskCallback exited.2 20 = (ESRCH, zero_task_key).
Proof.
  assert (parent_registered leader_state (Some task10)) as Hp by (intros p [= <-]; vm_compute; by eexists).
  assert ((RegisterLogicalPtraceResidentTask leader_state 1 task20 (Some task10) 20 1 nobody).1 = 0) as H0
    by (vm_compute; reflexivity).
  destruct (registered_until_exited leader_state 1 task20 (Some task10) 20 1 nobody leader_reached ltac:(lia) Hp
    eq_refl H0) as (Hr & _ & He).
  split; [exact H0|]. split; [exact Hr|exact He].
Defined.

Lemma retire_leaves_no_trace_witness : exists error s',
  RetireLogicalPtraceResidentTask thread_state task20 = Some (error, s') /\
  (error = 0 -> FindLogicalPtraceResidentTask s' task20 = None).
Proof.
  destruct (retire_leaves_no_trace thread_state task20 thread_reached) as (error & s' & Hr & Hd).
  exists error, s'. split; [exact Hr|]. intros H0. exact (proj1 (Hd H0)).
Defined.

Example task20_retires : match RetireLogicalPtraceResidentTask thread_state task20 with
  | Some (error, s') => error = 0 /\ process_count (rs_logical s') = 1 | None => False end.
Proof. by vm_compute. Qed.

(** Thread 10 traces task 20, which traces thread 11. *)
Definition permissive_io : LogicalPtraceResidentIoContext unit :=
  {| rc_may_attach := Some (fun w _ _ _ => (0, w)); rc_read_memory := None; rc_write_memory := None;
     rc_query_uid := None; rc_fill_rusage := None |}.
Definition seize (s : LogicalPtraceResidentState) (tracer : LogicalTaskKey) (tid : Z) : LogicalPtraceResidentState :=
  let s := take_tables s (DispatchLogicalPtraceEntry (MakeLogicalPtraceResidentIo s permissive_io) tracer NR_ptrace
    [PTRACE_SEIZE; tid; 0; 0; 0; 0] (tables_env s tt)).2 in
  take_tables s (DispatchLogicalPtraceExit tracer NR_ptrace (tables_env s tt)).2.
Definition chained_state := seize (seize thread_state task10 20) task20 11.

Lemma seize_reached s tracer tid : reached s -> is_Some (task_map (rs_tasks s) !! tracer) ->
  reached (seize s tracer tid).
Proof.
  intros Hs Ht. eapply rtc_r; [|by apply resident_exit]. eapply rtc_r; [exact Hs|]. by apply resident_entry.
Qed.

Lemma chained_reached : reached chained_state.
Proof.
  apply seize_reached; [apply seize_reached; [exact thread_reached|]|]; vm_compute; by eexists.
Qed.

(** Thread 11 becomes the leader; behind the chain of tracers the exec fails. *)
Lemma exec_replaces_leader_witness :
  let x := MergeExecLogicalPtraceResidentTask None thread_state thread11 task10 in
  let y := MergeExecLogicalPtraceResidentTask None chained_state thread11 task10 in
  x.1 = 0 /\ FindLogicalPtraceResidentTask x.2 thread11 = None /\ ResolveTaskCallback x.2 10 = (0, task10) /\
  relation_count (rs_logical chained_state) = 2 /\ y.1 <> 0 /\ y.2 = chained_state.
Proof.
  assert ((MergeExecLogicalPtraceResidentTask None thread_state thread11 task10).1 = 0) as H0
    by (vm_compute; reflexivity).
  assert ((MergeExecLogicalPtraceResidentTask None chained_state thread11 task10).1 <> 0) as H1
    by (vm_compute; discriminate).
  destruct (exec_replaces_leader None thread_state thread11 task10 thread_reached) as [_ Hd].
  destruct (exec_replaces_leader None chained_state thread11 task10 chained_reached) as [Hs _].
  destruct (Hd H0) as (_ & Hf & _ & Hr & _).
  split; [exact H0|]. split; [exact Hf|]. split; [exact Hr|]. split; [vm_compute; reflexivity|].
  split; [exact H1|exact (Hs H1)].
Defined.

(** ** The parent of a process whose thread calls exec *)

Definition thread21 : LogicalTaskKey := Build_LogicalTaskKey 21 20 7 1.
Definition threaded_child :=
  (RegisterLogicalPtraceResidentTask child_state 2 thread21 (Some task20) 20 1 nobody).2.

(** The thread's parent link names the leader that created it, and it replaces
    the leader's own: after the exec the leader has no parent to resolve -
    PTRACE_TRACEME then fails - although the process record still names
    process 10 as the parent. *)
Theorem exec_forgets_parent :
  let x := MergeExecLogicalPtraceResidentTask None threaded_child thread21 task20 in
  x.1 = 0 /\ ResolveParentCallback threaded_child task20 = (0, task10) /\
  ResolveParentCallback x.2 task20 = (ESRCH, zero_task_key) /\
  parent_of (process_map (rs_logical x.2)) process20 = Some process10.
Proof. by vm_compute. Qed.
