(* ===== verification/Arm64Encoding.v ===== *)
(** * A64 instruction encoding helpers of the inline hook

    Models [inline_hook/internal/arm64_encoding.{h,cpp}]: classification of an
    instruction word, computation and re-encoding of PC-relative targets, and
    the bounded [CodeWriter].  A [bool] result with an out-pointer becomes an
    [option]. *)

From S2P Require Import Prelude Bits.

(** ** Constants (arm64_encoding.h) *)

Definition kNop : Z := 0xd503201f.
Definition kBti : Z := 0xd503241f.
Definition kBtiC : Z := 0xd503245f.
Definition kBtiJ : Z := 0xd503249f.
Definition kBtiJc : Z := 0xd50324df.
Definition kPaciasp : Z := 0xd503233f.
Definition kPacibsp : Z := 0xd503237f.
Definition kAutiasp : Z := 0xd50323bf.
Definition kAutibsp : Z := 0xd50323ff.
Definition kBrX17 : Z := 0xd61f0220.
Definition kBlrX17 : Z := 0xd63f0220.
Definition kStrX17PreIndexSpMinus16 : Z := 0xf81f0ff1.
Definition kLdrX17PostIndexSpPlus16 : Z := 0xf84107f1.
Definition kBranchRange : Z := 1 <<< 27.

Inductive InstructionKind :=
| kOther | kB | kBl | kBCond | kCompareBranch | kTestBranch
| kAdr | kAdrp | kLiteralLoad.

#[export] Instance InstructionKind_eq_dec : EqDecision InstructionKind.
Proof. solve_decision. Defined.

(** ** Signed arithmetic helpers *)

Definition SignExtend (value bits : Z) : Z :=
  let sign := 1 <<< (bits - 1) in
  let mask := (1 <<< bits) - 1 in
  let value := value &&& mask in
  if (value &&& sign) =? 0 then value
  else - ((not64 value &&& mask) + 1).

Definition SignedDifference (target source : Z) : option Z :=
  if source <=? target then
    let magnitude := target - source in
    if INT64_MAX <? magnitude then None else Some magnitude
  else
    let magnitude := source - target in
    let minimum_magnitude := 1 <<< 63 in
    if minimum_magnitude <? magnitude then None
    else Some (if magnitude =? minimum_magnitude then INT64_MIN else - magnitude).

(** C's [%] and [/] truncate towards zero: [Z.rem] and [Z.quot]. *)
Definition EncodeSignedImmediate (byte_offset bits : Z) : option Z :=
  if negb (Z.rem byte_offset 4 =? 0) then None
  else
    let units := Z.quot byte_offset 4 in
    let minimum := - (1 <<< (bits - 1)) in
    let maximum := (1 <<< (bits - 1)) - 1 in
    if (units <? minimum) || (maximum <? units) then None
    else Some (u32 units &&& ((1 <<< bits) - 1)).

(** ** Classification *)

Definition DecodeKind (instruction : Z) : InstructionKind :=
  if (instruction &&& 0x7c000000) =? 0x14000000 then
    if has instruction 0x80000000 then kBl else kB
  else if (instruction &&& 0xff000000) =? 0x54000000 then kBCond
  else if (instruction &&& 0x7e000000) =? 0x34000000 then kCompareBranch
  else if (instruction &&& 0x7e000000) =? 0x36000000 then kTestBranch
  else if (instruction &&& 0x1f000000) =? 0x10000000 then
    if has instruction 0x80000000 then kAdrp else kAdr
  else if (instruction &&& 0x3b000000) =? 0x18000000 then kLiteralLoad
  else kOther.

Definition IsBti (instruction : Z) : bool :=
  (instruction =? kBti) || (instruction =? kBtiC) ||
  (instruction =? kBtiJ) || (instruction =? kBtiJc).

(** The result is the matching authenticate instruction ([*authenticate]). *)
Definition IsPacEntry (instruction : Z) : option Z :=
  if instruction =? kPaciasp then Some kAutiasp
  else if instruction =? kPacibsp then Some kAutibsp
  else None.

Definition IsRegisterBranchWithLink (instruction : Z) : bool :=
  let register_masked := instruction &&& 0xfffffc1f in
  if (register_masked =? 0xd63f0000) || (register_masked =? 0xd63f081f) ||
     (register_masked =? 0xd63f0c1f) then true
  else
    let authenticated_masked := instruction &&& 0xfffffc00 in
    (authenticated_masked =? 0xd73f0800) || (authenticated_masked =? 0xd73f0c00).

Definition IsExceptionGeneration (instruction : Z) : bool :=
  (instruction &&& 0xff000000) =? 0xd4000000.

(** ** PC-relative targets *)

Definition DecodePcRelativeTarget (instruction pc : Z) : Z :=
  match DecodeKind instruction with
  | kB | kBl =>
      let offset := SignExtend ((instruction &&& 0x03ffffff) <<< 2) 28 in
      u64 (pc + u64 offset)
  | kBCond | kCompareBranch | kLiteralLoad =>
      let offset := SignExtend (((instruction >>> 5) &&& 0x7ffff) <<< 2) 21 in
      u64 (pc + u64 offset)
  | kTestBranch =>
      let offset := SignExtend (((instruction >>> 5) &&& 0x3fff) <<< 2) 16 in
      u64 (pc + u64 offset)
  | kAdr | kAdrp =>
      let immediate := ((instruction >>> 29) &&& 0x3) |||
                       (((instruction >>> 5) &&& 0x7ffff) <<< 2) in
      let offset := SignExtend immediate 21 in
      if decide (DecodeKind instruction = kAdrp) then
        u64 ((pc &&& not64 0xfff) + u64 (offset * 4096))
      else u64 (pc + u64 offset)
  | kOther => 0
  end.

Definition EncodePcRelative (instruction pc target : Z) : option Z :=
  let kind := DecodeKind instruction in
  match kind with
  | kB | kBl =>
      offset ← SignedDifference target pc;
      immediate ← EncodeSignedImmediate offset 26;
      Some ((instruction &&& 0xfc000000) ||| immediate)
  | kBCond | kCompareBranch | kLiteralLoad =>
      offset ← SignedDifference target pc;
      immediate ← EncodeSignedImmediate offset 19;
      Some ((instruction &&& not32 (0x7ffff <<< 5)) ||| u32 (immediate <<< 5))
  | kTestBranch =>
      offset ← SignedDifference target pc;
      immediate ← EncodeSignedImmediate offset 14;
      Some ((instruction &&& not32 (0x3fff <<< 5)) ||| u32 (immediate <<< 5))
  | kAdr | kAdrp =>
      offset ←
        (if decide (kind = kAdrp) then
           let source_page := pc &&& not64 0xfff in
           let target_page := target &&& not64 0xfff in
           page_bytes ← SignedDifference target_page source_page;
           Some (Z.quot page_bytes 4096)
         else SignedDifference target pc);
      let minimum := - (1 <<< 20) in
      let maximum := (1 <<< 20) - 1 in
      if (offset <? minimum) || (maximum <? offset) then None
      else
        let value := u32 offset &&& 0x1fffff in
        Some ((instruction &&& not32 (u32 (0x3 <<< 29) ||| (0x7ffff <<< 5)))
              ||| u32 ((value &&& 0x3) <<< 29)
              ||| u32 (((value >>> 2) &&& 0x7ffff) <<< 5))
  | kOther => None
  end.

Definition EncodeBranch (pc target : Z) (link : bool) : option Z :=
  let instruction := if link then 0x94000000 else 0x14000000 in
  EncodePcRelative instruction pc target.

Definition EncodeLdrLiteralX (reg pc literal : Z) : option Z :=
  if 31 <? reg then None
  else EncodePcRelative (0x58000000 ||| reg) pc literal.

Definition EncodeLiteralMemoryLoad (original base_reg : Z) : option Z :=
  if (31 <? base_reg) || negb (bool_decide (DecodeKind original = kLiteralLoad))
  then None
  else
    let opc := (original >>> 30) &&& 0x3 in
    let vector := (original >>> 26) &&& 0x1 in
    let rt := original &&& 0x1f in
    base ←
      (if vector =? 0 then
         if opc =? 0 then Some 0xb9400000
         else if opc =? 1 then Some 0xf9400000
         else if opc =? 2 then Some 0xb9800000
         else if opc =? 3 then Some 0xf9800000
         else None
       else
         if opc =? 0 then Some 0xbd400000
         else if opc =? 1 then Some 0xfd400000
         else if opc =? 2 then Some 0x3dc00000
         else None);
    Some (base ||| u32 (base_reg <<< 5) ||| rt).

Definition InvertConditional (instruction : Z) : Z :=
  match DecodeKind instruction with
  | kBCond => instruction ^^^ 0x1
  | kCompareBranch | kTestBranch => instruction ^^^ (1 <<< 24)
  | _ => instruction
  end.

Definition IsUnconditionalBranch (instruction : Z) : bool :=
  bool_decide (DecodeKind instruction = kB).

(** ** Ranges of the PC-relative forms

    What an assembler promises: the target is encodable exactly when the byte
    distance (page distance for ADRP) fits the signed immediate of the kind. *)

Definition is_pc_relative (kind : InstructionKind) : bool :=
  negb (bool_decide (kind = kOther)).

(** Number of immediate bits of a word-scaled branch or literal kind. *)
Definition imm_bits (kind : InstructionKind) : Z :=
  match kind with
  | kB | kBl => 26
  | kBCond | kCompareBranch | kLiteralLoad => 19
  | kTestBranch => 14
  | _ => 0
  end.

Definition page (address : Z) : Z := address - address mod 4096.

Definition in_range (kind : InstructionKind) (pc target : Z) : bool :=
  match kind with
  | kAdr => (- 2 ^ 20 <=? target - pc) && (target - pc <? 2 ^ 20)
  | kAdrp => (- 2 ^ 20 <=? (page target - page pc) / 4096)
             && ((page target - page pc) / 4096 <? 2 ^ 20)
  | kOther => false
  | _ => ((target - pc) mod 4 =? 0)
         && (- 2 ^ (imm_bits kind + 1) <=? target - pc)
         && (target - pc <? 2 ^ (imm_bits kind + 1))
  end.

(** The address an encoded instruction of this kind denotes. *)
Definition denoted (kind : InstructionKind) (target : Z) : Z :=
  match kind with kAdrp => page target | _ => target end.

Definition word (x : Z) : Prop := 0 <= x < 2 ^ 32.
Definition addr (x : Z) : Prop := 0 <= x < 2 ^ 64.

(** ** Arithmetic of the helpers *)

Lemma SignExtend_as_signed v b :
  0 < b <= 64 -> 0 <= v -> SignExtend v b = as_signed b v.
Proof.
  intros Hb Hv. unfold SignExtend, as_signed.
  rewrite !land_ones_mod by lia.
  pose proof (Z.mod_pos_bound v (2 ^ b) ltac:(lia)) as Hm.
  set (m := v mod 2 ^ b) in *.
  pose proof (land_pow2_zero m (b - 1) ltac:(lia)) as Hz.
  replace (b - 1 + 1) with b in Hz by lia. specialize (Hz Hm).
  unfold not64, u64, Z.lnot.
  rewrite (mod_pow2_low _ 64 b) by lia.
  assert ((Z.pred (- m)) mod 2 ^ b = 2 ^ b - 1 - m) as ->.
  { symmetry. apply Z.mod_unique with (-1); lia. }
  destruct (Z.eqb_spec (m &&& (1 <<< (b - 1))) 0) as [H0|H0];
    destruct (Z.ltb_spec m (2 ^ (b - 1))); lia.
Qed.

Lemma SignedDifference_spec target source :
  addr target -> addr source ->
  SignedDifference target source =
    if (INT64_MIN <=? target - source) && (target - source <=? INT64_MAX)
    then Some (target - source) else None.
Proof.
  unfold addr, SignedDifference, INT64_MIN, INT64_MAX. intros.
  change (1 <<< 63) with (2 ^ 63).
  split_ifs; try lia; f_equal; lia.
Qed.

Lemma EncodeSignedImmediate_spec off b :
  0 < b <= 32 ->
  EncodeSignedImmediate off b =
    if (off mod 4 =? 0) && (- 2 ^ (b + 1) <=? off) && (off <? 2 ^ (b + 1))
    then Some (off / 4 mod 2 ^ b) else None.
Proof.
  intros Hb. unfold EncodeSignedImmediate.
  assert (Z.rem off 4 = 0 <-> off mod 4 = 0) as Hr.
  { rewrite Z.rem_divide, Z.mod_divide by lia. done. }
  assert (2 ^ (b + 1) = 4 * 2 ^ (b - 1)) as Hp.
  { replace (b + 1) with (2 + (b - 1)) by lia. by rewrite Z.pow_add_r by lia. }
  rewrite !Z.shiftl_1_l.
  destruct (Z.eqb_spec (Z.rem off 4) 0) as [H0|H0];
    destruct (Z.eqb_spec (off mod 4) 0) as [H1|H1]; try tauto; simpl; try done.
  assert (Z.quot off 4 = off / 4) as ->.
  { apply Z.mod_divide in H1 as [k ->]; [|lia].
    by rewrite Z.quot_mul, Z.div_mul by lia. }
  pose proof (Z.div_mod off 4).
  assert (off = 4 * (off / 4)) by lia.
  rewrite (land_const_mod _ _ b) by lia.
  unfold u32. rewrite (mod_pow2_low _ 32 b) by lia.
  split_ifs; lia || done.
Qed.

Lemma not64_page a : addr a -> a &&& not64 0xfff = page a.
Proof.
  intros Ha. unfold page, addr in *.
  assert (a &&& not64 0xfff = Z.ldiff a (Z.ones 12)) as ->.
  { apply Z.bits_inj'. intros n Hn. rewrite Z.land_spec, Z.ldiff_spec.
    unfold not64, u64. destruct (decide (n < 64)).
    - rewrite Z.mod_pow2_bits_low by lia. by rewrite Z.lnot_spec by lia.
    - rewrite (testbit_high a 64) by lia. done. }
  rewrite Z.ldiff_ones_r, Z.shiftl_mul_pow2, Z.shiftr_div_pow2 by lia.
  change (2 ^ 12) with 4096. pose proof (Z.div_mod a 4096). lia.
Qed.

Lemma page_div a b : (page a - page b) / 4096 = a / 4096 - b / 4096.
Proof.
  unfold page. pose proof (Z.div_mod a 4096). pose proof (Z.div_mod b 4096).
  replace (a - a mod 4096 - (b - b mod 4096)) with ((a / 4096 - b / 4096) * 4096) by lia.
  by rewrite Z.div_mul by lia.
Qed.

Lemma quot_page a b : Z.quot (page a - page b) 4096 = (page a - page b) / 4096.
Proof.
  rewrite page_div. unfold page.
  pose proof (Z.div_mod a 4096). pose proof (Z.div_mod b 4096).
  replace (a - a mod 4096 - (b - b mod 4096)) with ((a / 4096 - b / 4096) * 4096) by lia.
  by rewrite Z.quot_mul by lia.
Qed.

(** ** The kind only depends on the opcode bits *)

Lemma DecodeKind_top i j :
  i &&& 0xff000000 = j &&& 0xff000000 -> DecodeKind i = DecodeKind j.
Proof.
  intros H. unfold DecodeKind, has.
  assert (forall k, 0xff000000 &&& k = k -> i &&& k = j &&& k) as Hk.
  { intros k Hk. by rewrite <- Hk, !Z.land_assoc, H. }
  by rewrite !(Hk _ eq_refl).
Qed.

Lemma DecodeKind_branch i :
  i &&& 0x7c000000 = 0x14000000 ->
  DecodeKind i = if has i 0x80000000 then kBl else kB.
Proof. intros H. unfold DecodeKind. by rewrite H. Qed.

Lemma DecodeKind_branch_inv i :
  DecodeKind i = kB \/ DecodeKind i = kBl -> i &&& 0x7c000000 = 0x14000000.
Proof.
  unfold DecodeKind. intros H. split_ifs_in H; try (destruct H; discriminate).
  all: by apply Z.eqb_eq.
Qed.

Lemma DecodeKind_adr i :
  i &&& 0x1f000000 = 0x10000000 ->
  DecodeKind i = if has i 0x80000000 then kAdrp else kAdr.
Proof.
  intros H. unfold DecodeKind.
  assert (forall m v k, (v &&& k <> 0x10000000 &&& k) -> m &&& k = k ->
            0x1f000000 &&& k = k -> (i &&& m =? v) = false) as Hne.
  { intros m v k Hv Hm Hk. apply Z.eqb_neq. intros Heq. apply Hv.
    rewrite <- (land_mask_mono _ _ k _ Heq), <- (land_mask_mono _ _ k _ H); [done| |];
      by rewrite Z.land_comm. }
  rewrite (Hne 0x7c000000 0x14000000 0x1c000000) by done.
  rewrite (Hne 0xff000000 0x54000000 0x1f000000) by done.
  rewrite (Hne 0x7e000000 0x34000000 0x1e000000) by done.
  rewrite (Hne 0x7e000000 0x36000000 0x1e000000) by done.
  by rewrite H.
Qed.

Lemma DecodeKind_adr_inv i :
  DecodeKind i = kAdr \/ DecodeKind i = kAdrp -> i &&& 0x1f000000 = 0x10000000.
Proof.
  unfold DecodeKind. intros H. split_ifs_in H; try (destruct H; discriminate).
  all: by apply Z.eqb_eq.
Qed.

(** ** Reference encoder

    [put_imm kind i v] replaces the immediate field of [i] by [v]; the encoder
    is "range check, then put the immediate". *)

Definition put_imm (kind : InstructionKind) (i v : Z) : Z :=
  match kind with
  | kB | kBl => (i &&& 0xfc000000) ||| (v <<< 0)
  | kBCond | kCompareBranch | kLiteralLoad => (i &&& 0xff00001f) ||| (v <<< 5)
  | kTestBranch => (i &&& 0xfff8001f) ||| (v <<< 5)
  | kAdr | kAdrp =>
      (((i &&& 0x9f00001f) ||| ((v mod 4) <<< 29)) &&& 0xff00001f)
      ||| ((v / 4) <<< 5)
  | kOther => i
  end.

Definition imm_value (kind : InstructionKind) (pc target : Z) : Z :=
  match kind with
  | kAdr => (target - pc) mod 2 ^ 21
  | kAdrp => ((page target - page pc) / 4096) mod 2 ^ 21
  | kOther => 0
  | _ => (target - pc) / 4 mod 2 ^ imm_bits kind
  end.

(** Value bounds of the immediate. *)
Lemma imm_value_bound kind pc target :
  0 <= imm_value kind pc target <
    2 ^ (match kind with kAdr | kAdrp => 21 | _ => imm_bits kind end).
Proof. destruct kind; simpl; try (apply Z.mod_pos_bound; lia); lia. Qed.

Lemma encode_word_scaled pc target k (f : Z -> Z) :
  addr pc -> addr target -> 0 < k <= 26 ->
  (offset ← SignedDifference target pc;
   immediate ← EncodeSignedImmediate offset k; Some (f immediate)) =
  if ((target - pc) mod 4 =? 0) && (- 2 ^ (k + 1) <=? target - pc)
     && (target - pc <? 2 ^ (k + 1))
  then Some (f ((target - pc) / 4 mod 2 ^ k)) else None.
Proof.
  intros Hp Ht Hk. rewrite SignedDifference_spec by done.
  assert (2 ^ (k + 1) <= 2 ^ 27) by (apply Z.pow_le_mono_r; lia).
  unfold INT64_MIN, INT64_MAX in *.
  destruct ((-9223372036854775808 <=? target - pc) &&
            (target - pc <=? 9223372036854775807)) eqn:E; simpl.
  - rewrite EncodeSignedImmediate_spec by lia. by split_ifs.
  - split_ifs; lia || done.
Qed.

Lemma adr_fields i v :
  0 <= v < 2 ^ 21 ->
  (i &&& 0x9f00001f) ||| u32 ((v &&& 0x3) <<< 29)
    ||| u32 (((v >>> 2) &&& 0x7ffff) <<< 5) = put_imm kAdr i v.
Proof.
  intros Hv. simpl.
  rewrite (land_const_mod v 3 2), (land_const_mod _ 0x7ffff 19) by done.
  rewrite Z.shiftr_div_pow2 by lia. change (2 ^ 2) with 4.
  pose proof (Z.mod_pos_bound v 4 ltac:(lia)).
  assert (0 <= v / 4 < 2 ^ 19) by (split; [apply Z.div_pos|apply Z.div_lt_upper_bound]; lia).
  rewrite (Z.mod_small (v / 4)) by done.
  rewrite !u32_small; try (eapply shiftl_bound with (w := 19); lia);
    try (eapply shiftl_bound with (w := 2); lia).
  f_equal.
  symmetry. rewrite Z.land_lor_distr_l, <- Z.land_assoc. f_equal.
  rewrite (mod_pow2_land (v mod 4) 2) by lia.
  by rewrite Z.shiftl_land, <- Z.land_assoc by lia.
Qed.

Lemma page_addr a : addr a -> addr (page a).
Proof.
  unfold addr, page. pose proof (Z.mod_pos_bound a 4096 ltac:(lia)).
  pose proof (Z.mod_le a 4096). lia.
Qed.

(** The shared tail of the ADR and ADRP cases. *)
Lemma encode_adr_tail i off :
  (if (off <? - (1 <<< 20)) || ((1 <<< 20) - 1 <? off) then None
   else
     let value := u32 off &&& 0x1fffff in
     Some ((i &&& not32 (u32 (0x3 <<< 29) ||| (0x7ffff <<< 5)))
           ||| u32 ((value &&& 0x3) <<< 29)
           ||| u32 (((value >>> 2) &&& 0x7ffff) <<< 5))) =
  if (- 2 ^ 20 <=? off) && (off <? 2 ^ 20)
  then Some (put_imm kAdr i (off mod 2 ^ 21)) else None.
Proof.
  change (1 <<< 20) with (2 ^ 20).
  destruct ((off <? - 2 ^ 20) || _) eqn:E2;
    destruct ((- 2 ^ 20 <=? off) && _) eqn:E3; try lia; [done|].
  f_equal. rewrite <- (adr_fields i); [|apply Z.mod_pos_bound; lia].
  rewrite (land_const_mod (u32 off) 0x1fffff 21) by done.
  unfold u32 at 3 5. by rewrite (mod_pow2_low _ 32 21) by lia.
Qed.

Lemma EncodePcRelative_spec i pc target :
  addr pc -> addr target ->
  EncodePcRelative i pc target =
    let kind := DecodeKind i in
    if in_range kind pc target
    then Some (put_imm kind i (imm_value kind pc target)) else None.
Proof.
  intros Hp Ht. unfold EncodePcRelative. cbv zeta.
  destruct (DecodeKind i) eqn:Ek; simpl in_range; cbn [imm_bits put_imm imm_value];
    try done.
  1,2: rewrite (encode_word_scaled pc target 26 (fun v => (i &&& 0xfc000000) ||| v)) by (done || lia);
       by rewrite Z.shiftl_0_r.
  1,2,6: rewrite (encode_word_scaled pc target 19
           (fun v => (i &&& not32 (0x7ffff <<< 5)) ||| u32 (v <<< 5))) by (done || lia);
       split_ifs; try done; do 2 f_equal;
       apply u32_small, shiftl_bound with (w := 19); try lia; apply Z.mod_pos_bound; lia.
  - rewrite (encode_word_scaled pc target 14
           (fun v => (i &&& not32 (0x3fff <<< 5)) ||| u32 (v <<< 5))) by (done || lia);
       split_ifs; try done; do 2 f_equal;
       apply u32_small, shiftl_bound with (w := 14); try lia; apply Z.mod_pos_bound; lia.
  - rewrite decide_False by done.
    rewrite SignedDifference_spec by done. unfold INT64_MIN, INT64_MAX.
    destruct ((-9223372036854775808 <=? target - pc) && _) eqn:E.
    + etrans; [apply encode_adr_tail|done].
    + split_ifs; lia || done.
  - rewrite decide_True by done.
    rewrite !not64_page, SignedDifference_spec by (done || by apply page_addr).
    unfold INT64_MIN, INT64_MAX.
    destruct ((-9223372036854775808 <=? page target - page pc) && _) eqn:E.
    + simpl. rewrite quot_page. etrans; [apply encode_adr_tail|done].
    + pose proof (Z.div_mod (page target - page pc) 4096 ltac:(lia)).
      pose proof (Z.mod_pos_bound (page target - page pc) 4096 ltac:(lia)).
      split_ifs; lia || done.
Qed.

(** The base word of [EncodeLdrLiteralX]. *)
Lemma ldr_literal_x_kind reg :
  0 <= reg < 32 ->
  word (0x58000000 ||| reg) /\ DecodeKind (0x58000000 ||| reg) = kLiteralLoad.
Proof.
  intros Hr. split; [apply lor_bound; lia|].
  assert (forall k, (Z.ones 5 <<< 0) &&& k = 0 -> (0x58000000 ||| reg) &&& k = 0x58000000 &&& k) as Hk0.
  { intros k Hk. rewrite Z.land_lor_distr_l, <- (Z.shiftl_0_r reg).
    rewrite (field_land_out reg 5 0 k) by (done || lia). apply Z.lor_0_r. }
  etrans; [apply (DecodeKind_top _ 0x58000000)|done]. by rewrite Hk0.
Qed.

(** Encoding succeeds in range. *)
Lemma EncodePcRelative_near i pc target :
  addr pc -> addr target -> in_range (DecodeKind i) pc target = true ->
  exists e, EncodePcRelative i pc target = Some e.
Proof. intros Hp Ht Hr. rewrite EncodePcRelative_spec by done. cbv zeta. rewrite Hr. eauto. Qed.

(** ** Reference decoder *)

Definition get_imm (kind : InstructionKind) (i : Z) : Z :=
  match kind with
  | kB | kBl => (i >>> 0) &&& Z.ones 26
  | kBCond | kCompareBranch | kLiteralLoad => (i >>> 5) &&& Z.ones 19
  | kTestBranch => (i >>> 5) &&& Z.ones 14
  | kAdr | kAdrp => 4 * ((i >>> 5) &&& Z.ones 19) + ((i >>> 29) &&& Z.ones 2)
  | kOther => 0
  end.

Definition imm_offset (kind : InstructionKind) (v : Z) : Z :=
  match kind with
  | kAdr => as_signed 21 v
  | kAdrp => as_signed 21 v * 4096
  | kOther => 0
  | _ => as_signed (imm_bits kind + 2) (v * 4)
  end.

Definition pc_base (kind : InstructionKind) (pc : Z) : Z :=
  match kind with kAdrp => page pc | _ => pc end.

Lemma DecodePcRelativeTarget_spec i pc :
  addr pc -> DecodeKind i <> kOther ->
  DecodePcRelativeTarget i pc =
    let kind := DecodeKind i in
    u64 (pc_base kind pc + imm_offset kind (get_imm kind i)).
Proof.
  intros Hp Hk. unfold DecodePcRelativeTarget. cbv zeta.
  assert (forall m w, 0 <= w -> 0 <= (m &&& Z.ones w) < 2 ^ w) as Hn.
  { intros m w ?. rewrite Z.land_ones by lia. apply Z.mod_pos_bound. lia. }
  change 0x3ffffff with (Z.ones 26). change 0x7ffff with (Z.ones 19).
  change 0x3fff with (Z.ones 14). change 0x3 with (Z.ones 2).
  pose proof (Hn i 26). pose proof (Hn (i >>> 5) 19). pose proof (Hn (i >>> 5) 14).
  pose proof (Hn (i >>> 29) 2).
  rewrite lor_low_high by lia.
  rewrite !Z.shiftl_mul_pow2 by lia.
  rewrite !SignExtend_as_signed, not64_page, !u64_add_r by (done || lia).
  destruct (DecodeKind i) eqn:Ek; try done;
    cbn [pc_base imm_offset get_imm imm_bits]; rewrite ?Z.shiftr_0_r; try done;
    repeat case_decide; try done; do 2 f_equal;
    rewrite ?(Z.mul_comm 4), (Z.add_comm ((i >>> 29) &&& _)); done.
Qed.

(** ** The field operations are inverse *)

Lemma get_put_imm kind i v :
  0 <= v < 2 ^ (match kind with kAdr | kAdrp => 21 | _ => imm_bits kind end) ->
  kind <> kOther -> get_imm kind (put_imm kind i v) = v.
Proof.
  intros Hv Hk. destruct kind; try done; cbn [get_imm put_imm imm_bits] in *.
  1,2,3,4,5,8: apply field_read; done || lia.
  all: pose proof (Z.mod_pos_bound v 4 ltac:(lia)).
  all: pose proof (Z.div_mod v 4 ltac:(lia)).
  all: assert (0 <= v / 4 < 2 ^ 19) by lia.
  all: rewrite field_read by (done || lia).
  all: rewrite Z.shiftr_lor, (Z.shiftr_land _ 0xff00001f), Z.land_lor_distr_l, <- Z.land_assoc.
  all: change ((0xff00001f >>> 29) &&& Z.ones 2) with (Z.ones 2).
  all: rewrite field_read by (done || lia).
  all: rewrite Z.shiftr_shiftl_r by lia.
  all: change (29 - 5) with 24; rewrite (Z.shiftr_div_pow2 _ 24), (Z.div_small _ (2 ^ 24)) by lia.
  all: rewrite Z.land_0_l, Z.lor_0_r; lia.
Qed.

Lemma put_get_imm kind i :
  word i -> put_imm kind i (get_imm kind i) = i.
Proof.
  intros Hi. unfold word in Hi. destruct kind; try done; cbn [get_imm put_imm].
  1,2,3,4,5,8: apply field_restore with (b := 32); done || lia.
  all: rewrite (Z.mul_comm 4), (Z.add_comm (_ * 4)), Z_mod_plus_full, Z.div_add by lia.
  all: assert (0 <= (i >>> 29) &&& Z.ones 2 < 2 ^ 2)
         by (rewrite Z.land_ones by lia; apply Z.mod_pos_bound; lia).
  all: rewrite Z.mod_small, Z.div_small, Z.add_0_l by lia.
  all: rewrite <- (field_restore i 0xff00001f 19 5 32) at 4 by (done || lia).
  all: f_equal.
  all: rewrite <- (field_restore i 0x9fffffff 2 29 32) at 3 by (done || lia).
  all: rewrite !Z.land_lor_distr_l, <- !Z.land_assoc; f_equal.
Qed.

Lemma put_imm_word kind i v :
  word i -> 0 <= v < 2 ^ (match kind with kAdr | kAdrp => 21 | _ => imm_bits kind end) ->
  word (put_imm kind i v).
Proof.
  unfold word. intros Hi Hv.
  assert (forall x k y w s, 0 <= k < 2 ^ 32 -> 0 <= s -> 0 <= w -> w + s <= 32 ->
            0 <= y < 2 ^ w -> 0 <= (x &&& k) ||| (y <<< s) < 2 ^ 32) as Hgen.
  { intros. apply lor_bound; [lia|apply land_bound_r; lia|].
    by apply shiftl_bound with (w := w). }
  destruct kind; try done; cbn [put_imm imm_bits] in *.
  1,2: apply Hgen with (w := 26); lia.
  1,2,6: apply Hgen with (w := 19); lia.
  1: apply Hgen with (w := 14); lia.
  all: pose proof (Z.div_mod v 4 ltac:(lia)); pose proof (Z.mod_pos_bound v 4 ltac:(lia)).
  all: apply Hgen with (w := 19); lia.
Qed.

(** Bits outside the immediate field are untouched. *)
Definition kept_mask (kind : InstructionKind) : Z :=
  match kind with
  | kB | kBl => 0xfc000000
  | kBCond | kCompareBranch | kLiteralLoad => 0xff00001f
  | kTestBranch => 0xfff8001f
  | kAdr | kAdrp => 0x9f00001f
  | kOther => 0xffffffff
  end.

Lemma put_imm_keeps kind i v k :
  0 <= v < 2 ^ (match kind with kAdr | kAdrp => 21 | _ => imm_bits kind end) ->
  kept_mask kind &&& k = k ->
  put_imm kind i v &&& k = i &&& k.
Proof.
  intros Hv Hk.
  assert (forall F, F &&& kept_mask kind = 0 -> F &&& k = 0) as HF.
  { intros F H. by rewrite <- Hk, Z.land_assoc, H. }
  destruct kind; try done; cbn [put_imm imm_bits kept_mask] in *.
  1,2,3,4,5,8: match type of Hv with _ <= _ < 2 ^ ?n => apply field_keeps with (w := n) end;
    try lia; try done; by apply HF.
  all: pose proof (Z.div_mod v 4 ltac:(lia)); pose proof (Z.mod_pos_bound v 4 ltac:(lia)).
  all: assert (0xff00001f &&& k = k) by (rewrite <- Hk, Z.land_assoc; done).
  all: rewrite field_keeps with (w := 19) by (lia || done || by apply HF).
  all: apply field_keeps with (w := 2); try lia; try done; by apply HF.
Qed.

Lemma DecodeKind_put_imm i v :
  0 <= v < 2 ^ (match DecodeKind i with kAdr | kAdrp => 21 | _ => imm_bits (DecodeKind i) end) ->
  DecodeKind (put_imm (DecodeKind i) i v) = DecodeKind i.
Proof.
  intros Hv.
  destruct (DecodeKind i) eqn:Ek; try done.
  1,2: assert (i &&& 0x7c000000 = 0x14000000) as Hi by (apply DecodeKind_branch_inv; tauto).
  1,2: rewrite DecodeKind_branch in Ek |- * by (rewrite ?put_imm_keeps; done).
  1,2: unfold has in *; by rewrite put_imm_keeps.
  1,2,3,6: etrans; [|exact Ek]; apply DecodeKind_top, put_imm_keeps; [exact Hv|done].
  all: assert (i &&& 0x1f000000 = 0x10000000) as Hi by (apply DecodeKind_adr_inv; tauto).
  all: rewrite DecodeKind_adr in Ek |- * by (rewrite ?put_imm_keeps; done).
  all: unfold has in *; by rewrite put_imm_keeps.
Qed.

(** ** Properties *)

(** [EncodePcRelative] succeeds exactly when the instruction
    is PC-relative and the (page) distance from [pc] to [target] fits the
    signed immediate of its kind. *)
Theorem EncodePcRelative_total i pc target :
  word i -> addr pc -> addr target ->
  is_Some (EncodePcRelative i pc target) <-> in_range (DecodeKind i) pc target = true.
Proof.
  intros Hi Hp Ht. rewrite EncodePcRelative_spec by done. simpl.
  destruct (in_range _ _ _); split; intros H; try done; by destruct H.
Qed.

Lemma imm_offset_value kind pc target :
  in_range kind pc target = true ->
  pc_base kind pc + imm_offset kind (imm_value kind pc target) = denoted kind target.
Proof.
  intros Hr.
  assert (forall k d, 0 < k -> d mod 4 = 0 -> - 2 ^ (k + 1) <= d < 2 ^ (k + 1) ->
            as_signed (k + 2) (d / 4 mod 2 ^ k * 4) = d) as Hw.
  { intros k d Hk Hd Hb. apply as_signed_unique; [lia| |].
    - by replace (k + 2 - 1) with (k + 1) by lia.
    - replace (2 ^ (k + 2)) with (2 ^ k * 4) by (rewrite Z.pow_add_r; lia).
      rewrite Zmult_mod_distr_r, Z.mod_mod, <- Zmult_mod_distr_r by lia.
      f_equal. pose proof (Z.div_mod d 4). lia. }
  destruct kind; cbn [in_range imm_bits pc_base imm_offset imm_value denoted] in *;
    bool_hyps; try done.
  1-5,8: rewrite Hw by lia; lia.
  - rewrite (as_signed_unique 21 _ (target - pc)); try lia. by rewrite Z.mod_mod.
  - rewrite (as_signed_unique 21 _ ((page target - page pc) / 4096)); try lia.
    + rewrite page_div. unfold page.
      pose proof (Z.div_mod pc 4096). pose proof (Z.div_mod target 4096). lia.
    + by rewrite Z.mod_mod.
Qed.

Lemma denoted_addr kind target : addr target -> addr (denoted kind target).
Proof. intros. destruct kind; try done. by apply page_addr. Qed.

Lemma is_pc_relative_spec kind : is_pc_relative kind = true <-> kind <> kOther.
Proof. unfold is_pc_relative. by rewrite negb_true_iff, bool_decide_eq_false. Qed.

Lemma reencode_target i pc target e :
  word i -> addr pc -> addr target ->
  EncodePcRelative i pc target = Some e ->
  word e /\ DecodeKind e = DecodeKind i /\
  e &&& kept_mask (DecodeKind i) = i &&& kept_mask (DecodeKind i) /\
  DecodePcRelativeTarget e pc = denoted (DecodeKind i) target.
Proof.
  intros Hi Hp Ht. rewrite EncodePcRelative_spec by done. cbv zeta.
  destruct (in_range _ _ _) eqn:Hr; intros [= <-].
  pose proof (imm_value_bound (DecodeKind i) pc target) as Hv.
  assert (DecodeKind i <> kOther) as Hk by (intros Hk; by rewrite Hk in Hr).
  pose proof (DecodeKind_put_imm i _ Hv) as Hkind.
  repeat split.
  - apply put_imm_word; done.
  - apply put_imm_word; done.
  - done.
  - apply put_imm_keeps; [done|]. by destruct (DecodeKind i).
  - rewrite DecodePcRelativeTarget_spec by (done || by rewrite Hkind).
    cbv zeta. rewrite Hkind, get_put_imm by done.
    rewrite imm_offset_value by done.
    by apply u64_small, denoted_addr.
Qed.

(** C34 (roundtrip): decoding the re-encoded instruction at the new [pc] gives
    back the target (its page, for ADRP); the kind and every bit outside the
    immediate field are those of the original instruction. *)
Theorem encode_decode_target i pc target e :
  word i -> addr pc -> addr target ->
  EncodePcRelative i pc target = Some e ->
  word e /\ DecodeKind e = DecodeKind i /\
  e &&& kept_mask (DecodeKind i) = i &&& kept_mask (DecodeKind i) /\
  DecodePcRelativeTarget e pc = denoted (DecodeKind i) target.
Proof. apply reencode_target. Qed.

Lemma get_imm_bound kind i :
  0 <= get_imm kind i < 2 ^ (match kind with kAdr | kAdrp => 21 | _ => imm_bits kind end).
Proof.
  assert (forall m w, 0 <= w -> 0 <= (m &&& Z.ones w) < 2 ^ w) as Hn.
  { intros m w ?. rewrite Z.land_ones by lia. apply Z.mod_pos_bound. lia. }
  pose proof (Hn (i >>> 5) 19 ltac:(lia)). pose proof (Hn (i >>> 29) 2 ltac:(lia)).
  destruct kind; cbn [get_imm imm_bits]; try (apply Hn; lia); lia.
Qed.

Lemma imm_of_denoted kind pc v :
  kind <> kOther ->
  0 <= v < 2 ^ (match kind with kAdr | kAdrp => 21 | _ => imm_bits kind end) ->
  let target := pc_base kind pc + imm_offset kind v in
  in_range kind pc target = true /\ imm_value kind pc target = v.
Proof.
  intros Hk Hv. cbv zeta.
  assert (forall k, 0 < k -> 0 <= v < 2 ^ k ->
    exists d, as_signed (k + 2) (v * 4) = 4 * d /\ - 2 ^ (k - 1) <= d < 2 ^ (k - 1) /\
              d mod 2 ^ k = v) as Hw.
  { intros k Hk0 Hv0. exists (as_signed k v).
    pose proof (as_signed_range k v Hk0). pose proof (as_signed_mod k v Hk0) as Hm.
    rewrite (Z.mod_small v) in Hm by lia. repeat split; try lia.
    apply as_signed_unique; [lia| |].
    - replace (k + 2 - 1) with (2 + (k - 1)) by lia. rewrite Z.pow_add_r by lia. lia.
    - replace (2 ^ (k + 2)) with (2 ^ k * 4) by (rewrite Z.pow_add_r; lia).
      rewrite (Z.mul_comm 4), !Zmult_mod_distr_r, Hm by lia.
      by rewrite (Z.mod_small v) by lia. }
  assert (forall d k, 4 * d mod 4 = 0 /\ 4 * d / 4 = d /\ (0 < k -> 2 ^ (k + 1) = 4 * 2 ^ (k - 1)))
    as Hd.
  { intros d k. rewrite (Z.mul_comm 4 d), Z.mod_mul, Z.div_mul by lia.
    repeat split. intros. replace (k + 1) with (2 + (k - 1)) by lia.
    by rewrite Z.pow_add_r by lia. }
  destruct kind; try done; cbn [in_range imm_bits pc_base imm_offset imm_value] in *.
  1-5,8: match type of Hv with _ <= _ < 2 ^ ?k =>
    destruct (Hw k) as (d & -> & Hb & Hm); [lia|lia|];
    destruct (Hd d k) as (H1 & H2 & H3); specialize (H3 ltac:(lia)) end;
    replace (pc + 4 * d - pc) with (4 * d) by lia; rewrite H1, H2; split; [lia|done].
  - pose proof (as_signed_range 21 v ltac:(lia)). pose proof (as_signed_mod 21 v ltac:(lia)).
    replace (pc + as_signed 21 v - pc) with (as_signed 21 v) by lia.
    split; [lia|]. rewrite H0. by apply Z.mod_small.
  - pose proof (as_signed_range 21 v ltac:(lia)). pose proof (as_signed_mod 21 v ltac:(lia)).
    rewrite page_div.
    assert ((page pc + as_signed 21 v * 4096) / 4096 = pc / 4096 + as_signed 21 v) as ->.
    { unfold page. pose proof (Z.div_mod pc 4096).
      replace (pc - pc mod 4096) with (pc / 4096 * 4096) by lia.
      rewrite Z.div_add, Z.div_mul by lia. done. }
    replace (pc / 4096 + as_signed 21 v - pc / 4096) with (as_signed 21 v) by lia.
    split; [lia|]. rewrite H0. by apply Z.mod_small.
Qed.

(** re-encoding an instruction for the target it already
    denotes is the identity, when the target does not wrap around the address
    space. *)
Theorem decode_encode_target i pc :
  word i -> addr pc -> is_pc_relative (DecodeKind i) = true ->
  addr (pc_base (DecodeKind i) pc + imm_offset (DecodeKind i) (get_imm (DecodeKind i) i)) ->
  EncodePcRelative i pc (DecodePcRelativeTarget i pc) = Some i.
Proof.
  intros Hi Hp Hk Ha. apply is_pc_relative_spec in Hk.
  rewrite DecodePcRelativeTarget_spec by done. cbv zeta.
  rewrite u64_small by done.
  rewrite EncodePcRelative_spec by done. cbv zeta.
  destruct (imm_of_denoted (DecodeKind i) pc (get_imm (DecodeKind i) i)) as [-> ->];
    [done|by apply get_imm_bound|].
  by rewrite put_get_imm.
Qed.

Lemma DecodeKind_compare i v :
  v = 0x34000000 \/ v = 0x36000000 -> i &&& 0x7e000000 = v ->
  DecodeKind i = if v =? 0x34000000 then kCompareBranch else kTestBranch.
Proof.
  intros Hv H. unfold DecodeKind.
  assert (forall m w k, (w &&& k <> v &&& k) -> m &&& k = k ->
            0x7e000000 &&& k = k -> (i &&& m =? w) = false) as Hne.
  { intros m w k Hw Hm Hk. apply Z.eqb_neq. intros Heq. apply Hw.
    rewrite <- (land_mask_mono _ _ k _ Heq), <- (land_mask_mono _ _ k _ H); [done| |];
      by rewrite Z.land_comm. }
  rewrite (Hne 0x7c000000 0x14000000 0x7c000000) by (destruct Hv; by subst v).
  rewrite (Hne 0xff000000 0x54000000 0x7e000000) by (destruct Hv; by subst v).
  rewrite H. destruct Hv; by subst v.
Qed.

Lemma DecodeKind_compare_inv i :
  (DecodeKind i = kCompareBranch -> i &&& 0x7e000000 = 0x34000000) /\
  (DecodeKind i = kTestBranch -> i &&& 0x7e000000 = 0x36000000).
Proof.
  unfold DecodeKind. split; intros H; split_ifs_in H; try discriminate;
    by apply Z.eqb_eq.
Qed.

Lemma same_imm_same_target i j pc :
  addr pc -> DecodeKind i <> kOther -> DecodeKind j = DecodeKind i ->
  get_imm (DecodeKind i) j = get_imm (DecodeKind i) i ->
  DecodePcRelativeTarget j pc = DecodePcRelativeTarget i pc.
Proof.
  intros Hp Hk Hj Hi. rewrite !DecodePcRelativeTarget_spec by (done || by rewrite Hj).
  cbv zeta. by rewrite Hj, Hi.
Qed.

(** The bit [InvertConditional] flips. *)
Definition condition_bit (kind : InstructionKind) : Z :=
  match kind with kBCond => 0 | _ => 24 end.

Lemma InvertConditional_flip i :
  DecodeKind i = kBCond \/ DecodeKind i = kCompareBranch \/ DecodeKind i = kTestBranch ->
  InvertConditional i = i ^^^ 2 ^ condition_bit (DecodeKind i).
Proof. unfold InvertConditional. by intros [-> | [-> | ->]]. Qed.

Lemma DecodeKind_flip i :
  DecodeKind i = kBCond \/ DecodeKind i = kCompareBranch \/ DecodeKind i = kTestBranch ->
  DecodeKind (i ^^^ 2 ^ condition_bit (DecodeKind i)) = DecodeKind i.
Proof.
  destruct (DecodeKind_compare_inv i) as [Hc Ht].
  intros [H | [H | H]]; rewrite H; simpl.
  - rewrite <- H. by apply DecodeKind_top, lxor_keeps.
  - rewrite (DecodeKind_compare _ 0x34000000) by (try rewrite lxor_keeps; auto). done.
  - rewrite (DecodeKind_compare _ 0x36000000) by (try rewrite lxor_keeps; auto). done.
Qed.

(** inverting a conditional branch is an involution that keeps
    the kind and the denoted target and only flips the condition: bit 0 of
    [B.cond], bit 24 of CBZ/CBNZ and TBZ/TBNZ. *)
Theorem InvertConditional_spec i pc :
  word i -> addr pc ->
  DecodeKind i = kBCond \/ DecodeKind i = kCompareBranch \/ DecodeKind i = kTestBranch ->
  let j := InvertConditional i in
  word j /\ DecodeKind j = DecodeKind i /\ InvertConditional j = i /\
  DecodePcRelativeTarget j pc = DecodePcRelativeTarget i pc /\
  (forall b, 0 <= b ->
     Z.testbit j b = xorb (Z.testbit i b) (b =? condition_bit (DecodeKind i))).
Proof.
  intros Hi Hp Hk. cbv zeta. pose proof (DecodeKind_flip i Hk) as Hf.
  rewrite (InvertConditional_flip i Hk). split_and!.
  - apply lxor_bound; try done; destruct Hk as [-> | [-> | ->]]; done.
  - done.
  - rewrite InvertConditional_flip by (by rewrite Hf). rewrite Hf. apply lxor_involutive.
  - apply same_imm_same_target; [done|by intros H; rewrite H in Hk; destruct_or! Hk|done|].
    destruct Hk as [-> | [-> | ->]]; simpl; rewrite Z.shiftr_lxor; by apply lxor_keeps.
  - intros b Hb. rewrite Z.lxor_spec, Z.pow2_bits_eqb, Z.eqb_sym; [done|].
    destruct Hk as [-> | [-> | ->]]; done.
Qed.

(** ** The properties at concrete instructions *)

(** [b .+8] at 0x1000. *)
Lemma EncodePcRelative_total_witness : is_Some (EncodePcRelative 0x14000000 0x1000 0x1008).
Proof.
  apply (EncodePcRelative_total 0x14000000 0x1000 0x1008);
    [split; done|split; done|split; done|reflexivity].
Defined.

(** [adrp x1] re-encoded for a page 16 pages ahead. *)
Lemma encode_decode_target_witness :
  DecodePcRelativeTarget 0x90000081 0x1234 = denoted kAdrp 0x11abc.
Proof.
  apply (encode_decode_target 0x90000001 0x1234 0x11abc 0x90000081);
    [split; done|split; done|split; done|vm_compute; reflexivity].
Defined.

(** [tbnz w3, #4, .-16] at 0x8000. *)
Lemma decode_encode_target_witness :
  EncodePcRelative 0x3727ff83 0x8000 (DecodePcRelativeTarget 0x3727ff83 0x8000)
  = Some 0x3727ff83.
Proof.
  apply (decode_encode_target 0x3727ff83 0x8000);
    [split; done|split; done|vm_compute; reflexivity|vm_compute; split; [discriminate|reflexivity]].
Defined.

(** [cbz x2, .+32] becomes [cbnz x2, .+32]. *)
Lemma InvertConditional_spec_witness : InvertConditional 0xb5000102 = 0xb4000102.
Proof.
  apply (InvertConditional_spec 0xb4000102 0x4000);
    [split; done|split; done|right; left; reflexivity].
Defined.
