(* ===== verification/CodeWriter.v ===== *)
(** * The bounded code writer of the inline hook

    Models [CodeWriter] of [inline_hook/internal/arm64_encoding.{h,cpp}]: a
    cursor over a caller-supplied byte buffer.  [buffer = None] is the null
    pointer; a [uint32_t]/[uint64_t] is stored by [memcpy] in the little-endian
    order of arm64. *)

From S2P Require Import Prelude Bits Arm64Encoding.

(** ** The writer *)

Record CodeWriter := {
  buffer_ : option (list Z);
  capacity_ : Z;
  size_ : Z;
  address_ : Z;
}.

Definition new_CodeWriter (buffer : option (list Z)) (capacity address : Z) : CodeWriter :=
  {| buffer_ := buffer; capacity_ := capacity; size_ := 0; address_ := address |}.

Definition size (w : CodeWriter) : Z := size_ w.
Definition address (w : CodeWriter) : Z := u64 (address_ w + size_ w).
Definition address_at (w : CodeWriter) (offset : Z) : Z := u64 (address_ w + offset).

(** The shared body of [Emit32] and [Emit64], [n] being [sizeof(value)]. *)
Definition emit (n : nat) (w : CodeWriter) (value : Z) : bool * CodeWriter :=
  match buffer_ w with
  | None => (false, w)
  | Some buffer =>
      if (capacity_ w <? size_ w) || (capacity_ w - size_ w <? Z.of_nat n)
      then (false, w)
      else (true, {| buffer_ := Some (write_bytes buffer (size_ w) (le_bytes n value));
                     capacity_ := capacity_ w;
                     size_ := size_ w + Z.of_nat n;
                     address_ := address_ w |})
  end.

Definition Emit32 := emit 4.
Definition Emit64 := emit 8.

Definition Align8 (w : CodeWriter) : bool * CodeWriter :=
  if (address w &&& 7) =? 0 then (true, w) else Emit32 w kNop.

Definition Patch32 (w : CodeWriter) (offset value : Z) : bool * CodeWriter :=
  match buffer_ w with
  | None => (false, w)
  | Some buffer =>
      if (size_ w <? offset) || (size_ w - offset <? 4) then (false, w)
      else (true, {| buffer_ := Some (write_bytes buffer offset (le_bytes 4 value));
                     capacity_ := capacity_ w; size_ := size_ w;
                     address_ := address_ w |})
  end.

(** ** The word-level view

    After a sequence of successful emits the buffer starts with the
    little-endian bytes of a list of 32-bit words; everything the relocator
    writes keeps this shape. *)

Definition word_bytes (ws : list Z) : list Z := ws ≫= le_bytes 4.

Lemma word_bytes_app a b : word_bytes (a ++ b) = word_bytes a ++ word_bytes b.
Proof. apply bind_app. Qed.

Lemma length_word_bytes ws : length (word_bytes ws) = (4 * length ws)%nat.
Proof.
  induction ws as [|w ws IH]; [done|].
  change (word_bytes (w :: ws)) with (le_bytes 4 w ++ word_bytes ws).
  rewrite length_app, IH, length_le_bytes. simpl. lia.
Qed.

Lemma word_bytes_cons v ws : word_bytes (v :: ws) = le_bytes 4 v ++ word_bytes ws.
Proof. done. Qed.

Record holds_words (w : CodeWriter) (cap base : Z) (ws : list Z) : Prop := {
  hw_rest : exists rest, buffer_ w = Some (word_bytes ws ++ rest) /\
      Z.of_nat (length (word_bytes ws ++ rest)) = cap;
  hw_capacity : capacity_ w = cap;
  hw_size : size_ w = 4 * Z.of_nat (length ws);
  hw_address : address_ w = base;
}.

Lemma holds_words_new buf cap base :
  Z.of_nat (length buf) = cap -> holds_words (new_CodeWriter (Some buf) cap base) cap base [].
Proof. intros H. split; try done. by exists buf. Qed.

Lemma write_at_end ws rest bs :
  (length bs <= length rest)%nat ->
  write_bytes (word_bytes ws ++ rest) (4 * Z.of_nat (length ws)) bs =
    word_bytes ws ++ bs ++ drop (length bs) rest.
Proof.
  intros H. unfold write_bytes.
  replace (Z.to_nat (4 * Z.of_nat (length ws))) with (length (word_bytes ws))
    by (rewrite length_word_bytes; lia).
  by rewrite take_app_length, drop_app_add.
Qed.

Lemma holds_words_emit n w cap base ws v new :
  word_bytes new = le_bytes n v -> holds_words w cap base ws ->
  if 4 * Z.of_nat (length ws) + Z.of_nat n <=? cap
  then exists w', emit n w v = (true, w') /\ holds_words w' cap base (ws ++ new)
  else emit n w v = (false, w).
Proof.
  intros Hnew [(rest & Hb & Hlen) Hc Hs Ha]. unfold emit. rewrite Hb, Hc, Hs.
  rewrite length_app, length_word_bytes in Hlen.
  assert (4 * length new = n)%nat as Hn.
  { by rewrite <- length_word_bytes, Hnew, length_le_bytes. }
  destruct (Z.leb_spec (4 * Z.of_nat (length ws) + Z.of_nat n) cap) as [Hle|Hgt].
  - rewrite (proj2 (orb_false_iff _ _)) by lia. eexists. split; [done|].
    rewrite write_at_end by (rewrite length_le_bytes; lia).
    rewrite app_assoc, <- Hnew, <- word_bytes_app.
    split; simpl; try done; [|rewrite length_app; lia].
    eexists. split; [done|].
    rewrite length_app, length_drop, !length_word_bytes, length_app. lia.
  - rewrite (proj2 (orb_true_iff _ _)); [done|lia].
Qed.

Lemma word_bytes_one v : word_bytes [v] = le_bytes 4 v.
Proof. apply app_nil_r. Qed.

Lemma word_bytes_two v : word_bytes [v; v >>> 32] = le_bytes 8 v.
Proof. etrans; [|symmetry; apply (le_bytes_app 4 4 v)]. unfold word_bytes. done. Qed.

Lemma insert_word_bytes (ws : list Z) (i : nat) v rest :
  (i < length ws)%nat ->
  write_bytes (word_bytes ws ++ rest) (4 * Z.of_nat i) (le_bytes 4 v) =
    word_bytes (<[i := v]> ws) ++ rest.
Proof.
  intros Hi. destruct (lookup_lt_is_Some_2 ws i Hi) as [x Hx].
  rewrite insert_take_drop by done.
  rewrite <- (take_drop_middle ws i x Hx) at 1.
  rewrite !word_bytes_app, !word_bytes_cons, <- !app_assoc. unfold write_bytes.
  replace (Z.to_nat (4 * Z.of_nat i)) with (length (word_bytes (take i ws))).
  2: { rewrite length_word_bytes, length_take. lia. }
  by rewrite take_app_length, drop_app_add.
Qed.

Lemma holds_words_patch w cap base ws (i : nat) v :
  holds_words w cap base ws -> (i < length ws)%nat ->
  exists w', Patch32 w (4 * Z.of_nat i) v = (true, w') /\
             holds_words w' cap base (<[i := v]> ws).
Proof.
  intros [(rest & Hb & Hlen) Hc Hs Ha] Hi. unfold Patch32. rewrite Hb, Hs.
  rewrite (proj2 (orb_false_iff _ _)) by lia. eexists. split; [done|].
  rewrite insert_word_bytes by done.
  split; simpl; try done.
  - eexists. split; [done|]. rewrite <- Hlen, !length_app, !length_word_bytes, length_insert. done.
  - by rewrite length_insert.
Qed.

(** ** Properties *)

(** whatever the arguments, an emit or patch either fails and
    leaves the writer unchanged, or succeeds and changes no byte outside
    [offset, offset + n), never past the capacity; the cursor never exceeds the
    capacity. *)
Theorem CodeWriter_bounded (w : CodeWriter) buf n value ok w' :
  buffer_ w = Some buf -> Z.of_nat (length buf) = capacity_ w -> 0 <= size_ w <= capacity_ w ->
  emit n w value = (ok, w') ->
  0 <= size_ w' <= capacity_ w' /\ capacity_ w' = capacity_ w /\
  exists buf', buffer_ w' = Some buf' /\ length buf' = length buf /\
    (ok = false -> w' = w) /\
    (ok = true <-> size_ w + Z.of_nat n <= capacity_ w) /\
    (ok = true -> size_ w' = size_ w + Z.of_nat n /\
       le_value (take n (drop (Z.to_nat (size_ w)) buf')) = value mod 2 ^ (8 * Z.of_nat n)) /\
    (forall i, (i < Z.to_nat (size_ w))%nat \/ (Z.to_nat (size_ w) + n <= i)%nat ->
       buf' !! i = buf !! i).
Proof.
  intros Hb Hlen Hs. unfold emit. rewrite Hb.
  destruct (_ || _) eqn:E; intros [= <- <-]; simpl.
  - split_and!; try lia. exists buf. split_and!; done || lia.
  - split_and!; try lia.
    assert (length (take (Z.to_nat (size_ w)) buf) = Z.to_nat (size_ w)) as Ht.
    { rewrite length_take. lia. }
    pose proof (length_le_bytes n value) as Hn.
    eexists. split_and!; [done| |done|done || lia| |].
    + unfold write_bytes. rewrite !length_app, Ht, length_drop, Hn. lia.
    + intros _. split; [done|]. unfold write_bytes.
      rewrite <- Ht at 1. rewrite drop_app_length.
      rewrite <- Hn at 1. rewrite take_app_length. apply le_value_bytes.
    + intros i Hi. unfold write_bytes. rewrite Hn. destruct Hi as [Hi|Hi].
      * rewrite lookup_app_l by lia. by apply lookup_take_lt.
      * rewrite lookup_app_r, lookup_app_r, lookup_drop by lia. f_equal. lia.
Qed.

(** A writer with room for one of two words. *)
Definition small_writer : CodeWriter :=
  {| buffer_ := Some [1; 2; 3; 4; 5; 6]; capacity_ := 6; size_ := 0; address_ := 0x1000 |}.

Lemma CodeWriter_bounded_witness :
  0 <= size_ (emit 4 small_writer kNop).2 <= capacity_ (emit 4 small_writer kNop).2.
Proof.
  apply (CodeWriter_bounded small_writer [1; 2; 3; 4; 5; 6] 4 kNop true);
    [reflexivity|reflexivity|split; done|reflexivity].
Defined.
