(* ===== verification/Arm64Relocator.v ===== *)
(** * Relocation of one A64 instruction

    Models [inline_hook/internal/arm64_relocator.{h,cpp}]: the instruction that
    a hook overwrites is rewritten for its new address, expanded when its target
    is out of range, followed by a branch to the continuation and a literal
    pool.  The function runs in a state-and-error monad over the writer, the
    fixups and the result, because the error paths return after partial
    writes. *)

From S2P Require Import Prelude Bits Arm64Encoding CodeWriter.

Inductive RelocationStatus :=
| kOk | kInvalidArgument | kNoSpace | kRange | kUnsupported.

Record AddressMap := { map_source : Z; map_destination : Z }.

Record RelocationRequest := {
  req_instruction : Z;
  req_source_pc : Z;
  req_continuation : Z;
  req_overwritten_start : Z;
  req_overwritten_size : Z;
  req_internal_maps : option (list AddressMap);
  req_internal_map_count : Z;
  req_output : option (list Z);
  req_output_capacity : Z;
  req_output_address : Z;
}.

Record RelocationResult := {
  code_size : Z;
  total_size : Z;
  expanded : Z;
  uses_x17 : Z;
}.

Definition zero_result : RelocationResult :=
  {| code_size := 0; total_size := 0; expanded := 0; uses_x17 := 0 |}.

Record LiteralFixup := {
  instruction_offset : Z;
  fix_reg : Z;
  fix_value : Z;
}.

(** ** The state threaded through [RelocateOneAndContinue]

    [fixups] holds the first [fixup_count] entries of the array. *)

Record RelocState := {
  rs_writer : CodeWriter;
  rs_fixups : list LiteralFixup;
  rs_result : RelocationResult;
}.

Definition Reloc (A : Type) : Type := RelocState -> (RelocationStatus + A) * RelocState.

#[export] Instance Reloc_ret : MRet Reloc := fun A a s => (inr a, s).
#[export] Instance Reloc_bind : MBind Reloc := fun A B f m s =>
  match m s with
  | (inl status, s') => (inl status, s')
  | (inr a, s') => f a s'
  end.

Definition fail {A} (status : RelocationStatus) : Reloc A := fun s => (inl status, s).
(** [if (!ok) return status;] *)
Definition require (status : RelocationStatus) (ok : bool) : Reloc unit :=
  if ok then mret tt else fail status.
Definition require_some {A} (status : RelocationStatus) (o : option A) : Reloc A :=
  match o with Some a => mret a | None => fail status end.

Definition with_writer (f : CodeWriter -> bool * CodeWriter) : Reloc bool := fun s =>
  let '(ok, w) := f (rs_writer s) in
  (inr ok, {| rs_writer := w; rs_fixups := rs_fixups s; rs_result := rs_result s |}).

Definition emit32 (value : Z) : Reloc bool := with_writer (fun w => Emit32 w value).
Definition writer_address : Reloc Z := fun s => (inr (address (rs_writer s)), s).
Definition writer_size : Reloc Z := fun s => (inr (size (rs_writer s)), s).
Definition update_result (f : RelocationResult -> RelocationResult) : Reloc unit := fun s =>
  (inr tt, {| rs_writer := rs_writer s; rs_fixups := rs_fixups s; rs_result := f (rs_result s) |}).

Definition set_expanded (r : RelocationResult) : RelocationResult :=
  {| code_size := code_size r; total_size := total_size r; expanded := 1;
     uses_x17 := uses_x17 r |}.
Definition set_uses_x17 (v : Z) (r : RelocationResult) : RelocationResult :=
  {| code_size := code_size r; total_size := total_size r; expanded := expanded r;
     uses_x17 := v |}.
Definition set_code_size (v : Z) (r : RelocationResult) : RelocationResult :=
  {| code_size := v; total_size := total_size r; expanded := expanded r;
     uses_x17 := uses_x17 r |}.
Definition set_total_size (v : Z) (r : RelocationResult) : RelocationResult :=
  {| code_size := code_size r; total_size := v; expanded := expanded r;
     uses_x17 := uses_x17 r |}.

(** [a && b()] on effectful conditions: [b] runs only when [a] holds. *)
Definition and_then (a b : Reloc bool) : Reloc bool :=
  x ← a; if x : bool then b else mret false.

(** ** Helpers of the anonymous namespace *)

Fixpoint map_lookup (maps : list AddressMap) (target : Z) : Z :=
  match maps with
  | [] => target
  | m :: maps => if map_source m =? target then map_destination m else map_lookup maps target
  end.

Definition MapInternalTarget (request : RelocationRequest) (target : Z) : Z :=
  match req_internal_maps request with
  | Some maps => map_lookup (take (Z.to_nat (req_internal_map_count request)) maps) target
  | None => target
  end.

Definition EmitLoadAddress (reg value fixup_capacity : Z) : Reloc bool := fun s =>
  if fixup_capacity <=? Z.of_nat (length (rs_fixups s)) then (inr false, s)
  else
    let fixup := {| instruction_offset := size (rs_writer s); fix_reg := reg;
                    fix_value := value |} in
    emit32 0 {| rs_writer := rs_writer s; rs_fixups := rs_fixups s ++ [fixup];
                rs_result := rs_result s |}.

(** The body of the loop of [FinalizeLiterals]. *)
Definition finalize_one (f : LiteralFixup) (w : CodeWriter) : bool * CodeWriter :=
  let '(ok, w) := Align8 w in
  if negb ok then (false, w) else
  let literal_address := address w in
  let '(ok, w) := Emit64 w (fix_value f) in
  if negb ok then (false, w) else
  match EncodeLdrLiteralX (fix_reg f) (address_at w (instruction_offset f)) literal_address with
  | None => (false, w)
  | Some load => Patch32 w (instruction_offset f) load
  end.

Fixpoint finalize_loop (fixups : list LiteralFixup) (w : CodeWriter) : bool * CodeWriter :=
  match fixups with
  | [] => (true, w)
  | f :: fixups =>
      let '(ok, w) := finalize_one f w in
      if ok : bool then finalize_loop fixups w else (false, w)
  end.

Definition FinalizeLiterals : Reloc bool := fun s =>
  with_writer (finalize_loop (rs_fixups s)) s.

Definition LiteralAccessSize (instruction : Z) : Z :=
  let opc := (instruction >>> 30) &&& 0x3 in
  let vector := (instruction >>> 26) &&& 0x1 in
  if vector =? 0 then
    if (opc =? 0) || (opc =? 2) then 4
    else if opc =? 1 then 8 else 0
  else if opc =? 0 then 4
  else if opc =? 1 then 8
  else if opc =? 2 then 16 else 0.

Definition OverlapsOverwrittenBytes (request : RelocationRequest)
    (instruction address : Z) : bool :=
  let access_size := LiteralAccessSize instruction in
  if access_size =? 0 then false
  else if req_overwritten_size request =? 0 then false
  else if (UINT64_MAX - req_overwritten_size request <? req_overwritten_start request)
          || (UINT64_MAX - access_size <? address) then true
  else
    let access_end := address + access_size in
    let overwritten_end := req_overwritten_start request + req_overwritten_size request in
    (address <? overwritten_end) && (req_overwritten_start request <? access_end).

(** ** The branches of [RelocateOneAndContinue]

    Each returns [append_continuation]. *)

Definition relocate_branch (request : RelocationRequest) (kind : InstructionKind) : Reloc bool :=
  let target := MapInternalTarget request
    (DecodePcRelativeTarget (req_instruction request) (req_source_pc request)) in
  if decide (kind = kBl) then
    ok ← EmitLoadAddress 30 (u64 (req_source_pc request + 4)) 2;
    _ ← require kRange ok;
    pc ← writer_address;
    encoded ← require_some kRange (EncodeBranch pc target false);
    ok ← emit32 encoded;
    _ ← require kNoSpace ok;
    _ ← update_result set_expanded;
    mret false
  else
    pc ← writer_address;
    encoded ← require_some kRange (EncodePcRelative (req_instruction request) pc target);
    ok ← emit32 encoded;
    _ ← require kNoSpace ok;
    mret false.

(** A64 defines both AL and NV as always true. *)
Definition always_branch (kind : InstructionKind) (instruction : Z) : bool :=
  bool_decide (kind = kBCond) && ((instruction &&& 0xe) =? 0xe).

Definition relocate_conditional (request : RelocationRequest) (kind : InstructionKind) : Reloc bool :=
  let instruction := req_instruction request in
  let target := MapInternalTarget request
    (DecodePcRelativeTarget instruction (req_source_pc request)) in
  pc ← writer_address;
  if always_branch kind instruction then
    encoded ← require_some kRange (EncodeBranch pc target false);
    ok ← emit32 encoded;
    _ ← require kNoSpace ok;
    mret false
  else
    match EncodePcRelative instruction pc target with
    | Some encoded =>
        ok ← emit32 encoded;
        _ ← require kNoSpace ok;
        mret true
    | None =>
        let inverted := InvertConditional instruction in
        skip ← require_some kRange (EncodePcRelative inverted pc (u64 (pc + 8)));
        branch ← require_some kRange (EncodeBranch (u64 (pc + 4)) target false);
        ok ← and_then (emit32 skip) (emit32 branch);
        _ ← require kNoSpace ok;
        _ ← update_result set_expanded;
        mret true
    end.

Definition relocate_adr (request : RelocationRequest) : Reloc bool :=
  let instruction := req_instruction request in
  let target := DecodePcRelativeTarget instruction (req_source_pc request) in
  pc ← writer_address;
  match EncodePcRelative instruction pc target with
  | Some encoded =>
      ok ← emit32 encoded;
      _ ← require kNoSpace ok;
      mret true
  | None =>
      let destination := instruction &&& 0x1f in
      ok ← (if destination =? 31 then emit32 kNop
            else EmitLoadAddress destination target 2);
      _ ← require kNoSpace ok;
      _ ← update_result set_expanded;
      mret true
  end.

Definition relocate_literal (request : RelocationRequest) : Reloc bool :=
  let instruction := req_instruction request in
  let target := DecodePcRelativeTarget instruction (req_source_pc request) in
  if OverlapsOverwrittenBytes request instruction target then fail kUnsupported
  else
    pc ← writer_address;
    match EncodePcRelative instruction pc target with
    | Some encoded =>
        ok ← emit32 encoded;
        _ ← require kNoSpace ok;
        mret true
    | None =>
        let opc := (instruction >>> 30) &&& 0x3 in
        let vector := (instruction >>> 26) &&& 0x1 in
        let destination := instruction &&& 0x1f in
        let can_use_destination :=
          (vector =? 0) && negb (opc =? 3) && negb (destination =? 31) in
        let base := if can_use_destination then destination else 17 in
        memory_load ← require_some kUnsupported (EncodeLiteralMemoryLoad instruction base);
        ok ← and_then (if can_use_destination then mret true
                       else emit32 kStrX17PreIndexSpMinus16)
             (and_then (EmitLoadAddress base target 2)
               (and_then (emit32 memory_load)
                 (if can_use_destination then mret true
                  else emit32 kLdrX17PostIndexSpPlus16)));
        _ ← require kNoSpace ok;
        _ ← update_result set_expanded;
        _ ← update_result (set_uses_x17 (if can_use_destination then 0 else 1));
        mret true
    end.

Definition relocate_body (request : RelocationRequest) : Reloc unit :=
  let instruction := req_instruction request in
  if IsRegisterBranchWithLink instruction || IsExceptionGeneration instruction
  then fail kUnsupported
  else
    let kind := DecodeKind instruction in
    append_continuation ←
      match kind with
      | kB | kBl => relocate_branch request kind
      | kBCond | kCompareBranch | kTestBranch => relocate_conditional request kind
      | kAdr | kAdrp => relocate_adr request
      | kLiteralLoad => relocate_literal request
      | kOther =>
          ok ← emit32 instruction;
          _ ← require kNoSpace ok;
          mret true
      end;
    _ ← (if append_continuation : bool then
           pc ← writer_address;
           branch ← require_some kRange (EncodeBranch pc (req_continuation request) false);
           ok ← emit32 branch;
           require kNoSpace ok
         else mret tt);
    n ← writer_size;
    _ ← update_result (set_code_size n);
    ok ← FinalizeLiterals;
    _ ← require kNoSpace ok;
    n ← writer_size;
    update_result (set_total_size n).

(** The arguments are the request and the result object before the call; the
    outcome is the status, the result object and the output buffer. *)
Definition RelocateOneAndContinue (request : RelocationRequest) (result : RelocationResult)
    : RelocationStatus * RelocationResult * option (list Z) :=
  if bool_decide (req_output request = None) || (req_output_capacity request <? 4)
     || (req_source_pc request =? 0) || (req_output_address request =? 0)
     || (negb (req_internal_map_count request =? 0)
         && bool_decide (req_internal_maps request = None))
  then (kInvalidArgument, result, req_output request)
  else
    let writer := new_CodeWriter (req_output request) (req_output_capacity request)
                                 (req_output_address request) in
    match relocate_body request {| rs_writer := writer; rs_fixups := []; rs_result := zero_result |} with
    | (inl status, s) => (status, rs_result s, buffer_ (rs_writer s))
    | (inr _, s) => (kOk, rs_result s, buffer_ (rs_writer s))
    end.
