(* ===== verification/Arm64Machine.v ===== *)
(** * A reference semantics for the relocated A64 subset

    The specification side of the relocator: what the architecture defines for
    the PC-relative instructions and for the few instructions the relocator
    emits itself.  Every other instruction is a parameter [other] that cannot
    see its own address, which is what "not PC-relative" means. *)

From S2P Require Import Prelude Bits Arm64Encoding CodeWriter.

(** ** State *)

Record machine := {
  X : Z -> Z;                         (* x0 .. x30 *)
  SP : Z;
  NZCV : bool * bool * bool * bool;
  V : Z -> Z;                         (* 128-bit vector registers *)
  MEM : Z -> Z;                       (* bytes *)
}.

Definition upd (f : Z -> Z) (k v : Z) : Z -> Z := fun i => if i =? k then v else f i.

Definition set_X (r v : Z) (s : machine) : machine :=
  {| X := upd (X s) r v; SP := SP s; NZCV := NZCV s; V := V s; MEM := MEM s |}.
Definition set_V (r v : Z) (s : machine) : machine :=
  {| X := X s; SP := SP s; NZCV := NZCV s; V := upd (V s) r v; MEM := MEM s |}.
Definition set_SP (v : Z) (s : machine) : machine :=
  {| X := X s; SP := v; NZCV := NZCV s; V := V s; MEM := MEM s |}.
Definition set_MEM (m : Z -> Z) (s : machine) : machine :=
  {| X := X s; SP := SP s; NZCV := NZCV s; V := V s; MEM := m |}.

(** Register 31 is the zero register. *)
Definition read_x (s : machine) (r : Z) : Z := if r =? 31 then 0 else X s r.
Definition write_x (r v : Z) (s : machine) : machine := if r =? 31 then s else set_X r v s.

Definition mem_read (n : nat) (a : Z) (m : Z -> Z) : Z :=
  le_value ((fun i => m (u64 (a + Z.of_nat i))) <$> seq 0 n).

Fixpoint mem_write (bs : list Z) (a : Z) (m : Z -> Z) : Z -> Z :=
  match bs with
  | [] => m
  | b :: bs => mem_write bs (u64 (a + 1)) (upd m (u64 a) b)
  end.

(** ** Instructions *)

Inductive next := Fall | Jump (a : Z).

(** The target of a PC-relative instruction, from the architecture's
    description of its immediate. *)
Definition arch_target (i pc : Z) : Z :=
  u64 (pc_base (DecodeKind i) pc + imm_offset (DecodeKind i) (get_imm (DecodeKind i) i)).

Definition cond_holds (cond : Z) (flags : bool * bool * bool * bool) : bool :=
  let '(n, z, c, v) := flags in
  let base :=
    match cond >>> 1 with
    | 0 => z | 1 => c | 2 => n | 3 => v
    | 4 => c && negb z
    | 5 => Bool.eqb n v
    | 6 => Bool.eqb n v && negb z
    | _ => true
    end in
  if Z.odd cond && negb (cond =? 15) then negb base else base.

Definition cond_of (i : Z) : Z := i &&& 0xf.
Definition rt_of (i : Z) : Z := i &&& 0x1f.

(** Whether a conditional branch is taken. *)
Definition taken (i : Z) (s : machine) : bool :=
  match DecodeKind i with
  | kBCond => cond_holds (cond_of i) (NZCV s)
  | kCompareBranch =>
      let v := read_x s (rt_of i) in
      let v := if has i 0x80000000 then v else v mod 2 ^ 32 in
      xorb (v =? 0) (has i 0x01000000)
  | kTestBranch =>
      let bit := (if has i 0x80000000 then 32 else 0) + ((i &&& 0xf80000) >>> 19) in
      Bool.eqb (Z.testbit (read_x s (rt_of i)) bit) (has i 0x01000000)
  | _ => false
  end.

(** The loads shared by the literal and the register forms, indexed by the
    [opc] and [V] fields of the literal form: LDR W/X, LDRSW, PRFM, LDR S/D/Q. *)
Inductive load_kind :=
| LoadX (n : nat)      (* n bytes, zero-extended, into a general register *)
| LoadSW               (* 4 bytes, sign-extended *)
| Prefetch
| LoadV (n : nat).     (* n bytes into a vector register *)

Definition load_kind_of (opc vector : Z) : option load_kind :=
  if vector =? 0 then
    if opc =? 0 then Some (LoadX 4) else if opc =? 1 then Some (LoadX 8)
    else if opc =? 2 then Some LoadSW else if opc =? 3 then Some Prefetch else None
  else
    if opc =? 0 then Some (LoadV 4) else if opc =? 1 then Some (LoadV 8)
    else if opc =? 2 then Some (LoadV 16) else None.

Definition do_load (k : load_kind) (rt a : Z) (s : machine) : machine :=
  match k with
  | LoadX n => write_x rt (mem_read n a (MEM s)) s
  | LoadSW => write_x rt (u64 (as_signed 32 (mem_read 4 a (MEM s)))) s
  | Prefetch => s
  | LoadV n => set_V rt (mem_read n a (MEM s)) s
  end.

Definition load_effect (opc vector rt a : Z) (s : machine) : option machine :=
  k ← load_kind_of opc vector; Some (do_load k rt a s).

(** The unsigned-offset register loads, by their ten opcode bits: the matching
    [(opc, V)] of the literal form. *)
Definition register_load (i : Z) : option (Z * Z) :=
  match i >>> 22 with
  | 0x2e5 => Some (0, 0)
  | 0x3e5 => Some (1, 0)
  | 0x2e6 => Some (2, 0)
  | 0x3e6 => Some (3, 0)
  | 0x2f5 => Some (0, 1)
  | 0x3f5 => Some (1, 1)
  | 0x0f7 => Some (2, 1)
  | _ => None
  end.

Section Machine.
(** The instructions that do not depend on their own address. *)
Context (other : Z -> machine -> option (machine * next)).

Definition exec (i pc : Z) (s : machine) : option (machine * next) :=
  match DecodeKind i with
  | kB => Some (s, Jump (arch_target i pc))
  | kBl => Some (write_x 30 (u64 (pc + 4)) s, Jump (arch_target i pc))
  | kBCond | kCompareBranch | kTestBranch =>
      Some (s, if taken i s then Jump (arch_target i pc) else Fall)
  | kAdr | kAdrp => Some (write_x (rt_of i) (arch_target i pc) s, Fall)
  | kLiteralLoad =>
      s' ← load_effect ((i >>> 30) &&& 0x3) ((i >>> 26) &&& 0x1) (rt_of i) (arch_target i pc) s;
      Some (s', Fall)
  | kOther =>
      if i =? kNop then Some (s, Fall)
      else if i =? kStrX17PreIndexSpMinus16 then
        let a := u64 (SP s - 16) in
        Some (set_SP a (set_MEM (mem_write (le_bytes 8 (X s 17)) a (MEM s)) s), Fall)
      else if i =? kLdrX17PostIndexSpPlus16 then
        Some (set_SP (u64 (SP s + 16)) (set_X 17 (mem_read 8 (SP s) (MEM s)) s), Fall)
      else
        match register_load i with
        | Some (opc, vector) =>
            let rn := (i >>> 5) &&& 0x1f in
            let imm := (i >>> 10) &&& 0xfff in
            let scale := if vector =? 0 then (match opc with 1 | 3 => 8 | _ => 4 end)
                         else (match opc with 0 => 4 | 1 => 8 | _ => 16 end) in
            let base := if rn =? 31 then SP s else X s rn in
            s' ← load_effect opc vector (rt_of i) (u64 (base + imm * scale)) s;
            Some (s', Fall)
        | None => other i s
        end
  end.

Definition next_pc (pc : Z) (n : next) : Z :=
  match n with Fall => u64 (pc + 4) | Jump a => a end.

Definition step (c : Z * machine) : option (Z * machine) :=
  let '(pc, s) := c in
  r ← exec (mem_read 4 pc (MEM s)) pc s;
  let '(s', n) := r in Some (next_pc pc n, s').

Fixpoint run (n : nat) (c : Z * machine) : option (Z * machine) :=
  match n with
  | O => Some c
  | S n => c' ← step c; run n c'
  end.

Lemma run_step n c c' : step c = Some c' -> run (S n) c = run n c'.
Proof. intros H. simpl. by rewrite H. Qed.
End Machine.

(** ** Equality of states up to a set of memory bytes *)

Record same_except (P : Z -> Prop) (s t : machine) : Prop := {
  same_X : forall r, X s r = X t r;
  same_SP : SP s = SP t;
  same_NZCV : NZCV s = NZCV t;
  same_V : forall r, V s r = V t r;
  same_MEM : forall a, ~ P a -> MEM s a = MEM t a;
}.

#[export] Instance same_except_equiv P : Equivalence (same_except P).
Proof.
  split.
  - by split.
  - intros s t []. split; intros; symmetry; auto.
  - intros s t u [A B C D E] [A' B' C' D' E'].
    split; intros; [by rewrite A|congruence|congruence|by rewrite D|rewrite E; auto].
Qed.

(** ** Memory lemmas *)

Definition bytes_at (m : Z -> Z) (base : Z) (bs : list Z) : Prop :=
  forall i b, bs !! i = Some b -> m (u64 (base + Z.of_nat i)) = b.

Lemma fmap_seq_lookup {A} (f : nat -> A) n (bs : list A) :
  length bs = n -> (forall i b, bs !! i = Some b -> f i = b) -> f <$> seq 0 n = bs.
Proof.
  intros Hl H. apply list_eq. intros i. rewrite list_lookup_fmap.
  destruct (bs !! i) as [b|] eqn:Hb.
  - assert (i < n)%nat by (apply lookup_lt_Some in Hb; lia).
    rewrite lookup_seq_lt by done. simpl. f_equal. by apply H.
  - apply lookup_ge_None in Hb. by rewrite lookup_seq_ge by lia.
Qed.

Lemma mem_read_bytes m base (a b c : list Z) n :
  bytes_at m base (a ++ b ++ c) -> length b = n ->
  mem_read n (base + Z.of_nat (length a)) m = le_value b.
Proof.
  intros Hm Hl. unfold mem_read. f_equal. apply fmap_seq_lookup; [done|].
  intros i x Hx. rewrite <- (Hm (length a + i)%nat).
  - do 2 f_equal. lia.
  - rewrite lookup_app_r by lia. replace (length a + i - length a)%nat with i by lia.
    rewrite lookup_app_l; [done|]. by apply lookup_lt_Some in Hx.
Qed.

Lemma mem_read_ext n a m m' :
  (forall i, (i < n)%nat -> m (u64 (a + Z.of_nat i)) = m' (u64 (a + Z.of_nat i))) ->
  mem_read n a m = mem_read n a m'.
Proof.
  intros H. unfold mem_read. f_equal. apply list_fmap_ext.
  intros i x Hx. apply lookup_seq in Hx as [-> Hx]. by apply H.
Qed.

Lemma mem_write_other bs a m x :
  0 <= a -> a + Z.of_nat (length bs) <= 2 ^ 64 ->
  ~ (a <= x < a + Z.of_nat (length bs)) -> mem_write bs a m x = m x.
Proof.
  revert a m. induction bs as [|b bs IH]; intros a m Ha Hb Hx; [done|].
  simpl length in *. simpl. destruct bs as [|b' bs].
  - simpl. unfold upd. rewrite u64_small by lia. destruct (Z.eqb_spec x a); [lia|done].
  - simpl length in *. rewrite IH; rewrite ?u64_small by lia; simpl length; try lia.
    unfold upd. destruct (Z.eqb_spec x a); [lia|done].
Qed.

Lemma mem_write_bytes_at bs a m :
  0 <= a -> a + Z.of_nat (length bs) <= 2 ^ 64 -> bytes_at (mem_write bs a m) a bs.
Proof.
  revert a m. induction bs as [|b bs IH]; intros a m Ha Hb i x Hi; [done|].
  simpl length in *. destruct bs as [|b' bs].
  - destruct i as [|[|i]]; try done. injection Hi as <-. simpl. unfold upd.
    rewrite Z.add_0_r. by rewrite Z.eqb_refl.
  - change (mem_write (b :: b' :: bs) a m)
      with (mem_write (b' :: bs) (u64 (a + 1)) (upd m (u64 a) b)).
    simpl length in Hb. rewrite u64_small by lia.
    destruct i as [|i].
    + injection Hi as <-. rewrite Z.add_0_r.
      rewrite mem_write_other; rewrite ?(u64_small a) by lia; simpl length; try lia.
      unfold upd. by rewrite Z.eqb_refl.
    + rewrite <- (IH (a + 1) (upd m (u64 a) b) ltac:(lia) ltac:(simpl length; lia) i x Hi).
      do 2 f_equal. lia.
Qed.

Lemma mem_read_written n v a m :
  0 <= a -> a + Z.of_nat n <= 2 ^ 64 ->
  mem_read n a (mem_write (le_bytes n v) a m) = v mod 2 ^ (8 * Z.of_nat n).
Proof.
  intros Ha Hn. rewrite <- le_value_bytes.
  pose proof (mem_write_bytes_at (le_bytes n v) a m Ha) as Hb.
  rewrite length_le_bytes in Hb. specialize (Hb Hn).
  replace a with (a + Z.of_nat (length (@nil Z))) at 1 by (simpl; lia).
  apply mem_read_bytes with (c := []); [by rewrite app_nil_r|apply length_le_bytes].
Qed.
