(* ===== verification/RelocatorLayout.v ===== *)
(** * What a successful relocation leaves in the buffer

    Inversion of the relocator's monad: for every path of
    [RelocateOneAndContinue] that ends in [kOk], the words it emitted, the
    continuation branch and the literal pool behind them. *)

From S2P Require Import Prelude Bits Arm64Encoding CodeWriter Arm64Relocator.

Lemma holds_words_fit w cap base ws :
  holds_words w cap base ws -> 4 * Z.of_nat (length ws) <= cap.
Proof.
  intros [(rest & _ & Hl) _ _ _]. rewrite length_app, length_word_bytes in Hl. lia.
Qed.

(** ** Inverting successful runs of the monad *)

Lemma bind_ok {A B} (m : Reloc A) (f : A -> Reloc B) s b s' :
  (m ≫= f) s = (inr b, s') -> exists a s1, m s = (inr a, s1) /\ f a s1 = (inr b, s').
Proof.
  unfold mbind, Reloc_bind. destruct (m s) as [[st|a] s1]; [done|]. eauto.
Qed.

Lemma require_ok st ok s u s' : require st ok s = (inr u, s') -> ok = true /\ s' = s.
Proof. unfold require. destruct ok; by intros [= <- <-]. Qed.

Lemma require_some_ok {A} st (o : option A) s a s' :
  require_some st o s = (inr a, s') -> o = Some a /\ s' = s.
Proof. unfold require_some. destruct o; by intros [= <- <-]. Qed.

Lemma ret_ok {A} (a b : A) s s' : (mret a : Reloc A) s = (inr b, s') -> a = b /\ s' = s.
Proof. by intros [= <- <-]. Qed.

(** ** No error path returns [kOk] *)

Definition never_ok {A} (m : Reloc A) : Prop := forall s s', m s <> (inl kOk, s').

Lemma never_ok_bind {A B} (m : Reloc A) (f : A -> Reloc B) :
  never_ok m -> (forall a, never_ok (f a)) -> never_ok (m ≫= f).
Proof.
  intros Hm Hf s s'. unfold mbind, Reloc_bind. destruct (m s) as [[st|a] s1] eqn:E.
  - intros [= -> ->]. by apply (Hm s s').
  - apply Hf.
Qed.

Lemma never_ok_ret {A} (a : A) : never_ok (mret a).
Proof. by intros s s'. Qed.

Lemma never_ok_fail {A} st : st <> kOk -> never_ok (fail st : Reloc A).
Proof. by intros H s s' [= E]. Qed.

Lemma never_ok_require st ok : st <> kOk -> never_ok (require st ok).
Proof. intros H. unfold require. destruct ok; [apply never_ok_ret|by apply never_ok_fail]. Qed.

Lemma never_ok_require_some {A} st (o : option A) : st <> kOk -> never_ok (require_some st o).
Proof. intros H. destruct o; [apply never_ok_ret|by apply never_ok_fail]. Qed.

Lemma never_ok_writer f : never_ok (with_writer f).
Proof. intros s s'. unfold with_writer. by destruct (f _). Qed.

Lemma never_ok_load reg v n : never_ok (EmitLoadAddress reg v n).
Proof. intros s s'. unfold EmitLoadAddress. destruct (_ <=? _); [done|]. apply never_ok_writer. Qed.

Lemma never_ok_and_then a b : never_ok a -> never_ok b -> never_ok (and_then a b).
Proof. intros. apply never_ok_bind; [done|]. intros []; [done|apply never_ok_ret]. Qed.

Ltac never_ok_tac :=
  repeat first
    [ apply never_ok_bind; [|intros]
    | apply never_ok_and_then
    | apply never_ok_ret | apply never_ok_writer | apply never_ok_load
    | by apply never_ok_fail | by apply never_ok_require | by apply never_ok_require_some
    | intros s ?; apply (never_ok_writer (finalize_loop (rs_fixups s)))
    | by intros ? ?
    | case_match ].

Lemma relocate_body_never_ok req : never_ok (relocate_body req).
Proof.
  unfold relocate_body, relocate_branch, relocate_conditional, relocate_adr, relocate_literal.
  never_ok_tac.
Qed.

Section Layout.
Context (cap base : Z).

(** The writer holds exactly the words [ws] and the pending fixups are [fx]. *)
Definition at_words (s : RelocState) (ws : list Z) (fx : list LiteralFixup) : Prop :=
  holds_words (rs_writer s) cap base ws /\ rs_fixups s = fx.

Lemma emit32_ok v s ws fx s' :
  at_words s ws fx -> emit32 v s = (inr true, s') -> at_words s' (ws ++ [v]) fx.
Proof.
  intros [Hw Hf]. unfold emit32, with_writer, Emit32.
  pose proof (holds_words_emit 4 _ _ _ _ v [v] (word_bytes_one v) Hw) as He.
  destruct (_ <=? cap).
  - destruct He as (w' & -> & Hw'). intros [= <-]. by split.
  - rewrite He. done.
Qed.

Lemma emit_load_ok reg v n s ws fx s' :
  at_words s ws fx -> EmitLoadAddress reg v n s = (inr true, s') ->
  at_words s' (ws ++ [0])
    (fx ++ [{| instruction_offset := 4 * Z.of_nat (length ws); fix_reg := reg;
               fix_value := v |}]).
Proof.
  intros [Hw Hf]. unfold EmitLoadAddress. destruct (_ <=? _); [done|].
  apply emit32_ok. split; [done|]. simpl. unfold size. by rewrite (hw_size _ _ _ _ Hw), Hf.
Qed.

Lemma and_then_ok a b s s' :
  and_then a b s = (inr true, s') ->
  exists s1, a s = (inr true, s1) /\ b s1 = (inr true, s').
Proof.
  intros H. apply bind_ok in H as (x & s1 & Ha & Hb). destruct x; [eauto|].
  by apply ret_ok in Hb as [? _].
Qed.

Lemma update_ok f s u s' ws fx :
  update_result f s = (inr u, s') -> at_words s ws fx -> at_words s' ws fx.
Proof. by intros [= _ <-]. Qed.

Lemma address_ok s ws fx a s' :
  0 <= base -> base + cap < 2 ^ 64 -> at_words s ws fx ->
  writer_address s = (inr a, s') -> a = base + 4 * Z.of_nat (length ws) /\ s' = s.
Proof.
  intros Hb Hc [Hw _] [= <- <-]. split; [|done].
  pose proof (holds_words_fit _ _ _ _ Hw).
  unfold address. rewrite (hw_size _ _ _ _ Hw), (hw_address _ _ _ _ Hw).
  apply u64_small. lia.
Qed.
End Layout.

(** One step of inversion of a successful run; leaves the facts as
    hypotheses. *)
Ltac reloc_step :=
  match goal with
  | H : (_ ≫= _) _ = (inr _, _) |- _ =>
      let a := fresh "a" in let s := fresh "s" in let H1 := fresh "H" in
      apply bind_ok in H as (a & s & H1 & H)
  | H : require _ _ _ = (inr _, _) |- _ => apply require_ok in H as [? ->]; subst
  | H : require_some _ _ _ = (inr _, _) |- _ => apply require_some_ok in H as [? ->]
  | H : (mret _) _ = (inr _, _) |- _ => apply ret_ok in H as [? ->]; subst
  | H : and_then _ _ _ = (inr true, _) |- _ =>
      let s := fresh "s" in let H1 := fresh "H" in apply and_then_ok in H as (s & H1 & H)
  | H : emit32 _ ?s = (inr true, _), Hw : at_words _ _ ?s _ _ |- _ =>
      eapply emit32_ok in H; [|exact Hw]; clear Hw
  | H : EmitLoadAddress _ _ _ ?s = (inr true, _), Hw : at_words _ _ ?s _ _ |- _ =>
      eapply emit_load_ok in H; [|exact Hw]; clear Hw
  | H : update_result _ ?s = (inr _, _), Hw : at_words _ _ ?s _ _ |- _ =>
      eapply update_ok in H; [|exact Hw]; clear Hw
  end.

(** ** The code plan

    One constructor per path of the function that ends in [kOk]: the words
    emitted before the continuation branch, the pending literal fixup, and
    whether the continuation branch follows. *)

Definition branch_kind (kind : InstructionKind) : bool :=
  bool_decide (kind = kBCond \/ kind = kCompareBranch \/ kind = kTestBranch).

Definition fixup (offset reg value : Z) : LiteralFixup :=
  {| instruction_offset := offset; fix_reg := reg; fix_value := value |}.

Definition decoded (req : RelocationRequest) : Z :=
  DecodePcRelativeTarget (req_instruction req) (req_source_pc req).
Definition mapped (req : RelocationRequest) : Z := MapInternalTarget req (decoded req).

Definition can_use_destination (i : Z) : bool :=
  (((i >>> 26) &&& 0x1) =? 0) && negb (((i >>> 30) &&& 0x3) =? 3)
  && negb ((i &&& 0x1f) =? 31).

Inductive code_plan (req : RelocationRequest) (base : Z) :
    list Z -> list LiteralFixup -> bool -> Prop :=
| plan_b e :
    DecodeKind (req_instruction req) = kB ->
    EncodePcRelative (req_instruction req) base (mapped req) = Some e ->
    code_plan req base [e] [] false
| plan_bl e :
    DecodeKind (req_instruction req) = kBl ->
    EncodeBranch (base + 4) (mapped req) false = Some e ->
    code_plan req base [0; e] [fixup 0 30 (u64 (req_source_pc req + 4))] false
| plan_always e :
    branch_kind (DecodeKind (req_instruction req)) = true ->
    always_branch (DecodeKind (req_instruction req)) (req_instruction req) = true ->
    EncodeBranch base (mapped req) false = Some e ->
    code_plan req base [e] [] false
| plan_cond e :
    branch_kind (DecodeKind (req_instruction req)) = true ->
    EncodePcRelative (req_instruction req) base (mapped req) = Some e ->
    code_plan req base [e] [] true
| plan_cond_far skip e :
    branch_kind (DecodeKind (req_instruction req)) = true ->
    always_branch (DecodeKind (req_instruction req)) (req_instruction req) = false ->
    EncodePcRelative (InvertConditional (req_instruction req)) base (u64 (base + 8)) = Some skip ->
    EncodeBranch (u64 (base + 4)) (mapped req) false = Some e ->
    code_plan req base [skip; e] [] true
| plan_adr e :
    DecodeKind (req_instruction req) = kAdr \/ DecodeKind (req_instruction req) = kAdrp ->
    EncodePcRelative (req_instruction req) base (decoded req) = Some e ->
    code_plan req base [e] [] true
| plan_adr_discard :
    DecodeKind (req_instruction req) = kAdr \/ DecodeKind (req_instruction req) = kAdrp ->
    (req_instruction req) &&& 0x1f = 31 ->
    code_plan req base [kNop] [] true
| plan_adr_far :
    DecodeKind (req_instruction req) = kAdr \/ DecodeKind (req_instruction req) = kAdrp ->
    (req_instruction req) &&& 0x1f <> 31 ->
    code_plan req base [0] [fixup 0 ((req_instruction req) &&& 0x1f) (decoded req)] true
| plan_literal e :
    DecodeKind (req_instruction req) = kLiteralLoad ->
    OverlapsOverwrittenBytes req (req_instruction req) (decoded req) = false ->
    EncodePcRelative (req_instruction req) base (decoded req) = Some e ->
    code_plan req base [e] [] true
| plan_literal_dest load :
    DecodeKind (req_instruction req) = kLiteralLoad ->
    OverlapsOverwrittenBytes req (req_instruction req) (decoded req) = false ->
    can_use_destination (req_instruction req) = true ->
    EncodeLiteralMemoryLoad (req_instruction req) ((req_instruction req) &&& 0x1f) = Some load ->
    code_plan req base [0; load] [fixup 0 ((req_instruction req) &&& 0x1f) (decoded req)] true
| plan_literal_spill load :
    DecodeKind (req_instruction req) = kLiteralLoad ->
    OverlapsOverwrittenBytes req (req_instruction req) (decoded req) = false ->
    can_use_destination (req_instruction req) = false ->
    EncodeLiteralMemoryLoad (req_instruction req) 17 = Some load ->
    code_plan req base [kStrX17PreIndexSpMinus16; 0; load; kLdrX17PostIndexSpPlus16]
      [fixup 4 17 (decoded req)] true
| plan_other :
    DecodeKind (req_instruction req) = kOther ->
    IsRegisterBranchWithLink (req_instruction req) = false ->
    IsExceptionGeneration (req_instruction req) = false ->
    code_plan req base [req_instruction req] [] true.

(** The words after [FinalizeLiterals]. *)
Inductive pool_layout (base : Z) (code : list Z) : list LiteralFixup -> list Z -> Prop :=
| pool_none : pool_layout base code [] code
| pool_one k reg v pad load :
    pad = [] \/ pad = [kNop] ->
    EncodeLdrLiteralX reg (base + 4 * Z.of_nat k)
      (base + 4 * Z.of_nat (length (code ++ pad))) = Some load ->
    pool_layout base code [fixup (4 * Z.of_nat k) reg v]
      (<[k := load]> (code ++ pad ++ [v; v >>> 32])).

Section Plan.
Context (req : RelocationRequest) (cap base : Z).
Context (Hbase : 0 <= base) (Hcap : base + cap < 2 ^ 64).

Ltac addr_step :=
  match goal with
  | H : writer_address ?s = (inr _, _), Hw : at_words _ _ ?s _ _ |- _ =>
      let E := fresh in
      pose proof (address_ok _ _ _ _ _ _ _ Hbase Hcap Hw H) as [E ->]; clear H;
      try rewrite E in *; clear E
  end.
Ltac steps := repeat (reloc_step || addr_step); simpl length in *;
  rewrite ?Z.mul_0_r, ?Z.add_0_r in *.

(** Close a path: the plan constructor and the writer contents. *)
Ltac plan c := do 2 eexists; split; [|eassumption]; apply c; done || (try tauto).

Lemma branch_plan s ap s' :
  DecodeKind (req_instruction req) = kB \/ DecodeKind (req_instruction req) = kBl ->
  at_words cap base s [] [] ->
  relocate_branch req (DecodeKind (req_instruction req)) s = (inr ap, s') ->
  exists ws fx, code_plan req base ws fx ap /\ at_words cap base s' ws fx.
Proof.
  intros Hk Hw H. unfold relocate_branch in H. fold (decoded req) in H. fold (mapped req) in H.
  case_decide as Hd; steps; [plan plan_bl|plan plan_b].
Qed.

Lemma conditional_plan s ap s' :
  branch_kind (DecodeKind (req_instruction req)) = true ->
  at_words cap base s [] [] ->
  relocate_conditional req (DecodeKind (req_instruction req)) s = (inr ap, s') ->
  exists ws fx, code_plan req base ws fx ap /\ at_words cap base s' ws fx.
Proof.
  intros Hk Hw H. unfold relocate_conditional in H. fold (decoded req) in H.
  fold (mapped req) in H. steps.
  destruct (always_branch _ _) eqn:Ha; [steps; plan plan_always|].
  destruct (EncodePcRelative (req_instruction req) base _) eqn:He.
  - steps. plan plan_cond.
  - steps. plan plan_cond_far.
Qed.

Lemma adr_plan s ap s' :
  DecodeKind (req_instruction req) = kAdr \/ DecodeKind (req_instruction req) = kAdrp ->
  at_words cap base s [] [] -> relocate_adr req s = (inr ap, s') ->
  exists ws fx, code_plan req base ws fx ap /\ at_words cap base s' ws fx.
Proof.
  intros Hk Hw H. unfold relocate_adr in H. fold (decoded req) in H. steps.
  destruct (EncodePcRelative _ _ _) eqn:He; [steps; plan plan_adr|].
  destruct (Z.eqb_spec ((req_instruction req) &&& 0x1f) 31).
  - steps. plan plan_adr_discard.
  - steps. plan plan_adr_far.
Qed.

Lemma literal_plan s ap s' :
  DecodeKind (req_instruction req) = kLiteralLoad ->
  at_words cap base s [] [] -> relocate_literal req s = (inr ap, s') ->
  exists ws fx, code_plan req base ws fx ap /\ at_words cap base s' ws fx.
Proof.
  intros Hk Hw H. unfold relocate_literal in H. fold (decoded req) in H.
  fold (can_use_destination (req_instruction req)) in H.
  destruct (OverlapsOverwrittenBytes _ _ _) eqn:Ho; [done|]. steps.
  destruct (EncodePcRelative _ _ _) eqn:He; [steps; plan plan_literal|].
  destruct (can_use_destination _) eqn:Hd; steps;
    [plan plan_literal_dest|plan plan_literal_spill].
Qed.

(** The dispatch on the kind. *)
Lemma dispatch_plan s ap s' :
  IsRegisterBranchWithLink (req_instruction req) = false ->
  IsExceptionGeneration (req_instruction req) = false ->
  at_words cap base s [] [] ->
  match DecodeKind (req_instruction req) with
  | kB | kBl => relocate_branch req (DecodeKind (req_instruction req))
  | kBCond | kCompareBranch | kTestBranch =>
      relocate_conditional req (DecodeKind (req_instruction req))
  | kAdr | kAdrp => relocate_adr req
  | kLiteralLoad => relocate_literal req
  | kOther => ok ← emit32 (req_instruction req); _ ← require kNoSpace ok; mret true
  end s = (inr ap, s') ->
  exists ws fx, code_plan req base ws fx ap /\ at_words cap base s' ws fx.
Proof.
  intros Hr He Hw H.
  assert (branch_kind (DecodeKind (req_instruction req)) = true \/
          branch_kind (DecodeKind (req_instruction req)) = false) as Hb
    by (destruct (branch_kind _); auto).
  unfold branch_kind in Hb. rewrite bool_decide_eq_true, bool_decide_eq_false in Hb.
  destruct (DecodeKind (req_instruction req)) eqn:Ek.
  - steps. plan plan_other.
  - rewrite <- Ek in H. eapply branch_plan; eauto.
  - rewrite <- Ek in H. eapply branch_plan; eauto.
  - rewrite <- Ek in H. eapply conditional_plan; eauto. by rewrite Ek.
  - rewrite <- Ek in H. eapply conditional_plan; eauto. by rewrite Ek.
  - rewrite <- Ek in H. eapply conditional_plan; eauto. by rewrite Ek.
  - eapply adr_plan; eauto.
  - eapply adr_plan; eauto.
  - eapply literal_plan; eauto.
Qed.

Lemma align_words w ws ok w' :
  holds_words w cap base ws -> Align8 w = (ok, w') -> ok = true ->
  exists pad, (pad = [] \/ pad = [kNop]) /\ holds_words w' cap base (ws ++ pad).
Proof.
  intros Hw. unfold Align8. destruct (_ =? 0).
  - intros [= <- <-] _. exists []. rewrite app_nil_r. auto.
  - intros H ->. unfold Emit32 in H.
    pose proof (holds_words_emit 4 _ _ _ _ _ _ (word_bytes_one kNop) Hw) as He.
    destruct (_ <=? cap); [|congruence]. destruct He as (w2 & He & Hw2).
    rewrite He in H. injection H as <-. exists [kNop]. auto.
Qed.

Lemma finalize_pool ws fx w w' :
  (length fx <= 1)%nat ->
  (forall f, f ∈ fx -> exists k, (k < length ws)%nat /\
              instruction_offset f = 4 * Z.of_nat k) ->
  holds_words w cap base ws -> finalize_loop fx w = (true, w') ->
  exists final, pool_layout base ws fx final /\ holds_words w' cap base final.
Proof.
  intros Hl Hf Hw H. destruct fx as [|f [|f' fx]]; simpl in Hl; [| |lia].
  - injection H as <-. exists ws. split; [constructor|done].
  - simpl in H. unfold finalize_one in H.
    destruct (Hf f) as (k & Hk & Ho); [by apply elem_of_cons; left|].
    destruct (Align8 w) as [ok1 w1] eqn:Ha. destruct ok1; [|done]. simpl in H.
    destruct (align_words _ _ _ _ Hw Ha eq_refl) as (pad & Hpad & Hw1).
    pose proof (holds_words_emit 8 _ _ _ _ _ _ (word_bytes_two (fix_value f)) Hw1) as He.
    unfold Emit64 in H. pose proof (holds_words_fit _ _ _ _ Hw1).
    destruct (_ <=? cap); [|by rewrite He in H]. destruct He as (w2 & He & Hw2).
    rewrite He in H. simpl in H.
    unfold address_at, address in H.
    rewrite (hw_size _ _ _ _ Hw1), (hw_address _ _ _ _ Hw1), (hw_address _ _ _ _ Hw2), Ho in H.
    pose proof (holds_words_fit _ _ _ _ Hw2).
    rewrite !length_app in *. rewrite !u64_small in H by lia.
    destruct (EncodeLdrLiteralX _ _ _) as [load|] eqn:Hload; [|done].
    rewrite <- app_assoc in Hw2.
    destruct (holds_words_patch _ _ _ _ k load Hw2) as (w3 & Hp & Hw3).
    { rewrite !length_app. lia. }
    rewrite Hp in H. injection H as <-. eexists. split; [|exact Hw3].
    destruct f as [o r v]. simpl in *. subst o. apply pool_one; [done|].
    by rewrite length_app.
Qed.
End Plan.

(** Every fixup of a plan points into the emitted words. *)
Lemma code_plan_fixups req base ws fx ap :
  code_plan req base ws fx ap ->
  (length fx <= 1)%nat /\
  forall f tail, f ∈ fx -> exists k, (k < length (ws ++ tail))%nat /\
                instruction_offset f = 4 * Z.of_nat k.
Proof.
  intros H. destruct H; (split; [simpl; lia|]); intros f tail Hf;
    repeat (apply elem_of_cons in Hf as [->|Hf]); try (by apply not_elem_of_nil in Hf).
  1,2,3: by exists 0%nat; simpl; split; [lia|].
  by exists 1%nat; simpl; split; [lia|].
Qed.

(** The continuation branch. *)
Definition tail_words (req : RelocationRequest) (base : Z) (ws : list Z) (ap : bool)
    (tail : list Z) : Prop :=
  if ap then exists b, tail = [b] /\
    EncodeBranch (base + 4 * Z.of_nat (length ws)) (req_continuation req) false = Some b
  else tail = [].

Lemma relocate_body_layout req cap base s0 s' u :
  0 <= base -> base + cap < 2 ^ 64 ->
  at_words cap base s0 [] [] -> relocate_body req s0 = (inr u, s') ->
  exists ws fx ap tail final,
    code_plan req base ws fx ap /\ tail_words req base ws ap tail /\
    pool_layout base (ws ++ tail) fx final /\
    holds_words (rs_writer s') cap base final /\
    code_size (rs_result s') = 4 * Z.of_nat (length (ws ++ tail)) /\
    total_size (rs_result s') = 4 * Z.of_nat (length final).
Proof.
  intros Hb Hc Hw H. unfold relocate_body in H.
  destruct (_ || _) eqn:Hx; [done|]. apply orb_false_iff in Hx as [Hr He].
  apply bind_ok in H as (ap & s1 & Hd & H).
  eapply dispatch_plan in Hd as (ws & fx & Hplan & Hw1); eauto.
  apply bind_ok in H as ([] & s2 & Ht & H).
  assert (exists tail, tail_words req base ws ap tail /\ at_words cap base s2 (ws ++ tail) fx)
    as (tail & Htail & Hw2).
  { destruct ap.
    - repeat reloc_step.
      match goal with Ha : writer_address _ = _ |- _ =>
        pose proof (address_ok _ _ _ _ _ _ _ Hb Hc Hw1 Ha) as [-> ->] end.
      repeat reloc_step. eexists. split; [by eexists|eassumption].
    - apply ret_ok in Ht as [_ ->]. exists []. by rewrite app_nil_r. }
  clear Ht.
  apply bind_ok in H as (n1 & s3 & Hn1 & H). injection Hn1 as <- <-.
  apply bind_ok in H as ([] & s4 & Hu & H). injection Hu as <-.
  apply bind_ok in H as (ok & s5 & Hf & H). unfold FinalizeLiterals, with_writer in Hf. simpl in Hf.
  destruct (finalize_loop _ _) as [ok' w'] eqn:Hfin. injection Hf as <- <-.
  apply bind_ok in H as ([] & s6 & Hq & H). apply require_ok in Hq as [-> ->].
  apply bind_ok in H as (n2 & s7 & Hn2 & H). injection Hn2 as <- <-. injection H as <- <-.
  destruct Hw2 as [Hw2 Hfx]. rewrite Hfx in Hfin.
  destruct (code_plan_fixups _ _ _ _ _ Hplan) as [Hlen Hoff].
  destruct (finalize_pool cap base Hb Hc _ _ _ _ Hlen (fun f => Hoff f tail) Hw2 Hfin)
    as (final & Hpool & Hw').
  exists ws, fx, ap, tail, final. simpl. split_and!; try done.
  - by apply (hw_size _ _ _ _ Hw2).
  - by apply (hw_size _ _ _ _ Hw').
Qed.
