(* ===== verification/RelocatorTotal.v ===== *)
(** * When a relocation succeeds

    Forward reasoning on the relocator's monad: with room for eight words and
    branch targets in reach the call returns [kOk]; an instruction that cannot
    be moved is reported as such. *)

From S2P Require Import Prelude Bits Arm64Encoding CodeWriter Arm64Relocator RelocatorLayout.

(** A request whose addresses are machine addresses, with a buffer of the
    announced capacity. *)
Record valid_request (req : RelocationRequest) : Prop := {
  vr_word : word (req_instruction req);
  vr_source : addr (req_source_pc req);
  vr_continuation : addr (req_continuation req);
  vr_maps : forall maps, req_internal_maps req = Some maps ->
              Forall (fun m => addr (map_destination m)) maps;
  vr_address : 0 <= req_output_address req;
  vr_end : req_output_address req + req_output_capacity req < 2 ^ 64;
  vr_output : exists buf, req_output req = Some buf /\
                Z.of_nat (length buf) = req_output_capacity req;
}.

(** [m] runs without an error and its outcome satisfies [Q]. *)
Definition succeeds {A} (m : Reloc A) (s : RelocState) (Q : A -> RelocState -> Prop) : Prop :=
  exists a s', m s = (inr a, s') /\ Q a s'.

Lemma succeeds_bind {A B} (m : Reloc A) (f : A -> Reloc B) s Q :
  succeeds m s (fun a s' => succeeds (f a) s' Q) -> succeeds (m ≫= f) s Q.
Proof.
  intros (a & s' & Hm & Hf). unfold succeeds, mbind, Reloc_bind. by rewrite Hm.
Qed.

Lemma succeeds_ret {A} (a : A) s (Q : A -> RelocState -> Prop) : Q a s -> succeeds (mret a) s Q.
Proof. intros H. by exists a, s. Qed.

Lemma succeeds_require st ok s (Q : unit -> RelocState -> Prop) :
  ok = true -> Q tt s -> succeeds (require st ok) s Q.
Proof. intros -> H. by exists tt, s. Qed.

Lemma succeeds_some {A} st (o : option A) s (Q : A -> RelocState -> Prop) :
  (exists a, o = Some a) -> (forall a, Q a s) -> succeeds (require_some st o) s Q.
Proof. intros (a & ->) H. exists a, s. split; [done|apply H]. Qed.

Section Total.
Context (cap base : Z).
Context (Hbase : 0 <= base) (Hend : base + cap < 2 ^ 64).
Context (Halign : base mod 4 = 0) (Hroom : 32 <= cap).

(** [n] words have been written, and the pending fixup, if any, is of one of
    them. *)
Definition written (n : nat) (fx : list LiteralFixup) (s : RelocState) : Prop :=
  (exists ws, length ws = n /\ at_words cap base s ws fx) /\
  (length fx <= 1)%nat /\
  (forall f, f ∈ fx -> 0 <= fix_reg f < 32 /\ exists k, (k < n)%nat /\
     instruction_offset f = 4 * Z.of_nat k).

Lemma succeeds_emit32 v n fx s (Q : bool -> RelocState -> Prop) :
  written n fx s -> (n < 8)%nat -> (forall s', written (S n) fx s' -> Q true s') ->
  succeeds (emit32 v) s Q.
Proof.
  intros ((ws & Hn & Hw & Hf) & Hl & Hfx) Hlt HQ. unfold succeeds, emit32, with_writer, Emit32.
  pose proof (holds_words_emit 4 _ _ _ _ v [v] (word_bytes_one v) Hw) as He.
  destruct (Z.leb_spec (4 * Z.of_nat (length ws) + Z.of_nat 4) cap); [|lia].
  destruct He as (w' & -> & Hw'). do 2 eexists. split; [done|]. apply HQ. split_and!.
  - exists (ws ++ [v]). rewrite length_app. simpl. split; [lia|]. by split.
  - done.
  - intros f Hin. destruct (Hfx f Hin) as (Hr & k & Hk & Ho).
    split; [done|]. exists k. split; [lia|done].
Qed.

Lemma succeeds_load reg v n s (Q : bool -> RelocState -> Prop) :
  written n [] s -> (n < 8)%nat -> 0 <= reg < 32 ->
  (forall fx s', written (S n) fx s' -> Q true s') ->
  succeeds (EmitLoadAddress reg v 2) s Q.
Proof.
  intros ((ws & Hn & Hw & Hf) & _) Hlt Hr HQ. unfold succeeds, EmitLoadAddress. rewrite Hf.
  change (2 <=? Z.of_nat (length [])) with false. cbv iota.
  pose proof (holds_words_emit 4 _ _ _ _ 0 [0] (word_bytes_one 0) Hw) as He.
  destruct (Z.leb_spec (4 * Z.of_nat (length ws) + Z.of_nat 4) cap); [|lia].
  destruct He as (w' & He & Hw'). unfold emit32, with_writer, Emit32. simpl rs_writer. rewrite He.
  do 2 eexists. split; [done|]. eapply HQ. split_and!.
  - exists (ws ++ [0]). rewrite length_app. simpl. split; [lia|]. split; [done|reflexivity].
  - simpl. lia.
  - intros f Hin. simpl in Hin. apply list_elem_of_singleton in Hin as ->. simpl.
    split; [done|]. exists n. split; [lia|]. unfold size. by rewrite (hw_size _ _ _ _ Hw), Hn.
Qed.

Lemma succeeds_and_then a b s (Q : bool -> RelocState -> Prop) :
  succeeds a s (fun x s' => x = true /\ succeeds b s' Q) -> succeeds (and_then a b) s Q.
Proof.
  intros (x & s' & Ha & -> & Hb). apply succeeds_bind. by exists true, s'.
Qed.

Lemma succeeds_address n fx s (Q : Z -> RelocState -> Prop) :
  written n fx s -> (n <= 8)%nat -> Q (base + 4 * Z.of_nat n) s -> succeeds writer_address s Q.
Proof.
  intros ((ws & Hn & Hw & Hf) & _) Hlt HQ. do 2 eexists. split; [done|].
  unfold address. rewrite (hw_size _ _ _ _ Hw), (hw_address _ _ _ _ Hw), Hn.
  by rewrite u64_small by lia.
Qed.

Lemma succeeds_update f n fx s (Q : unit -> RelocState -> Prop) :
  written n fx s -> (forall s', written n fx s' -> Q tt s') -> succeeds (update_result f) s Q.
Proof. intros Hw HQ. do 2 eexists. split; [done|]. by apply HQ. Qed.

(** A branch from one of the words of the code to [t]. *)
Definition reachable (t : Z) : Prop :=
  addr t /\ t mod 4 = 0 /\ base + 32 - 2 ^ 27 <= t < base + 2 ^ 27.

Lemma branch_reachable t n :
  reachable t -> (n <= 8)%nat -> exists e, EncodeBranch (base + 4 * Z.of_nat n) t false = Some e.
Proof.
  intros (Ha & Hm & Hr) Hn. unfold EncodeBranch.
  apply EncodePcRelative_near; [unfold addr; lia|done|].
  change (DecodeKind 0x14000000) with kB. cbn [in_range imm_bits].
  assert ((t - (base + 4 * Z.of_nat n)) mod 4 = 0) as ->; [|simpl; lia].
  rewrite Z.sub_add_distr, Z.mul_comm, <- Zminus_mod_idemp_r, Z.mod_mul, Z.sub_0_r by lia.
  by rewrite Zminus_mod, Hm, Halign.
Qed.

Lemma succeeds_finalize n fx s :
  written n fx s -> (n <= 5)%nat ->
  succeeds FinalizeLiterals s (fun ok _ => ok = true).
Proof.
  intros ((ws & Hn & Hw & Hf) & Hl & Hfx) Hlt. unfold succeeds, FinalizeLiterals, with_writer.
  rewrite Hf. destruct fx as [|f [|f' fx]]; simpl in Hl; [by do 2 eexists| |lia].
  simpl finalize_loop. destruct (Hfx f) as (Hr & k & Hk & Ho); [by apply elem_of_cons; left|].
  unfold finalize_one.
  assert (exists pad w', Align8 (rs_writer s) = (true, w') /\ (length pad <= 1)%nat /\
            holds_words w' cap base (ws ++ pad)) as (pad & w1 & Ea & Hp & Hw1).
  { unfold Align8. destruct (_ =? 0).
    - exists [], (rs_writer s). rewrite app_nil_r. simpl. split_and!; (done || lia).
    - pose proof (holds_words_emit 4 _ _ _ _ _ _ (word_bytes_one kNop) Hw) as He.
      destruct (Z.leb_spec (4 * Z.of_nat (length ws) + Z.of_nat 4) cap); [|lia].
      destruct He as (w' & He & Hw'). exists [kNop], w'. simpl. split_and!; (done || lia). }
  rewrite Ea. cbn [negb]. unfold Emit64.
  pose proof (holds_words_emit 8 _ _ _ _ _ _ (word_bytes_two (fix_value f)) Hw1) as He.
  rewrite length_app in He.
  destruct (Z.leb_spec (4 * Z.of_nat (length ws + length pad) + Z.of_nat 8) cap); [|lia].
  destruct He as (w2 & -> & Hw2). cbn [negb].
  unfold address_at, address.
  rewrite (hw_size _ _ _ _ Hw1), (hw_address _ _ _ _ Hw1), (hw_address _ _ _ _ Hw2), Ho, length_app.
  rewrite !u64_small by lia. unfold EncodeLdrLiteralX.
  destruct (Z.ltb_spec 31 (fix_reg f)); [lia|].
  destruct (ldr_literal_x_kind (fix_reg f) Hr) as [_ Hkind].
  destruct (EncodePcRelative_near (0x58000000 ||| fix_reg f) (base + 4 * Z.of_nat k)
    (base + 4 * Z.of_nat (length ws + length pad))) as (load & Hload);
    [unfold addr; lia|unfold addr; lia| |].
  { rewrite Hkind. cbn [in_range imm_bits].
    replace (base + _ - _) with (Z.of_nat (length ws + length pad - k) * 4) by lia.
    rewrite Z.mod_mul by lia. simpl. lia. }
  rewrite Hload. destruct (holds_words_patch _ _ _ _ k load Hw2) as (w3 & -> & Hw3).
  { rewrite !length_app. lia. }
  by do 2 eexists.
Qed.

(** ** The branches *)

Context (req : RelocationRequest).
Abbreviation i := (req_instruction req).

(** The outcome of a branch: at most four words. *)
Definition branch_post (_ : bool) (s : RelocState) : Prop :=
  exists n fx, written n fx s /\ (n <= 4)%nat.

Lemma base_addr : addr base.
Proof using Hbase Hend Hroom. unfold addr. lia. Qed.

Ltac fwd :=
  repeat first
    [ apply succeeds_bind
    | apply succeeds_and_then
    | eapply succeeds_address; [eassumption|lia|]; rewrite ?Z.mul_0_r, ?Z.add_0_r
    | apply succeeds_require; [reflexivity|]
    | eapply succeeds_emit32; [eassumption|lia|]; intros; try (split; [reflexivity|])
    | eapply succeeds_load; [eassumption|lia|lia|]; intros; try (split; [reflexivity|])
    | eapply succeeds_update; [eassumption|]; intros
    | apply succeeds_ret; try (split; [reflexivity|]) ];
  try (match goal with |- branch_post _ _ => do 2 eexists; split; [eassumption|lia] end).

Lemma succeeds_other s :
  written 0 [] s ->
  succeeds (ok ← emit32 i; _ ← require kNoSpace ok; mret true) s branch_post.
Proof. intros Hw. fwd. Qed.

Lemma reachable_range t k :
  reachable t -> in_range kB (base + 4 * Z.of_nat k) t = true \/ (8 < k)%nat.
Proof.
  intros (Ha & Hm & Hr). destruct (decide (8 < k)%nat); [by right|left].
  cbn [in_range imm_bits].
  assert ((t - (base + 4 * Z.of_nat k)) mod 4 = 0) as ->; [|simpl; lia].
  rewrite Z.sub_add_distr, Z.mul_comm, <- Zminus_mod_idemp_r, Z.mod_mul, Z.sub_0_r by lia.
  by rewrite Zminus_mod, Hm, Halign.
Qed.

Lemma succeeds_branch s :
  DecodeKind i = kB \/ DecodeKind i = kBl -> reachable (mapped req) -> written 0 [] s ->
  succeeds (relocate_branch req (DecodeKind i)) s branch_post.
Proof.
  intros Hk Hr Hw. unfold relocate_branch. fold (decoded req). fold (mapped req).
  case_decide as Hd.
  - fwd. apply succeeds_some; [|intros; fwd].
    by apply (branch_reachable _ 1); [|lia].
  - destruct Hk as [Hk|]; [|done]. fwd. apply succeeds_some; [|intros; fwd].
    apply EncodePcRelative_near; [apply base_addr|apply Hr|]. rewrite Hk.
    destruct (reachable_range _ 0 Hr); [|lia]. by rewrite Z.mul_0_r, Z.add_0_r in H.
Qed.

Lemma succeeds_conditional s :
  word i -> branch_kind (DecodeKind i) = true -> reachable (mapped req) -> written 0 [] s ->
  succeeds (relocate_conditional req (DecodeKind i)) s branch_post.
Proof.
  intros Hi Hk Hr Hw. unfold relocate_conditional. fold (decoded req). fold (mapped req). fwd.
  destruct (always_branch _ _) eqn:Ha.
  { apply succeeds_bind, succeeds_some; [|intros; fwd].
    destruct (branch_reachable _ 0 Hr) as (e & He); [lia|].
    rewrite Z.mul_0_r, Z.add_0_r in He. eauto. }
  destruct (EncodePcRelative i base (mapped req)) eqn:He; [fwd|].
  unfold branch_kind in Hk. rewrite bool_decide_eq_true in Hk.
  apply succeeds_bind, succeeds_some; [|intros].
  { rewrite u64_small by lia.
    apply EncodePcRelative_near; [apply base_addr|unfold addr; lia|].
    rewrite InvertConditional_flip, DecodeKind_flip by done.
    destruct Hk as [-> | [-> | ->]]; cbn [in_range imm_bits];
      replace (base + 8 - base) with 8 by lia; done. }
  apply succeeds_bind, succeeds_some; [|intros; fwd].
  rewrite u64_small by lia. by apply (branch_reachable _ 1); [|lia].
Qed.

Lemma succeeds_adr s :
  written 0 [] s -> succeeds (relocate_adr req) s branch_post.
Proof.
  intros Hw. unfold relocate_adr. fold (decoded req). fwd.
  destruct (EncodePcRelative _ _ _); [fwd|].
  assert (0 <= i &&& 0x1f < 32) by (apply (land_bound_r i 31 5); lia).
  destruct (_ =? 31); fwd.
Qed.

Lemma memory_load_some rn :
  0 <= rn < 32 -> DecodeKind i = kLiteralLoad ->
  ~ ((i >>> 30) &&& 0x3 = 3 /\ (i >>> 26) &&& 0x1 = 1) ->
  exists e, EncodeLiteralMemoryLoad i rn = Some e.
Proof.
  intros Hrn Hk Hn. unfold EncodeLiteralMemoryLoad. rewrite bool_decide_true by done.
  destruct (Z.ltb_spec 31 rn); [lia|]. cbn [negb orb].
  assert (0 <= (i >>> 26) &&& 1 < 2) by (apply (land_bound_r _ 1 1); lia).
  assert (0 <= (i >>> 30) &&& 3 < 4) by (apply (land_bound_r _ 3 2); lia).
  generalize dependent ((i >>> 30) &&& 3). generalize dependent ((i >>> 26) &&& 1).
  intros vec Hv opc Hn Ho. split_ifs; simpl; eauto; exfalso; lia.
Qed.

Lemma succeeds_literal s :
  DecodeKind i = kLiteralLoad -> OverlapsOverwrittenBytes req i (decoded req) = false ->
  ~ ((i >>> 30) &&& 0x3 = 3 /\ (i >>> 26) &&& 0x1 = 1) ->
  written 0 [] s -> succeeds (relocate_literal req) s branch_post.
Proof.
  intros Hk Ho Hn Hw. unfold relocate_literal. fold (decoded req). rewrite Ho. fwd.
  destruct (EncodePcRelative _ _ _); [fwd|].
  assert (0 <= i &&& 0x1f < 32) by (apply (land_bound_r i 31 5); lia).
  fold (can_use_destination i). destruct (can_use_destination i);
    (apply succeeds_bind, succeeds_some; [by apply memory_load_some; [lia|..]|]); intros; fwd.
Qed.

(** What each kind needs in order to be moved to [base]. *)
Definition movable : Prop :=
  IsRegisterBranchWithLink i = false /\ IsExceptionGeneration i = false /\
  match DecodeKind i with
  | kB | kBl | kBCond | kCompareBranch | kTestBranch => reachable (mapped req)
  | kLiteralLoad => OverlapsOverwrittenBytes req i (decoded req) = false /\
                    ~ ((i >>> 30) &&& 0x3 = 3 /\ (i >>> 26) &&& 0x1 = 1)
  | _ => True
  end.

Lemma succeeds_body s :
  word i -> movable -> reachable (req_continuation req) -> written 0 [] s ->
  succeeds (relocate_body req) s (fun _ _ => True).
Proof.
  intros Hi (Hr & He & Hm) Hc Hw. unfold relocate_body. rewrite Hr, He. cbn [orb].
  apply succeeds_bind.
  assert (forall m : Reloc bool, succeeds m s branch_post -> forall P,
    (forall ap s', branch_post ap s' -> P ap s') -> succeeds m s P) as Hmono
    by (intros m (a & s' & ? & ?) P HP; exists a, s'; auto).
  eapply Hmono.
  - destruct (DecodeKind i) eqn:Hk; try rewrite <- Hk.
    + by apply succeeds_other.
    + apply succeeds_branch; auto.
    + apply succeeds_branch; auto.
    + apply succeeds_conditional; try done. by rewrite Hk.
    + apply succeeds_conditional; try done. by rewrite Hk.
    + apply succeeds_conditional; try done. by rewrite Hk.
    + by apply succeeds_adr.
    + by apply succeeds_adr.
    + destruct Hm. by apply succeeds_literal.
  - intros ap s1 (n & fx & Hw1 & Hn). apply succeeds_bind.
    assert (succeeds (if ap then
         pc ← writer_address;
         branch ← require_some kRange (EncodeBranch pc (req_continuation req) false);
         ok ← emit32 branch;
         require kNoSpace ok
       else mret tt) s1 (fun _ s' => exists n fx, written n fx s' /\ (n <= 5)%nat))
      as ([] & s2 & Hx & n2 & fx2 & Hw2 & Hn2).
    { destruct ap; fwd; [|by exists n, fx; auto with lia].
      apply succeeds_some; [by apply branch_reachable; [|lia]|]. intros. fwd.
      do 2 eexists. split; [eassumption|lia]. }
    exists tt, s2. split; [exact Hx|].
    apply succeeds_bind. do 2 eexists. split; [reflexivity|].
    apply succeeds_bind. eapply succeeds_update; [eassumption|]. intros s3 Hw3.
    apply succeeds_bind. destruct (succeeds_finalize n2 fx2 s3 Hw3 Hn2) as (ok & s4 & Hf & ->).
    do 2 eexists. split; [exact Hf|]. apply succeeds_bind, succeeds_require; [done|].
    apply succeeds_bind. do 2 eexists. split; [reflexivity|]. by do 2 eexists.
Qed.
End Total.

(** C26 (liveness): a well-formed request with room for eight words is carried
    out whenever the instruction is movable: not a register call, an exception
    or a literal load of overwritten bytes, and with its branch target (after
    the internal mapping) and the continuation within reach of the output. *)
Theorem relocate_succeeds req r0 :
  valid_request req -> req_source_pc req <> 0 -> req_output_address req <> 0 ->
  (req_internal_map_count req = 0 \/ req_internal_maps req <> None) ->
  req_output_address req mod 4 = 0 -> 32 <= req_output_capacity req ->
  movable (req_output_address req) req ->
  reachable (req_output_address req) (req_continuation req) ->
  exists r out, RelocateOneAndContinue req r0 = (kOk, r, Some out).
Proof.
  intros Hv Hs Ho Hm Ha Hr Hmov Hc. destruct (vr_output _ Hv) as (buf & Hbuf & Hlen).
  unfold RelocateOneAndContinue.
  assert ((negb (req_internal_map_count req =? 0)
         && bool_decide (req_internal_maps req = None)) = false) as ->.
  { destruct Hm as [-> | Hm]; [done|]. rewrite (bool_decide_false _ Hm). apply andb_false_r. }
  rewrite Hbuf, bool_decide_false by done. cbn [orb].
  rewrite !(proj2 (orb_false_iff _ _)) by (split; [|lia]; try lia).
  set (s0 := {| rs_writer := _ |}).
  assert (written (req_output_capacity req) (req_output_address req) 0 [] s0) as Hw.
  { split_and!; [|simpl; lia|by intros f ?%not_elem_of_nil].
    exists []. split; [done|]. split; [|done]. by apply holds_words_new. }
  destruct (succeeds_body (req_output_capacity req) (req_output_address req) (vr_address _ Hv)
    (vr_end _ Hv) Ha Hr req s0 (vr_word _ Hv) Hmov Hc Hw) as ([] & s' & Hbody & _).
  rewrite Hbody.
  pose proof (relocate_body_layout req _ _ _ _ _ (vr_address _ Hv) (vr_end _ Hv)
    (conj (holds_words_new _ _ _ Hlen) eq_refl : at_words _ _ s0 [] []) Hbody) as (? & ? & ? & ? & ? & _ & _ & _ & Hw' & _).
  destruct (hw_rest _ _ _ _ Hw') as (rest & -> & _). eauto.
Qed.

(** A request at concrete addresses: an instruction at 0x100000000 moved to
    0x10000, continuing at 0x10100. *)
Definition sample_request (instruction : Z) : RelocationRequest :=
  {| req_instruction := instruction; req_source_pc := 0x100000000;
     req_continuation := 0x10100;
     req_overwritten_start := 0x100000000; req_overwritten_size := 4;
     req_internal_maps := None; req_internal_map_count := 0;
     req_output := Some (replicate 40 0); req_output_capacity := 40;
     req_output_address := 0x10000 |}.

Lemma sample_valid instruction : word instruction -> valid_request (sample_request instruction).
Proof.
  intros Hw. split; try done. by exists (replicate 40 0).
Qed.

(** [ldr x1, .+16] *)
Lemma relocate_succeeds_witness :
  exists r out, RelocateOneAndContinue (sample_request 0x58000081) zero_result = (kOk, r, Some out).
Proof.
  apply (relocate_succeeds (sample_request 0x58000081) zero_result).
  - apply sample_valid. split; done.
  - discriminate.
  - discriminate.
  - left. reflexivity.
  - reflexivity.
  - discriminate.
  - split; [reflexivity|]. split; [reflexivity|]. vm_compute. split; [reflexivity|].
    intros [H _]. discriminate.
  - split; [split; done|]. split; [reflexivity|]. split; [discriminate|reflexivity].
Defined.

(** ** What a success guarantees *)

(** The size of the code and of the pool. *)
Lemma layout_size req base ws fx ap tail final :
  code_plan req base ws fx ap -> tail_words req base ws ap tail ->
  pool_layout base (ws ++ tail) fx final ->
  (length (ws ++ tail) <= 5 /\ length (ws ++ tail) <= length final <= 8)%nat.
Proof.
  intros Hplan Htail Hpool.
  assert (length (ws ++ tail) <= 5 /\ (fx = [] \/ length fx = 1))%nat as [Hlen Hfx].
  { rewrite length_app. destruct ap; [destruct Htail as (b & -> & _)|simpl in Htail; subst tail];
      destruct Hplan; simpl; auto with lia. }
  split; [done|]. inversion Hpool as [|k reg v pad load Hpad]; subst; [lia|].
  rewrite length_insert. destruct Hpad as [-> | ->]; rewrite !length_app in *; simpl; lia.
Qed.

(** Inversion of a successful call. *)
Lemma relocate_ok_layout req r0 r out buf :
  req_output req = Some buf -> Z.of_nat (length buf) = req_output_capacity req ->
  0 <= req_output_address req -> req_output_address req + req_output_capacity req < 2 ^ 64 ->
  RelocateOneAndContinue req r0 = (kOk, r, Some out) ->
  exists ws fx ap tail final,
    code_plan req (req_output_address req) ws fx ap /\
    tail_words req (req_output_address req) ws ap tail /\
    pool_layout (req_output_address req) (ws ++ tail) fx final /\
    take (Z.to_nat (total_size r)) out = word_bytes final /\
    length out = length buf /\
    4 * Z.of_nat (length final) <= req_output_capacity req /\
    code_size r = 4 * Z.of_nat (length (ws ++ tail)) /\
    total_size r = 4 * Z.of_nat (length final).
Proof.
  intros Hbuf Hlen Hb Hc H. unfold RelocateOneAndContinue in H.
  destruct (_ || _); [done|].
  destruct (relocate_body _ _) as [[st|u] s'] eqn:Hbody.
  { injection H as -> _ _. by apply relocate_body_never_ok in Hbody. }
  injection H as <- Hout.
  eapply (relocate_body_layout req (req_output_capacity req) (req_output_address req))
    in Hbody as (ws & fx & ap & tail & final & Hp & Ht & Hl & Hw & Hcs & Hts); [|done|done|].
  2: { split; [|done]. rewrite Hbuf. by apply holds_words_new. }
  exists ws, fx, ap, tail, final. split_and!; try done.
  - destruct (hw_rest _ _ _ _ Hw) as (rest & Hr & _). rewrite Hout in Hr. injection Hr as ->.
    rewrite Hts. replace (Z.to_nat _) with (length (word_bytes final))
      by (rewrite length_word_bytes; lia). by rewrite take_app_length.
  - destruct (hw_rest _ _ _ _ Hw) as (rest & Hr & Hlr). rewrite Hout in Hr. injection Hr as ->.
    lia.
  - by apply (holds_words_fit _ _ _ _ Hw).
Qed.

(** C36 (bounds): A successful relocation emits at most five instructions and,
    with the literal pool behind them, at most eight words of four bytes,
    inside the capacity, and does not change the length of the buffer. *)
Theorem relocate_bounded req r0 r out buf :
  valid_request req -> req_output req = Some buf ->
  RelocateOneAndContinue req r0 = (kOk, r, Some out) ->
  (exists instructions words, code_size r = 4 * instructions /\ total_size r = 4 * words /\
     0 <= instructions <= 5 /\ instructions <= words <= 8) /\
  total_size r <= req_output_capacity req /\ length out = length buf.
Proof.
  intros Hv Hbuf Hok. destruct (vr_output _ Hv) as (buf' & Hbuf' & Hlen).
  rewrite Hbuf in Hbuf'. injection Hbuf' as <-.
  destruct (relocate_ok_layout req r0 r out buf Hbuf Hlen (vr_address _ Hv) (vr_end _ Hv) Hok)
    as (ws & fx & ap & tail & final & Hp & Ht & Hl & _ & Ho & Hfit & -> & ->).
  pose proof (layout_size _ _ _ _ _ _ _ Hp Ht Hl). split; [|lia].
  exists (Z.of_nat (length (ws ++ tail))), (Z.of_nat (length final)). lia.
Qed.

(** A literal load is moved only when none of the bytes it reads
    is among the overwritten bytes, so the patched code never becomes its
    data. *)
Theorem relocate_literal_disjoint req r0 r out a :
  valid_request req -> 0 <= req_overwritten_start req -> 0 <= req_overwritten_size req ->
  DecodeKind (req_instruction req) = kLiteralLoad ->
  RelocateOneAndContinue req r0 = (kOk, r, Some out) ->
  decoded req <= a < decoded req + LiteralAccessSize (req_instruction req) ->
  ~ (req_overwritten_start req <= a < req_overwritten_start req + req_overwritten_size req).
Proof.
  intros Hv Hs Hz Hk Hok Ha. destruct (vr_output _ Hv) as (buf & Hbuf & Hlen).
  destruct (relocate_ok_layout req r0 r out buf Hbuf Hlen (vr_address _ Hv) (vr_end _ Hv) Hok)
    as (ws & fx & ap & tail & final & Hp & _).
  assert (OverlapsOverwrittenBytes req (req_instruction req) (decoded req) = false) as Ho.
  { destruct Hp; rewrite ?Hk in *; try done;
      repeat match goal with H : _ \/ _ |- _ => destruct H end; done. }
  unfold OverlapsOverwrittenBytes, UINT64_MAX in Ho. split_ifs_in Ho; lia.
Qed.

(** [ldr q0, .+16], which has no destination register to expand through. *)
Definition sample_outcome := RelocateOneAndContinue (sample_request 0x9c000080) zero_result.

Lemma relocate_bounded_witness :
  exists r o, sample_outcome = (kOk, r, Some o) /\ code_size r = 4 * 5 /\ total_size r = 4 * 8 /\
    total_size r <= 40 /\ length o = 40%nat.
Proof.
  destruct sample_outcome as [[st r] out] eqn:Ho.
  assert (st = kOk /\ code_size r = 4 * 5 /\ total_size r = 4 * 8 /\ exists o, out = Some o)
    as (-> & Hc & Ht & o & ->).
  { vm_compute in Ho. injection Ho as <- <- <-. do 3 (split; [reflexivity|]). eexists. reflexivity. }
  exists r, o. split; [reflexivity|]. split; [exact Hc|]. split; [exact Ht|].
  apply (relocate_bounded (sample_request 0x9c000080) zero_result r o (replicate 40 0));
    [apply sample_valid; split; done|reflexivity|exact Ho].
Defined.

Lemma relocate_literal_disjoint_witness : ~ (0x100000000 <= 0x100000011 < 0x100000000 + 4).
Proof.
  destruct sample_outcome as [[st r] out] eqn:Ho.
  assert (st = kOk /\ exists o, out = Some o) as (-> & o & ->).
  { vm_compute in Ho. injection Ho as <- <- <-. split; [reflexivity|]. eexists. reflexivity. }
  apply (relocate_literal_disjoint (sample_request 0x9c000080) zero_result r o 0x100000011);
    [apply sample_valid; split; done|done|done|reflexivity|exact Ho|].
  vm_compute. split; [discriminate|reflexivity].
Defined.
