(* ===== verification/RelocatorSim.v ===== *)
(** * The relocated code simulates the original instruction

    Execution of the words of [RelocatorLayout] in the reference semantics of
    [Arm64Machine], path by path, and the simulation theorem. *)

From S2P Require Import Prelude Bits Arm64Encoding CodeWriter Arm64Relocator Arm64Machine.
From S2P Require Import RelocatorLayout RelocatorTotal.

(** ** Reading the emitted words back *)

Lemma mem_read_words m base (a b c : list Z) n :
  bytes_at m base (word_bytes (a ++ b ++ c)) -> n = (4 * length b)%nat ->
  mem_read n (base + 4 * Z.of_nat (length a)) m = le_value (word_bytes b).
Proof.
  rewrite !word_bytes_app. intros Hm ->.
  replace (4 * Z.of_nat (length a)) with (Z.of_nat (length (word_bytes a)))
    by (rewrite length_word_bytes; lia).
  eapply mem_read_bytes; [exact Hm|apply length_word_bytes].
Qed.

Lemma fetch_word m base ws (k : nat) e :
  bytes_at m base (word_bytes ws) -> ws !! k = Some e -> word e ->
  mem_read 4 (base + 4 * Z.of_nat k) m = e.
Proof.
  intros Hm Hk He. rewrite <- (take_drop_middle ws k e Hk) in Hm.
  assert (length (take k ws) = k) as Hl.
  { rewrite length_take. apply lookup_lt_Some in Hk. lia. }
  rewrite <- Hl at 1. change (e :: drop (S k) ws) with ([e] ++ drop (S k) ws) in Hm.
  rewrite (mem_read_words _ _ _ _ _ 4 Hm) by done.
  rewrite word_bytes_one, le_value_bytes. by apply Z.mod_small.
Qed.

(** The literal behind the code: an aligned doubleword of the pool. *)
Lemma read_literal m base (a : list Z) v :
  bytes_at m base (word_bytes (a ++ [v; v >>> 32])) -> addr v ->
  mem_read 8 (base + 4 * Z.of_nat (length a)) m = v.
Proof.
  intros Hm Hv. rewrite (mem_read_words m base a [v; v >>> 32] [] 8) by done.
  rewrite word_bytes_two, le_value_bytes. by apply Z.mod_small.
Qed.

(** ** Executing the encoded instructions *)

Lemma arch_target_decode i pc :
  addr pc -> DecodeKind i <> kOther -> arch_target i pc = DecodePcRelativeTarget i pc.
Proof. intros. by rewrite DecodePcRelativeTarget_spec. Qed.

Lemma EncodeBranch_exec other pc t e s :
  addr pc -> addr t -> EncodeBranch pc t false = Some e ->
  word e /\ exec other e pc s = Some (s, Jump t).
Proof.
  intros Hp Ht He. unfold EncodeBranch in He.
  destruct (reencode_target 0x14000000 pc t e ltac:(done) Hp Ht He) as (Hw & Hk & _ & Hd).
  change (DecodeKind 0x14000000) with kB in *. split; [done|].
  unfold exec. by rewrite Hk, arch_target_decode, Hd by (done || by rewrite Hk).
Qed.

(** A field below a kept mask survives re-encoding. *)
Lemma kept_field e i kind s m :
  0 <= s -> e &&& kept_mask kind = i &&& kept_mask kind ->
  kept_mask kind &&& (m <<< s) = m <<< s -> (e >>> s) &&& m = (i >>> s) &&& m.
Proof.
  intros Hs He Hm.
  assert (forall x, (x >>> s) &&& m = (x &&& (m <<< s)) >>> s) as Hx.
  { intros x. rewrite Z.shiftr_land, Z.shiftr_shiftl_l, Z.sub_diag, Z.shiftl_0_r by lia. done. }
  rewrite !Hx, <- Hm, !Z.land_assoc. by rewrite He.
Qed.

Lemma kept_land e i kind m :
  e &&& kept_mask kind = i &&& kept_mask kind -> kept_mask kind &&& m = m -> e &&& m = i &&& m.
Proof. intros He Hm. by rewrite <- Hm, !Z.land_assoc, He. Qed.

Lemma kept_taken e i s :
  branch_kind (DecodeKind i) = true -> DecodeKind e = DecodeKind i ->
  e &&& kept_mask (DecodeKind i) = i &&& kept_mask (DecodeKind i) -> taken e s = taken i s.
Proof.
  intros Hb Hk He. unfold branch_kind in Hb. rewrite bool_decide_eq_true in Hb.
  assert (forall m, kept_mask (DecodeKind i) &&& m = m -> e &&& m = i &&& m) as Hm
    by (intros; by eapply kept_land).
  unfold taken, cond_of, rt_of, has. rewrite Hk.
  destruct Hb as [H | [H | H]]; rewrite H in *; by rewrite ?(Hm _ eq_refl).
Qed.

Lemma branch_kind_pc_relative i : branch_kind (DecodeKind i) = true -> DecodeKind i <> kOther.
Proof. unfold branch_kind. rewrite bool_decide_eq_true. intros H E. rewrite E in H. by destruct_or! H. Qed.

Lemma branch_kind_denoted kind t : branch_kind kind = true -> denoted kind t = t.
Proof. unfold branch_kind. rewrite bool_decide_eq_true. by intros [-> | [-> | ->]]. Qed.

Lemma exec_conditional other i pc s :
  branch_kind (DecodeKind i) = true ->
  exec other i pc s = Some (s, if taken i s then Jump (arch_target i pc) else Fall).
Proof.
  unfold branch_kind. rewrite bool_decide_eq_true. unfold exec. by intros [-> | [-> | ->]].
Qed.

Lemma reencoded_conditional other i pc t e s :
  word i -> addr pc -> addr t -> branch_kind (DecodeKind i) = true ->
  EncodePcRelative i pc t = Some e ->
  word e /\ exec other e pc s = Some (s, if taken i s then Jump t else Fall).
Proof.
  intros Hi Hp Ht Hb He.
  destruct (reencode_target i pc t e Hi Hp Ht He) as (Hw & Hk & Hm & Hd).
  split; [done|]. rewrite exec_conditional by (by rewrite Hk).
  rewrite (kept_taken e i) by done.
  rewrite arch_target_decode by (done || rewrite Hk; by apply branch_kind_pc_relative).
  by rewrite Hd, branch_kind_denoted.
Qed.

Lemma cond_holds_flip c f :
  0 <= c < 16 -> c &&& 0xe <> 0xe -> cond_holds (c ^^^ 1) f = negb (cond_holds c f).
Proof.
  intros Hc Hn. destruct f as [[[n z] c'] v].
  assert (c ∈ seqZ 0 16) as Hin by (apply elem_of_seqZ; lia).
  revert Hn. repeat (apply elem_of_cons in Hin as [->|Hin];
    [intros Hn; try (by destruct Hn); by destruct n, z, c', v|]).
  by apply not_elem_of_nil in Hin.
Qed.

(** Inverting a conditional branch that is not AL or NV negates its
    condition. *)
Lemma taken_invert i s :
  branch_kind (DecodeKind i) = true -> always_branch (DecodeKind i) i = false ->
  taken (InvertConditional i) s = negb (taken i s).
Proof.
  intros Hb Ha. unfold branch_kind in Hb. rewrite bool_decide_eq_true in Hb.
  rewrite InvertConditional_flip by done. unfold taken.
  rewrite DecodeKind_flip by done. unfold cond_of, rt_of, has.
  destruct Hb as [H | [H | H]]; rewrite H in *; cbn [condition_bit].
  - rewrite land_lxor_distr. change (2 ^ 0 &&& 15) with 1.
    apply cond_holds_flip; [apply (land_bound_r i 15 4); lia|].
    intros E. unfold always_branch in Ha. rewrite bool_decide_true in Ha by done.
    rewrite <- Z.land_assoc in E. change (15 &&& 14) with 14 in E. by rewrite E in Ha.
  - rewrite (lxor_keeps i (2 ^ 24) 0x1f), (lxor_keeps i (2 ^ 24) 0x80000000) by done.
    fold (has i 0x80000000). fold (has (i ^^^ 2 ^ 24) 0x1000000). fold (has i 0x1000000).
    change 0x1000000 with (2 ^ 24). rewrite !has_pow2, Z.lxor_spec by lia.
    change (Z.testbit (2 ^ 24) 24) with true. by destruct (_ =? 0), (Z.testbit i 24).
  - rewrite (lxor_keeps i (2 ^ 24) 0x1f), (lxor_keeps i (2 ^ 24) 0x80000000),
      (lxor_keeps i (2 ^ 24) 0xf80000) by done.
    fold (has i 0x80000000). fold (has (i ^^^ 2 ^ 24) 0x1000000). fold (has i 0x1000000).
    change 0x1000000 with (2 ^ 24). rewrite !has_pow2, Z.lxor_spec by lia.
    change (Z.testbit (2 ^ 24) 24) with true.
    by destruct (Z.testbit (read_x s _) _), (Z.testbit i 24).
Qed.

Lemma always_taken i s :
  always_branch (DecodeKind i) i = true -> taken i s = true.
Proof.
  unfold always_branch. intros H. bool_hyps. apply bool_decide_eq_true in H. apply Z.eqb_eq in H0.
  unfold taken, cond_of. rewrite H.
  assert (i &&& 15 ∈ seqZ 0 16) as Hin.
  { pose proof (land_bound_r i 15 4 ltac:(lia)). apply elem_of_seqZ. lia. }
  assert ((i &&& 15) &&& 14 = 14) as E by (by rewrite <- Z.land_assoc).
  destruct (NZCV s) as [[[n z] c'] v]. revert E.
  repeat (apply elem_of_cons in Hin as [->|Hin]; [done|]).
  by apply not_elem_of_nil in Hin.
Qed.

Lemma EncodeLdrLiteralX_exec other reg pc lit e s :
  0 <= reg < 32 -> addr pc -> addr lit -> EncodeLdrLiteralX reg pc lit = Some e ->
  word e /\ exec other e pc s = Some (write_x reg (mem_read 8 lit (MEM s)) s, Fall).
Proof.
  intros Hr Hp Hl. unfold EncodeLdrLiteralX. destruct (Z.ltb_spec 31 reg); [lia|]. intros He.
  destruct (ldr_literal_x_kind reg Hr) as [Hw Hkind].
  destruct (reencode_target _ pc lit e Hw Hp Hl He) as (Hwe & Hke & Hm & Hd).
  split; [done|]. rewrite Hkind in *. unfold exec.
  rewrite Hke, arch_target_decode, Hd by (done || by rewrite Hke). cbn [denoted].
  assert (forall f s0, 0 <= s0 -> 0xff00001f &&& (f <<< s0) = f <<< s0 ->
            (e >>> s0) &&& f = ((0x58000000 ||| reg) >>> s0) &&& f) as Hf.
  { intros. by apply (kept_field e _ kLiteralLoad). }
  assert ((e >>> 30) &&& 3 = 1) as ->.
  { rewrite Hf by done. rewrite Z.shiftr_lor, (Z.shiftr_div_pow2 reg), Z.div_small by lia. done. }
  assert ((e >>> 26) &&& 1 = 0) as ->.
  { rewrite Hf by done. rewrite Z.shiftr_lor, (Z.shiftr_div_pow2 reg), Z.div_small by lia. done. }
  assert (rt_of e = reg) as ->.
  { unfold rt_of. rewrite (kept_land e _ kLiteralLoad) by done.
    rewrite Z.land_lor_distr_l. change (0x58000000 &&& 31) with 0. rewrite Z.lor_0_l.
    symmetry. by apply (mod_pow2_land reg 5). }
  done.
Qed.

(** The register loads [EncodeLiteralMemoryLoad] builds, checked on all of
    them. *)
Definition load_table : list (Z * Z * Z) :=
  [(0, 0, 0xb9400000); (1, 0, 0xf9400000); (2, 0, 0xb9800000); (3, 0, 0xf9800000);
   (0, 1, 0xbd400000); (1, 1, 0xfd400000); (2, 1, 0x3dc00000)].

Definition load_ok (row : Z * Z * Z) (rn rt : Z) : bool :=
  let '(opc, vector, base) := row in
  let e := base ||| u32 (rn <<< 5) ||| rt in
  bool_decide (DecodeKind e = kOther) && negb (e =? kNop)
  && negb (e =? kStrX17PreIndexSpMinus16) && negb (e =? kLdrX17PostIndexSpPlus16)
  && bool_decide (register_load e = Some (opc, vector))
  && (((e >>> 5) &&& 0x1f) =? rn) && (((e >>> 10) &&& 0xfff) =? 0)
  && (rt_of e =? rt) && (0 <=? e) && (e <? 2 ^ 32).

Lemma load_table_ok :
  forallb (fun row => forallb (fun rn => forallb (load_ok row rn) (seqZ 0 32)) (seqZ 0 32))
    load_table = true.
Proof. vm_compute. reflexivity. Qed.

Lemma EncodeLiteralMemoryLoad_exec other i rn e pc s :
  0 <= rn < 31 -> DecodeKind i = kLiteralLoad -> EncodeLiteralMemoryLoad i rn = Some e ->
  word e /\
  exec other e pc s =
    s' ← load_effect ((i >>> 30) &&& 0x3) ((i >>> 26) &&& 0x1) (rt_of i) (u64 (X s rn)) s;
    Some (s', Fall).
Proof.
  intros Hrn Hk. unfold EncodeLiteralMemoryLoad. rewrite bool_decide_true by done.
  destruct (Z.ltb_spec 31 rn); [lia|]. cbn [negb orb].
  assert (0 <= (i >>> 26) &&& 1 < 2) as Hv by (apply (land_bound_r _ 1 1); lia).
  generalize dependent ((i >>> 30) &&& 3). intros opc.
  generalize dependent ((i >>> 26) &&& 1). intros vec Hv.
  assert (0 <= rt_of i < 32) as Hrt by (apply (land_bound_r i 31 5); lia).
  intros Hb. apply bind_Some in Hb as (b & Hb & He). injection He as <-.
  fold (rt_of i).
  assert ((opc, vec, b) ∈ load_table) as Hin.
  { unfold load_table. assert (vec = 0 \/ vec = 1) as [->| ->] by lia; simpl in Hb;
      repeat match type of Hb with
      | (if ?x =? ?k then _ else _) = _ => destruct (Z.eqb_spec x k) as [->|]
      end; try discriminate; injection Hb as <-;
      repeat (first [apply elem_of_cons; left; reflexivity|apply elem_of_cons; right]). }
  pose proof load_table_ok as Hall. rewrite forallb_forall in Hall.
  specialize (Hall _ (proj1 (list_elem_of_In _ _) Hin)). rewrite forallb_forall in Hall.
  specialize (Hall rn). rewrite <- list_elem_of_In, elem_of_seqZ in Hall.
  specialize (Hall ltac:(lia)). rewrite forallb_forall in Hall.
  specialize (Hall (rt_of i)). rewrite <- list_elem_of_In, elem_of_seqZ in Hall.
  specialize (Hall ltac:(lia)). unfold load_ok in Hall.
  set (e := b ||| u32 (rn <<< 5) ||| rt_of i) in *. bool_hyps.
  repeat match goal with
  | H : bool_decide _ = true |- _ => apply bool_decide_eq_true in H
  | H : (_ =? _) = true |- _ => apply Z.eqb_eq in H
  | H : (_ =? _) = false |- _ => rewrite H
  end.
  split; [unfold word; lia|]. unfold exec.
  repeat match goal with
  | H : DecodeKind e = _ |- _ => rewrite H; clear H
  | H : register_load e = _ |- _ => rewrite H; clear H
  | H : (e =? _) = false |- _ => rewrite H; clear H
  | H : _ &&& _ = _ |- _ => rewrite H; clear H
  | H : rt_of e = _ |- _ => rewrite H; clear H
  end.
  destruct (Z.eqb_spec rn 31); [lia|]. by rewrite Z.mul_0_l, Z.add_0_r.
Qed.

(** ** Loads *)

Definition load_size (k : load_kind) : nat :=
  match k with LoadX n | LoadV n => n | LoadSW => 4 | Prefetch => 0 end.

Lemma load_kind_size opc vec k : load_kind_of opc vec = Some k -> (load_size k <= 16)%nat.
Proof. unfold load_kind_of. intros H. split_ifs_in H; simplify_eq; simpl; lia. Qed.

(** The access size the overlap check uses is the size of the load. *)
Lemma load_size_access i k :
  load_kind_of ((i >>> 30) &&& 0x3) ((i >>> 26) &&& 0x1) = Some k ->
  Z.of_nat (load_size k) = LiteralAccessSize i.
Proof.
  unfold load_kind_of, LiteralAccessSize. generalize ((i >>> 30) &&& 3) ((i >>> 26) &&& 1).
  intros opc vec H. split_ifs_in H; simplify_eq; cbn [load_size]; split_ifs; lia.
Qed.

Lemma write_x_same P r v s t :
  same_except P s t -> same_except P (write_x r v s) (write_x r v t).
Proof.
  intros []. unfold write_x. destruct (r =? 31); split; auto.
  intros q. simpl. unfold upd. by destruct (q =? r).
Qed.

Lemma set_V_same P r v s t :
  same_except P s t -> same_except P (set_V r v s) (set_V r v t).
Proof.
  intros []. split; auto. intros q. simpl. unfold upd. by destruct (q =? r).
Qed.

(** A load that is not into a general register only changes [V]. *)
Definition with_V (v : Z -> Z) (s : machine) : machine :=
  {| X := X s; SP := SP s; NZCV := NZCV s; V := v; MEM := MEM s |}.

Lemma do_load_no_gpr k rt a s t :
  rt = 31 \/ (forall n, k <> LoadX n) /\ k <> LoadSW ->
  (forall r, V s r = V t r) ->
  mem_read (load_size k) a (MEM s) = mem_read (load_size k) a (MEM t) ->
  exists v v', do_load k rt a s = with_V v s /\ do_load k rt a t = with_V v' t /\
               (forall r, v r = v' r).
Proof.
  intros Hk HV Hr.
  assert (forall u, u = with_V (V u) u) as Hself by (by intros []).
  assert (forall u w, rt = 31 -> write_x rt w u = with_V (V u) u) as Hx
    by (intros; unfold write_x; subst rt; apply Hself).
  destruct k as [n| | |n]; simpl in *.
  - destruct Hk as [Hk|[Hk _]]; [|by destruct (Hk n)]. rewrite !Hx by done. eauto.
  - destruct Hk as [Hk|[_ Hk]]; [|done]. rewrite !Hx by done. eauto.
  - do 2 eexists. split_and!; [apply Hself|apply Hself|done].
  - rewrite Hr. do 2 eexists. split_and!; [reflexivity|reflexivity|].
    intros r. unfold upd. by destruct (r =? rt).
Qed.

Lemma no_destination_load i k :
  can_use_destination i = false ->
  load_kind_of ((i >>> 30) &&& 0x3) ((i >>> 26) &&& 0x1) = Some k ->
  rt_of i = 31 \/ (forall n, k <> LoadX n) /\ k <> LoadSW.
Proof.
  unfold can_use_destination, load_kind_of. fold (rt_of i). intros Hc H.
  destruct ((i >>> 26) &&& 1 =? 0); cbn [andb] in Hc.
  - destruct (Z.eqb_spec (rt_of i) 31) as [|Hr]; [by left|right].
    split_ifs_in H; simplify_eq; try done; exfalso; lia.
  - clear Hc. right. split_ifs_in H; simplify_eq; split; [intros n| |intros n| |intros n|];
      discriminate.
Qed.

Lemma destination_load i k :
  can_use_destination i = true ->
  load_kind_of ((i >>> 30) &&& 0x3) ((i >>> 26) &&& 0x1) = Some k ->
  rt_of i <> 31 /\ ((exists n, k = LoadX n) \/ k = LoadSW).
Proof.
  unfold can_use_destination, load_kind_of. fold (rt_of i). intros Hc H.
  bool_hyps. rewrite H0 in H. split; [lia|].
  split_ifs_in H; simplify_eq; eauto.
Qed.

Lemma do_load_mem k rt a s : MEM (do_load k rt a s) = MEM s.
Proof. destruct k; simpl; unfold write_x; try done; by destruct (rt =? 31). Qed.

(** A load into the address register only depends on the rest of the state. *)
Lemma do_load_forgets P k rt v a s :
  rt <> 31 -> (exists n, k = LoadX n) \/ k = LoadSW ->
  same_except P (do_load k rt a (set_X rt v s)) (do_load k rt a s).
Proof.
  intros Hr Hk. destruct k as [n| | |n]; simpl; unfold write_x;
    try (exfalso; destruct Hk as [[m Hk]|Hk]; discriminate);
    (destruct (Z.eqb_spec rt 31); [done|]); (split; try done; intros r; simpl; unfold upd;
      by destruct (r =? rt)).
Qed.

(** ** Running the relocated code *)

(** The doubleword below the stack pointer that a spilled X17 occupies. *)
Definition spill (s : machine) (a : Z) : Prop := SP s - 16 <= a < SP s - 8.

(** Where the program continues after the original instruction. *)
Definition expected_pc (req : RelocationRequest) (n : next) : Z :=
  match n with
  | Fall => req_continuation req
  | Jump a =>
      if decide (DecodeKind (req_instruction req) = kOther) then a
      else MapInternalTarget req a
  end.

Lemma pool_one_inv base code k reg v final :
  pool_layout base code [fixup (4 * Z.of_nat k) reg v] final ->
  exists pad load,
    EncodeLdrLiteralX reg (base + 4 * Z.of_nat k)
      (base + 4 * Z.of_nat (length (code ++ pad))) = Some load /\
    final = <[k := load]> ((code ++ pad) ++ [v; v >>> 32]).
Proof.
  intros H. inversion H as [|k' r' v' pad load Hpad Hload Eo Ef].
  assert (k' = k) as -> by lia. exists pad, load. by rewrite <- app_assoc.
Qed.

Section Run.
Context (other : Z -> machine -> option (machine * next)).
Context (base : Z) (final : list Z).
Context (Hbase : 0 <= base) (Hfit : base + 4 * Z.of_nat (length final) < 2 ^ 64).

Definition loaded (s : machine) : Prop := bytes_at (MEM s) base (word_bytes final).
Definition pc_at (k : nat) : Z := base + 4 * Z.of_nat k.

Lemma pc_at_addr k : (k < length final)%nat -> addr (pc_at k).
Proof. unfold addr, pc_at. lia. Qed.

Lemma step_word s k e s' n :
  loaded s -> final !! k = Some e -> word e -> exec other e (pc_at k) s = Some (s', n) ->
  step other (pc_at k, s) =
    Some (match n with Fall => pc_at (S k) | Jump a => a end, s').
Proof.
  intros Hm Hk He Hx. pose proof (lookup_lt_Some _ _ _ Hk). unfold step, pc_at in *.
  rewrite (fetch_word _ _ _ _ _ Hm Hk He), Hx. simpl. do 2 f_equal.
  destruct n; [|done]. simpl. rewrite u64_small; lia.
Qed.

Lemma run_word s k e s' n m :
  loaded s -> final !! k = Some e -> word e -> exec other e (pc_at k) s = Some (s', n) ->
  run other (S m) (pc_at k, s) =
    run other m (match n with Fall => pc_at (S k) | Jump a => a end, s').
Proof. intros. by rewrite (run_step _ _ _ _ (step_word _ _ _ _ _ H H0 H1 H2)). Qed.

(** A branch word: one step to its target. *)
Lemma run_branch s k t e :
  loaded s -> final !! k = Some e -> addr t -> EncodeBranch (pc_at k) t false = Some e ->
  run other 1 (pc_at k, s) = Some (t, s).
Proof.
  intros Hm Hk Ht He. pose proof (lookup_lt_Some _ _ _ Hk) as Hl.
  destruct (EncodeBranch_exec other _ _ _ s (pc_at_addr _ Hl) Ht He) as [Hw Hx].
  by rewrite (run_word _ _ _ _ _ 0 Hm Hk Hw Hx).
Qed.

(** A literal fixup: one step that loads the value into its register. *)
Lemma pool_exec code k reg v :
  pool_layout base code [fixup (4 * Z.of_nat k) reg v] final ->
  (k < length code)%nat -> addr v -> 0 <= reg < 31 ->
  (forall s m, loaded s ->
     run other (S m) (pc_at k, s) = run other m (pc_at (S k), set_X reg v s)) /\
  (forall j, j <> k -> (j < length code)%nat -> final !! j = code !! j) /\
  (length code < length final)%nat.
Proof.
  intros H Hk Hv Hr. apply pool_one_inv in H as (pad & load & Hload & Ef).
  assert (length final = length (code ++ pad) + 2)%nat as Hlen.
  { rewrite Ef, length_insert, !length_app. simpl. lia. }
  assert (k < length (code ++ pad))%nat as Hkp by (rewrite length_app; lia).
  assert (forall s, word load /\ exec other load (pc_at k) s =
            Some (write_x reg (mem_read 8 (base + 4 * Z.of_nat (length (code ++ pad))) (MEM s)) s,
                  Fall)) as Hx.
  { intros s. apply EncodeLdrLiteralX_exec; [lia|apply pc_at_addr; lia|unfold addr; lia|done]. }
  split_and!.
  - intros s m Hm. destruct (Hx s) as [Hw Hex].
    rewrite (run_word s k load (set_X reg v s) Fall m Hm); [done| |done|].
    + rewrite Ef. apply list_lookup_insert_eq. rewrite length_app. simpl. lia.
    + rewrite Hex. unfold loaded in Hm. rewrite Ef in Hm.
      rewrite insert_app_l in Hm by done.
      replace (length (code ++ pad)) with (length (<[k:=load]> (code ++ pad)))
        by apply length_insert.
      rewrite (read_literal _ _ _ v Hm Hv).
      unfold write_x. by destruct (Z.eqb_spec reg 31); [lia|].
  - intros j Hj Hjl. rewrite Ef, list_lookup_insert_ne by done.
    rewrite <- app_assoc. by apply lookup_app_l.
  - rewrite Hlen, length_app. lia.
Qed.
End Run.

Lemma InvertConditional_word i :
  word i -> DecodeKind i = kBCond \/ DecodeKind i = kCompareBranch \/ DecodeKind i = kTestBranch ->
  word (InvertConditional i) /\ DecodeKind (InvertConditional i) = DecodeKind i.
Proof.
  intros Hi Hk. rewrite InvertConditional_flip by done. split; [|by apply DecodeKind_flip].
  apply lxor_bound; try done; destruct Hk as [-> | [-> | ->]]; done.
Qed.

Lemma decoded_addr i pc : addr (DecodePcRelativeTarget i pc).
Proof.
  unfold DecodePcRelativeTarget, addr. repeat case_match; try apply u64_range; lia.
Qed.

(** The target of ADRP is a page. *)
Lemma denoted_decoded i pc :
  addr pc ->
  denoted (DecodeKind i) (DecodePcRelativeTarget i pc) = DecodePcRelativeTarget i pc.
Proof.
  intros Hp. destruct (DecodeKind i) eqn:Hk; try done.
  rewrite DecodePcRelativeTarget_spec by (done || by rewrite Hk). rewrite Hk.
  cbn [denoted pc_base imm_offset]. unfold page at 1.
  assert (forall x, u64 (page pc + x * 4096) mod 4096 = 0) as ->; [|lia].
  intros x. unfold u64. change 4096 with (2 ^ 12) at 2. rewrite (mod_pow2_low _ 64 12) by lia.
  change (2 ^ 12) with 4096. rewrite Z.mod_add by lia. unfold page.
  rewrite Zminus_mod_idemp_r, Z.sub_diag. done.
Qed.

Lemma expected_jump req :
  DecodeKind (req_instruction req) <> kOther ->
  expected_pc req (Jump (decoded req)) = mapped req.
Proof. intros H. unfold expected_pc. by rewrite decide_False. Qed.

(** ** Spilling X17 *)

(** The doubleword below the stack pointer is free for the trampoline: it is a
    valid address, and neither the relocated code nor the literal is in it. *)
Record spill_safe (req : RelocationRequest) (base len : Z) (s : machine) : Prop := {
  spill_sp : 16 <= SP s < 2 ^ 64;
  spill_x17 : addr (X s 17);
  spill_code : forall a, base <= a < base + len -> ~ spill s a;
  spill_target : forall j, 0 <= j < LiteralAccessSize (req_instruction req) ->
                   ~ spill s (u64 (decoded req + j));
}.

(** The state after STR x17, [sp, #-16]! and LDR x17, [sp], #16. *)
Definition spilled (s : machine) : machine :=
  let a := u64 (SP s - 16) in
  set_SP a (set_MEM (mem_write (le_bytes 8 (X s 17)) a (MEM s)) s).
Definition unspilled (s : machine) : machine :=
  set_SP (u64 (SP s + 16)) (set_X 17 (mem_read 8 (SP s) (MEM s)) s).

Section Spill.
Context (req : RelocationRequest) (base : Z) (final : list Z) (s : machine).
Context (Hsafe : spill_safe req base (4 * Z.of_nat (length final)) s).

Lemma spill_address : u64 (SP s - 16) = SP s - 16.
Proof. pose proof (spill_sp _ _ _ _ Hsafe). apply u64_small. lia. Qed.

Lemma spilled_MEM a : ~ spill s a -> MEM (spilled s) a = MEM s a.
Proof.
  intros Ha. pose proof (spill_sp _ _ _ _ Hsafe). unfold spilled. cbn [MEM set_SP set_MEM].
  rewrite spill_address.
  apply mem_write_other; rewrite ?length_le_bytes; [lia|lia|]. unfold spill in Ha. lia.
Qed.

Lemma spilled_loaded :
  0 <= base -> base + 4 * Z.of_nat (length final) < 2 ^ 64 ->
  loaded base final s -> loaded base final (spilled s).
Proof.
  intros Hb Hf Hm j b Hj. pose proof (lookup_lt_Some _ _ _ Hj) as Hl.
  rewrite length_word_bytes in Hl. rewrite spilled_MEM; [by apply Hm|].
  apply (spill_code _ _ _ _ Hsafe). rewrite u64_small; lia.
Qed.

Lemma spilled_read k :
  load_kind_of ((req_instruction req >>> 30) &&& 0x3) ((req_instruction req >>> 26) &&& 0x1)
    = Some k ->
  mem_read (load_size k) (decoded req) (MEM (set_X 17 (decoded req) (spilled s))) =
  mem_read (load_size k) (decoded req) (MEM s).
Proof.
  intros Hk. apply mem_read_ext. intros j Hj. simpl MEM. apply spilled_MEM.
  apply (spill_target _ _ _ _ Hsafe). rewrite <- (load_size_access _ _ Hk). lia.
Qed.

Lemma unspill_spilled v v' a :
  (forall r, v r = v' r) ->
  same_except (spill s) (unspilled (with_V v (set_X 17 a (spilled s)))) (with_V v' s).
Proof.
  intros HV. pose proof (spill_sp _ _ _ _ Hsafe). pose proof (spill_x17 _ _ _ _ Hsafe).
  assert (SP (spilled s) = SP s - 16) as Hsp by apply spill_address.
  split.
  - intros r. cbn [X unspilled with_V set_SP set_X SP MEM upd]. unfold upd. rewrite Hsp.
    destruct (Z.eqb_spec r 17) as [->|]; [|done]. unfold spilled. cbn [MEM set_SP set_MEM].
    rewrite spill_address, mem_read_written by lia. apply Z.mod_small. done.
  - cbn [SP unspilled with_V set_SP set_X]. rewrite Hsp.
    replace (SP s - 16 + 16) with (SP s) by lia. apply u64_small. lia.
  - done.
  - done.
  - intros b Hb. cbn [MEM unspilled with_V set_SP set_X]. by apply spilled_MEM.
Qed.
End Spill.

Section Simulation.
Context (other : Z -> machine -> option (machine * next)).
Context (req : RelocationRequest) (base : Z) (final : list Z) (s s1 : machine) (nxt : next).
Abbreviation i := (req_instruction req).
Context (Hi : word i) (Hsrc : addr (req_source_pc req)) (Hcont : addr (req_continuation req)).
Context (Hmapped : addr (mapped req)).
Context (Hbase : 0 <= base) (Hfit : base + 4 * Z.of_nat (length final) < 2 ^ 64).
Context (Hmem : loaded base final s) (Hmem1 : loaded base final s1).
Context (Hexec : exec other i (req_source_pc req) s = Some (s1, nxt)).

Definition simulated : Prop :=
  exists n s', run other n (base, s) = Some (expected_pc req nxt, s') /\
               same_except (spill s) s' s1.

Lemma start_pc : base = pc_at base 0.
Proof. unfold pc_at. lia. Qed.

Lemma arch_decoded : DecodeKind i <> kOther -> arch_target i (req_source_pc req) = decoded req.
Proof. intros. by apply arch_target_decode. Qed.

(** The continuation branch at word [k]. *)
Lemma run_continuation k b t :
  EncodeBranch (pc_at base k) (req_continuation req) false = Some b ->
  final !! k = Some b -> loaded base final t ->
  run other 1 (pc_at base k, t) = Some (req_continuation req, t).
Proof. intros Hb Hl Ht. by eapply run_branch. Qed.

(** A first word that only sets the next pc to the expected one. *)
Lemma sim_b e :
  DecodeKind i = kB -> EncodePcRelative i base (mapped req) = Some e ->
  final !! 0%nat = Some e -> simulated.
Proof.
  intros Hk He Hl. unfold simulated. rewrite start_pc in He |- *.
  assert (addr (pc_at base 0)) as Hp
    by (apply (pc_at_addr base final Hbase Hfit); by apply lookup_lt_Some in Hl).
  assert (nxt = Jump (decoded req) /\ s1 = s) as [-> ->].
  { unfold exec in Hexec. rewrite Hk in Hexec. injection Hexec as <- <-.
    by rewrite arch_decoded by (by rewrite Hk). }
  rewrite expected_jump by (by rewrite Hk).
  destruct (reencode_target _ _ _ _ Hi Hp Hmapped He) as (Hw & Hke & _ & Hd).
  rewrite Hk in Hke, Hd. exists 1%nat, s. split; [|done].
  rewrite (run_word other base final Hbase Hfit s 0 e s (Jump (mapped req)) 0); try done.
  unfold exec. rewrite Hke. by rewrite arch_target_decode, Hd by (done || by rewrite Hke).
Qed.

Lemma sim_bl e :
  DecodeKind i = kBl -> EncodeBranch (base + 4) (mapped req) false = Some e ->
  pool_layout base [0; e] [fixup 0 30 (u64 (req_source_pc req + 4))] final -> simulated.
Proof.
  intros Hk He Hl. unfold simulated. rewrite start_pc.
  destruct (pool_exec other base final Hbase Hfit [0; e] 0 30 _ Hl) as (Hload & Hsame & Hlen);
    [simpl; lia|apply u64_range|lia|].
  unfold exec in Hexec. rewrite Hk in Hexec. injection Hexec as <- <-.
  rewrite arch_decoded, expected_jump by (by rewrite Hk).
  exists 2%nat. eexists. split; [|reflexivity]. rewrite Hload by done.
  change (write_x 30 ?v s) with (set_X 30 v s) in *.
  apply (run_branch other base final Hbase Hfit _ _ _ e); [done|by rewrite Hsame by (simpl; lia)|done|].
  unfold pc_at. by replace (base + 4 * Z.of_nat 1) with (base + 4) by lia.
Qed.

Lemma exec_is_conditional :
  branch_kind (DecodeKind i) = true ->
  s1 = s /\ expected_pc req nxt = if taken i s then mapped req else req_continuation req.
Proof.
  intros Hk. rewrite exec_conditional in Hexec by done. injection Hexec as <- <-.
  split; [done|]. pose proof (branch_kind_pc_relative i Hk).
  destruct (taken i s); [|done]. by rewrite arch_decoded, expected_jump.
Qed.

Lemma sim_always e :
  branch_kind (DecodeKind i) = true -> always_branch (DecodeKind i) i = true ->
  EncodeBranch base (mapped req) false = Some e -> final !! 0%nat = Some e -> simulated.
Proof.
  intros Hk Ha He Hl. unfold simulated. destruct (exec_is_conditional Hk) as [-> ->].
  rewrite always_taken by done. exists 1%nat, s. split; [|done].
  rewrite start_pc in He |- *. by eapply run_branch.
Qed.

Lemma sim_cond e b :
  branch_kind (DecodeKind i) = true -> EncodePcRelative i base (mapped req) = Some e ->
  EncodeBranch (pc_at base 1) (req_continuation req) false = Some b ->
  final !! 0%nat = Some e -> final !! 1%nat = Some b -> simulated.
Proof.
  intros Hk He Hb Hl0 Hl1. unfold simulated. destruct (exec_is_conditional Hk) as [-> ->].
  rewrite start_pc in He |- *.
  assert (addr (pc_at base 0)) as Hp
    by (apply (pc_at_addr base final Hbase Hfit); by apply lookup_lt_Some in Hl0).
  destruct (reencoded_conditional other i _ _ e s Hi Hp Hmapped Hk He) as [Hw Hx].
  pose proof (run_word other base final Hbase Hfit s 0 e s _
                (if taken i s then 0 else 1) Hmem Hl0 Hw Hx) as Hr.
  destruct (taken i s).
  - exists 1%nat, s. split; [exact Hr|done].
  - exists 2%nat, s. split; [|done]. rewrite Hr. by eapply run_continuation.
Qed.

Lemma sim_cond_far skip e b :
  branch_kind (DecodeKind i) = true -> always_branch (DecodeKind i) i = false ->
  EncodePcRelative (InvertConditional i) base (u64 (base + 8)) = Some skip ->
  EncodeBranch (u64 (base + 4)) (mapped req) false = Some e ->
  EncodeBranch (pc_at base 2) (req_continuation req) false = Some b ->
  final !! 0%nat = Some skip -> final !! 1%nat = Some e -> final !! 2%nat = Some b -> simulated.
Proof.
  intros Hk Ha Hskip He Hb Hl0 Hl1 Hl2. unfold simulated.
  destruct (exec_is_conditional Hk) as [-> ->].
  pose proof (lookup_lt_Some _ _ _ Hl2).
  rewrite u64_small in Hskip by lia. rewrite u64_small in He by lia.
  replace (base + 8) with (pc_at base 2) in Hskip by (unfold pc_at; lia).
  replace (base + 4) with (pc_at base 1) in He by (unfold pc_at; lia).
  rewrite start_pc in Hskip at 1. rewrite start_pc.
  assert (forall k, (k <= 2)%nat -> addr (pc_at base k)) as Hp
    by (intros; apply (pc_at_addr base final Hbase Hfit); lia).
  assert (DecodeKind i = kBCond \/ DecodeKind i = kCompareBranch \/ DecodeKind i = kTestBranch)
    as Hk' by (unfold branch_kind in Hk; by apply bool_decide_eq_true in Hk).
  destruct (InvertConditional_word i Hi Hk') as [Hwi Hki].
  destruct (reencoded_conditional other (InvertConditional i) _ _ skip s Hwi (Hp 0%nat ltac:(lia))
              (Hp 2%nat ltac:(lia)) ltac:(by rewrite Hki) Hskip) as [Hw Hx].
  rewrite taken_invert in Hx by done. exists 2%nat, s. split; [|done].
  rewrite (run_word other base final Hbase Hfit s 0 skip s _ 1 Hmem Hl0 Hw Hx).
  destruct (taken i s); cbn [negb]; [by eapply run_branch|by eapply run_continuation].
Qed.

(** After the words that do the work, the continuation. *)
Lemma finish k b m t :
  nxt = Fall -> EncodeBranch (pc_at base k) (req_continuation req) false = Some b ->
  final !! k = Some b -> loaded base final t -> same_except (spill s) t s1 ->
  run other (m + 1) (base, s) = run other 1 (pc_at base k, t) -> simulated.
Proof.
  intros Hn Hb Hl Ht Hsame Hr. unfold simulated. rewrite Hn.
  exists (m + 1)%nat, t. split; [|done]. rewrite Hr. by eapply run_continuation.
Qed.

(** One word with the effect of the original, then the continuation. *)
Lemma sim_word e b :
  nxt = Fall -> word e -> exec other e base s = Some (s1, Fall) ->
  EncodeBranch (pc_at base 1) (req_continuation req) false = Some b ->
  final !! 0%nat = Some e -> final !! 1%nat = Some b -> simulated.
Proof.
  intros Hn He Hx Hb Hl0 Hl1. apply (finish 1 b 1 s1); try done.
  rewrite start_pc in Hx. rewrite start_pc at 1.
  apply (run_word other base final Hbase Hfit s 0 e s1 Fall 1 Hmem Hl0 He Hx).
Qed.

Lemma exec_is_adr :
  DecodeKind i = kAdr \/ DecodeKind i = kAdrp ->
  s1 = write_x (rt_of i) (decoded req) s /\ nxt = Fall.
Proof.
  intros Hk. assert (DecodeKind i <> kOther) by (by destruct Hk as [-> | ->]).
  rewrite <- arch_decoded by done. unfold exec in Hexec.
  by destruct Hk as [Hk|Hk]; rewrite Hk in Hexec; simplify_eq.
Qed.

Lemma sim_adr e b :
  DecodeKind i = kAdr \/ DecodeKind i = kAdrp ->
  EncodePcRelative i base (decoded req) = Some e ->
  EncodeBranch (pc_at base 1) (req_continuation req) false = Some b ->
  final !! 0%nat = Some e -> final !! 1%nat = Some b -> simulated.
Proof.
  intros Hk He Hb Hl0 Hl1. destruct (exec_is_adr Hk) as [E1 En].
  pose proof (lookup_lt_Some _ _ _ Hl1).
  assert (addr base) as Hp by (unfold addr; lia).
  destruct (reencode_target _ _ _ _ Hi Hp (decoded_addr _ _) He) as (Hw & Hke & Hm & Hd).
  apply (sim_word e b); try done. rewrite E1. unfold exec.
  assert (rt_of e = rt_of i) as ->.
  { unfold rt_of. apply (kept_land e i (DecodeKind i)); [done|]. by destruct Hk as [-> | ->]. }
  assert (arch_target e base = decoded req) as ->.
  { rewrite arch_target_decode by (done || by rewrite Hke; destruct Hk as [-> | ->]).
    rewrite Hd. unfold decoded. by apply denoted_decoded. }
  rewrite Hke. by destruct Hk as [-> | ->].
Qed.

Lemma sim_adr_discard b :
  DecodeKind i = kAdr \/ DecodeKind i = kAdrp -> rt_of i = 31 ->
  EncodeBranch (pc_at base 1) (req_continuation req) false = Some b ->
  final !! 0%nat = Some kNop -> final !! 1%nat = Some b -> simulated.
Proof.
  intros Hk Hr Hb Hl0 Hl1. destruct (exec_is_adr Hk) as [E1 En].
  apply (sim_word kNop b); try done. rewrite E1, Hr. done.
Qed.

Lemma sim_adr_far b :
  DecodeKind i = kAdr \/ DecodeKind i = kAdrp -> rt_of i <> 31 ->
  EncodeBranch (pc_at base 1) (req_continuation req) false = Some b ->
  pool_layout base [0; b] [fixup 0 (rt_of i) (decoded req)] final -> simulated.
Proof.
  intros Hk Hr Hb Hl. destruct (exec_is_adr Hk) as [E1 En].
  assert (0 <= rt_of i < 32) as Hrt by (apply (land_bound_r i 31 5); lia).
  destruct (pool_exec other base final Hbase Hfit [0; b] 0 (rt_of i) _ Hl) as (Hload & Hsame & Hlen);
    [simpl; lia|apply decoded_addr|lia|].
  apply (finish 1 b 1 s1); try done.
  - by rewrite Hsame by (simpl; lia).
  - rewrite start_pc at 1. rewrite Hload by done. rewrite E1. unfold write_x.
    by destruct (Z.eqb_spec (rt_of i) 31).
Qed.

Definition literal_kind : option load_kind :=
  load_kind_of ((i >>> 30) &&& 0x3) ((i >>> 26) &&& 0x1).

Lemma exec_is_literal :
  DecodeKind i = kLiteralLoad ->
  exists k, literal_kind = Some k /\ s1 = do_load k (rt_of i) (decoded req) s /\ nxt = Fall.
Proof.
  intros Hk. assert (DecodeKind i <> kOther) by (by rewrite Hk).
  rewrite <- arch_decoded by done. unfold exec in Hexec. rewrite Hk in Hexec.
  unfold load_effect in Hexec. fold literal_kind in Hexec.
  destruct literal_kind as [k|]; [|done]. simpl in Hexec. simplify_eq. eauto.
Qed.

Lemma sim_literal e b :
  DecodeKind i = kLiteralLoad -> EncodePcRelative i base (decoded req) = Some e ->
  EncodeBranch (pc_at base 1) (req_continuation req) false = Some b ->
  final !! 0%nat = Some e -> final !! 1%nat = Some b -> simulated.
Proof.
  intros Hk He Hb Hl0 Hl1. destruct (exec_is_literal Hk) as (k & Hlk & E1 & En).
  pose proof (lookup_lt_Some _ _ _ Hl1).
  assert (addr base) as Hp by (unfold addr; lia).
  destruct (reencode_target _ _ _ _ Hi Hp (decoded_addr _ _) He) as (Hw & Hke & Hm & Hd).
  rewrite Hk in Hke, Hm, Hd.
  apply (sim_word e b); try done. unfold exec. rewrite Hke.
  rewrite arch_target_decode, Hd by (done || by rewrite Hke). cbn [denoted].
  assert ((e >>> 30) &&& 3 = (i >>> 30) &&& 3) as -> by (by apply (kept_field e i kLiteralLoad)).
  assert ((e >>> 26) &&& 1 = (i >>> 26) &&& 1) as -> by (by apply (kept_field e i kLiteralLoad)).
  assert (rt_of e = rt_of i) as -> by (by apply (kept_land e i kLiteralLoad)).
  unfold load_effect. fold literal_kind. by rewrite Hlk, E1.
Qed.

(** The emitted register load, at any state. *)
Lemma memory_load_exec rn load pc t k :
  0 <= rn < 31 -> DecodeKind i = kLiteralLoad -> literal_kind = Some k ->
  EncodeLiteralMemoryLoad i rn = Some load ->
  word load /\ exec other load pc t = Some (do_load k (rt_of i) (u64 (X t rn)) t, Fall).
Proof.
  intros Hrn Hk Hlk He.
  destruct (EncodeLiteralMemoryLoad_exec other i rn load pc t Hrn Hk He) as [Hw Hx].
  split; [done|]. rewrite Hx. unfold load_effect. fold literal_kind. by rewrite Hlk.
Qed.

(** Expansion through the destination register. *)
Lemma sim_literal_dest load b :
  DecodeKind i = kLiteralLoad -> can_use_destination i = true ->
  EncodeLiteralMemoryLoad i (rt_of i) = Some load ->
  EncodeBranch (pc_at base 2) (req_continuation req) false = Some b ->
  pool_layout base [0; load; b] [fixup 0 (rt_of i) (decoded req)] final -> simulated.
Proof.
  intros Hk Hc He Hb Hl. destruct (exec_is_literal Hk) as (k & Hlk & E1 & En).
  destruct (destination_load i k Hc Hlk) as [Hr Hkx].
  assert (0 <= rt_of i < 32) as Hrt by (apply (land_bound_r i 31 5); lia).
  destruct (pool_exec other base final Hbase Hfit _ 0 (rt_of i) _ Hl) as (Hload & Hsame & Hlen);
    [simpl; lia|apply decoded_addr|lia|].
  destruct (memory_load_exec (rt_of i) load (pc_at base 1) (set_X (rt_of i) (decoded req) s) k)
    as [Hw Hx]; try done; [lia|].
  simpl in Hx. unfold upd in Hx at 1. rewrite Z.eqb_refl in Hx.
  rewrite u64_small in Hx by apply decoded_addr.
  apply (finish 2 b 2 (do_load k (rt_of i) (decoded req) (set_X (rt_of i) (decoded req) s))); try done.
  - by rewrite Hsame by (simpl; lia).
  - unfold loaded. by rewrite do_load_mem.
  - rewrite E1. by apply do_load_forgets.
  - rewrite start_pc at 1. change (2 + 1)%nat with (S 2). rewrite Hload by done.
    by rewrite (run_word other base final Hbase Hfit (set_X (rt_of i) (decoded req) s) 1 load
      _ Fall _ Hmem ltac:(by rewrite Hsame by (simpl; lia)) Hw Hx).
Qed.

(** Expansion through X17, spilled below the stack pointer. *)
Lemma sim_literal_spill load b :
  DecodeKind i = kLiteralLoad -> can_use_destination i = false ->
  spill_safe req base (4 * Z.of_nat (length final)) s ->
  EncodeLiteralMemoryLoad i 17 = Some load ->
  EncodeBranch (pc_at base 4) (req_continuation req) false = Some b ->
  pool_layout base [kStrX17PreIndexSpMinus16; 0; load; kLdrX17PostIndexSpPlus16; b]
    [fixup 4 17 (decoded req)] final -> simulated.
Proof.
  intros Hk Hc Hsafe He Hb Hl. destruct (exec_is_literal Hk) as (k & Hlk & E1 & En).
  destruct (pool_exec other base final Hbase Hfit _ 1 17 _ Hl) as (Hload & Hsame & Hlen);
    [simpl; lia|apply decoded_addr|lia|].
  assert (forall j, j <> 1%nat -> (j < 5)%nat -> final !! j =
    [kStrX17PreIndexSpMinus16; 0; load; kLdrX17PostIndexSpPlus16; b] !! j) as Hcode
    by (intros; apply Hsame; simpl; lia).
  set (t2 := set_X 17 (decoded req) (spilled s)).
  assert (loaded base final (spilled s)) as Hm1 by (by apply spilled_loaded with req).
  destruct (memory_load_exec 17 load (pc_at base 2) t2 k) as [Hw Hx]; try done.
  change (X t2 17) with (decoded req) in Hx. rewrite u64_small in Hx by apply decoded_addr.
  destruct (do_load_no_gpr k (rt_of i) (decoded req) t2 s) as (v & v' & E2 & E3 & HV); try done.
  { by apply no_destination_load. }
  { by apply spilled_read with base final. }
  rewrite E2 in Hx. rewrite E3 in E1.
  apply (finish 4 b 4 (unspilled (with_V v t2))); try done.
  - by rewrite Hcode by lia.
  - rewrite E1. by apply (unspill_spilled req base final).
  - rewrite start_pc at 1. change (4 + 1)%nat with (S (S (S (S 1)))).
    rewrite (run_word other base final Hbase Hfit s 0 kStrX17PreIndexSpMinus16 (spilled s) Fall)
      by (done || by rewrite Hcode by lia).
    rewrite Hload by done. fold t2.
    rewrite (run_word other base final Hbase Hfit t2 2 load _ Fall _ Hm1
      ltac:(by rewrite Hcode by lia) Hw Hx).
    by rewrite (run_word other base final Hbase Hfit (with_V v t2) 3 kLdrX17PostIndexSpPlus16
      (unspilled (with_V v t2)) Fall) by (done || by rewrite Hcode by lia).
Qed.

Lemma sim_other b :
  DecodeKind i = kOther ->
  EncodeBranch (pc_at base 1) (req_continuation req) false = Some b ->
  final !! 0%nat = Some i -> final !! 1%nat = Some b -> simulated.
Proof.
  intros Hk Hb Hl0 Hl1.
  assert (exec other i base s = Some (s1, nxt)) as Hx
    by (rewrite <- Hexec; unfold exec; by rewrite Hk).
  destruct nxt as [|a] eqn:En; [by apply (sim_word i b)|].
  unfold simulated. rewrite En. exists 1%nat, s1. split; [|done].
  rewrite start_pc in Hx |- *.
  rewrite (run_word other base final Hbase Hfit s 0 i s1 (Jump a) 0 Hmem Hl0 Hi Hx).
  unfold expected_pc. by rewrite decide_True.
Qed.
End Simulation.

(** ** The simulation theorem *)

(** Every layout of [RelocatorLayout] simulates the original instruction. *)
Lemma plan_simulates other req base ws fx ap tail final s s1 nxt :
  word (req_instruction req) -> addr (req_source_pc req) -> addr (req_continuation req) ->
  addr (mapped req) -> 0 <= base -> base + 4 * Z.of_nat (length final) < 2 ^ 64 ->
  loaded base final s -> loaded base final s1 ->
  exec other (req_instruction req) (req_source_pc req) s = Some (s1, nxt) ->
  (DecodeKind (req_instruction req) = kLiteralLoad ->
   can_use_destination (req_instruction req) = false ->
   spill_safe req base (4 * Z.of_nat (length final)) s) ->
  code_plan req base ws fx ap -> tail_words req base ws ap tail ->
  pool_layout base (ws ++ tail) fx final ->
  simulated other req base s s1 nxt.
Proof.
  intros Hi Hsrc Hcont Hmap Hb Hfit Hm Hm1 Hx Hsafe Hplan Htail Hpool.
  destruct Hplan; simpl in Htail.
  all: try (destruct Htail as (b & -> & Hbr)); try subst tail.
  all: try (inversion Hpool; subst final).
  - by eapply sim_b.
  - by eapply sim_bl.
  - by eapply sim_always.
  - by eapply sim_cond.
  - by eapply sim_cond_far.
  - by eapply sim_adr.
  - by eapply sim_adr_discard.
  - by eapply sim_adr_far.
  - by eapply sim_literal.
  - by eapply sim_literal_dest.
  - eapply sim_literal_spill; eauto.
  - by eapply sim_other.
Qed.


Lemma map_lookup_addr maps t :
  addr t -> Forall (fun m => addr (map_destination m)) maps -> addr (map_lookup maps t).
Proof. intros Ht H. induction H; simpl; [done|]. by destruct (_ =? _). Qed.

Lemma valid_mapped req : valid_request req -> addr (mapped req).
Proof.
  intros Hv. unfold mapped, MapInternalTarget.
  destruct (req_internal_maps req) eqn:Hm; [|apply decoded_addr].
  apply map_lookup_addr; [apply decoded_addr|]. apply Forall_take. by apply (vr_maps _ Hv).
Qed.

(** C1 (refinement): when the relocation succeeds, executing the code it left
    in the buffer at its new address has, in the reference semantics, the
    effect of the original instruction at its source address: it reaches the
    continuation, or the (mapped) target of a taken branch, in a state equal to
    the original's outside the doubleword spilled below the stack pointer.  The
    spill conditions are needed only for the literal loads that expand through
    X17. *)
Theorem relocate_simulates other req r0 r out s s1 nxt :
  valid_request req ->
  RelocateOneAndContinue req r0 = (kOk, r, Some out) ->
  let trampoline := take (Z.to_nat (total_size r)) out in
  bytes_at (MEM s) (req_output_address req) trampoline ->
  bytes_at (MEM s1) (req_output_address req) trampoline ->
  exec other (req_instruction req) (req_source_pc req) s = Some (s1, nxt) ->
  (DecodeKind (req_instruction req) = kLiteralLoad ->
   can_use_destination (req_instruction req) = false ->
   spill_safe req (req_output_address req) (total_size r) s) ->
  exists n s', run other n (req_output_address req, s) = Some (expected_pc req nxt, s') /\
               same_except (spill s) s' s1.
Proof.
  intros Hv Hok tr. subst tr. destruct (vr_output _ Hv) as (buf & Hbuf & Hlen).
  destruct (relocate_ok_layout req r0 r out buf Hbuf Hlen (vr_address _ Hv) (vr_end _ Hv) Hok)
    as (ws & fx & ap & tail & final & Hp & Ht & Hl & -> & _ & Hfit & _ & ->).
  intros Hm Hm1 Hx Hsafe. destruct Hv. pose proof (valid_mapped req).
  eapply (plan_simulates other req (req_output_address req)); eauto; [|lia].
  by apply valid_mapped.
Qed.

(** ** The properties at a concrete request *)

(** A memory image: [bs] at [base], zero elsewhere. *)
Definition image (base : Z) (bs : list Z) (a : Z) : Z :=
  if a <? base then 0 else default 0 (bs !! Z.to_nat (a - base)).

Lemma image_bytes base bs :
  0 <= base -> base + Z.of_nat (length bs) <= 2 ^ 64 -> bytes_at (image base bs) base bs.
Proof.
  intros Hb Hl j b Hj. pose proof (lookup_lt_Some _ _ _ Hj). rewrite u64_small by lia.
  unfold image. destruct (Z.ltb_spec (base + Z.of_nat j) base); [lia|].
  replace (Z.to_nat (base + Z.of_nat j - base)) with j by lia. by rewrite Hj.
Qed.

Definition sample_code : list Z :=
  match sample_outcome with
  | (_, r, Some out) => take (Z.to_nat (total_size r)) out
  | _ => []
  end.

Definition sample_state : machine :=
  {| X := fun r => r; SP := 0x8000; NZCV := (false, false, false, false); V := fun _ => 0;
     MEM := image 0x10000 sample_code |}.

Lemma relocate_simulates_witness :
  exists n s', run (fun _ _ => None) n (0x10000, sample_state) = Some (0x10100, s') /\
    same_except (spill sample_state) s' (set_V 0 0 sample_state).
Proof.
  destruct sample_outcome as [[st r] out] eqn:Ho.
  assert (st = kOk /\ r = {| code_size := 20; total_size := 32; expanded := 1; uses_x17 := 1 |} /\
    exists o, out = Some o /\ take 32 o = sample_code) as (-> & -> & o & -> & Hcode).
  { vm_compute in Ho. injection Ho as <- <- <-. split; [reflexivity|]. split; [reflexivity|].
    eexists. split; reflexivity. }
  apply (relocate_simulates (fun _ _ => None) (sample_request 0x9c000080) zero_result
           {| code_size := 20; total_size := 32; expanded := 1; uses_x17 := 1 |} o sample_state (set_V 0 0 sample_state) Fall).
  - apply sample_valid. split; done.
  - exact Ho.
  - change (Z.to_nat _) with 32%nat. rewrite Hcode. apply image_bytes; [done|vm_compute; discriminate].
  - change (Z.to_nat _) with 32%nat. rewrite Hcode. apply image_bytes; [done|vm_compute; discriminate].
  - reflexivity.
  - intros _ _. split.
    + vm_compute. split; [discriminate|reflexivity].
    + vm_compute. split; [discriminate|reflexivity].
    + unfold spill. simpl. lia.
    + change (LiteralAccessSize _) with 16. change (decoded _) with 0x100000010.
      unfold spill. simpl. intros j Hj. rewrite u64_small; lia.
Defined.
