(* ===== verification/CloseRange.v ===== *)
(** * Replaying close_range(2) around protected descriptors

    Models [tracer/close_range_replay.{h,cpp}].  The descriptor array of the
    cursor is a list of [kCloseRangeReplayProtectedCapacity] entries; the loops
    recurse on the number of iterations left. *)

From S2P Require Import Prelude Bits Arrays.
From stdpp Require Import list sorting.
#[local] Open Scope Z_scope.

Definition kCloseRangeReplayUnshare : Z := 1 <<< 1.
Definition kCloseRangeReplayCloexec : Z := 1 <<< 2.
Definition kCloseRangeReplayKnownFlags : Z := kCloseRangeReplayUnshare ||| kCloseRangeReplayCloexec.
Definition kCloseRangeReplayProtectedCapacity : nat := 256.
Definition kCloseRangeReplayMagic : Z := 0x48534352.
Definition kCloseRangeReplayVersion : Z := 2.

Inductive CloseRangeReplayDisposition := kInvalid | kPassthrough | kReplay.

Record CloseRangeReplaySegment := {
  seg_first : Z;
  seg_last : Z;
  seg_flags : Z;
  seg_sequence : Z;
}.

Record CloseRangeReplayCursor := {
  magic : Z;
  version : Z;
  active : Z;
  complete : Z;
  original_first : Z;
  original_last : Z;
  original_flags : Z;
  next_first : Z;
  protected_count : Z;
  protected_index : Z;
  segment_count : Z;
  unshare_pending : Z;
  protected_fds : list Z;
}.

Definition zero_cursor : CloseRangeReplayCursor :=
  {| magic := 0; version := 0; active := 0; complete := 0; original_first := 0;
     original_last := 0; original_flags := 0; next_first := 0; protected_count := 0;
     protected_index := 0; segment_count := 0; unshare_pending := 0;
     protected_fds := replicate kCloseRangeReplayProtectedCapacity 0%Z |}.

(** Assignments to the fields the operations change. *)
Definition set_protected (count : Z) (fds : list Z) (c : CloseRangeReplayCursor) :=
  {| magic := magic c; version := version c; active := active c; complete := complete c;
     original_first := original_first c; original_last := original_last c;
     original_flags := original_flags c; next_first := next_first c;
     protected_count := count; protected_index := protected_index c;
     segment_count := segment_count c; unshare_pending := unshare_pending c;
     protected_fds := fds |}.
Definition set_progress (act compl next index segs unshare : Z) (c : CloseRangeReplayCursor) :=
  {| magic := magic c; version := version c; active := act; complete := compl;
     original_first := original_first c; original_last := original_last c;
     original_flags := original_flags c; next_first := next;
     protected_count := protected_count c; protected_index := index;
     segment_count := segs; unshare_pending := unshare;
     protected_fds := protected_fds c |}.

Definition fd_at (c : CloseRangeReplayCursor) (index : Z) : Z :=
  protected_fds c !!! Z.to_nat index.

(** ** Helpers *)

Definition FdInRange (fd first last : Z) : bool :=
  (0 <=? fd) && (first <=? u32 fd) && (u32 fd <=? last).

Definition InsertSortedUnique (fd : Z) (cursor : CloseRangeReplayCursor) : CloseRangeReplayCursor :=
  let count := Z.to_nat (protected_count cursor) in
  let insert := insert_position count (protected_fds cursor) (fun p => p <? fd) 0 in
  if (insert <? count)%nat && (protected_fds cursor !!! insert =? fd) then cursor
  else
    let fds := shift_up (count - insert) insert (protected_fds cursor) in
    set_protected (u32 (protected_count cursor + 1)) (<[insert := fd]> fds) cursor.

Definition MarkComplete (c : CloseRangeReplayCursor) : CloseRangeReplayCursor :=
  set_progress 0 1 0 (protected_count c) (segment_count c) 0 c.

(** ** Prepare *)

(** The registration loop; [inl] is the overflow exit. *)
Fixpoint register_fds (fds : list Z) (cursor : CloseRangeReplayCursor)
    : CloseRangeReplayCursor + CloseRangeReplayCursor :=
  match fds with
  | [] => inr cursor
  | fd :: fds =>
      if negb (FdInRange fd (original_first cursor) (original_last cursor))
      then register_fds fds cursor
      else if protected_count cursor =? Z.of_nat kCloseRangeReplayProtectedCapacity
      then inl zero_cursor
      else register_fds fds (InsertSortedUnique fd cursor)
  end.

(** [protected_fds] is [None] for a null pointer; the outcome is the errno, the
    cursor and the disposition after the call. *)
Definition PrepareCloseRangeReplay (first last flags : Z) (fds : option (list Z))
    (protected_fd_count : Z) (cursor : CloseRangeReplayCursor)
    (disposition : CloseRangeReplayDisposition)
    : Z * CloseRangeReplayCursor * CloseRangeReplayDisposition :=
  if (last <? first) || negb ((flags &&& not32 kCloseRangeReplayKnownFlags) =? 0)
     || (negb (protected_fd_count =? 0) && bool_decide (fds = None))
  then (EINVAL, cursor, disposition)
  else if Z.of_nat kCloseRangeReplayProtectedCapacity <? protected_fd_count
  then (EOVERFLOW, cursor, disposition)
  else
    let cursor :=
      {| magic := kCloseRangeReplayMagic; version := kCloseRangeReplayVersion;
         active := 0; complete := 0; original_first := first; original_last := last;
         original_flags := flags; next_first := first; protected_count := 0;
         protected_index := 0; segment_count := 0;
         unshare_pending := if has flags kCloseRangeReplayUnshare then 1 else 0;
         protected_fds := replicate kCloseRangeReplayProtectedCapacity 0%Z |} in
    match register_fds (take (Z.to_nat protected_fd_count) (default [] fds)) cursor with
    | inl cursor => (EOVERFLOW, cursor, kPassthrough)
    | inr cursor =>
        if protected_count cursor =? 0 then
          (0, set_progress (active cursor) 1 (next_first cursor) (protected_index cursor)
                (segment_count cursor) 0 cursor, kPassthrough)
        else
          (0, set_progress 1 0 (next_first cursor) (protected_index cursor)
                (segment_count cursor) (unshare_pending cursor) cursor, kReplay)
    end.

(** ** The validity check *)

Definition protected_ok (c : CloseRangeReplayCursor) (index : nat) : bool :=
  let fd := protected_fds c !!! index in
  FdInRange fd (original_first c) (original_last c)
  && ((index =? 0)%nat || (protected_fds c !!! (index - 1)%nat <? fd)).

Definition IsCloseRangeReplayCursorValid (c : CloseRangeReplayCursor) : bool :=
  if negb (magic c =? kCloseRangeReplayMagic) || negb (version c =? kCloseRangeReplayVersion)
     || (1 <? active c) || (1 <? complete c) || (1 <? unshare_pending c)
     || (protected_count c =? 0)
     || (Z.of_nat kCloseRangeReplayProtectedCapacity <? protected_count c)
     || (protected_count c <? protected_index c)
     || (u32 (protected_count c + 2) <? segment_count c)
     || (original_last c <? original_first c)
     || negb ((original_flags c &&& not32 kCloseRangeReplayKnownFlags) =? 0)
     || negb (u32 (active c + complete c) =? 1)
  then false
  else if negb (forallb (protected_ok c) (seq 0 (Z.to_nat (protected_count c)))) then false
  else if negb (complete c =? 0) then
    (active c =? 0) && (protected_index c =? protected_count c) && (unshare_pending c =? 0)
  else if (protected_count c <=? protected_index c) || (next_first c <? original_first c)
          || (original_last c <? next_first c)
  then false
  else if negb (forallb (fun index => u32 (protected_fds c !!! index) <? next_first c)
                        (seq 0 (Z.to_nat (protected_index c)))) then false
  else if u32 (fd_at c (protected_index c)) <? next_first c then false
  else
    let expected_initial_unshare :=
      if has (original_flags c) kCloseRangeReplayUnshare then 1 else 0 in
    if segment_count c =? 0 then
      (protected_index c =? 0) && (next_first c =? original_first c)
      && (unshare_pending c =? expected_initial_unshare)
    else if negb (expected_initial_unshare =? 0) && (segment_count c =? 1) then
      (unshare_pending c =? 0) && (protected_index c =? 0)
      && (next_first c =? original_first c)
    else (unshare_pending c =? 0) && (u32 (fd_at c (protected_index c)) =? next_first c).

(** ** Next *)

(** The inner [while]: skip the descriptors below [next_first]. *)
Fixpoint skip_below (n : nat) (c : CloseRangeReplayCursor) (index : Z) : Z :=
  match n with
  | O => index
  | S n =>
      if (index <? protected_count c) && (u32 (fd_at c index) <? next_first c)
      then skip_below n c (index + 1) else index
  end.

(** One emitted range: its bounds and the cursor after it. *)
Definition emit_segment (c : CloseRangeReplayCursor) (first last flags : Z)
    (act compl next index : Z) : CloseRangeReplayCursor * option CloseRangeReplaySegment :=
  let sequence := u32 (segment_count c + 1) in
  (set_progress act compl next index sequence (unshare_pending c) c,
   Some {| seg_first := first; seg_last := last; seg_flags := flags; seg_sequence := sequence |}).

(** The [for (;;)] loop; [None] when the fuel runs out. *)
Fixpoint next_loop (fuel : nat) (c : CloseRangeReplayCursor)
    : option (CloseRangeReplayCursor * option CloseRangeReplaySegment) :=
  match fuel with
  | O => None
  | S fuel =>
      let index := skip_below (Z.to_nat (protected_count c)) c (protected_index c) in
      let cloexec := original_flags c &&& kCloseRangeReplayCloexec in
      if index <? protected_count c then
        let protected_fd := u32 (fd_at c index) in
        if next_first c <? protected_fd then
          Some (emit_segment c (next_first c) (u32 (protected_fd - 1)) cloexec
                  (active c) (complete c) protected_fd index)
        else
          let c' := set_progress (active c) (complete c) (next_first c) (index + 1)
                      (segment_count c) (unshare_pending c) c in
          if (protected_fd =? UINT32_MAX) || (protected_fd =? original_last c)
          then Some (MarkComplete c', None)
          else next_loop fuel
                 (set_progress (active c) (complete c) (u32 (protected_fd + 1)) (index + 1)
                    (segment_count c) (unshare_pending c) c)
      else if next_first c <=? original_last c then
        Some (emit_segment c (next_first c) (original_last c) cloexec
                0 1 (next_first c) (protected_count c))
      else
        Some (MarkComplete (set_progress (active c) (complete c) (next_first c) index
                              (segment_count c) (unshare_pending c) c), None)
  end.

(** The outcome: errno, the cursor, and the segment when [*has_segment]. *)
Definition NextCloseRangeReplaySegment (c : CloseRangeReplayCursor)
    : option (Z * CloseRangeReplayCursor * option CloseRangeReplaySegment) :=
  if negb (IsCloseRangeReplayCursorValid c) then Some (EINVAL, c, None)
  else if negb (complete c =? 0) then Some (0, c, None)
  else if negb (unshare_pending c =? 0) then
    let sequence := u32 (segment_count c + 1) in
    Some (0,
      set_progress (active c) (complete c) (next_first c) (protected_index c) sequence 0 c,
      Some {| seg_first := UINT32_MAX; seg_last := UINT32_MAX;
              seg_flags := (original_flags c &&& kCloseRangeReplayCloexec)
                             ||| kCloseRangeReplayUnshare;
              seg_sequence := sequence |})
  else
    r ← next_loop (S (Z.to_nat (protected_count c))) c;
    let '(c', seg) := r in Some (0, c', seg).

(** The caller's loop: segments until [has_segment] is false. *)
Fixpoint replay (calls : nat) (c : CloseRangeReplayCursor)
    : option (list CloseRangeReplaySegment * CloseRangeReplayCursor) :=
  match calls with
  | O => None
  | S calls =>
      r ← NextCloseRangeReplaySegment c;
      let '(err, c', seg) := r in
      if negb (err =? 0) then None
      else match seg with
           | None => Some ([], c')
           | Some s => rest ← replay calls c'; Some (s :: rest.1, rest.2)
           end
  end.

(** ** Specification: the gaps between protected descriptors *)

Fixpoint gaps (first last : Z) (protected : list Z) : list (Z * Z) :=
  match protected with
  | [] => if first <=? last then [(first, last)] else []
  | p :: protected =>
      (if first <? p then [(first, p - 1)] else [])
      ++ (if p =? last then [] else gaps (p + 1) last protected)
  end.

Lemma gaps_at last p ps :
  gaps p last (p :: ps) = if p =? last then [] else gaps (p + 1) last ps.
Proof. simpl. by rewrite Z.ltb_irrefl. Qed.

(** Membership in the gaps, and their order. *)
Lemma gaps_spec first last ps x :
  strictly_sorted ps -> Forall (fun p => first <= p <= last) ps ->
  (exists g, g ∈ gaps first last ps /\ g.1 <= x <= g.2) <-> (first <= x <= last /\ x ∉ ps).
Proof.
  intros Hs Hr. revert first Hr. induction Hs as [|p ps Hs IH Hp]; intros first Hr; simpl.
  - destruct (Z.leb_spec first last); split.
    + intros (g & Hg & Hx). apply list_elem_of_singleton in Hg as ->. simpl in Hx.
      split; [lia|]. apply not_elem_of_nil.
    + intros [Hx _]. exists (first, last). split; [by apply list_elem_of_singleton|done].
    + by intros (g & Hg%not_elem_of_nil & _).
    + lia.
  - apply Forall_cons_iff in Hr as [Hpr Hr]. rewrite not_elem_of_cons.
    assert ((exists g, g ∈ (if p =? last then [] else gaps (p + 1) last ps) /\ g.1 <= x <= g.2)
            <-> (p < x <= last /\ x ∉ ps)) as Hrest.
    { destruct (Z.eqb_spec p last).
      - split; [by intros (g & Hg%not_elem_of_nil & _)|lia].
      - rewrite IH; [intuition lia|]. apply Forall_elem. intros q Hq.
        pose proof (Forall_elem_1 _ _ _ Hp Hq); simpl in *.
        pose proof (Forall_elem_1 _ _ _ Hr Hq); simpl in *. lia. }
    assert (forall a b, (exists g : Z * Z, g ∈ a ++ b /\ g.1 <= x <= g.2) <->
      (exists g, g ∈ a /\ g.1 <= x <= g.2) \/ (exists g, g ∈ b /\ g.1 <= x <= g.2)) as Happ.
    { intros a b. split.
      - intros (g & [Hg|Hg]%elem_of_app & Hx); eauto.
      - intros [(g & Hg & Hx)|(g & Hg & Hx)]; exists g; rewrite elem_of_app; auto. }
    rewrite Happ, Hrest. clear Happ Hrest.
    assert (x < p -> x ∉ ps) as Hlow.
    { intros Hlt Hin. pose proof (Forall_elem_1 _ _ _ Hp Hin); simpl in *. lia. }
    destruct (Z.ltb_spec first p); split.
    + intros [(g & Hg & Hx)|Hx]; [|intuition lia].
      apply list_elem_of_singleton in Hg as ->. simpl in Hx.
      split_and!; [lia|lia|lia|apply Hlow; lia].
    + intros (Hx & Hne & Hnin). destruct (decide (x < p)).
      * left. exists (first, p - 1). split; [by apply list_elem_of_singleton|simpl; lia].
      * right. split; [lia|done].
    + intros [(g & Hg%not_elem_of_nil & _)|Hx]; [done|]. intuition lia.
    + intros (Hx & Hne & Hnin). right. split; [lia|done].
Qed.

(** Consecutive gaps are separated, so no descriptor is closed twice. *)
Definition gap_before (a b : Z * Z) : Prop := a.2 < b.1.

Lemma gaps_sorted first last ps :
  strictly_sorted ps -> Forall (fun p => first <= p <= last) ps ->
  StronglySorted gap_before (gaps first last ps) /\
  Forall (fun g => first <= g.1 <= g.2 /\ g.2 <= last) (gaps first last ps).
Proof.
  intros Hs Hr. revert first Hr. induction Hs as [|p ps Hs IH Hp]; intros first Hr; simpl.
  - destruct (Z.leb_spec first last); [|by repeat constructor]. repeat constructor; simpl; lia.
  - apply Forall_cons_iff in Hr as [Hpr Hr].
    assert (StronglySorted gap_before (if p =? last then [] else gaps (p + 1) last ps) /\
      Forall (fun g => p + 1 <= g.1 <= g.2 /\ g.2 <= last)
        (if p =? last then [] else gaps (p + 1) last ps)) as [Hs' Hf'].
    { destruct (Z.eqb_spec p last); [by repeat constructor|]. apply IH.
      apply Forall_elem. intros q Hq. pose proof (Forall_elem_1 _ _ _ Hp Hq); simpl in *.
      pose proof (Forall_elem_1 _ _ _ Hr Hq); simpl in *. lia. }
    destruct (Z.ltb_spec first p); simpl.
    + split; constructor; try done.
      * eapply Forall_impl; [done|]. unfold gap_before. simpl. intros g Hg. lia.
      * simpl. lia.
      * eapply Forall_impl; [done|]. simpl. intros g Hg. lia.
    + split; [done|]. eapply Forall_impl; [done|]. simpl. intros g Hg. lia.
Qed.

(** ** The descriptor array *)

(** The cursor holds the descriptors [ps]. *)
Definition holds_fds (c : CloseRangeReplayCursor) (ps : list Z) : Prop :=
  exists rest, protected_fds c = ps ++ rest /\
    length (ps ++ rest) = kCloseRangeReplayProtectedCapacity /\
    protected_count c = Z.of_nat (length ps).

Lemma holds_fds_lt c ps :
  holds_fds c ps -> (length ps < kCloseRangeReplayProtectedCapacity)%nat ->
  (protected_count c =? Z.of_nat kCloseRangeReplayProtectedCapacity) = false /\
  protected_count c = Z.of_nat (length ps).
Proof. intros (rest & _ & _ & ->) H. split; [lia|done]. Qed.

Lemma InsertSortedUnique_spec fd c ps :
  holds_fds c ps -> (length ps < kCloseRangeReplayProtectedCapacity)%nat ->
  exists fds, InsertSortedUnique fd c
      = set_protected (Z.of_nat (length (sinsert fd ps))) fds c /\
    holds_fds (InsertSortedUnique fd c) (sinsert fd ps).
Proof.
  intros (rest & Hf & Hl & Hc) Hlt. unfold kCloseRangeReplayProtectedCapacity in *.
  rewrite length_app in Hl. destruct rest as [|x rest]; simpl in Hl; [lia|].
  unfold InsertSortedUnique. rewrite Hc, Hf, Nat2Z.id.
  pose proof (sorted_array_insert (fun p => p) (fun p => p) ps rest x fd ltac:(done)) as Hins.
  rewrite list_fmap_id in Hins. destruct Hins as [[-> Hs]|(-> & Hs & Hlen)]; rewrite ?Hs.
  - exists (protected_fds c). split; [rewrite <- Hc; by destruct c|].
    exists (x :: rest). rewrite length_app. by split_and!.
  - rewrite list_fmap_id. rewrite u32_small by lia.
    replace (Z.of_nat (length ps) + 1) with (Z.of_nat (length (sinsert fd ps))) by lia.
    eexists. split; [done|]. exists rest. split; [done|].
    rewrite length_app. unfold kCloseRangeReplayProtectedCapacity. split; [lia|done].
Qed.

(** ** The cursor invariant *)

Definition known_flags (flags : Z) : Prop := flags &&& not32 kCloseRangeReplayKnownFlags = 0.
Definition int32 (x : Z) : Prop := - 2 ^ 31 <= x < 2 ^ 31.

(** What [Prepare] fixes for the whole replay: the request and the sorted
    descriptors [ps] in its range. *)
Record replays (c : CloseRangeReplayCursor) (ps : list Z) : Prop := {
  rp_magic : magic c = kCloseRangeReplayMagic;
  rp_version : version c = kCloseRangeReplayVersion;
  rp_range : 0 <= original_first c <= original_last c /\ original_last c < 2 ^ 32;
  rp_flags : known_flags (original_flags c);
  rp_fds : holds_fds c ps;
  rp_nonempty : ps <> [];
  rp_sorted : strictly_sorted ps;
  rp_in : Forall (fun p => int32 p /\ original_first c <= p <= original_last c /\ 0 <= p) ps;
}.

Definition unshare_of (c : CloseRangeReplayCursor) : Z :=
  if has (original_flags c) kCloseRangeReplayUnshare then 1 else 0.
Definition cloexec_of (c : CloseRangeReplayCursor) : Z := original_flags c &&& kCloseRangeReplayCloexec.

(** The segments still to come, without their sequence numbers. *)
Definition sentinel (c : CloseRangeReplayCursor) : Z * Z * Z :=
  (UINT32_MAX, UINT32_MAX, cloexec_of c ||| kCloseRangeReplayUnshare).
Definition plain (c : CloseRangeReplayCursor) (g : Z * Z) : Z * Z * Z := (g, cloexec_of c).

(** The phases of a replay; the last argument is what is still pending. *)
Inductive phase (c : CloseRangeReplayCursor) (ps : list Z) : list (Z * Z * Z) -> Prop :=
| phase_start :
    active c = 1 -> complete c = 0 -> protected_index c = 0 -> next_first c = original_first c ->
    segment_count c = 0 -> unshare_pending c = 1 -> unshare_of c = 1 ->
    phase c ps (sentinel c :: (plain c <$> gaps (original_first c) (original_last c) ps))
| phase_first :
    active c = 1 -> complete c = 0 -> protected_index c = 0 -> next_first c = original_first c ->
    segment_count c = unshare_of c -> unshare_pending c = 0 ->
    phase c ps (plain c <$> gaps (original_first c) (original_last c) ps)
| phase_middle done_ p rem :
    active c = 1 -> complete c = 0 -> ps = done_ ++ p :: rem ->
    protected_index c = Z.of_nat (length done_) -> next_first c = p ->
    1 <= segment_count c <= unshare_of c + Z.of_nat (length done_) + 1 ->
    unshare_of c < segment_count c -> unshare_pending c = 0 ->
    phase c ps (plain c <$> gaps p (original_last c) (p :: rem))
| phase_done :
    active c = 0 -> complete c = 1 -> protected_index c = protected_count c ->
    unshare_pending c = 0 ->
    0 <= segment_count c <= unshare_of c + Z.of_nat (length ps) + 1 ->
    phase c ps [].

Lemma int32_u32 p : int32 p -> 0 <= p -> u32 p = p.
Proof. unfold int32. intros. apply u32_small. lia. Qed.

Section Replay.
Context (c : CloseRangeReplayCursor) (ps : list Z) (Hc : replays c ps).

Lemma unshare_of_01 : unshare_of c = 0 \/ unshare_of c = 1.
Proof. unfold unshare_of. destruct (has _ _); auto. Qed.

Lemma holds_length : (1 <= length ps <= 256)%nat /\ protected_count c = Z.of_nat (length ps).
Proof.
  destruct (rp_fds _ _ Hc) as (rest & _ & Hl & Hn).
  rewrite length_app in Hl. unfold kCloseRangeReplayProtectedCapacity in Hl.
  pose proof (rp_nonempty _ _ Hc). destruct ps; simpl in *; [done|lia].
Qed.

Lemma fd_at_lookup k p : ps !! k = Some p -> protected_fds c !!! k = p.
Proof.
  intros Hk. destruct (rp_fds _ _ Hc) as (rest & -> & _ & _).
  apply list_lookup_total_correct. by apply lookup_app_l_Some.
Qed.

Lemma fd_in_range k p : ps !! k = Some p ->
  u32 p = p /\ original_first c <= p <= original_last c /\ 0 <= p.
Proof.
  intros Hk. apply list_elem_of_lookup_2 in Hk.
  destruct (Forall_elem_1 _ _ _ (rp_in _ _ Hc) Hk) as (Hi & Hr & H0).
  split; [|auto]. by apply int32_u32.
Qed.

Lemma sorted_lookup k p q : ps !! k = Some p -> ps !! S k = Some q -> p < q.
Proof.
  intros Hp Hq. pose proof (rp_sorted _ _ Hc) as Hs. unfold strictly_sorted in Hs.
  clear Hc. revert k Hp Hq. induction Hs as [|x l Hs IH Hx]; intros k Hp Hq; [done|].
  destruct k as [|k]; simpl in *; [|by apply (IH k)].
  simplify_eq. apply list_elem_of_lookup_2 in Hq. by apply (Forall_elem_1 _ _ _ Hx).
Qed.

(** The check of the array in [IsCloseRangeReplayCursorValid]. *)
Lemma protected_all_ok :
  forallb (protected_ok c) (seq 0 (Z.to_nat (protected_count c))) = true.
Proof.
  destruct holds_length as [_ ->]. rewrite Nat2Z.id. apply forallb_forall.
  intros k Hk. apply in_seq in Hk. destruct (lookup_lt_is_Some_2 ps k) as [p Hp]; [lia|].
  unfold protected_ok. rewrite (fd_at_lookup _ _ Hp).
  destruct (fd_in_range _ _ Hp) as (Hu & Hr & H0). unfold FdInRange. rewrite Hu.
  destruct k as [|k]; [simpl; lia|]. replace (S k - 1)%nat with k by lia.
  destruct (lookup_lt_is_Some_2 ps k) as [q Hq]; [lia|].
  rewrite (fd_at_lookup _ _ Hq). pose proof (sorted_lookup _ _ _ Hq Hp). simpl. lia.
Qed.

Lemma done_below done_ p rem k q :
  ps = done_ ++ p :: rem -> done_ !! k = Some q -> q < p.
Proof.
  intros -> Hq. pose proof (rp_sorted _ _ Hc) as Hs. unfold strictly_sorted in Hs.
  apply list_elem_of_lookup_2 in Hq. clear Hc.
  induction done_ as [|d done_ IH]; [by apply not_elem_of_nil in Hq|].
  simpl in Hs. inversion Hs as [|? ? Hs' Hd]; subst.
  apply elem_of_cons in Hq as [->|Hq]; [|by apply IH].
  apply (Forall_elem_1 _ _ _ Hd). rewrite elem_of_app, elem_of_cons. auto.
Qed.


Ltac decide_if :=
  match goal with |- (if ?b then _ else _) = true =>
    first [ assert (b = false) as -> by lia | assert (b = true) as -> by lia ] end.

Lemma phase_valid pending : phase c ps pending -> IsCloseRangeReplayCursorValid c = true.
Proof.
  intros Hph. destruct holds_length as [Hn Hcount]. pose proof unshare_of_01 as Hu.
  pose proof (rp_range _ _ Hc) as Hr. pose proof (rp_flags _ _ Hc) as Hfl.
  unfold known_flags in Hfl. pose proof protected_all_ok as Hall.
  unfold IsCloseRangeReplayCursorValid. fold (unshare_of c).
  rewrite (rp_magic _ _ Hc), (rp_version _ _ Hc), Hfl, Hall. cbn [negb].
  rewrite (u32_small (protected_count c + 2)) by lia.
  unfold kCloseRangeReplayProtectedCapacity.
  assert (exists p0, ps !! 0%nat = Some p0) as [p0 Hp0].
  { apply lookup_lt_is_Some_2. lia. }
  destruct (fd_in_range _ _ Hp0) as (Hu0 & Hr0 & _).
  destruct Hph as [Ha Hcm Hi Hf Hs Hp Huq|Ha Hcm Hi Hf Hs Hp|
    done_ p rem Ha Hcm Hps Hi Hf Hs Hs' Hp|Ha Hcm Hi Hp Hs]; rewrite Ha, Hcm, Hi, Hp.
  - change (u32 (1 + 0)) with 1. rewrite Hs, Hf. repeat decide_if.
    unfold fd_at. change (Z.to_nat 0) with 0%nat. rewrite (fd_at_lookup 0 _ Hp0), Hu0.
    cbn [seq forallb negb]. repeat decide_if. lia.
  - change (u32 (1 + 0)) with 1. rewrite Hs, Hf. repeat decide_if.
    unfold fd_at. change (Z.to_nat 0) with 0%nat. rewrite (fd_at_lookup 0 _ Hp0), Hu0.
    cbn [seq forallb negb]. repeat decide_if.
    destruct (Z.eqb_spec (unshare_of c) 0); [lia|]. cbn [negb andb]. repeat decide_if. lia.
  - change (u32 (1 + 0)) with 1. rewrite Hf.
    assert (ps !! length done_ = Some p) as Hlk
      by (rewrite Hps, lookup_app_r, Nat.sub_diag by lia; done).
    destruct (fd_in_range _ _ Hlk) as (Hup & Hrp & _).
    assert (length ps = (length done_ + S (length rem))%nat) as Hlen
      by (rewrite Hps, length_app; done).
    repeat decide_if. unfold fd_at. rewrite Nat2Z.id, (fd_at_lookup _ _ Hlk), Hup.
    match goal with |- (if negb (forallb ?f ?l) then _ else _) = true =>
      assert (forallb f l = true) as -> end; [|cbn [negb]; repeat decide_if; lia].
    apply forallb_forall. intros k Hk. apply in_seq in Hk.
    destruct (lookup_lt_is_Some_2 done_ k) as [q Hq]; [lia|].
    assert (ps !! k = Some q) as Hq' by (rewrite Hps; by apply lookup_app_l_Some).
    destruct (fd_in_range _ _ Hq') as (Huq & _ & _). rewrite (fd_at_lookup _ _ Hq'), Huq.
    pose proof (done_below _ _ _ _ _ Hps Hq). lia.
  - change (u32 (0 + 1)) with 1. repeat decide_if. lia.
Qed.
End Replay.

(** ** One call of [Next] *)

Lemma replays_progress a b n i s u c ps :
  replays c ps -> replays (set_progress a b n i s u c) ps.
Proof. by intros []. Qed.

Lemma skip_below_id n c index :
  (index < protected_count c -> next_first c <= u32 (fd_at c index)) ->
  skip_below n c index = index.
Proof.
  intros H. destruct n; [done|]. simpl.
  destruct (Z.ltb_spec index (protected_count c)); [|done].
  destruct (Z.ltb_spec (u32 (fd_at c index)) (next_first c)); [lia|done].
Qed.

Definition segment (t : Z * Z * Z) (sequence : Z) : CloseRangeReplaySegment :=
  {| seg_first := t.1.1; seg_last := t.1.2; seg_flags := t.2; seg_sequence := sequence |}.

(** What one call does: the head of the pending segments, if any. *)
Definition next_outcome (c : CloseRangeReplayCursor) (ps : list Z) (pending : list (Z * Z * Z))
    (c' : CloseRangeReplayCursor) (o : option CloseRangeReplaySegment) : Prop :=
  (exists a b n i s u, c' = set_progress a b n i s u c) /\
  match pending with
  | [] => o = None /\ phase c' ps [] /\ complete c' = 1
  | t :: rest => o = Some (segment t (segment_count c + 1)) /\ phase c' ps rest /\
                 segment_count c' = segment_count c + 1
  end.

(** Room for one more segment while [rem] is left and the next range starts at
    [f]. *)
Definition budget (f : Z) (rem : list Z) : Z :=
  match rem with p :: _ => if p =? f then 0 else 1 | [] => 1 end.

Lemma next_loop_spec fuel c ps done_ rem :
  replays c ps -> ps = done_ ++ rem -> protected_index c = Z.of_nat (length done_) ->
  active c = 1 -> complete c = 0 -> unshare_pending c = 0 ->
  original_first c <= next_first c <= original_last c ->
  Forall (fun p => next_first c <= p) rem ->
  unshare_of c <= segment_count c ->
  segment_count c + budget (next_first c) rem <= unshare_of c + Z.of_nat (length done_) + 1 ->
  (length rem < fuel)%nat ->
  exists c' o, next_loop fuel c = Some (c', o) /\
    next_outcome c ps (plain c <$> gaps (next_first c) (original_last c) rem) c' o.
Proof.
  revert c done_ rem. induction fuel as [|fuel IH]; intros c done_ rem Hc Hps Hi Ha Hcm Hun Hf Hrem Hlow Hs Hfuel;
    [lia|].
  destruct (holds_length c ps Hc) as [Hn Hcount]. pose proof (unshare_of_01 c) as Hu.
  pose proof (rp_range _ _ Hc) as Hr.
  assert (length ps = length done_ + length rem)%nat as Hlen by (by rewrite Hps, length_app).
  assert (forall p rem', rem = p :: rem' -> ps !! length done_ = Some p) as Hlk.
  { intros p rem' ->. by rewrite Hps, lookup_app_r, Nat.sub_diag by lia. }
  cbn [next_loop]. rewrite skip_below_id, Hi.
  2: { intros Hlt. destruct rem as [|p rem']; [simpl in *; lia|].
    specialize (Hlk _ _ eq_refl). unfold fd_at. rewrite Hi, Nat2Z.id, (fd_at_lookup _ _ Hc _ _ Hlk).
    destruct (fd_in_range _ _ Hc _ _ Hlk) as (-> & _). by apply Forall_cons_1 in Hrem as [? _]. }
  destruct rem as [|p rem']; simpl length in *.
  - rewrite (proj2 (Z.ltb_ge _ _)), (proj2 (Z.leb_le _ _)) by lia.
    do 2 eexists. split; [done|]. split; [by repeat eexists|]. simpl. cbn [budget] in Hs.
    rewrite (proj2 (Z.leb_le _ _)) by lia. simpl. rewrite u32_small by lia.
    split_and!; try done. apply phase_done; try done. simpl. unfold unshare_of in *. simpl. lia.
  - rewrite (proj2 (Z.ltb_lt _ _)) by lia. specialize (Hlk _ _ eq_refl).
    unfold fd_at. rewrite Nat2Z.id, (fd_at_lookup _ _ Hc _ _ Hlk).
    destruct (fd_in_range _ _ Hc _ _ Hlk) as (-> & Hpr & _).
    apply Forall_cons_1 in Hrem as [Hfp Hrem]. simpl. cbn [budget] in Hs.
    destruct (Z.ltb_spec (next_first c) p) as [Hlt|Hge].
    + do 2 eexists. split; [done|]. split; [by repeat eexists|]. cbn [app fmap list_fmap].
      destruct (Z.eqb_spec p (next_first c)); [lia|].
      simpl. rewrite !u32_small by lia. split_and!; try done.
      rewrite <- gaps_at. refine (phase_middle _ ps done_ p rem' _ _ _ _ _ _ _ _); try done; simpl;
        unfold unshare_of in *; simpl; lia.
    + assert (p = next_first c) as Hpf by lia. rewrite Hpf in *. rewrite Z.eqb_refl in Hs.
      cbn [app]. rewrite (proj2 (Z.eqb_neq _ UINT32_MAX)) by
        (unfold UINT32_MAX; destruct (fd_in_range _ _ Hc _ _ Hlk);
         pose proof (Forall_elem_1 _ _ _ (rp_in _ _ Hc) (list_elem_of_lookup_2 _ _ _ Hlk)) as [Hi32 _];
         unfold int32 in Hi32; lia).
      cbn [orb]. destruct (Z.eqb_spec (next_first c) (original_last c)) as [Hl|Hl].
      * do 2 eexists. split; [done|]. split; [by repeat eexists|]. simpl. split; [done|].
        split; [|done]. apply phase_done; try done. simpl. unfold unshare_of in *. simpl. lia.
      * rewrite u32_small by lia.
        set (c1 := set_progress _ _ _ _ _ _ c).
        destruct (IH c1 (done_ ++ [p]) rem') as (c' & o & Hn' & (a & b & n & j & s & u & ->) & Ho);
          try done; simpl.
        -- by apply replays_progress.
        -- rewrite <- app_assoc. rewrite Hpf. exact Hps.
        -- rewrite length_app. simpl. lia.
        -- lia.
        -- apply Forall_elem. intros q Hq.
           apply list_elem_of_lookup_1 in Hq as [k Hq].
           pose proof (rp_sorted _ _ Hc) as Hsort. rewrite Hps in Hsort.
           apply StronglySorted_app_1_r in Hsort.
           inversion Hsort as [|? ? _ Hall]; subst.
           pose proof (Forall_elem_1 _ _ _ Hall (list_elem_of_lookup_2 _ _ _ Hq)). simpl in *. lia.
        -- change (unshare_of c1) with (unshare_of c). rewrite length_app. simpl.
           unfold budget. destruct rem' as [|q ?]; [lia|]. destruct (_ =? _); lia.
        -- lia.
        -- exists (set_progress a b n j s u c1), o. split; [done|]. split; [by repeat eexists|done].
Qed.

Lemma Next_spec c ps pending :
  replays c ps -> phase c ps pending ->
  exists c' o, NextCloseRangeReplaySegment c = Some (0, c', o) /\ next_outcome c ps pending c' o.
Proof.
  intros Hc Hph. unfold NextCloseRangeReplaySegment. rewrite (phase_valid c ps Hc pending Hph).
  destruct (holds_length c ps Hc) as [Hn Hcount]. pose proof (unshare_of_01 c) as Hu.
  pose proof (rp_range _ _ Hc) as Hr.
  destruct Hph as [Ha Hcm Hi Hf Hs Hp Huq|Ha Hcm Hi Hf Hs Hp|
      done_ p rem Ha Hcm Hps Hi Hf Hs Hs' Hp|Ha Hcm Hi Hp Hs];
    rewrite Hcm, ?Hp; cbn [negb Z.eqb].
  - do 2 eexists. split; [done|]. split; [by repeat eexists|]. rewrite Hs, Ha.
    split_and!; try done. apply (phase_first (set_progress _ _ _ _ _ _ c)); try done.
  - destruct (next_loop_spec (S (Z.to_nat (protected_count c))) c ps [] ps) as (c' & o & Hl & Ho);
      try done; try (rewrite ?Hf; simpl; lia).
    + rewrite Hf. eapply Forall_impl; [apply (rp_in _ _ Hc)|]. simpl. lia.
    + unfold budget. destruct ps; [|destruct (_ =? _)]; simpl in *; lia.
    + rewrite Hl. rewrite Hf in Ho. by exists c', o.
  - assert (ps !! length done_ = Some p) as Hlk
      by (rewrite Hps, lookup_app_r, Nat.sub_diag by lia; done).
    destruct (fd_in_range _ _ Hc _ _ Hlk) as (_ & Hpr & _).
    destruct (next_loop_spec (S (Z.to_nat (protected_count c))) c ps done_ (p :: rem))
      as (c' & o & Hl & Ho); try done; try lia.
    + constructor; [lia|]. pose proof (rp_sorted _ _ Hc) as Hsort. rewrite Hps in Hsort.
      apply StronglySorted_app_1_r in Hsort. inversion Hsort as [|? ? _ Hall]; subst.
      eapply Forall_impl; [done|]. simpl. lia.
    + cbn [budget]. rewrite Hf, Z.eqb_refl. lia.
    + assert (length ps = length done_ + S (length rem))%nat by (by rewrite Hps, length_app).
      simpl. lia.
    + rewrite Hl. rewrite Hf in Ho. by exists c', o.
  - do 2 eexists. split; [done|]. split; [|split; [done|by split; [apply phase_done|]]].
    exists (active c), (complete c), (next_first c), (protected_index c), (segment_count c),
      (unshare_pending c). by destruct c.
Qed.

(** The whole replay. *)
Fixpoint number (sequence : Z) (pending : list (Z * Z * Z)) : list CloseRangeReplaySegment :=
  match pending with
  | [] => []
  | t :: pending => segment t (sequence + 1) :: number (sequence + 1) pending
  end.

Lemma replay_spec calls c ps pending :
  replays c ps -> phase c ps pending -> (length pending < calls)%nat ->
  exists c', replay calls c = Some (number (segment_count c) pending, c') /\ complete c' = 1 /\
             replays c' ps.
Proof.
  revert c pending. induction calls as [|calls IH]; intros c pending Hc Hph Hl; [lia|].
  destruct (Next_spec c ps pending Hc Hph) as (c' & o & Hn & (a & b & n & i & s & u & Hc') & Ho).
  simpl. rewrite Hn. simpl. assert (replays c' ps) as Hr by (subst c'; by apply replays_progress).
  destruct pending as [|t pending]; destruct Ho as [-> Ho];
    [destruct Ho; by eexists|].
  destruct Ho as [Hph' Hs]. destruct (IH c' pending Hr Hph') as (c'' & Hrep & Hd & Hr').
  { simpl in Hl. lia. }
  rewrite Hrep. simpl. rewrite Hs. by exists c''.
Qed.

(** ** The result of [Prepare] *)

Definition in_close_range (first last fd : Z) : Prop := first <= fd <= last.

Record close_range_args (first last flags : Z) (fds : list Z) : Prop := {
  ca_range : 0 <= first <= last /\ last < 2 ^ 32;
  ca_flags : known_flags flags;
  ca_fds : Forall int32 fds;
  ca_count : (length fds <= kCloseRangeReplayProtectedCapacity)%nat;
}.

Definition prepared (first last flags : Z) : CloseRangeReplayCursor :=
  {| magic := kCloseRangeReplayMagic; version := kCloseRangeReplayVersion;
     active := 0; complete := 0; original_first := first; original_last := last;
     original_flags := flags; next_first := first; protected_count := 0;
     protected_index := 0; segment_count := 0;
     unshare_pending := if has flags kCloseRangeReplayUnshare then 1 else 0;
     protected_fds := replicate kCloseRangeReplayProtectedCapacity 0 |}.

(** The descriptors registered by the loop. *)
Lemma register_fds_spec first last flags fds n arr ps :
  Forall int32 fds -> 0 <= first ->
  let c := set_protected n arr (prepared first last flags) in
  holds_fds c ps -> (length ps + length fds <= kCloseRangeReplayProtectedCapacity)%nat ->
  strictly_sorted ps ->
  exists n' arr' ps',
    register_fds fds c = inr (set_protected n' arr' (prepared first last flags)) /\
    holds_fds (set_protected n' arr' (prepared first last flags)) ps' /\ strictly_sorted ps' /\
    (forall x, x ∈ ps' <-> x ∈ ps \/ (x ∈ fds /\ 0 <= x /\ first <= x <= last)).
Proof.
  intros Hi Hfirst. revert n arr ps. induction Hi as [|fd fds Hfd Hi IH]; intros n arr ps; cbv zeta;
    intros Hh Hl Hs.
  - exists n, arr, ps. split_and!; try done. intros x.
    split; [by left|]. by intros [?|[?%not_elem_of_nil _]].
  - simpl in Hl. cbn [register_fds]. simpl original_first. simpl original_last.
    unfold FdInRange. destruct ((0 <=? fd) && (first <=? u32 fd) && (u32 fd <=? last)) eqn:Hin.
    + bool_hyps. assert (0 <= fd) as Hfd0 by lia. rewrite int32_u32 in * by done. cbn [negb].
      destruct (holds_fds_lt _ _ Hh) as [Hcount _]; [lia|]. rewrite Hcount.
      destruct (InsertSortedUnique_spec fd _ ps Hh) as (arr' & He & Hh'); [lia|].
      rewrite He in Hh' |- *.
      pose proof (sinsert_length fd ps).
      destruct (IH (Z.of_nat (length (sinsert fd ps))) arr' (sinsert fd ps)) as
        (n' & arr'' & ps' & Hr & Hh'' & Hs' & Hel); [done|lia|by apply sinsert_sorted|].
      exists n', arr'', ps'. split_and!; try done. intros x.
      rewrite Hel, sinsert_elem, elem_of_cons. split; [|intuition].
      intros [[->|?]|?]; [right; split_and!; auto; lia|auto|intuition].
    + cbn [negb]. destruct (IH n arr ps Hh ltac:(lia) Hs) as
        (n' & arr'' & ps' & Hr & Hh'' & Hs' & Hel).
      exists n', arr'', ps'. split_and!; try done. intros x. rewrite Hel, elem_of_cons.
      split; [intuition|]. intros [?|([->|?] & H0 & Hx)]; [by left| |intuition].
      exfalso. rewrite int32_u32 in Hin by done. lia.
Qed.

(** The two outcomes of [Prepare] on well-formed arguments. *)
Definition passthrough_outcome (first last : Z) (fds : list Z) (c : CloseRangeReplayCursor)
    (d : CloseRangeReplayDisposition) : Prop :=
  d = kPassthrough /\ complete c = 1 /\ active c = 0 /\
  forall x, x ∈ fds -> 0 <= x -> ~ first <= x <= last.

Definition replay_outcome (first last flags : Z) (fds : list Z) (c : CloseRangeReplayCursor)
    (d : CloseRangeReplayDisposition) : Prop :=
  d = kReplay /\
  original_first c = first /\ original_last c = last /\ original_flags c = flags /\
  segment_count c = 0 /\
  exists ps, replays c ps /\
    (forall x, x ∈ ps <-> x ∈ fds /\ 0 <= x /\ first <= x <= last) /\
    phase c ps ((if has flags kCloseRangeReplayUnshare then [sentinel c] else [])
                ++ (plain c <$> gaps first last ps)).

Lemma Prepare_spec first last flags fds c0 d0 :
  close_range_args first last flags fds ->
  exists c d,
    PrepareCloseRangeReplay first last flags (Some fds) (Z.of_nat (length fds)) c0 d0 = (0, c, d) /\
    (passthrough_outcome first last fds c d \/ replay_outcome first last flags fds c d).
Proof.
  intros [Hr Hf Hi Hl]. unfold PrepareCloseRangeReplay.
  rewrite (proj2 (Z.ltb_ge _ _)) by lia. unfold known_flags in Hf. rewrite Hf.
  rewrite andb_false_r. cbn [orb negb Z.eqb].
  rewrite (proj2 (Z.ltb_ge _ _)) by lia. fold (prepared first last flags).
  rewrite Nat2Z.id. simpl default. rewrite firstn_all.
  destruct (register_fds_spec first last flags fds 0 (replicate kCloseRangeReplayProtectedCapacity 0)
    [] Hi ltac:(lia)) as (n & arr & ps & Hreg & Hh & Hs & Hel).
  { exists (replicate kCloseRangeReplayProtectedCapacity 0). done. }
  { done. }
  { constructor. }
  change (set_protected 0 _ (prepared first last flags)) with (prepared first last flags) in Hreg.
  rewrite Hreg. simpl. destruct Hh as (rest & Ha & Hlen & Hn). simpl in Ha, Hn.
  assert (forall x, x ∈ ps <-> x ∈ fds /\ 0 <= x /\ first <= x <= last) as Hps.
  { intros x. rewrite Hel. split; [|by right]. by intros [?%not_elem_of_nil|?]. }
  destruct (Z.eqb_spec n 0) as [H0|H0].
  - do 2 eexists. split; [done|]. left. split_and!; try done. intros x Hx Hx0 Hin.
    assert (x ∈ ps) as Hp by (by apply Hps). destruct ps; [by apply not_elem_of_nil in Hp|].
    simpl in Hn. lia.
  - do 2 eexists. split; [done|]. right. split_and!; try done. exists ps. split_and!; try done.
    + split; try done.
      * exists rest. done.
      * intros ->. simpl in Hn. lia.
      * apply Forall_elem. intros x Hx%Hps. simpl. destruct Hx as (Hx & ? & ?).
        split; [by apply (Forall_elem_1 _ _ _ Hi)|]. lia.
    + destruct (has flags kCloseRangeReplayUnshare) eqn:Hu.
      * match goal with |- phase ?c _ _ => refine (phase_start c ps _ _ _ _ _ _ _) end; try done.
        unfold unshare_of. simpl. by rewrite Hu.
      * match goal with |- phase ?c _ _ => refine (phase_first c ps _ _ _ _ _ _) end; try done.
        unfold unshare_of. simpl. by rewrite Hu.
Qed.

Lemma number_app s a b :
  number s (a ++ b) = number s a ++ number (s + Z.of_nat (length a)) b.
Proof.
  revert s. induction a as [|t a IH]; intros s; simpl; [by rewrite Z.add_0_r|].
  rewrite IH. do 3 f_equal. lia.
Qed.

Lemma number_elem s pending x :
  x ∈ number s pending -> exists t q, t ∈ pending /\ x = segment t q.
Proof.
  revert s. induction pending as [|t pending IH]; intros s; simpl; [by intros ?%not_elem_of_nil|].
  intros [->|Hx]%elem_of_cons; [exists t, (s + 1); by rewrite elem_of_cons; auto|].
  destruct (IH _ Hx) as (u & q & Hu & ->). exists u, q. rewrite elem_of_cons. auto.
Qed.

Lemma number_elem_2 s pending t :
  t ∈ pending -> exists q, segment t q ∈ number s pending.
Proof.
  intros Ht. apply list_elem_of_lookup_1 in Ht as [k Hk]. revert s k Hk.
  induction pending as [|u pending IH]; intros s k Hk; [done|]. destruct k as [|k]; simpl in *.
  - simplify_eq. eexists. apply elem_of_cons. by left.
  - destruct (IH (s + 1) k Hk) as [q Hq]. exists q. apply elem_of_cons. by right.
Qed.

Lemma number_sequence s pending k x :
  number s pending !! k = Some x -> seg_sequence x = s + Z.of_nat k + 1.
Proof.
  revert s k. induction pending as [|t pending IH]; intros s k Hk; [done|].
  destruct k as [|k]; simpl in Hk; [simplify_eq; simpl; lia|]. rewrite (IH _ _ Hk). lia.
Qed.

Lemma number_sorted {s} {P : Z * Z -> Z * Z -> Prop} {f : Z * Z -> Z * Z * Z} gs :
  (forall g, (f g).1 = g) -> StronglySorted P gs ->
  StronglySorted (fun a b => P (seg_first a, seg_last a) (seg_first b, seg_last b))
    (number s (f <$> gs)).
Proof.
  intros Hf Hs. revert s. induction Hs as [|g gs Hs IH Hg]; intros s; simpl; constructor; auto.
  apply Forall_elem. intros x Hx. apply number_elem in Hx as (t & q & Ht & ->). simpl.
  apply list_elem_of_fmap in Ht as (h & -> & Hh). rewrite !Hf.
  rewrite <- !surjective_pairing. by apply (Forall_elem_1 _ _ _ Hg).
Qed.

Lemma gaps_length first last ps : (length (gaps first last ps) <= S (length ps))%nat.
Proof.
  revert first. induction ps as [|p ps IH]; intros first; simpl.
  { destruct (_ <=? _); simpl; lia. }
  rewrite length_app. specialize (IH (p + 1)). split_ifs; simpl; lia.
Qed.

(** ** Properties *)

(** The segments that close something: all but the UNSHARE sentinel. *)
Definition body (flags : Z) (segs : list CloseRangeReplaySegment) : list CloseRangeReplaySegment :=
  if has flags kCloseRangeReplayUnshare then tl segs else segs.

Lemma body_number flags t pending :
  body flags (number 0 ((if has flags kCloseRangeReplayUnshare then [t] else []) ++ pending))
    = number (if has flags kCloseRangeReplayUnshare then 1 else 0) pending.
Proof. unfold body. by destruct (has _ _). Qed.

(** A replay from the cursor [Prepare] filled. *)
Definition replay_run (first last flags : Z) (fds : list Z) c0 d0
    : option (list CloseRangeReplaySegment * CloseRangeReplayCursor) :=
  match PrepareCloseRangeReplay first last flags (Some fds) (Z.of_nat (length fds)) c0 d0 with
  | (0, c, kReplay) => replay (length fds + 3) c
  | _ => None
  end.

Lemma replay_run_spec first last flags fds c0 d0 :
  close_range_args first last flags fds -> (exists x, x ∈ fds /\ 0 <= x /\ first <= x <= last) ->
  exists c ps c', replay_run first last flags fds c0 d0 =
    Some (number 0 ((if has flags kCloseRangeReplayUnshare then [sentinel c] else [])
                ++ (plain c <$> gaps first last ps)), c') /\
    original_flags c = flags /\ strictly_sorted ps /\ complete c' = 1 /\
    (forall x, x ∈ ps <-> x ∈ fds /\ 0 <= x /\ first <= x <= last) /\
    Forall (fun p => first <= p <= last) ps.
Proof.
  intros Ha (y & Hy & Hy0 & Hyr). unfold replay_run.
  destruct (Prepare_spec first last flags fds c0 d0 Ha) as (c & d & -> & [Hp|Hp]).
  { destruct Hp as (_ & _ & _ & Hno). by destruct (Hno y Hy Hy0). }
  destruct Hp as (-> & Hof & Hol & Hofl & Hsc & ps & Hr & Hel & Hph).
  assert (length ps <= length fds)%nat as Hlen.
  { apply submseteq_length, NoDup_submseteq.
    - pose proof (rp_sorted _ _ Hr) as Hs. unfold strictly_sorted in Hs.
      clear -Hs. induction Hs as [|p ps Hs IH Hp]; constructor; [|done].
      intros Hin. pose proof (Forall_elem_1 _ _ _ Hp Hin). simpl in *. lia.
    - intros x Hx. by apply Hel in Hx as [? _]. }
  destruct (replay_spec (length fds + 3) c ps _ Hr Hph) as (c' & Hrep & Hd & Hr').
  { rewrite length_app, length_fmap. pose proof (gaps_length first last ps).
    destruct (has _ _); simpl; lia. }
  rewrite Hrep, Hsc. exists c, ps, c'. split_and!; try done.
  - apply (rp_sorted _ _ Hr).
  - eapply Forall_impl; [apply (rp_in _ _ Hr)|]. simpl. rewrite Hof, Hol. tauto.
Qed.

(** C18 (functional): when some protected descriptor is in the range, a replay
    ends after at most two more segments than there are protected descriptors,
    and its segments (the UNSHARE sentinel apart) close exactly the
    unprotected descriptors of the original range. *)
Theorem replay_covers first last flags fds c0 d0 x :
  close_range_args first last flags fds -> (exists y, y ∈ fds /\ 0 <= y /\ first <= y <= last) ->
  exists segs c', replay_run first last flags fds c0 d0 = Some (segs, c') /\ complete c' = 1 /\
    ((exists s, s ∈ body flags segs /\ seg_first s <= x <= seg_last s) <->
     (first <= x <= last /\ x ∉ fds)).
Proof.
  intros Ha Hy. pose proof (ca_range _ _ _ _ Ha) as Hrange.
  destruct (replay_run_spec first last flags fds c0 d0 Ha Hy)
    as (c & ps & c' & -> & Hfl & Hs & Hd & Hel & Hr).
  do 2 eexists. split; [done|]. split; [done|].
  rewrite body_number.
  trans (exists g, g ∈ gaps first last ps /\ g.1 <= x <= g.2).
  - split.
    + intros (s & Hin & Hx). apply number_elem in Hin as (t & q & Ht & ->).
      apply list_elem_of_fmap in Ht as (g & -> & Hg). by exists g.
    + intros (g & Hg & Hx).
      destruct (number_elem_2 (if has flags kCloseRangeReplayUnshare then 1 else 0)
        (plain c <$> gaps first last ps) (plain c g)) as [q Hq];
        [by apply list_elem_of_fmap_2|]. by exists (segment (plain c g) q).
  - rewrite gaps_spec by done. rewrite Hel. intuition lia.
Qed.

(** the segments of a replay are numbered from 1 in ascending
    order and never overlap; with UNSHARE the first is the sentinel
    [UINT32_MAX, UINT32_MAX] carrying UNSHARE, and every closing segment
    carries at most the CLOEXEC flag of the request. *)
Theorem replay_ordered first last flags fds c0 d0 :
  close_range_args first last flags fds -> (exists y, y ∈ fds /\ 0 <= y /\ first <= y <= last) ->
  exists segs c', replay_run first last flags fds c0 d0 = Some (segs, c') /\
    (forall k s, segs !! k = Some s -> seg_sequence s = Z.of_nat k + 1) /\
    (has flags kCloseRangeReplayUnshare = true -> exists s, head segs = Some s /\
       seg_first s = UINT32_MAX /\ seg_last s = UINT32_MAX /\
       seg_flags s = (flags &&& kCloseRangeReplayCloexec) ||| kCloseRangeReplayUnshare) /\
    StronglySorted (fun a b => seg_last a < seg_first b) (body flags segs) /\
    Forall (fun s => first <= seg_first s <= seg_last s /\ seg_last s <= last /\
                     seg_flags s = flags &&& kCloseRangeReplayCloexec) (body flags segs).
Proof.
  intros Ha Hy.
  destruct (replay_run_spec first last flags fds c0 d0 Ha Hy)
    as (c & ps & c' & -> & Hfl & Hs & Hd & Hel & Hr).
  destruct (gaps_sorted first last ps Hs Hr) as [Hsort Hbounds].
  do 2 eexists. split; [done|]. rewrite body_number. split_and!.
  - intros k s Hk. by apply number_sequence in Hk as ->.
  - intros ->. eexists. split; [done|]. simpl. unfold cloexec_of. by rewrite Hfl.
  - by apply (number_sorted (P := gap_before) (f := plain c)).
  - apply Forall_elem. intros s Hin. apply number_elem in Hin as (t & q & Ht & ->).
    apply list_elem_of_fmap in Ht as (g & -> & Hg).
    pose proof (Forall_elem_1 _ _ _ Hbounds Hg) as Hb. simpl in Hb |- *.
    unfold cloexec_of. rewrite Hfl. lia.
Qed.

(** [Prepare] succeeds on every well-formed request; it asks
    for a replay exactly when a protected descriptor lies in the range, and
    otherwise lets the system call pass. *)
Theorem prepare_disposition first last flags fds c0 d0 :
  close_range_args first last flags fds ->
  exists c d,
    PrepareCloseRangeReplay first last flags (Some fds) (Z.of_nat (length fds)) c0 d0 = (0, c, d) /\
    (d = kReplay <-> exists x, x ∈ fds /\ 0 <= x /\ first <= x <= last) /\
    (d = kPassthrough <-> ~ exists x, x ∈ fds /\ 0 <= x /\ first <= x <= last) /\
    (d = kReplay -> IsCloseRangeReplayCursorValid c = true).
Proof.
  intros Ha. destruct (Prepare_spec first last flags fds c0 d0 Ha) as (c & d & Hp & Hd).
  exists c, d. split; [done|].
  destruct Hd as [(-> & _ & _ & Hno)|(-> & _ & _ & _ & _ & ps & Hr & Hel & Hph)].
  - assert (~ exists x, x ∈ fds /\ 0 <= x /\ first <= x <= last) as Hnone.
    { intros (x & Hx & Hx0 & Hxr). by apply (Hno x). }
    by split_and!.
  - assert (exists x, x ∈ fds /\ 0 <= x /\ first <= x <= last) as Hex.
    { pose proof (rp_nonempty _ _ Hr). destruct ps as [|p ps]; [done|].
      exists p. apply Hel, elem_of_cons. by left. }
    split_and!; [done|by split|intros _; by apply (phase_valid c ps Hr _ Hph)].
Qed.

(** The cursors a replay goes through. *)
Inductive replay_reachable (c0 : CloseRangeReplayCursor) : CloseRangeReplayCursor -> Prop :=
| reach_start : replay_reachable c0 c0
| reach_next c err c' o :
    replay_reachable c0 c -> NextCloseRangeReplaySegment c = Some (err, c', o) ->
    replay_reachable c0 c'.

(** from a prepared cursor every sequence of calls keeps the
    cursor valid, no call fails, and the request recorded in the cursor never
    changes. *)
Theorem replay_always_valid first last flags fds c0 d0 c1 c :
  close_range_args first last flags fds ->
  PrepareCloseRangeReplay first last flags (Some fds) (Z.of_nat (length fds)) c0 d0
    = (0, c1, kReplay) ->
  replay_reachable c1 c ->
  IsCloseRangeReplayCursorValid c = true /\
  (exists c' o, NextCloseRangeReplaySegment c = Some (0, c', o)) /\
  original_first c = first /\ original_last c = last /\ original_flags c = flags.
Proof.
  intros Ha Hp Hreach.
  assert (exists ps pending, replays c ps /\ phase c ps pending /\
    original_first c = first /\ original_last c = last /\ original_flags c = flags)
    as (ps & pending & Hr & Hph & Hreq).
  { induction Hreach as [|c err c' o Hreach (ps & pending & Hr & Hph & H1 & H2 & H3) Hn].
    - destruct (Prepare_spec first last flags fds c0 d0 Ha) as (c & d & Hp' & Hd).
      rewrite Hp in Hp'. simplify_eq. destruct Hd as [(? & _)|(_ & ? & ? & ? & _ & ps & Hr & _ & Hph)];
        [done|].
        exists ps. eexists. by split_and!.
    - destruct (Next_spec c ps pending Hr Hph) as (c2 & o2 & Hn2 & (a & b & n & i & s & u & Hc2) & Ho).
      rewrite Hn in Hn2. simplify_eq. exists ps.
      destruct pending as [|t pending]; [exists []|exists pending]; (split; [by apply replays_progress|]);
        destruct Ho as [_ Ho]; by destruct Ho. }
  split; [by apply (phase_valid c ps Hr pending)|]. split; [|done].
  destruct (Next_spec c ps pending Hr Hph) as (c2 & o2 & Hn2 & _). eauto.
Qed.

(** ** A concrete request: [3, 20] with 7, 8 and 100 protected, UNSHARE *)

Definition sample_fds : list Z := [8; -1; 7; 100; 8].

Lemma sample_args : close_range_args 3 20 2 sample_fds.
Proof.
  split; [lia|reflexivity| |simpl; unfold kCloseRangeReplayProtectedCapacity; lia].
  unfold sample_fds, int32. repeat constructor; lia.
Qed.

Lemma sample_protected : exists y, y ∈ sample_fds /\ 0 <= y /\ 3 <= y <= 20.
Proof. exists 8. split; [apply elem_of_cons; by left|lia]. Qed.

Lemma replay_covers_witness :
  exists segs c', replay_run 3 20 2 sample_fds zero_cursor kInvalid = Some (segs, c') /\
    complete c' = 1 /\
    ((exists s, s ∈ body 2 segs /\ seg_first s <= 9 <= seg_last s) <->
     (3 <= 9 <= 20 /\ 9 ∉ sample_fds)).
Proof. apply (replay_covers 3 20 2 sample_fds zero_cursor kInvalid 9 sample_args sample_protected). Defined.

Lemma replay_ordered_witness :
  exists segs c', replay_run 3 20 2 sample_fds zero_cursor kInvalid = Some (segs, c') /\
    (forall k s, segs !! k = Some s -> seg_sequence s = Z.of_nat k + 1).
Proof.
  destruct (replay_ordered 3 20 2 sample_fds zero_cursor kInvalid sample_args sample_protected)
    as (segs & c' & Hr & Hs & _). exists segs, c'. split; assumption.
Defined.

Lemma prepare_disposition_witness :
  exists c d, PrepareCloseRangeReplay 3 20 2 (Some sample_fds) 5 zero_cursor kInvalid = (0, c, d) /\
    (d = kReplay <-> exists x, x ∈ sample_fds /\ 0 <= x /\ 3 <= x <= 20).
Proof.
  destruct (prepare_disposition 3 20 2 sample_fds zero_cursor kInvalid sample_args)
    as (c & d & Hp & Hd & _). exists c, d. split; assumption.
Defined.

Lemma replay_always_valid_witness :
  IsCloseRangeReplayCursorValid
    (PrepareCloseRangeReplay 3 20 2 (Some sample_fds) 5 zero_cursor kInvalid).1.2 = true.
Proof.
  apply (replay_always_valid 3 20 2 sample_fds zero_cursor kInvalid _ _ sample_args
           ltac:(vm_compute; reflexivity) (reach_start _)).
Defined.
