(* ===== verification/WaitDecoder.v ===== *)
(** * Decoding wait statuses

    Models [tracer/wait_decoder.{h,cpp}].  A status is a signed 32-bit [Z];
    [Z.land] and [Z.shiftr] on it are the C operations on two's complement. *)

From S2P Require Import Prelude Bits.

Definition SIGTRAP : Z := 5.
Definition SIGSTOP : Z := 19.
Definition SIGTSTP : Z := 20.
Definition SIGTTIN : Z := 21.
Definition SIGTTOU : Z := 22.

Definition kPtraceOptionTraceSysgood : Z := 1.
Definition kPtraceEventSeccomp : Z := 7.
Definition kPtraceEventStop : Z := 128.

Inductive StopEventKind :=
| kUnknown | kExited | kSignaled | kSyscallStop | kPtraceEvent | kGroupStop
| kSignalDelivery | kSeccompStop.

Inductive EventStopReason := kNoReason | kInterrupt | kGroupStopReason | kUnknownReason.

Inductive SignalStopHint := kUnknownHint | kSignalDeliveryHint | kGroupStopHint.

#[export] Instance SignalStopHint_eq_dec : EqDecision SignalStopHint.
Proof. solve_decision. Defined.

Record WaitDecodeOptions := { ptrace_options : Z; signal_stop_hint : SignalStopHint }.

Record StopEvent := {
  kind : StopEventKind;
  event_stop_reason : EventStopReason;
  raw_status : Z;
  signal : Z;
  exit_code : Z;
  ptrace_event : Z;
  core_dumped : Z;
  tracesysgood : Z;
}.

Definition kStoppedStatus : Z := 0x7f.
Definition kSyscallStopBit : Z := 0x80.

Definition IsStopped (status : Z) : bool := (status &&& 0xff) =? kStoppedStatus.
Definition IsExited (status : Z) : bool := (status &&& 0x7f) =? 0.
Definition IsSignaled (status : Z) : bool :=
  let signal_number := status &&& 0x7f in
  negb (signal_number =? 0) && negb (signal_number =? kStoppedStatus).
Definition StopSignal (status : Z) : Z := (status >>> 8) &&& 0xff.
Definition PtraceEventCode (status : Z) : Z := u32 status >>> 16.

Definition EmptyEvent (status : Z) (options : WaitDecodeOptions) : StopEvent :=
  {| kind := kUnknown; event_stop_reason := kNoReason; raw_status := status;
     signal := 0; exit_code := 0; ptrace_event := 0; core_dumped := 0;
     tracesysgood := if has (ptrace_options options) kPtraceOptionTraceSysgood then 1 else 0 |}.

Definition IsJobControlStopSignal (n : Z) : bool :=
  (n =? SIGSTOP) || (n =? SIGTSTP) || (n =? SIGTTIN) || (n =? SIGTTOU).

(** The assignments to [kind] and [event_stop_reason]. *)
Definition classify (k : StopEventKind) (r : EventStopReason) (e : StopEvent) : StopEvent :=
  {| kind := k; event_stop_reason := r; raw_status := raw_status e; signal := signal e;
     exit_code := exit_code e; ptrace_event := ptrace_event e; core_dumped := core_dumped e;
     tracesysgood := tracesysgood e |}.
Definition set_codes (sig code ev core : Z) (e : StopEvent) : StopEvent :=
  {| kind := kind e; event_stop_reason := event_stop_reason e; raw_status := raw_status e;
     signal := sig; exit_code := code; ptrace_event := ev; core_dumped := core;
     tracesysgood := tracesysgood e |}.

Definition DecodeWaitStatus (status : Z) (options : WaitDecodeOptions) : StopEvent :=
  let event := EmptyEvent status options in
  if IsExited status then
    classify kExited kNoReason (set_codes 0 ((status >>> 8) &&& 0xff) 0 0 event)
  else if IsSignaled status then
    classify kSignaled kNoReason
      (set_codes (status &&& 0x7f) 0 0 (if has status 0x80 then 1 else 0) event)
  else if negb (IsStopped status) then event
  else
    let event := set_codes (StopSignal status) 0 (PtraceEventCode status) 0 event in
    if (ptrace_event event =? 0) && negb (tracesysgood event =? 0)
       && (signal event =? (SIGTRAP ||| kSyscallStopBit))
    then classify kSyscallStop kNoReason event
    else if negb (ptrace_event event =? 0) then
      if ptrace_event event =? kPtraceEventSeccomp then classify kSeccompStop kNoReason event
      else if ptrace_event event =? kPtraceEventStop then
        if IsJobControlStopSignal (signal event) then classify kGroupStop kGroupStopReason event
        else if signal event =? SIGTRAP then classify kPtraceEvent kInterrupt event
        else classify kPtraceEvent kUnknownReason event
      else classify kPtraceEvent kNoReason event
    else if bool_decide (signal_stop_hint options = kGroupStopHint)
            && IsJobControlStopSignal (signal event)
    then classify kGroupStop kGroupStopReason event
    else classify kSignalDelivery kNoReason event.

(** ** The kernel's encodings of a wait status *)

(** [W_EXITCODE(code, 0)], a termination by [sig] and [W_STOPCODE(sig)] with a
    ptrace event in the upper half. *)
Definition exit_status (code : Z) : Z := code <<< 8.
Definition signal_status (sig : Z) (core : bool) : Z := sig ||| (if core then 0x80 else 0).
Definition stop_status (sig event : Z) : Z := s32 ((event <<< 16) ||| (sig <<< 8) ||| 0x7f).

Definition is_job_control (sig : Z) : Prop := sig ∈ [SIGSTOP; SIGTSTP; SIGTTIN; SIGTTOU].

Lemma IsJobControlStopSignal_spec n : IsJobControlStopSignal n = true <-> is_job_control n.
Proof.
  unfold IsJobControlStopSignal, is_job_control.
  rewrite !elem_of_cons, elem_of_nil, !orb_true_iff, !Z.eqb_eq. tauto.
Qed.

Lemma land_split x k : 0 <= k -> x &&& 0x7f = k -> x &&& 0xff = k \/ x &&& 0xff = k + 128.
Proof.
  intros Hk H. change 0x7f with (Z.ones 7) in H. change 0xff with (Z.ones 8).
  rewrite Z.land_ones in * by lia. change (2 ^ 8) with (2 ^ 7 * 2).
  rewrite Z.rem_mul_r, H by lia.
  assert (0 <= (x / 2 ^ 7) mod 2 < 2) by (apply Z.mod_pos_bound; lia). lia.
Qed.

(** The fields of a stop status. *)
Lemma stop_status_fields sig event :
  0 <= sig < 256 -> 0 <= event < 65536 ->
  stop_status sig event &&& 0xff = 0x7f /\ StopSignal (stop_status sig event) = sig /\
  PtraceEventCode (stop_status sig event) = event.
Proof.
  intros Hs He. unfold stop_status, StopSignal, PtraceEventCode, s32.
  set (w := (event <<< 16) ||| (sig <<< 8) ||| 0x7f).
  assert (0 <= event <<< 16 < 2 ^ 32) by (apply shiftl_bound with (w := 16); lia).
  assert (0 <= sig <<< 8 < 2 ^ 32) by (apply shiftl_bound with (w := 8); lia).
  assert (0 <= w < 2 ^ 32) as Hw by (apply lor_bound; try apply lor_bound; lia).
  assert (forall i, 0 <= i -> Z.testbit w i = (Z.testbit event (i - 16) || Z.testbit sig (i - 8))
    || Z.testbit 0x7f i) as Hbit.
  { intros i Hi. unfold w. by rewrite !Z.lor_spec, !Z.shiftl_spec by lia. }
  assert (as_signed 32 w mod 2 ^ 32 = w) as Hmod.
  { rewrite as_signed_mod by lia. by apply Z.mod_small. }
  assert (forall x, x mod 2 ^ 32 = w -> x &&& 0xff = w &&& 0xff /\
            (x >>> 8) &&& 0xff = (w >>> 8) &&& 0xff) as Hlow.
  { intros x Hx. change 0xff with (Z.ones 8). rewrite <- Hx.
    split; apply Z.bits_inj'; intros i Hi; rewrite !Z.land_spec, ?Z.shiftr_spec by lia;
      (destruct (Z.ltb_spec i 8); [|rewrite Z.ones_spec_high by lia; by rewrite !andb_false_r]);
      by rewrite Z.mod_pow2_bits_low by lia. }
  destruct (Hlow _ Hmod) as [-> ->].
  assert (u32 (as_signed 32 w) = w) as -> by exact Hmod.
  split_and!; apply Z.bits_inj'; intros i Hi; rewrite ?Z.land_spec, ?Z.shiftr_spec by lia.
  - rewrite Hbit by lia. destruct (Z.ltb_spec i 8).
    + rewrite (Z.testbit_neg_r event), (Z.testbit_neg_r sig) by lia. simpl.
      change 0xff with (Z.ones 8). rewrite Z.ones_spec_low by lia. apply andb_true_r.
    + change 0xff with (Z.ones 8). rewrite Z.ones_spec_high by lia.
      rewrite andb_false_r. symmetry. apply (testbit_high _ 7); lia.
  - rewrite Hbit by lia. change 0xff with (Z.ones 8). destruct (Z.ltb_spec i 8).
    + rewrite Z.ones_spec_low, (Z.testbit_neg_r event) by lia.
      rewrite (testbit_high 0x7f 7) by lia. rewrite andb_true_r, orb_false_r. simpl.
      f_equal. lia.
    + rewrite Z.ones_spec_high, andb_false_r by lia. symmetry. apply (testbit_high _ 8); lia.
  - rewrite Hbit by lia. rewrite (testbit_high sig 8), (testbit_high 0x7f 7) by lia.
    rewrite !orb_false_r. f_equal. lia.
Qed.

Lemma exit_status_fields code :
  0 <= code < 256 ->
  exit_status code &&& 0x7f = 0 /\ (exit_status code >>> 8) &&& 0xff = code.
Proof.
  intros Hc. unfold exit_status. change 0x7f with (Z.ones 7). change 0xff with (Z.ones 8).
  split.
  - rewrite Z.land_ones, Z.shiftl_mul_pow2 by lia. change (2 ^ 8) with (2 * 2 ^ 7).
    rewrite Z.mul_assoc. by apply Z.mod_mul.
  - rewrite Z.shiftr_shiftl_l by lia. rewrite Z.land_ones by lia. simpl.
    by apply Z.mod_small.
Qed.

Lemma signal_status_fields sig core :
  0 < sig < 127 ->
  signal_status sig core &&& 0x7f = sig /\ has (signal_status sig core) 0x80 = core.
Proof.
  intros Hs. unfold signal_status. split.
  - rewrite Z.land_lor_distr_l. assert ((if core then 0x80 else 0) &&& 0x7f = 0) as -> by (by destruct core).
    rewrite Z.lor_0_r. symmetry. apply (mod_pow2_land sig 7); lia.
  - change 0x80 with (2 ^ 7). rewrite has_pow2, Z.lor_spec, (testbit_high sig 7) by lia.
    by destruct core.
Qed.

(** ** Properties *)

(** The classification of a stop by its signal, event and options. *)
Definition stop_class (sig event : Z) (o : WaitDecodeOptions) : StopEventKind * EventStopReason :=
  if event =? 0 then
    if has (ptrace_options o) kPtraceOptionTraceSysgood && (sig =? SIGTRAP + 0x80)
    then (kSyscallStop, kNoReason)
    else if bool_decide (signal_stop_hint o = kGroupStopHint) && IsJobControlStopSignal sig
    then (kGroupStop, kGroupStopReason) else (kSignalDelivery, kNoReason)
  else if event =? kPtraceEventSeccomp then (kSeccompStop, kNoReason)
  else if event =? kPtraceEventStop then
    if IsJobControlStopSignal sig then (kGroupStop, kGroupStopReason)
    else if sig =? SIGTRAP then (kPtraceEvent, kInterrupt) else (kPtraceEvent, kUnknownReason)
  else (kPtraceEvent, kNoReason).

(** every stop status the kernel can build from a signal byte
    and a 16-bit ptrace event is decoded back to that signal and event, with
    the class that follows from them and the options. *)
Theorem decode_stop_roundtrip sig event o :
  0 <= sig < 256 -> 0 <= event < 65536 ->
  let e := DecodeWaitStatus (stop_status sig event) o in
  signal e = sig /\ ptrace_event e = event /\ exit_code e = 0 /\ core_dumped e = 0 /\
  (kind e, event_stop_reason e) = stop_class sig event o.
Proof.
  intros Hs He. cbv zeta. destruct (stop_status_fields sig event Hs He) as (Hl & Hsig & Hev).
  assert (stop_status sig event &&& 0x7f = 0x7f) as Hl7.
  { change 0x7f with (0xff &&& 0x7f) at 1. rewrite Z.land_assoc. by rewrite Hl. }
  unfold DecodeWaitStatus, IsExited, IsSignaled, IsStopped. rewrite Hl, Hl7, Hsig, Hev.
  cbn -[Z.eqb has SIGTRAP kPtraceEventSeccomp kPtraceEventStop Z.lor].
  change (SIGTRAP ||| kSyscallStopBit) with (SIGTRAP + 0x80).
  unfold stop_class.
  destruct (event =? 0) eqn:E0; cbn [andb negb];
    destruct (has (ptrace_options o) kPtraceOptionTraceSysgood); cbn [andb negb Z.eqb];
    repeat match goal with |- context [if ?b then _ else _] => destruct b eqn:? end;
    by split_and!.
Qed.

(** normal exits and fatal signals are decoded to the exit code,
    and to the signal and the core-dump flag. *)
Theorem decode_termination_roundtrip code sig core o :
  0 <= code < 256 -> 0 < sig < 127 ->
  let e := DecodeWaitStatus (exit_status code) o in
  let k := DecodeWaitStatus (signal_status sig core) o in
  kind e = kExited /\ exit_code e = code /\ signal e = 0 /\
  kind k = kSignaled /\ signal k = sig /\ core_dumped k = (if core then 1 else 0) /\ exit_code k = 0.
Proof.
  intros Hc Hs. cbv zeta. destruct (exit_status_fields code Hc) as [He1 He2].
  destruct (signal_status_fields sig core Hs) as [Hk1 Hk2].
  unfold DecodeWaitStatus, IsExited, IsSignaled. rewrite He1, He2, Hk1, Hk2.
  unfold kStoppedStatus. rewrite (proj2 (Z.eqb_neq sig 0)), (proj2 (Z.eqb_neq sig 127)) by lia.
  by split_and!.
Qed.

(** the decoder is total and leaves exactly the statuses with
    low byte 0xff unclassified; a group stop always carries a job-control
    signal, a syscall stop only arises with TRACESYSGOOD, and the raw status is
    kept. *)
Theorem decode_classification status o :
  let e := DecodeWaitStatus status o in
  raw_status e = status /\
  (kind e = kUnknown <-> status &&& 0xff = 0xff) /\
  (kind e = kGroupStop -> is_job_control (signal e) /\ event_stop_reason e = kGroupStopReason) /\
  (kind e = kSyscallStop -> has (ptrace_options o) kPtraceOptionTraceSysgood = true /\
     signal e = SIGTRAP + 0x80 /\ ptrace_event e = 0) /\
  (event_stop_reason e = kInterrupt -> kind e = kPtraceEvent /\ ptrace_event e = kPtraceEventStop /\
     signal e = SIGTRAP).
Proof.
  cbv zeta. unfold DecodeWaitStatus, IsExited, IsSignaled, IsStopped, kStoppedStatus.
  assert (forall k, status &&& 0x7f = k -> status &&& 0xff = 0xff -> k = 0x7f) as H7.
  { intros k <- H. change 0x7f with (0xff &&& 0x7f) at 1. rewrite Z.land_assoc. by rewrite H. }
  destruct (Z.eqb_spec (status &&& 0x7f) 0) as [E0|E0].
  { split_and!; try done. split; [done|]. intros H. by specialize (H7 _ E0 H). }
  destruct (Z.eqb_spec (status &&& 0x7f) 0x7f) as [E7|E7]; cbn [negb andb].
  2: { destruct (has status 0x80); split_and!; try done; (split; [done|]); intros H;
       by specialize (H7 _ eq_refl H). }
  destruct (Z.eqb_spec (status &&& 0xff) 0x7f) as [Es|Es]; cbn [negb].
  2: { destruct (land_split status 0x7f ltac:(done) E7); [done|]. by split_and!. }
  rewrite Es.
  cbn -[Z.eqb has SIGTRAP kPtraceEventSeccomp kPtraceEventStop Z.lor IsJobControlStopSignal
        StopSignal PtraceEventCode].
  change (SIGTRAP ||| kSyscallStopBit) with (SIGTRAP + 0x80).
  repeat match goal with |- context [if ?b then _ else _] =>
      lazymatch b with context [if _ then _ else _] => fail | _ => destruct b eqn:? end end;
    cbn -[Z.eqb Z.add SIGTRAP kPtraceEventStop StopSignal PtraceEventCode is_job_control];
    bool_hyps; split_and!; try done; try (intros _; split_and!; try done; by try apply Z.eqb_eq);
    try (intros _; split; [by apply IsJobControlStopSignal_spec|done]).
Qed.

Definition sysgood : WaitDecodeOptions :=
  {| ptrace_options := 1; signal_stop_hint := kUnknownHint |}.

Lemma decode_stop_roundtrip_witness :
  kind (DecodeWaitStatus (stop_status 133 0) sysgood) = kSyscallStop.
Proof.
  pose proof (decode_stop_roundtrip 133 0 sysgood ltac:(lia) ltac:(lia)) as (_ & _ & _ & _ & H).
  exact (f_equal fst H).
Defined.

Lemma decode_termination_roundtrip_witness :
  exit_code (DecodeWaitStatus (exit_status 42) sysgood) = 42.
Proof.
  apply (decode_termination_roundtrip 42 9 true sysgood ltac:(lia) ltac:(lia)).
Defined.
