(* ===== verification/EventRing.v ===== *)
(** * The event ring shared by the tracer and the application

    Models [internal/event_ring.{h,cpp}] twice: as the sequential functions, and
    as the interleaved atomic loads, stores and slot accesses of one producer
    ([PushEvent]) and one consumer ([ReadEvents]). *)

From S2P Require Import Prelude Bits.
From stdpp Require Import list relations.
#[local] Open Scope Z_scope.

Definition HOOKSELF_MAX_EVENT_CAPACITY : Z := 1024.
Definition kEventRingMagic : Z := 0x48534552.
Definition kEventRingVersion : Z := 1.
Definition sizeof_EventRingHeader : Z := 64.
Definition sizeof_HookselfEvent : Z := 1136.

Record HookselfEvent := {
  struct_size : Z;
  ev_kind : Z;
  sequence : Z;
  monotonic_time_ns : Z;
  tgid : Z;
  tid : Z;
  syscall_number : Z;
  phase : Z;
  action : Z;
  error : Z;
  result : Z;
  arguments : list Z;
  rule_id : Z;
  flags : Z;
  path : list Z;
  translated_path : list Z;
}.

(** The header and, behind it, the slots. *)
Record EventRing := {
  magic : Z;
  version : Z;
  capacity : Z;
  event_size : Z;
  write_sequence : Z;
  read_sequence : Z;
  dropped_events : Z;
  slots : list HookselfEvent;
}.

Definition zero_event : HookselfEvent :=
  {| struct_size := 0; ev_kind := 0; sequence := 0; monotonic_time_ns := 0; tgid := 0; tid := 0;
     syscall_number := 0; phase := 0; action := 0; error := 0; result := 0;
     arguments := replicate 6 0; rule_id := 0; flags := 0; path := replicate 512 0;
     translated_path := replicate 512 0 |}.
#[export] Instance HookselfEvent_inhabited : Inhabited HookselfEvent := populate zero_event.

(** [CopyEventNoLibc] and the two stores that follow it in [PushEvent]. *)
Definition CopyEventNoLibc (source : HookselfEvent) : HookselfEvent := source.
Definition stamp (e : HookselfEvent) (seq : Z) : HookselfEvent :=
  {| struct_size := sizeof_HookselfEvent; ev_kind := ev_kind e; sequence := seq;
     monotonic_time_ns := monotonic_time_ns e; tgid := tgid e; tid := tid e;
     syscall_number := syscall_number e; phase := phase e; action := action e; error := error e;
     result := result e; arguments := arguments e; rule_id := rule_id e; flags := flags e;
     path := path e; translated_path := translated_path e |}.

Definition HeaderValid (ring : EventRing) : bool :=
  (magic ring =? kEventRingMagic) && (version ring =? kEventRingVersion)
  && (0 <? capacity ring) && (capacity ring <=? HOOKSELF_MAX_EVENT_CAPACITY)
  && (event_size ring =? sizeof_HookselfEvent).

Definition EventRingBytes (capacity : Z) : Z :=
  if (capacity =? 0) || (HOOKSELF_MAX_EVENT_CAPACITY <? capacity) then 0
  else u64 (sizeof_EventRingHeader + u64 (capacity * sizeof_HookselfEvent)).

(** [None] is the [false] result, which leaves the memory alone. *)
Definition InitializeEventRing (memory_size capacity : Z) : option EventRing :=
  let required := EventRingBytes capacity in
  if (required =? 0) || (memory_size <? required) then None
  else Some {| magic := kEventRingMagic; version := kEventRingVersion; capacity := capacity;
               event_size := sizeof_HookselfEvent; write_sequence := 0; read_sequence := 0;
               dropped_events := 0; slots := replicate (Z.to_nat capacity) zero_event |}.

Definition set_write (w : Z) (sl : list HookselfEvent) (r : EventRing) : EventRing :=
  {| magic := magic r; version := version r; capacity := capacity r; event_size := event_size r;
     write_sequence := w; read_sequence := read_sequence r; dropped_events := dropped_events r;
     slots := sl |}.
Definition set_read (n : Z) (r : EventRing) : EventRing :=
  {| magic := magic r; version := version r; capacity := capacity r; event_size := event_size r;
     write_sequence := write_sequence r; read_sequence := n; dropped_events := dropped_events r;
     slots := slots r |}.
Definition add_dropped (r : EventRing) : EventRing :=
  {| magic := magic r; version := version r; capacity := capacity r; event_size := event_size r;
     write_sequence := write_sequence r; read_sequence := read_sequence r;
     dropped_events := u64 (dropped_events r + 1); slots := slots r |}.

Definition slot_of (r : EventRing) (seq : Z) : nat := Z.to_nat (u64 seq mod capacity r).

Definition PushEvent (ring : EventRing) (event : HookselfEvent) : bool * EventRing :=
  if negb (HeaderValid ring) then (false, ring)
  else
    let write := write_sequence ring in
    let read := read_sequence ring in
    if capacity ring <=? u64 (write - read) then (false, add_dropped ring)
    else
      let slot := stamp (CopyEventNoLibc event) (u64 (write + 1)) in
      (true, set_write (u64 (write + 1)) (<[slot_of ring write := slot]> (slots ring)) ring).

(** The events copied out, and the ring after the call. *)
Definition ReadEvents (ring : EventRing) (capacity : Z) : list HookselfEvent * EventRing :=
  if negb (HeaderValid ring) || (capacity =? 0) then ([], ring)
  else
    let read := read_sequence ring in
    let write := write_sequence ring in
    let available := u64 (write - read) in
    let count := if available <? capacity then available else capacity in
    ((fun i => slots ring !!! slot_of ring (read + Z.of_nat i)) <$> seq 0 (Z.to_nat count),
     set_read (u64 (read + count)) ring).

Definition EventRingDropped (ring : EventRing) : Z :=
  if HeaderValid ring then dropped_events ring else 0.

(** ** The ring as a bounded queue *)

(** Well-formedness while fewer than 2^64 events have been written; the
    counters never wrap in practice, and [write % capacity] would not survive
    it. *)
Record ring_wf (r : EventRing) : Prop := {
  wf_header : HeaderValid r = true;
  wf_counters : 0 <= read_sequence r <= write_sequence r;
  wf_bounded : write_sequence r - read_sequence r <= capacity r;
  wf_nowrap : write_sequence r < 2 ^ 64 - 1;
  wf_slots : Z.of_nat (length (slots r)) = capacity r;
}.

(** What the consumer has not read yet. *)
Definition contents (r : EventRing) : list HookselfEvent :=
  (fun i => slots r !!! slot_of r (read_sequence r + Z.of_nat i)) <$>
    seq 0 (Z.to_nat (write_sequence r - read_sequence r)).

Lemma HeaderValid_capacity r : HeaderValid r = true -> 0 < capacity r <= 1024.
Proof. unfold HeaderValid, HOOKSELF_MAX_EVENT_CAPACITY. intros. bool_hyps. lia. Qed.

Lemma mod_inj_window k w n : 0 < n -> k < w < k + n -> k mod n <> w mod n.
Proof.
  intros Hn Hk He. pose proof (Z.div_mod k n ltac:(lia)). pose proof (Z.div_mod w n ltac:(lia)).
  assert (n * (w / n - k / n) = w - k) as E by lia.
  assert (0 < w / n - k / n) by nia. assert (w / n - k / n < 1) by nia. lia.
Qed.

(** Two different sequences in one window use different slots. *)
Lemma slot_of_inj r k w :
  0 < capacity r -> 0 <= k -> k < w < k + capacity r -> w < 2 ^ 64 -> slot_of r k <> slot_of r w.
Proof.
  intros Hc Hk Hw Hb. unfold slot_of. rewrite !u64_small by lia. intros He.
  apply Z2Nat.inj in He; [|apply Z.mod_pos_bound; lia|apply Z.mod_pos_bound; lia].
  by apply (mod_inj_window k w (capacity r)) in He.
Qed.

Lemma slot_of_lt r k : 0 < capacity r -> (Z.of_nat (slot_of r k) < capacity r).
Proof.
  intros Hc. unfold slot_of. pose proof (Z.mod_pos_bound (u64 k) (capacity r) Hc). lia.
Qed.

Lemma contents_lookup r k :
  contents r !! k =
    if decide (Z.of_nat k < write_sequence r - read_sequence r)
    then Some (slots r !!! slot_of r (read_sequence r + Z.of_nat k)) else None.
Proof.
  unfold contents. rewrite list_lookup_fmap. case_decide.
  - rewrite lookup_seq_lt by lia. done.
  - rewrite lookup_seq_ge by lia. done.
Qed.

Lemma length_contents r :
  length (contents r) = Z.to_nat (write_sequence r - read_sequence r).
Proof. unfold contents. by rewrite length_fmap, length_seq. Qed.

(** ** Properties of the sequential functions *)

(** on a well-formed ring [PushEvent] is the enqueue of a
    bounded queue: when fewer than [capacity] events wait it appends the event,
    stamped with its size and the next sequence number; otherwise it changes
    nothing but the drop counter.  Well-formedness is kept either way. *)
Theorem PushEvent_enqueue r e :
  ring_wf r -> write_sequence r + 1 < 2 ^ 64 - 1 ->
  let '(ok, r') := PushEvent r e in
  ring_wf r' /\
  (ok = true <-> Z.of_nat (length (contents r)) < capacity r) /\
  (ok = true -> contents r' = contents r ++ [stamp e (write_sequence r + 1)] /\
                dropped_events r' = dropped_events r) /\
  (ok = false -> contents r' = contents r /\ dropped_events r' = u64 (dropped_events r + 1)).
Proof.
  intros [Hh Hc Hb Hn Hs] Hw. pose proof (HeaderValid_capacity r Hh) as Hcap.
  unfold PushEvent. rewrite Hh, length_contents. cbn [negb].
  rewrite (u64_small (write_sequence r - read_sequence r)) by lia.
  destruct (Z.leb_spec (capacity r) (write_sequence r - read_sequence r)).
  - split_and!; [by split|split; [done|lia]|done|done].
  - rewrite (u64_small (write_sequence r + 1)) by lia. split_and!; [|split; [lia|done]| |done].
    + split; simpl; try done; try lia. by rewrite length_insert.
    + intros _. split; [|done]. apply list_eq. intros k. rewrite contents_lookup. simpl.
      pose proof (slot_of_lt r (write_sequence r) ltac:(lia)).
      destruct (decide (Z.of_nat k < write_sequence r - read_sequence r)) as [Hk|Hk].
      * rewrite lookup_app_l by (rewrite length_contents; lia).
        rewrite contents_lookup, !decide_True by lia. f_equal.
        rewrite list_lookup_total_insert_ne; [done|].
        intros E. symmetry in E. revert E. unfold slot_of. simpl. fold (slot_of r (write_sequence r)).
        apply slot_of_inj; lia.
      * rewrite lookup_app_r by (rewrite length_contents; lia). rewrite length_contents.
        destruct (decide (Z.of_nat k < write_sequence r + 1 - read_sequence r)) as [Hk'|Hk'].
        -- replace (k - _)%nat with 0%nat by lia. simpl. f_equal.
           replace (read_sequence r + Z.of_nat k) with (write_sequence r) by lia.
           apply (list_lookup_total_insert_eq (slots r) (slot_of r (write_sequence r))). lia.
        -- destruct (k - _)%nat eqn:?; [lia|done].
Qed.

(** [ReadEvents] dequeues the oldest [min(available,
    capacity)] events in order and leaves the rest. *)
Theorem ReadEvents_dequeue r n :
  ring_wf r -> 0 < n ->
  let '(events, r') := ReadEvents r n in
  ring_wf r' /\ events = take (Z.to_nat n) (contents r) /\
  contents r' = drop (Z.to_nat n) (contents r).
Proof.
  intros [Hh Hc Hb Hn Hs] Hpos. pose proof (HeaderValid_capacity r Hh) as Hcap.
  unfold ReadEvents. rewrite Hh. cbn [negb orb]. rewrite (proj2 (Z.eqb_neq n 0)) by lia.
  rewrite (u64_small (write_sequence r - read_sequence r)) by lia.
  set (count := if _ <? n then _ else n).
  assert (count = Z.min (write_sequence r - read_sequence r) n) as Hcount.
  { unfold count. destruct (Z.ltb_spec (write_sequence r - read_sequence r) n); lia. }
  clearbody count. rewrite (u64_small (read_sequence r + count)) by lia. split_and!.
  - split; simpl; try done; lia.
  - apply list_eq. intros k. rewrite list_lookup_fmap. destruct (decide (Z.of_nat k < count)).
    + rewrite lookup_seq_lt by lia. rewrite lookup_take_lt by lia.
      rewrite contents_lookup, decide_True by lia. done.
    + rewrite lookup_seq_ge by lia. simpl. symmetry. apply lookup_ge_None_2.
      rewrite length_take, length_contents. lia.
  - apply list_eq. intros k. rewrite lookup_drop, !contents_lookup. simpl.
    destruct (decide (Z.of_nat k < write_sequence r - (read_sequence r + count))).
    + rewrite decide_True by lia. do 2 f_equal. unfold slot_of. simpl. do 3 f_equal. lia.
    + rewrite decide_False by lia. done.
Qed.

(** ** One producer and one consumer, interleaved

    Each atomic load, atomic store and slot access is one step.  An acquire
    load of the other side's counter may return any value between the last one
    it returned and the current one (coherence allows no less); copying an
    event into its slot leaves garbage there until it is finished. *)

Inductive producer :=
| P_idle
| P_loaded (e : HookselfEvent) (write : Z)
| P_checked (e : HookselfEvent) (write : Z)
| P_copying (e : HookselfEvent) (write : Z)
| P_copied (e : HookselfEvent) (write : Z).

Inductive consumer :=
| C_idle
| C_loaded (n read : Z)
| C_copying (read count : Z) (copied : list HookselfEvent).

Record config := {
  ring : EventRing;
  prod : producer;
  cons : consumer;
  read_seen : Z;                      (* last [read_sequence] the producer loaded *)
  write_seen : Z;                     (* last [write_sequence] the consumer loaded *)
  accepted : list HookselfEvent;      (* published by the producer, in order *)
  received : list HookselfEvent;      (* handed to the application, in order *)
}.

Definition with_slot (r : EventRing) (w : Z) (e : HookselfEvent) : EventRing :=
  set_write (write_sequence r) (<[slot_of r w := e]> (slots r)) r.

Inductive ring_step : config -> config -> Prop :=
| push_begin r c rs ws acc rec e :
    ring_step {| ring := r; prod := P_idle; cons := c; read_seen := rs; write_seen := ws;
                 accepted := acc; received := rec |}
              {| ring := r; prod := P_loaded e (write_sequence r); cons := c; read_seen := rs;
                 write_seen := ws; accepted := acc; received := rec |}
| push_full r c rs ws acc rec e w v :
    rs <= v <= read_sequence r -> capacity r <= u64 (w - v) ->
    ring_step {| ring := r; prod := P_loaded e w; cons := c; read_seen := rs; write_seen := ws;
                 accepted := acc; received := rec |}
              {| ring := add_dropped r; prod := P_idle; cons := c; read_seen := v;
                 write_seen := ws; accepted := acc; received := rec |}
| push_room r c rs ws acc rec e w v :
    rs <= v <= read_sequence r -> u64 (w - v) < capacity r ->
    ring_step {| ring := r; prod := P_loaded e w; cons := c; read_seen := rs; write_seen := ws;
                 accepted := acc; received := rec |}
              {| ring := r; prod := P_checked e w; cons := c; read_seen := v; write_seen := ws;
                 accepted := acc; received := rec |}
| push_copy r c rs ws acc rec e w garbage :
    ring_step {| ring := r; prod := P_checked e w; cons := c; read_seen := rs; write_seen := ws;
                 accepted := acc; received := rec |}
              {| ring := with_slot r w garbage; prod := P_copying e w; cons := c; read_seen := rs;
                 write_seen := ws; accepted := acc; received := rec |}
| push_copied r c rs ws acc rec e w :
    ring_step {| ring := r; prod := P_copying e w; cons := c; read_seen := rs; write_seen := ws;
                 accepted := acc; received := rec |}
              {| ring := with_slot r w (stamp (CopyEventNoLibc e) (u64 (w + 1)));
                 prod := P_copied e w; cons := c; read_seen := rs;
                 write_seen := ws; accepted := acc; received := rec |}
| push_publish r c rs ws acc rec e w :
    ring_step {| ring := r; prod := P_copied e w; cons := c; read_seen := rs; write_seen := ws;
                 accepted := acc; received := rec |}
              {| ring := set_write (u64 (w + 1)) (slots r) r; prod := P_idle; cons := c;
                 read_seen := rs; write_seen := ws;
                 accepted := acc ++ [stamp (CopyEventNoLibc e) (u64 (w + 1))]; received := rec |}
| read_begin r p rs ws acc rec n :
    0 < n ->
    ring_step {| ring := r; prod := p; cons := C_idle; read_seen := rs; write_seen := ws;
                 accepted := acc; received := rec |}
              {| ring := r; prod := p; cons := C_loaded n (read_sequence r); read_seen := rs;
                 write_seen := ws; accepted := acc; received := rec |}
| read_load r p rs ws acc rec n rd v :
    ws <= v <= write_sequence r ->
    ring_step {| ring := r; prod := p; cons := C_loaded n rd; read_seen := rs; write_seen := ws;
                 accepted := acc; received := rec |}
              {| ring := r; prod := p;
                 cons := C_copying rd (if u64 (v - rd) <? n then u64 (v - rd) else n) [];
                 read_seen := rs; write_seen := v; accepted := acc; received := rec |}
| read_copy r p rs ws acc rec rd count copied :
    Z.of_nat (length copied) < count ->
    ring_step {| ring := r; prod := p; cons := C_copying rd count copied; read_seen := rs;
                 write_seen := ws; accepted := acc; received := rec |}
              {| ring := r; prod := p;
                 cons := C_copying rd count
                   (copied ++ [slots r !!! slot_of r (rd + Z.of_nat (length copied))]);
                 read_seen := rs; write_seen := ws; accepted := acc; received := rec |}
| read_publish r p rs ws acc rec rd count copied :
    Z.of_nat (length copied) = count ->
    ring_step {| ring := r; prod := p; cons := C_copying rd count copied; read_seen := rs;
                 write_seen := ws; accepted := acc; received := rec |}
              {| ring := set_read (u64 (rd + count)) r; prod := p; cons := C_idle; read_seen := rs;
                 write_seen := ws; accepted := acc; received := rec ++ copied |}.

Definition ring_start (r : EventRing) : config :=
  {| ring := r; prod := P_idle; cons := C_idle; read_seen := 0; write_seen := 0;
     accepted := []; received := [] |}.

(** *** The invariant *)

Definition producer_inv (p : producer) (r : EventRing) : Prop :=
  let room := write_sequence r - read_sequence r < capacity r in
  match p with
  | P_idle => True
  | P_loaded _ w => w = write_sequence r
  | P_checked _ w | P_copying _ w => w = write_sequence r /\ room
  | P_copied e w => w = write_sequence r /\ room /\
      slots r !!! slot_of r w = stamp (CopyEventNoLibc e) (u64 (w + 1))
  end.

Definition consumer_inv (c : consumer) (r : EventRing) (ws : Z) (acc : list HookselfEvent) : Prop :=
  match c with
  | C_idle => True
  | C_loaded n rd => rd = read_sequence r /\ 0 < n
  | C_copying rd count copied => rd = read_sequence r /\ 0 <= count /\ rd + count <= ws /\
      Z.of_nat (length copied) <= count /\
      copied = take (length copied) (drop (Z.to_nat rd) acc)
  end.

Record config_inv (c : config) : Prop := {
  ci_wf : ring_wf (ring c);
  ci_accepted : write_sequence (ring c) = Z.of_nat (length (accepted c));
  ci_received : read_sequence (ring c) = Z.of_nat (length (received c));
  ci_fifo : received c = take (length (received c)) (accepted c);
  ci_slots : forall k e, read_sequence (ring c) <= Z.of_nat k -> accepted c !! k = Some e ->
               slots (ring c) !!! slot_of (ring c) (Z.of_nat k) = e;
  ci_stamps : forall k e, accepted c !! k = Some e -> sequence e = Z.of_nat k + 1;
  ci_read_seen : 0 <= read_seen c <= read_sequence (ring c);
  ci_write_seen : read_sequence (ring c) <= write_seen c <= write_sequence (ring c);
  ci_producer : producer_inv (prod c) (ring c);
  ci_consumer : consumer_inv (cons c) (ring c) (write_seen c) (accepted c);
}.

(** Writing the producer's slot does not touch the unread ones. *)
Lemma with_slot_other r w e k :
  ring_wf r -> w = write_sequence r -> write_sequence r - read_sequence r < capacity r ->
  read_sequence r <= k < w ->
  slots (with_slot r w e) !!! slot_of (with_slot r w e) k = slots r !!! slot_of r k.
Proof.
  intros [Hh Hc Hb Hn Hs] -> Hroom Hk. pose proof (HeaderValid_capacity _ Hh).
  change (slot_of (with_slot r _ e) k) with (slot_of r k). simpl.
  rewrite list_lookup_total_insert_ne; [done|]. intros E. symmetry in E. revert E.
  apply slot_of_inj; lia.
Qed.

Lemma with_slot_same r w e :
  ring_wf r -> slots (with_slot r w e) !!! slot_of (with_slot r w e) w = e.
Proof.
  intros [Hh Hc Hb Hn Hs]. pose proof (HeaderValid_capacity _ Hh).
  change (slot_of (with_slot r w e) w) with (slot_of r w). simpl.
  apply list_lookup_total_insert_eq. pose proof (slot_of_lt r w ltac:(lia)). lia.
Qed.

Lemma with_slot_wf r w e : ring_wf r -> ring_wf (with_slot r w e).
Proof. intros [Hh Hc Hb Hn Hs]. split; simpl; try done. by rewrite length_insert. Qed.

Lemma accepted_lt {A} (l : list A) k e : l !! k = Some e -> Z.of_nat k < Z.of_nat (length l).
Proof. intros H. apply lookup_lt_Some in H. lia. Qed.

Lemma ring_step_inv c c' :
  ring_step c c' -> Z.of_nat (length (accepted c')) < 2 ^ 64 - 1 -> config_inv c -> config_inv c'.
Proof.
  intros Hstep Hbound [Hwf Ha Hr Hfifo Hslots Hstamps Hrs Hws Hp Hc].
  destruct Hstep; simpl in *; pose proof Hwf as [Hh Hct Hb Hn Hl];
    pose proof (HeaderValid_capacity _ Hh) as Hcap.
  - split; done.
  - split; simpl; try done; lia.
  - subst w. rewrite u64_small in H0 by lia. split; simpl; try done; lia.
  - destruct Hp as [-> Hroom].
    split; simpl; try done; [by apply with_slot_wf|]. intros k e' Hk Hk'.
    pose proof (accepted_lt _ _ _ Hk'). rewrite with_slot_other by (done || lia). by apply Hslots.
  - destruct Hp as [-> Hroom]. split; simpl; try done; [by apply with_slot_wf| |].
    + intros k e' Hk Hk'. pose proof (accepted_lt _ _ _ Hk').
      rewrite with_slot_other by (done || lia). by apply Hslots.
    + split_and!; try done. by apply with_slot_same.
  - destruct Hp as (-> & Hroom & Hslot). rewrite length_app in Hbound. simpl in Hbound.
    rewrite u64_small in * by lia. split; simpl; try done; try lia.
    + split; simpl; try done; lia.
    + rewrite length_app. simpl. lia.
    + rewrite take_app_le; [done|]. lia.
    + intros k e' Hk Hk'. change (slot_of (set_write _ _ r) ?x) with (slot_of r x).
      apply lookup_snoc_Some in Hk' as [[Hlt Hk']|[-> <-]]; [by apply Hslots|]. by rewrite <- Ha.
    + intros k e' Hk'. apply lookup_snoc_Some in Hk' as [[Hlt Hk']|[-> <-]]; [by apply Hstamps|].
      simpl. lia.
    + destruct c as [| |rd count copied]; try done. simpl in *.
      destruct Hc as (-> & H0c & Hcw & Hlen & Hcop). split_and!; try done.
      rewrite drop_app_le by lia. rewrite take_app_le; [done|]. rewrite length_drop. lia.
  - split; simpl; try done.
  - split; simpl; try done; [lia|]. destruct Hc as [-> Hn0].
    rewrite u64_small by lia. destruct (Z.ltb_spec (v - read_sequence r) n); split_and!; try done; lia.
  - split; simpl; try done. destruct Hc as (-> & H0c & Hcw & Hlen & Hcop).
    rewrite length_app. simpl. split_and!; try done; [lia|].
    assert (exists e, acc !! (Z.to_nat (read_sequence r) + length copied)%nat = Some e) as [e He].
    { apply lookup_lt_is_Some_2. lia. }
    replace (read_sequence r + Z.of_nat (length copied)) with
      (Z.of_nat (Z.to_nat (read_sequence r) + length copied)) by lia.
    rewrite (Hslots _ e) by (done || lia).
    rewrite Nat.add_1_r. rewrite (take_S_r _ _ e) by (by rewrite lookup_drop). by rewrite <- Hcop.
  - destruct Hc as (-> & H0c & Hcw & Hlen & Hcop). rewrite u64_small by lia.
    split; simpl; try done; try lia.
    + split; simpl; try done; lia.
    + rewrite length_app. lia.
    + rewrite length_app, <- take_take_drop. rewrite <- Hfifo at 1. f_equal.
      rewrite Hcop at 1. do 2 f_equal. lia.
    + intros k e Hk Hk'. change (slot_of (set_read _ r) ?x) with (slot_of r x). apply Hslots; [lia|done].
    + destruct p; simpl in *; try done; intuition lia.
Qed.

(** A fresh ring. *)
Lemma init_wf memory_size n r :
  InitializeEventRing memory_size n = Some r -> 0 <= n ->
  ring_wf r /\ write_sequence r = 0 /\ read_sequence r = 0 /\ capacity r = n.
Proof.
  unfold InitializeEventRing, EventRingBytes, HOOKSELF_MAX_EVENT_CAPACITY. intros H Hn.
  split_ifs_in H; try done. simplify_eq. split; [|done]. split; simpl; try lia.
  - unfold HeaderValid, HOOKSELF_MAX_EVENT_CAPACITY. simpl.
    rewrite (proj2 (Z.ltb_lt 0 n)), (proj2 (Z.leb_le n 1024)) by lia. done.
  - rewrite length_replicate. lia.
Qed.

Lemma reachable_inv memory_size n r c :
  InitializeEventRing memory_size n = Some r -> 0 <= n ->
  rtc ring_step (ring_start r) c -> Z.of_nat (length (accepted c)) < 2 ^ 64 - 1 -> config_inv c.
Proof.
  intros Hi Hn0 Hr. destruct (init_wf _ _ _ Hi Hn0) as (Hwf & Hw & Hrd & _).
  refine (rtc_ind_r (fun c => Z.of_nat (length (accepted c)) < 2 ^ 64 - 1 -> config_inv c)
            _ _ _ c Hr).
  - intros _. split; simpl; try done; lia.
  - clear c Hr. intros c c' Hr Hs IH Hb. eapply ring_step_inv; [done|done|]. apply IH.
    destruct Hs; simpl in *; try done. rewrite length_app in Hb. lia.
Qed.

(** C4 (safety): in every interleaving of the producer's and the consumer's
    atomic steps, with arbitrarily stale acquire loads and slots torn while
    they are written, the application receives exactly the published events,
    in order, without loss, duplication or tearing, each carrying its position
    as sequence number. *)
Theorem ring_spsc_fifo memory_size n r c :
  InitializeEventRing memory_size n = Some r -> 0 <= n ->
  rtc ring_step (ring_start r) c -> Z.of_nat (length (accepted c)) < 2 ^ 64 - 1 ->
  received c = take (length (received c)) (accepted c) /\
  (forall k e, received c !! k = Some e -> sequence e = Z.of_nat k + 1) /\
  Z.of_nat (length (accepted c)) - Z.of_nat (length (received c)) <= n.
Proof.
  intros Hi Hn0 Hr Hb. pose proof (reachable_inv _ _ _ _ Hi Hn0 Hr Hb) as [Hwf Ha Hrc Hfifo _ Hst _ _ _ _].
  split_and!; [done| |].
  - intros k e Hk. apply Hst. rewrite Hfifo in Hk. by apply lookup_take_Some in Hk as [Hk _].
  - rewrite <- Ha, <- Hrc. assert (capacity (ring c) = n) as <-; [|apply Hwf].
    destruct (init_wf _ _ _ Hi Hn0) as (_ & _ & _ & <-). clear -Hr.
    refine (rtc_ind_r (fun c => capacity (ring c) = capacity r) _ _ _ c Hr); [done|].
    clear c Hr. intros c c' _ Hs <-. by destruct Hs.
Qed.

(** run without interference, the producer's steps are the
    function [PushEvent]. *)
Theorem PushEvent_steps r c ws rs acc rec e :
  HeaderValid r = true -> rs <= read_sequence r ->
  exists acc' rs', rtc ring_step
    {| ring := r; prod := P_idle; cons := c; read_seen := rs; write_seen := ws;
       accepted := acc; received := rec |}
    {| ring := (PushEvent r e).2; prod := P_idle; cons := c; read_seen := rs'; write_seen := ws;
       accepted := acc'; received := rec |} /\
    acc' = acc ++ (if (PushEvent r e).1 then [stamp e (u64 (write_sequence r + 1))] else []).
Proof.
  intros Hh Hrs. unfold PushEvent. rewrite Hh. cbn [negb].
  destruct (Z.leb_spec (capacity r) (u64 (write_sequence r - read_sequence r))) as [Hf|Hf]; simpl.
  - exists acc, (read_sequence r). split; [|by rewrite app_nil_r].
    eapply rtc_l; [apply push_begin|]. eapply rtc_l; [by apply (push_full _ _ _ _ _ _ e _ (read_sequence r))|].
    done.
  - eexists _, (read_sequence r). split; [|done].
    eapply rtc_l; [apply (push_begin _ _ _ _ _ _ e)|].
    eapply rtc_l; [by apply (push_room _ _ _ _ _ _ e _ (read_sequence r))|].
    eapply rtc_l; [apply (push_copy _ _ _ _ _ _ e _ e)|].
    eapply rtc_l; [apply push_copied|].
    eapply rtc_l; [apply push_publish|].
    unfold with_slot. simpl. rewrite list_insert_insert_eq. done.
Qed.

(** A ring of two events that accepts one and hands it over. *)
Definition sample_ring : EventRing :=
  {| magic := kEventRingMagic; version := kEventRingVersion; capacity := 2;
     event_size := sizeof_HookselfEvent; write_sequence := 0; read_sequence := 0;
     dropped_events := 0; slots := [zero_event; zero_event] |}.

Lemma sample_ring_wf : ring_wf sample_ring.
Proof. split; try done; simpl; lia. Qed.

Lemma PushEvent_enqueue_witness :
  contents (PushEvent sample_ring zero_event).2 = [stamp zero_event 1].
Proof.
  pose proof (PushEvent_enqueue sample_ring zero_event sample_ring_wf ltac:(simpl; lia)) as H.
  destruct (PushEvent sample_ring zero_event) as [ok r'] eqn:E.
  destruct H as (_ & Hok & Hc & _). simpl. destruct Hc as [-> _]; [|reflexivity].
  apply Hok. vm_compute. reflexivity.
Defined.

Lemma ReadEvents_dequeue_witness :
  (ReadEvents sample_ring 4).1 = take 4 (contents sample_ring).
Proof.
  pose proof (ReadEvents_dequeue sample_ring 4 sample_ring_wf ltac:(lia)) as H.
  destruct (ReadEvents sample_ring 4) as [events r'] eqn:E. apply H.
Defined.

(** Two events are published while a third is being copied into the slot the
    first one has left: the consumer, whose first load is stale, reads them. *)
Definition event_of (id : Z) : HookselfEvent :=
  {| struct_size := 0; ev_kind := 1; sequence := 0; monotonic_time_ns := id; tgid := id; tid := id; syscall_number := 56;
     phase := 0; action := 0; error := 0; result := 0; arguments := replicate 6 id; rule_id := 0; flags := 0;
     path := replicate 512 0; translated_path := replicate 512 0 |}.

Lemma two_events_read : exists r, rtc ring_step (ring_start sample_ring)
  {| ring := r; prod := P_copying (event_of 3) 2; cons := C_idle; read_seen := 1; write_seen := 2;
     accepted := [stamp (event_of 1) 1; stamp (event_of 2) 2]; received := [stamp (event_of 1) 1; stamp (event_of 2) 2] |}.
Proof.
  eexists. do 5 (eapply rtc_l; [first [by apply (push_begin _ _ _ _ _ _ (event_of 1))|by apply (push_room _ _ _ _ _ _ _ _ 0)
    |by apply (push_copy _ _ _ _ _ _ _ _ (event_of 9))|apply push_copied|apply push_publish]|]).
  eapply rtc_l; [by apply (read_begin _ _ _ _ _ _ 4)|].
  eapply rtc_l; [apply (push_begin _ _ _ _ _ _ (event_of 2))|]. eapply rtc_l; [by apply (push_room _ _ _ _ _ _ _ _ 0)|].
  eapply rtc_l; [apply (push_copy _ _ _ _ _ _ _ _ (event_of 9))|]. eapply rtc_l; [apply push_copied|]. eapply rtc_l; [apply push_publish|].
  eapply rtc_l; [by apply (read_load _ _ _ _ _ _ _ _ 1)|]. eapply rtc_l; [by apply read_copy|]. eapply rtc_l; [by apply read_publish|].
  eapply rtc_l; [apply (push_begin _ _ _ _ _ _ (event_of 3))|]. eapply rtc_l; [by apply (push_room _ _ _ _ _ _ _ _ 1)|].
  eapply rtc_l; [apply (push_copy _ _ _ _ _ _ _ _ (event_of 9))|].
  eapply rtc_l; [by apply (read_begin _ _ _ _ _ _ 4)|]. eapply rtc_l; [by apply (read_load _ _ _ _ _ _ _ _ 2)|].
  eapply rtc_l; [by apply read_copy|]. eapply rtc_l; [by apply read_publish|]. apply rtc_refl.
Qed.

Lemma ring_spsc_fifo_witness : exists c, rtc ring_step (ring_start sample_ring) c /\ accepted c = [stamp (event_of 1) 1; stamp (event_of 2) 2] /\
  received c = take 2 (accepted c) /\ length (received c) = 2%nat /\
  (forall k e, received c !! k = Some e -> sequence e = Z.of_nat k + 1).
Proof.
  destruct two_events_read as [r Hr]. eexists. split; [exact Hr|]. split; [reflexivity|].
  destruct (ring_spsc_fifo 4096 2 sample_ring _ eq_refl ltac:(lia) Hr ltac:(simpl; lia)) as (Ht & Hs & _).
  split; [exact Ht|]. split; [reflexivity|exact Hs].
Defined.

Lemma PushEvent_steps_witness :
  exists acc' rs', rtc ring_step (ring_start sample_ring)
    {| ring := (PushEvent sample_ring zero_event).2; prod := P_idle; cons := C_idle;
       read_seen := rs'; write_seen := 0; accepted := acc'; received := [] |}.
Proof.
  destruct (PushEvent_steps sample_ring C_idle 0 0 [] [] zero_event eq_refl ltac:(simpl; lia))
    as (acc' & rs' & H & _). exists acc', rs'. exact H.
Defined.
