(* ===== verification/SeccompFilter.v ===== *)
(** * The selective seccomp filter

    Models [internal/selective_seccomp_filter.{h,cpp}]: the classic BPF program
    that sends the selected system calls to the tracer, with an interpreter for
    the instructions it uses as its specification. *)

From S2P Require Import Prelude Bits.
From stdpp Require Import list.
#[local] Open Scope Z_scope.

(** ** Kernel UAPI values *)

Definition BPF_LD : Z := 0x00.
Definition BPF_W : Z := 0x00.
Definition BPF_ABS : Z := 0x20.
Definition BPF_JMP : Z := 0x05.
Definition BPF_JEQ : Z := 0x10.
Definition BPF_K : Z := 0x00.
Definition BPF_RET : Z := 0x06.
Definition SECCOMP_RET_KILL_PROCESS : Z := 0x80000000.
Definition SECCOMP_RET_TRACE : Z := 0x7ff00000.
Definition SECCOMP_RET_ALLOW : Z := 0x7fff0000.
Definition SECCOMP_RET_ACTION_FULL : Z := 0xffff0000.
Definition AUDIT_ARCH_AARCH64 : Z := 0xc00000b7.
Definition SECCOMP_FILTER_FLAG_TSYNC : Z := 1.
Definition SECCOMP_FILTER_FLAG_LOG : Z := 2.
Definition SECCOMP_FILTER_FLAG_SPEC_ALLOW : Z := 4.
Definition SECCOMP_FILTER_FLAG_TSYNC_ESRCH : Z := 16.
Definition offsetof_nr : Z := 0.
Definition offsetof_arch : Z := 4.

Definition kLoadAbsoluteWord : Z := BPF_LD ||| BPF_W ||| BPF_ABS.
Definition kJumpEqualConstant : Z := BPF_JMP ||| BPF_JEQ ||| BPF_K.
Definition kReturnConstant : Z := BPF_RET ||| BPF_K.
Definition kAllowedInstallFlags : Z :=
  SECCOMP_FILTER_FLAG_TSYNC ||| SECCOMP_FILTER_FLAG_LOG
  ||| SECCOMP_FILTER_FLAG_SPEC_ALLOW ||| SECCOMP_FILTER_FLAG_TSYNC_ESRCH.

Definition kMaxSelectiveSeccompRules : Z := 192.
Definition kSelectiveSeccompBaseInstructionCount : Z := 5.
Definition kMaxSelectiveSeccompInstructions : Z :=
  kSelectiveSeccompBaseInstructionCount + 2 * kMaxSelectiveSeccompRules.

Record SelectiveSeccompRule := { syscall_number : Z; class_id : Z }.

Record sock_filter := { code : Z; jt : Z; jf : Z; k : Z }.
Definition zero_instruction : sock_filter := {| code := 0; jt := 0; jf := 0; k := 0 |}.
#[export] Instance sock_filter_inhabited : Inhabited sock_filter := populate zero_instruction.
#[export] Instance sock_filter_eq_dec : EqDecision sock_filter.
Proof. solve_decision. Defined.

(** The enumeration is its underlying value, as in the struct member. *)
Definition kKillProcess : Z := SECCOMP_RET_KILL_PROCESS.
Definition kAllow : Z := SECCOMP_RET_ALLOW.

Record SelectiveSeccompFilter := {
  instructions : list sock_filter;
  instruction_count : Z;
  rule_count : Z;
  arch_mismatch_action : Z;
}.

Definition zero_filter : SelectiveSeccompFilter :=
  {| instructions := replicate (Z.to_nat kMaxSelectiveSeccompInstructions) zero_instruction;
     instruction_count := 0; rule_count := 0; arch_mismatch_action := 0 |}.

(** ** The functions *)

Definition Statement (code value : Z) : sock_filter :=
  {| code := code; jt := 0; jf := 0; k := value |}.
Definition Jump (code value jump_true jump_false : Z) : sock_filter :=
  {| code := code; jt := jump_true; jf := jump_false; k := value |}.

Definition IsValidArchMismatchAction (action : Z) : bool :=
  (action =? kKillProcess) || (action =? kAllow).

Definition SameInstruction (l r : sock_filter) : bool :=
  (code l =? code r) && (jt l =? jt r) && (jf l =? jf r) && (k l =? k r).

Definition expected_prefix (arch_mismatch_action : Z) : list sock_filter :=
  [ Statement kLoadAbsoluteWord offsetof_arch;
    Jump kJumpEqualConstant AUDIT_ARCH_AARCH64 1 0;
    Statement kReturnConstant arch_mismatch_action;
    Statement kLoadAbsoluteWord offsetof_nr ].

Definition instr (f : SelectiveSeccompFilter) (i : nat) : sock_filter := instructions f !!! i.

(** The rule loop of [ValidateFilter], [n] rules before the end. *)
Fixpoint validate_rules (f : SelectiveSeccompFilter) (n rule_index : nat) : Z :=
  match n with
  | O => 0
  | S n =>
      let comparison := instr f (4 + 2 * rule_index) in
      let result := instr f (4 + 2 * rule_index + 1) in
      if negb (code comparison =? kJumpEqualConstant) || negb (jt comparison =? 0)
         || negb (jf comparison =? 1) || (INT32_MAX <? k comparison)
         || negb (code result =? kReturnConstant) || negb (jt result =? 0)
         || negb (jf result =? 0)
         || negb ((k result &&& SECCOMP_RET_ACTION_FULL) =? SECCOMP_RET_TRACE)
      then EINVAL
      else if existsb (fun previous => k (instr f (4 + 2 * previous)) =? k comparison)
                      (seq 0 rule_index)
      then EEXIST
      else validate_rules f n (S rule_index)
  end.

Definition ValidateFilter (f : SelectiveSeccompFilter) : Z :=
  if (kMaxSelectiveSeccompRules <? rule_count f)
     || negb (instruction_count f =? kSelectiveSeccompBaseInstructionCount + 2 * rule_count f)
  then EINVAL
  else if negb (IsValidArchMismatchAction (arch_mismatch_action f)) then EINVAL
  else if negb (forallb (fun index => SameInstruction (instr f index)
                           (expected_prefix (arch_mismatch_action f) !!! index)) (seq 0 4))
  then EINVAL
  else
    let error := validate_rules f (Z.to_nat (rule_count f)) 0 in
    if negb (error =? 0) then error
    else if negb (SameInstruction (instr f (Z.to_nat (instruction_count f - 1)))
                    (Statement kReturnConstant SECCOMP_RET_ALLOW))
    then EINVAL else 0.

(** The checks of the rules; [seen] are the rules before the current one. *)
Fixpoint check_rules (seen rules : list SelectiveSeccompRule) : Z :=
  match rules with
  | [] => 0
  | r :: rules =>
      if syscall_number r <? 0 then EINVAL
      else if existsb (fun p => syscall_number p =? syscall_number r) seen then EEXIST
      else check_rules (seen ++ [r]) rules
  end.

(** [candidate.instructions[cursor++] = ...] for each instruction in turn. *)
Definition put (state : list sock_filter * nat) (i : sock_filter) : list sock_filter * nat :=
  (<[state.2 := i]> state.1, S state.2).

Definition rule_instructions (r : SelectiveSeccompRule) : list sock_filter :=
  [ Jump kJumpEqualConstant (u32 (syscall_number r)) 0 1;
    Statement kReturnConstant (SECCOMP_RET_TRACE ||| u32 (class_id r)) ].

Definition BuildSelectiveSeccompFilter (rules : option (list SelectiveSeccompRule))
    (count arch_mismatch : Z) : Z * SelectiveSeccompFilter :=
  if (kMaxSelectiveSeccompRules <? count) || (negb (count =? 0) && bool_decide (rules = None))
     || negb (IsValidArchMismatchAction arch_mismatch)
  then (EINVAL, zero_filter)
  else
    let rules := take (Z.to_nat count) (default [] rules) in
    let error := check_rules [] rules in
    if negb (error =? 0) then (error, zero_filter)
    else
      let program := expected_prefix arch_mismatch ++ (rules ≫= rule_instructions)
                     ++ [Statement kReturnConstant SECCOMP_RET_ALLOW] in
      let '(array, cursor) := foldl put (instructions zero_filter, 0%nat) program in
      let candidate :=
        {| instructions := array;
           instruction_count := u16 (kSelectiveSeccompBaseInstructionCount + 2 * count);
           rule_count := u16 count; arch_mismatch_action := arch_mismatch |} in
      if negb (Z.of_nat cursor =? instruction_count candidate) then (EIO, zero_filter)
      else
        let validation_error := ValidateFilter candidate in
        if negb (validation_error =? 0) then (validation_error, zero_filter)
        else (0, candidate).

Definition IsRawError (result : Z) : bool := (result <? 0) && (-4095 <=? result).
Definition RawError (result : Z) : Z := if IsRawError result then - result else 0.

(** [seccomp] stands for the raw system call: its flags and the program. *)
Definition InstallSelectiveSeccompFilter (seccomp : Z -> list sock_filter -> Z)
    (filter : SelectiveSeccompFilter) (flags : Z) : Z * Z :=
  if negb ((flags &&& not32 kAllowedInstallFlags) =? 0)
     || (has flags SECCOMP_FILTER_FLAG_TSYNC_ESRCH && negb (has flags SECCOMP_FILTER_FLAG_TSYNC))
  then (EINVAL, 0)
  else
    let validation_error := ValidateFilter filter in
    if negb (validation_error =? 0) then (validation_error, 0)
    else
      let result := seccomp flags (take (Z.to_nat (instruction_count filter)) (instructions filter)) in
      let syscall_error := RawError result in
      if negb (syscall_error =? 0) then (syscall_error, 0)
      else if result =? 0 then (0, 0)
      else if has flags SECCOMP_FILTER_FLAG_TSYNC && (0 <? result) && (result <=? INT32_MAX)
      then (EBUSY, result) else (EIO, 0).

(** ** Specification: running classic BPF on [seccomp_data] *)

Record seccomp_data := { nr : Z; arch : Z }.

Definition load_word (d : seccomp_data) (offset : Z) : option Z :=
  if offset =? offsetof_nr then Some (u32 (nr d))
  else if offset =? offsetof_arch then Some (arch d) else None.

Fixpoint bpf (fuel : nat) (program : list sock_filter) (d : seccomp_data) (pc : nat) (acc : Z)
    : option Z :=
  match fuel with
  | O => None
  | S fuel =>
      i ← program !! pc;
      if code i =? kLoadAbsoluteWord then
        w ← load_word d (k i); bpf fuel program d (S pc) w
      else if code i =? kJumpEqualConstant then
        bpf fuel program d (S (pc + Z.to_nat (if acc =? k i then jt i else jf i))) acc
      else if code i =? kReturnConstant then Some (k i)
      else None
  end.

(** The program the kernel runs for a filter. *)
Definition run_filter (f : SelectiveSeccompFilter) (d : seccomp_data) : option Z :=
  let program := take (Z.to_nat (instruction_count f)) (instructions f) in
  bpf (length program) program d 0 0.

(** The decision a list of (number, verdict) pairs makes. *)
Fixpoint decide_rules (rules : list (Z * Z)) (number : Z) : Z :=
  match rules with
  | [] => SECCOMP_RET_ALLOW
  | (n, verdict) :: rules => if number =? n then verdict else decide_rules rules number
  end.

Definition decision (mismatch : Z) (rules : list (Z * Z)) (d : seccomp_data) : Z :=
  if arch d =? AUDIT_ARCH_AARCH64 then decide_rules rules (u32 (nr d)) else mismatch.

Definition pair_instructions (p : Z * Z) : list sock_filter :=
  [ Jump kJumpEqualConstant p.1 0 1; Statement kReturnConstant p.2 ].

Definition program_of (mismatch : Z) (rules : list (Z * Z)) : list sock_filter :=
  expected_prefix mismatch ++ (rules ≫= pair_instructions)
  ++ [Statement kReturnConstant SECCOMP_RET_ALLOW].

(** ** Running a program of that shape *)

Lemma bpf_jump fuel program d pc acc n t f :
  program !! pc = Some (Jump kJumpEqualConstant n t f) ->
  bpf (S fuel) program d pc acc
    = bpf fuel program d (S (pc + Z.to_nat (if acc =? n then t else f))) acc.
Proof. intros H. cbn [bpf]. by rewrite H. Qed.

Lemma bpf_load fuel program d pc acc offset w :
  program !! pc = Some (Statement kLoadAbsoluteWord offset) -> load_word d offset = Some w ->
  bpf (S fuel) program d pc acc = bpf fuel program d (S pc) w.
Proof. intros H Hw. cbn [bpf]. rewrite H. cbn -[load_word bpf]. by rewrite Hw. Qed.

Lemma bpf_return fuel program d pc acc v :
  program !! pc = Some (Statement kReturnConstant v) -> bpf (S fuel) program d pc acc = Some v.
Proof. intros H. cbn [bpf]. by rewrite H. Qed.

Lemma bpf_rules d program pre rules suf fuel acc :
  program = pre ++ (rules ≫= pair_instructions) ++ Statement kReturnConstant SECCOMP_RET_ALLOW :: suf ->
  (S (length rules) < fuel)%nat ->
  bpf fuel program d (length pre) acc = Some (decide_rules rules acc).
Proof.
  intros Hp Hf. revert pre fuel Hf Hp. induction rules as [|[n v] rules IH]; intros pre fuel Hf Hp.
  - destruct fuel as [|fuel]; [lia|]. apply bpf_return. rewrite Hp. by apply list_lookup_middle.
  - destruct fuel as [|[|fuel]]; simpl in Hf; [lia|lia|].
    rewrite bind_cons, <- app_assoc in Hp. cbn [pair_instructions app fst snd] in Hp.
    rewrite (bpf_jump _ _ _ _ _ n 0 1) by (rewrite Hp; by apply list_lookup_middle).
    cbn [decide_rules]. destruct (acc =? n) eqn:E.
    + apply bpf_return. rewrite Hp, lookup_app_r by lia.
      by replace (S (length pre + Z.to_nat 0) - length pre)%nat with 1%nat by lia.
    + replace (S (length pre + Z.to_nat 1)) with
        (length (pre ++ [Jump kJumpEqualConstant n 0 1; Statement kReturnConstant v]))
        by (rewrite length_app; simpl; lia).
      apply IH; [lia|]. by rewrite Hp, <- !app_assoc.
Qed.

Lemma length_pairs rules : length (rules ≫= pair_instructions) = (2 * length rules)%nat.
Proof. induction rules as [|r rules IH]; [done|]. rewrite bind_cons, length_app, IH. simpl. lia. Qed.

Lemma length_program mismatch rules :
  length (program_of mismatch rules) = (5 + 2 * length rules)%nat.
Proof. unfold program_of. rewrite !length_app, length_pairs. simpl. lia. Qed.

Lemma program_last mismatch rules :
  program_of mismatch rules !! (4 + 2 * length rules)%nat
    = Some (Statement kReturnConstant SECCOMP_RET_ALLOW).
Proof.
  unfold program_of. change 4%nat with (length (expected_prefix mismatch)).
  rewrite lookup_app_r by lia.
  replace (_ + 2 * length rules - _)%nat with (2 * length rules)%nat by lia.
  rewrite <- length_pairs. by rewrite lookup_app_r, Nat.sub_diag by lia.
Qed.

Lemma program_decides mismatch rules d suf :
  bpf (length (program_of mismatch rules)) (program_of mismatch rules ++ suf) d 0 0 =
  Some (decision mismatch rules d).
Proof.
  rewrite length_program. change (5 + 2 * length rules)%nat with (S (S (S (S (S (2 * length rules)))))).
  set (P := program_of mismatch rules ++ suf).
  rewrite (bpf_load _ P d 0 0 offsetof_arch (arch d)) by done.
  rewrite (bpf_jump _ P d 1 _ AUDIT_ARCH_AARCH64 1 0) by done. unfold decision.
  destruct (arch d =? AUDIT_ARCH_AARCH64); [|by apply bpf_return].
  rewrite (bpf_load _ P d 3 _ offsetof_nr (u32 (nr d))) by done.
  destruct rules as [|r rules]; [by apply bpf_return|].
  apply (bpf_rules d P (expected_prefix mismatch) (r :: rules) suf); [|simpl; lia].
  unfold P, program_of. by rewrite <- !app_assoc.
Qed.

(** ** From the instruction array to its rules *)

Definition filter_rules (f : SelectiveSeccompFilter) : list (Z * Z) :=
  (fun j => (k (instr f (4 + 2 * j)), k (instr f (4 + 2 * j + 1))))
    <$> seq 0 (Z.to_nat (rule_count f)).

Definition valid_rule (p : Z * Z) : Prop :=
  p.1 <= INT32_MAX /\ p.2 &&& SECCOMP_RET_ACTION_FULL = SECCOMP_RET_TRACE.

Lemma SameInstruction_spec a b : SameInstruction a b = true <-> a = b.
Proof.
  unfold SameInstruction. destruct a, b. simpl. rewrite !andb_true_iff, !Z.eqb_eq.
  split; [by intros [[[-> ->] ->] ->]|by intros [= -> -> -> ->]].
Qed.

Lemma take_pairs (arr : list sock_filter) rules pos :
  (forall j p, rules !! j = Some p ->
     arr !! (pos + 2 * j)%nat = Some (Jump kJumpEqualConstant p.1 0 1) /\
     arr !! (pos + 2 * j + 1)%nat = Some (Statement kReturnConstant p.2)) ->
  take (2 * length rules) (drop pos arr) = rules ≫= pair_instructions.
Proof.
  revert pos. induction rules as [|p rules IH]; intros pos H; [done|].
  rewrite bind_cons. cbn [pair_instructions app].
  destruct (H 0%nat p eq_refl) as [H1 H2]. rewrite Nat.mul_0_r, Nat.add_0_r in H1, H2.
  rewrite Nat.add_1_r in H2.
  rewrite <- (IH (S (S pos))).
  - replace (2 * length (p :: rules))%nat with (S (S (2 * length rules))) by (simpl; lia).
    by rewrite (drop_S _ _ _ H1), (drop_S _ _ _ H2).
  - intros j q Hj. destruct (H (S j) q Hj) as [Ha Hb]. rewrite <- Ha, <- Hb. split; f_equal; lia.
Qed.

(** What the loop of [ValidateFilter] has checked. *)
Definition rule_checked (f : SelectiveSeccompFilter) (j : nat) : Prop :=
  instr f (4 + 2 * j) = Jump kJumpEqualConstant (k (instr f (4 + 2 * j))) 0 1 /\
  instr f (4 + 2 * j + 1) = Statement kReturnConstant (k (instr f (4 + 2 * j + 1))) /\
  valid_rule (k (instr f (4 + 2 * j)), k (instr f (4 + 2 * j + 1))) /\
  forall p, (p < j)%nat -> k (instr f (4 + 2 * p)) <> k (instr f (4 + 2 * j)).

Lemma sock_filter_eta (i : sock_filter) :
  i = {| code := code i; jt := jt i; jf := jf i; k := k i |}.
Proof. by destruct i. Qed.

Lemma validate_rules_ok f n i :
  validate_rules f n i = 0 <-> forall j, (i <= j < i + n)%nat -> rule_checked f j.
Proof.
  revert i. induction n as [|n IH]; intros i; [split; [lia|done]|]. cbn [validate_rules].
  match goal with |- (if ?b then _ else _) = 0 <-> _ => destruct b eqn:E end.
  { split; [done|]. intros H. exfalso. destruct (H i ltac:(lia)) as (Hi1 & Hi2 & [Hi3 Hi4] & _).
    rewrite Hi1, Hi2 in E. simpl in E, Hi3, Hi4. rewrite Hi4 in E.
    unfold INT32_MAX in *. rewrite (proj2 (Z.ltb_ge _ _)) in E by lia. done. }
  bool_hyps. destruct (existsb _ _) eqn:Ex.
  { split; [done|]. intros Hall. exfalso. destruct (Hall i ltac:(lia)) as (_ & _ & _ & Hne).
    apply existsb_exists in Ex as (p & Hp & He). apply in_seq in Hp.
    apply (Hne p); lia. }
  rewrite IH. split; intros Hall j Hj; [|apply Hall; lia].
  destruct (decide (j = i)) as [->|]; [|apply Hall; lia].
  split_and!.
  - rewrite (sock_filter_eta (instr f (4 + 2 * i))) at 1. unfold Jump. f_equal; lia.
  - rewrite (sock_filter_eta (instr f (4 + 2 * i + 1))) at 1. unfold Statement. f_equal; lia.
  - unfold valid_rule. cbn [fst snd]. split; [lia|]. by apply Z.eqb_eq.
  - intros p Hp He. apply not_true_iff_false in Ex. apply Ex, existsb_exists.
    exists p. rewrite in_seq. lia.
Qed.

(** The array has its C size. *)
Definition filter_sized (f : SelectiveSeccompFilter) : Prop :=
  Z.of_nat (length (instructions f)) = kMaxSelectiveSeccompInstructions /\ 0 <= rule_count f.

Lemma instr_lookup f i :
  filter_sized f -> (i < 389)%nat -> instructions f !! i = Some (instr f i).
Proof.
  unfold filter_sized, kMaxSelectiveSeccompInstructions, kSelectiveSeccompBaseInstructionCount,
    kMaxSelectiveSeccompRules. intros [H _] Hi. apply list_lookup_lookup_total_lt. lia.
Qed.

Lemma ValidateFilter_inv f :
  ValidateFilter f = 0 ->
  rule_count f <= kMaxSelectiveSeccompRules /\
  instruction_count f = kSelectiveSeccompBaseInstructionCount + 2 * rule_count f /\
  IsValidArchMismatchAction (arch_mismatch_action f) = true /\
  (forall i, (i < 4)%nat -> instr f i = expected_prefix (arch_mismatch_action f) !!! i) /\
  (forall j, (j < Z.to_nat (rule_count f))%nat -> rule_checked f j) /\
  instr f (Z.to_nat (instruction_count f - 1)) = Statement kReturnConstant SECCOMP_RET_ALLOW.
Proof.
  unfold ValidateFilter. destruct (_ || _) eqn:E1; [done|]. bool_hyps.
  destruct (IsValidArchMismatchAction _) eqn:E2; [|done]. cbn [negb].
  destruct (forallb _ _) eqn:E3; [|done]. cbn [negb].
  destruct (Z.eqb_spec (validate_rules f (Z.to_nat (rule_count f)) 0) 0) as [E4|E4]; [|done].
  cbn [negb]. destruct (SameInstruction _ _) eqn:E5; [|done]. intros _.
  split_and!; try done; try lia.
  - intros i Hi. rewrite forallb_forall in E3. apply SameInstruction_spec, E3, in_seq. lia.
  - intros j Hj. rewrite validate_rules_ok in E4. apply E4. lia.
  - by apply SameInstruction_spec.
Qed.

Lemma validated_program f :
  filter_sized f -> ValidateFilter f = 0 ->
  take (Z.to_nat (instruction_count f)) (instructions f) =
    program_of (arch_mismatch_action f) (filter_rules f).
Proof.
  intros Hs (Hc & Hi & _ & Hpre & Hrules & Hlast)%ValidateFilter_inv.
  pose proof Hs as [_ H0]. unfold kMaxSelectiveSeccompRules, kSelectiveSeccompBaseInstructionCount in *.
  set (n := Z.to_nat (rule_count f)) in *.
  assert (Z.to_nat (instruction_count f) = 4 + (2 * n + 1))%nat as -> by lia.
  rewrite <- take_take_drop, <- take_take_drop. unfold program_of. f_equal; [|f_equal].
  - apply list_eq. intros i. destruct (decide (i < 4)%nat) as [Hlt|Hge].
    + rewrite lookup_take_lt by lia. rewrite (instr_lookup f i Hs) by lia. rewrite Hpre by done.
      symmetry. apply list_lookup_lookup_total_lt. simpl. lia.
    + rewrite !lookup_ge_None_2; [done|simpl; lia|rewrite length_take; lia].
  - replace n with (length (filter_rules f)) by (unfold filter_rules; by rewrite length_fmap, length_seq).
    apply take_pairs. intros j p Hj. unfold filter_rules in Hj.
    apply list_lookup_fmap_Some in Hj as (j' & -> & Hj'). apply lookup_seq in Hj' as [-> Hj'].
    simpl fst. simpl snd. rewrite !(instr_lookup f _ Hs) by lia.
    destruct (Hrules j Hj') as (H1 & H2 & _). simpl Nat.add in *. by rewrite <- H1, <- H2.
  - rewrite drop_drop. rewrite (drop_S _ (Statement kReturnConstant SECCOMP_RET_ALLOW)); [done|].
    rewrite (instr_lookup f _ Hs) by lia. f_equal. rewrite <- Hlast. f_equal. lia.
Qed.

(** ** Properties *)

(** C19 (safety): whatever filter passes [ValidateFilter], the kernel's
    interpreter always reaches a verdict on it: off arm64 the recorded mismatch
    action, for a listed system call the TRACE verdict of its rule, for every
    other one ALLOW; no system call is listed twice. *)
Theorem validated_filter_decides f d :
  filter_sized f -> ValidateFilter f = 0 ->
  run_filter f d = Some (decision (arch_mismatch_action f) (filter_rules f) d) /\
  NoDup (filter_rules f).*1 /\ Forall valid_rule (filter_rules f) /\
  (arch_mismatch_action f = SECCOMP_RET_KILL_PROCESS \/ arch_mismatch_action f = SECCOMP_RET_ALLOW).
Proof.
  intros Hs Hv. pose proof (validated_program f Hs Hv) as Hp.
  destruct (ValidateFilter_inv f Hv) as (_ & _ & Hm & _ & Hrules & _). split_and!.
  - unfold run_filter. rewrite Hp.
    pose proof (program_decides (arch_mismatch_action f) (filter_rules f) d []) as H.
    by rewrite app_nil_r in H.
  - unfold filter_rules. rewrite <- list_fmap_compose. apply NoDup_fmap_2_strong; [|apply NoDup_seq].
    intros i j Hi Hj He. apply elem_of_seq in Hi, Hj. simpl in He.
    destruct (Nat.lt_trichotomy i j) as [Hlt|[->|Hlt]]; [|done|].
    + destruct (Hrules j ltac:(lia)) as (_ & _ & _ & Hne). by destruct (Hne i Hlt).
    + destruct (Hrules i ltac:(lia)) as (_ & _ & _ & Hne). by destruct (Hne j Hlt).
  - apply Forall_elem. intros p Hp'. apply list_elem_of_fmap in Hp' as (j & -> & Hj).
    apply elem_of_seq in Hj. destruct (Hrules j ltac:(lia)) as (_ & _ & Hr & _). exact Hr.
  - unfold IsValidArchMismatchAction, kKillProcess, kAllow in Hm. lia.
Qed.

(** ** Building *)

Lemma foldl_put program (pre rest : list sock_filter) :
  (length program <= length rest)%nat ->
  foldl put (pre ++ rest, length pre) program =
    (pre ++ program ++ drop (length program) rest, (length pre + length program)%nat).
Proof.
  revert pre rest. induction program as [|i program IH]; intros pre rest Hl; simpl in *.
  - by rewrite Nat.add_0_r.
  - destruct rest as [|x rest]; simpl in Hl; [lia|].
    assert (put (pre ++ x :: rest, length pre) i = ((pre ++ [i]) ++ rest, length (pre ++ [i]))) as ->.
    { unfold put. cbn [fst snd]. rewrite length_app. simpl. rewrite <- (app_assoc pre [i] rest).
      f_equal; [|lia]. rewrite <- (Nat.add_0_r (length pre)) at 1. by rewrite insert_app_r. }
    rewrite IH by lia. rewrite <- app_assoc, length_app. simpl. f_equal. lia.
Qed.

Lemma foldl_put_start program (arr : list sock_filter) :
  (length program <= length arr)%nat ->
  foldl put (arr, 0%nat) program = (program ++ drop (length program) arr, length program).
Proof. apply (foldl_put program [] arr). Qed.

Definition rule_pair (r : SelectiveSeccompRule) : Z * Z :=
  (u32 (syscall_number r), SECCOMP_RET_TRACE ||| u32 (class_id r)).

Lemma rule_instructions_pair rules :
  rules ≫= rule_instructions = (rule_pair <$> rules) ≫= pair_instructions.
Proof. induction rules as [|r rules IH]; [done|]. rewrite fmap_cons, !bind_cons. by rewrite IH. Qed.

Lemma pairs_lookup rules j p :
  rules !! j = Some p ->
  (rules ≫= pair_instructions) !! (2 * j)%nat = Some (Jump kJumpEqualConstant p.1 0 1) /\
  (rules ≫= pair_instructions) !! (2 * j + 1)%nat = Some (Statement kReturnConstant p.2).
Proof.
  revert j. induction rules as [|q rules IH]; intros j Hj; [done|].
  destruct j as [|j]; [simpl in Hj; by simplify_eq|].
  destruct (IH j Hj) as [H1 H2]. rewrite bind_cons.
  replace (2 * S j)%nat with (S (S (2 * j))) by lia.
  replace (S (S (2 * j)) + 1)%nat with (S (S (2 * j + 1))) by lia. done.
Qed.

Lemma program_lookup mismatch rules i x :
  (rules ≫= pair_instructions) !! i = Some x -> program_of mismatch rules !! (4 + i)%nat = Some x.
Proof.
  intros H. unfold program_of. change 4%nat with (length (expected_prefix mismatch)).
  rewrite lookup_app_r by lia. replace (_ + i - _)%nat with i by lia.
  by apply lookup_app_l_Some.
Qed.

(** A program of the right shape passes the validation. *)
Lemma program_valid mismatch rules suf f :
  instructions f = program_of mismatch rules ++ suf ->
  rule_count f = Z.of_nat (length rules) -> rule_count f <= kMaxSelectiveSeccompRules ->
  instruction_count f = kSelectiveSeccompBaseInstructionCount + 2 * rule_count f ->
  arch_mismatch_action f = mismatch -> IsValidArchMismatchAction mismatch = true ->
  NoDup rules.*1 -> Forall valid_rule rules -> ValidateFilter f = 0.
Proof.
  intros Hins Hc Hmax Hic Ham Hm Hnd Hv. unfold ValidateFilter. rewrite Hic, Ham, Hm.
  rewrite (proj2 (Z.ltb_ge _ _)), Z.eqb_refl by lia. cbn [orb negb].
  assert (forall i x, (program_of mismatch rules) !! i = Some x -> instr f i = x) as Hi.
  { intros i x H. unfold instr. rewrite Hins. apply list_lookup_total_correct.
    by apply lookup_app_l_Some. }
  assert (forallb (fun index => SameInstruction (instr f index)
    (expected_prefix mismatch !!! index)) (seq 0 4) = true) as ->.
  { cbn [seq forallb]. rewrite !(proj2 (SameInstruction_spec _ _)); try done; by apply Hi. }
  assert (forall j p, rules !! j = Some p ->
     instr f (4 + 2 * j) = Jump kJumpEqualConstant p.1 0 1 /\
     instr f (4 + 2 * j + 1) = Statement kReturnConstant p.2) as Hp.
  { intros j p Hj. destruct (pairs_lookup rules j p Hj) as [H1 H2].
    rewrite <- Nat.add_assoc. split; by apply Hi, program_lookup. }
  assert (validate_rules f (Z.to_nat (rule_count f)) 0 = 0) as ->.
  { apply validate_rules_ok. intros j Hj. rewrite Hc, Nat2Z.id in Hj.
    destruct (lookup_lt_is_Some_2 rules j) as [p Hjp]; [lia|].
    destruct (Hp j p Hjp) as [H1 H2]. unfold rule_checked. rewrite H1, H2. split_and!; try done.
    - cbn [k Jump Statement]. rewrite <- surjective_pairing.
      by apply (Forall_elem_1 _ _ _ Hv), (list_elem_of_lookup_2 _ j).
    - intros q Hq. destruct (lookup_lt_is_Some_2 rules q) as [r Hr]; [lia|].
      destruct (Hp q r Hr) as [-> _]. cbn [k Jump]. intros He.
      assert (q = j); [|lia]. apply (NoDup_lookup _ _ _ p.1 Hnd); rewrite list_lookup_fmap.
      + by rewrite Hr, <- He.
      + by rewrite Hjp. }
  cbn [negb Z.eqb].
  rewrite (Hi _ (Statement kReturnConstant SECCOMP_RET_ALLOW)).
  - rewrite (proj2 (SameInstruction_spec _ _)); done.
  - rewrite Hc. unfold kSelectiveSeccompBaseInstructionCount.
    replace (Z.to_nat _) with (4 + 2 * length rules)%nat by lia. apply program_last.
Qed.

(** The rule checks of [BuildSelectiveSeccompFilter]. *)
Lemma check_rules_ok seen rules :
  NoDup (syscall_number <$> seen) ->
  (check_rules seen rules = 0 <->
   Forall (fun r => 0 <= syscall_number r) rules /\ NoDup (syscall_number <$> seen ++ rules)).
Proof.
  revert seen. induction rules as [|r rules IH]; intros seen Hs; simpl.
  - rewrite app_nil_r. split; [by repeat split|done].
  - rewrite Forall_cons.
    destruct (Z.ltb_spec (syscall_number r) 0); [split; [done|lia]|].
    destruct (existsb _ _) eqn:E.
    + split; [done|]. intros [_ Hnd]. exfalso.
      apply existsb_exists in E as (p & Hp & He%Z.eqb_eq). apply list_elem_of_In in Hp.
      rewrite fmap_app, fmap_cons in Hnd. apply NoDup_app in Hnd as (_ & Hd & _).
      apply (Hd (syscall_number p)); [by apply list_elem_of_fmap_2|].
      rewrite He. apply elem_of_cons. by left.
    + assert (syscall_number r ∉ syscall_number <$> seen) as Hnin.
      { intros (p & He & Hp)%list_elem_of_fmap. apply not_true_iff_false in E. apply E.
        apply existsb_exists. exists p. split; [by apply list_elem_of_In|lia]. }
      rewrite IH, <- app_assoc; [simpl; intuition|].
      rewrite fmap_app. apply NoDup_app. split_and!; [done| |apply NoDup_singleton].
      intros x Hx Hx'. apply list_elem_of_singleton in Hx' as ->. done.
Qed.

Lemma check_rules_errno seen rules :
  check_rules seen rules = 0 \/ check_rules seen rules = EINVAL \/ check_rules seen rules = EEXIST.
Proof. revert seen. induction rules; intros seen; simpl; [auto|]. split_ifs; auto. Qed.

Lemma trace_verdict c :
  0 <= c < 2 ^ 16 -> (SECCOMP_RET_TRACE ||| c) &&& SECCOMP_RET_ACTION_FULL = SECCOMP_RET_TRACE.
Proof.
  intros Hc. rewrite Z.land_lor_distr_l.
  assert (c &&& SECCOMP_RET_ACTION_FULL = 0) as ->; [|done].
  apply Z.bits_inj'. intros i Hi. rewrite Z.land_spec, Z.bits_0.
  destruct (Z.ltb_spec i 16).
  - change SECCOMP_RET_ACTION_FULL with (0xffff <<< 16).
    rewrite Z.shiftl_spec, (Z.testbit_neg_r 0xffff) by lia. apply andb_false_r.
  - by rewrite (testbit_high c 16) by lia.
Qed.

(** Arguments of their C types. *)
Definition rules_typed (rules : list SelectiveSeccompRule) : Prop :=
  Forall (fun r => - 2 ^ 31 <= syscall_number r < 2 ^ 31 /\ 0 <= class_id r < 2 ^ 16) rules.

Lemma build_candidate rules mismatch :
  rules_typed rules -> Z.of_nat (length rules) <= kMaxSelectiveSeccompRules ->
  IsValidArchMismatchAction mismatch = true -> check_rules [] rules = 0 ->
  exists f, BuildSelectiveSeccompFilter (Some rules) (Z.of_nat (length rules)) mismatch = (0, f) /\
    ValidateFilter f = 0 /\ filter_sized f /\ arch_mismatch_action f = mismatch /\
    take (Z.to_nat (instruction_count f)) (instructions f)
      = program_of mismatch (rule_pair <$> rules).
Proof.
  intros Ht Hl Hm Hchk. unfold BuildSelectiveSeccompFilter. rewrite Hm. cbn [negb].
  rewrite (proj2 (Z.ltb_ge _ _)) by lia. rewrite bool_decide_false by done. rewrite andb_false_r.
  cbn [orb]. rewrite Nat2Z.id. simpl default. rewrite firstn_all, Hchk. cbn [negb Z.eqb].
  rewrite rule_instructions_pair. fold (program_of mismatch (rule_pair <$> rules)).
  set (P := program_of mismatch (rule_pair <$> rules)).
  assert (length P = 5 + 2 * length rules)%nat as HP
    by (unfold P; by rewrite length_program, length_fmap).
  unfold kMaxSelectiveSeccompRules, kSelectiveSeccompBaseInstructionCount in *.
  rewrite foldl_put_start.
  2: { unfold zero_filter. cbn [instructions]. rewrite length_replicate. unfold kMaxSelectiveSeccompInstructions,
    kMaxSelectiveSeccompRules, kSelectiveSeccompBaseInstructionCount. lia. }
  cbn [instruction_count Nat.add]. rewrite !u16_small by lia. rewrite HP.
  replace (Z.of_nat (5 + 2 * length rules)) with (5 + 2 * Z.of_nat (length rules)) by lia.
  rewrite Z.eqb_refl. cbn [negb].
  apply (check_rules_ok []) in Hchk as [Hpos Hnd]; [|constructor]. simpl in Hnd.
  set (f := {| instructions := _ |}).
  assert (ValidateFilter f = 0) as Hval.
  { apply (program_valid mismatch (rule_pair <$> rules)
      (drop (5 + 2 * length rules) (instructions zero_filter)) f); try done.
    - unfold f; cbn [rule_count]. by rewrite length_fmap.
    - rewrite <- list_fmap_compose.
      erewrite list_fmap_ext; [exact Hnd|].
      { intros i r Hr. apply list_elem_of_lookup_2 in Hr. simpl. apply u32_small.
        pose proof (Forall_elem_1 _ _ _ Hpos Hr). pose proof (Forall_elem_1 _ _ _ Ht Hr).
        simpl in *. lia. }
    - apply Forall_elem. intros p Hp. apply list_elem_of_fmap in Hp as (r & -> & Hr).
      pose proof (Forall_elem_1 _ _ _ Hpos Hr). pose proof (Forall_elem_1 _ _ _ Ht Hr).
      simpl in *. unfold valid_rule, rule_pair, INT32_MAX. cbn [fst snd].
      rewrite !u32_small by lia. split; [lia|]. apply trace_verdict. lia. }
  rewrite Hval. cbn [negb Z.eqb]. exists f. split_and!; try done.
  - unfold filter_sized, f, zero_filter. cbn [instructions rule_count]. split; [|lia].
    rewrite length_app, length_drop, length_replicate. unfold kMaxSelectiveSeccompInstructions,
      kMaxSelectiveSeccompRules, kSelectiveSeccompBaseInstructionCount in *. lia.
  - unfold f. cbn [instruction_count instructions].
    replace (Z.to_nat (5 + 2 * Z.of_nat (length rules))) with (length P) by lia.
    by rewrite take_app_length.
Qed.

(** building succeeds exactly for at most 192 rules with
    distinct non-negative numbers and a known mismatch action; the program then
    sends exactly the listed system calls of arm64 to the tracer, tagged with
    their class, and allows every other one.  On every error the output stays
    cleared, and the internal consistency errors never occur. *)
Theorem build_filter_correct rules mismatch :
  rules_typed rules ->
  let '(error, f) := BuildSelectiveSeccompFilter (Some rules) (Z.of_nat (length rules)) mismatch in
  (error = 0 <-> Z.of_nat (length rules) <= kMaxSelectiveSeccompRules /\
     (mismatch = SECCOMP_RET_KILL_PROCESS \/ mismatch = SECCOMP_RET_ALLOW) /\
     Forall (fun r => 0 <= syscall_number r) rules /\ NoDup (syscall_number <$> rules)) /\
  (error = 0 -> ValidateFilter f = 0 /\ forall d, run_filter f d =
     Some (decision mismatch (rule_pair <$> rules) d)) /\
  (error <> 0 -> f = zero_filter /\ (error = EINVAL \/ error = EEXIST)).
Proof.
  intros Ht.
  assert (IsValidArchMismatchAction mismatch = true <->
    mismatch = SECCOMP_RET_KILL_PROCESS \/ mismatch = SECCOMP_RET_ALLOW) as Hmm.
  { unfold IsValidArchMismatchAction, kKillProcess, kAllow. rewrite orb_true_iff, !Z.eqb_eq. done. }
  destruct (decide (Z.of_nat (length rules) <= kMaxSelectiveSeccompRules)) as [Hl|Hl].
  2: { unfold BuildSelectiveSeccompFilter. rewrite (proj2 (Z.ltb_lt _ _)) by lia. cbn [orb].
       split_and!; [split; [done|intuition]|done|by auto]. }
  destruct (IsValidArchMismatchAction mismatch) eqn:Hm.
  2: { unfold BuildSelectiveSeccompFilter. rewrite Hm, orb_true_r.
       split_and!; [|done|by auto]. split; [done|]. intros (_ & H & _).
       apply Hmm in H. done. }
  pose proof (check_rules_ok [] rules) as Hchk. simpl in Hchk. specialize (Hchk ltac:(constructor)).
  destruct (decide (check_rules [] rules = 0)) as [H0|H0].
  - destruct (build_candidate rules mismatch Ht Hl Hm H0) as (f & -> & Hv & Hs & Ha & Hp).
    split_and!; [|intros _|done].
    + split; [|done]. intros _. apply Hchk in H0. split_and!; try tauto.
    + split; [done|]. intros d. unfold run_filter. rewrite Hp.
      pose proof (program_decides mismatch (rule_pair <$> rules) d []) as H.
      by rewrite app_nil_r in H.
  - unfold BuildSelectiveSeccompFilter. rewrite (proj2 (Z.ltb_ge _ _)), Hm by lia.
    rewrite bool_decide_false by done. rewrite andb_false_r. cbn [orb negb].
    rewrite Nat2Z.id. simpl default. rewrite firstn_all.
    rewrite (proj2 (Z.eqb_neq _ _) H0). cbn [negb].
    destruct (check_rules_errno [] rules) as [?|He]; [done|].
    split_and!; [|done|done]. split; [done|]. intros (_ & _ & Hr). by apply Hchk in Hr.
Qed.

(** installing succeeds exactly when the flags and the filter are
    valid and the kernel returns 0; the kernel only ever sees a validated
    program, and a failing thread id is reported exactly for a TSYNC conflict. *)
Theorem install_filter_outcome seccomp f flags :
  filter_sized f ->
  let program := take (Z.to_nat (instruction_count f)) (instructions f) in
  let flags_ok := flags &&& not32 kAllowedInstallFlags = 0 /\
    (has flags SECCOMP_FILTER_FLAG_TSYNC_ESRCH = true -> has flags SECCOMP_FILTER_FLAG_TSYNC = true) in
  let '(error, failed_tid) := InstallSelectiveSeccompFilter seccomp f flags in
  (error = 0 <-> flags_ok /\ ValidateFilter f = 0 /\ seccomp flags program = 0) /\
  (failed_tid <> 0 -> error = EBUSY /\ failed_tid = seccomp flags program /\ 0 < failed_tid /\
     has flags SECCOMP_FILTER_FLAG_TSYNC = true) /\
  (flags_ok -> ValidateFilter f = 0 ->
     program = program_of (arch_mismatch_action f) (filter_rules f)).
Proof.
  intros Hs. cbv zeta. pose proof (validated_program f Hs) as Hp.
  unfold InstallSelectiveSeccompFilter.
  destruct (Z.eqb_spec (flags &&& not32 kAllowedInstallFlags) 0) as [Hf|Hf]; cbn [negb orb].
  2: { split_and!; [split; [done|intuition]|done|tauto]. }
  destruct (has flags SECCOMP_FILTER_FLAG_TSYNC_ESRCH) eqn:He,
    (has flags SECCOMP_FILTER_FLAG_TSYNC) eqn:Htsync; cbn [andb negb].
  2: { split_and!; [split; [done|intros ((_ & H) & _); by specialize (H eq_refl)]|done|tauto]. }
  all: destruct (Z.eqb_spec (ValidateFilter f) 0) as [Hv|Hv]; cbn [negb];
    [|split_and!; [split; [done|intuition]|done|tauto]];
    unfold RawError, IsRawError;
    set (result := seccomp flags _);
    destruct ((result <? 0) && (-4095 <=? result)) eqn:Er; cbn [negb Z.eqb];
    [rewrite (proj2 (Z.eqb_neq _ _)) by lia; cbn [negb];
     split_and!; [split; [lia|intros (_ & _ & ?); lia]|done|auto]|];
    (destruct (Z.eqb_spec result 0) as [E0|E0]; [split_and!; auto; done|]);
    cbn [andb]; try destruct ((0 <? result) && (result <=? INT32_MAX)) eqn:Ep;
    (split_and!; [split; [done|intros (_ & _ & ?); done]| |auto]); try done;
    intros _; split_and!; done || lia.
Qed.

(** The filter for two system calls. *)
Definition sample_rules : list SelectiveSeccompRule :=
  [{| syscall_number := 57; class_id := 7 |}; {| syscall_number := 436; class_id := 9 |}].

Lemma sample_rules_typed : rules_typed sample_rules.
Proof. unfold rules_typed, sample_rules. repeat constructor; simpl; lia. Qed.

Definition sample_filter : SelectiveSeccompFilter :=
  (BuildSelectiveSeccompFilter (Some sample_rules) 2 kKillProcess).2.

Lemma sample_filter_sized : filter_sized sample_filter.
Proof. split; [vm_compute; reflexivity|vm_compute; discriminate]. Qed.

Lemma validated_filter_decides_witness :
  run_filter sample_filter {| nr := 436; arch := AUDIT_ARCH_AARCH64 |}
    = Some (SECCOMP_RET_TRACE ||| 9).
Proof.
  destruct (validated_filter_decides sample_filter {| nr := 436; arch := AUDIT_ARCH_AARCH64 |}
    sample_filter_sized ltac:(vm_compute; reflexivity)) as [H _].
  rewrite H. vm_compute. reflexivity.
Defined.

Lemma build_filter_correct_witness : ValidateFilter sample_filter = 0.
Proof.
  pose proof (build_filter_correct sample_rules kKillProcess sample_rules_typed) as H.
  change (Z.of_nat (length sample_rules)) with 2 in H. unfold sample_filter.
  destruct (BuildSelectiveSeccompFilter (Some sample_rules) 2 kKillProcess) as [error f] eqn:E.
  destruct H as (H1 & H2 & _). apply H2, H1. split_and!.
  - vm_compute. discriminate.
  - left. reflexivity.
  - unfold sample_rules. repeat constructor; simpl; lia.
  - vm_compute. repeat constructor; intros Hin; repeat (apply elem_of_cons in Hin as [Hin|Hin];
      [discriminate|]); by apply not_elem_of_nil in Hin.
Defined.

Lemma install_filter_outcome_witness :
  (InstallSelectiveSeccompFilter (fun _ _ => 0) sample_filter 1).1 = 0.
Proof.
  pose proof (install_filter_outcome (fun _ _ => 0) sample_filter 1 sample_filter_sized) as H.
  cbv zeta in H.
  destruct (InstallSelectiveSeccompFilter (fun _ _ => 0) sample_filter 1) as [error failed].
  destruct H as ([_ H] & _). apply H. split_and!; try reflexivity.
Defined.
