(* ===== verification/SeccompPlan.v ===== *)
(** * The selective seccomp plan

    Models [internal/selective_seccomp_plan.{h,cpp}]: the sorted union of the
    configured system calls with the ones the runtime depends on, the filter
    compiled from it, and the lookup. *)

From S2P Require Import Prelude Bits Arrays SeccompFilter.
From stdpp Require Import list sorting.
#[local] Open Scope Z_scope.

(** ** Constants *)

Definition HOOKSELF_ABI_VERSION : Z := 6.
Definition HOOKSELF_MAX_PATH_RULES : Z := 64.
Definition HOOKSELF_MAX_SYSCALL_RULES : Z := 128.
Definition HOOKSELF_MAX_VIRTUAL_FILES : Z := 64.
Definition HOOKSELF_SYSCALL_LIMIT : Z := 1024.
Definition HOOKSELF_CONFIG_OBSERVE_ALL : Z := 1 <<< 0.
Definition HOOKSELF_CONFIG_ENABLE_PATH_REDIRECT : Z := 1 <<< 5.
Definition HOOKSELF_CONFIG_ENABLE_VIRTUAL_FILES : Z := 1 <<< 6.
Definition HOOKSELF_CONFIG_ENABLE_PTRACE_VIEW : Z := 1 <<< 7.
Definition HOOKSELF_CONFIG_ENABLE_PROC_VIRTUAL_VIEW : Z := 1 <<< 9.
Definition HOOKSELF_CONFIG_ENABLE_NESTED_PTRACE : Z := 1 <<< 10.
Definition HOOKSELF_VFILE_SELINUX_CONTEXT : Z := 4.
Definition sizeof_HookselfConfig : Z := 616.

Definition kSelectiveSeccompPlanSchemaVersion : Z := 2.
Definition kSelectiveSeccompUnifiedClassId : Z := 0x4853.
Definition kArm64CloseRange : Z := 436.

(** dup3, fcntl, ioctl, close, close_range. *)
Definition kProtectedFdSyscalls : list Z := [24; 25; 29; 57; kArm64CloseRange].
(** dup, unshare, clone, clone3, execve, execveat, and the mount family. *)
Definition kPathStateSyscalls : list Z :=
  [23; 97; 220; 435; 221; 281; 40; 39; 41; 51; 428; 429; 442].
(** openat, openat2, newfstatat, statx, faccessat, faccessat2, readlinkat,
    unlinkat, mkdirat, mknodat, utimensat, fchmodat, fchownat, renameat,
    renameat2, linkat, symlinkat, chdir, fchdir, getcwd, execve, execveat. *)
Definition kPathPolicySyscalls : list Z :=
  [56; 437; 79; 291; 48; 439; 78; 35; 34; 33; 88; 53; 54; 38; 276; 37; 36; 49; 50; 17; 221; 281].
(** ptrace, prctl, read, pread64, readv. *)
Definition kPtraceAndStatusViewSyscalls : list Z := [117; 167; 63; 67; 65].
(** wait4, waitid. *)
Definition kNestedPtraceWaitSyscalls : list Z := [260; 95].
(** read, pread64, readv, getdents64. *)
Definition kProcVirtualViewSyscalls : list Z := [63; 67; 65; 61].
(** getxattr, lgetxattr, fgetxattr, listxattr, llistxattr, flistxattr. *)
Definition kVirtualOutputSyscalls : list Z := [8; 9; 10; 11; 12; 13].

(** ** Data *)

(** The members of the public configuration that the planner reads; [None] is
    a null array. *)
Record HookselfConfig := {
  config_struct_size : Z;
  abi_version : Z;
  config_flags : Z;
  path_rule_count : Z;
  path_rules : option unit;
  syscall_rule_count : Z;
  syscall_rules : option (list Z);      (* the syscall numbers of the rules *)
  virtual_file_count : Z;
  virtual_files : option (list Z);      (* the providers of the files *)
}.

Record SelectiveSeccompPlan := {
  schema_version : Z;
  plan_rule_count : Z;
  plan_class_id : Z;
  syscall_set_hash : Z;
  plan_rules : list SelectiveSeccompRule;
  plan_filter : SelectiveSeccompFilter;
}.

Definition zero_rule : SelectiveSeccompRule := {| syscall_number := 0; class_id := 0 |}.
#[export] Instance SelectiveSeccompRule_inhabited : Inhabited SelectiveSeccompRule :=
  populate zero_rule.

Definition zero_plan : SelectiveSeccompPlan :=
  {| schema_version := 0; plan_rule_count := 0; plan_class_id := 0; syscall_set_hash := 0;
     plan_rules := replicate (Z.to_nat kMaxSelectiveSeccompRules) zero_rule;
     plan_filter := zero_filter |}.

Definition set_rules (count : Z) (rules : list SelectiveSeccompRule) (p : SelectiveSeccompPlan) :=
  {| schema_version := schema_version p; plan_rule_count := count;
     plan_class_id := plan_class_id p; syscall_set_hash := syscall_set_hash p;
     plan_rules := rules; plan_filter := plan_filter p |}.
Definition set_hash (hash : Z) (p : SelectiveSeccompPlan) :=
  {| schema_version := schema_version p; plan_rule_count := plan_rule_count p;
     plan_class_id := plan_class_id p; syscall_set_hash := hash;
     plan_rules := plan_rules p; plan_filter := plan_filter p |}.
Definition set_filter (f : SelectiveSeccompFilter) (p : SelectiveSeccompPlan) :=
  {| schema_version := schema_version p; plan_rule_count := plan_rule_count p;
     plan_class_id := plan_class_id p; syscall_set_hash := syscall_set_hash p;
     plan_rules := plan_rules p; plan_filter := f |}.

(** ** The functions *)

Definition HasSelinuxVirtualProvider (config : HookselfConfig) : bool :=
  existsb (fun provider => provider =? HOOKSELF_VFILE_SELINUX_CONTEXT)
    (take (Z.to_nat (virtual_file_count config)) (default [] (virtual_files config))).

Definition kFnv1aOffsetBasis : Z := 14695981039346656037.
Definition kFnv1aPrime : Z := 1099511628211.

Definition HashByte (value hash : Z) : Z := u64 ((hash ^^^ value) * kFnv1aPrime).
Definition HashUint16 (value hash : Z) : Z :=
  HashByte (u8 (value >>> 8)) (HashByte (u8 value) hash).
Definition HashUint32 (value hash : Z) : Z :=
  foldl (fun hash shift => HashByte (u8 (value >>> shift)) hash) hash [0; 8; 16; 24].

Definition AddSortedSyscall (number : Z) (plan : SelectiveSeccompPlan) : Z * SelectiveSeccompPlan :=
  if (number <? 0) || (HOOKSELF_SYSCALL_LIMIT <=? number) then (EINVAL, plan)
  else
    let count := Z.to_nat (plan_rule_count plan) in
    let insertion := insert_position count (plan_rules plan)
                       (fun r => syscall_number r <? number) 0 in
    if (insertion <? count)%nat && (syscall_number (plan_rules plan !!! insertion) =? number)
    then (0, plan)
    else if kMaxSelectiveSeccompRules <=? plan_rule_count plan then (E2BIG, plan)
    else
      let rules := shift_up (count - insertion) insertion (plan_rules plan) in
      let rule := {| syscall_number := number; class_id := kSelectiveSeccompUnifiedClassId |} in
      (0, set_rules (u16 (plan_rule_count plan + 1)) (<[insertion := rule]> rules) plan).

Fixpoint AddSyscalls (syscalls : list Z) (plan : SelectiveSeccompPlan) : Z * SelectiveSeccompPlan :=
  match syscalls with
  | [] => (0, plan)
  | number :: syscalls =>
      let '(error, plan) := AddSortedSyscall number plan in
      if negb (error =? 0) then (error, plan) else AddSyscalls syscalls plan
  end.

Definition ValidateConfigShape (config : HookselfConfig) : Z :=
  if negb (config_struct_size config =? sizeof_HookselfConfig) then EINVAL
  else if negb (abi_version config =? HOOKSELF_ABI_VERSION) then EPROTONOSUPPORT
  else if (HOOKSELF_MAX_PATH_RULES <? path_rule_count config)
          || (negb (path_rule_count config =? 0) && bool_decide (path_rules config = None))
          || (HOOKSELF_MAX_SYSCALL_RULES <? syscall_rule_count config)
          || (negb (syscall_rule_count config =? 0) && bool_decide (syscall_rules config = None))
          || (HOOKSELF_MAX_VIRTUAL_FILES <? virtual_file_count config)
          || (negb (virtual_file_count config =? 0) && bool_decide (virtual_files config = None))
  then EINVAL
  else if has (config_flags config) HOOKSELF_CONFIG_OBSERVE_ALL then EOPNOTSUPP
  else 0.

Definition ComputePlanHash (plan : SelectiveSeccompPlan) : Z :=
  let hash := HashUint32 kSelectiveSeccompPlanSchemaVersion kFnv1aOffsetBasis in
  let hash := HashUint32 kKillProcess hash in
  let hash := HashUint16 (plan_class_id plan) hash in
  let hash := HashUint16 (plan_rule_count plan) hash in
  foldl (fun hash r => HashUint32 (u32 (syscall_number r)) hash) hash
    (take (Z.to_nat (plan_rule_count plan)) (plan_rules plan)).

(** [if (condition) { error = AddSyscalls(...); if (error != 0) return error; }] *)
Definition add_when (condition : bool) (syscalls : list Z) (state : Z * SelectiveSeccompPlan)
    : Z * SelectiveSeccompPlan :=
  let '(error, plan) := state in
  if negb (error =? 0) then state
  else if condition then AddSyscalls syscalls plan else state.

Definition configured (config : HookselfConfig) : list Z :=
  take (Z.to_nat (syscall_rule_count config)) (default [] (syscall_rules config)).

(** The additions of [BuildSelectiveSeccompPlan], in its order. *)
Definition collect (config : HookselfConfig) (candidate : SelectiveSeccompPlan)
    : Z * SelectiveSeccompPlan :=
  let flags := config_flags config in
  let state := (0, candidate) in
  let state := add_when true kProtectedFdSyscalls state in
  let state := add_when true kPathStateSyscalls state in
  let state := add_when true (configured config) state in
  let state := add_when (has flags (HOOKSELF_CONFIG_ENABLE_PATH_REDIRECT
                                    ||| HOOKSELF_CONFIG_ENABLE_VIRTUAL_FILES))
                 kPathPolicySyscalls state in
  let state := add_when (has flags HOOKSELF_CONFIG_ENABLE_VIRTUAL_FILES
                         && HasSelinuxVirtualProvider config)
                 kVirtualOutputSyscalls state in
  let state := add_when (has flags HOOKSELF_CONFIG_ENABLE_PTRACE_VIEW)
                 kPtraceAndStatusViewSyscalls state in
  let state := add_when (has flags HOOKSELF_CONFIG_ENABLE_NESTED_PTRACE)
                 kNestedPtraceWaitSyscalls state in
  add_when (has flags HOOKSELF_CONFIG_ENABLE_PROC_VIRTUAL_VIEW) kProcVirtualViewSyscalls state.

Definition empty_candidate : SelectiveSeccompPlan :=
  {| schema_version := kSelectiveSeccompPlanSchemaVersion; plan_rule_count := 0;
     plan_class_id := kSelectiveSeccompUnifiedClassId; syscall_set_hash := 0;
     plan_rules := plan_rules zero_plan; plan_filter := zero_filter |}.

Definition BuildSelectiveSeccompPlan (config : option HookselfConfig) : Z * SelectiveSeccompPlan :=
  match config with
  | None => (EINVAL, zero_plan)
  | Some config =>
      let shape_error := ValidateConfigShape config in
      if negb (shape_error =? 0) then (shape_error, zero_plan)
      else
        let '(error, candidate) := collect config empty_candidate in
        if negb (error =? 0) then (error, zero_plan)
        else
          let candidate := set_hash (ComputePlanHash candidate) candidate in
          let '(error, f) := BuildSelectiveSeccompFilter (Some (plan_rules candidate))
                               (plan_rule_count candidate) kKillProcess in
          if negb (error =? 0) then (error, zero_plan)
          else (0, set_filter f candidate)
  end.

(** The binary search; [None] when the fuel runs out. *)
Fixpoint lower_bound (fuel : nat) (rules : list SelectiveSeccompRule) (number : Z)
    (first last : nat) : option nat :=
  match fuel with
  | O => None
  | S fuel =>
      if (first <? last)%nat then
        let middle := (first + (last - first) / 2)%nat in
        if syscall_number (rules !!! middle) <? number
        then lower_bound fuel rules number (S middle) last
        else lower_bound fuel rules number first middle
      else Some first
  end.

(** The result and [*class_id]. *)
Definition FindSelectiveSeccompClass (plan : SelectiveSeccompPlan) (number : Z)
    : option (bool * Z) :=
  if (number <? 0) || negb (schema_version plan =? kSelectiveSeccompPlanSchemaVersion)
     || negb (plan_class_id plan =? kSelectiveSeccompUnifiedClassId)
     || (kMaxSelectiveSeccompRules <? plan_rule_count plan)
  then Some (false, 0)
  else
    let count := Z.to_nat (plan_rule_count plan) in
    first ← lower_bound (S count) (plan_rules plan) number 0 count;
    let rule := plan_rules plan !!! first in
    if (count <=? first)%nat || negb (syscall_number rule =? number)
       || negb (class_id rule =? plan_class_id plan)
    then Some (false, 0) else Some (true, class_id rule).

(** ** The plan as a set of system calls *)

Definition unified (number : Z) : SelectiveSeccompRule :=
  {| syscall_number := number; class_id := kSelectiveSeccompUnifiedClassId |}.

(** The plan holds the sorted numbers [ns] under the unified class. *)
Record holds_numbers (p : SelectiveSeccompPlan) (ns : list Z) : Prop := {
  hn_rules : exists rest, plan_rules p = (unified <$> ns) ++ rest /\
    length ((unified <$> ns) ++ rest) = 192%nat;
  hn_count : plan_rule_count p = Z.of_nat (length ns);
  hn_sorted : strictly_sorted ns;
  hn_range : Forall (fun n => 0 <= n < HOOKSELF_SYSCALL_LIMIT) ns;
  hn_schema : schema_version p = kSelectiveSeccompPlanSchemaVersion;
  hn_class : plan_class_id p = kSelectiveSeccompUnifiedClassId;
}.

Definition valid_number (n : Z) : bool := (0 <=? n) && (n <? HOOKSELF_SYSCALL_LIMIT).

Lemma AddSortedSyscall_spec n p ns :
  holds_numbers p ns -> (length ns < 192)%nat ->
  if valid_number n
  then exists p', AddSortedSyscall n p = (0, p') /\ holds_numbers p' (sinsert n ns)
  else AddSortedSyscall n p = (EINVAL, p).
Proof.
  intros [(rest & Hr & Hl) Hc Hs Hrange Hsc Hcl] Hlt. unfold AddSortedSyscall, valid_number.
  destruct ((0 <=? n) && (n <? HOOKSELF_SYSCALL_LIMIT)) eqn:Hn.
  2: { rewrite (proj2 (orb_true_iff _ _)); [done|lia]. }
  bool_hyps. rewrite (proj2 (orb_false_iff _ _)) by lia.
  rewrite length_app, length_fmap in Hl. destruct rest as [|x rest]; simpl in Hl; [lia|].
  rewrite Hc, Hr, Nat2Z.id.
  assert (Forall (fun n => 0 <= n < HOOKSELF_SYSCALL_LIMIT) (sinsert n ns)) as Hrange'.
  { apply Forall_elem. intros y [->|Hy]%sinsert_elem; [lia|]. by apply (Forall_elem_1 _ _ _ Hrange). }
  destruct (sorted_array_insert syscall_number unified ns rest x n ltac:(done))
    as [[-> He]|(-> & He & Hlen)]; rewrite ?He.
  - exists p. split; [done|]. split; try done.
    exists (x :: rest). rewrite length_app, length_fmap. by split.
  - unfold kMaxSelectiveSeccompRules. rewrite (proj2 (Z.leb_gt _ _)) by lia.
    eexists. split; [done|]. fold (unified n). rewrite He. split; try done.
    + exists rest. split; [done|]. rewrite length_app, length_fmap. lia.
    + cbn [plan_rule_count set_rules]. rewrite u16_small; lia.
    + by apply sinsert_sorted.
Qed.

Definition insert_all (syscalls ns : list Z) : list Z := foldl (fun ns n => sinsert n ns) ns syscalls.

Lemma insert_all_elem syscalls ns x : x ∈ insert_all syscalls ns <-> x ∈ syscalls \/ x ∈ ns.
Proof.
  revert ns. induction syscalls as [|n syscalls IH]; intros ns; simpl.
  - split; [by right|]. by intros [?%not_elem_of_nil|?].
  - unfold insert_all in *. simpl. rewrite IH, sinsert_elem, elem_of_cons. tauto.
Qed.

Lemma insert_all_length syscalls ns :
  (length (insert_all syscalls ns) <= length syscalls + length ns)%nat.
Proof.
  revert ns. induction syscalls as [|n syscalls IH]; intros ns; simpl; [done|].
  unfold insert_all in *. simpl. specialize (IH (sinsert n ns)). pose proof (sinsert_length n ns). lia.
Qed.

Lemma AddSyscalls_spec syscalls p ns :
  holds_numbers p ns -> (length syscalls + length ns <= 192)%nat ->
  if forallb valid_number syscalls
  then exists p', AddSyscalls syscalls p = (0, p') /\ holds_numbers p' (insert_all syscalls ns)
  else exists p', AddSyscalls syscalls p = (EINVAL, p').
Proof.
  revert p ns. induction syscalls as [|n syscalls IH]; intros p ns Hp Hl; simpl in *; [eauto|].
  pose proof (AddSortedSyscall_spec n p ns Hp ltac:(lia)) as Hadd.
  destruct (valid_number n); [|rewrite Hadd; simpl; eauto].
  destruct Hadd as (p' & -> & Hp'). cbn [negb Z.eqb andb].
  apply (IH p' (sinsert n ns) Hp'). pose proof (sinsert_length n ns). lia.
Qed.

(** ** The additions as one list *)

(** Everything a configuration selects, in the order it is added. *)
Definition selected (config : HookselfConfig) : list Z :=
  let flags := config_flags config in
  kProtectedFdSyscalls ++ kPathStateSyscalls ++ configured config
  ++ (if has flags (HOOKSELF_CONFIG_ENABLE_PATH_REDIRECT
                    ||| HOOKSELF_CONFIG_ENABLE_VIRTUAL_FILES) then kPathPolicySyscalls else [])
  ++ (if has flags HOOKSELF_CONFIG_ENABLE_VIRTUAL_FILES && HasSelinuxVirtualProvider config
      then kVirtualOutputSyscalls else [])
  ++ (if has flags HOOKSELF_CONFIG_ENABLE_PTRACE_VIEW then kPtraceAndStatusViewSyscalls else [])
  ++ (if has flags HOOKSELF_CONFIG_ENABLE_NESTED_PTRACE then kNestedPtraceWaitSyscalls else [])
  ++ (if has flags HOOKSELF_CONFIG_ENABLE_PROC_VIRTUAL_VIEW then kProcVirtualViewSyscalls else []).

Lemma AddSyscalls_app l l' p :
  AddSyscalls (l ++ l') p =
    let '(error, p') := AddSyscalls l p in
    if negb (error =? 0) then (error, p') else AddSyscalls l' p'.
Proof.
  revert p. induction l as [|n l IH]; intros p; simpl; [done|].
  destruct (AddSortedSyscall n p) as [error p']. destruct (negb (error =? 0)) eqn:E; [|apply IH].
  by rewrite E.
Qed.

Lemma add_when_spec c l l' p :
  add_when c l' (AddSyscalls l p) = AddSyscalls (l ++ (if c then l' else [])) p.
Proof.
  rewrite AddSyscalls_app. destruct (AddSyscalls l p) as [error p']. unfold add_when.
  destruct (negb (error =? 0)) eqn:E; [done|]. destruct c; [done|]. simpl.
  f_equal. lia.
Qed.

Lemma collect_selected config p : collect config p = AddSyscalls (selected config) p.
Proof.
  unfold collect. change (0, p) with (AddSyscalls [] p). rewrite !add_when_spec.
  unfold selected. by rewrite <- !app_assoc.
Qed.

(** The capacity argument behind [E2BIG] being unreachable. *)
Lemma selected_length config :
  syscall_rule_count config <= HOOKSELF_MAX_SYSCALL_RULES -> (length (selected config) <= 185)%nat.
Proof.
  unfold HOOKSELF_MAX_SYSCALL_RULES. intros Hc.
  assert (length (configured config) <= 128)%nat.
  { unfold configured. rewrite length_take. lia. }
  unfold selected. rewrite !length_app.
  repeat match goal with |- context [length (if ?b then ?l else [])] =>
    assert (length (if b then l else []) <= length l)%nat by (destruct b; simpl; lia);
    generalize dependent (length (if b then l else [])); intros end.
  simpl in *. lia.
Qed.

Lemma empty_holds : holds_numbers empty_candidate [].
Proof.
  split; try done; [|constructor]. exists (plan_rules zero_plan). split; [done|].
  unfold zero_plan. cbn [plan_rules fmap list_fmap app]. rewrite length_replicate. done.
Qed.

Definition shape_ok (c : HookselfConfig) : Prop := ValidateConfigShape c = 0.

Lemma shape_bounds c : shape_ok c -> syscall_rule_count c <= HOOKSELF_MAX_SYSCALL_RULES.
Proof.
  unfold shape_ok, ValidateConfigShape. intros H. split_ifs_in H; try done. bool_hyps. lia.
Qed.

Lemma fixed_valid c :
  forallb valid_number (selected c) = forallb valid_number (configured c).
Proof.
  unfold selected. rewrite !forallb_app.
  assert (forallb valid_number kProtectedFdSyscalls = true) as -> by done.
  assert (forallb valid_number kPathStateSyscalls = true) as -> by done.
  assert (forall (b : bool) l, forallb valid_number l = true ->
            forallb valid_number (if b then l else []) = true) as H by (by intros []).
  rewrite !H by done. by rewrite !andb_true_r.
Qed.

(** ** The lookup *)

Lemma sorted_lookup_lt ns i j x y :
  strictly_sorted ns -> ns !! i = Some x -> ns !! j = Some y -> (i < j)%nat -> x < y.
Proof.
  intros Hs. revert i j. induction Hs as [|z ns Hs IH Hz]; intros i j Hi Hj Hlt; [done|].
  destruct j as [|j]; [lia|]. destruct i as [|i]; simpl in *.
  - simplify_eq. by apply (Forall_elem_1 _ _ _ Hz), (list_elem_of_lookup_2 _ j).
  - apply (IH i j); [done|done|lia].
Qed.

Lemma holds_lookup p ns i n :
  holds_numbers p ns -> ns !! i = Some n -> plan_rules p !!! i = unified n.
Proof.
  intros [(rest & -> & _) _ _ _ _ _] Hi. apply list_lookup_total_correct.
  apply lookup_app_l_Some. by rewrite list_lookup_fmap, Hi.
Qed.

(** The search stops at the first number not below the wanted one. *)
Lemma lower_bound_spec fuel p ns n first last :
  holds_numbers p ns -> (first <= last <= length ns)%nat -> (last - first < fuel)%nat ->
  (forall i x, (i < first)%nat -> ns !! i = Some x -> x < n) ->
  (forall i x, (last <= i)%nat -> ns !! i = Some x -> n <= x) ->
  exists r, lower_bound fuel (plan_rules p) n first last = Some r /\ (r <= length ns)%nat /\
    (forall i x, (i < r)%nat -> ns !! i = Some x -> x < n) /\
    (forall i x, (r <= i)%nat -> ns !! i = Some x -> n <= x).
Proof.
  intros Hp. revert first last. induction fuel as [|fuel IH]; intros first last Hb Hf Hlo Hhi; [lia|].
  cbn [lower_bound]. destruct (Nat.ltb_spec first last) as [Hlt|Hge].
  2: { assert (first = last) as <- by lia. exists first. split_and!; try done; lia. }
  assert (first <= first + (last - first) / 2 < last)%nat as Hm.
  { pose proof (Nat.div_lt (last - first) 2). lia. }
  set (m := (first + (last - first) / 2)%nat) in *.
  destruct (lookup_lt_is_Some_2 ns m) as [x Hx]; [lia|].
  rewrite (holds_lookup p ns m x Hp Hx). cbn [syscall_number unified].
  destruct (Z.ltb_spec x n) as [Hxn|Hxn].
  - apply IH; [lia|lia| |done]. intros i y Hi Hy.
    destruct (decide (i = m)) as [->|]; [by simplify_eq|].
    trans x; [|done]. apply (sorted_lookup_lt ns i m); [apply Hp|done|done|lia].
  - apply IH; [lia|lia|done|]. intros i y Hi Hy.
    destruct (decide (i = m)) as [->|]; [by simplify_eq|].
    pose proof (sorted_lookup_lt ns m i x y (hn_sorted _ _ Hp) Hx Hy). lia.
Qed.

Lemma Find_spec p ns n :
  holds_numbers p ns ->
  FindSelectiveSeccompClass p n =
    Some (if bool_decide (n ∈ ns) then (true, kSelectiveSeccompUnifiedClassId) else (false, 0)).
Proof.
  intros Hp. pose proof Hp as [(rest & Hr & Hl) Hc Hs Hrange Hsc Hcl].
  rewrite length_app, length_fmap in Hl.
  unfold FindSelectiveSeccompClass. rewrite Hc, Hsc, Hcl, Nat2Z.id. unfold kMaxSelectiveSeccompRules.
  rewrite (proj2 (Z.ltb_ge 192 _)) by lia. rewrite Z.eqb_refl, orb_false_r.
  rewrite Z.eqb_refl. cbn [negb orb]. rewrite orb_false_r.
  destruct (Z.ltb_spec n 0).
  { rewrite bool_decide_false; [done|]. intros Hn.
    pose proof (Forall_elem_1 _ _ _ Hrange Hn). simpl in *. lia. }
  rewrite orb_false_r.
  destruct (lower_bound_spec (S (length ns)) p ns n 0 (length ns) Hp) as (r & -> & Hrl & Hlo & Hhi);
    [lia|lia|lia| |].
  { intros i x Hi Hx. apply lookup_lt_Some in Hx. lia. }
  simpl. destruct (Nat.leb_spec (length ns) r) as [Hge|Hlt].
  - cbn [orb]. rewrite bool_decide_false; [done|].
    intros [i Hi]%list_elem_of_lookup_1. pose proof (lookup_lt_Some _ _ _ Hi).
    specialize (Hlo i n ltac:(lia) Hi). lia.
  - destruct (lookup_lt_is_Some_2 ns r) as [x Hx]; [lia|].
    rewrite (holds_lookup p ns r x Hp Hx). cbn [syscall_number class_id unified orb].
    rewrite Z.eqb_refl. cbn [negb]. rewrite orb_false_r. destruct (Z.eqb_spec x n) as [->|Hne].
    + rewrite bool_decide_true; [done|]. by apply list_elem_of_lookup_2 in Hx.
    + rewrite bool_decide_false; [done|]. intros [i Hi]%list_elem_of_lookup_1.
      destruct (Nat.lt_trichotomy i r) as [Hir|[->|Hir]].
      * specialize (Hlo i n Hir Hi). lia.
      * simplify_eq.
      * pose proof (sorted_lookup_lt ns r i x n Hs Hx Hi Hir).
        specialize (Hhi r x (le_n _) Hx). lia.
Qed.

(** ** Building *)

Lemma build_prefix rs rest mm :
  BuildSelectiveSeccompFilter (Some (rs ++ rest)) (Z.of_nat (length rs)) mm =
  BuildSelectiveSeccompFilter (Some rs) (Z.of_nat (length rs)) mm.
Proof.
  unfold BuildSelectiveSeccompFilter. rewrite !bool_decide_false by done.
  rewrite Nat2Z.id. simpl default. by rewrite take_app_length, firstn_all.
Qed.

Lemma strictly_sorted_NoDup ns : strictly_sorted ns -> NoDup ns.
Proof.
  intros Hs. induction Hs as [|n ns Hs IH Hn]; constructor; [|done].
  intros Hin. pose proof (Forall_elem_1 _ _ _ Hn Hin). simpl in *. lia.
Qed.

Lemma numbers_unified (ns : list Z) : syscall_number <$> (unified <$> ns) = ns.
Proof. induction ns as [|n ns IH]; [done|]. simpl. f_equal. exact IH. Qed.

Lemma numbers_checked ns :
  strictly_sorted ns -> Forall (fun n => 0 <= n < HOOKSELF_SYSCALL_LIMIT) ns ->
  rules_typed (unified <$> ns) /\ check_rules [] (unified <$> ns) = 0.
Proof.
  intros Hs Hr. split.
  - apply Forall_elem. intros r (n & -> & Hn)%list_elem_of_fmap.
    pose proof (Forall_elem_1 _ _ _ Hr Hn). unfold HOOKSELF_SYSCALL_LIMIT in *. simpl in *.
    unfold kSelectiveSeccompUnifiedClassId. lia.
  - apply (check_rules_ok [] (unified <$> ns)); [constructor|]. rewrite app_nil_l. split.
    + apply Forall_elem. intros r (n & -> & Hn)%list_elem_of_fmap.
      pose proof (Forall_elem_1 _ _ _ Hr Hn). simpl in *. lia.
    + rewrite numbers_unified. by apply strictly_sorted_NoDup.
Qed.

Lemma build_shape config p : BuildSelectiveSeccompPlan (Some config) = (0, p) -> shape_ok config.
Proof.
  unfold BuildSelectiveSeccompPlan, shape_ok. intros Hp.
  destruct (Z.eqb_spec (ValidateConfigShape config) 0); [done|]. simpl in Hp. simplify_eq.
Qed.

Definition verdict_pair (n : Z) : Z * Z :=
  (n, SECCOMP_RET_TRACE ||| kSelectiveSeccompUnifiedClassId).

Lemma Build_spec config :
  shape_ok config ->
  if forallb valid_number (configured config)
  then exists p ns, BuildSelectiveSeccompPlan (Some config) = (0, p) /\ holds_numbers p ns /\
    (forall x, x ∈ ns <-> x ∈ selected config) /\ ValidateFilter (plan_filter p) = 0 /\
    (forall d, run_filter (plan_filter p) d = Some (decision kKillProcess (verdict_pair <$> ns) d))
  else BuildSelectiveSeccompPlan (Some config) = (EINVAL, zero_plan).
Proof.
  intros Hshape. pose proof (shape_bounds config Hshape) as Hb.
  pose proof (selected_length config Hb) as Hlen.
  unfold BuildSelectiveSeccompPlan. rewrite Hshape, collect_selected. cbn [negb Z.eqb].
  pose proof (AddSyscalls_spec (selected config) empty_candidate [] empty_holds) as Hadd.
  change (length []) with 0%nat in Hadd. specialize (Hadd ltac:(lia)).
  rewrite <- fixed_valid. destruct (forallb valid_number (selected config)).
  2: { by destruct Hadd as (p' & ->). }
  destruct Hadd as (p' & -> & Hp'). cbn [negb Z.eqb].
  pose proof (insert_all_length (selected config) []) as Hins. change (length []) with 0%nat in Hins.
  set (ns := insert_all (selected config) []) in *.
  pose proof Hp' as [(rest & Hr & Hl) Hc Hs Hrange Hsc Hcl].
  cbn [plan_rules plan_rule_count set_hash]. rewrite Hr, Hc.
  rewrite <- (length_fmap unified ns), build_prefix.
  destruct (numbers_checked ns Hs Hrange) as [Ht Hchk].
  destruct (build_candidate (unified <$> ns) kKillProcess Ht) as (f & -> & Hv & Hsz & Ha & Hprog);
    [rewrite length_fmap; unfold kMaxSelectiveSeccompRules; lia|done|done|].
  cbn [negb Z.eqb]. eexists _, ns. split; [done|]. split_and!.
  - split; try done. by exists rest.
  - intros x. unfold ns. rewrite insert_all_elem. split; [|by left]. by intros [?|?%not_elem_of_nil].
  - done.
  - intros d. unfold run_filter. cbn [plan_filter set_filter]. rewrite Hprog.
    pose proof (program_decides kKillProcess (rule_pair <$> (unified <$> ns)) d []) as H.
    rewrite app_nil_r in H. rewrite H. do 2 f_equal. rewrite <- list_fmap_compose.
    apply list_fmap_ext. intros i n Hn. apply list_elem_of_lookup_2 in Hn. simpl.
    pose proof (Forall_elem_1 _ _ _ Hrange Hn). unfold rule_pair, verdict_pair. simpl in *.
    unfold HOOKSELF_SYSCALL_LIMIT in *. by rewrite u32_small by lia.
Qed.

Lemma decide_verdicts ns number :
  decide_rules (verdict_pair <$> ns) number =
    if bool_decide (number ∈ ns) then SECCOMP_RET_TRACE ||| kSelectiveSeccompUnifiedClassId
    else SECCOMP_RET_ALLOW.
Proof.
  induction ns as [|n ns IH]; [done|]. cbn [fmap list_fmap decide_rules verdict_pair].
  destruct (Z.eqb_spec number n) as [->|Hne].
  - rewrite bool_decide_true; [done|]. apply elem_of_cons. by left.
  - rewrite IH. rewrite (bool_decide_ext (number ∈ n :: ns) (number ∈ ns)); [done|].
    rewrite elem_of_cons. tauto.
Qed.

(** ** Properties *)

(** planning succeeds exactly for a well-shaped configuration whose
    rules name system calls below the limit; its error is the shape error or
    EINVAL, never E2BIG, EEXIST or EIO (the worst-case union fits), and on
    every error the output stays cleared. *)
Theorem plan_outcome config :
  let '(error, p) := BuildSelectiveSeccompPlan (Some config) in
  (error = 0 <-> ValidateConfigShape config = 0 /\
     Forall (fun n => 0 <= n < HOOKSELF_SYSCALL_LIMIT) (configured config)) /\
  (error <> 0 -> p = zero_plan) /\
  (error = 0 \/ error = ValidateConfigShape config \/ error = EINVAL).
Proof.
  destruct (decide (ValidateConfigShape config = 0)) as [H0|H0].
  2: { unfold BuildSelectiveSeccompPlan. rewrite (proj2 (Z.eqb_neq _ _) H0). cbn [negb].
       split_and!; [split; [done|intuition]|done|auto]. }
  pose proof (Build_spec config H0) as Hb.
  assert (forallb valid_number (configured config) = true <->
    Forall (fun n => 0 <= n < HOOKSELF_SYSCALL_LIMIT) (configured config)) as Hv.
  { rewrite forallb_forall, Forall_elem. unfold valid_number.
    split; intros H x Hx; [|apply list_elem_of_In in Hx]; specialize (H x);
      [rewrite <- list_elem_of_In in H|]; specialize (H Hx); lia. }
  destruct (forallb valid_number (configured config)).
  - destruct Hb as (p & ns & -> & _). split_and!; [|done|auto]. split; [|done].
    intros _. split; [done|]. by apply Hv.
  - rewrite Hb. split_and!; [|done|auto]. split; [done|]. intros [_ H]. by apply Hv in H.
Qed.

(** a built plan lists, strictly sorted and below the limit,
    exactly the configured system calls and those the enabled features depend
    on; the lookup finds precisely these, under the unified class, and the
    binary search terminates. *)
Theorem plan_membership config p n :
  BuildSelectiveSeccompPlan (Some config) = (0, p) ->
  let listed := syscall_number <$> take (Z.to_nat (plan_rule_count p)) (plan_rules p) in
  strictly_sorted listed /\ (n ∈ listed <-> n ∈ selected config) /\
  FindSelectiveSeccompClass p n =
    Some (if bool_decide (n ∈ selected config) then (true, kSelectiveSeccompUnifiedClassId)
          else (false, 0)).
Proof.
  intros Hp. cbv zeta. pose proof (Build_spec config) as Hb.
  specialize (Hb (build_shape _ _ Hp)). destruct (forallb _ _); [|rewrite Hb in Hp; simplify_eq].
  destruct Hb as (p' & ns & Hb & Hns & Hel & _). rewrite Hp in Hb. simplify_eq.
  pose proof Hns as [(rest & Hr & Hl) Hc Hsort Hrange _ _].
  rewrite Hr, Hc, Nat2Z.id. rewrite <- (length_fmap unified ns) at 1 2. rewrite take_app_length.
  rewrite numbers_unified. split_and!; [done|apply Hel|].
  rewrite (Find_spec p' ns n Hns). by rewrite (bool_decide_ext _ _ (Hel n)).
Qed.

(** C35 (equivalence): the compiled filter and the lookup agree: on arm64 the
    kernel traces exactly the system calls the lookup finds, with the class the
    lookup returns, and allows the rest; other architectures are killed. *)
Theorem plan_filter_agrees config p n d :
  BuildSelectiveSeccompPlan (Some config) = (0, p) -> 0 <= n < 2 ^ 31 -> nr d = n ->
  exists found class, FindSelectiveSeccompClass p n = Some (found, class) /\
    ValidateFilter (plan_filter p) = 0 /\
    run_filter (plan_filter p) d = Some
      (if arch d =? AUDIT_ARCH_AARCH64 then
         if found : bool then SECCOMP_RET_TRACE ||| class else SECCOMP_RET_ALLOW
       else SECCOMP_RET_KILL_PROCESS).
Proof.
  intros Hp Hn Hd. pose proof (Build_spec config) as Hb.
  specialize (Hb (build_shape _ _ Hp)). destruct (forallb _ _); [|rewrite Hb in Hp; simplify_eq].
  destruct Hb as (p' & ns & Hb & Hns & Hel & Hv & Hrun). rewrite Hp in Hb. simplify_eq.
  rewrite (Find_spec p' (ns) (nr d) Hns).
  rewrite Hrun. unfold decision. rewrite u32_small by lia. rewrite decide_verdicts.
  destruct (bool_decide (nr d ∈ ns)); do 2 eexists; split_and!; try done;
    by destruct (arch d =? AUDIT_ARCH_AARCH64).
Qed.

(** Path redirection and one rule for write(2). *)
Definition sample_config : HookselfConfig :=
  {| config_struct_size := 616; abi_version := 6; config_flags := 32; path_rule_count := 0;
     path_rules := None; syscall_rule_count := 1; syscall_rules := Some [64];
     virtual_file_count := 0; virtual_files := None |}.
Definition sample_plan : SelectiveSeccompPlan := (BuildSelectiveSeccompPlan (Some sample_config)).2.

Lemma plan_membership_witness :
  FindSelectiveSeccompClass sample_plan 64 = Some (true, kSelectiveSeccompUnifiedClassId).
Proof.
  destruct (plan_membership sample_config sample_plan 64 ltac:(vm_compute; reflexivity))
    as (_ & _ & H).
  rewrite H. vm_compute. reflexivity.
Defined.

Lemma plan_filter_agrees_witness :
  exists found class, FindSelectiveSeccompClass sample_plan 63 = Some (found, class).
Proof.
  destruct (plan_filter_agrees sample_config sample_plan 63 {| nr := 63; arch := 0 |}
    ltac:(vm_compute; reflexivity) ltac:(lia) eq_refl) as (found & class & H & _).
  exists found, class. exact H.
Defined.
