(* ===== verification/SlotPool.v ===== *)
(** * Slot arrays with their bookkeeping

    The path state has seven arrays of slots, each with a count of the records
    in use and a hint where the scan for a free slot starts. [Pool] is one
    such array; the three ways the code changes one (store into a record, take
    a free slot, give a slot back) are defined here, with what they do to the
    partial function from slots to records in use ([get]) and to the number of
    records that satisfy a predicate ([count_if]). Slots are [Z], the values of
    the [uint32_t] variables. *)

From S2P Require Import Prelude SlotArray.
From stdpp Require Import list.
#[local] Open Scope Z_scope.

Record Pool (A : Type) := { p_records : list A; p_count : Z; p_hint : Z }.
Arguments Build_Pool {A}.
Arguments p_records {A}.
Arguments p_count {A}.
Arguments p_hint {A}.

Section Pools.
Context {A K : Type} `{SlotRecord A K} `{Inhabited A}.

Definition at_slot (p : Pool A) (s : Z) : A := p_records p !!! Z.to_nat s.

(** [records[s] = r]: the count and the hint stay. *)
Definition put (p : Pool A) (s : Z) (r : A) : Pool A :=
  Build_Pool (<[Z.to_nat s := r]> (p_records p)) (p_count p) (p_hint p).

(** A free slot is taken: [++count], AdvanceHint. *)
Definition occupy (p : Pool A) (s : Z) (r : A) : Pool A :=
  Build_Pool (<[Z.to_nat s := r]> (p_records p)) (u32 (p_count p + 1))
    (advance_hint s (Z.of_nat (length (p_records p)))).

(** A slot is given back with the cleared record: [--count], the hint is the slot. *)
Definition vacate (p : Pool A) (s : Z) (r : A) : Pool A :=
  Build_Pool (<[Z.to_nat s := r]> (p_records p)) (u32 (p_count p - 1)) s.

(** The FindFree functions. *)
Definition find_free (p : Pool A) : option Z := free_slot (p_hint p) (p_records p).

(** The record of a slot in use. *)
Definition get (p : Pool A) (s : Z) : option A :=
  if (0 <=? s) && (s <? Z.of_nat (length (p_records p))) && in_use (at_slot p s) then Some (at_slot p s) else None.

(** The number of records in use that satisfy the predicate. *)
Fixpoint count_list (P : A -> bool) (l : list A) : Z :=
  match l with [] => 0 | r :: l => (if in_use r && P r then 1 else 0) + count_list P l end.
Definition count_if (P : A -> bool) (p : Pool A) : Z := count_list P (p_records p).

(** ** The invariant of a pool *)

Record pool_ok (cap : Z) (vacant entry : A -> Prop) (p : Pool A) : Prop := {
  po_cap : 0 < cap < 2 ^ 31;
  po_slots : slots_ok (Z.to_nat cap) vacant entry (p_records p) (p_count p);
  po_hint : 0 <= p_hint p < cap }.

Lemma count_list_insert P l i r r' : l !! i = Some r ->
  count_list P (<[i := r']> l) =
  count_list P l - (if in_use r && P r then 1 else 0) + (if in_use r' && P r' then 1 else 0).
Proof.
  revert i. induction l as [|x l IH]; intros [|i] Hi; simplify_eq/=; [lia|]. rewrite (IH i) by done. lia.
Qed.

Lemma count_list_bounds P l : 0 <= count_list P l <= Z.of_nat (length l).
Proof. induction l as [|x l IH]; simpl; [lia|]. destruct (_ && _); lia. Qed.

Lemma count_list_pos P l : 0 < count_list P l <-> exists i r, l !! i = Some r /\ in_use r = true /\ P r = true.
Proof.
  induction l as [|x l IH]; simpl; [split; [lia|]; by intros (i & r & Hi & _)|].
  pose proof (count_list_bounds P l). destruct (in_use x && P x) eqn:E.
  - apply andb_true_iff in E as [E1 E2]. split; [intros _; by exists O, x|lia].
  - rewrite Z.add_0_l, IH. split.
    + intros (i & r & Hi & Hr). by exists (S i), r.
    + intros ([|i] & r & Hi & Hu & Hp); [simplify_eq/=; by rewrite Hu, Hp in E|by exists i, r].
Qed.

Lemma count_list_two P l i j r r' : i <> j -> l !! i = Some r -> l !! j = Some r' ->
  in_use r = true -> P r = true -> in_use r' = true -> P r' = true -> 2 <= count_list P l.
Proof.
  revert i j. induction l as [|x l IH]; intros i j Hij Hi Hj Hu Hp Hu' Hp'; [done|]. simpl.
  pose proof (count_list_bounds P l). destruct i as [|i], j as [|j]; simplify_eq/=.
  - rewrite Hu, Hp. simpl. assert (0 < count_list P l); [|lia]. apply count_list_pos. by exists j, r'.
  - rewrite Hu', Hp'. simpl. assert (0 < count_list P l); [|lia]. apply count_list_pos. by exists i, r.
  - specialize (IH i j ltac:(congruence) Hi Hj Hu Hp Hu' Hp'). destruct (_ && _); lia.
Qed.

Lemma count_list_le (P Q : A -> bool) l : (forall r, in_use r = true -> P r = true -> Q r = true) ->
  count_list P l <= count_list Q l.
Proof.
  intros HPQ. induction l as [|x l IH]; simpl; [lia|]. specialize (HPQ x).
  destruct (in_use x), (P x), (Q x); simpl; lia.
Qed.

Lemma count_list_ext (P Q : A -> bool) l : (forall r, P r = Q r) -> count_list P l = count_list Q l.
Proof. intros HPQ. induction l as [|x l IH]; simpl; [done|]. by rewrite IH, HPQ. Qed.

Lemma count_list_used l : count_list (fun _ => true) l = used l.
Proof. induction l as [|x l IH]; simpl; [done|]. rewrite IH. unfold weight. by rewrite andb_true_r. Qed.

(** The first record in use that satisfies the predicate, by its slot: the
    search loops of the Find functions. *)
Definition search (P : A -> bool) (p : Pool A) : option Z :=
  option_map Z.of_nat (find_index (fun r => in_use r && P r) (p_records p)).

Section Ok.
Context {cap : Z} {vacant entry : A -> Prop} {p : Pool A}.
Hypothesis Hok : pool_ok cap vacant entry p.

Lemma pool_length : Z.of_nat (length (p_records p)) = cap.
Proof. destruct Hok as [Hc Hs _]. rewrite (so_length _ _ _ _ _ Hs). lia. Qed.

Lemma at_slot_lookup s : 0 <= s < cap -> p_records p !! Z.to_nat s = Some (at_slot p s).
Proof. intros Hs. apply list_lookup_lookup_total_lt. pose proof pool_length. lia. Qed.

Lemma get_Some s r : get p s = Some r <-> 0 <= s < cap /\ r = at_slot p s /\ in_use r = true.
Proof.
  unfold get. rewrite pool_length. split.
  - destruct (_ && _) eqn:E; [|done]. intros [= <-]. bool_hyps. split_and!; [lia|lia|done|done].
  - intros (Hs & -> & Hu). rewrite Hu. replace (_ && _) with true by lia. done.
Qed.

Lemma get_None s : 0 <= s < cap -> get p s = None -> in_use (at_slot p s) = false.
Proof. intros Hs. unfold get. rewrite pool_length. replace (_ && _) with (in_use (at_slot p s)) by lia. by destruct (in_use _). Qed.

Lemma get_entry_at s r : get p s = Some r -> entry_at (p_records p) (Z.to_nat s) r.
Proof. intros (Hs & -> & Hu)%get_Some. split; [by apply at_slot_lookup|done]. Qed.

Lemma entry_at_get i r : entry_at (p_records p) i r -> get p (Z.of_nat i) = Some r.
Proof.
  intros [Hi Hu]. apply get_Some. pose proof pool_length. pose proof (lookup_lt_Some _ _ _ Hi).
  split_and!; [lia|lia| |done]. unfold at_slot. rewrite Nat2Z.id. symmetry. by apply list_lookup_total_correct.
Qed.

Lemma get_range s r : get p s = Some r -> 0 <= s < cap.
Proof. by intros (Hs & _)%get_Some. Qed.

Lemma get_at s r : get p s = Some r -> at_slot p s = r.
Proof. by intros (_ & -> & _)%get_Some. Qed.

Lemma get_entry s r : get p s = Some r -> entry r /\ sr_slot r = s.
Proof.
  intros Hg. pose proof (get_range s r Hg). pose proof (get_entry_at s r Hg) as He.
  destruct (entry_at_ok _ _ _ _ (po_slots _ _ _ _ Hok) He) as (Hr & _ & Hs & _). split; [done|lia].
Qed.

Lemma get_occupied s r : get p s = Some r -> sr_occupied r <= 1.
Proof.
  intros Hg. pose proof (get_entry_at s r Hg) as [Hi Hu].
  destruct (so_record _ _ _ _ _ (po_slots _ _ _ _ Hok) _ _ Hi) as [[Hn _]|(_ & Ho & _)]; [congruence|done].
Qed.

(** A record stored over one in use, with the same [occupied] word. *)
Lemma stays_in_use s r r' : get p s = Some r -> sr_occupied r' = sr_occupied r -> in_use r' = true /\ sr_occupied r' <= 1.
Proof.
  intros Hg E. pose proof (get_occupied s r Hg). apply get_Some in Hg as (_ & _ & Hu). unfold in_use in *. rewrite E. done.
Qed.

Lemma get_in_use s r : get p s = Some r -> in_use r = true.
Proof. by intros (_ & _ & Hu)%get_Some. Qed.

(** Two slots with the same key are one. *)
Lemma get_unique s s' r r' : get p s = Some r -> get p s' = Some r' -> sr_key r = sr_key r' -> s = s'.
Proof.
  intros Hg Hg' Hk. pose proof (get_range _ _ Hg). pose proof (get_range _ _ Hg').
  apply get_entry_at in Hg as [Hi Hu], Hg' as [Hi' Hu'].
  pose proof (so_unique _ _ _ _ _ (po_slots _ _ _ _ Hok) _ _ _ _ Hi Hi' Hu Hu' Hk). lia.
Qed.

(** ** Searching *)

Lemma search_Some P s : search P p = Some s -> exists r, get p s = Some r /\ P r = true.
Proof.
  unfold search. destruct (find_index _ _) as [i|] eqn:E; [|done]. intros [= <-].
  apply find_index_Some in E as (r & Hi & HP). apply andb_true_iff in HP as [Hu HP]. exists r.
  split; [by apply entry_at_get|done].
Qed.

Lemma search_None P : search P p = None -> forall s r, get p s = Some r -> P r = false.
Proof.
  unfold search. destruct (find_index _ _) eqn:E; [done|]. intros _ s r Hg. pose proof (get_in_use s r Hg) as Hu.
  apply get_entry_at in Hg as [Hi _]. pose proof (find_index_None _ _ E _ _ Hi) as HP. simpl in HP. by rewrite Hu in HP.
Qed.

(** A search for a property only one record can have. *)
Lemma search_found P s r : get p s = Some r -> P r = true ->
  (forall s' r', get p s' = Some r' -> P r' = true -> s' = s) -> search P p = Some s.
Proof.
  intros Hg HP Hu. destruct (search P p) as [s'|] eqn:E.
  - apply search_Some in E as (r' & Hg' & HP'). f_equal. by eapply Hu.
  - by rewrite (search_None P E s r Hg) in HP.
Qed.

Lemma find_free_Some s : find_free p = Some s -> 0 <= s < cap /\ get p s = None /\ in_use (at_slot p s) = false.
Proof.
  intros Hf. pose proof pool_length as Hl. destruct Hok as [Hc _ Hh]. rewrite <- Hl in Hc, Hh.
  apply free_slot_Some in Hf as (Hs & r & Hr & Hu); [|lia..]. rewrite Hl in Hs. split; [done|].
  assert (at_slot p s = r) as E by (by apply list_lookup_total_correct). rewrite E. split; [|done].
  unfold get. by rewrite E, Hu, andb_false_r.
Qed.

Lemma find_free_not_full : p_count p < cap -> exists s, find_free p = Some s.
Proof.
  intros Hlt. pose proof pool_length as Hl. destruct Hok as [Hc Hs Hh]. rewrite <- (so_count _ _ _ _ _ Hs) in Hlt.
  rewrite <- Hl in Hc, Hh, Hlt. apply free_slot_not_full; lia.
Qed.

(** ** Counting *)

Lemma count_if_all : p_count p = count_if (fun _ => true) p.
Proof. unfold count_if. rewrite count_list_used. symmetry. apply (po_slots _ _ _ _ Hok). Qed.

Lemma count_if_bounds P : 0 <= count_if P p <= p_count p.
Proof.
  rewrite count_if_all. unfold count_if. split; [apply count_list_bounds|by apply count_list_le].
Qed.

Lemma p_count_bounds : 0 <= p_count p <= cap.
Proof.
  rewrite <- pool_length. rewrite count_if_all. apply count_list_bounds.
Qed.

Lemma count_if_pos P : 0 < count_if P p <-> exists s r, get p s = Some r /\ P r = true.
Proof.
  unfold count_if. rewrite count_list_pos. split.
  - intros (i & r & Hi & Hu & HP). exists (Z.of_nat i), r. split; [by apply entry_at_get|done].
  - intros (s & r & Hg & HP). pose proof (get_in_use s r Hg). apply get_entry_at in Hg as [Hi _]. by exists (Z.to_nat s), r.
Qed.

Lemma count_if_zero P : count_if P p = 0 <-> forall s r, get p s = Some r -> P r = false.
Proof.
  pose proof (count_if_bounds P). split.
  - intros Hz s r Hg. destruct (P r) eqn:HP; [|done]. assert (0 < count_if P p); [|lia]. apply count_if_pos. by exists s, r.
  - intros Hn. destruct (decide (0 < count_if P p)) as [(s & r & Hg & HP)%count_if_pos|]; [|lia].
    by rewrite (Hn s r Hg) in HP.
Qed.

(** A single record in use with the property is the only one. *)
Lemma count_if_one P s s' r r' : count_if P p <= 1 -> get p s = Some r -> P r = true ->
  get p s' = Some r' -> P r' = true -> s' = s.
Proof.
  intros H1 Hg HP Hg' HP'. destruct (decide (s' = s)) as [|Hne]; [done|]. exfalso.
  pose proof (get_range _ _ Hg). pose proof (get_range _ _ Hg').
  pose proof (get_in_use _ _ Hg). pose proof (get_in_use _ _ Hg').
  apply get_entry_at in Hg as [Hi _], Hg' as [Hi' _].
  assert (2 <= count_if P p); [|lia]. eapply (count_list_two P _ (Z.to_nat s') (Z.to_nat s)); eauto. lia.
Qed.
End Ok.

(** ** Changing one slot *)

Lemma at_slot_insert_eq (p : Pool A) s r : 0 <= s < Z.of_nat (length (p_records p)) ->
  <[Z.to_nat s := r]> (p_records p) !!! Z.to_nat s = r.
Proof. intros Hs. apply list_lookup_total_insert_eq. lia. Qed.

Lemma get_stored (p p' : Pool A) s r : p_records p' = <[Z.to_nat s := r]> (p_records p) ->
  0 <= s < Z.of_nat (length (p_records p)) -> forall s', 0 <= s' \/ get p s' = None ->
  get p' s' = if decide (s' = s) then (if in_use r then Some r else None) else get p s'.
Proof.
  intros Hp Hs s' Hs'. unfold get, at_slot. rewrite Hp, length_insert. destruct (decide (s' = s)) as [->|Hne].
  - rewrite at_slot_insert_eq by done. replace (_ && _) with (in_use r) by lia. by destruct (in_use r).
  - destruct (0 <=? s') eqn:E; [|done]. rewrite list_lookup_total_insert_ne by lia. done.
Qed.

Lemma get_negative (p : Pool A) s : s < 0 -> get p s = None.
Proof. intros Hs. unfold get. by replace (0 <=? s) with false by lia. Qed.

Lemma get_store (p p' : Pool A) s r : p_records p' = <[Z.to_nat s := r]> (p_records p) ->
  0 <= s < Z.of_nat (length (p_records p)) -> forall s',
  get p' s' = if decide (s' = s) then (if in_use r then Some r else None) else get p s'.
Proof.
  intros Hp Hs s'. apply get_stored; [done..|]. destruct (decide (s' < 0)); [right; by apply get_negative|left; lia].
Qed.

Section Change.
Context {cap : Z} {vacant entry : A -> Prop} {p : Pool A}.
Hypothesis Hok : pool_ok cap vacant entry p.

Lemma get_put s r r' : get p s = Some r -> in_use r' = true -> forall s',
  get (put p s r') s' = if decide (s' = s) then Some r' else get p s'.
Proof.
  intros Hg Hu s'. rewrite (get_store p (put p s r') s r' eq_refl); [by rewrite Hu|].
  rewrite (pool_length Hok). by eapply get_range.
Qed.

Lemma get_occupy s r : find_free p = Some s -> in_use r = true -> forall s',
  get (occupy p s r) s' = if decide (s' = s) then Some r else get p s'.
Proof.
  intros (Hs & _)%(find_free_Some Hok) Hu s'. rewrite (get_store p (occupy p s r) s r eq_refl); [by rewrite Hu|].
  by rewrite (pool_length Hok).
Qed.

Lemma get_vacate s r0 r : get p s = Some r0 -> in_use r = false -> forall s',
  get (vacate p s r) s' = if decide (s' = s) then None else get p s'.
Proof.
  intros Hg Hu s'. rewrite (get_store p (vacate p s r) s r eq_refl); [by rewrite Hu|].
  rewrite (pool_length Hok). by eapply get_range.
Qed.

Definition one (b : bool) : Z := if b then 1 else 0.

Lemma count_put P s r r' : get p s = Some r -> in_use r' = true ->
  count_if P (put p s r') = count_if P p - one (P r) + one (P r').
Proof.
  intros Hg Hu. pose proof (get_in_use Hok _ _ Hg) as Hu0. apply (get_entry_at Hok) in Hg as [Hi _]. unfold count_if.
  cbn [put p_records]. rewrite (count_list_insert P _ _ _ _ Hi), Hu0, Hu. done.
Qed.

Lemma count_occupy P s r : find_free p = Some s -> in_use r = true ->
  count_if P (occupy p s r) = count_if P p + one (P r).
Proof.
  intros (Hs & _ & Hn)%(find_free_Some Hok) Hu. unfold count_if. cbn [occupy p_records].
  rewrite (count_list_insert P _ _ _ _ (at_slot_lookup Hok s Hs)), Hn, Hu. unfold one. simpl. lia.
Qed.

Lemma count_vacate P s r0 r : get p s = Some r0 -> in_use r = false ->
  count_if P (vacate p s r) = count_if P p - one (P r0).
Proof.
  intros Hg Hu. pose proof (get_in_use Hok _ _ Hg) as Hu0. apply (get_entry_at Hok) in Hg as [Hi _]. unfold count_if.
  cbn [vacate p_records]. rewrite (count_list_insert P _ _ _ _ Hi), Hu0, Hu. unfold one. simpl. lia.
Qed.

Lemma pool_ok_put s r r' : get p s = Some r -> sr_slot r' = s -> in_use r' = true -> sr_occupied r' <= 1 -> entry r' ->
  (forall s' r0, get p s' = Some r0 -> sr_key r0 = sr_key r' -> s' = s) -> pool_ok cap vacant entry (put p s r').
Proof.
  intros Hg Hs Hu Ho He Hk. destruct (get_entry Hok _ _ Hg) as [_ Hsl]. pose proof (get_range Hok _ _ Hg).
  pose proof (get_entry_at Hok _ _ Hg) as [Hi Hu0]. destruct Hok as [Hc Hsk Hh]. split; [done| |done].
  cbn [put p_records p_count].
  replace (p_count p) with (p_count p - weight r + weight r') by (unfold weight; rewrite Hu0, Hu; lia).
  eapply slots_ok_set; eauto.
  - lia.
  - by right.
  - intros _ j r0 Hj Hr0 Hkk. apply Hj. specialize (Hk _ _ (entry_at_get Hok _ _ Hr0) Hkk). lia.
Qed.

Lemma pool_ok_occupy s r : find_free p = Some s -> sr_slot r = s -> sr_occupied r = 1 -> entry r ->
  (forall s' r0, get p s' = Some r0 -> sr_key r0 <> sr_key r) -> pool_ok cap vacant entry (occupy p s r).
Proof.
  intros (Hs & _ & Hn)%(find_free_Some Hok) Hsl Ho He Hk. pose proof (at_slot_lookup Hok s Hs) as Hi.
  pose proof (pool_length Hok) as Hlen. pose proof (p_count_bounds Hok). pose proof (po_cap _ _ _ _ Hok).
  split; [done| |].
  - cbn [occupy p_records p_count]. rewrite u32_small by lia.
    eapply slots_ok_fill; eauto; [apply Hok|lia|]. intros j r0 Hr0. apply (Hk (Z.of_nat j)). by apply (entry_at_get Hok).
  - cbn [occupy p_hint]. rewrite Hlen. apply advance_hint_range; lia.
Qed.

Lemma pool_ok_vacate s r0 r : get p s = Some r0 -> sr_slot r = s -> in_use r = false -> vacant r ->
  pool_ok cap vacant entry (vacate p s r).
Proof.
  intros Hg Hsl Hu Hv. pose proof (get_range Hok _ _ Hg). pose proof (get_entry_at Hok _ _ Hg) as He.
  pose proof (p_count_bounds Hok). pose proof (po_cap _ _ _ _ Hok).
  assert (0 < p_count p) as Hpos.
  { rewrite (count_if_all Hok). apply (count_if_pos Hok). by exists s, r0. }
  split; [done| |done]. cbn [vacate p_records p_count]. rewrite u32_small by lia.
  eapply slots_ok_clear; eauto; [apply Hok|lia].
Qed.
End Change.
End Pools.

(** A field of the record of a slot, 0 when the slot is free. *)
Definition field {A K} `{SlotRecord A K} `{Inhabited A} (f : A -> Z) (p : Pool A) (s : Z) : Z :=
  match get p s with Some r => f r | None => 0 end.

Section Field.
Context {A K : Type} `{SlotRecord A K} `{Inhabited A} {cap : Z} {vacant entry : A -> Prop} {p : Pool A}.
Hypothesis Hok : pool_ok cap vacant entry p.

Lemma field_get f s r : get p s = Some r -> field f p s = f r.
Proof. unfold field. by intros ->. Qed.

Lemma field_pos f s : 0 < field f p s -> exists r, get p s = Some r /\ field f p s = f r.
Proof. unfold field. destruct (get p s) as [r|]; [|lia]. by exists r. Qed.

Lemma field_put f s r r' : get p s = Some r -> in_use r' = true -> forall x,
  field f (put p s r') x = if decide (x = s) then f r' else field f p x.
Proof. intros Hg Hu x. unfold field. rewrite (get_put Hok _ _ _ Hg Hu). by destruct (decide _). Qed.

(** The other fields do not see an update. *)
Lemma field_same f s r r' : get p s = Some r -> in_use r' = true -> f r' = f r -> forall x,
  field f (put p s r') x = field f p x.
Proof.
  intros Hg Hu Hf x. rewrite (field_put f s r r' Hg Hu). destruct (decide _) as [->|]; [|done].
  by rewrite (field_get f s r Hg), Hf.
Qed.

Lemma field_occupy f s r : find_free p = Some s -> in_use r = true -> forall x,
  field f (occupy p s r) x = if decide (x = s) then f r else field f p x.
Proof. intros Hg Hu x. unfold field. rewrite (get_occupy Hok _ _ Hg Hu). by destruct (decide _). Qed.

Lemma field_vacate f s r r' : get p s = Some r -> in_use r' = false -> forall x,
  field f (vacate p s r') x = if decide (x = s) then 0 else field f p x.
Proof. intros Hg Hu x. unfold field. rewrite (get_vacate Hok _ _ _ Hg Hu). by destruct (decide _). Qed.

Lemma field_free f s : find_free p = Some s -> field f p s = 0.
Proof. intros (_ & Hn & _)%(find_free_Some Hok). unfold field. by rewrite Hn. Qed.

Lemma count_if_le (P Q : A -> bool) : (forall r, P r = true -> Q r = true) -> count_if P p <= count_if Q p.
Proof. intros HPQ. apply count_list_le. auto. Qed.

(** A count does not see an update that keeps the predicate. *)
Lemma count_same P s r r' : get p s = Some r -> in_use r' = true -> P r' = P r ->
  count_if P (put p s r') = count_if P p.
Proof. intros Hg Hu HP. rewrite (count_put Hok P s r r' Hg Hu), HP. lia. Qed.
End Field.

(** A pool of cleared records. *)
Definition cleared_pool {A} (clear : Z -> A) (cap : Z) : Pool A := Build_Pool (clear <$> seqZ 0 cap) 0 0.

Lemma cleared_pool_ok {A K} `{SlotRecord A K} `{Inhabited A} (clear : Z -> A) cap (vacant entry : A -> Prop) :
  0 < cap < 2 ^ 31 -> (forall s, sr_slot (clear s) = s /\ in_use (clear s) = false /\ vacant (clear s)) ->
  pool_ok cap vacant entry (cleared_pool clear cap) /\ (forall s, get (cleared_pool clear cap) s = None) /\
  (forall P, count_if P (cleared_pool clear cap) = 0).
Proof.
  intros Hc Hcl.
  assert (forall i r, (clear <$> seqZ 0 cap) !! i = Some r -> r = clear (Z.of_nat i)) as Hl.
  { intros i r (z & -> & Hz)%list_lookup_fmap_Some. apply lookup_seqZ in Hz as [-> _]. f_equal. }
  assert (forall i r, (clear <$> seqZ 0 cap) !! i = Some r -> in_use r = false) as Hn.
  { intros i r ->%Hl. apply Hcl. }
  assert (forall P l, (forall i r, l !! i = Some r -> in_use r = false) -> count_list P l = 0) as Hz.
  { intros P l. induction l as [|x l IH]; [done|]. intros Hx. simpl. rewrite (Hx O x eq_refl). simpl. apply IH.
    intros i r Hi. by apply (Hx (S i)). }
  split_and!.
  - split; [done| |cbn; lia]. cbn [cleared_pool p_records p_count]. split.
    + by rewrite length_fmap, length_seqZ.
    + intros i r ->%Hl. apply Hcl.
    + intros i r Hi. left. split; [by eapply Hn|]. apply Hl in Hi as ->. apply Hcl.
    + intros i j r r' Hi _ Hu. rewrite (Hn i r Hi) in Hu. done.
    + rewrite <- count_list_used. by apply Hz.
  - intros s. unfold get. destruct (_ && _) eqn:E; [|done]. exfalso. bool_hyps.
    assert ((clear <$> seqZ 0 cap) !! Z.to_nat s = Some (at_slot (cleared_pool clear cap) s)) as Hi.
    { apply list_lookup_lookup_total_lt. cbn [cleared_pool p_records] in *. lia. }
    apply Hn in Hi. congruence.
  - intros P. by apply Hz.
Qed.
