(* ===== verification/GuestPath.v ===== *)
(** * Path texts of the path state (tracer/path_state/storage_validation.inc)

    The string functions of the path state. A [char] array of
    [HOOKSELF_PATH_CAPACITY] bytes and a C string are both the list of their
    bytes, where every byte past the end of the list is NUL; a [const char*]
    that the code tests for null is an [option]. *)

From S2P Require Import Prelude.
From stdpp Require Import list.
#[local] Open Scope Z_scope.

Definition HOOKSELF_PATH_CAPACITY : nat := 512.
Definition ENAMETOOLONG : Z := 36.

Definition Path : Type := list Z.
Definition char_at (p : Path) (i : nat) : Z := nth i p 0.

Definition SLASH : Z := 47.
Definition DOT : Z := 46.

(** ** Validation *)

Definition ValidateAbsolutePath (path : option Path) : Z :=
  match path with
  | None => EINVAL
  | Some p =>
    if negb (char_at p 0 =? SLASH) then EINVAL
    else if existsb (fun i => char_at p i =? 0) (seq 1 (HOOKSELF_PATH_CAPACITY - 1)) then 0
    else ENAMETOOLONG
  end.

Fixpoint length_loop (p : Path) (n i : nat) : Z + nat :=
  match n with
  | O => inl ENAMETOOLONG
  | S n => if char_at p i =? 0 then inr i else length_loop p n (S i)
  end.
Definition PathLength (path : option Path) : Z + nat :=
  match path with
  | None => inl EINVAL
  | Some p => length_loop p HOOKSELF_PATH_CAPACITY 0
  end.

(** The loop over the characters up to and including [length]. *)
Fixpoint segments_loop (p : Path) (length n i segment_start : nat) : Z :=
  match n with
  | O => 0
  | S n =>
    if negb (i =? length)%nat && negb (char_at p i =? SLASH) then segments_loop p length n (S i) segment_start
    else
      let segment_length := (i - segment_start)%nat in
      if (segment_length =? 0)%nat ||
         (segment_length =? 1)%nat && (char_at p segment_start =? DOT) ||
         (segment_length =? 2)%nat && (char_at p segment_start =? DOT) && (char_at p (segment_start + 1) =? DOT)
      then EINVAL
      else segments_loop p length n (S i) (i + 1)
  end.

Definition ValidateCanonicalPath (path : option Path) : Z :=
  match PathLength path, path with
  | inl error, _ => error
  | inr _, None => EINVAL
  | inr length, Some p =>
    if (length =? 0)%nat || negb (char_at p 0 =? SLASH) ||
       (1 <? length)%nat && (char_at p (length - 1) =? SLASH) then EINVAL
    else if (length =? 1)%nat then 0
    else segments_loop p length length 1 1
  end.

Fixpoint equals_loop (left right : Path) (n i : nat) : bool :=
  match n with
  | O => false
  | S n =>
    if negb (char_at left i =? char_at right i) then false
    else if char_at left i =? 0 then true
    else equals_loop left right n (S i)
  end.
Definition PathEquals (left right : Path) : bool := equals_loop left right HOOKSELF_PATH_CAPACITY 0.

Fixpoint padded_loop (p : Path) (n i : nat) (terminated : bool) : bool :=
  match n with
  | O => terminated
  | S n =>
    if terminated && negb (char_at p i =? 0) then false
    else padded_loop p n (S i) (terminated || (char_at p i =? 0))
  end.
Definition PathStorageIsPadded (p : Path) : bool := padded_loop p HOOKSELF_PATH_CAPACITY 0 false.

Definition PathStorageIsEmpty (p : Path) : bool :=
  forallb (fun i => char_at p i =? 0) (seq 0 HOOKSELF_PATH_CAPACITY).

(** ** Prefixes *)

Definition PathPrefixMatches (path prefix : Path) (prefix_length : nat) : bool :=
  if forallb (fun i => char_at path i =? char_at prefix i) (seq 0 prefix_length) then
    (prefix_length =? 1)%nat && (char_at prefix 0 =? SLASH) ||
    (char_at path prefix_length =? 0) || (char_at path prefix_length =? SLASH)
  else false.

(** The bytes of [input] from [from] on, [n] of them. *)
Definition bytes (input : Path) (from n : nat) : Path := char_at input <$> seq from n.

(** The error, or the output. *)
Definition SubstitutePathPrefix (input old_prefix new_prefix : Path) : Z + Path :=
  match PathLength (Some input) with
  | inl error => inl error
  | inr input_length =>
    match PathLength (Some old_prefix) with
    | inl error => inl error
    | inr old_length =>
      match PathLength (Some new_prefix) with
      | inl error => inl error
      | inr new_length =>
        if negb (PathPrefixMatches input old_prefix old_length) then inl EINVAL
        else
          let suffix := if (old_length =? 1)%nat then (if (input_length =? 1)%nat then input_length else 1%nat)
                        else old_length in
          let new_is_root := (new_length =? 1)%nat && (char_at new_prefix 0 =? SLASH) in
          let suffix := if new_is_root && (suffix <? input_length)%nat && (char_at input suffix =? SLASH)
                        then S suffix else suffix in
          let needs_separator := negb new_is_root && (suffix <? input_length)%nat &&
                                 negb (char_at input suffix =? SLASH) in
          let suffix_length := (input_length - suffix)%nat in
          if (HOOKSELF_PATH_CAPACITY <? new_length + (if needs_separator then 1 else 0) + suffix_length + 1)%nat
          then inl ENAMETOOLONG
          else inr (bytes new_prefix 0 new_length ++ (if needs_separator then [SLASH] else []) ++
                    bytes input suffix suffix_length)
      end
    end
  end.

(** The bytes before the first NUL. *)
Fixpoint c_string (p : Path) : Path :=
  match p with
  | [] => []
  | b :: p => if b =? 0 then [] else b :: c_string p
  end.

(** The destination after the copy. *)
Definition CopyPath (source : option Path) : Path :=
  match source with
  | None => []
  | Some p => take (HOOKSELF_PATH_CAPACITY - 1) (c_string p)
  end.

(** ** Origins *)

(** enum PathOriginFlags *)
Definition kPathOriginGuestValid : Z := 1.
Definition kPathOriginHostValid : Z := 2.
Definition kPathOriginRedirected : Z := 4.
Definition kPathOriginReverseVisible : Z := 8.
Definition kPathOriginDeleted : Z := 16.
Definition kPathOriginAmbiguous : Z := 32.
Definition kPathOriginProtected : Z := 64.
Definition kPathOriginKnownFlags : Z :=
  kPathOriginGuestValid ||| kPathOriginHostValid ||| kPathOriginRedirected ||| kPathOriginReverseVisible |||
  kPathOriginDeleted ||| kPathOriginAmbiguous ||| kPathOriginProtected.
Definition both_valid : Z := kPathOriginGuestValid ||| kPathOriginHostValid.

(** [path != nullptr && path[0] != 0] *)
Definition non_empty (path : option Path) : bool :=
  match path with None => false | Some p => negb (char_at p 0 =? 0) end.

Definition ValidateOrigin (flags : Z) (guest_path host_path : option Path) : Z :=
  if negb ((flags &&& not32 kPathOriginKnownFlags) =? 0) then EINVAL
  else if has flags (kPathOriginRedirected ||| kPathOriginReverseVisible) &&
          negb ((flags &&& both_valid) =? both_valid) then EINVAL
  else
    let guest_error :=
      if has flags kPathOriginGuestValid then ValidateAbsolutePath guest_path
      else if non_empty guest_path then EINVAL else 0 in
    if negb (guest_error =? 0) then guest_error
    else if has flags kPathOriginHostValid then ValidateAbsolutePath host_path
    else if non_empty host_path then EINVAL else 0.
