(* ===== verification/GuestPathText.v ===== *)
(** * Canonical paths as lists of components

    The meaning of the path functions: a canonical path is the text of a list
    of components, a prefix of a path is a prefix of the list, and substituting
    a prefix replaces the front of the list. *)

From S2P Require Import Prelude GuestPath.
From stdpp Require Import list strings.
#[local] Open Scope Z_scope.

(** ** The text of a C string *)

Definition nul_free (t : Path) : Prop := Forall (fun b => b <> 0) t.

Lemma c_string_nul_free p : nul_free (c_string p).
Proof. induction p as [|b p IH]; [constructor|]. simpl. destruct (Z.eqb_spec b 0); [constructor|by constructor]. Qed.

Lemma c_string_id t : nul_free t -> c_string t = t.
Proof. induction 1 as [|b t Hb _ IH]; [done|]. simpl. destruct (Z.eqb_spec b 0); [done|by rewrite IH]. Qed.

Lemma char_at_text p i : (i <= length (c_string p))%nat -> char_at p i = char_at (c_string p) i.
Proof.
  unfold char_at. revert i. induction p as [|b p IH]; intros i Hi; [done|]. simpl in *.
  destruct (Z.eqb_spec b 0) as [->|]; [by destruct i; [|simpl in Hi; lia]|]. destruct i; [done|]. apply IH. simpl in Hi. lia.
Qed.

Lemma char_at_lt t i : nul_free t -> (i < length t)%nat -> char_at t i <> 0.
Proof.
  intros Ht Hi. unfold char_at. destruct (nth_lookup_or_length t i 0) as [E|]; [|lia].
  eapply Forall_lookup_1 in Ht; [exact Ht|exact E].
Qed.

Lemma char_at_end t i : (length t <= i)%nat -> char_at t i = 0.
Proof. apply nth_overflow. Qed.

Lemma char_at_app_l t1 t2 i : (i < length t1)%nat -> char_at (t1 ++ t2) i = char_at t1 i.
Proof. apply app_nth1. Qed.

Lemma char_at_app_r t1 t2 i : char_at (t1 ++ t2) (length t1 + i) = char_at t2 i.
Proof. unfold char_at. rewrite app_nth2 by lia. f_equal. lia. Qed.

(** ** Lengths *)

Lemma length_loop_spec p n i : (i <= length (c_string p))%nat ->
  length_loop p n i = if (length (c_string p) <? i + n)%nat then inr (length (c_string p)) else inl ENAMETOOLONG.
Proof.
  revert i. induction n as [|n IH]; intros i Hi; simpl; [by replace (_ <? _)%nat with false by lia|].
  rewrite char_at_text by done. destruct (decide (i = length (c_string p))) as [->|].
  - rewrite char_at_end, Z.eqb_refl by done. by replace (_ <? _)%nat with true by lia.
  - pose proof (char_at_lt _ i (c_string_nul_free p) ltac:(lia)). replace (_ =? 0) with false by lia.
    rewrite IH by lia. by rewrite Nat.add_succ_r.
Qed.

(** The length of the text, when it and its NUL fit. *)
Lemma PathLength_spec p : PathLength (Some p) =
  if (length (c_string p) <? HOOKSELF_PATH_CAPACITY)%nat then inr (length (c_string p)) else inl ENAMETOOLONG.
Proof. unfold PathLength. apply (length_loop_spec p HOOKSELF_PATH_CAPACITY 0). lia. Qed.

(** ** Components *)

Definition component (c : list Z) : Prop :=
  c <> [] /\ c <> [DOT] /\ c <> [DOT; DOT] /\ Forall (fun b => b <> 0 /\ b <> SLASH) c.

Definition joined (cs : list (list Z)) : Path := concat (cons SLASH <$> cs).

(** The text of a list of components; the empty list is the root. *)
Definition render (cs : list (list Z)) : Path := match cs with [] => [SLASH] | _ => joined cs end.

(** [p] holds the canonical path with these components. *)
Definition denotes (p : Path) (cs : list (list Z)) : Prop :=
  c_string p = render cs /\ Forall component cs /\ (length (render cs) < HOOKSELF_PATH_CAPACITY)%nat.

Definition good_segment (c : list Z) : bool :=
  negb ((length c =? 0)%nat || (length c =? 1)%nat && (char_at c 0 =? DOT) ||
        (length c =? 2)%nat && (char_at c 0 =? DOT) && (char_at c 1 =? DOT)).

Lemma good_segment_spec c : good_segment c = true <-> c <> [] /\ c <> [DOT] /\ c <> [DOT; DOT].
Proof.
  unfold good_segment. destruct c as [|a [|b [|x c]]]; simpl; unfold char_at; simpl.
  - split; [done|]. by intros [? _].
  - rewrite orb_false_r, negb_true_iff, Z.eqb_neq. split; [intros H; split_and!; congruence|].
    intros (_ & H & _) ->. done.
  - rewrite negb_true_iff, andb_false_iff, !Z.eqb_neq. split; [intros H; split_and!; try congruence|].
    + intros [= -> ->]. by destruct H.
    + intros (_ & _ & H). destruct (decide (a = DOT)) as [->|]; [|by left]. right. intros ->. done.
  - split; [|done]. intros _. split_and!; congruence.
Qed.

(** The loop over the characters, on what is left of the text. *)
Fixpoint segments (cur rest : Path) : bool :=
  match rest with
  | [] => good_segment cur
  | b :: rest => if b =? SLASH then good_segment cur && segments [] rest else segments (cur ++ [b]) rest
  end.

Lemma segment_chars pre cur post :
  ((length cur =? 0)%nat || (length cur =? 1)%nat && (char_at (pre ++ cur ++ post) (length pre) =? DOT) ||
   (length cur =? 2)%nat && (char_at (pre ++ cur ++ post) (length pre) =? DOT) &&
     (char_at (pre ++ cur ++ post) (length pre + 1) =? DOT)) = negb (good_segment cur).
Proof.
  unfold good_segment. rewrite negb_involutive.
  assert (char_at (pre ++ cur ++ post) (length pre) = char_at (cur ++ post) 0) as ->
    by (rewrite <- (char_at_app_r pre (cur ++ post) 0); f_equal; lia).
  rewrite char_at_app_r. by destruct cur as [|a [|b [|x cur]]].
Qed.

Lemma segments_loop_spec cur rest : forall pre, segments_loop (pre ++ cur ++ rest) (length (pre ++ cur ++ rest))
    (S (length rest)) (length pre + length cur) (length pre) = if segments cur rest then 0 else EINVAL.
Proof.
  revert cur. induction rest as [|b rest IH]; intros cur pre.
  - cbn [length segments segments_loop]. rewrite !length_app at 1. rewrite Nat.add_0_r, Nat.eqb_refl. cbn [negb andb].
    replace (length pre + length cur - length pre)%nat with (length cur) by lia.
    rewrite (segment_chars pre cur []). by destruct (good_segment cur).
  - change (length (b :: rest)) with (S (length rest)). remember (S (length rest)) as n eqn:Hn. cbn [segments segments_loop].
    set (L := length (pre ++ cur ++ b :: rest)).
    replace (length pre + length cur =? L)%nat with false by (unfold L; rewrite !length_app; simpl; lia). cbn [negb andb].
    assert (char_at (pre ++ cur ++ b :: rest) (length pre + length cur) = b) as ->.
    { rewrite char_at_app_r, <- (Nat.add_0_r (length cur)), char_at_app_r. done. }
    destruct (b =? SLASH) eqn:Hb; cbn [negb].
    + replace (length pre + length cur - length pre)%nat with (length cur) by lia.
      rewrite (segment_chars pre cur (b :: rest)). destruct (good_segment cur); [|done]. cbn [negb andb].
      specialize (IH [] (pre ++ cur ++ [b])). rewrite !length_app in IH. simpl (length []) in IH. simpl (length [b]) in IH.
      unfold L. rewrite !length_app. cbn [app] in IH. rewrite <- !app_assoc in IH. cbn [app] in IH.
      rewrite Hn, <- IH. f_equal; simpl; lia.
    + specialize (IH (cur ++ [b]) pre). rewrite <- app_assoc in IH. cbn [app] in IH.
      rewrite Hn, <- IH. rewrite (length_app cur). f_equal; simpl; lia.
Qed.

Lemma segments_spec cur rest : Forall (fun b => b <> SLASH) cur -> segments cur rest = true <->
  exists c cs, cur ++ rest = c ++ joined cs /\
    Forall (fun c => good_segment c = true /\ Forall (fun b => b <> SLASH) c) (c :: cs).
Proof.
  revert cur. induction rest as [|b rest IH]; intros cur Hcur; cbn [segments].
  - rewrite app_nil_r. split.
    + intros Hg. exists cur, []. split; [unfold joined; by rewrite app_nil_r|]. by constructor.
    + intros (c & [|x cs] & E & Hf).
      * unfold joined in E. rewrite app_nil_r in E. subst cur. by inversion Hf as [|? ? [? _] _].
      * exfalso. subst cur. apply Forall_app in Hcur as [_ Hcur]. by inversion Hcur.
  - destruct (Z.eqb_spec b SLASH) as [->|Hb].
    + rewrite andb_true_iff, (IH [] ltac:(constructor)). cbn [app]. split.
      * intros (Hg & c & cs & E & Hf). exists cur, (c :: cs). split; [unfold joined; simpl; by rewrite E|]. by constructor.
      * intros (c & cs & E & Hf). assert (cur = c /\ SLASH :: rest = joined cs) as [<- Ej].
        { inversion Hf as [|? ? [_ Hc] _]; subst. clear -E Hcur Hc. revert c E Hc.
          induction cur as [|x cur IHc]; intros [|y c] E Hc; simpl in E.
          - done.
          - exfalso. injection E as <- _. by inversion Hc.
          - exfalso. destruct cs as [|z cs]; [by destruct cur|]. injection E as -> _. by inversion Hcur.
          - injection E as -> E. inversion Hcur; inversion Hc; subst. destruct (IHc ltac:(done) c E ltac:(done)) as [<- ?]. done. }
        inversion Hf as [|? ? [Hg _] Hcs]; subst. split; [done|]. destruct cs as [|x cs]; [done|].
        injection Ej as ->. exists x, cs. done.
    + assert (cur ++ b :: rest = (cur ++ [b]) ++ rest) as -> by (by rewrite <- app_assoc). apply IH.
      apply Forall_app. split; [done|by constructor].
Qed.

Lemma joined_nul_free cs : Forall component cs -> nul_free (joined cs).
Proof.
  induction 1 as [|c cs (_ & _ & _ & Hc) _ IH]; [constructor|]. unfold joined, nul_free. simpl. constructor; [done|].
  apply Forall_app. split; [|exact IH]. eapply Forall_impl; [exact Hc|]. by intros b [? _].
Qed.

Lemma joined_last cs : Forall component cs -> cs <> [] -> char_at (joined cs) (length (joined cs) - 1) <> SLASH.
Proof.
  intros Hcs Hne. destruct (exists_last Hne) as (cs' & c & ->). apply Forall_app in Hcs as [_ Hc].
  inversion Hc as [|? ? (Hn & _ & _ & Hb) _]; subst. unfold joined. rewrite fmap_app, concat_app. simpl. rewrite app_nil_r.
  destruct (exists_last Hn) as (c' & b & ->). apply Forall_app in Hb as [_ Hb]. inversion Hb as [|? ? [_ Hb'] _]; subst.
  set (x := concat _). assert (x ++ SLASH :: c' ++ [b] = (x ++ SLASH :: c') ++ [b]) as -> by (by rewrite <- app_assoc).
  rewrite (length_app _ [b]). simpl (length [b]). rewrite Nat.add_sub, <- (Nat.add_0_r (length _)), char_at_app_r. done.
Qed.

Lemma char_at_joined_head cs : cs <> [] -> char_at (joined cs) 0 = SLASH.
Proof. by destruct cs. Qed.

Lemma joined_cons c cs : joined (c :: cs) = SLASH :: c ++ joined cs.
Proof. done. Qed.

Lemma joined_app cs ds : joined (cs ++ ds) = joined cs ++ joined ds.
Proof. unfold joined. by rewrite fmap_app, concat_app. Qed.

Lemma render_joined cs : cs <> [] -> render cs = joined cs.
Proof. by destruct cs. Qed.

Lemma render_nul_free cs : Forall component cs -> nul_free (render cs).
Proof. intros H. destruct cs; [by constructor|]. by apply joined_nul_free. Qed.

Lemma joined_length cs : Forall component cs -> cs <> [] -> (1 < length (joined cs))%nat.
Proof.
  intros H Hne. destruct cs as [|c cs]; [done|]. inversion H as [|? ? (Hc & _) _]; subst.
  rewrite joined_cons. simpl. rewrite length_app. destruct c; [done|]. simpl. lia.
Qed.

Lemma component_good cs : nul_free (joined cs) ->
  Forall (fun c => good_segment c = true /\ Forall (fun b => b <> SLASH) c) cs <-> Forall component cs.
Proof.
  intros Hn. induction cs as [|c cs IH]; [done|]. rewrite joined_cons in Hn. inversion Hn as [|? ? _ Hn']; subst.
  apply Forall_app in Hn' as [Hc Hn']. rewrite !Forall_cons, (IH Hn'), good_segment_spec. unfold component at 2.
  assert (Forall (fun b => b <> 0 /\ b <> SLASH) c <-> Forall (fun b => b <> SLASH) c) as ->; [|tauto].
  rewrite Forall_and. unfold nul_free in Hc. tauto.
Qed.

Lemma segments_loop_text p : let t := c_string p in
  segments_loop p (length t) (length t) 1 1 = segments_loop t (length t) (length t) 1 1.
Proof.
  cbv zeta. set (t := c_string p).
  assert (forall n i start, (i + n <= S (length t))%nat -> (start <= i)%nat ->
    segments_loop p (length t) n i start = segments_loop t (length t) n i start) as E; [|apply E; lia].
  induction n as [|n IH]; intros i start Hi Hs; [done|]. cbn [segments_loop].
  rewrite (char_at_text p i) by (fold t; lia). fold t. destruct (_ && _) eqn:Hc; [apply IH; lia|].
  rewrite (char_at_text p start) by (fold t; lia). fold t.
  assert ((i - start =? 2)%nat && (char_at t start =? DOT) && (char_at p (start + 1) =? DOT) =
    (i - start =? 2)%nat && (char_at t start =? DOT) && (char_at t (start + 1) =? DOT)) as ->.
  { destruct (i - start =? 2)%nat eqn:E2; [|done]. by rewrite (char_at_text p (start + 1)) by (fold t; lia). }
  destruct (_ || _); [done|]. apply IH; lia.
Qed.

(** ** Canonical paths *)

(** ValidateCanonicalPath accepts a C string exactly when its text is that of a
    list of components, none of them empty, a dot or two dots, and it fits its
    storage with the terminating NUL. *)
Lemma canonical_components p : ValidateCanonicalPath (Some p) = 0 <-> exists cs, denotes p cs.
Proof.
  unfold ValidateCanonicalPath, denotes. rewrite PathLength_spec. set (t := c_string p).
  pose proof (c_string_nul_free p : nul_free t) as Ht.
  destruct (length t <? HOOKSELF_PATH_CAPACITY)%nat eqn:Hlen.
  2: { split; [done|]. intros (cs & E & _ & Hl). fold t in E. rewrite E in Hlen. lia. }
  rewrite (segments_loop_text p : segments_loop p (length t) (length t) 1 1 = segments_loop t (length t) (length t) 1 1).
  rewrite (char_at_text p 0) by lia. rewrite (char_at_text p (length t - 1)) by (fold t; lia). fold t.
  destruct t as [|a rest] eqn:Et.
  { split; [done|]. intros ([|c cs] & E & _); done. }
  cbn [length Nat.eqb orb]. change (char_at (a :: rest) 0) with a. destruct (Z.eqb_spec a SLASH) as [->|Ha]; cbn [negb orb].
  2: { split; [done|]. intros ([|c cs] & E & _); injection E as -> _; done. }
  destruct rest as [|b rest].
  { cbn. split; [|done]. intros _. exists []. split_and!; [done|constructor|cbn; unfold HOOKSELF_PATH_CAPACITY; lia]. }
  replace (1 <? S (length (b :: rest)))%nat with true by (simpl; lia). cbn [andb].
  replace (S (length (b :: rest)) =? 1)%nat with false by (simpl; lia).
  destruct (Z.eqb_spec (char_at (SLASH :: b :: rest) (S (length (b :: rest)) - 1)) SLASH) as [Hend|Hend].
  - split; [done|]. intros ([|c cs] & E & Hc & _); [done|]. exfalso. change (render (c :: cs)) with (joined (c :: cs)) in E.
    apply (joined_last (c :: cs) Hc); [done|]. rewrite <- E. exact Hend.
  - pose proof (segments_loop_spec [] (b :: rest) [SLASH]) as Hs. cbn [app length] in Hs.
    change (1 + 0)%nat with 1%nat in Hs. change (S (length (b :: rest))) with (S (S (length rest))). rewrite Hs.
    inversion Ht as [|? ? _ Hn]; subst.
    assert ((if segments [] (b :: rest) then 0 else EINVAL) = 0 <-> segments [] (b :: rest) = true) as ->
      by (by destruct (segments [] (b :: rest))).
    rewrite (segments_spec [] (b :: rest)) by constructor. cbn [app]. split.
    + intros (c & cs & E & Hf). assert (SLASH :: b :: rest = joined (c :: cs)) as E' by (rewrite joined_cons; by rewrite E).
      exists (c :: cs). split; [exact E'|]. split.
      * apply component_good; [|done]. rewrite <- E'. exact Ht.
      * change (render (c :: cs)) with (joined (c :: cs)). rewrite <- E'. apply Nat.ltb_lt. exact Hlen.
    + intros ([|c cs] & E & Hc & _); [done|]. change (render (c :: cs)) with (joined (c :: cs)) in E.
      exists c, cs. rewrite joined_cons in E. injection E as E. split; [done|]. apply component_good; [|done].
      by apply joined_nul_free.
Qed.

(** ** Prefixes *)

Definition ends_component (t : Path) : Prop := match t with [] => True | b :: _ => b = SLASH end.

Lemma joined_ends cs : ends_component (joined cs).
Proof. by destruct cs. Qed.

Lemma joined_app_ends cs t : ends_component t -> ends_component (joined cs ++ t).
Proof. by destruct cs. Qed.

(** A component ends where the next one, or the text, does. *)
Lemma component_split c d x y : Forall (fun b => b <> SLASH) c -> Forall (fun b => b <> SLASH) d ->
  ends_component x -> ends_component y -> c ++ x = d ++ y -> c = d /\ x = y.
Proof.
  intros Hc. revert d. induction Hc as [|b c Hb Hc IH]; intros d Hd Hx Hy E.
  - destruct d as [|a d]; [done|]. exfalso. cbn in E. subst x. inversion Hd. done.
  - destruct Hd as [|a d Ha Hd]; [exfalso; cbn in E; subst y; done|]. injection E as -> E.
    by destruct (IH d Hd Hx Hy E) as [-> ->].
Qed.

Lemma component_slash c : component c -> Forall (fun b => b <> SLASH) c.
Proof. intros (_ & _ & _ & H). eapply Forall_impl; [exact H|]. by intros b [_ ?]. Qed.

Lemma joined_prefix ds cs t : Forall component ds -> Forall component cs -> ends_component t ->
  joined cs = joined ds ++ t -> exists suffix, cs = ds ++ suffix /\ t = joined suffix.
Proof.
  intros Hd. revert cs. induction Hd as [|d ds Hdc Hd IH]; intros cs Hc Ht E; [by exists cs|].
  destruct Hc as [|c cs Hcc Hc]; [done|]. rewrite !joined_cons in E. cbn [app] in E. injection E as E. rewrite <- app_assoc in E.
  apply component_split in E as [-> E]; [|by apply component_slash..|apply joined_ends|by apply joined_app_ends].
  destruct (IH cs Hc Ht E) as (suffix & -> & ->). by exists suffix.
Qed.

Lemma joined_inj cs ds : Forall component cs -> Forall component ds -> joined cs = joined ds -> cs = ds.
Proof.
  intros Hc Hd E. destruct (joined_prefix ds cs [] Hd Hc I) as (s & -> & Hs); [by rewrite app_nil_r|].
  destruct s; [by rewrite app_nil_r|done].
Qed.

Lemma render_inj cs ds : Forall component cs -> Forall component ds -> render cs = render ds -> cs = ds.
Proof.
  assert (forall c cs, Forall component (c :: cs) -> [SLASH] = joined (c :: cs) -> False) as Hroot.
  { intros c l H E. pose proof (joined_length _ H ltac:(done)) as Hl. rewrite <- E in Hl. simpl in Hl. lia. }
  intros Hc Hd E. destruct cs as [|c cs], ds as [|d ds]; [done| | |by apply joined_inj].
  - destruct (Hroot d ds Hd E).
  - destruct (Hroot c cs Hc (eq_sym E)).
Qed.

(** The bytes of one text at the front of another. *)
Lemma prefix_bytes_spec p u : nul_free u ->
  forallb (fun i => char_at p i =? char_at u i) (seq 0 (length u)) = true <-> exists m, c_string p = u ++ m.
Proof.
  intros Hu. rewrite forallb_forall. split.
  - intros H. exists (drop (length u) (c_string p)).
    assert (forall k, (k <= length u)%nat -> (k <= length (c_string p))%nat /\ take k (c_string p) = take k u) as Hk.
    { induction k as [|k IH]; intros Hk; [split; [lia|done]|]. destruct IH as [IHl IHt]; [lia|].
      specialize (H k ltac:(apply in_seq; lia)). apply Z.eqb_eq in H. rewrite (char_at_text p k) in H by done.
      pose proof (char_at_lt u k Hu ltac:(lia)) as Hne. rewrite <- H in Hne.
      assert (k < length (c_string p))%nat as Hlt.
      { destruct (decide (k < length (c_string p))%nat); [done|]. rewrite char_at_end in Hne by lia. done. }
      split; [lia|]. rewrite (take_S_r _ k (char_at (c_string p) k)), (take_S_r u k (char_at u k)).
      - by rewrite IHt, H.
      - unfold char_at. destruct (nth_lookup_or_length u k 0) as [E|]; [done|lia].
      - unfold char_at. destruct (nth_lookup_or_length (c_string p) k 0) as [E|]; [done|lia]. }
    destruct (Hk (length u) ltac:(lia)) as [_ E]. rewrite (firstn_all u) in E.
    rewrite <- (take_drop (length u) (c_string p)) at 1. by rewrite E.
  - intros (m & E) i [_ Hi]%in_seq. rewrite (char_at_text p i) by (rewrite E, length_app; lia).
    rewrite E, char_at_app_l by lia. apply Z.eqb_refl.
Qed.

Lemma prefix_bytes_text p q n : (n <= length (c_string q))%nat ->
  forallb (fun i => char_at p i =? char_at q i) (seq 0 n) = forallb (fun i => char_at p i =? char_at (c_string q) i) (seq 0 n).
Proof.
  intros Hn. apply eq_true_iff_eq. rewrite !forallb_forall. split; intros H i Hi; specialize (H i Hi);
    apply in_seq in Hi; rewrite (char_at_text q i) in * by lia; done.
Qed.

Lemma PathPrefixMatches_spec p q cs ds : denotes p cs -> denotes q ds ->
  PathPrefixMatches p q (length (render ds)) = true <-> exists suffix, cs = ds ++ suffix.
Proof.
  intros (Ep & Hcs & Hlp) (Eq & Hds & Hlq). unfold PathPrefixMatches.
  rewrite prefix_bytes_text by (by rewrite Eq). rewrite Eq.
  destruct (forallb _ _) eqn:Hf.
  - apply prefix_bytes_spec in Hf as (m & Em); [|by apply render_nul_free]. rewrite Ep in Em.
    rewrite (char_at_text q 0), (char_at_text p (length (render ds))), Ep, Eq
      by (rewrite ?Ep, ?Em, ?length_app; lia).
    destruct ds as [|d ds].
    + change (render []) with [SLASH] in *. cbn. split; [by exists cs|done].
    + replace (length (render (d :: ds)) =? 1)%nat with false
        by (pose proof (joined_length _ Hds ltac:(done)); rewrite render_joined by done; lia).
      cbn [andb orb]. rewrite orb_true_iff, !Z.eqb_eq, Em.
      assert (char_at (render (d :: ds) ++ m) (length (render (d :: ds))) = char_at m 0) as ->
        by (rewrite <- (char_at_app_r (render (d :: ds)) m 0); f_equal; lia).
      destruct cs as [|c cs].
      { exfalso. pose proof (joined_length _ Hds ltac:(done)) as Hl. change (render []) with [SLASH] in Em.
        apply (f_equal length) in Em. rewrite length_app, render_joined in Em by done. simpl (length [_]) in Em. lia. }
      rewrite !render_joined in Em by done. split.
      * intros Hm. destruct (joined_prefix (d :: ds) (c :: cs) m Hds Hcs) as (s & E & _); [|done|by exists s].
        destruct m as [|b m]; [done|]. destruct Hm as [Hm|Hm]; [|exact Hm]. cbn in Hm. subst b.
        apply joined_nul_free in Hcs. rewrite Em in Hcs. apply Forall_app in Hcs as [_ Hcs]. by inversion Hcs.
      * intros (s & E). rewrite E, joined_app in Em. apply app_inv_head in Em. subst m.
        destruct s as [|x s]; [by left|by right].
  - split; [done|]. intros (s & ->). apply not_true_iff_false in Hf. destruct Hf. apply prefix_bytes_spec; [by apply render_nul_free|].
    rewrite Ep. destruct ds as [|d ds].
    + destruct s as [|x s]; [by exists []|]. exists (x ++ joined s). done.
    + exists (joined s). rewrite !render_joined by done. by rewrite joined_app.
Qed.

(** ** Equality *)

Lemma drop_char t i : (i < length t)%nat -> drop i t = char_at t i :: drop (S i) t.
Proof.
  intros Hi. unfold char_at. destruct (lookup_lt_is_Some_2 t i Hi) as [b Hb]. rewrite (drop_S t b i Hb). f_equal.
  symmetry. by apply nth_lookup_Some.
Qed.

Lemma equals_loop_spec p q n i : (i <= length (c_string p))%nat -> (i <= length (c_string q))%nat -> (length (c_string p) < i + n)%nat ->
  equals_loop p q n i = true <-> drop i (c_string p) = drop i (c_string q).
Proof.
  pose proof (c_string_nul_free p) as Np. pose proof (c_string_nul_free q) as Nq.
  revert i. induction n as [|n IH]; intros i Hp Hq Hn; [lia|]. cbn [equals_loop]. rewrite (char_at_text p), (char_at_text q) by done.
  destruct (decide (i = length (c_string p))) as [Ep|Ep].
  - rewrite (char_at_end (c_string p)), (drop_ge (c_string p)) by lia.
    destruct (decide (i = length (c_string q))) as [Eq|Eq].
    + rewrite char_at_end, drop_ge by lia. done.
    + pose proof (char_at_lt _ i Nq ltac:(lia)) as Hz. replace (0 =? char_at (c_string q) i) with false by lia. cbn [negb].
      split; [done|]. intros E. apply (f_equal length) in E. rewrite length_drop in E. simpl in E. lia.
  - pose proof (char_at_lt _ i Np ltac:(lia)) as Hz. replace (char_at (c_string p) i =? 0) with false by lia.
    destruct (Z.eqb_spec (char_at (c_string p) i) (char_at (c_string q) i)) as [E|E]; cbn [negb].
    + assert (i < length (c_string q))%nat as Hlt.
      { destruct (decide (i = length (c_string q))); [|lia]. rewrite (char_at_end (c_string q)) in E by lia. congruence. }
      rewrite (IH (S i)) by lia. rewrite (drop_char (c_string p) i), (drop_char (c_string q) i), E by lia.
      split; [by intros ->|by intros [= ->]].
    + split; [done|]. intros Ed. destruct (decide (i = length (c_string q))) as [Eq|Eq].
      * apply (f_equal length) in Ed. rewrite !length_drop in Ed. lia.
      * rewrite (drop_char (c_string p) i), (drop_char (c_string q) i) in Ed by lia. congruence.
Qed.

Lemma PathEquals_spec p q cs ds : denotes p cs -> denotes q ds -> PathEquals p q = true <-> cs = ds.
Proof.
  intros (Ep & Hcs & Hl) (Eq & Hds & _). unfold PathEquals. rewrite (equals_loop_spec p q) by (rewrite ?Ep; lia).
  rewrite !drop_0, Ep, Eq. split; [by apply render_inj|by intros ->].
Qed.

(** ** Substitution *)

Lemma bytes_text p from n : (from + n <= length (c_string p))%nat -> bytes p from n = take n (drop from (c_string p)).
Proof.
  intros H. unfold bytes. apply list_eq. intros i. rewrite list_lookup_fmap.
  destruct (decide (i < n)%nat) as [Hi|Hi].
  - rewrite lookup_seq_lt by done. cbn. rewrite lookup_take_lt, lookup_drop by done.
    rewrite char_at_text by lia. unfold char_at.
    destruct (nth_lookup_or_length (c_string p) (from + i) 0) as [E|]; [done|lia].
  - rewrite lookup_seq_ge by lia. symmetry. apply lookup_ge_None. rewrite length_take. lia.
Qed.

Lemma render_cases cs : (cs = [] /\ render cs = [SLASH]) \/ (cs <> [] /\ render cs = joined cs).
Proof. destruct cs; [left|right]; done. Qed.

(** What is left after the prefix, from its slash on. *)
Lemma render_rest ds s : Forall component (ds ++ s) ->
  drop (if (length (render ds) =? 1)%nat then (if (length (render (ds ++ s)) =? 1)%nat
    then length (render (ds ++ s)) else 1) else length (render ds)) (render (ds ++ s)) =
  if decide (ds = []) then drop 1 (joined s) else joined s.
Proof.
  intros H. destruct (proj1 (Forall_app _ _ _) H) as [Hd _]. destruct ds as [|d ds]; cbn [app].
  - rewrite decide_True by done. change (length (render []) =? 1)%nat with true. cbn iota.
    destruct s as [|x s]; [done|]. rewrite render_joined by done.
    pose proof (joined_length (x :: s) H ltac:(done)). by replace (length (joined (x :: s)) =? 1)%nat with false by lia.
  - rewrite decide_False by done. rewrite !render_joined by done. pose proof (joined_length _ Hd ltac:(done)).
    replace (length (joined (d :: ds)) =? 1)%nat with false by lia. rewrite app_comm_cons, joined_app. apply drop_app_length.
Qed.

Lemma denotes_length p cs : denotes p cs -> PathLength (Some p) = inr (length (render cs)).
Proof. intros (E & _ & Hl). rewrite PathLength_spec, E. by replace (_ <? _)%nat with true by lia. Qed.

Lemma denotes_render cs : Forall component cs -> (length (render cs) < HOOKSELF_PATH_CAPACITY)%nat -> denotes (render cs) cs.
Proof. intros H Hl. split; [by apply c_string_id, render_nul_free|done]. Qed.

Lemma denotes_char p cs i : denotes p cs -> (i <= length (render cs))%nat -> char_at p i = char_at (render cs) i.
Proof. intros (E & _) Hi. rewrite char_at_text, E; [done|by rewrite E]. Qed.

Lemma denotes_bytes p cs from n : denotes p cs -> (from + n <= length (render cs))%nat ->
  bytes p from n = take n (drop from (render cs)).
Proof. intros (E & _) Hi. rewrite bytes_text, E; [done|by rewrite E]. Qed.

(** The result of the substitution, in terms of the rest of the text. *)
Lemma substitute_text ns s rest root : Forall component ns -> Forall component s ->
  rest = (if root : bool then drop 1 (joined s) else joined s) ->
  let is_root := (length (render ns) =? 1)%nat && (char_at (render ns) 0 =? SLASH) in
  let skip := is_root && (0 <? length rest)%nat && (char_at rest 0 =? SLASH) in
  let rest' := if skip then drop 1 rest else rest in
  let separator := negb is_root && (0 <? length rest')%nat && negb (char_at rest' 0 =? SLASH) in
  render ns ++ (if separator then [SLASH] else []) ++ rest' = render (ns ++ s).
Proof.
  intros Hns Hs ->. cbv zeta. destruct (render_cases ns) as [[-> E]|[Hne E]]; rewrite E.
  - cbn [length app]. change (1 =? 1)%nat with true. change (char_at [SLASH] 0 =? SLASH) with true. cbn [andb negb].
    destruct s as [|c s]; [by destruct root|]. rewrite render_joined, joined_cons by done.
    inversion Hs as [|? ? (Hc & _ & _ & Hb) _]; subst. destruct c as [|b c]; [done|]. inversion Hb as [|? ? [_ Hb'] _]; subst.
    destruct root; cbn; [|done]. by rewrite (proj2 (Z.eqb_neq b SLASH) Hb').
  - replace (length (joined ns) =? 1)%nat with false by (pose proof (joined_length _ Hns Hne); lia). cbn [andb negb].
    rewrite render_joined, joined_app by (by destruct ns). f_equal. destruct s as [|c s]; [by destruct root|].
    inversion Hs as [|? ? (Hc & _ & _ & Hb) _]; subst. destruct c as [|b c]; [done|]. inversion Hb as [|? ? [_ Hb'] _]; subst.
    destruct root; cbn; [|done]. by rewrite (proj2 (Z.eqb_neq b SLASH) Hb').
Qed.

(** The prefix of a text that is left from an offset on. *)
Lemma render_char_drop cs k : char_at (render cs) k = char_at (drop k (render cs)) 0.
Proof. unfold char_at. by rewrite nth_skipn, Nat.add_0_r. Qed.

(** Substituting a prefix: the result, or why there is none. *)
Lemma substitute_exact p q n cs ds ns : denotes p cs -> denotes q ds -> denotes n ns ->
  match SubstitutePathPrefix p q n with
  | inl error => (error = EINVAL /\ ~ exists s, cs = ds ++ s) \/
      (error = ENAMETOOLONG /\ exists s, cs = ds ++ s /\ (HOOKSELF_PATH_CAPACITY <= length (render (ns ++ s)))%nat)
  | inr out => exists s, cs = ds ++ s /\ out = render (ns ++ s) /\ denotes (render (ns ++ s)) (ns ++ s)
  end.
Proof.
  intros Hp Hq Hn. unfold SubstitutePathPrefix.
  rewrite (denotes_length p cs Hp), (denotes_length q ds Hq), (denotes_length n ns Hn).
  destruct (PathPrefixMatches p q (length (render ds))) eqn:Hm; cbn [negb].
  2: { left. split; [done|]. intros Hs. apply (PathPrefixMatches_spec p q cs ds Hp Hq) in Hs. congruence. }
  apply (PathPrefixMatches_spec p q cs ds Hp Hq) in Hm as [s ->]. cbv zeta.
  pose proof (render_rest ds s (proj1 (proj2 Hp))) as Hrest.
  set (suffix := if (length (render ds) =? 1)%nat then _ else _) in *.
  set (L := length (render (ds ++ s))) in *.
  assert (suffix <= L)%nat as Hsuf.
  { unfold suffix. destruct (length (render ds) =? 1)%nat eqn:E1; [destruct (L =? 1)%nat eqn:E2; [done|]|].
    - unfold L. destruct (ds ++ s); simpl; lia.
    - unfold L. destruct ds as [|d ds]; [done|]. cbn [app]. rewrite !render_joined, app_comm_cons, joined_app, length_app by done. lia. }
  rewrite (denotes_char n ns 0 Hn) by lia. rewrite (denotes_char p _ suffix Hp) by done. rewrite (render_char_drop (ds ++ s) suffix), Hrest.
  set (root := bool_decide (ds = [])).
  set (rest := if decide (ds = []) then _ else _) in *.
  assert (rest = if root then drop 1 (joined s) else joined s) as Er by (unfold rest, root; by case_decide; case_bool_decide).
  assert ((suffix <? L)%nat = (0 <? length rest)%nat) as -> by (rewrite <- Hrest, length_drop; fold L; lia).
  set (is_root := (length (render ns) =? 1)%nat && _). set (skip := is_root && _ && _).
  set (suffix' := if skip then S suffix else suffix).
  assert (drop suffix' (render (ds ++ s)) = if skip then drop 1 rest else rest) as Hrest'.
  { unfold suffix'. destruct skip; [|done]. rewrite <- Hrest, drop_drop. f_equal. lia. }
  assert (suffix' <= L)%nat as Hsuf'.
  { unfold suffix'. destruct skip eqn:Es; [|done]. unfold skip in Es. bool_hyps. rewrite <- Hrest, length_drop in *. fold L in H0. lia. }
  rewrite (denotes_char p _ suffix' Hp) by done. rewrite (render_char_drop (ds ++ s) suffix'), Hrest'.
  set (rest' := if skip then drop 1 rest else rest) in *.
  assert ((suffix' <? L)%nat = (0 <? length rest')%nat) as -> by (rewrite <- Hrest', length_drop; fold L; lia).
  set (separator := negb is_root && _ && _).
  assert (L - suffix' = length rest')%nat as -> by (rewrite <- Hrest', length_drop; done).
  rewrite (denotes_bytes n ns 0 _ Hn) by lia. rewrite (denotes_bytes p _ suffix' _ Hp) by (rewrite <- Hrest', length_drop; fold L; lia).
  rewrite Hrest', drop_0, !firstn_all.
  pose proof (substitute_text ns s rest root (proj1 (proj2 Hn)) (proj2 (proj1 (Forall_app _ _ _) (proj1 (proj2 Hp)))) Er) as Ht.
  cbv zeta in Ht. fold is_root skip rest' separator in Ht.
  assert (Forall component (ns ++ s)) as Hc.
  { apply Forall_app. split; [apply Hn|]. by apply (Forall_app _ ds s), Hp. }
  assert (length (render ns) + (if separator then 1 else 0) + length rest' = length (render (ns ++ s)))%nat as ->
    by (rewrite <- Ht, !length_app; by destruct separator; simpl; lia).
  destruct (HOOKSELF_PATH_CAPACITY <? length (render (ns ++ s)) + 1)%nat eqn:Hcap.
  - right. split; [done|]. exists s. split; [done|]. lia.
  - exists s. split; [done|]. split; [exact Ht|]. apply denotes_render; [done|lia].
Qed.

Lemma substitute_spec p q n cs ds ns : denotes p cs -> denotes q ds -> denotes n ns ->
  match SubstitutePathPrefix p q n with
  | inl error => (error = EINVAL /\ ~ exists s, cs = ds ++ s) \/
      (error = ENAMETOOLONG /\ exists s, cs = ds ++ s /\ (HOOKSELF_PATH_CAPACITY <= length (render (ns ++ s)))%nat)
  | inr out => exists s, cs = ds ++ s /\ denotes out (ns ++ s)
  end.
Proof.
  intros Hp Hq Hn. pose proof (substitute_exact p q n cs ds ns Hp Hq Hn) as Hs. destruct (SubstitutePathPrefix p q n); [exact Hs|].
  destruct Hs as (s & -> & -> & Hd). by exists s.
Qed.

(** Two arrays with the same C string. *)
Definition same_text (p q : Path) : Prop := c_string p = c_string q.

(** Substituting a prefix and then back. *)
Lemma substitute_back input old_prefix new_prefix output :
  ValidateCanonicalPath (Some input) = 0 -> ValidateCanonicalPath (Some old_prefix) = 0 ->
  ValidateCanonicalPath (Some new_prefix) = 0 -> SubstitutePathPrefix input old_prefix new_prefix = inr output ->
  ValidateCanonicalPath (Some output) = 0 /\
  exists back, SubstitutePathPrefix output new_prefix old_prefix = inr back /\ same_text back input.
Proof.
  intros [cs Hp]%canonical_components [ds Hq]%canonical_components [ns Hn]%canonical_components H.
  pose proof (substitute_spec _ _ _ cs ds ns Hp Hq Hn) as Hs. rewrite H in Hs. destruct Hs as (s & -> & Ho).
  split; [apply canonical_components; by exists (ns ++ s)|].
  pose proof (substitute_spec _ _ _ (ns ++ s) ns ds Ho Hn Hq) as Hb.
  destruct (SubstitutePathPrefix output new_prefix old_prefix) as [error|back].
  - destruct Hb as [[_ Hb]|(_ & s' & E & Hl)]; [by destruct Hb; exists s|].
    apply app_inv_head in E as <-. destruct Hp as (_ & _ & Hp). lia.
  - destruct Hb as (s' & E & Hb & _). apply app_inv_head in E as <-. exists back. split; [done|].
    unfold same_text. rewrite Hb. symmetry. apply Hp.
Qed.

(** A covered path that does not become another one becomes too long. *)
Lemma substitute_error input old_prefix new_prefix other output error :
  ValidateCanonicalPath (Some input) = 0 -> ValidateCanonicalPath (Some old_prefix) = 0 ->
  ValidateCanonicalPath (Some new_prefix) = 0 -> ValidateCanonicalPath (Some other) = 0 ->
  SubstitutePathPrefix input old_prefix other = inr output -> SubstitutePathPrefix input old_prefix new_prefix = inl error ->
  error = ENAMETOOLONG.
Proof.
  intros [cs Hp]%canonical_components [ds Hq]%canonical_components [ns Hn]%canonical_components [es He]%canonical_components Ho H.
  pose proof (substitute_spec _ _ _ cs ds ns Hp Hq Hn) as Hs. rewrite H in Hs. pose proof (substitute_spec _ _ _ cs ds es Hp Hq He) as Hs'.
  rewrite Ho in Hs'. destruct Hs' as (s & -> & _). destruct Hs as [[_ Hno]|[-> _]]; [|done]. destruct Hno. by exists s.
Qed.

(** substituting a prefix of a canonical path gives a
    canonical path, and substituting back gives the old path. *)
Theorem substitution_returns input old_prefix new_prefix output :
  ValidateCanonicalPath (Some input) = 0 -> ValidateCanonicalPath (Some old_prefix) = 0 ->
  ValidateCanonicalPath (Some new_prefix) = 0 -> SubstitutePathPrefix input old_prefix new_prefix = inr output ->
  ValidateCanonicalPath (Some output) = 0 /\
  exists back, SubstitutePathPrefix output new_prefix old_prefix = inr back /\ same_text back input.
Proof. apply substitute_back. Qed.

Definition text (s : string) : Path := (fun c => Z.of_nat (Ascii.nat_of_ascii c)) <$> String.list_ascii_of_string s.

Example substitution_examples :
  SubstitutePathPrefix (text "/sdcard/app/db") (text "/sdcard") (text "/data/real") = inr (text "/data/real/app/db") /\
  SubstitutePathPrefix (text "/app") (text "/") (text "/data") = inr (text "/data/app") /\
  SubstitutePathPrefix (text "/data/app") (text "/data") (text "/") = inr (text "/app") /\
  SubstitutePathPrefix (text "/database") (text "/data") (text "/x") = inl EINVAL.
Proof. vm_compute. by split_and!. Qed.

Lemma substitution_returns_witness :
  ValidateCanonicalPath (Some (text "/data/real/app")) = 0 /\
  exists back, SubstitutePathPrefix (text "/data/real/app") (text "/data/real") (text "/sdcard") = inr back /\
    same_text back (text "/sdcard/app").
Proof.
  apply (substitution_returns (text "/sdcard/app") (text "/sdcard") (text "/data/real")); vm_compute; reflexivity.
Defined.
