(* ===== verification/PathState.v ===== *)
(** * The path state (tracer/path_state.h, tracer/path_state/storage_validation.inc)

    What the tracer remembers about paths: the tasks with the filesystem
    context, descriptor table and mount namespace of each, the identities of
    the open descriptors, the mounts of each namespace and the mount trees that
    descriptors refer to. Contexts, tables, namespaces and trees are shared and
    counted. Each of the seven arrays with its count and hint is a [Pool]. *)

From S2P Require Import Prelude SlotArray SlotPool GuestPath.
From stdpp Require Import list.
#[local] Open Scope Z_scope.

Definition kPathStateTaskCapacity : Z := 512.
Definition kPathStateFsContextCapacity : Z := 512.
Definition kPathStateFdTableCapacity : Z := 512.
Definition kPathStateFdIdentityCapacity : Z := 4096.
Definition kPathStateMountNamespaceCapacity : Z := 512.
Definition kPathStateMountBindingCapacity : Z := 1024.
Definition kPathStateMountTreeCapacity : Z := 512.
Definition kInvalidPathStateSlot : Z := UINT32_MAX.
Definition kPathStateMagic : Z := 0x48535053.
Definition kPathStateVersion : Z := 3.

Definition kPathCloneFs : Z := 0x200.
Definition kPathCloneFiles : Z := 0x400.
Definition kPathCloneNewns : Z := 0x20000.
Definition kPathCloseRangeUnshare : Z := 2.
Definition kPathCloseRangeCloexec : Z := 4.

(** enum MountBindingKind, FdIdentityObjectKind *)
Definition kMountBindingBind : Z := 1.
Definition kMountBindingRoot : Z := 4.
Definition kFdIdentityObjectNone : Z := 0.
Definition kFdIdentityObjectMountTree : Z := 1.

(** enum MountBindingStateFlags: runtime, reverse-visible, recursive, detached *)
Definition kMountBindingStateKnownFlags : Z := 1 ||| 2 ||| 4 ||| 8.

(** enum MountTreeStateFlags *)
Definition kMountTreeStateClone : Z := 1.
Definition kMountTreeStateDetached : Z := 2.
Definition kMountTreeStateAttached : Z := 4.
Definition kMountTreeStateKnownFlags : Z :=
  kMountTreeStateClone ||| kMountTreeStateDetached ||| kMountTreeStateAttached.

(** ** Data *)

Record PathTaskState := {
  pt_occupied : Z; pt_slot : Z; pt_tid : Z; pt_reserved : Z; pt_fs_context_slot : Z;
  pt_fd_table_slot : Z; pt_mount_namespace_slot : Z; pt_reserved2 : Z; pt_identity_generation : Z }.

Record FsContext := {
  fs_occupied : Z; fs_slot : Z; fs_refcount : Z; cwd_origin_flags : Z; fs_generation : Z;
  cwd_device : Z; cwd_inode : Z; cwd_mount_id : Z; guest_cwd : Path; host_cwd : Path;
  root_origin_flags : Z; fs_reserved : Z; root_device : Z; root_inode : Z; fs_root_mount_id : Z;
  guest_root : Path; host_root : Path }.

Record FdTable := {
  ft_occupied : Z; ft_slot : Z; ft_refcount : Z; entry_count : Z; protected_count : Z;
  ft_reserved : Z; ft_generation : Z }.

Record FdIdentity := {
  fi_occupied : Z; fi_slot : Z; fi_fd_table_slot : Z; fi_fd : Z; fi_origin_flags : Z;
  fi_directory : Z; fi_cloexec : Z; fi_reserved : Z; fi_device : Z; fi_inode : Z;
  fi_mount_namespace_slot : Z; fi_reserved2 : Z; fi_mount_namespace_identity : Z;
  fi_mount_namespace_generation : Z; object_kind : Z; object_flags : Z; object_slot : Z;
  fi_reserved3 : Z; object_generation : Z; fi_guest_path : Path; fi_host_path : Path }.

Record FdIdentitySpec := {
  sp_origin_flags : Z; sp_directory : Z; sp_cloexec : Z; sp_reserved : Z; sp_device : Z;
  sp_inode : Z; sp_guest_path : option Path; sp_host_path : option Path }.

Record MountNamespaceState := {
  mn_occupied : Z; mn_slot : Z; mn_refcount : Z; binding_count : Z; task_refcount : Z;
  handle_refcount : Z; mn_generation : Z; mn_identity_generation : Z; root_mount_id : Z;
  root_mount_flags : Z; root_mount_attributes : Z; root_propagation : Z; mn_root_origin_flags : Z;
  mn_reserved : Z; root_source_guest : Path; root_source_host : Path }.

Record MountBindingState := {
  mb_occupied : Z; mb_slot : Z; mb_mount_namespace_slot : Z; mb_kind : Z; mb_state_flags : Z;
  mb_reserved : Z; mount_id : Z; parent_mount_id : Z; sequence : Z; mount_flags : Z;
  mount_attributes : Z; propagation : Z; target_guest : Path; mb_source_guest : Path;
  mb_source_host : Path }.

Record MountTreeState := {
  mt_occupied : Z; mt_slot : Z; mt_refcount : Z; mt_state_flags : Z; mt_mount_namespace_slot : Z;
  mt_reserved : Z; mt_generation : Z; handle_id : Z; source_mount_id : Z;
  attached_namespace_slot : Z; mt_reserved2 : Z; attached_mount_id : Z; mt_source_guest : Path;
  mt_source_host : Path; attached_target_guest : Path }.

Record PathStateTable := {
  magic : Z; version : Z; reserved_count : Z; reserved_hint : Z; mutation_generation : Z;
  reserved : list Z;
  tasks : Pool PathTaskState; fs_contexts : Pool FsContext; fd_tables : Pool FdTable;
  fd_identities : Pool FdIdentity; mount_namespaces : Pool MountNamespaceState;
  mount_bindings : Pool MountBindingState; mount_trees : Pool MountTreeState }.

(** ** Writing a table *)

Definition with_tasks (t : PathStateTable) (p : Pool PathTaskState) : PathStateTable :=
  Build_PathStateTable (magic t) (version t) (reserved_count t) (reserved_hint t) (mutation_generation t)
    (reserved t) p (fs_contexts t) (fd_tables t) (fd_identities t) (mount_namespaces t) (mount_bindings t)
    (mount_trees t).
Definition with_fs (t : PathStateTable) (p : Pool FsContext) : PathStateTable :=
  Build_PathStateTable (magic t) (version t) (reserved_count t) (reserved_hint t) (mutation_generation t)
    (reserved t) (tasks t) p (fd_tables t) (fd_identities t) (mount_namespaces t) (mount_bindings t)
    (mount_trees t).
Definition with_fd_tables (t : PathStateTable) (p : Pool FdTable) : PathStateTable :=
  Build_PathStateTable (magic t) (version t) (reserved_count t) (reserved_hint t) (mutation_generation t)
    (reserved t) (tasks t) (fs_contexts t) p (fd_identities t) (mount_namespaces t) (mount_bindings t)
    (mount_trees t).
Definition with_identities (t : PathStateTable) (p : Pool FdIdentity) : PathStateTable :=
  Build_PathStateTable (magic t) (version t) (reserved_count t) (reserved_hint t) (mutation_generation t)
    (reserved t) (tasks t) (fs_contexts t) (fd_tables t) p (mount_namespaces t) (mount_bindings t)
    (mount_trees t).
Definition with_namespaces (t : PathStateTable) (p : Pool MountNamespaceState) : PathStateTable :=
  Build_PathStateTable (magic t) (version t) (reserved_count t) (reserved_hint t) (mutation_generation t)
    (reserved t) (tasks t) (fs_contexts t) (fd_tables t) (fd_identities t) p (mount_bindings t)
    (mount_trees t).
Definition with_bindings (t : PathStateTable) (p : Pool MountBindingState) : PathStateTable :=
  Build_PathStateTable (magic t) (version t) (reserved_count t) (reserved_hint t) (mutation_generation t)
    (reserved t) (tasks t) (fs_contexts t) (fd_tables t) (fd_identities t) (mount_namespaces t) p
    (mount_trees t).
Definition with_trees (t : PathStateTable) (p : Pool MountTreeState) : PathStateTable :=
  Build_PathStateTable (magic t) (version t) (reserved_count t) (reserved_hint t) (mutation_generation t)
    (reserved t) (tasks t) (fs_contexts t) (fd_tables t) (fd_identities t) (mount_namespaces t)
    (mount_bindings t) p.

Definition NextGeneration (generation : Z) : Z :=
  let generation := u64 (generation + 1) in if generation =? 0 then 1 else generation.

(** The value it returns is the [mutation_generation] of the result. *)
Definition NoteMutation (t : PathStateTable) : PathStateTable :=
  Build_PathStateTable (magic t) (version t) (reserved_count t) (reserved_hint t)
    (NextGeneration (mutation_generation t)) (reserved t) (tasks t) (fs_contexts t) (fd_tables t)
    (fd_identities t) (mount_namespaces t) (mount_bindings t) (mount_trees t).

(** ** Cleared records *)

Definition ClearTask (slot : Z) : PathTaskState :=
  Build_PathTaskState 0 slot 0 0 kInvalidPathStateSlot kInvalidPathStateSlot kInvalidPathStateSlot 0 0.
Definition ClearFsContext (slot : Z) : FsContext :=
  Build_FsContext 0 slot 0 0 0 0 0 0 [] [] 0 0 0 0 0 [] [].
Definition ClearFdTable (slot : Z) : FdTable := Build_FdTable 0 slot 0 0 0 0 0.
Definition ClearFdIdentity (slot : Z) : FdIdentity :=
  Build_FdIdentity 0 slot kInvalidPathStateSlot (-1) 0 0 0 0 0 0 kInvalidPathStateSlot 0 0 0 0 0
    kInvalidPathStateSlot 0 0 [] [].
Definition ClearMountNamespace (slot : Z) : MountNamespaceState :=
  Build_MountNamespaceState 0 slot 0 0 0 0 0 0 0 0 0 0 0 0 [] [].
Definition ClearMountBinding (slot : Z) : MountBindingState :=
  Build_MountBindingState 0 slot kInvalidPathStateSlot 0 0 0 0 0 0 0 0 0 [] [] [].
Definition ClearMountTree (slot : Z) : MountTreeState :=
  Build_MountTreeState 0 slot 0 0 kInvalidPathStateSlot 0 0 0 0 kInvalidPathStateSlot 0 0 [] [] [].

#[export] Instance task_inhabited : Inhabited PathTaskState := populate (ClearTask 0).
#[export] Instance fs_inhabited : Inhabited FsContext := populate (ClearFsContext 0).
#[export] Instance fd_table_inhabited : Inhabited FdTable := populate (ClearFdTable 0).
#[export] Instance identity_inhabited : Inhabited FdIdentity := populate (ClearFdIdentity 0).
#[export] Instance namespace_inhabited : Inhabited MountNamespaceState := populate (ClearMountNamespace 0).
#[export] Instance binding_inhabited : Inhabited MountBindingState := populate (ClearMountBinding 0).
#[export] Instance tree_inhabited : Inhabited MountTreeState := populate (ClearMountTree 0).

(** ** The seven arrays are slot arrays

    The key is what the audit requires to be unique. *)

Definition pair_same (k k' : Z * Z) : bool := (k.1 =? k'.1) && (k.2 =? k'.2).

Lemma pair_same_spec k k' : true = true -> true = true -> pair_same k k' = true <-> k = k'.
Proof. destruct k, k'. intros _ _. unfold pair_same. simpl. rewrite andb_true_iff, !Z.eqb_eq. split; [by intros [-> ->]|by intros [= -> ->]]. Qed.

Lemma Z_same_spec k k' : true = true -> true = true -> (k =? k') = true <-> k = k'.
Proof. intros _ _. apply Z.eqb_eq. Qed.

#[export] Instance task_slots : SlotRecord PathTaskState Z := {|
  sr_occupied := pt_occupied; sr_slot := pt_slot; sr_key := pt_tid; sr_same := Z.eqb;
  sr_key_ok := fun _ => true; sr_same_spec := Z_same_spec |}.
#[export] Instance fs_slots : SlotRecord FsContext Z := {|
  sr_occupied := fs_occupied; sr_slot := fs_slot; sr_key := fs_slot; sr_same := Z.eqb;
  sr_key_ok := fun _ => true; sr_same_spec := Z_same_spec |}.
#[export] Instance fd_table_slots : SlotRecord FdTable Z := {|
  sr_occupied := ft_occupied; sr_slot := ft_slot; sr_key := ft_slot; sr_same := Z.eqb;
  sr_key_ok := fun _ => true; sr_same_spec := Z_same_spec |}.
#[export] Instance identity_slots : SlotRecord FdIdentity (Z * Z) := {|
  sr_occupied := fi_occupied; sr_slot := fi_slot; sr_key := fun r => (fi_fd_table_slot r, fi_fd r);
  sr_same := pair_same; sr_key_ok := fun _ => true; sr_same_spec := pair_same_spec |}.
#[export] Instance namespace_slots : SlotRecord MountNamespaceState Z := {|
  sr_occupied := mn_occupied; sr_slot := mn_slot; sr_key := mn_identity_generation; sr_same := Z.eqb;
  sr_key_ok := fun _ => true; sr_same_spec := Z_same_spec |}.
#[export] Instance binding_slots : SlotRecord MountBindingState (Z * Z) := {|
  sr_occupied := mb_occupied; sr_slot := mb_slot; sr_key := fun r => (mb_mount_namespace_slot r, mount_id r);
  sr_same := pair_same; sr_key_ok := fun _ => true; sr_same_spec := pair_same_spec |}.
#[export] Instance tree_slots : SlotRecord MountTreeState Z := {|
  sr_occupied := mt_occupied; sr_slot := mt_slot; sr_key := handle_id; sr_same := Z.eqb;
  sr_key_ok := fun _ => true; sr_same_spec := Z_same_spec |}.
