(* ===== verification/PathStorage.v ===== *)
(** * Storage of the path state (tracer/path_state/storage_validation.inc)

    Taking, sharing and giving back the slots of the seven arrays. A function
    that can fail returns its errno value with the table it leaves. *)

From S2P Require Import Prelude SlotArray SlotPool GuestPath PathState.
From stdpp Require Import list.
#[local] Open Scope Z_scope.

(** enum class FdCopyMode *)
Inductive FdCopyMode := kAll | kExec | kCloseRange | kCloexecRange | kCloseRangePreserveProtected
  | kCloexecRangePreserveProtected.

(** ** Looking up *)

Definition FindTaskUnchecked (t : PathStateTable) (tid : Z) : option Z :=
  search (fun task => pt_tid task =? tid) (tasks t).
Definition FindIdentityUnchecked (t : PathStateTable) (fd_table_slot fd : Z) : option Z :=
  search (fun identity => (fi_fd_table_slot identity =? fd_table_slot) && (fi_fd identity =? fd)) (fd_identities t).
Definition FindMountBindingById (t : PathStateTable) (namespace_slot id : Z) : option Z :=
  search (fun binding => (mb_mount_namespace_slot binding =? namespace_slot) && (mount_id binding =? id)) (mount_bindings t).

Definition CountFreeFdIdentitySlots (t : PathStateTable) : Z :=
  u32 (kPathStateFdIdentityCapacity - p_count (fd_identities t)).
Definition CountFreeMountBindingSlots (t : PathStateTable) : Z :=
  u32 (kPathStateMountBindingCapacity - p_count (mount_bindings t)).

(** A loop over the slots of an array. *)
Definition for_slots {S : Type} (capacity : Z) (body : Z -> S -> S) (s : S) : S :=
  foldl (fun s slot => body slot s) s (seqZ 0 capacity).

(** ** Tasks and filesystem contexts *)

Definition OccupyTask (t : PathStateTable) (slot tid fs_context_slot fd_table_slot mount_namespace_slot
    identity_generation : Z) : PathStateTable :=
  with_tasks t (occupy (tasks t) slot
    (Build_PathTaskState 1 slot tid 0 fs_context_slot fd_table_slot mount_namespace_slot 0 identity_generation)).

Definition EraseTaskSlot (t : PathStateTable) (slot : Z) : PathStateTable :=
  with_tasks t (vacate (tasks t) slot (ClearTask slot)).

Definition OccupyInitialFsContext (t : PathStateTable) (slot : Z) (guest host : option Path) : PathStateTable :=
  with_fs t (occupy (fs_contexts t) slot
    (Build_FsContext 1 slot 1 both_valid 1 0 0 1 (CopyPath guest) (CopyPath host) both_valid 0 0 0 1
      (CopyPath (Some [SLASH])) (CopyPath (Some [SLASH])))).

Definition set_fs_refcount (context : FsContext) (refcount : Z) : FsContext :=
  Build_FsContext (fs_occupied context) (fs_slot context) refcount (cwd_origin_flags context)
    (fs_generation context) (cwd_device context) (cwd_inode context) (cwd_mount_id context)
    (guest_cwd context) (host_cwd context) (root_origin_flags context) (fs_reserved context)
    (root_device context) (root_inode context) (fs_root_mount_id context) (guest_root context) (host_root context).

Definition CopyFsContextToSlot (t : PathStateTable) (source : FsContext) (slot : Z) : PathStateTable :=
  with_fs t (occupy (fs_contexts t) slot
    (Build_FsContext 1 slot 1 (cwd_origin_flags source) (NextGeneration (fs_generation source))
      (cwd_device source) (cwd_inode source) (cwd_mount_id source) (guest_cwd source) (host_cwd source)
      (root_origin_flags source) (fs_reserved source) (root_device source) (root_inode source)
      (fs_root_mount_id source) (guest_root source) (host_root source))).

Definition EraseFsContextSlot (t : PathStateTable) (slot : Z) : PathStateTable :=
  with_fs t (vacate (fs_contexts t) slot (ClearFsContext slot)).

Definition ReleaseFsReference (t : PathStateTable) (slot : Z) : PathStateTable :=
  let context := at_slot (fs_contexts t) slot in
  let context := set_fs_refcount context (u32 (fs_refcount context - 1)) in
  let t := with_fs t (put (fs_contexts t) slot context) in
  if fs_refcount context =? 0 then EraseFsContextSlot t slot else t.

(** ** Mount namespaces *)

Definition set_namespace_counts (n : MountNamespaceState) (refcount bindings task_refs handle_refs : Z)
    : MountNamespaceState :=
  Build_MountNamespaceState (mn_occupied n) (mn_slot n) refcount bindings task_refs handle_refs
    (mn_generation n) (mn_identity_generation n) (root_mount_id n) (root_mount_flags n)
    (root_mount_attributes n) (root_propagation n) (mn_root_origin_flags n) (mn_reserved n)
    (root_source_guest n) (root_source_host n).

Definition OccupyInitialMountNamespace (t : PathStateTable) (slot : Z) : PathStateTable :=
  with_namespaces t (occupy (mount_namespaces t) slot
    (Build_MountNamespaceState 1 slot 1 0 1 0 1 (NextGeneration (mutation_generation t)) 1 0 0 0 both_valid 0
      (CopyPath (Some [SLASH])) (CopyPath (Some [SLASH])))).

Definition EraseMountBindingSlot (t : PathStateTable) (slot : Z) : PathStateTable :=
  let owner_slot := mb_mount_namespace_slot (at_slot (mount_bindings t) slot) in
  let owner := at_slot (mount_namespaces t) owner_slot in
  let t := with_namespaces t (put (mount_namespaces t) owner_slot
    (set_namespace_counts owner (mn_refcount owner) (u32 (binding_count owner - 1)) (task_refcount owner)
      (handle_refcount owner))) in
  with_bindings t (vacate (mount_bindings t) slot (ClearMountBinding slot)).

Definition EraseMountNamespaceSlot (t : PathStateTable) (slot : Z) : PathStateTable :=
  let t := for_slots kPathStateMountBindingCapacity (fun binding_slot t =>
    let binding := at_slot (mount_bindings t) binding_slot in
    if in_use binding && (mb_mount_namespace_slot binding =? slot) then EraseMountBindingSlot t binding_slot
    else t) t in
  with_namespaces t (vacate (mount_namespaces t) slot (ClearMountNamespace slot)).

(** A binding copied into a slot of another namespace. *)
Definition copied_binding (source : MountBindingState) (slot namespace_slot : Z) : MountBindingState :=
  Build_MountBindingState 1 slot namespace_slot (mb_kind source) (mb_state_flags source) (mb_reserved source)
    (mount_id source) (parent_mount_id source) (sequence source) (mount_flags source) (mount_attributes source)
    (propagation source) (target_guest source) (mb_source_guest source) (mb_source_host source).

(** The loop of CopyMountNamespaceToSlot over the slots that are left. *)
Fixpoint copy_bindings (t : PathStateTable) (source_namespace destination_namespace : Z) (slots : list Z)
    : Z * PathStateTable :=
  match slots with
  | [] => (0, t)
  | source_slot :: slots =>
    let source_binding := at_slot (mount_bindings t) source_slot in
    if negb (in_use source_binding) || negb (mb_mount_namespace_slot source_binding =? source_namespace)
    then copy_bindings t source_namespace destination_namespace slots
    else match find_free (mount_bindings t) with
    | None => (EPROTO, EraseMountNamespaceSlot t destination_namespace)
    | Some destination_slot =>
      let n := at_slot (mount_namespaces t) destination_namespace in
      let t := with_namespaces t (put (mount_namespaces t) destination_namespace
        (set_namespace_counts n (mn_refcount n) (u32 (binding_count n + 1)) (task_refcount n) (handle_refcount n))) in
      let t := with_bindings t (occupy (mount_bindings t) destination_slot
        (copied_binding source_binding destination_slot destination_namespace)) in
      copy_bindings t source_namespace destination_namespace slots
    end
  end.

Definition CopyMountNamespaceToSlot (t : PathStateTable) (source_namespace_slot destination_namespace_slot : Z)
    (task_reference : bool) : Z * PathStateTable :=
  let source := at_slot (mount_namespaces t) source_namespace_slot in
  if CountFreeMountBindingSlots t <? binding_count source then (ENOSPC, t)
  else
    let t := with_namespaces t (occupy (mount_namespaces t) destination_namespace_slot
      (Build_MountNamespaceState 1 destination_namespace_slot 1 0 (if task_reference then 1 else 0)
        (if task_reference then 0 else 1) (NextGeneration (mn_generation source))
        (NextGeneration (mutation_generation t)) (root_mount_id source) (root_mount_flags source)
        (root_mount_attributes source) (root_propagation source) (mn_root_origin_flags source)
        (mn_reserved source) (root_source_guest source) (root_source_host source))) in
    copy_bindings t source_namespace_slot destination_namespace_slot (seqZ 0 kPathStateMountBindingCapacity).

(** ** Mount trees *)

Definition set_tree_refcount (tree : MountTreeState) (refcount : Z) : MountTreeState :=
  Build_MountTreeState (mt_occupied tree) (mt_slot tree) refcount (mt_state_flags tree)
    (mt_mount_namespace_slot tree) (mt_reserved tree) (mt_generation tree) (handle_id tree)
    (source_mount_id tree) (attached_namespace_slot tree) (mt_reserved2 tree) (attached_mount_id tree)
    (mt_source_guest tree) (mt_source_host tree) (attached_target_guest tree).

Definition DetachMountTree (tree : MountTreeState) : MountTreeState :=
  Build_MountTreeState (mt_occupied tree) (mt_slot tree) (mt_refcount tree)
    ((mt_state_flags tree &&& not32 kMountTreeStateAttached) ||| kMountTreeStateDetached)
    (mt_mount_namespace_slot tree) (mt_reserved tree) (mt_generation tree) (handle_id tree)
    (source_mount_id tree) kInvalidPathStateSlot (mt_reserved2 tree) 0
    (mt_source_guest tree) (mt_source_host tree) (CopyPath None).

Definition DetachTreesFromNamespace (t : PathStateTable) (namespace_slot : Z) : PathStateTable :=
  for_slots kPathStateMountTreeCapacity (fun slot t =>
    let tree := at_slot (mount_trees t) slot in
    if in_use tree && (attached_namespace_slot tree =? namespace_slot)
    then with_trees t (put (mount_trees t) slot (DetachMountTree tree)) else t) t.

Definition ReleaseMountNamespaceTaskReference (t : PathStateTable) (slot : Z) : PathStateTable :=
  let n := at_slot (mount_namespaces t) slot in
  let n := set_namespace_counts n (mn_refcount n) (binding_count n) (u32 (task_refcount n - 1)) (handle_refcount n) in
  let t := with_namespaces t (put (mount_namespaces t) slot n) in
  let t := if task_refcount n =? 0 then DetachTreesFromNamespace t slot else t in
  let n := at_slot (mount_namespaces t) slot in
  let n := set_namespace_counts n (u32 (mn_refcount n - 1)) (binding_count n) (task_refcount n) (handle_refcount n) in
  let t := with_namespaces t (put (mount_namespaces t) slot n) in
  if mn_refcount n =? 0 then EraseMountNamespaceSlot t slot else t.

Definition ReleaseMountNamespaceHandleReference (t : PathStateTable) (slot : Z) : PathStateTable :=
  let n := at_slot (mount_namespaces t) slot in
  let n := set_namespace_counts n (u32 (mn_refcount n - 1)) (binding_count n) (task_refcount n)
    (u32 (handle_refcount n - 1)) in
  let t := with_namespaces t (put (mount_namespaces t) slot n) in
  if mn_refcount n =? 0 then EraseMountNamespaceSlot t slot else t.

Definition RetainMountTreeReference (t : PathStateTable) (tree_slot : Z) : Z * PathStateTable :=
  if (kPathStateMountTreeCapacity <=? tree_slot) || negb (in_use (at_slot (mount_trees t) tree_slot)) then (ESTALE, t)
  else
    let tree := at_slot (mount_trees t) tree_slot in
    if mt_refcount tree =? UINT32_MAX then (EOVERFLOW, t)
    else (0, with_trees t (put (mount_trees t) tree_slot (set_tree_refcount tree (u32 (mt_refcount tree + 1))))).

Definition ReleaseMountTreeReference (t : PathStateTable) (tree_slot : Z) : PathStateTable :=
  let tree := at_slot (mount_trees t) tree_slot in
  let tree := set_tree_refcount tree (u32 (mt_refcount tree - 1)) in
  let t := with_trees t (put (mount_trees t) tree_slot tree) in
  if negb (mt_refcount tree =? 0) then t
  else
    let t := with_trees t (vacate (mount_trees t) tree_slot (ClearMountTree tree_slot)) in
    ReleaseMountNamespaceHandleReference t (mt_mount_namespace_slot tree).

(** ** Descriptor tables *)

Definition OccupyEmptyFdTable (t : PathStateTable) (slot generation : Z) : PathStateTable :=
  with_fd_tables t (occupy (fd_tables t) slot
    (Build_FdTable 1 slot 1 0 0 0 (if generation =? 0 then 1 else generation))).

Definition set_fd_counts (f : FdTable) (refcount entries protecteds : Z) : FdTable :=
  Build_FdTable (ft_occupied f) (ft_slot f) refcount entries protecteds (ft_reserved f) (ft_generation f).

(** [(identity.origin_flags & kPathOriginProtected) != 0] *)
Definition identity_protected (identity : FdIdentity) : bool := has (fi_origin_flags identity) kPathOriginProtected.

Definition EraseIdentitySlot (t : PathStateTable) (slot : Z) : PathStateTable :=
  let identity := at_slot (fd_identities t) slot in
  let owner_slot := fi_fd_table_slot identity in
  let owner := at_slot (fd_tables t) owner_slot in
  let t := with_fd_tables t (put (fd_tables t) owner_slot
    (set_fd_counts owner (ft_refcount owner) (u32 (entry_count owner - 1))
      (if identity_protected identity then u32 (protected_count owner - 1) else protected_count owner))) in
  let t := with_identities t (vacate (fd_identities t) slot (ClearFdIdentity slot)) in
  if (object_kind identity =? kFdIdentityObjectMountTree) && (object_slot identity <? kPathStateMountTreeCapacity)
  then ReleaseMountTreeReference t (object_slot identity) else t.

Definition EraseFdTableSlot (t : PathStateTable) (slot : Z) : PathStateTable :=
  let t := for_slots kPathStateFdIdentityCapacity (fun identity_slot t =>
    let identity := at_slot (fd_identities t) identity_slot in
    if in_use identity && (fi_fd_table_slot identity =? slot) then EraseIdentitySlot t identity_slot else t) t in
  with_fd_tables t (vacate (fd_tables t) slot (ClearFdTable slot)).

Definition ReleaseFdTableReference (t : PathStateTable) (slot : Z) : PathStateTable :=
  let f := at_slot (fd_tables t) slot in
  let f := set_fd_counts f (u32 (ft_refcount f - 1)) (entry_count f) (protected_count f) in
  let t := with_fd_tables t (put (fd_tables t) slot f) in
  if ft_refcount f =? 0 then EraseFdTableSlot t slot else t.

(** [fd] is an [int32_t], the bounds are [uint32_t]. *)
Definition FdInRange (fd first last : Z) : bool := (0 <=? fd) && (first <=? fd) && (fd <=? last).

Definition ShouldCopyIdentity (identity : FdIdentity) (mode : FdCopyMode) (first last : Z) : bool :=
  match mode with
  | kExec => fi_cloexec identity =? 0
  | kCloseRange => negb (FdInRange (fi_fd identity) first last)
  | kCloseRangePreserveProtected =>
    negb (FdInRange (fi_fd identity) first last && negb (identity_protected identity))
  | _ => true
  end.

(** The identities that are copied. *)
Definition copied (source_table_slot : Z) (mode : FdCopyMode) (first last : Z) (identity : FdIdentity) : bool :=
  (fi_fd_table_slot identity =? source_table_slot) && ShouldCopyIdentity identity mode first last.

Definition CountCopiedIdentities (t : PathStateTable) (source_table_slot : Z) (mode : FdCopyMode) (first last : Z) : Z :=
  count_if (copied source_table_slot mode first last) (fd_identities t).

Definition copied_identity (source : FdIdentity) (slot table fd cloexec : Z) : FdIdentity :=
  Build_FdIdentity 1 slot table fd (fi_origin_flags source) (fi_directory source) cloexec (fi_reserved source)
    (fi_device source) (fi_inode source) (fi_mount_namespace_slot source) (fi_reserved2 source)
    (fi_mount_namespace_identity source) (fi_mount_namespace_generation source) (object_kind source)
    (object_flags source) (object_slot source) (fi_reserved3 source) (object_generation source)
    (fi_guest_path source) (fi_host_path source).

(** The close-on-exec mark of the copy. *)
Definition copied_cloexec (mode : FdCopyMode) (first last : Z) (source : FdIdentity) : Z :=
  match mode with
  | kCloexecRange | kCloexecRangePreserveProtected =>
    if FdInRange (fi_fd source) first last then 1 else fi_cloexec source
  | _ => fi_cloexec source
  end.

(** One more entry of a table, and its identity in a free slot. *)
Definition add_identity (t : PathStateTable) (table slot : Z) (identity : FdIdentity) : PathStateTable :=
  let t := with_identities t (occupy (fd_identities t) slot identity) in
  let f := at_slot (fd_tables t) table in
  with_fd_tables t (put (fd_tables t) table
    (set_fd_counts f (ft_refcount f) (u32 (entry_count f + 1))
      (if identity_protected identity then u32 (protected_count f + 1) else protected_count f))).

Fixpoint copy_identities (t : PathStateTable) (source_table destination_table : Z) (mode : FdCopyMode)
    (first last : Z) (slots : list Z) : Z * PathStateTable :=
  match slots with
  | [] => (0, t)
  | source_slot :: slots =>
    let source := at_slot (fd_identities t) source_slot in
    if negb (in_use source && copied source_table mode first last source)
    then copy_identities t source_table destination_table mode first last slots
    else match find_free (fd_identities t) with
    | None => (EPROTO, EraseFdTableSlot t destination_table)
    | Some destination_slot =>
      let '(error, t) :=
        if object_kind source =? kFdIdentityObjectMountTree then RetainMountTreeReference t (object_slot source)
        else (0, t) in
      if negb (error =? 0) then (error, EraseFdTableSlot t destination_table)
      else
        let t := add_identity t destination_table destination_slot
          (copied_identity source destination_slot destination_table (fi_fd source)
            (copied_cloexec mode first last source)) in
        copy_identities t source_table destination_table mode first last slots
    end
  end.

Definition CopyFdTableToSlot (t : PathStateTable) (source_table_slot destination_table_slot : Z)
    (mode : FdCopyMode) (first last : Z) : Z * PathStateTable :=
  let source := at_slot (fd_tables t) source_table_slot in
  if CountFreeFdIdentitySlots t <? CountCopiedIdentities t source_table_slot mode first last then (ENOSPC, t)
  else
    let t := OccupyEmptyFdTable t destination_table_slot (NextGeneration (ft_generation source)) in
    copy_identities t source_table_slot destination_table_slot mode first last (seqZ 0 kPathStateFdIdentityCapacity).

Definition ValidateIdentitySpec (identity : FdIdentitySpec) : Z :=
  if (1 <? sp_directory identity) || (1 <? sp_cloexec identity) || negb (sp_reserved identity =? 0) then EINVAL
  else ValidateOrigin (sp_origin_flags identity) (sp_guest_path identity) (sp_host_path identity).

Definition FillIdentity (slot fd_table_slot fd : Z) (source : FdIdentitySpec) (mount_namespace_slot
    mount_namespace_identity mount_namespace_generation : Z) : FdIdentity :=
  Build_FdIdentity 1 slot fd_table_slot fd (sp_origin_flags source) (sp_directory source) (sp_cloexec source) 0
    (sp_device source) (sp_inode source) mount_namespace_slot 0 mount_namespace_identity
    mount_namespace_generation kFdIdentityObjectNone 0 kInvalidPathStateSlot 0 0
    (CopyPath (if has (sp_origin_flags source) kPathOriginGuestValid then sp_guest_path source else None))
    (CopyPath (if has (sp_origin_flags source) kPathOriginHostValid then sp_host_path source else None)).
