(* ===== verification/PathStateOps.v ===== *)
(** * Operations of the path state (tracer/path_state/task_fd.inc)

    Initialisation, the audit, and what happens to a task and its descriptors:
    creation, clone, exec, unshare, exit, the change of directories, and the
    descriptor calls. Each returns its errno value and the new table. *)

From S2P Require Import Prelude SlotArray SlotPool GuestPath PathState PathStorage.
From stdpp Require Import list.
#[local] Open Scope Z_scope.

Definition ENOENT : Z := 2.

Definition InitPathState : PathStateTable :=
  Build_PathStateTable kPathStateMagic kPathStateVersion 0 0 0 [0; 0; 0]
    (cleared_pool ClearTask kPathStateTaskCapacity) (cleared_pool ClearFsContext kPathStateFsContextCapacity)
    (cleared_pool ClearFdTable kPathStateFdTableCapacity) (cleared_pool ClearFdIdentity kPathStateFdIdentityCapacity)
    (cleared_pool ClearMountNamespace kPathStateMountNamespaceCapacity)
    (cleared_pool ClearMountBinding kPathStateMountBindingCapacity)
    (cleared_pool ClearMountTree kPathStateMountTreeCapacity).

Definition IsPathStateInitialized (t : PathStateTable) : bool :=
  (magic t =? kPathStateMagic) && (version t =? kPathStateVersion) &&
  (p_count (tasks t) <=? kPathStateTaskCapacity) && (p_count (fs_contexts t) <=? kPathStateFsContextCapacity) &&
  (p_count (fd_tables t) <=? kPathStateFdTableCapacity) &&
  (p_count (fd_identities t) <=? kPathStateFdIdentityCapacity) &&
  (p_count (mount_namespaces t) <=? kPathStateMountNamespaceCapacity) &&
  (p_count (mount_bindings t) <=? kPathStateMountBindingCapacity) &&
  (p_count (mount_trees t) <=? kPathStateMountTreeCapacity) &&
  (p_hint (tasks t) <? kPathStateTaskCapacity) && (p_hint (fs_contexts t) <? kPathStateFsContextCapacity) &&
  (p_hint (fd_tables t) <? kPathStateFdTableCapacity) &&
  (p_hint (fd_identities t) <? kPathStateFdIdentityCapacity) &&
  (p_hint (mount_namespaces t) <? kPathStateMountNamespaceCapacity) &&
  (p_hint (mount_bindings t) <? kPathStateMountBindingCapacity) &&
  (p_hint (mount_trees t) <? kPathStateMountTreeCapacity) &&
  (reserved_count t =? 0) && (reserved_hint t =? 0).

Definition FindPathTask (t : PathStateTable) (tid : Z) : option Z :=
  if negb (IsPathStateInitialized t) || (tid <=? 0) then None else FindTaskUnchecked t tid.

(** The task found for an operation: EINVAL, ESRCH or the record. *)
Definition task_of (t : PathStateTable) (slot : Z) : PathTaskState := at_slot (tasks t) slot.

(** ** The audit *)

Definition zero (x : Z) : bool := x =? 0.
Definition invalid (slot : Z) : bool := slot =? kInvalidPathStateSlot.

(** The counters of the audit: one per slot, incremented for each record in use. *)
Definition tally {A K} `{SlotRecord A K} (target : A -> option Z) (capacity : Z) (records : list A) : list Z :=
  foldl (fun counts r =>
    match target r with
    | Some slot => if in_use r then <[Z.to_nat slot := u32 (counts !!! Z.to_nat slot + 1)]> counts else counts
    | None => counts
    end) (replicate (Z.to_nat capacity) 0) records.

Definition occupied_at {A K} `{SlotRecord A K} `{Inhabited A} (p : Pool A) (slot : Z) : bool := in_use (at_slot p slot).

(** [id] is 0, the root mount or a mount of the namespace. *)
Definition mount_known (t : PathStateTable) (namespace_slot id : Z) : bool :=
  zero id || (id =? root_mount_id (at_slot (mount_namespaces t) namespace_slot)) ||
  match FindMountBindingById t namespace_slot id with Some _ => true | None => false end.

Definition task_vacant (r : PathTaskState) : bool :=
  zero (pt_tid r) && zero (pt_reserved r) && zero (pt_reserved2 r) && invalid (pt_fs_context_slot r) &&
  invalid (pt_fd_table_slot r) && invalid (pt_mount_namespace_slot r) && zero (pt_identity_generation r).

Definition task_entry (t : PathStateTable) (r : PathTaskState) : bool :=
  let fs := at_slot (fs_contexts t) (pt_fs_context_slot r) in
  (0 <? pt_tid r) && zero (pt_reserved r) && zero (pt_reserved2 r) && negb (zero (pt_identity_generation r)) &&
  (pt_fs_context_slot r <? kPathStateFsContextCapacity) && (pt_fd_table_slot r <? kPathStateFdTableCapacity) &&
  (pt_mount_namespace_slot r <? kPathStateMountNamespaceCapacity) &&
  occupied_at (fs_contexts t) (pt_fs_context_slot r) && occupied_at (fd_tables t) (pt_fd_table_slot r) &&
  occupied_at (mount_namespaces t) (pt_mount_namespace_slot r) &&
  mount_known t (pt_mount_namespace_slot r) (cwd_mount_id fs) &&
  mount_known t (pt_mount_namespace_slot r) (fs_root_mount_id fs) &&
  forallb (fun other => negb (in_use other && (pt_fs_context_slot other =? pt_fs_context_slot r) &&
      negb (pt_mount_namespace_slot other =? pt_mount_namespace_slot r)))
    (take (Z.to_nat (pt_slot r)) (p_records (tasks t))).

Definition fs_vacant (r : FsContext) : bool :=
  zero (fs_refcount r) && zero (cwd_origin_flags r) && zero (fs_generation r) && zero (cwd_device r) &&
  zero (cwd_inode r) && zero (cwd_mount_id r) && zero (root_origin_flags r) && zero (fs_reserved r) &&
  zero (root_device r) && zero (root_inode r) && zero (fs_root_mount_id r) && PathStorageIsEmpty (guest_cwd r) &&
  PathStorageIsEmpty (host_cwd r) && PathStorageIsEmpty (guest_root r) && PathStorageIsEmpty (host_root r).

(** Both paths of an origin valid, their storage padded. *)
Definition origin_pair (flags : Z) (guest host : Path) : bool :=
  ((flags &&& both_valid) =? both_valid) && zero (ValidateOrigin flags (Some guest) (Some host)) &&
  PathStorageIsPadded guest && PathStorageIsPadded host.

(** The fields of a context, apart from its references. *)
Definition fs_fields (r : FsContext) : bool :=
  negb (zero (fs_generation r)) && negb (has (cwd_origin_flags r) kPathOriginProtected) && zero (fs_reserved r) &&
  origin_pair (cwd_origin_flags r) (guest_cwd r) (host_cwd r) &&
  negb (has (root_origin_flags r) kPathOriginProtected) &&
  origin_pair (root_origin_flags r) (guest_root r) (host_root r).

Definition fs_entry (references : list Z) (r : FsContext) : bool :=
  negb (zero (fs_refcount r)) && (fs_refcount r =? references !!! Z.to_nat (fs_slot r)) && fs_fields r.

Definition identity_vacant (r : FdIdentity) : bool :=
  invalid (fi_fd_table_slot r) && (fi_fd r =? -1) && zero (fi_origin_flags r) && zero (fi_directory r) &&
  zero (fi_cloexec r) && (object_kind r =? kFdIdentityObjectNone) && zero (object_flags r) &&
  invalid (object_slot r) && zero (object_generation r) && zero (fi_reserved r) && zero (fi_reserved2 r) &&
  zero (fi_reserved3 r) && invalid (fi_mount_namespace_slot r) && zero (fi_mount_namespace_identity r) &&
  zero (fi_mount_namespace_generation r) && zero (fi_device r) && zero (fi_inode r) &&
  PathStorageIsEmpty (fi_guest_path r) && PathStorageIsEmpty (fi_host_path r).

Definition identity_fields (r : FdIdentity) : bool :=
  (0 <=? fi_fd r) && (fi_directory r <=? 1) && (fi_cloexec r <=? 1) && zero (fi_reserved r) && zero (fi_reserved2 r) &&
  zero (fi_reserved3 r) && (fi_mount_namespace_slot r <? kPathStateMountNamespaceCapacity) &&
  negb (zero (fi_mount_namespace_identity r)) && negb (zero (fi_mount_namespace_generation r)) &&
  zero (ValidateOrigin (fi_origin_flags r) (Some (fi_guest_path r)) (Some (fi_host_path r))) &&
  PathStorageIsPadded (fi_guest_path r) && PathStorageIsPadded (fi_host_path r).

Definition identity_object (t : PathStateTable) (r : FdIdentity) : bool :=
  if object_kind r =? kFdIdentityObjectNone then
    zero (object_flags r) && invalid (object_slot r) && zero (object_generation r)
  else (object_kind r =? kFdIdentityObjectMountTree) && zero (object_flags r) &&
    (object_slot r <? kPathStateMountTreeCapacity) && occupied_at (mount_trees t) (object_slot r) &&
    (mt_generation (at_slot (mount_trees t) (object_slot r)) =? object_generation r).

Definition identity_entry (t : PathStateTable) (r : FdIdentity) : bool :=
  (fi_fd_table_slot r <? kPathStateFdTableCapacity) && occupied_at (fd_tables t) (fi_fd_table_slot r) &&
  identity_fields r && identity_object t r.

Definition fd_table_vacant (r : FdTable) : bool :=
  zero (ft_refcount r) && zero (entry_count r) && zero (protected_count r) && zero (ft_reserved r) &&
  zero (ft_generation r).

Definition fd_table_entry (references entries protecteds : list Z) (r : FdTable) : bool :=
  negb (zero (ft_refcount r)) && negb (zero (ft_generation r)) && zero (ft_reserved r) &&
  (ft_refcount r =? references !!! Z.to_nat (ft_slot r)) && (entry_count r =? entries !!! Z.to_nat (ft_slot r)) &&
  (protected_count r =? protecteds !!! Z.to_nat (ft_slot r)) && (protected_count r <=? entry_count r).

Definition canonical_storage (p : Path) : bool := zero (ValidateCanonicalPath (Some p)) && PathStorageIsPadded p.

Definition binding_vacant (r : MountBindingState) : bool :=
  invalid (mb_mount_namespace_slot r) && zero (mb_kind r) && zero (mb_state_flags r) && zero (mb_reserved r) &&
  zero (mount_id r) && zero (parent_mount_id r) && zero (sequence r) && zero (mount_flags r) &&
  zero (mount_attributes r) && zero (propagation r) && PathStorageIsEmpty (target_guest r) &&
  PathStorageIsEmpty (mb_source_guest r) && PathStorageIsEmpty (mb_source_host r).

Definition binding_fields (r : MountBindingState) : bool :=
  (kMountBindingBind <=? mb_kind r) && (mb_kind r <=? kMountBindingRoot) && zero (mb_reserved r) &&
  zero (mb_state_flags r &&& not32 kMountBindingStateKnownFlags) && negb (zero (mount_id r)) &&
  negb (zero (sequence r)) && canonical_storage (target_guest r) && canonical_storage (mb_source_guest r) &&
  canonical_storage (mb_source_host r).

(** The walk to the root mount. *)
Fixpoint ancestors (n : nat) (t : PathStateTable) (binding : MountBindingState) (parent : Z) : bool :=
  match n with
  | O => true
  | S n =>
    if parent =? root_mount_id (at_slot (mount_namespaces t) (mb_mount_namespace_slot binding)) then true
    else match FindMountBindingById t (mb_mount_namespace_slot binding) parent with
    | None => false
    | Some ancestor =>
      let ancestor := at_slot (mount_bindings t) ancestor in
      if (mount_id ancestor =? mount_id binding) || (n =? 0)%nat then false
      else ancestors n t binding (parent_mount_id ancestor)
    end
  end.

Definition binding_entry (t : PathStateTable) (r : MountBindingState) : bool :=
  (mb_mount_namespace_slot r <? kPathStateMountNamespaceCapacity) &&
  occupied_at (mount_namespaces t) (mb_mount_namespace_slot r) && binding_fields r &&
  ((parent_mount_id r =? root_mount_id (at_slot (mount_namespaces t) (mb_mount_namespace_slot r))) ||
   match FindMountBindingById t (mb_mount_namespace_slot r) (parent_mount_id r) with Some _ => true | None => false end) &&
  ancestors (S (Z.to_nat kPathStateMountBindingCapacity)) t r (parent_mount_id r).

Definition tree_vacant (r : MountTreeState) : bool :=
  zero (mt_refcount r) && zero (mt_state_flags r) && invalid (mt_mount_namespace_slot r) && zero (mt_reserved r) &&
  zero (mt_generation r) && zero (handle_id r) && zero (source_mount_id r) && invalid (attached_namespace_slot r) &&
  zero (mt_reserved2 r) && zero (attached_mount_id r) && PathStorageIsEmpty (mt_source_guest r) &&
  PathStorageIsEmpty (mt_source_host r) && PathStorageIsEmpty (attached_target_guest r).

Definition tree_attached (r : MountTreeState) : bool := has (mt_state_flags r) kMountTreeStateAttached.
Definition tree_detached (r : MountTreeState) : bool := has (mt_state_flags r) kMountTreeStateDetached.

Definition tree_fields (r : MountTreeState) : bool :=
  zero (mt_reserved r) && zero (mt_state_flags r &&& not32 kMountTreeStateKnownFlags) &&
  negb (Bool.eqb (tree_attached r) (tree_detached r)) && negb (zero (mt_generation r)) && negb (zero (handle_id r)) &&
  negb (zero (source_mount_id r)) && canonical_storage (mt_source_guest r) && canonical_storage (mt_source_host r) &&
  zero (mt_reserved2 r) &&
  (if tree_detached r then
     invalid (attached_namespace_slot r) && zero (attached_mount_id r) && PathStorageIsEmpty (attached_target_guest r)
   else negb (zero (attached_mount_id r)) && canonical_storage (attached_target_guest r)).

(** A mount of an occupied namespace. *)
Definition mount_of (t : PathStateTable) (namespace_slot id : Z) : bool :=
  (namespace_slot <? kPathStateMountNamespaceCapacity) && occupied_at (mount_namespaces t) namespace_slot &&
  ((id =? root_mount_id (at_slot (mount_namespaces t) namespace_slot)) ||
   match FindMountBindingById t namespace_slot id with Some _ => true | None => false end).

Definition tree_entry (t : PathStateTable) (references : list Z) (r : MountTreeState) : bool :=
  negb (zero (mt_refcount r)) && (mt_refcount r =? references !!! Z.to_nat (mt_slot r)) && tree_fields r &&
  mount_of t (mt_mount_namespace_slot r) (source_mount_id r) &&
  (tree_detached r || mount_of t (attached_namespace_slot r) (attached_mount_id r)).

Definition namespace_vacant (r : MountNamespaceState) : bool :=
  zero (mn_refcount r) && zero (task_refcount r) && zero (handle_refcount r) && zero (binding_count r) &&
  zero (mn_generation r) && zero (mn_identity_generation r) && zero (root_mount_id r) && zero (root_mount_flags r) &&
  zero (root_mount_attributes r) && zero (root_propagation r) && zero (mn_root_origin_flags r) && zero (mn_reserved r) &&
  PathStorageIsEmpty (root_source_guest r) && PathStorageIsEmpty (root_source_host r).

Definition namespace_fields (r : MountNamespaceState) : bool :=
  negb (zero (mn_generation r)) && negb (zero (mn_identity_generation r)) && negb (zero (root_mount_id r)) &&
  zero (mn_reserved r) && origin_pair (mn_root_origin_flags r) (root_source_guest r) (root_source_host r) &&
  zero (ValidateCanonicalPath (Some (root_source_guest r))) && zero (ValidateCanonicalPath (Some (root_source_host r))).

Definition namespace_entry (task_refs handle_refs bindings : list Z) (r : MountNamespaceState) : bool :=
  negb (zero (mn_refcount r)) && (mn_refcount r =? u32 (task_refcount r + handle_refcount r)) &&
  (task_refcount r =? task_refs !!! Z.to_nat (mn_slot r)) && (handle_refcount r =? handle_refs !!! Z.to_nat (mn_slot r)) &&
  (binding_count r =? bindings !!! Z.to_nat (mn_slot r)) && namespace_fields r.

(** One array of the audit. *)
Definition audit {A K} `{SlotRecord A K} (vacant entry : A -> bool) (p : Pool A) : bool :=
  match validate_slots vacant entry 0 0 (p_records p) with Some count => count =? p_count p | None => false end.

Definition ValidatePathState (t : PathStateTable) : bool :=
  IsPathStateInitialized t && forallb zero (reserved t) &&
  let fs_references := tally (fun r => Some (pt_fs_context_slot r)) kPathStateFsContextCapacity (p_records (tasks t)) in
  let fd_table_references := tally (fun r => Some (pt_fd_table_slot r)) kPathStateFdTableCapacity (p_records (tasks t)) in
  let fd_entry_counts := tally (fun r => Some (fi_fd_table_slot r)) kPathStateFdTableCapacity (p_records (fd_identities t)) in
  let protected_counts := tally (fun r => if identity_protected r then Some (fi_fd_table_slot r) else None)
    kPathStateFdTableCapacity (p_records (fd_identities t)) in
  let mount_task_references := tally (fun r => Some (pt_mount_namespace_slot r)) kPathStateMountNamespaceCapacity (p_records (tasks t)) in
  let mount_handle_references := tally (fun r => Some (mt_mount_namespace_slot r)) kPathStateMountNamespaceCapacity (p_records (mount_trees t)) in
  let mount_binding_counts := tally (fun r => Some (mb_mount_namespace_slot r)) kPathStateMountNamespaceCapacity (p_records (mount_bindings t)) in
  let mount_tree_references := tally (fun r => if object_kind r =? kFdIdentityObjectMountTree then Some (object_slot r) else None)
    kPathStateMountTreeCapacity (p_records (fd_identities t)) in
  audit task_vacant (task_entry t) (tasks t) &&
  audit fs_vacant (fs_entry fs_references) (fs_contexts t) &&
  audit identity_vacant (identity_entry t) (fd_identities t) &&
  audit fd_table_vacant (fd_table_entry fd_table_references fd_entry_counts protected_counts) (fd_tables t) &&
  audit binding_vacant (binding_entry t) (mount_bindings t) &&
  audit tree_vacant (tree_entry t mount_tree_references) (mount_trees t) &&
  audit namespace_vacant (namespace_entry mount_task_references mount_handle_references mount_binding_counts)
    (mount_namespaces t).
