(* ===== verification/PathTaskOps.v ===== *)
(** * Tasks and descriptors in the path state (tracer/path_state/task_fd.inc)

    Creation, clone, exec, unshare and exit of a task, the change of its
    directories, and the descriptor calls. *)

From S2P Require Import Prelude SlotArray SlotPool GuestPath PathState PathStorage PathStateOps.
From stdpp Require Import list.
#[local] Open Scope Z_scope.

(** ** Reading a task *)

Definition GetTaskFsContext (t : PathStateTable) (tid : Z) : option FsContext :=
  option_map (fun slot => at_slot (fs_contexts t) (pt_fs_context_slot (task_of t slot))) (FindPathTask t tid).
Definition GetTaskMountNamespace (t : PathStateTable) (tid : Z) : option MountNamespaceState :=
  option_map (fun slot => at_slot (mount_namespaces t) (pt_mount_namespace_slot (task_of t slot))) (FindPathTask t tid).
Definition LookupFdIdentity (t : PathStateTable) (tid fd : Z) : option FdIdentity :=
  if fd <? 0 then None
  else match FindPathTask t tid with
  | None => None
  | Some slot =>
    option_map (at_slot (fd_identities t)) (FindIdentityUnchecked t (pt_fd_table_slot (task_of t slot)) fd)
  end.

(** The guard most operations share: the task, or the errno value. *)
Definition with_task (t : PathStateTable) (tid : Z) (bad : bool) (k : Z -> PathTaskState -> Z * PathStateTable)
    : Z * PathStateTable :=
  if negb (IsPathStateInitialized t) || (tid <=? 0) || bad then (EINVAL, t)
  else match FindTaskUnchecked t tid with
  | None => (ESRCH, t)
  | Some slot => k slot (task_of t slot)
  end.

(** ** Life of a task *)

Definition InsertInitialPathTask (t : PathStateTable) (tid : Z) (guest host : option Path) : Z * PathStateTable :=
  if negb (IsPathStateInitialized t) || (tid <=? 0) then (EINVAL, t)
  else
    let error := ValidateAbsolutePath guest in
    let error := if error =? 0 then ValidateAbsolutePath host else error in
    if negb (error =? 0) then (error, t)
    else match FindTaskUnchecked t tid with
    | Some _ => (EEXIST, t)
    | None =>
      match find_free (tasks t), find_free (fs_contexts t), find_free (fd_tables t), find_free (mount_namespaces t) with
      | Some task_slot, Some fs_slot, Some fd_table_slot, Some mount_namespace_slot =>
        let t := OccupyInitialFsContext t fs_slot guest host in
        let t := OccupyEmptyFdTable t fd_table_slot 1 in
        let t := OccupyInitialMountNamespace t mount_namespace_slot in
        let t := NoteMutation t in
        (0, OccupyTask t task_slot tid fs_slot fd_table_slot mount_namespace_slot (mutation_generation t))
      | _, _, _, _ => (ENOSPC, t)
      end
    end.

(** [++refcount] of a context, a table and a namespace a task shares. *)
Definition share_fs_context (t : PathStateTable) (slot : Z) : PathStateTable :=
  let context := at_slot (fs_contexts t) slot in
  with_fs t (put (fs_contexts t) slot (set_fs_refcount context (u32 (fs_refcount context + 1)))).
Definition share_fd_table (t : PathStateTable) (slot : Z) : PathStateTable :=
  let f := at_slot (fd_tables t) slot in
  with_fd_tables t (put (fd_tables t) slot
    (set_fd_counts f (u32 (ft_refcount f + 1)) (entry_count f) (protected_count f))).
Definition share_namespace (t : PathStateTable) (slot : Z) : PathStateTable :=
  let n := at_slot (mount_namespaces t) slot in
  with_namespaces t (put (mount_namespaces t) slot
    (set_namespace_counts n (u32 (mn_refcount n + 1)) (binding_count n) (u32 (task_refcount n + 1)) (handle_refcount n))).

(** The slot of an object: a free one for a copy, else the one in use. *)
Definition slot_for {A K} `{SlotRecord A K} `{Inhabited A} (copy : bool) (p : Pool A) (current : Z) : option Z :=
  if copy then find_free p else Some current.

(** The copies of a clone or unshare, in order; on an error the copies made
    before are erased. *)
Definition copy_files (copy : bool) (t : PathStateTable) (source destination : Z) (mode : FdCopyMode)
    (undo : PathStateTable -> PathStateTable) : Z * PathStateTable :=
  if copy then
    let '(error, t) := CopyFdTableToSlot t source destination mode 0 0 in
    if negb (error =? 0) then (error, undo t) else (0, t)
  else (0, t).
Definition copy_namespace (copy : bool) (t : PathStateTable) (source destination : Z)
    (undo : PathStateTable -> PathStateTable) : Z * PathStateTable :=
  if copy then
    let '(error, t) := CopyMountNamespaceToSlot t source destination true in
    if negb (error =? 0) then (error, undo t) else (0, t)
  else (0, t).
Definition erase_copies (fs files : bool) (fs_slot fd_slot : Z) (t : PathStateTable) : PathStateTable :=
  let t := if files then EraseFdTableSlot t fd_slot else t in
  if fs then EraseFsContextSlot t fs_slot else t.

Definition copies (copy_fs copy_fds copy_ns : bool) (t : PathStateTable) (task : PathTaskState)
    (fs_slot fd_slot ns_slot : Z) : Z * PathStateTable :=
  let t := if copy_fs then CopyFsContextToSlot t (at_slot (fs_contexts t) (pt_fs_context_slot task)) fs_slot else t in
  let '(error, t) := copy_files copy_fds t (pt_fd_table_slot task) fd_slot kAll (erase_copies copy_fs false fs_slot fd_slot) in
  if negb (error =? 0) then (error, t)
  else copy_namespace copy_ns t (pt_mount_namespace_slot task) ns_slot (erase_copies copy_fs copy_fds fs_slot fd_slot).

Definition ClonePathTask (t : PathStateTable) (parent_tid child_tid clone_flags : Z) : Z * PathStateTable :=
  with_task t parent_tid (child_tid <=? 0) (fun _ parent =>
  match FindTaskUnchecked t child_tid with
  | Some _ => (EEXIST, t)
  | None =>
    let share_fs := has clone_flags kPathCloneFs in
    let share_files := has clone_flags kPathCloneFiles in
    let new_mount_namespace := has clone_flags kPathCloneNewns in
    let parent_fs := at_slot (fs_contexts t) (pt_fs_context_slot parent) in
    let parent_fds := at_slot (fd_tables t) (pt_fd_table_slot parent) in
    let parent_ns := at_slot (mount_namespaces t) (pt_mount_namespace_slot parent) in
    if share_fs && new_mount_namespace then (EINVAL, t)
    else if share_fs && (fs_refcount parent_fs =? UINT32_MAX) || share_files && (ft_refcount parent_fds =? UINT32_MAX) ||
        negb new_mount_namespace && ((mn_refcount parent_ns =? UINT32_MAX) || (task_refcount parent_ns =? UINT32_MAX))
    then (EOVERFLOW, t)
    else match find_free (tasks t), slot_for (negb share_fs) (fs_contexts t) (pt_fs_context_slot parent),
        slot_for (negb share_files) (fd_tables t) (pt_fd_table_slot parent),
        slot_for new_mount_namespace (mount_namespaces t) (pt_mount_namespace_slot parent) with
    | Some task_slot, Some fs_slot, Some fd_table_slot, Some mount_namespace_slot =>
      if negb share_files && (CountFreeFdIdentitySlots t <? entry_count parent_fds) then (ENOSPC, t)
      else if new_mount_namespace && (CountFreeMountBindingSlots t <? binding_count parent_ns) then (ENOSPC, t)
      else
        let '(error, t) := copies (negb share_fs) (negb share_files) new_mount_namespace t parent
          fs_slot fd_table_slot mount_namespace_slot in
        if negb (error =? 0) then (error, t)
        else
          let t := if share_fs then share_fs_context t fs_slot else t in
          let t := if share_files then share_fd_table t fd_table_slot else t in
          let t := if new_mount_namespace then t else share_namespace t mount_namespace_slot in
          let t := NoteMutation t in
          (0, OccupyTask t task_slot child_tid fs_slot fd_table_slot mount_namespace_slot (mutation_generation t))
    | _, _, _, _ => (ENOSPC, t)
    end
  end).

(** The task leaves the table and gives back what it refers to. *)
Definition release_task (t : PathStateTable) (slot : Z) (task : PathTaskState) : PathStateTable :=
  let t := EraseTaskSlot t slot in
  let t := ReleaseFsReference t (pt_fs_context_slot task) in
  let t := ReleaseFdTableReference t (pt_fd_table_slot task) in
  ReleaseMountNamespaceTaskReference t (pt_mount_namespace_slot task).

Definition RemovePathTask (t : PathStateTable) (tid : Z) : Z * PathStateTable :=
  with_task t tid false (fun slot task => (0, NoteMutation (release_task t (pt_slot task) task))).

Definition set_task (task : PathTaskState) (tid fs fd ns identity : Z) : PathTaskState :=
  Build_PathTaskState (pt_occupied task) (pt_slot task) tid (pt_reserved task) fs fd ns (pt_reserved2 task) identity.
Definition put_task (t : PathStateTable) (slot : Z) (task : PathTaskState) : PathStateTable :=
  with_tasks t (put (tasks t) slot task).

Definition MigrateExecPathTask (t : PathStateTable) (former_tid new_tid : Z) : Z * PathStateTable :=
  with_task t former_tid (new_tid <=? 0) (fun source _ =>
  if former_tid =? new_tid then (0, t)
  else
    let t := match FindTaskUnchecked t new_tid with
      | Some displaced => release_task t (pt_slot (task_of t displaced)) (task_of t displaced)
      | None => t
      end in
    let t := NoteMutation t in
    let task := task_of t source in
    (0, put_task t source (set_task task new_tid (pt_fs_context_slot task) (pt_fd_table_slot task)
      (pt_mount_namespace_slot task) (mutation_generation t)))).

(** The task's record with another context, table or namespace. *)
Definition move_fs (t : PathStateTable) (slot new_slot : Z) : PathStateTable :=
  let task := task_of t slot in
  let t := put_task t slot (set_task task (pt_tid task) new_slot (pt_fd_table_slot task)
    (pt_mount_namespace_slot task) (pt_identity_generation task)) in
  ReleaseFsReference t (pt_fs_context_slot task).
Definition move_files (t : PathStateTable) (slot new_slot : Z) : PathStateTable :=
  let task := task_of t slot in
  let t := put_task t slot (set_task task (pt_tid task) (pt_fs_context_slot task) new_slot
    (pt_mount_namespace_slot task) (pt_identity_generation task)) in
  ReleaseFdTableReference t (pt_fd_table_slot task).
Definition move_namespace (t : PathStateTable) (slot new_slot : Z) : PathStateTable :=
  let task := task_of t slot in
  let t := put_task t slot (set_task task (pt_tid task) (pt_fs_context_slot task) (pt_fd_table_slot task)
    new_slot (pt_identity_generation task)) in
  ReleaseMountNamespaceTaskReference t (pt_mount_namespace_slot task).

(** [generation = NextGeneration(generation)] of a descriptor table. *)
Definition touch_fd_table (t : PathStateTable) (slot : Z) : PathStateTable :=
  let f := at_slot (fd_tables t) slot in
  with_fd_tables t (put (fd_tables t) slot
    (Build_FdTable (ft_occupied f) (ft_slot f) (ft_refcount f) (entry_count f) (protected_count f) (ft_reserved f)
      (NextGeneration (ft_generation f)))).

Definition close_on_exec (t : PathStateTable) (table : Z) : PathStateTable :=
  for_slots kPathStateFdIdentityCapacity (fun slot t =>
    let identity := at_slot (fd_identities t) slot in
    if in_use identity && (fi_fd_table_slot identity =? table) && negb (fi_cloexec identity =? 0)
    then EraseIdentitySlot t slot else t) t.

Definition ExecPathTask (t : PathStateTable) (tid : Z) : Z * PathStateTable :=
  with_task t tid false (fun slot task =>
  let copy_fs := 1 <? fs_refcount (at_slot (fs_contexts t) (pt_fs_context_slot task)) in
  let copy_fds := 1 <? ft_refcount (at_slot (fd_tables t) (pt_fd_table_slot task)) in
  match slot_for copy_fs (fs_contexts t) (pt_fs_context_slot task), slot_for copy_fds (fd_tables t) (pt_fd_table_slot task) with
  | Some new_fs_slot, Some new_fd_slot =>
    if copy_fds && (CountFreeFdIdentitySlots t <? CountCopiedIdentities t (pt_fd_table_slot task) kExec 0 0) then (ENOSPC, t)
    else
      let t := if copy_fs then CopyFsContextToSlot t (at_slot (fs_contexts t) (pt_fs_context_slot task)) new_fs_slot else t in
      let '(error, t) := copy_files copy_fds t (pt_fd_table_slot task) new_fd_slot kExec
        (erase_copies copy_fs false new_fs_slot new_fd_slot) in
      if negb (error =? 0) then (error, t)
      else
        let t := if copy_fds then move_files t slot new_fd_slot
                 else touch_fd_table (close_on_exec t (pt_fd_table_slot task)) (pt_fd_table_slot task) in
        let t := if copy_fs then move_fs t slot new_fs_slot else t in
        (0, NoteMutation t)
  | _, _ => (ENOSPC, t)
  end).

Definition UnsharePathTask (t : PathStateTable) (tid unshare_flags : Z) : Z * PathStateTable :=
  with_task t tid false (fun slot task =>
  let current_fds := at_slot (fd_tables t) (pt_fd_table_slot task) in
  let current_ns := at_slot (mount_namespaces t) (pt_mount_namespace_slot task) in
  let copy_ns := has unshare_flags kPathCloneNewns in
  let copy_fs := has unshare_flags (kPathCloneFs ||| kPathCloneNewns) &&
                 (1 <? fs_refcount (at_slot (fs_contexts t) (pt_fs_context_slot task))) in
  let copy_fds := has unshare_flags kPathCloneFiles && (1 <? ft_refcount current_fds) in
  if negb copy_fs && negb copy_fds && negb copy_ns then (0, t)
  else match slot_for copy_fs (fs_contexts t) (pt_fs_context_slot task),
      slot_for copy_fds (fd_tables t) (pt_fd_table_slot task),
      slot_for copy_ns (mount_namespaces t) (pt_mount_namespace_slot task) with
  | Some new_fs_slot, Some new_fd_slot, Some new_ns_slot =>
    if copy_fds && (CountFreeFdIdentitySlots t <? entry_count current_fds) ||
       copy_ns && (CountFreeMountBindingSlots t <? binding_count current_ns) then (ENOSPC, t)
    else
      let '(error, t) := copies copy_fs copy_fds copy_ns t task new_fs_slot new_fd_slot new_ns_slot in
      if negb (error =? 0) then (error, t)
      else
        let t := if copy_fs then move_fs t slot new_fs_slot else t in
        let t := if copy_fds then move_files t slot new_fd_slot else t in
        let t := if copy_ns then move_namespace t slot new_ns_slot else t in
        (0, NoteMutation t)
  | _, _, _ => (ENOSPC, t)
  end).

(** ** Directories *)

(** The origin flags of a directory: both paths valid, not protected. *)
Definition directory_origin (origin_flags : Z) : bool :=
  ((origin_flags &&& both_valid) =? both_valid) && ((origin_flags &&& kPathOriginProtected) =? 0).

Definition SetTaskCwd (t : PathStateTable) (tid : Z) (guest host : option Path) (origin_flags device inode : Z)
    : Z * PathStateTable :=
  if negb (IsPathStateInitialized t) || (tid <=? 0) || negb (directory_origin origin_flags) then (EINVAL, t)
  else if negb (ValidateOrigin origin_flags guest host =? 0) then (ValidateOrigin origin_flags guest host, t)
  else with_task t tid false (fun _ task =>
    let fs := at_slot (fs_contexts t) (pt_fs_context_slot task) in
    let fs := Build_FsContext (fs_occupied fs) (fs_slot fs) (fs_refcount fs) origin_flags
      (NextGeneration (fs_generation fs)) device inode 0 (CopyPath guest) (CopyPath host) (root_origin_flags fs)
      (fs_reserved fs) (root_device fs) (root_inode fs) (fs_root_mount_id fs) (guest_root fs) (host_root fs) in
    (0, NoteMutation (with_fs t (put (fs_contexts t) (pt_fs_context_slot task) fs)))).

Definition SetTaskRoot (t : PathStateTable) (tid : Z) (guest host : option Path)
    (origin_flags device inode id : Z) : Z * PathStateTable :=
  if negb (IsPathStateInitialized t) || (tid <=? 0) || negb (directory_origin origin_flags) then (EINVAL, t)
  else if negb (ValidateOrigin origin_flags guest host =? 0) then (ValidateOrigin origin_flags guest host, t)
  else with_task t tid false (fun _ task =>
    if negb (mount_known t (pt_mount_namespace_slot task) id) then (ENOENT, t)
    else
      let fs := at_slot (fs_contexts t) (pt_fs_context_slot task) in
      let fs := Build_FsContext (fs_occupied fs) (fs_slot fs) (fs_refcount fs) (cwd_origin_flags fs)
        (NextGeneration (fs_generation fs)) (cwd_device fs) (cwd_inode fs) (cwd_mount_id fs) (guest_cwd fs)
        (host_cwd fs) origin_flags (fs_reserved fs) device inode id (CopyPath guest) (CopyPath host) in
      (0, NoteMutation (with_fs t (put (fs_contexts t) (pt_fs_context_slot task) fs)))).
