(* ===== verification/PathFdOps.v ===== *)
(** * Descriptors in the path state (tracer/path_state/task_fd.inc)

    Recording, duplicating, marking and closing the identity of a descriptor,
    alone and over a range. *)

From S2P Require Import Prelude SlotArray SlotPool GuestPath PathState PathStorage PathStateOps PathTaskOps.
From stdpp Require Import list.
#[local] Open Scope Z_scope.

(** The end of a descriptor operation. *)
Definition descriptors_changed (t : PathStateTable) (table : Z) : PathStateTable := NoteMutation (touch_fd_table t table).

(** The reference of an identity that is overwritten. *)
Definition release_object (t : PathStateTable) (old : FdIdentity) : PathStateTable :=
  if (object_kind old =? kFdIdentityObjectMountTree) && (object_slot old <? kPathStateMountTreeCapacity)
  then ReleaseMountTreeReference t (object_slot old) else t.

(** An identity overwritten in its slot; the table counts the protected ones. *)
Definition replace_identity (t : PathStateTable) (table slot : Z) (identity : FdIdentity) : PathStateTable :=
  let old := at_slot (fd_identities t) slot in
  let t := with_identities t (put (fd_identities t) slot identity) in
  let f := at_slot (fd_tables t) table in
  let t := with_fd_tables t (put (fd_tables t) table
    (set_fd_counts f (ft_refcount f) (entry_count f)
      (if Bool.eqb (identity_protected old) (identity_protected identity) then protected_count f
       else if identity_protected identity then u32 (protected_count f + 1) else u32 (protected_count f - 1)))) in
  release_object t old.

Definition RecordFdIdentity (t : PathStateTable) (tid fd : Z) (identity : FdIdentitySpec) : Z * PathStateTable :=
  if negb (IsPathStateInitialized t) || (tid <=? 0) || (fd <? 0) then (EINVAL, t)
  else if negb (ValidateIdentitySpec identity =? 0) then (ValidateIdentitySpec identity, t)
  else with_task t tid false (fun _ task =>
    let table := pt_fd_table_slot task in
    let n := at_slot (mount_namespaces t) (pt_mount_namespace_slot task) in
    let filled slot := FillIdentity slot table fd identity (pt_mount_namespace_slot task)
      (mn_identity_generation n) (mn_generation n) in
    match FindIdentityUnchecked t table fd with
    | Some existing =>
      let slot := fi_slot (at_slot (fd_identities t) existing) in
      (0, descriptors_changed (replace_identity t table slot (filled slot)) table)
    | None =>
      match find_free (fd_identities t) with
      | None => (ENOSPC, t)
      | Some slot => (0, descriptors_changed (add_identity t table slot (filled slot)) table)
      end
    end).

(** The tree a copied identity refers to gains a reference. *)
Definition retain_object (t : PathStateTable) (source : FdIdentity) : Z * PathStateTable :=
  if object_kind source =? kFdIdentityObjectMountTree then RetainMountTreeReference t (object_slot source) else (0, t).

Definition DuplicateFdIdentity (t : PathStateTable) (tid old_fd new_fd : Z) (cloexec : bool) : Z * PathStateTable :=
  with_task t tid ((old_fd <? 0) || (new_fd <? 0)) (fun _ task =>
  if old_fd =? new_fd then (0, t)
  else
    let table := pt_fd_table_slot task in
    let mark := if cloexec then 1 else 0 in
    match FindIdentityUnchecked t table old_fd, FindIdentityUnchecked t table new_fd with
    | None, Some destination =>
      (0, descriptors_changed (EraseIdentitySlot t (fi_slot (at_slot (fd_identities t) destination))) table)
    | None, None => (0, t)
    | Some source, None =>
      let source := at_slot (fd_identities t) source in
      match find_free (fd_identities t) with
      | None => (ENOSPC, t)
      | Some slot =>
        let '(error, t) := retain_object t source in
        if negb (error =? 0) then (error, t)
        else (0, descriptors_changed
          (add_identity t table slot (copied_identity source slot (fi_fd_table_slot source) new_fd mark)) table)
      end
    | Some source, Some destination =>
      let source := at_slot (fd_identities t) source in
      let slot := fi_slot (at_slot (fd_identities t) destination) in
      let '(error, t) := retain_object t source in
      if negb (error =? 0) then (error, t)
      else (0, descriptors_changed (replace_identity t table slot (copied_identity source slot table new_fd mark)) table)
    end).

Definition CloseFdIdentity (t : PathStateTable) (tid fd : Z) : Z * PathStateTable :=
  with_task t tid (fd <? 0) (fun _ task =>
  match FindIdentityUnchecked t (pt_fd_table_slot task) fd with
  | None => (0, t)
  | Some identity =>
    (0, descriptors_changed (EraseIdentitySlot t (fi_slot (at_slot (fd_identities t) identity))) (pt_fd_table_slot task))
  end).

Definition set_cloexec (t : PathStateTable) (slot mark : Z) : PathStateTable :=
  let r := at_slot (fd_identities t) slot in
  with_identities t (put (fd_identities t) slot
    (Build_FdIdentity (fi_occupied r) (fi_slot r) (fi_fd_table_slot r) (fi_fd r) (fi_origin_flags r)
      (fi_directory r) mark (fi_reserved r) (fi_device r) (fi_inode r) (fi_mount_namespace_slot r)
      (fi_reserved2 r) (fi_mount_namespace_identity r) (fi_mount_namespace_generation r) (object_kind r)
      (object_flags r) (object_slot r) (fi_reserved3 r) (object_generation r) (fi_guest_path r) (fi_host_path r))).

Definition SetFdIdentityCloexec (t : PathStateTable) (tid fd : Z) (cloexec : bool) : Z * PathStateTable :=
  with_task t tid (fd <? 0) (fun _ task =>
  let mark := if cloexec then 1 else 0 in
  match FindIdentityUnchecked t (pt_fd_table_slot task) fd with
  | None => (0, t)
  | Some identity =>
    if fi_cloexec (at_slot (fd_identities t) identity) =? mark then (0, t)
    else (0, descriptors_changed (set_cloexec t identity mark) (pt_fd_table_slot task))
  end).

(** The loop over the slots: the table, and whether it changed. *)
Definition close_range_loop (t : PathStateTable) (table first last : Z) (mark preserve : bool) : PathStateTable * bool :=
  for_slots kPathStateFdIdentityCapacity (fun slot '(t, changed) =>
    let identity := at_slot (fd_identities t) slot in
    if negb (in_use identity) || negb (fi_fd_table_slot identity =? table) || negb (FdInRange (fi_fd identity) first last)
    then (t, changed)
    else if mark then
      if fi_cloexec identity =? 0 then (set_cloexec t slot 1, true) else (t, changed)
    else if preserve && identity_protected identity then (t, changed)
    else (EraseIdentitySlot t slot, true)) (t, false).

Definition close_range_known_flags : Z := kPathCloseRangeUnshare ||| kPathCloseRangeCloexec.

(** The two range operations differ in what happens to protected identities. *)
Definition close_range (preserve : bool) (t : PathStateTable) (tid first last flags : Z) : Z * PathStateTable :=
  with_task t tid ((last <? first) || negb ((flags &&& not32 close_range_known_flags) =? 0)) (fun slot task =>
  let table := pt_fd_table_slot task in
  let unshare := has flags kPathCloseRangeUnshare in
  let mark := has flags kPathCloseRangeCloexec in
  if unshare && (1 <? ft_refcount (at_slot (fd_tables t) table)) then
    let mode := if mark then (if preserve then kCloexecRangePreserveProtected else kCloexecRange)
                else (if preserve then kCloseRangePreserveProtected else kCloseRange) in
    match find_free (fd_tables t) with
    | None => (ENOSPC, t)
    | Some new_slot =>
      if CountFreeFdIdentitySlots t <? CountCopiedIdentities t table mode first last then (ENOSPC, t)
      else
        let '(error, t) := CopyFdTableToSlot t table new_slot mode first last in
        if negb (error =? 0) then (error, t)
        else (0, NoteMutation (move_files t slot new_slot))
    end
  else
    let '(t, changed) := close_range_loop t table first last mark preserve in
    (0, if changed then descriptors_changed t table else t)).

Definition CloseFdIdentityRange : PathStateTable -> Z -> Z -> Z -> Z -> Z * PathStateTable := close_range false.
Definition CloseFdIdentityRangePreservingProtected : PathStateTable -> Z -> Z -> Z -> Z -> Z * PathStateTable :=
  close_range true.

(** ** Protected descriptors *)

(** The loop over the slots: the identity with the smallest descriptor. *)
Definition NextProtectedFdIdentityInTable (t : PathStateTable) (table after_fd : Z) : option FdIdentity :=
  if negb (IsPathStateInitialized t) || (kPathStateFdTableCapacity <=? table) || negb (occupied_at (fd_tables t) table)
  then None
  else foldl (fun selected identity =>
    if negb (in_use identity) || negb (fi_fd_table_slot identity =? table) || negb (identity_protected identity) ||
       (fi_fd identity <=? after_fd) then selected
    else match selected with
    | None => Some identity
    | Some best => if fi_fd identity <? fi_fd best then Some identity else selected
    end) None (p_records (fd_identities t)).

Definition NextProtectedFdIdentity (t : PathStateTable) (tid after_fd : Z) : option FdIdentity :=
  match FindPathTask t tid with
  | None => None
  | Some slot => NextProtectedFdIdentityInTable t (pt_fd_table_slot (task_of t slot)) after_fd
  end.
