(* ===== verification/PathStateInv.v ===== *)
(** * The invariant of the path state

    [Inv g t]: every record in use has well-formed fields, every count is the
    number of its references, every reference leads to a record in use, and
    the mounts of a namespace form a tree. Inside an operation some references
    are held by the running code and not by a record: [g] lists them, so that
    the lemma of a primitive says which references it consumes and produces.
    Between two operations nothing is held ([settled]). The last lemma:
    the invariant implies what ValidatePathState checks. *)

From S2P Require Import Prelude SlotArray SlotPool GuestPath PathState PathStorage PathStateOps.
From stdpp Require Import list.
#[local] Open Scope Z_scope.

(** The references the running code holds: to contexts, descriptor tables and
    namespaces (as a task would), to namespaces (as a tree would), to trees
    (as an identity would). A table or a namespace being built or erased is
    exempt from some clauses. [g_generation] is the mutation generation,
    [g_identities] a bound of everything that was numbered with it: the identity
    generations, the mounts and the handles. *)
Record Ghost := Held {
  g_fs : list Z; g_fd : list Z; g_ns : list Z; g_handles : list Z; g_trees : list Z;
  g_open_table : option Z; g_open_namespace : option Z; g_generation : Z; g_identities : Z }.

Definition settled (generation : Z) : Ghost := Held [] [] [] [] [] None None generation generation.

(** The number of times a slot is held. *)
Fixpoint held (l : list Z) (s : Z) : Z :=
  match l with [] => 0 | x :: l => one (x =? s) + held l s end.

(** The parent of a mount of a namespace. *)
Definition parent_of (B : Pool MountBindingState) (ns id : Z) : option Z :=
  option_map (fun s => parent_mount_id (at_slot B s))
    (search (fun b => (mb_mount_namespace_slot b =? ns) && (mount_id b =? id)) B).

Definition is_some {A} (o : option A) : bool := match o with Some _ => true | None => false end.

(** [id] is a mount of the namespace. *)
Definition mounted (N : Pool MountNamespaceState) (B : Pool MountBindingState) (ns id : Z) : Prop :=
  exists n, get N ns = Some n /\ (id = root_mount_id n \/ is_some (parent_of B ns id) = true).
Definition known (N : Pool MountNamespaceState) (B : Pool MountBindingState) (ns id : Z) : Prop :=
  id = 0 \/ mounted N B ns id.

(** The walk from a mount to the root, not through [id]. *)
Fixpoint walk (n : nat) (root : Z) (parents : Z -> option Z) (id p : Z) : bool :=
  match n with
  | O => true
  | S n =>
    if p =? root then true
    else match parents p with
    | None => false
    | Some q => if (p =? id) || (n =? 0)%nat then false else walk n root parents id q
    end
  end.

Definition task_fields (r : PathTaskState) : bool :=
  (0 <? pt_tid r) && zero (pt_reserved r) && zero (pt_reserved2 r) && negb (zero (pt_identity_generation r)).
Definition fd_table_fields (r : FdTable) : bool := negb (zero (ft_generation r)) && zero (ft_reserved r).
Definition object_fields (r : FdIdentity) : bool :=
  if object_kind r =? kFdIdentityObjectNone then zero (object_flags r) && invalid (object_slot r) && zero (object_generation r)
  else (object_kind r =? kFdIdentityObjectMountTree) && zero (object_flags r).
Definition no_walk : nat := S (Z.to_nat kPathStateMountBindingCapacity).

(** Who refers to a slot. *)
Definition uses_fs (s : Z) (r : PathTaskState) : bool := pt_fs_context_slot r =? s.
Definition uses_fd (s : Z) (r : PathTaskState) : bool := pt_fd_table_slot r =? s.
Definition uses_ns (s : Z) (r : PathTaskState) : bool := pt_mount_namespace_slot r =? s.
Definition in_table (s : Z) (r : FdIdentity) : bool := fi_fd_table_slot r =? s.
Definition protected_in (s : Z) (r : FdIdentity) : bool := identity_protected r && (fi_fd_table_slot r =? s).
Definition to_tree (s : Z) (r : FdIdentity) : bool := (object_kind r =? kFdIdentityObjectMountTree) && (object_slot r =? s).
Definition in_namespace (s : Z) (r : MountBindingState) : bool := mb_mount_namespace_slot r =? s.
Definition handle_of (s : Z) (r : MountTreeState) : bool := mt_mount_namespace_slot r =? s.

Section Invariant.
Variables (g : Ghost) (t : PathStateTable).
Let T := tasks t.
Let F := fs_contexts t.
Let D := fd_tables t.
Let I := fd_identities t.
Let N := mount_namespaces t.
Let B := mount_bindings t.
Let R := mount_trees t.

Record Inv : Prop := {
  iv_magic : magic t = kPathStateMagic /\ version t = kPathStateVersion /\ reserved_count t = 0 /\ reserved_hint t = 0;
  iv_reserved : forallb zero (reserved t) = true;
  (* the seven arrays *)
  iv_tasks : pool_ok kPathStateTaskCapacity (fun r => task_vacant r = true) (fun r => task_fields r = true) T;
  iv_contexts : pool_ok kPathStateFsContextCapacity (fun r => fs_vacant r = true) (fun r => fs_fields r = true) F;
  iv_tables : pool_ok kPathStateFdTableCapacity (fun r => fd_table_vacant r = true) (fun r => fd_table_fields r = true) D;
  iv_identities : pool_ok kPathStateFdIdentityCapacity (fun r => identity_vacant r = true)
    (fun r => identity_fields r = true /\ object_fields r = true) I;
  iv_namespaces : pool_ok kPathStateMountNamespaceCapacity (fun r => namespace_vacant r = true)
    (fun r => namespace_fields r = true) N;
  iv_bindings : pool_ok kPathStateMountBindingCapacity (fun r => binding_vacant r = true)
    (fun r => binding_fields r = true) B;
  iv_trees : pool_ok kPathStateMountTreeCapacity (fun r => tree_vacant r = true) (fun r => tree_fields r = true) R;
  (* the counts *)
  iv_fs_refs : forall s, field fs_refcount F s = count_if (uses_fs s) T + held (g_fs g) s;
  iv_fd_refs : forall s, field ft_refcount D s = count_if (uses_fd s) T + held (g_fd g) s;
  iv_ns_refs : forall s, field task_refcount N s = count_if (uses_ns s) T + held (g_ns g) s;
  iv_handle_refs : forall s, field handle_refcount N s = count_if (handle_of s) R + held (g_handles g) s;
  iv_tree_refs : forall s, field mt_refcount R s = count_if (to_tree s) I + held (g_trees g) s;
  iv_entries : forall s, field entry_count D s = count_if (in_table s) I;
  iv_protected : forall s, field protected_count D s = count_if (protected_in s) I;
  iv_mounts : forall s, field binding_count N s = count_if (in_namespace s) B;
  iv_total : forall s n, get N s = Some n -> mn_refcount n = task_refcount n + handle_refcount n;
  iv_fs_live : forall s c, get F s = Some c -> 0 < fs_refcount c;
  iv_fd_live : forall s d, get D s = Some d -> g_open_table g <> Some s -> 0 < ft_refcount d;
  iv_ns_live : forall s n, get N s = Some n -> g_open_namespace g <> Some s -> 0 < mn_refcount n;
  iv_tree_live : forall s r, get R s = Some r -> 0 < mt_refcount r;
  (* the directories of a task *)
  iv_share : forall s s' r r', get T s = Some r -> get T s' = Some r' ->
    pt_fs_context_slot r = pt_fs_context_slot r' -> pt_mount_namespace_slot r = pt_mount_namespace_slot r';
  iv_known : forall s r c, get T s = Some r -> get F (pt_fs_context_slot r) = Some c ->
    known N B (pt_mount_namespace_slot r) (cwd_mount_id c) /\ known N B (pt_mount_namespace_slot r) (fs_root_mount_id c);
  (* trees and mounts *)
  iv_generation : forall s r tree, get I s = Some r -> object_kind r = kFdIdentityObjectMountTree ->
    get R (object_slot r) = Some tree -> mt_generation tree = object_generation r;
  iv_source : forall s tree, get R s = Some tree -> mounted N B (mt_mount_namespace_slot tree) (source_mount_id tree);
  iv_attached : forall s tree, get R s = Some tree -> tree_attached tree = true ->
    mounted N B (attached_namespace_slot tree) (attached_mount_id tree) /\
    0 < field task_refcount N (attached_namespace_slot tree);
  iv_walk : forall s b n, get B s = Some b -> get N (mb_mount_namespace_slot b) = Some n ->
    g_open_namespace g <> Some (mb_mount_namespace_slot b) ->
    walk no_walk (root_mount_id n) (parent_of B (mb_mount_namespace_slot b)) (mount_id b) (parent_mount_id b) = true;
  (* generations *)
  iv_current : mutation_generation t = g_generation g;
  iv_bound : forall s n, get N s = Some n -> mn_identity_generation n <= g_identities g;
  iv_ids : forall s b, get B s = Some b -> mount_id b <= g_identities g /\ sequence b <= g_identities g;
  iv_roots : forall s n, get N s = Some n -> root_mount_id n <= g_identities g;
  iv_distinct : forall s b n, get B s = Some b -> get N (mb_mount_namespace_slot b) = Some n -> mount_id b <> root_mount_id n;
  iv_handles : forall s tree, get R s = Some tree -> handle_id tree <= g_identities g }.
End Invariant.

(** ** The audit passes *)

Lemma tally_spec {A K} `{SlotRecord A K} (target : A -> option Z) (capacity : Z) (records : list A) s :
  0 <= s < capacity -> Z.of_nat (length records) < 2 ^ 31 ->
  (forall i r x, records !! i = Some r -> in_use r = true -> target r = Some x -> 0 <= x < capacity) ->
  tally target capacity records !!! Z.to_nat s = count_list (fun r => match target r with Some x => x =? s | None => false end) records.
Proof.
  intros Hs Hlen Hr. unfold tally.
  enough (forall l counts, Z.of_nat (length counts) = capacity ->
    (forall r x, r ∈ l -> in_use r = true -> target r = Some x -> 0 <= x < capacity) ->
    0 <= counts !!! Z.to_nat s -> counts !!! Z.to_nat s + Z.of_nat (length l) < 2 ^ 31 ->
    foldl (fun counts r => match target r with
      | Some slot => if in_use r then <[Z.to_nat slot := u32 (counts !!! Z.to_nat slot + 1)]> counts else counts
      | None => counts end) counts l !!! Z.to_nat s =
    counts !!! Z.to_nat s + count_list (fun r => match target r with Some x => x =? s | None => false end) l) as Hgen.
  { assert (replicate (Z.to_nat capacity) 0 !!! Z.to_nat s = 0) as E by (apply lookup_total_replicate_2; lia).
    rewrite Hgen, E; [lia|by rewrite length_replicate; lia| |lia|lia].
    intros r x [i Hi]%list_elem_of_lookup. by apply (Hr i). }
  clear Hr Hlen. induction l as [|r l IH]; intros counts Hc Hr H0 Hb; simpl; [lia|].
  assert (forall r x, r ∈ l -> in_use r = true -> target r = Some x -> 0 <= x < capacity) as Hl.
  { intros r' x Hi. apply Hr. by right. }
  cbn [length] in Hb. specialize (Hr r). destruct (target r) as [x|]; [|rewrite IH; [|done..|lia]; by rewrite andb_false_r].
  destruct (in_use r); [|rewrite IH; [done..|lia]]. specialize (Hr x ltac:(left) eq_refl eq_refl). simpl.
  assert (<[Z.to_nat x := u32 (counts !!! Z.to_nat x + 1)]> counts !!! Z.to_nat s =
    counts !!! Z.to_nat s + (if x =? s then 1 else 0)) as E.
  { destruct (Z.eqb_spec x s) as [->|Hne].
    - rewrite list_lookup_total_insert_eq, u32_small by lia. lia.
    - rewrite list_lookup_total_insert_ne by lia. lia. }
  rewrite IH; [rewrite E; lia|by rewrite length_insert|done|rewrite E; destruct (x =? s); lia|rewrite E; destruct (x =? s); lia].
Qed.

Lemma audit_ok {A K} `{SlotRecord A K} `{Inhabited A} (vacantb entryb : A -> bool) cap entry (p : Pool A) :
  (forall k, sr_key_ok k = true) -> pool_ok cap (fun r => vacantb r = true) entry p ->
  (forall s r, get p s = Some r -> entryb r = true) -> audit vacantb entryb p = true.
Proof.
  intros Hk Hok He. unfold audit.
  assert (validate_slots vacantb entryb 0 0 (p_records p) = Some (p_count p)) as ->; [|apply Z.eqb_refl].
  pose proof (po_slots _ _ _ _ Hok) as Hs.
  apply (validate_slots_ok (Z.to_nat cap) vacantb entryb (fun r => vacantb r = true) (fun r => entryb r = true)).
  - intros; apply Hk.
  - done.
  - done.
  - apply Hs.
  - split; try apply Hs. intros i r Hi. destruct (so_record _ _ _ _ _ Hs i r Hi) as [?|(Hu & Ho & _)]; [by left|right].
    split; [done|]. split; [done|]. apply (He (Z.of_nat i)). by apply (entry_at_get Hok).
Qed.

Lemma held_nonneg l s : 0 <= held l s.
Proof. induction l as [|x l IH]; simpl; [lia|]. unfold one. destruct (_ =? _); lia. Qed.

Lemma occupied_get {A K} `{SlotRecord A K} `{Inhabited A} (p : Pool A) s r : get p s = Some r -> occupied_at p s = true /\ at_slot p s = r.
Proof. unfold get, occupied_at. destruct (_ && _) eqn:E; [|done]. intros [= <-]. bool_hyps. done. Qed.

Section Audit.
Context {g : Ghost} {t : PathStateTable}.
Hypothesis H : Inv g t.

(** A record that is referred to is in use. *)
Lemma task_context s r : get (tasks t) s = Some r -> exists c, get (fs_contexts t) (pt_fs_context_slot r) = Some c.
Proof.
  intros Hg. destruct (field_pos fs_refcount (p := fs_contexts t) (pt_fs_context_slot r)) as (c & Hc & _); [|by exists c].
  rewrite (iv_fs_refs _ _ H). pose proof (held_nonneg (g_fs g) (pt_fs_context_slot r)).
  enough (0 < count_if (uses_fs (pt_fs_context_slot r)) (tasks t)) by lia.
  apply (count_if_pos (iv_tasks _ _ H)). exists s, r. split; [done|]. apply Z.eqb_refl.
Qed.

Lemma task_table s r : get (tasks t) s = Some r -> exists d, get (fd_tables t) (pt_fd_table_slot r) = Some d.
Proof.
  intros Hg. destruct (field_pos ft_refcount (p := fd_tables t) (pt_fd_table_slot r)) as (c & Hc & _); [|by exists c].
  rewrite (iv_fd_refs _ _ H). pose proof (held_nonneg (g_fd g) (pt_fd_table_slot r)).
  enough (0 < count_if (uses_fd (pt_fd_table_slot r)) (tasks t)) by lia.
  apply (count_if_pos (iv_tasks _ _ H)). exists s, r. split; [done|]. apply Z.eqb_refl.
Qed.

Lemma task_namespace s r : get (tasks t) s = Some r -> exists n, get (mount_namespaces t) (pt_mount_namespace_slot r) = Some n.
Proof.
  intros Hg. destruct (field_pos task_refcount (p := mount_namespaces t) (pt_mount_namespace_slot r)) as (c & Hc & _); [|by exists c].
  rewrite (iv_ns_refs _ _ H). pose proof (held_nonneg (g_ns g) (pt_mount_namespace_slot r)).
  enough (0 < count_if (uses_ns (pt_mount_namespace_slot r)) (tasks t)) by lia.
  apply (count_if_pos (iv_tasks _ _ H)). exists s, r. split; [done|]. apply Z.eqb_refl.
Qed.

Lemma identity_table s r : get (fd_identities t) s = Some r -> exists d, get (fd_tables t) (fi_fd_table_slot r) = Some d.
Proof.
  intros Hg. destruct (field_pos entry_count (p := fd_tables t) (fi_fd_table_slot r)) as (c & Hc & _); [|by exists c].
  rewrite (iv_entries _ _ H). apply (count_if_pos (iv_identities _ _ H)). exists s, r. split; [done|]. apply Z.eqb_refl.
Qed.

Lemma identity_tree s r : get (fd_identities t) s = Some r -> object_kind r = kFdIdentityObjectMountTree ->
  exists tree, get (mount_trees t) (object_slot r) = Some tree.
Proof.
  intros Hg Hk. destruct (field_pos mt_refcount (p := mount_trees t) (object_slot r)) as (c & Hc & _); [|by exists c].
  rewrite (iv_tree_refs _ _ H). pose proof (held_nonneg (g_trees g) (object_slot r)).
  enough (0 < count_if (to_tree (object_slot r)) (fd_identities t)) by lia.
  apply (count_if_pos (iv_identities _ _ H)). exists s, r. split; [done|]. unfold to_tree. by rewrite Hk, !Z.eqb_refl.
Qed.

Lemma binding_namespace s b : get (mount_bindings t) s = Some b ->
  exists n, get (mount_namespaces t) (mb_mount_namespace_slot b) = Some n.
Proof.
  intros Hg. destruct (field_pos binding_count (p := mount_namespaces t) (mb_mount_namespace_slot b)) as (c & Hc & _); [|by exists c].
  rewrite (iv_mounts _ _ H). apply (count_if_pos (iv_bindings _ _ H)). exists s, b. split; [done|]. apply Z.eqb_refl.
Qed.

(** The searches of the audit. *)
Lemma find_binding ns id :
  match FindMountBindingById t ns id with Some _ => true | None => false end = is_some (parent_of (mount_bindings t) ns id).
Proof. unfold FindMountBindingById, parent_of. by destruct (search _ _). Qed.

Lemma mounted_audit ns id : mounted (mount_namespaces t) (mount_bindings t) ns id -> mount_of t ns id = true.
Proof.
  intros (n & Hn & Hid). destruct (occupied_get _ _ _ Hn) as [Ho Ha]. pose proof (get_range (iv_namespaces _ _ H) _ _ Hn).
  unfold mount_of. rewrite Ho, Ha, find_binding. replace (ns <? kPathStateMountNamespaceCapacity) with true by lia.
  destruct Hid as [->| ->]; [by rewrite Z.eqb_refl|]. by rewrite orb_true_r.
Qed.

Lemma known_audit ns id : known (mount_namespaces t) (mount_bindings t) ns id -> mount_known t ns id = true.
Proof.
  unfold mount_known. intros [->|Hm]; [done|]. apply mounted_audit in Hm. unfold mount_of in Hm. bool_hyps.
  destruct (_ =? root_mount_id _); [by rewrite orb_true_r|]. simpl in *. by rewrite orb_false_r, H1, orb_true_r.
Qed.

Lemma ancestors_walk n b r : ancestors n t b r =
  walk n (root_mount_id (at_slot (mount_namespaces t) (mb_mount_namespace_slot b)))
    (parent_of (mount_bindings t) (mb_mount_namespace_slot b)) (mount_id b) r.
Proof.
  revert r. induction n as [|n IH]; intros r; [done|]. cbn [ancestors walk]. destruct (r =? _); [done|].
  unfold parent_of at 1. unfold FindMountBindingById. destruct (search _ _) as [s|] eqn:E; [|done]. simpl.
  apply (search_Some (iv_bindings _ _ H)) in E as (b' & Hb' & E). bool_hyps. rewrite (get_at (iv_bindings _ _ H) _ _ Hb').
  assert (mount_id b' = r) as -> by lia. by rewrite IH.
Qed.

(** A tally of the audit is the count of the records that refer to the slot. *)
Lemma tally_count {A K} `{SlotRecord A K} `{Inhabited A} (target : A -> option Z) (P : A -> bool) cap vacant entry (p : Pool A) capacity s :
  pool_ok cap vacant entry p -> (forall r, match target r with Some x => x =? s | None => false end = P r) -> 0 <= s < capacity ->
  (forall s' r x, get p s' = Some r -> target r = Some x -> 0 <= x < capacity) ->
  tally target capacity (p_records p) !!! Z.to_nat s = count_if P p.
Proof.
  intros Hok HP Hs Hr. rewrite tally_spec; [by apply count_list_ext|done| |].
  - rewrite (pool_length Hok). apply (po_cap _ _ _ _ Hok).
  - intros i r x Hi Hu. apply (Hr (Z.of_nat i)). by apply (entry_at_get Hok).
Qed.

Lemma contexts_audit s r : get (fs_contexts t) s = Some r -> g_fs g = [] ->
  fs_entry (tally (fun r => Some (pt_fs_context_slot r)) kPathStateFsContextCapacity (p_records (tasks t))) r = true.
Proof.
  intros Hg Hh. destruct (get_entry (iv_contexts _ _ H) _ _ Hg) as [Hf Hs]. cbn in Hs.
  pose proof (iv_fs_live _ _ H _ _ Hg). pose proof (iv_fs_refs _ _ H s) as Hc. rewrite (field_get _ _ _ Hg), Hh in Hc.
  unfold fs_entry. rewrite Hf, Hs.
  rewrite (tally_count _ (uses_fs s) _ _ _ _ _ _ (iv_tasks _ _ H)); [|done|by eapply (get_range (iv_contexts _ _ H))|].
  - unfold zero. simpl in Hc. lia.
  - intros s' r' x Hr' [= <-]. destruct (task_context _ _ Hr') as [c Hc']. by apply (get_range (iv_contexts _ _ H)) in Hc'.
Qed.

Lemma tables_audit s r : get (fd_tables t) s = Some r -> g_fd g = [] -> g_open_table g = None ->
  fd_table_entry (tally (fun r => Some (pt_fd_table_slot r)) kPathStateFdTableCapacity (p_records (tasks t)))
    (tally (fun r => Some (fi_fd_table_slot r)) kPathStateFdTableCapacity (p_records (fd_identities t)))
    (tally (fun r => if identity_protected r then Some (fi_fd_table_slot r) else None)
      kPathStateFdTableCapacity (p_records (fd_identities t))) r = true.
Proof.
  intros Hg Hh Ho. destruct (get_entry (iv_tables _ _ H) _ _ Hg) as [Hf Hs]. cbn in Hs.
  pose proof (get_range (iv_tables _ _ H) _ _ Hg) as Hr.
  pose proof (iv_fd_live _ _ H _ _ Hg ltac:(by rewrite Ho)). pose proof (iv_fd_refs _ _ H s) as Hc.
  pose proof (iv_entries _ _ H s) as He. pose proof (iv_protected _ _ H s) as Hp.
  unfold field in Hc, He, Hp; rewrite Hg in Hc, He, Hp. rewrite Hh in Hc.
  assert (forall s' r', get (fd_identities t) s' = Some r' -> 0 <= fi_fd_table_slot r' < kPathStateFdTableCapacity) as Hi.
  { intros s' r' Hr'. destruct (identity_table _ _ Hr') as [d Hd]. by apply (get_range (iv_tables _ _ H)) in Hd. }
  unfold fd_table_entry. rewrite Hs.
  rewrite (tally_count _ (uses_fd s) _ _ _ _ _ _ (iv_tasks _ _ H)); [|done..|].
  2:{ intros s' r' x Hr' [= <-]. destruct (task_table _ _ Hr') as [d Hd]. by apply (get_range (iv_tables _ _ H)) in Hd. }
  rewrite (tally_count _ (in_table s) _ _ _ _ _ _ (iv_identities _ _ H)); [|done..|].
  2:{ intros s' r' x Hr' [= <-]. by eapply Hi. }
  rewrite (tally_count _ (protected_in s) _ _ _ _ _ _ (iv_identities _ _ H)); [| |done|].
  2:{ intros r'. unfold protected_in. by destruct (identity_protected r'). }
  2:{ intros s' r' x Hr'. destruct (identity_protected r'); [|done]. intros [= <-]. by eapply Hi. }
  pose proof (count_if_le (p := fd_identities t) (protected_in s) (in_table s) (fun r => ltac:(intros ?; unfold protected_in in *; bool_hyps; done))).
  unfold fd_table_fields in Hf. bool_hyps. unfold zero in *. simpl in Hc. lia.
Qed.

Lemma namespaces_audit s r : get (mount_namespaces t) s = Some r -> g_ns g = [] -> g_handles g = [] -> g_open_namespace g = None ->
  namespace_entry (tally (fun r => Some (pt_mount_namespace_slot r)) kPathStateMountNamespaceCapacity (p_records (tasks t)))
    (tally (fun r => Some (mt_mount_namespace_slot r)) kPathStateMountNamespaceCapacity (p_records (mount_trees t)))
    (tally (fun r => Some (mb_mount_namespace_slot r)) kPathStateMountNamespaceCapacity (p_records (mount_bindings t))) r = true.
Proof.
  intros Hg Hn Hh Ho. destruct (get_entry (iv_namespaces _ _ H) _ _ Hg) as [Hf Hs]. cbn in Hs.
  pose proof (get_range (iv_namespaces _ _ H) _ _ Hg) as Hr.
  pose proof (iv_ns_live _ _ H _ _ Hg ltac:(by rewrite Ho)) as Hl. pose proof (iv_ns_refs _ _ H s) as Hc.
  pose proof (iv_handle_refs _ _ H s) as He. pose proof (iv_mounts _ _ H s) as Hp. pose proof (iv_total _ _ H _ _ Hg) as Ht.
  unfold field in Hc, He, Hp; rewrite Hg in Hc, He, Hp. rewrite Hn in Hc. rewrite Hh in He. simpl in Hc, He.
  unfold namespace_entry. rewrite Hs, Hf.
  rewrite (tally_count _ (uses_ns s) _ _ _ _ _ _ (iv_tasks _ _ H)); [|done..|].
  2:{ intros s' r' x Hr' [= <-]. destruct (task_namespace _ _ Hr') as [d Hd]. by apply (get_range (iv_namespaces _ _ H)) in Hd. }
  rewrite (tally_count _ (handle_of s) _ _ _ _ _ _ (iv_trees _ _ H)); [|done..|].
  2:{ intros s' r' x Hr' [= <-]. destruct (iv_source _ _ H _ _ Hr') as (n & Hd & _). by apply (get_range (iv_namespaces _ _ H)) in Hd. }
  rewrite (tally_count _ (in_namespace s) _ _ _ _ _ _ (iv_bindings _ _ H)); [|done..|].
  2:{ intros s' r' x Hr' [= <-]. destruct (binding_namespace _ _ Hr') as [d Hd]. by apply (get_range (iv_namespaces _ _ H)) in Hd. }
  pose proof (count_if_bounds (iv_tasks _ _ H) (uses_ns s)). pose proof (p_count_bounds (iv_tasks _ _ H)).
  pose proof (count_if_bounds (iv_trees _ _ H) (handle_of s)). pose proof (p_count_bounds (iv_trees _ _ H)).
  rewrite u32_small by (unfold kPathStateTaskCapacity, kPathStateMountTreeCapacity in *; lia). unfold zero. lia.
Qed.

Lemma trees_audit s r : get (mount_trees t) s = Some r -> g_trees g = [] ->
  tree_entry t (tally (fun r => if object_kind r =? kFdIdentityObjectMountTree then Some (object_slot r) else None)
    kPathStateMountTreeCapacity (p_records (fd_identities t))) r = true.
Proof.
  intros Hg Hh. destruct (get_entry (iv_trees _ _ H) _ _ Hg) as [Hf Hs]. cbn in Hs.
  pose proof (get_range (iv_trees _ _ H) _ _ Hg) as Hr. pose proof (iv_tree_live _ _ H _ _ Hg) as Hl.
  pose proof (iv_tree_refs _ _ H s) as Hc. rewrite (field_get _ _ _ Hg), Hh in Hc. simpl in Hc.
  unfold tree_entry. rewrite Hs, Hf.
  rewrite (tally_count _ (to_tree s) _ _ _ _ _ _ (iv_identities _ _ H)); [| |done|].
  2:{ intros r'. unfold to_tree. by destruct (_ =? _). }
  2:{ intros s' r' x Hr'. destruct (Z.eqb_spec (object_kind r') kFdIdentityObjectMountTree) as [Hk|]; [|done]. intros [= <-].
      destruct (identity_tree _ _ Hr' Hk) as [d Hd]. by apply (get_range (iv_trees _ _ H)) in Hd. }
  rewrite (mounted_audit _ _ (iv_source _ _ H _ _ Hg)). replace (mt_refcount r =? _) with true by lia.
  replace (negb (zero (mt_refcount r))) with true by (unfold zero; lia). simpl.
  destruct (tree_detached r) eqn:Ed; [done|]. simpl. apply mounted_audit. eapply iv_attached; [exact H|exact Hg|].
  unfold tree_fields in Hf. rewrite Ed in Hf. bool_hyps. by destruct (tree_attached r).
Qed.

Lemma tasks_audit s r : get (tasks t) s = Some r -> task_entry t r = true.
Proof.
  intros Hg. destruct (get_entry (iv_tasks _ _ H) _ _ Hg) as [Hf Hs]. unfold task_fields in Hf. bool_hyps.
  destruct (task_context _ _ Hg) as [c Hc]. destruct (task_table _ _ Hg) as [d Hd]. destruct (task_namespace _ _ Hg) as [n Hn].
  pose proof (get_range (iv_contexts _ _ H) _ _ Hc). pose proof (get_range (iv_tables _ _ H) _ _ Hd).
  pose proof (get_range (iv_namespaces _ _ H) _ _ Hn).
  destruct (occupied_get _ _ _ Hc) as [Hc1 Hc2]. destruct (occupied_get _ _ _ Hd) as [Hd1 _].
  destruct (occupied_get _ _ _ Hn) as [Hn1 _]. destruct (iv_known _ _ H _ _ _ Hg Hc) as [Hk1%known_audit Hk2%known_audit].
  unfold task_entry. rewrite Hc2, Hc1, Hd1, Hn1, Hk1, Hk2. rewrite !andb_true_iff. split_and!; try done; try lia.
  apply forallb_forall. intros o [i Hi]%list_elem_of_In%list_elem_of_lookup. apply lookup_take_Some in Hi as [Hi _].
  destruct (in_use o) eqn:Hu; [|done]. destruct (Z.eqb_spec (pt_fs_context_slot o) (pt_fs_context_slot r)) as [E|]; [|done].
  assert (get (tasks t) (Z.of_nat i) = Some o) as Ho by (apply (entry_at_get (iv_tasks _ _ H)); by split).
  rewrite (iv_share _ _ H _ _ _ _ Ho Hg E), Z.eqb_refl. done.
Qed.

Lemma identities_audit s r : get (fd_identities t) s = Some r -> identity_entry t r = true.
Proof.
  intros Hg. destruct (get_entry (iv_identities _ _ H) _ _ Hg) as [[Hf Ho] Hs]. destruct (identity_table _ _ Hg) as [d Hd].
  pose proof (get_range (iv_tables _ _ H) _ _ Hd). destruct (occupied_get _ _ _ Hd) as [Hd1 _].
  unfold identity_entry. rewrite Hd1, Hf. replace (_ <? _) with true by lia. simpl. unfold object_fields in Ho. unfold identity_object.
  destruct (object_kind r =? kFdIdentityObjectNone); [done|]. bool_hyps.
  assert (object_kind r = kFdIdentityObjectMountTree) as Hk by lia. destruct (identity_tree _ _ Hg Hk) as [tree Ht].
  pose proof (get_range (iv_trees _ _ H) _ _ Ht). destruct (occupied_get _ _ _ Ht) as [Ht1 Ht2].
  rewrite Ht1, Ht2, (iv_generation _ _ H _ _ _ Hg Hk Ht). rewrite !andb_true_iff. split_and!; try done; lia.
Qed.

Lemma bindings_audit s b : get (mount_bindings t) s = Some b -> g_open_namespace g = None -> binding_entry t b = true.
Proof.
  intros Hg Ho. destruct (get_entry (iv_bindings _ _ H) _ _ Hg) as [Hf Hs]. destruct (binding_namespace _ _ Hg) as [n Hn].
  pose proof (get_range (iv_namespaces _ _ H) _ _ Hn). destruct (occupied_get _ _ _ Hn) as [Hn1 Hn2].
  pose proof (iv_walk _ _ H _ _ _ Hg Hn ltac:(by rewrite Ho)) as Hw.
  unfold binding_entry. rewrite ancestors_walk, find_binding, Hn1, Hn2, Hf.
  change (S (Z.to_nat kPathStateMountBindingCapacity)) with no_walk. rewrite Hw. replace (_ <? _) with true by lia.
  unfold no_walk in Hw. cbn [walk] in Hw. destruct (parent_mount_id b =? _); [done|].
  destruct (parent_of _ _ _); done.
Qed.

Lemma initialized : IsPathStateInitialized t = true.
Proof.
  unfold IsPathStateInitialized. destruct (iv_magic _ _ H) as (-> & -> & -> & ->). rewrite !Z.eqb_refl.
  pose proof (p_count_bounds (iv_tasks _ _ H)). pose proof (p_count_bounds (iv_contexts _ _ H)).
  pose proof (p_count_bounds (iv_tables _ _ H)). pose proof (p_count_bounds (iv_identities _ _ H)).
  pose proof (p_count_bounds (iv_namespaces _ _ H)). pose proof (p_count_bounds (iv_bindings _ _ H)).
  pose proof (p_count_bounds (iv_trees _ _ H)).
  pose proof (po_hint _ _ _ _ (iv_tasks _ _ H)). pose proof (po_hint _ _ _ _ (iv_contexts _ _ H)).
  pose proof (po_hint _ _ _ _ (iv_tables _ _ H)). pose proof (po_hint _ _ _ _ (iv_identities _ _ H)).
  pose proof (po_hint _ _ _ _ (iv_namespaces _ _ H)). pose proof (po_hint _ _ _ _ (iv_bindings _ _ H)).
  pose proof (po_hint _ _ _ _ (iv_trees _ _ H)). lia.
Qed.
End Audit.

(** Between two operations, the audit passes. *)
Lemma settled_audit m t : Inv (settled m) t -> ValidatePathState t = true.
Proof.
  intros H. unfold ValidatePathState. rewrite (initialized H), (iv_reserved _ _ H). simpl. rewrite !andb_true_iff. split_and!.
  - eapply audit_ok; [done|apply (iv_tasks _ _ H)|apply (tasks_audit H)].
  - eapply audit_ok; [done|apply (iv_contexts _ _ H)|]. intros s r Hg. by apply (contexts_audit H s).
  - eapply audit_ok; [done|apply (iv_identities _ _ H)|apply (identities_audit H)].
  - eapply audit_ok; [done|apply (iv_tables _ _ H)|]. intros s r Hg. by apply (tables_audit H s).
  - eapply audit_ok; [done|apply (iv_bindings _ _ H)|]. intros s r Hg. by apply (bindings_audit H s).
  - eapply audit_ok; [done|apply (iv_trees _ _ H)|]. intros s r Hg. by apply (trees_audit H s).
  - eapply audit_ok; [done|apply (iv_namespaces _ _ H)|]. intros s r Hg. by apply (namespaces_audit H s).
Qed.

Lemma Init_settled : Inv (settled 0) InitPathState.
Proof.
  destruct (cleared_pool_ok ClearTask kPathStateTaskCapacity (fun r => task_vacant r = true)
    (fun r => task_fields r = true)) as (H1 & G1 & C1); [done|by intros s|].
  destruct (cleared_pool_ok ClearFsContext kPathStateFsContextCapacity (fun r => fs_vacant r = true)
    (fun r => fs_fields r = true)) as (H2 & G2 & C2); [done|by intros s|].
  destruct (cleared_pool_ok ClearFdTable kPathStateFdTableCapacity (fun r => fd_table_vacant r = true)
    (fun r => fd_table_fields r = true)) as (H3 & G3 & C3); [done|by intros s|].
  destruct (cleared_pool_ok ClearFdIdentity kPathStateFdIdentityCapacity (fun r => identity_vacant r = true)
    (fun r => identity_fields r = true /\ object_fields r = true)) as (H4 & G4 & C4); [done|by intros s|].
  destruct (cleared_pool_ok ClearMountNamespace kPathStateMountNamespaceCapacity (fun r => namespace_vacant r = true)
    (fun r => namespace_fields r = true)) as (H5 & G5 & C5); [done|by intros s|].
  destruct (cleared_pool_ok ClearMountBinding kPathStateMountBindingCapacity (fun r => binding_vacant r = true)
    (fun r => binding_fields r = true)) as (H6 & G6 & C6); [done|by intros s|].
  destruct (cleared_pool_ok ClearMountTree kPathStateMountTreeCapacity (fun r => tree_vacant r = true)
    (fun r => tree_fields r = true)) as (H7 & G7 & C7); [done|by intros s|].
  unfold InitPathState. constructor; cbn [magic version reserved_count reserved_hint reserved tasks fs_contexts fd_tables
    fd_identities mount_namespaces mount_bindings mount_trees mutation_generation settled g_fs g_fd g_ns g_handles
    g_trees g_generation g_identities held]; unfold field; intros;
    rewrite ?G1, ?G2, ?G3, ?G4, ?G5, ?G6, ?G7, ?C1, ?C2, ?C3, ?C4, ?C5, ?C6, ?C7 in *; try done.
Qed.
