(* ===== verification/PathMounts.v ===== *)
(** * Mounts of the path state (tracer/path_state/mount_translation.inc)

    Which mount a guest path falls under, adding and removing mounts, their
    attributes, and the translation of paths between the guest and the host.
    A pointer to a record is its slot. An output pointer that may be null is
    the value written to it, [None] where nothing is written. *)

From S2P Require Import Prelude SlotArray SlotPool GuestPath PathState PathStorage PathStateOps PathTaskOps.
From stdpp Require Import list.
#[local] Open Scope Z_scope.

Definition EBUSY : Z := 16.
Definition EXDEV : Z := 18.

Definition kMountBindingTree : Z := 2.
Definition kMountBindingStateRuntime : Z := 1.
Definition kMountBindingStateReverseVisible : Z := 2.
Definition kMountBindingStateRecursive : Z := 4.
Definition kMountBindingStateDetached : Z := 8.
Definition kMountRemoveSubtree : Z := 1.
Definition kMountRemoveDetached : Z := 2.
Definition kMountRemoveKnownFlags : Z := kMountRemoveSubtree ||| kMountRemoveDetached.

Record MountBindingSpec := {
  ms_kind : Z; ms_state_flags : Z; ms_parent_mount_id : Z; ms_mount_flags : Z; ms_mount_attributes : Z;
  ms_propagation : Z; ms_target_guest : option Path; ms_source_guest : option Path; ms_source_host : option Path }.

Record MountPathTranslation := {
  tr_matched : Z; tr_binding_slot : Z; tr_kind : Z; tr_state_flags : Z; tr_mount_id : Z;
  tr_namespace_generation : Z; tr_binding_sequence : Z; tr_mount_flags : Z; tr_mount_attributes : Z;
  tr_guest_path : Path; tr_host_path : Path }.

Definition is_null {A} (pointer : option A) : bool := match pointer with None => true | Some _ => false end.
(** The text of a pointer that was validated. *)
Definition path_of (path : option Path) : Path := default [] path.
Definition binding_at (t : PathStateTable) (slot : Z) : MountBindingState := at_slot (mount_bindings t) slot.
Definition namespace_at (t : PathStateTable) (slot : Z) : MountNamespaceState := at_slot (mount_namespaces t) slot.
Definition put_binding (t : PathStateTable) (slot : Z) (b : MountBindingState) : PathStateTable :=
  with_bindings t (put (mount_bindings t) slot b).
Definition put_namespace (t : PathStateTable) (slot : Z) (n : MountNamespaceState) : PathStateTable :=
  with_namespaces t (put (mount_namespaces t) slot n).
Definition detached (b : MountBindingState) : bool := has (mb_state_flags b) kMountBindingStateDetached.
(** The mounts of a namespace that the loops look at. *)
Definition of_namespace (ns : Z) (b : MountBindingState) : bool := in_use b && (mb_mount_namespace_slot b =? ns).

(** ** The mount a path falls under *)

(** The loops that select a mount: among the slots that qualify with a length,
    the longest, and among the longest the one with the greatest sequence. *)
Definition Choice : Type := Z * MountBindingState * nat.
Definition better (length : nat) (b : MountBindingState) (best : option Choice) : bool :=
  match best with
  | None => true
  | Some (_, c, n) => (n <? length)%nat || (length =? n)%nat && (sequence c <? sequence b)
  end.
Fixpoint select_loop (qualifies : Z -> MountBindingState -> option nat) (slot : Z) (records : list MountBindingState)
    (best : option Choice) : option Choice :=
  match records with
  | [] => best
  | b :: records =>
    select_loop qualifies (slot + 1) records
      (match qualifies slot b with
       | Some length => if better length b best then Some (slot, b, length) else best
       | None => best
       end)
  end.
Definition select (t : PathStateTable) (qualifies : Z -> MountBindingState -> option nat) : option Choice :=
  select_loop qualifies 0 (p_records (mount_bindings t)) None.

(** The candidate is a child of [parent] and its target a prefix of the path. *)
Definition child_length (ns : Z) (guest : Path) (parent : Z) (b : MountBindingState) : option nat :=
  if negb (in_use b) || negb (mb_mount_namespace_slot b =? ns) || negb (parent_mount_id b =? parent) || detached b then None
  else match PathLength (Some (target_guest b)) with
  | inl _ => None
  | inr length => if PathPrefixMatches guest (target_guest b) length then Some length else None
  end.

Fixpoint resolve_loop (depth : nat) (t : PathStateTable) (ns : Z) (guest : Path) (parent : Z) (selected : option Z)
    : option Z :=
  match depth with
  | O => None
  | S depth =>
    match select t (fun _ => child_length ns guest parent) with
    | None => selected
    | Some (slot, child, _) => resolve_loop depth t ns guest (mount_id child) (Some slot)
    end
  end.
Definition ResolveVisibleMount (t : PathStateTable) (ns : Z) (guest : Path) : option Z :=
  resolve_loop (Z.to_nat kPathStateMountBindingCapacity) t ns guest (root_mount_id (namespace_at t ns)) None.

Definition ResolveVisibleExactMount (t : PathStateTable) (ns : Z) (guest : Path) : option Z :=
  match ResolveVisibleMount t ns guest with
  | Some slot => if PathEquals (target_guest (binding_at t slot)) guest then Some slot else None
  | None => None
  end.

Fixpoint descends_loop (depth : nat) (t : PathStateTable) (ns parent ancestor : Z) : bool :=
  match depth with
  | O => false
  | S depth =>
    if parent =? ancestor then true
    else if parent =? root_mount_id (namespace_at t ns) then false
    else match FindMountBindingById t ns parent with
    | None => false
    | Some slot => descends_loop depth t ns (parent_mount_id (binding_at t slot)) ancestor
    end
  end.
Definition BindingDescendsFrom (t : PathStateTable) (b : MountBindingState) (ancestor : Z) : bool :=
  descends_loop (Z.to_nat kPathStateMountBindingCapacity) t (mb_mount_namespace_slot b) (parent_mount_id b) ancestor.

(** [selected_slots] is the array of the marks, one per slot. *)
Definition MountIdIsSelected (t : PathStateTable) (ns id : Z) (selected_slots : list bool) : bool :=
  match FindMountBindingById t ns id with
  | None => false
  | Some slot => selected_slots !!! Z.to_nat (mb_slot (binding_at t slot))
  end.

Definition MountIdDescendsFrom (t : PathStateTable) (ns id ancestor : Z) : bool :=
  if id =? ancestor then true
  else match FindMountBindingById t ns id with
  | None => false
  | Some slot => BindingDescendsFrom t (binding_at t slot) ancestor
  end.

Definition ValidateMountBindingSpec (binding : MountBindingSpec) : Z :=
  if (ms_kind binding <? kMountBindingBind) || (kMountBindingRoot <? ms_kind binding) ||
     negb ((ms_state_flags binding &&& not32 kMountBindingStateKnownFlags) =? 0) ||
     has (ms_state_flags binding) kMountBindingStateDetached then EINVAL
  else
    let error := ValidateCanonicalPath (ms_target_guest binding) in
    let error := if error =? 0 then ValidateCanonicalPath (ms_source_guest binding) else error in
    if error =? 0 then ValidateCanonicalPath (ms_source_host binding) else error.

(** ** Adding a mount *)

Definition VisibleParentMountId (t : PathStateTable) (ns : Z) (target : Path) : Z :=
  match ResolveVisibleMount t ns target with
  | None => root_mount_id (namespace_at t ns)
  | Some slot =>
    let visible := binding_at t slot in
    if PathEquals (target_guest visible) target then parent_mount_id visible else mount_id visible
  end.

Definition touch_namespace (n : MountNamespaceState) (bindings : Z) : MountNamespaceState :=
  Build_MountNamespaceState (mn_occupied n) (mn_slot n) (mn_refcount n) bindings (task_refcount n)
    (handle_refcount n) (NextGeneration (mn_generation n)) (mn_identity_generation n) (root_mount_id n)
    (root_mount_flags n) (root_mount_attributes n) (root_propagation n) (mn_root_origin_flags n)
    (mn_reserved n) (root_source_guest n) (root_source_host n).

(** The record of the new mount; its id and sequence are the new mutation generation. *)
Definition new_binding (binding : MountBindingSpec) (slot ns parent id : Z) : MountBindingState :=
  Build_MountBindingState 1 slot ns (ms_kind binding) (ms_state_flags binding) 0 id parent id
    (ms_mount_flags binding) (ms_mount_attributes binding) (ms_propagation binding)
    (CopyPath (ms_target_guest binding)) (CopyPath (ms_source_guest binding)) (CopyPath (ms_source_host binding)).

(** The parent a new mount gets, or the error. *)
Definition parent_for (t : PathStateTable) (ns : Z) (binding : MountBindingSpec) : Z + Z :=
  let parent := ms_parent_mount_id binding in
  if parent =? 0 then inr (VisibleParentMountId t ns (path_of (ms_target_guest binding)))
  else if negb (parent =? root_mount_id (namespace_at t ns)) then
    match FindMountBindingById t ns parent with None => inl ENOENT | Some _ => inr parent end
  else inr parent.

(** The error, the slot of the mount created, and the table. *)
Definition AddMountBindingInternal (t : PathStateTable) (ns : Z) (binding : MountBindingSpec)
    : Z * option Z * PathStateTable :=
  let validation_error := ValidateMountBindingSpec binding in
  if negb (validation_error =? 0) then (validation_error, None, t)
  else match find_free (mount_bindings t) with
  | None => (ENOSPC, None, t)
  | Some slot =>
    match parent_for t ns binding with
    | inl error => (error, None, t)
    | inr parent =>
      let t := NoteMutation t in
      let t := with_bindings t (occupy (mount_bindings t) slot
        (new_binding binding slot ns parent (mutation_generation t))) in
      let n := namespace_at t ns in
      (0, Some slot, put_namespace t ns (touch_namespace n (u32 (binding_count n + 1))))
    end
  end.

(** The guard that the mount operations share. *)
Definition for_task {X} (t : PathStateTable) (tid : Z) (bad : bool) (fail : Z -> X) (k : PathTaskState -> X) : X :=
  if negb (IsPathStateInitialized t) || (tid <=? 0) || bad then fail EINVAL
  else match FindTaskUnchecked t tid with
  | None => fail ESRCH
  | Some slot => k (task_of t slot)
  end.

(** What an operation leaves: the error, the id it writes, and the table. *)
Definition Outcome : Type := Z * option Z * PathStateTable.

Definition AddMountBinding (t : PathStateTable) (tid : Z) (binding : MountBindingSpec) : Outcome :=
  for_task t tid false (fun error => (error, None, t)) (fun task =>
  match AddMountBindingInternal t (pt_mount_namespace_slot task) binding with
  | (error, Some slot, t) => (error, Some (mount_id (binding_at t slot)), t)
  | (error, None, t) => (error, None, t)
  end).

(** ** Removing mounts *)

Definition set_state_flags (b : MountBindingState) (flags : Z) : MountBindingState :=
  Build_MountBindingState (mb_occupied b) (mb_slot b) (mb_mount_namespace_slot b) (mb_kind b) flags
    (mb_reserved b) (mount_id b) (parent_mount_id b) (sequence b) (mount_flags b) (mount_attributes b)
    (propagation b) (target_guest b) (mb_source_guest b) (mb_source_host b).

Definition has_children (t : PathStateTable) (ns id : Z) : bool :=
  existsb (fun b => of_namespace ns b && negb (detached b) && (parent_mount_id b =? id)) (p_records (mount_bindings t)).

Definition remove_slots (t : PathStateTable) (ns id flags : Z) : list bool :=
  (fun b => if of_namespace ns b && negb (detached b) then
      if mount_id b =? id then true
      else if has flags kMountRemoveSubtree then BindingDescendsFrom t b id else false
    else false) <$> p_records (mount_bindings t).

(** The loop over the trees: the ones attached to a mount that is removed are
    detached, the ones cloned from one keep the mounts. *)
Definition remove_from_trees (t : PathStateTable) (ns : Z) (removed : list bool) (retain : bool) : PathStateTable * bool :=
  for_slots kPathStateMountTreeCapacity (fun slot '(t, retain) =>
    let tree := at_slot (mount_trees t) slot in
    if negb (in_use tree) then (t, retain)
    else
      let retain := if (mt_mount_namespace_slot tree =? ns) && MountIdIsSelected t ns (source_mount_id tree) removed
                    then true else retain in
      if (attached_namespace_slot tree =? ns) && MountIdIsSelected t ns (attached_mount_id tree) removed
      then (with_trees t (put (mount_trees t) slot (DetachMountTree tree)), retain) else (t, retain)) (t, retain).

(** A task of the namespace has its directory or its root on a mount that is removed. *)
Definition pinned (t : PathStateTable) (ns : Z) (removed : list bool) : bool :=
  existsb (fun task =>
    if in_use task && (pt_mount_namespace_slot task =? ns) then
      let fs := at_slot (fs_contexts t) (pt_fs_context_slot task) in
      MountIdIsSelected t ns (cwd_mount_id fs) removed || MountIdIsSelected t ns (fs_root_mount_id fs) removed
    else false) (p_records (tasks t)).

Definition drop_mounts (t : PathStateTable) (removed : list bool) (retain : bool) : PathStateTable :=
  for_slots kPathStateMountBindingCapacity (fun slot t =>
    if negb (removed !!! Z.to_nat slot) then t
    else if retain then
      let b := binding_at t slot in
      put_binding t slot (set_state_flags b (mb_state_flags b ||| kMountBindingStateDetached))
    else EraseMountBindingSlot t slot) t.

Definition RemoveMountBinding (t : PathStateTable) (tid : Z) (target_guest : option Path) (flags : Z) : Outcome :=
  let fail error : Outcome := (error, Some 0, t) in
  if negb (IsPathStateInitialized t) || (tid <=? 0) || negb ((flags &&& not32 kMountRemoveKnownFlags) =? 0)
  then fail EINVAL
  else if negb (ValidateCanonicalPath target_guest =? 0) then fail (ValidateCanonicalPath target_guest)
  else for_task t tid false fail (fun task =>
    let ns := pt_mount_namespace_slot task in
    match ResolveVisibleExactMount t ns (path_of target_guest) with
    | None => fail EINVAL
    | Some selected =>
      let selected_id := mount_id (binding_at t selected) in
      if has_children t ns selected_id && negb (has flags kMountRemoveSubtree) then fail EBUSY
      else
        let removed := remove_slots t ns selected_id flags in
        let '(t, retain) := remove_from_trees t ns removed (has flags kMountRemoveDetached) in
        let t := drop_mounts t removed (retain || pinned t ns removed) in
        let n := namespace_at t ns in
        (0, Some selected_id, NoteMutation (put_namespace t ns (touch_namespace n (binding_count n))))
    end).

(** ** Attributes *)

Definition set_attributes (b : MountBindingState) (set clear new_propagation : Z) : MountBindingState :=
  Build_MountBindingState (mb_occupied b) (mb_slot b) (mb_mount_namespace_slot b) (mb_kind b) (mb_state_flags b)
    (mb_reserved b) (mount_id b) (parent_mount_id b) (sequence b) (mount_flags b)
    ((mount_attributes b &&& not64 clear) ||| set)
    (if new_propagation =? 0 then propagation b else new_propagation)
    (target_guest b) (mb_source_guest b) (mb_source_host b).
Definition set_root_attributes (n : MountNamespaceState) (set clear new_propagation : Z) : MountNamespaceState :=
  Build_MountNamespaceState (mn_occupied n) (mn_slot n) (mn_refcount n) (binding_count n) (task_refcount n)
    (handle_refcount n) (mn_generation n) (mn_identity_generation n) (root_mount_id n) (root_mount_flags n)
    ((root_mount_attributes n &&& not64 clear) ||| set)
    (if new_propagation =? 0 then root_propagation n else new_propagation) (mn_root_origin_flags n)
    (mn_reserved n) (root_source_guest n) (root_source_host n).

(** The recursive part: the mounts below the selected one, or all of the
    namespace's when the path is on its root. *)
Definition set_below (t : PathStateTable) (ns : Z) (selected : option Z) (selected_id set clear propagation : Z)
    : PathStateTable :=
  for_slots kPathStateMountBindingCapacity (fun slot t =>
    let candidate := binding_at t slot in
    if negb (of_namespace ns candidate) then t
    else if match selected with
      | None => false
      | Some s => (slot =? s) || negb (BindingDescendsFrom t candidate selected_id)
      end then t
    else put_binding t slot (set_attributes candidate set clear propagation)) t.

Definition SetMountBindingAttributes (t : PathStateTable) (tid : Z) (target_guest : option Path)
    (attributes_set attributes_clear propagation : Z) (recursive : bool) : Z * PathStateTable :=
  if negb (IsPathStateInitialized t) || (tid <=? 0) || negb ((attributes_set &&& attributes_clear) =? 0) then (EINVAL, t)
  else if negb (ValidateCanonicalPath target_guest =? 0) then (ValidateCanonicalPath target_guest, t)
  else for_task t tid false (fun error => (error, t)) (fun task =>
    let ns := pt_mount_namespace_slot task in
    let selected := ResolveVisibleMount t ns (path_of target_guest) in
    let selected_id := match selected with None => root_mount_id (namespace_at t ns) | Some s => mount_id (binding_at t s) end in
    let t := match selected with
      | None => put_namespace t ns (set_root_attributes (namespace_at t ns) attributes_set attributes_clear propagation)
      | Some s => put_binding t s (set_attributes (binding_at t s) attributes_set attributes_clear propagation)
      end in
    let t := if recursive then set_below t ns selected selected_id attributes_set attributes_clear propagation else t in
    let n := namespace_at t ns in
    (0, NoteMutation (put_namespace t ns (touch_namespace n (binding_count n))))).
