(* ===== verification/PathTranslate.v ===== *)
(** * Paths between the guest and the host (tracer/path_state/mount_translation.inc, task_fd.inc)

    The host path of a guest path under the mounts of a task, the way back, and
    the path a descriptor's identity has now. *)

From S2P Require Import Prelude SlotArray SlotPool GuestPath PathState PathStorage PathStateOps PathTaskOps PathMounts.
From stdpp Require Import list.
#[local] Open Scope Z_scope.

Definition InitializeTranslation : MountPathTranslation :=
  Build_MountPathTranslation 0 kInvalidPathStateSlot 0 0 0 0 0 0 0 [] [].

(** The paths of a translation. *)
Definition with_paths (tr : MountPathTranslation) (guest host : Path) : MountPathTranslation :=
  Build_MountPathTranslation (tr_matched tr) (tr_binding_slot tr) (tr_kind tr) (tr_state_flags tr) (tr_mount_id tr)
    (tr_namespace_generation tr) (tr_binding_sequence tr) (tr_mount_flags tr) (tr_mount_attributes tr) guest host.

Definition FillTranslationMetadata (n : MountNamespaceState) (binding : option MountBindingState)
    (tr : MountPathTranslation) : MountPathTranslation :=
  match binding with
  | None =>
    Build_MountPathTranslation 1 (tr_binding_slot tr) kMountBindingRoot (tr_state_flags tr) (root_mount_id n)
      (mn_generation n) (tr_binding_sequence tr) (root_mount_flags n) (root_mount_attributes n)
      (tr_guest_path tr) (tr_host_path tr)
  | Some b =>
    Build_MountPathTranslation 1 (mb_slot b) (mb_kind b) (mb_state_flags b) (mount_id b)
      (mn_generation n) (sequence b) (mount_flags b) (mount_attributes b) (tr_guest_path tr) (tr_host_path tr)
  end.

Definition NamespaceRootChanged (n : MountNamespaceState) : bool :=
  negb (PathEquals (root_source_guest n) [SLASH]) || negb (PathEquals (root_source_host n) [SLASH]).

(** The guest path of a host path under a mount, when it leads back to the mount. *)
Definition ReverseBindingRoundTrips (t : PathStateTable) (ns slot : Z) (host_path : Path) : option Path :=
  let b := binding_at t slot in
  match SubstitutePathPrefix host_path (mb_source_host b) (target_guest b) with
  | inl _ => None
  | inr guest =>
    match ResolveVisibleMount t ns guest with
    | Some s => if s =? slot then Some guest else None
    | None => None
    end
  end.

Definition ReverseRootRoundTrips (t : PathStateTable) (ns : Z) (host_path : Path) : option Path :=
  match SubstitutePathPrefix host_path (root_source_host (namespace_at t ns)) [SLASH] with
  | inl _ => None
  | inr guest => match ResolveVisibleMount t ns guest with Some _ => None | None => Some guest end
  end.

(** Both paths of a guest path whose prefix changes; on an error the
    translation has the paths written before it. *)
Definition substitute_both (tr : MountPathTranslation) (path prefix guest host : Path) : Z * MountPathTranslation :=
  match SubstitutePathPrefix path prefix guest with
  | inl error => (error, tr)
  | inr guest_path =>
    let tr := with_paths tr guest_path (tr_host_path tr) in
    match SubstitutePathPrefix path prefix host with
    | inl error => (error, tr)
    | inr host_path => (0, with_paths tr guest_path host_path)
    end
  end.

(** The error and what [*translation] holds; [None] is a null pointer. *)
Definition TranslateMountPath (t : PathStateTable) (tid : Z) (guest_path : option Path)
    (translation : option MountPathTranslation) : Z * option MountPathTranslation :=
  if negb (IsPathStateInitialized t) || (tid <=? 0) || is_null translation then (EINVAL, translation)
  else
    let tr := InitializeTranslation in
    if negb (ValidateCanonicalPath guest_path =? 0) then (ValidateCanonicalPath guest_path, Some tr)
    else match FindPathTask t tid with
    | None => (ESRCH, Some tr)
    | Some task_slot =>
      let ns := pt_mount_namespace_slot (task_of t task_slot) in
      let n := namespace_at t ns in
      match ResolveVisibleMount t ns (path_of guest_path) with
      | Some slot =>
        let b := binding_at t slot in
        let '(error, tr) := substitute_both tr (path_of guest_path) (target_guest b) (mb_source_guest b) (mb_source_host b) in
        if negb (error =? 0) then (error, Some tr) else (0, Some (FillTranslationMetadata n (Some b) tr))
      | None =>
        let tr := with_paths tr (CopyPath guest_path) (tr_host_path tr) in
        if negb (NamespaceRootChanged n) then (0, Some tr)
        else
          let '(error, tr) := substitute_both tr (path_of guest_path) [SLASH] (root_source_guest n) (root_source_host n) in
          if error =? 0 then (0, Some (FillTranslationMetadata n None tr)) else (error, Some tr)
      end
    end.

(** The mounts a host path is visible through, with the length of their source. *)
Definition source_length (t : PathStateTable) (ns : Z) (host_path : Path) (slot : Z) (b : MountBindingState) : option nat :=
  if of_namespace ns b && has (mb_state_flags b) kMountBindingStateReverseVisible then
    match ReverseBindingRoundTrips t ns slot host_path with
    | None => None
    | Some _ =>
      match PathLength (Some (mb_source_host b)) with
      | inl _ => None
      | inr length => if PathPrefixMatches host_path (mb_source_host b) length then Some length else None
      end
    end
  else None.

(** The guest path under the root mount, when that is selected. *)
Definition root_selected (t : PathStateTable) (ns : Z) (host_path : Path) (selected : option Choice) : option Path :=
  let n := namespace_at t ns in
  if NamespaceRootChanged n then
    let root_length := match PathLength (Some (root_source_host n)) with inr length => length | inl _ => O end in
    if match selected with None => true | Some (_, _, length) => (length <? root_length)%nat end then
      if PathPrefixMatches host_path (root_source_host n) root_length then ReverseRootRoundTrips t ns host_path else None
    else None
  else None.

Definition ReverseMountPath (t : PathStateTable) (tid : Z) (host_path : option Path)
    (translation : option MountPathTranslation) : Z * option MountPathTranslation :=
  if negb (IsPathStateInitialized t) || (tid <=? 0) || is_null translation then (EINVAL, translation)
  else
    let tr := InitializeTranslation in
    if negb (ValidateCanonicalPath host_path =? 0) then (ValidateCanonicalPath host_path, Some tr)
    else match FindPathTask t tid with
    | None => (ESRCH, Some tr)
    | Some task_slot =>
      let ns := pt_mount_namespace_slot (task_of t task_slot) in
      let n := namespace_at t ns in
      let host := path_of host_path in
      let selected := select t (source_length t ns host) in
      match root_selected t ns host selected with
      | Some root_guest => (0, Some (FillTranslationMetadata n None (with_paths tr (CopyPath (Some root_guest)) (CopyPath host_path))))
      | None =>
        match selected with
        | None => (0, Some tr)
        | Some (_, b, _) =>
          match SubstitutePathPrefix host (mb_source_host b) (target_guest b) with
          | inl error => (error, Some tr)
          | inr guest => (0, Some (FillTranslationMetadata n (Some b) (with_paths tr guest (CopyPath host_path))))
          end
        end
      end
    end.

(** ** The path of a descriptor *)

Definition kFdIdentityViewNamespaceChanged : Z := 1.
Definition kFdIdentityViewNamespaceMutated : Z := 2.
Definition kFdIdentityViewMountTranslated : Z := 4.
Definition kFdIdentityViewCapturedFallback : Z := 8.

Record FdIdentityView := {
  vw_flags : Z; vw_origin_flags : Z; vw_namespace_identity : Z; vw_namespace_generation : Z; vw_mount_id : Z;
  vw_guest_path : Path; vw_host_path : Path }.

(** What ReverseMountPath found, put into the view. *)
Definition translated_view (view : FdIdentityView) (identity : FdIdentity) (tr : MountPathTranslation) : FdIdentityView :=
  let 'Build_FdIdentityView flags origin identity_generation generation id guest host := view in
  if negb (tr_matched tr =? 0) then
    Build_FdIdentityView (flags ||| kFdIdentityViewMountTranslated)
      (origin ||| (kPathOriginGuestValid ||| kPathOriginReverseVisible)) identity_generation generation (tr_mount_id tr)
      (CopyPath (Some (tr_guest_path tr))) host
  else if has (fi_origin_flags identity) kPathOriginGuestValid then
    Build_FdIdentityView (flags ||| kFdIdentityViewCapturedFallback) origin identity_generation generation id guest host
  else
    Build_FdIdentityView (flags ||| kFdIdentityViewCapturedFallback)
      (origin ||| (kPathOriginGuestValid ||| kPathOriginAmbiguous)) identity_generation generation id
      (CopyPath (Some (fi_host_path identity))) host.

Definition ResolveFdIdentityView (t : PathStateTable) (tid fd : Z) (view : option FdIdentityView)
    : Z * option FdIdentityView :=
  if negb (IsPathStateInitialized t) || (tid <=? 0) || (fd <? 0) || is_null view then (EINVAL, view)
  else
    let zeroed := Build_FdIdentityView 0 0 0 0 0 [] [] in
    match FindPathTask t tid with
    | None => (ESRCH, Some zeroed)
    | Some task_slot =>
      match LookupFdIdentity t tid fd with
      | None => (ENOENT, Some zeroed)
      | Some identity =>
        let task := task_of t task_slot in
        let n := namespace_at t (pt_mount_namespace_slot task) in
        let changed := negb (fi_mount_namespace_slot identity =? pt_mount_namespace_slot task) ||
          negb (fi_mount_namespace_identity identity =? mn_identity_generation n) in
        let mutated := negb changed && negb (fi_mount_namespace_generation identity =? mn_generation n) in
        let view := Build_FdIdentityView
          ((if changed then kFdIdentityViewNamespaceChanged else 0) ||| (if mutated then kFdIdentityViewNamespaceMutated else 0))
          (fi_origin_flags identity) (mn_identity_generation n) (mn_generation n) 0
          (CopyPath (if has (fi_origin_flags identity) kPathOriginGuestValid then Some (fi_guest_path identity) else None))
          (CopyPath (if has (fi_origin_flags identity) kPathOriginHostValid then Some (fi_host_path identity) else None)) in
        if negb changed && negb mutated || negb (has (fi_origin_flags identity) kPathOriginHostValid) then (0, Some view)
        else match ReverseMountPath t tid (Some (fi_host_path identity)) (Some InitializeTranslation) with
        | (0, Some tr) => (0, Some (translated_view view identity tr))
        | (error, _) => (error, Some view)
        end
      end
    end.
