(* ===== verification/PathMountMoves.v ===== *)
(** * Mounts that move (tracer/path_state/mount_translation.inc)

    The recursive bind mount, which clones the mounts under its source, the
    move of a mount with the mounts below it, and pivot_root. *)

From S2P Require Import Prelude SlotArray SlotPool GuestPath PathState PathStorage PathStateOps PathTaskOps PathMounts PathTranslate.
From stdpp Require Import list.
#[local] Open Scope Z_scope.

(** ** Recursive bind mounts *)

(** The mounts that are cloned: visible, and below the source. *)
Definition included_slot (t : PathStateTable) (ns : Z) (source : Path) (length : nat) (slot : Z) (b : MountBindingState) : bool :=
  if of_namespace ns b && negb (detached b) && negb (PathEquals (target_guest b) source) &&
     PathPrefixMatches (target_guest b) source length
  then match ResolveVisibleMount t ns (target_guest b) with Some s => s =? slot | None => false end
  else false.
Definition with_slots {A} (p : Pool A) : list (Z * A) := zip (seqZ 0 (Z.of_nat (length (p_records p)))) (p_records p).
Definition included_slots (t : PathStateTable) (ns : Z) (source : Path) (length : nat) : list bool :=
  (fun p : Z * MountBindingState => included_slot t ns source length p.1 p.2) <$> with_slots (mount_bindings t).
Definition marks (l : list bool) : Z := foldr (fun (b : bool) (n : Z) => (if b then 1 else 0) + n) 0 l.

(** The included mount a cloned one goes under: the one with the longest
    target that is a proper prefix. *)
Definition clone_parent (t : PathStateTable) (included : list bool) (slot : Z) (source : MountBindingState) : option (Z * nat) :=
  foldl (fun parent '((candidate_slot, candidate), marked) =>
    if negb marked || (candidate_slot =? slot) then parent
    else match PathLength (Some (target_guest candidate)) with
    | inl _ => parent
    | inr length =>
      if (HOOKSELF_PATH_CAPACITY <=? length)%nat || negb (PathPrefixMatches (target_guest source) (target_guest candidate) length) ||
         PathEquals (target_guest source) (target_guest candidate) then parent
      else match parent with
      | None => Some (candidate_slot, length)
      | Some (_, parent_length) => if (parent_length <? length)%nat then Some (candidate_slot, length) else parent
      end
    end) None (zip (with_slots (mount_bindings t)) included).

(** A mount cloned to another place of the namespace. *)
Definition cloned_spec (source : MountBindingState) (target : Path) (parent : Z) : MountBindingSpec :=
  Build_MountBindingSpec (mb_kind source) (mb_state_flags source &&& not32 kMountBindingStateDetached) parent
    (mount_flags source) (mount_attributes source) (propagation source)
    (Some target) (Some (mb_source_guest source)) (Some (mb_source_host source)).

(** The local variables of the clone loops. *)
Record Clones := {
  cl_table : PathStateTable; created_slots : list bool; cloned_ids : list Z; remaining : Z; progressed : bool }.

(** One iteration of the inner loop. *)
Definition clone_slot (binding : MountBindingSpec) (ns top_id : Z) (included : list bool) (c : Clones) (slot : Z) : Z * Clones :=
  let t := cl_table c in
  if negb (included !!! Z.to_nat slot) || negb (cloned_ids c !!! Z.to_nat slot =? 0) then (0, c)
  else
    let source := binding_at t slot in
    let parent_slot := clone_parent t included slot source in
    let parent := match parent_slot with None => top_id | Some (s, _) => cloned_ids c !!! Z.to_nat s end in
    if match parent_slot with None => false | Some _ => parent =? 0 end then (0, c)
    else match SubstitutePathPrefix (target_guest source) (path_of (ms_source_guest binding)) (path_of (ms_target_guest binding)) with
    | inl error => (error, c)
    | inr target =>
      match AddMountBindingInternal t ns (cloned_spec source target parent) with
      | (error, Some created, t) =>
        (error, Build_Clones t (<[Z.to_nat created := true]> (created_slots c))
          (<[Z.to_nat slot := mount_id (binding_at t created)]> (cloned_ids c)) (u32 (remaining c - 1)) true)
      | (error, None, t) => (error, Build_Clones t (created_slots c) (cloned_ids c) (remaining c) (progressed c))
      end
    end.

Fixpoint clone_pass (binding : MountBindingSpec) (ns top_id : Z) (included : list bool) (slots : list Z) (c : Clones) : Z * Clones :=
  match slots with
  | [] => (0, c)
  | slot :: slots =>
    let '(error, c) := clone_slot binding ns top_id included c slot in
    if negb (error =? 0) then (error, c) else clone_pass binding ns top_id included slots c
  end.

(** [while (remaining != 0)]: the fuel is the initial [remaining]. *)
Fixpoint clone_loop (fuel : nat) (binding : MountBindingSpec) (ns top_id : Z) (included : list bool) (c : Clones) : Z * Clones :=
  match fuel with
  | O => (0, c)
  | S fuel =>
    if remaining c =? 0 then (0, c)
    else
      let c := Build_Clones (cl_table c) (created_slots c) (cloned_ids c) (remaining c) false in
      let '(error, c) := clone_pass binding ns top_id included (seqZ 0 kPathStateMountBindingCapacity) c in
      if negb (error =? 0) then (error, c)
      else if negb (progressed c) then (EPROTO, c)
      else clone_loop fuel binding ns top_id included c
  end.

Definition erase_created (t : PathStateTable) (created : list bool) : PathStateTable :=
  for_slots kPathStateMountBindingCapacity (fun slot t =>
    if negb (created !!! Z.to_nat slot) then t else EraseMountBindingSlot t slot) t.

Definition no_marks : list bool := replicate (Z.to_nat kPathStateMountBindingCapacity) false.
Definition no_ids : list Z := replicate (Z.to_nat kPathStateMountBindingCapacity) 0.

Definition AddRecursiveMountBinding (t : PathStateTable) (tid : Z) (binding : MountBindingSpec) : Outcome :=
  let fail error : Outcome := (error, Some 0, t) in
  if negb (IsPathStateInitialized t) || (tid <=? 0) || negb (ms_kind binding =? kMountBindingBind) ||
     negb (has (ms_state_flags binding) kMountBindingStateRecursive) then fail EINVAL
  else if negb (ValidateMountBindingSpec binding =? 0) then fail (ValidateMountBindingSpec binding)
  else for_task t tid false fail (fun task =>
    let ns := pt_mount_namespace_slot task in
    match PathLength (ms_source_guest binding) with
    | inl error => fail error
    | inr source_length =>
      let included := included_slots t ns (path_of (ms_source_guest binding)) source_length in
      let child_count := marks included in
      if CountFreeMountBindingSlots t <? u32 (child_count + 1) then fail ENOSPC
      else match AddMountBindingInternal t ns binding with
      | (error, None, t) => (error, Some 0, t)
      | (_, Some top, t) =>
        let top_id := mount_id (binding_at t top) in
        let c := Build_Clones t (<[Z.to_nat (mb_slot (binding_at t top)) := true]> no_marks) no_ids child_count false in
        let '(error, c) := clone_loop (Z.to_nat child_count) binding ns top_id included c in
        if negb (error =? 0) then (error, Some 0, erase_created (cl_table c) (created_slots c))
        else (0, Some top_id, cl_table c)
      end
    end).

(** ** Moving a mount *)

(** What [from_guest] points to: a text of the caller's, or the target a tree
    of the table is attached at, which the move itself rewrites. *)
Inductive FromGuest := Given (text : option Path) | AttachedTarget (tree_slot : Z).
Definition from_guest (t : PathStateTable) (from : FromGuest) : option Path :=
  match from with
  | Given text => text
  | AttachedTarget slot => Some (attached_target_guest (at_slot (mount_trees t) slot))
  end.

Definition substitution_error (path from to : Path) : Z :=
  match SubstitutePathPrefix path from to with inl error => error | inr _ => 0 end.
(** The buffer after SubstitutePathPrefix: it keeps its text on an error. *)
Definition rewrite_into (buffer path from to : Path) : Path :=
  match SubstitutePathPrefix path from to with inl _ => buffer | inr text => text end.
Definition first_error (errors : list Z) : Z :=
  match filter (fun error => error <> 0) errors with [] => 0 | error :: _ => error end.

(** The mounts that move: the selected one and the ones below it. *)
Definition moves (t : PathStateTable) (ns selected_id : Z) (b : MountBindingState) : bool :=
  if of_namespace ns b then (if mount_id b =? selected_id then true else BindingDescendsFrom t b selected_id) else false.

Definition task_of_namespace (ns : Z) (task : PathTaskState) : bool := in_use task && (pt_mount_namespace_slot task =? ns).

(** The three loops that check before anything is changed. A context that two
    tasks share is checked once; a second check has the same result. *)
Definition move_error (t : PathStateTable) (ns selected_id : Z) (from to : Path) (from_length : nat) : Z :=
  let bindings := first_error ((fun b =>
    if moves t ns selected_id b then substitution_error (target_guest b) from to else 0) <$> p_records (mount_bindings t)) in
  if negb (bindings =? 0) then bindings
  else
    let bad path := negb (substitution_error path from to =? 0) in
    let under id := MountIdDescendsFrom t ns id selected_id in
    let tree_fails tree :=
      if negb (in_use tree) then false
      else if (if mt_mount_namespace_slot tree =? ns then
                 if under (source_mount_id tree) then bad (mt_source_guest tree) else false else false) then true
      else if attached_namespace_slot tree =? ns then
        if under (attached_mount_id tree) then bad (attached_target_guest tree) else false
      else false in
    let fs_fails task :=
      if negb (task_of_namespace ns task) then false
      else
        let fs := at_slot (fs_contexts t) (pt_fs_context_slot task) in
        if (if under (cwd_mount_id fs) then PathPrefixMatches (guest_cwd fs) from from_length && bad (guest_cwd fs) else false)
        then true
        else if under (fs_root_mount_id fs) then PathPrefixMatches (guest_root fs) from from_length && bad (guest_root fs)
        else false in
    if existsb tree_fails (p_records (mount_trees t)) then EPROTO
    else if existsb fs_fails (p_records (tasks t)) then EPROTO else 0.

Definition set_target (b : MountBindingState) (target : Path) : MountBindingState :=
  Build_MountBindingState (mb_occupied b) (mb_slot b) (mb_mount_namespace_slot b) (mb_kind b) (mb_state_flags b)
    (mb_reserved b) (mount_id b) (parent_mount_id b) (sequence b) (mount_flags b) (mount_attributes b)
    (propagation b) target (mb_source_guest b) (mb_source_host b).
Definition set_tree_paths (r : MountTreeState) (source attached : Path) : MountTreeState :=
  Build_MountTreeState (mt_occupied r) (mt_slot r) (mt_refcount r) (mt_state_flags r) (mt_mount_namespace_slot r)
    (mt_reserved r) (mt_generation r) (handle_id r) (source_mount_id r) (attached_namespace_slot r) (mt_reserved2 r)
    (attached_mount_id r) source (mt_source_host r) attached.
Definition set_fs_paths (c : FsContext) (cwd root : Path) (generation : Z) : FsContext :=
  Build_FsContext (fs_occupied c) (fs_slot c) (fs_refcount c) (cwd_origin_flags c) generation (cwd_device c)
    (cwd_inode c) (cwd_mount_id c) cwd (host_cwd c) (root_origin_flags c) (fs_reserved c) (root_device c)
    (root_inode c) (fs_root_mount_id c) root (host_root c).
Definition store_tree (t : PathStateTable) (slot : Z) (r : MountTreeState) : PathStateTable :=
  with_trees t (put (mount_trees t) slot r).
Definition store_fs (t : PathStateTable) (slot : Z) (c : FsContext) : PathStateTable :=
  with_fs t (put (fs_contexts t) slot c).

Section Move.
Variables (ns selected_id : Z) (from : FromGuest) (to : Path) (from_length : nat).

(** [rewritten] is the buffer of the function, shared by the loops. *)
Definition move_bindings (t : PathStateTable) (rewritten : Path) : PathStateTable * Path :=
  for_slots kPathStateMountBindingCapacity (fun slot '(t, rewritten) =>
    let b := binding_at t slot in
    if moves t ns selected_id b then
      let rewritten := rewrite_into rewritten (target_guest b) (path_of (from_guest t from)) to in
      (put_binding t slot (set_target b (CopyPath (Some rewritten))), rewritten)
    else (t, rewritten)) (t, rewritten).

Definition move_trees (t : PathStateTable) (rewritten : Path) : PathStateTable * Path :=
  for_slots kPathStateMountTreeCapacity (fun slot '(t, rewritten) =>
    let tree := at_slot (mount_trees t) slot in
    if negb (in_use tree) then (t, rewritten)
    else
      let '(t, rewritten) :=
        if (if mt_mount_namespace_slot tree =? ns then MountIdDescendsFrom t ns (source_mount_id tree) selected_id else false) then
          let rewritten := rewrite_into rewritten (mt_source_guest tree) (path_of (from_guest t from)) to in
          (store_tree t slot (set_tree_paths tree (CopyPath (Some rewritten)) (attached_target_guest tree)), rewritten)
        else (t, rewritten) in
      let tree := at_slot (mount_trees t) slot in
      if (if attached_namespace_slot tree =? ns then MountIdDescendsFrom t ns (attached_mount_id tree) selected_id else false) then
        let rewritten := rewrite_into rewritten (attached_target_guest tree) (path_of (from_guest t from)) to in
        (store_tree t slot (set_tree_paths tree (mt_source_guest tree) (CopyPath (Some rewritten))), rewritten)
      else (t, rewritten)) (t, rewritten).

(** One of the two paths of a context: the path, the buffer, whether it changed. *)
Definition move_path (t : PathStateTable) (id : Z) (path rewritten : Path) : Path * Path * bool :=
  let from := path_of (from_guest t from) in
  if (if MountIdDescendsFrom t ns id selected_id then PathPrefixMatches path from from_length else false) then
    let rewritten := rewrite_into rewritten path from to in (CopyPath (Some rewritten), rewritten, true)
  else (path, rewritten, false).

(** [updated] has the mark of each context, so that each changes once. *)
Definition move_contexts (t : PathStateTable) (rewritten : Path) : PathStateTable :=
  (for_slots kPathStateTaskCapacity (fun slot '(t, rewritten, updated) =>
    let task := task_of t slot in
    let s := pt_fs_context_slot task in
    if (if task_of_namespace ns task then (updated : list bool) !!! Z.to_nat s else true) then (t, rewritten, updated)
    else
      let fs := at_slot (fs_contexts t) s in
      let '(cwd, rewritten, changed) := move_path t (cwd_mount_id fs) (guest_cwd fs) rewritten in
      let '(root, rewritten, changed') := move_path t (fs_root_mount_id fs) (guest_root fs) rewritten in
      let generation := if changed || changed' then NextGeneration (fs_generation fs) else fs_generation fs in
      (store_fs t s (set_fs_paths fs cwd root generation), rewritten, <[Z.to_nat s := true]> updated))
    (t, rewritten, replicate (Z.to_nat kPathStateFsContextCapacity) false)).1.1.
End Move.

Definition set_parent (b : MountBindingState) (parent new_sequence : Z) : MountBindingState :=
  Build_MountBindingState (mb_occupied b) (mb_slot b) (mb_mount_namespace_slot b) (mb_kind b) (mb_state_flags b)
    (mb_reserved b) (mount_id b) parent new_sequence (mount_flags b) (mount_attributes b) (propagation b)
    (target_guest b) (mb_source_guest b) (mb_source_host b).

(** The new parent is the selected mount or below it. *)
Definition moves_below_itself (t : PathStateTable) (ns selected_id new_parent : Z) : bool :=
  if new_parent =? selected_id then true
  else if new_parent =? root_mount_id (namespace_at t ns) then false
  else match FindMountBindingById t ns new_parent with
  | Some s => BindingDescendsFrom t (binding_at t s) selected_id
  | None => false
  end.

Definition MoveMountBinding (t : PathStateTable) (tid : Z) (from : FromGuest) (to_guest : option Path) : Z * PathStateTable :=
  if negb (IsPathStateInitialized t) || (tid <=? 0) then (EINVAL, t)
  else
    let error := ValidateCanonicalPath (from_guest t from) in
    let error := if error =? 0 then ValidateCanonicalPath to_guest else error in
    let text := path_of (from_guest t from) in
    let to := path_of to_guest in
    if negb (error =? 0) then (error, t)
    else if PathEquals text to then (0, t)
    else
      let from_length := match PathLength (Some text) with inr length => length | inl _ => O end in
      if PathPrefixMatches to text from_length then (EINVAL, t)
      else for_task t tid false (fun error => (error, t)) (fun task =>
        let ns := pt_mount_namespace_slot task in
        match ResolveVisibleExactMount t ns text with
        | None => (EINVAL, t)
        | Some selected =>
          let selected_id := mount_id (binding_at t selected) in
          let new_parent := VisibleParentMountId t ns to in
          if moves_below_itself t ns selected_id new_parent then (EINVAL, t)
          else
            let error := move_error t ns selected_id text to from_length in
            if negb (error =? 0) then (error, t)
            else
              let t := NoteMutation t in
              let new_sequence := mutation_generation t in
              let '(t, rewritten) := move_bindings ns selected_id from to t [] in
              let '(t, rewritten) := move_trees ns selected_id from to t rewritten in
              let t := move_contexts ns selected_id from to from_length t rewritten in
              let t := put_binding t selected (set_parent (binding_at t selected) new_parent new_sequence) in
              let n := namespace_at t ns in
              (0, put_namespace t ns (touch_namespace n (binding_count n)))
        end).

(** ** pivot_root *)

Definition kMountPropagationShared : Z := 2 ^ 20.

(** The two translations, and the comparison with the host paths the kernel used. *)
Definition pivot_paths_agree (t : PathStateTable) (tid : Z) (new_root_guest new_root_host put_old_guest put_old_host : option Path) : Z :=
  let '(error, new_root) := TranslateMountPath t tid new_root_guest (Some InitializeTranslation) in
  let '(error, put_old) := if error =? 0 then TranslateMountPath t tid put_old_guest (Some InitializeTranslation)
                           else (error, Some InitializeTranslation) in
  let matches (tr : option MountPathTranslation) (host : option Path) :=
    match tr with None => false | Some tr => negb (tr_matched tr =? 0) && PathEquals (tr_host_path tr) (path_of host) end in
  if negb (error =? 0) then error
  else if matches new_root new_root_host && matches put_old put_old_host then 0 else EINVAL.

(** The new target of a mount: below the new root it loses the prefix, else it
    goes under the place the old root is put. *)
Definition pivot_substitute {X} (k : Path -> Path -> Path -> X) (below : bool) (b : MountBindingState)
    (new_root_guest put_old_visible : Path) : X :=
  if below then k (target_guest b) new_root_guest [SLASH] else k (target_guest b) [SLASH] put_old_visible.

Definition pivot_descendants (t : PathStateTable) (ns new_root_id : Z) : list bool :=
  (fun b => if of_namespace ns b && negb (mount_id b =? new_root_id) then BindingDescendsFrom t b new_root_id else false)
    <$> p_records (mount_bindings t).

Definition pivot_error (t : PathStateTable) (ns new_root_id : Z) (below : list bool) (new_root_guest put_old_visible : Path) : Z :=
  first_error ((fun p : MountBindingState * bool =>
    if of_namespace ns p.1 && negb (mount_id p.1 =? new_root_id)
    then pivot_substitute substitution_error p.2 p.1 new_root_guest put_old_visible else 0)
    <$> zip (p_records (mount_bindings t)) below).

Definition pivot_bindings (t : PathStateTable) (ns new_root : Z) (below : list bool) (new_root_guest put_old_visible : Path)
    : PathStateTable :=
  fst (for_slots kPathStateMountBindingCapacity (fun slot '(t, rewritten) =>
    let b := binding_at t slot in
    if negb (of_namespace ns b) || (slot =? new_root) then (t, rewritten)
    else
      let rewritten := pivot_substitute (rewrite_into rewritten) (below !!! Z.to_nat slot) b new_root_guest put_old_visible in
      (put_binding t slot (set_target b (CopyPath (Some rewritten))), rewritten)) (t, [])).

(** The record of the new root becomes the one of the old root, where it is put. *)
Definition pivoted_binding (b : MountBindingState) (n : MountNamespaceState) (new_sequence : Z) (put_old_visible : Path)
    : MountBindingState :=
  Build_MountBindingState (mb_occupied b) (mb_slot b) (mb_mount_namespace_slot b) kMountBindingRoot
    (kMountBindingStateRuntime ||| kMountBindingStateReverseVisible) (mb_reserved b) (root_mount_id n) (mount_id b)
    new_sequence (root_mount_flags n) (root_mount_attributes n) (root_propagation n) (CopyPath (Some put_old_visible))
    (CopyPath (Some (root_source_guest n))) (CopyPath (Some (root_source_host n))).
Definition pivoted_namespace (n : MountNamespaceState) (b : MountBindingState) : MountNamespaceState :=
  Build_MountNamespaceState (mn_occupied n) (mn_slot n) (mn_refcount n) (binding_count n) (task_refcount n)
    (handle_refcount n) (NextGeneration (mn_generation n)) (mn_identity_generation n) (mount_id b) (mount_flags b)
    (mount_attributes b) (propagation b) (mn_root_origin_flags n) (mn_reserved n)
    (CopyPath (Some (mb_source_guest b))) (CopyPath (Some (mb_source_host b))).

Definition pivot_trees (t : PathStateTable) (ns : Z) : PathStateTable :=
  for_slots kPathStateMountTreeCapacity (fun slot t =>
    let tree := at_slot (mount_trees t) slot in
    if negb (in_use tree) || negb (attached_namespace_slot tree =? ns) || (attached_mount_id tree =? 0) then t
    else match FindMountBindingById t ns (attached_mount_id tree) with
    | Some s => store_tree t slot (set_tree_paths tree (mt_source_guest tree) (CopyPath (Some (target_guest (binding_at t s)))))
    | None =>
      if attached_mount_id tree =? root_mount_id (namespace_at t ns)
      then store_tree t slot (set_tree_paths tree (mt_source_guest tree) (CopyPath (Some [SLASH]))) else t
    end) t.

(** One directory of a context: its mount, its host path, whether it changed. *)
Definition pivot_directory (id : Z) (guest host : Path) (old_id new_id : Z) (new_host : Path) : Z * Path * bool :=
  if (id =? old_id) && PathEquals guest [SLASH] then (new_id, CopyPath (Some new_host), true) else (id, host, false).

Definition set_fs_hosts (c : FsContext) (cwd_id : Z) (cwd_host : Path) (root_id : Z) (root_host : Path) (generation : Z) : FsContext :=
  Build_FsContext (fs_occupied c) (fs_slot c) (fs_refcount c) (cwd_origin_flags c) generation (cwd_device c)
    (cwd_inode c) cwd_id (guest_cwd c) cwd_host (root_origin_flags c) (fs_reserved c) (root_device c)
    (root_inode c) root_id (guest_root c) root_host.

Definition pivot_contexts (t : PathStateTable) (ns old_id new_id : Z) (new_host : Path) : PathStateTable :=
  fst (for_slots kPathStateTaskCapacity (fun slot '(t, updated) =>
    let task := task_of t slot in
    let s := pt_fs_context_slot task in
    if (if task_of_namespace ns task then (updated : list bool) !!! Z.to_nat s else true) then (t, updated)
    else
      let fs := at_slot (fs_contexts t) s in
      let '(root_id, root_host, changed) := pivot_directory (fs_root_mount_id fs) (guest_root fs) (host_root fs) old_id new_id new_host in
      let '(cwd_id, cwd_host, changed') := pivot_directory (cwd_mount_id fs) (guest_cwd fs) (host_cwd fs) old_id new_id new_host in
      let generation := if changed || changed' then NextGeneration (fs_generation fs) else fs_generation fs in
      (store_fs t s (set_fs_hosts fs cwd_id cwd_host root_id root_host generation), <[Z.to_nat s := true]> updated))
    (t, replicate (Z.to_nat kPathStateFsContextCapacity) false)).

Definition PivotRootMountNamespace (t : PathStateTable) (tid : Z) (new_root_guest new_root_host put_old_guest put_old_host : option Path)
    : Z * PathStateTable :=
  if negb (IsPathStateInitialized t) || (tid <=? 0) then (EINVAL, t)
  else
    let error := first_error (ValidateCanonicalPath <$> [new_root_guest; new_root_host; put_old_guest; put_old_host]) in
    let root := path_of new_root_guest in
    let put_old := path_of put_old_guest in
    let root_length := match PathLength (Some root) with inr length => length | inl _ => O end in
    if negb (error =? 0) then (error, t)
    else if PathEquals put_old root || negb (PathPrefixMatches put_old root root_length) then (EINVAL, t)
    else for_task t tid false (fun error => (error, t)) (fun task =>
      let ns := pt_mount_namespace_slot task in
      let n := namespace_at t ns in
      match ResolveVisibleExactMount t ns root with
      | None => (EINVAL, t)
      | Some new_root =>
        let b := binding_at t new_root in
        if mount_id b =? root_mount_id n then (EINVAL, t)
        else
          let error := pivot_paths_agree t tid new_root_guest new_root_host put_old_guest put_old_host in
          if negb (error =? 0) then (error, t)
          else if has (propagation b) kMountPropagationShared || has (root_propagation n) kMountPropagationShared then (EINVAL, t)
          else match SubstitutePathPrefix put_old root [SLASH] with
          | inl error => (error, t)
          | inr put_old_visible =>
            let below := pivot_descendants t ns (mount_id b) in
            let error := pivot_error t ns (mount_id b) below root put_old_visible in
            if negb (error =? 0) then (error, t)
            else
              let t := NoteMutation t in
              let t := pivot_bindings t ns new_root below root put_old_visible in
              let t := put_binding t new_root (pivoted_binding b n (mutation_generation t) put_old_visible) in
              let t := put_namespace t ns (pivoted_namespace n b) in
              let t := pivot_trees t ns in
              (0, pivot_contexts t ns (root_mount_id n) (mount_id b) (mb_source_host b))
          end
      end).
