(* ===== verification/PathTreeOps.v ===== *)
(** * Mount trees (tracer/path_state/mount_translation.inc)

    The descriptors that refer to a mount tree (open_tree), and attaching the
    tree of a descriptor to a place of the namespace (move_mount). *)

From S2P Require Import Prelude SlotArray SlotPool GuestPath PathState PathStorage PathStateOps PathTaskOps PathFdOps PathMounts PathMountMoves.
From stdpp Require Import list.
#[local] Open Scope Z_scope.

Definition EBADF : Z := 9.

(** ** A descriptor of a tree *)

(** The namespace of the tree, a copy or the live one, or the error. *)
Definition tree_namespace (t : PathStateTable) (ns : Z) (clone_tree : bool) : Z * Z * PathStateTable :=
  if clone_tree then
    match find_free (mount_namespaces t) with
    | None => (ENOSPC, kInvalidPathStateSlot, t)
    | Some slot =>
      if CountFreeMountBindingSlots t <? binding_count (namespace_at t ns) then (ENOSPC, slot, t)
      else let '(error, t) := CopyMountNamespaceToSlot t ns slot false in (error, slot, t)
    end
  else
    let live := namespace_at t ns in
    if (mn_refcount live =? UINT32_MAX) || (handle_refcount live =? UINT32_MAX) then (EOVERFLOW, ns, t)
    else (0, ns, put_namespace t ns (set_namespace_counts live (u32 (mn_refcount live + 1)) (binding_count live)
      (task_refcount live) (u32 (handle_refcount live + 1)))).

Definition new_tree (t : PathStateTable) (slot ns generation : Z) (clone_tree : bool) (source_mount : option Z)
    (source_guest source_host : option Path) : MountTreeState :=
  let source_id := match source_mount with None => root_mount_id (namespace_at t ns) | Some s => mount_id (binding_at t s) end in
  Build_MountTreeState 1 slot 1
    (if clone_tree then kMountTreeStateClone ||| kMountTreeStateDetached else kMountTreeStateAttached)
    ns 0 generation generation source_id (if clone_tree then kInvalidPathStateSlot else ns) 0
    (if clone_tree then 0 else source_id) (CopyPath source_guest) (CopyPath source_host)
    (if clone_tree then [] else CopyPath (Some match source_mount with None => [SLASH] | Some s => target_guest (binding_at t s) end)).

(** The identity becomes one of the tree. *)
Definition set_object (r : FdIdentity) (kind slot generation : Z) : FdIdentity :=
  Build_FdIdentity (fi_occupied r) (fi_slot r) (fi_fd_table_slot r) (fi_fd r) (fi_origin_flags r)
    (fi_directory r) (fi_cloexec r) (fi_reserved r) (fi_device r) (fi_inode r) (fi_mount_namespace_slot r)
    (fi_reserved2 r) (fi_mount_namespace_identity r) (fi_mount_namespace_generation r) kind
    (object_flags r) slot (fi_reserved3 r) generation (fi_guest_path r) (fi_host_path r).

Definition RecordMountTreeFdIdentity (t : PathStateTable) (tid fd : Z) (source_guest source_host : option Path)
    (cloexec clone_tree : bool) : Outcome :=
  let fail error : Outcome := (error, Some 0, t) in
  if negb (IsPathStateInitialized t) || (tid <=? 0) || (fd <? 0) then fail EINVAL
  else
    let error := ValidateCanonicalPath source_guest in
    let error := if error =? 0 then ValidateCanonicalPath source_host else error in
    if negb (error =? 0) then fail error
    else for_task t tid false fail (fun task =>
    match find_free (mount_trees t) with
    | None => fail ENOSPC
    | Some tree_slot =>
      let '(error, ns, t) := tree_namespace t (pt_mount_namespace_slot task) clone_tree in
      if negb (error =? 0) then (error, Some 0, t)
      else
        let source_mount := ResolveVisibleMount t ns (path_of source_guest) in
        let t := NoteMutation t in
        let tree := new_tree t tree_slot ns (mutation_generation t) clone_tree source_mount source_guest source_host in
        let t := with_trees t (occupy (mount_trees t) tree_slot tree) in
        let '(error, t) := RecordFdIdentity t tid fd
          (Build_FdIdentitySpec both_valid 1 (if cloexec then 1 else 0) 0 0 0 source_guest source_host) in
        if negb (error =? 0) then (error, Some 0, ReleaseMountTreeReference t tree_slot)
        else match FindIdentityUnchecked t (pt_fd_table_slot task) fd with
        | None => (EPROTO, Some 0, ReleaseMountTreeReference t tree_slot)
        | Some slot =>
          (0, Some (handle_id tree),
            with_identities t (put (fd_identities t) slot
              (set_object (at_slot (fd_identities t) slot) kFdIdentityObjectMountTree tree_slot (mt_generation tree))))
        end
    end).

Definition LookupMountTreeByFd (t : PathStateTable) (tid fd : Z) : option MountTreeState :=
  match LookupFdIdentity t tid fd with
  | None => None
  | Some r =>
    if negb (object_kind r =? kFdIdentityObjectMountTree) || (kPathStateMountTreeCapacity <=? object_slot r) then None
    else
      let tree := at_slot (mount_trees t) (object_slot r) in
      if in_use tree && (mt_generation tree =? object_generation r) then Some tree else None
  end.

(** ** Attaching a tree *)

(** The mounts of the tree below its source that are attached with it, or the error. *)
Definition tree_slot_included (t : PathStateTable) (tree : MountTreeState) (length : nat) (b : MountBindingState) : bool :=
  if of_namespace (mt_mount_namespace_slot tree) b && negb (detached b) && negb (mount_id b =? source_mount_id tree) then
    if BindingDescendsFrom t b (source_mount_id tree) then PathPrefixMatches (target_guest b) (mt_source_guest tree) length
    else false
  else false.
Definition tree_slots (t : PathStateTable) (tree : MountTreeState) (length : nat) : list bool :=
  tree_slot_included t tree length <$> p_records (mount_bindings t).
Definition marked {A} (records : list A) (included : list bool) : list A :=
  fst <$> filter (fun p : A * bool => p.2 = true) (zip records included).
Definition tree_rewrite_error (t : PathStateTable) (tree : MountTreeState) (included : list bool) (target : Path) : Z :=
  first_error ((fun b => substitution_error (target_guest b) (mt_source_guest tree) target)
    <$> marked (p_records (mount_bindings t)) included).

(** Each included mount is below the source or below another included one. *)
Definition parents_included (t : PathStateTable) (tree : MountTreeState) (included : list bool) : bool :=
  forallb (fun b =>
    if parent_mount_id b =? source_mount_id tree then true
    else match FindMountBindingById t (mt_mount_namespace_slot tree) (parent_mount_id b) with
    | None => false
    | Some s => included !!! Z.to_nat (mb_slot (binding_at t s))
    end) (marked (p_records (mount_bindings t)) included).

Definition attached_spec (t : PathStateTable) (tree : MountTreeState) (target : option Path) : MountBindingSpec :=
  let n := namespace_at t (mt_mount_namespace_slot tree) in
  let source := binding_at t <$> FindMountBindingById t (mt_mount_namespace_slot tree) (source_mount_id tree) in
  Build_MountBindingSpec kMountBindingTree (kMountBindingStateRuntime ||| kMountBindingStateReverseVisible) 0
    (match source with None => root_mount_flags n | Some b => mount_flags b end)
    (match source with None => root_mount_attributes n | Some b => mount_attributes b end)
    (match source with None => root_propagation n | Some b => propagation b end)
    target (Some (mt_source_guest tree)) (Some (mt_source_host tree)).

(** The local variables of the loop that attaches the mounts below. *)
Record Attached := { at_table : PathStateTable; at_created : list bool; at_ids : list Z }.

(** The id of the mount a candidate goes under, when that is attached already. *)
Definition attached_parent (a : Attached) (tree : MountTreeState) (attached_id : Z) (b : MountBindingState) : option Z :=
  if parent_mount_id b =? source_mount_id tree then Some attached_id
  else match FindMountBindingById (at_table a) (mt_mount_namespace_slot tree) (parent_mount_id b) with
  | None => None
  | Some s =>
    let id := at_ids a !!! Z.to_nat (mb_slot (binding_at (at_table a) s)) in
    if id =? 0 then None else Some id
  end.

(** The oldest mount that can be attached next: its slot, sequence and parent. *)
Definition next_attached (a : Attached) (tree : MountTreeState) (attached_id : Z) (included : list bool) : option (Z * Z * Z) :=
  foldl (fun selected '((slot, b), (wanted, id)) =>
    if negb wanted || negb (id =? 0) then selected
    else match attached_parent a tree attached_id b with
    | None => selected
    | Some parent =>
      match selected with
      | None => Some (slot, sequence b, parent)
      | Some (_, selected_sequence, _) =>
        if sequence b <? selected_sequence then Some (slot, sequence b, parent) else selected
      end
    end) None (zip (with_slots (mount_bindings (at_table a))) (zip included (at_ids a))).

(** Undoing the mounts created so far. *)
Definition undo_attach (a : Attached) (ns attached_id : Z) : PathStateTable :=
  let t := erase_created (at_table a) (at_created a) in
  match FindMountBindingById t ns attached_id with None => t | Some top => EraseMountBindingSlot t top end.

(** [while (created_count < descendant_count)]: the fuel is the difference. *)
Fixpoint attach_loop (fuel : nat) (tree : MountTreeState) (ns attached_id : Z) (target : Path) (included : list bool) (a : Attached)
    : Z * PathStateTable :=
  match fuel with
  | O => (0, at_table a)
  | S fuel =>
    match next_attached a tree attached_id included with
    | None => (EPROTO, undo_attach a ns attached_id)
    | Some (slot, _, parent) =>
      let source_child := binding_at (at_table a) slot in
      match SubstitutePathPrefix (target_guest source_child) (mt_source_guest tree) target with
      | inl error => (error, at_table a)
      | inr rewritten =>
        match AddMountBindingInternal (at_table a) ns (cloned_spec source_child rewritten parent) with
        | (error, Some created, t) =>
          attach_loop fuel tree ns attached_id target included
            (Build_Attached t (<[Z.to_nat created := true]> (at_created a))
              (<[Z.to_nat slot := mount_id (binding_at t created)]> (at_ids a)))
        | (error, None, t) =>
          (if negb (error =? 0) then error else EPROTO, undo_attach (Build_Attached t (at_created a) (at_ids a)) ns attached_id)
        end
      end
    end
  end.

Definition attach_tree (r : MountTreeState) (ns id : Z) (target : option Path) : MountTreeState :=
  Build_MountTreeState (mt_occupied r) (mt_slot r) (mt_refcount r)
    ((mt_state_flags r &&& not32 kMountTreeStateDetached) ||| kMountTreeStateAttached) (mt_mount_namespace_slot r)
    (mt_reserved r) (mt_generation r) (handle_id r) (source_mount_id r) ns (mt_reserved2 r) id
    (mt_source_guest r) (mt_source_host r) (CopyPath target).

(** A tree that is attached already moves. *)
Definition move_attached (t : PathStateTable) (tid ns tree_slot : Z) (target : option Path) : Outcome :=
  let tree := at_slot (mount_trees t) tree_slot in
  if negb (attached_namespace_slot tree =? ns) then (EXDEV, Some 0, t)
  else match FindMountBindingById t (attached_namespace_slot tree) (attached_mount_id tree) with
  | None => (ESTALE, Some 0, t)
  | Some s =>
    if negb (PathEquals (target_guest (binding_at t s)) (attached_target_guest tree)) then (ESTALE, Some 0, t)
    else
      let '(error, t) := MoveMountBinding t tid (AttachedTarget tree_slot) target in
      if negb (error =? 0) then (error, Some 0, t)
      else
        let tree := at_slot (mount_trees t) tree_slot in
        (0, Some (attached_mount_id tree), store_tree t tree_slot (set_tree_paths tree (mt_source_guest tree) (CopyPath target)))
  end.

(** A tree that is detached gets a mount at the target, and the ones below it. *)
Definition attach_detached (t : PathStateTable) (ns tree_slot : Z) (target : option Path) : Outcome :=
  let tree := at_slot (mount_trees t) tree_slot in
  let length := match PathLength (Some (mt_source_guest tree)) with inr length => length | inl _ => O end in
  let included := tree_slots t tree length in
  let rewrite_error := tree_rewrite_error t tree included (path_of target) in
  let descendant_count := marks included in
  if negb (rewrite_error =? 0) then (rewrite_error, Some 0, t)
  else if CountFreeMountBindingSlots t <? u32 (descendant_count + 1) then (ENOSPC, Some 0, t)
  else if negb (parents_included t tree included) then (EPROTO, Some 0, t)
  else match AddMountBindingInternal t ns (attached_spec t tree target) with
  | (error, None, t) => (error, Some 0, t)
  | (_, Some top, t) =>
    let attached_id := mount_id (binding_at t top) in
    let '(error, t) := attach_loop (Z.to_nat descendant_count) tree ns attached_id (path_of target) included
      (Build_Attached t no_marks no_ids) in
    if negb (error =? 0) then (error, Some 0, t)
    else (0, Some attached_id, store_tree t tree_slot (attach_tree (at_slot (mount_trees t) tree_slot) ns attached_id target))
  end.

Definition AttachMountTree (t : PathStateTable) (tid tree_fd : Z) (target : option Path) : Outcome :=
  let fail error : Outcome := (error, Some 0, t) in
  if negb (IsPathStateInitialized t) || (tid <=? 0) || (tree_fd <? 0) then fail EINVAL
  else if negb (ValidateCanonicalPath target =? 0) then fail (ValidateCanonicalPath target)
  else for_task t tid false fail (fun task =>
    let ns := pt_mount_namespace_slot task in
    match FindIdentityUnchecked t (pt_fd_table_slot task) tree_fd with
    | None => fail EBADF
    | Some slot =>
      let r := at_slot (fd_identities t) slot in
      if negb (object_kind r =? kFdIdentityObjectMountTree) || (kPathStateMountTreeCapacity <=? object_slot r) then fail EBADF
      else
        let tree := at_slot (mount_trees t) (object_slot r) in
        if negb (in_use tree) || negb (mt_generation tree =? object_generation r) then fail ESTALE
        else if negb (attached_mount_id tree =? 0) then move_attached t tid ns (object_slot r) target
        else attach_detached t ns (object_slot r) target
    end).
