(* ===== verification/PathViews.v ===== *)
(** * Descriptors as Unix has them

    An abstract account of the descriptors of the path state: every task has a
    descriptor table, tasks may share one, and a table maps descriptors to
    descriptions. Each operation of tracer/path_state.h is specified here as
    the change the system call makes to that account; [view] reads the account
    from a table of the program. *)

From S2P Require Import Prelude SlotArray SlotPool GuestPath PathState PathStorage PathStateOps PathTaskOps PathFdOps PathStateInv.
From stdpp Require Import list.
#[local] Open Scope Z_scope.

(** The object of an identity as a descriptor [fd] with a mark refers to it;
    the slots it is stored in are not part of it. *)
Definition redescribed (r : FdIdentity) (fd mark : Z) : FdIdentity := {|
  fi_occupied := 1; fi_slot := 0; fi_fd_table_slot := 0; fi_fd := fd; fi_origin_flags := fi_origin_flags r;
  fi_directory := fi_directory r; fi_cloexec := mark; fi_reserved := fi_reserved r; fi_device := fi_device r;
  fi_inode := fi_inode r; fi_mount_namespace_slot := fi_mount_namespace_slot r; fi_reserved2 := fi_reserved2 r;
  fi_mount_namespace_identity := fi_mount_namespace_identity r;
  fi_mount_namespace_generation := fi_mount_namespace_generation r; object_kind := object_kind r;
  object_flags := object_flags r; object_slot := object_slot r; fi_reserved3 := fi_reserved3 r;
  object_generation := object_generation r; fi_guest_path := fi_guest_path r; fi_host_path := fi_host_path r |}.

(** The description of a descriptor, the close-on-exec mark read as a truth value. *)
Definition described (r : FdIdentity) : FdIdentity := redescribed r (fi_fd r) (if fi_cloexec r =? 0 then 0 else 1).

Record Unix := { table_of : Z -> option Z; entry : Z -> Z -> option FdIdentity }.

(** What [f] reads from the record that satisfies [P]. *)
Definition found {A K B} `{SlotRecord A K} `{Inhabited A} (P : A -> bool) (f : A -> B) (p : Pool A) : option B :=
  option_map (fun s => f (at_slot p s)) (search P p).

Definition of_task (tid : Z) (task : PathTaskState) : bool := pt_tid task =? tid.
Definition at_key (table fd : Z) (identity : FdIdentity) : bool := (fi_fd_table_slot identity =? table) && (fi_fd identity =? fd).
Definition tables_of (T : Pool PathTaskState) (tid : Z) : option Z := found (of_task tid) pt_fd_table_slot T.
Definition entries_of (I : Pool FdIdentity) (table fd : Z) : option FdIdentity := found (at_key table fd) described I.
Definition view (t : PathStateTable) : Unix := {| table_of := tables_of (tasks t); entry := entries_of (fd_identities t) |}.

(** What a task sees. *)
Definition seen (u : Unix) (tid fd : Z) : option FdIdentity :=
  match table_of u tid with Some table => entry u table fd | None => None end.

(** Equal for every task: the tables no task has are not looked at. *)
Definition same (u v : Unix) : Prop :=
  (forall tid, table_of u tid = table_of v tid) /\
  (forall tid table fd, table_of v tid = Some table -> entry u table fd = entry v table fd).

#[export] Instance same_equivalence : Equivalence same.
Proof.
  split; [by split| |].
  - intros u v [Ht He]. split; [done|]. intros tid table fd E. rewrite (He tid); [done|by rewrite <- Ht].
  - intros u v w [Ht He] [Ht' He']. split; [intros tid; by rewrite Ht|]. intros tid table fd E.
    rewrite (He tid), (He' tid); [done|done|by rewrite Ht'].
Qed.

#[export] Instance seen_proper : Proper (same ==> eq ==> eq ==> eq) seen.
Proof.
  intros u v [Ht He] tid _ <- fd _ <-. unfold seen. rewrite Ht. destruct (table_of v tid) as [x|] eqn:E; [|done]. by apply (He tid).
Qed.

(** No other task has the table [name]. *)
Definition private (u : Unix) (tid name : Z) : Prop := forall other, table_of u other = Some name -> other = tid.

(** ** The operations *)

Definition assign (tid : Z) (table : option Z) (u : Unix) : Unix :=
  {| table_of := fun x => if x =? tid then table else table_of u x; entry := entry u |}.
Definition define (name : Z) (f : Z -> option FdIdentity) (u : Unix) : Unix :=
  {| table_of := table_of u; entry := fun x => if x =? name then f else entry u x |}.

(** The task gets the table [name], with what [keep] leaves of its entries. *)
Definition own (tid name : Z) (keep : FdIdentity -> option FdIdentity) (u : Unix) : Unix :=
  assign tid (Some name) (define name (fun fd => match seen u tid fd with Some d => keep d | None => None end) u).

(** A change of the table of the task, which all the tasks that share it see. *)
Definition revise (tid : Z) (f : (Z -> option FdIdentity) -> Z -> option FdIdentity) (u : Unix) : Unix :=
  match table_of u tid with Some x => define x (f (entry u x)) u | None => u end.

Definition with_mark (d : FdIdentity) (mark : Z) : FdIdentity := redescribed d (fi_fd d) mark.

(** The table of the new task is empty. *)
Definition unix_insert (tid name : Z) (u : Unix) : Unix := assign tid (Some name) (define name (fun _ => None) u).
(** A clone shares the table of its parent with CLONE_FILES, else it gets a copy. *)
Definition unix_clone (parent child flags name : Z) (u : Unix) : Unix :=
  if has flags kPathCloneFiles then assign child (table_of u parent) u
  else assign child (Some name) (define name (seen u parent) u).
Definition unix_remove (tid : Z) (u : Unix) : Unix := assign tid None u.
(** The thread that execs takes the identifier of the leader, whose table is dropped. *)
Definition unix_migrate (former_tid new_tid : Z) (u : Unix) : Unix :=
  if former_tid =? new_tid then u else assign former_tid None (assign new_tid (table_of u former_tid) u).
(** exec gives the task a table of its own, without the close-on-exec entries. *)
Definition unix_exec (tid name : Z) (u : Unix) : Unix :=
  own tid name (fun d => if fi_cloexec d =? 0 then Some d else None) u.
Definition unix_unshare (tid flags name : Z) (u : Unix) : Unix :=
  if has flags kPathCloneFiles then own tid name Some u else u.
Definition unix_record (tid fd : Z) (d : FdIdentity) (u : Unix) : Unix :=
  revise tid (fun e x => if x =? fd then Some d else e x) u.
(** dup of an unknown descriptor closes the new one. *)
Definition unix_duplicate (tid old_fd new_fd : Z) (cloexec : bool) (u : Unix) : Unix :=
  if old_fd =? new_fd then u
  else revise tid (fun e x => if x =? new_fd
    then option_map (fun d => redescribed d new_fd (if cloexec then 1 else 0)) (e old_fd) else e x) u.
Definition unix_close (tid fd : Z) (u : Unix) : Unix := revise tid (fun e x => if x =? fd then None else e x) u.
Definition unix_set_cloexec (tid fd : Z) (cloexec : bool) (u : Unix) : Unix :=
  revise tid (fun e x => if x =? fd then option_map (fun d => with_mark d (if cloexec then 1 else 0)) (e x) else e x) u.

(** What close_range leaves of a descriptor: outside of the range all of it, inside it is marked or closed. *)
Definition range_keeps (preserve : bool) (first last flags : Z) (d : FdIdentity) : option FdIdentity :=
  if negb (FdInRange (fi_fd d) first last) then Some d
  else if has flags kPathCloseRangeCloexec then Some (with_mark d 1)
  else if preserve && identity_protected d then Some d else None.
Definition unix_close_range (preserve : bool) (tid first last flags name : Z) (u : Unix) : Unix :=
  let keep := range_keeps preserve first last flags in
  if has flags kPathCloseRangeUnshare then own tid name keep u
  else revise tid (fun e x => match e x with Some d => keep d | None => None end) u.

(** What RecordFdIdentity stores for a task. *)
Definition recorded (t : PathStateTable) (tid fd : Z) (spec : FdIdentitySpec) : FdIdentity :=
  match GetTaskMountNamespace t tid with
  | Some n => described (FillIdentity 0 0 fd spec (mn_slot n) (mn_identity_generation n) (mn_generation n))
  | None => ClearFdIdentity 0
  end.

(** What the copy of a table takes of a description. *)
Definition passes (mode : FdCopyMode) (first last : Z) (d : FdIdentity) : option FdIdentity :=
  if ShouldCopyIdentity d mode first last then Some (with_mark d (copied_cloexec mode first last d)) else None.

(** *** Descriptions *)

Lemma mark_zero c : ((if c =? 0 then 0 else 1) =? 0) = (c =? 0).
Proof. by destruct (c =? 0). Qed.

Lemma described_twice r : described (described r) = described r.
Proof. unfold described. cbn [redescribed fi_cloexec fi_fd]. by rewrite mark_zero. Qed.

Lemma with_own_mark d : described d = d -> with_mark d (fi_cloexec d) = d.
Proof. intros <-. done. Qed.

Lemma should_copy_described mode first last r : ShouldCopyIdentity (described r) mode first last = ShouldCopyIdentity r mode first last.
Proof. destruct mode; try done. apply mark_zero. Qed.

Lemma copied_described mode first last r s table :
  described (copied_identity r s table (fi_fd r) (copied_cloexec mode first last r)) =
  with_mark (described r) (copied_cloexec mode first last (described r)).
Proof.
  destruct mode; try done; unfold copied_cloexec; change (fi_fd (described r)) with (fi_fd r); by destruct (FdInRange (fi_fd r) first last).
Qed.

(** ** Reading the arrays of the program *)

Section Found.
Context {A K B : Type} `{SlotRecord A K} `{Inhabited A} {cap : Z} {vacant entry : A -> Prop}.
Variables (P : A -> bool) (f : A -> B).
(** The property of a single key. *)
Hypothesis one_key : forall r r', P r = true -> P r' = true -> sr_key r = sr_key r'.

Lemma found_Some (p : Pool A) x : pool_ok cap vacant entry p ->
  found P f p = Some x <-> exists s r, get p s = Some r /\ P r = true /\ f r = x.
Proof.
  intros Hok. unfold found. split.
  - destruct (search P p) as [s|] eqn:E; [|done]. cbn [option_map]. intros [= <-].
    apply (search_Some Hok) in E as (r & Hr & HP). exists s, r. by rewrite (get_at Hok _ _ Hr).
  - intros (s & r & Hr & HP & Hx). rewrite (search_found Hok _ s r Hr HP).
    + cbn [option_map]. by rewrite (get_at Hok _ _ Hr), Hx.
    + intros s' r' Hr' HP'. apply (get_unique Hok _ _ _ _ Hr' Hr). by apply one_key.
Qed.

Lemma found_None (p : Pool A) : pool_ok cap vacant entry p -> (forall s r, get p s = Some r -> P r = false) -> found P f p = None.
Proof.
  intros Hok Hn. destruct (found P f p) as [x|] eqn:E; [|done]. apply (found_Some p x Hok) in E as (s & r & Hr & HP & _).
  by rewrite (Hn s r Hr) in HP.
Qed.

Lemma found_same (p p' : Pool A) : pool_ok cap vacant entry p -> pool_ok cap vacant entry p' ->
  (forall s r, P r = true -> get p' s = Some r <-> get p s = Some r) -> found P f p' = found P f p.
Proof.
  intros Hok Hok' Hs. apply option_eq. intros x. rewrite (found_Some p x Hok), (found_Some p' x Hok').
  split; intros (s & r & Hr & HP & Hx); exists s, r; by rewrite (Hs s r HP) in *.
Qed.

Definition holds (o : option A) : bool := match o with Some r => P r | None => false end.

(** One slot changed. *)
Lemma found_change (p p' : Pool A) slot o o' : pool_ok cap vacant entry p -> pool_ok cap vacant entry p' -> get p slot = o ->
  (forall s, get p' s = if decide (s = slot) then o' else get p s) ->
  found P f p' = if holds o' then option_map f o' else if holds o then None else found P f p.
Proof.
  intros Hok Hok' Ho Hs. destruct (holds o') eqn:E'; unfold holds in *.
  - destruct o' as [r'|]; [|done]. cbn [option_map]. apply (found_Some p' _ Hok'). exists slot, r'. by rewrite Hs, decide_True.
  - destruct o as [r|]; [destruct (P r) eqn:E|].
    + apply (found_None p' Hok'). intros s r0. rewrite Hs. destruct (decide _) as [|Hne]; [intros ->; by rewrite E'|].
      intros Hr0. destruct (P r0) eqn:E0; [|done]. destruct Hne. apply (get_unique Hok _ _ _ _ Hr0 Ho). by apply one_key.
    + apply found_same; [done..|]. intros s r0 E0. rewrite Hs. destruct (decide _) as [->|]; [|done]. rewrite Ho.
      split; intros Hx; [rewrite Hx in E'|injection Hx as ->]; congruence.
    + apply found_same; [done..|]. intros s r0 E0. rewrite Hs. destruct (decide _) as [->|]; [|done]. rewrite Ho.
      split; [intros Hx; rewrite Hx in E'; congruence|done].
Qed.
End Found.

(** *** Tasks *)

Lemma of_task_key tid r r' : of_task tid r = true -> of_task tid r' = true -> sr_key r = sr_key r'.
Proof. unfold of_task. cbn. lia. Qed.

Lemma at_key_key table fd r r' : at_key table fd r = true -> at_key table fd r' = true -> sr_key r = sr_key r'.
Proof. unfold at_key. cbn. intros [? ?]%andb_true_iff [? ?]%andb_true_iff. f_equal; lia. Qed.

(** What happens to the tables of the tasks when the record of one slot changes. *)
Lemma tables_change {g g' t t'} slot o o' tid : Inv g t -> Inv g' t' -> get (tasks t) slot = o ->
  (forall s, get (tasks t') s = if decide (s = slot) then o' else get (tasks t) s) ->
  table_of (view t') tid = if holds (of_task tid) o' then option_map pt_fd_table_slot o'
    else if holds (of_task tid) o then None else table_of (view t) tid.
Proof. intros H H' Ho Hs. exact (found_change (of_task tid) _ (of_task_key tid) _ _ slot o o' (iv_tasks _ _ H) (iv_tasks _ _ H') Ho Hs). Qed.

Lemma table_of_task {g t} slot r : Inv g t -> get (tasks t) slot = Some r -> table_of (view t) (pt_tid r) = Some (pt_fd_table_slot r).
Proof.
  intros H Hr. apply (found_Some _ _ (of_task_key _) _ _ (iv_tasks _ _ H)). exists slot, r. split; [done|]. split; [|done]. apply Z.eqb_refl.
Qed.

Lemma task_of_table {g t} tid x : Inv g t -> table_of (view t) tid = Some x ->
  exists slot r, get (tasks t) slot = Some r /\ pt_tid r = tid /\ pt_fd_table_slot r = x.
Proof.
  intros H E. apply (found_Some _ _ (of_task_key _) _ _ (iv_tasks _ _ H)) in E as (s & r & Hr & Ht%Z.eqb_eq & Hx). by exists s, r.
Qed.

(** The table a task has is in use. *)
Lemma table_in_use {g t} tid x : Inv g t -> table_of (view t) tid = Some x -> is_some (get (fd_tables t) x) = true.
Proof. intros H E. destruct (task_of_table tid x H E) as (s & r & Hr & _ & <-). destruct (task_table H _ _ Hr) as [d Hd]. by rewrite Hd. Qed.

(** *** Descriptors *)

Lemma entry_Some {g t} table fd d : Inv g t -> entry (view t) table fd = Some d <->
  exists s r, get (fd_identities t) s = Some r /\ (fi_fd_table_slot r = table /\ fi_fd r = fd) /\ described r = d.
Proof.
  intros H. unfold view. cbn [entry]. unfold entries_of. rewrite (found_Some _ _ (at_key_key _ _) _ _ (iv_identities _ _ H)).
  split; intros (s & r & Hr & Hk & Hd); exists s, r; (split; [done|]); (split; [|done]); unfold at_key in *; lia.
Qed.

Lemma entry_change {g g' t t'} slot o o' table fd : Inv g t -> Inv g' t' -> get (fd_identities t) slot = o ->
  (forall s, get (fd_identities t') s = if decide (s = slot) then o' else get (fd_identities t) s) ->
  entry (view t') table fd = if holds (at_key table fd) o' then option_map described o'
    else if holds (at_key table fd) o then None else entry (view t) table fd.
Proof. intros H H' Ho Hs. exact (found_change (at_key table fd) _ (at_key_key table fd) _ _ slot o o' (iv_identities _ _ H) (iv_identities _ _ H') Ho Hs). Qed.

(** Every identity stays, changes in its slot or goes, by what its description says. *)
Lemma entry_map {g g' t t'} (f : FdIdentity -> option FdIdentity) (k : Z -> FdIdentity -> option FdIdentity) table fd : Inv g t -> Inv g' t' ->
  (forall s, get (fd_identities t') s = match get (fd_identities t) s with Some r => f r | None => None end) ->
  (forall r, match f r with Some r' => fi_fd_table_slot r' = fi_fd_table_slot r /\ fi_fd r' = fi_fd r | None => True end) ->
  (forall r, option_map described (f r) = k (fi_fd_table_slot r) (described r)) ->
  entry (view t') table fd = match entry (view t) table fd with Some d => k table d | None => None end.
Proof.
  intros H H' Hs Hkey Hd. apply option_eq. intros d. rewrite (entry_Some _ _ _ H'). split.
  - intros (s & r' & Hr' & [Ht Hf] & <-). rewrite Hs in Hr'. destruct (get (fd_identities t) s) as [r|] eqn:Hr; [|done].
    pose proof (Hkey r) as Hk. pose proof (Hd r) as Hdr. rewrite Hr' in Hk, Hdr. destruct Hk as [E1 E2].
    assert (entry (view t) table fd = Some (described r)) as ->.
    { apply (entry_Some _ _ _ H). exists s, r. split; [done|]. by split; [split; congruence|]. }
    rewrite <- Ht, E1, <- Hdr. done.
  - destruct (entry (view t) table fd) as [d0|] eqn:E; [|done]. apply (entry_Some _ _ _ H) in E as (s & r & Hr & [<- <-] & <-).
    rewrite <- Hd. intros Hx. pose proof (Hkey r) as Hk. destruct (f r) as [r'|] eqn:Ef; [|done]. injection Hx as <-.
    exists s, r'. by rewrite Hs, Hr.
Qed.

(** One key changed. *)
Lemma entry_set {g g' t t'} slot o o' table fd x y : Inv g t -> Inv g' t' -> get (fd_identities t) slot = o ->
  (forall s, get (fd_identities t') s = if decide (s = slot) then o' else get (fd_identities t) s) ->
  (forall r, o = Some r \/ o' = Some r -> fi_fd_table_slot r = table /\ fi_fd r = fd) -> o <> None \/ o' <> None ->
  entry (view t') x y = if (x =? table) && (y =? fd) then option_map described o' else entry (view t) x y.
Proof.
  intros H H' Ho Hs Hk Hn. rewrite (entry_change slot o o' x y H H' Ho Hs).
  assert (forall p r, p = Some r -> p = o \/ p = o' -> holds (at_key x y) p = (x =? table) && (y =? fd)) as Hh.
  { intros p r -> Hp. cbn [holds]. unfold at_key. destruct (Hk r) as [-> ->]; [destruct Hp as [-> | ->]; auto|].
    by rewrite (Z.eqb_sym table), (Z.eqb_sym fd). }
  destruct o' as [r'|].
  - rewrite (Hh (Some r') r') by auto. destruct (_ && _) eqn:E; [done|]. destruct o as [r|]; [|done]. by rewrite (Hh (Some r) r) by auto.
  - cbn [holds option_map]. destruct o as [r|]; [|by destruct Hn]. by rewrite (Hh (Some r) r) by auto.
Qed.

(** The identities of the tables that remain. *)
Record Files (t t' : PathStateTable) : Prop := {
  fl_tables : forall x, is_some (get (fd_tables t') x) = true -> is_some (get (fd_tables t) x) = true;
  fl_gone : forall s r, get (fd_identities t') s = Some r -> get (fd_identities t) s = Some r;
  fl_stay : forall s r, get (fd_identities t) s = Some r -> is_some (get (fd_tables t') (fi_fd_table_slot r)) = true ->
    get (fd_identities t') s = Some r }.

#[export] Instance files_preorder : PreOrder Files.
Proof. split; [by split|]. intros t1 t2 t3 [A1 A2 A3] [B1 B2 B3]. split; [auto|auto|]. intros s r Hr Hx. apply B3; [|done]. apply A3; auto. Qed.

Lemma files_same t t' : fd_tables t' = fd_tables t -> fd_identities t' = fd_identities t -> Files t t'.
Proof. intros E1 E2. split; rewrite ?E1, ?E2; auto. Qed.

Lemma files_entry {g g' t t'} table fd : Inv g t -> Inv g' t' -> Files t t' -> is_some (get (fd_tables t') table) = true ->
  entry (view t') table fd = entry (view t) table fd.
Proof.
  intros H H' [_ Hg Hst] Hx. apply (found_same _ _ (at_key_key table fd) _ _ (iv_identities _ _ H) (iv_identities _ _ H')).
  intros s r Hk. unfold at_key in Hk. split; [apply Hg|]. intros Hr. apply Hst; [done|]. by replace (fi_fd_table_slot r) with table by lia.
Qed.

(** ** Showing what an operation did *)

(** The operation of a task did [f], for a table name no other task has. *)
Definition does (t : PathStateTable) (tid : Z) (f : Z -> Unix -> Unix) (t' : PathStateTable) : Prop :=
  exists name, private (view t) tid name /\ same (view t') (f name (view t)).

Lemma does_noted t tid f t' : does t tid f t' -> does t tid f (NoteMutation t').
Proof. done. Qed.

Lemma does_same t tid f t1 t2 : does t tid f t1 -> same (view t2) (view t1) -> does t tid f t2.
Proof. intros (name & Hp & Hs) E. exists name. split; [exact Hp|]. etrans; [exact E|exact Hs]. Qed.

Lemma same_intro {g t} v : Inv g t -> (forall tid, table_of (view t) tid = table_of v tid) ->
  (forall table fd, is_some (get (fd_tables t) table) = true -> entry (view t) table fd = entry v table fd) -> same (view t) v.
Proof. intros H Ht He. split; [done|]. intros tid table fd E. apply He. apply (table_in_use tid _ H). by rewrite Ht. Qed.

Lemma free_private {g t} tid x : Inv g t -> find_free (fd_tables t) = Some x -> private (view t) tid x.
Proof.
  intros H Hf other E. apply (table_in_use _ _ H) in E. destruct (find_free_Some (iv_tables _ _ H) _ Hf) as (_ & Hn & _). by rewrite Hn in E.
Qed.

Lemma free_empty {g t} x fd : Inv g t -> get (fd_tables t) x = None -> entry (view t) x fd = None.
Proof.
  intros H Hn. destruct (entry (view t) x fd) as [d|] eqn:E; [|done]. apply (entry_Some _ _ _ H) in E as (s & r & Hr & [<- _] & _).
  destruct (identity_table H _ _ Hr) as [o Ho]. congruence.
Qed.

(** A table with a single reference. *)
Lemma alone_private {m t} slot r o : Inv (settled m) t -> get (tasks t) slot = Some r -> get (fd_tables t) (pt_fd_table_slot r) = Some o ->
  ft_refcount o <= 1 -> private (view t) (pt_tid r) (pt_fd_table_slot r).
Proof.
  intros H Hr Ho Hc other E. apply (task_of_table _ _ H) in E as (s & r' & Hr' & <- & E).
  pose proof (iv_fd_refs _ _ H (pt_fd_table_slot r)) as Hn. rewrite (field_get _ _ _ Ho) in Hn. cbn [settled g_fd held] in Hn.
  assert (s = slot) as ->; [|congruence].
  apply (count_if_one (iv_tasks _ _ H) (uses_fd (pt_fd_table_slot r)) slot s r r' ltac:(lia) Hr); [apply Z.eqb_refl|exact Hr'|].
  unfold uses_fd. by rewrite E, Z.eqb_refl.
Qed.

(** An operation that needs no name. *)
Lemma does_unnamed {g t} tid f t' : Inv g t -> same (view t') (f (view t)) -> does t tid (fun _ => f) t'.
Proof.
  intros H Hs. exists (-1). split; [|done]. intros other E. apply (table_in_use _ _ H) in E.
  destruct (get (fd_tables t) (-1)) as [o|] eqn:Ho; [|done]. by pose proof (get_range (iv_tables _ _ H) _ _ Ho).
Qed.

Lemma entry_described {g t} table fd d : Inv g t -> entry (view t) table fd = Some d -> described d = d.
Proof. intros H E. apply (entry_Some _ _ _ H) in E as (s & r & _ & _ & <-). apply described_twice. Qed.

(** A table of its own, when the task is alone in its table. *)
Lemma own_in_place u tid x keep : table_of u tid = Some x ->
  same (own tid x keep u) (revise tid (fun e fd => match e fd with Some d => keep d | None => None end) u).
Proof.
  intros E. unfold revise. rewrite E. split; cbn [own assign define table_of entry].
  - intros other. destruct (Z.eqb_spec other tid) as [->|]; [by rewrite E|done].
  - intros other y fd _. destruct (y =? x); [|done]. unfold seen. by rewrite E.
Qed.

Lemma own_nothing u tid x : table_of u tid = Some x -> same u (own tid x Some u).
Proof.
  intros E. split; cbn [own assign define table_of entry].
  - intros other. destruct (Z.eqb_spec other tid) as [->|]; [by rewrite E|done].
  - intros other y fd _. destruct (Z.eqb_spec y x) as [->|]; [|done]. unfold seen. rewrite E. by destruct (entry u x fd).
Qed.

Lemma own_ext {g t} tid name keep keep' : Inv g t -> (forall d, described d = d -> keep d = keep' d) ->
  same (own tid name keep (view t)) (own tid name keep' (view t)).
Proof.
  intros H Hk. split; [done|]. cbn [own assign define table_of entry]. intros other y fd _. destruct (y =? name); [|done].
  destruct (seen (view t) tid fd) as [d|] eqn:E; [|done]. apply Hk. unfold seen in E. destruct (table_of _ _); [|done].
  exact (entry_described _ _ _ H E).
Qed.

(** The tables of the tasks are as they were, and the identities too. *)
Lemma same_files {g g' t t'} : Inv g t -> Inv g' t' -> (forall tid, table_of (view t') tid = table_of (view t) tid) -> Files t t' ->
  same (view t') (view t).
Proof. intros H H' Ht HF. apply (same_intro _ H' Ht). intros table fd Hx. by apply (files_entry _ _ H H' HF). Qed.

(** A change of one table. *)
Lemma revised {g g' t t'} slot r f : Inv g t -> Inv g' t' -> tasks t' = tasks t -> get (tasks t) slot = Some r ->
  (forall x y, entry (view t') x y = if x =? pt_fd_table_slot r then f (entry (view t) (pt_fd_table_slot r)) y else entry (view t) x y) ->
  same (view t') (revise (pt_tid r) f (view t)).
Proof.
  intros H H' Et Hr He. unfold revise. rewrite (table_of_task slot r H Hr). apply (same_intro _ H').
  - intros tid. unfold view. cbn [define table_of]. by rewrite Et.
  - intros x y _. rewrite He. cbn [define entry]. by destruct (x =? _).
Qed.
