(* ===== verification/PathSteps.v ===== *)
(** * Primitive changes of the path state

    What storing one record, taking a slot and giving one back does to the
    invariant: which references it consumes and which it leaves with the
    running code. *)

From S2P Require Import Prelude SlotArray SlotPool GuestPath PathState PathStorage PathStateOps PathTaskOps PathStateInv.
From stdpp Require Import list.
#[local] Open Scope Z_scope.

(** The fields of a changed table, and the clauses that are not affected. *)
Ltac inv_cbn := cbn [with_tasks with_fs with_fd_tables with_identities with_namespaces with_bindings with_trees NoteMutation
  put_task magic version reserved_count reserved_hint reserved mutation_generation tasks fs_contexts fd_tables fd_identities
  mount_namespaces mount_bindings mount_trees g_fs g_fd g_ns g_handles g_trees g_open_table g_open_namespace g_generation
  g_identities].
Ltac inv_keep H := first
  [ exact (iv_magic _ _ H) | exact (iv_reserved _ _ H) | exact (iv_tasks _ _ H) | exact (iv_contexts _ _ H)
  | exact (iv_tables _ _ H) | exact (iv_identities _ _ H) | exact (iv_namespaces _ _ H) | exact (iv_bindings _ _ H)
  | exact (iv_trees _ _ H) | exact (iv_fs_refs _ _ H) | exact (iv_fd_refs _ _ H) | exact (iv_ns_refs _ _ H)
  | exact (iv_handle_refs _ _ H) | exact (iv_tree_refs _ _ H) | exact (iv_entries _ _ H) | exact (iv_protected _ _ H)
  | exact (iv_mounts _ _ H) | exact (iv_total _ _ H) | exact (iv_fs_live _ _ H) | exact (iv_fd_live _ _ H)
  | exact (iv_ns_live _ _ H) | exact (iv_tree_live _ _ H) | exact (iv_share _ _ H) | exact (iv_known _ _ H)
  | exact (iv_generation _ _ H) | exact (iv_source _ _ H) | exact (iv_attached _ _ H) | exact (iv_walk _ _ H)
  | exact (iv_current _ _ H) | exact (iv_bound _ _ H) | exact (iv_ids _ _ H) | exact (iv_roots _ _ H)
  | exact (iv_distinct _ _ H) | exact (iv_handles _ _ H) ].
Ltac inv_step H := constructor; inv_cbn; try inv_keep H.

(** Counts: the cases of the slots compared. *)
Ltac slots := unfold one, uses_fs, uses_fd, uses_ns, in_table, in_namespace, handle_of in *; repeat (first
  [ match goal with |- context [decide (?a = ?b)] => destruct (decide (a = b)) as [?Heq|?Hneq]; [subst|] end
  | match goal with |- context [?a =? ?b] => destruct (Z.eqb_spec a b) as [?Heq|?Hneq]; [try subst|] end
  | match goal with H : context [?a =? ?b] |- _ => destruct (Z.eqb_spec a b) as [?Heq|?Hneq]; [try subst|] end ]); cbn [andb];
  try lia; try congruence.

Section Steps.
Context {f d n h i : list Z} {xt xn : option Z} {m b : Z} {t : PathStateTable}.

Lemma note_mutation : Inv (Held f d n h i xt xn m b) t -> 0 <= m < 2 ^ 64 - 1 ->
  Inv (Held f d n h i xt xn (m + 1) b) (NoteMutation t).
Proof.
  intros H Hm. inv_step H. rewrite (iv_current _ _ H). cbn [g_generation]. unfold NextGeneration.
  rewrite u64_small by lia. by replace (m + 1 =? 0) with false by lia.
Qed.

Lemma weaken_bound b' : Inv (Held f d n h i xt xn m b) t -> b <= b' -> Inv (Held f d n h i xt xn m b') t.
Proof.
  intros H Hb. inv_step H; intros s r Hr.
  - pose proof (iv_bound _ _ H s r Hr). cbn in *. lia.
  - pose proof (iv_ids _ _ H s r Hr). cbn in *. lia.
  - pose proof (iv_roots _ _ H s r Hr). cbn in *. lia.
  - pose proof (iv_handles _ _ H s r Hr). cbn in *. lia.
Qed.

(** ** Filesystem contexts *)

Lemma free_context s : Inv (Held f d n h i xt xn m b) t -> find_free (fs_contexts t) = Some s ->
  count_if (uses_fs s) (tasks t) = 0 /\ held f s = 0.
Proof.
  intros H Hf. pose proof (iv_fs_refs _ _ H s) as Hc. rewrite (field_free (iv_contexts _ _ H) _ _ Hf) in Hc.
  pose proof (held_nonneg f s). pose proof (count_if_bounds (iv_tasks _ _ H) (uses_fs s)). cbn in Hc. lia.
Qed.

Lemma occupy_fs s c : Inv (Held f d n h i xt xn m b) t -> find_free (fs_contexts t) = Some s -> fs_occupied c = 1 ->
  fs_slot c = s -> fs_refcount c = 1 -> fs_fields c = true ->
  Inv (Held (s :: f) d n h i xt xn m b) (with_fs t (occupy (fs_contexts t) s c)).
Proof.
  intros H Hf Ho Hs Hr He. destruct (free_context s H Hf) as [Hz Hh]. pose proof (iv_contexts _ _ H) as Hok.
  destruct (find_free_Some Hok _ Hf) as (_ & Hn & _). assert (in_use c = true) as Hu by (unfold in_use; cbn; by rewrite Ho).
  inv_step H.
  - apply (pool_ok_occupy Hok); try done. intros s' r Hg. destruct (get_entry Hok _ _ Hg) as [_ E]. cbn in E |- *.
    rewrite E, Hs. intros ->. congruence.
  - intros x. rewrite (field_occupy Hok _ _ _ Hf Hu). cbn [held]. pose proof (iv_fs_refs _ _ H x) as Hc. cbn in Hc. slots.
  - intros x c'. rewrite (get_occupy Hok _ _ Hf Hu). destruct (decide _); [intros [= <-]; lia|exact (iv_fs_live _ _ H _ _)].
  - intros x r c' Hg. rewrite (get_occupy Hok _ _ Hf Hu). destruct (decide _) as [E|].
    + exfalso. destruct (task_context H _ _ Hg) as [c0 Hc0]. congruence.
    + exact (iv_known _ _ H _ _ _ ltac:(eassumption)).
Qed.

(** A context stored with other counts or other directories. *)
Lemma put_fs f' s c c' : Inv (Held f d n h i xt xn m b) t -> get (fs_contexts t) s = Some c -> fs_occupied c' = fs_occupied c ->
  fs_slot c' = s -> fs_fields c' = true -> 0 < fs_refcount c' ->
  (forall x, held f' x = held f x + one (x =? s) * (fs_refcount c' - fs_refcount c)) ->
  (forall s' r, get (tasks t) s' = Some r -> pt_fs_context_slot r = s ->
    known (mount_namespaces t) (mount_bindings t) (pt_mount_namespace_slot r) (cwd_mount_id c') /\
    known (mount_namespaces t) (mount_bindings t) (pt_mount_namespace_slot r) (fs_root_mount_id c')) ->
  Inv (Held f' d n h i xt xn m b) (with_fs t (put (fs_contexts t) s c')).
Proof.
  intros H Hg Ho Hs He Hr Hh Hk. pose proof (iv_contexts _ _ H) as Hok.
  destruct (stays_in_use Hok s c c' Hg Ho) as [Hu Hle]. inv_step H.
  - apply (pool_ok_put Hok _ _ _ Hg); try done. intros s' r Hg' E. destruct (get_entry Hok _ _ Hg') as [_ Es].
    cbn in *. congruence.
  - intros x. rewrite (field_put Hok _ _ _ _ Hg Hu), Hh. pose proof (iv_fs_refs _ _ H x) as Hc. cbn in Hc.
    unfold field in *. slots. rewrite Hg in Hc. lia.
  - intros x c0. rewrite (get_put Hok _ _ _ Hg Hu). destruct (decide _); [intros [= <-]; lia|exact (iv_fs_live _ _ H _ _)].
  - intros x r c0 Hr0. rewrite (get_put Hok _ _ _ Hg Hu). destruct (decide _) as [E|].
    + intros [= <-]. by apply (Hk x).
    + exact (iv_known _ _ H _ _ _ ltac:(eassumption)).
Qed.

Lemma vacate_fs s c : Inv (Held (s :: f) d n h i xt xn m b) t -> get (fs_contexts t) s = Some c -> fs_refcount c = 1 ->
  Inv (Held f d n h i xt xn m b) (EraseFsContextSlot t s).
Proof.
  intros H Hg Hr. pose proof (iv_contexts _ _ H) as Hok. pose proof (iv_fs_refs _ _ H s) as Hz.
  rewrite (field_get _ _ _ Hg), Hr in Hz. cbn [g_fs held] in Hz. pose proof (held_nonneg f s).
  pose proof (count_if_bounds (iv_tasks _ _ H) (uses_fs s)). unfold one in Hz. rewrite Z.eqb_refl in Hz.
  assert (count_if (uses_fs s) (tasks t) = 0) as Hn by lia. rewrite (count_if_zero (iv_tasks _ _ H)) in Hn.
  unfold EraseFsContextSlot. inv_step H.
  - by apply (pool_ok_vacate Hok _ c).
  - intros x. rewrite (field_vacate Hok _ _ _ _ Hg) by done. pose proof (iv_fs_refs _ _ H x) as Hc. cbn in Hc. slots.
  - intros x c0. rewrite (get_vacate Hok _ _ _ Hg) by done. destruct (decide _); [done|exact (iv_fs_live _ _ H _ _)].
  - intros x r c0 Hr0. rewrite (get_vacate Hok _ _ _ Hg) by done. destruct (decide _) as [E|]; [done|]. exact (iv_known _ _ H _ _ _ ltac:(eassumption)).
Qed.
(** ** Tasks *)

(** A task takes over the references of the running code. *)
Lemma occupy_task s tid f0 d0 n0 generation : Inv (Held (f0 :: f) (d0 :: d) (n0 :: n) h i xt xn m b) t ->
  find_free (tasks t) = Some s -> 0 < tid -> generation <> 0 ->
  (forall s' r, get (tasks t) s' = Some r -> pt_tid r <> tid) ->
  (forall s' r, get (tasks t) s' = Some r -> pt_fs_context_slot r = f0 -> pt_mount_namespace_slot r = n0) ->
  (forall c, get (fs_contexts t) f0 = Some c -> known (mount_namespaces t) (mount_bindings t) n0 (cwd_mount_id c) /\
    known (mount_namespaces t) (mount_bindings t) n0 (fs_root_mount_id c)) ->
  Inv (Held f d n h i xt xn m b) (OccupyTask t s tid f0 d0 n0 generation).
Proof.
  intros H Hf Ht Hgen Hk Hsh Hkn. pose proof (iv_tasks _ _ H) as Hok. unfold OccupyTask.
  set (r0 := Build_PathTaskState _ _ _ _ _ _ _ _ _). assert (in_use r0 = true) as Hu by done. inv_step H.
  - apply (pool_ok_occupy Hok); try done. unfold task_fields. cbn. unfold zero.
    rewrite !andb_true_iff. split_and!; try done; lia.
  - intros x. rewrite (count_occupy Hok _ _ _ Hf Hu). change (uses_fs x r0) with (f0 =? x).
    pose proof (iv_fs_refs _ _ H x) as Hc. cbn [held g_fs g_fd g_ns] in Hc |- *. lia.
  - intros x. rewrite (count_occupy Hok _ _ _ Hf Hu). change (uses_fd x r0) with (d0 =? x).
    pose proof (iv_fd_refs _ _ H x) as Hc. cbn [held g_fs g_fd g_ns] in Hc |- *. lia.
  - intros x. rewrite (count_occupy Hok _ _ _ Hf Hu). change (uses_ns x r0) with (n0 =? x).
    pose proof (iv_ns_refs _ _ H x) as Hc. cbn [held g_fs g_fd g_ns] in Hc |- *. lia.
  - intros x x' r r'. rewrite !(get_occupy Hok _ _ Hf Hu). destruct (decide _), (decide _).
    + intros [= <-] [= <-]. done.
    + intros [= <-] Hg. cbn. intros E. by rewrite (Hsh _ _ Hg).
    + intros Hg [= <-]. cbn. intros E. by apply (Hsh _ _ Hg).
    + apply (iv_share _ _ H).
  - intros x r c. rewrite (get_occupy Hok _ _ Hf Hu). destruct (decide _).
    + intros [= <-]. cbn. apply Hkn.
    + exact (iv_known _ _ H _ _ _).
Qed.

(** A task that leaves hands over its references. *)
Lemma vacate_task s r : Inv (Held f d n h i xt xn m b) t -> get (tasks t) s = Some r ->
  Inv (Held (pt_fs_context_slot r :: f) (pt_fd_table_slot r :: d) (pt_mount_namespace_slot r :: n) h i xt xn m b)
    (EraseTaskSlot t s).
Proof.
  intros H Hg. pose proof (iv_tasks _ _ H) as Hok. unfold EraseTaskSlot. inv_step H.
  - by apply (pool_ok_vacate Hok _ r).
  - intros x. rewrite (count_vacate Hok _ _ _ _ Hg) by done. pose proof (iv_fs_refs _ _ H x) as Hc. unfold uses_fs at 2. cbn [held g_fs g_fd g_ns] in Hc |- *. lia.
  - intros x. rewrite (count_vacate Hok _ _ _ _ Hg) by done. pose proof (iv_fd_refs _ _ H x) as Hc. unfold uses_fd at 2. cbn [held g_fs g_fd g_ns] in Hc |- *. lia.
  - intros x. rewrite (count_vacate Hok _ _ _ _ Hg) by done. pose proof (iv_ns_refs _ _ H x) as Hc. unfold uses_ns at 2. cbn [held g_fs g_fd g_ns] in Hc |- *. lia.
  - intros x x' r1 r2. rewrite !(get_vacate Hok _ _ _ Hg) by done. destruct (decide _), (decide _); try done. apply (iv_share _ _ H).
  - intros x r1 c. rewrite (get_vacate Hok _ _ _ Hg) by done. destruct (decide _); [done|]. exact (iv_known _ _ H _ _ _).
Qed.

(** A task that changes its references or its identifier. *)
Lemma put_task_step f' d' n' s r r' : Inv (Held f d n h i xt xn m b) t -> get (tasks t) s = Some r ->
  pt_occupied r' = pt_occupied r -> pt_slot r' = s -> task_fields r' = true ->
  (forall s' r0, get (tasks t) s' = Some r0 -> pt_tid r0 = pt_tid r' -> s' = s) ->
  (forall x, held f' x + one (uses_fs x r') = held f x + one (uses_fs x r)) ->
  (forall x, held d' x + one (uses_fd x r') = held d x + one (uses_fd x r)) ->
  (forall x, held n' x + one (uses_ns x r') = held n x + one (uses_ns x r)) ->
  (forall s' r0, get (tasks t) s' = Some r0 -> s' <> s -> pt_fs_context_slot r0 = pt_fs_context_slot r' ->
    pt_mount_namespace_slot r0 = pt_mount_namespace_slot r') ->
  (forall c, get (fs_contexts t) (pt_fs_context_slot r') = Some c ->
    known (mount_namespaces t) (mount_bindings t) (pt_mount_namespace_slot r') (cwd_mount_id c) /\
    known (mount_namespaces t) (mount_bindings t) (pt_mount_namespace_slot r') (fs_root_mount_id c)) ->
  Inv (Held f' d' n' h i xt xn m b) (put_task t s r').
Proof.
  intros H Hg Ho Hs He Hk Hf Hd Hn Hsh Hkn. pose proof (iv_tasks _ _ H) as Hok.
  destruct (stays_in_use Hok s r r' Hg Ho) as [Hu Hle]. unfold put_task. inv_step H.
  - by apply (pool_ok_put Hok _ _ _ Hg).
  - intros x. rewrite (count_put Hok _ _ _ _ Hg Hu). pose proof (iv_fs_refs _ _ H x) as Hc. specialize (Hf x). cbn in Hc. lia.
  - intros x. rewrite (count_put Hok _ _ _ _ Hg Hu). pose proof (iv_fd_refs _ _ H x) as Hc. specialize (Hd x). cbn in Hc. lia.
  - intros x. rewrite (count_put Hok _ _ _ _ Hg Hu). pose proof (iv_ns_refs _ _ H x) as Hc. specialize (Hn x). cbn in Hc. lia.
  - intros x x' r1 r2. rewrite !(get_put Hok _ _ _ Hg Hu). destruct (decide _), (decide _).
    + intros [= <-] [= <-]. done.
    + intros [= <-] Hg2 E. symmetry. by apply (Hsh _ _ Hg2).
    + intros Hg1 [= <-] E. by apply (Hsh _ _ Hg1).
    + apply (iv_share _ _ H).
  - intros x r1 c. rewrite (get_put Hok _ _ _ Hg Hu). destruct (decide _).
    + intros [= <-]. apply Hkn.
    + exact (iv_known _ _ H _ _ _).
Qed.

(** ** Descriptor tables *)

Lemma free_table s : Inv (Held f d n h i xt xn m b) t -> find_free (fd_tables t) = Some s ->
  count_if (uses_fd s) (tasks t) = 0 /\ held d s = 0 /\ count_if (in_table s) (fd_identities t) = 0 /\
  count_if (protected_in s) (fd_identities t) = 0.
Proof.
  intros H Hf. pose proof (iv_fd_refs _ _ H s) as Hc. pose proof (iv_entries _ _ H s) as He. pose proof (iv_protected _ _ H s) as Hp.
  rewrite (field_free (iv_tables _ _ H) _ _ Hf) in Hc; rewrite (field_free (iv_tables _ _ H) _ _ Hf) in He; rewrite (field_free (iv_tables _ _ H) _ _ Hf) in Hp.
  pose proof (held_nonneg d s). pose proof (count_if_bounds (iv_tasks _ _ H) (uses_fd s)). cbn in Hc. lia.
Qed.

Lemma occupy_table s generation : Inv (Held f d n h i xt xn m b) t -> find_free (fd_tables t) = Some s ->
  Inv (Held f (s :: d) n h i xt xn m b) (OccupyEmptyFdTable t s generation).
Proof.
  intros H Hf. destruct (free_table s H Hf) as (Hz & Hh & He & Hp). pose proof (iv_tables _ _ H) as Hok.
  destruct (find_free_Some Hok _ Hf) as (_ & Hn & _). unfold OccupyEmptyFdTable. set (r0 := Build_FdTable _ _ _ _ _ _ _).
  assert (in_use r0 = true) as Hu by done. inv_step H.
  - apply (pool_ok_occupy Hok); try done.
    + unfold fd_table_fields, zero. cbn. destruct (Z.eqb_spec generation 0); [done|]. cbn. lia.
    + intros s' r Hg. destruct (get_entry Hok _ _ Hg) as [_ E]. cbn in E |- *. rewrite E. intros ->. congruence.
  - intros x. rewrite (field_occupy Hok _ _ _ Hf Hu). cbn [held ft_refcount r0]. pose proof (iv_fd_refs _ _ H x) as Hc. cbn in Hc. slots.
  - intros x. rewrite (field_occupy Hok _ _ _ Hf Hu). pose proof (iv_entries _ _ H x) as Hc. destruct (decide _); [subst x; cbn; lia|done].
  - intros x. rewrite (field_occupy Hok _ _ _ Hf Hu). pose proof (iv_protected _ _ H x) as Hc. destruct (decide _); [subst x; cbn; lia|done].
  - intros x r. rewrite (get_occupy Hok _ _ Hf Hu). destruct (decide _); [intros [= <-] _; done|exact (iv_fd_live _ _ H _ _)].
Qed.

Lemma put_table d' s r r' : Inv (Held f d n h i xt xn m b) t -> get (fd_tables t) s = Some r -> ft_occupied r' = ft_occupied r ->
  ft_slot r' = s -> fd_table_fields r' = true -> (xt <> Some s -> 0 < ft_refcount r') -> entry_count r' = entry_count r ->
  protected_count r' = protected_count r ->
  (forall x, held d' x = held d x + one (x =? s) * (ft_refcount r' - ft_refcount r)) ->
  Inv (Held f d' n h i xt xn m b) (with_fd_tables t (put (fd_tables t) s r')).
Proof.
  intros H Hg Ho Hs He Hr Hec Hpc Hh. pose proof (iv_tables _ _ H) as Hok.
  destruct (stays_in_use Hok s r r' Hg Ho) as [Hu Hle]. inv_step H.
  - apply (pool_ok_put Hok _ _ _ Hg); try done. intros s' r0 Hg' E. destruct (get_entry Hok _ _ Hg') as [_ Es].
    cbn in *. congruence.
  - intros x. rewrite (field_put Hok _ _ _ _ Hg Hu), Hh. pose proof (iv_fd_refs _ _ H x) as Hc. cbn in Hc.
    unfold field in *. slots. rewrite Hg in Hc. lia.
  - intros x. rewrite (field_same Hok _ _ _ _ Hg Hu Hec). apply (iv_entries _ _ H).
  - intros x. rewrite (field_same Hok _ _ _ _ Hg Hu Hpc). apply (iv_protected _ _ H).
  - intros x r0. rewrite (get_put Hok _ _ _ Hg Hu). destruct (decide _); [intros [= <-]; subst x; done|exact (iv_fd_live _ _ H _ _)].
Qed.

(** A table without references and entries goes. *)
Lemma vacate_table s r : Inv (Held f d n h i (Some s) xn m b) t -> get (fd_tables t) s = Some r -> ft_refcount r = 0 ->
  (forall s' r', get (fd_identities t) s' = Some r' -> fi_fd_table_slot r' <> s) ->
  Inv (Held f d n h i None xn m b) (with_fd_tables t (vacate (fd_tables t) s (ClearFdTable s))).
Proof.
  intros H Hg Hr Hno. pose proof (iv_tables _ _ H) as Hok. pose proof (iv_fd_refs _ _ H s) as Hz.
  rewrite (field_get _ _ _ Hg), Hr in Hz.
  assert (forall P, (forall r, P r = true -> fi_fd_table_slot r = s) -> count_if P (fd_identities t) = 0) as Hc0.
  { intros P HP. apply (count_if_zero (iv_identities _ _ H)). intros s' r' Hg'. destruct (P r') eqn:E; [|done].
    destruct (Hno _ _ Hg'). by apply HP. }
  inv_step H.
  - by apply (pool_ok_vacate Hok _ r).
  - intros x. rewrite (field_vacate Hok _ _ _ _ Hg) by done. pose proof (iv_fd_refs _ _ H x) as Hc.
    destruct (decide _) as [->|]; [|done]. cbn in Hz. lia.
  - intros x. rewrite (field_vacate Hok _ _ _ _ Hg) by done. destruct (decide _) as [->|]; [|apply (iv_entries _ _ H)].
    symmetry. apply Hc0. intros r'. by intros ?%Z.eqb_eq.
  - intros x. rewrite (field_vacate Hok _ _ _ _ Hg) by done. destruct (decide _) as [->|]; [|apply (iv_protected _ _ H)].
    symmetry. apply Hc0. intros r'. by intros [_ ?%Z.eqb_eq]%andb_true_iff.
  - intros x r0. rewrite (get_vacate Hok _ _ _ Hg) by done. destruct (decide _) as [|Hne]; [done|]. intros Hg' _.
    apply (iv_fd_live _ _ H _ _ Hg'). cbn. congruence.
Qed.
End Steps.
