(* ===== verification/PathObjectSteps.v ===== *)
(** * Primitive changes of the path state: identities, trees, namespaces, mounts

    The second half of the primitives. An identity holds a reference to its
    tree, a tree one to its namespace; the mounts of a namespace are looked up
    by their identifier. *)

From S2P Require Import Prelude SlotArray SlotPool GuestPath PathState PathStorage PathStateOps PathTaskOps PathFdOps PathStateInv PathSteps.
From stdpp Require Import list.
#[local] Open Scope Z_scope.

(** ** Looking up mounts *)

Section Mounts.
Context {B B' : Pool MountBindingState} {cap : Z} {vacant entry : MountBindingState -> Prop}.
Hypothesis Hok : pool_ok cap vacant entry B.
Hypothesis Hok' : pool_ok cap vacant entry B'.

Lemma parent_of_Some {C : Pool MountBindingState} (HC : pool_ok cap vacant entry C) ns id p :
  parent_of C ns id = Some p <->
  exists s r, get C s = Some r /\ mb_mount_namespace_slot r = ns /\ mount_id r = id /\ parent_mount_id r = p.
Proof.
  unfold parent_of. split.
  - destruct (search _ _) as [s|] eqn:E; [|done]. intros [= <-].
    apply (search_Some HC) in E as (r & Hr & E). bool_hyps. exists s, r. rewrite (get_at HC _ _ Hr). split_and!; [done|lia|lia|done].
  - intros (s & r & Hr & Hns & Hid & Hp). rewrite (search_found HC _ s r Hr).
    + simpl. by rewrite (get_at HC _ _ Hr), Hp.
    + lia.
    + intros s' r' Hr' E. bool_hyps. apply (get_unique HC s' s r' r Hr' Hr). cbn. f_equal; lia.
Qed.

(** Only the mounts of the namespace matter. *)
Lemma parent_of_same ns id :
  (forall r, mb_mount_namespace_slot r = ns -> (exists s, get B s = Some r) <-> (exists s, get B' s = Some r)) ->
  parent_of B' ns id = parent_of B ns id.
Proof.
  intros Hs. apply option_eq. intros p. rewrite (parent_of_Some Hok), (parent_of_Some Hok'). split.
  - intros (s & r & Hr & Hns & Hr2). destruct (proj2 (Hs r Hns)) as [s' Hs']; [by exists s|]. by exists s', r.
  - intros (s & r & Hr & Hns & Hr2). destruct (proj1 (Hs r Hns)) as [s' Hs']; [by exists s|]. by exists s', r.
Qed.
End Mounts.

Lemma walk_ext n root P Q id p : (forall x, P x = Q x) -> walk n root P id p = walk n root Q id p.
Proof.
  intros HPQ. revert p. induction n as [|n IH]; intros p; [done|]. simpl. rewrite HPQ. destruct (_ =? root); [done|].
  destruct (Q p); [|done]. by rewrite IH.
Qed.

Lemma walk_more n root P Q id p : (forall x q, P x = Some q -> Q x = Some q) ->
  walk n root P id p = true -> walk n root Q id p = true.
Proof.
  intros HPQ. revert p. induction n as [|n IH]; intros p; [done|]. simpl. destruct (_ =? root); [done|].
  destruct (P p) as [q|] eqn:E; [|done]. rewrite (HPQ _ _ E). destruct (_ || _); [done|]. apply IH.
Qed.

(** A namespace stored with other counts has the same mounts. *)
Lemma mounted_put {N : Pool MountNamespaceState} {cap vacant entry} (Hok : pool_ok cap vacant entry N) B s r r' x id :
  get N s = Some r -> in_use r' = true -> root_mount_id r' = root_mount_id r ->
  mounted (put N s r') B x id <-> mounted N B x id.
Proof.
  intros Hg Hu Hr. unfold mounted. rewrite (get_put Hok _ _ _ Hg Hu). destruct (decide _) as [->|]; [|done]. rewrite Hg. split.
  - intros (n & [= <-] & Hn). exists r. by rewrite <- Hr.
  - intros (n & [= <-] & Hn). exists r'. by rewrite Hr.
Qed.

Lemma known_mono {N N' B B' x id} : (mounted N B x id -> mounted N' B' x id) -> known N B x id -> known N' B' x id.
Proof. intros Hm [->|Hk]; [by left|right; auto]. Qed.

Section Steps.
Context {f d n h i : list Z} {xt xn : option Z} {m b : Z} {t : PathStateTable}.

(** ** Identities *)

(** The counts of a table stored anew. *)
Lemma table_counted s r e p : Inv (Held f d n h i xt xn m b) t -> get (fd_tables t) s = Some r ->
  let D := put (fd_tables t) s (set_fd_counts r (ft_refcount r) e p) in
  pool_ok kPathStateFdTableCapacity (fun r => fd_table_vacant r = true) (fun r => fd_table_fields r = true) D /\
  (forall x, field ft_refcount D x = field ft_refcount (fd_tables t) x) /\
  (forall x, field entry_count D x = if decide (x = s) then e else field entry_count (fd_tables t) x) /\
  (forall x, field protected_count D x = if decide (x = s) then p else field protected_count (fd_tables t) x) /\
  (forall x, is_some (get D x) = is_some (get (fd_tables t) x)).
Proof.
  intros H Hg D. pose proof (iv_tables _ _ H) as Hok. destruct (get_entry Hok _ _ Hg) as [He Hs].
  destruct (stays_in_use Hok s r (set_fd_counts r (ft_refcount r) e p) Hg eq_refl) as [Hu Hle]. subst D. split_and!.
  - apply (pool_ok_put Hok _ _ _ Hg); try done. intros s' r0 Hg' E. destruct (get_entry Hok _ _ Hg') as [_ Es].
    cbn in *. congruence.
  - by apply (field_same Hok _ _ _ _ Hg Hu).
  - exact (field_put Hok entry_count _ _ _ Hg Hu).
  - exact (field_put Hok protected_count _ _ _ Hg Hu).
  - intros x. rewrite (get_put Hok _ _ _ Hg Hu). destruct (decide _) as [->|]; [by rewrite Hg|done].
Qed.

(** Another array of identities, with a table array that counts it. *)
Lemma identities_step i' I D : Inv (Held f d n h i xt xn m b) t ->
  pool_ok kPathStateFdIdentityCapacity (fun r => identity_vacant r = true)
    (fun r => identity_fields r = true /\ object_fields r = true) I ->
  pool_ok kPathStateFdTableCapacity (fun r => fd_table_vacant r = true) (fun r => fd_table_fields r = true) D ->
  (forall x, field ft_refcount D x = field ft_refcount (fd_tables t) x) ->
  (forall x, is_some (get D x) = is_some (get (fd_tables t) x)) ->
  (forall x, field entry_count D x = count_if (in_table x) I) ->
  (forall x, field protected_count D x = count_if (protected_in x) I) ->
  (forall x, held i' x = held i x + count_if (to_tree x) (fd_identities t) - count_if (to_tree x) I) ->
  (forall s r tree, get I s = Some r -> object_kind r = kFdIdentityObjectMountTree ->
    get (mount_trees t) (object_slot r) = Some tree -> mt_generation tree = object_generation r) ->
  Inv (Held f d n h i' xt xn m b) (with_fd_tables (with_identities t I) D).
Proof.
  intros H HI HD Hr Hs He Hp Hh Hg. inv_step H; try done.
  - intros x. rewrite Hr. apply (iv_fd_refs _ _ H).
  - intros x. rewrite Hh. pose proof (iv_tree_refs _ _ H x) as Hc. cbn [g_trees] in Hc. lia.
  - intros x r Hx Ho. specialize (Hs x). specialize (Hr x). rewrite Hx in Hs. unfold field in Hr. rewrite Hx in Hr.
    destruct (get (fd_tables t) x) as [r0|] eqn:E; [|done]. rewrite Hr. exact (iv_fd_live _ _ H _ _ E Ho).
Qed.

Lemma entries_small s r : Inv (Held f d n h i xt xn m b) t -> get (fd_tables t) s = Some r ->
  entry_count r = count_if (in_table s) (fd_identities t) /\ protected_count r = count_if (protected_in s) (fd_identities t) /\
  0 <= protected_count r <= entry_count r /\ entry_count r <= p_count (fd_identities t) <= 4096.
Proof.
  intros H Hg. pose proof (iv_entries _ _ H s) as He. pose proof (iv_protected _ _ H s) as Hp.
  rewrite (field_get _ _ _ Hg) in He. rewrite (field_get _ _ _ Hg) in Hp. rewrite He, Hp.
  pose proof (count_if_bounds (iv_identities _ _ H) (in_table s)). pose proof (p_count_bounds (iv_identities _ _ H)) as Hb.
  pose proof (count_if_bounds (iv_identities _ _ H) (protected_in s)). unfold kPathStateFdIdentityCapacity in Hb.
  assert (count_if (protected_in s) (fd_identities t) <= count_if (in_table s) (fd_identities t)); [|lia].
  apply count_if_le. intros r'. unfold protected_in. by intros [_ ?]%andb_true_iff.
Qed.

(** An identity in a free slot, that takes over a held reference. *)
Lemma add_identity_step i' s tb r r0 : Inv (Held f d n h i xt xn m b) t -> find_free (fd_identities t) = Some s ->
  fi_occupied r = 1 -> fi_slot r = s -> fi_fd_table_slot r = tb -> identity_fields r = true -> object_fields r = true ->
  (forall s' r', get (fd_identities t) s' = Some r' -> fi_fd_table_slot r' = tb -> fi_fd r' <> fi_fd r) ->
  get (fd_tables t) tb = Some r0 ->
  (forall x, held i x = held i' x + one (to_tree x r)) ->
  (forall tree, object_kind r = kFdIdentityObjectMountTree -> get (mount_trees t) (object_slot r) = Some tree ->
    mt_generation tree = object_generation r) ->
  Inv (Held f d n h i' xt xn m b) (add_identity t tb s r).
Proof.
  intros H Hf Ho Hs Htb Hfi Hob Hk Hg Hh Hgen. pose proof (iv_identities _ _ H) as Hok.
  assert (in_use r = true) as Hu by (unfold in_use; cbn; by rewrite Ho).
  destruct (entries_small _ _ H Hg) as (He & Hp & Hb & Hc). unfold add_identity.
  cbn [fd_tables with_identities]. rewrite (get_at (iv_tables _ _ H) _ _ Hg).
  destruct (table_counted tb r0 (u32 (entry_count r0 + 1))
    (if identity_protected r then u32 (protected_count r0 + 1) else protected_count r0) H Hg) as (D1 & D2 & D3 & D4 & D5).
  apply identities_step; try done.
  - apply (pool_ok_occupy Hok); try done. intros s' r' Hg' E. injection E as E1 E2. apply (Hk _ _ Hg'); congruence.
  - intros x. rewrite D3, (count_occupy Hok _ _ _ Hf Hu). pose proof (iv_entries _ _ H x). unfold in_table at 2.
    rewrite Htb, u32_small by lia. slots.
  - intros x. rewrite D4, (count_occupy Hok _ _ _ Hf Hu). pose proof (iv_protected _ _ H x). unfold protected_in at 2.
    rewrite Htb. destruct (identity_protected r); rewrite ?u32_small by lia; slots.
  - intros x. rewrite (count_occupy Hok _ _ _ Hf Hu), Hh. lia.
  - intros s' r' tree. rewrite (get_occupy Hok _ _ Hf Hu). destruct (decide _); [intros [= <-]; by apply Hgen|].
    exact (iv_generation _ _ H _ _ _).
Qed.

(** An identity erased: its reference is left to the running code. *)
Lemma erase_identity_step i' s r r0 : Inv (Held f d n h i xt xn m b) t -> get (fd_identities t) s = Some r ->
  get (fd_tables t) (fi_fd_table_slot r) = Some r0 -> (forall x, held i' x = held i x + one (to_tree x r)) ->
  Inv (Held f d n h i' xt xn m b) (with_identities (with_fd_tables t (put (fd_tables t) (fi_fd_table_slot r)
    (set_fd_counts r0 (ft_refcount r0) (u32 (entry_count r0 - 1))
      (if identity_protected r then u32 (protected_count r0 - 1) else protected_count r0))))
    (vacate (fd_identities t) s (ClearFdIdentity s))).
Proof.
  intros H Hg Hg0 Hh. pose proof (iv_identities _ _ H) as Hok. destruct (entries_small _ _ H Hg0) as (He & Hp & Hb & Hc).
  assert (0 < entry_count r0) as Hpos.
  { rewrite He. apply (count_if_pos Hok). exists s, r. split; [done|]. apply Z.eqb_refl. }
  assert (identity_protected r = true -> 0 < protected_count r0) as Hpp.
  { intros E. rewrite Hp. apply (count_if_pos Hok). exists s, r. split; [done|]. unfold protected_in. by rewrite E, Z.eqb_refl. }
  destruct (table_counted (fi_fd_table_slot r) r0 (u32 (entry_count r0 - 1))
    (if identity_protected r then u32 (protected_count r0 - 1) else protected_count r0) H Hg0) as (D1 & D2 & D3 & D4 & D5).
  apply (identities_step i' (vacate (fd_identities t) s (ClearFdIdentity s))); try done.
  - by apply (pool_ok_vacate Hok _ r).
  - intros x. rewrite D3, (count_vacate Hok _ _ _ _ Hg) by done. pose proof (iv_entries _ _ H x). unfold in_table at 2.
    rewrite u32_small by lia. slots.
  - intros x. rewrite D4, (count_vacate Hok _ _ _ _ Hg) by done. pose proof (iv_protected _ _ H x). unfold protected_in at 2.
    destruct (identity_protected r); rewrite ?u32_small by lia; slots.
  - intros x. rewrite (count_vacate Hok _ _ _ _ Hg) by done. rewrite Hh. lia.
  - intros s' r' tree. rewrite (get_vacate Hok _ _ _ Hg) by done. destruct (decide _); [done|].
    exact (iv_generation _ _ H _ _ _).
Qed.
(** ** Trees *)

(** A tree stored with another count, detached, or attached to a mount. *)
Lemma put_tree_at i' s r r' : Inv (Held f d n h i xt xn m b) t -> get (mount_trees t) s = Some r ->
  mt_occupied r' = mt_occupied r -> mt_slot r' = s -> tree_fields r' = true -> 0 < mt_refcount r' ->
  mt_mount_namespace_slot r' = mt_mount_namespace_slot r -> mt_generation r' = mt_generation r ->
  handle_id r' = handle_id r -> source_mount_id r' = source_mount_id r ->
  (tree_attached r' = true -> mounted (mount_namespaces t) (mount_bindings t) (attached_namespace_slot r') (attached_mount_id r') /\
    0 < field task_refcount (mount_namespaces t) (attached_namespace_slot r')) ->
  (forall x, held i' x = held i x + one (x =? s) * (mt_refcount r' - mt_refcount r)) ->
  Inv (Held f d n h i' xt xn m b) (with_trees t (put (mount_trees t) s r')).
Proof.
  intros H Hg Ho Hs He Hr Hns Hgen Hid Hsrc Hatt Hh. pose proof (iv_trees _ _ H) as Hok.
  destruct (stays_in_use Hok s r r' Hg Ho) as [Hu Hle]. inv_step H.
  - apply (pool_ok_put Hok _ _ _ Hg); try done. intros s' r0 Hg' E. apply (get_unique Hok _ _ _ _ Hg' Hg). cbn in *. congruence.
  - intros x. rewrite (count_same Hok _ _ _ _ Hg Hu); [apply (iv_handle_refs _ _ H)|]. unfold handle_of. by rewrite Hns.
  - intros x. rewrite (field_put Hok _ _ _ _ Hg Hu), Hh. pose proof (iv_tree_refs _ _ H x) as Hc. cbn in Hc.
    unfold field in *. slots. rewrite Hg in Hc. lia.
  - intros x r0. rewrite (get_put Hok _ _ _ Hg Hu). destruct (decide _); [intros [= <-]; done|exact (iv_tree_live _ _ H _ _)].
  - intros x r0 tree Hi Hk. rewrite (get_put Hok _ _ _ Hg Hu). destruct (decide _) as [E|].
    + intros [= <-]. rewrite Hgen. apply (iv_generation _ _ H _ _ _ Hi Hk). by rewrite E.
    + exact (iv_generation _ _ H _ _ _ Hi Hk).
  - intros x r0. rewrite (get_put Hok _ _ _ Hg Hu). destruct (decide _) as [E|]; [|exact (iv_source _ _ H _ _)].
    intros [= <-]. rewrite Hns, Hsrc. exact (iv_source _ _ H _ _ Hg).
  - intros x r0. rewrite (get_put Hok _ _ _ Hg Hu). destruct (decide _) as [E|]; [|exact (iv_attached _ _ H _ _)].
    intros [= <-]. exact Hatt.
  - intros x r0. rewrite (get_put Hok _ _ _ Hg Hu). destruct (decide _) as [E|]; [|exact (iv_handles _ _ H _ _)].
    intros [= <-]. rewrite Hid. exact (iv_handles _ _ H _ _ Hg).
Qed.

(** A tree that stays where it is attached. *)
Lemma put_tree i' s r r' : Inv (Held f d n h i xt xn m b) t -> get (mount_trees t) s = Some r ->
  mt_occupied r' = mt_occupied r -> mt_slot r' = s -> tree_fields r' = true -> 0 < mt_refcount r' ->
  mt_mount_namespace_slot r' = mt_mount_namespace_slot r -> mt_generation r' = mt_generation r ->
  handle_id r' = handle_id r -> source_mount_id r' = source_mount_id r ->
  (tree_attached r' = true -> tree_attached r = true /\ attached_namespace_slot r' = attached_namespace_slot r /\
    attached_mount_id r' = attached_mount_id r) ->
  (forall x, held i' x = held i x + one (x =? s) * (mt_refcount r' - mt_refcount r)) ->
  Inv (Held f d n h i' xt xn m b) (with_trees t (put (mount_trees t) s r')).
Proof.
  intros H Hg Ho Hs He Hr Hns Hgen Hid Hsrc Hatt Hh. apply (put_tree_at i' s r r' H Hg); try done.
  intros Ha. destruct (Hatt Ha) as (Ha' & -> & ->). exact (iv_attached _ _ H _ _ Hg Ha').
Qed.

(** The last reference to a tree: its own reference is left to the running code. *)
Lemma vacate_tree s r : Inv (Held f d n h (s :: i) xt xn m b) t -> get (mount_trees t) s = Some r -> mt_refcount r = 1 ->
  Inv (Held f d n (mt_mount_namespace_slot r :: h) i xt xn m b) (with_trees t (vacate (mount_trees t) s (ClearMountTree s))).
Proof.
  intros H Hg Hr. pose proof (iv_trees _ _ H) as Hok. pose proof (iv_tree_refs _ _ H s) as Hz.
  rewrite (field_get _ _ _ Hg), Hr in Hz. cbn [g_trees held] in Hz. pose proof (held_nonneg i s).
  pose proof (count_if_bounds (iv_identities _ _ H) (to_tree s)). unfold one in Hz. rewrite Z.eqb_refl in Hz.
  inv_step H.
  - by apply (pool_ok_vacate Hok _ r).
  - intros x. rewrite (count_vacate Hok _ _ _ _ Hg) by done. pose proof (iv_handle_refs _ _ H x) as Hc. unfold handle_of at 2.
    cbn [held g_handles] in Hc |- *. lia.
  - intros x. rewrite (field_vacate Hok _ _ _ _ Hg) by done. pose proof (iv_tree_refs _ _ H x) as Hc. cbn in Hc. slots.
  - intros x r0. rewrite (get_vacate Hok _ _ _ Hg) by done. destruct (decide _); [done|exact (iv_tree_live _ _ H _ _)].
  - intros x r0 tree Hi Hk. rewrite (get_vacate Hok _ _ _ Hg) by done. destruct (decide _); [done|exact (iv_generation _ _ H _ _ _ Hi Hk)].
  - intros x r0. rewrite (get_vacate Hok _ _ _ Hg) by done. destruct (decide _); [done|exact (iv_source _ _ H _ _)].
  - intros x r0. rewrite (get_vacate Hok _ _ _ Hg) by done. destruct (decide _); [done|exact (iv_attached _ _ H _ _)].
  - intros x r0. rewrite (get_vacate Hok _ _ _ Hg) by done. destruct (decide _); [done|exact (iv_handles _ _ H _ _)].
Qed.

(** ** Namespaces *)

Lemma put_ns n' h' s r r' : Inv (Held f d n h i xt xn m b) t -> get (mount_namespaces t) s = Some r ->
  mn_occupied r' = mn_occupied r -> mn_slot r' = s -> namespace_fields r' = true -> root_mount_id r' = root_mount_id r ->
  mn_identity_generation r' = mn_identity_generation r -> binding_count r' = binding_count r ->
  mn_refcount r' = task_refcount r' + handle_refcount r' -> (xn <> Some s -> 0 < mn_refcount r') ->
  (forall x, held n' x = held n x + one (x =? s) * (task_refcount r' - task_refcount r)) ->
  (forall x, held h' x = held h x + one (x =? s) * (handle_refcount r' - handle_refcount r)) ->
  (0 < task_refcount r' \/ forall s' tree, get (mount_trees t) s' = Some tree -> tree_attached tree = true -> attached_namespace_slot tree <> s) ->
  Inv (Held f d n' h' i xt xn m b) (with_namespaces t (put (mount_namespaces t) s r')).
Proof.
  intros H Hg Ho Hs He Hroot Hid Hbc Htot Hl Hn Hh Hatt. pose proof (iv_namespaces _ _ H) as Hok.
  destruct (stays_in_use Hok s r r' Hg Ho) as [Hu Hle].
  assert (forall x id, mounted (mount_namespaces t) (mount_bindings t) x id ->
    mounted (put (mount_namespaces t) s r') (mount_bindings t) x id) as Hm.
  { intros x id. by apply (mounted_put Hok (mount_bindings t) s r r' x id Hg Hu Hroot). }
  inv_step H.
  - apply (pool_ok_put Hok _ _ _ Hg); try done. intros s' r0 Hg' E. apply (get_unique Hok _ _ _ _ Hg' Hg). cbn in *. congruence.
  - intros x. rewrite (field_put Hok _ _ _ _ Hg Hu), Hn. pose proof (iv_ns_refs _ _ H x) as Hc. cbn in Hc.
    unfold field in *. slots. rewrite Hg in Hc. lia.
  - intros x. rewrite (field_put Hok _ _ _ _ Hg Hu), Hh. pose proof (iv_handle_refs _ _ H x) as Hc. cbn in Hc.
    unfold field in *. slots. rewrite Hg in Hc. lia.
  - intros x. rewrite (field_same Hok _ _ _ _ Hg Hu Hbc). apply (iv_mounts _ _ H).
  - intros x r0. rewrite (get_put Hok _ _ _ Hg Hu). destruct (decide _); [intros [= <-]; done|exact (iv_total _ _ H _ _)].
  - intros x r0. rewrite (get_put Hok _ _ _ Hg Hu). destruct (decide _); [intros [= <-]; subst x; done|exact (iv_ns_live _ _ H _ _)].
  - intros x r0 c Hr0 Hc. destruct (iv_known _ _ H _ _ _ Hr0 Hc) as [K1 K2]. exact (conj (known_mono (Hm _ _) K1) (known_mono (Hm _ _) K2)).
  - intros x r0 Hr0. apply Hm. exact (iv_source _ _ H _ _ Hr0).
  - intros x r0 Hr0 Ha. destruct (iv_attached _ _ H _ _ Hr0 Ha) as [A1 A2]. split; [by apply Hm|].
    rewrite (field_put Hok _ _ _ _ Hg Hu). destruct (decide _) as [E|]; [|done]. destruct Hatt as [?|Hno]; [done|].
    by destruct (Hno _ _ Hr0 Ha).
  - intros x bd r0 Hb. rewrite (get_put Hok _ _ _ Hg Hu). destruct (decide _) as [E|]; [|exact (iv_walk _ _ H _ _ _ Hb)].
    intros [= <-]. rewrite Hroot. apply (iv_walk _ _ H _ _ _ Hb). by rewrite E.
  - intros x r0. rewrite (get_put Hok _ _ _ Hg Hu). destruct (decide _) as [E|]; [|exact (iv_bound _ _ H _ _)].
    intros [= <-]. rewrite Hid. exact (iv_bound _ _ H _ _ Hg).
  - intros x r0. rewrite (get_put Hok _ _ _ Hg Hu). destruct (decide _) as [E|]; [|exact (iv_roots _ _ H _ _)].
    intros [= <-]. rewrite Hroot. exact (iv_roots _ _ H _ _ Hg).
  - intros x bd r0 Hb. rewrite (get_put Hok _ _ _ Hg Hu). destruct (decide _) as [E|]; [|exact (iv_distinct _ _ H _ _ _ Hb)].
    intros [= <-]. rewrite Hroot. apply (iv_distinct _ _ H _ _ _ Hb). by rewrite E.
Qed.

Lemma free_namespace s : Inv (Held f d n h i xt xn m b) t -> find_free (mount_namespaces t) = Some s ->
  count_if (uses_ns s) (tasks t) = 0 /\ held n s = 0 /\ count_if (handle_of s) (mount_trees t) = 0 /\ held h s = 0 /\
  count_if (in_namespace s) (mount_bindings t) = 0.
Proof.
  intros H Hf. pose proof (iv_ns_refs _ _ H s) as Hc. pose proof (iv_handle_refs _ _ H s) as Hc2. pose proof (iv_mounts _ _ H s) as He.
  rewrite (field_free (iv_namespaces _ _ H) _ _ Hf) in Hc; rewrite (field_free (iv_namespaces _ _ H) _ _ Hf) in Hc2;
    rewrite (field_free (iv_namespaces _ _ H) _ _ Hf) in He.
  pose proof (held_nonneg n s). pose proof (held_nonneg h s). pose proof (count_if_bounds (iv_tasks _ _ H) (uses_ns s)).
  pose proof (count_if_bounds (iv_trees _ _ H) (handle_of s)). cbn in Hc, Hc2. lia.
Qed.

Lemma occupy_ns n' h' s r : Inv (Held f d n h i xt xn m b) t -> find_free (mount_namespaces t) = Some s ->
  mn_occupied r = 1 -> mn_slot r = s -> namespace_fields r = true -> b < mn_identity_generation r -> binding_count r = 0 ->
  mn_refcount r = task_refcount r + handle_refcount r -> 0 < mn_refcount r -> root_mount_id r <= mn_identity_generation r ->
  (forall x, held n' x = held n x + one (x =? s) * task_refcount r) ->
  (forall x, held h' x = held h x + one (x =? s) * handle_refcount r) ->
  Inv (Held f d n' h' i xt xn m (mn_identity_generation r)) (with_namespaces t (occupy (mount_namespaces t) s r)).
Proof.
  intros H Hf Ho Hs He Hb Hbc Htot Hl Hroot Hn Hh. destruct (free_namespace s H Hf) as (Z1 & Z2 & Z3 & Z4 & Z5).
  pose proof (iv_namespaces _ _ H) as Hok. destruct (find_free_Some Hok _ Hf) as (_ & Hno & _).
  assert (in_use r = true) as Hu by (unfold in_use; cbn; by rewrite Ho).
  assert (forall x id, mounted (mount_namespaces t) (mount_bindings t) x id ->
    mounted (occupy (mount_namespaces t) s r) (mount_bindings t) x id) as Hm.
  { intros x id (r0 & Hr0 & Hid). exists r0. rewrite (get_occupy Hok _ _ Hf Hu). destruct (decide _) as [->|]; [congruence|done]. }
  inv_step H.
  - apply (pool_ok_occupy Hok); try done. intros s' r0 Hg. pose proof (iv_bound _ _ H _ _ Hg). cbn in *. lia.
  - intros x. rewrite (field_occupy Hok _ _ _ Hf Hu), Hn. pose proof (iv_ns_refs _ _ H x) as Hc. cbn in Hc. slots.
  - intros x. rewrite (field_occupy Hok _ _ _ Hf Hu), Hh. pose proof (iv_handle_refs _ _ H x) as Hc. cbn in Hc. slots.
  - intros x. rewrite (field_occupy Hok _ _ _ Hf Hu). destruct (decide _) as [->|]; [lia|apply (iv_mounts _ _ H)].
  - intros x r0. rewrite (get_occupy Hok _ _ Hf Hu). destruct (decide _); [intros [= <-]; done|exact (iv_total _ _ H _ _)].
  - intros x r0. rewrite (get_occupy Hok _ _ Hf Hu). destruct (decide _); [intros [= <-]; done|exact (iv_ns_live _ _ H _ _)].
  - intros x r0 c Hr0 Hc. destruct (iv_known _ _ H _ _ _ Hr0 Hc) as [K1 K2]. exact (conj (known_mono (Hm _ _) K1) (known_mono (Hm _ _) K2)).
  - intros x r0 Hr0. apply Hm. exact (iv_source _ _ H _ _ Hr0).
  - intros x r0 Hr0 Ha. destruct (iv_attached _ _ H _ _ Hr0 Ha) as [A1 A2]. split; [by apply Hm|].
    rewrite (field_occupy Hok _ _ _ Hf Hu). destruct (decide _) as [E|]; [|done].
    rewrite E, (field_free Hok _ _ Hf) in A2. lia.
  - intros x bd r0 Hbd. rewrite (get_occupy Hok _ _ Hf Hu). destruct (decide _) as [E|]; [|exact (iv_walk _ _ H _ _ _ Hbd)].
    destruct (binding_namespace H _ _ Hbd) as [n0 Hn0]. congruence.
  - intros x r0. rewrite (get_occupy Hok _ _ Hf Hu). destruct (decide _) as [E|]; [by intros [= <-]|].
    intros Hg. pose proof (iv_bound _ _ H _ _ Hg). cbn in *. lia.
  - intros x bd Hbd. pose proof (iv_ids _ _ H _ _ Hbd). cbn in *. lia.
  - intros x r0. rewrite (get_occupy Hok _ _ Hf Hu). destruct (decide _) as [E|]; [by intros [= <-]|].
    intros Hg. pose proof (iv_roots _ _ H _ _ Hg). cbn in *. lia.
  - intros x bd r0 Hbd. rewrite (get_occupy Hok _ _ Hf Hu). destruct (decide _) as [E|]; [|exact (iv_distinct _ _ H _ _ _ Hbd)].
    destruct (binding_namespace H _ _ Hbd) as [n0 Hn0]. congruence.
  - intros x r0 Hr0. pose proof (iv_handles _ _ H _ _ Hr0). cbn in *. lia.
Qed.

(** A namespace no task and no tree refers to. *)
Lemma unreferenced s : Inv (Held f d n h i xt xn m b) t ->
  field task_refcount (mount_namespaces t) s = 0 -> field handle_refcount (mount_namespaces t) s = 0 ->
  (forall x r, get (tasks t) x = Some r -> pt_mount_namespace_slot r <> s) /\
  (forall x r, get (mount_trees t) x = Some r -> mt_mount_namespace_slot r <> s) /\
  (forall x r, get (mount_trees t) x = Some r -> tree_attached r = true -> attached_namespace_slot r <> s).
Proof.
  intros H Ht Hh. pose proof (iv_ns_refs _ _ H s) as Hc. pose proof (iv_handle_refs _ _ H s) as Hc2.
  pose proof (held_nonneg n s). pose proof (held_nonneg h s). pose proof (count_if_bounds (iv_tasks _ _ H) (uses_ns s)).
  pose proof (count_if_bounds (iv_trees _ _ H) (handle_of s)). cbn in Hc, Hc2.
  assert (count_if (uses_ns s) (tasks t) = 0) as Z1 by lia. assert (count_if (handle_of s) (mount_trees t) = 0) as Z2 by lia.
  rewrite (count_if_zero (iv_tasks _ _ H)) in Z1. rewrite (count_if_zero (iv_trees _ _ H)) in Z2. split_and!.
  - intros x r Hr E. specialize (Z1 _ _ Hr). unfold uses_ns in Z1. lia.
  - intros x r Hr E. specialize (Z2 _ _ Hr). unfold handle_of in Z2. lia.
  - intros x r Hr Ha E. destruct (iv_attached _ _ H _ _ Hr Ha) as [_ Hp]. rewrite E in Hp. lia.
Qed.

End Steps.

Section Erased.
Context {f d n h i : list Z} {xt : option Z} {m b : Z} {t : PathStateTable}.

Lemma vacate_ns s r : Inv (Held f d n h i xt (Some s) m b) t -> get (mount_namespaces t) s = Some r ->
  task_refcount r = 0 -> handle_refcount r = 0 ->
  (forall s' bd, get (mount_bindings t) s' = Some bd -> mb_mount_namespace_slot bd <> s) ->
  Inv (Held f d n h i xt None m b) (with_namespaces t (vacate (mount_namespaces t) s (ClearMountNamespace s))).
Proof.
  intros H Hg Ht Hh Hno. pose proof (iv_namespaces _ _ H) as Hok. pose proof (iv_ns_refs _ _ H s) as Hc.
  pose proof (iv_handle_refs _ _ H s) as Hc2. rewrite (field_get _ _ _ Hg) in Hc. rewrite (field_get _ _ _ Hg) in Hc2.
  destruct (unreferenced s H) as (U1 & U2 & U3); [by rewrite (field_get _ _ _ Hg)..|].
  assert (forall x id, x <> s -> mounted (mount_namespaces t) (mount_bindings t) x id ->
    mounted (vacate (mount_namespaces t) s (ClearMountNamespace s)) (mount_bindings t) x id) as Hm.
  { intros x id Hx (r0 & Hr0 & Hid). exists r0. rewrite (get_vacate Hok _ _ _ Hg) by done. by destruct (decide _). }
  inv_step H.
  - by apply (pool_ok_vacate Hok _ r).
  - intros x. rewrite (field_vacate Hok _ _ _ _ Hg) by done. destruct (decide _) as [->|]; [cbn in Hc |- *; lia|apply (iv_ns_refs _ _ H)].
  - intros x. rewrite (field_vacate Hok _ _ _ _ Hg) by done. destruct (decide _) as [->|]; [cbn in Hc2 |- *; lia|apply (iv_handle_refs _ _ H)].
  - intros x. rewrite (field_vacate Hok _ _ _ _ Hg) by done. destruct (decide _) as [->|]; [|apply (iv_mounts _ _ H)].
    symmetry. apply (count_if_zero (iv_bindings _ _ H)). intros s' bd Hbd. apply Z.eqb_neq. by eapply Hno.
  - intros x r0. rewrite (get_vacate Hok _ _ _ Hg) by done. destruct (decide _); [done|exact (iv_total _ _ H _ _)].
  - intros x r0. rewrite (get_vacate Hok _ _ _ Hg) by done. destruct (decide _) as [|Hne]; [done|]. intros Hr0 _.
    apply (iv_ns_live _ _ H _ _ Hr0). cbn. congruence.
  - intros x r0 c Hr0 Hc0. destruct (iv_known _ _ H _ _ _ Hr0 Hc0) as [K1 K2].
    exact (conj (known_mono (Hm _ _ (U1 _ _ Hr0)) K1) (known_mono (Hm _ _ (U1 _ _ Hr0)) K2)).
  - intros x r0 Hr0. apply Hm; [by eapply U2|]. exact (iv_source _ _ H _ _ Hr0).
  - intros x r0 Hr0 Ha. destruct (iv_attached _ _ H _ _ Hr0 Ha) as [A1 A2]. split; [apply Hm; [by eapply U3|done]|].
    rewrite (field_vacate Hok _ _ _ _ Hg) by done. destruct (decide _) as [E|]; [|done]. by destruct (U3 _ _ Hr0 Ha).
  - intros x bd r0 Hbd. rewrite (get_vacate Hok _ _ _ Hg) by done. destruct (decide _) as [E|]; [done|]. intros Hr0 _.
    apply (iv_walk _ _ H _ _ _ Hbd Hr0). cbn. congruence.
  - intros x r0. rewrite (get_vacate Hok _ _ _ Hg) by done. destruct (decide _); [done|exact (iv_bound _ _ H _ _)].
  - intros x r0. rewrite (get_vacate Hok _ _ _ Hg) by done. destruct (decide _); [done|exact (iv_roots _ _ H _ _)].
  - intros x bd r0 Hbd. rewrite (get_vacate Hok _ _ _ Hg) by done. destruct (decide _); [done|exact (iv_distinct _ _ H _ _ _ Hbd)].
Qed.
End Erased.

(** ** Mounts *)

Section MountSteps.
Context {f d n h i : list Z} {xt xn : option Z} {m b : Z} {t : PathStateTable}.

(** A task's directories or a tree refer to the mount. *)
Definition referred (t : PathStateTable) (s id : Z) : Prop :=
  (exists x r c, get (tasks t) x = Some r /\ pt_mount_namespace_slot r = s /\
    get (fs_contexts t) (pt_fs_context_slot r) = Some c /\ (id = cwd_mount_id c \/ id = fs_root_mount_id c)) \/
  (exists x tree, get (mount_trees t) x = Some tree /\ ((mt_mount_namespace_slot tree = s /\ id = source_mount_id tree) \/
    (tree_attached tree = true /\ attached_namespace_slot tree = s /\ id = attached_mount_id tree))).

Lemma unreferenced_referred s r : Inv (Held f d n h i xt xn m b) t -> get (mount_namespaces t) s = Some r ->
  task_refcount r = 0 -> handle_refcount r = 0 -> forall id, ~ referred t s id.
Proof.
  intros H Hg Ht Hh id. destruct (unreferenced s H) as (U1 & U2 & U3); [by rewrite (field_get _ _ _ Hg)..|].
  intros [(x & r0 & c & Hr & E & _)|(x & tree & Hr & [[E _]|(Ha & E & _)])]; [by apply (U1 _ _ Hr)|by apply (U2 _ _ Hr)|by apply (U3 _ _ Hr)].
Qed.

(** Another array of mounts, that differs in one namespace, whose record changes too. *)
Lemma namespace_step s r r' B : Inv (Held f d n h i xt xn m b) t -> get (mount_namespaces t) s = Some r ->
  mn_occupied r' = mn_occupied r -> mn_slot r' = s -> namespace_fields r' = true -> mn_refcount r' = mn_refcount r ->
  task_refcount r' = task_refcount r -> handle_refcount r' = handle_refcount r ->
  mn_identity_generation r' = mn_identity_generation r -> binding_count r' = count_if (in_namespace s) B -> root_mount_id r' <= b ->
  pool_ok kPathStateMountBindingCapacity (fun r => binding_vacant r = true) (fun r => binding_fields r = true) B ->
  (forall x, x <> s -> count_if (in_namespace x) B = count_if (in_namespace x) (mount_bindings t)) ->
  (forall x bd, mb_mount_namespace_slot bd <> s -> get B x = Some bd <-> get (mount_bindings t) x = Some bd) ->
  (forall id, referred t s id -> mounted (mount_namespaces t) (mount_bindings t) s id ->
    id = root_mount_id r' \/ is_some (parent_of B s id) = true) ->
  (xn <> Some s -> forall x bd, get B x = Some bd -> mb_mount_namespace_slot bd = s ->
    walk no_walk (root_mount_id r') (parent_of B s) (mount_id bd) (parent_mount_id bd) = true) ->
  (forall x bd, get B x = Some bd -> mb_mount_namespace_slot bd = s ->
    (mount_id bd <= b /\ sequence bd <= b) /\ mount_id bd <> root_mount_id r') ->
  Inv (Held f d n h i xt xn m b) (with_bindings (with_namespaces t (put (mount_namespaces t) s r')) B).
Proof.
  intros H Hg Ho Hs He Hrc Htr Hhr Hig Hbc Hrb HB Hcx Hother Hmono Hwalk Hids.
  pose proof (iv_namespaces _ _ H) as Hok. pose proof (iv_bindings _ _ H) as HB0.
  destruct (stays_in_use Hok s r r' Hg Ho) as [Hu Hle].
  assert (forall x id, x <> s -> parent_of B x id = parent_of (mount_bindings t) x id) as Hp.
  { intros x id Hx. apply (parent_of_same HB0 HB). intros bd Hbd. split; intros [y Hy]; exists y; apply Hother; congruence. }
  assert (forall x id, (x = s -> referred t s id) ->
    mounted (mount_namespaces t) (mount_bindings t) x id -> mounted (put (mount_namespaces t) s r') B x id) as Hm.
  { intros x id Hx Hmo. unfold mounted. rewrite (get_put Hok _ _ _ Hg Hu). destruct (decide _) as [->|Hne].
    - exists r'. split; [done|]. by apply Hmono; [apply Hx|].
    - destruct Hmo as (r0 & Hr0 & Hid). exists r0. split; [done|]. by rewrite Hp. }
  inv_step H.
  - apply (pool_ok_put Hok _ _ _ Hg); try done. intros s' r0 Hg' E. apply (get_unique Hok _ _ _ _ Hg' Hg). cbn in *. congruence.
  - done.
  - intros x. rewrite (field_same Hok task_refcount _ _ _ Hg Hu Htr). apply (iv_ns_refs _ _ H).
  - intros x. rewrite (field_same Hok handle_refcount _ _ _ Hg Hu Hhr). apply (iv_handle_refs _ _ H).
  - intros x. rewrite (field_put Hok _ _ _ _ Hg Hu). destruct (decide _) as [->|Hne]; [done|]. rewrite (Hcx x Hne). apply (iv_mounts _ _ H).
  - intros x r0. rewrite (get_put Hok _ _ _ Hg Hu). destruct (decide _); [intros [= <-]|exact (iv_total _ _ H _ _)].
    rewrite Hrc, Htr, Hhr. exact (iv_total _ _ H _ _ Hg).
  - intros x r0. rewrite (get_put Hok _ _ _ Hg Hu). destruct (decide _) as [->|]; [intros [= <-]|exact (iv_ns_live _ _ H _ _)].
    rewrite Hrc. exact (iv_ns_live _ _ H _ _ Hg).
  - intros x r0 c Hr0 Hc. destruct (iv_known _ _ H _ _ _ Hr0 Hc) as [K1 K2].
    split; [refine (known_mono (Hm _ _ _) K1)|refine (known_mono (Hm _ _ _) K2)]; intros E; left; exists x, r0, c; tauto.
  - intros x r0 Hr0. apply Hm; [|exact (iv_source _ _ H _ _ Hr0)]. intros E. right. exists x, r0. tauto.
  - intros x r0 Hr0 Ha. destruct (iv_attached _ _ H _ _ Hr0 Ha) as [A1 A2]. split.
    + apply Hm; [|done]. intros E. right. exists x, r0. tauto.
    + by rewrite (field_same Hok task_refcount _ _ _ Hg Hu Htr).
  - intros x bd r0 Hbd. rewrite (get_put Hok _ _ _ Hg Hu). destruct (decide _) as [E|Hne].
    + intros [= <-] Hx. rewrite E in Hx |- *. by apply (Hwalk Hx x).
    + intros Hr0 Hx. rewrite (walk_ext _ _ _ (parent_of (mount_bindings t) (mb_mount_namespace_slot bd))) by (intros; by apply Hp).
      apply (iv_walk _ _ H x bd r0); [by apply Hother|done|done].
  - intros x r0. rewrite (get_put Hok _ _ _ Hg Hu). destruct (decide _) as [E|]; [|exact (iv_bound _ _ H _ _)].
    intros [= <-]. rewrite Hig. exact (iv_bound _ _ H _ _ Hg).
  - intros x bd Hbd. destruct (decide (mb_mount_namespace_slot bd = s)) as [E|Hne]; [by apply (Hids _ _ Hbd)|].
    exact (iv_ids _ _ H _ _ (proj1 (Hother _ _ Hne) Hbd)).
  - intros x r0. rewrite (get_put Hok _ _ _ Hg Hu). destruct (decide _) as [E|]; [by intros [= <-]|exact (iv_roots _ _ H _ _)].
  - intros x bd r0 Hbd. rewrite (get_put Hok _ _ _ Hg Hu). destruct (decide _) as [E|Hne].
    + intros [= <-]. by apply (Hids _ _ Hbd).
    + apply (iv_distinct _ _ H x). by apply Hother.
Qed.

(** Only the number of mounts of the namespace changes in its record. *)
Lemma bindings_step s r k B : Inv (Held f d n h i xt xn m b) t -> get (mount_namespaces t) s = Some r ->
  pool_ok kPathStateMountBindingCapacity (fun r => binding_vacant r = true) (fun r => binding_fields r = true) B ->
  (forall x, x <> s -> count_if (in_namespace x) B = count_if (in_namespace x) (mount_bindings t)) ->
  k = count_if (in_namespace s) B ->
  (forall x bd, mb_mount_namespace_slot bd <> s -> get B x = Some bd <-> get (mount_bindings t) x = Some bd) ->
  (forall id, referred t s id -> is_some (parent_of (mount_bindings t) s id) = true -> is_some (parent_of B s id) = true) ->
  (xn <> Some s -> forall x bd, get B x = Some bd -> mb_mount_namespace_slot bd = s ->
    walk no_walk (root_mount_id r) (parent_of B s) (mount_id bd) (parent_mount_id bd) = true) ->
  (forall x bd, get B x = Some bd -> mb_mount_namespace_slot bd = s ->
    (mount_id bd <= b /\ sequence bd <= b) /\ mount_id bd <> root_mount_id r) ->
  Inv (Held f d n h i xt xn m b) (with_bindings (with_namespaces t (put (mount_namespaces t) s
    (set_namespace_counts r (mn_refcount r) k (task_refcount r) (handle_refcount r)))) B).
Proof.
  intros H Hg HB Hcx Hk Hother Hmono Hwalk Hids. destruct (get_entry (iv_namespaces _ _ H) _ _ Hg) as [He Hs].
  apply (namespace_step s r); try done.
  - exact (iv_roots _ _ H _ _ Hg).
  - intros id Hid (r0 & Hr0 & Hroot). rewrite Hg in Hr0. injection Hr0 as <-. destruct Hroot as [Hroot|Hroot]; [by left|right; auto].
Qed.

Lemma mounts_small s r : Inv (Held f d n h i xt xn m b) t -> get (mount_namespaces t) s = Some r ->
  binding_count r = count_if (in_namespace s) (mount_bindings t) /\ 0 <= binding_count r <= p_count (mount_bindings t) /\
  p_count (mount_bindings t) <= 1024.
Proof.
  intros H Hg. pose proof (iv_mounts _ _ H s) as He. rewrite (field_get _ _ _ Hg) in He. rewrite He.
  pose proof (count_if_bounds (iv_bindings _ _ H) (in_namespace s)). pose proof (p_count_bounds (iv_bindings _ _ H)) as Hb.
  unfold kPathStateMountBindingCapacity in Hb. lia.
Qed.

(** A mount of a namespace nothing refers to is erased. *)
Lemma erase_mount s bd r : Inv (Held f d n h i xt xn m b) t -> get (mount_bindings t) s = Some bd ->
  xn = Some (mb_mount_namespace_slot bd) -> get (mount_namespaces t) (mb_mount_namespace_slot bd) = Some r ->
  task_refcount r = 0 -> handle_refcount r = 0 -> Inv (Held f d n h i xt xn m b) (EraseMountBindingSlot t s).
Proof.
  intros H Hg Hxn Hr Ht Hh. pose proof (iv_bindings _ _ H) as Hok. destruct (mounts_small _ _ H Hr) as (He & Hb & Hc).
  unfold EraseMountBindingSlot. rewrite (get_at Hok _ _ Hg), (get_at (iv_namespaces _ _ H) _ _ Hr). cbn [mount_bindings with_namespaces].
  assert (0 < binding_count r) as Hpos.
  { rewrite He. apply (count_if_pos Hok). exists s, bd. split; [done|]. apply Z.eqb_refl. }
  apply bindings_step; try done; try congruence; [by apply (pool_ok_vacate Hok _ bd)|..].
  - intros x Hx. rewrite (count_vacate Hok _ _ _ _ Hg) by done. unfold in_namespace at 2. slots.
  - rewrite (count_vacate Hok _ _ _ _ Hg) by done. unfold in_namespace at 2, one. rewrite Z.eqb_refl, u32_small by lia. lia.
  - intros x bd' Hx. rewrite (get_vacate Hok _ _ _ Hg) by done. destruct (decide _) as [->|]; [|done].
    split; [done|]. intros Hg'. congruence.
  - intros id Hid. by destruct (unreferenced_referred _ _ H Hr Ht Hh id).
  - intros x bd'. rewrite (get_vacate Hok _ _ _ Hg) by done. destruct (decide _); [done|]. intros Hx E.
    split; [exact (iv_ids _ _ H _ _ Hx)|]. apply (iv_distinct _ _ H _ _ _ Hx). by rewrite E.
Qed.

(** A mount in a namespace that is being built. *)
Lemma add_mount s ns bd r : Inv (Held f d n h i xt xn m b) t -> find_free (mount_bindings t) = Some s ->
  get (mount_namespaces t) ns = Some r -> xn = Some ns -> mb_occupied bd = 1 -> mb_slot bd = s ->
  mb_mount_namespace_slot bd = ns -> binding_fields bd = true ->
  (forall x bd', get (mount_bindings t) x = Some bd' -> mb_mount_namespace_slot bd' = ns -> mount_id bd' <> mount_id bd) ->
  mount_id bd <= b -> sequence bd <= b -> mount_id bd <> root_mount_id r ->
  Inv (Held f d n h i xt xn m b) (with_bindings (with_namespaces t (put (mount_namespaces t) ns
    (set_namespace_counts r (mn_refcount r) (u32 (binding_count r + 1)) (task_refcount r) (handle_refcount r))))
    (occupy (mount_bindings t) s bd)).
Proof.
  intros H Hf Hr Hxn Ho Hs Hns He Hk Hmi Hsq Hne. pose proof (iv_bindings _ _ H) as Hok. destruct (mounts_small _ _ H Hr) as (Hbc & Hb & Hc).
  assert (in_use bd = true) as Hu by (unfold in_use; cbn; by rewrite Ho).
  assert (pool_ok kPathStateMountBindingCapacity (fun r => binding_vacant r = true) (fun r => binding_fields r = true)
    (occupy (mount_bindings t) s bd)) as Hok'.
  { apply (pool_ok_occupy Hok); try done. intros x bd' Hg E. cbn in E. injection E as E1 E2. apply (Hk _ _ Hg); congruence. }
  assert (forall x, get (occupy (mount_bindings t) s bd) x = if decide (x = s) then Some bd else get (mount_bindings t) x) as Hget.
  { exact (get_occupy Hok _ _ Hf Hu). }
  apply bindings_step; try done; try congruence.
  - intros x Hx. rewrite (count_occupy Hok _ _ _ Hf Hu). unfold in_namespace at 2. slots.
  - rewrite (count_occupy Hok _ _ _ Hf Hu). unfold in_namespace at 2, one. rewrite Hns, Z.eqb_refl, u32_small by lia. lia.
  - intros x bd' Hx. rewrite Hget. destruct (decide _) as [->|]; [|done].
    split; [intros [= <-]; congruence|]. destruct (find_free_Some Hok _ Hf) as (_ & Hn & _). congruence.
  - intros id _ Hid. destruct (parent_of _ _ _) as [p|] eqn:E; [|done].
    apply (parent_of_Some Hok) in E as (x & bd' & Hg & E). destruct (parent_of (occupy _ _ _) _ _) eqn:E'; [done|].
    enough (parent_of (occupy (mount_bindings t) s bd) ns id = Some p) by congruence.
    apply (parent_of_Some Hok'). exists x, bd'. split; [|done]. rewrite Hget. destruct (decide _) as [->|]; [|done].
    destruct (find_free_Some Hok _ Hf) as (_ & Hn & _). congruence.
  - intros x bd'. rewrite Hget. destruct (decide _); [by intros [= <-]|]. intros Hx E.
    split; [exact (iv_ids _ _ H _ _ Hx)|]. apply (iv_distinct _ _ H _ _ _ Hx). by rewrite E.
Qed.
End MountSteps.
