(* ===== verification/PathResolve.v ===== *)
(** * The tree of the mounts of a namespace, and the way of a path in it

    How many steps a mount is from the root ([rises]), that a way up passes no
    mount twice and so is no longer than the number of mounts, and that the
    walk of the audit succeeds exactly on such a way. What [select] picks of the
    slots that qualify; ResolveVisibleMount goes from the root to a mount none
    of whose children covers the path. *)

From S2P Require Import Prelude SlotArray SlotPool GuestPath GuestPathText PathState PathStorage PathStateOps PathTaskOps PathStateInv PathMounts PathObjectSteps.
From stdpp Require Import list.
#[local] Open Scope Z_scope.

Section Rises.
Context {root : Z} {parents : Z -> option Z}.

(** [p] is [k] steps below the root. *)
Inductive rises : nat -> Z -> Prop :=
| rises_root : rises O root
| rises_up p q k : p <> root -> parents p = Some q -> rises k q -> rises (S k) p.

Lemma rises_fun k k' p : rises k p -> rises k' p -> k = k'.
Proof.
  intros H. revert k'. induction H as [|p q k Hp Hq _ IH]; intros k' H'; inversion H'; simplify_eq; try done. f_equal. by apply IH.
Qed.

(** The mounts passed on the way. *)
Lemma rises_way k p : rises k p -> exists l, length l = k /\ NoDup l /\
  Forall (fun x => x <> root /\ is_some (parents x) = true /\ exists j, (0 < j <= k)%nat /\ rises j x) l.
Proof.
  induction 1 as [|p q k Hp Hq Hr (l & Hl & Hd & Hf)]; [by exists []; split_and!; [|constructor|constructor]|].
  exists (p :: l). split_and!; [by rewrite <- Hl| |].
  - constructor; [|done]. intros Hin. rewrite Forall_forall in Hf. destruct (Hf p Hin) as (_ & _ & j & Hj & Hrj).
    pose proof (rises_fun j (S k) p Hrj ltac:(by econstructor)). lia.
  - constructor.
    + split; [done|]. rewrite Hq. split; [done|]. exists (S k). split; [lia|by econstructor].
    + eapply Forall_impl; [exact Hf|]. intros x (Hx & Hs & j & Hj & Hrj). split_and!; [done..|]. exists j. split; [lia|done].
Qed.

Lemma walk_rises n id p : walk (S n) root parents id p = true -> exists k, (k <= n)%nat /\ rises k p.
Proof.
  revert p. induction n as [|n IH]; intros p; cbn [walk].
  - destruct (Z.eqb_spec p root) as [->|]; [exists O; split; [lia|constructor]|]. destruct (parents p); [|done]. by rewrite orb_true_r.
  - destruct (Z.eqb_spec p root) as [->|Hp]; [exists O; split; [lia|constructor]|]. destruct (parents p) as [q|] eqn:Hq; [|done].
    rewrite orb_false_r. destruct (_ =? id); [done|]. intros (k & Hk & Hr)%IH. exists (S k). split; [lia|by econstructor].
Qed.

Lemma rises_walk_avoid n k id p : rises k p -> (k <= n)%nat -> (forall j, rises j id -> (k < j)%nat) -> walk (S n) root parents id p = true.
Proof.
  revert k p. induction n as [|n IH]; intros k p Hr Hk Hid; inversion Hr as [|? q k' Hp Hq Hr']; subst; cbn [walk].
  - by rewrite Z.eqb_refl.
  - lia.
  - by rewrite Z.eqb_refl.
  - replace (p =? root) with false by lia. rewrite Hq, orb_false_r. destruct (Z.eqb_spec p id) as [->|].
    + specialize (Hid _ Hr). lia.
    + apply (IH k'); [done|lia|]. intros j Hj. specialize (Hid j Hj). lia.
Qed.

(** The walk from the parent of a mount. *)
Lemma rises_walk n k id p : rises k p -> (k <= n)%nat -> parents id = Some p -> id <> root -> walk (S n) root parents id p = true.
Proof.
  intros Hr Hk Hp Hid. apply (rises_walk_avoid n k); [done..|]. intros j Hj. inversion Hj as [|? q ? _ Hq Hr']; simplify_eq.
  pose proof (rises_fun _ _ _ Hr Hr'). lia.
Qed.
End Rises.
Arguments rises : clear implicits.

Lemma rises_ext root P Q k p : (forall x, P x = Q x) -> rises root P k p -> rises root Q k p.
Proof. intros HPQ. induction 1 as [|p q k Hp Hq Hr IH]; [constructor|]. econstructor; [done|by rewrite <- HPQ|done]. Qed.

(** A way up stays when every mount on it keeps its parent. *)
Lemma rises_more root P Q k p : (forall x q, x <> root -> P x = Some q -> Q x = Some q) -> rises root P k p -> rises root Q k p.
Proof. intros HPQ. induction 1 as [|p q k Hp Hq Hr IH]; [constructor|]. econstructor; [done|by apply HPQ|done]. Qed.

(** Different slots whose records satisfy a predicate are counted. *)
Lemma count_list_slots {A K} `{SlotRecord A K} (P : A -> bool) (l : list A) (ss : list nat) :
  NoDup ss -> Forall (fun i => exists r, l !! i = Some r /\ in_use r = true /\ P r = true) ss -> Z.of_nat (length ss) <= count_list P l.
Proof.
  revert l ss. induction l as [|x l IH]; intros ss Hd Hf.
  { destruct ss as [|i ss]; [done|]. inversion Hf as [|? ? (r & Hr & _)]; subst. done. }
  set (up := pred <$> filter (fun i => i <> O) ss).
  assert (Z.of_nat (length up) <= count_list P l) as Hup.
  { apply IH.
    - unfold up. apply NoDup_fmap_2_strong; [|by apply NoDup_filter].
      intros i j [Hi _]%list_elem_of_filter [Hj _]%list_elem_of_filter. lia.
    - apply Forall_forall. intros i (j & -> & [Hj Hin]%list_elem_of_filter)%list_elem_of_fmap. rewrite Forall_forall in Hf.
      destruct j as [|j]; [done|]. exact (Hf _ Hin). }
  unfold up in Hup. rewrite length_fmap in Hup. cbn [count_list].
  assert (length ss <= length (filter (fun i => i <> O) ss) + (if decide (O ∈ ss) then 1 else 0))%nat as Hlen.
  { clear -Hd. induction Hd as [|i ss Hi Hd IH]; [simpl; lia|]. rewrite filter_cons. destruct i as [|i].
    - destruct (decide (O <> O)) as [|_]; [done|]. rewrite (decide_True (P := O ∈ O :: ss)) by left.
      rewrite decide_False in IH by done. simpl. lia.
    - rewrite (decide_True (P := S i <> O)) by done. simpl. repeat case_decide; [lia| |lia|lia].
      destruct H0. by right. }
  destruct (decide (O ∈ ss)) as [Hin|]; [|destruct (_ && _); lia].
  rewrite Forall_forall in Hf. destruct (Hf O Hin) as (r & [= ->] & Hu & HP). rewrite Hu, HP. simpl. lia.
Qed.

Section Bound.
Context {B : Pool MountBindingState} {cap : Z} {vacant entry : MountBindingState -> Prop}.
Hypothesis Hok : pool_ok cap vacant entry B.

(** The way up in a namespace is no longer than the number of its mounts. *)
Lemma rises_bound ns root k p : rises root (parent_of B ns) k p -> Z.of_nat k <= count_if (in_namespace ns) B.
Proof.
  intros (l & <- & Hd & Hf)%rises_way.
  assert (exists ss : list nat, Forall2 (fun x i => exists r, get B (Z.of_nat i) = Some r /\ mb_mount_namespace_slot r = ns /\ mount_id r = x) l ss) as [ss Hss].
  { clear Hd. induction Hf as [|x l' (_ & Hx & _) _ [ss IH]]; [by exists []|]. destruct (parent_of B ns x) as [q|] eqn:E; [|done].
    apply (parent_of_Some Hok) in E as (s & r & Hr & Hns & Hid & _). exists (Z.to_nat s :: ss). constructor; [|done].
    exists r. split; [|done]. pose proof (get_range Hok _ _ Hr). by rewrite Z2Nat.id by lia. }
  rewrite (Forall2_length _ _ _ Hss). unfold count_if. apply count_list_slots.
  - clear Hf. induction Hss as [|x i l' ss (r & Hr & Hns & Hid) Hss IH]; [constructor|]. inversion Hd as [|? ? Hx Hd']; subst.
    constructor; [|by apply IH]. intros Hin. apply Hx. apply list_elem_of_lookup in Hin as [j Hj].
    destruct (Forall2_lookup_r _ _ _ _ _ Hss Hj) as (y & Hy & r' & Hr' & _ & Hid'). apply list_elem_of_lookup. exists j.
    rewrite Hr in Hr'. injection Hr' as <-. by rewrite Hid'.
  - clear Hd Hf. induction Hss as [|x i l' ss (r & Hr & Hns & Hid) Hss IH]; constructor; [|done].
    pose proof (get_entry_at Hok _ _ Hr) as [Hi Hu]. rewrite Nat2Z.id in Hi. exists r. split_and!; [done|done|]. unfold in_namespace. lia.
Qed.
End Bound.

(** Every mount of the namespace has a way to its root: what the audit walks. *)
Definition rooted (root : Z) (B : Pool MountBindingState) (ns : Z) : Prop :=
  forall x bd, get B x = Some bd -> mb_mount_namespace_slot bd = ns -> exists k, rises root (parent_of B ns) k (mount_id bd).

Lemma rooted_walk {entry} B ns root :
  pool_ok kPathStateMountBindingCapacity (fun r => binding_vacant r = true) entry B -> rooted root B ns ->
  (forall x bd, get B x = Some bd -> mb_mount_namespace_slot bd = ns -> mount_id bd <> root) ->
  forall x bd, get B x = Some bd -> mb_mount_namespace_slot bd = ns ->
    walk no_walk root (parent_of B ns) (mount_id bd) (parent_mount_id bd) = true.
Proof.
  intros Hok Hr Hne x bd Hx Hns. destruct (Hr x bd Hx Hns) as [k Hk]. specialize (Hne x bd Hx Hns).
  assert (parent_of B ns (mount_id bd) = Some (parent_mount_id bd)) as Hp by (apply (parent_of_Some Hok); by exists x, bd).
  pose proof (rises_bound Hok _ _ _ _ Hk) as Hb. pose proof (count_if_bounds Hok (in_namespace ns)).
  pose proof (p_count_bounds Hok) as Hc. unfold kPathStateMountBindingCapacity in Hc.
  inversion Hk as [|? q k' _ Hq Hk']; simplify_eq. unfold no_walk. apply (rises_walk _ k'); [done| |done..].
  unfold kPathStateMountBindingCapacity. lia.
Qed.

Lemma walk_rooted {entry} B ns root :
  pool_ok kPathStateMountBindingCapacity (fun r => binding_vacant r = true) entry B ->
  (forall x bd, get B x = Some bd -> mb_mount_namespace_slot bd = ns ->
    walk no_walk root (parent_of B ns) (mount_id bd) (parent_mount_id bd) = true) ->
  (forall x bd, get B x = Some bd -> mb_mount_namespace_slot bd = ns -> mount_id bd <> root) -> rooted root B ns.
Proof.
  intros Hok Hw Hne x bd Hx Hns. specialize (Hw x bd Hx Hns). apply walk_rises in Hw as (k & _ & Hk). exists (S k).
  econstructor; [by eapply Hne| |done]. apply (parent_of_Some Hok). by exists x, bd.
Qed.

(** In a consistent table every mount of a namespace is rooted. *)
Lemma inv_rooted {g t} ns n : Inv g t -> get (mount_namespaces t) ns = Some n -> g_open_namespace g <> Some ns ->
  rooted (root_mount_id n) (mount_bindings t) ns.
Proof.
  intros H Hn Ho. apply (walk_rooted _ _ _ (iv_bindings _ _ H)).
  - intros x bd Hx E. rewrite <- E in *. by apply (iv_walk _ _ H x).
  - intros x bd Hx E. apply (iv_distinct _ _ H x bd n Hx). by rewrite E.
Qed.

(** [a] is on the way from [p] up to the root, both ends included. *)
Inductive below (root : Z) (parents : Z -> option Z) (a : Z) : Z -> Prop :=
| below_here : below root parents a a
| below_up p q : p <> root -> parents p = Some q -> below root parents a q -> below root parents a p.

Lemma below_ext root P Q a p : (forall x, P x = Q x) -> below root P a p -> below root Q a p.
Proof. intros HPQ. induction 1 as [|p q Hp Hq Hr IH]; [constructor|]. econstructor; [done|by rewrite <- HPQ|done]. Qed.

(** ** What the resolution of a path selects *)

(** ** The selection *)

(** Of two that qualify, the second is not taken: it is shorter, or older, or of
    the same age in a higher slot. *)
Definition yields (s : Z) (b : MountBindingState) (n : nat) (s' : Z) (b' : MountBindingState) (n' : nat) : Prop :=
  (n' < n)%nat \/ (n' = n /\ (sequence b' < sequence b \/ (sequence b' = sequence b /\ s <= s'))).

(** The best of the slots seen. *)
Definition best_of (q : Z -> MountBindingState -> option nat) (seen : Z -> MountBindingState -> Prop) (c : option Choice) : Prop :=
  match c with
  | None => forall s b, seen s b -> q s b = None
  | Some (s, b, n) => seen s b /\ q s b = Some n /\
      forall s' b' n', seen s' b' -> q s' b' = Some n' -> yields s b n s' b' n'
  end.

Lemma yields_refl s b n : yields s b n s b n.
Proof. right. split; [done|right; split; [done|lia]]. Qed.

(** One more slot, above the ones seen. *)
Lemma best_of_next q i b seen best : (forall s b', seen s b' -> s < i) -> best_of q seen best ->
  best_of q (fun s b' => seen s b' \/ (s = i /\ b' = b)) (match q i b with
    | Some length => if better length b best then Some (i, b, length) else best | None => best end).
Proof.
  intros Hlt Hb. destruct (q i b) as [n|] eqn:Eq.
  - destruct best as [[[s c] k]|]; simpl in *.
    + destruct Hb as (H1 & H2 & H3). destruct (_ || _) eqn:E; simpl.
      * split; [by right|]. split; [done|]. intros s' b' n' [Hs|[-> ->]] Hq.
        -- destruct (H3 s' b' n' Hs Hq) as [|[]]; unfold yields; lia.
        -- rewrite Eq in Hq. injection Hq as <-. apply yields_refl.
      * split; [by left|]. split; [done|]. intros s' b' n' [Hs|[-> ->]] Hq; [by apply (H3 s')|].
        rewrite Eq in Hq. injection Hq as <-. apply Hlt in H1. unfold yields. lia.
    + split; [by right|]. split; [done|]. intros s' b' n' [Hs|[-> ->]] Hq; [by rewrite (Hb _ _ Hs) in Hq|].
      rewrite Eq in Hq. injection Hq as <-. apply yields_refl.
  - destruct best as [[[s c] k]|]; simpl in *.
    + destruct Hb as (H1 & H2 & H3). split; [by left|]. split; [done|]. intros s' b' n' [Hs|[-> ->]] Hq; [by apply (H3 s')|congruence].
    + intros s' b' [Hs|[-> ->]]; [by apply Hb|done].
Qed.

Lemma select_loop_best q l : forall i seen best, (forall s b, seen s b -> s < i) -> best_of q seen best ->
  best_of q (fun s b => seen s b \/ exists j : nat, l !! j = Some b /\ s = i + Z.of_nat j) (select_loop q i l best).
Proof.
  induction l as [|b l IH]; intros i seen best Hlt Hb; cbn [select_loop].
  - destruct best as [[[s b] n]|]; simpl in *.
    + destruct Hb as (H1 & H2 & H3). split; [by left|]. split; [done|]. intros s' b' n' [?|(j & Hj & _)]; [by apply (H3 s')|done].
    + intros s b [?|(j & Hj & _)]; [by apply Hb|done].
  - set (seen' := fun s b' => seen s b' \/ (s = i /\ b' = b)).
    specialize (IH (i + 1) seen' _ ltac:(intros s b' [Hs|[-> _]]; [apply Hlt in Hs|]; lia) (best_of_next q i b seen best Hlt Hb)).
    assert (forall s b', seen' s b' \/ (exists j : nat, l !! j = Some b' /\ s = i + 1 + Z.of_nat j) <->
      seen s b' \/ (exists j : nat, (b :: l) !! j = Some b' /\ s = i + Z.of_nat j)) as Hiff.
    { intros s b'. unfold seen'. split.
      - intros [[Hs|[-> ->]]|(j & Hj & ->)]; [by left|right; exists O; split; [done|lia]|right; exists (S j); split; [done|lia]].
      - intros [Hs|([|j] & Hj & ->)]; [by do 2 left| |right; exists j; split; [done|lia]]. left. right. simplify_eq/=. split; [lia|done]. }
    revert IH. generalize (select_loop q (i + 1) l (match q i b with
      | Some length => if better length b best then Some (i, b, length) else best | None => best end)).
    intros [[[s c] k]|]; simpl; setoid_rewrite Hiff; done.
Qed.

Section Select.
Context {g : Ghost} {t : PathStateTable}.
Hypothesis H : Inv g t.
Let B := mount_bindings t.

(** For a qualification that only accepts records in use. *)
Lemma select_best_spec q : (forall s b, q s b <> None -> in_use b = true) ->
  match select t q with
  | None => forall s b, get B s = Some b -> q s b = None
  | Some (s, b, n) => get B s = Some b /\ q s b = Some n /\
      forall s' b' n', get B s' = Some b' -> q s' b' = Some n' -> yields s b n s' b' n'
  end.
Proof.
  intros Hq. pose proof (iv_bindings _ _ H) as Hok. fold B in Hok.
  pose proof (select_loop_best q (p_records B) 0 (fun _ _ => False) None ltac:(done) ltac:(by intros ? ? ?)) as Hs.
  change (select_loop q 0 (p_records B) None) with (select t q) in Hs. clearbody B.
  assert (forall s b, get B s = Some b -> False \/ exists j : nat, p_records B !! j = Some b /\ s = 0 + Z.of_nat j) as Hin.
  { intros s b Hb. right. exists (Z.to_nat s). pose proof (get_range Hok _ _ Hb). apply (get_entry_at Hok) in Hb as [Hb _]. split; [done|lia]. }
  destruct (select t q) as [[[s b] n]|]; simpl in Hs.
  - destruct Hs as ([[]|(j & Hj & ->)] & Hn & Hbest). split; [|split; [done|]].
    + rewrite Z.add_0_l in *. apply (entry_at_get Hok). split; [done|]. apply (Hq (Z.of_nat j)). by rewrite Hn.
    + intros s' b' n' Hb'. apply Hbest. by apply Hin.
  - intros s b Hb. apply Hs. by apply Hin.
Qed.

Lemma child_in_use ns guest parent s b : (fun _ : Z => child_length ns guest parent) s b <> None -> in_use b = true.
Proof. unfold child_length. by destruct (in_use b). Qed.

Lemma child_facts ns guest parent b n : child_length ns guest parent b = Some n ->
  in_use b = true /\ mb_mount_namespace_slot b = ns /\ parent_mount_id b = parent /\ detached b = false /\
  PathLength (Some (target_guest b)) = inr n /\ PathPrefixMatches guest (target_guest b) n = true.
Proof.
  unfold child_length. destruct (in_use b); [|done]. destruct (Z.eqb_spec (mb_mount_namespace_slot b) ns); [|done].
  destruct (Z.eqb_spec (parent_mount_id b) parent); [|done]. destruct (detached b); [done|]. cbn [negb orb].
  destruct (PathLength _) as [|k]; [done|]. destruct (PathPrefixMatches _ _ _) eqn:E; [|done]. by intros [= <-].
Qed.

(** ** The way down *)

(** No child of [parent] covers the path. *)
Definition uncovered (ns : Z) (guest : Path) (parent : Z) : Prop :=
  forall s b, get B s = Some b -> child_length ns guest parent b = None.

(** [b], in slot [s], is the child of [p] the path goes to: the longest target,
    then the newest. *)
Definition best_child (ns : Z) (guest : Path) (p s : Z) (b : MountBindingState) : Prop :=
  get B s = Some b /\ exists n, child_length ns guest p b = Some n /\
    forall s' b' n', get B s' = Some b' -> child_length ns guest p b' = Some n' -> yields s b n s' b' n'.

(** The mounts passed from [parent] to the one selected: each the best child of the one before. *)
Inductive leads (ns : Z) (guest : Path) : Z -> option Z -> option Z -> nat -> Prop :=
| leads_end p sel : uncovered ns guest p -> leads ns guest p sel sel O
| leads_on p sel s b r k : best_child ns guest p s b ->
    leads ns guest (mount_id b) (Some s) r k -> leads ns guest p sel r (S k).

Lemma best_child_fun ns guest p s b s' b' : best_child ns guest p s b -> best_child ns guest p s' b' -> s = s' /\ b = b'.
Proof.
  intros (Hg & n & Hn & Hbest) (Hg' & n' & Hn' & Hbest').
  assert (s = s') as -> by (destruct (Hbest _ _ _ Hg' Hn'), (Hbest' _ _ _ Hg Hn); lia). split; [done|congruence].
Qed.

Lemma leads_fun ns guest p sel r k : leads ns guest p sel r k -> forall r' k', leads ns guest p sel r' k' -> r = r' /\ k = k'.
Proof.
  induction 1 as [p sel Hu|p sel s b r k Hb _ IH]; intros r' k' H'.
  - inversion H' as [|? ? s b ? ? (Hg & n & Hn & _)]; subst; [done|]. by rewrite (Hu _ _ Hg) in Hn.
  - inversion H' as [? ? Hu|? ? s' b' ? k1 Hb' Hl]; subst; [destruct Hb as (Hg & n & Hn & _); by rewrite (Hu _ _ Hg) in Hn|].
    destruct (best_child_fun _ _ _ _ _ _ _ Hb Hb') as [-> ->]. destruct (IH _ _ Hl) as [-> ->]. done.
Qed.

(** The loop stops at such a mount, unless the depth is used up. *)
Lemma resolve_leads ns guest depth : forall p sel,
  (exists k, (k < depth)%nat /\ leads ns guest p sel (resolve_loop depth t ns guest p sel) k) \/
  (resolve_loop depth t ns guest p sel = None /\ forall k, rises (root_mount_id (namespace_at t ns)) (parent_of B ns) k p ->
    (forall s b, get B s = Some b -> mb_mount_namespace_slot b = ns -> mount_id b <> root_mount_id (namespace_at t ns)) ->
    exists x, rises (root_mount_id (namespace_at t ns)) (parent_of B ns) (k + depth) x).
Proof.
  induction depth as [|depth IH]; intros p sel; cbn [resolve_loop].
  { right. split; [done|]. intros k Hk _. exists p. by rewrite Nat.add_0_r. }
  pose proof (select_best_spec (fun _ => child_length ns guest p) (child_in_use ns guest p)) as Hs.
  destruct (select t _) as [[[s b] n]|].
  - destruct Hs as (Hg & Hn & Hbest). destruct (IH (mount_id b) (Some s)) as [(k & Hk & Hl)|[Hnone Hdeep]].
    + left. exists (S k). split; [lia|]. econstructor; [|exact Hl]. split; [done|]. by exists n.
    + right. split; [done|]. intros k Hk Hne. destruct (child_facts _ _ _ _ _ Hn) as (_ & Hns & Hp & _).
      replace (k + S depth)%nat with (S k + depth)%nat by lia. apply (Hdeep (S k)); [|done].
      econstructor; [by apply (Hne s)| |exact Hk]. apply (parent_of_Some (iv_bindings _ _ H)). by exists s, b.
  - left. exists O. split; [lia|]. by constructor.
Qed.

Lemma leads_selected ns guest p sel r k : leads ns guest p sel r k -> r = sel \/
  exists s b, r = Some s /\ get B s = Some b /\ mb_mount_namespace_slot b = ns /\ detached b = false /\
    exists n, PathLength (Some (target_guest b)) = inr n /\ PathPrefixMatches guest (target_guest b) n = true.
Proof.
  induction 1 as [p sel Hu|p sel s b r k (Hg & n & Hn & _) Hl IH]; [by left|]. right.
  destruct IH as [->|?]; [|done]. exists s, b. destruct (child_facts _ _ _ _ _ Hn) as (_ & Hns & _ & Hd & Hlen & Hm).
  split_and!; try done. by exists n.
Qed.

(** ResolveVisibleMount in a namespace that is not full. *)
Lemma resolve_visible ns n guest : get (mount_namespaces t) ns = Some n -> g_open_namespace g <> Some ns ->
  count_if (in_namespace ns) B < kPathStateMountBindingCapacity ->
  exists k, leads ns guest (root_mount_id n) None (ResolveVisibleMount t ns guest) k.
Proof.
  intros Hn Ho Hc. assert (namespace_at t ns = n) as En by exact (get_at (iv_namespaces _ _ H) _ _ Hn).
  destruct (resolve_leads ns guest (Z.to_nat kPathStateMountBindingCapacity) (root_mount_id (namespace_at t ns)) None) as [(k & _ & Hl)|[_ Hdeep]].
  - exists k. unfold ResolveVisibleMount. by rewrite En in Hl |- *.
  - exfalso. rewrite En in Hdeep. destruct (Hdeep O ltac:(constructor)) as [x Hx].
    + intros s b Hb E. apply (iv_distinct _ _ H _ _ _ Hb). by rewrite E.
    + pose proof (rises_bound (iv_bindings _ _ H) _ _ _ _ Hx) as Hb. change (mount_bindings t) with B in Hb.
      unfold kPathStateMountBindingCapacity in Hb, Hc. lia.
Qed.

(** Whatever it selects is a mount of the namespace that covers the path. *)
Lemma resolve_selected ns guest s : ResolveVisibleMount t ns guest = Some s ->
  exists b, get B s = Some b /\ binding_at t s = b /\ mb_mount_namespace_slot b = ns /\ detached b = false /\
    exists n, PathLength (Some (target_guest b)) = inr n /\ PathPrefixMatches guest (target_guest b) n = true.
Proof.
  intros Hr. unfold ResolveVisibleMount in Hr.
  destruct (resolve_leads ns guest (Z.to_nat kPathStateMountBindingCapacity) (root_mount_id (namespace_at t ns)) None)
    as [(k & _ & Hl)|[Hnone _]]; [|congruence]. rewrite Hr in Hl.
  destruct (leads_selected _ _ _ _ _ _ Hl) as [?|(s' & b & [= <-] & Hb & Hns & Hd & Hn)]; [done|].
  exists b. split; [done|]. split; [exact (get_at (iv_bindings _ _ H) _ _ Hb)|done].
Qed.

Lemma resolve_exact ns guest s : ResolveVisibleExactMount t ns guest = Some s ->
  ResolveVisibleMount t ns guest = Some s /\
  exists b, get B s = Some b /\ binding_at t s = b /\ mb_mount_namespace_slot b = ns /\ detached b = false /\
    PathEquals (target_guest b) guest = true.
Proof.
  unfold ResolveVisibleExactMount. destruct (ResolveVisibleMount t ns guest) as [s'|] eqn:E; [|done].
  destruct (PathEquals _ _) eqn:Ee; [|done]. intros [= <-]. split; [done|].
  destruct (resolve_selected ns guest s' E) as (b & Hb & Hat & Hns & Hd & _). exists b. rewrite Hat in Ee. done.
Qed.
End Select.

(** ** Being below a mount *)

Section Below.
Context {g : Ghost} {t : PathStateTable}.
Hypothesis H : Inv g t.
Context {ns : Z} {n : MountNamespaceState}.
Hypothesis Hn : get (mount_namespaces t) ns = Some n.
Hypothesis Ho : g_open_namespace g <> Some ns.
Let root := root_mount_id n.
Let parents := parent_of (mount_bindings t) ns.

Lemma parent_find id : parents id = option_map (fun s => parent_mount_id (binding_at t s)) (FindMountBindingById t ns id).
Proof. done. Qed.

Lemma descends_below a depth : forall k p, rises root parents k p -> (k < depth)%nat ->
  descends_loop depth t ns p a = true <-> below root parents a p.
Proof.
  assert (namespace_at t ns = n) as En by exact (get_at (iv_namespaces _ _ H) _ _ Hn).
  induction depth as [|depth IH]; intros k p Hk Hlt; [lia|]. cbn [descends_loop]. rewrite En. fold root.
  destruct (Z.eqb_spec p a) as [->|Ha]; [split; [constructor|done]|].
  destruct (Z.eqb_spec p root) as [Er|Er].
  - split; [done|]. intros Hb. inversion Hb as [|? q Hp]; subst; [by destruct Ha|by destruct Hp].
  - inversion Hk as [|? q k' Hp Hq Hk']; subst; [by destruct Er|]. pose proof Hq as Hf. rewrite parent_find in Hf.
    destruct (FindMountBindingById t ns p) as [s|]; [|done]. injection Hf as ->. rewrite (IH k' q Hk' ltac:(lia)). split.
    + intros Hb. by apply (below_up _ _ _ p q).
    + intros Hb. inversion Hb as [|? q' _ Hq' Hb']; subst; [by destruct Ha|]. by simplify_eq.
Qed.

Lemma rooted_rank s b : get (mount_bindings t) s = Some b -> mb_mount_namespace_slot b = ns ->
  exists k, (S k <= Z.to_nat kPathStateMountBindingCapacity)%nat /\ rises root parents k (parent_mount_id b) /\
    parents (mount_id b) = Some (parent_mount_id b) /\ mount_id b <> root.
Proof.
  intros Hb E. destruct (inv_rooted ns n H Hn Ho _ _ Hb E) as [k Hk]. pose proof (iv_bindings _ _ H) as Hok.
  assert (parents (mount_id b) = Some (parent_mount_id b)) as Hp by (apply (parent_of_Some Hok); by exists s, b).
  assert (mount_id b <> root) as Hne by (apply (iv_distinct _ _ H _ _ _ Hb); by rewrite E).
  pose proof (rises_bound Hok _ _ _ _ Hk) as Hle. pose proof (count_if_bounds Hok (in_namespace ns)). pose proof (p_count_bounds Hok) as Hc.
  unfold kPathStateMountBindingCapacity in Hc |- *. inversion Hk as [Er|? q k' _ Hq Hk']; subst; [by destruct Hne|].
  fold parents in Hq. rewrite Hp in Hq. injection Hq as <-. exists k'. split_and!; [lia|done..].
Qed.

(** BindingDescendsFrom is the relation. *)
Lemma binding_descends s b a : get (mount_bindings t) s = Some b -> mb_mount_namespace_slot b = ns ->
  BindingDescendsFrom t b a = true <-> below root parents a (parent_mount_id b).
Proof.
  intros Hb E. destruct (rooted_rank s b Hb E) as (k & Hk & Hr & _). unfold BindingDescendsFrom. rewrite E.
  apply (descends_below a _ k); [done|lia].
Qed.

Lemma below_fun a p q : below root parents a p -> p <> a -> parents p = Some q -> below root parents a q.
Proof. intros Hb Hne Hq. inversion Hb as [|? q' _ Hq' Hb']; subst; [by destruct Hne|]. fold parents in Hq'. by simplify_eq. Qed.
End Below.
