(* ===== verification/PathReleases.v ===== *)
(** * Giving references back

    Release and Erase of the path state (tracer/path_state/storage_validation.inc):
    each consumes a reference the running code holds, and what only that
    reference kept alive is erased with everything it refers to. *)

From S2P Require Import Prelude SlotArray SlotPool GuestPath PathState PathStorage PathStateOps PathTaskOps PathFdOps PathStateInv PathViews PathSteps PathObjectSteps.
From stdpp Require Import list.
#[local] Open Scope Z_scope.

(** ** Loops over the slots of an array *)

Lemma for_slots_ind {S} (P : Z -> S -> Prop) cap body s : 0 <= cap -> P 0 s ->
  (forall k s, 0 <= k < cap -> P k s -> P (k + 1) (body k s)) -> P cap (for_slots cap body s).
Proof.
  intros Hc H0 Hstep. unfold for_slots.
  enough (forall n k s, (Z.of_nat n = cap - k) -> 0 <= k -> P k s ->
    P cap (foldl (fun s slot => body slot s) s (seqZ k (cap - k)))) as Hgen.
  { specialize (Hgen (Z.to_nat cap) 0 s). rewrite Z.sub_0_r in Hgen. apply Hgen; [lia|lia|done]. }
  clear H0 s. induction n as [|n IH]; intros k s Hn Hk HP.
  - rewrite seqZ_nil by lia. simpl. by replace cap with k by lia.
  - rewrite seqZ_cons by lia. simpl. replace (Z.pred (cap - k)) with (cap - Z.succ k) by lia.
    apply IH; [lia|lia|]. apply Hstep; [lia|done].
Qed.

(** An equation between the loops of two states. *)
Lemma for_slots_map {S S'} (g : S -> S') cap body body' s : (forall k s, g (body k s) = body' k (g s)) ->
  g (for_slots cap body s) = for_slots cap body' (g s).
Proof.
  intros Hg. unfold for_slots. generalize (seqZ 0 cap). intros l. revert s. induction l as [|k l IH]; intros s; [done|].
  simpl. by rewrite IH, Hg.
Qed.

(** A part of the state no iteration changes. *)
Lemma for_slots_same {S A} (f : S -> A) cap body s : (forall k s, f (body k s) = f s) -> f (for_slots cap body s) = f s.
Proof.
  intros Hf. unfold for_slots. generalize (seqZ 0 cap). intros l. revert s. induction l as [|k l IH]; intros s; [done|].
  simpl. by rewrite IH, Hf.
Qed.

(** ** What a release leaves alone *)

Definition others (t : PathStateTable) := (tasks t, fs_contexts t, fd_tables t, fd_identities t).

Lemma others_namespaces t p : others (with_namespaces t p) = others t.
Proof. done. Qed.

Lemma erase_mount_others t s : others (EraseMountBindingSlot t s) = others t.
Proof. done. Qed.

Lemma erase_namespace_others t s : others (EraseMountNamespaceSlot t s) = others t.
Proof.
  unfold EraseMountNamespaceSlot. rewrite others_namespaces.
  apply (for_slots_same others). intros k t'. by destruct (_ && _).
Qed.

Lemma release_handle_others t s : others (ReleaseMountNamespaceHandleReference t s) = others t.
Proof. unfold ReleaseMountNamespaceHandleReference. destruct (_ =? 0); [|done]. by rewrite erase_namespace_others. Qed.

Lemma release_tree_others t s : others (ReleaseMountTreeReference t s) = others t.
Proof. unfold ReleaseMountTreeReference. destruct (negb _); [done|]. by rewrite release_handle_others. Qed.

Lemma detach_others t s : others (DetachTreesFromNamespace t s) = others t /\
  mount_namespaces (DetachTreesFromNamespace t s) = mount_namespaces t /\
  mount_bindings (DetachTreesFromNamespace t s) = mount_bindings t.
Proof.
  unfold DetachTreesFromNamespace. split_and!; [apply (for_slots_same others)|apply (for_slots_same mount_namespaces)|
    apply (for_slots_same mount_bindings)]; intros k t'; by destruct (_ && _).
Qed.

Lemma release_namespace_others t s : others (ReleaseMountNamespaceTaskReference t s) = others t.
Proof.
  unfold ReleaseMountNamespaceTaskReference. destruct (task_refcount _ =? 0), (mn_refcount _ =? 0);
    rewrite ?erase_namespace_others, !others_namespaces;
    by rewrite ?(proj1 (detach_others _ _)).
Qed.

Lemma release_context_others t s : (tasks (ReleaseFsReference t s), fd_tables (ReleaseFsReference t s),
  fd_identities (ReleaseFsReference t s), mount_namespaces (ReleaseFsReference t s), mount_bindings (ReleaseFsReference t s)) =
  (tasks t, fd_tables t, fd_identities t, mount_namespaces t, mount_bindings t).
Proof. unfold ReleaseFsReference. by destruct (_ =? 0). Qed.

(** The mounts of the namespaces that remain. *)
Record Kept (t t' : PathStateTable) : Prop := {
  kp_namespaces : forall x, is_some (get (mount_namespaces t') x) = true -> is_some (get (mount_namespaces t) x) = true;
  kp_mounted : forall x id, mounted (mount_namespaces t) (mount_bindings t) x id ->
    is_some (get (mount_namespaces t') x) = true -> mounted (mount_namespaces t') (mount_bindings t') x id }.

#[export] Instance kept_preorder : PreOrder Kept.
Proof.
  split; [by split|]. intros t1 t2 t3 [A1 A2] [B1 B2]. split; [auto|]. intros x id Hm Hx. apply B2; auto.
Qed.

Lemma kept_known t t' x id : Kept t t' -> known (mount_namespaces t) (mount_bindings t) x id ->
  is_some (get (mount_namespaces t') x) = true -> known (mount_namespaces t') (mount_bindings t') x id.
Proof. intros [_ K] [->|Hm] Hx; [by left|right; auto]. Qed.

Lemma kept_same t t' : mount_namespaces t' = mount_namespaces t -> mount_bindings t' = mount_bindings t -> Kept t t'.
Proof. intros E1 E2. split; rewrite E1; [done|]. by rewrite E2. Qed.

(** ** Storing twice *)

Section Twice.
Context {A K : Type} `{SlotRecord A K} `{Inhabited A}.

Lemma put_put (p : Pool A) s r r' : put (put p s r) s r' = put p s r'.
Proof. unfold put. cbn. by rewrite list_insert_insert_eq. Qed.

Lemma vacate_put (p : Pool A) s r r' : vacate (put p s r) s r' = vacate p s r'.
Proof. unfold put, vacate. cbn. by rewrite list_insert_insert_eq. Qed.

Lemma at_slot_put (p : Pool A) s r : 0 <= s < Z.of_nat (length (p_records p)) -> at_slot (put p s r) s = r.
Proof. apply at_slot_insert_eq. Qed.
End Twice.

Lemma held_one l s : 0 < held (s :: l) s.
Proof. simpl. unfold one. rewrite Z.eqb_refl. pose proof (held_nonneg l s). lia. Qed.

Lemma held_length l s : held l s <= Z.of_nat (length l).
Proof. induction l as [|x l IH]; simpl; [lia|]. unfold one. destruct (_ =? _); lia. Qed.

Lemma held_cons l s x : held (s :: l) x = held l x + one (x =? s).
Proof. simpl. rewrite Z.eqb_sym. lia. Qed.

Lemma u32_pred x : 0 < x < 2 ^ 32 -> u32 (x - 1) = x - 1.
Proof. intros Hx. apply u32_small. lia. Qed.

Lemma u32_succ x : 0 <= x < UINT32_MAX -> u32 (x + 1) = x + 1.
Proof. intros Hx. unfold UINT32_MAX in Hx. apply u32_small. lia. Qed.

(** ** Contexts *)

Section Releases.
Context {f d n h i : list Z} {xt : option Z} {m b : Z} {t : PathStateTable}.

(** The count of a context is small: it is the number of tasks, and a few references of the running code. *)
Lemma context_refs {xn} s c : Inv (Held f d n h i xt xn m b) t -> (length f < 1000)%nat -> get (fs_contexts t) s = Some c ->
  fs_refcount c = count_if (uses_fs s) (tasks t) + held f s /\ 0 < fs_refcount c < 2000.
Proof.
  intros H Hl Hg. pose proof (iv_fs_refs _ _ H s) as Hr. rewrite (field_get _ _ _ Hg) in Hr. cbn [g_fs] in Hr.
  pose proof (iv_fs_live _ _ H _ _ Hg). pose proof (held_length f s).
  pose proof (count_if_bounds (iv_tasks _ _ H) (uses_fs s)) as Hc. pose proof (p_count_bounds (iv_tasks _ _ H)) as Hb.
  unfold kPathStateTaskCapacity in Hb. lia.
Qed.

Lemma held_context {xn} s : Inv (Held f d n h i xt xn m b) t -> 0 < held f s -> exists c, get (fs_contexts t) s = Some c.
Proof.
  intros H Hh. pose proof (iv_fs_refs _ _ H s) as Hr. cbn [g_fs] in Hr.
  pose proof (count_if_bounds (iv_tasks _ _ H) (uses_fs s)).
  destruct (field_pos fs_refcount (p := fs_contexts t) s) as (c & Hg & _); [lia|by exists c].
Qed.
End Releases.

(** What holds of the references of a context, with the one that is given back. *)
Lemma release_fs {f d n h i xt xn m b t} s : Inv (Held (s :: f) d n h i xt xn m b) t -> (length f < 900)%nat ->
  Inv (Held f d n h i xt xn m b) (ReleaseFsReference t s).
Proof.
  intros H Hf. pose proof (iv_contexts _ _ H) as Hok. destruct (held_context s H (held_one f s)) as [c Hg].
  destruct (context_refs s c H ltac:(simpl; lia) Hg) as [Hr Hb]. destruct (get_entry Hok _ _ Hg) as [He Hs].
  unfold ReleaseFsReference. rewrite (get_at Hok _ _ Hg), u32_pred by lia. cbn [fs_refcount set_fs_refcount].
  destruct (Z.eqb_spec (fs_refcount c - 1) 0) as [E|E].
  - unfold EraseFsContextSlot. inv_cbn. rewrite vacate_put. apply (vacate_fs s c H Hg). lia.
  - apply (put_fs _ _ c _ H Hg); try done.
    + cbn. lia.
    + intros x. rewrite held_cons. cbn [set_fs_refcount fs_refcount]. lia.
    + intros s' r Hr' Hrs. apply (iv_known _ _ H _ _ c Hr'). by rewrite Hrs.
Qed.

(** ** Namespaces *)

Lemma open_namespace {f d n h i xt m b t} s : Inv (Held f d n h i xt None m b) t -> Inv (Held f d n h i xt (Some s) m b) t.
Proof.
  intros H. inv_step H.
  - intros x r Hr _. by apply (iv_ns_live _ _ H _ _ Hr).
  - intros x bd r Hb Hr _. by apply (iv_walk _ _ H _ _ _ Hb Hr).
Qed.

Lemma open_table {f d n h i xn m b t} s : Inv (Held f d n h i None xn m b) t -> Inv (Held f d n h i (Some s) xn m b) t.
Proof. intros H. inv_step H. intros x r Hr _. by apply (iv_fd_live _ _ H _ _ Hr). Qed.

Lemma at_slot_get {A K} `{SlotRecord A K} `{Inhabited A} {cap vacant entry} {p : Pool A} s : pool_ok cap vacant entry p ->
  0 <= s < cap -> in_use (at_slot p s) = true -> get p s = Some (at_slot p s).
Proof. intros Hok Hs Hu. by apply (get_Some Hok). Qed.

(** What the erasure of one mount does to the lookups. *)
Lemma erase_mount_effect {g t} s bd r : Inv g t -> get (mount_bindings t) s = Some bd ->
  get (mount_namespaces t) (mb_mount_namespace_slot bd) = Some r ->
  let t' := EraseMountBindingSlot t s in
  (forall x, get (mount_bindings t') x = if decide (x = s) then None else get (mount_bindings t) x) /\
  (forall x, get (mount_namespaces t') x = if decide (x = mb_mount_namespace_slot bd)
    then Some (set_namespace_counts r (mn_refcount r) (u32 (binding_count r - 1)) (task_refcount r) (handle_refcount r))
    else get (mount_namespaces t) x) /\
  (forall x id, x <> mb_mount_namespace_slot bd -> mounted (mount_namespaces t) (mount_bindings t) x id ->
    mounted (mount_namespaces t') (mount_bindings t') x id).
Proof.
  intros H Hg Hr t'. pose proof (iv_bindings _ _ H) as HB. pose proof (iv_namespaces _ _ H) as HN.
  set (r' := set_namespace_counts r (mn_refcount r) (u32 (binding_count r - 1)) (task_refcount r) (handle_refcount r)).
  destruct (stays_in_use HN _ r r' Hr eq_refl) as [Hu _].
  assert (t' = with_bindings (with_namespaces t (put (mount_namespaces t) (mb_mount_namespace_slot bd) r'))
    (vacate (mount_bindings t) s (ClearMountBinding s))) as ->.
  { unfold t', EraseMountBindingSlot. by rewrite (get_at HB _ _ Hg), (get_at HN _ _ Hr). }
  inv_cbn. split_and!.
  - exact (get_vacate HB _ _ (ClearMountBinding s) Hg eq_refl).
  - exact (get_put HN _ _ r' Hr Hu).
  - intros x id Hx (r0 & Hr0 & Hid). exists r0. rewrite (get_put HN _ _ r' Hr Hu). destruct (decide _); [done|]. split; [done|].
    destruct Hid as [?|Hid]; [by left|right]. rewrite (parent_of_same HB (pool_ok_vacate HB s bd (ClearMountBinding s) Hg eq_refl eq_refl eq_refl)); [done|].
    intros bd' Hbd'. split; intros [y Hy]; exists y; revert Hy; rewrite (get_vacate HB _ _ (ClearMountBinding s) Hg eq_refl);
      destruct (decide _) as [->|]; try done. intros ?; congruence.
Qed.

(** A namespace nothing refers to is erased with its mounts. *)
Lemma erase_namespace {f d n h i xt m b t} s r : Inv (Held f d n h i xt (Some s) m b) t ->
  get (mount_namespaces t) s = Some r -> task_refcount r = 0 -> handle_refcount r = 0 ->
  Inv (Held f d n h i xt None m b) (EraseMountNamespaceSlot t s) /\ Kept t (EraseMountNamespaceSlot t s).
Proof.
  intros H Hg Ht Hh. unfold EraseMountNamespaceSlot. set (body := fun binding_slot t => _).
  set (P := fun k t' => Inv (Held f d n h i xt (Some s) m b) t' /\
    (exists r', get (mount_namespaces t') s = Some r' /\ task_refcount r' = 0 /\ handle_refcount r' = 0) /\
    (forall x bd, get (mount_bindings t') x = Some bd -> x < k -> mb_mount_namespace_slot bd <> s) /\
    (forall x, is_some (get (mount_namespaces t') x) = is_some (get (mount_namespaces t) x)) /\
    (forall x id, x <> s -> mounted (mount_namespaces t) (mount_bindings t) x id ->
      mounted (mount_namespaces t') (mount_bindings t') x id)).
  assert (P kPathStateMountBindingCapacity (for_slots kPathStateMountBindingCapacity body t)) as HP.
  { apply for_slots_ind; [done| |].
    - unfold P. split; [done|]. split; [by exists r|]. split; [|by split]. intros x bd Hx Hlt.
      pose proof (get_range (iv_bindings _ _ H) _ _ Hx). lia.
    - intros k t' Hk (H' & (r' & Hr' & Ht' & Hh') & Hno & Hsome & Hm). unfold body.
      destruct (in_use _ && _) eqn:E.
      + bool_hyps. rename H0 into Hu, H1 into Hs. apply (at_slot_get k (iv_bindings _ _ H') Hk) in Hu.
        set (bd := at_slot (mount_bindings t') k) in *. apply Z.eqb_eq in Hs. rewrite <- Hs in Hr'.
        destruct (erase_mount_effect k bd r' H' Hu Hr') as (E1 & E2 & E3). unfold P. split_and!.
        * eapply erase_mount; eauto. by rewrite Hs.
        * eexists. rewrite E2, decide_True by done. done.
        * intros x bd' Hx Hlt. rewrite E1 in Hx. destruct (decide _); [done|]. apply (Hno x); [done|lia].
        * intros x. rewrite E2. destruct (decide _) as [->|]; [|done]. simpl. rewrite <- Hsome. by rewrite Hr'.
        * intros x id Hx Hmo. apply E3; [congruence|]. by apply Hm.
      + unfold P. split; [done|]. split; [by exists r'|]. split; [|done]. intros x bd Hx Hlt.
        destruct (decide (x = k)) as [->|]; [|apply (Hno x); [done|lia]].
        intros Hs. rewrite <- (get_at (iv_bindings _ _ H') _ _ Hx) in Hs.
        pose proof (get_in_use (iv_bindings _ _ H') _ _ Hx) as Hu. rewrite <- (get_at (iv_bindings _ _ H') _ _ Hx) in Hu.
        rewrite Hu, Hs, Z.eqb_refl in E. done. }
  destruct HP as (H' & (r' & Hr' & Ht' & Hh') & Hno & Hsome & Hm). set (t' := for_slots _ _ _) in *. clearbody t'.
  assert (forall x, get (vacate (mount_namespaces t') s (ClearMountNamespace s)) x =
    if decide (x = s) then None else get (mount_namespaces t') x) as Hv by (by apply (get_vacate (iv_namespaces _ _ H') _ r')).
  split.
  - apply (vacate_ns s r' H'); try done. intros x bd Hx. apply (Hno x); [done|].
    pose proof (get_range (iv_bindings _ _ H') _ _ Hx). lia.
  - split; inv_cbn.
    + intros x. rewrite Hv. destruct (decide _); [done|]. by rewrite Hsome.
    + intros x id Hmo. rewrite Hv. destruct (decide _) as [|Hne]; [done|]. intros _. destruct (Hm x id Hne Hmo) as (r0 & Hr0 & Hid).
      exists r0. rewrite Hv. by rewrite decide_False.
Qed.

(** The counts of a namespace are small. *)
Lemma namespace_refs {f d n h i xt xn m b t} s r : Inv (Held f d n h i xt xn m b) t -> (length n < 1000)%nat -> (length h < 1000)%nat ->
  get (mount_namespaces t) s = Some r ->
  task_refcount r = count_if (uses_ns s) (tasks t) + held n s /\ handle_refcount r = count_if (handle_of s) (mount_trees t) + held h s /\
  0 <= task_refcount r < 2000 /\ 0 <= handle_refcount r < 2000 /\ mn_refcount r = task_refcount r + handle_refcount r.
Proof.
  intros H Hn Hh Hg. pose proof (iv_ns_refs _ _ H s) as Hr. rewrite (field_get _ _ _ Hg) in Hr. cbn [g_ns] in Hr.
  pose proof (iv_handle_refs _ _ H s) as Hr2. rewrite (field_get _ _ _ Hg) in Hr2. cbn [g_handles] in Hr2.
  pose proof (held_length n s). pose proof (held_length h s). pose proof (held_nonneg n s). pose proof (held_nonneg h s).
  pose proof (count_if_bounds (iv_tasks _ _ H) (uses_ns s)) as Hc. pose proof (p_count_bounds (iv_tasks _ _ H)) as Hb.
  pose proof (count_if_bounds (iv_trees _ _ H) (handle_of s)) as Hc2. pose proof (p_count_bounds (iv_trees _ _ H)) as Hb2.
  unfold kPathStateTaskCapacity, kPathStateMountTreeCapacity in *. pose proof (iv_total _ _ H _ _ Hg). lia.
Qed.

Lemma kept_put_ns {g t} s r r' : Inv g t -> get (mount_namespaces t) s = Some r -> mn_occupied r' = mn_occupied r ->
  root_mount_id r' = root_mount_id r -> Kept t (with_namespaces t (put (mount_namespaces t) s r')).
Proof.
  intros H Hg Ho Hroot. pose proof (iv_namespaces _ _ H) as Hok. destruct (stays_in_use Hok s r r' Hg Ho) as [Hu _].
  split; inv_cbn.
  - intros x. rewrite (get_put Hok _ _ _ Hg Hu). destruct (decide _) as [->|]; [by rewrite Hg|done].
  - intros x id Hm _. by apply (mounted_put Hok (mount_bindings t) s r r' x id Hg Hu Hroot).
Qed.

Lemma release_handle {f d n h i xt m b t} s : Inv (Held f d n (s :: h) i xt None m b) t -> (length n < 900)%nat -> (length h < 900)%nat ->
  Inv (Held f d n h i xt None m b) (ReleaseMountNamespaceHandleReference t s) /\
  Kept t (ReleaseMountNamespaceHandleReference t s).
Proof.
  intros H Hn Hh. pose proof (iv_namespaces _ _ H) as Hok. pose proof (iv_handle_refs _ _ H s) as Hr. cbn [g_handles] in Hr.
  pose proof (held_one h s). pose proof (count_if_bounds (iv_trees _ _ H) (handle_of s)) as Hc.
  destruct (field_pos handle_refcount (p := mount_namespaces t) s) as (r & Hg & Hf); [lia|].
  destruct (namespace_refs s r H ltac:(lia) ltac:(simpl; lia) Hg) as (E1 & E2 & B1 & B2 & E3).
  destruct (get_entry Hok _ _ Hg) as [He Hs]. unfold ReleaseMountNamespaceHandleReference.
  rewrite (get_at Hok _ _ Hg), !u32_pred by lia. set (r' := set_namespace_counts _ _ _ _ _). cbn [mn_refcount r' set_namespace_counts].
  pose proof (kept_put_ns s r r' H Hg eq_refl eq_refl) as HK.
  assert (forall x, held h x = held (s :: h) x + one (x =? s) * (handle_refcount r' - handle_refcount r)) as Hheld.
  { intros x. rewrite held_cons. cbn [r' set_namespace_counts handle_refcount]. lia. }
  assert (0 < task_refcount r \/ forall s' tree, get (mount_trees t) s' = Some tree -> tree_attached tree = true ->
    attached_namespace_slot tree <> s) as Hatt.
  { destruct (decide (0 < task_refcount r)) as [|Hz]; [by left|right]. intros s' tree Ht Ha E.
    destruct (iv_attached _ _ H _ _ Ht Ha) as [_ Hp]. rewrite E, (field_get _ _ _ Hg) in Hp. lia. }
  destruct (Z.eqb_spec (mn_refcount r - 1) 0) as [E|E].
  - assert (get (put (mount_namespaces t) s r') s = Some r') as Hg'.
    { destruct (stays_in_use Hok s r r' Hg eq_refl) as [Hu _]. by rewrite (get_put Hok _ _ _ Hg Hu), decide_True. }
    apply (open_namespace s) in H.
    assert (Inv (Held f d n h i xt (Some s) m b) (with_namespaces t (put (mount_namespaces t) s r'))) as H'.
    { apply (put_ns n h s r r' H Hg); try done; cbn [r' set_namespace_counts mn_refcount task_refcount handle_refcount]; lia. }
    destruct (erase_namespace s r' H' Hg') as [H2 K2]; [cbn; lia..|]. split; [done|]. by etrans.
  - split; [|done]. apply (put_ns n h s r r' H Hg); try done; cbn [r' set_namespace_counts mn_refcount task_refcount handle_refcount]; lia.
Qed.

(** ** Detaching trees *)

Lemma mod_4_cases x : x mod 4 = 0 \/ x mod 4 = 1 \/ x mod 4 = 2 \/ x mod 4 = 3.
Proof. pose proof (Z.mod_pos_bound x 4). lia. Qed.

Lemma detach_fields r : tree_fields r = true -> tree_fields (DetachMountTree r) = true /\ tree_attached (DetachMountTree r) = false.
Proof.
  unfold tree_fields. intros Hf. bool_hyps.
  assert (mt_state_flags r &&& not32 kMountTreeStateAttached = mt_state_flags r mod 4) as E.
  { change (not32 kMountTreeStateAttached) with (Z.lor (Z.ones 2) (not32 kMountTreeStateKnownFlags)).
    rewrite Z.land_lor_distr_r, Z.land_ones by done.
    match goal with Hz : zero (mt_state_flags r &&& _) = true |- _ => apply Z.eqb_eq in Hz; rewrite Hz end. apply Z.lor_0_r. }
  assert (exists k, mt_state_flags (DetachMountTree r) = k /\ (k = 2 \/ k = 3)) as (k & Ek & Hk).
  { eexists. split; [done|]. cbn [DetachMountTree mt_state_flags]. rewrite E.
    destruct (mod_4_cases (mt_state_flags r)) as [-> | [-> | [-> | ->]]]; cbn; auto. }
  unfold tree_attached, tree_detached. rewrite Ek. split; [|by destruct Hk as [-> | ->]].
  destruct Hk as [-> | ->]; cbn [DetachMountTree mt_reserved mt_generation handle_id source_mount_id mt_source_guest mt_source_host
    mt_reserved2 attached_namespace_slot attached_mount_id attached_target_guest]; 
    rewrite H, H6, H5, H4, H3, H2, H1; vm_compute; reflexivity.
Qed.

Lemma detach_tree_step {g t} k tree : Inv g t -> get (mount_trees t) k = Some tree ->
  let t' := with_trees t (put (mount_trees t) k (DetachMountTree tree)) in
  Inv g t' /\ tree_attached (DetachMountTree tree) = false /\
  forall x, get (mount_trees t') x = if decide (x = k) then Some (DetachMountTree tree) else get (mount_trees t) x.
Proof.
  intros H Hu t'. pose proof (iv_trees _ _ H) as Hok. destruct (get_entry Hok _ _ Hu) as [He Hs]. destruct (detach_fields tree He) as [Hf Ha].
  destruct (stays_in_use Hok k tree (DetachMountTree tree) Hu eq_refl) as [Hu' _]. split_and!; [|done|exact (get_put Hok _ _ _ Hu Hu')].
  destruct g as [f d n h i xt xn m b].
  apply (put_tree i k tree (DetachMountTree tree) H Hu); try done; [exact (iv_tree_live _ _ H _ _ Hu)|by rewrite Ha|].
  intros x. cbn [DetachMountTree mt_refcount]. lia.
Qed.

Lemma detach_trees {g t} s : Inv g t -> Inv g (DetachTreesFromNamespace t s) /\
  (forall x tree, get (mount_trees (DetachTreesFromNamespace t s)) x = Some tree -> tree_attached tree = true ->
    attached_namespace_slot tree <> s).
Proof.
  intros H. unfold DetachTreesFromNamespace. set (body := fun slot t => _).
  set (P := fun k t' => Inv g t' /\ (forall x tree, get (mount_trees t') x = Some tree -> x < k -> tree_attached tree = true ->
    attached_namespace_slot tree <> s)).
  assert (P kPathStateMountTreeCapacity (for_slots kPathStateMountTreeCapacity body t)) as [H' Hno].
  { apply for_slots_ind; [done| |].
    - split; [done|]. intros x tree Hx Hlt. pose proof (get_range (iv_trees _ _ H) _ _ Hx). lia.
    - intros k t' Hk [H' Hno]. pose proof (iv_trees _ _ H') as Hok. unfold body. destruct (in_use _ && _) eqn:E.
      + bool_hyps. rename H0 into Hu. apply (at_slot_get k Hok Hk) in Hu. set (tree := at_slot (mount_trees t') k) in *.
        destruct (detach_tree_step k tree H' Hu) as (HI & Ha & Hput). split; [exact HI|].
        * intros x tr. rewrite Hput. destruct (decide _) as [|Hne].
          -- intros [= <-] _. by rewrite Ha.
          -- intros Hx Hlt. apply (Hno x); [done|lia].
      + split; [done|]. intros x tree Hx Hlt Ha. destruct (decide (x = k)) as [->|]; [|apply (Hno x); [done|lia|done]].
        intros Hs. pose proof (get_in_use Hok _ _ Hx) as Hu. rewrite (get_at Hok _ _ Hx), Hu, Hs, Z.eqb_refl in E. done. }
  split; [done|]. intros x tree Hx. apply (Hno x tree Hx). by pose proof (get_range (iv_trees _ _ H') _ _ Hx); lia.
Qed.

Lemma detach_with_namespaces t p s :
  DetachTreesFromNamespace (with_namespaces t p) s = with_namespaces (DetachTreesFromNamespace t s) p.
Proof.
  unfold DetachTreesFromNamespace. symmetry. apply (for_slots_map (fun t => with_namespaces t p)). intros k t'. inv_cbn.
  by destruct (_ && _).
Qed.

(** ** The task reference of a namespace *)

Lemma namespaces_twice t p q : with_namespaces (with_namespaces t p) q = with_namespaces t q.
Proof. done. Qed.

Lemma trees_twice t p q : with_trees (with_trees t p) q = with_trees t q.
Proof. done. Qed.

(** The two stores of the namespace's record are one, after the detaching. *)
Lemma release_namespace_eq {g t} s r : Inv g t -> get (mount_namespaces t) s = Some r ->
  ReleaseMountNamespaceTaskReference t s =
  let t1 := if u32 (task_refcount r - 1) =? 0 then DetachTreesFromNamespace t s else t in
  let t2 := with_namespaces t1 (put (mount_namespaces t1) s
    (set_namespace_counts r (u32 (mn_refcount r - 1)) (binding_count r) (u32 (task_refcount r - 1)) (handle_refcount r))) in
  if u32 (mn_refcount r - 1) =? 0 then EraseMountNamespaceSlot t2 s else t2.
Proof.
  intros H Hg. pose proof (iv_namespaces _ _ H) as Hok. pose proof (get_range Hok _ _ Hg) as Hs.
  unfold ReleaseMountNamespaceTaskReference. rewrite (get_at Hok _ _ Hg). cbn [set_namespace_counts task_refcount].
  destruct (detach_others t s) as (_ & En & _).
  destruct (u32 (task_refcount r - 1) =? 0).
  - rewrite detach_with_namespaces. inv_cbn. rewrite at_slot_put by (by rewrite (pool_length Hok)).
    cbn [set_namespace_counts task_refcount mn_refcount binding_count handle_refcount]. by rewrite put_put, En, namespaces_twice.
  - inv_cbn. rewrite at_slot_put by (by rewrite (pool_length Hok)).
    cbn [set_namespace_counts task_refcount mn_refcount binding_count handle_refcount]. by rewrite put_put, namespaces_twice.
Qed.

Lemma release_namespace {f d n h i xt m b t} s : Inv (Held f d (s :: n) h i xt None m b) t -> (length n < 900)%nat -> (length h < 900)%nat ->
  Inv (Held f d n h i xt None m b) (ReleaseMountNamespaceTaskReference t s) /\
  Kept t (ReleaseMountNamespaceTaskReference t s).
Proof.
  intros H Hn Hh. pose proof (iv_namespaces _ _ H) as Hok. pose proof (iv_ns_refs _ _ H s) as Hr. cbn [g_ns] in Hr.
  pose proof (held_one n s). pose proof (count_if_bounds (iv_tasks _ _ H) (uses_ns s)) as Hc.
  destruct (field_pos task_refcount (p := mount_namespaces t) s) as (r & Hg & Hf); [lia|].
  destruct (namespace_refs s r H ltac:(simpl; lia) ltac:(lia) Hg) as (E1 & E2 & B1 & B2 & E3).
  destruct (get_entry Hok _ _ Hg) as [He Hs]. rewrite (release_namespace_eq s r H Hg), !u32_pred by lia.
  set (t1 := if task_refcount r - 1 =? 0 then DetachTreesFromNamespace t s else t).
  assert (Inv (Held f d (s :: n) h i xt None m b) t1 /\ mount_namespaces t1 = mount_namespaces t /\
    mount_bindings t1 = mount_bindings t /\ (0 < task_refcount r - 1 \/ forall s' tree, get (mount_trees t1) s' = Some tree ->
      tree_attached tree = true -> attached_namespace_slot tree <> s)) as (H1 & En & Eb & Hatt).
  { unfold t1. destruct (Z.eqb_spec (task_refcount r - 1) 0); [|split_and!; [done..|left; lia]].
    destruct (detach_trees s H) as [H1 Hno]. destruct (detach_others t s) as (_ & En & Eb). split_and!; [done..|by right]. }
  clearbody t1. rewrite <- En in Hg, Hok. set (r' := set_namespace_counts _ _ _ _ _).
  assert (Kept t t1) as K1 by (by apply kept_same).
  pose proof (kept_put_ns s r r' H1 Hg eq_refl eq_refl) as HK.
  assert (forall x, held n x = held (s :: n) x + one (x =? s) * (task_refcount r' - task_refcount r)) as Hheld.
  { intros x. rewrite held_cons. cbn [r' set_namespace_counts task_refcount]. lia. }
  cbv zeta. destruct (Z.eqb_spec (mn_refcount r - 1) 0) as [E|E].
  - assert (get (put (mount_namespaces t1) s r') s = Some r') as Hg'.
    { destruct (stays_in_use Hok s r r' Hg eq_refl) as [Hu _]. by rewrite (get_put Hok _ _ _ Hg Hu), decide_True. }
    apply (open_namespace s) in H1.
    assert (Inv (Held f d n h i xt (Some s) m b) (with_namespaces t1 (put (mount_namespaces t1) s r'))) as H'.
    { apply (put_ns n h s r r' H1 Hg); try done; cbn [r' set_namespace_counts mn_refcount task_refcount handle_refcount]; lia. }
    destruct (erase_namespace s r' H' Hg') as [H2 K2]; [cbn; lia..|]. split; [done|]. etrans; [exact K1|]. by etrans.
  - split; [|by etrans]. apply (put_ns n h s r r' H1 Hg); try done; cbn [r' set_namespace_counts mn_refcount task_refcount handle_refcount]; lia.
Qed.

(** ** Trees *)

Lemma tree_refs {f d n h i xt xn m b t} s r : Inv (Held f d n h i xt xn m b) t -> (length i < 1000)%nat ->
  get (mount_trees t) s = Some r ->
  mt_refcount r = count_if (to_tree s) (fd_identities t) + held i s /\ 0 < mt_refcount r < 6000.
Proof.
  intros H Hl Hg. pose proof (iv_tree_refs _ _ H s) as Hr. rewrite (field_get _ _ _ Hg) in Hr. cbn [g_trees] in Hr.
  pose proof (iv_tree_live _ _ H _ _ Hg). pose proof (held_length i s).
  pose proof (count_if_bounds (iv_identities _ _ H) (to_tree s)) as Hc. pose proof (p_count_bounds (iv_identities _ _ H)) as Hb.
  unfold kPathStateFdIdentityCapacity in Hb. lia.
Qed.

Lemma release_tree {f d n h i xt m b t} s : Inv (Held f d n h (s :: i) xt None m b) t ->
  (length n < 900)%nat -> (length h < 800)%nat -> (length i < 900)%nat ->
  Inv (Held f d n h i xt None m b) (ReleaseMountTreeReference t s) /\ Kept t (ReleaseMountTreeReference t s).
Proof.
  intros H Hn Hh Hi. pose proof (iv_trees _ _ H) as Hok. pose proof (iv_tree_refs _ _ H s) as Hr. cbn [g_trees] in Hr.
  pose proof (held_one i s). pose proof (count_if_bounds (iv_identities _ _ H) (to_tree s)) as Hc.
  destruct (field_pos mt_refcount (p := mount_trees t) s) as (r & Hg & Hf); [lia|].
  destruct (tree_refs s r H ltac:(simpl; lia) Hg) as [E1 B1]. destruct (get_entry Hok _ _ Hg) as [He Hs].
  unfold ReleaseMountTreeReference. rewrite (get_at Hok _ _ Hg), u32_pred by lia. cbn [set_tree_refcount mt_refcount].
  destruct (Z.eqb_spec (mt_refcount r - 1) 0) as [E|E]; cbn [negb].
  - inv_cbn. rewrite vacate_put. cbn [mt_mount_namespace_slot]. rewrite trees_twice.
    assert (Inv (Held f d n (mt_mount_namespace_slot r :: h) i xt None m b)
      (with_trees t (vacate (mount_trees t) s (ClearMountTree s)))) as H' by (apply vacate_tree; [done|done|lia]).
    apply release_handle in H'; [|lia..]. destruct H' as [H' K']. split; [exact H'|]. etrans; [|exact K']. by apply kept_same.
  - split; [|by apply kept_same]. apply (put_tree _ _ r _ H Hg); try done; [cbn; lia|].
    intros x. rewrite held_cons. cbn [set_tree_refcount mt_refcount]. lia.
Qed.

(** ** Identities and descriptor tables *)

Lemma others_split t t' : others t' = others t ->
  tasks t' = tasks t /\ fs_contexts t' = fs_contexts t /\ fd_tables t' = fd_tables t /\ fd_identities t' = fd_identities t.
Proof. unfold others. intros [= -> -> -> ->]. done. Qed.

(** What the erasure of an identity changes, besides what its tree kept alive. *)
Lemma erase_identity_others t s :
  let r := at_slot (fd_identities t) s in
  let o := at_slot (fd_tables t) (fi_fd_table_slot r) in
  let t' := EraseIdentitySlot t s in
  tasks t' = tasks t /\ fs_contexts t' = fs_contexts t /\
  fd_tables t' = put (fd_tables t) (fi_fd_table_slot r) (set_fd_counts o (ft_refcount o) (u32 (entry_count o - 1))
    (if identity_protected r then u32 (protected_count o - 1) else protected_count o)) /\
  fd_identities t' = vacate (fd_identities t) s (ClearFdIdentity s).
Proof.
  cbv zeta. unfold EraseIdentitySlot. destruct (_ && _); [|done].
  destruct (others_split _ _ (release_tree_others (with_identities (with_fd_tables t (put (fd_tables t)
    (fi_fd_table_slot (at_slot (fd_identities t) s)) (set_fd_counts (at_slot (fd_tables t) (fi_fd_table_slot (at_slot (fd_identities t) s)))
    (ft_refcount (at_slot (fd_tables t) (fi_fd_table_slot (at_slot (fd_identities t) s))))
    (u32 (entry_count (at_slot (fd_tables t) (fi_fd_table_slot (at_slot (fd_identities t) s))) - 1))
    (if identity_protected (at_slot (fd_identities t) s) then
      u32 (protected_count (at_slot (fd_tables t) (fi_fd_table_slot (at_slot (fd_identities t) s))) - 1)
     else protected_count (at_slot (fd_tables t) (fi_fd_table_slot (at_slot (fd_identities t) s)))))))
    (vacate (fd_identities t) s (ClearFdIdentity s))) (object_slot (at_slot (fd_identities t) s)))) as (E1 & E2 & E3 & E4).
  done.
Qed.

Lemma erase_identity {f d n h i xt m b t} s r : Inv (Held f d n h i xt None m b) t -> get (fd_identities t) s = Some r ->
  (length n < 900)%nat -> (length h < 800)%nat -> (length i < 800)%nat ->
  Inv (Held f d n h i xt None m b) (EraseIdentitySlot t s) /\ Kept t (EraseIdentitySlot t s).
Proof.
  intros H Hg Hn Hh Hi. destruct (identity_table H _ _ Hg) as [o Ho]. pose proof (iv_identities _ _ H) as Hok.
  destruct (get_entry Hok _ _ Hg) as [[_ Hob] _]. unfold EraseIdentitySlot. rewrite (get_at Hok _ _ Hg), (get_at (iv_tables _ _ H) _ _ Ho).
  destruct (Z.eqb_spec (object_kind r) kFdIdentityObjectMountTree) as [Hk|Hk].
  - destruct (identity_tree H _ _ Hg Hk) as [tree Ht]. pose proof (get_range (iv_trees _ _ H) _ _ Ht).
    replace (object_slot r <? kPathStateMountTreeCapacity) with true by lia. cbn [andb].
    assert (forall x, held (object_slot r :: i) x = held i x + one (to_tree x r)) as Hx.
    { intros x. simpl. unfold to_tree. rewrite Hk. simpl. lia. }
    pose proof (erase_identity_step (object_slot r :: i) s r o H Hg Ho Hx) as H'.
    destruct (release_tree (object_slot r) H') as [H2 K2]; [lia..|]. split; [exact H2|]. etrans; [|exact K2]. by apply kept_same.
  - cbn [andb]. split; [|by apply kept_same]. apply (erase_identity_step i s r o H Hg Ho).
    intros x. unfold to_tree. replace (_ =? kFdIdentityObjectMountTree) with false by lia. simpl. lia.
Qed.

(** Erasing every identity that satisfies a predicate. *)
Definition erase_where (P : FdIdentity -> bool) (t : PathStateTable) : PathStateTable :=
  for_slots kPathStateFdIdentityCapacity (fun slot t =>
    if in_use (at_slot (fd_identities t) slot) && P (at_slot (fd_identities t) slot) then EraseIdentitySlot t slot else t) t.

Record Erased (P : FdIdentity -> bool) (t t' : PathStateTable) : Prop := {
  er_kept : Kept t t';
  er_tasks : tasks t' = tasks t;
  er_contexts : fs_contexts t' = fs_contexts t;
  er_tables : forall x, is_some (get (fd_tables t') x) = is_some (get (fd_tables t) x);
  er_refs : forall x, field ft_refcount (fd_tables t') x = field ft_refcount (fd_tables t) x;
  er_identities : forall x, get (fd_identities t') x =
    match get (fd_identities t) x with Some r => if P r then None else Some r | None => None end }.

(** The effect of the erasure on the tables. *)
Lemma erase_identity_tables {f d n h i xt xn m b t} s r : Inv (Held f d n h i xt xn m b) t -> get (fd_identities t) s = Some r ->
  (forall x, is_some (get (fd_tables (EraseIdentitySlot t s)) x) = is_some (get (fd_tables t) x)) /\
  (forall x, field ft_refcount (fd_tables (EraseIdentitySlot t s)) x = field ft_refcount (fd_tables t) x).
Proof.
  intros H Hg. destruct (identity_table H _ _ Hg) as [o Ho]. destruct (erase_identity_others t s) as (_ & _ & E & _).
  rewrite (get_at (iv_identities _ _ H) _ _ Hg), (get_at (iv_tables _ _ H) _ _ Ho) in E. rewrite E.
  destruct (table_counted _ o (u32 (entry_count o - 1)) (if identity_protected r then u32 (protected_count o - 1) else protected_count o) H Ho)
    as (_ & D2 & _ & _ & D5). done.
Qed.

Lemma erase_where_step {f d n h i xt m b t} (P : FdIdentity -> bool) : Inv (Held f d n h i xt None m b) t ->
  (length n < 900)%nat -> (length h < 800)%nat -> (length i < 800)%nat ->
  Inv (Held f d n h i xt None m b) (erase_where P t) /\ Erased P t (erase_where P t).
Proof.
  intros H Hn Hh Hi. unfold erase_where. set (body := fun slot t => _).
  set (Q := fun k t' => Inv (Held f d n h i xt None m b) t' /\ Erased (fun r => (fi_slot r <? k) && P r) t t').
  assert (forall s r, get (fd_identities t) s = Some r -> fi_slot r = s) as Hsl.
  { intros s r Hg. by destruct (get_entry (iv_identities _ _ H) _ _ Hg). }
  assert (Q kPathStateFdIdentityCapacity (for_slots kPathStateFdIdentityCapacity body t)) as HQ.
  { apply for_slots_ind; [done| |].
    - split; [done|]. split; try done. intros x. destruct (get _ x) as [r0|] eqn:E; [|done]. rewrite (Hsl _ _ E).
      pose proof (get_range (iv_identities _ _ H) _ _ E). by replace (x <? 0) with false by lia.
    - intros k t' Hk (H' & [K Et Ef Ed Er Hids]). pose proof (iv_identities _ _ H') as Hok. unfold body.
      destruct (in_use _ && _) eqn:E.
      + apply andb_true_iff in E as [Hu HP]. apply (at_slot_get k Hok Hk) in Hu. set (rk := at_slot (fd_identities t') k) in *.
        destruct (erase_identity k rk H' Hu Hn Hh Hi) as [H2 K2]. destruct (erase_identity_others t' k) as (E1 & E2 & _ & E4).
        destruct (erase_identity_tables k rk H' Hu) as [D1 D2]. split; [done|].
        split; [by etrans|congruence|congruence|intros x; by rewrite D1|intros x; by rewrite D2|].
        intros x. rewrite E4, (get_vacate Hok _ _ _ Hu) by done. rewrite Hids. destruct (decide _) as [->|].
        * rewrite Hids in Hu. destruct (get (fd_identities t) k) as [r0|] eqn:E0; [|done]. rewrite (Hsl _ _ E0) in Hu |- *.
          replace (k <? k) with false in Hu by lia. simpl in Hu. injection Hu as ->.
          replace (k <? k + 1) with true by lia. by rewrite HP.
        * destruct (get _ x) as [r0|] eqn:E0; [|done]. rewrite (Hsl _ _ E0). by replace (x <? k + 1) with (x <? k) by lia.
      + split; [done|]. split; try done. intros x. rewrite Hids. destruct (get (fd_identities t) x) as [r0|] eqn:Ex; [|done].
        rewrite (Hsl _ _ Ex). destruct (decide (x = k)) as [->|]; [|by replace (x <? k + 1) with (x <? k) by lia].
        replace (k <? k) with false by lia. replace (k <? k + 1) with true by lia. simpl.
        specialize (Hids k). rewrite Ex, (Hsl _ _ Ex) in Hids. replace (k <? k) with false in Hids by lia. simpl in Hids.
        rewrite (get_at Hok _ _ Hids), (get_in_use Hok _ _ Hids) in E. simpl in E. by rewrite E. }
  revert HQ. generalize (for_slots kPathStateFdIdentityCapacity body t). intros t' (H' & [K Et Ef Ed Er Hids]).
  split; [done|]. split; try done. intros x. rewrite Hids. destruct (get (fd_identities t) x) as [r0|] eqn:E; [|done].
  rewrite (Hsl _ _ E). pose proof (get_range (iv_identities _ _ H) _ _ E). by replace (x <? kPathStateFdIdentityCapacity) with true by lia.
Qed.

(** A table whose last reference is gone is erased with its identities. *)
Lemma erase_table {f d n h i m b t} s r : Inv (Held f d n h i (Some s) None m b) t -> get (fd_tables t) s = Some r ->
  ft_refcount r = 0 -> (length n < 900)%nat -> (length h < 800)%nat -> (length i < 800)%nat ->
  let t' := EraseFdTableSlot t s in
  Inv (Held f d n h i None None m b) t' /\ Kept t t' /\ tasks t' = tasks t /\ fs_contexts t' = fs_contexts t /\ Files t t'.
Proof.
  intros H Hg Hr Hn Hh Hi. destruct (erase_where_step (in_table s) H Hn Hh Hi) as [H' [K Et Ef Ed Er Hids]]. cbv zeta.
  assert (EraseFdTableSlot t s = with_fd_tables (erase_where (in_table s) t) (vacate (fd_tables (erase_where (in_table s) t)) s (ClearFdTable s))) as ->
    by (unfold EraseFdTableSlot, erase_where, in_table; reflexivity).
  revert H' K Et Ef Ed Er Hids. generalize (erase_where (in_table s) t). intros t' H' K Et Ef Ed Er Hids.
  assert (forall x, get (vacate (fd_tables t') s (ClearFdTable s)) x = if decide (x = s) then None else get (fd_tables t') x) as Hv.
  { specialize (Ed s). rewrite Hg in Ed. destruct (get (fd_tables t') s) as [r'|] eqn:Hr'; [|done]. by apply (get_vacate (iv_tables _ _ H') _ r'). }
  split_and!; [|by etrans; [exact K|apply kept_same]|done|done|].
  2:{ split; cbn [with_fd_tables fd_tables fd_identities].
    - intros x. rewrite Hv. destruct (decide _); [done|]. by rewrite Ed.
    - intros x rx. rewrite Hids. destruct (get (fd_identities t) x) as [r0|]; [|done]. unfold in_table. by destruct (_ =? s).
    - intros x rx Hx. rewrite Hv. destruct (decide _); [done|]. intros _. rewrite Hids, Hx. unfold in_table.
      by replace (_ =? s) with false by lia. }
  specialize (Ed s). rewrite Hg in Ed. specialize (Er s). rewrite (field_get _ _ _ Hg) in Er. destruct (get (fd_tables t') s) as [r'|] eqn:Hr'; [|done].
  rewrite (field_get _ _ _ Hr') in Er. apply (vacate_table s r' H' Hr'); [congruence|]. intros x rx. rewrite Hids. destruct (get (fd_identities t) x) as [r0|]; [|done].
  unfold in_table. destruct (Z.eqb_spec (fi_fd_table_slot r0) s); [done|]. by intros [= <-].
Qed.

Lemma table_refs {f d n h i xt xn m b t} s r : Inv (Held f d n h i xt xn m b) t -> (length d < 1000)%nat ->
  get (fd_tables t) s = Some r ->
  ft_refcount r = count_if (uses_fd s) (tasks t) + held d s /\ 0 <= ft_refcount r < 2000.
Proof.
  intros H Hl Hg. pose proof (iv_fd_refs _ _ H s) as Hr. rewrite (field_get _ _ _ Hg) in Hr. cbn [g_fd] in Hr.
  pose proof (held_length d s). pose proof (held_nonneg d s).
  pose proof (count_if_bounds (iv_tasks _ _ H) (uses_fd s)) as Hc. pose proof (p_count_bounds (iv_tasks _ _ H)) as Hb.
  unfold kPathStateTaskCapacity in Hb. lia.
Qed.

Lemma held_table {f d n h i xt xn m b t} s : Inv (Held f d n h i xt xn m b) t -> 0 < held d s -> exists r, get (fd_tables t) s = Some r.
Proof.
  intros H Hh. pose proof (iv_fd_refs _ _ H s) as Hr. cbn [g_fd] in Hr. pose proof (count_if_bounds (iv_tasks _ _ H) (uses_fd s)).
  destruct (field_pos ft_refcount (p := fd_tables t) s) as (c & Hg & _); [lia|by exists c].
Qed.

Lemma held_namespace {f d n h i xt xn m b t} s : Inv (Held f d n h i xt xn m b) t -> 0 < held n s ->
  exists r, get (mount_namespaces t) s = Some r.
Proof.
  intros H Hh. pose proof (iv_ns_refs _ _ H s) as Hr. cbn [g_ns] in Hr. pose proof (count_if_bounds (iv_tasks _ _ H) (uses_ns s)).
  destruct (field_pos task_refcount (p := mount_namespaces t) s) as (c & Hg & _); [lia|by exists c].
Qed.

Lemma release_table {f d n h i m b t} s : Inv (Held f (s :: d) n h i None None m b) t -> (length d < 900)%nat ->
  (length n < 900)%nat -> (length h < 800)%nat -> (length i < 800)%nat ->
  let t' := ReleaseFdTableReference t s in
  Inv (Held f d n h i None None m b) t' /\ Kept t t' /\ tasks t' = tasks t /\ fs_contexts t' = fs_contexts t /\ Files t t'.
Proof.
  intros H Hd Hn Hh Hi. pose proof (iv_tables _ _ H) as Hok. destruct (held_table s H (held_one d s)) as [r Hg].
  destruct (table_refs s r H ltac:(simpl; lia) Hg) as [E1 B1]. destruct (get_entry Hok _ _ Hg) as [He Hs].
  assert (0 < ft_refcount r) as Hpos by (by apply (iv_fd_live _ _ H _ _ Hg)).
  cbv zeta. unfold ReleaseFdTableReference. rewrite (get_at Hok _ _ Hg), u32_pred by lia. cbn [set_fd_counts ft_refcount].
  set (r' := set_fd_counts _ _ _ _).
  assert (forall x, held d x = held (s :: d) x + one (x =? s) * (ft_refcount r' - ft_refcount r)) as Hheld.
  { intros x. rewrite held_cons. cbn [r' set_fd_counts ft_refcount]. lia. }
  destruct (stays_in_use Hok s r r' Hg eq_refl) as [Hu _].
  assert (Files t (with_fd_tables t (put (fd_tables t) s r'))) as HF.
  { split; cbn [with_fd_tables fd_tables fd_identities]; [|done|done].
    intros x. rewrite (get_put Hok _ _ _ Hg Hu). destruct (decide _) as [->|]; [by rewrite Hg|done]. }
  destruct (Z.eqb_spec (ft_refcount r - 1) 0) as [E|E].
  - assert (Inv (Held f d n h i (Some s) None m b) (with_fd_tables t (put (fd_tables t) s r'))) as H'.
    { apply (put_table d s r r' (open_table s H) Hg); done. }
    assert (get (put (fd_tables t) s r') s = Some r') as Hg'.
    { by rewrite (get_put Hok _ _ _ Hg Hu), decide_True. }
    destruct (erase_table s r' H' Hg') as (H2 & K2 & E2 & E3 & F2); [cbn; lia|lia..|]. split_and!; [exact H2| |done|done|].
    + etrans; [|exact K2]. by apply kept_same.
    + etrans; [exact HF|exact F2].
  - split_and!; [|by apply kept_same|done|done|exact HF]. apply (put_table d s r r' H Hg); try done. intros _. cbn. lia.
Qed.
