(* ===== verification/PathCopies.v ===== *)
(** * Copying contexts, descriptor tables and namespaces

    The copies of clone, exec, unshare and close_range: what the copy of a
    table or of a namespace contains, and that no copy fails when the slots it
    needs are free. A path copied into a record is padded with NUL bytes. *)

From S2P Require Import Prelude SlotArray SlotPool GuestPath GuestPathText PathState PathStorage PathStateOps PathTaskOps PathFdOps PathStateInv PathViews PathSteps PathObjectSteps PathReleases.
From stdpp Require Import list.
#[local] Open Scope Z_scope.

Lemma next_generation_nonzero x : NextGeneration x <> 0.
Proof. unfold NextGeneration. destruct (Z.eqb_spec (u64 (x + 1)) 0); lia. Qed.

(** ** Contexts *)

Definition context_copy (c : FsContext) (s : Z) : FsContext :=
  Build_FsContext 1 s 1 (cwd_origin_flags c) (NextGeneration (fs_generation c)) (cwd_device c) (cwd_inode c) (cwd_mount_id c)
    (guest_cwd c) (host_cwd c) (root_origin_flags c) (fs_reserved c) (root_device c) (root_inode c) (fs_root_mount_id c)
    (guest_root c) (host_root c).

Lemma copy_context {f d n h i xt xn m b t} s src c : Inv (Held f d n h i xt xn m b) t -> get (fs_contexts t) src = Some c ->
  find_free (fs_contexts t) = Some s ->
  Inv (Held (s :: f) d n h i xt xn m b) (CopyFsContextToSlot t c s) /\
  (forall x, get (fs_contexts (CopyFsContextToSlot t c s)) x = if decide (x = s) then Some (context_copy c s) else get (fs_contexts t) x).
Proof.
  intros H Hg Hf. destruct (get_entry (iv_contexts _ _ H) _ _ Hg) as [He _]. split.
  - apply (occupy_fs s (context_copy c s) H Hf); try done. unfold fs_fields in *. cbn [context_copy fs_generation cwd_origin_flags
      fs_reserved root_origin_flags guest_cwd host_cwd guest_root host_root].
    assert (zero (NextGeneration (fs_generation c)) = false) as -> by apply Z.eqb_neq, next_generation_nonzero.
    destruct (zero (fs_generation c)); [done|exact He].
  - exact (get_occupy (iv_contexts _ _ H) s (context_copy c s) Hf eq_refl).
Qed.

(** ** Identities *)

Lemma retain_tree {f d n h i xt xn m b t} s tree : Inv (Held f d n h i xt xn m b) t -> (length i < 900)%nat ->
  get (mount_trees t) s = Some tree ->
  let t' := with_trees t (put (mount_trees t) s (set_tree_refcount tree (u32 (mt_refcount tree + 1)))) in
  RetainMountTreeReference t s = (0, t') /\ Inv (Held f d n h (s :: i) xt xn m b) t' /\
  (forall x tr, get (mount_trees t') x = Some tr -> exists tr0, get (mount_trees t) x = Some tr0 /\ mt_generation tr = mt_generation tr0).
Proof.
  intros H Hi Hg t'. pose proof (iv_trees _ _ H) as Hok. pose proof (get_range Hok _ _ Hg) as Hr.
  destruct (tree_refs s tree H ltac:(lia) Hg) as [E1 B1]. destruct (get_entry Hok _ _ Hg) as [He Hs].
  destruct (stays_in_use Hok s tree (set_tree_refcount tree (u32 (mt_refcount tree + 1))) Hg eq_refl) as [Hu _].
  unfold RetainMountTreeReference. rewrite (get_at Hok _ _ Hg), (get_in_use Hok _ _ Hg).
  replace (kPathStateMountTreeCapacity <=? s) with false by lia. cbn [orb negb].
  replace (mt_refcount tree =? UINT32_MAX) with false by (unfold UINT32_MAX; lia). split; [done|]. split.
  - apply (put_tree _ s tree _ H Hg); try done; [cbn; rewrite u32_small; lia|].
    intros x. rewrite held_cons. cbn [set_tree_refcount mt_refcount]. rewrite u32_small by lia. lia.
  - intros x tr. unfold t'. inv_cbn. rewrite (get_put Hok _ _ _ Hg Hu). destruct (decide _) as [->|].
    + intros [= <-]. by exists tree.
    + intros Hx. by exists tr.
Qed.

Lemma count_list_drop {A K} `{SlotRecord A K} (P : A -> bool) l k r : l !! k = Some r ->
  count_list P (drop k l) = (if in_use r && P r then 1 else 0) + count_list P (drop (S k) l).
Proof. intros Hk. by rewrite (drop_S _ _ _ Hk). Qed.

Lemma count_list_drop_insert {A K} `{SlotRecord A K} (P : A -> bool) l k j r r' : l !! j = Some r -> in_use r && P r = false ->
  in_use r' && P r' = false -> count_list P (drop k (<[j := r']> l)) = count_list P (drop k l).
Proof.
  intros Hj H0 H1. destruct (decide (j < k)%nat) as [|Hge]; [by rewrite drop_insert_lt|].
  rewrite drop_insert_ge by lia. rewrite (count_list_insert P _ _ r); [rewrite H0, H1; lia|].
  rewrite lookup_drop. by replace (k + (j - k))%nat with j by lia.
Qed.

(** The copy of an identity, and the state of the copying: the identities of
    the source in the slots before [k] have a copy. *)
Section CopyIdentities.
Context (f d n h i : list Z) (m b : Z) (source target : Z) (mode : FdCopyMode) (first last : Z) (t0 : PathStateTable).

Definition the_copy (r : FdIdentity) (s : Z) : FdIdentity :=
  copied_identity r s target (fi_fd r) (copied_cloexec mode first last r).

Record Copying (k : Z) (t : PathStateTable) : Prop := {
  cp_inv : Inv (Held f d n h i None None m b) t;
  cp_tasks : tasks t = tasks t0;
  cp_contexts : fs_contexts t = fs_contexts t0;
  cp_namespaces : mount_namespaces t = mount_namespaces t0;
  cp_bindings : mount_bindings t = mount_bindings t0;
  cp_target : is_some (get (fd_tables t) target) = true;
  cp_tables : forall x, x <> target -> get (fd_tables t) x = get (fd_tables t0) x;
  cp_kept : forall s r, get (fd_identities t0) s = Some r -> get (fd_identities t) s = Some r;
  cp_new : forall s r, get (fd_identities t) s = Some r -> get (fd_identities t0) s = Some r \/
    exists s0 r0, s0 < k /\ get (fd_identities t0) s0 = Some r0 /\ copied source mode first last r0 = true /\ r = the_copy r0 s;
  cp_all : forall s0 r0, s0 < k -> get (fd_identities t0) s0 = Some r0 -> copied source mode first last r0 = true ->
    exists s, get (fd_identities t) s = Some (the_copy r0 s);
  cp_room : p_count (fd_identities t) + count_list (copied source mode first last) (drop (Z.to_nat k) (p_records (fd_identities t))) <=
    kPathStateFdIdentityCapacity }.

Hypothesis distinct : source <> target.
Hypothesis fresh : forall s r, get (fd_identities t0) s = Some r -> fi_fd_table_slot r <> target.
Hypothesis old : exists g, Inv g t0.
Hypothesis few : (length i < 900)%nat.

Lemma copied_source r : copied source mode first last r = true -> fi_fd_table_slot r = source.
Proof. unfold copied. intros [?%Z.eqb_eq _]%andb_true_iff. done. Qed.

Lemma copied_target r : fi_fd_table_slot r = target -> copied source mode first last r = false.
Proof. intros E. unfold copied. by replace (_ =? source) with false by lia. Qed.

Lemma copy_fields r s : identity_fields r = true -> object_fields r = true ->
  identity_fields (the_copy r s) = true /\ object_fields (the_copy r s) = true.
Proof.
  intros Hf Ho. split; [|exact Ho]. unfold identity_fields in *. cbn [the_copy copied_identity fi_fd fi_directory fi_cloexec
    fi_reserved fi_reserved2 fi_reserved3 fi_mount_namespace_slot fi_mount_namespace_identity fi_mount_namespace_generation
    fi_origin_flags fi_guest_path fi_host_path].
  assert ((fi_cloexec r <=? 1) = true -> (copied_cloexec mode first last r <=? 1) = true) as Hc.
  { intros Hc. unfold copied_cloexec. destruct mode; try done; by destruct (FdInRange _ _ _). }
  destruct (fi_cloexec r <=? 1); [by rewrite Hc|]. by rewrite andb_false_r in Hf.
Qed.
(** A slot whose identity is not copied. *)
Lemma skip_identity k t : 0 <= k < kPathStateFdIdentityCapacity -> Copying k t ->
  in_use (at_slot (fd_identities t) k) && copied source mode first last (at_slot (fd_identities t) k) = false ->
  Copying (k + 1) t.
Proof.
  intros Hk HC E. destruct HC as [HI Ht Hf Hn Hb Htg Htb Hkept Hnew Hall Hroom]. pose proof (iv_identities _ _ HI) as Hok. split; try done.
  - intros s r Hg. destruct (Hnew _ _ Hg) as [?|(s0 & r0 & Hlt & Hr0)]; [by left|right]. exists s0, r0. split; [lia|done].
  - intros s0 r0 Hlt Hg Hc. destruct (decide (s0 = k)) as [->|]; [|apply (Hall s0); [lia|done..]].
    apply Hkept in Hg. rewrite (get_at Hok _ _ Hg), (get_in_use Hok _ _ Hg), Hc in E. done.
  - rewrite (count_list_drop _ _ _ _ (at_slot_lookup Hok k Hk)), E in Hroom. replace (Z.to_nat (k + 1)) with (S (Z.to_nat k)) by lia. lia.
Qed.

(** A free slot for the copy of the identity in slot [k]. *)
Lemma copy_slot k t r : 0 <= k < kPathStateFdIdentityCapacity -> Copying k t -> get (fd_identities t) k = Some r ->
  copied source mode first last r = true -> exists s, find_free (fd_identities t) = Some s.
Proof.
  intros Hk HC Hg Hc. pose proof (iv_identities _ _ (cp_inv _ _ HC)) as Hok. apply (find_free_not_full Hok).
  pose proof (cp_room _ _ HC) as Hroom. rewrite (count_list_drop _ _ _ _ (at_slot_lookup Hok k Hk)) in Hroom.
  rewrite (get_at Hok _ _ Hg), (get_in_use Hok _ _ Hg), Hc in Hroom. simpl in Hroom.
  pose proof (count_list_bounds (copied source mode first last) (drop (S (Z.to_nat k)) (p_records (fd_identities t)))). lia.
Qed.

(** The copy of one identity, its tree retained in [t1]. *)
Lemma add_copy k t t1 s r : 0 <= k < kPathStateFdIdentityCapacity -> Copying k t -> get (fd_identities t) k = Some r ->
  copied source mode first last r = true -> find_free (fd_identities t) = Some s ->
  fd_identities t1 = fd_identities t -> fd_tables t1 = fd_tables t -> tasks t1 = tasks t -> fs_contexts t1 = fs_contexts t ->
  mount_namespaces t1 = mount_namespaces t -> mount_bindings t1 = mount_bindings t ->
  (exists i', Inv (Held f d n h i' None None m b) t1 /\ forall x, held i' x = held i x + one (to_tree x (the_copy r s))) ->
  (forall tree, object_kind r = kFdIdentityObjectMountTree -> get (mount_trees t1) (object_slot r) = Some tree ->
    mt_generation tree = object_generation r) ->
  Copying (k + 1) (add_identity t1 target s (the_copy r s)).
Proof.
  intros Hk HC Hg Hc Hf Ei Ed Et Ef En Eb (i' & HI & Hh) Hgen. pose proof (iv_identities _ _ (cp_inv _ _ HC)) as Hok.
  destruct old as [g0 H0]. pose proof (iv_identities _ _ H0) as Hok0. pose proof (find_free_Some Hok _ Hf) as (Hs & Hnone & Hfree).
  assert (get (fd_identities t0) k = Some r) as Hg0.
  { destruct (cp_new _ _ HC _ _ Hg) as [?|(s0 & r0 & _ & _ & _ & E)]; [done|]. apply copied_source in Hc. rewrite E in Hc. by destruct distinct. }
  assert (get (fd_identities (add_identity t1 target s (the_copy r s))) = get (occupy (fd_identities t) s (the_copy r s))) as Eget.
  { unfold add_identity. inv_cbn. by rewrite Ei. }
  assert (forall x, get (occupy (fd_identities t) s (the_copy r s)) x = if decide (x = s) then Some (the_copy r s) else get (fd_identities t) x) as Hocc
    by exact (get_occupy Hok s (the_copy r s) Hf eq_refl).
  destruct (get (fd_tables t) target) as [o|] eqn:Ho; [|pose proof (cp_target _ _ HC) as Hx; rewrite Ho in Hx; done].
  destruct (get_entry Hok _ _ Hg) as [[Hfi Hob] _]. destruct (copy_fields r s Hfi Hob) as [Hfi' Hob'].
  destruct HC as [HI0 Ht0 Hf0 Hn0 Hb0 Htg Htb Hkept Hnew Hall Hroom].
  assert (Inv (Held f d n h i None None m b) (add_identity t1 target s (the_copy r s))) as HI'.
  { apply (add_identity_step i s target (the_copy r s) o HI); try done; try by rewrite ?Ei, ?Ed.
    rewrite Ei. intros s' r' Hg' Htg' Hfd. destruct (Hnew _ _ Hg') as [Hold|(s0 & r0 & Hlt & Hr0 & Hc0 & ->)].
    - by apply (fresh s' r').
    - assert (s0 = k); [|lia]. apply (get_unique Hok0 _ _ _ _ Hr0 Hg0). cbn. cbn in Hfd. rewrite (copied_source r0 Hc0), (copied_source r Hc). by rewrite Hfd. }
  split; unfold add_identity in *; inv_cbn; try congruence; try done.
  - rewrite Ed, (get_at (iv_tables _ _ HI0) _ _ Ho). rewrite (get_put (iv_tables _ _ HI0) target o _ Ho);
      [by rewrite decide_True|]. eapply (stays_in_use (iv_tables _ _ HI0) target o _ Ho); reflexivity.
  - intros x Hx. rewrite Ed, (get_at (iv_tables _ _ HI0) _ _ Ho). rewrite (get_put (iv_tables _ _ HI0) target o _ Ho);
      [rewrite decide_False by done; by apply Htb|]. eapply (stays_in_use (iv_tables _ _ HI0) target o _ Ho); reflexivity.
  - intros s' r' Hg'. rewrite Ei, Hocc. destruct (decide _) as [->|]; [|by apply Hkept]. apply Hkept in Hg'. congruence.
  - intros s' r'. rewrite Ei, Hocc. destruct (decide _) as [->|].
    + intros [= <-]. right. exists k, r. split_and!; try done; lia.
    + intros Hg'. destruct (Hnew _ _ Hg') as [?|(s0 & r0 & Hlt & Hr0)]; [by left|right]. exists s0, r0. split; [lia|done].
  - intros s0 r0 Hlt Hr0 Hc0. destruct (decide (s0 = k)) as [->|Hne].
    + exists s. rewrite Ei, Hocc, decide_True by done. rewrite Hg0 in Hr0. by injection Hr0 as ->.
    + destruct (Hall s0 r0 ltac:(lia) Hr0 Hc0) as [s' Hs']. exists s'. rewrite Ei, Hocc. destruct (decide _) as [->|]; [congruence|done].
  - rewrite Ei. cbn [occupy p_count p_records].
    rewrite (count_list_drop_insert _ _ _ _ (at_slot (fd_identities t) s)); [|by apply (at_slot_lookup Hok)|by rewrite Hfree|
      rewrite (copied_target (the_copy r s)) by done; by rewrite andb_false_r].
    rewrite (count_list_drop _ _ _ _ (at_slot_lookup Hok k Hk)), (get_at Hok _ _ Hg), (get_in_use Hok _ _ Hg), Hc in Hroom.
    simpl in Hroom. pose proof (p_count_bounds Hok) as Hpc. unfold kPathStateFdIdentityCapacity in *. rewrite u32_small by lia.
    replace (Z.to_nat (k + 1)) with (S (Z.to_nat k)) by lia. lia.
Qed.
Lemma copy_identities_loop j : forall k t, Z.of_nat j = kPathStateFdIdentityCapacity - k -> 0 <= k -> Copying k t ->
  exists t', copy_identities t source target mode first last (seqZ k (kPathStateFdIdentityCapacity - k)) = (0, t') /\
    Copying kPathStateFdIdentityCapacity t'.
Proof.
  induction j as [|j IH]; intros k t Hj Hk HC.
  { rewrite seqZ_nil by lia. exists t. split; [done|]. by replace kPathStateFdIdentityCapacity with k by lia. }
  rewrite seqZ_cons by lia. cbn [copy_identities]. replace (Z.pred (kPathStateFdIdentityCapacity - k)) with
    (kPathStateFdIdentityCapacity - Z.succ k) by lia. change (Z.succ k) with (k + 1).
  assert (0 <= k < kPathStateFdIdentityCapacity) as Hr by lia. pose proof (iv_identities _ _ (cp_inv _ _ HC)) as Hok.
  destruct (in_use _ && copied _ _ _ _ _) eqn:E; cbn [negb]; [|apply IH; [lia|lia|by apply skip_identity]].
  apply andb_true_iff in E as [Hu Hc]. pose proof (at_slot_get k Hok Hr Hu) as Hg. set (r := at_slot (fd_identities t) k) in *.
  destruct (copy_slot k t r Hr HC Hg Hc) as [s Hf]. rewrite Hf.
  destruct (Z.eqb_spec (object_kind r) kFdIdentityObjectMountTree) as [Hkind|Hkind].
  - destruct (identity_tree (cp_inv _ _ HC) _ _ Hg Hkind) as [tree Ht].
    destruct (retain_tree (object_slot r) tree (cp_inv _ _ HC) few Ht) as (-> & HI & Hgen). cbn [negb Z.eqb].
    apply IH; [lia|lia|]. apply (add_copy k t _ s r Hr HC Hg Hc Hf); try done.
    + exists (object_slot r :: i). split; [exact HI|]. intros x. simpl. unfold to_tree. cbn. rewrite Hkind. simpl. lia.
    + intros tr _ Htr. destruct (Hgen _ _ Htr) as (tr0 & Htr0 & ->). exact (iv_generation _ _ (cp_inv _ _ HC) _ _ _ Hg Hkind Htr0).
  - cbn [negb Z.eqb]. apply IH; [lia|lia|]. apply (add_copy k t t s r Hr HC Hg Hc Hf); try done.
    exists i. split; [apply HC|]. intros x. unfold to_tree. cbn [the_copy copied_identity object_kind].
    replace (_ =? kFdIdentityObjectMountTree) with false by lia. simpl. lia.
Qed.

(** The entries of the copy, and of the other tables. *)
Lemma copying_entry t x fd : Copying kPathStateFdIdentityCapacity t -> entry (view t) x fd =
  if x =? target then match entry (view t0) source fd with Some d => passes mode first last d | None => None end
  else entry (view t0) x fd.
Proof.
  intros HC. destruct old as [g0 H0]. pose proof (cp_inv _ _ HC) as HI. destruct (Z.eqb_spec x target) as [->|Hne].
  - apply option_eq. intros d1. rewrite (entry_Some _ _ _ HI). split.
    + intros (s & r & Hr & [Ht Hf] & <-). destruct (cp_new _ _ HC _ _ Hr) as [Hold|(s0 & r0 & _ & Hr0 & Hc & ->)]; [by destruct (fresh _ _ Hold)|].
      assert (entry (view t0) source fd = Some (described r0)) as ->.
      { apply (entry_Some _ _ _ H0). exists s0, r0. pose proof (copied_source r0 Hc). by split_and!. }
      unfold copied in Hc. apply andb_true_iff in Hc as [_ Hc]. unfold passes. rewrite should_copy_described, Hc.
      by rewrite <- (copied_described mode first last r0 s target).
    + destruct (entry (view t0) source fd) as [d0|] eqn:E; [|done]. apply (entry_Some _ _ _ H0) in E as (s0 & r0 & Hr0 & [Ht Hf] & <-).
      unfold passes. rewrite should_copy_described.
      destruct (ShouldCopyIdentity r0 mode first last) eqn:Hc; [|done]. intros [= <-].
      destruct (cp_all _ _ HC s0 r0) as [s Hs]; [|done| |].
      * pose proof (get_range (iv_identities _ _ H0) _ _ Hr0). lia.
      * unfold copied. by rewrite Ht, Z.eqb_refl, Hc.
      * exists s, (the_copy r0 s). split; [done|]. split; [done|]. exact (copied_described mode first last r0 s target).
  - apply (found_same _ _ (at_key_key x fd) _ _ (iv_identities _ _ H0) (iv_identities _ _ HI)). unfold at_key.
    intros s r [Ht%Z.eqb_eq _]%andb_true_iff. split; [|apply (cp_kept _ _ HC)]. intros Hr.
    destruct (cp_new _ _ HC _ _ Hr) as [?|(s0 & r0 & _ & _ & _ & ->)]; [done|]. by destruct Hne.
Qed.
End CopyIdentities.

Lemma free_identity_slots {g t} : Inv g t -> CountFreeFdIdentitySlots t = kPathStateFdIdentityCapacity - p_count (fd_identities t).
Proof.
  intros H. pose proof (p_count_bounds (iv_identities _ _ H)) as Hb. unfold CountFreeFdIdentitySlots, kPathStateFdIdentityCapacity in *.
  apply u32_small. lia.
Qed.

(** The copy of a table: it fails only when the slots do not suffice. *)
Lemma copy_table {f d n h i m b t} source target mode first last r : Inv (Held f d n h i None None m b) t -> (length i < 900)%nat ->
  get (fd_tables t) source = Some r -> find_free (fd_tables t) = Some target ->
  let t0 := OccupyEmptyFdTable t target (NextGeneration (ft_generation r)) in
  if CountFreeFdIdentitySlots t <? CountCopiedIdentities t source mode first last
  then CopyFdTableToSlot t source target mode first last = (ENOSPC, t)
  else exists t', CopyFdTableToSlot t source target mode first last = (0, t') /\
    Copying f (target :: d) n h i m b source target mode first last t0 kPathStateFdIdentityCapacity t' /\
    forall x fd, entry (view t') x fd = if x =? target
      then match entry (view t) source fd with Some d => passes mode first last d | None => None end
      else entry (view t) x fd.
Proof.
  intros H Hi Hg Hf t0. pose proof (iv_tables _ _ H) as Hok. unfold CopyFdTableToSlot. rewrite (get_at Hok _ _ Hg).
  destruct (_ <? _) eqn:E; [done|]. apply Z.ltb_ge in E. rewrite (free_identity_slots H) in E. unfold CountCopiedIdentities in E.
  destruct (find_free_Some Hok _ Hf) as (Hs & Hno & _). assert (source <> target) as Hne by congruence.
  pose proof (occupy_table target (NextGeneration (ft_generation r)) H Hf) as H0. fold t0 in H0 |- *.
  assert (forall s r0, get (fd_identities t0) s = Some r0 -> fi_fd_table_slot r0 <> target) as Hfresh.
  { intros s r0 Hr0 E0. destruct (identity_table H _ _ Hr0) as [o Ho]. congruence. }
  pose proof (copy_identities_loop f (target :: d) n h i m b source target mode first last t0 Hne Hfresh ltac:(by eexists) Hi
    (Z.to_nat kPathStateFdIdentityCapacity) 0 t0) as Hloop. rewrite Z.sub_0_r in Hloop.
  destruct Hloop as (t' & Ec & HC); [done|done| |].
  2:{ exists t'. split; [exact Ec|]. split; [exact HC|]. intros x fd.
    exact (copying_entry f (target :: d) n h i m b source target mode first last t0 Hfresh ltac:(by eexists) Hi t' x fd HC). }
  split; try done.
  - unfold t0, OccupyEmptyFdTable. inv_cbn. rewrite (get_occupy Hok _ _ Hf) by done. by rewrite decide_True.
  - by left.
  - intros s0 r0 Hlt Hr0. pose proof (get_range (iv_identities _ _ H0) _ _ Hr0). lia.
  - unfold t0, OccupyEmptyFdTable. inv_cbn. rewrite drop_0. unfold count_if in E. lia.
Qed.

(** ** Mounts *)

Section CopyMounts.
Context (f d n h i : list Z) (m b : Z) (source target : Z) (t0 : PathStateTable).

Record Mounting (k : Z) (t : PathStateTable) : Prop := {
  mi_inv : Inv (Held f d n h i None (Some target) m b) t;
  mi_others : others t = others t0;
  mi_trees : mount_trees t = mount_trees t0;
  mi_target : exists r r0, get (mount_namespaces t) target = Some r /\ get (mount_namespaces t0) target = Some r0 /\
    root_mount_id r = root_mount_id r0 /\ mn_refcount r = mn_refcount r0;
  mi_namespaces : forall x, x <> target -> get (mount_namespaces t) x = get (mount_namespaces t0) x;
  mi_kept : forall s r, get (mount_bindings t0) s = Some r -> get (mount_bindings t) s = Some r;
  mi_new : forall s r, get (mount_bindings t) s = Some r -> get (mount_bindings t0) s = Some r \/
    exists s0 r0, s0 < k /\ get (mount_bindings t0) s0 = Some r0 /\ mb_mount_namespace_slot r0 = source /\ r = copied_binding r0 s target;
  mi_all : forall s0 r0, s0 < k -> get (mount_bindings t0) s0 = Some r0 -> mb_mount_namespace_slot r0 = source ->
    exists s, get (mount_bindings t) s = Some (copied_binding r0 s target);
  mi_room : p_count (mount_bindings t) + count_list (in_namespace source) (drop (Z.to_nat k) (p_records (mount_bindings t))) <=
    kPathStateMountBindingCapacity }.

Hypothesis distinct : source <> target.
Hypothesis fresh : forall s r, get (mount_bindings t0) s = Some r -> mb_mount_namespace_slot r <> target.
Hypothesis apart : forall s r q, get (mount_bindings t0) s = Some r -> mb_mount_namespace_slot r = source ->
  get (mount_namespaces t0) target = Some q -> mount_id r <> root_mount_id q.
Hypothesis old : exists g, Inv g t0.

Lemma skip_mount k t : 0 <= k < kPathStateMountBindingCapacity -> Mounting k t ->
  in_use (at_slot (mount_bindings t) k) && in_namespace source (at_slot (mount_bindings t) k) = false -> Mounting (k + 1) t.
Proof.
  intros Hk HM E. destruct HM as [HI Ho Ht Htg Hns Hkept Hnew Hall Hroom]. pose proof (iv_bindings _ _ HI) as Hok. split; try done.
  - intros s r Hg. destruct (Hnew _ _ Hg) as [?|(s0 & r0 & Hlt & Hr0)]; [by left|right]. exists s0, r0. split; [lia|done].
  - intros s0 r0 Hlt Hg Hc. destruct (decide (s0 = k)) as [->|]; [|apply (Hall s0); [lia|done..]].
    apply Hkept in Hg. rewrite (get_at Hok _ _ Hg), (get_in_use Hok _ _ Hg) in E. unfold in_namespace in E. by rewrite Hc, Z.eqb_refl in E.
  - rewrite (count_list_drop _ _ _ _ (at_slot_lookup Hok k Hk)), E in Hroom. replace (Z.to_nat (k + 1)) with (S (Z.to_nat k)) by lia. lia.
Qed.

Lemma mount_slot k t r : 0 <= k < kPathStateMountBindingCapacity -> Mounting k t -> get (mount_bindings t) k = Some r ->
  mb_mount_namespace_slot r = source -> exists s, find_free (mount_bindings t) = Some s.
Proof.
  intros Hk HM Hg Hc. pose proof (iv_bindings _ _ (mi_inv _ _ HM)) as Hok. apply (find_free_not_full Hok).
  pose proof (mi_room _ _ HM) as Hroom. rewrite (count_list_drop _ _ _ _ (at_slot_lookup Hok k Hk)) in Hroom.
  rewrite (get_at Hok _ _ Hg), (get_in_use Hok _ _ Hg) in Hroom. unfold in_namespace at 1 in Hroom. rewrite Hc, Z.eqb_refl in Hroom.
  simpl in Hroom. pose proof (count_list_bounds (in_namespace source) (drop (S (Z.to_nat k)) (p_records (mount_bindings t)))). lia.
Qed.

Lemma add_mount_copy k t s r o : 0 <= k < kPathStateMountBindingCapacity -> Mounting k t -> get (mount_bindings t) k = Some r ->
  mb_mount_namespace_slot r = source -> find_free (mount_bindings t) = Some s -> get (mount_namespaces t) target = Some o ->
  Mounting (k + 1) (with_bindings (with_namespaces t (put (mount_namespaces t) target
    (set_namespace_counts o (mn_refcount o) (u32 (binding_count o + 1)) (task_refcount o) (handle_refcount o))))
    (occupy (mount_bindings t) s (copied_binding r s target))).
Proof.
  intros Hk HM Hg Hc Hf Ho. pose proof (iv_bindings _ _ (mi_inv _ _ HM)) as Hok. destruct old as [g0 H0].
  pose proof (iv_bindings _ _ H0) as Hok0. pose proof (find_free_Some Hok _ Hf) as (Hs & Hnone & Hfree).
  pose proof (iv_namespaces _ _ (mi_inv _ _ HM)) as HN.
  assert (get (mount_bindings t0) k = Some r) as Hg0.
  { destruct (mi_new _ _ HM _ _ Hg) as [?|(s0 & r0 & _ & _ & _ & E)]; [done|]. rewrite E in Hc. by destruct distinct. }
  assert (forall x, get (occupy (mount_bindings t) s (copied_binding r s target)) x =
    if decide (x = s) then Some (copied_binding r s target) else get (mount_bindings t) x) as Hocc
    by exact (get_occupy Hok s (copied_binding r s target) Hf eq_refl).
  destruct (get_entry Hok _ _ Hg) as [Hfi _]. set (o' := set_namespace_counts _ _ _ _ _).
  destruct (stays_in_use HN target o o' Ho eq_refl) as [Hu _].
  destruct HM as [HI Hot Ht (q & q0 & Hq & Hq0 & Hroot & Href) Hns Hkept Hnew Hall Hroom].
  rewrite Ho in Hq. injection Hq as <-. split; inv_cbn; try done.
  - apply (add_mount s target (copied_binding r s target) o HI Hf Ho); try done.
    { intros x bd Hx Hxt Hid. destruct (Hnew _ _ Hx) as [Hold|(s0 & r0 & Hlt & Hr0 & Hc0 & ->)]; [by apply (fresh x bd)|].
    assert (s0 = k); [|lia]. apply (get_unique Hok0 _ _ _ _ Hr0 Hg0). cbn. cbn in Hid. by rewrite Hc0, Hc, Hid. }
    + exact (proj1 (iv_ids _ _ HI _ _ Hg)).
    + exact (proj2 (iv_ids _ _ HI _ _ Hg)).
    + rewrite Hroot. exact (apart _ _ _ Hg0 Hc Hq0).
  - exists o', q0. rewrite (get_put HN _ _ _ Ho Hu), decide_True by done. done.
  - intros x Hx. rewrite (get_put HN _ _ _ Ho Hu), decide_False by done. by apply Hns.
  - intros s' r' Hg'. rewrite Hocc. destruct (decide _) as [->|]; [|by apply Hkept]. apply Hkept in Hg'. congruence.
  - intros s' r'. rewrite Hocc. destruct (decide _) as [->|].
    + intros [= <-]. right. exists k, r. split; [lia|done].
    + intros Hg'. destruct (Hnew _ _ Hg') as [?|(s0 & r0 & Hlt & Hr0)]; [by left|right]. exists s0, r0. split; [lia|done].
  - intros s0 r0 Hlt Hr0 Hc0. destruct (decide (s0 = k)) as [->|Hne].
    + exists s. rewrite Hocc, decide_True by done. rewrite Hg0 in Hr0. by injection Hr0 as ->.
    + destruct (Hall s0 r0 ltac:(lia) Hr0 Hc0) as [s' Hs']. exists s'. rewrite Hocc. destruct (decide _) as [->|]; [congruence|done].
  - cbn [occupy p_count p_records].
    rewrite (count_list_drop_insert _ _ _ _ (at_slot (mount_bindings t) s)); [|by apply (at_slot_lookup Hok)|by rewrite Hfree|].
    2:{ unfold in_namespace. cbn [copied_binding mb_mount_namespace_slot]. replace (target =? source) with false by lia. by rewrite andb_false_r. }
    rewrite (count_list_drop _ _ _ _ (at_slot_lookup Hok k Hk)), (get_at Hok _ _ Hg), (get_in_use Hok _ _ Hg) in Hroom.
    unfold in_namespace at 1 in Hroom. rewrite Hc, Z.eqb_refl in Hroom.
    simpl in Hroom. pose proof (p_count_bounds Hok) as Hpc. unfold kPathStateMountBindingCapacity in *. rewrite u32_small by lia.
    replace (Z.to_nat (k + 1)) with (S (Z.to_nat k)) by lia. lia.
Qed.

Lemma copy_bindings_loop j : forall k t, Z.of_nat j = kPathStateMountBindingCapacity - k -> 0 <= k -> Mounting k t ->
  exists t', copy_bindings t source target (seqZ k (kPathStateMountBindingCapacity - k)) = (0, t') /\
    Mounting kPathStateMountBindingCapacity t'.
Proof.
  induction j as [|j IH]; intros k t Hj Hk HM.
  { rewrite seqZ_nil by lia. exists t. split; [done|]. by replace kPathStateMountBindingCapacity with k by lia. }
  rewrite seqZ_cons by lia. cbn [copy_bindings]. replace (Z.pred (kPathStateMountBindingCapacity - k)) with
    (kPathStateMountBindingCapacity - Z.succ k) by lia. change (Z.succ k) with (k + 1).
  assert (0 <= k < kPathStateMountBindingCapacity) as Hr by lia. pose proof (iv_bindings _ _ (mi_inv _ _ HM)) as Hok.
  rewrite <- negb_andb. destruct (in_use _ && _) eqn:E; cbn [negb]; [|apply IH; [lia|lia|by apply skip_mount]].
  apply andb_true_iff in E as [Hu Hc]. apply Z.eqb_eq in Hc. pose proof (at_slot_get k Hok Hr Hu) as Hg.
  set (r := at_slot (mount_bindings t) k) in *. destruct (mount_slot k t r Hr HM Hg Hc) as [s Hf]. rewrite Hf.
  destruct (mi_target _ _ HM) as (o & o0 & Ho & _). rewrite (get_at (iv_namespaces _ _ (mi_inv _ _ HM)) _ _ Ho).
  apply IH; [lia|lia|]. by apply (add_mount_copy k t s r o).
Qed.

(** The mounts of the copy are those of the source. *)
Lemma copied_parents t : Mounting kPathStateMountBindingCapacity t -> forall id,
  parent_of (mount_bindings t) target id = parent_of (mount_bindings t0) source id.
Proof.
  intros HM id. destruct old as [g0 H0]. pose proof (iv_bindings _ _ H0) as Hok0. pose proof (iv_bindings _ _ (mi_inv _ _ HM)) as Hok.
  apply option_eq. intros p. rewrite (parent_of_Some Hok), (parent_of_Some Hok0). split.
  - intros (s & r & Hr & Hns & Hid). destruct (mi_new _ _ HM _ _ Hr) as [Hold|(s0 & r0 & _ & Hr0 & Hs0 & ->)]; [by destruct (fresh _ _ Hold)|].
    by exists s0, r0.
  - intros (s0 & r0 & Hr0 & Hns & Hid). destruct (mi_all _ _ HM s0 r0) as [s Hs]; [|done..|by exists s, (copied_binding r0 s target)].
    pose proof (get_range Hok0 _ _ Hr0). lia.
Qed.

Lemma kept_parents t x id : x <> target -> Mounting kPathStateMountBindingCapacity t ->
  parent_of (mount_bindings t) x id = parent_of (mount_bindings t0) x id.
Proof.
  intros Hx HM. destruct old as [g0 H0]. apply (parent_of_same (iv_bindings _ _ H0) (iv_bindings _ _ (mi_inv _ _ HM))).
  intros r Hr. split; intros [s Hs]; exists s; [by apply (mi_kept _ _ HM)|].
  destruct (mi_new _ _ HM _ _ Hs) as [?|(s0 & r0 & _ & _ & _ & E)]; [done|]. rewrite E in Hr. by destruct Hx.
Qed.
End CopyMounts.

Lemma close_namespace {f d n h i xt m b t} s r : Inv (Held f d n h i xt (Some s) m b) t -> get (mount_namespaces t) s = Some r ->
  0 < mn_refcount r ->
  (forall x bd, get (mount_bindings t) x = Some bd -> mb_mount_namespace_slot bd = s ->
    walk no_walk (root_mount_id r) (parent_of (mount_bindings t) s) (mount_id bd) (parent_mount_id bd) = true) ->
  Inv (Held f d n h i xt None m b) t.
Proof.
  intros H Hg Hr Hw. inv_step H.
  - intros x r0 Hr0 _. destruct (decide (x = s)) as [->|Hne]; [congruence|]. apply (iv_ns_live _ _ H _ _ Hr0). cbn. congruence.
  - intros x bd r0 Hb Hr0 _. destruct (decide (mb_mount_namespace_slot bd = s)) as [E|Hne].
    + rewrite E in Hr0 |- *. rewrite Hg in Hr0. injection Hr0 as <-. by apply (Hw x).
    + apply (iv_walk _ _ H _ _ _ Hb Hr0). cbn. congruence.
Qed.

Lemma free_mount_slots {g t} : Inv g t -> CountFreeMountBindingSlots t = kPathStateMountBindingCapacity - p_count (mount_bindings t).
Proof.
  intros H. pose proof (p_count_bounds (iv_bindings _ _ H)) as Hb. unfold CountFreeMountBindingSlots, kPathStateMountBindingCapacity in *.
  apply u32_small. lia.
Qed.

Definition namespace_copy (task : bool) (r : MountNamespaceState) (s generation : Z) : MountNamespaceState :=
  Build_MountNamespaceState 1 s 1 0 (if task then 1 else 0) (if task then 0 else 1) (NextGeneration (mn_generation r)) generation (root_mount_id r) (root_mount_flags r)
    (root_mount_attributes r) (root_propagation r) (mn_root_origin_flags r) (mn_reserved r) (root_source_guest r) (root_source_host r).

Lemma namespace_copy_fields task r s generation : namespace_fields r = true -> generation <> 0 -> namespace_fields (namespace_copy task r s generation) = true.
Proof.
  intros He Hg. unfold namespace_fields in *. cbn [namespace_copy mn_generation mn_identity_generation root_mount_id mn_reserved
    mn_root_origin_flags root_source_guest root_source_host].
  assert (zero (NextGeneration (mn_generation r)) = false) as -> by apply Z.eqb_neq, next_generation_nonzero.
  assert (zero generation = false) as -> by (by apply Z.eqb_neq).
  destruct (zero (mn_generation r)); [done|]. destruct (zero (mn_identity_generation r)); [done|exact He].
Qed.

(** What the copy of a namespace leaves: the mounts of every namespace, and those of the source in the copy. *)
Record NamespaceCopied (source target : Z) (t t' : PathStateTable) : Prop := {
  nc_others : others t' = others t;
  nc_trees : mount_trees t' = mount_trees t;
  nc_copy : forall id, mounted (mount_namespaces t) (mount_bindings t) source id -> mounted (mount_namespaces t') (mount_bindings t') target id;
  nc_mounted : forall x id, mounted (mount_namespaces t) (mount_bindings t) x id -> mounted (mount_namespaces t') (mount_bindings t') x id }.

(** The copy of a namespace: it fails only when the slots do not suffice. *)
Lemma copy_namespace_step {f d n h i m b t} task source target r : Inv (Held f d n h i None None m b) t -> 0 <= m < 2 ^ 64 - 1 -> b <= m ->
  get (mount_namespaces t) source = Some r -> find_free (mount_namespaces t) = Some target ->
  if CountFreeMountBindingSlots t <? binding_count r then CopyMountNamespaceToSlot t source target task = (ENOSPC, t)
  else exists t', CopyMountNamespaceToSlot t source target task = (0, t') /\
    Inv (Held f d (if task then target :: n else n) (if task then h else target :: h) i None None m (m + 1)) t' /\ NamespaceCopied source target t t'.
Proof.
  intros H Hm Hb Hg Hf. pose proof (iv_namespaces _ _ H) as Hok. unfold CopyMountNamespaceToSlot. rewrite (get_at Hok _ _ Hg).
  destruct (_ <? _) eqn:E; [done|]. apply Z.ltb_ge in E. rewrite (free_mount_slots H) in E.
  destruct (mounts_small _ _ H Hg) as (Ebc & _ & _). rewrite Ebc in E.
  destruct (find_free_Some Hok _ Hf) as (Hs & Hno & _). assert (source <> target) as Hne by congruence.
  destruct (get_entry Hok _ _ Hg) as [He _]. pose proof (iv_current _ _ H) as Ecur. cbn in Ecur.
  assert (NextGeneration (mutation_generation t) = m + 1) as Egen.
  { rewrite Ecur. unfold NextGeneration. rewrite u64_small by lia. by replace (m + 1 =? 0) with false by lia. }
  rewrite Egen. change (Build_MountNamespaceState 1 target 1 0 _ _ _ _ _ _ _ _ _ _ _ _) with (namespace_copy task r target (m + 1)).
  cbv zeta. set (t0 := with_namespaces t (occupy (mount_namespaces t) target (namespace_copy task r target (m + 1)))).
  set (n' := if task then target :: n else n). set (h' := if task then h else target :: h).
  assert (Inv (Held f d n' h' i None None m (m + 1)) t0) as H0.
  { apply (occupy_ns n' h' target (namespace_copy task r target (m + 1)) H Hf); try done.
    - by apply namespace_copy_fields; [|lia].
    - cbn. lia.
    - by destruct task.
    - pose proof (iv_roots _ _ H _ _ Hg). cbn in *. lia.
    - intros x. unfold n'. destruct task; rewrite ?held_cons; cbn; lia.
    - intros x. unfold h'. destruct task; rewrite ?held_cons; cbn; lia. }
  assert (forall x, get (mount_namespaces t0) x = if decide (x = target) then Some (namespace_copy task r target (m + 1)) else get (mount_namespaces t) x) as Hget.
  { exact (get_occupy Hok target (namespace_copy task r target (m + 1)) Hf eq_refl). }
  assert (forall s r0, get (mount_bindings t0) s = Some r0 -> mb_mount_namespace_slot r0 <> target) as Hfresh.
  { intros s r0 Hr0 Et. destruct (binding_namespace H _ _ Hr0) as [o Ho]. congruence. }
  assert (forall s r0 q, get (mount_bindings t0) s = Some r0 -> mb_mount_namespace_slot r0 = source ->
    get (mount_namespaces t0) target = Some q -> mount_id r0 <> root_mount_id q) as Hapart.
  { intros s r0 q Hr0 Hc0. rewrite Hget, decide_True by done. intros [= <-]. cbn [namespace_copy root_mount_id].
    apply (iv_distinct _ _ H _ _ _ Hr0). by rewrite Hc0. }
  destruct (copy_bindings_loop f d n' h' i m (m + 1) source target t0 Hne Hfresh Hapart ltac:(by eexists)
    (Z.to_nat kPathStateMountBindingCapacity) 0 t0) as (t' & Ec & HM); [done|done| |].
  { split; try done.
    - by apply open_namespace.
    - exists (namespace_copy task r target (m + 1)), (namespace_copy task r target (m + 1)). by rewrite Hget, decide_True.
    - by left.
    - intros s0 r0 Hlt Hr0. pose proof (get_range (iv_bindings _ _ H0) _ _ Hr0). lia.
    - unfold t0. inv_cbn. rewrite drop_0. unfold count_if in E. lia. }
  exists t'. rewrite Z.sub_0_r in Ec. split; [exact Ec|].
  destruct (mi_target _ _ _ _ _ _ _ _ _ _ _ _ HM) as (o & o0 & Ho & Ho0 & Hroot & Href). rewrite Hget, decide_True in Ho0 by done.
  injection Ho0 as <-. cbn in Hroot, Href.
  pose proof (copied_parents f d n' h' i m (m + 1) source target t0 Hfresh ltac:(by eexists) t' HM) as Hpar.
  pose proof (fun x : Z => kept_parents f d n' h' i m (m + 1) source target t0 ltac:(by eexists) t' x) as Hkp.
  split.
  - apply (close_namespace target o (mi_inv _ _ _ _ _ _ _ _ _ _ _ _ HM) Ho); [lia|].
    intros x bd Hx Hbd. rewrite (walk_ext _ _ _ _ _ _ Hpar), Hroot.
    destruct (mi_new _ _ _ _ _ _ _ _ _ _ _ _ HM _ _ Hx) as [Hold|(s0 & r0 & _ & Hr0 & Hc0 & ->)]; [by destruct (Hfresh _ _ Hold)|].
    cbn [copied_binding mount_id parent_mount_id]. rewrite <- Hc0. apply (iv_walk _ _ H0 s0 r0 r Hr0); [|done].
    rewrite Hget, Hc0. by rewrite decide_False.
  - split.
    + by rewrite (mi_others _ _ _ _ _ _ _ _ _ _ _ _ HM).
    + by rewrite (mi_trees _ _ _ _ _ _ _ _ _ _ _ _ HM).
    + intros id (r1 & Hr1 & Hid). rewrite Hg in Hr1. injection Hr1 as <-. exists o. split; [done|]. rewrite Hroot, Hpar. exact Hid.
    + intros x id (r1 & Hr1 & Hid). assert (x <> target) as Hx by congruence. exists r1.
      rewrite (mi_namespaces _ _ _ _ _ _ _ _ _ _ _ _ HM x Hx), Hget, decide_False by done. split; [done|]. rewrite (Hkp x id Hx HM). exact Hid.
Qed.

(** ** Stored paths *)

Lemma copied_text path : nul_free (CopyPath path) /\ (length (CopyPath path) < HOOKSELF_PATH_CAPACITY)%nat.
Proof.
  destruct path as [p|]; [|split; [by constructor|unfold HOOKSELF_PATH_CAPACITY; simpl; lia]]. cbn [CopyPath]. split.
  - apply Forall_take, c_string_nul_free.
  - rewrite length_take. unfold HOOKSELF_PATH_CAPACITY. lia.
Qed.

Lemma padded_text q : nul_free q -> (length q < HOOKSELF_PATH_CAPACITY)%nat -> PathStorageIsPadded q = true.
Proof.
  intros Hq Hl. unfold PathStorageIsPadded.
  enough (forall n i, (i + n = HOOKSELF_PATH_CAPACITY)%nat -> padded_loop q n i (length q <? i)%nat = true) as Hgen.
  { by apply (Hgen HOOKSELF_PATH_CAPACITY O). }
  induction n as [|n IH]; intros i Hi; cbn [padded_loop].
  - apply Nat.ltb_lt. lia.
  - specialize (IH (S i) ltac:(lia)). destruct (decide (i < length q)%nat) as [Hlt|Hge].
    + pose proof (char_at_lt q i Hq Hlt). replace (char_at q i =? 0) with false by lia.
      replace (length q <? i)%nat with false by (symmetry; apply Nat.ltb_ge; lia). simpl.
      replace (length q <? S i)%nat with false in IH by (symmetry; apply Nat.ltb_ge; lia). done.
    + rewrite char_at_end by lia. rewrite andb_false_r, orb_true_r.
      replace (length q <? S i)%nat with true in IH by (symmetry; apply Nat.ltb_lt; lia). done.
Qed.

Lemma copied_padded path : PathStorageIsPadded (CopyPath path) = true.
Proof. destruct (copied_text path). by apply padded_text. Qed.

Lemma absolute_text q : nul_free q -> (0 < length q < HOOKSELF_PATH_CAPACITY)%nat -> char_at q 0 = SLASH ->
  ValidateAbsolutePath (Some q) = 0.
Proof.
  intros Hq Hl H0. unfold ValidateAbsolutePath. rewrite H0. cbn [negb Z.eqb].
  destruct (existsb _ _) eqn:E; [done|]. exfalso. apply not_true_iff_false in E. apply E, existsb_exists.
  exists (length q). split; [apply in_seq; unfold HOOKSELF_PATH_CAPACITY in *; lia|]. by rewrite char_at_end by lia.
Qed.

Lemma copied_absolute path : ValidateAbsolutePath path = 0 -> ValidateAbsolutePath (Some (CopyPath path)) = 0.
Proof.
  destruct path as [p|]; [|done]. unfold ValidateAbsolutePath at 1. destruct (Z.eqb_spec (char_at p 0) SLASH) as [E|]; [|done].
  intros _. destruct (copied_text (Some p)) as [Hq Hl]. destruct p as [|c p]; [done|]. cbn in E. subst c.
  apply absolute_text; [done|split; [cbn; lia|done]|done].
Qed.

Lemma copied_none : ValidateAbsolutePath (Some (CopyPath None)) <> 0.
Proof. done. Qed.

(** The paths that are stored: a path whose flag is not set is not. *)
Definition stored (flags flag : Z) (path : option Path) : Path := CopyPath (if has flags flag then path else None).

Lemma validate_stored flags guest host : ValidateOrigin flags guest host = 0 ->
  ValidateOrigin flags (Some (stored flags kPathOriginGuestValid guest)) (Some (stored flags kPathOriginHostValid host)) = 0.
Proof.
  unfold ValidateOrigin, stored. destruct (negb _); [done|]. destruct (_ && _); [done|].
  destruct (has flags kPathOriginGuestValid).
  - destruct (Z.eqb_spec (ValidateAbsolutePath guest) 0) as [E|E]; [|intros H; cbn [negb] in H; congruence]. cbn [negb].
    rewrite (copied_absolute _ E). cbn [negb Z.eqb]. destruct (has flags kPathOriginHostValid); [apply copied_absolute|done].
  - destruct (non_empty guest); [done|]. cbn [negb Z.eqb non_empty CopyPath char_at nth].
    destruct (has flags kPathOriginHostValid); [apply copied_absolute|done].
Qed.

Lemma both_flags flags : ((flags &&& both_valid) =? both_valid) = true ->
  has flags kPathOriginGuestValid = true /\ has flags kPathOriginHostValid = true.
Proof.
  intros E%Z.eqb_eq. unfold has. split.
  - assert (flags &&& kPathOriginGuestValid = kPathOriginGuestValid) as ->; [|done].
    change kPathOriginGuestValid with (both_valid &&& kPathOriginGuestValid) at 1. by rewrite Z.land_assoc, E.
  - assert (flags &&& kPathOriginHostValid = kPathOriginHostValid) as ->; [|done].
    change kPathOriginHostValid with (both_valid &&& kPathOriginHostValid) at 1. by rewrite Z.land_assoc, E.
Qed.

(** The paths of a directory. *)
Lemma stored_pair flags guest host : directory_origin flags = true -> ValidateOrigin flags guest host = 0 ->
  origin_pair flags (CopyPath guest) (CopyPath host) = true /\ has flags kPathOriginProtected = false.
Proof.
  unfold directory_origin. intros [Hb Hp]%andb_true_iff Hv. destruct (both_flags _ Hb) as [B1 B2].
  split; [|unfold has; by rewrite Hp]. apply validate_stored in Hv. unfold stored in Hv. rewrite B1, B2 in Hv.
  unfold origin_pair. rewrite Hb, Hv, !copied_padded. done.
Qed.

Lemma initial_pair guest host : ValidateAbsolutePath guest = 0 -> ValidateAbsolutePath host = 0 ->
  origin_pair both_valid (CopyPath guest) (CopyPath host) = true.
Proof.
  intros Hg Hh. apply stored_pair; [done|]. unfold ValidateOrigin.
  change (has both_valid kPathOriginGuestValid) with true. change (has both_valid kPathOriginHostValid) with true. cbv iota.
  by rewrite Hg, Hh.
Qed.
