(* ===== verification/PathTaskInv.v ===== *)
(** * The operations on tasks keep the invariant

    Every operation of tracer/path_state/task_fd.inc that creates, copies,
    moves or removes a task, from a table between two operations to another;
    one that fails returns the table it was given. *)

From S2P Require Import Prelude SlotArray SlotPool GuestPath PathState PathStorage PathStateOps PathTaskOps PathFdOps PathStateInv PathViews PathSteps PathObjectSteps PathReleases PathCopies.
From stdpp Require Import list.
#[local] Open Scope Z_scope.

(** What an operation does from a table whose mutation generation is [m]; [E]
    tells what it does to the descriptors when it succeeds. *)
Definition keeps (E : PathStateTable -> Prop) (m : Z) (t : PathStateTable) (out : Z * PathStateTable) : Prop :=
  (out.1 <> 0 -> out.2 = t) /\ (out.1 = 0 -> E out.2) /\ exists m', m <= m' <= m + 1 /\ Inv (settled m') out.2.

Lemma keeps_weaken {E m t out} (E' : PathStateTable -> Prop) : keeps E m t out -> (forall t', E t' -> E' t') -> keeps E' m t out.
Proof. intros (H1 & H2 & H3) He. split; [exact H1|]. split; [intros E0; by apply He, H2|exact H3]. Qed.

Section Keeps.
Context {E : PathStateTable -> Prop} {m : Z} {t : PathStateTable}.

Lemma keeps_same e : Inv (settled m) t -> (e = 0 -> E t) -> keeps E m t (e, t).
Proof. intros H He. split; [done|]. split; [done|]. exists m. split; [lia|done]. Qed.

Lemma keeps_changed t' : Inv (settled (m + 1)) t' -> E t' -> keeps E m t (0, t').
Proof. intros H He. split; [done|]. split; [done|]. exists (m + 1). split; [lia|done]. Qed.

(** The end of an operation. *)
Lemma keeps_noted t' b : Inv (Held [] [] [] [] [] None None m b) t' -> b <= m + 1 -> 0 <= m < 2 ^ 64 - 1 -> E (NoteMutation t') ->
  keeps E m t (0, NoteMutation t').
Proof.
  intros H Hb Hm He. apply keeps_changed; [|done]. unfold settled. apply (weaken_bound (b := b)); [|lia]. by apply note_mutation.
Qed.

Lemma find_task {g} tid slot : Inv g t -> FindTaskUnchecked t tid = Some slot ->
  exists r, get (tasks t) slot = Some r /\ task_of t slot = r /\ pt_tid r = tid.
Proof.
  intros H Ef. apply (search_Some (iv_tasks _ _ H)) in Ef as (r & Hr & Htid%Z.eqb_eq). exists r. split_and!; [done| |done].
  exact (get_at (iv_tasks _ _ H) _ _ Hr).
Qed.

Lemma find_no_task tid : Inv (settled m) t -> FindTaskUnchecked t tid = None ->
  forall s r, get (tasks t) s = Some r -> pt_tid r <> tid.
Proof. intros H Ef s r Hr. pose proof (search_None (iv_tasks _ _ H) _ Ef _ _ Hr) as Hx. simpl in Hx. lia. Qed.

Lemma keeps_task tid bad k : Inv (settled m) t ->
  (forall slot r, get (tasks t) slot = Some r -> task_of t slot = r -> pt_tid r = tid -> 0 < tid -> bad = false -> keeps E m t (k slot r)) ->
  keeps E m t (with_task t tid bad k).
Proof.
  intros H Hk. unfold with_task. rewrite (initialized H). cbn [negb orb]. destruct (Z.leb_spec tid 0); [by apply keeps_same|].
  destruct bad; [by apply keeps_same|]. cbn [orb]. destruct (FindTaskUnchecked t tid) as [slot|] eqn:Et; [|by apply keeps_same].
  destruct (find_task _ _ H Et) as (r & Hr & Hof & Htid). rewrite Hof. by apply Hk.
Qed.
End Keeps.

Lemma next_generation_task m t : 0 <= m < 2 ^ 64 - 1 -> mutation_generation t = m -> mutation_generation (NoteMutation t) = m + 1.
Proof.
  intros Hm E. cbn [NoteMutation mutation_generation]. rewrite E. unfold NextGeneration. rewrite u64_small by lia.
  by replace (m + 1 =? 0) with false by lia.
Qed.

(** ** Creation *)

(** A new task with its table. *)
Lemma new_task {g g' t t'} slot r : Inv g t -> Inv g' t' -> find_free (tasks t) = Some slot -> tasks t' = occupy (tasks t) slot r ->
  pt_occupied r = 1 -> forall tid, table_of (view t') tid = table_of (assign (pt_tid r) (Some (pt_fd_table_slot r)) (view t)) tid.
Proof.
  intros H H' Hf Et Ho tid. destruct (find_free_Some (iv_tasks _ _ H) _ Hf) as (_ & Hn & _).
  rewrite (tables_change slot None (Some r) tid H H' Hn).
  - cbn [holds assign table_of option_map]. unfold of_task. by rewrite Z.eqb_sym.
  - rewrite Et. apply (get_occupy (iv_tasks _ _ H) _ r Hf). unfold in_use. cbn. by rewrite Ho.
Qed.

Lemma insert_keeps m t tid guest host : Inv (settled m) t -> 0 <= m < 2 ^ 64 - 1 ->
  keeps (does t tid (unix_insert tid)) m t (InsertInitialPathTask t tid guest host).
Proof.
  intros H Hm. unfold InsertInitialPathTask. rewrite (initialized H). cbn [negb orb]. destruct (Z.leb_spec tid 0); [by apply keeps_same|].
  destruct (Z.eqb_spec (ValidateAbsolutePath guest) 0) as [Eg|Eg]; cbv zeta.
  2:{ replace (ValidateAbsolutePath guest =? 0) with false by lia. cbn [negb]. by apply keeps_same. }
  destruct (Z.eqb_spec (ValidateAbsolutePath host) 0) as [Eh|Eh]; cbn [negb]; [|by apply keeps_same].
  destruct (FindTaskUnchecked t tid) eqn:Et; [by apply keeps_same|].
  destruct (find_free (tasks t)) as [ts|] eqn:Fts; [|by apply keeps_same].
  destruct (find_free (fs_contexts t)) as [fs|] eqn:Ffs; [|by apply keeps_same].
  destruct (find_free (fd_tables t)) as [fd|] eqn:Ffd; [|by apply keeps_same].
  destruct (find_free (mount_namespaces t)) as [ns|] eqn:Fns; [|by apply keeps_same].
  pose proof (iv_current _ _ H) as Ecur. cbn in Ecur.
  set (c := Build_FsContext 1 fs 1 both_valid 1 0 0 1 (CopyPath guest) (CopyPath host) both_valid 0 0 0 1
      (CopyPath (Some [SLASH])) (CopyPath (Some [SLASH]))).
  set (n := Build_MountNamespaceState 1 ns 1 0 1 0 1 (m + 1) 1 0 0 0 both_valid 0
      (CopyPath (Some [SLASH])) (CopyPath (Some [SLASH]))).
  assert (Inv (Held [fs] [] [] [] [] None None m m) (OccupyInitialFsContext t fs guest host)) as H1.
  { apply (occupy_fs fs c H Ffs); try done. unfold fs_fields. cbn [c fs_generation cwd_origin_flags fs_reserved guest_cwd host_cwd
      root_origin_flags guest_root host_root]. rewrite (initial_pair _ _ Eg Eh). done. }
  assert (Inv (Held [fs] [fd] [] [] [] None None m m) (OccupyEmptyFdTable (OccupyInitialFsContext t fs guest host) fd 1)) as H2.
  { by apply (occupy_table fd 1 H1). }
  set (t2 := OccupyEmptyFdTable (OccupyInitialFsContext t fs guest host) fd 1) in *.
  assert (OccupyInitialMountNamespace t2 ns = with_namespaces t2 (occupy (mount_namespaces t2) ns n)) as E3.
  { unfold OccupyInitialMountNamespace. change (mutation_generation t2) with (mutation_generation t). rewrite Ecur.
    unfold NextGeneration. rewrite u64_small by lia. replace (m + 1 =? 0) with false by lia. done. }
  assert (find_free (mount_namespaces t2) = Some ns) as Fns2 by exact Fns.
  assert (namespace_fields n = true) as Hnf.
  { unfold namespace_fields. cbn [n mn_generation mn_identity_generation root_mount_id mn_reserved mn_root_origin_flags root_source_guest
      root_source_host]. replace (zero (m + 1)) with false by (unfold zero; lia). vm_compute. done. }
  assert (Inv (Held [fs] [fd] [ns] [] [] None None m (m + 1)) (with_namespaces t2 (occupy (mount_namespaces t2) ns n))) as H3.
  { apply (occupy_ns [ns] [] ns n H2 Fns2); try done; [cbn; lia|cbn; lia| |].
    - intros x. rewrite held_cons. cbn. lia.
    - intros x. cbn. lia. }
  rewrite E3. set (t3 := with_namespaces t2 (occupy (mount_namespaces t2) ns n)) in *.
  apply note_mutation in H3; [|done]. rewrite (next_generation_task m t3 Hm Ecur).
  destruct (find_free_Some (iv_contexts _ _ H) _ Ffs) as (_ & Nfs & _).
  assert (Inv (settled (m + 1)) (OccupyTask (NoteMutation t3) ts tid fs fd ns (m + 1))) as H4; [|apply keeps_changed; [exact H4|]].
  2:{ exists fd. split; [exact (free_private tid fd H Ffd)|].
      apply (same_intro _ H4); [exact (new_task ts (Build_PathTaskState 1 ts tid 0 fs fd ns 0 (m + 1)) H H4 Fts eq_refl eq_refl)|].
      intros table x _. change (entry (view (OccupyTask (NoteMutation t3) ts tid fs fd ns (m + 1)))) with (entry (view t)).
      cbn [unix_insert assign define entry]. destruct (Z.eqb_spec table fd) as [->|]; [|done]. apply (free_empty fd x H).
      by destruct (find_free_Some (iv_tables _ _ H) _ Ffd) as (_ & Hn & _). }
  apply occupy_task; [exact H3|exact Fts|done|lia| | |].
  - intros s r. exact (find_no_task _ H Et s r).
  - intros s r Hr Efs. exfalso. destruct (task_context H s r Hr) as [c0 Hc0]. congruence.
  - intros c0 Hc0. cbn [t3 t2 OccupyEmptyFdTable OccupyInitialFsContext] in Hc0. inv_cbn.
    change (get (occupy (fs_contexts t) fs c) fs = Some c0) in Hc0. rewrite (get_occupy (iv_contexts _ _ H) _ c Ffs eq_refl), decide_True in Hc0 by done.
    injection Hc0 as <-. cbn [c cwd_mount_id fs_root_mount_id].
    assert (mounted (mount_namespaces (NoteMutation t3)) (mount_bindings (NoteMutation t3)) ns 1) as Hmo.
    { exists n. split; [|by left]. change (get (occupy (mount_namespaces t) ns n) ns = Some n).
      by rewrite (get_occupy (iv_namespaces _ _ H) _ n Fns eq_refl), decide_True. }
    split; by right.
Qed.

(** ** Sharing *)

Lemma share_fs {f d n h i xt xn m b t} s c : Inv (Held f d n h i xt xn m b) t -> (length f < 900)%nat -> get (fs_contexts t) s = Some c ->
  Inv (Held (s :: f) d n h i xt xn m b) (share_fs_context t s) /\
  (forall x c', get (fs_contexts (share_fs_context t s)) x = Some c' -> exists c0, get (fs_contexts t) x = Some c0 /\
    cwd_mount_id c' = cwd_mount_id c0 /\ fs_root_mount_id c' = fs_root_mount_id c0).
Proof.
  intros H Hf Hg. pose proof (iv_contexts _ _ H) as Hok. destruct (get_entry Hok _ _ Hg) as [He Hs].
  destruct (context_refs s c H ltac:(lia) Hg) as [_ Hb]. unfold share_fs_context. rewrite (get_at Hok _ _ Hg), u32_small by lia.
  destruct (stays_in_use Hok s c (set_fs_refcount c (fs_refcount c + 1)) Hg eq_refl) as [Hu _]. split.
  - apply (put_fs _ s c _ H Hg); try done; [cbn; lia| |].
    + intros x. rewrite held_cons. cbn [set_fs_refcount fs_refcount]. lia.
    + intros s' r Hr Hrs. apply (iv_known _ _ H _ _ c Hr). by rewrite Hrs.
  - intros x c'. inv_cbn. rewrite (get_put Hok _ _ _ Hg Hu). destruct (decide _) as [->|]; [intros [= <-]; by exists c|].
    intros Hx. by exists c'.
Qed.

Lemma share_table {f d n h i xt xn m b t} s r : Inv (Held f d n h i xt xn m b) t -> (length d < 900)%nat -> get (fd_tables t) s = Some r ->
  Inv (Held f (s :: d) n h i xt xn m b) (share_fd_table t s).
Proof.
  intros H Hd Hg. pose proof (iv_tables _ _ H) as Hok. destruct (get_entry Hok _ _ Hg) as [He Hs].
  destruct (table_refs s r H ltac:(lia) Hg) as [_ Hb]. unfold share_fd_table. rewrite (get_at Hok _ _ Hg), u32_small by lia.
  apply (put_table _ s r _ H Hg); try done; [intros _; cbn; lia|].
  intros x. rewrite held_cons. cbn [set_fd_counts ft_refcount]. lia.
Qed.

Lemma share_namespace_step {f d n h i xt xn m b t} s r : Inv (Held f d n h i xt xn m b) t -> (length n < 900)%nat -> (length h < 900)%nat ->
  get (mount_namespaces t) s = Some r ->
  Inv (Held f d (s :: n) h i xt xn m b) (share_namespace t s) /\ Kept t (share_namespace t s).
Proof.
  intros H Hn Hh Hg. pose proof (iv_namespaces _ _ H) as Hok. destruct (get_entry Hok _ _ Hg) as [He Hs].
  destruct (namespace_refs s r H ltac:(lia) ltac:(lia) Hg) as (_ & _ & B1 & B2 & E3). unfold share_namespace.
  rewrite (get_at Hok _ _ Hg), !u32_small by lia. split; [|by apply (kept_put_ns s r _ H Hg)].
  apply (put_ns _ _ s r _ H Hg); try done; cbn [set_namespace_counts mn_refcount task_refcount handle_refcount]; try lia.
  - intros x. rewrite held_cons. lia.
Qed.

(** ** Leaving *)

Lemma release_task_step {m b t} slot r : Inv (Held [] [] [] [] [] None None m b) t -> get (tasks t) slot = Some r ->
  Inv (Held [] [] [] [] [] None None m b) (release_task t slot r) /\
  tasks (release_task t slot r) = vacate (tasks t) slot (ClearTask slot) /\ Files t (release_task t slot r).
Proof.
  intros H Hg. apply (vacate_task slot r) in H; [|done]. unfold release_task.
  apply release_fs in H; [|simpl; lia]. destruct (release_table _ H) as (H2 & _ & E2 & _ & F2); [simpl; lia..|].
  destruct (release_namespace _ H2) as (H3 & _); [simpl; lia..|]. split; [exact H3|].
  destruct (others_split _ _ (release_namespace_others (ReleaseFdTableReference (ReleaseFsReference (EraseTaskSlot t slot) (pt_fs_context_slot r))
    (pt_fd_table_slot r)) (pt_mount_namespace_slot r))) as (-> & _ & ED & EI). rewrite E2.
  pose proof (release_context_others (EraseTaskSlot t slot) (pt_fs_context_slot r)) as E. injection E as -> E3 E4 _ _. split; [done|].
  etrans; [|exact (files_same _ _ ED EI)]. etrans; [|exact F2]. exact (files_same _ _ E3 E4).
Qed.

(** A task that is gone. *)
Lemma task_gone {g g' t t'} slot r : Inv g t -> Inv g' t' -> get (tasks t) slot = Some r ->
  tasks t' = vacate (tasks t) slot (ClearTask slot) -> Files t t' -> same (view t') (assign (pt_tid r) None (view t)).
Proof.
  intros H H' Hr Et HF. apply (same_intro _ H').
  - intros tid. rewrite (tables_change slot (Some r) None tid H H' Hr).
    + cbn [holds assign table_of]. unfold of_task. by rewrite Z.eqb_sym.
    + rewrite Et. by apply (get_vacate (iv_tasks _ _ H) _ r).
  - intros table fd Hx. exact (files_entry table fd H H' HF Hx).
Qed.

Lemma remove_keeps m t tid : Inv (settled m) t -> 0 <= m < 2 ^ 64 - 1 ->
  keeps (does t tid (fun _ => unix_remove tid)) m t (RemovePathTask t tid).
Proof.
  intros H Hm. unfold RemovePathTask. apply keeps_task; [exact H|]. intros slot r Hr _ <- _ _. destruct (get_entry (iv_tasks _ _ H) _ _ Hr) as [_ Hs]. cbn in Hs.
  rewrite Hs. destruct (release_task_step slot r H Hr) as (H' & Et & HF). apply (keeps_noted _ m); [exact H'|lia|done|].
  apply does_noted, (does_unnamed _ _ _ H). exact (task_gone slot r H H' Hr Et HF).
Qed.

Lemma migrate_keeps m t former_tid new_tid : Inv (settled m) t -> 0 <= m < 2 ^ 64 - 1 ->
  keeps (does t former_tid (fun _ => unix_migrate former_tid new_tid)) m t (MigrateExecPathTask t former_tid new_tid).
Proof.
  intros H Hm. unfold MigrateExecPathTask. apply keeps_task; [exact H|]. intros slot r Hr Hof Htid Hpos Hnew. apply Z.leb_gt in Hnew.
  destruct (Z.eqb_spec former_tid new_tid) as [Eq|Hne].
  { apply keeps_same; [exact H|]. intros _. apply (does_unnamed _ _ _ H). unfold unix_migrate. by rewrite Eq, Z.eqb_refl. }
  cbv zeta. set (t1 := match FindTaskUnchecked t new_tid with Some displaced => _ | None => t end).
  assert (Inv (settled m) t1 /\ get (tasks t1) slot = Some r /\ (forall s r0, get (tasks t1) s = Some r0 -> pt_tid r0 <> new_tid) /\
    same (view t1) (assign new_tid None (view t))) as (H1 & Hr1 & Hno & Hv1).
  { unfold t1. destruct (FindTaskUnchecked t new_tid) as [dis|] eqn:E.
    - destruct (find_task _ _ H E) as (rd & Hrd & Hofd & Htd). rewrite Hofd. destruct (get_entry (iv_tasks _ _ H) _ _ Hrd) as [_ Hs].
      cbn in Hs. rewrite Hs. destruct (release_task_step dis rd H Hrd) as (H' & Et & HF). split; [exact H'|].
      pose proof (task_gone dis rd H H' Hrd Et HF) as Hgone. rewrite Htd in Hgone. rewrite Et.
      assert (forall x, get (vacate (tasks t) dis (ClearTask dis)) x = if decide (x = dis) then None else get (tasks t) x) as Hv
        by (by apply (get_vacate (iv_tasks _ _ H) _ rd)). split; [|split; [|exact Hgone]].
      + rewrite Hv. destruct (decide _) as [->|]; [congruence|done].
      + intros s r0. rewrite Hv. destruct (decide _) as [|Hs0]; [done|]. intros Hr0 Et0. apply Hs0.
        apply (get_unique (iv_tasks _ _ H) _ _ _ _ Hr0 Hrd). cbn. congruence.
    - split_and!; [done|done|exact (find_no_task _ H E)|]. split; [|done]. intros tid. cbn [assign table_of].
      destruct (Z.eqb_spec tid new_tid) as [->|]; [|done]. apply (found_None _ _ (of_task_key _) _ (iv_tasks _ _ H)).
      intros s r0 Hr0. apply Z.eqb_neq. exact (find_no_task _ H E s r0 Hr0). }
  clearbody t1. pose proof (iv_current _ _ H1) as Ecur. rewrite (next_generation_task m t1 Hm Ecur).
  unfold task_of. cbn [NoteMutation tasks]. rewrite (get_at (iv_tasks _ _ H1) _ _ Hr1).
  destruct (get_entry (iv_tasks _ _ H1) _ _ Hr1) as [He Hs].
  apply (note_mutation (m := m)) in H1; [|done]. apply (weaken_bound (m + 1)) in H1; [|lia]. set (r' := set_task r _ _ _ _ _).
  assert (Inv (settled (m + 1)) (put_task (NoteMutation t1) slot r')) as H2; [|apply keeps_changed; [exact H2|]].
  2:{ apply (does_unnamed _ _ _ H). destruct (stays_in_use (iv_tasks _ _ H1) slot r r' Hr1 eq_refl) as [Hu _].
      transitivity (assign former_tid None (assign new_tid (table_of (view t) former_tid) (view t1))).
      - apply (same_intro _ H2); [|done]. intros tid.
        rewrite (tables_change slot (Some r) (Some r') tid H1 H2 Hr1 (get_put (iv_tasks _ _ H1) _ _ _ Hr1 Hu)).
        cbn [holds assign table_of option_map r' set_task pt_tid pt_fd_table_slot]. unfold of_task. cbn [r' set_task pt_tid].
        rewrite <- Htid, (table_of_task _ _ H Hr), (Z.eqb_sym tid), (Z.eqb_sym tid).
        destruct (Z.eqb_spec new_tid tid) as [->|]; [by replace (pt_tid r =? tid) with false by lia|done].
      - unfold unix_migrate. replace (former_tid =? new_tid) with false by lia. destruct Hv1 as [V1 V2]. split; cbn [assign table_of entry].
        + intros tid. rewrite V1. cbn [assign table_of]. destruct (tid =? former_tid), (tid =? new_tid); done.
        + intros tid table fd E. destruct (tid =? former_tid) eqn:E1; [done|]. apply (V2 (if tid =? new_tid then former_tid else tid)).
          revert E. cbn [assign table_of]. destruct (tid =? new_tid) eqn:E2; [|by rewrite E2].
          by replace (former_tid =? new_tid) with false by lia. }
  apply (put_task_step [] [] [] slot r _ H1 Hr1); try done.
  - unfold task_fields in *. cbn [r' set_task pt_tid pt_reserved pt_reserved2 pt_identity_generation].
    replace (0 <? new_tid) with true by lia. replace (zero (m + 1)) with false by (unfold zero; lia). bool_hyps. by rewrite !andb_true_iff.
  - intros s' r0 Hr0 E. by destruct (Hno s' r0 Hr0).
  - intros s' r0 Hr0 Hs' E. exact (iv_share _ _ H1 _ _ _ _ Hr0 Hr1 E).
  - intros c Hc. exact (iv_known _ _ H1 _ _ _ Hr1 Hc).
Qed.

(** ** Moving a task to another object *)

Lemma moved_task {g t} slot r r' x r0 : Inv g t -> get (tasks t) slot = Some r -> pt_occupied r' = pt_occupied r ->
  get (put (tasks t) slot r') x = Some r0 -> (x = slot /\ r0 = r') \/ (x <> slot /\ get (tasks t) x = Some r0).
Proof.
  intros H Hg Ho. destruct (stays_in_use (iv_tasks _ _ H) slot r r' Hg Ho) as [Hu _].
  rewrite (get_put (iv_tasks _ _ H) _ _ _ Hg Hu). destruct (decide _); [intros [= <-]; by left|by right].
Qed.

Lemma move_fs_step {f d n h i xt xn m b t} slot r new : Inv (Held (new :: f) d n h i xt xn m b) t -> (length f < 800)%nat ->
  get (tasks t) slot = Some r ->
  (forall s' r0, get (tasks t) s' = Some r0 -> s' <> slot -> pt_fs_context_slot r0 = new -> pt_mount_namespace_slot r0 = pt_mount_namespace_slot r) ->
  (forall c, get (fs_contexts t) new = Some c -> known (mount_namespaces t) (mount_bindings t) (pt_mount_namespace_slot r) (cwd_mount_id c) /\
    known (mount_namespaces t) (mount_bindings t) (pt_mount_namespace_slot r) (fs_root_mount_id c)) ->
  Inv (Held f d n h i xt xn m b) (move_fs t slot new) /\
  tasks (move_fs t slot new) = put (tasks t) slot (set_task r (pt_tid r) new (pt_fd_table_slot r) (pt_mount_namespace_slot r) (pt_identity_generation r)) /\
  Files t (move_fs t slot new).
Proof.
  intros H Hf Hr Hsh Hk. destruct (get_entry (iv_tasks _ _ H) _ _ Hr) as [He Hs]. unfold move_fs, task_of.
  rewrite (get_at (iv_tasks _ _ H) _ _ Hr). split.
  - apply release_fs; [|lia]. apply (put_task_step (pt_fs_context_slot r :: f) d n slot r _ H Hr); try done.
    + intros s' r0 Hr0 E. by apply (get_unique (iv_tasks _ _ H) _ _ _ _ Hr0 Hr).
    + intros x. cbn [held]. unfold uses_fs. cbn [set_task pt_fs_context_slot]. lia.
  - pose proof (release_context_others (put_task t slot (set_task r (pt_tid r) new (pt_fd_table_slot r) (pt_mount_namespace_slot r)
      (pt_identity_generation r))) (pt_fs_context_slot r)) as E. injection E as -> E1 E2 _ _. split; [done|by apply files_same].
Qed.

Lemma move_files_step {f d n h i m b t} slot r new : Inv (Held f (new :: d) n h i None None m b) t -> (length d < 800)%nat ->
  (length n < 800)%nat -> (length h < 700)%nat -> (length i < 700)%nat -> get (tasks t) slot = Some r ->
  Inv (Held f d n h i None None m b) (move_files t slot new) /\
  tasks (move_files t slot new) = put (tasks t) slot (set_task r (pt_tid r) (pt_fs_context_slot r) new (pt_mount_namespace_slot r) (pt_identity_generation r)) /\
  fs_contexts (move_files t slot new) = fs_contexts t /\ Kept t (move_files t slot new) /\ Files t (move_files t slot new).
Proof.
  intros H Hd Hn Hh Hi Hr. destruct (get_entry (iv_tasks _ _ H) _ _ Hr) as [He Hs]. unfold move_files, task_of.
  rewrite (get_at (iv_tasks _ _ H) _ _ Hr).
  assert (Inv (Held f (pt_fd_table_slot r :: d) n h i None None m b) (put_task t slot (set_task r (pt_tid r) (pt_fs_context_slot r) new
    (pt_mount_namespace_slot r) (pt_identity_generation r)))) as H1.
  { apply (put_task_step f (pt_fd_table_slot r :: d) n slot r _ H Hr); try done.
    - intros s' r0 Hr0 E. by apply (get_unique (iv_tasks _ _ H) _ _ _ _ Hr0 Hr).
    - intros x. cbn [held]. unfold uses_fd. cbn [set_task pt_fd_table_slot]. lia.
    - intros s' r0 Hr0 Hs' E. exact (iv_share _ _ H _ _ _ _ Hr0 Hr E).
    - intros c Hc. exact (iv_known _ _ H _ _ _ Hr Hc). }
  destruct (release_table _ H1) as (H2 & K & E1 & E2 & F2); [lia..|]. split; [exact H2|]. split; [exact E1|]. split; [exact E2|].
  split; [etrans; [|exact K]; by apply kept_same|]. etrans; [|exact F2]. by apply files_same.
Qed.

(** A task whose table is another. *)
Lemma task_moved {g g' t t'} slot r r' tid : Inv g t -> Inv g' t' -> get (tasks t) slot = Some r -> tasks t' = put (tasks t) slot r' ->
  pt_occupied r' = pt_occupied r -> pt_tid r' = pt_tid r ->
  table_of (view t') tid = table_of (assign (pt_tid r) (Some (pt_fd_table_slot r')) (view t)) tid.
Proof.
  intros H H' Hr Et Ho Htid. destruct (stays_in_use (iv_tasks _ _ H) slot r r' Hr Ho) as [Hu _].
  rewrite (tables_change slot (Some r) (Some r') tid H H' Hr); [|rewrite Et; exact (get_put (iv_tasks _ _ H) _ _ _ Hr Hu)].
  cbn [holds assign table_of option_map]. unfold of_task. rewrite Htid, (Z.eqb_sym tid). by destruct (pt_tid r =? tid).
Qed.

(** Neither do the moves to another context or namespace change what a task sees. *)
Lemma place_moved {g g' t t'} slot r r' : Inv g t -> Inv g' t' -> get (tasks t) slot = Some r -> tasks t' = put (tasks t) slot r' ->
  pt_occupied r' = pt_occupied r -> pt_tid r' = pt_tid r -> pt_fd_table_slot r' = pt_fd_table_slot r -> Files t t' -> same (view t') (view t).
Proof.
  intros H H' Hr Et Ho Htid Hfd HF. apply (same_files H H'); [|exact HF]. intros tid.
  rewrite (task_moved slot r r' tid H H' Hr Et Ho Htid), Hfd. cbn [assign table_of].
  destruct (Z.eqb_spec tid (pt_tid r)) as [->|]; [|done]. by rewrite (table_of_task _ _ H Hr).
Qed.

(** The task moves to the copy of its table. *)
Lemma copy_moved {g g2 g3 t t2 t3} slot r r2 r3 name keep : Inv g t -> Inv g2 t2 -> Inv g3 t3 ->
  get (tasks t) slot = Some r -> get (tasks t2) slot = Some r2 -> pt_tid r2 = pt_tid r ->
  (forall tid, table_of (view t2) tid = table_of (view t) tid) ->
  (forall x fd, entry (view t2) x fd = if x =? name
    then match entry (view t) (pt_fd_table_slot r) fd with Some d => keep d | None => None end else entry (view t) x fd) ->
  tasks t3 = put (tasks t2) slot r3 -> pt_occupied r3 = pt_occupied r2 -> pt_tid r3 = pt_tid r2 -> pt_fd_table_slot r3 = name -> Files t2 t3 ->
  same (view t3) (own (pt_tid r) name keep (view t)).
Proof.
  intros H H2 H3 Hr Hr2 Htid Ht He Et Ho Htid3 Hn HF. apply (same_intro _ H3).
  - intros tid. rewrite (task_moved slot r2 r3 tid H2 H3 Hr2 Et Ho Htid3). cbn [own assign define table_of]. by rewrite Htid, Hn, Ht.
  - intros table fd Hx. rewrite (files_entry table fd H2 H3 HF Hx), He. cbn [own assign define entry]. unfold seen.
    rewrite (table_of_task _ _ H Hr). by destruct (table =? name).
Qed.

(** A task whose context no other task uses moves to another namespace. *)
Lemma move_namespace_step {f d n h i m b t} slot r new : Inv (Held f d (new :: n) h i None None m b) t -> (length n < 800)%nat ->
  (length h < 700)%nat -> get (tasks t) slot = Some r ->
  (forall s' r0, get (tasks t) s' = Some r0 -> s' <> slot -> pt_fs_context_slot r0 <> pt_fs_context_slot r) ->
  (forall c, get (fs_contexts t) (pt_fs_context_slot r) = Some c -> known (mount_namespaces t) (mount_bindings t) new (cwd_mount_id c) /\
    known (mount_namespaces t) (mount_bindings t) new (fs_root_mount_id c)) ->
  Inv (Held f d n h i None None m b) (move_namespace t slot new) /\
  tasks (move_namespace t slot new) = put (tasks t) slot (set_task r (pt_tid r) (pt_fs_context_slot r) (pt_fd_table_slot r) new (pt_identity_generation r)) /\
  Files t (move_namespace t slot new).
Proof.
  intros H Hn Hh Hr Hsh Hk. destruct (get_entry (iv_tasks _ _ H) _ _ Hr) as [He Hs]. unfold move_namespace, task_of.
  rewrite (get_at (iv_tasks _ _ H) _ _ Hr). set (r' := set_task r _ _ _ _ _).
  destruct (others_split _ _ (release_namespace_others (put_task t slot r') (pt_mount_namespace_slot r))) as (E1 & _ & E2 & E3).
  split; [|split; [exact E1|exact (files_same t _ E2 E3)]]. apply release_namespace; [|lia..].
  apply (put_task_step f d (pt_mount_namespace_slot r :: n) slot r _ H Hr); try done.
  - intros s' r0 Hr0 E. by apply (get_unique (iv_tasks _ _ H) _ _ _ _ Hr0 Hr).
  - intros x. cbn [held]. unfold uses_ns. cbn [r' set_task pt_mount_namespace_slot]. lia.
  - intros s' r0 Hr0 Hs' E. by destruct (Hsh s' r0 Hr0 Hs').
Qed.

Lemma touch_table {f d n h i xt xn m b t} s r : Inv (Held f d n h i xt xn m b) t -> get (fd_tables t) s = Some r ->
  Inv (Held f d n h i xt xn m b) (touch_fd_table t s).
Proof.
  intros H Hg. pose proof (iv_tables _ _ H) as Hok. destruct (get_entry Hok _ _ Hg) as [He Hs]. unfold touch_fd_table.
  rewrite (get_at Hok _ _ Hg). apply (put_table d s r _ H Hg); try done.
  - unfold fd_table_fields in *. cbn [ft_generation ft_reserved]. bool_hyps. rewrite andb_true_iff. split; [|done].
    assert (zero (NextGeneration (ft_generation r)) = false) as -> by apply Z.eqb_neq, next_generation_nonzero. done.
  - intros Hx. by apply (iv_fd_live _ _ H _ _ Hg).
  - intros x. cbn [ft_refcount]. lia.
Qed.

(** ** Exec *)

Definition marked_in (table : Z) (r : FdIdentity) : bool := (fi_fd_table_slot r =? table) && negb (fi_cloexec r =? 0).

Lemma close_on_exec_where t table : close_on_exec t table = erase_where (marked_in table) t.
Proof.
  unfold close_on_exec, erase_where, for_slots. generalize (seqZ 0 kPathStateFdIdentityCapacity). intros l. revert t.
  induction l as [|k l IH]; intros t; [done|]. cbn [foldl]. rewrite IH. f_equal. unfold marked_in. by rewrite andb_assoc.
Qed.

(** ** The copies of a clone or an unshare *)

Lemma count_if_ext {A K} `{SlotRecord A K} (P Q : A -> bool) (p : Pool A) : (forall r, P r = Q r) -> count_if P p = count_if Q p.
Proof. apply count_list_ext. Qed.

Lemma copied_all {g t} source r : Inv g t -> get (fd_tables t) source = Some r ->
  CountCopiedIdentities t source kAll 0 0 = entry_count r.
Proof.
  intros H Hg. pose proof (iv_entries _ _ H source) as He. rewrite (field_get _ _ _ Hg) in He. rewrite He. unfold CountCopiedIdentities.
  apply count_if_ext. intros r0. unfold copied, ShouldCopyIdentity, in_table. by rewrite andb_true_r.
Qed.

(** The context the copies leave in the slot: it has the directories of the task's. *)
Definition same_directories (t t' : PathStateTable) (source s : Z) : Prop :=
  exists c c', get (fs_contexts t) source = Some c /\ get (fs_contexts t') s = Some c' /\
    cwd_mount_id c' = cwd_mount_id c /\ fs_root_mount_id c' = fs_root_mount_id c.

Record Copies (copy_fs copy_fds copy_ns : bool) (t : PathStateTable) (r : PathTaskState) (fs fd ns m : Z) (t' : PathStateTable) : Prop := {
  co_inv : Inv (Held (if copy_fs then [fs] else []) (if copy_fds then [fd] else []) (if copy_ns then [ns] else []) [] [] None None m
    (if copy_ns then m + 1 else m)) t';
  co_tasks : tasks t' = tasks t;
  co_directories : same_directories t t' (pt_fs_context_slot r) fs;
  co_contexts : forall x c, get (fs_contexts t) x = Some c -> get (fs_contexts t') x = Some c;
  co_table : is_some (get (fd_tables t') fd) = true;
  co_mounted : forall x id, mounted (mount_namespaces t) (mount_bindings t) x id -> mounted (mount_namespaces t') (mount_bindings t') x id;
  co_namespace : forall id, mounted (mount_namespaces t) (mount_bindings t) (pt_mount_namespace_slot r) id ->
    mounted (mount_namespaces t') (mount_bindings t') ns id;
  co_entries : forall x y, entry (view t') x y = if copy_fds && (x =? fd) then entry (view t) (pt_fd_table_slot r) y else entry (view t) x y }.

Lemma entries_same t t' x y : fd_identities t' = fd_identities t -> entry (view t') x y = entry (view t) x y.
Proof. intros E. unfold view. cbn [entry]. by rewrite E. Qed.

Lemma pass_all {g t} x y : Inv g t -> match entry (view t) x y with Some d => passes kAll 0 0 d | None => None end = entry (view t) x y.
Proof.
  intros H. destruct (entry (view t) x y) as [d|] eqn:E; [|done]. apply (entry_described x y d H) in E. unfold passes. cbn [ShouldCopyIdentity copied_cloexec].
  f_equal. exact (with_own_mark d E).
Qed.

Lemma copies_step copy_fs copy_fds copy_ns m t p r fs fd ns o q : Inv (settled m) t -> 0 <= m < 2 ^ 64 - 1 -> get (tasks t) p = Some r ->
  slot_for copy_fs (fs_contexts t) (pt_fs_context_slot r) = Some fs ->
  slot_for copy_fds (fd_tables t) (pt_fd_table_slot r) = Some fd ->
  slot_for copy_ns (mount_namespaces t) (pt_mount_namespace_slot r) = Some ns ->
  get (fd_tables t) (pt_fd_table_slot r) = Some o -> get (mount_namespaces t) (pt_mount_namespace_slot r) = Some q ->
  copy_fds && (CountFreeFdIdentitySlots t <? entry_count o) = false ->
  copy_ns && (CountFreeMountBindingSlots t <? binding_count q) = false ->
  exists t', copies copy_fs copy_fds copy_ns t r fs fd ns = (0, t') /\ Copies copy_fs copy_fds copy_ns t r fs fd ns m t'.
Proof.
  intros H Hm Hr Sfs Sfd Sns Ho Hq Cfd Cns. unfold copies. destruct (task_context H _ _ Hr) as [c Hc]. rewrite (get_at (iv_contexts _ _ H) _ _ Hc).
  set (t1 := if copy_fs then CopyFsContextToSlot t c fs else t).
  assert (Inv (Held (if copy_fs then [fs] else []) [] [] [] [] None None m m) t1 /\ same_directories t t1 (pt_fs_context_slot r) fs /\
    (forall x c0, get (fs_contexts t) x = Some c0 -> get (fs_contexts t1) x = Some c0)) as (H1 & Hsd & Hcx).
  { unfold t1. destruct copy_fs; cbn [slot_for] in Sfs.
    - destruct (copy_context fs _ c H Hc Sfs) as [H1 Hget]. split; [exact H1|]. split.
      + exists c, (context_copy c fs). by rewrite Hget, decide_True.
      + intros x c0 Hx. rewrite Hget. destruct (find_free_Some (iv_contexts _ _ H) _ Sfs) as (_ & Hn & _). destruct (decide _); [congruence|done].
    - injection Sfs as <-. split_and!; [exact H|by exists c, c|done]. }
  assert (tasks t1 = tasks t /\ fd_tables t1 = fd_tables t /\ fd_identities t1 = fd_identities t /\ mount_namespaces t1 = mount_namespaces t /\
    mount_bindings t1 = mount_bindings t) as (T1 & D1 & I1 & N1 & B1) by (unfold t1; by destruct copy_fs).
  clearbody t1.
  assert (exists t2, copy_files copy_fds t1 (pt_fd_table_slot r) fd kAll (erase_copies copy_fs false fs fd) = (0, t2) /\
    Inv (Held (if copy_fs then [fs] else []) (if copy_fds then [fd] else []) [] [] [] None None m m) t2 /\ tasks t2 = tasks t /\
    fs_contexts t2 = fs_contexts t1 /\ mount_namespaces t2 = mount_namespaces t /\ mount_bindings t2 = mount_bindings t /\
    is_some (get (fd_tables t2) fd) = true /\
    forall x y, entry (view t2) x y = if copy_fds && (x =? fd) then entry (view t) (pt_fd_table_slot r) y else entry (view t) x y)
    as (t2 & -> & H2 & T2 & F2 & N2 & B2 & D2 & V2).
  { unfold copy_files. destruct copy_fds; cbn [slot_for] in Sfd.
    - rewrite <- D1 in Sfd, Ho. pose proof (copy_table (pt_fd_table_slot r) fd kAll 0 0 o H1 ltac:(simpl; lia) Ho Sfd) as HC. cbv zeta in HC.
      rewrite (copied_all _ _ H1 Ho) in HC. cbn [andb] in Cfd. unfold CountFreeFdIdentitySlots in *. rewrite I1, Cfd in HC.
      destruct HC as (t2 & -> & HC & HV). cbn [negb Z.eqb]. exists t2. destruct HC as [HI Et Ef En Eb Etg _ _ _ _ _].
      split_and!; [done|exact HI|by rewrite Et|by rewrite Ef|by rewrite En|by rewrite Eb|done|].
      intros x y. rewrite HV. cbn [andb]. rewrite (pass_all _ _ H1), !(entries_same t t1) by done. done.
    - injection Sfd as <-. exists t1. split_and!; try done; [by rewrite D1, Ho|]. intros x y. by apply entries_same. }
  cbn [negb Z.eqb]. unfold copy_namespace. destruct copy_ns; cbn [slot_for andb] in Sns, Cns.
  - rewrite <- N2 in Sns, Hq. pose proof (copy_namespace_step true (pt_mount_namespace_slot r) ns q H2 Hm ltac:(lia) Hq Sns) as HC.
    unfold CountFreeMountBindingSlots in *. rewrite B2, Cns in HC. destruct HC as (t3 & -> & HI & [Eo _ Ec Emn]). cbn [negb Z.eqb].
    exists t3. split; [done|]. destruct (others_split _ _ Eo) as (Et & Ef & Ed & Ei). rewrite N2, B2 in *.
    destruct Hsd as (c1 & c2 & Hc1 & Hc2 & Hids). split; [exact HI|congruence| | |by rewrite Ed|exact Emn|exact Ec|].
    + exists c1, c2. rewrite Ef, F2. done.
    + intros x c0 Hx. rewrite Ef, F2. by apply Hcx.
    + intros x y. by rewrite (entries_same t2 t3).
  - injection Sns as <-. exists t2. split; [done|]. split; rewrite ?N2, ?B2; try done.
    + destruct Hsd as (c1 & c2 & Hc1 & Hc2 & Hids). exists c1, c2. by rewrite F2.
    + intros x c0 Hx. rewrite F2. by apply Hcx.
Qed.

(** ** Clone *)

Lemma same_directories_known t t' r fs c N B x p :
  (forall c0, get (fs_contexts t) (pt_fs_context_slot r) = Some c0 -> known N B p (cwd_mount_id c0) /\ known N B p (fs_root_mount_id c0)) ->
  (forall id, known N B p id -> known (mount_namespaces t') (mount_bindings t') x id) ->
  same_directories t t' (pt_fs_context_slot r) fs -> get (fs_contexts t') fs = Some c ->
  known (mount_namespaces t') (mount_bindings t') x (cwd_mount_id c) /\ known (mount_namespaces t') (mount_bindings t') x (fs_root_mount_id c).
Proof.
  intros Hk Hm (c0 & c1 & Hc0 & Hc1 & E1 & E2) Hc. rewrite Hc in Hc1. injection Hc1 as <-. rewrite E1, E2.
  destruct (Hk _ Hc0). split; by apply Hm.
Qed.

(** The references a clone shares, taken after the copies. *)
Lemma sharing_step share_files new_ns share_f m t r fs fd ns t1 : Copies (negb share_f) (negb share_files) new_ns t r fs fd ns m t1 ->
  is_some (get (mount_namespaces t1) ns) = true ->
  let t2 := if share_f then share_fs_context t1 fs else t1 in
  let t3 := if share_files then share_fd_table t2 fd else t2 in
  let t4 := if new_ns then t3 else share_namespace t3 ns in
  Inv (Held [fs] [fd] [ns] [] [] None None m (if new_ns then m + 1 else m)) t4 /\ tasks t4 = tasks t /\
  same_directories t t4 (pt_fs_context_slot r) fs /\ Kept t1 t4 /\ fd_identities t4 = fd_identities t1.
Proof.
  intros [HI Et Hsd Hcx Htb Hmo Hns _] Hn t2 t3 t4. set (b := if new_ns then m + 1 else m) in *. clearbody b.
  assert (Inv (Held [fs] (if negb share_files then [fd] else []) (if new_ns then [ns] else []) [] [] None None m b) t2 /\ tasks t2 = tasks t /\
    same_directories t t2 (pt_fs_context_slot r) fs /\ Kept t1 t2 /\ fd_tables t2 = fd_tables t1 /\ mount_namespaces t2 = mount_namespaces t1 /\
    fd_identities t2 = fd_identities t1) as (H2 & T2 & S2 & K2 & D2 & N2 & I2).
  { unfold t2. destruct share_f; cbn [negb] in HI; [|by split_and!]. destruct Hsd as (c0 & c1 & Hc0 & Hc1 & E1 & E2).
    destruct (share_fs fs c1 HI ltac:(simpl; lia) Hc1) as [H2 Hctx]. split_and!; [exact H2|exact Et| |by apply kept_same|done|done|done].
    destruct (held_context fs H2 (held_one _ _)) as [c2 Hc2]. destruct (Hctx _ _ Hc2) as (c3 & Hc3 & E3 & E4).
    exists c0, c2. rewrite Hc1 in Hc3. injection Hc3 as <-. split_and!; [done|done|congruence|congruence]. }
  clearbody t2. assert (Inv (Held [fs] [fd] (if new_ns then [ns] else []) [] [] None None m b) t3 /\ tasks t3 = tasks t /\
    same_directories t t3 (pt_fs_context_slot r) fs /\ Kept t1 t3 /\ mount_namespaces t3 = mount_namespaces t1 /\
    fd_identities t3 = fd_identities t1) as (H3 & T3 & S3 & K3 & N3 & I3).
  { unfold t3. destruct share_files; cbn [negb] in H2; [|by split_and!]. rewrite <- D2 in Htb.
    destruct (get (fd_tables t2) fd) as [d0|] eqn:Hd; [|done]. pose proof (share_table fd d0 H2 ltac:(simpl; lia) Hd) as H3.
    split_and!; [exact H3|exact T2|exact S2| |exact N2|exact I2]. etrans; [exact K2|by apply kept_same]. }
  clearbody t3. unfold t4. destruct new_ns; [by split_and!|]. rewrite <- N3 in Hn. destruct (get (mount_namespaces t3) ns) as [n0|] eqn:Hn0; [|done].
  destruct (share_namespace_step ns n0 H3 ltac:(simpl; lia) ltac:(simpl; lia) Hn0) as [H4 K4].
  split_and!; [exact H4|exact T3|exact S3|by etrans|exact I3].
Qed.

Lemma clone_keeps m t parent_tid child_tid flags : Inv (settled m) t -> 0 <= m < 2 ^ 64 - 1 ->
  keeps (does t child_tid (unix_clone parent_tid child_tid flags)) m t (ClonePathTask t parent_tid child_tid flags).
Proof.
  intros H Hm. unfold ClonePathTask, unix_clone. apply keeps_task; [exact H|]. intros slot r Hr _ Htid _ Hchild. apply Z.leb_gt in Hchild.
  destruct (FindTaskUnchecked t child_tid) eqn:Et; [by apply keeps_same|]. cbv zeta.
  set (sf := has flags kPathCloneFs). set (sd := has flags kPathCloneFiles). set (nn := has flags kPathCloneNewns).
  clearbody sf sd nn.
  destruct (sf && nn) eqn:Efn; [by apply keeps_same|]. destruct (_ || _ || _); [by apply keeps_same|].
  destruct (find_free (tasks t)) as [ts|] eqn:Fts; [|by apply keeps_same].
  destruct (slot_for (negb sf) _ _) as [fs|] eqn:Sfs; [|by apply keeps_same].
  destruct (slot_for (negb sd) _ _) as [fd|] eqn:Sfd; [|by apply keeps_same].
  destruct (slot_for nn _ _) as [ns|] eqn:Sns; [|by apply keeps_same].
  destruct (task_table H _ _ Hr) as [o Ho]. destruct (task_namespace H _ _ Hr) as [q Hq].
  rewrite (get_at (iv_tables _ _ H) _ _ Ho), (get_at (iv_namespaces _ _ H) _ _ Hq).
  destruct (negb sd && _) eqn:C1; [by apply keeps_same|]. destruct (nn && _) eqn:C2; [by apply keeps_same|].
  destruct (copies_step (negb sf) (negb sd) nn m t slot r fs fd ns o q) as (t1 & -> & HC); [done..|]. cbn [negb Z.eqb].
  assert (forall id, known (mount_namespaces t) (mount_bindings t) (pt_mount_namespace_slot r) id ->
    known (mount_namespaces t1) (mount_bindings t1) ns id) as Hkn.
  { intros id [->|Hid]; [by left|right]. by apply (co_namespace _ _ _ _ _ _ _ _ _ _ HC). }
  assert (is_some (get (mount_namespaces t1) ns) = true) as Hns.
  { destruct (co_namespace _ _ _ _ _ _ _ _ _ _ HC (root_mount_id q)) as (n0 & -> & _); [|done]. exists q. by split; [|left]. }
  destruct (sharing_step sd nn sf m t r fs fd ns t1 HC Hns) as (H4 & T4 & S4 & K4 & I4).
  match type of T4 with tasks ?x = _ => set (t4 := x) in * end. clearbody t4. pose proof (iv_current _ _ H4) as Ecur.
  apply note_mutation in H4; [|done]. apply (weaken_bound (m + 1)) in H4; [|destruct nn; lia]. rewrite (next_generation_task m t4 Hm Ecur).
  assert (Inv (settled (m + 1)) (OccupyTask (NoteMutation t4) ts child_tid fs fd ns (m + 1))) as H5; [|apply keeps_changed; [exact H5|]].
  2:{ assert (forall tid, table_of (view (OccupyTask (NoteMutation t4) ts child_tid fs fd ns (m + 1))) tid =
        table_of (assign child_tid (Some fd) (view t)) tid) as Htab.
      { refine (new_task ts (Build_PathTaskState 1 ts child_tid 0 fs fd ns 0 (m + 1)) H H5 Fts _ eq_refl).
        cbn [OccupyTask NoteMutation with_tasks tasks]. by rewrite T4. }
      assert (forall x y, entry (view (OccupyTask (NoteMutation t4) ts child_tid fs fd ns (m + 1))) x y =
        if negb sd && (x =? fd) then entry (view t) (pt_fd_table_slot r) y else entry (view t) x y) as Hent.
      { intros x y. rewrite <- (co_entries _ _ _ _ _ _ _ _ _ _ HC). by apply entries_same. }
      pose proof (table_of_task slot r H Hr) as Hpt. rewrite Htid in Hpt. destruct sd; cbn [negb slot_for] in Sfd.
      - injection Sfd as <-. refine (does_unnamed child_tid (fun u => assign child_tid (table_of u parent_tid) u) _ H _).
        apply (same_intro _ H5); [by rewrite Hpt|]. intros x y _. exact (Hent x y).
      - exists fd. split; [exact (free_private child_tid fd H Sfd)|]. apply (same_intro _ H5); [exact Htab|]. intros x y _.
        rewrite Hent. cbn [andb assign define entry]. unfold seen. rewrite Hpt. by destruct (x =? fd). }
  apply occupy_task; [exact H4|cbn [NoteMutation tasks]; by rewrite T4|done|lia| | |].
  - cbn [NoteMutation tasks]. rewrite T4. exact (find_no_task _ H Et).
  - cbn [NoteMutation tasks]. rewrite T4. intros s' r0 Hr0 E. destruct sf; cbn [negb slot_for] in Sfs.
    + destruct nn; [done|]. cbn [slot_for] in Sns. injection Sfs as <-. injection Sns as <-. exact (iv_share _ _ H _ _ _ _ Hr0 Hr E).
    + exfalso. destruct (task_context H _ _ Hr0) as [c0 Hc0]. destruct (find_free_Some (iv_contexts _ _ H) _ Sfs) as (_ & Hn & _). congruence.
  - intros c Hc. destruct (held_namespace ns H4 (held_one _ _)) as [n0 Hn0].
    apply (same_directories_known t (NoteMutation t4) r fs c (mount_namespaces t) (mount_bindings t) ns (pt_mount_namespace_slot r)); [| |exact S4|exact Hc].
    + intros c0 Hc0. exact (iv_known _ _ H _ _ _ Hr Hc0).
    + intros id Hid. cbn [NoteMutation mount_namespaces mount_bindings]. apply (kept_known t1 t4); [done|by apply Hkn|].
      cbn [NoteMutation mount_namespaces] in Hn0. by rewrite Hn0.
Qed.

(** ** Exec and unshare *)

Lemma move_fs_get {f d n h i xt xn m b t} slot r new x : Inv (Held (new :: f) d n h i xt xn m b) t ->
  get (tasks t) slot = Some r -> x <> pt_fs_context_slot r ->
  get (fs_contexts (move_fs t slot new)) x = get (fs_contexts t) x.
Proof.
  intros H Hr Hx. unfold move_fs, task_of. rewrite (get_at (iv_tasks _ _ H) _ _ Hr).
  pose proof (held_context new H (held_one _ _)) as [c Hc]. pose proof (iv_contexts _ _ H) as Hok.
  destruct (task_context H _ _ Hr) as [c0 Hg]. unfold ReleaseFsReference, EraseFsContextSlot. inv_cbn.
  rewrite (get_at Hok _ _ Hg). set (c' := set_fs_refcount c0 _). destruct (stays_in_use Hok _ c0 c' Hg eq_refl) as [Hu _].
  destruct (_ =? 0); inv_cbn.
  - rewrite vacate_put, (get_vacate Hok _ _ _ Hg) by done. by rewrite decide_False.
  - rewrite (get_put Hok _ _ _ Hg Hu). by rewrite decide_False.
Qed.

(** The fields of a task a move of its descriptor table does not change. *)
Definition same_place (r r' : PathTaskState) : Prop :=
  pt_fs_context_slot r' = pt_fs_context_slot r /\ pt_mount_namespace_slot r' = pt_mount_namespace_slot r.

Lemma has_more flags a b : has flags b = true -> has flags (a ||| b) = true.
Proof.
  unfold has. intros Hb. destruct (Z.eqb_spec (flags &&& (a ||| b)) 0) as [E|]; [|done].
  rewrite Z.land_lor_distr_r in E. apply Z.lor_eq_0_iff in E as [_ E]. by rewrite E in Hb.
Qed.

(** A slot that was free is used by no task. *)
Lemma free_unused {g t} fs s r : Inv g t -> find_free (fs_contexts t) = Some fs -> get (tasks t) s = Some r -> pt_fs_context_slot r <> fs.
Proof.
  intros H Hf Hr E. destruct (task_context H _ _ Hr) as [c Hc]. destruct (find_free_Some (iv_contexts _ _ H) _ Hf) as (_ & Hn & _). congruence.
Qed.

(** The descriptor table an exec leaves the task with. *)
Lemma exec_files_step {f m t} slot r o : Inv (Held f [] [] [] [] None None m m) t -> (length f < 800)%nat -> get (tasks t) slot = Some r ->
  get (fd_tables t) (pt_fd_table_slot r) = Some o ->
  let t' := touch_fd_table (close_on_exec t (pt_fd_table_slot r)) (pt_fd_table_slot r) in
  Inv (Held f [] [] [] [] None None m m) t' /\ tasks t' = tasks t /\ fs_contexts t' = fs_contexts t /\ Kept t t' /\
  same (view t') (own (pt_tid r) (pt_fd_table_slot r) (fun d => if fi_cloexec d =? 0 then Some d else None) (view t)).
Proof.
  intros H Hf Hr Ho. rewrite close_on_exec_where. cbv zeta.
  destruct (erase_where_step (marked_in (pt_fd_table_slot r)) H) as [H' [K Et Ef Ed _ Hids]]; [simpl; lia..|].
  revert H' K Et Ef Ed Hids. generalize (erase_where (marked_in (pt_fd_table_slot r)) t). intros t' H' K Et Ef Ed Hids.
  specialize (Ed (pt_fd_table_slot r)). rewrite Ho in Ed. destruct (get (fd_tables t') _) as [o'|] eqn:Ho'; [|done].
  split_and!; [by apply (touch_table _ o')|done|done|etrans; [exact K|by apply kept_same]|].
  transitivity (view t'); [done|]. etrans; [|symmetry; by apply own_in_place, (table_of_task slot r H)].
  apply (same_intro _ H').
  - intros tid. unfold revise. rewrite (table_of_task slot r H Hr). unfold view. cbn [define table_of]. by rewrite Et.
  - intros x y _. unfold revise. rewrite (table_of_task slot r H Hr). cbn [define entry].
    rewrite (entry_map (fun r0 => if marked_in (pt_fd_table_slot r) r0 then None else Some r0)
      (fun x d => if (x =? pt_fd_table_slot r) && negb (fi_cloexec d =? 0) then None else Some d) x y H H' Hids).
    + destruct (Z.eqb_spec x (pt_fd_table_slot r)) as [->|]; [|by destruct (entry (view t) x y)].
      destruct (entry (view t) _ y) as [d|]; [|done]. cbn [andb]. by destruct (fi_cloexec d =? 0).
    + intros r0. by destruct (marked_in _ r0).
    + intros r0. unfold marked_in. cbn [described redescribed fi_cloexec]. rewrite mark_zero. by destruct (_ && _).
Qed.

Lemma exec_keeps m t tid : Inv (settled m) t -> 0 <= m < 2 ^ 64 - 1 -> keeps (does t tid (unix_exec tid)) m t (ExecPathTask t tid).
Proof.
  intros H Hm. unfold ExecPathTask. apply keeps_task; [exact H|]. intros slot r Hr _ <- _ _. cbv zeta.
  destruct (task_context H _ _ Hr) as [c Hc]. destruct (task_table H _ _ Hr) as [o Ho].
  rewrite (get_at (iv_contexts _ _ H) _ _ Hc), (get_at (iv_tables _ _ H) _ _ Ho).
  set (cf := 1 <? fs_refcount _). set (cd := 1 <? ft_refcount _).
  assert (cd = false -> private (view t) (pt_tid r) (pt_fd_table_slot r)) as Hprivate.
  { intros E. apply (alone_private slot r o H Hr Ho). unfold cd in E. lia. }
  clearbody cf cd.
  destruct (slot_for cf _ _) as [fs|] eqn:Sfs; [|by apply keeps_same].
  destruct (slot_for cd _ _) as [fd|] eqn:Sfd; [|by apply keeps_same].
  destruct (cd && _) eqn:C1; [by apply keeps_same|].
  set (t1 := if cf then CopyFsContextToSlot t c fs else t).
  assert (Inv (Held (if cf then [fs] else []) [] [] [] [] None None m m) t1 /\ same_directories t t1 (pt_fs_context_slot r) fs) as (H1 & Hsd).
  { unfold t1. destruct cf; cbn [slot_for] in Sfs.
    - destruct (copy_context fs _ c H Hc Sfs) as [H1 Hget]. split; [exact H1|]. exists c, (context_copy c fs). by rewrite Hget, decide_True.
    - injection Sfs as <-. split; [exact H|by exists c, c]. }
  assert (tasks t1 = tasks t /\ fd_tables t1 = fd_tables t /\ fd_identities t1 = fd_identities t /\ mount_namespaces t1 = mount_namespaces t /\
    mount_bindings t1 = mount_bindings t) as (T1 & D1 & I1 & N1 & B1) by (unfold t1; by destruct cf).
  assert (view t1 = view t) as V1 by (unfold view; by rewrite T1, I1).
  clearbody t1.
  assert (exists t2, copy_files cd t1 (pt_fd_table_slot r) fd kExec (erase_copies cf false fs fd) = (0, t2) /\
    exists r', Inv (Held (if cf then [fs] else []) [] [] [] [] None None m m)
      (if cd then move_files t2 slot fd else touch_fd_table (close_on_exec t2 (pt_fd_table_slot r)) (pt_fd_table_slot r)) /\
    let t3 := if cd then move_files t2 slot fd else touch_fd_table (close_on_exec t2 (pt_fd_table_slot r)) (pt_fd_table_slot r) in
    get (tasks t3) slot = Some r' /\ same_place r r' /\ (forall x r0, x <> slot -> get (tasks t3) x = Some r0 -> get (tasks t) x = Some r0) /\
    fs_contexts t3 = fs_contexts t1 /\ Kept t1 t3 /\ does t (pt_tid r) (unix_exec (pt_tid r)) t3)
    as (t2 & -> & r' & H3 & Hr' & [P1 P2] & Hoth & F3 & K3 & V3).
  { unfold copy_files. rewrite <- T1 in Hr. rewrite <- D1 in Ho. destruct cd; cbn [slot_for] in Sfd.
    - rewrite <- D1 in Sfd. pose proof (copy_table (pt_fd_table_slot r) fd kExec 0 0 o H1 ltac:(simpl; lia) Ho Sfd) as HC. cbv zeta in HC.
      cbn [andb] in C1. unfold CountFreeFdIdentitySlots, CountCopiedIdentities in *. rewrite I1, C1 in HC.
      destruct HC as (t2 & -> & [HI Et Ef En Eb _ _ _ _ _ _] & HV). cbn [negb Z.eqb]. exists t2. split; [done|].
      change (tasks (OccupyEmptyFdTable t1 fd (NextGeneration (ft_generation o)))) with (tasks t1) in Et.
      pose proof Hr as Hr0. rewrite <- Et in Hr. destruct (move_files_step slot r fd HI) as (H3 & T3 & F3 & K3 & L3); [simpl; lia..|done|].
      assert (same (view (move_files t2 slot fd)) (own (pt_tid r) fd (passes kExec 0 0) (view t1))) as V3.
      { refine (copy_moved slot r r _ fd _ H1 HI H3 Hr0 Hr eq_refl _ HV T3 eq_refl eq_refl eq_refl L3).
        intros tid. unfold view. cbn [table_of]. by rewrite Et. }
      assert (does t (pt_tid r) (unix_exec (pt_tid r)) (move_files t2 slot fd)) as Hdoes.
      { exists fd. split; [rewrite <- V1; exact (free_private _ fd H1 Sfd)|]. etrans; [exact V3|]. rewrite <- V1.
        apply (own_ext _ _ _ _ H1). intros d Hd. unfold passes. cbn [ShouldCopyIdentity copied_cloexec].
        destruct (_ =? 0); [|done]. f_equal. exact (with_own_mark d Hd). }
      clear V3. eexists. split; [exact H3|]. rewrite T3, F3, Ef. cbv zeta.
      destruct (stays_in_use (iv_tasks _ _ HI) slot r (set_task r (pt_tid r) (pt_fs_context_slot r) fd (pt_mount_namespace_slot r)
        (pt_identity_generation r)) Hr eq_refl) as [Hu _].
      rewrite (get_put (iv_tasks _ _ HI) _ _ _ Hr Hu), decide_True by done. split_and!; [done|done| |done| |exact Hdoes].
      + intros x r0 Hx. rewrite (get_put (iv_tasks _ _ HI) _ _ _ Hr Hu), decide_False by done. by rewrite Et, T1.
      + etrans; [|exact K3]. by apply kept_same.
    - exists t1. split; [done|]. exists r. destruct (exec_files_step slot r o H1) as (H3 & T3 & F3 & K3 & V3); [destruct cf; simpl; lia|done..|].
      rewrite V1 in V3. assert (does t (pt_tid r) (unix_exec (pt_tid r))
        (touch_fd_table (close_on_exec t1 (pt_fd_table_slot r)) (pt_fd_table_slot r))) as Hdoes.
      { exists (pt_fd_table_slot r). split; [by apply Hprivate|exact V3]. }
      clear V3. revert H3 T3 F3 K3 Hdoes. cbv zeta. generalize (touch_fd_table (close_on_exec t1 (pt_fd_table_slot r)) (pt_fd_table_slot r)).
      intros t3 H3 T3 F3 K3 Hdoes. rewrite T3, F3. split_and!; try done. intros x r0 _. by rewrite T1. }
  cbn [negb Z.eqb]. set (t3 := if cd then _ else _) in *. clearbody t3.
  destruct cf; cbn [slot_for] in Sfs; [|by apply (keeps_noted _ m); [|lia|..]].
  destruct (task_namespace H3 _ _ Hr') as [q Hq].
  destruct (move_fs_step slot r' fs H3) as (H4 & T4 & L4); [simpl; lia|exact Hr'| | |].
  3:{ apply (keeps_noted _ m); [exact H4|lia|done|]. apply does_noted, (does_same _ _ _ _ _ V3).
      by apply (place_moved slot r' _ H3 H4 Hr' T4). }
  - intros s' r0 Hr0 Hs' E. by destruct (free_unused fs s' r0 H Sfs (Hoth _ _ Hs' Hr0)).
  - intros c0 Hc0. rewrite F3 in Hc0. destruct Hsd as (c1 & c2 & Hc1 & Hc2 & E1 & E2). rewrite Hc0 in Hc2. injection Hc2 as <-.
    rewrite E1, E2, P2 in *. destruct (iv_known _ _ H _ _ _ Hr Hc1) as [K1 K2].
    split; apply (kept_known t1); try done; rewrite ?N1, ?B1, ?Hq; done.
Qed.

(** Where a task stands in the middle of an unshare. *)
Record Moving (t : PathStateTable) (slot : Z) (r : PathTaskState) (fs ns m : Z) (cd cn : bool) (fd : Z) (t' : PathStateTable) (r' : PathTaskState) : Prop := {
  mv_inv : Inv (Held [] (if cd then [fd] else []) (if cn then [ns] else []) [] [] None None m (if cn then m + 1 else m)) t';
  mv_task : get (tasks t') slot = Some r';
  mv_fs : pt_fs_context_slot r' = fs;
  mv_ns : pt_mount_namespace_slot r' = pt_mount_namespace_slot r;
  mv_others : forall x r0, x <> slot -> get (tasks t') x = Some r0 -> get (tasks t) x = Some r0;
  mv_directories : same_directories t t' (pt_fs_context_slot r) fs;
  mv_copied : cn = true -> forall id, known (mount_namespaces t) (mount_bindings t) (pt_mount_namespace_slot r) id ->
    known (mount_namespaces t') (mount_bindings t') ns id }.

(** The first move of an unshare. *)
Lemma unshare_fs cf cd cn m t slot r fs fd ns t1 : Inv (settled m) t -> get (tasks t) slot = Some r ->
  slot_for cf (fs_contexts t) (pt_fs_context_slot r) = Some fs -> Copies cf cd cn t r fs fd ns m t1 ->
  let t2 := if cf then move_fs t1 slot fs else t1 in
  exists r', Moving t slot r fs ns m cd cn fd t2 r' /\ pt_tid r' = pt_tid r /\ pt_fd_table_slot r' = pt_fd_table_slot r /\
    (forall tid, table_of (view t2) tid = table_of (view t) tid) /\
    forall x y, entry (view t2) x y = if cd && (x =? fd) then entry (view t) (pt_fd_table_slot r) y else entry (view t) x y.
Proof.
  intros H Hr Sfs [HI Et Hsd Hcx Htb Hmo Hns Hent].
  assert (forall tid, table_of (view t1) tid = table_of (view t) tid) as Htab by (intros tid; unfold view; cbn [table_of]; by rewrite Et).
  assert (forall t', mount_namespaces t' = mount_namespaces t1 -> mount_bindings t' = mount_bindings t1 ->
    cn = true -> forall id, known (mount_namespaces t) (mount_bindings t) (pt_mount_namespace_slot r) id ->
    known (mount_namespaces t') (mount_bindings t') ns id) as Hcopied.
  { intros t' -> -> _ id [->|Hid]; [by left|right]. by apply Hns. }
  destruct cf; cbn [slot_for] in Sfs.
  - assert (get (tasks t1) slot = Some r) as Hr1 by (by rewrite Et). assert (fs <> pt_fs_context_slot r) as Hne.
    { intros E. by destruct (free_unused fs slot r H Sfs Hr). }
    destruct (move_fs_step slot r fs HI) as (H2 & T2 & L2); [simpl; lia|done| | |].
    + intros s' r0 Hr0 _ E. rewrite Et in Hr0. by destruct (free_unused fs s' r0 H Sfs Hr0).
    + intros c Hc. apply (same_directories_known t t1 r fs c (mount_namespaces t) (mount_bindings t) _ (pt_mount_namespace_slot r)); [| |exact Hsd|exact Hc].
      * intros c0 Hc0. exact (iv_known _ _ H _ _ _ Hr Hc0).
      * intros id. apply known_mono, Hmo.
    + exists (set_task r (pt_tid r) fs (pt_fd_table_slot r) (pt_mount_namespace_slot r) (pt_identity_generation r)).
      split; [|split; [done|split; [done|split]]].
      2:{ intros tid. rewrite (task_moved slot r _ tid HI H2 Hr1 T2 eq_refl eq_refl), <- Htab. cbn [assign table_of set_task pt_fd_table_slot].
          destruct (Z.eqb_spec tid (pt_tid r)) as [->|]; [|done]. by rewrite (table_of_task slot r HI Hr1). }
      2:{ intros x y. rewrite <- Hent. apply entries_same. unfold move_fs.
          pose proof (release_context_others (put_task t1 slot (set_task (task_of t1 slot) (pt_tid (task_of t1 slot)) fs
            (pt_fd_table_slot (task_of t1 slot)) (pt_mount_namespace_slot (task_of t1 slot)) (pt_identity_generation (task_of t1 slot))))
            (pt_fs_context_slot (task_of t1 slot))) as E. by injection E as _ _ -> _ _. }
      pose proof (move_fs_get slot r fs fs HI Hr1 Hne) as Hg.
      destruct (stays_in_use (iv_tasks _ _ HI) slot r (set_task r (pt_tid r) fs (pt_fd_table_slot r) (pt_mount_namespace_slot r)
        (pt_identity_generation r)) Hr1 eq_refl) as [Hu _].
      split; [exact H2|rewrite T2, (get_put (iv_tasks _ _ HI) _ _ _ Hr1 Hu); by rewrite decide_True|done|done| | |].
      * intros x r0 Hx. rewrite T2, (get_put (iv_tasks _ _ HI) _ _ _ Hr1 Hu), decide_False by done. by rewrite Et.
      * destruct Hsd as (c1 & c2 & Hc1 & Hc2 & Hids). exists c1, c2. by rewrite Hg.
      * unfold move_fs. pose proof (release_context_others (put_task t1 slot (set_task (task_of t1 slot) (pt_tid (task_of t1 slot)) fs
          (pt_fd_table_slot (task_of t1 slot)) (pt_mount_namespace_slot (task_of t1 slot)) (pt_identity_generation (task_of t1 slot))))
          (pt_fs_context_slot (task_of t1 slot))) as E. injection E as _ _ _ En Eb. by apply Hcopied.
  - injection Sfs as <-. exists r. split; [|by split_and!]. split; try done; [by rewrite Et|intros x r0 _; by rewrite Et|]. by apply Hcopied.
Qed.

(** The second. *)
Lemma unshare_files cd cn m t slot r fs fd ns t2 r2 : Inv (settled m) t -> get (tasks t) slot = Some r ->
  Moving t slot r fs ns m cd cn fd t2 r2 -> pt_tid r2 = pt_tid r -> pt_fd_table_slot r2 = pt_fd_table_slot r ->
  (forall tid, table_of (view t2) tid = table_of (view t) tid) ->
  (forall x y, entry (view t2) x y = if cd && (x =? fd) then entry (view t) (pt_fd_table_slot r) y else entry (view t) x y) ->
  let t3 := if cd then move_files t2 slot fd else t2 in
  exists r', Moving t slot r fs ns m false cn fd t3 r' /\
    same (view t3) (if cd then own (pt_tid r) fd Some (view t) else view t).
Proof.
  intros H Hr0 [HI Hr Hfs Hns Hoth Hsd Hcp] Htid Htb Htab Hent. destruct cd; [|exists r2; split; [done|]].
  2:{ apply (same_intro _ HI Htab). intros x y _. apply Hent. }
  destruct (move_files_step slot r2 fd HI) as (H3 & T3 & F3 & K3 & L3); [destruct cn; simpl; lia..|done|].
  assert (same (view (move_files t2 slot fd)) (own (pt_tid r) fd Some (view t))) as V3.
  { refine (copy_moved slot r r2 _ fd Some H HI H3 Hr0 Hr Htid Htab _ T3 eq_refl eq_refl eq_refl L3).
    intros x y. rewrite Hent. cbn [andb]. by destruct (x =? fd), (entry (view t) (pt_fd_table_slot r) y). }
  destruct (stays_in_use (iv_tasks _ _ HI) slot r2 (set_task r2 (pt_tid r2) (pt_fs_context_slot r2) fd (pt_mount_namespace_slot r2)
    (pt_identity_generation r2)) Hr eq_refl) as [Hu _].
  eexists. split; [|exact V3]. clear V3. split; [exact H3|rewrite T3, (get_put (iv_tasks _ _ HI) _ _ _ Hr Hu); by rewrite decide_True|done|done| | |].
  - intros x r0 Hx. rewrite T3, (get_put (iv_tasks _ _ HI) _ _ _ Hr Hu), decide_False by done. by apply Hoth.
  - unfold same_directories. by rewrite F3.
  - intros -> id Hid. apply (kept_known t2); [done|by apply Hcp|].
    destruct (held_namespace ns H3 (held_one _ _)) as [n0 Hn0]. by rewrite Hn0.
Qed.

Lemma unshare_keeps m t tid flags : Inv (settled m) t -> 0 <= m < 2 ^ 64 - 1 -> keeps (does t tid (unix_unshare tid flags)) m t (UnsharePathTask t tid flags).
Proof.
  intros H Hm. unfold UnsharePathTask. apply keeps_task; [exact H|]. intros slot r Hr _ <- _ _. cbv zeta.
  destruct (task_context H _ _ Hr) as [c Hc]. destruct (task_table H _ _ Hr) as [o Ho]. destruct (task_namespace H _ _ Hr) as [q Hq].
  rewrite (get_at (iv_contexts _ _ H) _ _ Hc), (get_at (iv_tables _ _ H) _ _ Ho), (get_at (iv_namespaces _ _ H) _ _ Hq).
  set (cn := has flags kPathCloneNewns). set (cf := has flags _ && _). set (cd := has flags kPathCloneFiles && _).
  assert (cn = true -> cf = false -> fs_refcount c <= 1) as Halone.
  { unfold cf, cn. intros Hn Hf. rewrite (has_more flags kPathCloneFs _ Hn) in Hf. simpl in Hf. lia. }
  assert (forall t' fd, slot_for cd (fd_tables t) (pt_fd_table_slot r) = Some fd ->
    same (view t') (if cd then own (pt_tid r) fd Some (view t) else view t) -> does t (pt_tid r) (unix_unshare (pt_tid r) flags) t') as Hdoes.
  { intros t' fd Sfd HV. unfold unix_unshare, cd in *. destruct (has flags kPathCloneFiles); cbn [andb] in *.
    - destruct (Z.ltb_spec 1 (ft_refcount o)) as [|Hone]; cbn [slot_for] in Sfd.
      + exists fd. split; [exact (free_private _ fd H Sfd)|exact HV].
      + exists (pt_fd_table_slot r). split; [by apply (alone_private slot r o H)|]. etrans; [exact HV|]. by apply own_nothing, (table_of_task slot r H).
    - exact (does_unnamed _ (fun u => u) _ H HV). }
  clearbody cf cd cn. destruct (negb cf && _ && _) eqn:Enone.
  { apply keeps_same; [exact H|]. intros _. apply (Hdoes t (pt_fd_table_slot r)); destruct cd; try done; by rewrite andb_false_r in Enone. }
  destruct (slot_for cf _ _) as [fs|] eqn:Sfs; [|by apply keeps_same].
  destruct (slot_for cd _ _) as [fd|] eqn:Sfd; [|by apply keeps_same].
  destruct (slot_for cn _ _) as [ns|] eqn:Sns; [|by apply keeps_same].
  destruct (_ || _) eqn:C; [by apply keeps_same|]. apply orb_false_iff in C as [C1 C2].
  destruct (copies_step cf cd cn m t slot r fs fd ns o q) as (t1 & -> & HC); [done..|]. cbn [negb Z.eqb].
  destruct (unshare_fs cf cd cn m t slot r fs fd ns t1 H Hr Sfs HC) as (r2 & HM2 & U1 & U2 & U3 & U4).
  destruct (unshare_files cd cn m t slot r fs fd ns _ r2 H Hr HM2 U1 U2 U3 U4) as (r3 & [HI Hr3 Hfs Hns Hoth Hsd Hcp] & HV).
  apply (Hdoes _ fd eq_refl) in HV. clear U3 U4 HM2.
  match type of Hr3 with get (tasks ?x) _ = _ => set (t3 := x) in * end. clearbody t3. cbn [negb] in HI.
  destruct cn; [|by apply (keeps_noted _ m); [|lia|..]].
  destruct (move_namespace_step slot r3 ns HI) as (H4 & T4 & L4); [simpl; lia..|exact Hr3| | |].
  3:{ apply (keeps_noted _ (m + 1)); [exact H4|lia|done|]. apply does_noted, (does_same _ _ _ _ _ HV).
      by apply (place_moved slot r3 _ HI H4 Hr3 T4). }
  - intros s' r0 Hr0 Hs' E. specialize (Hoth _ _ Hs' Hr0). rewrite Hfs in E. destruct cf; cbn [slot_for] in Sfs.
    + by destruct (free_unused fs s' r0 H Sfs Hoth).
    + injection Sfs as <-. apply Hs'. destruct (context_refs _ c H ltac:(simpl; lia) Hc) as [Hrc _]. simpl in Hrc. specialize (Halone eq_refl eq_refl).
      apply (count_if_one (iv_tasks _ _ H) (uses_fs (pt_fs_context_slot r)) slot s' r r0 ltac:(lia) Hr); [apply Z.eqb_refl|exact Hoth|].
      unfold uses_fs. by rewrite E, Z.eqb_refl.
  - intros c0 Hc0. rewrite Hfs in Hc0.
    apply (same_directories_known t t3 r fs c0 (mount_namespaces t) (mount_bindings t) ns (pt_mount_namespace_slot r)); [| |exact Hsd|exact Hc0].
    + intros c1 Hc1. exact (iv_known _ _ H _ _ _ Hr Hc1).
    + by apply Hcp.
Qed.

(** ** Directories *)

Lemma set_cwd_keeps m t tid guest host flags device inode : Inv (settled m) t -> 0 <= m < 2 ^ 64 - 1 ->
  keeps (does t tid (fun _ u => u)) m t (SetTaskCwd t tid guest host flags device inode).
Proof.
  intros H Hm. unfold SetTaskCwd. rewrite (initialized H). cbn [negb orb]. destruct (tid <=? 0); [by apply keeps_same|].
  destruct (directory_origin flags) eqn:Ed; cbn [negb orb]; [|by apply keeps_same].
  destruct (Z.eqb_spec (ValidateOrigin flags guest host) 0) as [Ev|]; cbn [negb]; [|by apply keeps_same].
  apply keeps_task; [exact H|]. intros slot r Hr _ _ _ _. destruct (task_context H _ _ Hr) as [c Hc].
  rewrite (get_at (iv_contexts _ _ H) _ _ Hc). destruct (get_entry (iv_contexts _ _ H) _ _ Hc) as [He Hs].
  apply (keeps_noted _ m); [|lia|done|by apply (does_unnamed tid (fun u => u) _ H)]. apply (put_fs [] _ c _ H Hc); try done.
  - unfold fs_fields in *. cbn [fs_generation cwd_origin_flags fs_reserved guest_cwd host_cwd root_origin_flags guest_root host_root].
    destruct (stored_pair flags guest host Ed Ev) as [-> ->]. assert (zero (NextGeneration (fs_generation c)) = false) as ->
      by apply Z.eqb_neq, next_generation_nonzero. bool_hyps. cbn [negb andb].
    match goal with E : origin_pair (root_origin_flags c) _ _ = true |- _ => rewrite E end.
    match goal with E : has (root_origin_flags c) _ = false |- _ => rewrite E end.
    match goal with E : zero (fs_reserved c) = true |- _ => rewrite E end. done.
  - exact (iv_fs_live _ _ H _ _ Hc).
  - intros x. cbn [fs_refcount]. lia.
  - intros s' r0 Hr0 E. split; [by left|]. refine (proj2 (iv_known _ _ H _ _ c Hr0 _)). by rewrite E.
Qed.

Lemma set_root_keeps m t tid guest host flags device inode id : Inv (settled m) t -> 0 <= m < 2 ^ 64 - 1 ->
  keeps (does t tid (fun _ u => u)) m t (SetTaskRoot t tid guest host flags device inode id).
Proof.
  intros H Hm. unfold SetTaskRoot. rewrite (initialized H). cbn [negb orb]. destruct (tid <=? 0); [by apply keeps_same|].
  destruct (directory_origin flags) eqn:Ed; cbn [negb orb]; [|by apply keeps_same].
  destruct (Z.eqb_spec (ValidateOrigin flags guest host) 0) as [Ev|]; cbn [negb]; [|by apply keeps_same].
  apply keeps_task; [exact H|]. intros slot r Hr _ _ _ _. destruct (mount_known t _ id) eqn:Hk; cbn [negb]; [|by apply keeps_same].
  destruct (task_context H _ _ Hr) as [c Hc]. destruct (task_namespace H _ _ Hr) as [q Hq].
  assert (known (mount_namespaces t) (mount_bindings t) (pt_mount_namespace_slot r) id) as Hid.
  { unfold mount_known in Hk. rewrite (get_at (iv_namespaces _ _ H) _ _ Hq), find_binding in Hk.
    destruct (Z.eqb_spec id 0) as [->|]; [by left|right]. exists q. split; [done|]. destruct (Z.eqb_spec id (root_mount_id q)); [by left|right].
    unfold zero in Hk. replace (id =? 0) with false in Hk by lia. exact Hk. }
  rewrite (get_at (iv_contexts _ _ H) _ _ Hc). destruct (get_entry (iv_contexts _ _ H) _ _ Hc) as [He Hs].
  apply (keeps_noted _ m); [|lia|done|by apply (does_unnamed tid (fun u => u) _ H)]. apply (put_fs [] _ c _ H Hc); try done.
  - unfold fs_fields in *. cbn [fs_generation cwd_origin_flags fs_reserved guest_cwd host_cwd root_origin_flags guest_root host_root].
    destruct (stored_pair flags guest host Ed Ev) as [-> ->]. assert (zero (NextGeneration (fs_generation c)) = false) as ->
      by apply Z.eqb_neq, next_generation_nonzero. bool_hyps. cbn [negb andb].
    match goal with E : origin_pair (cwd_origin_flags c) _ _ = true |- _ => rewrite E end.
    match goal with E : has (cwd_origin_flags c) _ = false |- _ => rewrite E end.
    match goal with E : zero (fs_reserved c) = true |- _ => rewrite E end. done.
  - exact (iv_fs_live _ _ H _ _ Hc).
  - intros x. cbn [fs_refcount]. lia.
  - intros s' r0 Hr0 E. cbn [cwd_mount_id fs_root_mount_id]. split; [refine (proj1 (iv_known _ _ H _ _ c Hr0 _)); by rewrite E|].
    by rewrite (iv_share _ _ H _ _ _ _ Hr0 Hr E).
Qed.
