(* ===== verification/PathMountSteps.v ===== *)
(** * Primitive changes of the mounts of a namespace

    Adding a mount, storing one with other attributes and erasing a set of
    them, with what each does to the invariant. *)

From S2P Require Import Prelude SlotArray SlotPool GuestPath GuestPathText PathState PathStorage PathStateOps PathTaskOps PathFdOps PathMounts PathStateInv PathViews PathSteps PathObjectSteps PathResolve PathReleases PathCopies PathTaskInv.
From stdpp Require Import list.
#[local] Open Scope Z_scope.

(** ** Canonical paths in records *)

Lemma copied_denotes p cs : denotes p cs -> CopyPath (Some p) = render cs /\ denotes (render cs) cs.
Proof.
  intros (Hp & Hc & Hl). cbn [CopyPath]. rewrite Hp, take_ge by lia. split; [done|]. by apply denotes_render.
Qed.

Lemma canonical_storage_spec q : canonical_storage q = true <-> ValidateCanonicalPath (Some q) = 0 /\ PathStorageIsPadded q = true.
Proof. unfold canonical_storage, zero. by rewrite andb_true_iff, Z.eqb_eq. Qed.

Lemma copied_canonical path : ValidateCanonicalPath path = 0 -> canonical_storage (CopyPath path) = true.
Proof.
  destruct path as [p|]; [|intros Hn; discriminate Hn]. intros [cs Hp]%canonical_components. destruct (copied_denotes p cs Hp) as [-> Hd].
  destruct Hp as (_ & Hc & Hl). apply canonical_storage_spec. split; [apply canonical_components; by exists cs|].
  apply padded_text; [by apply render_nul_free|exact Hl].
Qed.

(** A text that is stored as it is. *)
Lemma canonical_copy p : ValidateCanonicalPath (Some p) = 0 -> ValidateCanonicalPath (Some (CopyPath (Some p))) = 0.
Proof. intros [Hp _]%copied_canonical%canonical_storage_spec. exact Hp. Qed.

Lemma spec_valid binding : ValidateMountBindingSpec binding = 0 ->
  kMountBindingBind <= ms_kind binding <= kMountBindingRoot /\
  (ms_state_flags binding &&& not32 kMountBindingStateKnownFlags) = 0 /\ has (ms_state_flags binding) kMountBindingStateDetached = false /\
  ValidateCanonicalPath (ms_target_guest binding) = 0 /\ ValidateCanonicalPath (ms_source_guest binding) = 0 /\
  ValidateCanonicalPath (ms_source_host binding) = 0.
Proof.
  unfold ValidateMountBindingSpec. destruct (_ || _ || _ || _) eqn:E; [done|]. cbv zeta.
  destruct (Z.eqb_spec (ValidateCanonicalPath (ms_target_guest binding)) 0) as [E1|E1]; [|case_match; lia].
  destruct (Z.eqb_spec (ValidateCanonicalPath (ms_source_guest binding)) 0) as [E2|E2]; [|lia]. intros E3.
  bool_hyps. split_and!; try lia; try done.
Qed.

Lemma new_binding_fields binding slot ns parent id : ValidateMountBindingSpec binding = 0 -> id <> 0 ->
  binding_fields (new_binding binding slot ns parent id) = true.
Proof.
  intros (Hk & Hf & _ & H1 & H2 & H3)%spec_valid Hid. unfold binding_fields.
  cbn [new_binding mb_kind mb_reserved mb_state_flags mount_id sequence target_guest mb_source_guest mb_source_host].
  rewrite (copied_canonical _ H1), (copied_canonical _ H2), (copied_canonical _ H3), Hf. unfold zero. lia.
Qed.

(** ** Namespaces and parents *)

Lemma touched_fields n k : namespace_fields n = true -> namespace_fields (touch_namespace n k) = true.
Proof.
  unfold namespace_fields. cbn [touch_namespace mn_generation mn_identity_generation root_mount_id mn_reserved mn_root_origin_flags
    root_source_guest root_source_host]. 
  assert (zero (NextGeneration (mn_generation n)) = false) as -> by apply Z.eqb_neq, next_generation_nonzero.
  by destruct (zero (mn_generation n)).
Qed.

Section Parents.
Context {B : Pool MountBindingState} {vacant entry : MountBindingState -> Prop} {cap : Z}.
Hypothesis Hok : pool_ok cap vacant entry B.

Lemma parent_occupy {vacant' entry' cap'} s bd : find_free B = Some s -> in_use bd = true ->
  pool_ok cap' vacant' entry' (occupy B s bd) ->
  (forall x id q, parent_of B x id = Some q -> parent_of (occupy B s bd) x id = Some q) /\
  parent_of (occupy B s bd) (mb_mount_namespace_slot bd) (mount_id bd) = Some (parent_mount_id bd).
Proof.
  intros Hf Hu Hok'. destruct (find_free_Some Hok _ Hf) as (_ & Hn & _). split.
  - intros x id q (y & r & Hr & E)%(parent_of_Some Hok). apply (parent_of_Some Hok'). exists y, r. split; [|done].
    rewrite (get_occupy Hok _ _ Hf Hu). destruct (decide _); [congruence|done].
  - apply (parent_of_Some Hok'). exists s, bd. rewrite (get_occupy Hok _ _ Hf Hu), decide_True by done. done.
Qed.

(** Records stored with the same parents. *)
Lemma parent_put {vacant' entry' cap'} s bd bd' : get B s = Some bd -> in_use bd' = true ->
  mb_mount_namespace_slot bd' = mb_mount_namespace_slot bd -> mount_id bd' = mount_id bd -> parent_mount_id bd' = parent_mount_id bd ->
  pool_ok cap' vacant' entry' (put B s bd') -> forall x id, parent_of (put B s bd') x id = parent_of B x id.
Proof.
  intros Hg Hu Hns Hid Hp Hok' x id. apply option_eq. intros q. rewrite (parent_of_Some Hok), (parent_of_Some Hok'). split.
  - intros (y & r & Hr & E). rewrite (get_put Hok _ _ _ Hg Hu) in Hr. destruct (decide _) as [->|]; [|by exists y, r].
    injection Hr as <-. exists s, bd. split; [done|]. by rewrite <- Hns, <- Hid, <- Hp.
  - intros (y & r & Hr & E). destruct (decide (y = s)) as [->|Hne].
    + rewrite Hg in Hr. injection Hr as <-. exists s, bd'. rewrite (get_put Hok _ _ _ Hg Hu), decide_True by done.
      split; [done|]. by rewrite Hns, Hid, Hp.
    + exists y, r. rewrite (get_put Hok _ _ _ Hg Hu), decide_False by done. done.
Qed.
End Parents.

(** ** Adding a mount *)

(** What AddMountBindingInternal leaves when it succeeds. *)
Record Added (m : Z) (t : PathStateTable) (ns : Z) (n : MountNamespaceState) (binding : MountBindingSpec) (slot : Z) (t' : PathStateTable) : Prop := {
  ad_valid : ValidateMountBindingSpec binding = 0;
  ad_free : find_free (mount_bindings t) = Some slot;
  ad_others : others t' = others t;
  ad_trees : mount_trees t' = mount_trees t;
  ad_namespaces : mount_namespaces t' = put (mount_namespaces t) ns (touch_namespace n (u32 (binding_count n + 1)));
  ad_parent : exists parent, parent_for t ns binding = inr parent /\
    mount_bindings t' = occupy (mount_bindings t) slot (new_binding binding slot ns parent (m + 1)) }.

(** The parent of a new mount is on a way to the root. *)
Lemma parent_rises {g t} ns n binding parent : Inv g t -> get (mount_namespaces t) ns = Some n -> g_open_namespace g <> Some ns ->
  parent_for t ns binding = inr parent -> exists k, rises (root_mount_id n) (parent_of (mount_bindings t) ns) k parent.
Proof.
  intros H Hn Ho. pose proof (inv_rooted ns n H Hn Ho) as Hr. pose proof (iv_bindings _ _ H) as Hok.
  assert (namespace_at t ns = n) as En by exact (get_at (iv_namespaces _ _ H) _ _ Hn).
  unfold parent_for. rewrite En. destruct (Z.eqb_spec (ms_parent_mount_id binding) 0) as [_|_].
  - intros [= <-]. unfold VisibleParentMountId. rewrite En.
    destruct (ResolveVisibleMount _ _ _) as [s|] eqn:Es; [|exists O; constructor].
    destruct (resolve_selected H _ _ _ Es) as (bd & Hbd & -> & Hns & _). destruct (Hr s bd Hbd Hns) as [k Hk].
    destruct (PathEquals _ _); [|by exists k]. inversion Hk as [E|? q k' Hne Hq Hk']; subst.
    + destruct (iv_distinct _ _ H _ _ _ Hbd Hn). congruence.
    + exists k'. enough (Some q = Some (parent_mount_id bd)) as [= <-] by done. rewrite <- Hq.
      apply (parent_of_Some Hok). by exists s, bd.
  - destruct (Z.eqb_spec (ms_parent_mount_id binding) (root_mount_id n)) as [E|E]; cbn [negb].
    + intros [= <-]. rewrite E. exists O. constructor.
    + unfold FindMountBindingById. destruct (search _ _) as [s|] eqn:Es; [|done]. intros [= <-].
      apply (search_Some Hok) in Es as (bd & Hbd & E'). bool_hyps. destruct (Hr s bd Hbd) as [k Hk]; [lia|].
      exists k. by replace (ms_parent_mount_id binding) with (mount_id bd) by lia.
Qed.

Lemma add_internal m t ns n binding : Inv (settled m) t -> 0 <= m < 2 ^ 64 - 1 -> get (mount_namespaces t) ns = Some n ->
  match AddMountBindingInternal t ns binding with
  | (error, None, t') => error <> 0 /\ t' = t
  | (error, Some slot, t') => error = 0 /\ Inv (settled (m + 1)) t' /\ Added m t ns n binding slot t'
  end.
Proof.
  intros H Hm Hn. unfold AddMountBindingInternal. destruct (Z.eqb_spec (ValidateMountBindingSpec binding) 0) as [Ev|Ev]; [|done].
  cbn [negb]. destruct (find_free (mount_bindings t)) as [slot|] eqn:Ef; [|done].
  destruct (parent_for t ns binding) as [error|parent] eqn:Ep.
  { split; [|done]. unfold parent_for in Ep. repeat case_match; try done; by injection Ep as <-. }
  pose proof (iv_bindings _ _ H) as Hok. pose proof (iv_namespaces _ _ H) as HN.
  pose proof (next_generation_task m t Hm (iv_current _ _ H)) as Egen. rewrite Egen.
  set (bd := new_binding binding slot ns parent (m + 1)). set (B := occupy (mount_bindings t) slot bd).
  assert (Inv (Held [] [] [] [] [] None None (m + 1) (m + 1)) (NoteMutation t)) as H1.
  { apply (weaken_bound (b := m)); [|lia]. by apply note_mutation. }
  destruct (mounts_small _ _ H Hn) as (Hbc & Hb & Hc). destruct (get_entry HN _ _ Hn) as [He Hs].
  assert (forall x bd', get (mount_bindings t) x = Some bd' -> mount_id bd' <= m /\ sequence bd' <= m) as Hold by exact (iv_ids _ _ H).
  assert (pool_ok kPathStateMountBindingCapacity (fun r => binding_vacant r = true) (fun r => binding_fields r = true) B) as Hok'.
  { apply (pool_ok_occupy Hok); [done|done|done|by apply new_binding_fields; [|lia]|]. intros x bd' Hg E. cbn in E. injection E as _ E.
    apply Hold in Hg. lia. }
  assert (in_use bd = true) as Hu by done.
  assert (forall x, get B x = if decide (x = slot) then Some bd else get (mount_bindings t) x) as Hget.
  { exact (get_occupy Hok slot bd Ef eq_refl). }
  destruct (parent_occupy Hok slot bd Ef eq_refl Hok') as [Pold Pnew]. cbn [bd new_binding mb_mount_namespace_slot mount_id parent_mount_id] in Pnew.
  set (n' := touch_namespace n (u32 (binding_count n + 1))).
  assert (Inv (Held [] [] [] [] [] None None (m + 1) (m + 1)) (with_bindings (with_namespaces (NoteMutation t) (put (mount_namespaces t) ns n')) B)) as H2.
  { destruct (find_free_Some Hok _ Ef) as (_ & Hnone & _). pose proof (iv_roots _ _ H _ _ Hn) as Hroot. cbn [g_identities settled] in Hroot.
    assert (forall x bd', get B x = Some bd' -> mb_mount_namespace_slot bd' = ns -> mount_id bd' <> root_mount_id n') as Hdis.
    { intros x bd'. rewrite Hget. destruct (decide _) as [->|].
      - intros [= <-] _. cbn. lia.
      - intros Hx Ens. apply (iv_distinct _ _ H _ _ n Hx). by rewrite Ens. }
    apply (namespace_step ns n n' B H1 Hn); try done.
    - by apply touched_fields.
    - cbn [n' touch_namespace binding_count]. unfold B. rewrite (count_occupy Hok _ _ bd Ef Hu), u32_small by lia.
      unfold in_namespace at 2. cbn [bd new_binding mb_mount_namespace_slot]. unfold one. rewrite Z.eqb_refl. lia.
    - cbn. lia.
    - intros x Hx. unfold B. rewrite (count_occupy Hok _ _ bd Ef Hu). unfold in_namespace at 2. cbn [bd new_binding mb_mount_namespace_slot].
      change (mount_bindings (NoteMutation t)) with (mount_bindings t). slots.
    - intros x bd' Hx. rewrite Hget. destruct (decide _) as [->|]; [|done]. split; [intros [= <-]; by destruct Hx|].
      change (mount_bindings (NoteMutation t)) with (mount_bindings t). congruence.
    - intros id _ (r0 & Hr0 & Hid). change (mount_namespaces (NoteMutation t)) with (mount_namespaces t) in Hr0. rewrite Hn in Hr0. injection Hr0 as <-.
      destruct Hid as [?|Hid]; [by left|right]. change (mount_bindings (NoteMutation t)) with (mount_bindings t) in Hid.
      destruct (parent_of (mount_bindings t) ns id) as [q|] eqn:E; [|done]. unfold B. by rewrite (Pold _ _ _ E).
    - intros _. apply (rooted_walk _ _ _ Hok'); [|done]. change (root_mount_id n') with (root_mount_id n).
      intros x bd'. rewrite Hget. destruct (decide _) as [->|].
      + intros [= <-] _. destruct (parent_rises ns n binding parent H Hn ltac:(done) Ep) as [k Hk]. exists (S k).
        econstructor; [cbn; lia|exact Pnew|]. eapply rises_more; [|exact Hk]. intros y q _. apply Pold.
      + intros Hx Ens. destruct (inv_rooted ns n H Hn ltac:(done) _ _ Hx Ens) as [k Hk]. exists k. eapply rises_more; [|exact Hk].
        intros y q _. apply Pold.
    - intros x bd' Hx Ens. split; [|by apply (Hdis x)]. rewrite Hget in Hx. destruct (decide _) as [->|].
      + injection Hx as <-. cbn. lia.
      + apply Hold in Hx. lia. }
  split; [done|]. split.
  - unfold put_namespace, namespace_at. cbn [mount_namespaces with_bindings NoteMutation].
    rewrite (get_at HN _ _ Hn). exact H2.
  - split; try done.
    + unfold put_namespace, namespace_at. cbn [mount_namespaces with_bindings NoteMutation with_namespaces]. by rewrite (get_at HN _ _ Hn).
    + by exists parent.
Qed.

(** ** Storing a mount *)

Lemma put_same {A K} `{SlotRecord A K} `{Inhabited A} {cap vacant entry} {p : Pool A} s r :
  pool_ok cap vacant entry p -> get p s = Some r -> put p s r = p.
Proof.
  intros Hok Hg. apply (get_entry_at Hok) in Hg as [Hi _]. destruct p as [l c k]. unfold put. cbn in *. f_equal. by apply list_insert_id.
Qed.

Lemma with_namespaces_same t : with_namespaces t (mount_namespaces t) = t.
Proof. by destruct t. Qed.

(** Records that differ in what the invariant does not relate. *)
Record SameMount (b b' : MountBindingState) : Prop := {
  sm_occupied : mb_occupied b' = mb_occupied b; sm_slot : mb_slot b' = mb_slot b;
  sm_namespace : mb_mount_namespace_slot b' = mb_mount_namespace_slot b;
  sm_id : mount_id b' = mount_id b; sm_parent : parent_mount_id b' = parent_mount_id b }.

#[export] Instance same_mount_refl : Reflexive SameMount. Proof. by split. Qed.
#[export] Instance same_mount_trans : Transitive SameMount.
Proof. intros a b c [? ? ? ? ?] [? ? ? ? ?]. split; congruence. Qed.

Section Steps.
Context {f d n h i : list Z} {xt xn : option Z} {m b : Z} {t : PathStateTable}.

(** One mount with another parent, whose way up is known, or with other attributes. *)
Lemma put_mount s bd bd' r : Inv (Held f d n h i xt xn m b) t -> get (mount_bindings t) s = Some bd ->
  mb_occupied bd' = mb_occupied bd -> mb_slot bd' = mb_slot bd -> mb_mount_namespace_slot bd' = mb_mount_namespace_slot bd ->
  mount_id bd' = mount_id bd -> sequence bd' <= b -> binding_fields bd' = true ->
  get (mount_namespaces t) (mb_mount_namespace_slot bd) = Some r ->
  (xn <> Some (mb_mount_namespace_slot bd) ->
    rooted (root_mount_id r) (put (mount_bindings t) s bd') (mb_mount_namespace_slot bd)) ->
  Inv (Held f d n h i xt xn m b) (put_binding t s bd').
Proof.
  intros H Hg Ho Hs Hns Hid Hsq Hf Hr Hroot. pose proof (iv_bindings _ _ H) as Hok. pose proof (iv_namespaces _ _ H) as HN.
  set (ns := mb_mount_namespace_slot bd) in *. destruct (stays_in_use Hok s bd bd' Hg Ho) as [Hu Hle].
  destruct (get_entry Hok _ _ Hg) as [_ Esl]. destruct (get_entry HN _ _ Hr) as [He Hsl].
  pose proof (get_put Hok s bd bd' Hg Hu) as Hget.
  assert (pool_ok kPathStateMountBindingCapacity (fun r => binding_vacant r = true) (fun r => binding_fields r = true)
    (put (mount_bindings t) s bd')) as Hok'.
  { apply (pool_ok_put Hok _ bd); try done; [cbn in Esl |- *; congruence|]. intros s' r0 Hg' E. cbn in E. rewrite Hns, Hid in E.
    by apply (get_unique Hok _ _ _ _ Hg' Hg). }
  assert (forall x, count_if (in_namespace x) (put (mount_bindings t) s bd') = count_if (in_namespace x) (mount_bindings t)) as Hcount.
  { intros x. apply (count_same Hok _ _ _ _ Hg Hu). unfold in_namespace. by rewrite Hns. }
  assert (put_binding t s bd' = with_bindings (with_namespaces t (put (mount_namespaces t) ns r)) (put (mount_bindings t) s bd')) as ->.
  { by rewrite (put_same ns r HN Hr), with_namespaces_same. }
  assert (forall x bd0, get (put (mount_bindings t) s bd') x = Some bd0 -> mb_mount_namespace_slot bd0 = ns ->
    mount_id bd0 <> root_mount_id r) as Hdis.
  { intros x bd0. rewrite Hget. destruct (decide _) as [->|].
    - intros [= <-] _. rewrite Hid. exact (iv_distinct _ _ H _ _ _ Hg Hr).
    - intros Hx E. apply (iv_distinct _ _ H _ _ _ Hx). by rewrite E. }
  apply (namespace_step ns r r _ H Hr); try done.
  - rewrite Hcount. pose proof (iv_mounts _ _ H ns) as Hc. by rewrite (field_get _ _ _ Hr) in Hc.
  - exact (iv_roots _ _ H _ _ Hr).
  - intros x bd0 Hx. rewrite Hget. destruct (decide _) as [->|]; [|done]. split; [intros [= <-]; by destruct Hx|].
    intros Hg'. rewrite Hg in Hg'. injection Hg' as <-. by destruct Hx.
  - intros id _ (r0 & Hr0 & Hmo). rewrite Hr in Hr0. injection Hr0 as <-. destruct Hmo as [?|Hmo]; [by left|right].
    destruct (parent_of (mount_bindings t) ns id) as [q|] eqn:E; [|done]. apply (parent_of_Some Hok) in E as (y & r0 & Hy & E1 & E2 & _).
    destruct (decide (y = s)) as [->|Hne].
    + rewrite Hg in Hy. injection Hy as <-. assert (parent_of (put (mount_bindings t) s bd') ns id = Some (parent_mount_id bd')) as ->; [|done].
      apply (parent_of_Some Hok'). exists s, bd'. rewrite Hget, decide_True by done. split_and!; [done|congruence|congruence|done].
    + assert (parent_of (put (mount_bindings t) s bd') ns id = Some (parent_mount_id r0)) as ->; [|done].
      apply (parent_of_Some Hok'). exists y, r0. rewrite Hget, decide_False by done. done.
  - intros Hx. apply (rooted_walk _ _ _ Hok'); [by apply Hroot|done].
  - intros x bd0 Hx E. split; [|by apply (Hdis x)]. rewrite Hget in Hx. destruct (decide _).
    + injection Hx as <-. split; [rewrite Hid; exact (proj1 (iv_ids _ _ H _ _ Hg))|done].
    + exact (iv_ids _ _ H _ _ Hx).
Qed.

Lemma same_mount_step s bd bd' : Inv (Held f d n h i xt xn m b) t -> get (mount_bindings t) s = Some bd ->
  SameMount bd bd' -> sequence bd' <= b -> binding_fields bd' = true -> Inv (Held f d n h i xt xn m b) (put_binding t s bd').
Proof.
  intros H Hg [Ho Hs Hns Hid Hp] Hsq Hf. destruct (binding_namespace H _ _ Hg) as [r Hr].
  apply (put_mount s bd bd' r); try done. intros Hx x bd0 Hx0 E.
  pose proof (iv_bindings _ _ H) as Hok. destruct (stays_in_use Hok s bd bd' Hg Ho) as [Hu Hle].
  assert (pool_ok kPathStateMountBindingCapacity (fun r => binding_vacant r = true) (fun r => binding_fields r = true)
    (put (mount_bindings t) s bd')) as Hok'.
  { destruct (get_entry Hok _ _ Hg) as [_ Esl]. apply (pool_ok_put Hok _ bd); try done; [cbn in Esl |- *; congruence|].
    intros s' r0 Hg' E'. cbn in E'. rewrite Hns, Hid in E'. by apply (get_unique Hok _ _ _ _ Hg' Hg). }
  pose proof (parent_put Hok s bd bd' Hg Hu Hns Hid Hp Hok') as Hpar.
  assert (exists y bd1, get (mount_bindings t) y = Some bd1 /\ mb_mount_namespace_slot bd1 = mb_mount_namespace_slot bd /\ mount_id bd1 = mount_id bd0)
    as (y & bd1 & Hy & E1 & E2).
  { rewrite (get_put Hok s bd bd' Hg Hu) in Hx0. destruct (decide _); [injection Hx0 as <-; by exists s, bd|by exists x, bd0]. }
  destruct (inv_rooted _ r H Hr Hx _ _ Hy E1) as [k Hk]. exists k. rewrite <- E2. eapply rises_ext; [|exact Hk]. intros z. by rewrite Hpar.
Qed.

(** The namespace of an operation that ends. *)
Lemma touch_step s r : Inv (Held f d n h i xt xn m b) t -> get (mount_namespaces t) s = Some r ->
  Inv (Held f d n h i xt xn m b) (put_namespace t s (touch_namespace r (binding_count r))).
Proof.
  intros H Hr. pose proof (iv_namespaces _ _ H) as HN. destruct (get_entry HN _ _ Hr) as [He Hs].
  apply (put_ns n h s r _ H Hr); try done.
  - by apply touched_fields.
  - exact (iv_total _ _ H _ _ Hr).
  - intros Hx. exact (iv_ns_live _ _ H _ _ Hr Hx).
  - intros x. cbn [touch_namespace task_refcount]. lia.
  - intros x. cbn [touch_namespace handle_refcount]. lia.
  - destruct (decide (0 < task_refcount r)) as [|Hz]; [by left|right]. intros s' tree Htree Ha E.
    destruct (iv_attached _ _ H _ _ Htree Ha) as [_ Hp]. rewrite E, (field_get _ _ _ Hr) in Hp. lia.
Qed.
End Steps.

(** ** Erasing mounts *)

Section Erase.
Context {f d n h i : list Z} {xt : option Z} {m b : Z}.

Lemma erase_one {t} ns s bd r : Inv (Held f d n h i xt (Some ns) m b) t -> get (mount_bindings t) s = Some bd ->
  mb_mount_namespace_slot bd = ns -> get (mount_namespaces t) ns = Some r -> ~ referred t ns (mount_id bd) ->
  Inv (Held f d n h i xt (Some ns) m b) (EraseMountBindingSlot t s).
Proof.
  intros H Hg Hns Hr Hno. pose proof (iv_bindings _ _ H) as Hok. destruct (mounts_small _ _ H Hr) as (He & Hb & Hc).
  unfold EraseMountBindingSlot. rewrite (get_at Hok _ _ Hg), Hns, (get_at (iv_namespaces _ _ H) _ _ Hr). cbn [mount_bindings with_namespaces].
  assert (0 < binding_count r) as Hpos.
  { rewrite He. apply (count_if_pos Hok). exists s, bd. split; [done|]. unfold in_namespace. lia. }
  assert (pool_ok kPathStateMountBindingCapacity (fun r => binding_vacant r = true) (fun r => binding_fields r = true)
    (vacate (mount_bindings t) s (ClearMountBinding s))) as Hok' by (by apply (pool_ok_vacate Hok _ bd)).
  assert (forall x, get (vacate (mount_bindings t) s (ClearMountBinding s)) x = if decide (x = s) then None else get (mount_bindings t) x) as Hget.
  { exact (get_vacate Hok s bd (ClearMountBinding s) Hg eq_refl). }
  apply bindings_step; try done.
  - intros x Hx. rewrite (count_vacate Hok _ _ _ _ Hg) by done. unfold in_namespace at 2. slots.
  - rewrite (count_vacate Hok _ _ _ _ Hg) by done. unfold in_namespace at 2, one. rewrite Hns, Z.eqb_refl, u32_small by lia. lia.
  - intros x bd' Hx. rewrite Hget. destruct (decide _) as [->|]; [|done]. split; [done|]. intros Hg'. congruence.
  - intros id Hid Hmo. destruct (parent_of (mount_bindings t) ns id) as [q|] eqn:E; [|done].
    apply (parent_of_Some Hok) in E as (y & r0 & Hy & E1 & E2 & _).
    assert (parent_of (vacate (mount_bindings t) s (ClearMountBinding s)) ns id = Some (parent_mount_id r0)) as ->; [|done].
    apply (parent_of_Some Hok'). exists y, r0. rewrite Hget. destruct (decide _) as [->|]; [|done].
    rewrite Hg in Hy. injection Hy as <-. by rewrite E2 in Hno.
  - intros x bd'. rewrite Hget. destruct (decide _); [done|]. intros Hx E. split; [exact (iv_ids _ _ H _ _ Hx)|].
    apply (iv_distinct _ _ H _ _ _ Hx). by rewrite E.
Qed.

Definition erase_marks (marks : list bool) (t : PathStateTable) : PathStateTable :=
  for_slots kPathStateMountBindingCapacity (fun slot t =>
    if negb (marks !!! Z.to_nat slot) then t else EraseMountBindingSlot t slot) t.

Lemma referred_same t t' s id : others t' = others t -> mount_trees t' = mount_trees t -> referred t' s id -> referred t s id.
Proof. intros (Et & Ef & _ & _)%others_split Er. unfold referred. by rewrite Et, Ef, Er. Qed.

(** What the loop leaves: the mounts that are not marked. *)
Record Erased (marks : list bool) (ns : Z) (r : MountNamespaceState) (k : Z) (t t' : PathStateTable) : Prop := {
  er_inv : Inv (Held f d n h i xt (Some ns) m b) t';
  er_get : forall x, get (mount_bindings t') x = if (x <? k) && marks !!! Z.to_nat x then None else get (mount_bindings t) x;
  er_namespace : exists c, get (mount_namespaces t') ns = Some (set_namespace_counts r (mn_refcount r) c (task_refcount r) (handle_refcount r));
  er_namespaces : forall x, x <> ns -> get (mount_namespaces t') x = get (mount_namespaces t) x;
  er_others : others t' = others t;
  er_trees : mount_trees t' = mount_trees t }.

Lemma erase_marks_loop marks t ns r : Inv (Held f d n h i xt (Some ns) m b) t -> get (mount_namespaces t) ns = Some r ->
  (forall x, 0 <= x < kPathStateMountBindingCapacity -> marks !!! Z.to_nat x = true ->
    exists bd, get (mount_bindings t) x = Some bd /\ mb_mount_namespace_slot bd = ns /\ ~ referred t ns (mount_id bd)) ->
  Erased marks ns r kPathStateMountBindingCapacity t (erase_marks marks t).
Proof.
  intros H Hr Hm. unfold erase_marks. set (body := fun slot t => _).
  apply (for_slots_ind (fun k t' => Erased marks ns r k t t')); [done| |].
  - split; try done.
    + intros x. destruct (x <? 0) eqn:E; [|done]. rewrite (get_negative (mount_bindings t)) by lia. by destruct (_ && _).
    + exists (binding_count r). rewrite Hr. by destruct r.
  - intros k t' Hk [HI Hg (c & Hc) Hns Ho Ht]. unfold body. clear body. destruct (marks !!! Z.to_nat k) eqn:Ek; cbn [negb].
    + destruct (Hm k Hk Ek) as (bd & Hbd & Hb1 & Hb2).
      assert (get (mount_bindings t') k = Some bd) as Hbd' by (rewrite Hg; by replace (k <? k) with false by lia).
      rewrite <- Hb1 in Hc. destruct (erase_mount_effect k bd _ HI Hbd' Hc) as (E1 & E2 & _).
      assert (mount_trees (EraseMountBindingSlot t' k) = mount_trees t') as Etr by done. split.
      * rewrite Hb1 in Hc. apply (erase_one ns k bd (set_namespace_counts r (mn_refcount r) c (task_refcount r) (handle_refcount r)) HI Hbd' Hb1 Hc). intros Href. apply Hb2. by apply (referred_same t t').
      * intros x. rewrite E1, Hg. destruct (decide (x = k)) as [->|Hne].
        -- replace (k <? k + 1) with true by lia. by rewrite Ek.
        -- replace (x <? k + 1) with (x <? k) by lia. done.
      * eexists. rewrite E2, decide_True by done. done.
      * intros x Hx. rewrite E2, decide_False by congruence. by apply Hns.
      * by rewrite erase_mount_others.
      * by rewrite Etr.
    + split; try done; [|by exists c]. intros x. rewrite Hg. destruct (decide (x = k)) as [->|Hne].
      * by rewrite Ek, !andb_false_r.
      * replace (x <? k + 1) with (x <? k) by lia. done.
Qed.

(** Closing the namespace: no mount is left whose parent is gone. *)
Lemma erase_marks_closed marks t ns r : Inv (Held f d n h i xt None m b) t -> get (mount_namespaces t) ns = Some r ->
  (forall x, 0 <= x < kPathStateMountBindingCapacity -> marks !!! Z.to_nat x = true ->
    exists bd, get (mount_bindings t) x = Some bd /\ mb_mount_namespace_slot bd = ns /\ ~ referred t ns (mount_id bd)) ->
  (forall x bd y bd', get (mount_bindings t) x = Some bd -> mb_mount_namespace_slot bd = ns -> marks !!! Z.to_nat x = false ->
    get (mount_bindings t) y = Some bd' -> mb_mount_namespace_slot bd' = ns -> marks !!! Z.to_nat y = true ->
    parent_mount_id bd <> mount_id bd') ->
  Inv (Held f d n h i xt None m b) (erase_marks marks t) /\
  Erased marks ns r kPathStateMountBindingCapacity t (erase_marks marks t).
Proof.
  intros H Hr Hm Horphan. pose proof (open_namespace ns H) as Ho. pose proof (erase_marks_loop marks t ns r Ho Hr Hm) as HE.
  split; [|exact HE]. destruct HE as [HI Hg (c & Hc) Hns _ _]. pose proof (iv_bindings _ _ H) as Hok. pose proof (iv_bindings _ _ HI) as Hok'.
  apply (close_namespace ns _ HI Hc); [exact (iv_ns_live _ _ H _ _ Hr ltac:(done))|]. cbn [set_namespace_counts root_mount_id].
  assert (forall x, get (mount_bindings (erase_marks marks t)) x = if (marks !!! Z.to_nat x : bool) then None else get (mount_bindings t) x) as Hg'.
  { intros x. rewrite Hg. destruct (Z.ltb_spec x kPathStateMountBindingCapacity); [done|]. cbn [andb].
    destruct (get (mount_bindings t) x) eqn:E; [|by destruct (_ !!! _)]. pose proof (get_range Hok _ _ E). lia. }
  apply (rooted_walk _ _ _ Hok').
  - intros x bd Hx E. rewrite Hg' in Hx. destruct (marks !!! Z.to_nat x) eqn:Ex; [done|].
    destruct (inv_rooted ns r H Hr ltac:(done) _ _ Hx E) as [k Hk]. exists k.
    assert (exists y bd1, get (mount_bindings t) y = Some bd1 /\ mb_mount_namespace_slot bd1 = ns /\ mount_id bd1 = mount_id bd /\
      marks !!! Z.to_nat y = false) as Hlive by (by exists x, bd).
    clear x Hx E Ex. revert Hlive. induction Hk as [|p q k Hp Hq Hk IH]; [constructor|]. intros (y & bd1 & Hy & E1 & E2 & Ey).
    apply (parent_of_Some Hok) in Hq as (z & bd2 & Hz & E3 & E4 & E5).
    assert (z = y) as -> by (apply (get_unique Hok _ _ _ _ Hz Hy); cbn; congruence). rewrite Hy in Hz. injection Hz as <-.
    apply (rises_up p q k); [done| |].
    + apply (parent_of_Some Hok'). exists y, bd1. rewrite Hg', Ey. done.
    + destruct (decide (q = root_mount_id r)) as [->|Hne]; [inversion Hk as [|? q' k' Hn]; [constructor|by destruct Hn]|].
      apply IH. inversion Hk as [Eroot|? q' k' _ Hq' _]; subst; [by destruct Hne|].
      apply (parent_of_Some Hok) in Hq' as (w & bd3 & Hw & F1 & F2 & _). exists w, bd3. split_and!; try done.
      destruct (marks !!! Z.to_nat w) eqn:Ew; [|done]. by destruct (Horphan y bd1 w bd3 Hy E1 Ey Hw F1 Ew).
  - intros x bd Hx E. rewrite Hg' in Hx. destruct (_ !!! _); [done|]. apply (iv_distinct _ _ H _ _ _ Hx). by rewrite E.
Qed.
End Erase.
