(* ===== verification/PathMountInv.v ===== *)
(** * The mount operations keep the invariant

    AddMountBinding, RemoveMountBinding and SetMountBindingAttributes, from a
    table between two operations to another. RemoveMountBinding does so unless
    it erases a mount that a detached one is below. *)

From S2P Require Import Prelude SlotArray SlotPool GuestPath GuestPathText PathState PathStorage PathStateOps PathTaskOps PathFdOps PathMounts PathStateInv PathViews PathSteps PathObjectSteps PathResolve PathReleases PathCopies PathTaskInv PathMountSteps.
From stdpp Require Import list.
#[local] Open Scope Z_scope.

(** An operation without the identifier it writes. *)
Definition without_id (o : Outcome) : Z * PathStateTable := (o.1.1, o.2).

(** A mount operation does not change what the descriptors are. *)
Lemma others_silent {g t} t' tid : Inv g t -> others t' = others t -> does t tid (fun _ u => u) t'.
Proof.
  intros H (Et & _ & _ & Ei)%others_split. apply (does_unnamed tid (fun u => u) t' H).
  unfold view. by rewrite Et, Ei.
Qed.

Section ForTask.
Context {m : Z} {t : PathStateTable}.
Hypothesis H : Inv (settled m) t.

Lemma for_task_cases {X} (P : X -> Prop) tid bad fail k : P (fail EINVAL) -> P (fail ESRCH) ->
  (forall slot r, get (tasks t) slot = Some r -> 0 < tid -> bad = false -> P (k r)) -> P (for_task t tid bad fail k).
Proof.
  intros H1 H2 Hk. unfold for_task. rewrite (initialized H). cbn [negb orb]. destruct (Z.leb_spec tid 0); [done|].
  destruct bad; [done|]. cbn [orb]. destruct (FindTaskUnchecked t tid) as [slot|] eqn:Et; [|done].
  destruct (find_task _ _ H Et) as (r & Hr & Hof & _). rewrite Hof. by apply (Hk slot).
Qed.
End ForTask.

Lemma add_mount_keeps m t tid binding : Inv (settled m) t -> 0 <= m < 2 ^ 64 - 1 ->
  keeps (does t tid (fun _ u => u)) m t (without_id (AddMountBinding t tid binding)).
Proof.
  intros H Hm. unfold AddMountBinding. apply (for_task_cases H (fun o => keeps _ m t (without_id o))); [by apply keeps_same..|].
  intros slot r Hr _ _. destruct (task_namespace H _ _ Hr) as [n Hn].
  pose proof (add_internal m t _ n binding H Hm Hn) as Ha.
  destruct (AddMountBindingInternal _ _ _) as [[error [s|]] t']; cbn [without_id fst snd].
  - destruct Ha as (-> & Ha & Had). apply keeps_changed; [exact Ha|]. apply (others_silent _ _ H). apply (ad_others _ _ _ _ _ _ _ Had).
  - destruct Ha as [Ha ->]. by apply keeps_same.
Qed.

(** ** Removing *)

Section Remove.
Context {m : Z} {t : PathStateTable} {ns : Z} {n : MountNamespaceState}.
Hypothesis H : Inv (settled m) t.
Hypothesis Hn : get (mount_namespaces t) ns = Some n.

Lemma lookup_marks (f : MountBindingState -> bool) x : 0 <= x < kPathStateMountBindingCapacity ->
  (f <$> p_records (mount_bindings t)) !!! Z.to_nat x = f (binding_at t x).
Proof.
  intros Hx. apply list_lookup_total_correct. rewrite list_lookup_fmap.
  by rewrite (at_slot_lookup (iv_bindings _ _ H) x Hx).
Qed.

Lemma selected_mark id marks :
  MountIdIsSelected t ns id marks = true <->
  exists s b, get (mount_bindings t) s = Some b /\ mb_mount_namespace_slot b = ns /\ mount_id b = id /\ marks !!! Z.to_nat s = true.
Proof.
  pose proof (iv_bindings _ _ H) as Hok. unfold MountIdIsSelected, FindMountBindingById. split.
  - destruct (search _ _) as [s|] eqn:E; [|done]. apply (search_Some Hok) in E as (b & Hb & E). bool_hyps.
    destruct (get_entry Hok _ _ Hb) as [_ Es]. unfold binding_at. rewrite (get_at Hok _ _ Hb). cbn in Es. rewrite Es.
    intros Hm. exists s, b. split_and!; [done|lia|lia|done].
  - intros (s & b & Hb & Hns & Hid & Hm). rewrite (search_found Hok _ s b Hb).
    + destruct (get_entry Hok _ _ Hb) as [_ Es]. unfold binding_at. rewrite (get_at Hok _ _ Hb). cbn in Es. by rewrite Es.
    + lia.
    + intros s' b' Hb' E. bool_hyps. apply (get_unique Hok s' s b' b Hb' Hb). cbn. f_equal; lia.
Qed.

(** The marks are on mounts of the namespace. *)
Lemma removed_mark id flags s : 0 <= s < kPathStateMountBindingCapacity -> remove_slots t ns id flags !!! Z.to_nat s = true <->
  exists b, get (mount_bindings t) s = Some b /\ mb_mount_namespace_slot b = ns /\ detached b = false /\
    (mount_id b = id \/ (has flags kMountRemoveSubtree = true /\ BindingDescendsFrom t b id = true)).
Proof.
  intros Hs. unfold remove_slots. rewrite (lookup_marks _ _ Hs). unfold of_namespace.
  pose proof (iv_bindings _ _ H) as Hok. split.
  - destruct (in_use (binding_at t s)) eqn:Hu; [|done]. apply (at_slot_get s Hok Hs) in Hu. destruct (Z.eqb_spec (mb_mount_namespace_slot (binding_at t s)) ns); [|done].
    destruct (detached _) eqn:Hd; [done|]. cbn [andb negb]. intros E. exists (binding_at t s). split_and!; try done.
    destruct (Z.eqb_spec (mount_id (binding_at t s)) id); [by left|right]. by destruct (has _ _).
  - intros (b & Hb & Hns & Hd & E). assert (binding_at t s = b) as -> by exact (get_at Hok _ _ Hb).
    rewrite (get_in_use Hok _ _ Hb), Hns, Z.eqb_refl, Hd. cbn [andb negb]. destruct (Z.eqb_spec (mount_id b) id); [done|].
    destruct E as [?|[-> ->]]; [done|done].
Qed.

(** A mount that is not detached keeps its parent, or goes with it. *)
Lemma removed_subtree id flags x bd y bd' : (has flags kMountRemoveSubtree = false -> has_children t ns id = false) ->
  get (mount_bindings t) x = Some bd -> mb_mount_namespace_slot bd = ns -> detached bd = false ->
  remove_slots t ns id flags !!! Z.to_nat x = false ->
  get (mount_bindings t) y = Some bd' -> mb_mount_namespace_slot bd' = ns -> remove_slots t ns id flags !!! Z.to_nat y = true ->
  parent_mount_id bd <> mount_id bd'.
Proof.
  intros Hch Hx Ex Hd Mx Hy Ey My E. pose proof (iv_bindings _ _ H) as Hok.
  pose proof (get_range Hok _ _ Hx) as Rx. pose proof (get_range Hok _ _ Hy) as Ry.
  apply (removed_mark id flags y Ry) in My as (b & Hb & _ & _ & My). rewrite Hy in Hb. injection Hb as <-.
  apply not_true_iff_false in Mx. apply Mx. apply (removed_mark id flags x Rx). exists bd. split_and!; try done. right.
  assert (has flags kMountRemoveSubtree = true) as Hf.
  { destruct (has _ _) eqn:Hf; [done|]. destruct My as [My|[? _]]; [|done]. specialize (Hch eq_refl). unfold has_children in Hch.
    apply not_true_iff_false in Hch. destruct Hch. apply existsb_exists. exists bd. pose proof (get_entry_at Hok _ _ Hx) as [Hi Hu]. split.
    - apply list_elem_of_In, list_elem_of_lookup. by exists (Z.to_nat x).
    - unfold of_namespace. rewrite Hu, Hd. lia. }
  split; [done|]. assert (g_open_namespace (settled m) <> Some ns) as Ho by done.
  apply (binding_descends H Hn Ho x bd id Hx Ex). destruct (rooted_rank H Hn Ho y bd' Hy Ey) as (k & _ & _ & Hp & Hr).
  rewrite E. destruct My as [My|[_ My]]; [rewrite My; constructor|].
  apply (binding_descends H Hn Ho y bd' id Hy Ey) in My. by econstructor.
Qed.

(** ** The trees *)

(** After the loop no tree is attached to a marked mount; [retain] when one was cloned from it. *)
Lemma trees_removed marks retain : let '(t', retain') := remove_from_trees t ns marks retain in
  Inv (settled m) t' /\ others t' = others t /\ mount_bindings t' = mount_bindings t /\ mount_namespaces t' = mount_namespaces t /\
  (retain = true -> retain' = true) /\
  forall s tree, get (mount_trees t') s = Some tree ->
    (mt_mount_namespace_slot tree = ns -> MountIdIsSelected t ns (source_mount_id tree) marks = true -> retain' = true) /\
    (tree_attached tree = true -> attached_namespace_slot tree = ns -> MountIdIsSelected t ns (attached_mount_id tree) marks = false).
Proof.
  unfold remove_from_trees. set (body := fun slot '(t, retain) => _).
  set (P := fun k (st : PathStateTable * bool) => let '(t', retain') := st in
    Inv (settled m) t' /\ others t' = others t /\ mount_bindings t' = mount_bindings t /\ mount_namespaces t' = mount_namespaces t /\
    (retain = true -> retain' = true) /\
    forall s tree, get (mount_trees t') s = Some tree -> s < k ->
      (mt_mount_namespace_slot tree = ns -> MountIdIsSelected t ns (source_mount_id tree) marks = true -> retain' = true) /\
      (tree_attached tree = true -> attached_namespace_slot tree = ns -> MountIdIsSelected t ns (attached_mount_id tree) marks = false)).
  assert (P kPathStateMountTreeCapacity (for_slots kPathStateMountTreeCapacity body (t, retain))) as HP.
  { apply (for_slots_ind P); [done| |].
    - unfold P. split_and!; try done. intros s tree Hs Hlt. pose proof (get_range (iv_trees _ _ H) _ _ Hs). lia.
    - intros k [t' r'] Hk (HI & Ho & Hb & Hns & Hr & Ht). unfold body. clear body. pose proof (iv_trees _ _ HI) as Hok.
      assert (forall id, MountIdIsSelected t' ns id marks = MountIdIsSelected t ns id marks) as Hsel.
      { intros id. unfold MountIdIsSelected, FindMountBindingById, binding_at. by rewrite Hb. }
      rewrite !Hsel. set (tree := at_slot (mount_trees t') k). destruct (in_use tree) eqn:Hu; cbn [negb].
      2:{ unfold P. split_and!; try done. intros s tr Hs Hlt. apply (Ht s tr Hs). destruct (decide (s = k)) as [->|]; [|lia].
          pose proof (get_at Hok _ _ Hs) as E. apply (get_in_use Hok) in Hs. unfold tree in Hu. congruence. }
      apply (at_slot_get k Hok Hk) in Hu. change (at_slot (mount_trees t') k) with tree in Hu.
      set (r'' := if (mt_mount_namespace_slot tree =? ns) && MountIdIsSelected t ns (source_mount_id tree) marks then true else r').
      assert (r' = true -> r'' = true) as Hr'' by (unfold r''; by destruct (_ && _)).
      assert (mt_mount_namespace_slot tree = ns -> MountIdIsSelected t ns (source_mount_id tree) marks = true -> r'' = true) as Hsrc.
      { intros E1 E2. unfold r''. by rewrite E1, Z.eqb_refl, E2. }
      destruct ((attached_namespace_slot tree =? ns) && _) eqn:E.
      + destruct (detach_tree_step k tree HI Hu) as (HI' & Hna & Hput). unfold P. split_and!; try done; [auto|].
        intros s tr Hs Hlt. rewrite Hput in Hs. destruct (decide (s = k)) as [->|Hne].
        * injection Hs as <-. split; [exact Hsrc|]. intros Hat. by rewrite Hna in Hat.
        * destruct (Ht s tr Hs ltac:(lia)) as [H1 H2]. split; [auto|done].
      + unfold P. split_and!; try done; [auto|]. intros s tr Hs Hlt. destruct (decide (s = k)) as [->|Hne].
        * rewrite Hu in Hs. injection Hs as <-. split; [exact Hsrc|]. intros _ Ens. rewrite Ens, Z.eqb_refl in E. exact E.
        * destruct (Ht s tr Hs ltac:(lia)) as [H1 H2]. split; [auto|done]. }
  destruct (for_slots kPathStateMountTreeCapacity body (t, retain)) as [t' r']. destruct HP as (HI & ? & ? & ? & ? & Ht). split_and!; try done.
  intros s tree Hs. apply (Ht s tree Hs). pose proof (get_range (iv_trees _ _ HI) _ _ Hs). lia.
Qed.
End Remove.

(** ** The mounts that are removed *)

Lemma drop_erases t marks : drop_mounts t marks false = erase_marks marks t.
Proof. unfold drop_mounts, erase_marks. reflexivity. Qed.

Lemma detach_mount_fields bd : binding_fields bd = true ->
  binding_fields (set_state_flags bd (mb_state_flags bd ||| kMountBindingStateDetached)) = true.
Proof.
  unfold binding_fields. cbn [set_state_flags mb_kind mb_reserved mb_state_flags mount_id sequence target_guest mb_source_guest mb_source_host].
  rewrite Z.land_lor_distr_l. change (kMountBindingStateDetached &&& not32 kMountBindingStateKnownFlags) with 0. by rewrite Z.lor_0_r.
Qed.

Section Drop.
Context {m : Z} {t : PathStateTable} {ns : Z} {n : MountNamespaceState}.
Hypothesis H : Inv (settled m) t.
Hypothesis Hn : get (mount_namespaces t) ns = Some n.

Lemma drop_detached marks :
  (forall x, 0 <= x < kPathStateMountBindingCapacity -> marks !!! Z.to_nat x = true -> exists bd, get (mount_bindings t) x = Some bd) ->
  Inv (settled m) (drop_mounts t marks true) /\ others (drop_mounts t marks true) = others t /\
  mount_namespaces (drop_mounts t marks true) = mount_namespaces t.
Proof.
  intros Hm. unfold drop_mounts. set (body := fun slot t => _).
  set (P := fun (k : Z) t' => Inv (settled m) t' /\ others t' = others t /\ mount_namespaces t' = mount_namespaces t /\
    forall x, is_some (get (mount_bindings t') x) = is_some (get (mount_bindings t) x)).
  assert (P kPathStateMountBindingCapacity (for_slots kPathStateMountBindingCapacity body t)) as (P1 & P2 & P3 & _); [|exact (conj P1 (conj P2 P3))].
  apply (for_slots_ind P); [done|done|]. intros k t' Hk (HI & Ho & Hns & Hs). unfold body. clear body.
  destruct (marks !!! Z.to_nat k) eqn:Ek; cbn [negb]; [|done].
  destruct (Hm k Hk Ek) as (bd0 & Hbd0). specialize (Hs k) as Hsk. rewrite Hbd0 in Hsk.
  destruct (get (mount_bindings t') k) as [bd|] eqn:Hbd; [|done]. pose proof (iv_bindings _ _ HI) as Hok.
  assert (binding_at t' k = bd) as -> by exact (get_at Hok _ _ Hbd). destruct (get_entry Hok _ _ Hbd) as [Hf _].
  set (bd' := set_state_flags _ _). destruct (stays_in_use Hok k bd bd' Hbd eq_refl) as [Hu _]. unfold P. split_and!; try done.
  - apply (same_mount_step k bd bd'); try done; [exact (proj2 (iv_ids _ _ HI _ _ Hbd))|by apply detach_mount_fields].
  - intros x. unfold put_binding. cbn [mount_bindings with_bindings]. rewrite (get_put Hok _ _ _ Hbd Hu).
    destruct (decide _) as [->|]; [by rewrite Hbd0|apply Hs].
Qed.

Lemma not_pinned marks x r c id : pinned t ns marks = false -> get (tasks t) x = Some r -> pt_mount_namespace_slot r = ns ->
  get (fs_contexts t) (pt_fs_context_slot r) = Some c -> id = cwd_mount_id c \/ id = fs_root_mount_id c ->
  MountIdIsSelected t ns id marks = false.
Proof.
  intros Hp Hr Hns Hc Hid. apply not_true_iff_false. intros Hsel. apply not_true_iff_false in Hp. apply Hp.
  unfold pinned. apply existsb_exists. exists r. pose proof (get_entry_at (iv_tasks _ _ H) _ _ Hr) as [Hi Hu]. split.
  - apply list_elem_of_In, list_elem_of_lookup. by exists (Z.to_nat x).
  - rewrite Hu, Hns, Z.eqb_refl. cbn [andb]. rewrite (get_at (iv_contexts _ _ H) _ _ Hc).
    destruct Hid as [<-|<-]; rewrite Hsel; [done|by rewrite orb_true_r].
Qed.
End Drop.

(** RemoveMountBinding erases the parent of a mount that stays as detached:
    its loops pass over the detached mounts, and nothing else retains the parent. *)
Definition strands (t : PathStateTable) (tid : Z) (target : option Path) (flags : Z) : bool :=
  match FindTaskUnchecked t tid with
  | None => false
  | Some slot =>
    let ns := pt_mount_namespace_slot (task_of t slot) in
    match ResolveVisibleExactMount t ns (path_of target) with
    | None => false
    | Some selected =>
      let removed := remove_slots t ns (mount_id (binding_at t selected)) flags in
      let '(t', retain) := remove_from_trees t ns removed (has flags kMountRemoveDetached) in
      negb (retain || pinned t' ns removed) &&
      existsb (fun b => of_namespace ns b && detached b && MountIdIsSelected t ns (parent_mount_id b) removed)
        (p_records (mount_bindings t))
    end
  end.

(** The end of an operation on the mounts of a namespace. *)
Lemma ends m t t' ns n tid : Inv (settled m) t -> 0 <= m < 2 ^ 64 - 1 -> Inv (settled m) t' -> others t' = others t ->
  get (mount_namespaces t') ns = Some n ->
  let t2 := NoteMutation (put_namespace t' ns (touch_namespace (namespace_at t' ns) (binding_count (namespace_at t' ns)))) in
  keeps (does t tid (fun _ u => u)) m t (0, t2).
Proof.
  intros H Hm H' Ho Hn t2. assert (namespace_at t' ns = n) as En by exact (get_at (iv_namespaces _ _ H') _ _ Hn).
  unfold t2. rewrite En. apply (keeps_noted _ m); [by apply touch_step|lia|done|]. by apply (others_silent _ _ H).
Qed.

Section Removed.
Context {m : Z} {t t1 : PathStateTable} {ns : Z} {n : MountNamespaceState} (id flags : Z) (retain : bool).
Let marks := remove_slots t ns id flags.
Hypothesis H : Inv (settled m) t.
Hypothesis Hn : get (mount_namespaces t) ns = Some n.
Hypothesis H1 : Inv (settled m) t1.
Hypothesis Ho1 : others t1 = others t.
Hypothesis Hb1 : mount_bindings t1 = mount_bindings t.
Hypothesis Hn1 : mount_namespaces t1 = mount_namespaces t.
Hypothesis Htr : forall s tree, get (mount_trees t1) s = Some tree ->
  (mt_mount_namespace_slot tree = ns -> MountIdIsSelected t ns (source_mount_id tree) marks = true -> retain = true) /\
  (tree_attached tree = true -> attached_namespace_slot tree = ns -> MountIdIsSelected t ns (attached_mount_id tree) marks = false).
Hypothesis Hch : has flags kMountRemoveSubtree = false -> has_children t ns id = false.
Hypothesis Hst : negb (retain || pinned t1 ns marks) &&
  existsb (fun b => of_namespace ns b && detached b && MountIdIsSelected t ns (parent_mount_id b) marks) (p_records (mount_bindings t)) = false.

Lemma marked_mount x : 0 <= x < kPathStateMountBindingCapacity -> marks !!! Z.to_nat x = true ->
  exists bd, get (mount_bindings t1) x = Some bd /\ mb_mount_namespace_slot bd = ns.
Proof. intros Hx (bd & Hbd & E & _)%(removed_mark H id flags x Hx). rewrite Hb1. by exists bd. Qed.

Lemma selected_same i : MountIdIsSelected t1 ns i marks = MountIdIsSelected t ns i marks.
Proof. unfold MountIdIsSelected, FindMountBindingById, binding_at. by rewrite Hb1. Qed.

Lemma marked_unreferred i : retain || pinned t1 ns marks = false -> MountIdIsSelected t ns i marks = true -> ~ referred t1 ns i.
Proof.
  intros [Hr Hp]%orb_false_iff Hsel [(x & r & c & Hx & E & Hc & Hi)|(x & tree & Hx & Hi)].
  - rewrite <- selected_same, (not_pinned H1 marks x r c i Hp Hx E Hc Hi) in Hsel. done.
  - destruct (Htr _ _ Hx) as [T1 T2]. destruct Hi as [[E ->]|(Ha & E & ->)].
    + rewrite (T1 E Hsel) in Hr. done.
    + rewrite (T2 Ha E) in Hsel. done.
Qed.

Lemma dropped : let t2 := drop_mounts t1 marks (retain || pinned t1 ns marks) in
  Inv (settled m) t2 /\ others t2 = others t /\ exists n2, get (mount_namespaces t2) ns = Some n2.
Proof.
  destruct (retain || pinned t1 ns marks) eqn:E.
  - destruct (drop_detached H1 marks) as (HI & Ho & Hns); [intros x Hx Hm; destruct (marked_mount x Hx Hm) as (bd & Hbd & _); by exists bd|].
    split_and!; [exact HI|by rewrite Ho|]. exists n. by rewrite Hns, Hn1.
  - rewrite drop_erases. cbn [negb andb] in Hst. destruct (erase_marks_closed marks t1 ns n H1) as [HI HE].
    + by rewrite Hn1.
    + intros x Hx Hm. destruct (marked_mount x Hx Hm) as (bd & Hbd & Ens). exists bd. split_and!; [done..|].
      apply marked_unreferred; [done|]. apply (selected_mark H). exists x, bd. rewrite <- Hb1. done.
    + rewrite Hb1. intros x bd y bd' Hx Ex Mx Hy Ey My Ep. pose proof (iv_bindings _ _ H) as Hok. destruct (detached bd) eqn:Hd.
      * apply not_true_iff_false in Hst. apply Hst. apply existsb_exists. exists bd. pose proof (get_entry_at Hok _ _ Hx) as [Hi Hu]. split.
        -- apply list_elem_of_In, list_elem_of_lookup. by exists (Z.to_nat x).
        -- unfold of_namespace. rewrite Hu, Ex, Z.eqb_refl, Hd. cbn [andb]. apply (selected_mark H). by exists y, bd'.
      * by apply (removed_subtree H Hn id flags x bd y bd' Hch).
    + destruct HE as [_ _ (c & Hc) _ Ho _]. split_and!; [exact HI|by rewrite Ho|]. by eexists.
Qed.
End Removed.

Lemma remove_mount_keeps m t tid target flags : Inv (settled m) t -> 0 <= m < 2 ^ 64 - 1 -> strands t tid target flags = false ->
  keeps (does t tid (fun _ u => u)) m t (without_id (RemoveMountBinding t tid target flags)).
Proof.
  intros H Hm Hst. unfold RemoveMountBinding. rewrite (initialized H). cbn [negb orb]. destruct (Z.leb_spec tid 0); [by apply keeps_same|].
  destruct (negb (_ =? 0)); [by apply keeps_same|]. cbn [orb].
  destruct (Z.eqb_spec (ValidateCanonicalPath target) 0) as [Ep|Ep]; cbn [negb]; [|by apply keeps_same].
  unfold for_task. rewrite (initialized H). cbn [negb orb]. replace (tid <=? 0) with false by lia. cbn [orb]. unfold strands in Hst.
  destruct (FindTaskUnchecked t tid) as [slot|] eqn:Et; [|by apply keeps_same].
  destruct (find_task _ _ H Et) as (r & Hr & Hof & _). rewrite Hof in *. set (ns := pt_mount_namespace_slot r) in *.
  destruct (task_namespace H _ _ Hr) as [n Hn]. fold ns in Hn.
  destruct (ResolveVisibleExactMount t ns (path_of target)) as [s|] eqn:Es; [|by apply keeps_same].
  destruct (resolve_exact H _ _ _ Es) as (_ & b & Hb & Hat & Hbns & Hbd & _). rewrite Hat in *.
  destruct (has_children t ns (mount_id b) && negb (has flags kMountRemoveSubtree)) eqn:Hch; [by apply keeps_same|].
  pose proof (trees_removed (ns := ns) H (remove_slots t ns (mount_id b) flags) (has flags kMountRemoveDetached)) as HT.
  destruct (remove_from_trees t ns (remove_slots t ns (mount_id b) flags) (has flags kMountRemoveDetached)) as [t1 retain].
  destruct HT as (H1 & Ho1 & Hb1 & Hn1 & _ & Htr).
  assert (has flags kMountRemoveSubtree = false -> has_children t ns (mount_id b) = false) as Hc.
  { intros E. by rewrite E, andb_true_r in Hch. }
  destruct (dropped (mount_id b) flags retain H Hn H1 Ho1 Hb1 Hn1 Htr Hc Hst) as (H2 & Ho2 & n2 & Hn2).
  unfold without_id. cbn [fst snd]. by apply (ends m t _ ns n2).
Qed.

(** ** Attributes *)

(** A loop that stores mounts anew, their places in the tree unchanged. *)
Lemma rewrite_mounts {m t} body : Inv (settled m) t ->
  (forall k t', 0 <= k < kPathStateMountBindingCapacity -> Inv (settled m) t' -> mount_namespaces t' = mount_namespaces t ->
    body k t' = t' \/ exists bd bd', get (mount_bindings t') k = Some bd /\ SameMount bd bd' /\ sequence bd' <= m /\
      binding_fields bd' = true /\ body k t' = put_binding t' k bd') ->
  let t2 := for_slots kPathStateMountBindingCapacity body t in
  Inv (settled m) t2 /\ others t2 = others t /\ mount_namespaces t2 = mount_namespaces t /\ mount_trees t2 = mount_trees t.
Proof.
  intros H Hb. cbv zeta.
  apply (for_slots_ind (fun _ t' => Inv (settled m) t' /\ others t' = others t /\ mount_namespaces t' = mount_namespaces t /\
    mount_trees t' = mount_trees t)); [done|done|].
  intros k t' Hk (HI & Ho & Hns & Ht). destruct (Hb k t' Hk HI Hns) as [->|(bd & bd' & Hbd & Hs & Hq & Hf & ->)]; [done|].
  split_and!; try done. by apply (same_mount_step k bd bd').
Qed.

Lemma set_attributes_same bd set clear prop : SameMount bd (set_attributes bd set clear prop) /\
  sequence (set_attributes bd set clear prop) = sequence bd /\
  binding_fields (set_attributes bd set clear prop) = binding_fields bd.
Proof. split_and!; [by split|done|done]. Qed.

Lemma set_below_step m t ns selected id set clear prop : Inv (settled m) t ->
  let t2 := set_below t ns selected id set clear prop in
  Inv (settled m) t2 /\ others t2 = others t /\ mount_namespaces t2 = mount_namespaces t /\ mount_trees t2 = mount_trees t.
Proof.
  intros H. unfold set_below. set (body := fun slot t => _). refine (rewrite_mounts body H _). unfold body. clear body. intros k t' Hk HI _. unfold binding_at. pose proof (iv_bindings _ _ HI) as Hok.
  set (bd := at_slot (mount_bindings t') k). destruct (of_namespace ns bd) eqn:Hof; cbn [negb]; [|by left].
  destruct (match selected with None => _ | Some _ => _ end); [by left|right]. unfold of_namespace in Hof.
  apply andb_true_iff in Hof as [Hu _]. apply (at_slot_get k Hok Hk) in Hu. fold bd in Hu.
  destruct (set_attributes_same bd set clear prop) as (Hs & Hq & Hf). exists bd, (set_attributes bd set clear prop).
  split_and!; [done|done|rewrite Hq; exact (proj2 (iv_ids _ _ HI _ _ Hu))|rewrite Hf; by destruct (get_entry Hok _ _ Hu)|done].
Qed.

Lemma set_attributes_keeps m t tid target set clear prop recursive : Inv (settled m) t -> 0 <= m < 2 ^ 64 - 1 ->
  keeps (does t tid (fun _ u => u)) m t (SetMountBindingAttributes t tid target set clear prop recursive).
Proof.
  intros H Hm. unfold SetMountBindingAttributes. destruct (_ || _ || _); [by apply keeps_same|].
  destruct (Z.eqb_spec (ValidateCanonicalPath target) 0) as [Ep|Ep]; cbn [negb]; [|by apply keeps_same].
  apply (for_task_cases H (keeps _ m t)); [by apply keeps_same..|]. intros slot r Hr _ _. cbv zeta.
  destruct (task_namespace H _ _ Hr) as [n Hn]. set (ns := pt_mount_namespace_slot r) in *.
  pose proof (iv_namespaces _ _ H) as HN. assert (namespace_at t ns = n) as En by exact (get_at HN _ _ Hn). rewrite En.
  set (selected := ResolveVisibleMount t ns (path_of target)).
  set (id := match selected with None => root_mount_id n | Some _ => _ end).
  set (t1 := match selected with None => put_namespace _ _ _ | Some _ => _ end).
  assert (Inv (settled m) t1 /\ others t1 = others t /\ exists n1, get (mount_namespaces t1) ns = Some n1) as (H1 & Ho1 & n1 & Hn1).
  { unfold t1. destruct selected as [s|] eqn:Es.
    - destruct (resolve_selected H _ _ _ Es) as (b & Hb & Hat & _). rewrite Hat.
      destruct (set_attributes_same b set clear prop) as (Hs & Hq & Hf). split_and!; [|done|by exists n].
      apply (same_mount_step s b); try done; [rewrite Hq; exact (proj2 (iv_ids _ _ H _ _ Hb))|].
      rewrite Hf. by destruct (get_entry (iv_bindings _ _ H) _ _ Hb).
    - destruct (get_entry HN _ _ Hn) as [He Hs]. set (n' := set_root_attributes n set clear prop).
      destruct (stays_in_use HN ns n n' Hn eq_refl) as [Hu _]. split_and!; [|done|].
      + apply (put_ns [] [] ns n n' H Hn); try done.
        * exact (iv_total _ _ H _ _ Hn).
        * intros Hx. exact (iv_ns_live _ _ H _ _ Hn Hx).
        * intros x. cbn [n' set_root_attributes task_refcount]. lia.
        * intros x. cbn [n' set_root_attributes handle_refcount]. lia.
        * destruct (decide (0 < task_refcount n)) as [|Hz]; [by left|right]. intros s' tree Htree Ha E.
          destruct (iv_attached _ _ H _ _ Htree Ha) as [_ Hp]. rewrite E, (field_get _ _ _ Hn) in Hp. lia.
      + exists n'. unfold put_namespace. cbn [mount_namespaces with_namespaces]. by rewrite (get_put HN _ _ _ Hn Hu), decide_True. }
  clearbody t1 id. destruct recursive.
  - destruct (set_below_step m t1 ns selected id set clear prop H1) as (H2 & Ho2 & Hn2 & _). cbv zeta in *.
    revert H2 Ho2 Hn2. generalize (set_below t1 ns selected id set clear prop). intros t2 H2 Ho2 Hn2.
    apply (ends m t t2 ns n1); [done..|by rewrite Ho2|by rewrite Hn2].
  - by apply (ends m t t1 ns n1).
Qed.
