(* ===== verification/PathMoveInv.v ===== *)
(** * Moving mounts keeps the invariant

    MoveMountBinding: the loops rewrite the paths of mounts, trees and
    contexts with texts that are well-formed, and the selected mount gets a
    parent that is not below it, so the mounts stay a tree. *)

From S2P Require Import Prelude SlotArray SlotPool GuestPath GuestPathText PathState PathStorage PathStateOps PathTaskOps PathFdOps PathMounts PathMountMoves PathStateInv PathViews PathSteps PathObjectSteps PathResolve PathReleases PathCopies PathTaskInv PathMountSteps PathMountInv.
From stdpp Require Import list.
#[local] Open Scope Z_scope.

(** ** Another parent *)

Section Reroot.
Context {root : Z} {P Q : Z -> option Z} {sel new : Z}.
Hypothesis Hother : forall x, x <> sel -> Q x = P x.
Hypothesis Hsel : Q sel = Some new.
Hypothesis Hroot : sel <> root.

Lemma rises_avoid k p : rises root P k p -> ~ below root P sel p -> rises root Q k p.
Proof.
  induction 1 as [|p q k Hp Hq Hr IH]; intros Hb; [constructor|]. assert (p <> sel) as Hne by (intros ->; apply Hb; constructor).
  econstructor; [done|by rewrite Hother|]. apply IH. intros Hb'. apply Hb. by econstructor.
Qed.

Lemma rises_reroot k0 k p : rises root P k0 new -> ~ below root P sel new -> rises root P k p -> exists k', rises root Q k' p.
Proof.
  intros Hn Hb. pose proof (rises_avoid k0 new Hn Hb) as Hn'. induction 1 as [|p q k Hp Hq Hr [k' IH]]; [exists O; constructor|].
  destruct (decide (p = sel)) as [->|Hne]; [exists (S k0); by econstructor|]. exists (S k'). econstructor; [done|by rewrite Hother|done].
Qed.
End Reroot.

(** ** The rewritten texts *)

Lemma substituted_canonical path from to out : ValidateCanonicalPath (Some path) = 0 -> ValidateCanonicalPath (Some from) = 0 ->
  ValidateCanonicalPath (Some to) = 0 -> SubstitutePathPrefix path from to = inr out -> ValidateCanonicalPath (Some out) = 0.
Proof.
  intros [cs Hp]%canonical_components [ds Hf]%canonical_components [es Ht]%canonical_components Hs.
  pose proof (substitute_spec _ _ _ _ _ _ Hp Hf Ht) as Hspec. rewrite Hs in Hspec. destruct Hspec as (s & -> & Ho).
  apply canonical_components. by exists (es ++ s).
Qed.

Lemma length_loop_error p k i : length_loop p k i <> inl 0.
Proof. revert i. induction k as [|k IH]; intros i; cbn [length_loop]; [done|]. by destruct (_ =? 0). Qed.

(** Every error of SubstitutePathPrefix is one. *)
Lemma substitution_never_zero path from to : SubstitutePathPrefix path from to <> inl 0.
Proof.
  unfold SubstitutePathPrefix, PathLength. pose proof (length_loop_error path HOOKSELF_PATH_CAPACITY 0) as E1.
  pose proof (length_loop_error from HOOKSELF_PATH_CAPACITY 0) as E2. pose proof (length_loop_error to HOOKSELF_PATH_CAPACITY 0) as E3.
  destruct (length_loop path _ _); [congruence|]. destruct (length_loop from _ _); [congruence|]. destruct (length_loop to _ _); [congruence|].
  destruct (negb _); [done|]. cbv zeta. by destruct (HOOKSELF_PATH_CAPACITY <? _)%nat.
Qed.

Lemma rewrite_canonical buffer path from to : ValidateCanonicalPath (Some path) = 0 -> ValidateCanonicalPath (Some from) = 0 ->
  ValidateCanonicalPath (Some to) = 0 -> ValidateCanonicalPath (Some buffer) = 0 -> ValidateCanonicalPath (Some (rewrite_into buffer path from to)) = 0.
Proof.
  intros Hp Hf Ht Hb. unfold rewrite_into. destruct (SubstitutePathPrefix path from to) as [e|out] eqn:E; [exact Hb|].
  exact (substituted_canonical _ _ _ _ Hp Hf Ht E).
Qed.

Lemma substituted_absolute path from to out : ValidateCanonicalPath (Some to) = 0 -> SubstitutePathPrefix path from to = inr out ->
  ValidateAbsolutePath (Some out) = 0.
Proof.
  intros [es Ht]%canonical_components. unfold SubstitutePathPrefix. rewrite (denotes_length _ _ Ht).
  destruct (PathLength (Some path)) as [|k]; [done|]. destruct (PathLength (Some from)) as [|j]; [done|].
  destruct (negb _); [done|]. cbv zeta. set (suffix := if (length (render es) =? 1)%nat && _ && _ && _ then S _ else _). set (sep := negb _ && _ && negb _).
  destruct (HOOKSELF_PATH_CAPACITY <? _)%nat eqn:Hlen; [discriminate|]. intros [= <-]. apply Nat.ltb_ge in Hlen.
  assert (length (bytes to 0 (length (render es))) = length (render es)) as E1 by (unfold bytes; by rewrite length_fmap, length_seq).
  assert (length (bytes path suffix (k - suffix)) = (k - suffix)%nat) as E2 by (unfold bytes; by rewrite length_fmap, length_seq).
  assert (0 < length (render es))%nat as Hpos by (destruct es; [simpl; lia|]; rewrite render_joined by done; rewrite joined_cons; simpl; lia).
  set (out := bytes to 0 _ ++ _). assert (length out < HOOKSELF_PATH_CAPACITY)%nat as Hl.
  { unfold out. rewrite !length_app, E1, E2. destruct sep; simpl; lia. }
  assert (char_at out 0 = SLASH) as H0.
  { unfold out. rewrite char_at_app_l by (rewrite E1; lia). unfold bytes, char_at at 1. destruct (length (render es)) as [|l] eqn:El; [lia|].
    cbn [seq fmap list_fmap nth]. rewrite (denotes_char _ _ 0 Ht) by lia. destruct es as [|e es]; [done|]. rewrite render_joined by done.
    by apply char_at_joined_head. }
  unfold ValidateAbsolutePath. rewrite H0. change (negb (SLASH =? SLASH)) with false. cbv iota.
  assert (existsb (fun i => char_at out i =? 0) (seq 1 (HOOKSELF_PATH_CAPACITY - 1)) = true) as ->; [|done].
  apply existsb_exists. exists (length out). split.
  - apply in_seq. split; [|unfold HOOKSELF_PATH_CAPACITY in *; lia]. unfold out. rewrite length_app, E1. lia.
  - by rewrite char_at_end.
Qed.

(** A canonical path is absolute. *)
Lemma canonical_absolute p : ValidateCanonicalPath (Some p) = 0 -> ValidateAbsolutePath (Some p) = 0.
Proof.
  intros [cs Hp]%canonical_components. pose proof Hp as (_ & _ & Hl).
  unfold ValidateAbsolutePath. assert (char_at p 0 = SLASH) as ->.
  { rewrite (denotes_char _ _ 0 Hp) by lia. destruct cs as [|c cs]; [done|]. rewrite render_joined by done. by apply char_at_joined_head. }
  change (negb (SLASH =? SLASH)) with false. cbv iota.
  assert (existsb (fun i => char_at p i =? 0) (seq 1 (HOOKSELF_PATH_CAPACITY - 1)) = true) as ->; [|done].
  apply existsb_exists. exists (length (render cs)). split.
  - apply in_seq. split; [|unfold HOOKSELF_PATH_CAPACITY in *; lia]. destruct cs; [simpl; lia|]. rewrite render_joined, joined_cons by done. simpl. lia.
  - rewrite (denotes_char _ _ _ Hp) by lia. by rewrite char_at_end.
Qed.

Lemma rewrite_absolute buffer path from to : ValidateCanonicalPath (Some to) = 0 -> ValidateAbsolutePath (Some buffer) = 0 ->
  ValidateAbsolutePath (Some (rewrite_into buffer path from to)) = 0.
Proof.
  intros Ht Hb. unfold rewrite_into. destruct (SubstitutePathPrefix path from to) as [e|out] eqn:E; [exact Hb|].
  exact (substituted_absolute _ _ _ _ Ht E).
Qed.

(** ** Records with new paths *)

Lemma target_fields bd p : binding_fields bd = true -> ValidateCanonicalPath (Some p) = 0 ->
  binding_fields (set_target bd (CopyPath (Some p))) = true.
Proof.
  intros Hf Hp%copied_canonical. unfold binding_fields in *.
  cbn [set_target mb_kind mb_reserved mb_state_flags mount_id sequence target_guest mb_source_guest mb_source_host].
  rewrite Hp. destruct (canonical_storage (target_guest bd)); [exact Hf|]. rewrite andb_false_r in Hf. discriminate Hf.
Qed.

Lemma tree_path_fields r source attached : tree_fields r = true ->
  source = mt_source_guest r \/ canonical_storage source = true ->
  attached = attached_target_guest r \/ (tree_attached r = true /\ canonical_storage attached = true) ->
  tree_fields (set_tree_paths r source attached) = true.
Proof.
  intros Hf Hs Ha. unfold tree_fields, tree_attached, tree_detached in *.
  cbn [set_tree_paths mt_reserved mt_state_flags mt_generation handle_id source_mount_id mt_source_guest mt_source_host mt_reserved2
    attached_namespace_slot attached_mount_id attached_target_guest].
  assert (canonical_storage source = true) as ->.
  { destruct Hs as [->|Hs]; [|exact Hs]. revert Hf. generalize (canonical_storage (mt_source_guest r)). intros []; [done|].
    rewrite andb_false_r. intros Hf. discriminate Hf. }
  assert (canonical_storage (mt_source_guest r) = true) as Hsrc.
  { revert Hf. generalize (canonical_storage (mt_source_guest r)). intros []; [done|]. rewrite andb_false_r. intros Hf. discriminate Hf. }
  rewrite Hsrc in Hf. destruct Ha as [->|[Hat Hc]]; [exact Hf|].
  rewrite Hat in Hf |- *. rewrite Hc. destruct (has (mt_state_flags r) kMountTreeStateDetached); cbn [Bool.eqb negb] in Hf |- *.
  - rewrite andb_false_r in Hf. discriminate Hf.
  - destruct (canonical_storage (attached_target_guest r)); [exact Hf|]. rewrite !andb_false_r in Hf. discriminate Hf.
Qed.

Lemma origin_guest flags guest host guest' : origin_pair flags guest host = true -> ValidateAbsolutePath (Some guest') = 0 ->
  origin_pair flags (CopyPath (Some guest')) host = true.
Proof.
  unfold origin_pair. intros Ho Hg. apply andb_true_iff in Ho as [[[Hb Hv]%andb_true_iff Hp]%andb_true_iff Hh].
  rewrite Hb, Hh, copied_padded. unfold zero in *. apply Z.eqb_eq in Hv. rewrite andb_true_l, !andb_true_r.
  destruct (both_flags _ Hb) as [B1 B2]. apply Z.eqb_eq. unfold ValidateOrigin in *. rewrite B1, B2 in *.
  destruct (negb _); [done|]. destruct (_ && _); [done|]. rewrite (copied_absolute _ Hg).
  destruct (Z.eqb_spec (ValidateAbsolutePath (Some guest)) 0); cbn [negb Z.eqb] in *; [exact Hv|congruence].
Qed.

(** ** The loops *)

Definition place (b : MountBindingState) : Z * Z * Z * Z * Z :=
  (mb_occupied b, mb_slot b, mb_mount_namespace_slot b, mount_id b, parent_mount_id b).
Definition alike (t t' : PathStateTable) : Prop :=
  forall x, place <$> get (mount_bindings t') x = place <$> get (mount_bindings t) x.

#[export] Instance alike_refl : Reflexive alike. Proof. done. Qed.
#[export] Instance alike_trans : Transitive alike. Proof. intros a b c H1 H2 x. by rewrite H2. Qed.

Lemma alike_at {t t'} x b : alike t t' -> get (mount_bindings t) x = Some b ->
  exists b', get (mount_bindings t') x = Some b' /\ SameMount b b'.
Proof.
  intros Ha Hb. specialize (Ha x). rewrite Hb in Ha. destruct (get (mount_bindings t') x) as [b'|]; [|done].
  injection Ha as E1 E2 E3 E4 E5. exists b'. done.
Qed.

Lemma alike_sym {t t'} : alike t t' -> alike t' t. Proof. intros Ha x. by rewrite Ha. Qed.

Lemma alike_put {t} x b b' : (forall y, get (mount_bindings (put_binding t x b')) y = if decide (y = x) then Some b' else get (mount_bindings t) y) ->
  get (mount_bindings t) x = Some b -> SameMount b b' -> alike t (put_binding t x b').
Proof.
  intros Hput Hb [E1 E2 E3 E4 E5] y. rewrite Hput. destruct (decide _) as [->|]; [|done]. rewrite Hb. cbn. unfold place. congruence.
Qed.

Section Alike.
Context {g g' : Ghost} {t t' : PathStateTable}.
Hypothesis H : Inv g t.
Hypothesis H' : Inv g' t'.
Hypothesis Ha : alike t t'.

Lemma alike_parents ns id : parent_of (mount_bindings t') ns id = parent_of (mount_bindings t) ns id.
Proof.
  pose proof (iv_bindings _ _ H) as Hok. pose proof (iv_bindings _ _ H') as Hok'. apply option_eq. intros p.
  rewrite (parent_of_Some Hok), (parent_of_Some Hok'). split.
  - intros (s & r & Hr & E). destruct (alike_at s r (alike_sym Ha) Hr) as (r' & Hr' & [_ _ E1 E2 E3]). exists s, r'.
    split; [done|]. by rewrite E1, E2, E3.
  - intros (s & r & Hr & E). destruct (alike_at s r Ha Hr) as (r' & Hr' & [_ _ E1 E2 E3]). exists s, r'.
    split; [done|]. by rewrite E1, E2, E3.
Qed.

Context {ns : Z} {n : MountNamespaceState}.
Hypothesis Hn : get (mount_namespaces t) ns = Some n.
Hypothesis Hn' : get (mount_namespaces t') ns = Some n.
Hypothesis Ho : g_open_namespace g <> Some ns.
Hypothesis Ho' : g_open_namespace g' <> Some ns.

Lemma alike_moves sel x b b' : get (mount_bindings t) x = Some b -> get (mount_bindings t') x = Some b' ->
  moves t' ns sel b' = true -> moves t ns sel b = true.
Proof.
  intros Hb Hb'. destruct (alike_at x b Ha Hb) as (b1 & Hb1 & [_ _ E1 E2 E3]). rewrite Hb' in Hb1. injection Hb1 as <-.
  unfold moves, of_namespace. rewrite (get_in_use (iv_bindings _ _ H) _ _ Hb), (get_in_use (iv_bindings _ _ H') _ _ Hb'), E1, E2.
  destruct (Z.eqb_spec (mb_mount_namespace_slot b) ns) as [E|]; [|done]. cbn [andb]. destruct (mount_id b =? sel); [done|].
  intros Hd. apply (binding_descends H' Hn' Ho' x b' sel Hb') in Hd; [|congruence]. rewrite E3 in Hd.
  apply (binding_descends H Hn Ho x b sel Hb E). eapply below_ext; [|exact Hd]. intros y. by rewrite alike_parents.
Qed.
End Alike.

Lemma first_error_zero l : first_error l = 0 -> Forall (fun e => e = 0) l.
Proof.
  unfold first_error. induction l as [|e l IH]; [constructor|]. rewrite filter_cons. destruct (decide (e <> 0)) as [Hne|He].
  - intros E. by destruct Hne.
  - intros Hl. constructor; [lia|by apply IH].
Qed.

Section Loops.
Context {M : Z} (ns sel : Z) (from : FromGuest) (to : Path).
Hypothesis Hto : ValidateCanonicalPath (Some to) = 0.

Lemma from_same t t' : mount_trees t' = mount_trees t -> from_guest t' from = from_guest t from.
Proof. intros E. destruct from; [done|]. cbn [from_guest]. by rewrite E. Qed.

Lemma move_bindings_step t n s b0 buffer : Inv (settled M) t -> get (mount_namespaces t) ns = Some n ->
  ValidateCanonicalPath (Some (path_of (from_guest t from))) = 0 ->
  (forall x b, get (mount_bindings t) x = Some b -> moves t ns sel b = true ->
    substitution_error (target_guest b) (path_of (from_guest t from)) to = 0) ->
  get (mount_bindings t) s = Some b0 -> mb_mount_namespace_slot b0 = ns -> mount_id b0 = sel ->
  let out := move_bindings ns sel from to t buffer in
  Inv (settled M) out.1 /\ alike t out.1 /\ others out.1 = others t /\ mount_namespaces out.1 = mount_namespaces t /\
  mount_trees out.1 = mount_trees t /\ ValidateCanonicalPath (Some out.2) = 0.
Proof.
  intros H Hn Hfrom Hok0 Hs Hsns Hsid. cbv zeta. set (text := path_of (from_guest t from)) in *.
  unfold move_bindings. set (body := fun slot '(t, rewritten) => _).
  set (P := fun k (st : PathStateTable * Path) => Inv (settled M) st.1 /\ alike t st.1 /\ others st.1 = others t /\
    mount_namespaces st.1 = mount_namespaces t /\ mount_trees st.1 = mount_trees t /\
    (forall x, k <= x -> get (mount_bindings st.1) x = get (mount_bindings t) x) /\
    (s < k -> ValidateCanonicalPath (Some st.2) = 0)).
  assert (P kPathStateMountBindingCapacity (for_slots kPathStateMountBindingCapacity body (t, buffer))) as HP.
  { apply (for_slots_ind P); [done| |].
    - unfold P. split_and!; try done. intros Hlt. pose proof (get_range (iv_bindings _ _ H) _ _ Hs). lia.
    - intros k [t' buf] Hk (HI & Ha & Ho & Hns & Ht & Hlater & Hbuf). unfold body. clear body. cbn [fst snd] in *.
      pose proof (iv_bindings _ _ HI) as Hok. set (b := binding_at t' k).
      rewrite (from_same t t' Ht). fold text.
      destruct (moves t' ns sel b) eqn:Hmv.
      + assert (get (mount_bindings t') k = Some b) as Hb.
        { unfold moves in Hmv. destruct (of_namespace ns b) eqn:Hof; [|done]. unfold of_namespace in Hof. apply andb_true_iff in Hof as [Hu _].
          exact (at_slot_get k Hok Hk Hu). }
        assert (get (mount_bindings t) k = Some b) as Hb0 by (rewrite <- Hlater; [done|lia]).
        assert (get (mount_namespaces t') ns = Some n) as Hn' by (by rewrite Hns).
        pose proof (alike_moves H HI Ha Hn Hn' ltac:(done) ltac:(done) sel k b b Hb0 Hb Hmv) as Hmv0.
        specialize (Hok0 k b Hb0 Hmv0). unfold substitution_error in Hok0.
        destruct (get_entry Hok _ _ Hb) as [Hf _]. assert (ValidateCanonicalPath (Some (target_guest b)) = 0) as Hcan.
        { unfold binding_fields in Hf. apply andb_true_iff in Hf as [[[_ Hc]%andb_true_iff _]%andb_true_iff _].
          by apply canonical_storage_spec in Hc as [Hc _]. }
        unfold rewrite_into. destruct (SubstitutePathPrefix (target_guest b) text to) as [e|out] eqn:Esub.
        { exfalso. subst e. pose proof (substitution_never_zero (target_guest b) text to). congruence. }
        pose proof (substituted_canonical _ _ _ _ Hcan Hfrom Hto Esub) as Hout.
        assert (SameMount b (set_target b (CopyPath (Some out)))) as Hsm by done.
        destruct (stays_in_use Hok k b (set_target b (CopyPath (Some out))) Hb eq_refl) as [Hu _].
        pose proof (get_put Hok k b _ Hb Hu) as Hput. unfold P. cbn [fst snd]. split_and!; try done.
        * apply (same_mount_step k b); try done; [exact (proj2 (iv_ids _ _ HI _ _ Hb))|by apply target_fields].
        * etransitivity; [exact Ha|]. by apply (alike_put k b).
        * intros x Hx. unfold put_binding. cbn [mount_bindings with_bindings]. rewrite Hput, decide_False by lia. apply Hlater. lia.
      + unfold P. cbn [fst snd]. split_and!; try done; [intros x Hx; apply Hlater; lia|]. intros Hlt.
        destruct (decide (s = k)) as [->|]; [|apply Hbuf; lia]. exfalso.
        assert (get (mount_bindings t') k = Some b0) as Hb by (rewrite Hlater; [done|lia]).
        assert (b = b0) as Eb by exact (get_at Hok _ _ Hb). revert Hmv. unfold moves, of_namespace.
        rewrite Eb, (get_in_use Hok _ _ Hb), Hsns, Hsid, !Z.eqb_refl. done. }
  destruct HP as (P1 & P2 & P3 & P4 & P5 & _ & P6).
  refine (conj P1 (conj P2 (conj P3 (conj P4 (conj P5 (P6 _)))))). pose proof (get_range (iv_bindings _ _ H) _ _ Hs). lia.
Qed.
End Loops.

(** ** Trees *)

(** One tree with other paths. *)
Lemma tree_paths_step {g t} k tree source attached : Inv g t -> get (mount_trees t) k = Some tree ->
  source = mt_source_guest tree \/ canonical_storage source = true ->
  attached = attached_target_guest tree \/ (tree_attached tree = true /\ canonical_storage attached = true) ->
  let t' := store_tree t k (set_tree_paths tree source attached) in
  Inv g t' /\ forall x, get (mount_trees t') x = if decide (x = k) then Some (set_tree_paths tree source attached) else get (mount_trees t) x.
Proof.
  intros H Hk Hs Ha t'. pose proof (iv_trees _ _ H) as Hok. destruct (get_entry Hok _ _ Hk) as [Hf Hsl].
  destruct (stays_in_use Hok k tree (set_tree_paths tree source attached) Hk eq_refl) as [Hu _].
  split; [|exact (get_put Hok _ _ _ Hk Hu)]. destruct g as [f d n h i xt xn m b].
  apply (put_tree i k tree _ H Hk); try done; [by apply tree_path_fields|exact (iv_tree_live _ _ H _ _ Hk)|].
  intros x. cbn [set_tree_paths mt_refcount]. lia.
Qed.

(** The text a move starts from is a canonical path, also while it is rewritten. *)
Definition from_ok (t : PathStateTable) (from : FromGuest) : Prop :=
  match from with
  | Given text => ValidateCanonicalPath text = 0
  | AttachedTarget k => exists tree, get (mount_trees t) k = Some tree /\ tree_attached tree = true
  end.

Lemma attached_canonical r : tree_fields r = true -> tree_attached r = true -> canonical_storage (attached_target_guest r) = true.
Proof.
  unfold tree_fields. intros Hf Ha. rewrite Ha in Hf. apply andb_true_iff in Hf as [Hf Hc]. destruct (tree_detached r).
  - cbn [Bool.eqb negb] in Hf. rewrite andb_false_r in Hf. discriminate Hf.
  - by apply andb_true_iff in Hc as [_ Hc].
Qed.

Lemma source_canonical r : tree_fields r = true -> canonical_storage (mt_source_guest r) = true.
Proof. unfold tree_fields. intros [[[[_ Hc]%andb_true_iff _]%andb_true_iff _]%andb_true_iff _]%andb_true_iff. exact Hc. Qed.

Lemma from_canonical {g t} from : Inv g t -> from_ok t from -> ValidateCanonicalPath (Some (path_of (from_guest t from))) = 0.
Proof.
  intros H. destruct from as [[text|]|k]; [done|done|]. intros (tree & Hk & Ha). cbn [from_guest path_of default].
  rewrite (get_at (iv_trees _ _ H) _ _ Hk). destruct (get_entry (iv_trees _ _ H) _ _ Hk) as [Hf _].
  pose proof (attached_canonical tree Hf Ha) as Hc. apply canonical_storage_spec in Hc as [Hc _]. exact Hc.
Qed.

Lemma from_ok_kept t t' from : from_ok t from ->
  (forall x tree, get (mount_trees t) x = Some tree -> exists tree', get (mount_trees t') x = Some tree' /\ mt_state_flags tree' = mt_state_flags tree) ->
  from_ok t' from.
Proof.
  intros Hf Hk. destruct from as [text|k]; [done|]. destruct Hf as (tree & Ht & Ha). destruct (Hk k tree Ht) as (tree' & Ht' & E).
  exists tree'. split; [done|]. unfold tree_attached in *. by rewrite E.
Qed.

Section TreeLoop.
Context {M : Z} {t : PathStateTable} (ns sel : Z) (from : FromGuest) (to : Path).
Hypothesis Hto : ValidateCanonicalPath (Some to) = 0.
Hypothesis H : Inv (settled M) t.
Hypothesis Hns : ns < kPathStateMountNamespaceCapacity.

(** The paths that are rewritten are valid. *)
Lemma rewritten_path {g} t' buffer path : Inv g t' -> from_ok t' from -> canonical_storage path = true ->
  ValidateCanonicalPath (Some buffer) = 0 ->
  ValidateCanonicalPath (Some (rewrite_into buffer path (path_of (from_guest t' from)) to)) = 0.
Proof.
  intros H' Hf [Hp _]%canonical_storage_spec Hb. apply rewrite_canonical; [exact Hp|by apply (from_canonical _ H')|exact Hto|exact Hb].
Qed.

Definition TreesMoved (t' : PathStateTable) (buffer : Path) : Prop :=
  Inv (settled M) t' /\ others t' = others t /\ mount_namespaces t' = mount_namespaces t /\ mount_bindings t' = mount_bindings t /\
  from_ok t' from /\ ValidateCanonicalPath (Some buffer) = 0.

Lemma store_paths t' buffer k tree source attached : TreesMoved t' buffer -> get (mount_trees t') k = Some tree ->
  source = mt_source_guest tree \/ canonical_storage source = true ->
  attached = attached_target_guest tree \/ (tree_attached tree = true /\ canonical_storage attached = true) ->
  forall buffer', ValidateCanonicalPath (Some buffer') = 0 ->
  let t2 := store_tree t' k (set_tree_paths tree source attached) in
  TreesMoved t2 buffer' /\ get (mount_trees t2) k = Some (set_tree_paths tree source attached).
Proof.
  intros (HI & Ho & Hn & Hb & Hf & _) Hk Hs Ha buffer' Hb' t2. destruct (tree_paths_step k tree source attached HI Hk Hs Ha) as [H2 Hput].
  fold t2 in H2, Hput. split; [|by rewrite Hput, decide_True]. unfold TreesMoved. split_and!; try done.
  apply (from_ok_kept t'); [exact Hf|]. intros x tr Hx. rewrite Hput. destruct (decide _) as [->|]; [|by exists tr].
  eexists. split; [done|]. rewrite Hk in Hx. by injection Hx as <-.
Qed.

Lemma not_detached_at r : tree_fields r = true -> attached_namespace_slot r = ns -> tree_attached r = true.
Proof.
  intros Hf E. unfold tree_fields in Hf. destruct (tree_attached r); [done|]. apply andb_true_iff in Hf as [Hf Hc].
  destruct (tree_detached r); cbn [Bool.eqb negb] in Hf.
  - unfold invalid in Hc. apply andb_true_iff in Hc as [[Hc _]%andb_true_iff _]. apply Z.eqb_eq in Hc. rewrite E in Hc.
    unfold kInvalidPathStateSlot, kPathStateMountNamespaceCapacity, UINT32_MAX in *. lia.
  - rewrite andb_false_r in Hf. discriminate Hf.
Qed.

Lemma move_trees_step buffer : from_ok t from -> ValidateCanonicalPath (Some buffer) = 0 ->
  let out := move_trees ns sel from to t buffer in TreesMoved out.1 out.2.
Proof.
  intros Hfrom Hbuf. cbv zeta. unfold move_trees. set (body := fun slot '(t, rewritten) => _).
  apply (for_slots_ind (fun _ (st : PathStateTable * Path) => TreesMoved st.1 st.2)); [done|done|].
  intros k [t' buf] Hk HP. unfold body. clear body. cbn [fst snd] in *. pose proof HP as (HI & _ & _ & _ & Hf & Hb).
  pose proof (iv_trees _ _ HI) as Hok. set (tree := at_slot (mount_trees t') k). destruct (in_use tree) eqn:Hu; cbn [negb]; [|exact HP].
  apply (at_slot_get k Hok Hk) in Hu. fold tree in Hu. destruct (get_entry Hok _ _ Hu) as [Htf _].
  destruct (if mt_mount_namespace_slot tree =? ns then _ else false).
  - set (b1 := rewrite_into buf (mt_source_guest tree) (path_of (from_guest t' from)) to).
    assert (ValidateCanonicalPath (Some b1) = 0) as Hb1 by exact (rewritten_path t' _ _ HI Hf (source_canonical _ Htf) Hb).
    destruct (store_paths t' buf k tree (CopyPath (Some b1)) (attached_target_guest tree) HP Hu
      (or_intror (copied_canonical _ Hb1)) (or_introl eq_refl) b1 Hb1) as [HP1 Hg1].
    set (t1 := store_tree t' k _) in *. pose proof HP1 as (HI1 & _ & _ & _ & Hf1 & _).
    rewrite (get_at (iv_trees _ _ HI1) _ _ Hg1). destruct (get_entry (iv_trees _ _ HI1) _ _ Hg1) as [Htf1 _].
    set (tree1 := set_tree_paths tree _ _) in *. destruct (Z.eqb_spec (attached_namespace_slot tree1) ns) as [E|]; [|exact HP1].
    destruct (MountIdDescendsFrom t1 ns (attached_mount_id tree1) sel); [|exact HP1].
    pose proof (not_detached_at tree1 Htf1 E) as Hat.
    assert (ValidateCanonicalPath (Some (rewrite_into b1 (attached_target_guest tree1) (path_of (from_guest t1 from)) to)) = 0) as Hb2.
    { exact (rewritten_path t1 _ _ HI1 Hf1 (attached_canonical _ Htf1 Hat) Hb1). }
    by destruct (store_paths t1 b1 k tree1 (mt_source_guest tree1) _ HP1 Hg1 (or_introl eq_refl) (or_intror (conj Hat (copied_canonical _ Hb2))) _ Hb2).
  - fold tree. destruct (Z.eqb_spec (attached_namespace_slot tree) ns) as [E|]; [|exact HP].
    destruct (MountIdDescendsFrom t' ns (attached_mount_id tree) sel); [|exact HP].
    pose proof (not_detached_at tree Htf E) as Hat.
    assert (ValidateCanonicalPath (Some (rewrite_into buf (attached_target_guest tree) (path_of (from_guest t' from)) to)) = 0) as Hb2.
    { exact (rewritten_path t' _ _ HI Hf (attached_canonical _ Htf Hat) Hb). }
    by destruct (store_paths t' buf k tree (mt_source_guest tree) _ HP Hu (or_introl eq_refl) (or_intror (conj Hat (copied_canonical _ Hb2))) _ Hb2).
Qed.
End TreeLoop.

(** ** Contexts *)

(** A pair whose guest path is kept or replaced by another valid one. *)
Lemma kept_pair flags guest host p : origin_pair flags guest host = true ->
  p = guest \/ (exists q, p = CopyPath (Some q) /\ ValidateAbsolutePath (Some q) = 0) -> origin_pair flags p host = true.
Proof. intros Ho [->|(q & -> & Hq)]; [exact Ho|exact (origin_guest flags guest host q Ho Hq)]. Qed.

(** One context with other guest paths. *)
Lemma fs_paths_step {g t} k c cwd root generation : Inv g t -> get (fs_contexts t) k = Some c ->
  cwd = guest_cwd c \/ (exists p, cwd = CopyPath (Some p) /\ ValidateAbsolutePath (Some p) = 0) ->
  root = guest_root c \/ (exists p, root = CopyPath (Some p) /\ ValidateAbsolutePath (Some p) = 0) ->
  generation = fs_generation c \/ generation = NextGeneration (fs_generation c) ->
  Inv g (store_fs t k (set_fs_paths c cwd root generation)).
Proof.
  intros H Hk Hcwd Hroot Hgen. pose proof (iv_contexts _ _ H) as Hok. destruct (get_entry Hok _ _ Hk) as [Hf Hs].
  destruct g as [f d n h i xt xn m b]. apply (put_fs f k c _ H Hk); try done.
  - unfold fs_fields in *. cbn [set_fs_paths fs_generation cwd_origin_flags fs_reserved guest_cwd host_cwd root_origin_flags guest_root host_root].
    apply andb_true_iff in Hf as [[[[[Hg H1]%andb_true_iff H2]%andb_true_iff H3]%andb_true_iff H4]%andb_true_iff H5].
    assert (negb (zero generation) = true) as ->.
    { destruct Hgen as [->| ->]; [done|]. apply negb_true_iff, Z.eqb_neq, next_generation_nonzero. }
    rewrite (kept_pair _ _ _ _ H3 Hcwd), (kept_pair _ _ _ _ H5 Hroot).
    by rewrite H1, H2, H4.
  - exact (iv_fs_live _ _ H _ _ Hk).
  - intros x. cbn [set_fs_paths fs_refcount]. lia.
  - intros s' r Hr Hrs. apply (iv_known _ _ H _ _ c Hr). by rewrite Hrs.
Qed.

(** What the loop over the contexts leaves alone. *)
Definition besides_fs (t : PathStateTable) :=
  (tasks t, fd_tables t, fd_identities t, mount_namespaces t, mount_bindings t, mount_trees t).

Section ContextLoop.
Context {M : Z} {t : PathStateTable} (ns sel : Z) (from : FromGuest) (to : Path) (from_length : nat).
Hypothesis Hto : ValidateCanonicalPath (Some to) = 0.
Hypothesis H : Inv (settled M) t.

Definition absolute (p : Path) : Prop := ValidateAbsolutePath (Some p) = 0.

Lemma move_path_cases t' id path buffer : absolute buffer ->
  let out := move_path ns sel from to from_length t' id path buffer in
  absolute out.1.2 /\ (out.1.1 = path \/ exists p, out.1.1 = CopyPath (Some p) /\ absolute p).
Proof.
  intros Hb. cbv zeta. unfold move_path. destruct (if MountIdDescendsFrom _ _ _ _ then _ else false).
  - cbn [fst snd]. pose proof (rewrite_absolute buffer path (path_of (from_guest t' from)) to Hto Hb) as Ha.
    split; [exact Ha|right]. eexists. split; [reflexivity|exact Ha].
  - cbn [fst snd]. split; [exact Hb|by left].
Qed.

Lemma move_contexts_step buffer : absolute buffer ->
  let t' := move_contexts ns sel from to from_length t buffer in Inv (settled M) t' /\ besides_fs t' = besides_fs t.
Proof.
  intros Hbuf. cbv zeta. unfold move_contexts. set (body := fun slot '(t, rewritten, updated) => _).
  set (P := fun (k : Z) (st : PathStateTable * Path * list bool) => Inv (settled M) st.1.1 /\ besides_fs st.1.1 = besides_fs t /\ absolute st.1.2).
  set (st0 := (t, buffer, replicate (Z.to_nat kPathStateFsContextCapacity) false)).
  assert (P kPathStateTaskCapacity (for_slots kPathStateTaskCapacity body st0)) as HP.
  { apply (for_slots_ind P); [done|done|]. intros k [[t' buf] updated] Hk (HI & Hb & Ha). unfold body. clear body. cbn [fst snd] in *.
    set (task := task_of t' k). destruct (if task_of_namespace ns task then _ else true) eqn:E; [done|].
    assert (get (tasks t') k = Some task) as Htask.
    { unfold task_of_namespace in E. destruct (in_use task) eqn:Hu; [|done]. exact (at_slot_get k (iv_tasks _ _ HI) Hk Hu). }
    destruct (task_context HI _ _ Htask) as [c Hc]. rewrite (get_at (iv_contexts _ _ HI) _ _ Hc).
    pose proof (move_path_cases t' (cwd_mount_id c) (guest_cwd c) buf Ha) as Hcwd.
    destruct (move_path ns sel from to from_length t' (cwd_mount_id c) (guest_cwd c) buf) as [[cwd buf1] ch1]. destruct Hcwd as [Ha1 Hcwd].
    pose proof (move_path_cases t' (fs_root_mount_id c) (guest_root c) buf1 Ha1) as Hroot.
    destruct (move_path ns sel from to from_length t' (fs_root_mount_id c) (guest_root c) buf1) as [[root buf2] ch2]. destruct Hroot as [Ha2 Hroot].
    cbn [fst snd] in *. unfold P. cbn [fst snd]. split_and!; [|exact Hb|exact Ha2].
    apply fs_paths_step; [exact HI|exact Hc|exact Hcwd|exact Hroot|]. destruct (ch1 || ch2); [by right|by left]. }
  destruct HP as (P1 & P2 & _). exact (conj P1 P2).
Qed.
End ContextLoop.

(** ** The move *)

(** The checks passed: every target that moves has its new text. *)
Lemma move_error_bindings {g} t ns sel from to len x b : Inv g t -> move_error t ns sel from to len = 0 ->
  get (mount_bindings t) x = Some b -> moves t ns sel b = true -> substitution_error (target_guest b) from to = 0.
Proof.
  intros H He Hb Hm. unfold move_error in He. cbv zeta in He.
  set (errors := (fun b => if moves t ns sel b then substitution_error (target_guest b) from to else 0) <$> p_records (mount_bindings t)) in *.
  destruct (Z.eqb_spec (first_error errors) 0) as [E|E]; cbn [negb] in He; [|done].
  apply first_error_zero in E. rewrite Forall_forall in E. specialize (E (substitution_error (target_guest b) from to)).
  apply E. apply list_elem_of_fmap. exists b. rewrite Hm. split; [done|]. apply (get_entry_at (iv_bindings _ _ H)) in Hb as [Hi _].
  apply list_elem_of_lookup. by eexists.
Qed.

Lemma visible_parent_rises {g t} ns n target : Inv g t -> get (mount_namespaces t) ns = Some n -> g_open_namespace g <> Some ns ->
  exists k, rises (root_mount_id n) (parent_of (mount_bindings t) ns) k (VisibleParentMountId t ns target).
Proof.
  intros H Hn Ho. apply (parent_rises ns n (Build_MountBindingSpec 0 0 0 0 0 0 (Some target) None None) _ H Hn Ho).
  reflexivity.
Qed.

(** A mount that is not below the one that moves. *)
Lemma not_below {g t} ns n sel new : Inv g t -> get (mount_namespaces t) ns = Some n -> g_open_namespace g <> Some ns ->
  (exists k, rises (root_mount_id n) (parent_of (mount_bindings t) ns) k new) -> sel <> root_mount_id n ->
  moves_below_itself t ns sel new = false -> ~ below (root_mount_id n) (parent_of (mount_bindings t) ns) sel new.
Proof.
  intros H Hn Ho [k Hk] Hsel Hmv Hb. unfold moves_below_itself in Hmv. destruct (Z.eqb_spec new sel) as [|Hne]; [done|].
  assert (namespace_at t ns = n) as En by exact (get_at (iv_namespaces _ _ H) _ _ Hn). rewrite En in Hmv.
  destruct (Z.eqb_spec new (root_mount_id n)) as [E|E]; [subst new; inversion Hb as [|? q Hp]; congruence|].
  inversion Hk as [|? q k' _ Hq _]; subst; [done|]. pose proof Hq as Hf. rewrite parent_find in Hf. unfold FindMountBindingById in *.
  destruct (search _ _) as [s|] eqn:Es; [|done]. apply (search_Some (iv_bindings _ _ H)) in Es as (bd & Hbd & Es). bool_hyps.
  assert (binding_at t s = bd) as Eb by exact (get_at (iv_bindings _ _ H) _ _ Hbd). cbn [option_map] in Hf. rewrite Eb in Hmv, Hf. injection Hf as <-.
  apply not_true_iff_false in Hmv. apply Hmv. apply (binding_descends H Hn Ho s bd sel Hbd ltac:(lia)).
  inversion Hb as [|? q' _ Hq' Hb']; subst; [done|]. by simplify_eq.
Qed.

(** The selected mount under its new parent. *)
Lemma reparent {M t} ns n s bd new : Inv (settled M) t -> get (mount_namespaces t) ns = Some n -> get (mount_bindings t) s = Some bd ->
  mb_mount_namespace_slot bd = ns -> 0 < M ->
  (exists k, rises (root_mount_id n) (parent_of (mount_bindings t) ns) k new) ->
  ~ below (root_mount_id n) (parent_of (mount_bindings t) ns) (mount_id bd) new ->
  Inv (settled M) (put_binding t s (set_parent bd new M)).
Proof.
  intros H Hn Hs Hns HM [k0 Hk0] Hb. pose proof (iv_bindings _ _ H) as Hok. destruct (get_entry Hok _ _ Hs) as [Hf Hsl].
  set (bd' := set_parent bd new M). destruct (stays_in_use Hok s bd bd' Hs eq_refl) as [Hu Hle].
  apply (put_mount s bd bd' n H Hs); try done.
  - unfold bd', binding_fields in *. cbn [set_parent mb_kind mb_reserved mb_state_flags mount_id sequence target_guest mb_source_guest mb_source_host].
    assert (zero M = false) as -> by (apply Z.eqb_neq; lia). destruct (zero (sequence bd)); [|exact Hf].
    exfalso. cbn [negb] in Hf. rewrite andb_false_r in Hf. discriminate Hf.
  - by rewrite Hns.
  - intros _. rewrite Hns. pose proof (get_put Hok s bd bd' Hs Hu) as Hget.
    assert (pool_ok kPathStateMountBindingCapacity (fun r => binding_vacant r = true) (fun r => True) (put (mount_bindings t) s bd')) as Hok'.
    { assert (pool_ok kPathStateMountBindingCapacity (fun r => binding_vacant r = true) (fun r => True) (mount_bindings t)) as Hok0.
      { destruct Hok as [Hc [S1 S2 S3 S4] Hh]. split; [done| |done]. split; try done. intros i r Hi.
        destruct (S3 i r Hi) as [?|(? & ? & ?)]; [by left|right]. done. }
      apply (pool_ok_put Hok0 _ bd); try done. intros s' r0 Hg' E. apply (get_unique Hok _ _ _ _ Hg' Hs). exact E. }
    assert (forall x, x <> mount_id bd -> parent_of (put (mount_bindings t) s bd') ns x = parent_of (mount_bindings t) ns x) as Hother.
    { intros x Hx. apply option_eq. intros p. rewrite (parent_of_Some Hok), (parent_of_Some Hok'). split.
      - intros (y & r & Hr & E1 & E2 & E3). rewrite Hget in Hr. destruct (decide _) as [->|]; [|by exists y, r].
        injection Hr as <-. cbn in E2. congruence.
      - intros (y & r & Hr & E1 & E2 & E3). exists y, r. rewrite Hget. destruct (decide _) as [->|]; [|done]. congruence. }
    assert (parent_of (put (mount_bindings t) s bd') ns (mount_id bd) = Some new) as Hsel.
    { apply (parent_of_Some Hok'). exists s, bd'. rewrite Hget, decide_True by done. done. }
    assert (mount_id bd <> root_mount_id n) as Hne by (apply (iv_distinct _ _ H _ _ _ Hs); by rewrite Hns).
    intros x bd0 Hx E. rewrite Hget in Hx.
    assert (exists k, rises (root_mount_id n) (parent_of (mount_bindings t) ns) k (mount_id bd0)) as [k Hk].
    { destruct (decide _); [injection Hx as <-; exact (inv_rooted ns n H Hn ltac:(done) s bd Hs Hns)|exact (inv_rooted ns n H Hn ltac:(done) x bd0 Hx E)]. }
    exact (rises_reroot Hother Hsel k0 k (mount_id bd0) Hk0 Hb Hk).
Qed.

Lemma besides_fs_view {g t} t' tid : Inv g t -> besides_fs t' = besides_fs t -> does t tid (fun _ u => u) t'.
Proof.
  intros H E. injection E as Et _ Ei _ _ _. apply (does_unnamed tid (fun u => u) t' H). unfold view. by rewrite Et, Ei.
Qed.

Lemma move_mount_keeps m t tid from to : Inv (settled m) t -> 0 <= m < 2 ^ 64 - 1 -> from_ok t from \/ (exists p, from = Given p) ->
  keeps (fun t' => does t tid (fun _ u => u) t' /\ from_ok t' from) m t (MoveMountBinding t tid from to).
Proof.
  intros H Hm Hfo. unfold MoveMountBinding. destruct (_ || _); [by apply keeps_same|]. cbv zeta.
  destruct (Z.eqb_spec (ValidateCanonicalPath (from_guest t from)) 0) as [Ef|Ef].
  2:{ replace (ValidateCanonicalPath (from_guest t from) =? 0) with false by lia. cbn [negb]. by apply keeps_same. }
  destruct (Z.eqb_spec (ValidateCanonicalPath to) 0) as [Et|Et]; cbn [negb]; [|by apply keeps_same].
  assert (from_ok t from) as Hf0. { destruct Hfo as [?|[p ->]]; [done|exact Ef]. } clear Hfo.
  assert (ValidateCanonicalPath (Some (path_of to)) = 0) as Hto by (destruct to; [exact Et|discriminate Et]).
  pose proof (from_canonical from H Hf0) as Hfrom. set (text := path_of (from_guest t from)) in *.
  destruct (PathEquals text (path_of to)); [apply keeps_same; [done|intros _; split; [by apply (others_silent t tid H)|exact Hf0]]|].
  set (len := match PathLength (Some text) with inr l => l | inl _ => O end). destruct (PathPrefixMatches _ _ _); [by apply keeps_same|].
  apply (for_task_cases H (keeps _ m t)); [by apply keeps_same..|]. intros slot r Hr _ _. set (ns := pt_mount_namespace_slot r).
  destruct (task_namespace H _ _ Hr) as [n Hn]. fold ns in Hn.
  destruct (ResolveVisibleExactMount t ns text) as [s|] eqn:Es; [|by apply keeps_same].
  destruct (resolve_exact H _ _ _ Es) as (_ & bd & Hbd & Hat & Hbns & _). rewrite Hat.
  set (sel := mount_id bd). set (new := VisibleParentMountId t ns (path_of to)).
  destruct (moves_below_itself t ns sel new) eqn:Hmv; [by apply keeps_same|].
  destruct (Z.eqb_spec (move_error t ns sel text (path_of to) len) 0) as [Ee|Ee]; cbn [negb]; [|by apply keeps_same].
  pose proof (next_generation_task m t Hm (iv_current _ _ H)) as Egen. rewrite Egen.
  assert (Inv (settled (m + 1)) (NoteMutation t)) as H1 by (apply (weaken_bound (b := m)); [by apply note_mutation|lia]).
  assert (alike t (NoteMutation t)) as Hal1 by done.
  assert (forall x b, get (mount_bindings (NoteMutation t)) x = Some b -> moves (NoteMutation t) ns sel b = true ->
    substitution_error (target_guest b) (path_of (from_guest (NoteMutation t) from)) (path_of to) = 0) as Hok0.
  { intros x b Hb Hmvs. change (path_of (from_guest (NoteMutation t) from)) with text.
    pose proof (alike_moves H H1 Hal1 Hn Hn ltac:(done) ltac:(done) sel x b b Hb Hb Hmvs) as Hmv0.
    exact (move_error_bindings t ns sel text (path_of to) len x b H Ee Hb Hmv0). }
  pose proof (move_bindings_step ns sel from (path_of to) Hto (NoteMutation t) n s bd [] H1 Hn Hfrom Hok0 Hbd Hbns eq_refl) as HB.
  destruct (move_bindings ns sel from (path_of to) (NoteMutation t) []) as [t2 buf2]. destruct HB as (H2 & Ha2 & Ho2 & Hn2 & Ht2 & Hb2). cbn [fst snd] in *.
  assert (from_ok t2 from) as Hf2. { apply (from_ok_kept t); [exact Hf0|]. intros x tr Hx. exists tr. by rewrite Ht2. }
  pose proof (get_range (iv_namespaces _ _ H) _ _ Hn) as Rns.
  pose proof (move_trees_step (t := t2) ns sel from (path_of to) Hto H2 (proj2 Rns) buf2 Hf2 Hb2) as HT.
  destruct (move_trees ns sel from (path_of to) t2 buf2) as [t3 buf3]. destruct HT as (H3 & Ho3 & Hn3 & Hb3 & Hf3 & Hc3). cbn [fst snd] in *.
  destruct (move_contexts_step (t := t3) ns sel from (path_of to) len Hto H3 buf3 (canonical_absolute _ Hc3)) as [H4 E4].
  revert H4 E4. cbv zeta. generalize (move_contexts ns sel from (path_of to) len t3 buf3). intros t4 H4 E4.
  injection E4 as ET ED EI EN EB ER.
  assert (alike t t4) as Ha4. { intros x. rewrite EB, Hb3. exact (Ha2 x). }
  destruct (alike_at s bd Ha4 Hbd) as (bd4 & Hbd4 & [_ _ Q1 Q2 Q3]).
  assert (binding_at t4 s = bd4) as -> by exact (get_at (iv_bindings _ _ H4) _ _ Hbd4).
  assert (get (mount_namespaces t4) ns = Some n) as Hn4 by (rewrite EN, Hn3, Hn2; exact Hn).
  assert (forall x, parent_of (mount_bindings t4) ns x = parent_of (mount_bindings t) ns x) as Hpar by (intros x; exact (alike_parents H H4 Ha4 ns x)).
  destruct (visible_parent_rises ns n (path_of to) H Hn ltac:(done)) as [k Hk]. fold new in Hk.
  assert (sel <> root_mount_id n) as Hsr by (apply (iv_distinct _ _ H _ _ _ Hbd); by rewrite Hbns).
  pose proof (not_below ns n sel new H Hn ltac:(done) (ex_intro _ k Hk) Hsr Hmv) as Hnb.
  assert (Inv (settled (m + 1)) (put_binding t4 s (set_parent bd4 new (m + 1)))) as H5.
  { apply (reparent ns n); try done; [congruence|lia| |].
    - exists k. eapply rises_ext; [|exact Hk]. intros x. by rewrite Hpar.
    - rewrite Q2. intros Hb. apply Hnb. eapply below_ext; [|exact Hb]. intros x. by rewrite Hpar. }
  apply keeps_changed.
  - unfold namespace_at. change (mount_namespaces (put_binding t4 s (set_parent bd4 new (m + 1)))) with (mount_namespaces t4).
    rewrite (get_at (iv_namespaces _ _ H4) _ _ Hn4). by apply touch_step.
  - split; [|apply (from_ok_kept t3); [exact Hf3|]; intros x tree Hx; exists tree; split; [|done]; unfold put_namespace, put_binding;
      cbn [mount_trees with_namespaces with_bindings]; by rewrite ER].
    apply (does_unnamed tid (fun u => u) _ H). unfold view, put_namespace, put_binding. cbn [tasks fd_identities with_namespaces with_bindings].
    destruct (others_split _ _ Ho2) as (T2 & _ & _ & I2). destruct (others_split _ _ Ho3) as (T3 & _ & _ & I3).
    by rewrite ET, EI, T3, I3, T2, I2.
Qed.
