(* ===== verification/PathVisible.v ===== *)
(** * What a new mount makes visible

    The mount a path resolves to, before and after AddMountBinding: the target
    resolves to the new mount, the paths that are not below it to what they
    did, and removing the mount again gives the old resolution back. What
    ReverseMountPath finds TranslateMountPath takes back to the host path. *)

From S2P Require Import Prelude SlotArray SlotPool GuestPath GuestPathText PathState PathStorage PathStateOps PathTaskOps PathStateInv PathMounts PathTranslate PathViews PathSteps PathObjectSteps PathResolve PathReleases PathTaskInv PathMountSteps PathMountInv PathMoveInv.
From stdpp Require Import list.
#[local] Open Scope Z_scope.

(** The path is the target or below it. *)
Definition covers (target guest : Path) : bool :=
  match PathLength (Some target) with inr length => PathPrefixMatches guest target length | inl _ => false end.

Lemma covers_spec target guest ds cs : denotes target ds -> denotes guest cs ->
  covers target guest = true <-> exists suffix, cs = ds ++ suffix.
Proof. intros Ht Hg. unfold covers. rewrite (denotes_length _ _ Ht). by apply PathPrefixMatches_spec. Qed.

Lemma binding_canonical b : binding_fields b = true -> ValidateCanonicalPath (Some (target_guest b)) = 0 /\
  ValidateCanonicalPath (Some (mb_source_guest b)) = 0 /\ ValidateCanonicalPath (Some (mb_source_host b)) = 0.
Proof.
  unfold binding_fields. intros [[[_ [H1 _]%canonical_storage_spec]%andb_true_iff [H2 _]%canonical_storage_spec]%andb_true_iff
    [H3 _]%canonical_storage_spec]%andb_true_iff. done.
Qed.

Lemma child_length_covers ns guest p b n : child_length ns guest p b = Some n ->
  PathLength (Some (target_guest b)) = inr n /\ covers (target_guest b) guest = true.
Proof. intros (_ & _ & _ & _ & Hl & Hm)%child_facts. unfold covers. by rewrite Hl. Qed.

Lemma child_not_covering ns guest p b : covers (target_guest b) guest = false -> child_length ns guest p b = None.
Proof.
  intros Hc. destruct (child_length ns guest p b) as [n|] eqn:E; [|done]. apply child_length_covers in E as [_ E]. congruence.
Qed.

(** A longer prefix of the same path does not exist once one is the whole. *)
Lemma covers_shorter target other guest : ValidateCanonicalPath (Some guest) = 0 ->
  ValidateCanonicalPath (Some target) = 0 -> ValidateCanonicalPath (Some other) = 0 -> PathEquals target guest = true ->
  covers other guest = true -> exists n k, PathLength (Some target) = inr n /\ PathLength (Some other) = inr k /\ (k <= n)%nat /\
    (k = n -> PathEquals other guest = true).
Proof.
  intros [cs Hg]%canonical_components [ds Ht]%canonical_components [es Ho]%canonical_components He Hc.
  apply (PathEquals_spec _ _ ds cs Ht Hg) in He. subst ds. apply (covers_spec _ _ es cs Ho Hg) in Hc as [suffix E].
  exists (length (render cs)), (length (render es)). split; [by apply denotes_length|]. split; [by apply denotes_length|].
  assert (Forall component es /\ Forall component suffix) as [He Hs] by (rewrite <- Forall_app, <- E; apply Hg).
  assert (suffix = [] \/ (length (render es) < length (render cs))%nat \/ es = []) as Hcase.
  { destruct suffix as [|x suffix]; [by left|]. destruct es as [|e es]; [by right; right|right; left]. subst cs.
    cbn [app]. rewrite !render_joined, app_comm_cons, joined_app, length_app, (joined_cons x) by done. cbn [length]. lia. }
  destruct Hcase as [->|[Hlt| ->]].
  - rewrite app_nil_r in E. subst es. split; [done|]. intros _. by apply (PathEquals_spec _ _ cs cs Ho Hg).
  - split; [lia|]. lia.
  - cbn [app] in E. subst suffix. change (length (render [])) with 1%nat. destruct cs as [|c cs].
    + split; [done|]. intros _. by apply (PathEquals_spec _ _ [] [] Ho Hg).
    + assert (Forall component (c :: cs)) as Hcs by apply Hg. pose proof (joined_length _ Hcs ltac:(done)).
      rewrite render_joined by done. split; lia.
Qed.

(** ** Two tables with the same mounts *)

Section Same.
Context {g g' : Ghost} {t t' : PathStateTable}.
Hypothesis H : Inv g t.
Hypothesis H' : Inv g' t'.
Hypothesis Hget : forall x, get (mount_bindings t') x = get (mount_bindings t) x.

Lemma select_ext q : (forall s b, q s b <> None -> in_use b = true) -> select t' q = select t q.
Proof.
  intros Hq. pose proof (select_best_spec H q Hq) as Hs. pose proof (select_best_spec H' q Hq) as Hs'.
  destruct (select t q) as [[[s b] n]|], (select t' q) as [[[s' b'] n']|]; try done.
  - destruct Hs as (Hg & Hn & Hb), Hs' as (Hg' & Hn' & Hb'). rewrite Hget in Hg'.
    pose proof (Hb _ _ _ Hg' Hn') as Y. rewrite <- Hget in Hg. pose proof (Hb' _ _ _ Hg Hn) as Y'. rewrite Hget in Hg.
    assert (s' = s) as -> by (destruct Y, Y'; lia). simplify_eq. congruence.
  - destruct Hs as (Hg & Hn & _). rewrite <- Hget in Hg. by rewrite (Hs' _ _ Hg) in Hn.
  - destruct Hs' as (Hg' & Hn' & _). rewrite Hget in Hg'. by rewrite (Hs _ _ Hg') in Hn'.
Qed.

Lemma resolve_ext ns n n' guest : get (mount_namespaces t) ns = Some n -> get (mount_namespaces t') ns = Some n' ->
  root_mount_id n' = root_mount_id n -> ResolveVisibleMount t' ns guest = ResolveVisibleMount t ns guest.
Proof.
  intros Hn Hn' Er. unfold ResolveVisibleMount, namespace_at.
  rewrite (get_at (iv_namespaces _ _ H) _ _ Hn), (get_at (iv_namespaces _ _ H') _ _ Hn'), Er.
  generalize (root_mount_id n) (@None Z). generalize (Z.to_nat kPathStateMountBindingCapacity) as depth.
  induction depth as [|depth IH]; intros p sel; [done|]. cbn [resolve_loop]. rewrite select_ext.
  - destruct (select t _) as [[[s b] k]|]; [apply IH|done].
  - apply child_in_use.
Qed.
End Same.

(** ** One more mount *)

Section Mounted.
Context {t t' : PathStateTable} {ns slot : Z} {bd : MountBindingState}.
Hypothesis Hfree : get (mount_bindings t) slot = None.
Hypothesis Hget : forall x, get (mount_bindings t') x = if decide (x = slot) then Some bd else get (mount_bindings t) x.

Lemma best_more guest p s b : child_length ns guest p bd = None ->
  best_child (t := t) ns guest p s b -> best_child (t := t') ns guest p s b.
Proof.
  intros Hn (Hg & n & Hc & Hb). split; [rewrite Hget; destruct (decide _); [congruence|done]|]. exists n. split; [done|].
  intros s' b' n'. rewrite Hget. destruct (decide _) as [->|]; [intros [= <-]; congruence|apply Hb].
Qed.

Lemma uncovered_more guest p : child_length ns guest p bd = None -> uncovered (t := t) ns guest p -> uncovered (t := t') ns guest p.
Proof. intros Hn Hu s b. rewrite Hget. destruct (decide _) as [->|]; [by intros [= <-]|apply Hu]. Qed.

Lemma leads_more guest p sel r k : (forall q, child_length ns guest q bd = None) ->
  leads (t := t) ns guest p sel r k -> leads (t := t') ns guest p sel r k.
Proof.
  intros Hn. induction 1 as [p sel Hu|p sel s b r k Hb Hl IH]; [by constructor; apply uncovered_more|].
  econstructor; [|exact IH]. by apply best_more.
Qed.

(** The mounts a path passes. *)
Inductive passes (guest : Path) : Z -> Z -> Prop :=
| passes_here p : passes guest p p
| passes_on p s b q : best_child (t := t) ns guest p s b -> passes guest (mount_id b) q -> passes guest p q.

(** The last step of the way. *)
Lemma leads_last guest p sel r k : leads (t := t) ns guest p sel r k -> (r = sel /\ uncovered (t := t) ns guest p) \/
  exists s b, r = Some s /\ best_child (t := t) ns guest (parent_mount_id b) s b /\ uncovered (t := t) ns guest (mount_id b) /\
    passes guest p (parent_mount_id b) /\ passes guest p (mount_id b).
Proof.
  induction 1 as [p sel Hu|p sel s b r k Hb Hl IH]; [by left|]. right.
  assert (parent_mount_id b = p) as Hp by (destruct Hb as (_ & n & (_ & _ & ? & _)%child_facts & _); done).
  destruct IH as [(-> & Hu)|(s' & b' & -> & Hb' & Hu & P1 & P2)].
  - exists s, b. rewrite Hp. split_and!; [done..|constructor|]. econstructor; [exact Hb|constructor].
  - exists s', b'. split_and!; [done..| |]; by econstructor.
Qed.

(** A mount that is the best child where the path passes, with no child of its own. *)
Lemma leads_new guest n : child_length ns guest (parent_mount_id bd) bd = Some n ->
  (forall s' b' n', get (mount_bindings t) s' = Some b' -> child_length ns guest (parent_mount_id bd) b' = Some n' ->
    (n' <= n)%nat /\ sequence b' < sequence bd) ->
  uncovered (t := t') ns guest (mount_id bd) ->
  forall p sel, passes guest p (parent_mount_id bd) -> exists k, leads (t := t') ns guest p sel (Some slot) k.
Proof.
  intros Hn Hb Hu.
  assert (best_child (t := t') ns guest (parent_mount_id bd) slot bd) as Hnew.
  { split; [rewrite Hget; by rewrite decide_True|]. exists n. split; [done|]. intros s' b' n'. rewrite Hget. destruct (decide _) as [->|].
    - intros [= <-] E. rewrite Hn in E. injection E as <-. apply yields_refl.
    - intros Hg E. destruct (Hb _ _ _ Hg E). unfold yields. lia. }
  assert (forall sel, exists k, leads (t := t') ns guest (parent_mount_id bd) sel (Some slot) k) as Hend.
  { intros sel. exists 1%nat. econstructor; [exact Hnew|]. by constructor. }
  intros p sel Hp. remember (parent_mount_id bd) as q eqn:Eq. revert sel. induction Hp as [q|p s b q Hs Hp IH]; intros sel; [by apply Hend|].
  destruct (decide (p = q)) as [->|Hne]; [by apply Hend|]. destruct (IH Eq Hn Hb Hnew Hend (Some s)) as [k Hk]. exists (S k).
  econstructor; [|exact Hk]. apply best_more; [|done]. destruct (child_length ns guest p bd) as [k'|] eqn:E; [|done].
  apply child_facts in E as (_ & _ & Ep & _). congruence.
Qed.
End Mounted.

(** ** What a table knows of is numbered *)

Section Numbered.
Context {m : Z} {t : PathStateTable} {ns : Z} {n : MountNamespaceState}.
Hypothesis H : Inv (settled m) t.
Hypothesis Hn : get (mount_namespaces t) ns = Some n.

Lemma parent_old s b : get (mount_bindings t) s = Some b -> mb_mount_namespace_slot b = ns -> parent_mount_id b <= m.
Proof.
  intros Hb E. destruct (rooted_rank H Hn ltac:(done) s b Hb E) as (k & _ & Hr & _ & _). inversion Hr as [|? q k' _ Hq _]; subst.
  - exact (iv_roots _ _ H _ _ Hn).
  - apply (parent_of_Some (iv_bindings _ _ H)) in Hq as (x & r & Hx & _ & <- & _). exact (proj1 (iv_ids _ _ H _ _ Hx)).
Qed.

Lemma mounted_old id : mounted (mount_namespaces t) (mount_bindings t) ns id -> id <= m.
Proof.
  intros (r & Hr & [->|Hs]); [exact (iv_roots _ _ H _ _ Hr)|].
  destruct (parent_of (mount_bindings t) ns id) as [q|] eqn:E; [|done].
  apply (parent_of_Some (iv_bindings _ _ H)) in E as (x & b & Hx & _ & <- & _). exact (proj1 (iv_ids _ _ H _ _ Hx)).
Qed.

(** Whatever refers to a mount refers to a numbered one. *)
Lemma referred_old id : 0 <= m -> referred t ns id -> id <= m.
Proof.
  intros Hm [(x & r & c & Hx & Ens & Hc & Hid)|(x & tree & Hx & [[Ens Hid]|(Ha & Ens & Hid)])].
  - destruct (iv_known _ _ H _ _ _ Hx Hc) as [K1 K2]. rewrite Ens in K1, K2.
    assert (known (mount_namespaces t) (mount_bindings t) ns id) as [Hz|K%mounted_old] by (by destruct Hid as [->| ->]); lia.
  - pose proof (iv_source _ _ H _ _ Hx) as K. rewrite Ens, <- Hid in K. by apply mounted_old in K.
  - destruct (iv_attached _ _ H _ _ Hx Ha) as [K _]. rewrite Ens, <- Hid in K. by apply mounted_old in K.
Qed.
End Numbered.

Section AddedMount.
Context {m : Z} {t t' : PathStateTable} {ns : Z} {n : MountNamespaceState} {binding : MountBindingSpec} {slot : Z}.
Hypothesis H : Inv (settled m) t.
Hypothesis Hn : get (mount_namespaces t) ns = Some n.
Hypothesis H' : Inv (settled (m + 1)) t'.
Hypothesis HA : Added m t ns n binding slot t'.

Lemma added_mounts : exists parent, parent_for t ns binding = inr parent /\ get (mount_bindings t) slot = None /\
  forall x, get (mount_bindings t') x = if decide (x = slot) then Some (new_binding binding slot ns parent (m + 1)) else get (mount_bindings t) x.
Proof.
  destruct HA as [_ Hf _ _ _ (parent & Hp & Hb)]. exists parent. split; [done|]. pose proof (iv_bindings _ _ H) as Hok.
  split; [exact (proj1 (proj2 (find_free_Some Hok _ Hf)))|]. intros x. rewrite Hb. by apply (get_occupy Hok).
Qed.

Lemma added_namespace : exists n', get (mount_namespaces t') ns = Some n' /\ root_mount_id n' = root_mount_id n /\
  count_if (in_namespace ns) (mount_bindings t') = binding_count n + 1.
Proof.
  pose proof (ad_namespaces _ _ _ _ _ _ _ HA) as HN. exists (touch_namespace n (u32 (binding_count n + 1))).
  assert (get (mount_namespaces t') ns = Some (touch_namespace n (u32 (binding_count n + 1)))) as Hg.
  { rewrite HN. destruct (stays_in_use (iv_namespaces _ _ H) ns n (touch_namespace n (u32 (binding_count n + 1))) Hn eq_refl) as [Hu _].
    by rewrite (get_put (iv_namespaces _ _ H) _ _ _ Hn Hu), decide_True by done. }
  split_and!; [done..|]. destruct (mounts_small _ _ H Hn) as (_ & Hb & Hc). destruct (mounts_small _ _ H' Hg) as (<- & _ & _).
  cbn [touch_namespace binding_count]. rewrite u32_small; lia.
Qed.

(** No mount was below the new one before there was one. *)
Lemma new_mount_childless s b : get (mount_bindings t') s = Some b -> mb_mount_namespace_slot b = ns -> parent_mount_id b <> m + 1.
Proof.
  destruct added_mounts as (parent & Hp & Hfree & Hget). rewrite Hget. destruct (decide _) as [->|].
  - intros [= <-] _. cbn [new_binding parent_mount_id]. intros ->.
    destruct (parent_rises ns n binding _ H Hn ltac:(done) Hp) as [j Hj]. inversion Hj as [Er|? q k' _ Hq _]; subst.
    + pose proof (iv_roots _ _ H _ _ Hn) as Hroot. cbn in Hroot. lia.
    + apply (parent_of_Some (iv_bindings _ _ H)) in Hq as (x & r & Hx & _ & Hid & _). pose proof (proj1 (iv_ids _ _ H _ _ Hx)) as Hle. cbn in Hle. lia.
  - intros Hb Ens. pose proof (parent_old H Hn s b Hb Ens). lia.
Qed.

Lemma new_mount_bare guest : uncovered (t := t') ns guest (m + 1).
Proof.
  intros s b Hb. destruct (child_length ns guest (m + 1) b) as [k|] eqn:E; [|done].
  apply child_facts in E as (_ & Ens & Ep & _). by destruct (new_mount_childless s b Hb Ens).
Qed.

(** The new mount is where its target is looked for. *)
Lemma added_passes : ms_parent_mount_id binding = 0 -> binding_count n < kPathStateMountBindingCapacity ->
  exists parent, parent_for t ns binding = inr parent /\ passes (t := t) (ns := ns) (path_of (ms_target_guest binding)) (root_mount_id n) parent.
Proof.
  intros Hz Hc. unfold parent_for. rewrite Hz. cbn [Z.eqb]. eexists. split; [done|]. unfold VisibleParentMountId.
  assert (namespace_at t ns = n) as -> by exact (get_at (iv_namespaces _ _ H) _ _ Hn). set (target := path_of (ms_target_guest binding)).
  destruct (resolve_visible H ns n target Hn ltac:(done)) as [k Hk].
  { by destruct (mounts_small _ _ H Hn) as (<- & _). }
  destruct (leads_last _ _ _ _ _ Hk) as [[-> _]|(s & b & -> & (Hb & _) & _ & P1 & P2)]; [constructor|].
  assert (binding_at t s = b) as -> by exact (get_at (iv_bindings _ _ H) _ _ Hb). by destruct (PathEquals _ _).
Qed.

Lemma added_visible : ms_parent_mount_id binding = 0 -> binding_count n + 1 < kPathStateMountBindingCapacity ->
  ResolveVisibleMount t' ns (path_of (ms_target_guest binding)) = Some slot.
Proof.
  intros Hz Hc. destruct added_mounts as (parent & Hp & Hfree & Hget). destruct (added_passes Hz ltac:(lia)) as (parent' & Hp' & Hpass).
  assert (parent' = parent) as -> by congruence. set (target := path_of (ms_target_guest binding)) in *.
  set (bd := new_binding binding slot ns parent (m + 1)) in *. pose proof (ad_valid _ _ _ _ _ _ _ HA) as Hv.
  destruct (spec_valid binding Hv) as (_ & _ & Hd & Ht & _). destruct (ms_target_guest binding) as [p|] eqn:Etarget; [|discriminate Ht].
  change target with p in *. assert (target_guest bd = CopyPath (Some p)) as Etg by (unfold bd, new_binding; cbn [target_guest]; by rewrite Etarget).
  pose proof Ht as [cs Hcs]%canonical_components. destruct (copied_denotes p cs Hcs) as [Ecopy Hcopy].
  assert (child_length ns p parent bd = Some (length (render cs))) as Hlen.
  { unfold child_length. rewrite Etg, Ecopy, (denotes_length _ _ Hcopy). unfold bd, detached. cbn [new_binding in_use sr_occupied mb_occupied
      mb_mount_namespace_slot parent_mount_id mb_state_flags]. rewrite !Z.eqb_refl, Hd. cbn [negb orb].
    rewrite (proj2 (PathPrefixMatches_spec p (render cs) cs cs Hcs Hcopy)) by (exists []; by rewrite app_nil_r). done. }
  destruct added_namespace as (n' & Hn' & Er & Hcount).
  destruct (leads_new (t' := t') (bd := bd) Hfree Hget p (length (render cs)) Hlen) with (p := root_mount_id n) (sel := @None Z) as [k Hk].
  - intros s' b' n0 Hb' [Hl' Hc']%child_length_covers. split.
    + destruct (get_entry (iv_bindings _ _ H) _ _ Hb') as [Hf _]. destruct (binding_canonical _ Hf) as (Hcan & _).
      destruct (covers_shorter p (target_guest b') p Ht Ht Hcan) as (n1 & n2 & E1 & E2 & Hle & _); [by apply (PathEquals_spec _ _ cs cs)|done|].
      rewrite (denotes_length _ _ Hcs) in E1. rewrite Hl' in E2. simplify_eq. done.
    + pose proof (proj2 (iv_ids _ _ H _ _ Hb')) as Hle. cbn in Hle |- *. lia.
  - exact (new_mount_bare p).
  - exact Hpass.
  - destruct (resolve_visible H' ns n' p Hn' ltac:(done) ltac:(lia)) as [k' Hk']. rewrite Er in Hk'.
    by destruct (leads_fun _ _ _ _ _ _ Hk' _ _ Hk) as [-> _].
Qed.

(** A path that the target does not cover resolves as before. *)
Lemma added_silent guest : binding_count n + 1 < kPathStateMountBindingCapacity ->
  covers (CopyPath (ms_target_guest binding)) guest = false -> ResolveVisibleMount t' ns guest = ResolveVisibleMount t ns guest.
Proof.
  intros Hc Hno. destruct added_mounts as (parent & Hp & Hfree & Hget). destruct added_namespace as (n' & Hn' & Er & Hcount).
  destruct (resolve_visible H ns n guest Hn ltac:(done)) as [k Hk]; [destruct (mounts_small _ _ H Hn) as (<- & _); lia|].
  destruct (resolve_visible H' ns n' guest Hn' ltac:(done) ltac:(lia)) as [k' Hk']. rewrite Er in Hk'.
  refine (proj1 (leads_fun _ _ _ _ _ _ Hk' _ _ (leads_more Hfree Hget guest _ _ _ _ _ Hk))).
  intros q. by apply child_not_covering.
Qed.

(** *** Removing it again *)

Let marks := remove_slots t' ns (m + 1) 0.

Lemma new_mark x : 0 <= x < kPathStateMountBindingCapacity -> marks !!! Z.to_nat x = true <-> x = slot.
Proof.
  destruct added_mounts as (parent & Hp & Hfree & Hget). intros Hx. unfold marks. rewrite (removed_mark H' (m + 1) 0 x Hx). split.
  - intros (b & Hb & _ & _ & [Hid|[Hf _]]); [|done]. rewrite Hget in Hb. destruct (decide _) as [->|]; [done|].
    pose proof (proj1 (iv_ids _ _ H _ _ Hb)) as Hle. cbn in Hle. lia.
  - intros ->. eexists. rewrite Hget, decide_True by done. split_and!; [done..| |by left].
    destruct (spec_valid binding (ad_valid _ _ _ _ _ _ _ HA)) as (_ & _ & Hd & _). exact Hd.
Qed.

Lemma mark_selects id : MountIdIsSelected t' ns id marks = true -> id = m + 1.
Proof.
  intros (s & b & Hb & Hns & <- & Hm)%(selected_mark H'). pose proof (get_range (iv_bindings _ _ H') _ _ Hb) as Hr.
  apply (new_mark s Hr) in Hm as ->. destruct added_mounts as (parent & _ & _ & Hget). rewrite Hget, decide_True in Hb by done.
  by injection Hb as <-.
Qed.

Lemma new_mount_unreferred : 0 <= m -> ~ referred t' ns (m + 1).
Proof.
  intros Hm Href. apply (referred_same t) in Href; [|exact (ad_others _ _ _ _ _ _ _ HA)|exact (ad_trees _ _ _ _ _ _ _ HA)].
  apply (referred_old H) in Href; lia.
Qed.

Lemma trees_untouched retain : 0 <= m -> remove_from_trees t' ns marks retain = (t', retain).
Proof.
  intros Hm. unfold remove_from_trees. set (body := fun slot '(t, retain) => _).
  apply (for_slots_ind (fun _ st => st = (t', retain))); [done|done|]. intros k st Hk ->. unfold body. clear body.
  pose proof (iv_trees _ _ H') as Hok. destruct (in_use (at_slot (mount_trees t') k)) eqn:Hu; [|done]. cbn [negb].
  apply (at_slot_get k Hok Hk) in Hu. set (tree := at_slot (mount_trees t') k) in *.
  replace ((mt_mount_namespace_slot tree =? ns) && MountIdIsSelected t' ns (source_mount_id tree) marks) with false.
  2:{ destruct (Z.eqb_spec (mt_mount_namespace_slot tree) ns) as [Ens|]; [|done]. destruct (MountIdIsSelected _ _ _ _) eqn:E; [|done].
      apply mark_selects in E. destruct (new_mount_unreferred Hm). right. exists k, tree. split; [done|left]. by rewrite E. }
  destruct (Z.eqb_spec (attached_namespace_slot tree) ns) as [Ens|]; [|done].
  destruct (MountIdIsSelected t' ns (attached_mount_id tree) marks) eqn:E; [|done]. apply mark_selects in E.
  destruct (new_mount_unreferred Hm). right. exists k, tree. split; [done|right]. rewrite E. split_and!; [|done..].
  destruct (get_entry Hok _ _ Hu) as [Hf _]. destruct added_namespace as (n' & Hn' & _). pose proof (get_range (iv_namespaces _ _ H') _ _ Hn').
  apply (not_detached_at ns); [lia|done|done].
Qed.

Lemma nothing_pinned : 0 <= m -> pinned t' ns marks = false.
Proof.
  intros Hm. apply not_true_iff_false. unfold pinned. intros (r & Hin & Hr)%existsb_exists.
  apply list_elem_of_In, list_elem_of_lookup in Hin as [i Hi]. destruct (in_use r) eqn:Hu; [|done].
  destruct (Z.eqb_spec (pt_mount_namespace_slot r) ns) as [Ens|]; [|done]. cbn [andb] in Hr.
  assert (get (tasks t') (Z.of_nat i) = Some r) as Hg by (by apply (entry_at_get (iv_tasks _ _ H'))).
  destruct (task_context H' _ _ Hg) as [c Hc]. rewrite (get_at (iv_contexts _ _ H') _ _ Hc) in Hr.
  apply orb_true_iff in Hr. apply (new_mount_unreferred Hm). left. exists (Z.of_nat i), r, c. split_and!; [done..|].
  destruct Hr as [->%mark_selects| ->%mark_selects]; [by left|by right].
Qed.

Lemma nothing_below : has_children t' ns (m + 1) = false.
Proof.
  apply not_true_iff_false. unfold has_children. intros (b & Hin & Hb)%existsb_exists.
  apply list_elem_of_In, list_elem_of_lookup in Hin as [i Hi]. unfold of_namespace in Hb. destruct (in_use b) eqn:Hu; [|done].
  assert (get (mount_bindings t') (Z.of_nat i) = Some b) as Hg by (by apply (entry_at_get (iv_bindings _ _ H'))).
  apply andb_true_iff in Hb as [[Ens _]%andb_true_iff Hp]. apply (new_mount_childless _ b Hg); lia.
Qed.

Lemma added_exact : ms_parent_mount_id binding = 0 -> binding_count n + 1 < kPathStateMountBindingCapacity ->
  ResolveVisibleExactMount t' ns (path_of (ms_target_guest binding)) = Some slot /\ mount_id (binding_at t' slot) = m + 1.
Proof.
  intros Hz Hc. unfold ResolveVisibleExactMount. rewrite (added_visible Hz Hc). destruct added_mounts as (parent & _ & _ & Hget).
  assert (binding_at t' slot = new_binding binding slot ns parent (m + 1)) as ->.
  { apply (get_at (iv_bindings _ _ H')). by rewrite Hget, decide_True. }
  cbn [new_binding target_guest mount_id]. split; [|done]. destruct (spec_valid binding (ad_valid _ _ _ _ _ _ _ HA)) as (_ & _ & _ & Ht & _).
  destruct (ms_target_guest binding) as [p|]; [|discriminate Ht]. pose proof Ht as [cs Hcs]%canonical_components.
  destruct (copied_denotes p cs Hcs) as [-> Hcopy]. change (path_of (Some p)) with p. by rewrite (proj2 (PathEquals_spec _ _ cs cs Hcopy Hcs) eq_refl).
Qed.

Lemma added_removed tid x : 0 <= m < 2 ^ 64 - 2 -> FindTaskUnchecked t' tid = Some x -> 0 < tid ->
  pt_mount_namespace_slot (task_of t' x) = ns ->
  ms_parent_mount_id binding = 0 -> binding_count n + 1 < kPathStateMountBindingCapacity ->
  exists t2, RemoveMountBinding t' tid (ms_target_guest binding) 0 = (0, Some (m + 1), t2) /\
    (forall s, get (mount_bindings t2) s = get (mount_bindings t) s) /\ others t2 = others t /\ mount_trees t2 = mount_trees t /\
    (exists n2, get (mount_namespaces t2) ns = Some n2 /\ root_mount_id n2 = root_mount_id n) /\ exists m2, Inv (settled m2) t2.
Proof.
  intros Hm Hx Htid Hns Hz Hc. destruct (added_exact Hz Hc) as [Hexact Hid]. destruct added_namespace as (n' & Hn' & Er & _).
  destruct (spec_valid binding (ad_valid _ _ _ _ _ _ _ HA)) as (_ & _ & _ & Ht & _).
  unfold RemoveMountBinding, for_task. rewrite (initialized H'), Ht, Hx, Hns, Hexact, Hid, nothing_below.
  replace (tid <=? 0) with false by lia. cbn [negb orb andb Z.eqb Z.land]. change (has 0 kMountRemoveDetached) with false. fold marks.
  rewrite trees_untouched, nothing_pinned by lia. cbn [orb]. rewrite drop_erases.
  destruct (erase_marks_closed marks t' ns n' H' Hn') as [H2 [_ Hget2 (c & Hc2) _ Ho2 Ht2]].
  - intros y Hy ->%(new_mark y Hy). destruct added_mounts as (parent & _ & _ & Hget). eexists. rewrite Hget, decide_True by done.
    split_and!; [done..|]. apply new_mount_unreferred. lia.
  - intros y b z b' Hb Ens _ Hb' Ens' Hz'. pose proof (get_range (iv_bindings _ _ H') _ _ Hb') as Rz. apply (new_mark z Rz) in Hz' as ->.
    destruct added_mounts as (parent & _ & _ & Hget). rewrite Hget, decide_True in Hb' by done. injection Hb' as <-.
    exact (new_mount_childless y b Hb Ens).
  - revert H2 Hget2 Hc2 Ho2 Ht2. generalize (erase_marks marks t'). intros t2 H2 Hget2 Hc2 Ho2 Ht2.
    destruct (ends (m + 1) t' t2 ns _ tid H' ltac:(lia) H2 Ho2 Hc2) as (_ & _ & m2 & _ & HI). cbv zeta in HI. cbn [snd] in HI.
    assert (namespace_at t2 ns = set_namespace_counts n' (mn_refcount n') c (task_refcount n') (handle_refcount n')) as En
      by exact (get_at (iv_namespaces _ _ H2) _ _ Hc2).
    rewrite En in *. eexists. split; [reflexivity|]. split_and!; [| | | |by exists m2].
    + intros s. cbn [mount_bindings NoteMutation put_namespace with_namespaces]. rewrite Hget2.
      destruct added_mounts as (parent & _ & Hfree & Hget). destruct (decide (s = slot)) as [->|Hne].
      * rewrite Hfree. destruct (get_range (iv_bindings _ _ H') slot (new_binding binding slot ns parent (m + 1))) as [R1 R2]; [by rewrite Hget, decide_True|].
        replace (slot <? _) with true by lia. by rewrite (proj2 (new_mark slot (conj R1 R2)) eq_refl).
      * destruct (Z.ltb_spec s kPathStateMountBindingCapacity) as [Hs|]; cbn [andb]; [|by rewrite Hget, decide_False].
        destruct (decide (0 <= s)) as [Hs0|]; [|rewrite !get_negative by lia; by destruct (_ !!! _)].
        destruct (marks !!! Z.to_nat s) eqn:Em; [by apply (new_mark s (conj Hs0 Hs)) in Em|by rewrite Hget, decide_False].
    + transitivity (others t'); [exact Ho2|exact (ad_others _ _ _ _ _ _ _ HA)].
    + transitivity (mount_trees t'); [exact Ht2|exact (ad_trees _ _ _ _ _ _ _ HA)].
    + set (n2 := touch_namespace _ _). exists n2. split; [|exact Er]. unfold put_namespace. cbn [mount_namespaces NoteMutation with_namespaces].
      destruct (stays_in_use (iv_namespaces _ _ H2) ns _ n2 Hc2 eq_refl) as [Hu _].
      rewrite (get_put (iv_namespaces _ _ H2) _ _ _ Hc2 Hu), decide_True by done. reflexivity.
Qed.
End AddedMount.

(** ** Host paths back to guest paths *)

Section Reverse.
Context {g : Ghost} {t : PathStateTable}.
Hypothesis H : Inv g t.

(** Only the mounts in use matter to a selection. *)
Lemma select_agree q q' : (forall s b, q s b <> None -> in_use b = true) -> (forall s b, q' s b <> None -> in_use b = true) ->
  (forall s b, get (mount_bindings t) s = Some b -> q' s b = q s b) -> select t q' = select t q.
Proof.
  intros Hq Hq' He. pose proof (select_best_spec H q Hq) as Hs. pose proof (select_best_spec H q' Hq') as Hs'.
  destruct (select t q) as [[[s b] n]|], (select t q') as [[[s' b'] n']|]; try done.
  - destruct Hs as (Hg & Hn & Hb), Hs' as (Hg' & Hn' & Hb').
    pose proof Hn' as Hm. rewrite (He _ _ Hg') in Hm. pose proof (Hb _ _ _ Hg' Hm) as Y.
    pose proof Hn as Hm'. rewrite <- (He _ _ Hg) in Hm'. pose proof (Hb' _ _ _ Hg Hm') as Y'.
    assert (s' = s) as -> by (destruct Y, Y'; lia). simplify_eq. congruence.
  - destruct Hs as (Hg & Hn & _). rewrite <- (He _ _ Hg), (Hs' _ _ Hg) in Hn. done.
  - destruct Hs' as (Hg' & Hn' & _). rewrite (He _ _ Hg'), (Hs _ _ Hg') in Hn'. done.
Qed.

(** The resolution depends on the text of the path. *)
Lemma resolve_text ns p q cs : denotes p cs -> denotes q cs -> ResolveVisibleMount t ns q = ResolveVisibleMount t ns p.
Proof.
  intros Hp Hq. unfold ResolveVisibleMount. generalize (root_mount_id (namespace_at t ns)) (@None Z).
  generalize (Z.to_nat kPathStateMountBindingCapacity) as depth.
  induction depth as [|depth IH]; intros parent sel; [done|]. cbn [resolve_loop].
  rewrite (select_agree (fun _ => child_length ns p parent)); [destruct (select t _) as [[[s b] k]|]; [apply IH|done]|apply child_in_use..|].
  intros s b Hb. unfold child_length. destruct (_ || _); [done|]. destruct (get_entry (iv_bindings _ _ H) _ _ Hb) as [Hf _].
  destruct (binding_canonical _ Hf) as ([ds Hds]%canonical_components & _). rewrite (denotes_length _ _ Hds).
  assert (PathPrefixMatches q (target_guest b) (length (render ds)) = PathPrefixMatches p (target_guest b) (length (render ds))) as ->; [|done].
  apply eq_true_iff_eq. by rewrite (PathPrefixMatches_spec q _ cs ds Hq Hds), (PathPrefixMatches_spec p _ cs ds Hp Hds).
Qed.

(** Both substitutions of a translation, once there is a way back. *)
Lemma both_substituted tr guest host target source_guest source_host :
  ValidateCanonicalPath (Some host) = 0 -> ValidateCanonicalPath (Some target) = 0 ->
  ValidateCanonicalPath (Some source_guest) = 0 -> ValidateCanonicalPath (Some source_host) = 0 ->
  SubstitutePathPrefix host source_host target = inr guest ->
  ValidateCanonicalPath (Some guest) = 0 /\
  ((exists guest', substitute_both tr guest target source_guest source_host = (ENAMETOOLONG, guest')) \/
   exists tr', substitute_both tr guest target source_guest source_host = (0, tr') /\ same_text (tr_host_path tr') host).
Proof.
  intros Hh Ht Hsg Hsh E. destruct (substitute_back _ _ _ _ Hh Hsh Ht E) as [Hc (back & Hb & Hsame)]. split; [exact Hc|].
  unfold substitute_both. destruct (SubstitutePathPrefix guest target source_guest) as [error|out] eqn:Eo.
  - left. exists tr. by rewrite (substitute_error _ _ _ _ _ _ Hc Ht Hsg Hsh Hb Eo).
  - right. rewrite Hb. eexists. split; [reflexivity|exact Hsame].
Qed.

(** The output of a substitution is stored as it is. *)
Lemma substituted_copy path from to out : ValidateCanonicalPath (Some path) = 0 -> ValidateCanonicalPath (Some from) = 0 ->
  ValidateCanonicalPath (Some to) = 0 -> SubstitutePathPrefix path from to = inr out -> CopyPath (Some out) = out.
Proof.
  intros [cs Hp]%canonical_components [ds Hf]%canonical_components [es Ht]%canonical_components Hs.
  pose proof (substitute_exact _ _ _ _ _ _ Hp Hf Ht) as Hspec. rewrite Hs in Hspec. destruct Hspec as (s & _ & -> & Hd).
  exact (proj1 (copied_denotes _ _ Hd)).
Qed.

Lemma slash_canonical : ValidateCanonicalPath (Some [SLASH]) = 0.
Proof. vm_compute. reflexivity. Qed.

Lemma find_path_task tid slot : FindPathTask t tid = Some slot -> exists n, namespace_at t (pt_mount_namespace_slot (task_of t slot)) = n /\
  get (mount_namespaces t) (pt_mount_namespace_slot (task_of t slot)) = Some n.
Proof.
  unfold FindPathTask, FindTaskUnchecked. destruct (_ || _); [done|]. intros (r & Hr & _)%(search_Some (iv_tasks _ _ H)).
  assert (task_of t slot = r) as -> by exact (get_at (iv_tasks _ _ H) _ _ Hr).
  destruct (task_namespace H _ _ Hr) as [n Hn]. exists n. split; [|done]. exact (get_at (iv_namespaces _ _ H) _ _ Hn).
Qed.

Lemma namespace_canonical s n : get (mount_namespaces t) s = Some n ->
  ValidateCanonicalPath (Some (root_source_guest n)) = 0 /\ ValidateCanonicalPath (Some (root_source_host n)) = 0.
Proof.
  intros Hn. destruct (get_entry (iv_namespaces _ _ H) _ _ Hn) as [Hf _]. unfold namespace_fields in Hf.
  apply andb_true_iff in Hf as [[_ H1]%andb_true_iff H2]. unfold zero in H1, H2. by apply Z.eqb_eq in H1, H2.
Qed.

(** The root mount is selected only when the paths differ and it leads back. *)
Lemma root_selected_spec ns n host selected guest : namespace_at t ns = n -> root_selected t ns host selected = Some guest ->
  NamespaceRootChanged n = true /\ SubstitutePathPrefix host (root_source_host n) [SLASH] = inr guest /\ ResolveVisibleMount t ns guest = None.
Proof.
  intros En. unfold root_selected, ReverseRootRoundTrips. rewrite En. destruct (NamespaceRootChanged n); [|done].
  destruct (match selected with None => true | Some _ => _ end); [|done]. destruct (PathPrefixMatches _ _ _); [|done].
  destruct (SubstitutePathPrefix _ _ _) as [|out]; [done|]. destruct (ResolveVisibleMount t ns out) eqn:E; [done|]. by intros [= <-].
Qed.

Lemma source_length_spec ns host s b k : get (mount_bindings t) s = Some b -> source_length t ns host s b = Some k ->
  exists guest, SubstitutePathPrefix host (mb_source_host b) (target_guest b) = inr guest /\ ResolveVisibleMount t ns guest = Some s.
Proof.
  intros Hb. unfold source_length, ReverseBindingRoundTrips. destruct (_ && _); [|done].
  assert (binding_at t s = b) as -> by exact (get_at (iv_bindings _ _ H) _ _ Hb).
  destruct (SubstitutePathPrefix _ _ _) as [|guest]; [done|]. destruct (ResolveVisibleMount t ns guest) as [s'|] eqn:E; [|done].
  destruct (Z.eqb_spec s' s) as [->|]; [|done]. intros _. by exists guest.
Qed.

Lemma source_in_use ns host s b : source_length t ns host s b <> None -> in_use b = true.
Proof. unfold source_length, of_namespace. by destruct (in_use b). Qed.

Lemma reversed_translates tid host tr0 tr1 tr :
  ReverseMountPath t tid (Some host) (Some tr0) = (0, Some tr) -> tr_matched tr <> 0 ->
  fst (TranslateMountPath t tid (Some (tr_guest_path tr)) (Some tr1)) = ENAMETOOLONG \/
  exists tr', TranslateMountPath t tid (Some (tr_guest_path tr)) (Some tr1) = (0, Some tr') /\
    same_text (tr_host_path tr') host /\ tr_mount_id tr' = tr_mount_id tr.
Proof.
  unfold ReverseMountPath, TranslateMountPath. cbn [is_null]. destruct (_ || _ || _); [done|].
  destruct (Z.eqb_spec (ValidateCanonicalPath (Some host)) 0) as [Hh|Hh]; cbn [negb]; [|intros [= ? _]; done].
  destruct (FindPathTask t tid) as [slot|] eqn:Et; [|done]. change (path_of (Some host)) with host. cbv zeta.
  destruct (find_path_task tid slot Et) as (n & -> & Hn). set (ns := pt_mount_namespace_slot (task_of t slot)) in *.
  assert (namespace_at t ns = n) as En by exact (get_at (iv_namespaces _ _ H) _ _ Hn).
  destruct (root_selected t ns host (select t (source_length t ns host))) as [guest|] eqn:Er.
  - destruct (root_selected_spec ns n host _ guest En Er) as (Hch & Hs & Hres). destruct (namespace_canonical ns n Hn) as [Hsg Hsh].
    rewrite (substituted_copy _ _ _ _ Hh Hsh slash_canonical Hs). intros [= <-] _. cbn [FillTranslationMetadata with_paths tr_guest_path tr_mount_id].
    destruct (both_substituted (with_paths InitializeTranslation (CopyPath (Some guest)) (tr_host_path InitializeTranslation)) guest host [SLASH] (root_source_guest n) (root_source_host n) Hh slash_canonical Hsg Hsh Hs) as [Hc Hboth].
    rewrite Hc. cbn [Z.eqb negb]. change (path_of (Some guest)) with guest. rewrite Hres, Hch. cbn [negb].
    destruct Hboth as [[tr' ->]|(tr' & -> & Hsame)]; [by left|right]. eexists. split; [reflexivity|]. done.
  - pose proof (select_best_spec H (source_length t ns host) (source_in_use ns host)) as Hs.
    destruct (select t (source_length t ns host)) as [[[s b] k]|]; [|by intros [= <-]]. destruct Hs as (Hb & Hk & _).
    destruct (source_length_spec ns host s b k Hb Hk) as (guest & Hsub & Hres). rewrite Hsub.
    destruct (get_entry (iv_bindings _ _ H) _ _ Hb) as [Hf _]. destruct (binding_canonical _ Hf) as (Ht & Hsg & Hsh).
    intros [= <-] _. cbn [FillTranslationMetadata with_paths tr_guest_path tr_mount_id].
    destruct (both_substituted InitializeTranslation guest host (target_guest b) (mb_source_guest b) (mb_source_host b) Hh Ht Hsg Hsh Hsub) as [Hc Hboth].
    rewrite Hc. cbn [Z.eqb negb]. change (path_of (Some guest)) with guest. rewrite Hres.
    assert (binding_at t s = b) as -> by exact (get_at (iv_bindings _ _ H) _ _ Hb).
    destruct Hboth as [[tr' ->]|(tr' & -> & Hsame)]; [by left|right]. eexists. split; [reflexivity|]. done.
Qed.
End Reverse.
