(* ===== verification/PathPivotInv.v ===== *)
(** * pivot_root keeps the invariant

    PivotRootMountNamespace: the record of the new root becomes the one of the
    old root below the put-old directory, the two exchange their identifiers'
    roles, and every mount of the namespace still has a way to its root. *)

From S2P Require Import Prelude SlotArray SlotPool GuestPath GuestPathText PathState PathStorage PathStateOps PathTaskOps PathFdOps PathMounts PathTranslate PathMountMoves PathStateInv PathViews PathSteps PathObjectSteps PathResolve PathReleases PathCopies PathTaskInv PathMountSteps PathMountInv PathMoveInv PathVisible.
From stdpp Require Import list.
#[local] Open Scope Z_scope.

(** ** The targets *)

Lemma rewrite_done buffer path from to : substitution_error path from to = 0 -> ValidateCanonicalPath (Some path) = 0 ->
  ValidateCanonicalPath (Some from) = 0 -> ValidateCanonicalPath (Some to) = 0 ->
  ValidateCanonicalPath (Some (rewrite_into buffer path from to)) = 0.
Proof.
  unfold substitution_error, rewrite_into. intros He Hp Hf Ht. destruct (SubstitutePathPrefix path from to) as [e|out] eqn:E.
  - subst e. pose proof (substitution_never_zero path from to). congruence.
  - exact (substituted_canonical _ _ _ _ Hp Hf Ht E).
Qed.

Section Bindings.
Context {M : Z} {t : PathStateTable} {ns s : Z} {n : MountNamespaceState} {b0 : MountBindingState} {below : list bool} {root visible : Path}.
Hypothesis H : Inv (settled M) t.
Hypothesis Hs : get (mount_bindings t) s = Some b0.
Hypothesis Hroot : ValidateCanonicalPath (Some root) = 0.
Hypothesis Hvisible : ValidateCanonicalPath (Some visible) = 0.
Hypothesis Hok0 : forall x b, get (mount_bindings t) x = Some b -> mb_mount_namespace_slot b = ns -> x <> s ->
  pivot_substitute substitution_error (below !!! Z.to_nat x) b root visible = 0.

Lemma pivot_text buffer x b : get (mount_bindings t) x = Some b -> mb_mount_namespace_slot b = ns -> x <> s ->
  ValidateCanonicalPath (Some (pivot_substitute (rewrite_into buffer) (below !!! Z.to_nat x) b root visible)) = 0.
Proof.
  intros Hb Hns Hne. specialize (Hok0 x b Hb Hns Hne). destruct (get_entry (iv_bindings _ _ H) _ _ Hb) as [Hf _].
  destruct (binding_canonical b Hf) as [Hc _]. unfold pivot_substitute in *.
  destruct (below !!! Z.to_nat x); apply rewrite_done; done || exact slash_canonical.
Qed.

Lemma pivot_bindings_step : let t' := pivot_bindings t ns s below root visible in
  Inv (settled M) t' /\ alike t t' /\ others t' = others t /\ mount_namespaces t' = mount_namespaces t /\
  mount_trees t' = mount_trees t /\ get (mount_bindings t') s = Some b0.
Proof.
  cbv zeta. unfold pivot_bindings. set (body := fun slot '(t, rewritten) => _).
  set (P := fun k (st : PathStateTable * Path) => Inv (settled M) st.1 /\ alike t st.1 /\ others st.1 = others t /\
    mount_namespaces st.1 = mount_namespaces t /\ mount_trees st.1 = mount_trees t /\
    (forall x, k <= x \/ x = s -> get (mount_bindings st.1) x = get (mount_bindings t) x)).
  assert (P kPathStateMountBindingCapacity (for_slots kPathStateMountBindingCapacity body (t, []))) as (P1 & P2 & P3 & P4 & P5 & P6).
  { apply (for_slots_ind P); [done|done|]. intros k [t' buf] Hk (HI & Ha & Ho & Hns & Ht & Hlater). unfold body. clear body. cbn [fst snd] in *.
    pose proof (iv_bindings _ _ HI) as Hok. set (b := binding_at t' k). destruct (negb (of_namespace ns b) || (k =? s)) eqn:E.
    { unfold P. cbn [fst snd]. split_and!; try done. intros x Hx. apply Hlater. lia. }
    apply orb_false_iff in E as [Hof Hks]. apply negb_false_iff in Hof. unfold of_namespace in Hof. apply andb_true_iff in Hof as [Hu Hbns].
    assert (get (mount_bindings t') k = Some b) as Hb by exact (at_slot_get k Hok Hk Hu).
    assert (get (mount_bindings t) k = Some b) as Hb0 by (rewrite <- Hlater; [done|lia]).
    pose proof (pivot_text buf k b Hb0 ltac:(lia) ltac:(lia)) as Hc. revert Hc.
    generalize (pivot_substitute (rewrite_into buf) (below !!! Z.to_nat k) b root visible). intros out Hc.
    destruct (get_entry Hok _ _ Hb) as [Hf _]. assert (SameMount b (set_target b (CopyPath (Some out)))) as Hsm by done.
    destruct (stays_in_use Hok k b (set_target b (CopyPath (Some out))) Hb eq_refl) as [Hu' _].
    pose proof (get_put Hok k b _ Hb Hu') as Hput. unfold P. cbn [fst snd]. split_and!; try done.
    - apply (same_mount_step k b); try done; [exact (proj2 (iv_ids _ _ HI _ _ Hb))|by apply target_fields].
    - etransitivity; [exact Ha|]. by apply (alike_put k b).
    - intros x Hx. unfold put_binding. cbn [mount_bindings with_bindings]. rewrite Hput, decide_False by lia. apply Hlater. lia. }
  refine (conj P1 (conj P2 (conj P3 (conj P4 (conj P5 _))))). rewrite P6 by (by right). exact Hs.
Qed.
End Bindings.

(** ** The exchange *)

Lemma origin_host flags guest host host' : origin_pair flags guest host = true -> ValidateAbsolutePath (Some host') = 0 ->
  origin_pair flags guest (CopyPath (Some host')) = true.
Proof.
  unfold origin_pair. intros Ho Hg. apply andb_true_iff in Ho as [[[Hb Hv]%andb_true_iff Hp]%andb_true_iff Hh].
  rewrite Hb, Hp, copied_padded. unfold zero in *. apply Z.eqb_eq in Hv. rewrite andb_true_l, !andb_true_r.
  destruct (both_flags _ Hb) as [B1 B2]. apply Z.eqb_eq. unfold ValidateOrigin in *. rewrite B1, B2 in *.
  destruct (negb _); [done|]. destruct (_ && _); [done|]. rewrite (copied_absolute _ Hg).
  destruct (Z.eqb_spec (ValidateAbsolutePath (Some guest)) 0); cbn [negb Z.eqb] in *; [done|congruence].
Qed.

(** With the roles of the root and of one mount exchanged, the ways end at the new root. *)
Lemma rises_exchanged old new P Q k p : rises old P k p ->
  (forall x, x <> old -> x <> new -> Q x = P x) -> Q old = Some new -> old <> new -> exists k', rises new Q k' p.
Proof.
  intros Hk Hother Hold Hne. induction Hk as [|p q k Hp Hq _ [k' IH]].
  - exists 1%nat. econstructor; [exact Hne|exact Hold|constructor].
  - destruct (decide (p = new)) as [->|Hpn]; [exists O; constructor|]. exists (S k'). econstructor; [done| |exact IH]. by rewrite Hother.
Qed.

Lemma pivoted_fields b n M visible : namespace_fields n = true -> M <> 0 -> zero (mb_reserved b) = true ->
  ValidateCanonicalPath (Some visible) = 0 -> binding_fields (pivoted_binding b n M visible) = true.
Proof.
  unfold namespace_fields. intros [[[[[[_ _]%andb_true_iff Hr]%andb_true_iff _]%andb_true_iff _]%andb_true_iff Hg]%andb_true_iff Hh]%andb_true_iff HM Hz Hv.
  unfold zero in Hg, Hh. apply Z.eqb_eq in Hg, Hh. unfold binding_fields.
  cbn [pivoted_binding mb_kind mb_reserved mb_state_flags mount_id sequence target_guest mb_source_guest mb_source_host].
  rewrite (copied_canonical _ Hv), (copied_canonical _ Hg), (copied_canonical _ Hh), Hz, Hr.
  assert (zero M = false) as -> by (unfold zero; lia). reflexivity.
Qed.

Lemma pivoted_namespace_fields n b : namespace_fields n = true -> binding_fields b = true -> namespace_fields (pivoted_namespace n b) = true.
Proof.
  unfold namespace_fields. intros [[[[[[_ Hi]%andb_true_iff _]%andb_true_iff Hz]%andb_true_iff Ho]%andb_true_iff _]%andb_true_iff _]%andb_true_iff Hb.
  destruct (binding_canonical b Hb) as (_ & Hg & Hh). pose proof (canonical_copy _ Hg) as Hg'. pose proof (canonical_copy _ Hh) as Hh'.
  cbn [pivoted_namespace mn_generation mn_identity_generation root_mount_id mn_reserved mn_root_origin_flags root_source_guest root_source_host].
  rewrite Hi, Hz. assert (zero (NextGeneration (mn_generation n)) = false) as -> by apply Z.eqb_neq, next_generation_nonzero.
  assert (zero (mount_id b) = false) as ->.
  { unfold binding_fields in Hb. apply andb_true_iff in Hb as [[[[[_ Hm]%andb_true_iff _]%andb_true_iff _]%andb_true_iff _]%andb_true_iff _].
    by apply negb_true_iff in Hm. }
  unfold zero in *. apply Z.eqb_eq in Hz. rewrite Hg', Hh'.
  rewrite (origin_host _ _ (root_source_host n)); [done| |by apply canonical_absolute].
  apply (origin_guest _ (root_source_guest n)); [exact Ho|by apply canonical_absolute].
Qed.

Section Exchange.
Context {M : Z} {t : PathStateTable} {ns s : Z} {n : MountNamespaceState} {b : MountBindingState} {visible : Path}.
Hypothesis H : Inv (settled M) t.
Hypothesis HM : 0 < M.
Hypothesis Hn : get (mount_namespaces t) ns = Some n.
Hypothesis Hs : get (mount_bindings t) s = Some b.
Hypothesis Hns : mb_mount_namespace_slot b = ns.
Hypothesis Hv : ValidateCanonicalPath (Some visible) = 0.
Let b' := pivoted_binding b n M visible.
Let n' := pivoted_namespace n b.
Let B := put (mount_bindings t) s b'.

Lemma exchange_fresh : mount_id b <> root_mount_id n.
Proof. apply (iv_distinct _ _ H _ _ _ Hs). by rewrite Hns. Qed.

Lemma exchange_get x : get B x = if decide (x = s) then Some b' else get (mount_bindings t) x.
Proof.
  destruct (stays_in_use (iv_bindings _ _ H) s b b' Hs eq_refl) as [Hu _]. exact (get_put (iv_bindings _ _ H) s b b' Hs Hu x).
Qed.

Lemma exchange_pool : pool_ok kPathStateMountBindingCapacity (fun r => binding_vacant r = true) (fun r => binding_fields r = true) B.
Proof.
  pose proof (iv_bindings _ _ H) as Hok. destruct (get_entry Hok _ _ Hs) as [Hf Hsl]. destruct (get_entry (iv_namespaces _ _ H) _ _ Hn) as [Hnf _].
  destruct (stays_in_use Hok s b b' Hs eq_refl) as [Hu Hle].
  apply (pool_ok_put Hok _ b); try done.
  - apply pivoted_fields; [exact Hnf|lia| |exact Hv]. unfold binding_fields in Hf.
    by apply andb_true_iff in Hf as [[[[[[[_ Hz]%andb_true_iff _]%andb_true_iff _]%andb_true_iff _]%andb_true_iff _]%andb_true_iff _]%andb_true_iff _].
  - intros s' r0 Hg' E. cbn in E. injection E as E1 E2. exfalso. apply (iv_distinct _ _ H _ _ n Hg'); [by replace (mb_mount_namespace_slot r0) with ns by congruence|congruence].
Qed.

Lemma exchange_parents x : x <> root_mount_id n -> x <> mount_id b -> parent_of B ns x = parent_of (mount_bindings t) ns x.
Proof.
  intros H1 H2. apply option_eq. intros p. rewrite (parent_of_Some (iv_bindings _ _ H)), (parent_of_Some exchange_pool). split.
  - intros (y & r & Hr & E1 & E2 & E3). rewrite exchange_get in Hr. destruct (decide _) as [->|]; [|by exists y, r].
    injection Hr as <-. cbn in E2. congruence.
  - intros (y & r & Hr & E1 & E2 & E3). exists y, r. rewrite exchange_get. destruct (decide _) as [->|]; [congruence|done].
Qed.

Lemma exchange_root : parent_of B ns (root_mount_id n) = Some (mount_id b).
Proof. apply (parent_of_Some exchange_pool). exists s, b'. rewrite exchange_get, decide_True by done. split_and!; [done|exact Hns|done..]. Qed.

Lemma exchange_step : Inv (settled M) (put_namespace (put_binding t s b') ns n').
Proof.
  pose proof (iv_bindings _ _ H) as Hok. destruct (get_entry Hok _ _ Hs) as [Hf Hsl]. destruct (get_entry (iv_namespaces _ _ H) _ _ Hn) as [Hnf Hnsl].
  destruct (stays_in_use Hok s b b' Hs eq_refl) as [Hu Hle].
  assert (forall x bd, get B x = Some bd -> mb_mount_namespace_slot bd = ns -> mount_id bd <> mount_id b) as Hdis.
  { intros x bd. rewrite exchange_get. destruct (decide _) as [->|Hne].
    - intros [= <-] _. intros E. by destruct exchange_fresh.
    - intros Hx E Eid. apply Hne. apply (get_unique Hok _ _ _ _ Hx Hs). cbn. congruence. }
  change (Inv (settled M) (with_bindings (with_namespaces t (put (mount_namespaces t) ns n')) B)).
  apply (namespace_step ns n n' B H Hn); try done.
  - by apply pivoted_namespace_fields.
  - cbn [n' pivoted_namespace binding_count]. pose proof (iv_mounts _ _ H ns) as Hc. rewrite (field_get _ _ _ Hn) in Hc. rewrite Hc.
    symmetry. by apply (count_same Hok _ _ _ _ Hs Hu).
  - exact (proj1 (iv_ids _ _ H _ _ Hs)).
  - exact exchange_pool.
  - intros x _. by apply (count_same Hok _ _ _ _ Hs Hu).
  - intros x bd Hx. rewrite exchange_get. destruct (decide _) as [->|]; [|done]. split; [intros [= <-]; by destruct Hx|].
    intros Hg'. rewrite Hs in Hg'. injection Hg' as <-. by destruct Hx.
  - intros id _ (r0 & Hr0 & Hid). rewrite Hn in Hr0. injection Hr0 as <-. change (root_mount_id n') with (mount_id b).
    destruct (decide (id = mount_id b)) as [|Hne]; [by left|right]. destruct (decide (id = root_mount_id n)) as [->|Hne'].
    + by rewrite exchange_root.
    + rewrite exchange_parents by done. by destruct Hid.
  - intros _. change (root_mount_id n') with (mount_id b). apply (rooted_walk _ _ _ exchange_pool); [|exact Hdis].
    assert (forall x bd, get (mount_bindings t) x = Some bd -> mb_mount_namespace_slot bd = ns ->
      exists k, rises (mount_id b) (parent_of B ns) k (mount_id bd)) as Hold.
    { intros x bd Hx E. destruct (inv_rooted ns n H Hn ltac:(done) x bd Hx E) as [k Hk].
      apply (rises_exchanged _ _ _ _ _ _ Hk); [intros y; apply exchange_parents|exact exchange_root|].
      intros E'. by destruct exchange_fresh. }
    intros x bd. rewrite exchange_get. destruct (decide _) as [->|]; [|apply Hold]. intros [= <-] _. cbn [b' pivoted_binding mount_id].
    exists 1%nat. econstructor; [intros E'; by destruct exchange_fresh|exact exchange_root|constructor].
  - intros x bd Hx E. split; [|by apply (Hdis x)]. rewrite exchange_get in Hx. destruct (decide _).
    + injection Hx as <-. split; [exact (iv_roots _ _ H _ _ Hn)|]. cbn. lia.
    + exact (iv_ids _ _ H _ _ Hx).
Qed.
End Exchange.

(** ** Trees and directories *)

Section Trees.
Context {M : Z} {t : PathStateTable} (ns : Z).
Hypothesis H : Inv (settled M) t.
Hypothesis Hns : ns < kPathStateMountNamespaceCapacity.

Lemma pivot_trees_step : let t' := pivot_trees t ns in
  Inv (settled M) t' /\ others t' = others t /\ mount_namespaces t' = mount_namespaces t /\ mount_bindings t' = mount_bindings t.
Proof.
  cbv zeta. unfold pivot_trees. set (body := fun slot t => _).
  set (P := fun (_ : Z) t' => Inv (settled M) t' /\ others t' = others t /\ mount_namespaces t' = mount_namespaces t /\ mount_bindings t' = mount_bindings t).
  apply (for_slots_ind P); [done|done|]. intros k t' Hk (HI & Ho & Hn & Hb). unfold body. clear body.
  pose proof (iv_trees _ _ HI) as Hok. set (tree := at_slot (mount_trees t') k).
  destruct (in_use tree) eqn:Hu; [|done]. cbn [negb orb]. apply (at_slot_get k Hok Hk) in Hu. change (at_slot (mount_trees t') k) with tree in Hu.
  destruct (Z.eqb_spec (attached_namespace_slot tree) ns) as [Ens|]; [|done]. cbn [negb orb]. destruct (attached_mount_id tree =? 0); [done|].
  destruct (get_entry Hok _ _ Hu) as [Hf _]. pose proof (not_detached_at ns Hns tree Hf Ens) as Hat.
  assert (forall p, ValidateCanonicalPath (Some p) = 0 -> P (k + 1) (store_tree t' k (set_tree_paths tree (mt_source_guest tree) (CopyPath (Some p))))) as Hstore.
  { intros p Hp. destruct (tree_paths_step k tree (mt_source_guest tree) (CopyPath (Some p)) HI Hu (or_introl eq_refl)
      (or_intror (conj Hat (copied_canonical _ Hp)))) as [H2 _]. done. }
  unfold FindMountBindingById. destruct (search _ _) as [s|] eqn:Es.
  - apply (search_Some (iv_bindings _ _ HI)) in Es as (bd & Hbd & _). assert (binding_at t' s = bd) as -> by exact (get_at (iv_bindings _ _ HI) _ _ Hbd).
    destruct (get_entry (iv_bindings _ _ HI) _ _ Hbd) as [Hbf _]. apply Hstore. exact (proj1 (binding_canonical _ Hbf)).
  - destruct (_ =? _); [|done]. apply Hstore. exact slash_canonical.
Qed.
End Trees.

(** One directory of a context: kept, or now at the new root. *)
Definition directory_moved (n : MountNamespaceState) (id : Z) (host : Path) (out : Z * Path) : Prop :=
  out = (id, host) \/ (out.1 = root_mount_id n /\ exists p, out.2 = CopyPath (Some p) /\ ValidateAbsolutePath (Some p) = 0).

Lemma moved_pair n flags id guest host out : origin_pair flags guest host = true -> directory_moved n id host out ->
  origin_pair flags guest out.2 = true.
Proof. intros Ho [->|(_ & p & -> & Hp)]; [exact Ho|exact (origin_host _ _ host _ Ho Hp)]. Qed.

Lemma moved_known n ns N B id host out : get N ns = Some n -> known N B ns id -> directory_moved n id host out -> known N B ns out.1.
Proof. intros Hn Hk [->|(-> & _)]; [exact Hk|]. right. exists n. split; [exact Hn|by left]. Qed.

Lemma fs_hosts_step {g t} ns n k c cwd root generation : Inv g t -> get (mount_namespaces t) ns = Some n -> get (fs_contexts t) k = Some c ->
  (forall s r, get (tasks t) s = Some r -> pt_fs_context_slot r = k -> pt_mount_namespace_slot r = ns) ->
  directory_moved n (cwd_mount_id c) (host_cwd c) cwd -> directory_moved n (fs_root_mount_id c) (host_root c) root ->
  generation = fs_generation c \/ generation = NextGeneration (fs_generation c) ->
  Inv g (store_fs t k (set_fs_hosts c cwd.1 cwd.2 root.1 root.2 generation)).
Proof.
  intros H Hn Hk Hall Hcwd Hroot Hgen. pose proof (iv_contexts _ _ H) as Hok. destruct (get_entry Hok _ _ Hk) as [Hf Hs].
  destruct g as [f d n0 h i xt xn m b]. apply (put_fs f k c _ H Hk); try done.
  - unfold fs_fields in *. cbn [set_fs_hosts fs_generation cwd_origin_flags fs_reserved guest_cwd host_cwd root_origin_flags guest_root host_root].
    apply andb_true_iff in Hf as [[[[[Hg H1]%andb_true_iff H2]%andb_true_iff H3]%andb_true_iff H4]%andb_true_iff H5].
    assert (negb (zero generation) = true) as ->.
    { destruct Hgen as [->| ->]; [done|]. apply negb_true_iff, Z.eqb_neq, next_generation_nonzero. }
    rewrite (moved_pair _ _ _ _ _ _ H3 Hcwd), (moved_pair _ _ _ _ _ _ H5 Hroot). by rewrite H1, H2, H4.
  - exact (iv_fs_live _ _ H _ _ Hk).
  - intros x. cbn [set_fs_hosts fs_refcount]. lia.
  - intros s' r Hr Hrs. pose proof (iv_known _ _ H _ _ c Hr) as Hkn. rewrite Hrs in Hkn. destruct (Hkn Hk) as [K1 K2].
    rewrite (Hall _ _ Hr Hrs) in *. split; [exact (moved_known _ _ _ _ _ _ _ Hn K1 Hcwd)|exact (moved_known _ _ _ _ _ _ _ Hn K2 Hroot)].
Qed.

Lemma pivot_directory_moved n id guest host old new_host : ValidateCanonicalPath (Some new_host) = 0 ->
  directory_moved n id host (pivot_directory id guest host old (root_mount_id n) new_host).1.
Proof.
  intros Hc. unfold pivot_directory. destruct (_ && _); [right|by left]. split; [done|]. exists new_host. split; [done|by apply canonical_absolute].
Qed.

Section Contexts.
Context {M : Z} {t : PathStateTable} {ns : Z} {n : MountNamespaceState} (old : Z) (new_host : Path).
Hypothesis H : Inv (settled M) t.
Hypothesis Hn : get (mount_namespaces t) ns = Some n.
Hypothesis Hc : ValidateCanonicalPath (Some new_host) = 0.

Lemma pivot_contexts_step : let t' := pivot_contexts t ns old (root_mount_id n) new_host in
  Inv (settled M) t' /\ besides_fs t' = besides_fs t.
Proof.
  cbv zeta. unfold pivot_contexts. set (body := fun slot '(t, updated) => _).
  set (P := fun (_ : Z) (st : PathStateTable * list bool) => Inv (settled M) st.1 /\ besides_fs st.1 = besides_fs t).
  apply (for_slots_ind P); [done|done|]. intros k [t' updated] Hk (HI & Hb). unfold body. clear body. cbn [fst snd] in *.
  set (task := task_of t' k). destruct (if task_of_namespace ns task then _ else true) eqn:E; [done|].
  assert (get (tasks t') k = Some task /\ pt_mount_namespace_slot task = ns) as [Htask Hns].
  { unfold task_of_namespace in E. destruct (in_use task) eqn:Hu; [|done]. destruct (Z.eqb_spec (pt_mount_namespace_slot task) ns); [|done].
    split; [exact (at_slot_get k (iv_tasks _ _ HI) Hk Hu)|done]. }
  destruct (task_context HI _ _ Htask) as [c Hcx]. rewrite (get_at (iv_contexts _ _ HI) _ _ Hcx).
  assert (get (mount_namespaces t') ns = Some n) as Hn' by (injection Hb as _ _ _ -> _ _; exact Hn).
  pose proof (pivot_directory_moved n (cwd_mount_id c) (guest_cwd c) (host_cwd c) old new_host Hc) as Hcwd.
  pose proof (pivot_directory_moved n (fs_root_mount_id c) (guest_root c) (host_root c) old new_host Hc) as Hroot.
  destruct (pivot_directory (fs_root_mount_id c) _ _ _ _ _) as [[root_id root_host] ch1].
  destruct (pivot_directory (cwd_mount_id c) _ _ _ _ _) as [[cwd_id cwd_host] ch2]. cbn [fst] in Hcwd, Hroot.
  unfold P. cbn [fst snd]. split; [|exact Hb].
  apply (fs_hosts_step ns n (pt_fs_context_slot task) c (cwd_id, cwd_host) (root_id, root_host) _ HI Hn' Hcx); [|exact Hcwd|exact Hroot|].
  - intros s r Hr Hfs. rewrite (iv_share _ _ HI _ _ _ _ Hr Htask Hfs). exact Hns.
  - destruct (ch1 || ch2); [by right|by left].
Qed.
End Contexts.

(** ** The operation *)

Lemma pivot_error_bindings {g} t ns id root visible x b : Inv g t ->
  pivot_error t ns id (pivot_descendants t ns id) root visible = 0 -> get (mount_bindings t) x = Some b ->
  mb_mount_namespace_slot b = ns -> mount_id b <> id ->
  pivot_substitute substitution_error (pivot_descendants t ns id !!! Z.to_nat x) b root visible = 0.
Proof.
  intros H He Hb Hns Hid. unfold pivot_error in He. apply first_error_zero in He. rewrite Forall_forall in He.
  apply (get_entry_at (iv_bindings _ _ H)) in Hb as [Hi Hu]. set (below := pivot_descendants t ns id) in *.
  assert (below !! Z.to_nat x = Some (below !!! Z.to_nat x)) as Hl.
  { apply list_lookup_lookup_total_lt. unfold below, pivot_descendants. rewrite length_fmap. by apply lookup_lt_Some in Hi. }
  specialize (He (pivot_substitute substitution_error (below !!! Z.to_nat x) b root visible)). apply He.
  apply list_elem_of_fmap. exists (b, below !!! Z.to_nat x). cbn [fst snd]. split.
  - unfold of_namespace. rewrite Hu, Hns, Z.eqb_refl. by destruct (Z.eqb_spec (mount_id b) id).
  - apply list_elem_of_lookup. exists (Z.to_nat x). apply lookup_zip_with_Some. by eexists _, _.
Qed.

Lemma pivot_keeps m t tid a b c d : Inv (settled m) t -> 0 <= m < 2 ^ 64 - 1 ->
  keeps (does t tid (fun _ u => u)) m t (PivotRootMountNamespace t tid a b c d).
Proof.
  intros H Hm. unfold PivotRootMountNamespace. destruct (_ || _); [by apply keeps_same|]. cbv zeta.
  destruct (Z.eqb_spec (first_error (ValidateCanonicalPath <$> [a; b; c; d])) 0) as [Ev|Ev]; cbn [negb]; [|by apply keeps_same].
  apply first_error_zero in Ev. cbn [fmap list_fmap] in Ev. apply Forall_cons in Ev as [Ea Ev]. apply Forall_cons in Ev as [Eb Ev].
  apply Forall_cons in Ev as [Ec _]. destruct a as [root|]; [|discriminate Ea]. destruct c as [put_old|]; [|discriminate Ec].
  change (path_of (Some root)) with root. change (path_of (Some put_old)) with put_old. destruct (_ || _); [by apply keeps_same|].
  apply (for_task_cases H (keeps _ m t)); [by apply keeps_same..|]. intros slot r Hr _ _. set (ns := pt_mount_namespace_slot r).
  destruct (task_namespace H _ _ Hr) as [n Hn]. fold ns in Hn. assert (namespace_at t ns = n) as -> by exact (get_at (iv_namespaces _ _ H) _ _ Hn).
  destruct (ResolveVisibleExactMount t ns root) as [s|] eqn:Es; [|by apply keeps_same].
  destruct (resolve_exact H _ _ _ Es) as (_ & bd & Hbd & Hat & Hbns & _). rewrite Hat.
  destruct (mount_id bd =? root_mount_id n); [by apply keeps_same|].
  destruct (Z.eqb_spec (pivot_paths_agree t tid (Some root) b (Some put_old) d) 0); cbn [negb]; [|by apply keeps_same].
  destruct (_ || _); [by apply keeps_same|].
  destruct (SubstitutePathPrefix put_old root [SLASH]) as [error|visible] eqn:Esub.
  { apply keeps_same; [done|]. intros ->. pose proof (substitution_never_zero put_old root [SLASH]). congruence. }
  pose proof (substituted_canonical _ _ _ _ Ec Ea slash_canonical Esub) as Hvis.
  destruct (Z.eqb_spec (pivot_error t ns (mount_id bd) (pivot_descendants t ns (mount_id bd)) root visible) 0) as [Ee|]; cbn [negb]; [|by apply keeps_same].
  assert (Inv (settled (m + 1)) (NoteMutation t)) as H1 by (apply (weaken_bound (b := m)); [by apply note_mutation|lia]).
  destruct (pivot_bindings_step (t := NoteMutation t) (ns := ns) (below := pivot_descendants t ns (mount_id bd)) H1 Hbd Ea Hvis)
    as (H2 & Ha2 & Ho2 & Hn2 & Ht2 & Hs2).
  { intros x b0 Hx Hxns Hne. apply (pivot_error_bindings t ns _ _ _ x b0 H Ee Hx Hxns). intros Eid. apply Hne.
    apply (get_unique (iv_bindings _ _ H) _ _ _ _ Hx Hbd). cbn. congruence. }
  revert H2 Ha2 Ho2 Hn2 Ht2 Hs2. generalize (pivot_bindings (NoteMutation t) ns s (pivot_descendants t ns (mount_id bd)) root visible).
  intros t2 H2 _ Ho2 Hn2 _ Hs2. pose proof (iv_current _ _ H2) as Egen. cbn [settled g_generation] in Egen. rewrite Egen.
  assert (get (mount_namespaces t2) ns = Some n) as Hn2' by (rewrite Hn2; exact Hn).
  pose proof (exchange_step (visible := visible) H2 ltac:(lia) Hn2' Hs2 Hbns Hvis) as H3.
  assert (get (mount_namespaces (put_namespace (put_binding t2 s (pivoted_binding bd n (m + 1) visible)) ns (pivoted_namespace n bd))) ns = Some (pivoted_namespace n bd)) as Hn3.
  { unfold put_namespace, put_binding. cbn [mount_namespaces with_namespaces with_bindings].
    destruct (stays_in_use (iv_namespaces _ _ H2) ns n (pivoted_namespace n bd) Hn2' eq_refl) as [Hu _].
    by rewrite (get_put (iv_namespaces _ _ H2) _ _ _ Hn2' Hu), decide_True. }
  assert (others (put_namespace (put_binding t2 s (pivoted_binding bd n (m + 1) visible)) ns (pivoted_namespace n bd)) = others t) as Ho3 by exact Ho2.
  revert H3 Hn3 Ho3. generalize (put_namespace (put_binding t2 s (pivoted_binding bd n (m + 1) visible)) ns (pivoted_namespace n bd)). intros t3 H3 Hn3 Ho3.
  pose proof (get_range (iv_namespaces _ _ H3) _ _ Hn3) as [_ Rns].
  destruct (pivot_trees_step ns H3 Rns) as (H4 & Ho4 & Hn4 & _). revert H4 Ho4 Hn4. generalize (pivot_trees t3 ns). intros t4 H4 Ho4 Hn4.
  rewrite <- Hn4 in Hn3. destruct (get_entry (iv_bindings _ _ H) _ _ Hbd) as [Hbf _].
  destruct (pivot_contexts_step (root_mount_id n) (mb_source_host bd) H4 Hn3 (proj2 (proj2 (binding_canonical _ Hbf)))) as [H5 E5].
  change (root_mount_id (pivoted_namespace n bd)) with (mount_id bd) in H5, E5.
  revert H5 E5. cbv zeta. generalize (pivot_contexts t4 ns (root_mount_id n) (mount_id bd) (mb_source_host bd)). intros t5 H5 E5.
  apply keeps_changed; [exact H5|]. apply (does_unnamed tid (fun u => u) _ H). injection E5 as ET _ EI _ _ _.
  destruct (others_split _ _ Ho3) as (T3 & _ & _ & I3). destruct (others_split _ _ Ho4) as (T4 & _ & _ & I4).
  unfold view. by rewrite ET, EI, T4, I4, T3, I3.
Qed.
