(* ===== verification/PathCloneInv.v ===== *)
(** * Recursive bind mounts keep the invariant

    AddRecursiveMountBinding adds the new mount and then, mount by mount, a
    clone of each visible one below the source. While it does, the mounts it
    created are the ones numbered after the start; when it fails it erases
    them, which leaves no mount without its parent. *)

From S2P Require Import Prelude SlotArray SlotPool GuestPath GuestPathText PathState PathStorage PathStateOps PathTaskOps PathFdOps PathMounts PathTranslate PathMountMoves PathStateInv PathViews PathSteps PathObjectSteps PathResolve PathReleases PathCopies PathTaskInv PathMountSteps PathMountInv PathMoveInv PathVisible.
From stdpp Require Import list.
#[local] Open Scope Z_scope.

(** ** Marks *)

Lemma marks_cons b l : marks (b :: l) = (if b then 1 else 0) + marks l.
Proof. done. Qed.

Lemma marks_bounds l : 0 <= marks l <= Z.of_nat (length l).
Proof. induction l as [|b l IH]; [done|]. rewrite marks_cons. cbn [length]. destruct b; lia. Qed.

Lemma marks_set l i : l !! i = Some false -> marks (<[i := true]> l) = marks l + 1.
Proof.
  revert i. induction l as [|b l IH]; intros [|i] Hi; [done|done| |].
  - injection Hi as ->. change (<[0%nat:=true]> (false :: l)) with (true :: l). rewrite !marks_cons. lia.
  - change (<[S i:=true]> (b :: l)) with (b :: <[i:=true]> l). rewrite !marks_cons, (IH i Hi). lia.
Qed.

Lemma marks_none k : marks (replicate k false) = 0.
Proof. induction k as [|k IH]; [done|]. cbn [replicate]. by rewrite marks_cons. Qed.

(** ** The mounts created so far *)

Record Created (m : Z) (t : PathStateTable) (ns : Z) (n : MountNamespaceState) (marked : list bool) (t' : PathStateTable) : Prop := {
  cr_inv : Inv (settled (m + marks marked)) t';
  cr_length : Z.of_nat (length marked) = kPathStateMountBindingCapacity;
  cr_others : others t' = others t;
  cr_trees : mount_trees t' = mount_trees t;
  cr_namespace : exists n', get (mount_namespaces t') ns = Some n' /\ root_mount_id n' = root_mount_id n;
  cr_new : forall x, 0 <= x < kPathStateMountBindingCapacity -> marked !!! Z.to_nat x = true ->
    get (mount_bindings t) x = None /\
    exists b, get (mount_bindings t') x = Some b /\ mb_mount_namespace_slot b = ns /\ m < mount_id b;
  cr_old : forall x, 0 <= x < kPathStateMountBindingCapacity -> marked !!! Z.to_nat x = false ->
    get (mount_bindings t') x = get (mount_bindings t) x }.

Section Created.
Context {m : Z} {t : PathStateTable} {ns : Z} {n : MountNamespaceState}.
Hypothesis H : Inv (settled m) t.
Hypothesis Hm : 0 <= m < 2 ^ 64 - 1 - kPathStateMountBindingCapacity.
Hypothesis Hn : get (mount_namespaces t) ns = Some n.

Lemma created_none : Created m t ns n no_marks t.
Proof.
  unfold no_marks. split; try done.
  - by rewrite marks_none, Z.add_0_r.
  - by exists n.
  - intros x Hx Hm'. rewrite lookup_total_replicate_2 in Hm'; [done|]. unfold kPathStateMountBindingCapacity in *. lia.
Qed.

Lemma created_at marked t' x b : Created m t ns n marked t' -> get (mount_bindings t') x = Some b ->
  (marked !!! Z.to_nat x = true /\ mb_mount_namespace_slot b = ns /\ m < mount_id b) \/
  (marked !!! Z.to_nat x = false /\ get (mount_bindings t) x = Some b).
Proof.
  intros HC Hb. pose proof (get_range (iv_bindings _ _ (cr_inv _ _ _ _ _ _ HC)) _ _ Hb) as Hx.
  destruct (marked !!! Z.to_nat x) eqn:E.
  - left. destruct (cr_new _ _ _ _ _ _ HC x Hx E) as (_ & b' & Hb' & E1 & E2). split; [done|]. rewrite Hb in Hb'. by injection Hb' as <-.
  - right. split; [done|]. by rewrite <- (cr_old _ _ _ _ _ _ HC x Hx E).
Qed.

(** One more mount, whatever its parent. *)
Lemma created_more marked t' binding : Created m t ns n marked t' ->
  match AddMountBindingInternal t' ns binding with
  | (error, None, t2) => error <> 0 /\ t2 = t'
  | (error, Some slot, t2) => error = 0 /\ Created m t ns n (<[Z.to_nat slot := true]> marked) t2 /\
      marks (<[Z.to_nat slot := true]> marked) = marks marked + 1 /\ 0 <= slot < kPathStateMountBindingCapacity /\ get (mount_bindings t') slot = None /\
      (forall x, x <> slot -> get (mount_bindings t2) x = get (mount_bindings t') x) /\
      exists parent, parent_for t' ns binding = inr parent /\
        get (mount_bindings t2) slot = Some (new_binding binding slot ns parent (m + marks marked + 1))
  end.
Proof.
  intros HC. destruct HC as [HI Hl Ho Ht (n' & Hn' & Er) Hnew Hold]. pose proof (marks_bounds marked) as Hmb.
  pose proof (add_internal (m + marks marked) t' ns n' binding HI ltac:(lia) Hn') as Hadd.
  destruct (AddMountBindingInternal t' ns binding) as [[error [slot|]] t2]; [|exact Hadd]. destruct Hadd as (-> & H2 & HA).
  destruct (added_mounts HI HA) as (parent & Hp & Hfree & Hget). destruct (added_namespace HI Hn' H2 HA) as (n2 & Hn2 & Er2 & _).
  assert (get (mount_bindings t2) slot = Some (new_binding binding slot ns parent (m + marks marked + 1))) as Hslot by (by rewrite Hget, decide_True).
  pose proof (get_range (iv_bindings _ _ H2) _ _ Hslot) as Rs.
  assert (marked !! Z.to_nat slot = Some false) as Hunmarked.
  { destruct (marked !! Z.to_nat slot) as [[|]|] eqn:E; [|done|].
    - destruct (Hnew slot Rs) as (_ & b & Hb & _); [by apply list_lookup_total_correct|]. congruence.
    - apply lookup_ge_None in E. lia. }
  pose proof (marks_set _ _ Hunmarked) as Hms. split; [done|]. split; [|split_and!; [done|lia|lia|done| |]].
  - assert (Z.to_nat slot < length marked)%nat as Hlt by (by apply lookup_lt_Some in Hunmarked).
    split; try done.
    + rewrite Hms. by replace (m + (marks marked + 1)) with (m + marks marked + 1) by lia.
    + by rewrite length_insert.
    + rewrite <- Ho. exact (ad_others _ _ _ _ _ _ _ HA).
    + rewrite <- Ht. exact (ad_trees _ _ _ _ _ _ _ HA).
    + exists n2. split; [done|congruence].
    + intros x Hx Hmx. destruct (decide (x = slot)) as [->|Hne].
      * split; [rewrite <- Hold; [done|exact Hx|by apply list_lookup_total_correct]|].
        eexists. split; [exact Hslot|]. cbn. split; [done|lia].
      * rewrite list_lookup_total_insert_ne in Hmx by lia. destruct (Hnew x Hx Hmx) as (Hno & b & Hb & E). split; [done|]. exists b. split; [|done].
        by rewrite Hget, decide_False.
    + intros x Hx Hmx. destruct (decide (x = slot)) as [->|Hne].
      * by rewrite list_lookup_total_insert_eq in Hmx.
      * rewrite list_lookup_total_insert_ne in Hmx by lia. rewrite Hget, decide_False by done. by apply Hold.
  - intros x Hx. by rewrite Hget, decide_False.
  - by exists parent.
Qed.

(** Nothing refers to the mounts created. *)
Lemma created_unreferred marked t' id : Created m t ns n marked t' -> m < id -> ~ referred t' ns id.
Proof.
  intros HC Hid Href. apply (referred_same t) in Href; [|exact (cr_others _ _ _ _ _ _ HC)|exact (cr_trees _ _ _ _ _ _ HC)].
  apply (referred_old H) in Href; lia.
Qed.

(** Erasing marked mounts, among them every one that is below a marked one. *)
Lemma created_erased marked erased t' : Created m t ns n marked t' -> Z.of_nat (length erased) = kPathStateMountBindingCapacity ->
  (forall x, 0 <= x < kPathStateMountBindingCapacity -> erased !!! Z.to_nat x = true -> marked !!! Z.to_nat x = true) ->
  (forall x b y b', get (mount_bindings t') x = Some b -> mb_mount_namespace_slot b = ns -> erased !!! Z.to_nat x = false ->
    get (mount_bindings t') y = Some b' -> mb_mount_namespace_slot b' = ns -> erased !!! Z.to_nat y = true -> parent_mount_id b <> mount_id b') ->
  Inv (settled (m + marks marked)) (erase_marks erased t') /\ others (erase_marks erased t') = others t /\
  mount_trees (erase_marks erased t') = mount_trees t /\
  (forall x, get (mount_bindings (erase_marks erased t')) x = if (erased !!! Z.to_nat x : bool) then None else get (mount_bindings t') x) /\
  exists n2, get (mount_namespaces (erase_marks erased t')) ns = Some n2 /\ root_mount_id n2 = root_mount_id n.
Proof.
  intros HC Hl Hsub Horphan. destruct (cr_namespace _ _ _ _ _ _ HC) as (n' & Hn' & Er). pose proof (cr_inv _ _ _ _ _ _ HC) as HI.
  destruct (erase_marks_closed erased t' ns n' HI Hn') as [H2 [_ Hget (c & Hc) _ Ho Ht]].
  - intros x Hx Hx'. destruct (cr_new _ _ _ _ _ _ HC x Hx (Hsub x Hx Hx')) as (_ & b & Hb & Ens & Hid). exists b. split_and!; [done..|].
    exact (created_unreferred marked t' _ HC Hid).
  - exact Horphan.
  - split; [exact H2|]. split; [rewrite Ho; exact (cr_others _ _ _ _ _ _ HC)|]. split; [rewrite Ht; exact (cr_trees _ _ _ _ _ _ HC)|]. split.
    + intros x. rewrite Hget. destruct (Z.ltb_spec x kPathStateMountBindingCapacity); [done|]. cbn [andb].
      destruct (get (mount_bindings t') x) eqn:E; [|by destruct (_ !!! _)]. pose proof (get_range (iv_bindings _ _ HI) _ _ E). lia.
    + eexists. split; [exact Hc|exact Er].
Qed.

(** Erasing all of them gives the old mounts back. *)
Lemma created_undone marked t' : Created m t ns n marked t' ->
  Inv (settled (m + marks marked)) (erase_marks marked t') /\ others (erase_marks marked t') = others t /\
  forall x, get (mount_bindings (erase_marks marked t')) x = get (mount_bindings t) x.
Proof.
  intros HC. destruct (created_erased marked marked t' HC (cr_length _ _ _ _ _ _ HC) ltac:(done)) as (H2 & Ho & _ & Hget & _).
  - intros x b y b' Hb Ens Ex Hb' Ens' Ey. destruct (created_at marked t' x b HC Hb) as [[E _]|[_ Hold]]; [congruence|].
    destruct (created_at marked t' y b' HC Hb') as [(_ & _ & Hid)|[E _]]; [|congruence]. pose proof (parent_old H Hn x b Hold Ens). lia.
  - split; [exact H2|]. split; [exact Ho|]. intros x. rewrite Hget. destruct (decide (0 <= x < kPathStateMountBindingCapacity)) as [Hx|Hx].
    + destruct (marked !!! Z.to_nat x) eqn:E; [|exact (cr_old _ _ _ _ _ _ HC x Hx E)].
      by destruct (cr_new _ _ _ _ _ _ HC x Hx E) as (-> & _).
    + assert (get (mount_bindings t) x = None) as ->.
      { destruct (get (mount_bindings t) x) eqn:E; [|done]. apply (get_range (iv_bindings _ _ H)) in E. lia. }
      assert (get (mount_bindings t') x = None) as ->; [|by destruct (_ !!! _)].
      destruct (get (mount_bindings t') x) eqn:E; [|done]. apply (get_range (iv_bindings _ _ (cr_inv _ _ _ _ _ _ HC))) in E. lia.
Qed.
End Created.

(** ** The clones still to be made *)

Definition pending (included : list bool) (ids : list Z) : Z := marks (zip_with (fun (i : bool) id => i && (id =? 0)) included ids).

Lemma pending_nonneg included ids : 0 <= pending included ids.
Proof. apply marks_bounds. Qed.

Lemma pending_set included ids i id : included !! i = Some true -> ids !! i = Some 0 -> id <> 0 ->
  pending included (<[i := id]> ids) = pending included ids - 1.
Proof.
  revert ids i. induction included as [|b included IH]; intros [|id0 ids] [|i] Hi Hid Hne; try done.
  - injection Hi as ->. injection Hid as ->. change (<[0%nat := id]> (0 :: ids)) with (id :: ids). unfold pending. cbn [zip_with].
    rewrite !marks_cons. destruct (Z.eqb_spec id 0); [done|]. cbn [andb Z.eqb]. lia.
  - change (<[S i := id]> (id0 :: ids)) with (id0 :: <[i := id]> ids). specialize (IH ids i Hi Hid Hne). unfold pending in *. cbn [zip_with].
    rewrite !marks_cons, IH. lia.
Qed.

Lemma pending_none included k : (length included <= k)%nat -> pending included (replicate k 0) = marks included.
Proof.
  revert k. induction included as [|b included IH]; intros [|k] Hk; cbn [length] in Hk; [done|done|lia|].
  unfold pending in *. cbn [replicate zip_with]. rewrite !marks_cons, IH by lia. by rewrite Z.eqb_refl, andb_true_r.
Qed.

Lemma pending_done included ids i : pending included ids = 0 -> included !! i = Some true -> forall id, ids !! i = Some id -> id <> 0.
Proof.
  revert ids i. induction included as [|b included IH]; intros [|id0 ids] [|i] Hp Hi id Hid; try done;
    unfold pending in Hp; cbn [zip_with] in Hp; rewrite marks_cons in Hp; pose proof (pending_nonneg included ids) as Hnn; unfold pending in Hnn.
  - injection Hi as ->. injection Hid as ->. intros ->. cbn [andb Z.eqb] in Hp. change (0 =? 0) with true in Hp. lia.
  - apply (IH ids i); [unfold pending; destruct (b && _); lia|done..].
Qed.

(** [b'] is [b] mounted again at [target]. *)
Record CloneOf (b : MountBindingState) (target : Path) (b' : MountBindingState) : Prop := {
  co_kind : mb_kind b' = mb_kind b; co_flags : mb_state_flags b' = mb_state_flags b &&& not32 kMountBindingStateDetached;
  co_mount_flags : mount_flags b' = mount_flags b; co_attributes : mount_attributes b' = mount_attributes b;
  co_propagation : propagation b' = propagation b; co_target : target_guest b' = CopyPath (Some target);
  co_source_guest : mb_source_guest b' = CopyPath (Some (mb_source_guest b));
  co_source_host : mb_source_host b' = CopyPath (Some (mb_source_host b)) }.

Section Cloning.
Context {m : Z} {t : PathStateTable} {ns : Z} {n : MountNamespaceState}.
Hypothesis H : Inv (settled m) t.
Hypothesis Hm : 0 <= m < 2 ^ 64 - 1 - kPathStateMountBindingCapacity.
Hypothesis Hn : get (mount_namespaces t) ns = Some n.
Variables (binding : MountBindingSpec) (top_id : Z) (included : list bool).
Hypothesis Hlen : Z.of_nat (length included) = kPathStateMountBindingCapacity.
Hypothesis Hincluded : forall x, 0 <= x < kPathStateMountBindingCapacity -> included !!! Z.to_nat x = true ->
  exists b, get (mount_bindings t) x = Some b.

(** The clone of the mount in slot [x]. *)
Definition cloned (t' : PathStateTable) (marked : list bool) (x id : Z) : Prop :=
  exists b target y b', get (mount_bindings t) x = Some b /\
    SubstitutePathPrefix (target_guest b) (path_of (ms_source_guest binding)) (path_of (ms_target_guest binding)) = inr target /\
    marked !!! Z.to_nat y = true /\ get (mount_bindings t') y = Some b' /\ mount_id b' = id /\ CloneOf b target b'.

Record Cloning (c : Clones) : Prop := {
  cg_created : Created m t ns n (created_slots c) (cl_table c);
  cg_length : Z.of_nat (length (cloned_ids c)) = kPathStateMountBindingCapacity;
  cg_remaining : remaining c = pending included (cloned_ids c);
  cg_cloned : forall x, 0 <= x < kPathStateMountBindingCapacity -> included !!! Z.to_nat x = true -> cloned_ids c !!! Z.to_nat x <> 0 ->
    cloned (cl_table c) (created_slots c) x (cloned_ids c !!! Z.to_nat x) }.

Lemma pending_small c : Cloning c -> 0 <= remaining c <= 1024.
Proof.
  intros [_ _ -> _]. unfold pending. pose proof (marks_bounds (zip_with (fun (i : bool) id => i && (id =? 0)) included (cloned_ids c))) as Hb.
  rewrite length_zip_with in Hb. unfold kPathStateMountBindingCapacity in *. lia.
Qed.

(** What was created stays. *)
Definition persists (c c' : Clones) : Prop := forall y b, created_slots c !!! Z.to_nat y = true -> get (mount_bindings (cl_table c)) y = Some b ->
  created_slots c' !!! Z.to_nat y = true /\ get (mount_bindings (cl_table c')) y = Some b.

Lemma persists_trans a b c : persists a b -> persists b c -> persists a c.
Proof. intros H1 H2 y r Hy Hr. destruct (H1 y r Hy Hr) as [Hy' Hr']. exact (H2 y r Hy' Hr'). Qed.

Lemma clone_slot_step c slot : 0 <= slot < kPathStateMountBindingCapacity -> Cloning c ->
  let out := clone_slot binding ns top_id included c slot in
  Cloning out.2 /\ persists c out.2 /\ ((out.1 = 0 /\ out.2 = c) \/ (out.1 <> 0) \/ (out.1 = 0 /\ progressed out.2 = true /\ remaining out.2 = remaining c - 1)).
Proof.
  intros Hslot HC. cbv zeta. unfold clone_slot. destruct (included !!! Z.to_nat slot) eqn:Hin; cbn [negb orb]; [|split_and!; [done|done|by left]].
  destruct (Z.eqb_spec (cloned_ids c !!! Z.to_nat slot) 0) as [Hid|]; cbn [negb]; [|split_and!; [done|done|by left]].
  destruct (match clone_parent (cl_table c) included slot (binding_at (cl_table c) slot) with None => false | Some _ => _ end); [split_and!; [done|done|by left]|].
  pose proof (pending_small c HC) as Hsmall. destruct HC as [HC Hl Hr Hcl]. destruct (Hincluded slot Hslot Hin) as [b Hb].
  assert (created_slots c !!! Z.to_nat slot = false) as Hnew.
  { destruct (created_slots c !!! Z.to_nat slot) eqn:E; [|done]. destruct (cr_new _ _ _ _ _ _ HC slot Hslot E) as (E' & _). congruence. }
  assert (binding_at (cl_table c) slot = b) as ->.
  { apply (get_at (iv_bindings _ _ (cr_inv _ _ _ _ _ _ HC))). rewrite (cr_old _ _ _ _ _ _ HC slot Hslot Hnew). exact Hb. }
  destruct (SubstitutePathPrefix _ _ _) as [error|target] eqn:Esub.
  { cbn [fst snd]. split_and!; [by split|done|right; left]. intros ->. by apply (substitution_never_zero _ _ _) in Esub. }
  set (spec := cloned_spec b target _). pose proof (created_more Hm _ _ spec HC) as Hmore.
  destruct (AddMountBindingInternal (cl_table c) ns spec) as [[error [y|]] t2]; cbn [fst snd].
  2:{ destruct Hmore as [He ->]. split_and!; [by split|done|by right; left]. }
  destruct Hmore as (-> & HC2 & _ & Ry & Hfree & Hsame & parent & _ & Hy). pose proof (cr_inv _ _ _ _ _ _ HC2) as H2.
  assert (binding_at t2 y = new_binding spec y ns parent (m + marks (created_slots c) + 1)) as -> by exact (get_at (iv_bindings _ _ H2) _ _ Hy).
  change (mount_id (new_binding _ _ _ _ ?i)) with i. pose proof (marks_bounds (created_slots c)) as Hmb.
  assert (included !! Z.to_nat slot = Some true) as Hin'.
  { rewrite <- Hin. apply list_lookup_lookup_total_lt. lia. }
  assert (cloned_ids c !! Z.to_nat slot = Some 0) as Hid'.
  { rewrite <- Hid. apply list_lookup_lookup_total_lt. lia. }
  pose proof (pending_set included (cloned_ids c) _ (m + marks (created_slots c) + 1) Hin' Hid' ltac:(lia)) as Hpend.
  assert (1 <= remaining c) as Hpos.
  { pose proof (pending_nonneg included (<[Z.to_nat slot := m + marks (created_slots c) + 1]> (cloned_ids c))). lia. }
  rewrite u32_small by lia. set (c' := Build_Clones _ _ _ _ _).
  assert (persists c c') as Hpers.
  { intros x b0 Hx Hb0. cbn [c' created_slots cl_table]. pose proof (get_range (iv_bindings _ _ (cr_inv _ _ _ _ _ _ HC)) _ _ Hb0).
    assert (x <> y) as Hxy by congruence. rewrite list_lookup_total_insert_ne by lia. split; [exact Hx|]. by rewrite Hsame. }
  split; [|split; [exact Hpers|by right; right]]. subst c'.
  split; cbn [cl_table created_slots cloned_ids remaining]; [exact HC2|by rewrite length_insert|lia|].
  intros x Hx Hinx Hne. destruct (decide (x = slot)) as [->|Hxs].
  - rewrite list_lookup_total_insert_eq by lia. exists b, target, y. eexists. split; [exact Hb|]. split; [exact Esub|].
    split; [apply list_lookup_total_insert_eq; pose proof (cr_length _ _ _ _ _ _ HC); lia|]. split; [exact Hy|]. done.
  - rewrite list_lookup_total_insert_ne in Hne |- * by lia. destruct (Hcl x Hx Hinx Hne) as (b1 & target1 & y1 & b1' & E1 & E2 & E3 & E4 & E5).
    destruct (Hpers y1 b1' E3 E4) as [E3' E4']. exists b1, target1, y1, b1'. done.
Qed.

Lemma clone_pass_step slots : Forall (fun s => 0 <= s < kPathStateMountBindingCapacity) slots -> forall c, Cloning c ->
  let out := clone_pass binding ns top_id included slots c in
  Cloning out.2 /\ persists c out.2 /\ (out.1 = 0 -> remaining out.2 <= remaining c /\ (progressed out.2 = true -> progressed c = true \/ remaining out.2 < remaining c)).
Proof.
  induction 1 as [|s slots Hs Hslots IH]; intros c HC; cbn [clone_pass]; [split_and!; [done|done|]; intros _; split; [done|by left]|].
  destruct (clone_slot_step c s Hs HC) as (HC1 & HP1 & Hcase). destruct (clone_slot binding ns top_id included c s) as [e c1]. cbn [fst snd] in *.
  destruct (Z.eqb_spec e 0) as [->|]; cbn [negb]; [|by split]. destruct (IH c1 HC1) as (HC2 & HP2 & Hout). split; [exact HC2|]. split; [exact (persists_trans _ _ _ HP1 HP2)|].
  intros He. destruct (Hout He) as [Hle Hpr]. destruct Hcase as [[_ ->]|[?|(_ & Hp & Hr)]]; [done|done|].
  split; [lia|]. intros _. right. lia.
Qed.

(** The fuel is enough: when the loop ends without an error, nothing is left to clone. *)
Lemma clone_loop_step fuel : forall c, Cloning c -> remaining c <= Z.of_nat fuel ->
  let out := clone_loop fuel binding ns top_id included c in Cloning out.2 /\ persists c out.2 /\ (out.1 = 0 -> remaining out.2 = 0).
Proof.
  induction fuel as [|fuel IH]; intros c HC Hr; cbn [clone_loop].
  - split_and!; [done|done|]. intros _. cbn [snd]. pose proof (pending_small c HC). lia.
  - destruct (Z.eqb_spec (remaining c) 0) as [|Hne]; [by split|].
    set (c0 := Build_Clones (cl_table c) (created_slots c) (cloned_ids c) (remaining c) false).
    assert (Cloning c0) as HC0 by (destruct HC; by split).
    destruct (clone_pass_step (seqZ 0 kPathStateMountBindingCapacity)) with (c := c0) as (HC1 & HP1 & Hout); [|exact HC0|].
    { apply Forall_forall. intros x Hx%elem_of_seqZ. unfold kPathStateMountBindingCapacity in *. lia. }
    destruct (clone_pass binding ns top_id included (seqZ 0 kPathStateMountBindingCapacity) c0) as [e c1]. cbn [fst snd] in *.
    destruct (Z.eqb_spec e 0) as [->|]; cbn [negb]; [|by split]. destruct (Hout eq_refl) as [Hle Hpr].
    destruct (progressed c1) eqn:Ep; cbn [negb]; [|by split].
    destruct (IH c1 HC1) as (HC2 & HP2 & Hout2).
    + destruct (Hpr eq_refl) as [Hf|Hlt]; [done|]. change (remaining c0) with (remaining c) in *. lia.
    + split; [exact HC2|]. split; [exact (persists_trans _ _ _ HP1 HP2)|exact Hout2].
Qed.
End Cloning.

(** ** The operation *)

Lemma erase_created_marks t created : erase_created t created = erase_marks created t.
Proof. unfold erase_created, erase_marks. reflexivity. Qed.

Lemma included_length {g t} ns source length' : Inv g t ->
  Z.of_nat (length (included_slots t ns source length')) = kPathStateMountBindingCapacity.
Proof.
  intros H. pose proof (pool_length (iv_bindings _ _ H)) as Hl. unfold included_slots, with_slots.
  rewrite length_fmap, length_zip, length_seqZ. lia.
Qed.

Lemma included_lookup {g t} ns source length' x : Inv g t -> 0 <= x < kPathStateMountBindingCapacity ->
  included_slots t ns source length' !!! Z.to_nat x = included_slot t ns source length' x (binding_at t x).
Proof.
  intros H Hx. apply list_lookup_total_correct. unfold included_slots. rewrite list_lookup_fmap.
  assert (with_slots (mount_bindings t) !! Z.to_nat x = Some (x, binding_at t x)) as ->; [|done].
  unfold with_slots. apply lookup_zip_with_Some. exists x, (binding_at t x). split; [done|].
  pose proof (at_slot_lookup (iv_bindings _ _ H) x Hx) as Hl. split; [|exact Hl].
  pose proof (lookup_lt_Some _ _ _ Hl). apply lookup_seqZ. lia.
Qed.

Lemma included_get {g t} ns source length' x : Inv g t -> 0 <= x < kPathStateMountBindingCapacity ->
  included_slots t ns source length' !!! Z.to_nat x = true -> exists b, get (mount_bindings t) x = Some b /\ included_slot t ns source length' x b = true.
Proof.
  intros H Hx. rewrite (included_lookup _ _ _ _ H Hx). intros Hi. exists (binding_at t x). split; [|exact Hi].
  unfold included_slot, of_namespace in Hi. destruct (in_use (binding_at t x)) eqn:Hu; [|done].
  exact (at_slot_get x (iv_bindings _ _ H) Hx Hu).
Qed.

(** What a recursive bind mount leaves of the mounts of [t]. *)
Record Recursive (t : PathStateTable) (ns : Z) (binding : MountBindingSpec) (length' : nat) (t' : PathStateTable) : Prop := {
  rc_kept : forall x b, get (mount_bindings t) x = Some b -> get (mount_bindings t') x = Some b;
  rc_cloned : forall x b, get (mount_bindings t) x = Some b -> included_slot t ns (path_of (ms_source_guest binding)) length' x b = true ->
    exists target y b', SubstitutePathPrefix (target_guest b) (path_of (ms_source_guest binding)) (path_of (ms_target_guest binding)) = inr target /\
      get (mount_bindings t) y = None /\ get (mount_bindings t') y = Some b' /\ mb_mount_namespace_slot b' = ns /\ CloneOf b target b' }.

(** What the operation does from a table whose mutation generation is [m]. *)
Definition RecursiveOutcome (m : Z) (t : PathStateTable) (tid : Z) (binding : MountBindingSpec) (out : Outcome) : Prop :=
  (exists m', m <= m' <= m + kPathStateMountBindingCapacity /\ Inv (settled m') out.2) /\ others out.2 = others t /\
  (out.1.1 <> 0 -> forall x, get (mount_bindings out.2) x = get (mount_bindings t) x) /\
  (out.1.1 = 0 -> exists slot r length', FindTaskUnchecked t tid = Some slot /\ get (tasks t) slot = Some r /\
    PathLength (ms_source_guest binding) = inr length' /\
    Recursive t (pt_mount_namespace_slot r) binding length' out.2 /\
    exists top b, get (mount_bindings t) top = None /\ get (mount_bindings out.2) top = Some b /\ out.1.2 = Some (mount_id b) /\
      mb_mount_namespace_slot b = pt_mount_namespace_slot r /\ target_guest b = CopyPath (ms_target_guest binding)).

Lemma add_recursive m t tid binding : Inv (settled m) t -> 0 <= m < 2 ^ 64 - 1 - kPathStateMountBindingCapacity ->
  RecursiveOutcome m t tid binding (AddRecursiveMountBinding t tid binding).
Proof.
  intros H Hm.
  assert (forall e o, e <> 0 -> RecursiveOutcome m t tid binding (e, o, t)) as Hfail.
  { intros e o He. unfold RecursiveOutcome. cbn [fst snd]. split; [exists m; split; [unfold kPathStateMountBindingCapacity; lia|done]|]. done. }
  unfold AddRecursiveMountBinding. destruct (_ || _ || _ || _); [by apply Hfail|].
  destruct (Z.eqb_spec (ValidateMountBindingSpec binding) 0) as [Hv|Hv]; cbn [negb]; [|by apply Hfail].
  unfold for_task. destruct (_ || _ || _); [by apply Hfail|]. destruct (FindTaskUnchecked t tid) as [slot|] eqn:Et; [|by apply Hfail].
  destruct (find_task _ _ H Et) as (r & Hr & -> & _). set (ns := pt_mount_namespace_slot r). destruct (task_namespace H _ _ Hr) as [n Hn]. fold ns in Hn.
  destruct (PathLength (ms_source_guest binding)) as [error|length'] eqn:El.
  { apply Hfail. intros ->. unfold PathLength in El. destruct (ms_source_guest binding); [|done]. by apply length_loop_error in El. }
  cbv zeta. set (source := path_of (ms_source_guest binding)). set (included := included_slots t ns source length').
  destruct (_ <? _); [by apply Hfail|].
  pose proof (created_more Hm no_marks t binding (created_none H Hn)) as Hadd.
  destruct (AddMountBindingInternal t ns binding) as [[error [top|]] t1]; [|by destruct Hadd as [He ->]; apply Hfail].
  destruct Hadd as (-> & HC & _ & Rtop & Hfree & Hsame & parent & Hp & Htop). pose proof (cr_inv _ _ _ _ _ _ HC) as H1.
  assert (binding_at t1 top = new_binding binding top ns parent (m + marks no_marks + 1)) as -> by exact (get_at (iv_bindings _ _ H1) _ _ Htop).
  cbn [new_binding mb_slot mount_id]. set (top_id := m + marks no_marks + 1) in *.
  set (c0 := Build_Clones t1 (<[Z.to_nat top := true]> no_marks) no_ids (marks included) false).
  assert (Z.of_nat (length included) = kPathStateMountBindingCapacity) as Hlen by exact (included_length ns source length' H).
  assert (forall x, 0 <= x < kPathStateMountBindingCapacity -> included !!! Z.to_nat x = true -> exists b, get (mount_bindings t) x = Some b) as Hinc.
  { intros x Hx Hi. destruct (included_get ns source length' x H Hx Hi) as (b & Hb & _). by exists b. }
  assert (Cloning (m := m) (t := t) (ns := ns) (n := n) binding included c0) as HC0.
  { split; cbn [cl_table created_slots cloned_ids remaining c0].
    - exact HC.
    - unfold no_ids. rewrite length_replicate. done.
    - unfold no_ids. rewrite pending_none; [done|]. unfold kPathStateMountBindingCapacity in *. lia.
    - intros x Hx _ Hne. unfold no_ids in Hne. rewrite lookup_total_replicate_2 in Hne; [done|]. unfold kPathStateMountBindingCapacity in *. lia. }
  pose proof (marks_bounds included) as Hmb.
  destruct (clone_loop_step Hm binding top_id included Hlen Hinc (Z.to_nat (marks included)) c0 HC0) as (HC2 & HP & Hdone); [cbn [c0 remaining]; lia|].
  destruct (clone_loop (Z.to_nat (marks included)) binding ns top_id included c0) as [e c]. cbn [fst snd] in HC2, HP, Hdone.
  pose proof (marks_bounds (created_slots c)) as Hmc. pose proof (cr_length _ _ _ _ _ _ (cg_created _ _ _ HC2)) as Hlc.
  destruct HC2 as [HC2 Hl2 Hrem Hcl]. cbv zeta. destruct (Z.eqb_spec e 0) as [->|He]; cbn [negb].
  - unfold RecursiveOutcome. cbn [fst snd]. split; [exists (m + marks (created_slots c)); split; [lia|exact (cr_inv _ _ _ _ _ _ HC2)]|].
    split; [exact (cr_others _ _ _ _ _ _ HC2)|]. split; [done|]. intros _. exists slot, r, length'. split_and!; [done..| |].
    + split.
      * intros x b Hb. pose proof (get_range (iv_bindings _ _ H) _ _ Hb) as Rx. rewrite (cr_old _ _ _ _ _ _ HC2 x Rx); [done|].
        destruct (_ !!! _) eqn:E; [|done]. destruct (cr_new _ _ _ _ _ _ HC2 x Rx E) as (E' & _). congruence.
      * intros x b Hb Hi. pose proof (get_range (iv_bindings _ _ H) _ _ Hb) as Rx.
        assert (included !!! Z.to_nat x = true) as Hix.
        { unfold included. rewrite (included_lookup _ _ _ _ H Rx). by rewrite (get_at (iv_bindings _ _ H) _ _ Hb : binding_at t x = b). }
        assert (included !! Z.to_nat x = Some true) as Hix' by (rewrite <- Hix; apply list_lookup_lookup_total_lt; lia).
        destruct (Hcl x Rx Hix) as (b1 & target & y & b' & E1 & E2 & E3 & E4 & E5 & E6).
        { apply (pending_done included (cloned_ids c) (Z.to_nat x)); [|done|apply list_lookup_lookup_total_lt; lia].
          rewrite <- Hrem. exact (Hdone eq_refl). }
        pose proof (get_range (iv_bindings _ _ (cr_inv _ _ _ _ _ _ HC2)) _ _ E4) as Ry.
        destruct (cr_new _ _ _ _ _ _ HC2 y Ry E3) as (F1 & b2 & F2 & F3 & _). exists target, y, b'. simplify_eq. done.
    + exists top, (new_binding binding top ns parent top_id). destruct (HP top (new_binding binding top ns parent top_id)) as [_ Htop2].
      * apply list_lookup_total_insert_eq. pose proof (cr_length _ _ _ _ _ _ HC) as Hl1. rewrite length_insert in Hl1. lia.
      * exact Htop.
      * done.
  - unfold RecursiveOutcome. cbn [fst snd]. rewrite erase_created_marks. destruct (created_undone H Hm Hn (created_slots c) (cl_table c) HC2) as (E1 & E2 & E3).
    split; [exists (m + marks (created_slots c)); split; [lia|exact E1]|]. split; [exact E2|]. split; [intros _; exact E3|intros E4; by destruct (He E4)].
Qed.
