(* ===== verification/PathFdInv.v ===== *)
(** * The descriptor operations keep the invariant *)

From S2P Require Import Prelude SlotArray SlotPool GuestPath PathState PathStorage PathStateOps PathTaskOps PathFdOps PathStateInv PathViews PathSteps PathObjectSteps PathReleases PathCopies PathTaskInv.
From stdpp Require Import list.
#[local] Open Scope Z_scope.

Lemma keeps_descriptors m t t' table tid f : Inv (Held [] [] [] [] [] None None m m) t' -> is_some (get (fd_tables t') table) = true ->
  0 <= m < 2 ^ 64 - 1 -> does t tid f t' -> keeps (does t tid f) m t (0, descriptors_changed t' table).
Proof.
  intros H Hd Hm Hdoes. destruct (get (fd_tables t') table) as [o|] eqn:Ho; [|done].
  apply (keeps_noted (touch_fd_table t' table) m); [|lia|done|exact Hdoes]. by apply (touch_table _ o).
Qed.

(** ** One identity *)

Lemma find_identity {g t} table fd s : Inv g t -> FindIdentityUnchecked t table fd = Some s ->
  exists r, get (fd_identities t) s = Some r /\ at_slot (fd_identities t) s = r /\ fi_slot r = s /\ fi_fd_table_slot r = table /\ fi_fd r = fd.
Proof.
  intros H E. apply (search_Some (iv_identities _ _ H)) in E as (r & Hr & E). bool_hyps. exists r.
  destruct (get_entry (iv_identities _ _ H) _ _ Hr) as [_ Hs]. cbn in Hs.
  split_and!; [done|exact (get_at (iv_identities _ _ H) _ _ Hr)|done|lia|lia].
Qed.

Lemma find_no_identity {g t} table fd : Inv g t -> FindIdentityUnchecked t table fd = None ->
  forall s r, get (fd_identities t) s = Some r -> fi_fd_table_slot r = table -> fi_fd r <> fd.
Proof. intros H E s r Hr Ht. pose proof (search_None (iv_identities _ _ H) _ E _ _ Hr) as Hx. simpl in Hx. lia. Qed.

(** An identity stored over another: the reference of the old one is left to the running code. *)
Lemma replace_step {f d n h i xt xn m b t} i' table s old new o : Inv (Held f d n h i xt xn m b) t -> get (fd_identities t) s = Some old ->
  fi_fd_table_slot old = table -> get (fd_tables t) table = Some o -> fi_occupied new = 1 -> fi_slot new = s ->
  fi_fd_table_slot new = table -> fi_fd new = fi_fd old -> identity_fields new = true -> object_fields new = true ->
  (forall x, held i' x + one (to_tree x new) = held i x + one (to_tree x old)) ->
  (forall tree, object_kind new = kFdIdentityObjectMountTree -> get (mount_trees t) (object_slot new) = Some tree ->
    mt_generation tree = object_generation new) ->
  Inv (Held f d n h i' xt xn m b) (with_fd_tables (with_identities t (put (fd_identities t) s new))
    (put (fd_tables t) table (set_fd_counts o (ft_refcount o) (entry_count o)
      (if Bool.eqb (identity_protected old) (identity_protected new) then protected_count o
       else if identity_protected new then u32 (protected_count o + 1) else u32 (protected_count o - 1))))).
Proof.
  intros H Hg Htb Ho Hocc Hs Htn Hfd Hf Hob Hh Hgen. pose proof (iv_identities _ _ H) as Hok.
  assert (in_use new = true) as Hu by (unfold in_use; cbn; by rewrite Hocc).
  destruct (entries_small _ _ H Ho) as (He & Hp & Hb & Hc).
  assert (identity_protected old = true -> 0 < protected_count o) as Hpp.
  { intros E. rewrite Hp. apply (count_if_pos Hok). exists s, old. split; [done|]. unfold protected_in. by rewrite E, Htb, Z.eqb_refl. }
  destruct (table_counted table o (entry_count o) (if Bool.eqb (identity_protected old) (identity_protected new) then protected_count o
    else if identity_protected new then u32 (protected_count o + 1) else u32 (protected_count o - 1)) H Ho) as (D1 & D2 & D3 & D4 & D5).
  apply (identities_step (i := i)); try done.
  - apply (pool_ok_put Hok _ _ _ Hg); try done; [cbn; lia|]. intros s' r0 Hr0 E. apply (get_unique Hok _ _ _ _ Hr0 Hg). cbn in *. congruence.
  - intros x. rewrite D3, (count_same Hok _ _ _ _ Hg Hu) by (unfold in_table; by rewrite Htn, Htb).
    destruct (decide _) as [->|]; [done|apply (iv_entries _ _ H)].
  - intros x. rewrite D4, (count_put Hok _ _ _ _ Hg Hu). pose proof (iv_protected _ _ H x) as Hpx. unfold protected_in at 2 3.
    rewrite Htn, Htb. destruct (identity_protected old), (identity_protected new); cbn [eqb]; rewrite ?u32_small by lia; slots.
  - intros x. rewrite (count_put Hok _ _ _ _ Hg Hu). specialize (Hh x). lia.
  - intros s' r' tree. rewrite (get_put Hok _ _ _ Hg Hu). destruct (decide _); [intros [= <-]; by apply Hgen|].
    exact (iv_generation _ _ H _ _ _).
Qed.

Lemma held_app l l' x : held (l ++ l') x = held l x + held l' x.
Proof. induction l as [|y l IH]; simpl; lia. Qed.

(** The references of an identity. *)
Definition tree_refs_of (r : FdIdentity) : list Z := if object_kind r =? kFdIdentityObjectMountTree then [object_slot r] else [].

Lemma tree_refs_held r x : held (tree_refs_of r) x = one (to_tree x r).
Proof. unfold tree_refs_of, to_tree. destruct (_ =? kFdIdentityObjectMountTree); simpl; [lia|done]. Qed.

(** The trees that remain keep their generations. *)
Definition trees_kept (t t' : PathStateTable) : Prop := forall x tr, get (mount_trees t') x = Some tr ->
  exists tr0, get (mount_trees t) x = Some tr0 /\ mt_generation tr = mt_generation tr0.

Lemma trees_namespaces t p : mount_trees (with_namespaces t p) = mount_trees t.
Proof. done. Qed.

Lemma erase_namespace_trees t s : mount_trees (EraseMountNamespaceSlot t s) = mount_trees t.
Proof.
  unfold EraseMountNamespaceSlot. rewrite trees_namespaces. apply (for_slots_same mount_trees). intros k t'. by destruct (_ && _).
Qed.

Lemma release_handle_trees t s : mount_trees (ReleaseMountNamespaceHandleReference t s) = mount_trees t.
Proof. unfold ReleaseMountNamespaceHandleReference. destruct (_ =? 0); [|done]. by rewrite erase_namespace_trees. Qed.

Lemma release_tree_trees {g t} s tree : Inv g t -> get (mount_trees t) s = Some tree -> trees_kept t (ReleaseMountTreeReference t s).
Proof.
  intros H Hs x tr. pose proof (iv_trees _ _ H) as Hok. unfold ReleaseMountTreeReference. rewrite (get_at Hok _ _ Hs).
  set (tree' := set_tree_refcount _ _). destruct (stays_in_use Hok s tree tree' Hs eq_refl) as [Hu _].
  destruct (negb _); [|rewrite release_handle_trees; cbn [mount_trees with_trees]; rewrite vacate_put, (get_vacate Hok _ _ _ Hs) by done];
    [cbn [mount_trees with_trees]; rewrite (get_put Hok _ _ _ Hs Hu)|]; destruct (decide (x = s)) as [->|].
  - intros [= <-]. by exists tree.
  - intros Hx. by exists tr.
  - done.
  - intros Hx. by exists tr.
Qed.

Lemma release_object_step {f d n h i xt m b t} old : Inv (Held f d n h (tree_refs_of old ++ i) xt None m b) t ->
  (object_kind old = kFdIdentityObjectMountTree -> exists tree, get (mount_trees t) (object_slot old) = Some tree) ->
  (length n < 900)%nat -> (length h < 800)%nat -> (length i < 900)%nat ->
  Inv (Held f d n h i xt None m b) (release_object t old) /\ others (release_object t old) = others t /\ trees_kept t (release_object t old).
Proof.
  intros H Hr Hn Hh Hi. unfold release_object, tree_refs_of in *. destruct (Z.eqb_spec (object_kind old) kFdIdentityObjectMountTree) as [E|].
  2:{ split; [exact H|]. split; [done|]. intros x tr Hx. by exists tr. }
  destruct (Hr E) as [tree Ht]. pose proof (get_range (iv_trees _ _ H) _ _ Ht). replace (_ <? _) with true by lia. cbn [andb]. split.
  - by apply release_tree in H as [H _]; [|simpl; lia..].
  - split; [apply release_tree_others|exact (release_tree_trees _ _ H Ht)].
Qed.

(** An identity replaced, and what the old one referred to released. *)
Lemma replace_identity_step {i m b t} table s old new o : Inv (Held [] [] [] [] (tree_refs_of new ++ i) None None m b) t -> (length i < 900)%nat ->
  get (fd_identities t) s = Some old -> fi_fd_table_slot old = table -> get (fd_tables t) table = Some o -> fi_occupied new = 1 -> fi_slot new = s ->
  fi_fd_table_slot new = table -> fi_fd new = fi_fd old -> identity_fields new = true -> object_fields new = true ->
  (forall tree, object_kind new = kFdIdentityObjectMountTree -> get (mount_trees t) (object_slot new) = Some tree ->
    mt_generation tree = object_generation new) ->
  Inv (Held [] [] [] [] i None None m b) (replace_identity t table s new) /\ trees_kept t (replace_identity t table s new) /\
  is_some (get (fd_tables (replace_identity t table s new)) table) = true /\
  tasks (replace_identity t table s new) = tasks t /\
  forall x, get (fd_identities (replace_identity t table s new)) x = if decide (x = s) then Some new else get (fd_identities t) x.
Proof.
  intros H Hi Hg Htb Ho Hocc Hs Htn Hfd Hf Hob Hgen. unfold replace_identity. rewrite (get_at (iv_identities _ _ H) _ _ Hg).
  cbn [fd_tables with_identities]. rewrite (get_at (iv_tables _ _ H) _ _ Ho).
  assert (forall x, held (tree_refs_of old ++ i) x + one (to_tree x new) = held (tree_refs_of new ++ i) x + one (to_tree x old)) as Hh.
  { intros x. rewrite !held_app, !tree_refs_held. lia. }
  pose proof (replace_step (tree_refs_of old ++ i) table s old new o H Hg Htb Ho Hocc Hs Htn Hfd Hf Hob Hh Hgen) as H1.
  destruct (release_object_step old H1 (fun E => identity_tree H _ _ Hg E)) as (H2 & E2 & K2); [simpl; lia..|done|].
  split; [exact H2|]. split; [exact K2|].
  destruct (others_split _ _ E2) as (-> & _ & -> & ->). cbn [fd_tables with_fd_tables tasks with_identities fd_identities].
  set (o' := set_fd_counts _ _ _ _).
  destruct (stays_in_use (iv_tables _ _ H) table o o' Ho eq_refl) as [Hu _]. split; [|split; [done|]].
  - rewrite (get_put (iv_tables _ _ H) _ _ _ Ho Hu). by rewrite decide_True.
  - apply (get_put (iv_identities _ _ H) _ _ _ Hg). unfold in_use. cbn. by rewrite Hocc.
Qed.

(** What an operation on one descriptor of a table does. *)
Lemma one_descriptor {m t t'} g' slot r f fd s o o' : Inv (settled m) t -> Inv g' t' -> tasks t' = tasks t -> get (tasks t) slot = Some r ->
  get (fd_identities t) s = o -> (forall x, get (fd_identities t') x = if decide (x = s) then o' else get (fd_identities t) x) ->
  (forall r0, o = Some r0 \/ o' = Some r0 -> fi_fd_table_slot r0 = pt_fd_table_slot r /\ fi_fd r0 = fd) -> o <> None \/ o' <> None ->
  f (entry (view t) (pt_fd_table_slot r)) fd = option_map described o' ->
  (forall y, y <> fd -> f (entry (view t) (pt_fd_table_slot r)) y = entry (view t) (pt_fd_table_slot r) y) ->
  does t (pt_tid r) (fun _ => revise (pt_tid r) f) t'.
Proof.
  intros H H' Et Hr Ho Hs Hk Hn Hf Hother. apply (does_unnamed _ _ _ H), (revised slot r f H H' Et Hr). intros x y.
  rewrite (entry_set s o o' (pt_fd_table_slot r) fd x y H H' Ho Hs Hk Hn). destruct (Z.eqb_spec x (pt_fd_table_slot r)) as [->|]; [|done].
  destruct (Z.eqb_spec y fd) as [->|Hne]; [done|]. by rewrite Hother.
Qed.

Lemma entry_found {g t} table fd s r : Inv g t -> get (fd_identities t) s = Some r -> fi_fd_table_slot r = table -> fi_fd r = fd ->
  entry (view t) table fd = Some (described r).
Proof. intros H Hr Ht Hf. apply (entry_Some _ _ _ H). by exists s, r. Qed.

Lemma entry_missing {g t} table fd : Inv g t -> FindIdentityUnchecked t table fd = None -> entry (view t) table fd = None.
Proof. intros H E. unfold view. cbn [entry]. unfold entries_of, found. unfold FindIdentityUnchecked in E. unfold at_key. by rewrite E. Qed.

(** The two ways an entry gains a description. *)
Lemma add_identity_seen t table s new : find_free (fd_identities t) = Some s -> fi_occupied new = 1 -> (exists g, Inv g t) ->
  tasks (add_identity t table s new) = tasks t /\
  forall x, get (fd_identities (add_identity t table s new)) x = if decide (x = s) then Some new else get (fd_identities t) x.
Proof.
  intros Hf Ho [g H]. split; [done|]. unfold add_identity. inv_cbn. apply (get_occupy (iv_identities _ _ H) _ _ Hf). unfold in_use. cbn. by rewrite Ho.
Qed.

(** ** Recording and duplicating *)

Lemma spec_fields spec slot table fd ns n : ValidateIdentitySpec spec = 0 -> 0 <= fd -> 0 <= ns < kPathStateMountNamespaceCapacity ->
  namespace_fields n = true ->
  let r := FillIdentity slot table fd spec ns (mn_identity_generation n) (mn_generation n) in
  identity_fields r = true /\ object_fields r = true.
Proof.
  intros Hv Hfd Hns Hn r. split; [|done]. unfold ValidateIdentitySpec in Hv. destruct (_ || _ || _) eqn:E; [done|].
  apply orb_false_iff in E as [E E3]. apply orb_false_iff in E as [E1 E2]. apply validate_stored in Hv. unfold stored in Hv.
  unfold namespace_fields in Hn. bool_hyps.
  unfold identity_fields, r. cbn [FillIdentity fi_fd fi_directory fi_cloexec fi_reserved fi_reserved2 fi_reserved3 fi_mount_namespace_slot
    fi_mount_namespace_identity fi_mount_namespace_generation fi_origin_flags fi_guest_path fi_host_path].
  rewrite Hv, !copied_padded. repeat match goal with Hz : zero ?a = false |- context [zero ?a] => rewrite Hz end.
  clear Hv. cbn [negb zero Z.eqb]. rewrite !andb_true_r. lia.
Qed.

Lemma find_task_of {g t} slot r : Inv g t -> get (tasks t) slot = Some r -> FindTaskUnchecked t (pt_tid r) = Some slot.
Proof.
  intros H Hr. apply (search_found (iv_tasks _ _ H) _ slot r Hr); [apply Z.eqb_refl|]. intros s' r' Hr' E.
  apply (get_unique (iv_tasks _ _ H) _ _ _ _ Hr' Hr). cbn. lia.
Qed.

Lemma recorded_as {g t} slot r q fd spec : Inv g t -> get (tasks t) slot = Some r -> 0 < pt_tid r ->
  get (mount_namespaces t) (pt_mount_namespace_slot r) = Some q ->
  recorded t (pt_tid r) fd spec =
  described (FillIdentity 0 0 fd spec (pt_mount_namespace_slot r) (mn_identity_generation q) (mn_generation q)).
Proof.
  intros H Hr Hpos Hq. unfold recorded, GetTaskMountNamespace, FindPathTask. rewrite (initialized H), (find_task_of slot r H Hr).
  replace (pt_tid r <=? 0) with false by lia. cbn [negb orb option_map]. unfold task_of. rewrite (get_at (iv_tasks _ _ H) _ _ Hr).
  rewrite (get_at (iv_namespaces _ _ H) _ _ Hq). destruct (get_entry (iv_namespaces _ _ H) _ _ Hq) as [_ Hs]. cbn in Hs. by rewrite Hs.
Qed.

(** What recording leaves: one identity of the task's table, new or overwritten. *)
Record Recorded (t : PathStateTable) (tid fd : Z) (spec : FdIdentitySpec) (t' : PathStateTable) (slot s : Z) (r : PathTaskState) (new : FdIdentity) : Prop := {
  re_task : get (tasks t) slot = Some r;
  re_tid : pt_tid r = tid;
  re_positive : 0 < tid;
  re_tasks : tasks t' = tasks t;
  re_old : forall r0, get (fd_identities t) s = Some r0 -> fi_fd_table_slot r0 = pt_fd_table_slot r /\ fi_fd r0 = fd;
  re_new : exists ns n, get (mount_namespaces t) ns = Some n /\ ns = pt_mount_namespace_slot r /\
    new = FillIdentity s (pt_fd_table_slot r) fd spec ns (mn_identity_generation n) (mn_generation n);
  re_fields : identity_fields new = true /\ object_fields new = true;
  re_identities : forall x, get (fd_identities t') x = if decide (x = s) then Some new else get (fd_identities t) x;
  re_trees : trees_kept t t' }.

Lemma record_step {i m b t} tid fd spec : Inv (Held [] [] [] [] i None None m b) t -> (length i < 900)%nat -> 0 <= m < 2 ^ 64 - 1 ->
  ((RecordFdIdentity t tid fd spec).1 <> 0 /\ (RecordFdIdentity t tid fd spec).2 = t) \/
  exists t', RecordFdIdentity t tid fd spec = (0, t') /\ Inv (Held [] [] [] [] i None None (m + 1) b) t' /\
    exists slot s r new, Recorded t tid fd spec t' slot s r new.
Proof.
  intros H Hi Hm. unfold RecordFdIdentity. rewrite (initialized H). cbn [negb orb]. destruct (tid <=? 0) eqn:Etid; [by left|].
  destruct (Z.ltb_spec fd 0) as [|Hfd]; [by left|]. cbn [orb].
  destruct (Z.eqb_spec (ValidateIdentitySpec spec) 0) as [Ev|]; cbn [negb]; [|by left].
  unfold with_task. rewrite (initialized H), Etid. cbn [negb orb]. destruct (FindTaskUnchecked t tid) as [slot|] eqn:Et; [|by left].
  destruct (find_task _ _ H Et) as (r & Hr & -> & Htid). cbv zeta. destruct (task_table H _ _ Hr) as [o Ho].
  destruct (task_namespace H _ _ Hr) as [q Hq]. rewrite (get_at (iv_namespaces _ _ H) _ _ Hq).
  destruct (get_entry (iv_namespaces _ _ H) _ _ Hq) as [Hqf _]. pose proof (get_range (iv_namespaces _ _ H) _ _ Hq) as Hqr.
  assert (forall t' s new, Inv (Held [] [] [] [] i None None m b) t' -> is_some (get (fd_tables t') (pt_fd_table_slot r)) = true ->
    Recorded t tid fd spec t' slot s r new -> exists t2, (0, descriptors_changed t' (pt_fd_table_slot r)) = (0, t2) /\
      Inv (Held [] [] [] [] i None None (m + 1) b) t2 /\ exists slot s r new, Recorded t tid fd spec t2 slot s r new) as Hend.
  { intros t' s new H' Hd [R1 R2 R3 R4 R5 R6 R7 R8 R9]. destruct (get (fd_tables t') (pt_fd_table_slot r)) as [o'|] eqn:Ho'; [|done].
    eexists. split; [reflexivity|]. split; [apply note_mutation; [by apply (touch_table _ o')|exact Hm]|]. exists slot, s, r, new. by split. }
  destruct (FindIdentityUnchecked _ _ _) as [s|] eqn:E.
  - right. destruct (find_identity _ _ _ H E) as (old & Hold & -> & Hs & Ht & Hf). rewrite Hs.
    destruct (spec_fields spec s (pt_fd_table_slot r) fd (pt_mount_namespace_slot r) q Ev Hfd Hqr Hqf) as [F1 F2].
    destruct (replace_identity_step (i := i) (pt_fd_table_slot r) s old (FillIdentity s (pt_fd_table_slot r) fd spec (pt_mount_namespace_slot r)
      (mn_identity_generation q) (mn_generation q)) o H Hi Hold) as (H' & Hk & Hd & Et' & Hids); try done.
    eapply (Hend _ s); [exact H'|exact Hd|]. split; try done; [lia| |by exists (pt_mount_namespace_slot r), q].
    intros r0 E0. rewrite Hold in E0. by injection E0 as <-.
  - destruct (find_free (fd_identities t)) as [s|] eqn:Ff; [|by left].
    destruct (spec_fields spec s (pt_fd_table_slot r) fd (pt_mount_namespace_slot r) q Ev Hfd Hqr Hqf) as [F1 F2].
    set (new := FillIdentity s _ _ _ _ _ _) in *.
    assert (Inv (Held [] [] [] [] i None None m b) (add_identity t (pt_fd_table_slot r) s new)) as H'.
    { apply (add_identity_step i s (pt_fd_table_slot r) new o H Ff); try done; [|intros x; unfold to_tree; cbn; lia].
      intros s' r' Hr' Ht'. by apply (find_no_identity _ _ H E s' r' Hr'). }
    destruct (add_identity_seen t (pt_fd_table_slot r) s new Ff eq_refl ltac:(by eexists)) as [Et' Hids]. right.
    destruct (find_free_Some (iv_identities _ _ H) _ Ff) as (_ & Hn & _).
    apply (Hend _ s new H').
    + unfold add_identity. inv_cbn. rewrite (get_at (iv_tables _ _ H) _ _ Ho). set (o' := set_fd_counts _ _ _ _).
      destruct (stays_in_use (iv_tables _ _ H) _ o o' Ho eq_refl) as [Hu _]. rewrite (get_put (iv_tables _ _ H) _ _ _ Ho Hu). by rewrite decide_True.
    + split; try done; [lia|congruence|by exists (pt_mount_namespace_slot r), q|]. intros x tr Hx. by exists tr.
Qed.

Lemma record_keeps m t tid fd spec : Inv (settled m) t -> 0 <= m < 2 ^ 64 - 1 ->
  keeps (does t tid (fun _ => unix_record tid fd (recorded t tid fd spec))) m t (RecordFdIdentity t tid fd spec).
Proof.
  intros H Hm. destruct (record_step tid fd spec H ltac:(simpl; lia) Hm) as [[He Et]|(t' & E & H' & slot & s & r & new & HR)].
  { destruct (RecordFdIdentity t tid fd spec) as [e t']. cbn [fst snd] in *. subst t'. by apply keeps_same. }
  rewrite E. apply keeps_changed; [apply (weaken_bound (b := m)); [exact H'|lia]|].
  destruct HR as [Hr <- Hpos Et Hold (ns & q & Hq & -> & ->) _ Hids _]. rewrite (recorded_as slot r q fd spec H Hr Hpos Hq). unfold unix_record.
  apply (one_descriptor _ slot r _ fd s (get (fd_identities t) s) _ H H' Et Hr eq_refl Hids); [|by right| |].
  - intros r0 [E0|E0]; [by apply Hold|by injection E0 as <-].
  - by rewrite Z.eqb_refl.
  - intros y Hy. by replace (y =? fd) with false by lia.
Qed.

(** The source of a duplicate holds its tree once more. *)
Lemma retain_object_step {m t} s r : Inv (settled m) t -> get (fd_identities t) s = Some r ->
  exists t', retain_object t r = (0, t') /\ Inv (Held [] [] [] [] (tree_refs_of r) None None m m) t' /\ others t' = others t /\
    (forall tree, object_kind r = kFdIdentityObjectMountTree -> get (mount_trees t') (object_slot r) = Some tree ->
      mt_generation tree = object_generation r).
Proof.
  intros H Hr. unfold retain_object, tree_refs_of. destruct (Z.eqb_spec (object_kind r) kFdIdentityObjectMountTree) as [E|E].
  - destruct (identity_tree H _ _ Hr E) as [tree Ht]. destruct (retain_tree (object_slot r) tree H ltac:(simpl; lia) Ht) as (-> & H1 & Hg).
    eexists. split; [done|]. split; [exact H1|]. split; [done|]. intros tr _ Htr. destruct (Hg _ _ Htr) as (tr0 & Htr0 & ->).
    exact (iv_generation _ _ H _ _ _ Hr E Htr0).
  - exists t. split; [done|]. split; [exact H|]. split; [done|]. intros tr E2. done.
Qed.

Lemma duplicate_fields r s table fd (cloexec : bool) : identity_fields r = true -> object_fields r = true -> 0 <= fd ->
  let r' := copied_identity r s table fd (if cloexec then 1 else 0) in identity_fields r' = true /\ object_fields r' = true.
Proof.
  intros Hf Ho Hfd r'. split; [|exact Ho]. unfold identity_fields, r' in *. cbn [copied_identity fi_fd fi_directory fi_cloexec
    fi_reserved fi_reserved2 fi_reserved3 fi_mount_namespace_slot fi_mount_namespace_identity fi_mount_namespace_generation
    fi_origin_flags fi_guest_path fi_host_path].
  replace (0 <=? fd) with true by (clear -Hfd; lia). replace ((if cloexec then 1 else 0) <=? 1) with true by (clear; by destruct cloexec).
  destruct (0 <=? fi_fd r); [|done]. destruct (fi_cloexec r <=? 1); [exact Hf|]. by rewrite andb_false_r in Hf.
Qed.

Lemma erase_descriptor m t slot task s r f : Inv (settled m) t -> get (tasks t) slot = Some task -> get (fd_identities t) s = Some r ->
  fi_fd_table_slot r = pt_fd_table_slot task -> 0 <= m < 2 ^ 64 - 1 ->
  f (entry (view t) (pt_fd_table_slot task)) (fi_fd r) = None ->
  (forall y, y <> fi_fd r -> f (entry (view t) (pt_fd_table_slot task)) y = entry (view t) (pt_fd_table_slot task) y) ->
  keeps (does t (pt_tid task) (fun _ => revise (pt_tid task) f)) m t (0, descriptors_changed (EraseIdentitySlot t s) (pt_fd_table_slot task)).
Proof.
  intros H Htask Hr Ht Hm Hf Ho. destruct (erase_identity s r H Hr) as [H' _]; [simpl; lia..|]. apply keeps_descriptors; [exact H'| |done|].
  - destruct (erase_identity_tables s r H Hr) as [-> _]. rewrite <- Ht. destruct (identity_table H _ _ Hr) as [o Hd]. by rewrite Hd.
  - destruct (erase_identity_others t s) as (Et & _ & _ & Ei).
    apply (one_descriptor _ slot task f (fi_fd r) s (Some r) None H H' Et Htask Hr); [| |by left|done|done].
    + rewrite Ei. by apply (get_vacate (iv_identities _ _ H) s r).
    + intros r0 [E0|E0]; [by injection E0 as <-|done].
Qed.

Lemma duplicate_keeps m t tid old_fd new_fd cloexec : Inv (settled m) t -> 0 <= m < 2 ^ 64 - 1 ->
  keeps (does t tid (fun _ => unix_duplicate tid old_fd new_fd cloexec)) m t (DuplicateFdIdentity t tid old_fd new_fd cloexec).
Proof.
  intros H Hm. unfold DuplicateFdIdentity, unix_duplicate. apply keeps_task; [exact H|]. intros slot r Hr _ <- _ Hbad. apply orb_false_iff in Hbad as [_ Hnew].
  apply Z.ltb_ge in Hnew. destruct (Z.eqb_spec old_fd new_fd) as [|Hne]; [apply keeps_same; [exact H|intros _; by apply (does_unnamed _ (fun u => u) _ H)]|].
  cbv zeta. destruct (task_table H _ _ Hr) as [o Ho].
  set (f := fun (e : Z -> option FdIdentity) (x : Z) => if x =? new_fd
    then option_map (fun d => redescribed d new_fd (if cloexec then 1 else 0)) (e old_fd) else e x).
  assert (forall e, f e new_fd = option_map (fun d => redescribed d new_fd (if cloexec then 1 else 0)) (e old_fd)) as Enew
    by (intros e; unfold f; by rewrite Z.eqb_refl).
  assert (forall e y, y <> new_fd -> f e y = e y) as Eother by (intros e y Hy; unfold f; by replace (y =? new_fd) with false by lia).
  assert (forall src s', Some (described (copied_identity src s' (pt_fd_table_slot r) new_fd (if cloexec then 1 else 0))) =
    option_map (fun d => redescribed d new_fd (if cloexec then 1 else 0)) (Some (described src))) as Ecopy by (intros src s'; by destruct cloexec).
  destruct (FindIdentityUnchecked t _ old_fd) as [s|] eqn:Es, (FindIdentityUnchecked t _ new_fd) as [s'|] eqn:Es'.
  - destruct (find_identity _ _ _ H Es) as (src & Hsrc & -> & Hss & Hst & Hsf). destruct (find_identity _ _ _ H Es') as (old & Hold & -> & Hos & Hot & Hof).
    rewrite Hos. destruct (get_entry (iv_identities _ _ H) _ _ Hsrc) as [[F1 F2] _].
    destruct (retain_object_step s src H Hsrc) as (t1 & -> & H1 & E1 & Hgen). cbn [negb Z.eqb].
    destruct (others_split _ _ E1) as (Et & _ & Ed & Ei). set (new := copied_identity src s' _ _ _).
    destruct (duplicate_fields src s' (pt_fd_table_slot r) new_fd cloexec F1 F2 Hnew) as [G1 G2].
    destruct (replace_identity_step (i := []) (m := m) (b := m) (t := t1) (pt_fd_table_slot r) s' old new o) as (H2 & _ & Hd & T2 & I2);
      try done; try (by rewrite ?Ei, ?Ed); [by rewrite app_nil_r|simpl; lia|].
    apply keeps_descriptors; [exact H2|exact Hd|done|]. rewrite Ei in I2. rewrite Et in T2.
    apply (one_descriptor _ slot r f new_fd s' (Some old) (Some new) H H2 T2 Hr Hold I2); [|by left| |exact (Eother _)].
    + intros r0 [E0|E0]; by injection E0 as <-.
    + rewrite Enew, (entry_found _ old_fd s src H Hsrc Hst Hsf). symmetry. exact (Ecopy src s').
  - destruct (find_identity _ _ _ H Es) as (src & Hsrc & -> & Hss & Hst & Hsf). destruct (get_entry (iv_identities _ _ H) _ _ Hsrc) as [[F1 F2] _].
    destruct (find_free (fd_identities t)) as [s'|] eqn:Ff; [|by apply keeps_same].
    destruct (retain_object_step s src H Hsrc) as (t1 & -> & H1 & E1 & Hgen). cbn [negb Z.eqb].
    destruct (others_split _ _ E1) as (Et & _ & Ed & Ei). rewrite Hst. set (new := copied_identity src s' _ _ _).
    destruct (duplicate_fields src s' (pt_fd_table_slot r) new_fd cloexec F1 F2 Hnew) as [G1 G2].
    assert (Inv (settled m) (add_identity t1 (pt_fd_table_slot r) s' new)) as H2.
    { apply (add_identity_step [] s' (pt_fd_table_slot r) new o H1); try done; try by rewrite ?Ei, ?Ed.
      - rewrite Ei. intros x r' Hr' Ht'. by apply (find_no_identity _ _ H Es' x r' Hr').
      - intros x. rewrite tree_refs_held. done. }
    destruct (add_identity_seen t1 (pt_fd_table_slot r) s' new) as [T2 I2]; [by rewrite Ei|done|by eexists|]. rewrite Ei in I2. rewrite Et in T2.
    apply keeps_descriptors; [exact H2| |done|].
    2:{ destruct (find_free_Some (iv_identities _ _ H) _ Ff) as (_ & Hn & _).
        apply (one_descriptor _ slot r f new_fd s' None (Some new) H H2 T2 Hr Hn I2); [|by right| |exact (Eother _)].
        - intros r0 [E0|E0]; [done|by injection E0 as <-].
        - rewrite Enew, (entry_found _ old_fd s src H Hsrc Hst Hsf). symmetry. exact (Ecopy src s'). }
    + unfold add_identity. inv_cbn. rewrite Ed, (get_at (iv_tables _ _ H) _ _ Ho). set (o' := set_fd_counts _ _ _ _).
      destruct (stays_in_use (iv_tables _ _ H) _ o o' Ho eq_refl) as [Hu _]. rewrite (get_put (iv_tables _ _ H) _ _ _ Ho Hu). by rewrite decide_True.
  - destruct (find_identity _ _ _ H Es') as (old & Hold & -> & Hos & Hot & Hof). rewrite Hos. pose proof (erase_descriptor m t slot r s' old f H Hr Hold Hot Hm) as HE. rewrite Hof in HE.
    apply HE; [|exact (Eother _)]. rewrite Enew. by rewrite (entry_missing _ _ H Es).
  - apply keeps_same; [exact H|]. intros _. apply (does_unnamed _ _ _ H), (revised slot r f H H eq_refl Hr). intros x y.
    destruct (Z.eqb_spec x (pt_fd_table_slot r)) as [->|]; [|done]. destruct (decide (y = new_fd)) as [->|Hy]; [|by rewrite Eother].
    rewrite Enew. by rewrite (entry_missing _ _ H Es), (entry_missing _ _ H Es').
Qed.

Lemma close_keeps m t tid fd : Inv (settled m) t -> 0 <= m < 2 ^ 64 - 1 ->
  keeps (does t tid (fun _ => unix_close tid fd)) m t (CloseFdIdentity t tid fd).
Proof.
  intros H Hm. unfold CloseFdIdentity. apply keeps_task; [exact H|]. intros slot r Hr _ <- _ _. unfold unix_close.
  destruct (FindIdentityUnchecked _ _ _) as [s|] eqn:E.
  - destruct (find_identity _ _ _ H E) as (old & Hold & -> & Hs & Ht & Hf). rewrite Hs. subst fd.
    apply (erase_descriptor m t slot r s old _ H Hr Hold Ht Hm); [by rewrite Z.eqb_refl|].
    intros y Hy. by replace (y =? fi_fd old) with false by lia.
  - apply keeps_same; [exact H|]. intros _. apply (does_unnamed _ _ _ H), (revised slot r _ H H eq_refl Hr). intros x y.
    destruct (Z.eqb_spec x (pt_fd_table_slot r)) as [->|]; [|done]. destruct (Z.eqb_spec y fd) as [->|]; [|done].
    by rewrite (entry_missing _ _ H E).
Qed.

(** ** Close-on-exec and ranges *)

Definition marked (r : FdIdentity) (mark : Z) : FdIdentity :=
  Build_FdIdentity (fi_occupied r) (fi_slot r) (fi_fd_table_slot r) (fi_fd r) (fi_origin_flags r)
    (fi_directory r) mark (fi_reserved r) (fi_device r) (fi_inode r) (fi_mount_namespace_slot r)
    (fi_reserved2 r) (fi_mount_namespace_identity r) (fi_mount_namespace_generation r) (object_kind r)
    (object_flags r) (object_slot r) (fi_reserved3 r) (object_generation r) (fi_guest_path r) (fi_host_path r).

Lemma set_cloexec_step {f d n h i xt xn m b t} s r mark : Inv (Held f d n h i xt xn m b) t -> get (fd_identities t) s = Some r -> mark = 0 \/ mark = 1 ->
  Inv (Held f d n h i xt xn m b) (set_cloexec t s mark) /\ others (set_cloexec t s mark) =
    (tasks t, fs_contexts t, fd_tables t, fd_identities (set_cloexec t s mark)) /\
  (forall x, get (fd_identities (set_cloexec t s mark)) x = if decide (x = s) then Some (marked r mark) else get (fd_identities t) x).
Proof.
  intros H Hg Hm. pose proof (iv_identities _ _ H) as Hok. destruct (get_entry Hok _ _ Hg) as [[Hf Hob] Hs].
  destruct (stays_in_use Hok s r (marked r mark) Hg eq_refl) as [Hu Hle].
  assert (set_cloexec t s mark = with_identities t (put (fd_identities t) s (marked r mark))) as ->.
  { unfold set_cloexec. by rewrite (get_at Hok _ _ Hg). }
  split; [|split; [done|exact (get_put Hok _ _ _ Hg Hu)]].
  change (with_identities t (put (fd_identities t) s (marked r mark))) with
    (with_fd_tables (with_identities t (put (fd_identities t) s (marked r mark))) (fd_tables t)).
  apply (identities_step (i := i)); try done.
  - apply (pool_ok_put Hok _ _ _ Hg); try done.
    + split; [|exact Hob]. unfold identity_fields in *. cbn [marked fi_fd fi_directory fi_cloexec fi_reserved fi_reserved2 fi_reserved3
        fi_mount_namespace_slot fi_mount_namespace_identity fi_mount_namespace_generation fi_origin_flags fi_guest_path fi_host_path].
      replace (mark <=? 1) with true by (clear -Hm; lia). destruct (fi_cloexec r <=? 1); [exact Hf|]. by rewrite andb_false_r in Hf.
    + intros s' r0 Hr0 E. by apply (get_unique Hok _ _ _ _ Hr0 Hg).
  - exact (iv_tables _ _ H).
  - intros x. rewrite (count_same Hok _ _ _ _ Hg Hu) by done. apply (iv_entries _ _ H).
  - intros x. rewrite (count_same Hok _ _ _ _ Hg Hu) by done. apply (iv_protected _ _ H).
  - intros x. rewrite (count_same Hok _ _ _ _ Hg Hu) by done. lia.
  - intros s' r' tree. rewrite (get_put Hok _ _ _ Hg Hu). destruct (decide _); [intros [= <-]; exact (iv_generation _ _ H _ _ _ Hg)|].
    exact (iv_generation _ _ H _ _ _).
Qed.

Lemma marked_described r mark : described (marked r (if mark : bool then 1 else 0)) = with_mark (described r) (if mark then 1 else 0).
Proof. by destruct mark. Qed.

Lemma set_cloexec_keeps m t tid fd cloexec : Inv (settled m) t -> 0 <= m < 2 ^ 64 - 1 ->
  keeps (does t tid (fun _ => unix_set_cloexec tid fd cloexec)) m t (SetFdIdentityCloexec t tid fd cloexec).
Proof.
  intros H Hm. unfold SetFdIdentityCloexec, unix_set_cloexec. apply keeps_task; [exact H|]. intros slot r Hr _ <- _ _. cbv zeta.
  set (f := fun (e : Z -> option FdIdentity) (x : Z) => if x =? fd then option_map (fun d => with_mark d (if cloexec then 1 else 0)) (e x) else e x).
  assert (forall e, f e fd = option_map (fun d => with_mark d (if cloexec then 1 else 0)) (e fd)) as Efd by (intros e; unfold f; by rewrite Z.eqb_refl).
  assert (forall e y, y <> fd -> f e y = e y) as Eother by (intros e y Hy; unfold f; by replace (y =? fd) with false by lia).
  assert (f (entry (view t) (pt_fd_table_slot r)) fd = entry (view t) (pt_fd_table_slot r) fd ->
    keeps (does t (pt_tid r) (fun _ => revise (pt_tid r) f)) m t (0, t)) as Hsame.
  { intros Ef. apply keeps_same; [exact H|]. intros _. apply (does_unnamed _ _ _ H), (revised slot r f H H eq_refl Hr). intros x y.
    destruct (Z.eqb_spec x (pt_fd_table_slot r)) as [->|]; [|done]. destruct (decide (y = fd)) as [->|Hy]; [done|by rewrite Eother]. }
  destruct (FindIdentityUnchecked _ _ _) as [s|] eqn:E; [|apply Hsame; by rewrite Efd, (entry_missing _ _ H E)].
  destruct (find_identity _ _ _ H E) as (old & Hold & Hat & Hs & Ht & Hf). rewrite Hat.
  pose proof (entry_found _ fd s old H Hold Ht Hf) as Hent.
  destruct (Z.eqb_spec (fi_cloexec old) (if cloexec then 1 else 0)) as [Ec|].
  { apply Hsame. rewrite Efd, Hent. cbn [option_map]. f_equal. rewrite <- marked_described. unfold marked, described.
    cbn [redescribed fi_fd fi_cloexec]. by rewrite Ec. }
  destruct (task_table H _ _ Hr) as [o Ho].
  destruct (set_cloexec_step s old (if cloexec then 1 else 0) H Hold) as (H' & _ & Hids); [destruct cloexec; [by right|by left]|].
  apply keeps_descriptors; [exact H'| |done|]; [cbn [set_cloexec with_identities fd_tables]; by rewrite Ho|].
  apply (one_descriptor _ slot r f fd s (Some old) _ H H' eq_refl Hr Hold Hids); [|by left| |exact (Eother _)].
  - intros r0 [E0|E0]; by injection E0 as <-.
  - rewrite Efd, Hent. cbn [option_map]. by rewrite marked_described.
Qed.

(** The identities of the range. *)
Definition in_range (table first last : Z) (r : FdIdentity) : bool := (fi_fd_table_slot r =? table) && FdInRange (fi_fd r) first last.
Definition closed (table first last : Z) (preserve : bool) (r : FdIdentity) : bool :=
  in_range table first last r && negb (preserve && identity_protected r).

(** The loop that closes erases what it finds in the range. *)
Lemma close_loop_erases t table first last preserve :
  fst (close_range_loop t table first last false preserve) = erase_where (closed table first last preserve) t.
Proof.
  unfold close_range_loop, erase_where. apply (for_slots_map fst). intros k [t' changed]. cbn [fst]. unfold closed, in_range.
  destruct (in_use _), (_ =? table), (FdInRange _ _ _); cbn [negb orb andb fst]; try done. by destruct (preserve && _).
Qed.

(** The loop that marks, and what it leaves. *)
Record Marked (table first last : Z) (t t' : PathStateTable) : Prop := {
  ma_tasks : tasks t' = tasks t;
  ma_contexts : fs_contexts t' = fs_contexts t;
  ma_tables : fd_tables t' = fd_tables t;
  ma_namespaces : mount_namespaces t' = mount_namespaces t;
  ma_bindings : mount_bindings t' = mount_bindings t;
  ma_trees : mount_trees t' = mount_trees t;
  ma_identities : forall x, get (fd_identities t') x = match get (fd_identities t) x with
    Some r => Some (if in_range table first last r && (fi_cloexec r =? 0) then marked r 1 else r) | None => None end }.

Lemma mark_loop m t table first last preserve : Inv (settled m) t ->
  let t' := fst (close_range_loop t table first last true preserve) in Inv (settled m) t' /\ Marked table first last t t'.
Proof.
  intros H. cbv zeta. unfold close_range_loop. set (body := fun slot '(t, changed) => _).
  assert (forall s r, get (fd_identities t) s = Some r -> fi_slot r = s) as Hsl.
  { intros s r Hg. by destruct (get_entry (iv_identities _ _ H) _ _ Hg). }
  set (Q := fun k (s : PathStateTable * bool) => Inv (settled m) (fst s) /\
    (tasks (fst s), fs_contexts (fst s), fd_tables (fst s), mount_namespaces (fst s), mount_bindings (fst s), mount_trees (fst s)) =
    (tasks t, fs_contexts t, fd_tables t, mount_namespaces t, mount_bindings t, mount_trees t) /\
    forall x, get (fd_identities (fst s)) x = match get (fd_identities t) x with
      Some r => Some (if (x <? k) && in_range table first last r && (fi_cloexec r =? 0) then marked r 1 else r) | None => None end).
  assert (Q kPathStateFdIdentityCapacity (for_slots kPathStateFdIdentityCapacity body (t, false))) as HQ.
  { apply for_slots_ind; [done| |].
    - split; [done|]. split; [done|]. intros x. cbn [fst]. destruct (get _ x) as [r0|] eqn:E; [|done].
      pose proof (get_range (iv_identities _ _ H) _ _ E). by replace (x <? 0) with false by lia.
    - intros k [t' changed] Hk (H' & Eo & Hids). cbn [fst] in H', Eo, Hids. pose proof (iv_identities _ _ H') as Hok.
      assert (forall c t2, Inv (settled m) t2 -> (tasks t2, fs_contexts t2, fd_tables t2, mount_namespaces t2, mount_bindings t2, mount_trees t2) =
          (tasks t', fs_contexts t', fd_tables t', mount_namespaces t', mount_bindings t', mount_trees t') ->
        (forall x, get (fd_identities t2) x = if decide (x = k) then match get (fd_identities t') k with
           Some r => Some (if in_range table first last r && (fi_cloexec r =? 0) then marked r 1 else r) | None => None end
          else get (fd_identities t') x) -> Q (k + 1) (t2, c)) as Hdone.
      { intros c t2 H2 E2 Hx. split; [exact H2|]. split; [cbn [fst]; by rewrite E2|]. intros x. cbn [fst]. rewrite Hx.
        destruct (decide (x = k)) as [->|Hne]; rewrite Hids.
        - destruct (get (fd_identities t) k) as [r0|]; [|done]. replace (k <? k) with false by lia. by replace (k <? k + 1) with true by lia.
        - destruct (get (fd_identities t) x) as [r0|]; [|done]. by replace (x <? k + 1) with (x <? k) by lia. }
      assert (forall c, (forall r, get (fd_identities t') k = Some r -> in_range table first last r && (fi_cloexec r =? 0) = false) -> Q (k + 1) (t', c)) as Hskip.
      { intros c Hn. apply Hdone; [done|done|]. intros x. destruct (decide (x = k)) as [->|]; [|done].
        destruct (get (fd_identities t') k) as [r0|]; [|done]. by rewrite Hn. }
      unfold body. destruct (in_use _) eqn:Hu; cbn [negb orb].
      2:{ apply Hskip. intros r0 Hr0. rewrite <- (get_at Hok _ _ Hr0) in Hr0. apply (get_in_use Hok) in Hr0. congruence. }
      pose proof (at_slot_get k Hok Hk Hu) as Hg. set (rk := at_slot (fd_identities t') k) in *.
      destruct (negb _ || negb _) eqn:E.
      { apply Hskip. intros r0 Hr0. rewrite Hg in Hr0. injection Hr0 as <-. unfold in_range. rewrite <- negb_andb in E.
        apply negb_true_iff in E. by rewrite E. }
      destruct (fi_cloexec rk =? 0) eqn:Ec.
      2:{ apply Hskip. intros r0 Hr0. rewrite Hg in Hr0. injection Hr0 as <-. by rewrite Ec, andb_false_r. }
      destruct (set_cloexec_step k rk 1 H' Hg ltac:(by right)) as (H2 & E2 & Hx). apply Hdone; [exact H2|done|].
      intros x. rewrite Hx, Hg. destruct (decide _); [|done]. rewrite <- negb_andb in E. apply negb_false_iff in E. unfold in_range. by rewrite E, Ec. }
  revert HQ. generalize (for_slots kPathStateFdIdentityCapacity body (t, false)). intros s (H' & Eo & Hids). split; [exact H'|].
  injection Eo as E1 E2 E3 E4 E5 E6. split; [done..|]. intros x. rewrite Hids. destruct (get (fd_identities t) x) as [r0|] eqn:E; [|done].
  pose proof (get_range (iv_identities _ _ H) _ _ E). by replace (x <? kPathStateFdIdentityCapacity) with true by lia.
Qed.

(** What the loop leaves of the entries. *)
Lemma loop_entries m t table first last flags preserve : Inv (settled m) t ->
  let t' := fst (close_range_loop t table first last (has flags kPathCloseRangeCloexec) preserve) in
  Inv (settled m) t' /\ tasks t' = tasks t /\ (forall x, is_some (get (fd_tables t') x) = is_some (get (fd_tables t) x)) /\
  forall x y, entry (view t') x y = if x =? table
    then match entry (view t) table y with Some d => range_keeps preserve first last flags d | None => None end else entry (view t) x y.
Proof.
  intros H. cbv zeta. set (k := fun (x : Z) d => if x =? table then range_keeps preserve first last flags d else Some d).
  assert (forall t', (forall x y, entry (view t') x y = match entry (view t) x y with Some d => k x d | None => None end) ->
    forall x y, entry (view t') x y = if x =? table
      then match entry (view t) table y with Some d => range_keeps preserve first last flags d | None => None end else entry (view t) x y) as Hk.
  { intros t' He x y. rewrite He. unfold k. destruct (Z.eqb_spec x table) as [->|]; [done|]. by destruct (entry (view t) x y). }
  unfold range_keeps in k. destruct (has flags kPathCloseRangeCloexec).
  - destruct (mark_loop m t table first last preserve H) as [H' [M1 _ M3 _ _ _ M7]]. split_and!; [exact H'|exact M1|by rewrite M3|].
    revert H' M7. clear M1 M3. generalize (fst (close_range_loop t table first last true preserve)). intros t' H' M7. apply Hk. intros x y.
    apply (entry_map _ k x y H H' M7).
    + intros r. by destruct (in_range table first last r && _).
    + intros r. unfold k, in_range. change (fi_fd (described r)) with (fi_fd r). cbn [option_map]. destruct (_ =? table); [|done].
      destruct (FdInRange _ _ _); [|done]. cbn [andb negb]. destruct (Z.eqb_spec (fi_cloexec r) 0); [done|].
      unfold described, with_mark. cbn [redescribed fi_cloexec fi_fd]. by replace (fi_cloexec r =? 0) with false by lia.
  - rewrite close_loop_erases. destruct (erase_where_step (closed table first last preserve) H) as [H' [_ E2 _ E4 _ E6]]; [simpl; lia..|].
    split_and!; [exact H'|exact E2|exact E4|]. revert H' E6. clear E2 E4. generalize (erase_where (closed table first last preserve) t). intros t' H' E6.
    apply Hk. intros x y. apply (entry_map (fun r => if closed table first last preserve r then None else Some r) k x y H H' E6).
    + intros r. by destruct (closed _ _ _ _ r).
    + intros r. unfold k, closed, in_range. change (fi_fd (described r)) with (fi_fd r).
      change (identity_protected (described r)) with (identity_protected r). destruct (_ =? table); [|done].
      destruct (FdInRange _ _ _); [|done]. cbn [andb negb]. by destruct (preserve && _).
Qed.

Lemma passes_range (preserve : bool) first last flags d : described d = d ->
  passes (if has flags kPathCloseRangeCloexec then (if preserve then kCloexecRangePreserveProtected else kCloexecRange)
    else (if preserve then kCloseRangePreserveProtected else kCloseRange)) first last d = range_keeps preserve first last flags d.
Proof.
  intros Hd. pose proof (with_own_mark d Hd) as Hm. unfold passes, range_keeps.
  destruct (has flags kPathCloseRangeCloexec), preserve; cbn [ShouldCopyIdentity copied_cloexec]; destruct (FdInRange _ _ _);
    cbn [negb andb]; try done; rewrite ?Hm; try done. by destruct (identity_protected d).
Qed.

Lemma close_range_keeps preserve m t tid first last flags : Inv (settled m) t -> 0 <= m < 2 ^ 64 - 1 ->
  keeps (does t tid (unix_close_range preserve tid first last flags)) m t (close_range preserve t tid first last flags).
Proof.
  intros H Hm. unfold close_range. apply keeps_task; [exact H|]. intros slot r Hr _ <- _ _. cbv zeta. destruct (task_table H _ _ Hr) as [o Ho].
  rewrite (get_at (iv_tables _ _ H) _ _ Ho). unfold unix_close_range. cbv zeta.
  destruct (has flags kPathCloseRangeUnshare && _) eqn:Eu.
  - apply andb_true_iff in Eu as [-> _]. set (mode := if has flags kPathCloseRangeCloexec then _ else _).
    pose proof (passes_range preserve first last flags) as Hpass. fold mode in Hpass. clearbody mode.
    destruct (find_free (fd_tables t)) as [fd|] eqn:Ff; [|by apply keeps_same]. destruct (_ <? _) eqn:C; [by apply keeps_same|].
    pose proof (copy_table (pt_fd_table_slot r) fd mode first last o H ltac:(simpl; lia) Ho Ff) as HC. cbv zeta in HC. rewrite C in HC.
    destruct HC as (t2 & -> & [HI Et _ _ _ _ _ _ _ _ _] & HV). cbn [negb Z.eqb].
    change (tasks (OccupyEmptyFdTable t fd (NextGeneration (ft_generation o)))) with (tasks t) in Et. pose proof Hr as Hr0. rewrite <- Et in Hr.
    destruct (move_files_step slot r fd HI) as (H3 & T3 & _ & _ & L3); [simpl; lia..|done|]. apply (keeps_noted _ m); [exact H3|lia|done|].
    apply does_noted. exists fd. split; [exact (free_private _ fd H Ff)|].
    assert (same (view (move_files t2 slot fd)) (own (pt_tid r) fd (passes mode first last) (view t))) as V3.
    { refine (copy_moved slot r r _ fd _ H HI H3 Hr0 Hr eq_refl _ HV T3 eq_refl eq_refl eq_refl L3).
      intros tid. unfold view. cbn [table_of]. by rewrite Et. }
    etrans; [exact V3|]. by apply (own_ext _ _ _ _ H).
  - destruct (loop_entries m t (pt_fd_table_slot r) first last flags preserve H) as (H' & Et & Ed & He). revert H' Et Ed He.
    generalize (close_range_loop t (pt_fd_table_slot r) first last (has flags kPathCloseRangeCloexec) preserve).
    intros [t' changed] H' Et Ed He. cbn [fst] in H', Et, Ed, He.
    assert (does t (pt_tid r) (fun name u => if has flags kPathCloseRangeUnshare then own (pt_tid r) name (range_keeps preserve first last flags) u
      else revise (pt_tid r) (fun e x => match e x with Some d => range_keeps preserve first last flags d | None => None end) u) t') as Hdoes.
    { assert (same (view t') (revise (pt_tid r) (fun e x => match e x with Some d => range_keeps preserve first last flags d | None => None end) (view t)))
        as HV by (by apply (revised slot r _ H H' Et Hr)).
      destruct (has flags kPathCloseRangeUnshare); cbn [andb] in Eu; [|exact (does_unnamed _ _ _ H HV)].
      exists (pt_fd_table_slot r). split; [apply (alone_private slot r o H Hr Ho); lia|]. etrans; [exact HV|]. symmetry.
      by apply own_in_place, (table_of_task slot r H). }
    destruct changed; [by apply keeps_descriptors; [|rewrite Ed, Ho|..]|]. split; [done|]. split; [by intros _|]. exists m. split; [lia|exact H'].
Qed.
