(* ===== verification/PathTreeInv.v ===== *)
(** * Mount trees and their descriptors keep the invariant

    AttachMountTree: a tree that is attached moves with its mount; one that is
    detached gets a mount at the target and, oldest first, the mounts below
    its source. When an addition fails the mounts added so far are erased.
    RecordMountTreeFdIdentity: the tree holds its namespace, a copy or the
    live one, the recorded identity holds the tree; when recording fails the
    tree is released, and with it the copy. *)

From S2P Require Import Prelude SlotArray SlotPool GuestPath GuestPathText PathState PathStorage PathStateOps PathTaskOps PathFdOps PathStateInv PathMounts PathTranslate PathMountMoves PathTreeOps PathViews PathSteps PathObjectSteps PathResolve PathReleases PathCopies PathTaskInv PathMountSteps PathMountInv PathMoveInv PathVisible PathCloneInv PathFdInv.
From stdpp Require Import list.
#[local] Open Scope Z_scope.

(** ** Erasing the last mount *)

Lemma erase_marks_single t top : 0 <= top < kPathStateMountBindingCapacity ->
  erase_marks (<[Z.to_nat top := true]> no_marks) t = EraseMountBindingSlot t top.
Proof.
  intros Htop. unfold erase_marks. set (body := fun slot t => _).
  assert ((fun k t' => t' = if top <? k then EraseMountBindingSlot t top else t) kPathStateMountBindingCapacity
    (for_slots kPathStateMountBindingCapacity body t)) as Hend.
  2:{ cbv beta in Hend. rewrite Hend. by replace (top <? kPathStateMountBindingCapacity) with true by lia. }
  apply (for_slots_ind (fun k t' => t' = if top <? k then EraseMountBindingSlot t top else t)); [done|by replace (top <? 0) with false by lia|].
  intros k t' Hk ->. unfold body. clear body. destruct (decide (k = top)) as [->|Hne].
  - rewrite list_lookup_total_insert_eq by (unfold no_marks; rewrite length_replicate; unfold kPathStateMountBindingCapacity in *; lia).
    replace (top <? top) with false by lia. by replace (top <? top + 1) with true by lia.
  - rewrite list_lookup_total_insert_ne by lia. unfold no_marks. rewrite lookup_total_replicate_2 by (unfold kPathStateMountBindingCapacity in *; lia).
    cbn [negb]. by replace (top <? k + 1) with (top <? k) by lia.
Qed.

(** ** The mounts attached so far *)

Section Attaching.
Context {m : Z} {t : PathStateTable} {ns : Z} {n : MountNamespaceState}.
Hypothesis H : Inv (settled m) t.
Hypothesis Hm : 0 <= m < 2 ^ 64 - 1 - kPathStateMountBindingCapacity.
Hypothesis Hn : get (mount_namespaces t) ns = Some n.
Variables (top : Z) (btop : MountBindingState).
Hypothesis Htop : 0 <= top < kPathStateMountBindingCapacity.
Hypothesis Hparent : parent_mount_id btop <= m.
Hypothesis Hns : mb_mount_namespace_slot btop = ns.

Definition with_top (created : list bool) : list bool := <[Z.to_nat top := true]> created.

Record Attaching (a : Attached) : Prop := {
  aa_created : Created m t ns n (with_top (at_created a)) (at_table a);
  aa_top : get (mount_bindings (at_table a)) top = Some btop;
  aa_fresh : at_created a !!! Z.to_nat top = false }.

Definition attached_outcome (t' : PathStateTable) : Prop :=
  (exists m', m <= m' <= m + kPathStateMountBindingCapacity /\ Inv (settled m') t') /\ others t' = others t /\ mount_trees t' = mount_trees t.

Lemma attaching_outcome a : Attaching a -> attached_outcome (at_table a).
Proof.
  intros [HC _ _]. pose proof (marks_bounds (with_top (at_created a))). pose proof (cr_length _ _ _ _ _ _ HC).
  split; [exists (m + marks (with_top (at_created a))); split; [lia|exact (cr_inv _ _ _ _ _ _ HC)]|].
  split; [exact (cr_others _ _ _ _ _ _ HC)|exact (cr_trees _ _ _ _ _ _ HC)].
Qed.

Lemma attaching_length a : Attaching a -> Z.of_nat (length (at_created a)) = kPathStateMountBindingCapacity.
Proof. intros [HC _ _]. pose proof (cr_length _ _ _ _ _ _ HC) as Hl. unfold with_top in Hl. by rewrite length_insert in Hl. Qed.

(** The mounts created are erased first, then the top one, if it is found. *)
Lemma undo_outcome a : Attaching a -> attached_outcome (undo_attach a ns (mount_id btop)).
Proof.
  intros HA. pose proof (attaching_length a HA) as Hl. destruct HA as [HC Ht Hf]. set (marked := with_top (at_created a)) in *.
  pose proof (marks_bounds marked) as Hmb. pose proof (cr_length _ _ _ _ _ _ HC) as Hlm. unfold undo_attach. rewrite erase_created_marks.
  assert (forall x, 0 <= x < kPathStateMountBindingCapacity -> x <> top -> marked !!! Z.to_nat x = at_created a !!! Z.to_nat x) as Hmarked.
  { intros x Hx Hne. unfold marked, with_top. rewrite list_lookup_total_insert_ne; [done|]. lia. }
  destruct (created_erased H Hm marked (at_created a) (at_table a) HC Hl) as (H2 & Ho & Htr & Hget & n2 & Hn2 & _).
  - intros x Hx Ex. rewrite Hmarked; [done..|]. intros ->. congruence.
  - intros x b y b' Hb Ens Ex Hb' Ens' Ey. pose proof (get_range (iv_bindings _ _ (cr_inv _ _ _ _ _ _ HC)) _ _ Hb') as Ry.
    assert (m < mount_id b').
    { destruct (created_at marked (at_table a) y b' HC Hb') as [(_ & _ & Hid)|[E _]]; [exact Hid|]. rewrite Hmarked in E; [congruence|done|].
      intros ->. congruence. }
    destruct (created_at marked (at_table a) x b HC Hb) as [[E _]|[_ Hold]].
    + assert (x = top) as ->; [|assert (b = btop) as -> by congruence; lia].
      destruct (decide (x = top)); [done|]. rewrite Hmarked in E; [congruence| |done].
      exact (get_range (iv_bindings _ _ (cr_inv _ _ _ _ _ _ HC)) _ _ Hb).
    + pose proof (parent_old H Hn x b Hold Ens). lia.
  - revert H2 Ho Htr Hget Hn2. generalize (erase_marks (at_created a) (at_table a)). intros t2 H2 Ho Htr Hget Hn2.
    assert (attached_outcome t2) as Hout by (split; [exists (m + marks marked); split; [lia|done]|done]).
    unfold FindMountBindingById. destruct (search _ _) as [s|] eqn:Es; [|exact Hout].
    apply (search_Some (iv_bindings _ _ H2)) in Es as (b & Hb & Es). apply andb_true_iff in Es as [Ens Eid].
    assert (get (mount_bindings t2) top = Some btop) as Htop2 by (rewrite Hget, Hf; exact Ht).
    assert (s = top) as -> by (apply (get_unique (iv_bindings _ _ H2) _ _ _ _ Hb Htop2); cbn; f_equal; lia).
    assert (b = btop) as -> by congruence. rewrite <- (erase_marks_single t2 top Htop).
    set (single := <[Z.to_nat top := true]> no_marks).
    assert (forall x, 0 <= x < kPathStateMountBindingCapacity -> single !!! Z.to_nat x = true -> x = top) as Hsingle.
    { intros x Hx. destruct (decide (x = top)) as [|Hne]; [done|]. unfold single. rewrite list_lookup_total_insert_ne by lia.
      unfold no_marks. rewrite lookup_total_replicate_2; [done|]. unfold kPathStateMountBindingCapacity in *. lia. }
    assert (m < mount_id btop) as Hid.
    { destruct (created_at marked (at_table a) top btop HC Ht) as [(_ & _ & Hid)|[E _]]; [exact Hid|].
      unfold marked, with_top in E. rewrite list_lookup_total_insert_eq in E by lia. done. }
    destruct (erase_marks_closed single t2 ns n2 H2 Hn2) as [H3 [_ _ _ _ Ho3 Ht3]].
    + intros x Hx ->%Hsingle; [|done]. exists btop. split_and!; [done..|]. intros Href.
      apply (referred_same t) in Href; [|done|done]. apply (referred_old H) in Href; lia.
    + intros x b0 y b' Hb0 Ens0 Ex Hb' Ens' Ey. pose proof (get_range (iv_bindings _ _ H2) _ _ Hb') as Ry. apply (Hsingle y Ry) in Ey as ->.
      assert (b' = btop) as -> by congruence. pose proof (get_range (iv_bindings _ _ H2) _ _ Hb0) as Rx. rewrite Hget in Hb0.
      destruct (at_created a !!! Z.to_nat x) eqn:Ea; [done|].
      destruct (created_at marked (at_table a) x b0 HC Hb0) as [(E & _)|[_ Hold]].
      * assert (x <> top) as Hne by (intros ->; unfold single in Ex; rewrite list_lookup_total_insert_eq in Ex; [done|];
          unfold no_marks; rewrite length_replicate; unfold kPathStateMountBindingCapacity in *; lia).
        rewrite Hmarked in E by done. congruence.
      * pose proof (parent_old H Hn x b0 Hold Ens0). lia.
    + split; [exists (m + marks marked); split; [lia|exact H3]|]. split; [by rewrite Ho3|by rewrite Ht3].
Qed.

(** The loop: it ends with every mount attached, or with an error. *)
Lemma attach_loop_step tree target included fuel : forall a, Attaching a ->
  let out := attach_loop fuel tree ns (mount_id btop) target included a in
  attached_outcome out.2 /\ (out.1 = 0 -> get (mount_bindings out.2) top = Some btop).
Proof.
  induction fuel as [|fuel IH]; intros a HA; cbn [attach_loop].
  - split; [by apply attaching_outcome|]. intros _. exact (aa_top _ HA).
  - destruct (next_attached a tree (mount_id btop) included) as [[[slot sq] parent]|]; [|split; [by apply undo_outcome|done]]. cbv zeta.
    destruct (SubstitutePathPrefix _ _ _) as [error|rewritten] eqn:Esub.
    { cbn [fst snd]. split; [by apply attaching_outcome|]. intros _. exact (aa_top _ HA). }
    set (spec := cloned_spec (binding_at (at_table a) slot) rewritten parent). pose proof (created_more Hm _ _ spec (aa_created _ HA)) as Hmore.
    pose proof (attaching_length a HA) as Hl.
    destruct (AddMountBindingInternal (at_table a) ns spec) as [[error [y|]] t2].
    + destruct Hmore as (_ & HC2 & _ & Ry & Hfree & Hsame & _). apply IH. destruct HA as [HC Ht Hf].
      assert (y <> top) as Hne by congruence. split; cbn [at_table at_created].
      * unfold with_top. rewrite list_insert_insert_ne by lia. exact HC2.
      * by rewrite Hsame.
      * by rewrite list_lookup_total_insert_ne by lia.
    + destruct Hmore as [He ->]. cbn [fst snd]. split; [|by destruct (Z.eqb_spec error 0)].
      apply (undo_outcome (Build_Attached (at_table a) (at_created a) (at_ids a))). destruct HA. by split.
Qed.
End Attaching.

(** ** AttachMountTree *)

Lemma attach_flags f : zero (f &&& not32 kMountTreeStateKnownFlags) = true ->
  let f' := (f &&& not32 kMountTreeStateDetached) ||| kMountTreeStateAttached in
  zero (f' &&& not32 kMountTreeStateKnownFlags) = true /\ has f' kMountTreeStateAttached = true /\ has f' kMountTreeStateDetached = false.
Proof.
  intros Hf. unfold zero in *. apply Z.eqb_eq in Hf. cbv zeta. rewrite Z.land_lor_distr_l. split_and!.
  - rewrite <- Z.land_assoc, (Z.land_comm (not32 _)), Z.land_assoc, Hf. reflexivity.
  - unfold has. rewrite Z.land_lor_distr_l. apply negb_true_iff, Z.eqb_neq. rewrite Z.lor_eq_0_iff. intros [_ E]. discriminate E.
  - unfold has. rewrite Z.land_lor_distr_l, <- Z.land_assoc. change (not32 kMountTreeStateDetached &&& kMountTreeStateDetached) with 0.
    by rewrite Z.land_0_r.
Qed.

Lemma attach_tree_fields r ns id target : tree_fields r = true -> id <> 0 -> ValidateCanonicalPath target = 0 ->
  tree_fields (attach_tree r ns id target) = true.
Proof.
  intros Hf Hid Ht. pose proof (copied_canonical target Ht) as Hc. unfold tree_fields, tree_attached, tree_detached in *.
  cbn [attach_tree mt_reserved mt_state_flags mt_generation handle_id source_mount_id mt_source_guest mt_source_host mt_reserved2
    attached_namespace_slot attached_mount_id attached_target_guest].
  assert (zero id = false) as Ez by (unfold zero; lia). rewrite Hc, Ez. clear Hc Ez. revert Hf.
  generalize (canonical_storage (mt_source_guest r)) (canonical_storage (mt_source_host r)). intros c1 c2.
  match goal with |- context [if ?d then ?x else ?y] => generalize (if d then x else y) end. intros last Hf. bool_hyps.
  destruct (attach_flags (mt_state_flags r)) as (E1 & E2 & E3); [done|]. rewrite E1, E2, E3. subst.
  by repeat match goal with E : zero _ = _ |- _ => rewrite E; clear E end.
Qed.

(** The parent of a new mount has a number already. *)
Lemma parent_numbered {m t} ns n binding parent : Inv (settled m) t -> get (mount_namespaces t) ns = Some n ->
  parent_for t ns binding = inr parent -> parent <= m.
Proof.
  intros H Hn Hp. destruct (parent_rises ns n binding parent H Hn ltac:(done) Hp) as [k Hk]. inversion Hk as [|? q k' _ Hq _]; subst.
  - exact (iv_roots _ _ H _ _ Hn).
  - apply (parent_of_Some (iv_bindings _ _ H)) in Hq as (x & r & Hx & _ & <- & _). exact (proj1 (iv_ids _ _ H _ _ Hx)).
Qed.

Lemma with_trees_others t R : others (with_trees t R) = others t. Proof. done. Qed.

(** What attaching leaves: the invariant, and the other arrays. *)
Definition attach_kept (m : Z) (t : PathStateTable) (out : Outcome) : Prop :=
  (exists m', m <= m' <= m + kPathStateMountBindingCapacity /\ Inv (settled m') out.2) /\ others out.2 = others t.

Section Detached.
Context {m : Z} {t : PathStateTable} (ns k : Z) (n : MountNamespaceState) (tree : MountTreeState).
Hypothesis H : Inv (settled m) t.
Hypothesis Hm : 0 <= m < 2 ^ 64 - 1 - kPathStateMountBindingCapacity.
Hypothesis Hn : get (mount_namespaces t) ns = Some n.
Hypothesis Hlive : 0 < task_refcount n.
Hypothesis Hk : get (mount_trees t) k = Some tree.

Lemma attach_detached_keeps target : ValidateCanonicalPath target = 0 -> attach_kept m t (attach_detached t ns k target).
Proof.
  intros Ht. assert (forall e o, attach_kept m t (e, o, t)) as Hfail.
  { intros e o. split; [exists m; split; [unfold kPathStateMountBindingCapacity; lia|exact H]|done]. }
  unfold attach_detached. cbv zeta. generalize (match PathLength (Some (mt_source_guest (at_slot (mount_trees t) k))) with inr l => l | inl _ => O end). intros len.
  rewrite (get_at (iv_trees _ _ H) _ _ Hk). set (included := tree_slots t tree len).
  destruct (negb _); [apply Hfail|]. destruct (_ <? _); [apply Hfail|]. destruct (negb (parents_included _ _ _)); [apply Hfail|].
  set (spec := attached_spec t tree target). pose proof (created_more Hm no_marks t spec (created_none H Hn)) as Hadd.
  destruct (AddMountBindingInternal t ns spec) as [[error [top|]] t1]; [|by destruct Hadd as [_ ->]; apply Hfail].
  destruct Hadd as (-> & HC & _ & Rtop & Hfree & _ & parent & Hp & Htop). pose proof (cr_inv _ _ _ _ _ _ HC) as H1.
  set (btop := new_binding spec top ns parent (m + marks no_marks + 1)) in *.
  assert (binding_at t1 top = btop) as -> by exact (get_at (iv_bindings _ _ H1) _ _ Htop).
  assert (Attaching (m := m) (t := t) (ns := ns) (n := n) top btop (Build_Attached t1 no_marks no_ids)) as HA.
  { split; [exact HC|exact Htop|]. cbn [at_created]. unfold no_marks. apply lookup_total_replicate_2. unfold kPathStateMountBindingCapacity in *. lia. }
  pose proof (parent_numbered ns n spec parent H Hn Hp) as Hpm.
  destruct (attach_loop_step H Hm Hn top btop Rtop Hpm eq_refl tree (path_of target) included (Z.to_nat (marks included)) _ HA) as [(Hout & Ho & Htr) Hat].
  destruct (attach_loop _ _ _ _ _ _ _) as [e t2]. cbn [fst snd] in *. destruct (Z.eqb_spec e 0) as [->|He]; cbn [negb]; [|by split].
  split; [|exact Ho]. destruct Hout as (m' & Hm' & H2). exists m'. split; [exact Hm'|]. cbn [snd].
  specialize (Hat eq_refl). assert (get (mount_trees t2) k = Some tree) as Hk2 by (by rewrite Htr).
  rewrite (get_at (iv_trees _ _ H2) _ _ Hk2). pose proof (get_entry (iv_trees _ _ H2) _ _ Hk2) as [Hf Hs].
  assert (mount_id btop <> 0) as Hid by (cbn [btop new_binding mount_id]; pose proof (marks_bounds no_marks); lia).
  apply (put_tree_at [] k tree _ H2 Hk2); try done.
  - by apply attach_tree_fields.
  - exact (iv_tree_live _ _ H _ _ Hk).
  - intros _. cbn [attach_tree attached_namespace_slot attached_mount_id].
    assert (field task_refcount (mount_namespaces t2) ns = field task_refcount (mount_namespaces t) ns) as E.
    { rewrite (iv_ns_refs _ _ H2), (iv_ns_refs _ _ H). destruct (others_split _ _ Ho) as (ET & _). by rewrite ET. }
    rewrite E, (field_get _ _ _ Hn). split; [|exact Hlive].
    destruct (get (mount_namespaces t2) ns) as [n2|] eqn:Hn2; [|unfold field in E; rewrite Hn2, Hn in E; lia].
    exists n2. split; [done|]. right. rewrite (proj2 (parent_of_Some (iv_bindings _ _ H2) ns (mount_id btop) (parent_mount_id btop))); [done|].
    by exists top, btop.
  - intros x. cbn [attach_tree mt_refcount held]. lia.
Qed.

Lemma move_attached_keeps tid target : tree_attached tree = true -> ValidateCanonicalPath target = 0 ->
  (exists m', m <= m' <= m + 1 /\ Inv (settled m') (move_attached t tid ns k target).2) /\ does t tid (fun _ u => u) (move_attached t tid ns k target).2.
Proof.
  intros Ha Ht. assert (forall (e : Z) (o : option Z), (exists m', m <= m' <= m + 1 /\ Inv (settled m') (e, o, t).2) /\ does t tid (fun _ u => u) (e, o, t).2) as Hfail.
  { intros e o. split; [exists m; split; [lia|exact H]|by apply (others_silent t tid H)]. }
  unfold move_attached. cbv zeta. destruct (negb _); [apply (Hfail EXDEV (Some 0))|]. destruct (FindMountBindingById _ _ _); [|apply (Hfail ESTALE (Some 0))].
  destruct (negb _); [apply (Hfail ESTALE (Some 0))|].
  assert (0 <= m < 2 ^ 64 - 1) as Hm' by (unfold kPathStateMountBindingCapacity in Hm; lia).
  pose proof (move_mount_keeps m t tid (AttachedTarget k) target H Hm' (or_introl (ex_intro _ tree (conj Hk Ha)))) as HK.
  destruct (MoveMountBinding t tid (AttachedTarget k) target) as [e t1]. destruct HK as (He & Hd & m' & Hm1 & H1). cbn [fst snd] in *.
  destruct (Z.eqb_spec e 0) as [->|Hne]; cbn [negb]; [|rewrite (He Hne); apply (Hfail e (Some 0))].
  destruct (Hd eq_refl) as [Hdo (tree1 & Hk1 & Ha1)]. rewrite (get_at (iv_trees _ _ H1) _ _ Hk1).
  destruct (tree_paths_step k tree1 (mt_source_guest tree1) (CopyPath target) H1 Hk1 (or_introl eq_refl)) as [H2 _].
  - right. split; [exact Ha1|by apply copied_canonical].
  - split; [by exists m'|]. eapply does_same; [exact Hdo|done].
Qed.
End Detached.

Definition AttachOutcome (m : Z) (t : PathStateTable) (tid : Z) (out : Outcome) : Prop :=
  (exists m', m <= m' <= m + kPathStateMountBindingCapacity /\ Inv (settled m') out.2) /\ does t tid (fun _ u => u) out.2.

Lemma attach_mount_tree m t tid fd target : Inv (settled m) t -> 0 <= m < 2 ^ 64 - 1 - kPathStateMountBindingCapacity ->
  AttachOutcome m t tid (AttachMountTree t tid fd target).
Proof.
  intros H Hm. assert (forall e o, AttachOutcome m t tid (e, o, t)) as Hfail.
  { intros e o. split; [exists m; split; [unfold kPathStateMountBindingCapacity; lia|exact H]|by apply (others_silent t tid H)]. }
  unfold AttachMountTree. cbv zeta. destruct (_ || _); [apply Hfail|]. destruct (Z.eqb_spec (ValidateCanonicalPath target) 0) as [Ht|]; cbn [negb]; [|apply Hfail].
  apply (for_task_cases H (AttachOutcome m t tid)); [apply Hfail..|]. intros slot r Hr _ _.
  destruct (FindIdentityUnchecked _ _ _) as [s|] eqn:Es; [|apply Hfail]. destruct (find_identity _ _ _ H Es) as (i & Hi & -> & _).
  destruct (Z.eqb_spec (object_kind i) kFdIdentityObjectMountTree) as [Ei|]; cbn [negb orb]; [|apply Hfail].
  destruct (kPathStateMountTreeCapacity <=? object_slot i); [apply Hfail|].
  destruct (identity_tree H _ _ Hi Ei) as [tree Hk]. set (k := object_slot i) in *. rewrite (get_at (iv_trees _ _ H) _ _ Hk).
  destruct (_ || _); [apply Hfail|]. destruct (task_namespace H _ _ Hr) as [n Hn]. set (ns := pt_mount_namespace_slot r) in *.
  destruct (Z.eqb_spec (attached_mount_id tree) 0) as [Ea|Ea]; cbn [negb].
  - assert (0 < task_refcount n) as Hlive.
    { rewrite <- (field_get task_refcount _ _ Hn), (iv_ns_refs _ _ H). cbn [settled g_ns held].
      enough (0 < count_if (uses_ns ns) (tasks t)) by lia. apply (count_if_pos (iv_tasks _ _ H)). exists slot, r. split; [done|]. unfold uses_ns. lia. }
    destruct (attach_detached_keeps ns k n tree H Hm Hn Hlive Hk target Ht) as [Hout Ho]. split; [exact Hout|by apply (others_silent _ tid H)].
  - assert (tree_attached tree = true) as Hta.
    { pose proof (get_entry (iv_trees _ _ H) _ _ Hk) as [Hf _]. unfold tree_fields in Hf.
      destruct (tree_detached tree); [|bool_hyps; by destruct (tree_attached tree)]. bool_hyps. unfold zero in *. lia. }
    destruct (move_attached_keeps ns k tree H Hm Hk tid target Hta Ht) as [(m' & Hm' & H') Hd]. split; [|exact Hd].
    exists m'. split; [unfold kPathStateMountBindingCapacity; lia|exact H'].
Qed.

(** ** Descriptors of mount trees *)

Section Tree.
Context {f d n h i : list Z} {xt xn : option Z} {m b : Z} {t : PathStateTable}.

(** A new tree takes over a reference to its namespace; the running code holds it. *)
Lemma occupy_tree s r : Inv (Held f d n (mt_mount_namespace_slot r :: h) i xt xn m b) t -> find_free (mount_trees t) = Some s ->
  mt_occupied r = 1 -> mt_slot r = s -> tree_fields r = true -> mt_refcount r = 1 -> handle_id r <= b ->
  (forall x r0, get (mount_trees t) x = Some r0 -> handle_id r0 <> handle_id r) ->
  mounted (mount_namespaces t) (mount_bindings t) (mt_mount_namespace_slot r) (source_mount_id r) ->
  (tree_attached r = true -> mounted (mount_namespaces t) (mount_bindings t) (attached_namespace_slot r) (attached_mount_id r) /\
    0 < field task_refcount (mount_namespaces t) (attached_namespace_slot r)) ->
  Inv (Held f d n h (s :: i) xt xn m b) (with_trees t (occupy (mount_trees t) s r)).
Proof.
  intros H Hf Ho Hs He Hr Hid Hkey Hsrc Hatt. pose proof (iv_trees _ _ H) as Hok.
  assert (in_use r = true) as Hu by (unfold in_use; cbn; by rewrite Ho).
  pose proof (iv_tree_refs _ _ H s) as Hz. rewrite (field_free Hok _ _ Hf) in Hz. cbn [g_trees] in Hz.
  pose proof (held_nonneg i s). pose proof (count_if_bounds (iv_identities _ _ H) (to_tree s)).
  inv_step H.
  - by apply (pool_ok_occupy Hok).
  - intros x. rewrite (count_occupy Hok _ _ _ Hf Hu). pose proof (iv_handle_refs _ _ H x) as Hc. unfold handle_of at 2.
    cbn [held g_handles] in Hc |- *. lia.
  - intros x. rewrite (field_occupy Hok _ _ _ Hf Hu). pose proof (iv_tree_refs _ _ H x) as Hc. cbn [held g_trees] in Hc |- *. slots.
  - intros x r0. rewrite (get_occupy Hok _ _ Hf Hu). destruct (decide _); [intros [= <-]; lia|exact (iv_tree_live _ _ H _ _)].
  - intros x r0 tree Hi Hk. rewrite (get_occupy Hok _ _ Hf Hu). destruct (decide _) as [E|]; [|exact (iv_generation _ _ H _ _ _ Hi Hk)].
    assert (0 < count_if (to_tree s) (fd_identities t)); [|lia]. apply (count_if_pos (iv_identities _ _ H)). exists x, r0. split; [done|].
    unfold to_tree. lia.
  - intros x r0. rewrite (get_occupy Hok _ _ Hf Hu). destruct (decide _); [by intros [= <-]|exact (iv_source _ _ H _ _)].
  - intros x r0. rewrite (get_occupy Hok _ _ Hf Hu). destruct (decide _); [by intros [= <-]|exact (iv_attached _ _ H _ _)].
  - intros x r0. rewrite (get_occupy Hok _ _ Hf Hu). destruct (decide _); [by intros [= <-]|exact (iv_handles _ _ H _ _)].
Qed.
End Tree.

(** ** The namespace of a tree *)

Lemma retain_handle {m t} ns r : Inv (settled m) t -> get (mount_namespaces t) ns = Some r ->
  Inv (Held [] [] [] [ns] [] None None m m) (with_namespaces t (put (mount_namespaces t) ns
    (set_namespace_counts r (u32 (mn_refcount r + 1)) (binding_count r) (task_refcount r) (u32 (handle_refcount r + 1))))).
Proof.
  intros H Hg. destruct (namespace_refs ns r H) as (_ & _ & Ht & Hh & Hm); [simpl; lia..|exact Hg|].
  destruct (get_entry (iv_namespaces _ _ H) _ _ Hg) as [He Hs]. rewrite !u32_small by lia.
  apply (put_ns [] [ns] ns r _ H Hg); try done.
  - cbn. lia.
  - cbn. intros _. lia.
  - intros x. cbn. lia.
  - intros x. cbn [set_namespace_counts handle_refcount held]. unfold one. rewrite Z.eqb_sym. destruct (ns =? x); lia.
  - cbn [set_namespace_counts task_refcount]. destruct (Z.ltb_spec 0 (task_refcount r)); [by left|right].
    intros x tree Hx Ha E. destruct (iv_attached _ _ H _ _ Hx Ha) as [_ A]. rewrite E, (field_get _ _ _ Hg) in A. lia.
Qed.

Lemma tree_namespace_step {m t} ns r clone_tree : Inv (settled m) t -> 0 <= m < 2 ^ 64 - 1 -> get (mount_namespaces t) ns = Some r ->
  match tree_namespace t ns clone_tree with (error, ns', t') =>
    (error <> 0 /\ t' = t) \/
    (error = 0 /\ Inv (Held [] [] [] [ns'] [] None None m (m + 1)) t' /\ others t' = others t /\ mount_trees t' = mount_trees t /\
      (clone_tree = false -> ns' = ns) /\ exists r', get (mount_namespaces t') ns' = Some r')
  end.
Proof.
  intros H Hm Hg. unfold tree_namespace. rewrite (get_at (iv_namespaces _ _ H) _ _ Hg : namespace_at t ns = r). destruct clone_tree.
  - destruct (find_free (mount_namespaces t)) as [slot|] eqn:Ef; [|by left]. destruct (_ <? _) eqn:Eb; [by left|].
    pose proof (copy_namespace_step false ns slot r H Hm ltac:(lia) Hg Ef) as HC. rewrite Eb in HC.
    destruct HC as (t' & -> & H' & [E1 E2 E3 E4]). right. split_and!; try done.
    destruct (E3 (root_mount_id r)) as (r' & Hr' & _); [|by exists r']. exists r. split; [done|by left].
  - destruct (_ || _); [by left|]. right. split_and!; try done.
    + apply (weaken_bound (b := m)); [|lia]. by apply retain_handle.
    + set (r' := set_namespace_counts _ _ _ _ _). exists r'. destruct (stays_in_use (iv_namespaces _ _ H) ns r r' Hg eq_refl) as [Hu _].
      unfold put_namespace. cbn [mount_namespaces with_namespaces]. rewrite (get_put (iv_namespaces _ _ H) ns r r' Hg Hu). by rewrite decide_True.
Qed.

(** ** The tree *)

Definition source_id (t : PathStateTable) (ns : Z) (source : option Z) : Z :=
  match source with None => root_mount_id (namespace_at t ns) | Some s => mount_id (binding_at t s) end.
Definition source_target (t : PathStateTable) (source : option Z) : Path :=
  CopyPath (Some match source with None => [SLASH] | Some s => target_guest (binding_at t s) end).

(** The mount a path is on: one of the namespace. *)
Lemma source_mounted {g t} ns r guest : Inv g t -> get (mount_namespaces t) ns = Some r ->
  let source := ResolveVisibleMount t ns guest in
  mounted (mount_namespaces t) (mount_bindings t) ns (source_id t ns source) /\ source_id t ns source <> 0 /\ canonical_storage (source_target t source) = true.
Proof.
  intros H Hr. cbv zeta. unfold source_id, source_target. destruct (ResolveVisibleMount t ns guest) as [s|] eqn:Es.
  - destruct (resolve_selected H _ _ _ Es) as (bd & Hb & -> & Hns & _). destruct (get_entry (iv_bindings _ _ H) _ _ Hb) as [Hf _].
    unfold binding_fields in Hf. bool_hyps. split; [|split].
    + exists r. split; [done|]. right. rewrite (proj2 (parent_of_Some (iv_bindings _ _ H) ns (mount_id bd) (parent_mount_id bd))); [done|].
      by exists s, bd.
    + apply Z.eqb_neq. assumption.
    + apply copied_canonical. match goal with Hc : canonical_storage (target_guest bd) = true |- _ => exact (proj1 (proj1 (canonical_storage_spec _) Hc)) end.
  - rewrite (get_at (iv_namespaces _ _ H) _ _ Hr : namespace_at t ns = r). destruct (get_entry (iv_namespaces _ _ H) _ _ Hr) as [Hf _].
    unfold namespace_fields in Hf. bool_hyps. split; [|split; [apply Z.eqb_neq; assumption|vm_compute; reflexivity]]. exists r. split; [done|by left].
Qed.

Lemma new_tree_fields t slot ns generation clone_tree source guest host : generation <> 0 ->
  ValidateCanonicalPath guest = 0 -> ValidateCanonicalPath host = 0 ->
  source_id t ns source <> 0 ->
  canonical_storage (source_target t source) = true ->
  tree_fields (new_tree t slot ns generation clone_tree source guest host) = true.
Proof.
  intros Hg Hgu Hho Hid Hc. pose proof (copied_canonical guest Hgu) as C1. pose proof (copied_canonical host Hho) as C2.
  unfold tree_fields, tree_attached, tree_detached, new_tree.
  cbn [mt_reserved mt_state_flags mt_generation handle_id source_mount_id mt_source_guest mt_source_host mt_reserved2
    attached_namespace_slot attached_mount_id attached_target_guest].
  revert Hid Hc. fold (source_id t ns source). fold (source_target t source). generalize (source_id t ns source).
  generalize (source_target t source). intros q id Hid Hc.
  rewrite C1, C2. assert (zero generation = false) as -> by (by apply Z.eqb_neq). assert (zero id = false) as Ez by (by apply Z.eqb_neq).
  destruct clone_tree; cbn [negb andb]; rewrite Ez, ?Hc; reflexivity.
Qed.

(** ** The descriptor *)

Lemma set_object_fields r kind slot generation : identity_fields r = true -> identity_fields (set_object r kind slot generation) = true.
Proof. intros Hf. exact Hf. Qed.

Lemma with_fd_tables_same t : with_fd_tables t (fd_tables t) = t.
Proof. by destruct t. Qed.

(** An identity that refers to nothing takes over the reference to a tree. *)
Lemma refer_step {m b t} s k new tree o : Inv (Held [] [] [] [] [k] None None m b) t -> get (fd_identities t) s = Some new -> fi_occupied new = 1 ->
  object_kind new <> kFdIdentityObjectMountTree -> object_flags new = 0 -> get (mount_trees t) k = Some tree ->
  get (fd_tables t) (fi_fd_table_slot new) = Some o ->
  Inv (Held [] [] [] [] [] None None m b) (with_identities t (put (fd_identities t) s (set_object new kFdIdentityObjectMountTree k (mt_generation tree)))).
Proof.
  intros H Hs Hocc Hkind Hflags Hk Ho. destruct (get_entry (iv_identities _ _ H) _ _ Hs) as [[F1 F2] Hsl].
  set (new' := set_object _ _ _ _).
  assert (object_fields new' = true) as F3 by (unfold object_fields, new'; cbn [set_object object_kind object_flags]; by rewrite Hflags).
  pose proof (replace_step [] (fi_fd_table_slot new) s new new' o H Hs eq_refl Ho Hocc Hsl eq_refl eq_refl F1 F3) as HR.
  change (identity_protected new') with (identity_protected new) in HR. rewrite Bool.eqb_reflx in HR.
  assert (set_fd_counts o (ft_refcount o) (entry_count o) (protected_count o) = o) as Eo by (by destruct o). rewrite Eo, (put_same _ _ (iv_tables _ _ H) Ho) in HR.
  rewrite <- (with_fd_tables_same (with_identities t _)). apply HR.
  - intros x. cbn [held]. unfold to_tree, new'. cbn [set_object object_kind object_slot]. replace (object_kind new =? kFdIdentityObjectMountTree) with false by lia.
    rewrite Z.eqb_refl. unfold one. cbn [andb]. lia.
  - intros tree' _ Ht. cbn [new' set_object object_slot object_generation] in *. congruence.
Qed.

(** What LookupFdIdentity finds for a task. *)
Lemma looked_up {m t} slot r s new fd : Inv (settled m) t -> get (tasks t) slot = Some r -> 0 < pt_tid r -> 0 <= fd ->
  get (fd_identities t) s = Some new -> fi_fd_table_slot new = pt_fd_table_slot r -> fi_fd new = fd ->
  LookupFdIdentity t (pt_tid r) fd = Some new.
Proof.
  intros H Hr Hpos Hfd Hs Ht Hf. unfold LookupFdIdentity, FindPathTask. rewrite (initialized H), (find_task_of slot r H Hr).
  replace (pt_tid r <=? 0) with false by lia. replace (fd <? 0) with false by lia. cbn [negb orb option_map]. unfold task_of.
  rewrite (get_at (iv_tasks _ _ H) _ _ Hr). unfold FindIdentityUnchecked.
  rewrite (search_found (iv_identities _ _ H) _ s new Hs).
  - cbn [option_map]. by rewrite (get_at (iv_identities _ _ H) _ _ Hs).
  - cbn. lia.
  - intros s' r0 Hr0 E0. apply (get_unique (iv_identities _ _ H) _ _ _ _ Hr0 Hs). cbn. bool_hyps. f_equal; lia.
Qed.

(** Recording the descriptor of a tree the running code holds. *)
Lemma record_tree_fd {m t t3} tid fd spec k tree slot r : Inv (settled m) t -> 0 <= m < 2 ^ 64 - 2 -> others t3 = others t ->
  Inv (Held [] [] [] [] [k] None None (m + 1) (m + 1)) t3 -> get (mount_trees t3) k = Some tree ->
  get (tasks t) slot = Some r -> pt_tid r = tid -> 0 <= fd ->
  let recorded := RecordFdIdentity t3 tid fd spec in
  (recorded.1 <> 0 /\ recorded.2 = t3) \/
  exists t4 s new, recorded = (0, t4) /\ FindIdentityUnchecked t4 (pt_fd_table_slot r) fd = Some s /\ at_slot (fd_identities t4) s = new /\
    let new' := set_object new kFdIdentityObjectMountTree k (mt_generation tree) in
    let t5 := with_identities t4 (put (fd_identities t4) s new') in
    Inv (settled (m + 2)) t5 /\ LookupFdIdentity t5 tid fd = Some new' /\ does t tid (fun _ => unix_record tid fd (described new')) t5.
Proof.
  intros H Hm Ho H3 Hk Hr Htid Hfd. cbv zeta.
  destruct (record_step tid fd spec H3 ltac:(simpl; lia) ltac:(lia)) as [?|(t4 & E & H4 & slot' & s & r' & new & HR)]; [by left|right].
  destruct HR as [Hr' Htid' Hpos Et Hold (ns & q & _ & _ & Enew) _ Hids Hkept]. destruct (others_split _ _ Ho) as (T3 & _ & _ & I3).
  rewrite T3 in Hr', Et. rewrite I3 in Hold, Hids.
  assert (slot' = slot) as -> by (apply (get_unique (iv_tasks _ _ H) _ _ _ _ Hr' Hr); cbn; congruence).
  assert (r' = r) as -> by congruence. exists t4, s, new.
  assert (get (fd_identities t4) s = Some new) as Hs by (rewrite Hids; by apply decide_True).
  assert (fi_fd_table_slot new = pt_fd_table_slot r /\ fi_fd new = fd) as [En1 En2] by (by rewrite Enew).
  split; [exact E|]. split.
  { apply (search_found (iv_identities _ _ H4) _ s new Hs); [cbn; unfold at_key; lia|]. intros s' r0 Hr0 E0.
    apply (get_unique (iv_identities _ _ H4) _ _ _ _ Hr0 Hs). cbn. bool_hyps. f_equal; lia. }
  split; [exact (get_at (iv_identities _ _ H4) _ _ Hs)|]. set (new' := set_object _ _ _ _). cbv zeta.
  destruct (field_pos mt_refcount (p := mount_trees t4) k) as (tree4 & Hk4 & _).
  { rewrite (iv_tree_refs _ _ H4). cbn [g_trees held]. pose proof (count_if_bounds (iv_identities _ _ H4) (to_tree k)). unfold one. rewrite Z.eqb_refl. lia. }
  assert (mt_generation tree4 = mt_generation tree) as Eg by (destruct (Hkept _ _ Hk4) as (tr0 & Htr0 & ->); congruence).
  assert (get (tasks t4) slot = Some r) as Hr4 by (by rewrite Et). destruct (task_table H4 _ _ Hr4) as [o Hdo].
  assert (Inv (settled (m + 2)) (with_identities t4 (put (fd_identities t4) s new'))) as H5.
  { unfold settled. apply (weaken_bound (b := m + 1)); [|lia]. unfold new'. rewrite <- Eg.
    replace (m + 2) with (m + 1 + 1) by lia. apply (refer_step s k new tree4 o H4 Hs); [by rewrite Enew..|exact Hk4|by rewrite En1]. }
  assert (forall x, get (put (fd_identities t4) s new') x = if decide (x = s) then Some new' else get (fd_identities t4) x) as Hput.
  { apply (get_put (iv_identities _ _ H4) s new new' Hs). unfold in_use, new'. cbn. by rewrite Enew. }
  split; [exact H5|]. split.
  { rewrite <- Htid. apply (looked_up slot r s new' fd H5); [exact Hr4|lia|exact Hfd|cbn [fd_identities with_identities]; by rewrite Hput, decide_True|done..]. }
  rewrite <- Htid. unfold unix_record.
  apply (one_descriptor _ slot r _ fd s (get (fd_identities t) s) (Some new') H H5 Et Hr eq_refl); [| |by right| |].
  - intros x. cbn [fd_identities with_identities]. rewrite Hput, Hids. by destruct (decide (x = s)).
  - intros r0 [E0|E0]; [by apply Hold|]. injection E0 as <-. unfold new'. cbn [set_object fi_fd_table_slot fi_fd]. done.
  - by rewrite Z.eqb_refl.
  - intros y Hy. by replace (y =? fd) with false by lia.
Qed.

(** What RecordMountTreeFdIdentity does from a table whose mutation generation is [m]. *)
Definition TreeFdOutcome (m : Z) (t : PathStateTable) (tid fd : Z) (out : Outcome) : Prop :=
  (exists m', m <= m' <= m + 2 /\ Inv (settled m') out.2) /\
  (out.1.1 <> 0 -> does t tid (fun _ u => u) out.2) /\
  (out.1.1 = 0 -> exists d, object_kind d = kFdIdentityObjectMountTree /\ LookupFdIdentity out.2 tid fd = Some d /\
    does t tid (fun _ => unix_record tid fd (described d)) out.2).

Lemma record_mount_tree m t tid fd guest host cloexec clone_tree : Inv (settled m) t -> 0 <= m < 2 ^ 64 - 2 ->
  TreeFdOutcome m t tid fd (RecordMountTreeFdIdentity t tid fd guest host cloexec clone_tree).
Proof.
  intros H Hm.
  assert (forall e o, e <> 0 -> TreeFdOutcome m t tid fd (e, o, t)) as Hfail.
  { intros e o He. split; [exists m; split; [lia|exact H]|]. split; [intros _; by apply (others_silent t tid H)|done]. }
  unfold RecordMountTreeFdIdentity. cbv zeta. destruct (_ || (fd <? 0)) eqn:Eg; [by apply Hfail|]. apply orb_false_iff in Eg as [_ Hfd%Z.ltb_ge].
  destruct (Z.eqb_spec (ValidateCanonicalPath guest) 0) as [Hg|Hg]; [|cbn [negb]; rewrite (proj2 (Z.eqb_neq _ _) Hg); by apply Hfail].
  destruct (Z.eqb_spec (ValidateCanonicalPath host) 0) as [Hh|Hh]; cbn [negb]; [|by apply Hfail].
  unfold for_task. destruct (_ || _ || _); [by apply Hfail|]. destruct (FindTaskUnchecked t tid) as [slot|] eqn:Et; [|by apply Hfail].
  destruct (find_task _ _ H Et) as (r & Hr & -> & Htid). destruct (find_free (mount_trees t)) as [k|] eqn:Ef; [|by apply Hfail].
  destruct (task_namespace H _ _ Hr) as [n Hn]. pose proof (tree_namespace_step _ n clone_tree H ltac:(lia) Hn) as HN.
  destruct (tree_namespace t _ clone_tree) as [[e ns] t1]. destruct HN as [[He ->]|(-> & H1 & Ho1 & Ht1 & Hlive & n1 & Hn1)].
  { replace (e =? 0) with false by lia. by apply Hfail. }
  cbn [negb Z.eqb]. rewrite (next_generation_task m t1 ltac:(lia) (iv_current _ _ H1)).
  destruct (source_mounted ns n1 (path_of guest) H1 Hn1) as (Hsrc & Hid & Hcan). set (source := ResolveVisibleMount t1 ns (path_of guest)) in *.
  set (tree := new_tree (NoteMutation t1) k ns (m + 1) clone_tree source guest host).
  set (t3 := with_trees (NoteMutation t1) (occupy (mount_trees (NoteMutation t1)) k tree)).
  assert (Inv (Held [] [] [] [] [k] None None (m + 1) (m + 1)) t3) as H3.
  { apply occupy_tree; try done.
    - apply note_mutation; [exact H1|lia].
    - cbn [NoteMutation mount_trees]. by rewrite Ht1.
    - apply new_tree_fields; [lia|done..].
    - intros x r0. cbn [NoteMutation mount_trees]. rewrite Ht1. intros Hx. pose proof (iv_handles _ _ H _ _ Hx) as Hb. cbn in Hb.
      change (handle_id tree) with (m + 1). lia.
    - cbn [tree new_tree attached_namespace_slot attached_mount_id]. unfold tree_attached. cbn [tree new_tree mt_state_flags].
      destruct clone_tree; [done|]. intros _. split; [exact Hsrc|]. cbn [NoteMutation mount_namespaces].
      rewrite (Hlive eq_refl), (iv_ns_refs _ _ H1). destruct (others_split _ _ Ho1) as (-> & _). cbn [g_ns held].
      enough (0 < count_if (uses_ns (pt_mount_namespace_slot r)) (tasks t)) by lia. apply (count_if_pos (iv_tasks _ _ H)). exists slot, r.
      split; [done|]. unfold uses_ns. lia. }
  assert (get (mount_trees t3) k = Some tree) as Hk.
  { cbn [t3 mount_trees with_trees NoteMutation]. rewrite (get_occupy (iv_trees _ _ H1)); [by apply decide_True|by rewrite Ht1|done]. }
  pose proof (record_tree_fd (t3 := t3) tid fd (Build_FdIdentitySpec both_valid 1 (if cloexec then 1 else 0) 0 0 0 guest host) k tree slot r
    H Hm Ho1 H3 Hk Hr Htid Hfd) as HR. cbv zeta in HR. destruct (RecordFdIdentity t3 tid fd _) as [e t4]. cbn [fst snd] in HR.
  destruct HR as [[He ->]|(t5 & s & new & E & Es & Ea & H5 & Hl & Hd)].
  - replace (e =? 0) with false by lia. cbn [negb]. destruct (release_tree k H3) as [H4 _]; [simpl; lia..|].
    split; [exists (m + 1); split; [lia|exact H4]|]. split; [|done]. intros _. apply (others_silent _ tid H). etrans; [exact (release_tree_others t3 k)|exact Ho1].
  - injection E as -> ->. cbn [negb Z.eqb]. rewrite Es, Ea. split; [exists (m + 2); split; [lia|exact H5]|]. split; [done|]. intros _.
    eexists. split; [|split; [exact Hl|exact Hd]]. done.
Qed.
