(* ===== verification/PathReach.v ===== *)
(** * What the path state promises

    The operations as one type, the tables a sequence of operations leads to,
    and what holds of each of them: the audit passes, and an operation that
    fails has not changed the table. Three operations on many mounts are not
    [atomic]: when they fail they have taken generations, and AttachMountTree
    can leave mounts behind, but the audit still passes and the descriptors
    are the same. One operation can break the table, which
    [detached_child_dangles] shows: RemoveMountBinding erases a mount that a
    detached one still names as its parent. The theorems are about sequences
    without such a step ([leaves_no_strand]). *)

From S2P Require Import Prelude SlotArray SlotPool GuestPath PathState PathStorage PathStateOps PathTaskOps PathFdOps PathMounts PathMountMoves PathStateInv PathViews PathTreeOps PathReleases PathTaskInv PathMountInv PathMoveInv PathPivotInv PathCloneInv PathFdInv PathTreeInv.
From stdpp Require Import list.
#[local] Open Scope Z_scope.

(** An operation of tracer/path_state.h, with its arguments. *)
Inductive PathOperation :=
| Insert (tid : Z) (guest host : option Path)
| Clone (parent child flags : Z)
| Remove (tid : Z)
| Migrate (former_tid new_tid : Z)
| Exec (tid : Z)
| Unshare (tid flags : Z)
| SetCwd (tid : Z) (guest host : option Path) (origin_flags device inode : Z)
| SetRoot (tid : Z) (guest host : option Path) (origin_flags device inode id : Z)
| RecordFd (tid fd : Z) (identity : FdIdentitySpec)
| Duplicate (tid old_fd new_fd : Z) (cloexec : bool)
| Close (tid fd : Z)
| SetCloexec (tid fd : Z) (cloexec : bool)
| CloseRange (preserve : bool) (tid first last flags : Z)
| AddMount (tid : Z) (binding : MountBindingSpec)
| RemoveMount (tid : Z) (target : option Path) (flags : Z)
| MoveMount (tid : Z) (from to : option Path)
| SetAttributes (tid : Z) (target : option Path) (set clear propagation : Z) (recursive : bool)
| PivotRoot (tid : Z) (new_root_guest new_root_host put_old_guest put_old_host : option Path)
| AddRecursive (tid : Z) (binding : MountBindingSpec)
| RecordTree (tid fd : Z) (guest host : option Path) (cloexec clone_tree : bool)
| AttachTree (tid tree_fd : Z) (target : option Path).

Definition perform (o : PathOperation) (t : PathStateTable) : Z * PathStateTable :=
  match o with
  | Insert tid guest host => InsertInitialPathTask t tid guest host
  | Clone parent child flags => ClonePathTask t parent child flags
  | Remove tid => RemovePathTask t tid
  | Migrate former_tid new_tid => MigrateExecPathTask t former_tid new_tid
  | Exec tid => ExecPathTask t tid
  | Unshare tid flags => UnsharePathTask t tid flags
  | SetCwd tid guest host flags device inode => SetTaskCwd t tid guest host flags device inode
  | SetRoot tid guest host flags device inode id => SetTaskRoot t tid guest host flags device inode id
  | RecordFd tid fd identity => RecordFdIdentity t tid fd identity
  | Duplicate tid old_fd new_fd cloexec => DuplicateFdIdentity t tid old_fd new_fd cloexec
  | Close tid fd => CloseFdIdentity t tid fd
  | SetCloexec tid fd cloexec => SetFdIdentityCloexec t tid fd cloexec
  | CloseRange false tid first last flags => CloseFdIdentityRange t tid first last flags
  | CloseRange true tid first last flags => CloseFdIdentityRangePreservingProtected t tid first last flags
  | AddMount tid binding => without_id (AddMountBinding t tid binding)
  | RemoveMount tid target flags => without_id (RemoveMountBinding t tid target flags)
  | MoveMount tid from to => MoveMountBinding t tid (Given from) to
  | SetAttributes tid target set clear propagation recursive =>
    SetMountBindingAttributes t tid target set clear propagation recursive
  | PivotRoot tid new_guest new_host old_guest old_host => PivotRootMountNamespace t tid new_guest new_host old_guest old_host
  | AddRecursive tid binding => without_id (AddRecursiveMountBinding t tid binding)
  | RecordTree tid fd guest host cloexec clone_tree =>
    without_id (RecordMountTreeFdIdentity t tid fd guest host cloexec clone_tree)
  | AttachTree tid tree_fd target => without_id (AttachMountTree t tid tree_fd target)
  end.

(** The operations that do not undo all they did when they fail. *)
Definition atomic (o : PathOperation) : bool :=
  match o with AddRecursive _ _ | RecordTree _ _ _ _ _ _ | AttachTree _ _ _ => false | _ => true end.

(** The generations an operation takes at most: one for every mount it adds. *)
Definition growth : Z := kPathStateMountBindingCapacity + 1.
Definition generations (ops : list PathOperation) : Z := Z.of_nat (length ops) * growth.

(** The table after the operations, the failed ones included. *)
Definition after (ops : list PathOperation) : PathStateTable :=
  foldl (fun t o => snd (perform o t)) InitPathState ops.

(** No step erases a mount that a detached one is below. *)
Definition strands_by (o : PathOperation) (t : PathStateTable) : bool :=
  match o with RemoveMount tid target flags => strands t tid target flags | _ => false end.
Fixpoint strandless (t : PathStateTable) (ops : list PathOperation) : bool :=
  match ops with
  | [] => true
  | o :: ops => if strands_by o t then false else strandless (snd (perform o t)) ops
  end.
Definition leaves_no_strand (ops : list PathOperation) : bool := strandless InitPathState ops.

(** The task that may get a descriptor table of its own. *)
Definition subject (o : PathOperation) : Z :=
  match o with
  | Insert tid _ _ | Remove tid | Exec tid | Unshare tid _ | SetCwd tid _ _ _ _ _ | SetRoot tid _ _ _ _ _ _
  | RecordFd tid _ _ | Duplicate tid _ _ _ | Close tid _ | SetCloexec tid _ _ | CloseRange _ tid _ _ _
  | AddMount tid _ | RemoveMount tid _ _ | MoveMount tid _ _ | SetAttributes tid _ _ _ _ _
  | PivotRoot tid _ _ _ _ | AddRecursive tid _ | RecordTree tid _ _ _ _ _ | AttachTree tid _ _ => tid
  | Clone _ child _ => child
  | Migrate former_tid _ => former_tid
  end.

(** What the operation does to the descriptors: [name] is the table a task
    gets, [described_as] the description that is recorded. *)
Definition unix (o : PathOperation) (described_as : FdIdentity) (name : Z) (u : Unix) : Unix :=
  match o with
  | Insert tid _ _ => unix_insert tid name u
  | Clone parent child flags => unix_clone parent child flags name u
  | Remove tid => unix_remove tid u
  | Migrate former_tid new_tid => unix_migrate former_tid new_tid u
  | Exec tid => unix_exec tid name u
  | Unshare tid flags => unix_unshare tid flags name u
  | SetCwd _ _ _ _ _ _ | SetRoot _ _ _ _ _ _ _ | AddMount _ _ | RemoveMount _ _ _ | MoveMount _ _ _ | SetAttributes _ _ _ _ _ _
  | PivotRoot _ _ _ _ _ | AddRecursive _ _ | AttachTree _ _ _ => u
  | RecordTree tid fd _ _ _ _ => unix_record tid fd described_as u
  | RecordFd tid fd _ => unix_record tid fd described_as u
  | Duplicate tid old_fd new_fd cloexec => unix_duplicate tid old_fd new_fd cloexec u
  | Close tid fd => unix_close tid fd u
  | SetCloexec tid fd cloexec => unix_set_cloexec tid fd cloexec u
  | CloseRange preserve tid first last flags => unix_close_range preserve tid first last flags name u
  end.

(** The description of a tree's descriptor is the one that is found afterwards. *)
Definition description (o : PathOperation) (t : PathStateTable) : FdIdentity :=
  match o with
  | RecordFd tid fd spec => recorded t tid fd spec
  | RecordTree tid fd _ _ _ _ =>
    match LookupFdIdentity (snd (perform o t)) tid fd with Some d => described d | None => ClearFdIdentity 0 end
  | _ => ClearFdIdentity 0
  end.

(** What every operation does, failed or not. *)
Record Performed (o : PathOperation) (m : Z) (t : PathStateTable) (out : Z * PathStateTable) : Prop := {
  pd_atomic : atomic o = true -> out.1 <> 0 -> out.2 = t;
  pd_failed : out.1 <> 0 -> same (view out.2) (view t);
  pd_done : out.1 = 0 -> does t (subject o) (unix o (description o t)) out.2;
  pd_inv : exists m', m <= m' <= m + growth /\ Inv (settled m') out.2 }.

Lemma keeps_performed o m t out : keeps (does t (subject o) (unix o (description o t))) m t out -> Performed o m t out.
Proof.
  intros (Hf & Hd & m' & Hm' & H'). split; [by intros _| |exact Hd|].
  - intros He. by rewrite (Hf He).
  - exists m'. split; [|exact H']. unfold growth, kPathStateMountBindingCapacity. lia.
Qed.

Lemma does_nothing t tid t' : does t tid (fun _ u => u) t' -> same (view t') (view t).
Proof. by intros (name & _ & Hs). Qed.

(** An operation on many mounts, of which the descriptors see nothing. *)
Lemma silent_performed o m t out : atomic o = false -> unix o (description o t) = (fun _ u => u) ->
  (exists m', m <= m' <= m + kPathStateMountBindingCapacity /\ Inv (settled m') out.2) -> does t (subject o) (fun _ u => u) out.2 ->
  Performed o m t out.
Proof.
  intros Ha Hu (m' & Hm' & H') Hd. split; [by rewrite Ha| | |].
  - intros _. exact (does_nothing _ _ _ Hd).
  - intros _. by rewrite Hu.
  - exists m'. split; [unfold growth; lia|exact H'].
Qed.

Lemma record_tree_performed m t tid fd guest host cloexec clone_tree : Inv (settled m) t -> 0 <= m < 2 ^ 64 - 2 ->
  let o := RecordTree tid fd guest host cloexec clone_tree in Performed o m t (perform o t).
Proof.
  intros H Hm o. destruct (record_mount_tree m t tid fd guest host cloexec clone_tree H Hm) as ((m' & Hm' & H') & Hf & Hd).
  split; [done| | |].
  - intros He. exact (does_nothing _ _ _ (Hf He)).
  - intros He. destruct (Hd He) as (d & _ & Hl & Hdo). unfold description, o. cbn [unix subject]. 
    change (snd (perform (RecordTree tid fd guest host cloexec clone_tree) t)) with (RecordMountTreeFdIdentity t tid fd guest host cloexec clone_tree).2.
    rewrite Hl. exact Hdo.
  - exists m'. split; [unfold growth, kPathStateMountBindingCapacity; lia|exact H'].
Qed.

Lemma perform_keeps o m t : Inv (settled m) t -> 0 <= m < 2 ^ 64 - growth -> strands_by o t = false -> Performed o m t (perform o t).
Proof.
  intros H Hg Hs. assert (0 <= m < 2 ^ 64 - 1) as Hm by (unfold growth, kPathStateMountBindingCapacity in Hg; lia).
  assert (0 <= m < 2 ^ 64 - 1 - kPathStateMountBindingCapacity) as Hc by (unfold growth in Hg; lia).
  destruct o as [| | | | | | | | | | | |[|]| | | | | | | |].
  - by apply keeps_performed, insert_keeps.
  - by apply keeps_performed, clone_keeps.
  - by apply keeps_performed, remove_keeps.
  - by apply keeps_performed, migrate_keeps.
  - by apply keeps_performed, exec_keeps.
  - by apply keeps_performed, unshare_keeps.
  - by apply keeps_performed, set_cwd_keeps.
  - by apply keeps_performed, set_root_keeps.
  - by apply keeps_performed, record_keeps.
  - by apply keeps_performed, duplicate_keeps.
  - by apply keeps_performed, close_keeps.
  - by apply keeps_performed, set_cloexec_keeps.
  - by apply keeps_performed, close_range_keeps.
  - by apply keeps_performed, close_range_keeps.
  - apply keeps_performed. exact (add_mount_keeps m t _ _ H Hm).
  - apply keeps_performed. exact (remove_mount_keeps m t _ _ _ H Hm Hs).
  - apply keeps_performed, (keeps_weaken _ (move_mount_keeps m t tid (Given from) to H Hm (or_intror (ex_intro _ from eq_refl)))). by intros t' [Hd _].
  - apply keeps_performed. exact (set_attributes_keeps m t _ _ _ _ _ _ H Hm).
  - apply keeps_performed. exact (pivot_keeps m t _ _ _ _ _ H Hm).
  - destruct (add_recursive m t tid binding H Hc) as (H' & Ho & _). apply silent_performed; [done|done|exact H'|].
    exact (others_silent _ tid H Ho).
  - apply record_tree_performed; [exact H|]. unfold growth, kPathStateMountBindingCapacity in Hg. lia.
  - destruct (attach_mount_tree m t tid tree_fd target H Hc) as (H' & Hd). by apply silent_performed.
Qed.

(** The invariant holds after every sequence of operations, as long as the
    mutation generation cannot have reached its end. *)
Lemma strandless_settled ops m t : Inv (settled m) t -> 0 <= m -> m + generations ops < 2 ^ 64 -> strandless t ops = true ->
  exists m', 0 <= m' <= m + generations ops /\ Inv (settled m') (foldl (fun t o => snd (perform o t)) t ops).
Proof.
  unfold generations. revert m t. induction ops as [|o ops IH]; intros m t H Hm Hl Hs; cbn [foldl length strandless] in *.
  - exists m. split; [lia|done].
  - assert (0 < growth) by done. destruct (strands_by o t) eqn:E; [done|].
    destruct (perform_keeps o m t H ltac:(nia) E) as [_ _ _ (m1 & Hm1 & H1)].
    destruct (IH m1 _ H1 ltac:(lia) ltac:(lia) Hs) as (m' & Hm' & H'). exists m'. split; [lia|done].
Qed.

Lemma after_settled ops : generations ops < 2 ^ 64 -> leaves_no_strand ops = true ->
  exists m, 0 <= m <= generations ops /\ Inv (settled m) (after ops).
Proof. intros Hl Hs. exact (strandless_settled ops 0 _ Init_settled ltac:(lia) ltac:(lia) Hs). Qed.

(** The operation after the sequence is no such step either. *)
Lemma strandless_snoc o ops t : strandless t (ops ++ [o]) = true ->
  strandless t ops = true /\ strands_by o (foldl (fun t o => snd (perform o t)) t ops) = false.
Proof.
  revert t. induction ops as [|o' ops IH]; intros t; cbn [app strandless foldl].
  - by destruct (strands_by o t).
  - destruct (strands_by o' t); [done|apply IH].
Qed.

Lemma generations_snoc ops o : generations (ops ++ [o]) = generations ops + growth.
Proof. unfold generations. rewrite length_app. cbn [length]. lia. Qed.

Lemma after_step ops o : generations (ops ++ [o]) < 2 ^ 64 -> leaves_no_strand (ops ++ [o]) = true ->
  exists m, Inv (settled m) (after ops) /\ Performed o m (after ops) (perform o (after ops)).
Proof.
  rewrite generations_snoc. intros Hl Hs. destruct (strandless_snoc o ops InitPathState Hs) as [Hs1 Hs2]. assert (0 < growth) by done.
  destruct (after_settled ops ltac:(lia) Hs1) as (m & Hm & HI). exists m. split; [exact HI|]. apply (perform_keeps o m _ HI); [lia|exact Hs2].
Qed.

(** C2 (invariant): after any sequence of operations that starts from
    InitPathState (inserting, cloning, removing, migrating and unsharing tasks,
    execs, changes of directories, recording, duplicating, marking and closing
    descriptors, adding single and recursive mounts, removing and moving them,
    changing their attributes, pivoting the root, opening mount trees and
    attaching them, some of them failing), none of which removes the parent of
    a detached mount, ValidatePathState accepts the table: every reference leads
    to a record in use, every count is the number of references, the mounts of
    a namespace are a tree, and every cleared slot is clean. *)
Theorem path_state_consistent ops : generations ops < 2 ^ 64 -> leaves_no_strand ops = true ->
  ValidatePathState (after ops) = true.
Proof. intros Hl Hs. destruct (after_settled ops Hl Hs) as (m & _ & HI). exact (settled_audit m _ HI). Qed.

(** A bind mount of a directory onto another. *)
Definition bound (source target : Path) : MountBindingSpec :=
  Build_MountBindingSpec kMountBindingBind kMountBindingStateRuntime 0 0 0 0 (Some target) (Some source) (Some source).

Lemma path_state_consistent_witness :
  ValidatePathState (after [Insert 7 (Some [SLASH]) (Some [SLASH]); Clone 7 8 kPathCloneFiles; Exec 8;
    AddMount 8 (bound [SLASH] [SLASH; 97]); MoveMount 8 (Some [SLASH; 97]) (Some [SLASH; 98]);
    RecordTree 8 3 (Some [SLASH; 98]) (Some [SLASH]) true true; AttachTree 8 3 (Some [SLASH; 99]);
    RemoveMount 8 (Some [SLASH; 98]) 0; Remove 7]) = true.
Proof. apply path_state_consistent; vm_compute; reflexivity. Defined.

(** The audit does not hold after every sequence: a mount that a directory of
    a task keeps alive is detached when it is removed, and a detached mount
    does not count as a child when the one above it is removed. *)
Theorem detached_child_dangles : exists ops : list PathOperation,
  fst (perform (RemoveMount 7 (Some [SLASH; 97]) 0) (after ops)) = 0 /\
  ValidatePathState (after ops) = true /\
  ValidatePathState (after (ops ++ [RemoveMount 7 (Some [SLASH; 97]) 0])) = false.
Proof.
  exists [Insert 7 (Some [SLASH]) (Some [SLASH]); AddMount 7 (bound [SLASH] [SLASH; 97]);
    AddMount 7 (bound [SLASH] [SLASH; 97; SLASH; 98]);
    SetRoot 7 (Some [SLASH; 97; SLASH; 98]) (Some [SLASH]) both_valid 0 0 3; RemoveMount 7 (Some [SLASH; 97; SLASH; 98]) 0].
  vm_compute. split_and!; reflexivity.
Qed.

(** C5 (error): an operation that returns an error has left the table as it
    was, whatever it had copied or taken before it failed; the three operations
    on many mounts have at least left the descriptors of every task as they
    were. *)
Theorem failed_operation_changes_nothing ops o : generations (ops ++ [o]) < 2 ^ 64 -> leaves_no_strand (ops ++ [o]) = true ->
  fst (perform o (after ops)) <> 0 ->
  (atomic o = true -> snd (perform o (after ops)) = after ops) /\ same (view (snd (perform o (after ops)))) (view (after ops)).
Proof.
  intros Hl Hs Hf. destruct (after_step ops o Hl Hs) as (m & _ & [He Hv _ _]). split; [|exact (Hv Hf)]. intros Ha. exact (He Ha Hf).
Qed.

Lemma failed_operation_changes_nothing_witness :
  let ops := [Insert 7 (Some [SLASH]) (Some [SLASH])] in
  snd (perform (Clone 7 8 (kPathCloneFs ||| kPathCloneNewns)) (after ops)) = after ops.
Proof.
  apply (failed_operation_changes_nothing [Insert 7 (Some [SLASH]) (Some [SLASH])] (Clone 7 8 (kPathCloneFs ||| kPathCloneNewns)));
    [reflexivity|vm_compute; reflexivity| |reflexivity]. vm_compute. discriminate.
Defined.

(** What LookupFdIdentity finds is what the task sees. *)
Lemma lookup_seen {m t} tid fd : Inv (settled m) t -> 0 < tid -> 0 <= fd ->
  option_map described (LookupFdIdentity t tid fd) = seen (view t) tid fd.
Proof.
  intros H Ht Hf. unfold LookupFdIdentity, FindPathTask, seen, view. cbn [table_of entry]. rewrite (initialized H).
  replace (fd <? 0) with false by lia. replace (tid <=? 0) with false by lia. cbn [negb orb]. unfold tables_of, found, of_task.
  unfold FindTaskUnchecked. destruct (search _ (tasks t)) as [s|]; [|done]. cbn [option_map]. unfold entries_of, found, at_key, FindIdentityUnchecked, task_of.
  by destruct (search _ (fd_identities t)).
Qed.

(** C3 (refinement): after any sequence of operations, one that succeeds
    changes the descriptors the tasks look up the way the system call does: a
    clone gets a copy of its parent's table or shares it with CLONE_FILES,
    exec keeps the entries without the close-on-exec mark in a table of the
    task's own, unshare separates, dup, close, fcntl and close_range change
    the entries of exactly the tasks that share the table, opening a tree
    records one entry, and nothing else changes any. *)
Theorem descriptors_as_unix ops o : generations (ops ++ [o]) < 2 ^ 64 -> leaves_no_strand (ops ++ [o]) = true -> fst (perform o (after ops)) = 0 ->
  exists name, private (view (after ops)) (subject o) name /\
    same (view (snd (perform o (after ops)))) (unix o (description o (after ops)) name (view (after ops))) /\
    forall tid fd, 0 < tid -> 0 <= fd -> option_map described (LookupFdIdentity (snd (perform o (after ops))) tid fd) =
      seen (unix o (description o (after ops)) name (view (after ops))) tid fd.
Proof.
  intros Hl Hn Hs. destruct (after_step ops o Hl Hn) as (m & HI & [_ _ Hdoes (m' & _ & HI')]). destruct (Hdoes Hs) as (name & Hp & Hv).
  exists name. split; [exact Hp|]. split; [exact Hv|]. intros tid fd Ht Hf. rewrite (lookup_seen tid fd HI' Ht Hf). by rewrite Hv.
Qed.

Definition opened : FdIdentitySpec := Build_FdIdentitySpec kPathOriginGuestValid 0 1 0 5 6 (Some [SLASH]) None.

Lemma descriptors_as_unix_witness :
  let ops := [Insert 7 (Some [SLASH]) (Some [SLASH]); RecordFd 7 3 opened; Clone 7 8 0] in
  exists name, private (view (after ops)) 8 name /\
    same (view (snd (perform (Exec 8) (after ops)))) (unix_exec 8 name (view (after ops))) /\
    forall tid fd, 0 < tid -> 0 <= fd -> option_map described (LookupFdIdentity (snd (perform (Exec 8) (after ops))) tid fd) =
      seen (unix_exec 8 name (view (after ops))) tid fd.
Proof. apply (descriptors_as_unix [Insert 7 (Some [SLASH]) (Some [SLASH]); RecordFd 7 3 opened; Clone 7 8 0] (Exec 8)); [reflexivity|vm_compute; reflexivity|vm_compute; reflexivity]. Defined.
