(* ===== verification/PathMountReach.v ===== *)
(** * What the mounts of the path state promise

    Of every table a sequence of operations leads to: how a path resolves, what
    a new mount and its removal change, and how paths go to the host and back. *)

From stdpp Require Import list.
From S2P Require Import Prelude SlotArray SlotPool GuestPath GuestPathText PathState PathStorage PathStateOps PathTaskOps PathMounts PathTranslate PathMountMoves PathStateInv PathObjectSteps PathResolve PathReleases PathTaskInv PathMountSteps PathMountInv PathVisible PathCloneInv PathReach.
#[local] Open Scope Z_scope.

(** The namespace of a task, and the mount a path of the task falls under. *)
Definition namespace_of (t : PathStateTable) (tid : Z) : option Z :=
  option_map (fun slot => pt_mount_namespace_slot (task_of t slot)) (FindPathTask t tid).
Definition visible_mount (t : PathStateTable) (tid : Z) (guest : Path) : option Z :=
  match namespace_of t tid with None => None | Some ns => ResolveVisibleMount t ns guest end.
Definition mounts_in (t : PathStateTable) (ns : Z) : Z := binding_count (namespace_at t ns).

(** ** The resolution *)

Section Follows.
Context {g : Ghost} {t : PathStateTable}.
Hypothesis H : Inv g t.

Lemma select_child ns guest p s b : best_child (t := t) ns guest p s b ->
  exists n, select t (fun _ => child_length ns guest p) = Some (s, b, n).
Proof.
  intros Hb. pose proof (select_best_spec H _ (child_in_use ns guest p)) as Hs. destruct (select t _) as [[[s' b'] n']|].
  - destruct Hs as (Hg & Hn & Hbest). exists n'. destruct (best_child_fun ns guest p s b s' b' Hb) as [-> ->]; [|done].
    split; [done|]. by exists n'.
  - destruct Hb as (Hg & n & Hn & _). by rewrite (Hs _ _ Hg) in Hn.
Qed.

Lemma resolve_follows ns guest p sel r k : leads (t := t) ns guest p sel r k ->
  forall depth, resolve_loop depth t ns guest p sel = if (k <? depth)%nat then r else None.
Proof.
  induction 1 as [p sel Hu|p sel s b r k Hb Hl IH]; intros [|depth]; cbn [resolve_loop]; [done| |done|].
  - pose proof (select_best_spec H _ (child_in_use ns guest p)) as Hs. destruct (select t _) as [[[s b] n]|]; [|done].
    destruct Hs as (Hg & Hn & _). by rewrite (Hu _ _ Hg) in Hn.
  - destruct (select_child _ _ _ _ _ Hb) as [n ->]. rewrite IH. done.
Qed.
End Follows.

(** C12 (equivalence): the mount a path resolves to is the one the relation
    [leads] goes to: from the root mount, always to the child with the longest
    target that covers the path, the newest of several, until no child covers
    it. The loop of ResolveVisibleMount follows it, finds nothing only when
    1024 mounts are passed, and that cannot be in a namespace with fewer. *)
Theorem resolution_follows ops tid ns guest : generations ops < 2 ^ 64 -> leaves_no_strand ops = true ->
  namespace_of (after ops) tid = Some ns ->
  (forall r k, leads (t := after ops) ns guest (root_mount_id (namespace_at (after ops) ns)) None r k ->
     visible_mount (after ops) tid guest = if Z.of_nat k <? kPathStateMountBindingCapacity then r else None) /\
  (mounts_in (after ops) ns < kPathStateMountBindingCapacity ->
     exists k, leads (t := after ops) ns guest (root_mount_id (namespace_at (after ops) ns)) None (visible_mount (after ops) tid guest) k).
Proof.
  intros Hl Hs Hns. destruct (after_settled ops Hl Hs) as (m & _ & HI). revert HI Hns. generalize (after ops). intros t HI Hns.
  unfold visible_mount. rewrite Hns. unfold namespace_of in Hns. destruct (FindPathTask t tid) as [slot|] eqn:Et; [|done].
  injection Hns as <-. destruct (find_path_task HI tid slot Et) as (n & En & Hn). set (ns := pt_mount_namespace_slot _) in *. rewrite En. split.
  - intros r k Hk. unfold ResolveVisibleMount. rewrite En, (resolve_follows HI _ _ _ _ _ _ Hk). unfold kPathStateMountBindingCapacity.
    destruct (Nat.ltb_spec k (Z.to_nat 1024)), (Z.ltb_spec (Z.of_nat k) 1024); lia || done.
  - intros Hc. apply (resolve_visible HI ns n guest Hn ltac:(done)). unfold mounts_in in Hc. rewrite En in Hc.
    by destruct (mounts_small _ _ HI Hn) as (<- & _).
Qed.

Definition nested : list PathOperation :=
  [Insert 7 (Some [SLASH]) (Some [SLASH]); AddMount 7 (bound [SLASH] [SLASH; 97]); AddMount 7 (bound [SLASH] [SLASH; 97; SLASH; 98])].

Lemma resolution_follows_witness :
  namespace_of (after nested) 7 = Some 0 /\
  (forall r k, leads (t := after nested) 0 [SLASH; 97; SLASH; 98] (root_mount_id (namespace_at (after nested) 0)) None r k ->
     visible_mount (after nested) 7 [SLASH; 97; SLASH; 98] = if Z.of_nat k <? kPathStateMountBindingCapacity then r else None) /\
  (mounts_in (after nested) 0 < kPathStateMountBindingCapacity ->
     exists k, leads (t := after nested) 0 [SLASH; 97; SLASH; 98] (root_mount_id (namespace_at (after nested) 0)) None
       (visible_mount (after nested) 7 [SLASH; 97; SLASH; 98]) k).
Proof.
  split; [vm_compute; reflexivity|]. apply (resolution_follows nested 7 0 [SLASH; 97; SLASH; 98]); vm_compute; reflexivity.
Defined.

(** ** A new mount *)

(** What a successful AddMountBinding did. *)
Lemma add_mount_done m t tid binding id t' : Inv (settled m) t -> 0 <= m < 2 ^ 64 - 1 ->
  AddMountBinding t tid binding = (0, Some id, t') ->
  0 < tid /\ id = m + 1 /\ Inv (settled (m + 1)) t' /\
  exists x ns n slot, FindTaskUnchecked t' tid = Some x /\ pt_mount_namespace_slot (task_of t' x) = ns /\
    namespace_of t tid = Some ns /\ namespace_of t' tid = Some ns /\ namespace_at t ns = n /\
    get (mount_namespaces t) ns = Some n /\ Added m t ns n binding slot t' /\ mount_id (binding_at t' slot) = m + 1.
Proof.
  intros H Hm. unfold AddMountBinding, for_task. rewrite (initialized H). cbn [negb orb]. destruct (Z.leb_spec tid 0); [done|]. cbn [orb].
  destruct (FindTaskUnchecked t tid) as [x|] eqn:Ex; [|done]. destruct (find_task _ _ H Ex) as (r & Hr & Hat & _). rewrite Hat.
  destruct (task_namespace H _ _ Hr) as [n Hn]. set (ns := pt_mount_namespace_slot r) in *.
  pose proof (add_internal m t ns n binding H Hm Hn) as Hadd.
  destruct (AddMountBindingInternal t ns binding) as [[error [slot|]] t1]; [|done]. destruct Hadd as (-> & H1 & HA). intros [= <- <-].
  assert (tasks t1 = tasks t) as Etasks by exact (proj1 (others_split _ _ (ad_others _ _ _ _ _ _ _ HA))).
  assert (FindTaskUnchecked t1 tid = Some x) as Ex1 by (unfold FindTaskUnchecked; rewrite Etasks; exact Ex).
  assert (task_of t1 x = r) as Hat1 by (unfold task_of in *; by rewrite Etasks).
  assert (mount_id (binding_at t1 slot) = m + 1) as Hid.
  { destruct (added_mounts H HA) as (parent & _ & _ & Hget).
    assert (binding_at t1 slot = new_binding binding slot ns parent (m + 1)) as ->; [|done].
    apply (get_at (iv_bindings _ _ H1)). by rewrite Hget, decide_True. }
  split; [done|]. split; [done|]. split; [done|]. exists x, ns, n, slot.
  unfold namespace_of, FindPathTask. rewrite (initialized H), (initialized H1), Ex, Ex1. replace (tid <=? 0) with false by lia.
  cbn [negb orb option_map]. rewrite Hat, Hat1. split_and!; try done. exact (get_at (iv_namespaces _ _ H) _ _ Hn).
Qed.

(** C6 (functional): after a successful AddMountBinding whose spec names no
    parent, the task finds the new mount at its target, also when the target
    was a mount already, and every path that is not at or below the target
    resolves to the mount it did before, as long as the namespace has fewer
    than 1024 mounts. *)
Theorem new_mount_is_visible ops tid binding id t' ns : generations ops < 2 ^ 64 - 1 -> leaves_no_strand ops = true ->
  AddMountBinding (after ops) tid binding = (0, Some id, t') -> ms_parent_mount_id binding = 0 ->
  namespace_of (after ops) tid = Some ns -> mounts_in (after ops) ns + 1 < kPathStateMountBindingCapacity ->
  (exists slot, visible_mount t' tid (path_of (ms_target_guest binding)) = Some slot /\ mount_id (binding_at t' slot) = id) /\
  forall guest, covers (CopyPath (ms_target_guest binding)) guest = false ->
    visible_mount t' tid guest = visible_mount (after ops) tid guest.
Proof.
  intros Hl Hs Hadd Hz Hns Hc. destruct (after_settled ops ltac:(lia) Hs) as (m & Hm & HI). revert HI Hadd Hns Hc. generalize (after ops).
  intros t HI Hadd Hns Hc. destruct (add_mount_done m t tid binding id t' HI ltac:(lia) Hadd)
    as (_ & -> & H1 & x & ns' & n & slot & _ & _ & Hns0 & Hns1 & En & Hn & HA & Hid).
  assert (ns' = ns) as -> by congruence. unfold mounts_in in Hc. rewrite En in Hc. unfold visible_mount. rewrite Hns0, Hns1. split.
  - exists slot. split; [|exact Hid]. exact (added_visible HI Hn H1 HA Hz Hc).
  - intros guest Hno. exact (added_silent HI Hn H1 HA guest Hc Hno).
Qed.

(** C11 (roundtrip): RemoveMountBinding at the target of a mount that was just
    added removes it, and every mount and the resolution of every path are
    what they were before it was added. *)
Theorem removing_undoes_adding ops tid binding id t' ns : generations ops < 2 ^ 64 - 2 -> leaves_no_strand ops = true ->
  AddMountBinding (after ops) tid binding = (0, Some id, t') -> ms_parent_mount_id binding = 0 ->
  namespace_of (after ops) tid = Some ns -> mounts_in (after ops) ns + 1 < kPathStateMountBindingCapacity ->
  exists t2, RemoveMountBinding t' tid (ms_target_guest binding) 0 = (0, Some id, t2) /\
    (forall s, get (mount_bindings t2) s = get (mount_bindings (after ops)) s) /\
    forall guest, visible_mount t2 tid guest = visible_mount (after ops) tid guest.
Proof.
  intros Hl Hs Hadd Hz Hns Hc. destruct (after_settled ops ltac:(lia) Hs) as (m & Hm & HI). revert HI Hadd Hns Hc. generalize (after ops).
  intros t HI Hadd Hns Hc. destruct (add_mount_done m t tid binding id t' HI ltac:(lia) Hadd)
    as (Htid & -> & H1 & x & ns' & n & slot & Hx & Ht & Hns0 & Hns1 & En & Hn & HA & Hid).
  assert (ns' = ns) as -> by congruence. unfold mounts_in in Hc. rewrite En in Hc.
  destruct (added_removed HI Hn H1 HA tid x ltac:(lia) Hx Htid Ht Hz Hc) as (t2 & Hrem & Hget & Ho2 & _ & (n2 & Hn2 & Er2) & m2 & H2).
  exists t2. split; [exact Hrem|]. split; [exact Hget|]. intros guest. unfold visible_mount. rewrite Hns0.
  assert (namespace_of t2 tid = Some ns) as ->.
  { rewrite <- Hns0. unfold namespace_of, FindPathTask, FindTaskUnchecked, task_of. rewrite (initialized HI), (initialized H2).
    by rewrite (proj1 (others_split _ _ Ho2)). }
  exact (resolve_ext HI H2 Hget ns n n2 guest Hn Hn2 Er2).
Qed.

(** ** Paths to the host and back *)

(** The calls with a structure of the caller's: the error and what it holds. *)
Definition filled (out : Z * option MountPathTranslation) : Z * MountPathTranslation := (fst out, default InitializeTranslation (snd out)).
Definition to_host (t : PathStateTable) (tid : Z) (guest : Path) : Z * MountPathTranslation :=
  filled (TranslateMountPath t tid (Some guest) (Some InitializeTranslation)).
Definition to_guest (t : PathStateTable) (tid : Z) (host : Path) : Z * MountPathTranslation :=
  filled (ReverseMountPath t tid (Some host) (Some InitializeTranslation)).

(** C10 (roundtrip): a guest path that ReverseMountPath finds for a host path
    leads back: TranslateMountPath takes it to the same host path under the
    same mount, unless the path under the mount's source is too long. *)
Theorem reversed_path_leads_back ops tid host tr : generations ops < 2 ^ 64 -> leaves_no_strand ops = true ->
  to_guest (after ops) tid host = (0, tr) -> tr_matched tr <> 0 ->
  fst (to_host (after ops) tid (tr_guest_path tr)) = ENAMETOOLONG \/
  exists tr', to_host (after ops) tid (tr_guest_path tr) = (0, tr') /\
    same_text (tr_host_path tr') host /\ tr_mount_id tr' = tr_mount_id tr.
Proof.
  intros Hl Hs Hrev Htr. destruct (after_settled ops Hl Hs) as (m & _ & HI). revert HI Hrev. generalize (after ops). intros t HI Hrev.
  unfold to_guest, filled in Hrev. destruct (ReverseMountPath t tid (Some host) (Some InitializeTranslation)) as [e o] eqn:E.
  cbn [fst snd] in Hrev. injection Hrev as -> Eo. destruct o as [tr0|]; [change (tr0 = tr) in Eo; subst tr0|by rewrite <- Eo in Htr].
  destruct (reversed_translates HI tid host _ InitializeTranslation tr E Htr) as [Ht|(tr' & Ht & Hsame)]; [by left|right].
  exists tr'. split; [|exact Hsame]. unfold to_host. by rewrite Ht.
Qed.

(** ** Recursive mounts *)

(** C9 (functional): AddRecursiveMountBinding is all or nothing. When it fails
    every mount is the one it was. When it succeeds the old mounts are as they
    were, a new one is at the target, and for every mount that was visible
    below the source there is a new one with its kind, flags and sources at
    its target with the source replaced by the target, in whatever order the
    passes came to them. *)
Theorem recursive_bind_all_or_nothing ops tid binding e id t' : generations ops < 2 ^ 64 - growth -> leaves_no_strand ops = true ->
  AddRecursiveMountBinding (after ops) tid binding = (e, id, t') ->
  (e <> 0 -> forall s, get (mount_bindings t') s = get (mount_bindings (after ops)) s) /\
  (e = 0 -> exists ns length, namespace_of (after ops) tid = Some ns /\ PathLength (ms_source_guest binding) = inr length /\
    (forall s b, get (mount_bindings (after ops)) s = Some b -> get (mount_bindings t') s = Some b) /\
    (exists s b, get (mount_bindings (after ops)) s = None /\ get (mount_bindings t') s = Some b /\ id = Some (mount_id b) /\
       mb_mount_namespace_slot b = ns /\ target_guest b = CopyPath (ms_target_guest binding)) /\
    forall s b, get (mount_bindings (after ops)) s = Some b ->
      included_slot (after ops) ns (path_of (ms_source_guest binding)) length s b = true ->
      exists target s' b', SubstitutePathPrefix (target_guest b) (path_of (ms_source_guest binding)) (path_of (ms_target_guest binding)) = inr target /\
        get (mount_bindings (after ops)) s' = None /\ get (mount_bindings t') s' = Some b' /\ mb_mount_namespace_slot b' = ns /\
        CloneOf b target b').
Proof.
  intros Hl Hs E. assert (generations ops < 2 ^ 64) as Hl' by (assert (0 < growth) by done; lia).
  destruct (after_settled ops Hl' Hs) as (m & Hm & HI). revert HI E. generalize (after ops). intros t HI E.
  destruct (add_recursive m t tid binding HI) as (_ & _ & Hf & Hd).
  { unfold growth in *. lia. }
  rewrite E in Hf, Hd. cbn [fst snd] in Hf, Hd. split; [exact Hf|]. intros ->.
  destruct (Hd eq_refl) as (slot & r & len & Ht & Hr & Hlen & [Hk Hc] & top & b & T1 & T2 & T3 & T4 & T5).
  exists (pt_mount_namespace_slot r), len. split.
  { unfold namespace_of, FindPathTask. rewrite (initialized HI), Ht. cbn [negb orb].
    unfold AddRecursiveMountBinding in E. destruct (tid <=? 0); [rewrite orb_true_r in E; by cbn [orb] in E|].
    cbn [option_map]. unfold task_of. by rewrite (get_at (iv_tasks _ _ HI) _ _ Hr). }
  split; [exact Hlen|]. split; [exact Hk|]. split; [by exists top, b|exact Hc].
Qed.

(** ** Concrete tables *)

Definition shown (source target : Path) : MountBindingSpec :=
  Build_MountBindingSpec kMountBindingBind (kMountBindingStateRuntime ||| kMountBindingStateReverseVisible) 0 0 0 0
    (Some target) (Some source) (Some source).
Definition one_task : list PathOperation := [Insert 7 (Some [SLASH]) (Some [SLASH]); AddMount 7 (shown [SLASH; 98] [SLASH; 97])].
(** /a/c, /b and /b/c *)
Definition a_c : Path := [SLASH; 97; SLASH; 99].
Definition b_c : Path := [SLASH; 98; SLASH; 99].

Lemma new_mount_is_visible_witness :
  let t' := snd (AddMountBinding (after one_task) 7 (bound [SLASH] [SLASH; 97])) in
  (exists slot, visible_mount t' 7 [SLASH; 97] = Some slot /\ mount_id (binding_at t' slot) = 3) /\
  visible_mount t' 7 b_c = visible_mount (after one_task) 7 b_c.
Proof.
  split.
  - refine (proj1 (new_mount_is_visible one_task 7 (bound [SLASH] [SLASH; 97]) 3 _ 0 _ _ _ _ _ _)); vm_compute; reflexivity.
  - refine (proj2 (new_mount_is_visible one_task 7 (bound [SLASH] [SLASH; 97]) 3 _ 0 _ _ _ _ _ _) b_c _); vm_compute; reflexivity.
Defined.

Lemma removing_undoes_adding_witness :
  exists t2, RemoveMountBinding (snd (AddMountBinding (after one_task) 7 (bound [SLASH] [SLASH; 97]))) 7 (Some [SLASH; 97]) 0 = (0, Some 3, t2) /\
    (forall s, get (mount_bindings t2) s = get (mount_bindings (after one_task)) s) /\
    forall guest, visible_mount t2 7 guest = visible_mount (after one_task) 7 guest.
Proof. apply (removing_undoes_adding one_task 7 (bound [SLASH] [SLASH; 97]) 3 _ 0); vm_compute; reflexivity. Defined.

Lemma reversed_path_leads_back_witness :
  to_host (after one_task) 7 a_c = (0, snd (to_host (after one_task) 7 a_c)) /\
  (fst (to_host (after one_task) 7 a_c) = ENAMETOOLONG \/
   exists tr', to_host (after one_task) 7 a_c = (0, tr') /\ same_text (tr_host_path tr') b_c /\ tr_mount_id tr' = 2).
Proof.
  split; [vm_compute; reflexivity|].
  refine (reversed_path_leads_back one_task 7 b_c (snd (to_guest (after one_task) 7 b_c)) _ _ _ _); vm_compute; [reflexivity..|discriminate].
Defined.

(** /a with /a/c below it, mounted at /b with what is below. *)
Definition two_mounts : list PathOperation :=
  [Insert 7 (Some [SLASH]) (Some [SLASH]); AddMount 7 (bound [SLASH] [SLASH; 97]); AddMount 7 (bound [SLASH] a_c)].
Definition rbound (source target : Path) : MountBindingSpec :=
  Build_MountBindingSpec kMountBindingBind (kMountBindingStateRuntime ||| kMountBindingStateRecursive) 0 0 0 0
    (Some target) (Some source) (Some source).

Lemma recursive_bind_all_or_nothing_witness :
  let out := AddRecursiveMountBinding (after two_mounts) 7 (rbound [SLASH; 97] [SLASH; 98]) in
  out.1.1 = 0 /\ mounts_in out.2 0 = 4 /\
  forall s b, get (mount_bindings (after two_mounts)) s = Some b -> get (mount_bindings out.2) s = Some b.
Proof.
  split; [vm_compute; reflexivity|]. split; [vm_compute; reflexivity|].
  destruct (recursive_bind_all_or_nothing two_mounts 7 (rbound [SLASH; 97] [SLASH; 98]) 0 (Some 4)
    (snd (AddRecursiveMountBinding (after two_mounts) 7 (rbound [SLASH; 97] [SLASH; 98])))) as [_ Hd]; [vm_compute; reflexivity..|].
  destruct (Hd eq_refl) as (_ & _ & _ & _ & Hk & _). exact Hk.
Defined.

(** AttachMountTree passes its own record's text to MoveMountBinding, which
    rewrites that record before it comes to the directories of the tasks: they
    are then compared with the new place and stay behind. The same move by
    path takes them along. *)
Theorem attaching_leaves_directories : exists ops : list PathOperation,
  let attached := perform (AttachTree 7 3 (Some [SLASH; 98])) (after ops) in
  let moved := perform (MoveMount 7 (Some [SLASH; 97]) (Some [SLASH; 98])) (after ops) in
  fst attached = 0 /\ fst moved = 0 /\
  target_guest (binding_at (snd attached) 0) = target_guest (binding_at (snd moved) 0) /\
  guest_root (at_slot (fs_contexts (snd moved)) 0) = b_c /\ guest_root (at_slot (fs_contexts (snd attached)) 0) = a_c.
Proof.
  exists [Insert 7 (Some [SLASH]) (Some [SLASH]); AddMount 7 (bound [SLASH] [SLASH; 97]);
    SetRoot 7 (Some a_c) (Some [SLASH]) both_valid 0 0 2; RecordTree 7 3 (Some [SLASH; 97]) (Some [SLASH]) true false].
  vm_compute. split_and!; reflexivity.
Qed.
