(* ===== verification/MountSyscalls.v ===== *)
(** * Mount system calls (tracer/mount_syscall_state.{h,cpp})

    What a completed mount, umount2, chroot, pivot_root, open_tree, move_mount
    or mount_setattr does to the path state: the arguments and the resolved
    paths of the call are turned into the operations of path_state.h. *)

From S2P Require Import Prelude SlotArray SlotPool GuestPath PathState PathStorage PathStateOps PathTaskOps PathMounts PathTranslate PathMountMoves PathTreeOps.
From stdpp Require Import list.
#[local] Open Scope Z_scope.

(** ** Data *)

Definition kMountStateUmount2 : Z := 39.
Definition kMountStateMount : Z := 40.
Definition kMountStatePivotRoot : Z := 41.
Definition kMountStateChroot : Z := 51.
Definition kMountStateOpenTree : Z := 428.
Definition kMountStateMoveMount : Z := 429.
Definition kMountStateMountSetattr : Z := 442.

Record MountResolvedPath := { rp_valid : Z; rp_origin_flags : Z; rp_guest_path : option Path; rp_host_path : option Path }.

(** The two paths and the arguments a mount call uses; the array of six
    arguments is a list. *)
Record MountSyscallCompletion := {
  mc_syscall_number : Z; mc_path_count : Z; mc_kernel_result : Z; mc_mount_attr_valid : Z; mc_reserved : Z;
  mc_arguments : list Z; mc_mount_attr_set : Z; mc_mount_attr_clear : Z; mc_mount_propagation : Z;
  mc_path0 : MountResolvedPath; mc_path1 : MountResolvedPath }.
Definition argument (c : MountSyscallCompletion) (i : nat) : Z := nth i (mc_arguments c) 0.

Definition kMsRemount : Z := 32.
Definition kMsBind : Z := 4096.
Definition kMsMove : Z := 8192.
Definition kMsRec : Z := 16384.
Definition kMsUnbindable : Z := Z.shiftl 1 17.
Definition kMsPrivate : Z := Z.shiftl 1 18.
Definition kMsSlave : Z := Z.shiftl 1 19.
Definition kMsShared : Z := Z.shiftl 1 20.
Definition kPropagationMask : Z := kMsUnbindable ||| kMsPrivate ||| kMsSlave ||| kMsShared.
Definition kMntDetach : Z := 2.
Definition kOpenTreeClone : Z := 1.
Definition kMoveMountFromEmptyPath : Z := 4.
Definition kAtRecursive : Z := 32768.
(** fcntl.h on arm64. *)
Definition O_CLOEXEC : Z := 524288.
Definition kMountBindingSynthetic : Z := 3.
Definition kMountRemoveNone : Z := 0.

(** ** The handlers *)

(** [pointer != nullptr && pointer[0] == '/'] *)
Definition starts_at_root (pointer : option Path) : bool :=
  match pointer with None => false | Some p => char_at p 0 =? SLASH end.

Definition PathUsable (path : MountResolvedPath) : bool :=
  negb (rp_valid path =? 0) && ((rp_origin_flags path &&& both_valid) =? both_valid) &&
  starts_at_root (rp_guest_path path) && starts_at_root (rp_host_path path).

Definition IgnoreUnknownMount (error : Z) : Z := if (error =? EINVAL) || (error =? ENOENT) then 0 else error.

(** A call whose error may be ignored; a call whose id is not asked for. *)
Definition ignoring (out : Z * PathStateTable) : Z * PathStateTable := (IgnoreUnknownMount (fst out), snd out).
Definition no_id (out : Outcome) : Z * PathStateTable := (fst (fst out), snd out).

Definition mount_source (c : MountSyscallCompletion) : MountResolvedPath :=
  if PathUsable (mc_path1 c) then mc_path1 c else mc_path0 c.

Definition mount_spec (c : MountSyscallCompletion) : MountBindingSpec :=
  let flags := argument c 3 in
  Build_MountBindingSpec (if has flags kMsBind then kMountBindingBind else kMountBindingSynthetic)
    (kMountBindingStateRuntime ||| kMountBindingStateReverseVisible ||| (if has flags kMsRec then kMountBindingStateRecursive else 0))
    0 flags 0 (flags &&& kPropagationMask) (rp_guest_path (mc_path0 c)) (rp_guest_path (mount_source c)) (rp_host_path (mount_source c)).

Definition ApplyMount (t : PathStateTable) (tid : Z) (c : MountSyscallCompletion) : Z * PathStateTable :=
  let target := mc_path0 c in
  let source := mc_path1 c in
  let flags := argument c 3 in
  if negb (PathUsable target) then (EPROTO, t)
  else if has flags kMsMove then
    if PathUsable source then ignoring (MoveMountBinding t tid (Given (rp_guest_path source)) (rp_guest_path target)) else (EPROTO, t)
  else if has flags kPropagationMask && negb (PathUsable source) then
    ignoring (SetMountBindingAttributes t tid (rp_guest_path target) 0 0 (flags &&& kPropagationMask) (has flags kMsRec))
  else if has flags kMsRemount then (0, t)
  else if (flags &&& (kMsBind ||| kMsRec)) =? (kMsBind ||| kMsRec) then no_id (AddRecursiveMountBinding t tid (mount_spec c))
  else no_id (AddMountBinding t tid (mount_spec c)).

Definition umount_flags (c : MountSyscallCompletion) : Z :=
  if has (u32 (argument c 1)) kMntDetach then kMountRemoveSubtree ||| kMountRemoveDetached else kMountRemoveNone.

Definition ApplyUmount (t : PathStateTable) (tid : Z) (c : MountSyscallCompletion) : Z * PathStateTable :=
  if negb (PathUsable (mc_path0 c)) then (EPROTO, t)
  else ignoring (no_id (RemoveMountBinding t tid (rp_guest_path (mc_path0 c)) (umount_flags c))).

Definition ApplyChroot (t : PathStateTable) (tid : Z) (c : MountSyscallCompletion) : Z * PathStateTable :=
  let target := mc_path0 c in
  if negb (PathUsable target) then (EPROTO, t)
  else
    let '(translate_error, translation) :=
      TranslateMountPath t tid (rp_guest_path target) (Some (Build_MountPathTranslation 0 0 0 0 0 0 0 0 0 [] [])) in
    if negb (translate_error =? 0) then (translate_error, t)
    else match GetTaskMountNamespace t tid with
    | None => (ESRCH, t)
    | Some mount_namespace =>
      let translation := default InitializeTranslation translation in
      let mount_id := if negb (tr_matched translation =? 0) then tr_mount_id translation else root_mount_id mount_namespace in
      SetTaskRoot t tid (rp_guest_path target) (rp_host_path target) (rp_origin_flags target) 0 0 mount_id
    end.

Definition pivot_root (t : PathStateTable) (tid : Z) (c : MountSyscallCompletion) : Z * PathStateTable :=
  PivotRootMountNamespace t tid (rp_guest_path (mc_path0 c)) (rp_host_path (mc_path0 c)) (rp_guest_path (mc_path1 c)) (rp_host_path (mc_path1 c)).
Definition root_spec (c : MountSyscallCompletion) : MountBindingSpec :=
  Build_MountBindingSpec kMountBindingRoot (kMountBindingStateRuntime ||| kMountBindingStateReverseVisible) 0 0 0 0
    (rp_guest_path (mc_path0 c)) (rp_guest_path (mc_path0 c)) (rp_host_path (mc_path0 c)).

Definition ApplyPivotRoot (t : PathStateTable) (tid : Z) (c : MountSyscallCompletion) : Z * PathStateTable :=
  if negb (PathUsable (mc_path0 c)) || negb (PathUsable (mc_path1 c)) then (EPROTO, t)
  else
    let '(error, t) := pivot_root t tid c in
    if negb (error =? EINVAL) then (error, t)
    else
      let '(error, t) := no_id (AddMountBinding t tid (root_spec c)) in
      if negb (error =? 0) then (error, t) else pivot_root t tid c.

Definition ApplyOpenTree (t : PathStateTable) (tid : Z) (c : MountSyscallCompletion) : Z * PathStateTable :=
  let target := mc_path0 c in
  if negb (PathUsable target) || (mc_kernel_result c <? 0) || (INT32_MAX <? mc_kernel_result c) then (EPROTO, t)
  else
    let flags := u32 (argument c 2) in
    no_id (RecordMountTreeFdIdentity t tid (mc_kernel_result c) (rp_guest_path target) (rp_host_path target)
      (has flags O_CLOEXEC) (has flags kOpenTreeClone)).

Definition ApplyMoveMount (t : PathStateTable) (tid : Z) (c : MountSyscallCompletion) : Z * PathStateTable :=
  let from := mc_path0 c in
  let to := mc_path1 c in
  if negb (PathUsable to) then (EPROTO, t)
  else if has (u32 (argument c 4)) kMoveMountFromEmptyPath then
    no_id (AttachMountTree t tid (s32 (argument c 0)) (rp_guest_path to))
  else if PathUsable from then ignoring (MoveMountBinding t tid (Given (rp_guest_path from)) (rp_guest_path to))
  else (EPROTO, t).

Definition ApplyMountSetattr (t : PathStateTable) (tid : Z) (c : MountSyscallCompletion) : Z * PathStateTable :=
  let target := mc_path0 c in
  if negb (PathUsable target) || (mc_mount_attr_valid c =? 0) then (EPROTO, t)
  else ignoring (SetMountBindingAttributes t tid (rp_guest_path target) (mc_mount_attr_set c) (mc_mount_attr_clear c)
    (mc_mount_propagation c) (has (argument c 2) kAtRecursive)).

Definition IsMountStateSyscall (n : Z) : bool :=
  (n =? kMountStateUmount2) || (n =? kMountStateMount) || (n =? kMountStatePivotRoot) || (n =? kMountStateChroot) ||
  (n =? kMountStateOpenTree) || (n =? kMountStateMoveMount) || (n =? kMountStateMountSetattr).

Definition ApplyMountSyscallCompletion (t : PathStateTable) (tid : Z) (c : MountSyscallCompletion) : Z * PathStateTable :=
  let n := mc_syscall_number c in
  if negb (IsPathStateInitialized t) || (tid <=? 0) || negb (IsMountStateSyscall n) || (2 <? mc_path_count c) then (EINVAL, t)
  else if mc_kernel_result c <? 0 then (0, t)
  else if n =? kMountStateMount then ApplyMount t tid c
  else if n =? kMountStateUmount2 then ApplyUmount t tid c
  else if n =? kMountStateChroot then ApplyChroot t tid c
  else if n =? kMountStatePivotRoot then ApplyPivotRoot t tid c
  else if n =? kMountStateOpenTree then ApplyOpenTree t tid c
  else if n =? kMountStateMoveMount then ApplyMoveMount t tid c
  else if n =? kMountStateMountSetattr then ApplyMountSetattr t tid c
  else (EINVAL, t).
