(* ===== verification/MountSyscallsReach.v ===== *)
(** * What the mount system calls promise

    A completed call is a few operations of path_state.h: the audit passes
    after any mixture of both, the descriptors stay, and a bind mount shows its
    source at its target. *)

From stdpp Require Import list.
From S2P Require Import Prelude Bits SlotArray SlotPool GuestPath GuestPathText PathState PathStorage PathStateOps PathTaskOps PathMounts PathTranslate PathMountMoves PathTreeOps PathStateInv PathViews PathTaskInv PathMountSteps PathMountInv PathVisible PathReach PathMountReach MountSyscalls.
#[local] Open Scope Z_scope.

(** ** Calls as operations *)

(** A path operation, or a mount call of a task that has returned. *)
Inductive Event := Operation (o : PathOperation) | Completed (tid : Z) (c : MountSyscallCompletion).

Definition happen (e : Event) (t : PathStateTable) : Z * PathStateTable :=
  match e with Operation o => perform o t | Completed tid c => ApplyMountSyscallCompletion t tid c end.
Definition following (t : PathStateTable) (es : list Event) : PathStateTable := foldl (fun t e => snd (happen e t)) t es.

(** A call that takes the parent of a detached mount away. *)
Definition call_strands (t : PathStateTable) (tid : Z) (c : MountSyscallCompletion) : bool :=
  (mc_syscall_number c =? kMountStateUmount2) && strands t tid (rp_guest_path (mc_path0 c)) (umount_flags c).
Definition event_strands (e : Event) (t : PathStateTable) : bool :=
  match e with Operation o => strands_by o t | Completed tid c => call_strands t tid c end.
Fixpoint quiet (t : PathStateTable) (es : list Event) : bool :=
  match es with
  | [] => true
  | e :: es => if event_strands e t then false else quiet (snd (happen e t)) es
  end.

(** The most generations an event takes: pivot_root is three operations. *)
Definition event_growth : Z := 3 * growth.

(** From a consistent table to a consistent table with the same descriptors. *)
Definition silent (m k : Z) (t : PathStateTable) (out : Z * PathStateTable) : Prop :=
  (exists m', m <= m' <= m + k /\ Inv (settled m') out.2) /\ same (view out.2) (view t).

Lemma silent_same m k t error : Inv (settled m) t -> 0 <= k -> silent m k t (error, t).
Proof. intros H Hk. split; [exists m; split; [lia|exact H]|done]. Qed.

Lemma silent_weaken m k k' t out : silent m k t out -> k <= k' -> silent m k' t out.
Proof. intros [(m' & Hm' & H') Hs] Hk. split; [exists m'; split; [lia|exact H']|exact Hs]. Qed.

Lemma silent_result m k t out out' : silent m k t out -> out'.2 = out.2 -> silent m k t out'.
Proof. unfold silent. by intros Hs ->. Qed.

Lemma silent_then m k k' t out out' : silent m k t out -> 0 <= m -> (forall m', m <= m' <= m + k -> Inv (settled m') out.2 -> silent m' k' out.2 out') ->
  silent m (k + k') t out'.
Proof.
  intros [(m' & Hm' & H') Hs] Hm Hn. destruct (Hn m' Hm' H') as [(m2 & Hm2 & H2) Hs2]. split; [exists m2; split; [lia|exact H2]|].
  etrans; [exact Hs2|exact Hs].
Qed.

Lemma silent_operation o m t : Inv (settled m) t -> 0 <= m < 2 ^ 64 - growth -> strands_by o t = false ->
  (forall d, unix o d = fun _ u => u) -> silent m growth t (perform o t).
Proof.
  intros H Hm Hs Hu. destruct (perform_keeps o m t H Hm Hs) as [_ Hf Hd (m' & Hm' & H')]. split; [by exists m'|].
  destruct (decide ((perform o t).1 = 0)) as [E|E]; [|exact (Hf E)]. specialize (Hd E). rewrite Hu in Hd. exact (does_nothing _ _ _ Hd).
Qed.

Section Handlers.
Context {m : Z} {t : PathStateTable} (tid : Z) (c : MountSyscallCompletion).
Hypothesis H : Inv (settled m) t.
Hypothesis Hm : 0 <= m < 2 ^ 64 - event_growth.

#[local] Lemma growth_positive : 0 < growth. Proof. done. Qed.

Lemma one_operation o out : strands_by o t = false -> (forall d, unix o d = fun _ u => u) -> out.2 = snd (perform o t) -> silent m growth t out.
Proof.
  intros Hs Hu E. apply (silent_result m growth t (perform o t)); [|exact E]. pose proof growth_positive. unfold event_growth in Hm.
  apply silent_operation; [exact H|lia|exact Hs|exact Hu].
Qed.

Lemma refused error : silent m growth t (error, t).
Proof. apply silent_same; [exact H|]. pose proof growth_positive. lia. Qed.

Lemma apply_mount_silent : silent m growth t (ApplyMount t tid c).
Proof.
  unfold ApplyMount. cbv zeta. destruct (negb _); [apply refused|]. destruct (has _ kMsMove).
  { destruct (PathUsable _); [|apply refused]. by apply (one_operation (MoveMount tid (rp_guest_path (mc_path1 c)) (rp_guest_path (mc_path0 c)))). }
  destruct (_ && _).
  { by apply (one_operation (SetAttributes tid (rp_guest_path (mc_path0 c)) 0 0 (argument c 3 &&& kPropagationMask) (has (argument c 3) kMsRec))). }
  destruct (has _ kMsRemount); [apply refused|]. destruct (_ =? _).
  - by apply (one_operation (AddRecursive tid (mount_spec c))).
  - by apply (one_operation (AddMount tid (mount_spec c))).
Qed.

Lemma apply_umount_silent : mc_syscall_number c = kMountStateUmount2 -> call_strands t tid c = false -> silent m growth t (ApplyUmount t tid c).
Proof.
  intros En Hs. unfold ApplyUmount. destruct (negb _); [apply refused|]. unfold call_strands in Hs. rewrite En in Hs.
  by apply (one_operation (RemoveMount tid (rp_guest_path (mc_path0 c)) (umount_flags c))).
Qed.

Lemma apply_chroot_silent : silent m growth t (ApplyChroot t tid c).
Proof.
  unfold ApplyChroot. cbv zeta. destruct (negb _); [apply refused|]. destruct (TranslateMountPath _ _ _ _) as [error translation].
  destruct (negb _); [apply refused|]. destruct (GetTaskMountNamespace t tid) as [n|]; [|apply refused].
  match goal with |- context [SetTaskRoot t tid ?g ?h ?f 0 0 ?id] => by apply (one_operation (SetRoot tid g h f 0 0 id)) end.
Qed.

Lemma apply_pivot_silent : silent m event_growth t (ApplyPivotRoot t tid c).
Proof.
  pose proof growth_positive as Hg. assert (forall m t, Inv (settled m) t -> 0 <= m < 2 ^ 64 - growth -> silent m growth t (pivot_root t tid c)) as Hpivot.
  { intros m0 t0 H0 Hm0. exact (silent_operation (PivotRoot tid (rp_guest_path (mc_path0 c)) (rp_host_path (mc_path0 c)) (rp_guest_path (mc_path1 c))
      (rp_host_path (mc_path1 c))) m0 t0 H0 Hm0 eq_refl (fun _ => eq_refl)). }
  unfold ApplyPivotRoot, event_growth in *. destruct (_ || _); [apply (silent_weaken m growth); [apply refused|lia]|].
  pose proof (Hpivot m t H ltac:(lia)) as Hfirst. destruct (pivot_root t tid c) as [e1 t1].
  destruct (negb _); [apply (silent_weaken m growth); [exact Hfirst|lia]|].
  replace (3 * growth) with (growth + 2 * growth) by lia. apply (silent_then _ _ _ _ _ _ Hfirst); [lia|]. intros m1 Hm1 H1. cbn [snd] in *.
  pose proof (silent_operation (AddMount tid (root_spec c)) m1 t1 H1 ltac:(lia) eq_refl (fun _ => eq_refl)) as Hsecond.
  cbn [perform] in Hsecond. change (without_id (AddMountBinding t1 tid (root_spec c))) with (no_id (AddMountBinding t1 tid (root_spec c))) in Hsecond.
  destruct (no_id (AddMountBinding t1 tid (root_spec c))) as [e2 t2]. destruct (negb _); [apply (silent_weaken m1 growth); [exact Hsecond|lia]|].
  replace (2 * growth) with (growth + growth) by lia. apply (silent_then _ _ _ _ _ _ Hsecond); [lia|]. intros m2 Hm2 H2. cbn [snd] in *.
  apply Hpivot; [exact H2|lia].
Qed.

Lemma apply_move_mount_silent : silent m growth t (ApplyMoveMount t tid c).
Proof.
  unfold ApplyMoveMount. cbv zeta. destruct (negb _); [apply refused|]. destruct (has _ _).
  - by apply (one_operation (AttachTree tid (s32 (argument c 0)) (rp_guest_path (mc_path1 c)))).
  - destruct (PathUsable _); [|apply refused]. by apply (one_operation (MoveMount tid (rp_guest_path (mc_path0 c)) (rp_guest_path (mc_path1 c)))).
Qed.

Lemma apply_setattr_silent : silent m growth t (ApplyMountSetattr t tid c).
Proof.
  unfold ApplyMountSetattr. cbv zeta. destruct (_ || _); [apply refused|].
  by apply (one_operation (SetAttributes tid (rp_guest_path (mc_path0 c)) (mc_mount_attr_set c) (mc_mount_attr_clear c)
    (mc_mount_propagation c) (has (argument c 2) kAtRecursive))).
Qed.
End Handlers.

Lemma completion_keeps m t tid c : Inv (settled m) t -> 0 <= m < 2 ^ 64 - event_growth -> call_strands t tid c = false ->
  (exists m', m <= m' <= m + event_growth /\ Inv (settled m') (ApplyMountSyscallCompletion t tid c).2) /\
  (mc_syscall_number c <> kMountStateOpenTree -> same (view (ApplyMountSyscallCompletion t tid c).2) (view t)).
Proof.
  intros H Hm Hs. assert (0 < growth) as Hg by done.
  assert (forall out, silent m event_growth t out -> (exists m', m <= m' <= m + event_growth /\ Inv (settled m') out.2) /\
    (mc_syscall_number c <> kMountStateOpenTree -> same (view out.2) (view t))) as Hend by (intros out [H1 H2]; by split).
  assert (forall out, silent m growth t out -> silent m event_growth t out) as Hone.
  { intros out Ho. apply (silent_weaken m growth); [exact Ho|unfold event_growth; lia]. }
  pose proof (fun error => Hend _ (Hone _ (refused H error))) as Hno.
  unfold ApplyMountSyscallCompletion. cbv zeta. destruct (_ || _); [apply Hno|]. destruct (_ <? 0); [apply Hno|].
  destruct (_ =? kMountStateMount); [by apply Hend, Hone, apply_mount_silent|].
  destruct (Z.eqb_spec (mc_syscall_number c) kMountStateUmount2) as [Eu|_]; [by apply Hend, Hone, apply_umount_silent|].
  destruct (_ =? kMountStateChroot); [by apply Hend, Hone, apply_chroot_silent|].
  destruct (_ =? kMountStatePivotRoot); [by apply Hend, apply_pivot_silent|].
  destruct (Z.eqb_spec (mc_syscall_number c) kMountStateOpenTree) as [Eo|_].
  - split; [|done]. unfold ApplyOpenTree. cbv zeta. destruct (_ || _ || _).
    { exists m. split; [unfold event_growth; lia|exact H]. }
    match goal with |- context [RecordMountTreeFdIdentity t tid ?fd ?g ?h ?a ?b] =>
      destruct (perform_keeps (RecordTree tid fd g h a b) m t H) as [_ _ _ (m' & Hm' & H')]; [unfold event_growth in *; lia|reflexivity|] end.
    exists m'. split; [unfold event_growth; lia|exact H'].
  - destruct (_ =? kMountStateMoveMount); [by apply Hend, Hone, apply_move_mount_silent|].
    destruct (_ =? kMountStateMountSetattr); [by apply Hend, Hone, apply_setattr_silent|apply Hno].
Qed.

Lemma event_keeps m t e : Inv (settled m) t -> 0 <= m < 2 ^ 64 - event_growth -> event_strands e t = false ->
  exists m', m <= m' <= m + event_growth /\ Inv (settled m') (snd (happen e t)).
Proof.
  intros H Hm Hs. assert (0 < growth) as Hg by done. destruct e as [o|tid c]; [|exact (proj1 (completion_keeps m t tid c H Hm Hs))].
  unfold event_growth in *. destruct (perform_keeps o m t H ltac:(lia) Hs) as [_ _ _ (m' & Hm' & H')]. exists m'. split; [lia|exact H'].
Qed.

Lemma quiet_settled es m t : Inv (settled m) t -> 0 <= m -> m + Z.of_nat (length es) * event_growth < 2 ^ 64 -> quiet t es = true ->
  exists m', 0 <= m' <= m + Z.of_nat (length es) * event_growth /\ Inv (settled m') (following t es).
Proof.
  assert (0 < event_growth) as Hg by done. unfold following. revert m t. induction es as [|e es IH]; intros m t H Hm Hl Hs; cbn [foldl length quiet] in *.
  - exists m. split; [lia|done].
  - destruct (event_strands e t) eqn:E; [done|]. destruct (event_keeps m t e H ltac:(nia) E) as (m1 & Hm1 & H1).
    destruct (IH m1 _ H1 ltac:(lia) ltac:(lia) Hs) as (m' & Hm' & H'). exists m'. split; [lia|done].
Qed.

Lemma quiet_snoc e es t : quiet t (es ++ [e]) = true -> quiet t es = true /\ event_strands e (following t es) = false.
Proof.
  unfold following. revert t. induction es as [|e' es IH]; intros t; cbn [app quiet foldl]; [by destruct (event_strands e t)|].
  destruct (event_strands e' t); [done|apply IH].
Qed.

(** The events from the start on, none of which strands a mount, with the
    generations they can take. *)
Definition history (es : list Event) : PathStateTable := following InitPathState es.
Definition undisturbed (es : list Event) : Prop := Z.of_nat (length es) * event_growth < 2 ^ 64 /\ quiet InitPathState es = true.

Lemma history_settled es : undisturbed es -> exists m, 0 <= m <= Z.of_nat (length es) * event_growth /\ Inv (settled m) (history es).
Proof. intros [Hl Hq]. exact (quiet_settled es 0 _ Init_settled ltac:(lia) ltac:(lia) Hq). Qed.

(** ** The theorems *)

(** C8 (invariant): after any mixture of path operations and completed mount
    calls (mount, umount2, chroot, pivot_root, open_tree, move_mount,
    mount_setattr, with any arguments, paths and kernel results) that strands
    no mount, ValidatePathState accepts the table. *)
Theorem mount_calls_keep_state es : undisturbed es -> ValidatePathState (history es) = true.
Proof. intros (m & _ & HI)%history_settled. exact (settled_audit m _ HI). Qed.

(** a completed mount call other than open_tree, whatever it
    returns, changes no descriptor any task can look up. *)
Theorem mount_calls_leave_descriptors es tid c other fd : undisturbed (es ++ [Completed tid c]) ->
  mc_syscall_number c <> kMountStateOpenTree -> 0 < other -> 0 <= fd ->
  option_map described (LookupFdIdentity (history (es ++ [Completed tid c])) other fd) =
  option_map described (LookupFdIdentity (history es) other fd).
Proof.
  intros Hu Hn Ho Hf. destruct (history_settled _ Hu) as (m2 & _ & H2). destruct Hu as [Hl Hq]. destruct (quiet_snoc _ _ _ Hq) as [Hq1 Hq2].
  rewrite length_app in Hl. cbn [length] in Hl. assert (0 < event_growth) by done.
  destruct (history_settled es ltac:(by split; [lia|])) as (m & Hm & HI).
  rewrite (lookup_seen other fd H2 Ho Hf), (lookup_seen other fd HI Ho Hf).
  assert (history (es ++ [Completed tid c]) = (ApplyMountSyscallCompletion (history es) tid c).2) as ->.
  { unfold history, following. by rewrite foldl_app. }
  by rewrite (proj2 (completion_keeps m (history es) tid c HI ltac:(lia) Hq2) Hn).
Qed.

(** ** A bind mount *)

(** A path whose whole text is the prefix becomes the new prefix. *)
Lemma substitute_whole p n : ValidateCanonicalPath (Some p) = 0 -> ValidateCanonicalPath (Some n) = 0 ->
  exists out, SubstitutePathPrefix p (CopyPath (Some p)) (CopyPath (Some n)) = inr out /\ same_text out n.
Proof.
  intros [cs Hp]%canonical_components [ns Hn]%canonical_components. destruct (copied_denotes p cs Hp) as [-> Hp'].
  destruct (copied_denotes n ns Hn) as [-> Hn']. pose proof (substitute_exact p (render cs) (render ns) cs cs ns Hp Hp' Hn') as HS.
  destruct (SubstitutePathPrefix _ _ _) as [error|out].
  - exfalso. destruct HS as [[_ []]|(_ & s & E & Hl)]; [by exists []; rewrite app_nil_r|].
    assert (s = []) as -> by (apply (f_equal length) in E; rewrite length_app in E; destruct s; [done|simpl in E; lia]).
    rewrite app_nil_r in Hl. destruct Hn as (_ & _ & Hn). lia.
  - destruct HS as (s & E & -> & Hd). exists (render (ns ++ s)). split; [done|].
    assert (s = []) as -> by (apply (f_equal length) in E; rewrite length_app in E; destruct s; [done|simpl in E; lia]).
    rewrite app_nil_r in *. unfold same_text. destruct Hd as (-> & _), Hn as (-> & _). done.
Qed.

(** The arguments of a plain bind mount of one resolved path on another. *)
Record plain_bind (c : MountSyscallCompletion) : Prop := {
  pb_call : mc_syscall_number c = kMountStateMount;
  pb_result : 0 <= mc_kernel_result c;
  pb_target : PathUsable (mc_path0 c) = true;
  pb_source : PathUsable (mc_path1 c) = true;
  pb_flags : has (argument c 3) (kMsMove ||| kMsRemount ||| kMsRec) = false }.

Lemma plain_bind_adds t tid c t' : plain_bind c -> ApplyMountSyscallCompletion t tid c = (0, t') ->
  exists id, AddMountBinding t tid (mount_spec c) = (0, Some id, t') /\
    ms_target_guest (mount_spec c) = rp_guest_path (mc_path0 c) /\ ms_source_host (mount_spec c) = rp_host_path (mc_path1 c) /\
    ms_source_guest (mount_spec c) = rp_guest_path (mc_path1 c).
Proof.
  intros [Hn Hr H0 H1 Hf]. rewrite !has_union in Hf. apply orb_false_iff in Hf as [[Hmove Hrem]%orb_false_iff Hrec].
  unfold ApplyMountSyscallCompletion, ApplyMount, mount_source. cbv zeta. rewrite Hn, H0, H1, Hmove, Hrem. cbn [negb andb].
  replace (mc_kernel_result c <? 0) with false by lia. change (kMountStateMount =? kMountStateMount) with true. rewrite andb_false_r.
  destruct (_ || _); [done|]. destruct (Z.eqb_spec (argument c 3 &&& (kMsBind ||| kMsRec)) (kMsBind ||| kMsRec)) as [E|_].
  { exfalso. apply (f_equal (fun x => x &&& kMsRec)) in E. rewrite <- Z.land_assoc in E. change ((kMsBind ||| kMsRec) &&& kMsRec) with kMsRec in E.
    unfold has in Hrec. apply negb_false_iff, Z.eqb_eq in Hrec. rewrite Hrec in E. discriminate E. }
  unfold no_id. intros E. destruct (AddMountBinding t tid (mount_spec c)) as [[e o] t1] eqn:Ea. cbn [fst snd] in E. injection E as -> ->.
  enough (exists id, o = Some id) as [id ->].
  { exists id. split; [done|]. unfold mount_spec, mount_source. by rewrite H1. }
  unfold AddMountBinding, for_task in Ea. destruct (_ || _ || _); [done|]. destruct (FindTaskUnchecked t tid) as [slot|]; [|done].
  destruct (AddMountBindingInternal _ _ _) as [[e2 [s|]] t2] eqn:Ei; [injection Ea as _ <- _; by eexists|]. exfalso. injection Ea as -> _ _.
  unfold AddMountBindingInternal in Ei. destruct (Z.eqb_spec (ValidateMountBindingSpec (mount_spec c)) 0) as [Ev|Ev]; cbn [negb] in Ei; [|injection Ei; congruence].
  destruct (find_free (mount_bindings t)); [|done]. destruct (parent_for _ _ _) as [error|parent] eqn:Ep; [|done]. injection Ei as -> _.
  unfold parent_for in Ep. repeat case_match; done.
Qed.

(** C7 (functional): after a mount call that bound one resolved path on another
    has been applied, the target leads to the source: it translates to the
    source's host path and guest path, through a mount. *)
Theorem bind_shows_source es tid c t' ns : undisturbed (es ++ [Completed tid c]) -> plain_bind c ->
  ApplyMountSyscallCompletion (history es) tid c = (0, t') ->
  namespace_of (history es) tid = Some ns -> mounts_in (history es) ns + 1 < kPathStateMountBindingCapacity ->
  exists tr, to_host t' tid (path_of (rp_guest_path (mc_path0 c))) = (0, tr) /\ tr_matched tr <> 0 /\
    same_text (tr_host_path tr) (path_of (rp_host_path (mc_path1 c))) /\
    same_text (tr_guest_path tr) (path_of (rp_guest_path (mc_path1 c))).
Proof.
  intros [Hl Hq] Hc Hap Hns Hcount. rewrite length_app in Hl. cbn [length] in Hl. destruct (quiet_snoc _ _ _ Hq) as [Hq1 _].
  assert (1 < event_growth) as Hg by done. destruct (history_settled es ltac:(by split; [lia|])) as (m & Hm & HI).
  revert HI Hap Hns Hcount. generalize (history es). intros t HI Hap Hns Hcount.
  destruct (plain_bind_adds t tid c t' Hc Hap) as (id & Hadd & Etg & Esh & Esg).
  destruct (add_mount_done m t tid (mount_spec c) id t' HI ltac:(lia) Hadd)
    as (Htid & -> & H1 & x & ns' & n & slot & Hx & Hxs & Hns0 & Hns1 & En & Hn & HA & Hid).
  assert (ns' = ns) as -> by congruence. unfold mounts_in in Hcount. rewrite En in Hcount.
  pose proof (added_visible HI Hn H1 HA eq_refl Hcount) as Hvis. destruct (added_mounts HI HA) as (parent & _ & _ & Hget).
  pose proof (ad_valid _ _ _ _ _ _ _ HA) as Hv. apply spec_valid in Hv as (_ & _ & _ & V1 & V2 & V3). rewrite Etg in V1, Hvis. rewrite Esg in V2. rewrite Esh in V3.
  set (target := path_of (rp_guest_path (mc_path0 c))) in *.
  assert (rp_guest_path (mc_path0 c) = Some target /\ rp_guest_path (mc_path1 c) = Some (path_of (rp_guest_path (mc_path1 c))) /\
    rp_host_path (mc_path1 c) = Some (path_of (rp_host_path (mc_path1 c)))) as (T1 & T2 & T3).
  { unfold target. destruct (rp_guest_path (mc_path0 c)), (rp_guest_path (mc_path1 c)), (rp_host_path (mc_path1 c)); done. }
  rewrite T1 in V1. rewrite T2 in V2. rewrite T3 in V3.
  assert (binding_at t' slot = new_binding (mount_spec c) slot ns parent (m + 1)) as Eb.
  { apply (get_at (iv_bindings _ _ H1)). by rewrite Hget, decide_True. }
  unfold to_host, filled, TranslateMountPath. rewrite (initialized H1). replace (tid <=? 0) with false by lia. cbn [is_null negb orb].
  rewrite V1. cbn [negb Z.eqb]. unfold FindPathTask. rewrite (initialized H1). replace (tid <=? 0) with false by lia. cbn [negb orb].
  change (0 =? 0) with true. cbn [negb]. rewrite Hx, Hxs. change (path_of (Some target)) with target. rewrite Hvis, Eb.
  cbn [new_binding target_guest mb_source_guest mb_source_host]. rewrite Etg, Esg, Esh, T1. rewrite T2, T3. unfold substitute_both.
  destruct (substitute_whole target _ V1 V2) as (g & -> & Sg). destruct (substitute_whole target _ V1 V3) as (h & -> & Sh).
  change (0 =? 0) with true. cbn [negb fst snd default]. eexists. split; [reflexivity|]. cbn [FillTranslationMetadata tr_matched tr_host_path tr_guest_path with_paths].
  split; [done|]. split; [exact Sh|exact Sg].
Qed.

(** ** Witnesses *)

Definition resolved (guest host : Path) : MountResolvedPath := Build_MountResolvedPath 1 both_valid (Some guest) (Some host).
Definition call (n : Z) (arguments : list Z) (path0 path1 : MountResolvedPath) : MountSyscallCompletion :=
  Build_MountSyscallCompletion n 2 0 0 0 arguments 0 0 0 path0 path1.
Definition started : list Event := [Operation (Insert 7 (Some [SLASH]) (Some [SLASH]))].
(** mount("/b/c", "/a", NULL, MS_BIND, NULL), umount2("/a", MNT_DETACH), pivot_root("/a", "/a/c") *)
Definition bind_call : MountSyscallCompletion := call kMountStateMount [0; 0; 0; kMsBind; 0; 0] (resolved [SLASH; 97] [SLASH; 97]) (resolved b_c b_c).
Definition umount_call : MountSyscallCompletion := call kMountStateUmount2 [0; kMntDetach; 0; 0; 0; 0] (resolved [SLASH; 97] [SLASH; 97]) (resolved b_c b_c).
Definition pivot_call : MountSyscallCompletion := call kMountStatePivotRoot [0; 0; 0; 0; 0; 0] (resolved [SLASH; 97] b_c) (resolved a_c a_c).

Lemma mount_calls_keep_state_witness :
  ValidatePathState (history (started ++ [Completed 7 bind_call; Completed 7 umount_call; Completed 7 pivot_call])) = true.
Proof. apply mount_calls_keep_state. split; vm_compute; reflexivity. Defined.

Lemma mount_calls_leave_descriptors_witness :
  let es := started ++ [Operation (RecordFd 7 3 opened)] in
  option_map described (LookupFdIdentity (history (es ++ [Completed 7 bind_call])) 7 3) =
  option_map described (LookupFdIdentity (history es) 7 3).
Proof. apply (mount_calls_leave_descriptors (started ++ [Operation (RecordFd 7 3 opened)])); [split; vm_compute; reflexivity|discriminate|reflexivity|discriminate]. Defined.

Lemma bind_shows_source_witness :
  exists tr, to_host (snd (ApplyMountSyscallCompletion (history started) 7 bind_call)) 7 [SLASH; 97] = (0, tr) /\ tr_matched tr <> 0 /\
    same_text (tr_host_path tr) b_c /\ same_text (tr_guest_path tr) b_c.
Proof.
  apply (bind_shows_source started 7 bind_call _ 0); [split; vm_compute; reflexivity|split; vm_compute; first [reflexivity|discriminate]|vm_compute; reflexivity..].
Defined.
