(* ===== verification/ProcStatus.v ===== *)
(** * The views of /proc/<pid>/status, stat and wchan

    hookself/internal/proc_status_view.h and .cpp: what a traced program reads
    about itself is rewritten in place so that it shows no tracer. A buffer is
    the list of its bytes, its size the length of the list; the code never
    reads past it. Offsets are [nat]: they stay below the size of a buffer in
    memory, so no [size_t] computation wraps. *)

From S2P Require Import Prelude.
From stdpp Require Import list strings.
#[local] Open Scope Z_scope.

(** The bytes of a string literal. *)
Definition chars (s : string) : list Z := (fun c => Z.of_nat (Ascii.nat_of_ascii c)) <$> String.list_ascii_of_string s.

Definition not_newline (b : Z) : bool := negb (b =? 10).
Definition space (b : Z) : bool := b =? 32.
Definition blank (b : Z) : bool := (b =? 32) || (b =? 9).
Definition blank_cr (b : Z) : bool := (b =? 32) || (b =? 9) || (b =? 13).
Definition digit (b : Z) : bool := (48 <=? b) && (b <=? 57).

(** [while (cursor < limit && p(data[cursor])) ++cursor;] *)
Fixpoint skip_loop (p : Z -> bool) (data : list Z) (n cursor : nat) : nat :=
  match n with
  | O => cursor
  | S n => if p (data !!! cursor) then skip_loop p data n (S cursor) else cursor
  end.
Definition skip (p : Z -> bool) (data : list Z) (limit cursor : nat) : nat :=
  skip_loop p data (limit - cursor) cursor.

Definition PrefixEquals (data : list Z) (size offset : nat) (prefix : list Z) : bool :=
  if (size <? offset)%nat || (size - offset <? length prefix)%nat then false
  else forallb (fun i => data !!! (offset + i)%nat =? prefix !!! i) (seq 0 (length prefix)).

(** The loop over the lines of a buffer that the body may rewrite: [inl] is an
    early return, [None] that the fuel did not suffice. *)
Fixpoint each_line {S E : Type} (data_of : S -> list Z) (body : nat -> nat -> S -> E + S)
    (fuel line_start : nat) (s : S) : option (E + S) :=
  match fuel with
  | O => None
  | Datatypes.S fuel =>
    let data := data_of s in
    let size := length data in
    if (line_start <? size)%nat then
      let line_end := skip not_newline data size line_start in
      match body line_start line_end s with
      | inl e => Some (inl e)
      | inr s => each_line data_of body fuel (if (line_end <? size)%nat then Datatypes.S line_end else size) s
      end
    else Some (inr s)
  end.

(** A line has at least its newline, so the size of the buffer bounds them. *)
Definition lines_fuel (data : list Z) : nat := S (length data).

(** ** Reading a field *)

Record FieldValue := { value : Z; value_offset : nat; value_length : nat; matches : Z }.

(** The digits from the cursor on, at most [n] of them: the end and the value,
    [None] when it does not fit. *)
Fixpoint decimal_loop (data : list Z) (n cursor : nat) (v : Z) : option (nat * Z) :=
  match n with
  | O => Some (cursor, v)
  | S n =>
    let b := data !!! cursor in
    if digit b then
      let d := b - 48 in
      if (UINT64_MAX - d) / 10 <? v then None else decimal_loop data n (S cursor) (v * 10 + d)
    else Some (cursor, v)
  end.

Fixpoint strip_loop (data : list Z) (offset length : nat) : nat :=
  match length with
  | O => O
  | S l => if blank_cr (data !!! (offset + l)%nat) then strip_loop data offset l else length
  end.

(** The body of the loop over lines of FindDecimalField. *)
Definition field_line (data prefix : list Z) (line_start line_end : nat) (field : FieldValue) : Z + FieldValue :=
  if PrefixEquals data line_end line_start prefix then
    let value_offset := skip blank data line_end (line_start + length prefix) in
    match decimal_loop data (line_end - value_offset) value_offset 0 with
    | None => inl EOVERFLOW
    | Some (cursor, v) =>
      if (cursor =? value_offset)%nat then inl EPROTO
      else
        let cursor := skip blank_cr data line_end cursor in
        if negb (cursor =? line_end)%nat || negb (matches field + 1 =? 1) then inl EPROTO
        else inr {| value := v; value_offset := value_offset;
                    value_length := strip_loop data value_offset (cursor - value_offset);
                    matches := matches field + 1 |}
    end
  else inr field.

Definition FindDecimalField (data prefix : list Z) : option (Z + FieldValue) :=
  match each_line (fun _ => data) (field_line data prefix) (lines_fuel data) 0
      {| value := 0; value_offset := 0; value_length := 0; matches := 0 |} with
  | Some (inr field) => Some (if matches field =? 1 then inr field else inl EPROTO)
  | r => r
  end.

Record ProcStatusMetadata := { tgid : Z; pid : Z; tracer_value_offset : nat; tracer_value_length : nat }.

Definition ParseProcStatusMetadata (data : list Z) (expected_tgid : Z) : option (Z + ProcStatusMetadata) :=
  if (length data =? 0)%nat || (expected_tgid <=? 0) then Some (inl EINVAL)
  else match FindDecimalField data (chars "Tgid:") with
  | Some (inr ftgid) =>
    match FindDecimalField data (chars "Pid:") with
    | Some (inr fpid) =>
      match FindDecimalField data (chars "TracerPid:") with
      | Some (inr tracer) =>
        if negb (value ftgid =? expected_tgid) || (INT32_MAX <? value ftgid) ||
           (value fpid =? 0) || (INT32_MAX <? value fpid) ||
           (value_length tracer =? 0)%nat || (UINT32_MAX <? Z.of_nat (value_length tracer))
        then Some (inl EPROTO)
        else Some (inr {| tgid := value ftgid; pid := value fpid;
                          tracer_value_offset := value_offset tracer;
                          tracer_value_length := value_length tracer |})
      | Some (inl error) => Some (inl error)
      | None => None
      end
    | Some (inl error) => Some (inl error)
    | None => None
    end
  | Some (inl error) => Some (inl error)
  | None => None
  end.

Definition TracerPidValueIsZero (data : list Z) (metadata : ProcStatusMetadata) : bool :=
  if (tracer_value_length metadata =? 0)%nat || (length data <? tracer_value_offset metadata)%nat ||
     (length data - tracer_value_offset metadata <? tracer_value_length metadata)%nat then false
  else forallb (fun i => data !!! (tracer_value_offset metadata + i)%nat =? 48)
         (seq 0 (tracer_value_length metadata)).

(** ** Rewriting status *)

(** The buffer and the number of changes. *)
Definition Rewriting : Type := list Z * Z.

(** The digits from the cursor on become zeros. *)
Fixpoint zero_digits (n cursor : nat) (s : Rewriting) : Rewriting :=
  match n with
  | O => s
  | S n =>
    let '(data, rewritten) := s in
    let b := data !!! cursor in
    if digit b then
      zero_digits n (S cursor) (if negb (b =? 48) then (<[cursor := 48]> data, rewritten + 1) else s)
    else s
  end.

Definition tracer_line (line_start line_end : nat) (s : Rewriting) : Empty_set + Rewriting :=
  let data := s.1 in
  if (line_end <? length data)%nat && PrefixEquals data line_end line_start (chars "TracerPid:") then
    let cursor := skip blank data line_end (line_start + length (chars "TracerPid:")) in
    inr (zero_digits (line_end - cursor) cursor s)
  else inr s.

(** The result of a rewriting loop: the buffer and the number of changes. *)
Definition rewrite_lines (body : nat -> nat -> Rewriting -> Empty_set + Rewriting) (data : list Z)
    : option Rewriting :=
  match each_line fst body (lines_fuel data) 0 (data, 0) with
  | Some (inr s) => Some s
  | _ => None
  end.

Definition RewriteTracerPidValue (data : list Z) : option Rewriting := rewrite_lines tracer_line data.

Definition kReplacement : list Z := chars "S (sleeping)".

(** [for (i = from; i < to; ++i) data[start + i] = byte(i);] *)
Definition store (start from n : nat) (byte : nat -> Z) (data : list Z) : list Z :=
  foldl (fun data i => <[(start + i)%nat := byte i]> data) data (seq from n).

Definition state_line (line_start line_end : nat) (s : Rewriting) : Empty_set + Rewriting :=
  let '(data, rewritten) := s in
  if (line_end <? length data)%nat && PrefixEquals data line_end line_start (chars "State:") then
    let value_start := skip blank data line_end (line_start + length (chars "State:")) in
    let value_length := (line_end - value_start)%nat in
    if (length kReplacement <=? value_length)%nat && (data !!! value_start =? 116) then
      let paren := skip space data line_end (value_start + 1) in
      if (paren <? line_end)%nat && PrefixEquals data line_end paren (chars "(tracing stop)") then
        let data := store value_start 0 (length kReplacement) (fun i => kReplacement !!! i) data in
        let data := store value_start (length kReplacement) (value_length - length kReplacement) (fun _ => 32) data in
        inr (data, rewritten + 1)
      else inr s
    else inr s
  else inr s.

Definition RewriteProcStatusStateLine (data : list Z) : option Rewriting := rewrite_lines state_line data.

(** resident_session/proc_status.inc *)
Definition RewriteProcStatusReadOutput (output : list Z) : option Rewriting :=
  match RewriteTracerPidValue output with
  | Some (output, rewritten) =>
    match RewriteProcStatusStateLine output with
    | Some (output, more) => Some (output, rewritten + more)
    | None => None
    end
  | None => None
  end.

(** ** stat *)

(** The last closing parenthesis from [first] on. *)
Definition last_paren (data : list Z) (first : nat) : option nat :=
  foldl (fun found i => if data !!! i =? 41 then Some i else found) None (seq first (length data - first)).

Record ProcStatStateMetadata := { stat_pid : Z; state_offset : nat }.

(** One of the letters "SRDtTZXxIKWP". *)
Definition StateLetterValid (state : Z) : bool := existsb (Z.eqb state) (chars "SRDtTZXxIKWP").

Definition ParseProcStatStateMetadata (data : list Z) (expected_pid : Z) : Z * ProcStatStateMetadata :=
  let none := {| stat_pid := 0; state_offset := 0 |} in
  let size := length data in
  if (size =? 0)%nat || (expected_pid <=? 0) then (EINVAL, none)
  else match decimal_loop data size 0 0 with
  | None => (EOVERFLOW, none)
  | Some (cursor, pid) =>
    if (cursor =? 0)%nat || (pid =? 0) || (INT32_MAX <? pid) || (size <=? cursor)%nat ||
       negb (data !!! cursor =? 32) || negb (pid =? expected_pid) then (EPROTO, none)
    else
      let cursor := S cursor in
      if (size <=? cursor)%nat || negb (data !!! cursor =? 40) then (EPROTO, none)
      else match last_paren data (S cursor) with
      | None => (EPROTO, none)
      | Some rparen =>
        if (size <=? S rparen)%nat then (EPROTO, none)
        else
          let state_cursor := skip space data size (S rparen) in
          if (size <=? state_cursor)%nat then (EPROTO, none)
          else
            let state := data !!! state_cursor in
            let next := S state_cursor in
            if (next <? size)%nat && negb (data !!! next =? 32) && negb (data !!! next =? 10) then (EPROTO, none)
            else (if StateLetterValid state then 0 else EPROTO, {| stat_pid := pid; state_offset := state_cursor |})
      end
  end.

Definition RewriteProcStatStateTraced (data : list Z) : Rewriting :=
  let size := length data in
  match last_paren data 0 with
  | None => (data, 0)
  | Some rparen =>
    if (size <=? S rparen)%nat then (data, 0)
    else
      let state_cursor := skip space data size (S rparen) in
      if (state_cursor <? size)%nat && (data !!! state_cursor =? 116) then
        let next := S state_cursor in
        if (size <=? next)%nat || (data !!! next =? 32) || (data !!! next =? 10)
        then (<[state_cursor := 83]> data, 1) else (data, 0)
      else (data, 0)
  end.

(** ** wchan *)

(** [for (i = 0; i + length <= size; ++i)]: the needle occurs. *)
Definition Contains (data needle : list Z) : bool :=
  existsb (fun i => PrefixEquals data (length data) i needle) (seq 0 (S (length data) - length needle)).

Definition RewriteProcWchanContent (data : list Z) : Rewriting :=
  if negb (Contains data (chars "ptrace")) then (data, 0)
  else if (length (chars "ptrace_stop") <=? length data)%nat &&
          PrefixEquals data (length data) 0 (chars "ptrace_stop")
  then (store 0 0 (length (chars "ptrace_stop")) (fun i => chars "wait_waking" !!! i) data, 1)
  else (store 0 0 (length data) (fun i => chars "futex_wait" !!! (i mod length (chars "futex_wait"))%nat) data, 1).
