(* ===== verification/ProcStatusLines.v ===== *)
(** * The views of /proc, line by line

    What the loops of [ProcStatus] compute, stated on the lines of the buffer:
    a field is the one line with its prefix, and rewriting changes each
    complete line on its own, byte for byte. *)

From S2P Require Import Prelude ProcStatus.
From stdpp Require Import list strings.
#[local] Open Scope Z_scope.

(** ** Scanning *)

(** The bytes at the front that satisfy the predicate. *)
Fixpoint run (p : Z -> bool) (l : list Z) : nat :=
  match l with [] => O | b :: l => if p b then S (run p l) else O end.

Lemma skip_loop_run p pre l post :
  skip_loop p (pre ++ l ++ post) (length l) (length pre) = (length pre + run p l)%nat.
Proof.
  revert pre. induction l as [|b l IH]; intros pre; simpl; [lia|].
  rewrite list_lookup_total_middle by done. destruct (p b); [|lia].
  specialize (IH (pre ++ [b])). rewrite <- app_assoc, length_app in IH. simpl in IH.
  replace (length pre + 1)%nat with (S (length pre)) in IH by lia. simpl. rewrite IH. lia.
Qed.

Lemma skip_run p pre l post limit : limit = (length pre + length l)%nat ->
  skip p (pre ++ l ++ post) limit (length pre) = (length pre + run p l)%nat.
Proof. intros ->. unfold skip. rewrite Nat.add_comm, Nat.add_sub. apply skip_loop_run. Qed.

Lemma run_length p l : (run p l <= length l)%nat.
Proof. induction l as [|b l IH]; simpl; [lia|]. destruct (p b); lia. Qed.

Lemma run_all p l : forallb p l = true -> run p l = length l.
Proof.
  induction l as [|b l IH]; simpl; [done|]. intros [Hb Hl]%andb_true_iff. by rewrite Hb, IH.
Qed.

Lemma run_app p l1 b l2 : forallb p l1 = true -> p b = false -> run p (l1 ++ b :: l2) = length l1.
Proof.
  intros H1 Hb. induction l1 as [|x l1 IH]; simpl in *; [by rewrite Hb|].
  apply andb_true_iff in H1 as [-> H1]. by rewrite IH.
Qed.

Lemma run_take p l : forallb p (take (run p l) l) = true.
Proof. induction l as [|b l IH]; simpl; [done|]. destruct (p b) eqn:E; simpl; [by rewrite E|done]. Qed.

Lemma run_drop p l : match drop (run p l) l with [] => True | b :: _ => p b = false end.
Proof. induction l as [|b l IH]; simpl; [done|]. destruct (p b) eqn:E; simpl; done. Qed.

(** The bytes split where the run ends. *)
Lemma run_split p l : exists l1 l2, l = l1 ++ l2 /\ length l1 = run p l /\ forallb p l1 = true /\
  match l2 with [] => True | b :: _ => p b = false end.
Proof.
  exists (take (run p l) l), (drop (run p l) l). split; [by rewrite take_drop|].
  split; [rewrite length_take; pose proof (run_length p l); lia|]. split; [apply run_take|apply run_drop].
Qed.

(** ** Prefixes *)

Fixpoint starts_with (prefix l : list Z) : bool :=
  match prefix, l with
  | [], _ => true
  | b :: prefix, c :: l => (c =? b) && starts_with prefix l
  | _ :: _, [] => false
  end.

Lemma starts_with_split prefix l : starts_with prefix l = true <-> exists m, l = prefix ++ m.
Proof.
  revert l. induction prefix as [|b prefix IH]; intros l; simpl; [split; [by eexists|done]|].
  destruct l as [|c l]; [split; [done|by intros [m ?]]|]. rewrite andb_true_iff, IH, Z.eqb_eq. split.
  - intros [-> [m ->]]. by exists m.
  - intros [m [= -> ->]]. split; [done|by exists m].
Qed.

Lemma forallb_shift (f g : nat -> bool) n k : (forall i, f (S i) = g i) -> forallb f (seq (S k) n) = forallb g (seq k n).
Proof. intros H. revert k. induction n as [|n IH]; intros k; simpl; [done|]. by rewrite H, IH. Qed.

Lemma prefix_bytes pre l post prefix : (length prefix <= length l)%nat ->
  forallb (fun i => (pre ++ l ++ post) !!! (length pre + i)%nat =? prefix !!! i) (seq 0 (length prefix)) =
  starts_with prefix l.
Proof.
  revert pre l. induction prefix as [|b prefix IH]; intros pre l Hl; simpl; [done|].
  destruct l as [|c l]; simpl in Hl |- *; [lia|]. rewrite Nat.add_0_r, list_lookup_total_middle by done. f_equal.
  specialize (IH (pre ++ [c]) l ltac:(lia)). rewrite <- IH. apply forallb_shift. intros i.
  rewrite <- !app_assoc, length_app. simpl. do 2 f_equal. lia.
Qed.

(** PrefixEquals looks at the bytes up to the limit. *)
Lemma PrefixEquals_spec pre l post prefix limit : limit = (length pre + length l)%nat ->
  PrefixEquals (pre ++ l ++ post) limit (length pre) prefix = starts_with prefix l.
Proof.
  intros ->. unfold PrefixEquals. replace (length pre + length l <? length pre)%nat with false by lia.
  rewrite Nat.add_comm, Nat.add_sub. cbn [orb]. destruct (length l <? length prefix)%nat eqn:E.
  - symmetry. apply not_true_is_false. intros [m ->]%starts_with_split. rewrite length_app in E. lia.
  - apply prefix_bytes. lia.
Qed.

(** ** Lines *)

Definition newline_free (l : list Z) : Prop := forallb not_newline l = true.

Fixpoint join_lines (ls : list (list Z)) : list Z :=
  match ls with
  | [] => []
  | [l] => l
  | l :: ls => l ++ 10 :: join_lines ls
  end.

Lemma join_cons l l' ls : join_lines (l :: l' :: ls) = l ++ 10 :: join_lines (l' :: ls).
Proof. done. Qed.

(** Every buffer is its lines. *)
Lemma buffer_lines data : exists l ls, data = join_lines (l :: ls) /\ Forall newline_free (l :: ls).
Proof.
  induction data as [|b data (l & ls & -> & Hl)]; [exists [], []; split; [done|by constructor]|].
  destruct (b =? 10) eqn:E.
  - exists [], (l :: ls). apply Z.eqb_eq in E as ->. split; [done|]. by constructor.
  - exists (b :: l), ls. split; [by destruct ls|]. inversion Hl as [|? ? Hl1 Hl2]. constructor; [|done].
    unfold newline_free in *. simpl. unfold not_newline at 1. by rewrite E.
Qed.

(** Where the scan for the end of the line stops. *)
Lemma line_end_complete pre l rest : newline_free l ->
  skip not_newline (pre ++ l ++ 10 :: rest) (length (pre ++ l ++ 10 :: rest)) (length pre) = (length pre + length l)%nat.
Proof.
  intros Hl. pose proof (skip_run not_newline pre (l ++ 10 :: rest) [] (length (pre ++ l ++ 10 :: rest))) as Hs.
  rewrite app_nil_r in Hs. rewrite Hs by (by rewrite length_app). f_equal. by apply run_app.
Qed.

Lemma line_end_last pre l : newline_free l ->
  skip not_newline (pre ++ l) (length (pre ++ l)) (length pre) = (length pre + length l)%nat.
Proof.
  intros Hl. pose proof (skip_run not_newline pre l [] (length (pre ++ l))) as Hs. rewrite app_nil_r in Hs.
  rewrite Hs by (by rewrite length_app). f_equal. by apply run_all.
Qed.

(** ** Numbers *)

(** The digits at the front: how many, and their value. *)
Fixpoint digits_value (l : list Z) (v : Z) : option (nat * Z) :=
  match l with
  | [] => Some (O, v)
  | b :: l =>
    if digit b then
      if (UINT64_MAX - (b - 48)) / 10 <? v then None
      else match digits_value l (v * 10 + (b - 48)) with Some (k, v) => Some (S k, v) | None => None end
    else Some (O, v)
  end.

Lemma decimal_loop_spec pre l post v : decimal_loop (pre ++ l ++ post) (length l) (length pre) v =
  match digits_value l v with Some (k, v) => Some ((length pre + k)%nat, v) | None => None end.
Proof.
  revert pre v. induction l as [|b l IH]; intros pre v; simpl; [do 2 f_equal; lia|].
  rewrite list_lookup_total_middle by done. destruct (digit b); [|do 2 f_equal; lia].
  destruct (_ <? v); [done|]. specialize (IH (pre ++ [b]) (v * 10 + (b - 48))).
  rewrite <- app_assoc, length_app in IH. simpl in IH. rewrite Nat.add_1_r in IH. simpl. rewrite IH.
  destruct (digits_value l _) as [[k w]|]; [|done]. do 2 f_equal. lia.
Qed.

Lemma digits_value_run l v k w : digits_value l v = Some (k, w) -> k = run digit l.
Proof.
  revert v k w. induction l as [|b l IH]; simpl; intros v k w; [by intros [= <- _]|].
  destruct (digit b); [|by intros [= <- _]]. destruct (_ <? v); [done|].
  destruct (digits_value l _) as [[k' w']|] eqn:E; [|done]. intros [= <- _]. f_equal. by eapply IH.
Qed.

(** Zeros in place of the digits. *)
Lemma digits_value_zeros k l : match l with [] => True | b :: _ => digit b = false end ->
  digits_value (replicate k 48 ++ l) 0 = Some (k, 0).
Proof.
  intros Hl. induction k as [|k IH]; simpl.
  - destruct l as [|b l]; [done|]. simpl. by rewrite Hl.
  - change (0 * 10 + (48 - 48)) with 0. by rewrite IH.
Qed.

Lemma strip_loop_spec pre ds tail : forallb blank_cr tail = true ->
  match rev ds with [] => True | b :: _ => blank_cr b = false end -> forall post,
  strip_loop (pre ++ (ds ++ tail) ++ post) (length pre) (length ds + length tail) = length ds.
Proof.
  intros Ht Hd. induction tail as [|b tail IH] using rev_ind; intros post.
  - rewrite Nat.add_0_r, app_nil_r. destruct ds as [|b ds _] using rev_ind; [done|].
    rewrite rev_app_distr in Hd. simpl in Hd. rewrite length_app, Nat.add_1_r. simpl.
    assert (pre ++ (ds ++ [b]) ++ post = (pre ++ ds) ++ b :: post) as -> by (by rewrite <- !app_assoc).
    rewrite list_lookup_total_middle by (by rewrite length_app). by rewrite Hd.
  - rewrite forallb_app in Ht. simpl in Ht. apply andb_true_iff in Ht as [Ht Hb]. rewrite andb_true_r in Hb.
    rewrite length_app. simpl. replace (length ds + (length tail + 1))%nat with (S (length ds + length tail)) by lia.
    simpl. assert (pre ++ (ds ++ tail ++ [b]) ++ post = (pre ++ ds ++ tail) ++ b :: post) as ->
      by (by rewrite <- !app_assoc).
    rewrite list_lookup_total_middle by (rewrite !length_app; lia). rewrite Hb.
    rewrite <- (IH Ht (b :: post)) at 2. f_equal. by rewrite <- !app_assoc.
Qed.

(** ** A field of a line *)

(** What FindDecimalField finds in one line: nothing, an error, or the value
    with its place in the line. *)
Definition line_field (prefix l : list Z) : option (Z + Z * nat * nat) :=
  if starts_with prefix l then
    let m := drop (length prefix) l in
    let b := run blank m in
    let ds := drop b m in
    match digits_value ds 0 with
    | None => Some (inl EOVERFLOW)
    | Some (k, v) =>
      if (k =? 0)%nat then Some (inl EPROTO)
      else if forallb blank_cr (drop k ds) then Some (inr (v, (length prefix + b)%nat, k)) else Some (inl EPROTO)
    end
  else None.

Definition add_field (offset : nat) (field : FieldValue) (found : option (Z + Z * nat * nat)) : Z + FieldValue :=
  match found with
  | None => inr field
  | Some (inl error) => inl error
  | Some (inr (v, o, n)) =>
    if negb (matches field + 1 =? 1) then inl EPROTO
    else inr {| value := v; value_offset := (offset + o)%nat; value_length := n; matches := matches field + 1 |}
  end.

Lemma run_blank_cr_full l : (run blank_cr l =? length l)%nat = forallb blank_cr l.
Proof.
  induction l as [|b l IH]; [done|]. simpl. destruct (blank_cr b); [|done]. by rewrite <- IH.
Qed.

Lemma digit_not_blank b : digit b = true -> blank_cr b = false.
Proof. unfold digit, blank_cr. intros H. lia. Qed.

Lemma rev_last (ds : list Z) : forallb digit ds = true ->
  match rev ds with [] => True | b :: _ => blank_cr b = false end.
Proof.
  destruct ds as [|b ds _] using rev_ind; [done|]. rewrite rev_app_distr, forallb_app. simpl.
  rewrite andb_true_r. intros [_ H]%andb_true_iff. by apply digit_not_blank.
Qed.

Lemma field_line_spec pre l post prefix field line_end : line_end = (length pre + length l)%nat ->
  field_line (pre ++ l ++ post) prefix (length pre) line_end field = add_field (length pre) field (line_field prefix l).
Proof.
  intros Hend. unfold field_line, line_field. rewrite PrefixEquals_spec by done.
  destruct (starts_with prefix l) eqn:Hp; [|done]. apply starts_with_split in Hp as [m ->].
  rewrite drop_app_length. destruct (run_split blank m) as (bs & ds & -> & Hb & _ & _). rewrite <- Hb, drop_app_length.
  assert (pre ++ (prefix ++ bs ++ ds) ++ post = (pre ++ prefix) ++ (bs ++ ds) ++ post) as E1 by (by rewrite <- !app_assoc).
  assert (skip blank (pre ++ (prefix ++ bs ++ ds) ++ post) line_end (length pre + length prefix) =
    (length pre + length prefix + length bs)%nat) as ->.
  { rewrite E1, <- length_app, skip_run; [by rewrite Hb, length_app|]. rewrite Hend, !length_app. lia. }
  assert (pre ++ (prefix ++ bs ++ ds) ++ post = (pre ++ prefix ++ bs) ++ ds ++ post) as E2 by (by rewrite <- !app_assoc).
  assert ((length pre + length prefix + length bs)%nat = length (pre ++ prefix ++ bs)) as E3 by (rewrite !length_app; lia).
  assert (line_end - (length pre + length prefix + length bs) = length ds)%nat as ->
    by (rewrite Hend, !length_app; lia).
  rewrite E2, E3, decimal_loop_spec. destruct (digits_value ds 0) as [[k v]|] eqn:Hv; [|done].
  assert ((length (pre ++ prefix ++ bs) + k =? length (pre ++ prefix ++ bs))%nat = (k =? 0)%nat) as -> by lia.
  destruct (k =? 0)%nat eqn:Hk; [done|]. apply digits_value_run in Hv.
  destruct (run_split digit ds) as (ns & tail & -> & Hn & Hns & _). rewrite <- Hn in Hv. subst k.
  rewrite drop_app_length, <- !E2, <- E3.
  assert (pre ++ (prefix ++ bs ++ ns ++ tail) ++ post = (pre ++ prefix ++ bs ++ ns) ++ tail ++ post) as E4
    by (by rewrite <- !app_assoc).
  assert ((length pre + length prefix + length bs + length ns)%nat = length (pre ++ prefix ++ bs ++ ns)) as E5
    by (rewrite !length_app; lia).
  assert (line_end = (length (pre ++ prefix ++ bs ++ ns) + length tail)%nat) as E6
    by (rewrite Hend, !length_app; lia).
  rewrite E4, E5, skip_run by done.
  assert (forall x, (length (pre ++ prefix ++ bs ++ ns) + x =? line_end)%nat = (x =? length tail)%nat) as -> by (intros x; lia).
  rewrite run_blank_cr_full. destruct (forallb blank_cr tail) eqn:Htail; [|done]. cbn [negb orb add_field].
  destruct (negb (matches field + 1 =? 1)); [done|]. do 2 f_equal; [lia|].
  rewrite run_all by done. rewrite <- E5.
  replace (length pre + length prefix + length bs + length ns + length tail - (length pre + length prefix + length bs))%nat
    with (length ns + length tail)%nat by lia.
  rewrite <- E4, E2, E3. apply strip_loop_spec; [done|by apply rev_last].
Qed.

(** ** The loop of FindDecimalField *)

Fixpoint find_lines (prefix : list Z) (offset : nat) (ls : list (list Z)) (field : FieldValue) : Z + FieldValue :=
  match ls with
  | [] => inr field
  | l :: ls =>
    match add_field offset field (line_field prefix l) with
    | inl error => inl error
    | inr field => find_lines prefix (offset + length l + 1) ls field
    end
  end.

Lemma line_field_nil prefix : prefix <> [] -> line_field prefix [] = None.
Proof. by destruct prefix. Qed.

Lemma find_loop prefix data ls : prefix <> [] -> Forall newline_free ls -> forall pre fuel field,
  data = pre ++ join_lines ls -> (length (join_lines ls) < fuel)%nat ->
  each_line (fun _ => data) (field_line data prefix) fuel (length pre) field = Some (find_lines prefix (length pre) ls field).
Proof.
  intros Hp. induction ls as [|l ls IH]; intros Hls pre fuel field Hd Hf; (destruct fuel as [|fuel]; [lia|]);
    cbn [each_line find_lines].
  - subst data. rewrite length_app. simpl. by replace (length pre <? length pre + 0)%nat with false by lia.
  - inversion Hls as [|? ? Hl Hls']; subst. destruct ls as [|l' ls].
    + cbn [join_lines] in *. destruct l as [|b l].
      * rewrite app_nil_r, Nat.ltb_irrefl. simpl. by rewrite line_field_nil.
      * rewrite length_app at 1. replace (length pre <? length pre + length (b :: l))%nat with true by (simpl; lia).
        rewrite line_end_last by done.
        pose proof (field_line_spec pre (b :: l) [] prefix field _ eq_refl) as Hs. rewrite app_nil_r in Hs. rewrite Hs.
        destruct (add_field _ _ _) as [|field']; [done|]. rewrite <- length_app, Nat.ltb_irrefl.
        destruct fuel as [|fuel]; [simpl in Hf; lia|]. cbn [each_line]. by rewrite Nat.ltb_irrefl.
    + rewrite join_cons in *. set (rest := join_lines (l' :: ls)) in *.
      assert (length (pre ++ l ++ 10%Z :: rest) = length pre + length l + S (length rest))%nat as Hlen
        by (rewrite !length_app; simpl; lia).
      rewrite length_app in Hf. simpl in Hf. rewrite line_end_complete by done. rewrite field_line_spec, Hlen by done.
      replace (length pre <? length pre + length l + S (length rest))%nat with true by lia.
      replace (length pre + length l <? length pre + length l + S (length rest))%nat with true by lia.
      destruct (add_field _ _ _) as [|field']; [done|].
      replace (S (length pre + length l)) with (length (pre ++ l ++ [10])) by (rewrite !length_app; simpl; lia).
      rewrite (IH Hls'); [|by rewrite <- !app_assoc|lia].
      do 2 f_equal. rewrite !length_app. simpl. lia.
Qed.

Lemma FindDecimalField_spec prefix ls : prefix <> [] -> Forall newline_free ls ->
  FindDecimalField (join_lines ls) prefix =
  Some match find_lines prefix 0 ls {| value := 0; value_offset := 0; value_length := 0; matches := 0 |} with
       | inr field => if matches field =? 1 then inr field else inl EPROTO
       | inl error => inl error
       end.
Proof.
  intros Hp Hl. unfold FindDecimalField.
  rewrite (find_loop prefix (join_lines ls) ls Hp Hl [] (lines_fuel (join_lines ls))) by (done || unfold lines_fuel; lia).
  by destruct (find_lines _ _ _ _).
Qed.

(** ** The unique line *)

(** The bytes before the lines that follow. *)
Definition lines_length (ls : list (list Z)) : nat := sum_list_with (fun l => S (length l)) ls.

(** Exactly one line has the prefix, and its field is well formed. *)
Definition unique_field (prefix : list Z) (ls : list (list Z)) (field : FieldValue) : Prop :=
  exists before l after v o n, ls = before ++ l :: after /\
    Forall (fun l => line_field prefix l = None) before /\ Forall (fun l => line_field prefix l = None) after /\
    line_field prefix l = Some (inr (v, o, n)) /\
    field = {| value := v; value_offset := (lines_length before + o)%nat; value_length := n; matches := 1 |}.

Lemma find_no_field prefix ls offset field : Forall (fun l => line_field prefix l = None) ls ->
  find_lines prefix offset ls field = inr field.
Proof. intros H. revert offset. induction H as [|l ls Hl _ IH]; intros offset; simpl; [done|]. rewrite Hl. apply IH. Qed.

Lemma find_after prefix ls offset field : matches field = 1 ->
  match find_lines prefix offset ls field with
  | inr field' => field' = field /\ Forall (fun l => line_field prefix l = None) ls
  | inl _ => True
  end.
Proof.
  intros Hm. revert offset. induction ls as [|l ls IH]; intros offset; simpl; [by split|].
  destruct (line_field prefix l) as [[error|[[v o] n]]|] eqn:E; simpl; [done|by rewrite Hm|].
  specialize (IH (offset + length l + 1)%nat). destruct (find_lines _ _ _ _); [done|].
  destruct IH as [-> ?]. split; [done|by constructor].
Qed.

Lemma find_unique prefix ls offset field0 field : matches field0 = 0 -> matches field = 1 ->
  find_lines prefix offset ls field0 = inr field <->
  exists before l after v o n, ls = before ++ l :: after /\
    Forall (fun l => line_field prefix l = None) before /\ Forall (fun l => line_field prefix l = None) after /\
    line_field prefix l = Some (inr (v, o, n)) /\
    field = {| value := v; value_offset := (offset + lines_length before + o)%nat; value_length := n; matches := 1 |}.
Proof.
  intros H0 H1. revert offset. induction ls as [|l ls IH]; intros offset; simpl.
  - split; [intros [= <-]; congruence|]. by intros ([] & ? & ? & ? & ? & ? & ? & _).
  - destruct (line_field prefix l) as [[error|[[v o] n]]|] eqn:E; simpl.
    + split; [done|]. intros ([|x before] & l' & after & v & o & n & [= -> ->] & Hb & _ & Hl & _); [congruence|].
      inversion Hb; congruence.
    + rewrite H0. change (0 + 1) with 1. change (negb (1 =? 1)) with false. cbn iota. split.
      * intros Hf. pose proof (find_after prefix ls (offset + length l + 1)
          {| value := v; value_offset := (offset + o)%nat; value_length := n; matches := 1 |} eq_refl) as Ha.
        rewrite Hf in Ha. destruct Ha as [-> Ha]. exists [], l, ls, v, o, n. split_and!; try done.
        unfold lines_length. simpl. by rewrite Nat.add_0_r.
      * intros ([|x before] & l' & after & v' & o' & n' & [= <- ->] & Hb & Ha & Hl & ->); [|inversion Hb; congruence].
        rewrite E in Hl. injection Hl as <- <- <-. rewrite find_no_field by done.
        unfold lines_length. simpl. by rewrite Nat.add_0_r.
    + rewrite IH. split.
      * intros (before & l' & after & v & o & n & -> & Hb & Ha & Hl & ->).
        exists (l :: before), l', after, v, o, n. split_and!; try done; [by constructor|]. f_equal.
        unfold lines_length. simpl. lia.
      * intros ([|x before] & l' & after & v & o & n & [= <- ->] & Hb & Ha & Hl & ->); [congruence|].
        inversion Hb; subst. exists before, l', after, v, o, n. split_and!; try done. f_equal.
        unfold lines_length. simpl. lia.
Qed.

Lemma FindDecimalField_unique prefix ls field : prefix <> [] -> Forall newline_free ls ->
  FindDecimalField (join_lines ls) prefix = Some (inr field) <-> unique_field prefix ls field.
Proof.
  intros Hp Hl. rewrite FindDecimalField_spec by done. unfold unique_field.
  pose proof (find_unique prefix ls 0 {| value := 0; value_offset := 0; value_length := 0; matches := 0 |} field eq_refl) as Hu.
  split.
  - destruct (find_lines _ _ _ _) as [|f] eqn:Hf; [done|]. destruct (matches f =? 1) eqn:E; [|done].
    intros [= ->]. apply Hu; [lia|done].
  - intros H. assert (matches field = 1) as Hm by (by destruct H as (? & ? & ? & ? & ? & ? & _ & _ & _ & _ & ->)).
    apply (Hu Hm) in H. by rewrite H, Hm.
Qed.

(** ** The rewriting loops *)

(** The complete lines rewritten; the last one may be cut off. *)
Fixpoint rewritten (f : list Z -> list Z) (ls : list (list Z)) : list (list Z) :=
  match ls with
  | [] => []
  | [l] => [l]
  | l :: ls => f l :: rewritten f ls
  end.

Fixpoint total_count (count : list Z -> Z) (ls : list (list Z)) : Z :=
  match ls with
  | [] | [_] => 0
  | l :: ls => count l + total_count count ls
  end.

Lemma rewritten_cons f l l' ls : rewritten f (l :: l' :: ls) = f l :: rewritten f (l' :: ls).
Proof. done. Qed.

Lemma total_cons count l l' ls : total_count count (l :: l' :: ls) = count l + total_count count (l' :: ls).
Proof. done. Qed.

Lemma rewritten_shape f l ls : exists l' ls', rewritten f (l :: ls) = l' :: ls'.
Proof. destruct ls as [|x ls]; [by exists l, []|by exists (f l), (rewritten f (x :: ls))]. Qed.

Section Rewrite.
Context (body : nat -> nat -> Rewriting -> Empty_set + Rewriting) (f : list Z -> list Z) (count : list Z -> Z).
Hypothesis Hlen : forall l, length (f l) = length l.
Hypothesis Hline : forall pre l rest n, newline_free l ->
  body (length pre) (length pre + length l)%nat (pre ++ l ++ 10 :: rest, n) = inr (pre ++ f l ++ 10 :: rest, n + count l).
Hypothesis Hlast : forall pre l n, newline_free l ->
  body (length pre) (length pre + length l)%nat (pre ++ l, n) = inr (pre ++ l, n).

Lemma rewrite_loop ls : Forall newline_free ls -> forall pre fuel n, (length (join_lines ls) < fuel)%nat ->
  each_line fst body fuel (length pre) (pre ++ join_lines ls, n) =
  Some (inr (pre ++ join_lines (rewritten f ls), n + total_count count ls)).
Proof.
  induction ls as [|l ls IH]; intros Hls pre fuel n Hf; (destruct fuel as [|fuel]; [lia|]); cbn [each_line fst].
  - cbn [join_lines rewritten total_count]. by rewrite app_nil_r, Nat.ltb_irrefl, Z.add_0_r.
  - inversion Hls as [|? ? Hl Hls']; subst. destruct ls as [|l' ls].
    + cbn [join_lines rewritten total_count] in *. rewrite Z.add_0_r. destruct (length pre <? length (pre ++ l))%nat eqn:E; [|done].
      rewrite line_end_last, Hlast by done. rewrite length_app, Nat.ltb_irrefl.
      destruct fuel as [|fuel]; [rewrite length_app in E; lia|]. cbn [each_line fst].
      by rewrite length_app, Nat.ltb_irrefl.
    + rewrite rewritten_cons, total_cons, join_cons in *. set (rest := join_lines (l' :: ls)) in *.
      destruct (rewritten_shape f l' ls) as (x & xs & Hx). rewrite Hx, join_cons, <- Hx in *.
      assert (length (pre ++ l ++ 10%Z :: rest) = length pre + length l + S (length rest))%nat as Hlength
        by (rewrite !length_app; simpl; lia).
      rewrite length_app in Hf. simpl in Hf. rewrite line_end_complete, Hline, Hlength by done.
      replace (length pre <? length pre + length l + S (length rest))%nat with true by lia.
      replace (length pre + length l <? length pre + length l + S (length rest))%nat with true by lia.
      replace (S (length pre + length l)) with (length (pre ++ f l ++ [10]))
        by (rewrite !length_app, Hlen; simpl; lia).
      assert (pre ++ f l ++ 10 :: rest = (pre ++ f l ++ [10]) ++ rest) as -> by (by rewrite <- !app_assoc).
      rewrite (IH Hls'); [|lia]. do 3 f_equal; [by rewrite <- !app_assoc|lia].
Qed.

Lemma rewrite_lines_spec ls : Forall newline_free ls ->
  rewrite_lines body (join_lines ls) = Some (join_lines (rewritten f ls), total_count count ls).
Proof.
  intros Hls. unfold rewrite_lines, lines_fuel.
  pose proof (rewrite_loop ls Hls [] (S (length (join_lines ls))) 0 ltac:(lia)) as H.
  change (length []) with O in H. cbn [app] in H. by rewrite H.
Qed.
End Rewrite.

(** *** TracerPid *)

Definition nonzero (l : list Z) : Z := Z.of_nat (length (filter (fun b => b <> 48) l)).

(** The digits after the prefix and the blanks become zeros. *)
Definition hide_tracer (l : list Z) : list Z :=
  if starts_with (chars "TracerPid:") l then
    let m := drop 10 l in
    let b := run blank m in
    let k := run digit (drop b m) in
    take (10 + b) l ++ replicate k 48 ++ drop k (drop b m)
  else l.

Definition tracer_digits (l : list Z) : Z :=
  if starts_with (chars "TracerPid:") l then
    let m := drop 10 l in nonzero (take (run digit (drop (run blank m) m)) (drop (run blank m) m))
  else 0.

Lemma zero_digits_spec pre l post n : zero_digits (length l) (length pre) (pre ++ l ++ post, n) =
  (pre ++ replicate (run digit l) 48 ++ drop (run digit l) l ++ post, n + nonzero (take (run digit l) l)).
Proof.
  revert pre n. induction l as [|b l IH]; intros pre n; simpl; [by rewrite Z.add_0_r|].
  rewrite list_lookup_total_middle by done. destruct (digit b) eqn:Hd; [|by rewrite Z.add_0_r].
  specialize (IH (pre ++ [48])). rewrite length_app in IH. simpl in IH. rewrite Nat.add_1_r in IH.
  unfold nonzero. cbn [take]. rewrite filter_cons.
  destruct (b =? 48) eqn:Hb; cbn [negb].
  - apply Z.eqb_eq in Hb as ->. rewrite <- app_assoc in IH. simpl in IH.
    rewrite IH, decide_False by (intros H; by apply H). rewrite <- app_assoc. simpl. done.
  - rewrite insert_app_r_alt, Nat.sub_diag by lia. simpl. rewrite <- app_assoc in IH. simpl in IH.
    rewrite IH, decide_True by lia. rewrite <- app_assoc. simpl. f_equal. unfold nonzero. lia.
Qed.

Lemma hide_length l : length (hide_tracer l) = length l.
Proof.
  unfold hide_tracer. destruct (starts_with _ _) eqn:Hp; [|done]. apply starts_with_split in Hp as [m ->].
  rewrite drop_app_length' by done. cbv zeta. pose proof (run_length blank m) as Hb.
  pose proof (run_length digit (drop (run blank m) m)) as Hk. rewrite length_drop in Hk.
  rewrite !length_app, length_take, length_replicate, !length_drop, length_app. simpl (length (chars _)). lia.
Qed.

Lemma tracer_line_spec pre l rest n : newline_free l ->
  tracer_line (length pre) (length pre + length l) (pre ++ l ++ 10 :: rest, n) =
  inr (pre ++ hide_tracer l ++ 10 :: rest, n + tracer_digits l).
Proof.
  intros _. unfold tracer_line. cbn [fst]. rewrite !length_app. simpl (length (10 :: rest)).
  replace (length pre + length l <? length pre + (length l + S (length rest)))%nat with true by lia.
  rewrite PrefixEquals_spec by done. unfold hide_tracer, tracer_digits. cbn [andb].
  destruct (starts_with _ _) eqn:Hp; [|by rewrite Z.add_0_r]. apply starts_with_split in Hp as [m ->].
  change (length (chars "TracerPid:")) with 10%nat. rewrite drop_app_length' by done. cbv zeta.
  destruct (run_split blank m) as (bs & ds & -> & Hb & _ & _). rewrite <- Hb, drop_app_length.
  set (p := chars "TracerPid:") in *. assert (length p = 10%nat) as Hpl by done.
  assert (skip blank (pre ++ (p ++ bs ++ ds) ++ 10 :: rest) (length pre + length (p ++ bs ++ ds)) (length pre + 10) =
    length (pre ++ p ++ bs)) as ->.
  { assert (pre ++ (p ++ bs ++ ds) ++ 10 :: rest = (pre ++ p) ++ (bs ++ ds) ++ 10 :: rest) as -> by (by rewrite <- !app_assoc).
    replace (length pre + 10)%nat with (length (pre ++ p)) by (rewrite length_app; lia).
    rewrite skip_run by (rewrite !length_app; lia). rewrite <- Hb, !length_app. lia. }
  replace (length pre + length (p ++ bs ++ ds) - length (pre ++ p ++ bs))%nat with (length ds) by (rewrite !length_app; lia).
  assert (pre ++ (p ++ bs ++ ds) ++ 10 :: rest = (pre ++ p ++ bs) ++ ds ++ 10 :: rest) as -> by (by rewrite <- !app_assoc).
  rewrite zero_digits_spec. do 2 f_equal.
  assert (take (10 + length bs) (p ++ bs ++ ds) = p ++ bs) as ->.
  { rewrite app_assoc, take_app_length' by (by rewrite length_app). done. }
  by rewrite <- !app_assoc.
Qed.

Lemma tracer_line_last pre l n : newline_free l ->
  tracer_line (length pre) (length pre + length l) (pre ++ l, n) = inr (pre ++ l, n).
Proof. intros _. unfold tracer_line. cbn [fst]. by rewrite length_app, Nat.ltb_irrefl. Qed.

Lemma RewriteTracerPidValue_spec ls : Forall newline_free ls ->
  RewriteTracerPidValue (join_lines ls) = Some (join_lines (rewritten hide_tracer ls), total_count tracer_digits ls).
Proof.
  apply rewrite_lines_spec; [apply hide_length|apply tracer_line_spec|apply tracer_line_last].
Qed.

(** *** State *)

Lemma store_spec byte pre a xs post : store (length pre) (length a) (length xs) byte (pre ++ a ++ xs ++ post) =
  pre ++ a ++ (byte <$> seq (length a) (length xs)) ++ post.
Proof.
  revert a. unfold store. induction xs as [|x xs IH]; intros a; [done|]. cbn [length seq foldl fmap list_fmap].
  rewrite <- length_app, (app_assoc pre), insert_app_r_alt, Nat.sub_diag by lia. cbn [app insert list_insert].
  specialize (IH (a ++ [byte (length a)])). rewrite !length_app in IH. simpl (length [_]) in IH.
  rewrite Nat.add_1_r, <- !app_assoc in IH. rewrite <- app_assoc. cbn [app] in IH |- *. rewrite IH. done.
Qed.

(** The value of the line says that the task is stopped by its tracer. *)
Definition shows_stop (v : list Z) : bool :=
  (12 <=? length v)%nat && (v !!! 0%nat =? 116) &&
  starts_with (chars "(tracing stop)") (drop (run space (drop 1 v)) (drop 1 v)).

Definition state_value (l : list Z) : list Z := drop (run blank (drop 6 l)) (drop 6 l).

Definition stopped_line (l : list Z) : bool := starts_with (chars "State:") l && shows_stop (state_value l).

Definition hide_stop (l : list Z) : list Z :=
  if stopped_line l then
    take (6 + run blank (drop 6 l)) l ++ kReplacement ++ replicate (length (state_value l) - 12) 32
  else l.

Lemma hide_stop_split p bs v : p = chars "State:" -> forallb blank bs = true ->
  match v with [] => True | b :: _ => blank b = false end -> state_value (p ++ bs ++ v) = v /\
  run blank (drop 6 (p ++ bs ++ v)) = length bs.
Proof.
  intros -> Hbs Hv. unfold state_value. rewrite !drop_app_length' by done.
  assert (run blank (bs ++ v) = length bs) as ->; [|by rewrite drop_app_length].
  destruct v as [|b v]; [rewrite app_nil_r; by apply run_all|by apply run_app].
Qed.

Lemma line_value p l : p = chars "State:" -> starts_with p l = true -> exists bs v, l = p ++ bs ++ v /\
  forallb blank bs = true /\ match v with [] => True | b :: _ => blank b = false end.
Proof.
  intros Hp [m ->]%starts_with_split. destruct (run_split blank m) as (bs & v & -> & _ & Hb & Hv). by exists bs, v.
Qed.

Lemma hide_stop_length l : length (hide_stop l) = length l.
Proof.
  unfold hide_stop, stopped_line. destruct (starts_with (chars "State:") l) eqn:Hp; [|done].
  destruct (shows_stop _) eqn:Hs; [|done]. cbn [andb]. apply (line_value _ l eq_refl) in Hp as (bs & v & -> & Hb & Hv).
  destruct (hide_stop_split _ bs v eq_refl Hb Hv) as [E1 E2]. rewrite E1 in *. rewrite E2.
  unfold shows_stop in Hs. rewrite !andb_true_iff in Hs. destruct Hs as [[Hs _] _].
  rewrite !length_app, length_take, length_replicate, !length_app.
  change (length kReplacement) with 12%nat. change (length (chars "State:")) with 6%nat. lia.
Qed.

Lemma value_line pre p bs v rest : let data := pre ++ (p ++ bs ++ v) ++ 10 :: rest in
  data = (pre ++ p) ++ (bs ++ v) ++ 10 :: rest /\ data = (pre ++ p ++ bs) ++ v ++ 10 :: rest.
Proof. split; by rewrite <- !app_assoc. Qed.

Lemma paren_found line_end pre v rest : line_end = (length pre + S (length v))%nat ->
  let paren := skip space (pre ++ (116 :: v) ++ 10 :: rest) line_end (length pre + 1) in
  (paren <? line_end)%nat && PrefixEquals (pre ++ (116 :: v) ++ 10 :: rest) line_end paren (chars "(tracing stop)") =
  starts_with (chars "(tracing stop)") (drop (run space v) v).
Proof.
  intros Hend. cbv zeta.
  assert (pre ++ (116 :: v) ++ 10 :: rest = (pre ++ [116]) ++ v ++ 10 :: rest) as -> by (by rewrite <- !app_assoc).
  replace (length pre + 1)%nat with (length (pre ++ [116])) by (by rewrite length_app).
  rewrite skip_run by (rewrite length_app; simpl; lia).
  destruct (run_split space v) as (sp & r & -> & Hs & _ & _). rewrite <- Hs, drop_app_length.
  assert ((pre ++ [116]) ++ (sp ++ r) ++ 10 :: rest = ((pre ++ [116]) ++ sp) ++ r ++ 10 :: rest) as ->
    by (by rewrite <- !app_assoc).
  rewrite <- length_app, PrefixEquals_spec by (rewrite Hend, !length_app; simpl; lia).
  destruct r as [|b r].
  - rewrite andb_comm. done.
  - replace (length ((pre ++ [116%Z]) ++ sp) <? line_end)%nat with true; [done|].
    symmetry. apply Nat.ltb_lt. rewrite Hend, !length_app. simpl. lia.
Qed.

Lemma spaces_stored j n : ((fun _ : nat => 32) <$> seq j n) = replicate n 32.
Proof. revert j. induction n as [|n IH]; intros j; [done|]. simpl. f_equal. apply IH. Qed.

Lemma state_line_spec pre l rest n : newline_free l ->
  state_line (length pre) (length pre + length l) (pre ++ l ++ 10 :: rest, n) =
  inr (pre ++ hide_stop l ++ 10 :: rest, n + if stopped_line l then 1 else 0).
Proof.
  intros _. unfold state_line. rewrite !length_app. simpl (length (10 :: rest)).
  replace (length pre + length l <? length pre + (length l + S (length rest)))%nat with true by lia.
  rewrite PrefixEquals_spec by done. unfold hide_stop, stopped_line. cbn [andb].
  destruct (starts_with _ l) eqn:Hp; [|by rewrite Z.add_0_r]. cbn [andb].
  apply (line_value _ l eq_refl) in Hp as (bs & v & -> & Hb & Hv).
  destruct (hide_stop_split _ bs v eq_refl Hb Hv) as [-> ->].
  change (length (chars "State:")) with 6%nat. set (p := chars "State:") in *.
  assert (length p = 6%nat) as Hpl by done. destruct (value_line pre p bs v rest) as [E1 E2]. cbv zeta in E1, E2.
  set (line_end := (length pre + length (p ++ bs ++ v))%nat).
  assert (skip blank (pre ++ (p ++ bs ++ v) ++ 10 :: rest) line_end (length pre + 6) = length (pre ++ p ++ bs)) as ->.
  { rewrite E1. replace (length pre + 6)%nat with (length (pre ++ p)) by (rewrite length_app; lia).
    rewrite skip_run by (unfold line_end; rewrite !length_app; lia).
    assert (run blank (bs ++ v) = length bs) as ->.
    { destruct v; [rewrite app_nil_r; by apply run_all|by apply run_app]. }
    rewrite !length_app. lia. }
  assert (line_end - length (pre ++ p ++ bs) = length v)%nat as -> by (unfold line_end; rewrite !length_app; lia).
  change (length kReplacement) with 12%nat. rewrite E2. unfold shows_stop.
  destruct (12 <=? length v)%nat eqn:H12; [|cbn [andb]; by rewrite Z.add_0_r, <- !app_assoc]. destruct v as [|b v]; [done|]. cbn [andb].
  assert (((pre ++ p ++ bs) ++ (b :: v) ++ 10 :: rest) !!! length (pre ++ p ++ bs) = b) as ->
    by (by apply list_lookup_total_middle).
  change ((b :: v) !!! 0%nat) with b.
  destruct (b =? 116) eqn:H116; [|cbn [andb]; by rewrite Z.add_0_r, <- !app_assoc]. apply Z.eqb_eq in H116 as ->. cbn [andb].
  rewrite paren_found by (unfold line_end; rewrite !length_app; simpl; lia). change (drop 1 (116 :: v)) with v.
  destruct (starts_with _ _); [|by rewrite Z.add_0_r, <- !app_assoc]. do 2 f_equal.
  assert (exists x y, 116 :: v = x ++ y /\ length x = 12%nat /\ length y = (length (116%Z :: v) - 12)%nat) as (x & y & Hxy & Hx & Hy).
  { exists (take 12 (116 :: v)), (drop 12 (116 :: v)). rewrite take_drop, length_take, length_drop.
    apply Nat.leb_le in H12. split_and!; [done|lia|done]. }
  rewrite <- Hy, Hxy. pose proof (store_spec (fun i => kReplacement !!! i) (pre ++ p ++ bs) [] x (y ++ 10 :: rest)) as S1.
  simpl (length []) in S1. rewrite Hx in S1. rewrite <- (app_assoc x). cbn [app] in S1. rewrite S1.
  change ((fun i => kReplacement !!! i) <$> seq 0 12) with kReplacement.
  pose proof (store_spec (fun _ => 32) (pre ++ p ++ bs) kReplacement y (10 :: rest)) as S2.
  change (length kReplacement) with 12%nat in S2. rewrite S2.
  rewrite spaces_stored.
  assert (take (6 + length bs) (p ++ bs ++ x ++ y) = p ++ bs) as ->.
  { rewrite app_assoc, take_app_length' by (by rewrite length_app, Hpl). done. }
  by rewrite <- !app_assoc.
Qed.

Lemma state_line_last pre l n : newline_free l ->
  state_line (length pre) (length pre + length l) (pre ++ l, n) = inr (pre ++ l, n).
Proof. intros _. unfold state_line. by rewrite length_app, Nat.ltb_irrefl. Qed.

Lemma RewriteProcStatusStateLine_spec ls : Forall newline_free ls ->
  RewriteProcStatusStateLine (join_lines ls) =
  Some (join_lines (rewritten hide_stop ls), total_count (fun l => if stopped_line l then 1 else 0) ls).
Proof.
  apply rewrite_lines_spec; [apply hide_stop_length|apply state_line_spec|apply state_line_last].
Qed.
