(* ===== verification/ProcStatusViews.v ===== *)
(** * What the rewritten views of /proc show

    The theorems on [ProcStatus]: after the rewriting, status shows no tracer
    and parses as before, stat shows no tracing stop and parses as before, and
    wchan names no ptrace symbol. *)

From S2P Require Import Prelude ProcStatus ProcStatusLines.
From stdpp Require Import list strings.
#[local] Open Scope Z_scope.

(** ** One line of status *)

#[local] Notation "'tracer_prefix'" := (chars "TracerPid:").
#[local] Notation "'state_prefix'" := (chars "State:").

(** The parts of a line with the tracer. *)
Lemma tracer_parts l : starts_with tracer_prefix l = true -> exists bs ds tail,
  l = tracer_prefix ++ bs ++ ds ++ tail /\ forallb blank bs = true /\ forallb digit ds = true /\
  match ds ++ tail with [] => True | b :: _ => blank b = false end /\
  match tail with [] => True | b :: _ => digit b = false end.
Proof.
  intros [m ->]%starts_with_split. destruct (run_split blank m) as (bs & x & -> & _ & Hb & Hx).
  destruct (run_split digit x) as (ds & tail & -> & _ & Hd & Ht). by exists bs, ds, tail.
Qed.

Lemma starts_with_app p m : starts_with p (p ++ m) = true.
Proof. apply starts_with_split. by eexists. Qed.

Lemma run_stop p l1 l2 : forallb p l1 = true -> match l2 with [] => True | b :: _ => p b = false end ->
  run p (l1 ++ l2) = length l1.
Proof. intros H1 H2. destruct l2; [rewrite app_nil_r; by apply run_all|by apply run_app]. Qed.

(** The two runs of such a line. *)
Lemma tracer_runs bs ds tail : forallb blank bs = true -> forallb digit ds = true ->
  match ds ++ tail with [] => True | b :: _ => blank b = false end ->
  match tail with [] => True | b :: _ => digit b = false end ->
  let m := drop 10 (tracer_prefix ++ bs ++ ds ++ tail) in
  m = bs ++ ds ++ tail /\ run blank m = length bs /\ drop (run blank m) m = ds ++ tail /\
  run digit (ds ++ tail) = length ds.
Proof.
  intros Hb Hd Hx Ht. cbv zeta. rewrite drop_app_length' by done.
  assert (run blank (bs ++ ds ++ tail) = length bs) as -> by (by apply run_stop).
  rewrite drop_app_length. split_and!; [done..|by apply run_stop].
Qed.

Lemma hide_tracer_parts bs ds tail : forallb blank bs = true -> forallb digit ds = true ->
  match ds ++ tail with [] => True | b :: _ => blank b = false end ->
  match tail with [] => True | b :: _ => digit b = false end ->
  hide_tracer (tracer_prefix ++ bs ++ ds ++ tail) = tracer_prefix ++ bs ++ replicate (length ds) 48 ++ tail.
Proof.
  intros Hb Hd Hx Ht. destruct (tracer_runs bs ds tail Hb Hd Hx Ht) as (_ & Hr & Hdr & Hk). cbv zeta in Hr, Hdr.
  unfold hide_tracer. rewrite starts_with_app. cbv zeta. rewrite Hr in *. rewrite Hdr, Hk, drop_app_length.
  rewrite (app_assoc _ bs), take_app_length' by (by rewrite length_app). by rewrite <- app_assoc.
Qed.

Lemma zeros_digits n : forallb digit (replicate n 48) = true.
Proof. induction n; simpl; done. Qed.

Lemma zeros_head n bs tail : match bs ++ tail with [] => True | b :: _ => blank b = false end -> length bs = n ->
  match replicate n 48 ++ tail with [] => True | b :: _ => blank b = false end.
Proof. intros H <-. destruct bs; [done|]. done. Qed.

Lemma nonzero_zeros n : nonzero (replicate n 48) = 0.
Proof. unfold nonzero. induction n as [|n IH]; [done|]. cbn [replicate]. rewrite filter_cons, decide_False by (intros H; by apply H). done. Qed.

Lemma tracer_digits_parts bs ds tail : forallb blank bs = true -> forallb digit ds = true ->
  match ds ++ tail with [] => True | b :: _ => blank b = false end ->
  match tail with [] => True | b :: _ => digit b = false end ->
  tracer_digits (tracer_prefix ++ bs ++ ds ++ tail) = nonzero ds.
Proof.
  intros Hb Hd Hx Ht. destruct (tracer_runs bs ds tail Hb Hd Hx Ht) as (_ & _ & Hdr & Hk). cbv zeta in Hdr.
  unfold tracer_digits. rewrite starts_with_app. cbv zeta.
  by rewrite Hdr, Hk, take_app_length.
Qed.

(** A hidden tracer needs no further change. *)
Lemma tracer_digits_hidden l : tracer_digits (hide_tracer l) = 0.
Proof.
  destruct (starts_with tracer_prefix l) eqn:Hp.
  - apply tracer_parts in Hp as (bs & ds & tail & -> & Hb & Hd & Hx & Ht). rewrite hide_tracer_parts by done.
    rewrite tracer_digits_parts; [apply nonzero_zeros|done|apply zeros_digits|by eapply zeros_head|done].
  - unfold hide_tracer. rewrite Hp. unfold tracer_digits. by rewrite Hp.
Qed.

Lemma nonzero_nil ds : nonzero ds = 0 -> ds = replicate (length ds) 48.
Proof.
  unfold nonzero. induction ds as [|b ds IH]; [done|]. rewrite filter_cons. destruct (decide (b <> 48)) as [|E]; [done|].
  intros H. simpl. f_equal; [|by apply IH]. destruct (decide (b = 48)); [done|]. by destruct E.
Qed.

Lemma hide_tracer_id l : tracer_digits l = 0 -> hide_tracer l = l.
Proof.
  destruct (starts_with tracer_prefix l) eqn:Hp; [|unfold hide_tracer; by rewrite Hp].
  apply tracer_parts in Hp as (bs & ds & tail & -> & Hb & Hd & Hx & Ht).
  rewrite tracer_digits_parts, hide_tracer_parts by done. intros H. by rewrite <- nonzero_nil.
Qed.

Lemma tracer_digits_nonneg l : 0 <= tracer_digits l.
Proof. unfold tracer_digits. destruct (starts_with _ _); [|done]. cbv zeta. unfold nonzero. lia. Qed.

(** The parts of a line with a tracing stop. *)
Lemma stop_parts l : stopped_line l = true -> exists bs v, l = state_prefix ++ bs ++ v /\
  hide_stop l = state_prefix ++ bs ++ kReplacement ++ replicate (length v - 12) 32 /\ forallb blank bs = true.
Proof.
  intros Hs. pose proof Hs as Hs'. unfold stopped_line in Hs'. apply andb_true_iff in Hs' as [Hp Hv].
  apply (line_value _ l eq_refl) in Hp as (bs & v & -> & Hb & Hh). exists bs, v. split; [done|]. split; [|done].
  destruct (hide_stop_split _ bs v eq_refl Hb Hh) as [E1 E2]. unfold hide_stop. rewrite Hs, E1, E2.
  rewrite (app_assoc _ bs), take_app_length' by (by rewrite length_app). by rewrite <- app_assoc.
Qed.

Lemma stop_hidden l : stopped_line (hide_stop l) = false.
Proof.
  destruct (stopped_line l) eqn:Hs; [|by unfold hide_stop; rewrite Hs].
  apply stop_parts in Hs as (bs & v & -> & -> & Hb). unfold stopped_line.
  assert (state_value (state_prefix ++ bs ++ kReplacement ++ replicate (length v - 12) 32) =
    kReplacement ++ replicate (length v - 12) 32) as ->; [|apply andb_false_r].
  unfold state_value. rewrite !drop_app_length' by done. rewrite run_stop by done. by rewrite drop_app_length.
Qed.

(** Both rewritings of one line. *)
Definition hide (l : list Z) : list Z := hide_stop (hide_tracer l).

Lemma hide_line_length l : length (hide l) = length l.
Proof. unfold hide. by rewrite hide_stop_length, hide_length. Qed.

(** A prefix that no line with the other one has. *)
Definition apart (p q : list Z) : Prop := forall m, starts_with p (q ++ m) = false.

Lemma tracer_hidden_twice l : tracer_digits (hide l) = 0.
Proof.
  unfold hide. destruct (stopped_line (hide_tracer l)) eqn:Hs.
  - apply stop_parts in Hs as (bs & v & _ & -> & _). done.
  - unfold hide_stop. rewrite Hs. apply tracer_digits_hidden.
Qed.

Lemma hide_other p l : apart p tracer_prefix -> apart p state_prefix -> line_field p (hide l) = line_field p l.
Proof.
  intros Ht Hs. assert (forall x, line_field p (hide_stop x) = line_field p x) as E.
  { intros x. destruct (stopped_line x) eqn:Hx; [|by unfold hide_stop; rewrite Hx].
    apply stop_parts in Hx as (bs & v & -> & -> & _). unfold line_field. by rewrite !Hs. }
  unfold hide. rewrite E. destruct (starts_with tracer_prefix l) eqn:Hp; [|by unfold hide_tracer; rewrite Hp].
  apply tracer_parts in Hp as (bs & ds & tail & -> & Hb & Hd & Hx & Htl). rewrite hide_tracer_parts by done.
  unfold line_field. by rewrite !Ht.
Qed.

(** The field stays in its place. *)
Lemma hide_tracer_field l v o n : line_field tracer_prefix l = Some (inr (v, o, n)) ->
  line_field tracer_prefix (hide l) = Some (inr (0, o, n)) /\ n <> O /\
  exists x y, hide l = x ++ replicate n 48 ++ y /\ length x = o.
Proof.
  intros Hl. assert (starts_with tracer_prefix l = true) as Hp
    by (unfold line_field in Hl; by destruct (starts_with tracer_prefix l)).
  apply tracer_parts in Hp as (bs & ds & tail & -> & Hb & Hd & Hx & Ht).
  unfold hide. rewrite hide_tracer_parts by done.
  assert (hide_stop (tracer_prefix ++ bs ++ replicate (length ds) 48 ++ tail) =
    tracer_prefix ++ bs ++ replicate (length ds) 48 ++ tail) as -> by done.
  destruct (tracer_runs bs ds tail Hb Hd Hx Ht) as (Em & Hr & Hdr & Hk). cbv zeta in Em, Hr, Hdr.
  unfold line_field in Hl |- *. rewrite starts_with_app in Hl |- *.
  change (length tracer_prefix) with 10%nat in Hl |- *. cbv zeta in Hl |- *. rewrite Hdr, Hr in Hl.
  destruct (digits_value (ds ++ tail) 0) as [[k w]|] eqn:Hv; [|done].
  apply digits_value_run in Hv. rewrite Hk in Hv. subst k.
  destruct (length ds =? 0)%nat eqn:E0; [done|]. rewrite drop_app_length in Hl.
  destruct (forallb blank_cr tail) eqn:Et; [|done]. injection Hl as <- <- <-.
  rewrite drop_app_length' by done. rewrite (run_stop _ bs) by (done || by eapply zeros_head).
  rewrite drop_app_length, digits_value_zeros, E0 by done. rewrite drop_app_length' by (by rewrite length_replicate).
  rewrite Et. split_and!; [done|lia|]. exists (tracer_prefix ++ bs), tail. rewrite <- app_assoc. split; [done|].
  by rewrite length_app.
Qed.

Lemma hide_no_tracer l : line_field tracer_prefix l = None -> line_field tracer_prefix (hide l) = None.
Proof.
  intros H. assert (starts_with tracer_prefix l = false) as Hp.
  { unfold line_field in H. destruct (starts_with tracer_prefix l); [|done]. cbv zeta in H.
    destruct (digits_value _ _) as [[k v]|]; [|done]. destruct (k =? 0)%nat; [done|]. by destruct (forallb _ _). }
  unfold hide, hide_tracer. rewrite Hp. destruct (stopped_line l) eqn:Hs; [|unfold hide_stop; by rewrite Hs].
  by apply stop_parts in Hs as (bs & v & _ & -> & _).
Qed.

Lemma newline_free_app l1 l2 : newline_free (l1 ++ l2) <-> newline_free l1 /\ newline_free l2.
Proof. unfold newline_free. by rewrite forallb_app, andb_true_iff. Qed.

Lemma newline_free_replicate n b : not_newline b = true -> newline_free (replicate n b).
Proof. intros H. unfold newline_free. induction n; simpl; [done|]. by rewrite H. Qed.

Lemma hide_tracer_newline_free l : newline_free l -> newline_free (hide_tracer l).
Proof.
  intros H. destruct (starts_with tracer_prefix l) eqn:Hp; [|by unfold hide_tracer; rewrite Hp].
  apply tracer_parts in Hp as (bs & ds & tail & -> & Hb & Hd & Hx & Ht). rewrite hide_tracer_parts by done.
  rewrite !newline_free_app in H |- *. destruct H as (? & ? & ? & ?). split_and!; try done.
  by apply newline_free_replicate.
Qed.

Lemma hide_newline_free l : newline_free l -> newline_free (hide l).
Proof.
  intros Ht%hide_tracer_newline_free. unfold hide.
  destruct (stopped_line (hide_tracer l)) eqn:Hs; [|by unfold hide_stop; rewrite Hs].
  apply stop_parts in Hs as (bs & v & Hl & -> & _). rewrite Hl in Ht. rewrite !newline_free_app in Ht |- *.
  destruct Ht as (? & ? & ?). split_and!; try done. by apply newline_free_replicate.
Qed.

(** ** The buffer *)

Lemma rewritten_snoc f ls l : rewritten f (ls ++ [l]) = (f <$> ls) ++ [l].
Proof. induction ls as [|x ls IH]; [done|]. simpl. rewrite IH. by destruct ls. Qed.

Lemma total_count_snoc (count : list Z -> Z) ls l : total_count count (ls ++ [l]) = foldr (fun x n => count x + n) 0 ls.
Proof. induction ls as [|x ls IH]; [done|]. simpl. rewrite <- IH. by destruct ls. Qed.

Lemma buffer_complete data : exists ls l, data = join_lines (ls ++ [l]) /\ Forall newline_free ls /\ newline_free l.
Proof.
  destruct (buffer_lines data) as (x & xs & -> & H).
  destruct (exists_last (l := x :: xs) ltac:(done)) as (ls & l & E). rewrite E in *. exists ls, l. split; [done|].
  apply Forall_app in H as [? H]. split; [done|]. by inversion H.
Qed.

Lemma join_snoc ls l : join_lines (ls ++ [l]) = concat ((fun x => x ++ [10]) <$> ls) ++ l.
Proof.
  induction ls as [|x ls IH]; [done|]. cbn [fmap list_fmap concat app]. rewrite <- !app_assoc. cbn [app]. rewrite <- IH.
  by destruct ls.
Qed.

Lemma lines_length_concat ls : length (concat ((fun x : list Z => x ++ [10]) <$> ls)) = lines_length ls.
Proof.
  unfold lines_length. induction ls as [|x ls IH]; [done|]. cbn [fmap list_fmap concat sum_list_with].
  rewrite !length_app, IH. simpl. lia.
Qed.

Lemma lines_length_hidden ls : lines_length (hide <$> ls) = lines_length ls.
Proof.
  unfold lines_length. induction ls as [|x ls IH]; [done|]. rewrite fmap_cons. cbn [sum_list_with].
  by rewrite hide_line_length, IH.
Qed.

(** The whole rewriting, on the lines. *)
Lemma output_lines ls l : Forall newline_free ls -> newline_free l ->
  RewriteProcStatusReadOutput (join_lines (ls ++ [l])) =
  Some (join_lines ((hide <$> ls) ++ [l]),
        foldr (fun x n => tracer_digits x + n) 0 ls +
        foldr (fun x n => (if stopped_line x then 1 else 0) + n) 0 (hide_tracer <$> ls)).
Proof.
  intros Hls Hl. unfold RewriteProcStatusReadOutput.
  rewrite RewriteTracerPidValue_spec, rewritten_snoc, total_count_snoc by (apply Forall_app; split; [done|by constructor]).
  rewrite RewriteProcStatusStateLine_spec, rewritten_snoc, total_count_snoc; [by rewrite <- list_fmap_compose|].
  apply Forall_app. split; [|by constructor]. apply Forall_fmap. eapply Forall_impl; [exact Hls|].
  intros x Hx. by apply hide_tracer_newline_free.
Qed.

(** ** Parsing after the rewriting *)

(** Lines that agree on a field up to [P] of its value. *)
Definition same_field (p : list Z) (P : Z -> Z -> Prop) (x x' : list Z) : Prop :=
  length x' = length x /\ (line_field p x = None -> line_field p x' = None) /\
  forall v o n, line_field p x = Some (inr (v, o, n)) -> exists v', line_field p x' = Some (inr (v', o, n)) /\ P v v'.

Lemma same_lengths p P ls ls' : Forall2 (same_field p P) ls ls' -> lines_length ls' = lines_length ls.
Proof. unfold lines_length. induction 1 as [|x x' ls ls' (Hx & _) _ IH]; [done|]. simpl. by rewrite Hx, IH. Qed.

Lemma same_absent p P ls ls' : Forall2 (same_field p P) ls ls' ->
  Forall (fun x => line_field p x = None) ls -> Forall (fun x => line_field p x = None) ls'.
Proof. induction 1 as [|x x' ls ls' (_ & Hx & _) _ IH]; inversion 1; subst; constructor; auto. Qed.

Lemma unique_same p P ls ls' field : Forall2 (same_field p P) ls ls' -> unique_field p ls field ->
  exists field', unique_field p ls' field' /\ P (value field) (value field') /\
    value_offset field' = value_offset field /\ value_length field' = value_length field.
Proof.
  intros H (before & x & after & v & o & n & -> & Hb & Ha & Hx & ->).
  apply Forall2_app_inv_l in H as (before' & r & H1 & H2 & ->).
  apply Forall2_cons_inv_l in H2 as (x' & after' & Hs & H3 & ->).
  destruct (proj2 (proj2 Hs) _ _ _ Hx) as (v' & Hx' & HP).
  eexists. split_and!; [exists before', x', after', v', o, n; split_and!; try done; by eapply same_absent|done| |done].
  simpl. by erewrite same_lengths.
Qed.

Lemma same_hidden p P ls l : (forall x, same_field p P x (hide x)) -> (forall v, P v v) ->
  Forall2 (same_field p P) (ls ++ [l]) ((hide <$> ls) ++ [l]).
Proof.
  intros H HP. apply Forall2_app; [apply Forall2_fmap_r, Forall_Forall2_diag, Forall_true; done|].
  constructor; [|done]. split_and!; [done..|]. intros v o n Hl. exists v. by split.
Qed.

Lemma same_other p ls l : apart p tracer_prefix -> apart p state_prefix ->
  Forall2 (same_field p eq) (ls ++ [l]) ((hide <$> ls) ++ [l]).
Proof.
  intros Ht Hs. apply same_hidden; [|done]. intros x. unfold same_field. rewrite hide_other by done.
  split_and!; [apply hide_line_length|done|]. intros v o n Hx. by exists v.
Qed.

Lemma same_tracer ls l : Forall2 (same_field tracer_prefix (fun _ _ => True)) (ls ++ [l]) ((hide <$> ls) ++ [l]).
Proof.
  apply same_hidden; [|done]. intros x. split_and!; [apply hide_line_length|apply hide_no_tracer|].
  intros v o n (Hx & _)%hide_tracer_field. by exists 0.
Qed.

(** What ParseProcStatusMetadata accepts. *)
Definition accepted (expected_tgid : Z) (ftgid fpid tracer : FieldValue) (md : ProcStatusMetadata) : Prop :=
  0 < expected_tgid /\ value ftgid = expected_tgid /\ value ftgid <= INT32_MAX /\ value fpid <> 0 /\
  value fpid <= INT32_MAX /\ value_length tracer <> O /\ Z.of_nat (value_length tracer) <= UINT32_MAX /\
  md = {| tgid := value ftgid; pid := value fpid; tracer_value_offset := value_offset tracer;
          tracer_value_length := value_length tracer |}.

Lemma parse_fields ls t md : Forall newline_free ls ->
  ParseProcStatusMetadata (join_lines ls) t = Some (inr md) <-> join_lines ls <> [] /\
  exists ftgid fpid tracer, unique_field (chars "Tgid:") ls ftgid /\ unique_field (chars "Pid:") ls fpid /\
    unique_field tracer_prefix ls tracer /\ accepted t ftgid fpid tracer md.
Proof.
  intros Hl. assert ((length (join_lines ls) =? 0)%nat = false <-> join_lines ls <> []) as He
    by (destruct (join_lines ls); simpl; split; congruence).
  rewrite <- He. pose proof (fun p field Hp => FindDecimalField_unique p ls field Hp Hl) as Hf.
  setoid_rewrite <- (fun field => Hf (chars "Tgid:") field ltac:(done)).
  setoid_rewrite <- (fun field => Hf (chars "Pid:") field ltac:(done)).
  setoid_rewrite <- (fun field => Hf tracer_prefix field ltac:(done)). clear Hf.
  unfold ParseProcStatusMetadata, accepted. destruct (length (join_lines ls) =? 0)%nat; [by split; [|intros []]|].
  destruct (Z.leb_spec t 0) as [|Ht]; [split; [done|]; intros (_ & ? & ? & ? & _ & _ & _ & ? & _); lia|]. cbn [orb].
  split.
  - destruct (FindDecimalField _ (chars "Tgid:")) as [[|ftgid]|]; [done| |done].
    destruct (FindDecimalField _ (chars "Pid:")) as [[|fpid]|]; [done| |done].
    destruct (FindDecimalField _ tracer_prefix) as [[|tracer]|]; [done| |done].
    destruct (_ || _) eqn:E; [done|]. intros [= <-]. split; [done|]. exists ftgid, fpid, tracer.
    split_and!; try done; lia.
  - intros (_ & ftgid & fpid & tracer & -> & -> & -> & _ & Hg & Hg' & Hp & Hp' & Hn & Hn' & ->).
    replace (negb _ || _ || _ || _ || _ || _) with false by lia. done.
Qed.

(** The rewritten buffer parses as before. *)
Lemma parse_hidden ls l t md : Forall newline_free ls -> newline_free l ->
  ParseProcStatusMetadata (join_lines (ls ++ [l])) t = Some (inr md) ->
  ParseProcStatusMetadata (join_lines ((hide <$> ls) ++ [l])) t = Some (inr md).
Proof.
  intros Hls Hl. assert (Forall newline_free ((hide <$> ls) ++ [l])) as Hls'.
  { apply Forall_app. split; [|by constructor]. apply Forall_fmap. eapply Forall_impl; [exact Hls|].
    intros x Hx. by apply hide_newline_free. }
  intros H. apply parse_fields in H; [|apply Forall_app; split; [done|by constructor]].
  destruct H as (Hne & ftgid & fpid & tracer & Hg & Hp & Ht & Hacc). apply parse_fields; [done|]. split.
  { intros E. apply Hne. rewrite join_snoc in E |- *. destruct ls as [|x ls]; [done|]. cbn in E.
    by destruct (hide x). }
  destruct (unique_same _ _ _ _ _ (same_other (chars "Tgid:") ls l ltac:(by intros ?) ltac:(by intros ?)) Hg) as (ftgid' & Hg' & Eg & _).
  destruct (unique_same _ _ _ _ _ (same_other (chars "Pid:") ls l ltac:(by intros ?) ltac:(by intros ?)) Hp) as (fpid' & Hp' & Ep & _).
  destruct (unique_same _ _ _ _ _ (same_tracer ls l) Ht) as (tracer' & Ht' & _ & Eo & En).
  exists ftgid', fpid', tracer'. split_and!; try done. unfold accepted in *. by rewrite <- Eg, <- Ep, Eo, En.
Qed.

(** The bytes of the tracer's value. *)
Lemma zero_value pre n post md : n <> O -> tracer_value_offset md = length pre -> tracer_value_length md = n ->
  TracerPidValueIsZero (pre ++ replicate n 48 ++ post) md = true.
Proof.
  intros Hn Ho Hl. unfold TracerPidValueIsZero. rewrite Ho, Hl, !length_app, length_replicate.
  replace (_ || _ || _) with false by lia. apply forallb_forall. intros i Hi%in_seq.
  rewrite lookup_total_app_r, Nat.add_comm, Nat.add_sub by lia.
  rewrite lookup_total_app_l by (rewrite length_replicate; lia). rewrite lookup_total_replicate_2 by lia. done.
Qed.

(** The line around the offset was read to its end. *)
Definition line_complete (offset : nat) (data : list Z) : Prop := In 10 (drop offset data).

Lemma tracer_zero ls l field md : newline_free l -> unique_field tracer_prefix (ls ++ [l]) field ->
  tracer_value_offset md = value_offset field -> tracer_value_length md = value_length field ->
  line_complete (value_offset field) (join_lines (ls ++ [l])) ->
  TracerPidValueIsZero (join_lines ((hide <$> ls) ++ [l])) md = true.
Proof.
  intros Hl (before & x & after & v & o & n & E & _ & _ & Hx & ->) Ho Hn Hin. cbn [value_offset value_length] in *.
  destruct after as [|a after _] using rev_ind.
  - apply app_inj_tail in E as [<- <-]. exfalso. unfold line_complete in Hin. rewrite join_snoc, <- lines_length_concat, drop_app_add in Hin.
    unfold newline_free in Hl. rewrite forallb_forall in Hl. specialize (Hl 10).
    rewrite <- (take_drop o l), in_app_iff in Hl. specialize (Hl (or_intror Hin)). done.
  - rewrite app_comm_cons, app_assoc in E. apply app_inj_tail in E as [-> <-].
    apply hide_tracer_field in Hx as (_ & Hn0 & y & z & Hh & Hy).
    rewrite join_snoc, !fmap_app, !fmap_cons, concat_app, concat_cons, Hh.
    rewrite <- !app_assoc, (app_assoc _ y). apply zero_value; [done| |done].
    by rewrite Ho, length_app, Hy, lines_length_concat, lines_length_hidden.
Qed.

(** ** Sizes and counts *)

Lemma hide_buffer_length ls l : length (join_lines ((hide <$> ls) ++ [l])) = length (join_lines (ls ++ [l])).
Proof.
  by rewrite !join_snoc, !length_app, !lines_length_concat, lines_length_hidden.
Qed.

Definition changes (ls : list (list Z)) : Z :=
  foldr (fun x n => tracer_digits x + n) 0 ls +
  foldr (fun x n => (if stopped_line x then 1 else 0) + n) 0 (hide_tracer <$> ls).

Lemma changes_cons x ls : changes (x :: ls) = tracer_digits x + (if stopped_line (hide_tracer x) then 1 else 0) + changes ls.
Proof. unfold changes. rewrite fmap_cons. cbn [foldr]. destruct (stopped_line _); lia. Qed.

Lemma changes_nonneg ls : 0 <= changes ls.
Proof.
  induction ls as [|x ls IH]; [done|]. rewrite changes_cons. pose proof (tracer_digits_nonneg x).
  destruct (stopped_line _); lia.
Qed.

(** No change is counted exactly when nothing is rewritten. *)
Lemma no_changes ls : changes ls = 0 -> hide <$> ls = ls.
Proof.
  induction ls as [|x ls IH]; [done|]. rewrite changes_cons, fmap_cons. pose proof (tracer_digits_nonneg x).
  pose proof (changes_nonneg ls). intros H1. destruct (stopped_line _) eqn:Hs; [lia|]. f_equal; [|apply IH; lia].
  unfold hide, hide_stop. rewrite Hs. apply hide_tracer_id. lia.
Qed.

Lemma hide_idempotent x : hide (hide x) = hide x /\ stopped_line (hide_tracer (hide x)) = false.
Proof.
  rewrite (hide_tracer_id (hide x)) by apply tracer_hidden_twice. pose proof (stop_hidden (hide_tracer x)) as Hs.
  split; [|exact Hs]. unfold hide at 1. rewrite (hide_tracer_id (hide x)) by apply tracer_hidden_twice.
  unfold hide_stop at 1. unfold hide at 1. by rewrite Hs.
Qed.

Lemma changes_hidden ls : changes (hide <$> ls) = 0.
Proof.
  induction ls as [|x ls IH]; [done|]. rewrite fmap_cons, changes_cons, tracer_hidden_twice, IH.
  by rewrite (proj2 (hide_idempotent x)).
Qed.

(** Nothing is left to rewrite. *)
Definition settled (data : list Z) : Prop := RewriteProcStatusReadOutput data = Some (data, 0).

(** rewriting any buffer of /proc status terminates, keeps
    the size, counts no change exactly when it changes nothing, and finds
    nothing left to rewrite in its own result. *)
Theorem rewriting_settles data : exists data' n,
  RewriteProcStatusReadOutput data = Some (data', n) /\ length data' = length data /\ 0 <= n /\
  (n = 0 -> data' = data) /\ settled data'.
Proof.
  destruct (buffer_complete data) as (ls & l & -> & Hls & Hl).
  exists (join_lines ((hide <$> ls) ++ [l])), (changes ls). rewrite output_lines by done.
  split_and!; [done|apply hide_buffer_length|apply changes_nonneg|by intros ->%no_changes|]. unfold settled.
  assert (Forall newline_free (hide <$> ls)) as Hls'.
  { apply Forall_fmap. eapply Forall_impl; [exact Hls|]. intros x Hx. by apply hide_newline_free. }
  rewrite output_lines by done. fold (changes (hide <$> ls)). rewrite changes_hidden. do 4 f_equal.
  rewrite <- list_fmap_compose. apply list_fmap_ext. intros i x _. apply (proj1 (hide_idempotent x)).
Qed.

(** C39 (safety): a status buffer that parses, with the line of the tracer
    complete, is rewritten to one of the same size that parses to the same
    metadata and whose tracer is zero. *)
Theorem tracer_hidden data expected_tgid md :
  ParseProcStatusMetadata data expected_tgid = Some (inr md) ->
  line_complete (tracer_value_offset md) data ->
  exists data' n, RewriteProcStatusReadOutput data = Some (data', n) /\ length data' = length data /\
    ParseProcStatusMetadata data' expected_tgid = Some (inr md) /\ TracerPidValueIsZero data' md = true.
Proof.
  destruct (buffer_complete data) as (ls & l & -> & Hls & Hl). intros Hp Hin.
  exists (join_lines ((hide <$> ls) ++ [l])), (changes ls).
  split_and!; [by apply output_lines|apply hide_buffer_length|by apply parse_hidden|].
  apply parse_fields in Hp as (_ & ftgid & fpid & tracer & _ & _ & Ht & Hacc); [|apply Forall_app; split; [done|by constructor]].
  unfold accepted in Hacc. destruct Hacc as (_ & _ & _ & _ & _ & _ & _ & ->).
  by apply (tracer_zero ls l tracer).
Qed.

(** ** stat *)

(** The byte at [k] changed from one letter of a state to another. *)
Definition letter_change (k : nat) (data data' : list Z) : Prop :=
  length data' = length data /\ (forall i, i <> k -> data' !!! i = data !!! i) /\
  data !!! k = 116 /\ data' !!! k = 83.

Lemma letter_insert k data : (k < length data)%nat -> data !!! k = 116 -> letter_change k data (<[k := 83]> data).
Proof.
  intros Hk H. split_and!; [by rewrite length_insert| |done|by apply list_lookup_total_insert_eq].
  intros i Hi. by apply list_lookup_total_insert_ne.
Qed.

Lemma letter_predicate (p : Z -> bool) k data data' i : letter_change k data data' -> p 116 = p 83 ->
  p (data' !!! i) = p (data !!! i).
Proof.
  intros (_ & Hne & H1 & H2) Hp. destruct (decide (i = k)) as [->|]; [by rewrite H1, H2|by rewrite Hne].
Qed.

Lemma letter_decimal k data data' n cursor v : letter_change k data data' ->
  decimal_loop data' n cursor v = decimal_loop data n cursor v.
Proof.
  intros H. revert cursor v. induction n as [|n IH]; intros cursor v; [done|]. cbn [decimal_loop].
  rewrite (letter_predicate digit k data data' cursor H eq_refl). destruct (digit _) eqn:Hd; [|done].
  assert (data' !!! cursor = data !!! cursor) as ->; [|by destruct (_ <? v)].
  destruct H as (_ & Hne & H1 & _). apply Hne. intros ->. by rewrite H1 in Hd.
Qed.

Lemma letter_skip k p data data' limit cursor : letter_change k data data' -> p 116 = p 83 ->
  skip p data' limit cursor = skip p data limit cursor.
Proof.
  intros H Hp. unfold skip. generalize (limit - cursor)%nat as n. intros n. revert cursor.
  induction n as [|n IH]; intros cursor; [done|]. simpl. rewrite (letter_predicate p k data data' cursor H Hp).
  destruct (p (data !!! cursor)); [apply IH|done].
Qed.

Lemma letter_paren k data data' first : letter_change k data data' -> last_paren data' first = last_paren data first.
Proof.
  intros H. unfold last_paren. rewrite (proj1 H). generalize (@None nat). generalize (seq first (length data - first)).
  intros l. induction l as [|i l IH]; intros found; [done|]. cbn [foldl]. rewrite <- IH.
  by rewrite (letter_predicate (fun b => b =? 41) k data data' i H eq_refl).
Qed.

Lemma last_paren_from data first r : last_paren data first = Some r -> (first <= length data)%nat ->
  last_paren data 0 = Some r.
Proof.
  unfold last_paren. intros Hr Hf. replace (length data - 0)%nat with (first + (length data - first))%nat by lia.
  rewrite seq_app, foldl_app, Nat.add_0_l. revert Hr. generalize (foldl (fun found i => if data !!! i =? 41 then Some i else found) None (seq 0 first)).
  assert (forall l (a b : option nat),
    foldl (fun found i => if data !!! i =? 41 then Some i else found) a l = Some r -> a = None ->
    foldl (fun found i => if data !!! i =? 41 then Some i else found) b l = Some r) as E.
  { induction l as [|i l IH]; intros a b Ha Hn; [by rewrite Hn in Ha|]. cbn [foldl] in Ha |- *.
    destruct (data !!! i =? 41) eqn:Hi; [done|by eapply IH]. }
  intros b Hb. by eapply E.
Qed.

(** What an accepted stat looks like to the rewriting. *)
Lemma stat_accepted data p md : ParseProcStatStateMetadata data p = (0, md) -> exists r,
  last_paren data 0 = Some r /\ (S r < length data)%nat /\ skip space data (length data) (S r) = state_offset md /\
  (state_offset md < length data)%nat /\
  ((length data <=? S (state_offset md))%nat || (data !!! S (state_offset md) =? 32) || (data !!! S (state_offset md) =? 10) = true).
Proof.
  unfold ParseProcStatStateMetadata. destruct ((length data =? 0)%nat || (p <=? 0)); [done|].
  destruct (decimal_loop data (length data) 0 0) as [[cursor v]|]; [|done].
  destruct (_ || _ || _ || _ || _ || _) eqn:Hv; [done|]. cbv zeta.
  destruct (_ || negb (data !!! S cursor =? 40)) eqn:Hc; [done|]. destruct (last_paren data (S (S cursor))) as [r|] eqn:Hr; [|done].
  destruct (length data <=? S r)%nat eqn:Hs; [done|]. destruct (length data <=? skip _ _ _ _)%nat eqn:Hk; [done|].
  destruct (_ && _ && _) eqn:Hn; [done|]. intros [= _ <-]. exists r. cbn [state_offset].
  split_and!; [|lia|done|lia|].
  - eapply last_paren_from; [done|]. apply orb_false_iff in Hc as [Hc _]. lia.
  - destruct (length data <=? S (skip space data (length data) (S r)))%nat eqn:E; [done|].
    replace (S (skip space data (length data) (S r)) <? length data)%nat with true in Hn by lia.
    clear Hv Hc. destruct (_ =? 32), (_ =? 10); done.
Qed.

(** A change of the letter is not seen by the parser, apart from the letter. *)
Lemma stat_letter data data' p md : ParseProcStatStateMetadata data p = (0, md) ->
  letter_change (state_offset md) data data' -> ParseProcStatStateMetadata data' p = (0, md).
Proof.
  intros Hp H. pose proof H as (Hlen & Hne & Ho & Hn). revert Hp. unfold ParseProcStatStateMetadata.
  rewrite Hlen, (letter_decimal _ _ _ _ _ _ H).
  destruct ((length data =? 0)%nat || (p <=? 0)); [done|].
  destruct (decimal_loop data (length data) 0 0) as [[cursor v]|]; [|done]. cbv zeta.
  rewrite (letter_predicate (fun b => b =? 32) _ _ _ cursor H eq_refl).
  destruct (_ || _ || _ || _ || _ || _); [done|].
  rewrite (letter_predicate (fun b => b =? 40) _ _ _ (S cursor) H eq_refl).
  destruct (_ || _); [done|]. rewrite (letter_paren _ _ _ _ H).
  destruct (last_paren data (S (S cursor))) as [r|]; [|done]. rewrite (letter_skip _ space _ _ _ _ H eq_refl).
  destruct (length data <=? S r)%nat; [done|]. destruct (length data <=? skip _ _ _ _)%nat; [done|].
  rewrite (letter_predicate (fun b => b =? 32) _ _ _ _ H eq_refl), (letter_predicate (fun b => b =? 10) _ _ _ _ H eq_refl).
  destruct (_ && _ && _); [done|]. intros [= _ <-]. cbn [state_offset] in Hn. by rewrite Hn.
Qed.

(** The letter of the state is the one of a tracing stop. *)
Definition shows_tracing_stop (data : list Z) (md : ProcStatStateMetadata) : Prop := data !!! state_offset md = 116.

(** a stat buffer that parses is rewritten, in the one letter
    of its state, to one that parses to the same metadata and whose state is
    not a tracing stop; the change is counted exactly when it is made. *)
Theorem stat_stop_hidden data expected_pid md :
  ParseProcStatStateMetadata data expected_pid = (0, md) ->
  let r := RewriteProcStatStateTraced data in
  ParseProcStatStateMetadata r.1 expected_pid = (0, md) /\ ~ shows_tracing_stop r.1 md /\
  (r = (data, 0) \/ shows_tracing_stop data md /\ r = (<[state_offset md := 83]> data, 1)).
Proof.
  intros Hp. pose proof (stat_accepted data expected_pid md Hp) as (r & Hr & Hs & Hk & Hl & Hn).
  cbv zeta. unfold shows_tracing_stop, RewriteProcStatStateTraced. rewrite Hr. replace (length data <=? S r)%nat with false by lia.
  rewrite Hk, Hn. replace (state_offset md <? length data)%nat with true by lia. cbn [andb].
  destruct (Z.eqb_spec (data !!! state_offset md) 116) as [Ht|Ht]; cbn [fst].
  - pose proof (letter_insert _ data Hl Ht) as H. split_and!; [by eapply stat_letter| |by right].
    rewrite (proj2 (proj2 (proj2 H))). done.
  - split_and!; [done|done|by left].
Qed.

(** ** wchan *)

(** The needle as a part of the text. *)
Lemma Contains_spec data needle : Contains data needle = true <-> exists a b, data = a ++ needle ++ b.
Proof.
  unfold Contains. rewrite existsb_exists. split.
  - intros (i & Hi%in_seq & Hp). exists (take i data). pose proof (take_drop i data) as E.
    assert (length (take i data) = i) as Hl by (rewrite length_take; lia).
    pose proof (PrefixEquals_spec (take i data) (drop i data) [] needle (length data)) as Hs.
    rewrite app_nil_r, E, Hl in Hs. rewrite Hs in Hp by (rewrite length_drop; lia).
    apply starts_with_split in Hp as [b Hb]. exists b. by rewrite <- Hb.
  - intros (a & b & ->). exists (length a). split; [apply in_seq; rewrite !length_app; lia|].
    pose proof (PrefixEquals_spec a (needle ++ b) [] needle) as Hs. rewrite app_nil_r in Hs.
    rewrite Hs by (by rewrite length_app). apply starts_with_app.
Qed.

(** No part of a text without the letter p. *)
Lemma no_needle text needle : (forall b, b ∈ text -> b <> 112) -> Contains (text ++ needle) (chars "ptrace") = true ->
  Contains needle (chars "ptrace") = true.
Proof.
  rewrite !Contains_spec. intros Ht (a & b & E). revert a E. induction text as [|x text IH]; intros a E; [by exists a, b|].
  destruct a as [|y a].
  - injection E as -> _. exfalso. by apply (Ht 112); [left|].
  - injection E as _ E. apply (IH (fun b Hb => Ht b (list_elem_of_further _ _ _ Hb)) a E).
Qed.

Lemma store_front byte xs post : store 0 0 (length xs) byte (xs ++ post) = (byte <$> seq 0 (length xs)) ++ post.
Proof. apply (store_spec byte [] [] xs post). Qed.

(** The symbols that are shown name no ptrace. *)
Lemma benign_byte i : chars "futex_wait" !!! (i mod length (chars "futex_wait"))%nat <> 112.
Proof.
  change (length (chars "futex_wait")) with 10%nat. pose proof (Nat.mod_upper_bound i 10 ltac:(done)) as H.
  revert H. generalize (i mod 10)%nat as j. intros j Hj. do 10 (destruct j as [|j]; [done|]). lia.
Qed.

(** The text has the name of a ptrace symbol. *)
Definition names_ptrace (data : list Z) : bool := Contains data (chars "ptrace").

(** the rewritten text of wchan has the size of the old one,
    is the old one when no change is counted, and names no ptrace symbol -
    provided that a text that starts with ptrace_stop names it once. *)
Theorem wchan_hidden data :
  (starts_with (chars "ptrace_stop") data = true -> names_ptrace (drop 11 data) = false) ->
  let r := RewriteProcWchanContent data in
  length r.1 = length data /\ names_ptrace r.1 = false /\ r.2 = (if names_ptrace data then 1 else 0) /\
  (r.2 = 0 -> r.1 = data).
Proof.
  unfold names_ptrace. intros Hd. cbv zeta. unfold RewriteProcWchanContent. destruct (Contains data (chars "ptrace")) eqn:Hc; [|done]. cbn [negb].
  assert ((length (chars "ptrace_stop") <=? length data)%nat && PrefixEquals data (length data) 0 (chars "ptrace_stop") =
    starts_with (chars "ptrace_stop") data) as ->.
  { pose proof (PrefixEquals_spec [] data [] (chars "ptrace_stop") (length data) eq_refl) as H. rewrite app_nil_r in H.
    cbn [app length] in H. rewrite H. destruct (starts_with _ data) eqn:E; [|apply andb_false_r].
    apply starts_with_split in E as [m ->]. rewrite length_app. apply andb_true_r || lia. }
  destruct (starts_with _ data) eqn:Hs; cbn [fst snd].
  - specialize (Hd eq_refl). apply starts_with_split in Hs as [m ->]. rewrite drop_app_length' in Hd by done.
    rewrite store_front. change ((fun i => chars "wait_waking" !!! i) <$> seq 0 _) with (chars "wait_waking").
    split_and!; [by rewrite !length_app| |done|done]. apply not_true_is_false. intros H%no_needle; [congruence|].
    intros b Hb. repeat (apply elem_of_cons in Hb as [->|Hb]; [done|]). by apply elem_of_nil in Hb.
  - rewrite <- (app_nil_r data) at 2 5. rewrite store_front.
    split_and!; [by rewrite app_nil_r, length_fmap, length_seq| |done|done].
    apply not_true_is_false. intros H%no_needle; [done|]. intros b (i & -> & _)%list_elem_of_fmap. apply benign_byte.
Qed.

(** ** Concrete buffers *)

(** The bytes of the lines, each with its newline. *)
Definition buffer_of (ls : list string) : list Z := concat ((fun s => chars s ++ [10]) <$> ls).

Definition sample_status : list Z :=
  buffer_of ["Name: app"; "State: t (tracing stop)"; "Tgid: 812"; "Pid: 812"; "TracerPid: 4711"; "Uid: 10234"]%string.

Definition sample_metadata : ProcStatusMetadata :=
  {| tgid := 812; pid := 812; tracer_value_offset := 64; tracer_value_length := 4 |}.

Example sample_status_rewritten : RewriteProcStatusReadOutput sample_status = Some (
  buffer_of ["Name: app"; "State: S (sleeping)    "; "Tgid: 812"; "Pid: 812"; "TracerPid: 0000"; "Uid: 10234"]%string, 5).
Proof. vm_compute. reflexivity. Qed.

Lemma tracer_hidden_witness :
  ParseProcStatusMetadata sample_status 812 = Some (inr sample_metadata) /\
  exists data' n, RewriteProcStatusReadOutput sample_status = Some (data', n) /\ length data' = length sample_status /\
    ParseProcStatusMetadata data' 812 = Some (inr sample_metadata) /\ TracerPidValueIsZero data' sample_metadata = true.
Proof.
  assert (ParseProcStatusMetadata sample_status 812 = Some (inr sample_metadata)) as H by (vm_compute; reflexivity).
  split; [exact H|]. apply (tracer_hidden sample_status 812 sample_metadata H). vm_compute. tauto.
Defined.

Lemma stat_stop_hidden_witness :
  let data := buffer_of ["812 (a) b) t 1 812"]%string in
  let md := {| stat_pid := 812; state_offset := 11 |} in
  let r := RewriteProcStatStateTraced data in
  ParseProcStatStateMetadata data 812 = (0, md) /\ r = (buffer_of ["812 (a) b) S 1 812"]%string, 1) /\
  ParseProcStatStateMetadata r.1 812 = (0, md).
Proof.
  cbv zeta. split_and!; [vm_compute; reflexivity..|].
  apply (stat_stop_hidden (buffer_of ["812 (a) b) t 1 812"]%string) 812). vm_compute. reflexivity.
Defined.

Lemma wchan_hidden_witness :
  (RewriteProcWchanContent (chars "ptrace_stop")).1 = chars "wait_waking" /\
  names_ptrace (RewriteProcWchanContent (chars "ptrace_stop")).1 = false.
Proof.
  split; [vm_compute; reflexivity|]. apply (wchan_hidden (chars "ptrace_stop")). intros _. vm_compute. reflexivity.
Defined.
