(* ===== verification/VirtualFileProvider.v ===== *)
(** * The contents of virtual files (hookself/internal/virtual_file_provider.{h,cpp})

    What a traced program reads in place of /proc/<pid>/status, maps and
    attr/current: the kernel's text is read, and the lines that would show the
    tracer are rewritten or left out, in the buffer. The system calls are
    parameters. Offsets are [nat]: they stay below the size of a buffer. *)

From S2P Require Import Prelude ProcStatus ProcStatusLines.
From stdpp Require Import list strings pretty.
#[local] Open Scope Z_scope.

Definition HOOKSELF_VFILE_PROC_STATUS : Z := 2.
Definition HOOKSELF_VFILE_PROC_MAPS : Z := 3.
Definition HOOKSELF_VFILE_SELINUX_CONTEXT : Z := 4.
Definition HOOKSELF_VFILE_F_HIDE_INTERNAL_MAPPINGS : Z := 1.
(** errno.h *)
Definition EFBIG : Z := 27.
Definition EINTR : Z := 4.
Definition ENODATA : Z := 61.
(** [uintptr_t] has 64 bits. *)
Definition UINTPTR_MAX : Z := UINT64_MAX.

Record VirtualFileHiddenRange := { hr_start : Z; hr_size : Z }.

(** ** Bytes *)

(** [memmove(data + to, data + from, n)] and [memcpy] of other bytes. *)
Definition memmove (data : list Z) (to from n : nat) : list Z := take to data ++ take n (drop from data) ++ drop (to + n) data.
Definition memcpy (data : list Z) (to : nat) (bs : list Z) : list Z := take to data ++ bs ++ drop (to + length bs) data.

(** [memcmp(data + offset, bytes, length) == 0] *)
Definition same_bytes (data bs : list Z) (offset : nat) : bool :=
  forallb (fun i => data !!! (offset + i)%nat =? bs !!! i) (seq 0 (length bs)).

(** A pointer into the buffer with a size is the bytes it covers. *)
Definition view_of (data : list Z) (start size : nat) : list Z := take size (drop start data).

Definition StartsWith (data prefix : list Z) : bool := (length prefix <=? length data)%nat && same_bytes data prefix 0.

Definition Contains (data needle : list Z) : bool :=
  if (length needle =? 0)%nat || (length data <? length needle)%nat then false
  else existsb (same_bytes data needle) (seq 0 (S (length data - length needle))).

(** ** Lines of /proc/<pid>/maps *)

Definition not_blank (b : Z) : bool := negb (blank b).

(** The loop over the fields before the path. *)
Fixpoint skip_fields (fields : nat) (line : list Z) (offset : nat) : option nat :=
  match fields with
  | O => Some offset
  | S fields =>
    let start := skip blank line (length line) offset in
    let offset := skip not_blank line (length line) start in
    if (offset =? start)%nat then None else skip_fields fields line offset
  end.

Definition MappingPath (line : list Z) : option (list Z) :=
  match skip_fields 5 line 0 with
  | None => None
  | Some offset =>
    let offset := skip blank line (length line) offset in
    if (offset <? length line)%nat then Some (view_of line offset (length line - offset)) else None
  end.

Definition hex_digit (b : Z) : option Z :=
  if (48 <=? b) && (b <=? 57) then Some (u8 (b - 48))
  else if (97 <=? b) && (b <=? 102) then Some (u8 (b - 97 + 10))
  else if (65 <=? b) && (b <=? 70) then Some (u8 (b - 65 + 10))
  else None.

Fixpoint hex_loop (data : list Z) (parsed : Z) : option Z :=
  match data with
  | [] => Some parsed
  | b :: data =>
    match hex_digit b with
    | None => None
    | Some digit => if (UINTPTR_MAX - digit) / 16 <? parsed then None else hex_loop data (u64 (parsed * 16 + digit))
    end
  end.
Definition ParseHex (data : list Z) : option Z := if (length data =? 0)%nat then None else hex_loop data 0.

Definition not_dash (b : Z) : bool := negb (b =? 45).
Definition MappingRange (line : list Z) : option (Z * Z) :=
  let dash := skip not_dash line (length line) 0 in
  if (dash =? 0)%nat || (dash =? length line)%nat then None
  else
    let range_end := skip not_blank line (length line) (S dash) in
    match ParseHex (view_of line 0 dash) with
    | None => None
    | Some start =>
      match ParseHex (view_of line (S dash) (range_end - S dash)) with
      | None => None
      | Some finish => if start <? finish then Some (start, finish) else None
      end
    end.

Definition OverlapsHiddenRange (start finish : Z) (ranges : list VirtualFileHiddenRange) : bool :=
  existsb (fun r =>
    if (hr_size r =? 0) || (UINTPTR_MAX - hr_size r <? hr_start r) then false
    else (start <? u64 (hr_start r + hr_size r)) && (hr_start r <? finish)) ranges.

(** Whether a line is left out. *)
Definition hidden_line (ranges : list VirtualFileHiddenRange) (line : list Z) : bool :=
  match MappingRange line with Some (start, finish) => OverlapsHiddenRange start finish ranges | None => false end ||
  match MappingPath line with
  | Some path => Contains path (chars "hookself-session") || Contains path (chars "hookself-vfile") || Contains path (chars "libhookself.so")
  | None => false
  end.

(** The loop: the buffer and the offset written up to, which is the new size. *)
Fixpoint filter_loop (fuel : nat) (ranges : list VirtualFileHiddenRange) (size read_offset write_offset : nat) (data : list Z)
    : option (list Z * nat) :=
  if (read_offset <? size)%nat then
    match fuel with
    | O => None
    | S fuel =>
      let line_end := skip not_newline data size read_offset in
      let record_end := if (line_end <? size)%nat then S line_end else line_end in
      if hidden_line ranges (view_of data read_offset (line_end - read_offset)) then filter_loop fuel ranges size record_end write_offset data
      else
        let record_size := (record_end - read_offset)%nat in
        let data := if (write_offset =? read_offset)%nat then data else memmove data write_offset read_offset record_size in
        filter_loop fuel ranges size record_end (write_offset + record_size) data
    end
  else Some (data, write_offset).

(** The buffer can be longer than what it holds. *)
Definition FilterInternalMappings (data : list Z) (size : nat) (ranges : list VirtualFileHiddenRange) : option (list Z * nat) :=
  filter_loop size ranges size 0 0 data.

(** ** The line of the tracer *)

Record Match := { match_start : nat; match_end : nat; match_count : Z }.

Definition match_line (data : list Z) (line_start line_end : nat) (m : Match) : Match :=
  if StartsWith (view_of data line_start (line_end - line_start)) (chars "TracerPid:")
  then {| match_start := line_start; match_end := line_end; match_count := u32 (match_count m + 1) |} else m.

Fixpoint match_loop (fuel : nat) (data : list Z) (size line_start : nat) (m : Match) : option Match :=
  if (line_start <? size)%nat then
    match fuel with
    | O => None
    | S fuel =>
      let line_end := skip not_newline data size line_start in
      match_loop fuel data size (if (line_end <? size)%nat then S line_end else line_end) (match_line data line_start line_end m)
    end
  else Some m.

Definition kReplacement : list Z := chars "TracerPid:" ++ [9; 48].

Definition RewriteTracerPid (data : list Z) (size : nat) : option (Z * list Z * nat) :=
  match match_loop size data size 0 {| match_start := 0; match_end := 0; match_count := 0 |} with
  | None => None
  | Some m => Some (
    if match_count m =? 0 then (ENODATA, data, size)
    else if negb (match_count m =? 1) then (EPROTO, data, size)
    else
      let old_size := (match_end m - match_start m)%nat in
      if (old_size <? length kReplacement)%nat then (EPROTO, data, size)
      else
        let data := memcpy data (match_start m) kReplacement in
        if (old_size =? length kReplacement)%nat then (0, data, size)
        else (0, memmove data (match_start m + length kReplacement) (match_end m) (size - match_end m),
          (size - (old_size - length kReplacement))%nat))
  end.

(** ** Reading and generating *)

Section Kernel.
Context {W : Type}.
(** lseek(fd, 0, SEEK_SET), read and open: the result or errno. *)
Variable lseek : Z -> W -> (Z + Z) * W.
Variable read : Z -> nat -> W -> (Z + list Z) * W.
Variable open : list Z -> W -> (Z + Z) * W.

(** [for (;;)] over the byte after a full buffer. *)
Fixpoint read_extra (fuel : nat) (fd : Z) (w : W) : option (Z * W) :=
  match fuel with
  | O => None
  | S fuel =>
    match read fd 1 w with
    | (inl error, w) => if error =? EINTR then read_extra fuel fd w else Some (error, w)
    | (inr [], w) => Some (0, w)
    | (inr (_ :: _), w) => Some (EFBIG, w)
    end
  end.

(** The error, the buffer and, without an error, the size. *)
Fixpoint read_loop (fuel : nat) (fd : Z) (output : list Z) (total : nat) (w : W) : option (Z * list Z * nat * W) :=
  if (total <? length output)%nat then
    match fuel with
    | O => None
    | S fuel =>
      match read fd (length output - total) w with
      | (inl error, w) => if error =? EINTR then read_loop fuel fd output total w else Some (error, output, O, w)
      | (inr [], w) => Some (0, output, total, w)
      | (inr bs, w) => read_loop fuel fd (memcpy output total bs) (total + length bs) w
      end
    end
  else
    match read_extra fuel fd w with
    | None => None
    | Some (error, w) => Some (error, output, if error =? 0 then total else O, w)
    end.

Definition ReadSnapshot (fuel : nat) (fd : Z) (output : list Z) (w : W) : option (Z * list Z * nat * W) :=
  if (fd <? 0) || (length output =? 0)%nat then Some (EINVAL, output, O, w)
  else match lseek fd w with
  | (inl error, w) => Some (error, output, O, w)
  | (inr _, w) => read_loop fuel fd output 0 w
  end.

(** The path of the kernel's file; [snprintf] of a positive number cannot fail here. *)
Definition source_path (provider target_pid : Z) : option (list Z) :=
  let process := chars "/proc/" ++ chars (pretty target_pid) in
  if provider =? HOOKSELF_VFILE_PROC_STATUS then Some (process ++ chars "/status")
  else if provider =? HOOKSELF_VFILE_PROC_MAPS then Some (process ++ chars "/maps")
  else if provider =? HOOKSELF_VFILE_SELINUX_CONTEXT then Some (process ++ chars "/attr/current")
  else None.

(** The error and [*source_fd], which is not written for a bad process. *)
Definition OpenVirtualFileProviderSource (provider target_pid source_fd : Z) (w : W) : Z * Z * W :=
  if target_pid <=? 0 then (EINVAL, source_fd, w)
  else match source_path provider target_pid with
  | None => (EINVAL, -1, w)
  | Some path => match open path w with (inl error, w) => (error, -1, w) | (inr fd, w) => (0, fd, w) end
  end.

(** The error, the buffer and [*output_size]. *)
Definition GenerateVirtualFileProviderSnapshot (fuel : nat) (provider flags source_fd : Z) (configured : list Z)
    (ranges : list VirtualFileHiddenRange) (output : list Z) (output_size : nat) (w : W) : option (Z * list Z * nat * W) :=
  if (length output =? 0)%nat || (length output <? length configured)%nat then Some (EINVAL, output, output_size, w)
  else if (provider =? HOOKSELF_VFILE_SELINUX_CONTEXT) && negb (length configured =? 0)%nat
  then Some (0, memcpy output 0 configured, length configured, w)
  else match ReadSnapshot fuel source_fd output w with
  | None => None
  | Some (error, output, size, w) =>
    if negb (error =? 0) then Some (error, output, size, w)
    else if provider =? HOOKSELF_VFILE_PROC_STATUS then
      match RewriteTracerPid output size with Some (error, output, size) => Some (error, output, size, w) | None => None end
    else if provider =? HOOKSELF_VFILE_PROC_MAPS then
      if has flags HOOKSELF_VFILE_F_HIDE_INTERNAL_MAPPINGS then
        match FilterInternalMappings output size ranges with Some (output, size) => Some (0, output, size, w) | None => None end
      else Some (0, output, size, w)
    else Some (if provider =? HOOKSELF_VFILE_SELINUX_CONTEXT then 0 else EINVAL, output, size, w)
  end.
End Kernel.

(** ** Copying *)

Lemma memcpy_app a b bs c : length bs = length b -> memcpy (a ++ b ++ c) (length a) bs = a ++ bs ++ c.
Proof.
  intros Hl. unfold memcpy. rewrite take_app_length. do 2 f_equal. rewrite Hl, app_assoc, <- length_app. apply drop_app_length.
Qed.

(** Bytes moved towards the front, possibly over themselves. *)
Lemma memmove_app a gap l rest : exists gap', memmove (a ++ gap ++ l ++ rest) (length a) (length (a ++ gap)) (length l) = a ++ l ++ gap' ++ rest /\
  length gap' = length gap.
Proof.
  exists (drop (length l) (gap ++ l)). split.
  - unfold memmove. rewrite take_app_length. rewrite (app_assoc a gap), drop_app_length, take_app_length. do 2 f_equal.
    rewrite <- app_assoc, drop_app_add. rewrite app_assoc. rewrite drop_app_le by (rewrite length_app; lia). done.
  - rewrite length_drop, length_app. lia.
Qed.

(** The bytes from one offset to another. *)
Lemma view_app a l rest : view_of (a ++ l ++ rest) (length a) (length l) = l.
Proof. unfold view_of. by rewrite drop_app_length, take_app_length. Qed.

(** ** Records: lines with their newline *)

Fixpoint records (data : list Z) : list (list Z) :=
  match data with
  | [] => []
  | b :: data =>
    if b =? 10 then [b] :: records data
    else match records data with [] => [[b]] | r :: rs => (b :: r) :: rs end
  end.
Definition line_of (record : list Z) : list Z := take (run not_newline record) record.

Lemma records_line l rest : newline_free l -> records (l ++ 10 :: rest) = (l ++ [10]) :: records rest.
Proof.
  unfold newline_free. induction l as [|b l IH]; simpl; [done|]. intros [Hb Hl]%andb_true_iff. unfold not_newline in Hb.
  destruct (b =? 10); [done|]. by rewrite (IH Hl).
Qed.

Lemma records_last l : newline_free l -> l <> [] -> records l = [l].
Proof.
  unfold newline_free. induction l as [|b l IH]; simpl; [done|]. intros [Hb Hl]%andb_true_iff _. unfold not_newline in Hb.
  destruct (b =? 10); [done|]. destruct l as [|c l]; [done|]. by rewrite IH.
Qed.

Lemma line_of_complete l : newline_free l -> line_of (l ++ [10]) = l.
Proof. intros Hl. unfold line_of. rewrite (run_app _ l 10 []) by done. apply take_app_length. Qed.

Lemma line_of_last l : newline_free l -> line_of l = l.
Proof. intros Hl. unfold line_of. rewrite run_all by done. by apply take_ge. Qed.

(** The end of the line that starts at an offset. *)
Lemma line_end_in pre l post tail : newline_free l -> post = [] \/ (exists r, post = 10 :: r) ->
  skip not_newline (pre ++ l ++ post ++ tail) (length pre + length (l ++ post)) (length pre) = (length pre + length l)%nat.
Proof.
  intros Hl Hp. pose proof (skip_run not_newline pre (l ++ post) tail _ eq_refl) as HS. rewrite <- app_assoc in HS. rewrite HS. f_equal.
  destruct Hp as [->|[r ->]]; [rewrite app_nil_r; by apply run_all|by apply run_app].
Qed.

(** A record and what is after it. *)
Lemma first_record data : data <> [] -> exists l record rest, newline_free l /\ data = record ++ rest /\ record <> [] /\
  records data = record :: records rest /\ line_of record = l /\ ((record = l /\ rest = []) \/ record = l ++ [10]).
Proof.
  intros Hd. destruct (run_split not_newline data) as (l & post & -> & _ & Hl & Hp). destruct post as [|b post].
  - rewrite app_nil_r in *. exists l, l, []. rewrite app_nil_r, (records_last l Hl Hd). split_and!; [done..|by apply line_of_last|by left].
  - assert (b = 10) as -> by (unfold not_newline in Hp; lia). exists l, (l ++ [10]), post. rewrite <- app_assoc. rewrite (records_line l post Hl).
    split_and!; [done|done|by destruct l|done|by apply line_of_complete|by right].
Qed.

(** ** Filtering *)

Definition visible (ranges : list VirtualFileHiddenRange) (record : list Z) : bool := negb (hidden_line ranges (line_of record)).

(** What one turn of the loop finds in the buffer. *)
Lemma record_in written gap l record rest tail : newline_free l -> (record = l /\ rest = []) \/ record = l ++ [10] ->
  let data := written ++ gap ++ record ++ rest ++ tail in
  let size := length (written ++ gap ++ record ++ rest) in
  let start := length (written ++ gap) in
  skip not_newline data size start = (start + length l)%nat /\
  (if (start + length l <? size)%nat then S (start + length l) else (start + length l)%nat) = length (written ++ gap ++ record) /\
  view_of data start (length l) = l.
Proof.
  intros Hl [[-> ->]| ->]; cbv zeta.
  - rewrite !app_nil_r. pose proof (line_end_in (written ++ gap) l [] tail Hl (or_introl eq_refl)) as HE.
    simpl in *. rewrite app_nil_r, <- app_assoc in HE. rewrite !length_app in *. rewrite Nat.add_assoc.
    split; [exact HE|]. split; [destruct (_ <? _)%nat eqn:E; lia|]. rewrite <- length_app, (app_assoc written). apply (view_app (written ++ gap) l tail).
  - pose proof (line_end_in (written ++ gap) l (10 :: rest) tail Hl (or_intror (ex_intro _ rest eq_refl))) as HE.
    rewrite <- !app_assoc in *. cbn [app] in *. rewrite !length_app in *. cbn [length] in *. rewrite Nat.add_assoc.
    split; [exact HE|]. split; [replace (_ <? _)%nat with true by lia; lia|]. rewrite <- length_app, (app_assoc written). apply (view_app (written ++ gap) l).
Qed.

(** The bytes of the records that stay. *)
Definition shown (ranges : list VirtualFileHiddenRange) (data : list Z) : list Z :=
  concat (filter (fun r => visible ranges r = true) (records data)).

Lemma shown_record ranges record rest : records (record ++ rest) = record :: records rest ->
  shown ranges (record ++ rest) = if hidden_line ranges (line_of record) then shown ranges rest else record ++ shown ranges rest.
Proof. intros HR. unfold shown. rewrite HR, filter_cons. case_decide as Hv; unfold visible in Hv; by destruct (hidden_line _ _). Qed.

Lemma filter_loop_spec ranges : forall fuel rem written gap tail, (length rem <= fuel)%nat ->
  exists rest, filter_loop fuel ranges (length (written ++ gap ++ rem)) (length (written ++ gap)) (length written) (written ++ gap ++ rem ++ tail) =
    Some (written ++ shown ranges rem ++ rest, length (written ++ shown ranges rem)).
Proof.
  induction fuel as [|fuel IH]; intros rem written gap tail Hf.
  - destruct rem; [|simpl in Hf; lia]. exists (gap ++ tail). cbn [filter_loop]. rewrite !app_nil_r.
    replace (_ <? _)%nat with false by lia. done.
  - cbn [filter_loop]. destruct (decide (rem = [])) as [->|Hne].
    { exists (gap ++ tail). rewrite !app_nil_r. replace (_ <? _)%nat with false by lia. done. }
    destruct (first_record rem Hne) as (l & record & rest & Hl & -> & Hrec & Hrecs & Hline & Hcases).
    rewrite (shown_record _ _ _ Hrecs), Hline, <- (app_assoc record). destruct (record_in written gap l record rest tail Hl Hcases) as (Eend & Erec & Eview).
    assert (0 < length record)%nat as Hpos by (destruct record; [done|simpl; lia]).
    replace (length (written ++ gap) <? length (written ++ gap ++ record ++ rest))%nat with true by (rewrite !length_app; lia).
    rewrite Eend, Erec. replace (length (written ++ gap) + length l - length (written ++ gap))%nat with (length l) by lia. rewrite Eview.
    assert (length rest <= fuel)%nat as Hr by (rewrite length_app in Hf; lia). destruct (hidden_line ranges l).
    + destruct (IH rest written (gap ++ record) tail Hr) as [rest' HIH]. exists rest'. rewrite <- !app_assoc in HIH. exact HIH.
    + replace (length (written ++ gap ++ record) - length (written ++ gap))%nat with (length record) by (rewrite !length_app; lia).
      destruct (Nat.eqb_spec (length written) (length (written ++ gap))) as [Eg|_].
      * assert (gap = []) as -> by (rewrite length_app in Eg; destruct gap; [done|simpl in Eg; lia]). cbn [app] in *.
        destruct (IH rest (written ++ record) [] tail Hr) as [rest' HIH]. exists rest'. rewrite <- !app_assoc, app_nil_r in HIH. cbn [app] in HIH.
        rewrite <- length_app, <- (app_assoc record). exact HIH.
      * destruct (memmove_app written gap record (rest ++ tail)) as (gap' & Emove & Hgap). rewrite Emove.
        destruct (IH rest (written ++ record) gap' tail Hr) as [rest' HIH]. exists rest'. rewrite <- !app_assoc in HIH.
        rewrite <- (app_assoc record), <- HIH.
        rewrite !length_app, Hgap. f_equal; lia.
Qed.

(** The records that stay, one after the other, are what is left of the file; the rest of the buffer is not looked at. *)
Lemma FilterInternalMappings_spec content tail ranges :
  exists rest, FilterInternalMappings (content ++ tail) (length content) ranges = Some (shown ranges content ++ rest, length (shown ranges content)).
Proof. exact (filter_loop_spec ranges (length content) content [] [] tail ltac:(lia)). Qed.

(** What stays is made of whole records, so filtering again changes nothing. *)
Lemma records_shown ranges data : records (shown ranges data) = filter (fun r => visible ranges r = true) (records data).
Proof.
  remember (length data) as n eqn:Hn. assert (length data <= n)%nat as Hle by lia. clear Hn. revert data Hle. induction n as [|n IH]; intros data Hle.
  - by destruct data; [|simpl in Hle; lia].
  - destruct (decide (data = [])) as [->|Hne]; [done|].
    destruct (first_record data Hne) as (l & record & rest & Hl & -> & Hrec & Hrecs & Hline & Hcases).
    assert (length rest <= n)%nat as Hr by (rewrite length_app in Hle; destruct record; [done|simpl in Hle; lia]).
    rewrite (shown_record _ _ _ Hrecs), Hrecs, filter_cons, Hline. unfold visible at 1. case_decide as Hv; unfold visible in Hv; rewrite Hline in Hv.
    + destruct (hidden_line ranges l); [done|]. destruct Hcases as [[-> ->]| ->]; [unfold shown; simpl; by rewrite app_nil_r, (records_last l Hl Hrec)|].
      rewrite <- app_assoc. cbn [app]. by rewrite (records_line l _ Hl), (IH rest Hr).
    + destruct (hidden_line ranges l); [by apply IH|done].
Qed.

(** ** The line of the tracer *)

Lemma StartsWith_spec l prefix : StartsWith l prefix = starts_with prefix l.
Proof.
  unfold StartsWith, same_bytes. destruct (Nat.leb_spec (length prefix) (length l)) as [Hl|Hl]; cbn [andb].
  - pose proof (prefix_bytes [] l [] prefix Hl) as HP. simpl in HP. by rewrite app_nil_r in HP.
  - symmetry. apply not_true_is_false. intros [m ->]%starts_with_split. rewrite length_app in Hl. lia.
Qed.

Definition tracer_name (l : list Z) : bool := starts_with (chars "TracerPid:") l.
Definition add_match (offset : nat) (l : list Z) (m : Match) : Match :=
  if tracer_name l then {| match_start := offset; match_end := (offset + length l)%nat; match_count := u32 (match_count m + 1) |} else m.
Fixpoint match_lines (offset : nat) (ls : list (list Z)) (m : Match) : Match :=
  match ls with [] => m | l :: ls => match_lines (offset + length l + 1) ls (add_match offset l m) end.

Lemma match_line_in pre l rest m : match_line (pre ++ l ++ rest) (length pre) (length pre + length l) m = add_match (length pre) l m.
Proof. unfold match_line, add_match. replace (length pre + length l - length pre)%nat with (length l) by lia. by rewrite view_app, StartsWith_spec. Qed.

Lemma match_loop_spec ls : Forall newline_free ls -> forall pre tail fuel m, (length (join_lines ls) <= fuel)%nat ->
  match_loop fuel (pre ++ join_lines ls ++ tail) (length (pre ++ join_lines ls)) (length pre) m = Some (match_lines (length pre) ls m).
Proof.
  induction ls as [|l ls IH]; intros Hls pre tail fuel m Hf.
  - cbn [join_lines]. rewrite app_nil_r. destruct fuel; cbn [match_loop]; by rewrite Nat.ltb_irrefl.
  - inversion Hls as [|? ? Hl Hls']; subst. destruct (decide (join_lines (l :: ls) = [])) as [En|En].
    + rewrite En, app_nil_r. assert (l = [] /\ ls = []) as [-> ->] by (destruct ls; [done|rewrite join_cons in En; by destruct l]).
      destruct fuel; cbn [match_loop]; by rewrite Nat.ltb_irrefl.
    + destruct fuel as [|fuel]; [by destruct (join_lines (l :: ls)); [|simpl in Hf; lia]|]. cbn [match_loop].
      replace (length pre <? _)%nat with true by (rewrite length_app; destruct (join_lines (l :: ls)); [done|simpl; lia]).
      cbn [match_lines]. destruct ls as [|l' ls].
      * cbn [join_lines] in *. pose proof (line_end_in pre l [] tail Hl (or_introl eq_refl)) as HE. cbn [app] in HE. rewrite app_nil_r in HE.
        rewrite length_app, HE, Nat.ltb_irrefl, match_line_in. destruct fuel; cbn [match_loop]; by rewrite Nat.ltb_irrefl.
      * rewrite join_cons in *. set (rest := join_lines (l' :: ls)) in *.
        pose proof (line_end_in pre l (10 :: rest) tail Hl (or_intror (ex_intro _ rest eq_refl))) as HE.
        rewrite <- app_assoc, (length_app pre), HE, match_line_in. rewrite length_app in Hf |- *. cbn [length] in *.
        replace (length pre + length l <? _)%nat with true by lia. replace (S (length pre + length l)) with (length (pre ++ l ++ [10])) by (rewrite !length_app; simpl; lia).
        specialize (IH Hls' (pre ++ l ++ [10]) tail fuel (add_match (length pre) l m) ltac:(fold rest; lia)). fold rest in IH.
        rewrite <- !app_assoc in IH. cbn [app] in IH. rewrite !length_app in *. cbn [length] in *. rewrite <- (Nat.add_assoc _ (length l) 1). exact IH.
Qed.

Definition tracer_count (ls : list (list Z)) : Z := Z.of_nat (length (filter (fun l => tracer_name l = true) ls)).

Lemma match_lines_count ls offset m : match_count m = u32 (match_count m) -> match_count (match_lines offset ls m) = u32 (match_count m + tracer_count ls).
Proof.
  revert offset m. induction ls as [|l ls IH]; intros offset m Hm; cbn [match_lines]; [by rewrite Z.add_0_r|].
  unfold tracer_count, add_match. rewrite filter_cons. case_decide as Hv; [rewrite Hv|apply not_true_is_false in Hv; rewrite Hv; by apply IH].
  rewrite IH; cbn [match_count length]; unfold tracer_count, u32 in *; [|by rewrite Z.mod_mod].
  rewrite Nat2Z.inj_succ, Z.add_mod_idemp_l by done. f_equal. lia.
Qed.

Lemma match_lines_app ls1 ls2 offset m : match_lines offset (ls1 ++ ls2) m = match_lines (offset + lines_length ls1) ls2 (match_lines offset ls1 m).
Proof.
  revert offset m. induction ls1 as [|l ls1 IH]; intros offset m; cbn [app match_lines]; [by rewrite Nat.add_0_r|].
  rewrite IH. f_equal. unfold lines_length. simpl. lia.
Qed.

Lemma match_lines_none ls offset m : Forall (fun l => tracer_name l = false) ls -> match_lines offset ls m = m.
Proof.
  intros Hls. revert offset m. induction Hls as [|l ls Hl _ IH]; intros offset m; cbn [match_lines]; [done|]. rewrite IH. unfold add_match. by rewrite Hl.
Qed.

(** A line among its lines. *)
Lemma join_middle before after : exists b a, length b = lines_length before /\ forall l, join_lines (before ++ l :: after) = b ++ l ++ a.
Proof.
  induction before as [|l0 before (b & a & Hb & HJ)].
  - destruct after as [|l' after]; [exists [], []|exists [], (10 :: join_lines (l' :: after))]; (split; [done|]); intros l; [by rewrite app_nil_r|done].
  - exists (l0 ++ 10 :: b), a. split; [rewrite length_app; unfold lines_length in *; simpl; lia|]. intros l. cbn [app].
    destruct (before ++ l :: after) as [|l1 ls] eqn:E; [by destruct before|]. rewrite join_cons, <- E, HJ, <- app_assoc. done.
Qed.

Lemma replace_line b l a tail : (length kReplacement <= length l)%nat -> exists rest,
  memmove (memcpy (b ++ l ++ a ++ tail) (length b) kReplacement) (length b + length kReplacement) (length b + length l) (length a) =
    b ++ kReplacement ++ a ++ rest.
Proof.
  intros Hl. set (n := length kReplacement) in *.
  assert (exists l1 l2, l = l1 ++ l2 /\ length l1 = n) as (l1 & l2 & -> & Hl1).
  { exists (take n l), (drop n l). split; [by rewrite take_drop|]. rewrite length_take. lia. }
  rewrite <- (app_assoc l1), memcpy_app by done. destruct (memmove_app (b ++ kReplacement) l2 a tail) as (gap & HM & _).
  rewrite !length_app, <- !app_assoc in HM. exists (gap ++ tail). rewrite length_app, Hl1. unfold n. rewrite Nat.add_assoc. exact HM.
Qed.

(** No line of the tracer, several, or one that is too short. *)
Lemma tracer_refused ls tail : Forall newline_free ls -> u32 (tracer_count ls) <> 1 ->
  RewriteTracerPid (join_lines ls ++ tail) (length (join_lines ls)) =
    Some (if u32 (tracer_count ls) =? 0 then ENODATA else EPROTO, join_lines ls ++ tail, length (join_lines ls)).
Proof.
  intros Hls Hn. unfold RewriteTracerPid. pose proof (match_loop_spec ls Hls [] tail _ {| match_start := 0; match_end := 0; match_count := 0 |} (le_n _)) as HM.
  cbn [app length] in HM. rewrite HM, match_lines_count by done. cbn [match_count]. rewrite Z.add_0_l.
  destruct (u32 (tracer_count ls) =? 0); [done|]. by replace (u32 (tracer_count ls) =? 1) with false by lia.
Qed.

Lemma tracer_replaced before l after tail : Forall newline_free (before ++ l :: after) -> tracer_name l = true ->
  Forall (fun l => tracer_name l = false) before -> Forall (fun l => tracer_name l = false) after ->
  let content := join_lines (before ++ l :: after) in
  exists rest, RewriteTracerPid (content ++ tail) (length content) =
    Some (if (length l <? length kReplacement)%nat then (EPROTO, content ++ tail, length content)
          else (0, join_lines (before ++ kReplacement :: after) ++ rest, length (join_lines (before ++ kReplacement :: after)))).
Proof.
  intros Hls Hl Hb Ha content. unfold RewriteTracerPid.
  pose proof (match_loop_spec _ Hls [] tail _ {| match_start := 0; match_end := 0; match_count := 0 |} (le_n _)) as HM.
  cbn [app length] in HM. fold content in HM. rewrite HM, match_lines_app, (match_lines_none before) by done.
  cbn [match_lines]. rewrite (match_lines_none after) by done. unfold add_match. rewrite Hl. cbn [match_start match_end match_count].
  replace (u32 (0 + 1)) with 1 by done. cbn [Z.eqb negb Pos.eqb]. replace (0 + lines_length before + length l - (0 + lines_length before))%nat with (length l) by lia.
  destruct (Nat.ltb_spec (length l) (length kReplacement)) as [Hs|Hs]; [by eexists|].
  destruct (join_middle before after) as (b & a & Hlen & HJ). unfold content. rewrite !HJ, <- Hlen. cbn [Nat.add]. rewrite <- (app_assoc b), <- (app_assoc l).
  replace (length (b ++ l ++ a) - (length b + length l))%nat with (length a) by (rewrite !length_app; lia).
  destruct (Nat.eqb_spec (length l) (length kReplacement)) as [El|El].
  - exists tail. rewrite memcpy_app by done. do 2 f_equal; [by rewrite <- !app_assoc|rewrite !length_app; lia].
  - destruct (replace_line b l a tail Hs) as [rest HR]. exists rest. rewrite HR. do 2 f_equal; [by rewrite <- !app_assoc|rewrite !length_app; lia].
Qed.

(** ** Numbers and ranges *)

(** A number printed in [width] hexadecimal digits. *)
Definition hex_char (d : Z) : Z := if d <? 10 then 48 + d else 97 + (d - 10).
Fixpoint hex_text (width : nat) (v : Z) : list Z :=
  match width with O => [] | S width => hex_text width (v / 16) ++ [hex_char (v mod 16)] end.

Lemma hex_digit_char d : 0 <= d < 16 -> hex_digit (hex_char d) = Some d.
Proof.
  intros Hd. assert (d = 0 \/ d = 1 \/ d = 2 \/ d = 3 \/ d = 4 \/ d = 5 \/ d = 6 \/ d = 7 \/ d = 8 \/ d = 9 \/ d = 10 \/ d = 11 \/ d = 12 \/ d = 13 \/
    d = 14 \/ d = 15) as Hc by lia. by repeat destruct Hc as [->|Hc]; [..|subst d].
Qed.

Lemma hex_loop_app ds1 ds2 v : hex_loop (ds1 ++ ds2) v = match hex_loop ds1 v with Some v => hex_loop ds2 v | None => None end.
Proof. revert v. induction ds1 as [|b ds1 IH]; intros v; cbn [app hex_loop]; [done|]. destruct (hex_digit b); [|done]. by destruct (_ <? v). Qed.

Lemma hex_loop_text width v : 0 <= v < 16 ^ Z.of_nat width -> hex_loop (hex_text width v) 0 = if v <=? UINTPTR_MAX then Some v else None.
Proof.
  revert v. induction width as [|width IH]; intros v Hv.
  - change (16 ^ Z.of_nat 0) with 1 in Hv. by replace v with 0 by lia.
  - rewrite Nat2Z.inj_succ, Z.pow_succ_r in Hv by lia. cbn [hex_text]. rewrite hex_loop_app, IH by (split; [apply Z.div_pos; lia|apply Z.div_lt_upper_bound; lia]).
    pose proof (Z.mod_pos_bound v 16 ltac:(lia)) as Hm. pose proof (Z_div_mod_eq_full v 16) as Hd.
    set (q := v / 16) in *. set (r := v mod 16) in *. destruct (Z.leb_spec q UINTPTR_MAX) as [Hq|Hq]; unfold UINTPTR_MAX, UINT64_MAX in Hq.
    + cbn [hex_loop]. rewrite hex_digit_char by lia. unfold UINTPTR_MAX, UINT64_MAX.
      assert ((18446744073709551615 - r) / 16 = 2 ^ 60 - 1) as -> by (symmetry; apply (Z.div_unique _ _ _ (15 - r)); lia).
      destruct (Z.ltb_spec (2 ^ 60 - 1) q); destruct (Z.leb_spec v 18446744073709551615); try lia; [done|]. f_equal. unfold u64. rewrite Z.mod_small; lia.
    + unfold UINTPTR_MAX, UINT64_MAX. by replace (v <=? 18446744073709551615) with false by lia.
Qed.

Lemma hex_text_length width v : length (hex_text width v) = width.
Proof. revert v. induction width as [|width IH]; intros v; simpl; [done|]. rewrite length_app, IH. simpl. lia. Qed.

Lemma ParseHex_text width v : (0 < width)%nat -> 0 <= v < 16 ^ Z.of_nat width -> ParseHex (hex_text width v) = if v <=? UINTPTR_MAX then Some v else None.
Proof. intros Hw Hv. unfold ParseHex. rewrite hex_text_length, hex_loop_text by done. by replace (width =? 0)%nat with false by lia. Qed.

Lemma hex_text_forall (p : Z -> bool) width v : forallb p (map hex_char (seqZ 0 16)) = true -> forallb p (hex_text width v) = true.
Proof.
  intros Hp. revert v. induction width as [|width IH]; intros v; cbn [hex_text]; [done|]. rewrite forallb_app, IH. simpl. rewrite andb_true_r.
  rewrite forallb_forall in Hp. apply Hp. apply in_map, list_elem_of_In, elem_of_seqZ. pose proof (Z.mod_pos_bound v 16). lia.
Qed.

Lemma MappingRange_text w1 start w2 finish rest : (0 < w1)%nat -> (0 < w2)%nat -> 0 <= start < 16 ^ Z.of_nat w1 -> 0 <= finish < 16 ^ Z.of_nat w2 ->
  match rest with [] => True | b :: _ => blank b = true end ->
  MappingRange (hex_text w1 start ++ 45 :: hex_text w2 finish ++ rest) =
    if (start <? finish) && (finish <=? UINTPTR_MAX) then Some (start, finish) else None.
Proof.
  intros Hw1 Hw2 Hs Hf Hr. unfold MappingRange. set (line := hex_text w1 start ++ 45 :: hex_text w2 finish ++ rest).
  assert (length line = w1 + S (w2 + length rest))%nat as Hlen by (unfold line; rewrite length_app; simpl; rewrite length_app, !hex_text_length; lia).
  assert (skip not_dash line (length line) 0 = w1) as Hdash.
  { pose proof (skip_run not_dash [] line [] (length line) eq_refl) as HS. cbn [app length Nat.add] in HS. rewrite app_nil_r in HS. rewrite HS.
    unfold line. rewrite run_app by (done || by apply hex_text_forall). apply hex_text_length. }
  assert (skip not_blank line (length line) (S w1) = S w1 + w2)%nat as Hend.
  { pose proof (skip_run not_blank (hex_text w1 start ++ [45]) (hex_text w2 finish ++ rest) [] (length line)) as HS.
    rewrite app_nil_r, <- app_assoc in HS. cbn [app] in HS. fold line in HS. rewrite !length_app, !hex_text_length in HS. cbn [length] in HS.
    rewrite (Nat.add_comm w1 1) in HS. cbn [Nat.add] in HS. rewrite HS by lia. replace (run not_blank (hex_text w2 finish ++ rest)) with w2; [lia|].
    destruct rest as [|b rest]; [rewrite app_nil_r, run_all by (by apply hex_text_forall)|rewrite run_app; [|by apply hex_text_forall|unfold not_blank; by rewrite Hr]];
    by rewrite hex_text_length. }
  rewrite Hdash, Hend, Hlen. replace (w1 =? 0)%nat with false by lia. replace (w1 =? w1 + S (w2 + length rest))%nat with false by lia. cbn [orb].
  replace (S w1 + w2 - S w1)%nat with w2 by lia. pose proof (view_app [] (hex_text w1 start) (45 :: hex_text w2 finish ++ rest)) as HV1.
  pose proof (view_app (hex_text w1 start ++ [45]) (hex_text w2 finish) rest) as HV2. rewrite <- app_assoc in HV2. cbn [app] in HV1, HV2. fold line in HV1, HV2.
  rewrite length_app, !hex_text_length in *. cbn [length] in *. rewrite Nat.add_1_r in HV2. rewrite HV1, HV2, !ParseHex_text by done.
  destruct (Z.leb_spec start UINTPTR_MAX), (Z.leb_spec finish UINTPTR_MAX), (Z.ltb_spec start finish); done || lia.
Qed.

(** ** What hides a line *)

Lemma same_bytes_spec a l needle : (length needle <= length l)%nat -> same_bytes (a ++ l) needle (length a) = starts_with needle l.
Proof. intros Hl. unfold same_bytes. pose proof (prefix_bytes a l [] needle Hl) as HP. by rewrite app_nil_r in HP. Qed.

Lemma needle_found data needle : needle <> [] -> Contains data needle = true <-> exists a b, data = a ++ needle ++ b.
Proof.
  intros Hne. assert (0 < length needle)%nat as Hpos by (destruct needle; [done|simpl; lia]).
  unfold Contains. replace (length needle =? 0)%nat with false by lia. cbn [orb]. destruct (Nat.ltb_spec (length data) (length needle)) as [Hs|Hs].
  - split; [done|]. intros (a & b & ->). rewrite !length_app in Hs. lia.
  - rewrite existsb_exists. split.
    + intros (i & Hi%in_seq & Hp). exists (take i data). pose proof (same_bytes_spec (take i data) (drop i data) needle) as HS.
      rewrite take_drop, length_take, length_drop, Nat.min_l in HS by lia. rewrite HS in Hp by lia.
      apply starts_with_split in Hp as [b Hb]. exists b. rewrite <- Hb. by rewrite take_drop.
    + intros (a & b & ->). exists (length a). split; [apply in_seq; rewrite !length_app in *; lia|].
      rewrite same_bytes_spec by (rewrite length_app; lia). apply starts_with_split. by exists b.
Qed.

(** The addresses of a range; a range that is empty or passes the end of the address space has none. *)
Definition in_hidden_range (a : Z) (r : VirtualFileHiddenRange) : Prop := hr_start r + hr_size r <= UINTPTR_MAX /\ hr_start r <= a < hr_start r + hr_size r.
Definition range_ok (r : VirtualFileHiddenRange) : Prop := 0 <= hr_start r <= UINTPTR_MAX /\ 0 <= hr_size r <= UINTPTR_MAX.

Lemma overlap_shares_address start finish ranges : start < finish -> Forall range_ok ranges ->
  OverlapsHiddenRange start finish ranges = true <-> exists r a, r ∈ ranges /\ start <= a < finish /\ in_hidden_range a r.
Proof.
  intros Hlt Hok. rewrite Forall_forall in Hok. unfold OverlapsHiddenRange, in_hidden_range. rewrite existsb_exists. split.
  - intros (r & Hr%list_elem_of_In & Ho). destruct (Hok r Hr) as [H1 H2]. destruct ((hr_size r =? 0) || (UINTPTR_MAX - hr_size r <? hr_start r)) eqn:E; [done|].
    unfold u64 in Ho. rewrite Z.mod_small in Ho by (unfold UINTPTR_MAX, UINT64_MAX in *; lia). exists r, (Z.max start (hr_start r)). split; [done|]. lia.
  - intros (r & a & Hr & Ha & Hin). destruct (Hok r Hr) as [H1 H2]. exists r. split; [by apply list_elem_of_In|].
    replace ((hr_size r =? 0) || (UINTPTR_MAX - hr_size r <? hr_start r)) with false by lia. unfold u64.
    rewrite Z.mod_small by (unfold UINTPTR_MAX, UINT64_MAX in *; lia). lia.
Qed.

(** A field: bytes without a blank. *)
Definition field_ok (f : list Z) : Prop := f <> [] /\ forallb not_blank f = true.

Lemma skip_fields_step n pre f rest : field_ok f ->
  skip_fields (S n) (pre ++ f ++ 32 :: rest) (length pre) = skip_fields n (pre ++ f ++ 32 :: rest) (length (pre ++ f)).
Proof.
  intros [Hne Hf]. cbn [skip_fields]. set (line := pre ++ f ++ 32 :: rest).
  assert (skip blank line (length line) (length pre) = length pre) as ->.
  { pose proof (skip_run blank pre (f ++ 32 :: rest) [] (length line)) as HS. rewrite app_nil_r in HS. fold line in HS. rewrite HS by (unfold line; by rewrite length_app).
    destruct f as [|b f]; [done|]. simpl in Hf |- *. apply andb_true_iff in Hf as [Hb _]. unfold not_blank in Hb. destruct (blank b); [done|lia]. }
  assert (skip not_blank line (length line) (length pre) = length (pre ++ f)) as ->.
  { pose proof (skip_run not_blank pre (f ++ 32 :: rest) [] (length line)) as HS. rewrite app_nil_r in HS. fold line in HS. rewrite HS by (unfold line; by rewrite length_app).
    rewrite run_app by done. by rewrite length_app. }
  replace (length (pre ++ f) =? length pre)%nat with false; [done|]. rewrite length_app. destruct f; [done|simpl; lia].
Qed.

Lemma skip_fields_next n pre f rest : field_ok f ->
  skip_fields (S n) (pre ++ 32 :: f ++ 32 :: rest) (length pre) = skip_fields n (pre ++ 32 :: f ++ 32 :: rest) (length (pre ++ 32 :: f)).
Proof.
  intros Hf. pose proof (skip_fields_step n (pre ++ [32]) f rest Hf) as HS. rewrite <- !app_assoc in HS. cbn [app] in HS. rewrite <- HS. cbn [skip_fields].
  set (line := pre ++ 32 :: f ++ 32 :: rest).
  assert (forall k, k = length pre \/ k = length (pre ++ [32]) -> skip blank line (length line) k = length (pre ++ [32])) as Hk.
  { destruct Hf as [Hne Hf]. assert (run blank (f ++ 32 :: rest) = O) as Hrun.
    { destruct f as [|b f]; [done|]. simpl in Hf |- *. apply andb_true_iff in Hf as [Hb _]. unfold not_blank in Hb. by destruct (blank b). }
    intros k [->| ->].
    - pose proof (skip_run blank pre (32 :: f ++ 32 :: rest) [] (length line)) as HE. rewrite app_nil_r in HE. fold line in HE.
      rewrite HE by (unfold line; by rewrite length_app). cbn [run blank]. simpl. rewrite Hrun, length_app. simpl. lia.
    - pose proof (skip_run blank (pre ++ [32]) (f ++ 32 :: rest) [] (length line)) as HE. rewrite app_nil_r, <- app_assoc in HE. cbn [app] in HE. fold line in HE.
      rewrite HE, Hrun by (unfold line; rewrite !length_app; simpl; rewrite length_app; simpl; lia). lia. }
  by rewrite !Hk by auto.
Qed.

(** A line of /proc/<pid>/maps. The line of an anonymous mapping ends after the
    inode and its blank, without a path. *)
Definition mapping_line (range perms offset device inode pad path : list Z) : list Z :=
  range ++ 32 :: perms ++ 32 :: offset ++ 32 :: device ++ 32 :: inode ++ 32 :: pad ++ path.
Definition path_ok (path : list Z) : Prop := match path with [] => True | b :: _ => blank b = false end.

Lemma MappingPath_line range perms offset device inode pad path :
  Forall field_ok [range; perms; offset; device; inode] -> forallb blank pad = true -> path_ok path ->
  MappingPath (mapping_line range perms offset device inode pad path) = if (length path =? 0)%nat then None else Some path.
Proof.
  rewrite !Forall_cons. intros (H1 & H2 & H3 & H4 & H5 & _) Hpad Hpath. set (line := mapping_line _ _ _ _ _ _ _). unfold MappingPath.
  set (front := range ++ 32 :: perms ++ 32 :: offset ++ 32 :: device ++ 32 :: inode).
  assert (skip_fields 5 line 0 = Some (length front)) as ->.
  { unfold line, mapping_line, front.
    pose proof (skip_fields_step 4 [] range (perms ++ 32 :: offset ++ 32 :: device ++ 32 :: inode ++ 32 :: pad ++ path) H1) as E1.
    cbn [app length] in E1. rewrite E1, (skip_fields_next 3 range perms (offset ++ 32 :: device ++ 32 :: inode ++ 32 :: pad ++ path) H2).
    pose proof (skip_fields_next 2 (range ++ 32 :: perms) offset (device ++ 32 :: inode ++ 32 :: pad ++ path) H3) as E3.
    pose proof (skip_fields_next 1 (range ++ 32 :: perms ++ 32 :: offset) device (inode ++ 32 :: pad ++ path) H4) as E4.
    pose proof (skip_fields_next 0 (range ++ 32 :: perms ++ 32 :: offset ++ 32 :: device) inode (pad ++ path) H5) as E5.
    repeat (rewrite <- app_assoc in E3 || rewrite <- app_assoc in E4 || rewrite <- app_assoc in E5 || cbn [app] in E3, E4, E5). rewrite E3, E4, E5. done. }
  assert (line = (front ++ 32 :: pad) ++ path) as El by (unfold line, mapping_line, front; repeat (rewrite <- app_assoc || cbn [app]); done).
  assert (skip blank line (length line) (length front) = length (front ++ 32 :: pad)) as ->.
  { pose proof (skip_run blank front ((32 :: pad) ++ path) [] (length line)) as HS. rewrite app_nil_r, app_assoc, <- El in HS.
    rewrite HS by (rewrite El, !length_app; lia). rewrite length_app. f_equal.
    destruct path as [|b path]; [rewrite app_nil_r; by apply run_all|]. by apply run_app. }
  rewrite El, (length_app (front ++ _) path). destruct (Nat.eqb_spec (length path) 0) as [Hz|Hz].
  - by replace (length (front ++ 32%Z :: pad) <? _)%nat with false by lia.
  - replace (length (front ++ 32%Z :: pad) <? _)%nat with true by lia.
    rewrite Nat.add_comm, Nat.add_sub. unfold view_of. by rewrite drop_app_length, firstn_all.
Qed.

(** The names that are hidden. *)
Definition internal_names : list (list Z) := [chars "hookself-session"; chars "hookself-vfile"; chars "libhookself.so"].

Lemma names_contained path : Contains path (chars "hookself-session") || Contains path (chars "hookself-vfile") || Contains path (chars "libhookself.so") = true <->
  exists name a b, name ∈ internal_names /\ path = a ++ name ++ b.
Proof.
  rewrite !orb_true_iff, !needle_found by done. unfold internal_names. split.
  - intros [[(a & b & E)|(a & b & E)]|(a & b & E)]; eexists _, a, b; (split; [|exact E]); rewrite !elem_of_cons; auto.
  - intros (name & a & b & Hn & E). rewrite !elem_of_cons, elem_of_nil in Hn. destruct Hn as [->|[->|[->|[]]]]; eauto.
Qed.

Lemma range_field w1 start w2 finish : (0 < w1)%nat -> field_ok (hex_text w1 start ++ 45 :: hex_text w2 finish).
Proof.
  intros Hw. split.
  - intros E. apply (f_equal length) in E. rewrite length_app, hex_text_length in E. simpl in E. lia.
  - rewrite forallb_app. cbn [forallb]. by rewrite !hex_text_forall.
Qed.

(** ** Reading *)

(** What a file of the kernel promises: its content does not change while it is read, a read from an offset gives some of
    the bytes after it and none only at the end, and it is interrupted finitely often. *)
Record FileLaws {W : Type} (lseek : Z -> W -> (Z + Z) * W) (read : Z -> nat -> W -> (Z + list Z) * W) (fd : Z) (content : list Z)
    (offset interrupts : W -> nat) : Prop := {
  law_lseek : forall w, exists w', lseek fd w = (inr 0, w') /\ offset w' = O /\ interrupts w' = interrupts w;
  law_read : forall n w, (0 < n)%nat ->
    (exists w', read fd n w = (inl EINTR, w') /\ offset w' = offset w /\ (interrupts w' < interrupts w)%nat) \/
    (exists bs rest w', read fd n w = (inr bs, w') /\ drop (offset w) content = bs ++ rest /\ (length bs <= n)%nat /\
      (bs = [] -> rest = []) /\ offset w' = (offset w + length bs)%nat /\ interrupts w' = interrupts w) }.

Section Reading.
Context {W : Type} (lseek : Z -> W -> (Z + Z) * W) (read : Z -> nat -> W -> (Z + list Z) * W) (fd : Z) (content : list Z) (offset interrupts : W -> nat).
Hypothesis laws : FileLaws lseek read fd content offset interrupts.

Lemma read_extra_spec fuel w : (interrupts w < fuel)%nat -> exists w',
  read_extra read fuel fd w = Some (match drop (offset w) content with [] => 0 | _ => EFBIG end, w').
Proof.
  revert w. induction fuel as [|fuel IH]; intros w Hf; [lia|]. cbn [read_extra].
  destruct (law_read _ _ _ _ _ _ laws 1 w ltac:(lia)) as [(w' & -> & Ho & Hi)|(bs & rest & w' & -> & Hd & _ & Hnil & _ & _)].
  - cbn. destruct (IH w' ltac:(lia)) as [w'' ->]. rewrite Ho. by exists w''.
  - rewrite Hd. exists w'. destruct bs; [|done]. by rewrite (Hnil eq_refl).
Qed.

(** Reading what is left behind what was read. *)
Lemma read_loop_spec fuel front left room w : content = front ++ left -> offset w = length front -> (length room + interrupts w < fuel)%nat ->
  exists rest size w', read_loop read fuel fd (front ++ room) (length front) w =
    Some (if (length left <=? length room)%nat then 0 else EFBIG, rest, size, w') /\
    ((length left <= length room)%nat -> exists tail, rest = content ++ tail /\ size = length content) /\
    length rest = length (front ++ room).
Proof.
  revert front left room w. induction fuel as [|fuel IH]; intros front left room w Hc Ho Hf; [lia|]. cbn [read_loop].
  assert (drop (offset w) content = left) as Hleft by (by rewrite Hc, Ho, drop_app_length).
  destruct room as [|b0 room].
  - rewrite app_nil_r, Nat.ltb_irrefl. destruct (read_extra_spec (S fuel) w ltac:(simpl in Hf; lia)) as [w' HE].
    rewrite HE, Hleft. destruct left as [|b left]; [|exists front, O, w'; split; [done|]; split; [simpl; lia|done]].
    exists front, (length front), w'. split; [done|]. split; [|done]. intros _. exists []. by rewrite Hc, !app_nil_r.
  - replace (length front <? length (front ++ b0 :: room))%nat with true by (rewrite length_app; simpl; lia).
    replace (length (front ++ b0 :: room) - length front)%nat with (length (b0 :: room)) by (rewrite length_app; lia).
    destruct (law_read _ _ _ _ _ _ laws (length (b0 :: room)) w ltac:(simpl; lia))
      as [(w' & -> & Ho' & Hi)|(bs & rest & w' & -> & Hd & Hn & Hnil & Ho' & Hi)].
    + cbn [Z.eqb Pos.eqb]. apply IH; [done|congruence|lia].
    + rewrite Hleft in Hd. clear Hleft. subst left. destruct bs as [|b bs].
      * rewrite (Hnil eq_refl) in *. exists (front ++ b0 :: room), (length front), w'. split; [done|]. split; [|done]. intros _. exists (b0 :: room). by rewrite Hc, app_nil_r.
      * set (got := b :: bs) in *.
        assert (exists r1 r2, b0 :: room = r1 ++ r2 /\ length r1 = length got) as (r1 & r2 & Er & Hr1).
        { exists (take (length got) (b0 :: room)), (drop (length got) (b0 :: room)). split; [by rewrite take_drop|]. rewrite length_take. lia. }
        rewrite Er in Hf, Hn |- *. rewrite length_app in Hf, Hn. rewrite memcpy_app by done. rewrite <- length_app, app_assoc.
        destruct (IH (front ++ got) rest r2 w') as (res & size & w'' & HE & Hfit & Hlen); [by rewrite <- app_assoc|by rewrite length_app, Ho', Ho|unfold got in *; simpl in *; lia|].
        exists res, size, w''. rewrite HE. replace (length rest <=? length r2)%nat with (length (got ++ rest) <=? length (r1 ++ r2))%nat by (rewrite !length_app, Hr1; lia).
        split; [done|]. split; [|rewrite Hlen, !length_app; lia]. rewrite !length_app, Hr1. intros Hle. apply Hfit. lia.
Qed.

(** The whole file is read, or it does not fit. *)
Lemma ReadSnapshot_spec fuel output w : 0 <= fd -> output <> [] -> (length output + interrupts w < fuel)%nat ->
  exists rest size w', ReadSnapshot lseek read fuel fd output w = Some (if (length content <=? length output)%nat then 0 else EFBIG, rest, size, w') /\
    ((length content <= length output)%nat -> exists tail, rest = content ++ tail /\ size = length content).
Proof.
  intros Hfd Hout Hf. unfold ReadSnapshot. replace (fd <? 0) with false by lia. replace (length output =? 0)%nat with false by (destruct output; done).
  cbn [orb]. destruct (law_lseek _ _ _ _ _ _ laws w) as (w1 & -> & Ho & Hi). rewrite <- Hi in Hf.
  destruct (read_loop_spec fuel [] content output w1 eq_refl Ho Hf) as (rest & size & w' & HE & Hfit & _). cbn [app length] in HE. rewrite HE. by exists rest, size, w'.
Qed.
End Reading.

(** ** Snapshots *)

(** C30 (functional): /proc/<pid>/maps with hidden mappings. Whatever the sizes of the reads and however often they are
    interrupted, the generator returns: EFBIG when the file does not fit in the buffer, else 0 and exactly the lines of
    the file that are not hidden, whole, in order, and with the size they have. *)
Theorem maps_snapshot_hides {W : Type} (lseek : Z -> W -> (Z + Z) * W) (read : Z -> nat -> W -> (Z + list Z) * W)
    (fd : Z) (content : list Z) (offset interrupts : W -> nat) (laws : FileLaws lseek read fd content offset interrupts)
    (fuel : nat) (flags : Z) (configured output : list Z) (ranges : list VirtualFileHiddenRange) (size0 : nat) (w : W) :
  0 <= fd -> output <> [] -> (length configured <= length output)%nat -> has flags HOOKSELF_VFILE_F_HIDE_INTERNAL_MAPPINGS = true ->
  (length output + interrupts w < fuel)%nat ->
  exists buffer size w', GenerateVirtualFileProviderSnapshot lseek read fuel HOOKSELF_VFILE_PROC_MAPS flags fd configured ranges output size0 w =
      Some (if (length content <=? length output)%nat then 0 else EFBIG, buffer, size, w') /\
    ((length content <= length output)%nat -> exists out tail, buffer = out ++ tail /\ size = length out /\
      records out = filter (fun r => hidden_line ranges (line_of r) = false) (records content)).
Proof.
  intros Hfd Hout Hconf Hflag Hf. unfold GenerateVirtualFileProviderSnapshot.
  replace (length output =? 0)%nat with false by (by destruct output). replace (length output <? length configured)%nat with false by lia. cbn [orb].
  destruct (ReadSnapshot_spec lseek read fd content offset interrupts laws fuel output w Hfd Hout Hf) as (rest & size & w' & -> & Hfit).
  cbn [HOOKSELF_VFILE_PROC_MAPS HOOKSELF_VFILE_SELINUX_CONTEXT HOOKSELF_VFILE_PROC_STATUS Z.eqb Pos.eqb andb].
  destruct (Nat.leb_spec (length content) (length output)) as [Hle|Hle]; [|exists rest, size, w'; split; [done|lia]].
  destruct (Hfit Hle) as (tail & -> & ->). cbn [negb]. rewrite Hflag. destruct (FilterInternalMappings_spec content tail ranges) as [rest' ->].
  exists (shown ranges content ++ rest'), (length (shown ranges content)), w'. split; [done|]. intros _. exists (shown ranges content), rest'.
  split; [done|]. split; [done|]. rewrite records_shown. apply list_filter_iff. intros r. unfold visible. by rewrite negb_true_iff.
Qed.

(** C32 (functional): /proc/<pid>/status. A file that fits and has one line of the tracer, of at least the twelve bytes of
    the replacement, reads as the same lines with the number 0 in that line; a file with no such line fails with ENODATA
    and one with several, or with a shorter one, with EPROTO (the lines are counted in 32 bits). *)
Theorem status_snapshot_hides_tracer {W : Type} (lseek : Z -> W -> (Z + Z) * W) (read : Z -> nat -> W -> (Z + list Z) * W)
    (fd : Z) (ls : list (list Z)) (offset interrupts : W -> nat) (laws : FileLaws lseek read fd (join_lines ls) offset interrupts)
    (fuel : nat) (flags : Z) (configured output : list Z) (ranges : list VirtualFileHiddenRange) (size0 : nat) (w : W) :
  0 <= fd -> output <> [] -> (length configured <= length output)%nat -> (length output + interrupts w < fuel)%nat ->
  Forall newline_free ls -> (length (join_lines ls) <= length output)%nat ->
  exists error buffer size w', GenerateVirtualFileProviderSnapshot lseek read fuel HOOKSELF_VFILE_PROC_STATUS flags fd configured ranges output size0 w =
      Some (error, buffer, size, w') /\
    (u32 (tracer_count ls) <> 1 -> error = if u32 (tracer_count ls) =? 0 then ENODATA else EPROTO) /\
    (forall before l after, ls = before ++ l :: after -> tracer_name l = true -> Forall (fun l => tracer_name l = false) (before ++ after) ->
      if (length l <? 12)%nat then error = EPROTO
      else let out := join_lines (before ++ kReplacement :: after) in error = 0 /\ size = length out /\ exists tail, buffer = out ++ tail).
Proof.
  intros Hfd Hout Hconf Hf Hls Hle. unfold GenerateVirtualFileProviderSnapshot.
  replace (length output =? 0)%nat with false by (by destruct output). replace (length output <? length configured)%nat with false by lia. cbn [orb].
  destruct (ReadSnapshot_spec lseek read fd _ offset interrupts laws fuel output w Hfd Hout Hf) as (rest & size & w' & -> & Hfit).
  cbn [HOOKSELF_VFILE_SELINUX_CONTEXT HOOKSELF_VFILE_PROC_STATUS Z.eqb Pos.eqb andb]. destruct (Hfit Hle) as (tail & -> & ->).
  replace (length (join_lines ls) <=? length output)%nat with true by lia. cbn [negb].
  assert (exists r, RewriteTracerPid (join_lines ls ++ tail) (length (join_lines ls)) = Some r) as [[[error buffer] size'] HR].
  { unfold RewriteTracerPid. pose proof (match_loop_spec ls Hls [] tail _ {| match_start := 0; match_end := 0; match_count := 0 |} (le_n _)) as HM.
    cbn [app length] in HM. rewrite HM. by eexists. }
  rewrite HR. exists error, buffer, size', w'. split; [done|]. split.
  - intros Hn. rewrite (tracer_refused ls tail Hls Hn) in HR. congruence.
  - intros before l after -> Hl [Hb Ha]%Forall_app. destruct (tracer_replaced before l after tail Hls Hl Hb Ha) as [rest' HT]. rewrite HT in HR.
    change (length kReplacement) with 12%nat in HR. destruct (length l <? 12)%nat; [congruence|]. injection HR as <- <- <-. split; [done|]. split; [done|]. by exists rest'.
Qed.

(** C31 (safety): Which lines of /proc/<pid>/maps are hidden. A line as the kernel prints it, with its addresses in any
    number of hexadecimal digits, and with a path or - an anonymous mapping - without one, is hidden exactly when the mapping shares an address with a hidden range (one that does
    not pass the end of the address space) or its path contains one of the program's names. *)
Theorem hidden_mapping_line (ranges : list VirtualFileHiddenRange) (w1 w2 : nat) (start finish : Z) (perms offset device inode pad path : list Z) :
  Forall range_ok ranges -> (0 < w1)%nat -> (0 < w2)%nat -> 0 <= start < 16 ^ Z.of_nat w1 -> 0 <= finish < 16 ^ Z.of_nat w2 ->
  start < finish <= UINTPTR_MAX -> Forall field_ok [perms; offset; device; inode] -> forallb blank pad = true -> path_ok path ->
  hidden_line ranges (mapping_line (hex_text w1 start ++ 45 :: hex_text w2 finish) perms offset device inode pad path) = true <->
    (exists r a, r ∈ ranges /\ start <= a < finish /\ in_hidden_range a r) \/
    (exists name a b, name ∈ internal_names /\ path = a ++ name ++ b).
Proof.
  intros Hok Hw1 Hw2 Hs Hf Hlt Hfields Hpad Hpath. unfold hidden_line.
  rewrite MappingPath_line by (done || (constructor; [by apply range_field|done])).
  unfold mapping_line. rewrite <- app_assoc. cbn [app]. rewrite MappingRange_text by done.
  replace ((start <? finish) && (finish <=? UINTPTR_MAX)) with true by lia.
  rewrite orb_true_iff, overlap_shares_address by (done || lia).
  destruct (Nat.eqb_spec (length path) 0) as [Hz|Hz]; [|by rewrite names_contained].
  apply length_zero_iff_nil in Hz as ->. split; (intros [?|Hn]; [by left|]); [done|].
  destruct Hn as (name & a & b & Hn & E). symmetry in E. apply app_nil in E as [_ [-> _]%app_nil].
  exfalso. unfold internal_names in Hn. rewrite !elem_of_cons, elem_of_nil in Hn. by destruct Hn as [?|[?|[?|?]]].
Qed.

(** ** Examples *)

(** A file that gives at most three bytes at a time: where it is and how often it will still be interrupted. *)
Definition sample_lseek (fd : Z) (w : nat * nat) : (Z + Z) * (nat * nat) := (inr 0, (O, snd w)).
Definition sample_read (content : list Z) (fd : Z) (n : nat) (w : nat * nat) : (Z + list Z) * (nat * nat) :=
  match snd w with
  | S k => (inl EINTR, (fst w, k))
  | O => let bs := take (n `min` 3) (drop (fst w) content) in (inr bs, ((fst w + length bs)%nat, O))
  end.

Lemma sample_laws content fd : FileLaws sample_lseek (sample_read content) fd content fst snd.
Proof.
  split; [intros w; by exists (O, snd w)|]. intros n [o [|k]] Hn; [right|left; exists (o, k); by repeat split; simpl; lia].
  set (bs := take (n `min` 3) (drop o content)). exists bs, (drop (n `min` 3) (drop o content)), ((o + length bs)%nat, O).
  split; [done|]. split; [symmetry; apply take_drop|]. split; [unfold bs; rewrite length_take; lia|]. split; [|done].
  intros E. unfold bs in E. apply (f_equal length) in E. rewrite length_take in E. simpl in E. apply length_zero_iff_nil. rewrite length_drop. lia.
Qed.

Definition sample_mapping : list Z :=
  mapping_line (hex_text 8 4096 ++ 45 :: hex_text 8 8192) (chars "r-xp") (chars "00000000") (chars "00:00") (chars "0") [32] (chars "/lib/x.so").
Definition sample_hidden : list Z :=
  mapping_line (hex_text 8 8192 ++ 45 :: hex_text 8 12288) (chars "r--p") (chars "00000000") (chars "00:00") (chars "0") [32] (chars "/lib/y.so").
Definition sample_ranges : list VirtualFileHiddenRange := [{| hr_start := 8200; hr_size := 8 |}].
Definition sample_maps : list Z := sample_hidden ++ 10 :: sample_mapping ++ 10 :: sample_hidden.

Example sample_maps_filtered : (fun r => take (snd r) (fst r)) <$> FilterInternalMappings sample_maps (length sample_maps) sample_ranges = Some (sample_mapping ++ [10]).
Proof. vm_compute. reflexivity. Qed.

Lemma maps_snapshot_hides_witness : exists buffer size w',
  GenerateVirtualFileProviderSnapshot sample_lseek (sample_read sample_maps) 400 HOOKSELF_VFILE_PROC_MAPS 1 3 [] sample_ranges (repeat 0 256) 0 (7%nat, 2%nat) =
    Some (0, buffer, size, w').
Proof.
  destruct (maps_snapshot_hides sample_lseek (sample_read sample_maps) 3 sample_maps fst snd (sample_laws sample_maps 3) 400 1 [] (repeat 0 256) sample_ranges 0 (7, 2)%nat)
    as (buffer & size & w' & HG & _); [lia|done|simpl; lia|reflexivity|simpl; lia|]. exists buffer, size, w'. exact HG.
Defined.

Definition sample_status_lines : list (list Z) := [chars "Name:"; chars "TracerPid:" ++ [9; 52; 50; 49]; chars "Uid:"; []].

Lemma status_snapshot_hides_tracer_witness : exists buffer size w',
  GenerateVirtualFileProviderSnapshot sample_lseek (sample_read (join_lines sample_status_lines)) 100 HOOKSELF_VFILE_PROC_STATUS 0 3 [] []
    (repeat 0 64) 0 (5%nat, 1%nat) = Some (0, buffer, size, w') /\
  exists tail, buffer = join_lines [chars "Name:"; chars "TracerPid:" ++ [9; 48]; chars "Uid:"; []] ++ tail.
Proof.
  destruct (status_snapshot_hides_tracer sample_lseek (sample_read (join_lines sample_status_lines)) 3 sample_status_lines fst snd
    (sample_laws (join_lines sample_status_lines) 3) 100 0 [] (repeat 0 64) [] 0 (5, 1)%nat) as (error & buffer & size & w' & HG & _ & HR);
    [lia|done|simpl; lia|simpl; lia|repeat constructor|vm_compute; lia|].
  destruct (HR [chars "Name:"] (chars "TracerPid:" ++ [9; 52; 50; 49]) [chars "Uid:"; []]) as (-> & _ & HT); [done|done|repeat constructor|].
  exists buffer, size, w'. split; [exact HG|exact HT].
Defined.

(** An anonymous mapping in a hidden range and one outside, and a path with a name. *)
Lemma hidden_mapping_line_witness :
  let line start finish := mapping_line (hex_text 8 start ++ 45 :: hex_text 8 finish) (chars "rw-p") (chars "00000000") (chars "00:00") (chars "0") [] in
  hidden_line sample_ranges (line 8192 12288 []) = true /\ hidden_line sample_ranges (line 4096 8192 []) <> true /\
  hidden_line sample_ranges (line 4096 8192 (chars "/memfd:hookself-vfile")) = true.
Proof.
  pose proof (fun start finish path (Hs : 0 <= start < 16 ^ 8) (Hf : 0 <= finish < 16 ^ 8) (Hlt : start < finish <= UINTPTR_MAX) (Hp : path_ok path) => hidden_mapping_line sample_ranges 8 8 start finish (chars "rw-p") (chars "00000000")
    (chars "00:00") (chars "0") [] path ltac:(repeat constructor; vm_compute; done) ltac:(lia) ltac:(lia) Hs Hf Hlt
    ltac:(repeat constructor; done) eq_refl Hp) as H.
  split; [|split].
  - apply H; [lia|lia|unfold UINTPTR_MAX, UINT64_MAX; lia|done|]. left. exists {| hr_start := 8200; hr_size := 8 |}, 8200.
    split; [by left|]. unfold in_hidden_range, UINTPTR_MAX, UINT64_MAX. simpl. lia.
  - intros E. apply H in E; [|lia|lia|unfold UINTPTR_MAX, UINT64_MAX; lia|done]. destruct E as [(r & a & Hr & Ha & Hin)|(name & a & b & Hn & E)].
    + apply list_elem_of_singleton in Hr as ->. unfold in_hidden_range in Hin. simpl in Hin. lia.
    + symmetry in E. apply app_nil in E as [_ [-> _]%app_nil]. unfold internal_names in Hn. rewrite !elem_of_cons, elem_of_nil in Hn.
      by destruct Hn as [?|[?|[?|?]]].
  - apply H; [lia|lia|unfold UINTPTR_MAX, UINT64_MAX; lia|done|]. right. exists (chars "hookself-vfile"), (chars "/memfd:"), [].
    split; [unfold internal_names; rewrite !elem_of_cons; auto|reflexivity].
Defined.
