(* ===== verification/VirtualFileStore.v ===== *)
(** * The files of the virtual contents (internal/virtual_file_store.{h,cpp}, fd_identity.h)

    A program reads a virtual file from a file in a directory of the runtime.
    A new content is written to a temporary file that is renamed over the old
    one. The system calls are parameters; [Laws] states what they do to that
    directory. Descriptors of other objects, the log and the null checks of
    pointers that the callers never pass as null are left out; names are their
    characters without the final NUL. *)

From S2P Require Import Prelude ProcStatus VirtualFileProvider.
From stdpp Require Import list gmap strings relations.
#[local] Open Scope Z_scope.

(** ** The identity of a descriptor's object (fd_identity.h) *)

Definition kFdObjectIdentityValid : Z := 1.
Definition kFdObjectIdentityTracksFdsan : Z := 2.
(** errno.h and sys/stat.h *)
Definition EBADF : Z := 9.
Definition ENOENT : Z := 2.
Definition ENOTDIR : Z := 20.
Definition ENAMETOOLONG : Z := 36.
Definition S_IFMT : Z := 61440.
Definition S_IFDIR : Z := 16384.
Definition HOOKSELF_PATH_CAPACITY : nat := 512.

Record FdObjectIdentity := { id_device : Z; id_inode : Z; id_rdev : Z; id_owner_tag : Z; id_type : Z; id_valid : Z }.
Definition ClearFdObjectIdentity : FdObjectIdentity :=
  {| id_device := 0; id_inode := 0; id_rdev := 0; id_owner_tag := 0; id_type := 0; id_valid := 0 |}.

(** struct stat *)
Record Stat := { st_dev : Z; st_ino : Z; st_rdev : Z; st_mode : Z }.
Definition file_type (s : Stat) : Z := st_mode s &&& S_IFMT.
Definition S_ISDIR (s : Stat) : bool := file_type s =? S_IFDIR.

(** The system calls: errno or the result. fdsan's functions are weak symbols. The directory is made with mode 0700, a new
    file with 0600. *)
Record Kernel (W : Type) := {
  fstat : Z -> W -> (Z + Stat) * W;
  owner_tag : option (Z -> W -> Z);
  close_with_tag : option (Z -> Z -> W -> (Z + Z) * W);
  close : Z -> W -> (Z + Z) * W;
  open_directory : list Z -> W -> (Z + Z) * W;
  openat_directory : Z -> list Z -> W -> (Z + Z) * W;
  mkdirat : Z -> list Z -> W -> (Z + Z) * W;
  (** O_RDWR | O_CREAT | O_EXCL | O_NOFOLLOW, with or without O_CLOEXEC *)
  openat_new : Z -> list Z -> bool -> W -> (Z + Z) * W;
  write : Z -> list Z -> W -> (Z + nat) * W;
  fchmod : Z -> Z -> W -> (Z + Z) * W;
  fsync : Z -> W -> (Z + Z) * W;
  renameat : Z -> list Z -> list Z -> W -> (Z + Z) * W;
  (** with AT_REMOVEDIR or without *)
  unlinkat : Z -> list Z -> bool -> W -> (Z + Z) * W;
  (** success is the second descriptor *)
  dup3 : Z -> Z -> W -> (Z + unit) * W }.
Arguments fstat {W}. Arguments owner_tag {W}. Arguments close_with_tag {W}. Arguments close {W}. Arguments open_directory {W}.
Arguments openat_directory {W}. Arguments mkdirat {W}. Arguments openat_new {W}. Arguments write {W}. Arguments fchmod {W}.
Arguments fsync {W}. Arguments renameat {W}. Arguments unlinkat {W}. Arguments dup3 {W}.

Definition errno_of {A : Type} (r : Z + A) : Z := match r with inl error => error | inr _ => 0 end.

Section Identity.
Context {W : Type} (K : Kernel W).

Definition identity_of (value : Stat) (tag valid : Z) : FdObjectIdentity :=
  {| id_device := st_dev value; id_inode := st_ino value; id_rdev := st_rdev value; id_owner_tag := tag; id_type := file_type value; id_valid := valid |}.

(** The error and [*identity], which an error leaves. *)
Definition CaptureFdObjectIdentityImpl (fd : Z) (identity : FdObjectIdentity) (track_fdsan : bool) (w : W) : Z * FdObjectIdentity * W :=
  if fd <? 0 then (EINVAL, identity, w)
  else match fstat K fd w with
  | (inl error, w) => (error, identity, w)
  | (inr value, w) =>
    match owner_tag K with
    | Some tag => if track_fdsan then (0, identity_of value (tag fd w) (kFdObjectIdentityValid ||| kFdObjectIdentityTracksFdsan), w)
                  else (0, identity_of value 0 kFdObjectIdentityValid, w)
    | None => (0, identity_of value 0 kFdObjectIdentityValid, w)
    end
  end.
Definition CaptureFdObjectIdentity (fd : Z) (identity : FdObjectIdentity) (w : W) := CaptureFdObjectIdentityImpl fd identity true w.
Definition CaptureRawFdObjectIdentity (fd : Z) (identity : FdObjectIdentity) (w : W) := CaptureFdObjectIdentityImpl fd identity false w.

Definition FdObjectIdentityMatchesStat (identity : FdObjectIdentity) (value : Stat) : bool :=
  has (id_valid identity) kFdObjectIdentityValid && (id_device identity =? st_dev value) && (id_inode identity =? st_ino value) &&
  (id_rdev identity =? st_rdev value) && (id_type identity =? file_type value).

Definition CheckFdObjectIdentity (fd : Z) (identity : FdObjectIdentity) (w : W) : Z * W :=
  if (fd <? 0) || negb (has (id_valid identity) kFdObjectIdentityValid) then (EINVAL, w)
  else match fstat K fd w with
  | (inl error, w) => (if error =? EBADF then ESTALE else error, w)
  | (inr current, w) =>
    if negb (FdObjectIdentityMatchesStat identity current) then (ESTALE, w)
    else match owner_tag K with
    | Some tag => if has (id_valid identity) kFdObjectIdentityTracksFdsan && negb (tag fd w =? id_owner_tag identity) then (ESTALE, w) else (0, w)
    | None => (0, w)
    end
  end.

Definition CloseFdObject (fd : Z) (identity : FdObjectIdentity) (w : W) : Z * W :=
  match CheckFdObjectIdentity fd identity w with
  | (error, w) =>
    if negb (error =? 0) then (error, w)
    else match close_with_tag K with
    | Some close_tag =>
      if has (id_valid identity) kFdObjectIdentityTracksFdsan then let '(r, w) := close_tag fd (id_owner_tag identity) w in (errno_of r, w)
      else let '(r, w) := close K fd w in (errno_of r, w)
    | None => let '(r, w) := close K fd w in (errno_of r, w)
    end
  end.
End Identity.

(** ** Names *)

Definition kCreateAttempts : nat := 32.
Definition kVirtualBackingSessionNameCapacity : nat := 64.
Definition kVirtualBackingFileNameCapacity : nat := 64.

Fixpoint copy_loop (capacity index : nat) (source : list Z) : option (list Z) :=
  match source with
  | [] => Some []
  | b :: source => if (capacity <=? index + 1)%nat then None else (cons b) <$> copy_loop capacity (S index) source
  end.
(** What is in the destination, and whether it is all. *)
Definition CopyText (capacity : nat) (source : list Z) : list Z * bool :=
  match copy_loop capacity 0 source with Some text => (text, true) | None => ([], false) end.

Fixpoint length_loop (capacity : nat) (value : list Z) : nat :=
  match capacity, value with S capacity, _ :: value => S (length_loop capacity value) | _, _ => O end.
Definition TextLength (value : list Z) (capacity : nat) : nat := length_loop capacity value.

Definition JoinPath (directory name : list Z) (capacity : nat) : option (list Z) :=
  let directory_length := TextLength directory capacity in
  let name_length := TextLength name capacity in
  if (directory_length =? 0)%nat || (directory_length =? capacity)%nat || (name_length =? 0)%nat || (name_length =? capacity)%nat then None
  else
    let root_directory := (directory_length =? 1)%nat && (directory !!! O =? 47) in
    let separator := if root_directory then O else 1%nat in
    if (capacity <? directory_length + separator + name_length + 1)%nat then None
    else Some (take directory_length directory ++ (if root_directory then [] else [47]) ++ take name_length name).

(** snprintf with %08x of 32 bits and %02u of a number below 100; the names fit in 64 bytes. *)
Definition session_name_of (nonce : Z) (attempt : nat) : list Z :=
  chars "hookself-vf-" ++ hex_text 8 (u32 (nonce >>> 32)) ++ chars "-" ++ hex_text 8 (u32 nonce) ++ chars "-" ++
  [48 + Z.of_nat attempt / 10; 48 + Z.of_nat attempt mod 10].
Definition final_name_of (file_id : Z) : list Z := chars "vfile-" ++ hex_text 8 file_id.
Definition temporary_name_of (file_id serial : Z) : list Z :=
  chars ".vfile-" ++ hex_text 8 file_id ++ chars "-" ++ hex_text 8 (u32 serial) ++ chars ".tmp".

Definition FinalMode (mode : Z) : Z := if mode =? 0 then 292 else mode &&& 511.

(** ** The session directory *)

Record VirtualBackingSession := {
  root_fd : Z; session_fd : Z; active_backings : Z; directory_created : Z; root_identity : FdObjectIdentity; session_identity : FdObjectIdentity;
  root_path : list Z; session_name : list Z; session_path : list Z }.

Definition InitializeVirtualBackingSession : VirtualBackingSession :=
  {| root_fd := -1; session_fd := -1; active_backings := 0; directory_created := 0; root_identity := ClearFdObjectIdentity;
     session_identity := ClearFdObjectIdentity; root_path := []; session_name := []; session_path := [] |}.

Definition set_active (s : VirtualBackingSession) (n : Z) : VirtualBackingSession :=
  {| root_fd := root_fd s; session_fd := session_fd s; active_backings := n; directory_created := directory_created s;
     root_identity := root_identity s; session_identity := session_identity s; root_path := root_path s; session_name := session_name s;
     session_path := session_path s |}.
Definition set_removed (s : VirtualBackingSession) : VirtualBackingSession :=
  {| root_fd := root_fd s; session_fd := session_fd s; active_backings := active_backings s; directory_created := 0;
     root_identity := root_identity s; session_identity := session_identity s; root_path := root_path s; session_name := session_name s;
     session_path := session_path s |}.

Section Session.
Context {W : Type} (K : Kernel W).

Definition CloseExact (fd : Z) (ident : FdObjectIdentity) (w : W) : Z * W :=
  if fd <? 0 then (0, w)
  else if negb (has (id_valid ident) kFdObjectIdentityValid) then let '(r, w) := close K fd w in (errno_of r, w)
  else CloseFdObject K fd ident w.

Definition SessionIdentityMatches (s : VirtualBackingSession) (w : W) : bool * W :=
  if (root_fd s <? 0) || (session_fd s <? 0) || (directory_created s =? 0) then (false, w)
  else
    let '(error, w) := CheckFdObjectIdentity K (root_fd s) (root_identity s) w in
    if negb (error =? 0) then (false, w)
    else
      let '(error, w) := CheckFdObjectIdentity K (session_fd s) (session_identity s) w in
      if negb (error =? 0) then (false, w)
      else match fstat K (root_fd s) w with
      | (inl _, w) => (false, w)
      | (inr root, w) =>
        match fstat K (session_fd s) w with (inl _, w) => (false, w) | (inr child, w) => (S_ISDIR root && S_ISDIR child, w) end
      end.

(** [error == 0 && (fstat(...) != 0 || !S_ISDIR(...))] and the second call that finds out which. *)
Definition check_directory (fd error : Z) (w : W) : Z * W :=
  if negb (error =? 0) then (error, w)
  else
    let '(r, w) := fstat K fd w in
    if match r with inr value => S_ISDIR value | inl _ => false end then (0, w)
    else match fstat K fd w with (inr _, w) => (ENOTDIR, w) | (inl error, w) => (error, w) end.

(** The attempts to make the directory: the error, the descriptor, its ident and the name. *)
Fixpoint create_loop (attempts attempt : nat) (root : Z) (nonce : Z) (w : W) : Z * Z * FdObjectIdentity * list Z * W :=
  match attempts with
  | O => (0, -1, ClearFdObjectIdentity, session_name_of nonce (attempt - 1), w)
  | S attempts =>
    let name := session_name_of nonce attempt in
    match mkdirat K root name w with
    | (inl error, w) => if error =? EEXIST then create_loop attempts (S attempt) root nonce w else (error, -1, ClearFdObjectIdentity, name, w)
    | (inr _, w) =>
      match openat_directory K root name w with
      | (inl error, w) => let '(_, w) := unlinkat K root name true w in (error, -1, ClearFdObjectIdentity, name, w)
      | (inr fd, w) =>
        let '(error, ident, w) := CaptureRawFdObjectIdentity K fd ClearFdObjectIdentity w in
        let '(error, w) := check_directory fd error w in
        if error =? 0 then (0, fd, ident, name, w)
        else
          let '(_, w) := CloseExact fd ident w in
          let '(_, w) := unlinkat K root name true w in
          (error, -1, ident, name, w)
      end
    end
  end.

Definition CreateVirtualBackingSession (backing_root : list Z) (session_nonce : Z) (s : VirtualBackingSession) (w : W) : Z * VirtualBackingSession * W :=
  if (0 <=? root_fd s) || (0 <=? session_fd s) || (TextLength backing_root HOOKSELF_PATH_CAPACITY =? 0)%nat ||
     (TextLength backing_root HOOKSELF_PATH_CAPACITY =? HOOKSELF_PATH_CAPACITY)%nat then (EINVAL, s, w)
  else match open_directory K backing_root w with
  | (inl error, w) => (error, s, w)
  | (inr root, w) =>
    let '(error, ident, w) := CaptureRawFdObjectIdentity K root ClearFdObjectIdentity w in
    let '(error, w) := check_directory root error w in
    if negb (error =? 0) then let '(_, w) := CloseExact root ident w in (error, s, w)
    else
      let '(error, fd, fd_identity, name, w) := create_loop kCreateAttempts 0 root session_nonce w in
      if fd <? 0 then let '(_, w) := CloseExact root ident w in (if error =? 0 then EEXIST else error, s, w)
      else
        let '(path, path_fits) := CopyText HOOKSELF_PATH_CAPACITY backing_root in
        let '(copied, name_fits) := CopyText kVirtualBackingSessionNameCapacity name in
        match (if path_fits && name_fits then JoinPath path copied HOOKSELF_PATH_CAPACITY else None) with
        | None =>
          let '(_, w) := unlinkat K root name true w in
          let '(_, w) := CloseExact fd fd_identity w in
          let '(_, w) := CloseExact root ident w in
          (ENAMETOOLONG, s, w)
        | Some joined =>
          (0, {| root_fd := root; session_fd := fd; active_backings := 0; directory_created := 1; root_identity := ident;
                 session_identity := fd_identity; root_path := path; session_name := copied; session_path := joined |}, w)
        end
  end.

Definition RemoveVirtualBackingSessionDirectory (s : VirtualBackingSession) (w : W) : Z * VirtualBackingSession * W :=
  if directory_created s =? 0 then (0, s, w)
  else if negb (active_backings s =? 0) then (EBUSY, s, w)
  else
    let '(matches, w) := SessionIdentityMatches s w in
    if negb matches then (ESTALE, s, w)
    else match unlinkat K (root_fd s) (session_name s) true w with
    | (inl error, w) => if error =? ENOENT then (0, set_removed s, w) else (error, s, w)
    | (inr _, w) => (0, set_removed s, w)
    end.

Definition DestroyVirtualBackingSession (s : VirtualBackingSession) (w : W) : VirtualBackingSession * W :=
  let '(_, s, w) := RemoveVirtualBackingSessionDirectory s w in
  let '(_, w) := CloseExact (session_fd s) (session_identity s) w in
  let '(_, w) := CloseExact (root_fd s) (root_identity s) w in
  (InitializeVirtualBackingSession, w).

Definition RemoveNamedFile (s : VirtualBackingSession) (name : list Z) (w : W) : Z * W :=
  let '(matches, w) := SessionIdentityMatches s w in
  if negb matches || (length name =? 0)%nat then (ESTALE, w)
  else match unlinkat K (session_fd s) name false w with
  | (inl error, w) => (if error =? ENOENT then 0 else error, w)
  | (inr _, w) => (0, w)
  end.

(** [None] when the fuel does not suffice. *)
Fixpoint WriteAll (fuel : nat) (fd : Z) (content : list Z) (w : W) : option (Z * W) :=
  match content with
  | [] => Some (0, w)
  | _ :: _ =>
    match fuel with
    | O => None
    | S fuel =>
      match write K fd content w with
      | (inl error, w) => if error =? EINTR then WriteAll fuel fd content w else Some (error, w)
      | (inr O, w) => Some (EIO, w)
      | (inr n, w) => WriteAll fuel fd (drop n content) w
      end
    end
  end.
End Session.

(** ** A file *)

(** The fields of VirtualFileBacking about the open file and about the pending snapshot. *)
Record StableFile := { stable_fd : Z; stable_device : Z; stable_inode : Z; stable_file_type : Z; stable_identity_valid : Z; stable_identity : FdObjectIdentity }.
Record PendingSnapshot := { pending_fd : Z; pending_generation : Z; pending_identity : FdObjectIdentity; pending_temp_name : list Z }.

(** [has_session]: the pointer to the session is not null; there is one session. *)
Record VirtualFileBacking := {
  stable : StableFile; provider : Z; mode : Z; generation : Z; has_session : bool; file_id : Z; final_created : Z;
  last_commit_published : Z; last_commit_stable_synchronized : Z; pending : PendingSnapshot; pending_serial : Z;
  final_name : list Z; backing_path : list Z }.

Definition ClearedSnapshot : PendingSnapshot :=
  {| pending_fd := -1; pending_generation := 0; pending_identity := ClearFdObjectIdentity; pending_temp_name := [] |}.
Definition InitializeVirtualFileBacking : VirtualFileBacking :=
  {| stable := {| stable_fd := -1; stable_device := 0; stable_inode := 0; stable_file_type := 0; stable_identity_valid := 0; stable_identity := ClearFdObjectIdentity |};
     provider := 0; mode := 0; generation := 0; has_session := false; file_id := 0; final_created := 0; last_commit_published := 0;
     last_commit_stable_synchronized := 0; pending := ClearedSnapshot; pending_serial := 0; final_name := []; backing_path := [] |}.

Definition set_stable (b : VirtualFileBacking) (f : StableFile) : VirtualFileBacking :=
  {| stable := f; provider := provider b; mode := mode b; generation := generation b; has_session := has_session b; file_id := file_id b;
     final_created := final_created b; last_commit_published := last_commit_published b;
     last_commit_stable_synchronized := last_commit_stable_synchronized b; pending := pending b; pending_serial := pending_serial b;
     final_name := final_name b; backing_path := backing_path b |}.
Definition set_commit (b : VirtualFileBacking) (published synchronized : Z) : VirtualFileBacking :=
  {| stable := stable b; provider := provider b; mode := mode b; generation := generation b; has_session := has_session b; file_id := file_id b;
     final_created := final_created b; last_commit_published := published; last_commit_stable_synchronized := synchronized;
     pending := pending b; pending_serial := pending_serial b; final_name := final_name b; backing_path := backing_path b |}.
Definition set_pending (b : VirtualFileBacking) (p : PendingSnapshot) (serial : Z) : VirtualFileBacking :=
  {| stable := stable b; provider := provider b; mode := mode b; generation := generation b; has_session := has_session b; file_id := file_id b;
     final_created := final_created b; last_commit_published := last_commit_published b;
     last_commit_stable_synchronized := last_commit_stable_synchronized b; pending := p; pending_serial := serial;
     final_name := final_name b; backing_path := backing_path b |}.
Definition set_generation (b : VirtualFileBacking) (g : Z) : VirtualFileBacking :=
  {| stable := stable b; provider := provider b; mode := mode b; generation := g; has_session := has_session b; file_id := file_id b;
     final_created := final_created b; last_commit_published := last_commit_published b;
     last_commit_stable_synchronized := last_commit_stable_synchronized b; pending := pending b; pending_serial := pending_serial b;
     final_name := final_name b; backing_path := backing_path b |}.
Definition ClearPendingSnapshot (b : VirtualFileBacking) : VirtualFileBacking := set_pending b ClearedSnapshot (pending_serial b).

Section Backing.
Context {W : Type} (K : Kernel W).

Definition CacheStableIdentity (b : VirtualFileBacking) (w : W) : Z * VirtualFileBacking * W :=
  let fd := stable_fd (stable b) in
  if fd <? 0 then (EINVAL, b, w)
  else
    let '(error, ident, w) := CaptureRawFdObjectIdentity K fd ClearFdObjectIdentity w in
    if negb (error =? 0)
    then (error, set_stable b {| stable_fd := fd; stable_device := 0; stable_inode := 0; stable_file_type := 0; stable_identity_valid := 0;
                                 stable_identity := ident |}, w)
    else (0, set_stable b {| stable_fd := fd; stable_device := id_device ident; stable_inode := id_inode ident; stable_file_type := id_type ident;
                             stable_identity_valid := 1; stable_identity := ident |}, w).

Definition StableIdentityMatches (b : VirtualFileBacking) (w : W) : bool * W :=
  let f := stable b in
  if (stable_fd f <? 0) || (stable_identity_valid f =? 0) || (id_valid (stable_identity f) =? 0) then (false, w)
  else match fstat K (stable_fd f) w with
  | (inl _, w) => (false, w)
  | (inr value, w) =>
    if negb ((st_dev value =? stable_device f) && (st_ino value =? stable_inode f) && (file_type value =? stable_file_type f) &&
             FdObjectIdentityMatchesStat (stable_identity f) value) then (false, w)
    else let '(error, w) := CheckFdObjectIdentity K (stable_fd f) (stable_identity f) w in (error =? 0, w)
  end.

(** [if (error == 0 && call(...) != 0) error = errno;] *)
Definition then_call (call : W -> (Z + Z) * W) (error : Z) (w : W) : Z * W :=
  if error =? 0 then let '(r, w) := call w in (errno_of r, w) else (error, w).

(** What both kinds of files get: identity, content, mode and synchronization. *)
Definition fill_file (fuel : nat) (fd : Z) (content : list Z) (file_mode : Z) (w : W) : option (Z * FdObjectIdentity * W) :=
  let '(error, ident, w) := CaptureRawFdObjectIdentity K fd ClearFdObjectIdentity w in
  match (if error =? 0 then WriteAll K fuel fd content w else Some (error, w)) with
  | None => None
  | Some (error, w) =>
    let '(error, w) := then_call (fchmod K fd file_mode) error w in
    let '(error, w) := then_call (fsync K fd) error w in
    Some (error, ident, w)
  end.

(** A new file that failed is closed and removed. *)
Definition drop_file (s : VirtualBackingSession) (fd : Z) (ident : FdObjectIdentity) (name : list Z) (w : W) : W :=
  let '(_, w) := CloseExact K fd ident w in
  let '(_, w) := RemoveNamedFile K s name w in w.

Definition CreateVirtualFileBacking (fuel : nat) (content : list Z) (provider mode file_id : Z) (s : VirtualBackingSession) (b : VirtualFileBacking) (w : W)
    : option (Z * VirtualBackingSession * VirtualFileBacking * W) :=
  if (file_id =? 0) || (0 <=? stable_fd (stable b)) then Some (EINVAL, s, b, w)
  else
    let '(matches, w) := SessionIdentityMatches K s w in
    if negb matches then Some (EINVAL, s, b, w)
    else
      let name := final_name_of file_id in
      match JoinPath (session_path s) name HOOKSELF_PATH_CAPACITY with
      | None => Some (ENAMETOOLONG, s, b, w)
      | Some path =>
        match openat_new K (session_fd s) name false w with
        | (inl error, w) => Some (error, s, b, w)
        | (inr fd, w) =>
          match fill_file fuel fd content (FinalMode mode) w with
          | None => None
          | Some (error, ident, w) =>
            if negb (error =? 0) then Some (error, s, b, drop_file s fd ident name w)
            else
              let created := {| stable := {| stable_fd := fd; stable_device := stable_device (stable b); stable_inode := stable_inode (stable b);
                  stable_file_type := stable_file_type (stable b); stable_identity_valid := stable_identity_valid (stable b);
                  stable_identity := stable_identity (stable b) |};
                provider := provider; mode := FinalMode mode; generation := 1; has_session := true; file_id := file_id; final_created := 1;
                last_commit_published := last_commit_published b; last_commit_stable_synchronized := last_commit_stable_synchronized b;
                pending := pending b; pending_serial := pending_serial b; final_name := fst (CopyText kVirtualBackingFileNameCapacity name);
                backing_path := fst (CopyText HOOKSELF_PATH_CAPACITY path) |} in
              let '(error, b, w) := CacheStableIdentity created w in
              if negb (error =? 0) then Some (error, s, InitializeVirtualFileBacking, drop_file s fd ident name w)
              else Some (0, set_active s (u32 (active_backings s + 1)), b, w)
          end
        end
      end.

(** [++serial; if (serial == 0) ++serial;] *)
Definition next_serial (serial : Z) : Z := let serial := u64 (serial + 1) in if serial =? 0 then u64 (serial + 1) else serial.

(** The attempts to make the temporary file. *)
Fixpoint temporary_loop (attempts : nat) (directory file_id serial : Z) (w : W) : (Z + Z * Z * list Z) * W :=
  match attempts with
  | O => (inl EEXIST, w)
  | S attempts =>
    let serial := next_serial serial in
    let name := temporary_name_of file_id serial in
    match openat_new K directory name true w with
    | (inr fd, w) => (inr (fd, serial, name), w)
    | (inl error, w) => if error =? EEXIST then temporary_loop attempts directory file_id serial w else (inl error, w)
    end
  end.

(** The error, the file and [*snapshot_fd]. *)
Definition PrepareVirtualFileSnapshot (fuel : nat) (s : VirtualBackingSession) (b : VirtualFileBacking) (content : list Z) (snapshot_fd : Z) (w : W)
    : option (Z * VirtualFileBacking * Z * W) :=
  if negb (has_session b) || (stable_fd (stable b) <? 0) then Some (EINVAL, b, snapshot_fd, w)
  else
    let b := set_commit b 0 0 in
    let '(matches, w) := StableIdentityMatches b w in
    let '(matches, w) := if matches then SessionIdentityMatches K s w else (false, w) in
    if negb matches then Some (ESTALE, b, -1, w)
    else if 0 <=? pending_fd (pending b) then Some (EBUSY, b, -1, w)
    else match temporary_loop kCreateAttempts (session_fd s) (file_id b) (pending_serial b) w with
    | (inl error, w) => Some (error, b, -1, w)
    | (inr (fd, serial, name), w) =>
      match fill_file fuel fd content (FinalMode (mode b)) w with
      | None => None
      | Some (error, ident, w) =>
        if negb (error =? 0) then Some (error, b, -1, drop_file s fd ident name w)
        else Some (0, set_pending b {| pending_fd := fd; pending_generation := generation b; pending_identity := ident;
                                       pending_temp_name := fst (CopyText kVirtualBackingFileNameCapacity name) |} serial, fd, w)
      end
    end.

Definition next_generation (g : Z) : Z := let g := u64 (g + 1) in if g =? 0 then 1 else g.

(** After the rename: synchronizing the directory and the open file. *)
Definition synchronize (s : VirtualBackingSession) (b : VirtualFileBacking) (snapshot_fd : Z) (w : W) : Z * VirtualFileBacking * W :=
  let '(r, w) := fsync K (session_fd s) w in
  let result := errno_of r in
  match dup3 K snapshot_fd (stable_fd (stable b)) w with
  | (inr _, w) =>
    let '(error, b, w) := CacheStableIdentity b w in
    if error =? 0 then (result, set_commit b (last_commit_published b) 1, w) else (if result =? 0 then error else result, b, w)
  | (inl error, w) => (if result =? 0 then error else result, b, w)
  end.

Definition CommitVirtualFileSnapshot (s : VirtualBackingSession) (b : VirtualFileBacking) (snapshot_fd : Z) (w : W) : Z * VirtualFileBacking * W :=
  if negb (has_session b) || (stable_fd (stable b) <? 0) || (snapshot_fd <? 0) || (snapshot_fd =? stable_fd (stable b)) ||
     negb (pending_fd (pending b) =? snapshot_fd) then (EINVAL, b, w)
  else
    let b := set_commit b 0 0 in
    let '(matches, w) := StableIdentityMatches b w in
    let '(matches, w) := if matches then SessionIdentityMatches K s w else (false, w) in
    if negb matches || negb (pending_generation (pending b) =? generation b) then (ESTALE, b, w)
    else
      let '(error, w) := CheckFdObjectIdentity K snapshot_fd (pending_identity (pending b)) w in
      if negb (error =? 0) then (ESTALE, b, w)
      else match renameat K (session_fd s) (pending_temp_name (pending b)) (final_name b) w with
      | (inl error, w) => (error, b, w)
      | (inr _, w) =>
        let '(result, b, w) := synchronize s (set_commit b 1 (last_commit_stable_synchronized b)) snapshot_fd w in
        (result, ClearPendingSnapshot (set_generation b (next_generation (generation b))), w)
      end.

Definition CleanPendingSnapshot (s : VirtualBackingSession) (b : VirtualFileBacking) (snapshot_fd : Z) (w : W) : Z * VirtualFileBacking * W :=
  if (snapshot_fd <? 0) || negb (pending_fd (pending b) =? snapshot_fd) then (EINVAL, b, w)
  else
    let '(result, w) := CloseExact K snapshot_fd (pending_identity (pending b)) w in
    if has_session b && negb (length (pending_temp_name (pending b)) =? 0)%nat then
      let '(remove_error, w) := RemoveNamedFile K s (pending_temp_name (pending b)) w in
      (if (result =? 0) && negb (remove_error =? 0) then remove_error else result, ClearPendingSnapshot b, w)
    else (result, ClearPendingSnapshot b, w).

Definition DiscardVirtualFileSnapshot := CleanPendingSnapshot.

Definition DestroyVirtualFileBacking (s : VirtualBackingSession) (b : VirtualFileBacking) (w : W) : VirtualBackingSession * VirtualFileBacking * W :=
  let '(b, w) := if 0 <=? pending_fd (pending b) then let '(_, b, w) := CleanPendingSnapshot s b (pending_fd (pending b)) w in (b, w) else (b, w) in
  let w := if 0 <=? stable_fd (stable b) then
      let '(matches, w) := StableIdentityMatches b w in
      if matches then snd (CloseExact K (stable_fd (stable b)) (stable_identity (stable b)) w) else w
    else w in
  let w := if negb (final_created b =? 0) && has_session b then snd (RemoveNamedFile K s (final_name b) w) else w in
  let s := if has_session b && negb (active_backings s =? 0) then set_active s (u32 (active_backings s - 1)) else s in
  (s, InitializeVirtualFileBacking, w).
End Backing.

(** ** What the system calls do *)

(** The directory, by name, and the content of every file, by an identity that is never used again. *)
Record Fs := { entries : gmap (list Z) Z; data : gmap Z (list Z) }.
Definition with_entries (f : gmap (list Z) Z -> gmap (list Z) Z) (fs : Fs) : Fs := {| entries := f (entries fs); data := data fs |}.

(** [opened]: the file of a descriptor and its offset; [interrupts] bounds how often a write is still interrupted. *)
Record Laws {W : Type} (K : Kernel W) (directory : Z) (view : W -> Fs) (opened : W -> gmap Z (Z * nat)) (interrupts : W -> nat) : Prop := {
  law_fstat : forall fd w, let w' := snd (fstat K fd w) in view w' = view w /\ opened w' = opened w /\ interrupts w' = interrupts w;
  law_close : forall fd w, view (snd (close K fd w)) = view w;
  law_close_tag : forall f fd tag w, close_with_tag K = Some f -> view (snd (f fd tag w)) = view w;
  law_dup3 : forall a b w, view (snd (dup3 K a b w)) = view w;
  law_fchmod : forall fd m w, view (snd (fchmod K fd m w)) = view w;
  law_fsync : forall fd w, view (snd (fsync K fd w)) = view w;
  law_rmdir : forall fd name w, view (snd (unlinkat K fd name true w)) = view w;
  law_openat : forall name cloexec w, match openat_new K directory name cloexec w with
    | (inl error, w') => error <> 0 /\ view w' = view w /\ (interrupts w' <= interrupts w)%nat
    | (inr fd, w') => 0 <= fd /\ entries (view w) !! name = None /\ (interrupts w' <= interrupts w)%nat /\
      exists file, data (view w) !! file = None /\ view w' = {| entries := <[name := file]> (entries (view w)); data := <[file := []]> (data (view w)) |} /\
        opened w' !! fd = Some (file, O)
    end;
  law_write : forall fd content w file bs, opened w !! fd = Some (file, length bs) -> data (view w) !! file = Some bs ->
    match write K fd content w with
    | (inl error, w') => error <> 0 /\ view w' = view w /\ opened w' !! fd = opened w !! fd /\ (if error =? EINTR then (interrupts w' < interrupts w)%nat else True)
    | (inr n, w') => (n <= length content)%nat /\ (interrupts w' <= interrupts w)%nat /\
      view w' = {| entries := entries (view w); data := <[file := bs ++ take n content]> (data (view w)) |} /\
      opened w' !! fd = Some (file, length (bs ++ take n content))
    end;
  law_rename : forall a b w, match renameat K directory a b w with
    | (inl error, w') => error <> 0 /\ view w' = view w
    | (inr _, w') => exists file, entries (view w) !! a = Some file /\ view w' = with_entries (fun es => <[b := file]> (delete a es)) (view w)
    end;
  law_unlink : forall name w, match unlinkat K directory name false w with
    | (inl _, w') => view w' = view w
    | (inr _, w') => view w' = with_entries (delete name) (view w)
    end }.

(** ** Names *)

Lemma hex_text_inj w v1 v2 : (0 < w)%nat -> 0 <= v1 < 16 ^ Z.of_nat w -> 0 <= v2 < 16 ^ Z.of_nat w -> v1 <= UINTPTR_MAX -> v2 <= UINTPTR_MAX ->
  hex_text w v1 = hex_text w v2 -> v1 = v2.
Proof.
  intros Hw H1 H2 B1 B2 E. pose proof (ParseHex_text w v1 Hw H1) as P1. rewrite E, (ParseHex_text w v2 Hw H2) in P1.
  apply Z.leb_le in B1, B2. rewrite B1, B2 in P1. congruence.
Qed.

Definition id_ok (id : Z) : Prop := 0 <= id < 2 ^ 32.

Lemma hex_id_inj v1 v2 : id_ok v1 -> id_ok v2 -> hex_text 8 v1 = hex_text 8 v2 -> v1 = v2.
Proof. intros H1 H2. unfold id_ok in *. apply hex_text_inj; unfold UINTPTR_MAX, UINT64_MAX; (change (16 ^ Z.of_nat 8) with (2 ^ 32) || idtac); lia. Qed.

Lemma final_names id1 id2 : id_ok id1 -> id_ok id2 -> final_name_of id1 = final_name_of id2 -> id1 = id2.
Proof. intros H1 H2 E. unfold final_name_of in E. apply app_inv_head in E. by apply hex_id_inj. Qed.

Lemma temporary_names id1 id2 s1 s2 : id_ok id1 -> id_ok id2 -> temporary_name_of id1 s1 = temporary_name_of id2 s2 -> id1 = id2.
Proof.
  intros H1 H2 E. unfold temporary_name_of in E. apply app_inv_head in E.
  apply app_inj_1 in E as [E _]; [by apply hex_id_inj|by rewrite !hex_text_length].
Qed.

Lemma final_not_temporary id1 id2 s : final_name_of id1 <> temporary_name_of id2 s.
Proof. done. Qed.

Lemma CopyText_fits capacity source : (length source < capacity)%nat -> CopyText capacity source = (source, true).
Proof.
  intros Hl. assert (forall index, (index + length source < capacity)%nat -> copy_loop capacity index source = Some source) as Hc.
  { clear Hl. induction source as [|b source IH]; intros index Hi; cbn [copy_loop]; [done|]. simpl in Hi.
    replace (capacity <=? index + 1)%nat with false by lia. by rewrite IH by lia. }
  unfold CopyText. by rewrite Hc.
Qed.

Lemma final_name_copied id : fst (CopyText kVirtualBackingFileNameCapacity (final_name_of id)) = final_name_of id.
Proof. rewrite CopyText_fits; [done|]. unfold final_name_of, kVirtualBackingFileNameCapacity. rewrite length_app, hex_text_length. simpl. lia. Qed.
Lemma temporary_name_copied id serial : fst (CopyText kVirtualBackingFileNameCapacity (temporary_name_of id serial)) = temporary_name_of id serial.
Proof.
  rewrite CopyText_fits; [done|]. unfold temporary_name_of, kVirtualBackingFileNameCapacity. rewrite !length_app, !hex_text_length. simpl. lia.
Qed.

(** ** Calls that leave the files alone *)

Section Quiet.
Context {W : Type} (K : Kernel W) (directory : Z) (view : W -> Fs) (opened : W -> gmap Z (Z * nat)) (interrupts : W -> nat).
Hypothesis laws : Laws K directory view opened interrupts.

(** What a call that only looks at descriptors leaves. *)
Definition untouched (w w' : W) : Prop := view w' = view w /\ opened w' = opened w /\ interrupts w' = interrupts w.

Lemma fstat_untouched fd w r w' : fstat K fd w = (r, w') -> untouched w w'.
Proof. intros E. pose proof (law_fstat _ _ _ _ _ laws fd w) as H. by rewrite E in H. Qed.

Lemma untouched_trans w1 w2 w3 : untouched w1 w2 -> untouched w2 w3 -> untouched w1 w3.
Proof. intros (A1 & A2 & A3) (B1 & B2 & B3). unfold untouched. split_and!; congruence. Qed.
Lemma untouched_refl w : untouched w w.
Proof. done. Qed.

Lemma capture_untouched fd old w e ident w' : CaptureRawFdObjectIdentity K fd old w = (e, ident, w') -> untouched w w'.
Proof.
  unfold CaptureRawFdObjectIdentity, CaptureFdObjectIdentityImpl. intros E. destruct (fd <? 0); [by simplify_eq|].
  destruct (fstat K fd w) as [[|] ?] eqn:Es; apply fstat_untouched in Es; [by simplify_eq|]. by destruct (owner_tag K); simplify_eq.
Qed.

Lemma check_untouched fd ident w e w' : CheckFdObjectIdentity K fd ident w = (e, w') -> untouched w w'.
Proof.
  unfold CheckFdObjectIdentity. intros E. destruct (_ || _); [by simplify_eq|]. destruct (fstat K fd w) as [[|] ?] eqn:Es; apply fstat_untouched in Es; [by simplify_eq|].
  destruct (negb _); [by simplify_eq|]. destruct (owner_tag K); [|by simplify_eq]. by destruct (_ && _); simplify_eq.
Qed.

Lemma session_untouched s w r w' : SessionIdentityMatches K s w = (r, w') -> untouched w w' /\ (r = true -> 0 <= session_fd s).
Proof.
  unfold SessionIdentityMatches. intros E. destruct (_ || _) eqn:Hg; [by simplify_eq|].
  destruct (CheckFdObjectIdentity K (root_fd s) _ w) as [e1 w1] eqn:E1. apply check_untouched in E1. destruct (negb (e1 =? 0)); [by simplify_eq|].
  destruct (CheckFdObjectIdentity K (session_fd s) _ w1) as [e2 w2] eqn:E2. apply check_untouched in E2.
  pose proof (untouched_trans _ _ _ E1 E2) as E12. destruct (negb (e2 =? 0)); [by simplify_eq|].
  destruct (fstat K (root_fd s) w2) as [[|] w3] eqn:E3; apply fstat_untouched in E3; pose proof (untouched_trans _ _ _ E12 E3) as E13; [by simplify_eq|].
  destruct (fstat K (session_fd s) w3) as [[|] w4] eqn:E4; apply fstat_untouched in E4; pose proof (untouched_trans _ _ _ E13 E4); simplify_eq; split; try done; lia.
Qed.

Lemma stable_untouched b w r w' : StableIdentityMatches K b w = (r, w') -> untouched w w'.
Proof.
  unfold StableIdentityMatches. intros E. destruct (_ || _); [by simplify_eq|]. destruct (fstat K _ w) as [[|] ?] eqn:Es; apply fstat_untouched in Es; [by simplify_eq|].
  destruct (negb _); [by simplify_eq|]. destruct (CheckFdObjectIdentity _ _ _ _) as [e w2] eqn:E1. apply check_untouched in E1. simplify_eq. by eapply untouched_trans.
Qed.

(** The check both snapshot calls start with. *)
Lemma both_untouched s b w r w' : (let '(m, w) := StableIdentityMatches K b w in if m then SessionIdentityMatches K s w else (false, w)) = (r, w') ->
  untouched w w' /\ (r = true -> 0 <= session_fd s).
Proof.
  destruct (StableIdentityMatches K b w) as [m w1] eqn:E1. apply stable_untouched in E1. destruct m; intros E; [|by simplify_eq].
  apply session_untouched in E as [E2 Hr]. split; [by eapply untouched_trans|done].
Qed.

Lemma CloseExact_view fd ident w : view (snd (CloseExact K fd ident w)) = view w.
Proof.
  unfold CloseExact, CloseFdObject. pose proof (law_close _ _ _ _ _ laws) as HC. destruct (fd <? 0); [done|]. destruct (negb (has _ _)).
  { specialize (HC fd w). by destruct (close K fd w). }
  destruct (CheckFdObjectIdentity K fd ident w) as [e w1] eqn:E. apply check_untouched in E as [<- _]. destruct (negb (e =? 0)); [done|].
  destruct (close_with_tag K) as [f|] eqn:Ef; [destruct (has _ _)|].
  - pose proof (law_close_tag _ _ _ _ _ laws f fd (id_owner_tag ident) w1 Ef). by destruct (f _ _ _).
  - specialize (HC fd w1). by destruct (close K fd w1).
  - specialize (HC fd w1). by destruct (close K fd w1).
Qed.

Definition session_at (s : VirtualBackingSession) : Prop := session_fd s = directory \/ session_fd s < 0.

(** Removing a name removes that one, or nothing. *)
Lemma RemoveNamedFile_view s name w : session_at s -> let w' := snd (RemoveNamedFile K s name w) in
  view w' = view w \/ view w' = with_entries (delete name) (view w).
Proof.
  intros Hs. unfold RemoveNamedFile. destruct (SessionIdentityMatches K s w) as [r w1] eqn:E. apply session_untouched in E as [(<- & _) Hr].
  destruct (negb r || _) eqn:Hg; [by left|]. destruct Hs as [->|Hs]; [|destruct r; [specialize (Hr eq_refl); lia|done]].
  pose proof (law_unlink _ _ _ _ _ laws name w1) as HL. destruct (unlinkat K directory name false w1) as [[e|] w2]; [left|right]; done.
Qed.

Lemma drop_file_view s fd ident name w : session_at s -> let w' := drop_file K s fd ident name w in
  view w' = view w \/ view w' = with_entries (delete name) (view w).
Proof.
  intros Hs. unfold drop_file. pose proof (CloseExact_view fd ident w) as HC. destruct (CloseExact K fd ident w) as [e w1]. cbn [snd] in HC. rewrite <- HC.
  pose proof (RemoveNamedFile_view s name w1 Hs) as HR. by destruct (RemoveNamedFile K s name w1).
Qed.

Lemma CacheStableIdentity_view b w e b' w' : CacheStableIdentity K b w = (e, b', w') ->
  view w' = view w /\ exists f, stable_fd f = stable_fd (stable b) /\ b' = set_stable b f.
Proof.
  unfold CacheStableIdentity. intros E. destruct (_ <? 0); [simplify_eq; split; [done|]; exists (stable b'); split; [done|]; by destruct b'|].
  destruct (CaptureRawFdObjectIdentity K _ _ w) as [[e1 ident] w1] eqn:E1. apply capture_untouched in E1 as [E1 _].
  destruct (negb (e1 =? 0)); simplify_eq; (split; [done|]); by eexists (Build_StableFile _ _ _ _ _ _).
Qed.

Lemma RemoveDirectory_view s w e s' w' : RemoveVirtualBackingSessionDirectory K s w = (e, s', w') ->
  view w' = view w /\ (s' = s \/ s' = set_removed s).
Proof.
  unfold RemoveVirtualBackingSessionDirectory. intros E. destruct (_ =? 0); [simplify_eq; auto|]. destruct (negb _); [simplify_eq; auto|].
  destruct (SessionIdentityMatches K s w) as [r w1] eqn:E1. apply session_untouched in E1 as [[E1 _] _]. destruct (negb r); [simplify_eq; auto|].
  pose proof (law_rmdir _ _ _ _ _ laws (root_fd s) (session_name s) w1) as HL. destruct (unlinkat K _ _ true w1) as [[e1|] w2]; cbn [snd] in HL.
  - destruct (e1 =? ENOENT); simplify_eq; (split; [congruence|auto]).
  - simplify_eq. split; [congruence|auto].
Qed.

Lemma DestroySession_view s w s' w' : DestroyVirtualBackingSession K s w = (s', w') -> view w' = view w /\ s' = InitializeVirtualBackingSession.
Proof.
  unfold DestroyVirtualBackingSession. intros E. destruct (RemoveVirtualBackingSessionDirectory K s w) as [[e1 s1] w1] eqn:E1. apply RemoveDirectory_view in E1 as [<- _].
  pose proof (CloseExact_view (session_fd s1) (session_identity s1) w1) as H1. destruct (CloseExact K (session_fd s1) _ w1) as [e2 w2]. cbn [snd] in H1. rewrite <- H1.
  pose proof (CloseExact_view (root_fd s1) (root_identity s1) w2) as H2. destruct (CloseExact K (root_fd s1) _ w2) as [e3 w3]. cbn [snd] in H2.
  by simplify_eq.
Qed.

(** ** Writing a new file *)

Lemma WriteAll_spec fuel : forall fd content w file bs e w', opened w !! fd = Some (file, length bs) -> data (view w) !! file = Some bs ->
  WriteAll K fuel fd content w = Some (e, w') ->
  exists written, view w' = {| entries := entries (view w); data := <[file := bs ++ written]> (data (view w)) |} /\ (e = 0 -> written = content).
Proof.
  assert (forall w file bs, data (view w) !! file = Some bs -> view w = {| entries := entries (view w); data := <[file := bs ++ []]> (data (view w)) |}) as Hsame.
  { intros w file bs Hd. rewrite app_nil_r, insert_id by done. by destruct (view w). }
  induction fuel as [|fuel IH]; intros fd content w file bs e w' Ho Hd E; destruct content as [|b content]; cbn [WriteAll] in E; try done.
  1, 2: simplify_eq; exists []; split; [by apply Hsame|done].
  pose proof (law_write _ _ _ _ _ laws fd (b :: content) w file bs Ho Hd) as HL. destruct (write K fd (b :: content) w) as [[error|n] w1].
  - destruct HL as (Herr & HV & HO & _). destruct (error =? EINTR) eqn:Ee.
    + rewrite <- HV. eapply IH; [by rewrite HO|by rewrite HV|exact E].
    + simplify_eq. exists []. rewrite HV. split; [by apply Hsame|]. intros ->. done.
  - destruct HL as (Hn & _ & HV & HO). destruct n as [|n].
    + injection E as <- <-. exists []. rewrite HV. split; [done|]. intros [=].
    + assert (data (view w1) !! file = Some (bs ++ take (S n) (b :: content))) as Hd1 by (rewrite HV; apply lookup_insert_eq).
      destruct (IH fd _ w1 file _ e w' HO Hd1 E) as (written & HV' & He). exists (take (S n) (b :: content) ++ written).
      rewrite HV', HV. cbn [entries data]. rewrite insert_insert_eq, app_assoc. split; [done|]. intros H0. rewrite (He H0). apply take_drop.
Qed.

Lemma WriteAll_total fuel : forall fd content w file bs, opened w !! fd = Some (file, length bs) -> data (view w) !! file = Some bs ->
  (length content + interrupts w <= fuel)%nat -> WriteAll K fuel fd content w <> None.
Proof.
  induction fuel as [|fuel IH]; intros fd content w file bs Ho Hd Hf; destruct content as [|b content]; cbn [WriteAll]; try done; [simpl in Hf; lia|].
  pose proof (law_write _ _ _ _ _ laws fd (b :: content) w file bs Ho Hd) as HL. destruct (write K fd (b :: content) w) as [[error|n] w1].
  - destruct HL as (_ & HV & HO & Hi). destruct (error =? EINTR); [|done]. eapply (IH fd _ w1 file bs); [by rewrite HO|by rewrite HV|lia].
  - destruct HL as (Hn & Hi & HV & HO). destruct n as [|n]; [done|]. eapply (IH fd _ w1 file); [exact HO|rewrite HV; apply lookup_insert_eq|].
    rewrite length_drop. simpl in *. lia.
Qed.

Lemma then_call_view call error w e w' : (forall w, view (snd (call w)) = view w) -> then_call call error w = (e, w') ->
  view w' = view w /\ (e = 0 -> error = 0).
Proof.
  intros Hc. unfold then_call. destruct (Z.eqb_spec error 0); [|intros ?; by simplify_eq]. specialize (Hc w). destruct (call w) as [r w1]. intros ?. by simplify_eq.
Qed.

Lemma fill_file_spec fuel fd content m w file e ident w' : opened w !! fd = Some (file, O) -> data (view w) !! file = Some [] ->
  fill_file K fuel fd content m w = Some (e, ident, w') ->
  exists written, view w' = {| entries := entries (view w); data := <[file := written]> (data (view w)) |} /\ (e = 0 -> written = content).
Proof.
  intros Ho Hd E. unfold fill_file in E. destruct (CaptureRawFdObjectIdentity K fd _ w) as [[e1 ident1] w1] eqn:E1. apply capture_untouched in E1 as (HV1 & HO1 & _).
  rewrite <- HV1 in Hd |- *. rewrite <- HO1 in Ho. destruct (if e1 =? 0 then WriteAll K fuel fd content w1 else Some (e1, w1)) as [[e2 w2]|] eqn:E2; [|done].
  destruct (then_call (fchmod K fd m) e2 w2) as [e3 w3] eqn:E3. apply then_call_view in E3 as [HV3 He3]; [|intros; apply (law_fchmod _ _ _ _ _ laws)].
  destruct (then_call (fsync K fd) e3 w3) as [e4 w4] eqn:E4. apply then_call_view in E4 as [HV4 He4]; [|intros; apply (law_fsync _ _ _ _ _ laws)].
  simplify_eq. rewrite HV4, HV3. destruct (Z.eqb_spec e1 0) as [->|Hne].
  - destruct (WriteAll_spec fuel fd content w1 file [] e2 w2 Ho Hd E2) as (written & HV2 & He2). exists written. rewrite HV2. split; [done|]. intros ->. auto.
  - simplify_eq. exists []. rewrite insert_id by done. split; [by destruct (view w2)|]. intros ->. specialize (He3 (He4 eq_refl)). done.
Qed.

Lemma fill_file_total fuel fd content m w file : opened w !! fd = Some (file, O) -> data (view w) !! file = Some [] ->
  (length content + interrupts w <= fuel)%nat -> fill_file K fuel fd content m w <> None.
Proof.
  intros Ho Hd Hf. unfold fill_file. destruct (CaptureRawFdObjectIdentity K fd _ w) as [[e1 ident1] w1] eqn:E1. apply capture_untouched in E1 as (HV1 & HO1 & HI1).
  rewrite <- HV1 in Hd. rewrite <- HO1 in Ho. rewrite <- HI1 in Hf. pose proof (WriteAll_total fuel fd content w1 file [] Ho Hd Hf) as HT.
  destruct (e1 =? 0); [destruct (WriteAll K fuel fd content w1) as [[e2 w2]|]; [|done]|];
    destruct (then_call _ _ _) as [e3 w3]; by destruct (then_call _ _ _).
Qed.

(** ** The calls on a file *)

(** Names but those of a call are as before, and no content changes. *)
Definition keeps (mine : list Z -> Prop) (fs fs' : Fs) : Prop :=
  (forall name, ~ mine name -> entries fs' !! name = entries fs !! name) /\ (forall file bs, data fs !! file = Some bs -> data fs' !! file = Some bs).

Lemma keeps_refl mine fs : keeps mine fs fs.
Proof. done. Qed.
Lemma keeps_trans mine fs1 fs2 fs3 : keeps mine fs1 fs2 -> keeps mine fs2 fs3 -> keeps mine fs1 fs3.
Proof. intros [A1 A2] [B1 B2]. split; [intros name Hn; by rewrite B1, A1|auto]. Qed.
Lemma keeps_delete (mine : list Z -> Prop) name fs : mine name -> keeps mine fs (with_entries (delete name) fs).
Proof. intros Hm. split; [|done]. intros n Hn. cbn. rewrite lookup_delete_ne; [done|]. intros ->. done. Qed.
Lemma keeps_either (mine : list Z -> Prop) name fs fs' : mine name -> fs' = fs \/ fs' = with_entries (delete name) fs -> keeps mine fs fs'.
Proof. intros Hm [->| ->]; [apply keeps_refl|by apply keeps_delete]. Qed.

(** A new file with what was written to it. *)
Lemma keeps_new (mine : list Z -> Prop) name file bs fs : mine name -> data fs !! file = None ->
  keeps mine fs {| entries := <[name := file]> (entries fs); data := <[file := bs]> (data fs) |}.
Proof.
  intros Hm Hd. split; cbn.
  - intros n Hn. rewrite lookup_insert_ne; [done|]. intros ->. done.
  - intros f b Hf. rewrite lookup_insert_ne; [done|]. intros ->. congruence.
Qed.

(** Making a file and filling it. *)
Lemma new_file_spec fuel name cloexec content m w fd w1 e ident w' : openat_new K directory name cloexec w = (inr fd, w1) ->
  fill_file K fuel fd content m w1 = Some (e, ident, w') ->
  0 <= fd /\ entries (view w) !! name = None /\ keeps (eq name) (view w) (view w') /\
  (e = 0 -> exists file, entries (view w') !! name = Some file /\ data (view w') !! file = Some content).
Proof.
  intros Eo Ef. pose proof (law_openat _ _ _ _ _ laws name cloexec w) as HL. rewrite Eo in HL. destruct HL as (Hfd & Hn & _ & file & Hd & HV & HO).
  destruct (fill_file_spec fuel fd content m w1 file e ident w' HO ltac:(by rewrite HV; cbn; apply lookup_insert_eq) Ef) as (written & HV' & He).
  rewrite HV in HV'. cbn [entries data] in HV'. rewrite insert_insert_eq in HV'. rewrite HV'. split; [done|]. split; [done|]. split; [by apply keeps_new|].
  intros H0. exists file. cbn. rewrite !lookup_insert_eq. by rewrite (He H0).
Qed.

Definition inert (b : VirtualFileBacking) : Prop := b = InitializeVirtualFileBacking.

Lemma CreateVirtualFileBacking_spec fuel content p m id s b w e s' b' w' : session_at s -> CreateVirtualFileBacking K fuel content p m id s b w = Some (e, s', b', w') ->
  let name := final_name_of id in
  keeps (eq name) (view w) (view w') /\
  ((e <> 0 /\ s' = s /\ (b' = b \/ inert b' /\ stable_fd (stable b) < 0) /\ (view w' = view w \/ entries (view w) !! name = None)) \/
   (e = 0 /\ s' = set_active s (u32 (active_backings s + 1)) /\ 0 <= session_fd s /\ stable_fd (stable b) < 0 /\ entries (view w) !! name = None /\
    has_session b' = true /\ file_id b' = id /\ final_name b' = name /\ final_created b' = 1 /\ 0 <= stable_fd (stable b') /\ pending b' = pending b /\
    last_commit_published b' = last_commit_published b /\ exists file, entries (view w') !! name = Some file /\ data (view w') !! file = Some content)).
Proof.
  intros Hs E name. unfold CreateVirtualFileBacking in E. destruct (_ || _) eqn:Hg; [simplify_eq; split; [done|]; left; by auto|].
  destruct (SessionIdentityMatches K s w) as [r w1] eqn:E1. apply session_untouched in E1 as [(HV1 & _) Hr]. destruct r; cbn [negb] in E; [|simplify_eq; rewrite HV1; split; [done|]; left; by auto].
  specialize (Hr eq_refl). assert (session_fd s = directory) as Hd by (destruct Hs; lia). rewrite Hd in E. fold name in E.
  destruct (JoinPath _ _ _) as [path|]; [|simplify_eq; rewrite HV1; split; [done|]; left; by auto].
  destruct (openat_new K directory name false w1) as [[error|fd] w2] eqn:Eo.
  { pose proof (law_openat _ _ _ _ _ laws name false w1) as HL. rewrite Eo in HL. destruct HL as (Hne & HV & _). simplify_eq. rewrite HV, HV1. split; [done|]. left; by auto. }
  destruct (fill_file K fuel fd content (FinalMode m) w2) as [[[e3 ident] w3]|] eqn:Ef; [|done].
  destruct (new_file_spec fuel name false content _ w1 fd w2 e3 ident w3 Eo Ef) as (Hfd & Hn & Hk & Hf). rewrite HV1 in Hn, Hk.
  assert (forall w4, view w4 = view w3 -> keeps (eq name) (view w) (view (drop_file K s fd ident name w4))) as Hdrop.
  { intros w4 HV4. eapply keeps_trans; [exact Hk|]. rewrite <- HV4. eapply keeps_either; [done|]. by apply drop_file_view. }
  destruct (Z.eqb_spec e3 0) as [->|Hne]; cbn [negb] in E; [|simplify_eq; split; [by apply Hdrop|]; left; by auto].
  destruct (CacheStableIdentity K _ w3) as [[e4 b4] w4] eqn:E4. apply CacheStableIdentity_view in E4 as (HV4 & f & Hff & ->). cbn in Hff.
  destruct (Z.eqb_spec e4 0) as [->|Hne]; cbn [negb] in E; simplify_eq.
  - rewrite HV4. split; [done|]. right. cbn [set_stable stable has_session file_id final_name final_created pending last_commit_published].
    split_and!; first [done|lia|apply final_name_copied|by apply Hf].
  - split; [by apply Hdrop|]. left. split_and!; try done; [right; split; [done|lia]|by right].
Qed.

Definition temporary_of (id : Z) (name : list Z) : Prop := exists serial, name = temporary_name_of id serial.

Lemma temporary_loop_spec attempts id : forall serial w r w', temporary_loop K attempts directory id serial w = (r, w') ->
  match r with
  | inl e => e <> 0 /\ view w' = view w
  | inr (fd, serial', name) => temporary_of id name /\ fst (CopyText kVirtualBackingFileNameCapacity name) = name /\
      exists w0, view w0 = view w /\ (interrupts w0 <= interrupts w)%nat /\ openat_new K directory name true w0 = (inr fd, w')
  end.
Proof.
  induction attempts as [|attempts IH]; intros serial w r w' E; cbn [temporary_loop] in E; [by simplify_eq|].
  pose proof (law_openat _ _ _ _ _ laws (temporary_name_of id (next_serial serial)) true w) as HL.
  destruct (openat_new K directory _ true w) as [[error|fd] w1] eqn:Eo.
  - destruct HL as (Hne & HV & Hi). destruct (error =? EEXIST); [|by simplify_eq]. apply IH in E. rewrite HV in E.
    destruct r as [|[[fd serial'] name]]; [done|]. destruct E as (? & ? & w0 & ? & ? & ?). split; [done|]. split; [done|]. exists w0. split; [done|]. split; [lia|done].
  - simplify_eq. split; [by eexists|]. split; [apply temporary_name_copied|]. by exists w.
Qed.

Lemma PrepareVirtualFileSnapshot_spec fuel s b content snap w e b' fd w' : session_at s -> PrepareVirtualFileSnapshot K fuel s b content snap w = Some (e, b', fd, w') ->
  keeps (temporary_of (file_id b)) (view w) (view w') /\
  ((e <> 0 /\ (b' = b \/ b' = set_commit b 0 0) /\ (0 <= pending_fd (pending b) -> view w' = view w)) \/
   (e = 0 /\ has_session b = true /\ pending_fd (pending b) < 0 /\ 0 <= fd /\ exists p serial, b' = set_pending (set_commit b 0 0) p serial /\ pending_fd p = fd /\
    temporary_of (file_id b) (pending_temp_name p) /\
    exists file, entries (view w') !! pending_temp_name p = Some file /\ data (view w') !! file = Some content)).
Proof.
  intros Hs E. unfold PrepareVirtualFileSnapshot in E. destruct (_ || _) eqn:Hg; [simplify_eq; split; [done|]; left; by auto|].
  destruct (StableIdentityMatches K (set_commit b 0 0) w) as [m w1] eqn:E1.
  destruct (if m then SessionIdentityMatches K s w1 else (false, w1)) as [r w2] eqn:E2.
  assert ((let '(m, w) := StableIdentityMatches K (set_commit b 0 0) w in if m then SessionIdentityMatches K s w else (false, w)) = (r, w2)) as E12 by (by rewrite E1).
  apply both_untouched in E12 as [(HV & _) Hr]. destruct r; cbn [negb] in E; [|simplify_eq; rewrite HV; split; [done|]; left; by auto].
  specialize (Hr eq_refl). assert (session_fd s = directory) as Hd by (destruct Hs; lia). rewrite Hd in E. cbn [pending file_id set_commit pending_serial mode generation] in E.
  destruct (0 <=? pending_fd (pending b)) eqn:Hp; [simplify_eq; rewrite HV; split; [done|]; left; by auto|].
  destruct (temporary_loop K _ _ _ _ w2) as [[e3|[[fd3 serial3] name]] w3] eqn:E3; apply temporary_loop_spec in E3.
  { destruct E3 as [Hne HV3]. simplify_eq. rewrite HV3, HV. split; [done|]. left; by auto. }
  destruct E3 as (Hname & Hcopy & w0 & HV0 & _ & Eo). destruct (fill_file K fuel fd3 content _ w3) as [[[e4 ident] w4]|] eqn:Ef; [|done].
  destruct (new_file_spec fuel name true content _ w0 fd3 w3 e4 ident w4 Eo Ef) as (Hfd & Hn & Hk & Hf). rewrite HV0, HV in Hk.
  assert (keeps (temporary_of (file_id b)) (view w) (view w4)) as Hk'.
  { destruct Hk as [K1 K2]. split; [|done]. intros n Hn'. apply K1. intros <-. done. }
  destruct (Z.eqb_spec e4 0) as [->|Hne]; cbn [negb] in E; simplify_eq.
  - split; [done|]. right. split; [done|]. split; [by destruct (has_session b)|]. split; [lia|]. split; [done|].
    exists {| pending_fd := fd; pending_generation := generation b; pending_identity := ident; pending_temp_name := name |}, serial3.
    rewrite Hcopy. split_and!; try done. by apply Hf.
  - split; [|left; split_and!; [done|by right|lia]]. eapply keeps_trans; [exact Hk'|]. by eapply keeps_either, drop_file_view.
Qed.

Lemma synchronize_view s b fd w e b' w' : synchronize K s b fd w = (e, b', w') ->
  view w' = view w /\ exists f n, stable_fd f = stable_fd (stable b) /\ b' = set_commit (set_stable b f) (last_commit_published b) n.
Proof.
  assert (b = set_commit (set_stable b (stable b)) (last_commit_published b) (last_commit_stable_synchronized b)) as Hid by (by destruct b).
  unfold synchronize. pose proof (law_fsync _ _ _ _ _ laws (session_fd s) w) as HF. destruct (fsync K (session_fd s) w) as [r w1]. cbn [snd] in HF.
  pose proof (law_dup3 _ _ _ _ _ laws fd (stable_fd (stable b)) w1) as HD. destruct (dup3 K fd _ w1) as [[e1|] w2]; cbn [snd] in HD; intros E.
  - simplify_eq. split; [congruence|]. by exists (stable b'), (last_commit_stable_synchronized b').
  - destruct (CacheStableIdentity K b w2) as [[e3 b3] w3] eqn:E3. apply CacheStableIdentity_view in E3 as (HV3 & f & Hf & ->).
    destruct (e3 =? 0); simplify_eq; (split; [congruence|]); exists f; [by exists 1|by exists (last_commit_stable_synchronized b)].
Qed.

(** The calls that leave the fields a snapshot does not concern. *)
Definition same_file (b b' : VirtualFileBacking) : Prop :=
  has_session b' = has_session b /\ file_id b' = file_id b /\ final_name b' = final_name b /\ final_created b' = final_created b /\
  stable_fd (stable b') = stable_fd (stable b).

Lemma CommitVirtualFileSnapshot_spec s b fd w e b' w' : session_at s -> CommitVirtualFileSnapshot K s b fd w = (e, b', w') ->
  (view w' = view w /\ (b' = b \/ b' = set_commit b 0 0)) \/
  (exists file, 0 <= pending_fd (pending b) /\ entries (view w) !! pending_temp_name (pending b) = Some file /\
    view w' = with_entries (fun es => <[final_name b := file]> (delete (pending_temp_name (pending b)) es)) (view w) /\
    same_file b b' /\ pending b' = ClearedSnapshot /\ last_commit_published b' = 1).
Proof.
  intros Hs E. unfold CommitVirtualFileSnapshot in E. destruct (_ || _) eqn:Hg; [simplify_eq; left; by auto|].
  destruct (StableIdentityMatches K (set_commit b 0 0) w) as [m w1] eqn:E1.
  destruct (if m then SessionIdentityMatches K s w1 else (false, w1)) as [r w2] eqn:E2.
  assert ((let '(m, w) := StableIdentityMatches K (set_commit b 0 0) w in if m then SessionIdentityMatches K s w else (false, w)) = (r, w2)) as E12 by (by rewrite E1).
  apply both_untouched in E12 as [(HV & _) Hr]. destruct (negb r || _) eqn:Hg2; [simplify_eq; rewrite HV; left; by auto|].
  destruct r; [|done]. specialize (Hr eq_refl). assert (session_fd s = directory) as Hd by (destruct Hs; lia). rewrite Hd in E.
  destruct (CheckFdObjectIdentity K fd _ w2) as [e3 w3] eqn:E3. apply check_untouched in E3 as [HV3 _]. destruct (negb (e3 =? 0)); [simplify_eq; rewrite HV3, HV; left; by auto|].
  cbn [pending final_name set_commit] in E. pose proof (law_rename _ _ _ _ _ laws (pending_temp_name (pending b)) (final_name b) w3) as HL.
  destruct (renameat K directory _ _ w3) as [[e4|] w4]; [destruct HL as [_ HL]; simplify_eq; rewrite HL, HV3, HV; left; by auto|].
  destruct HL as (file & Hfile & HV4). destruct (synchronize K s _ fd w4) as [[e5 b5] w5] eqn:E5. apply synchronize_view in E5 as (HV5 & f & n & Hf & ->).
  simplify_eq. right. exists file. rewrite HV5, HV4, HV3, HV in *. split; [lia|]. by repeat split.
Qed.

Lemma CleanPendingSnapshot_spec s b fd w e b' w' : session_at s -> CleanPendingSnapshot K s b fd w = (e, b', w') ->
  (view w' = view w /\ b' = b) \/
  (b' = ClearPendingSnapshot b /\ 0 <= pending_fd (pending b) /\
    (view w' = view w \/ view w' = with_entries (delete (pending_temp_name (pending b))) (view w))).
Proof.
  intros Hs E. unfold CleanPendingSnapshot in E. destruct (_ || _) eqn:Hg; [simplify_eq; by left|].
  pose proof (CloseExact_view fd (pending_identity (pending b)) w) as HC. destruct (CloseExact K fd _ w) as [e1 w1]. cbn [snd] in HC.
  destruct (_ && _).
  - pose proof (RemoveNamedFile_view s (pending_temp_name (pending b)) w1 Hs) as HR. destruct (RemoveNamedFile K s _ w1) as [e2 w2]. simplify_eq. cbn [snd] in HR.
    rewrite HC in HR. right. split; [done|]. split; [lia|done].
  - simplify_eq. right. split; [done|]. split; [lia|by left].
Qed.

Lemma DestroyVirtualFileBacking_spec (mine : list Z -> Prop) s b w s' b' w' : session_at s -> DestroyVirtualFileBacking K s b w = (s', b', w') ->
  (0 <= pending_fd (pending b) -> mine (pending_temp_name (pending b))) -> mine (final_name b) ->
  keeps mine (view w) (view w') /\ inert b' /\ s' = (if has_session b && negb (active_backings s =? 0) then set_active s (u32 (active_backings s - 1)) else s).
Proof.
  intros Hs E Ht Hf. unfold DestroyVirtualFileBacking in E.
  destruct (if 0 <=? pending_fd (pending b) then _ else (b, w)) as [b1 w1] eqn:E1.
  assert (keeps mine (view w) (view w1) /\ has_session b1 = has_session b /\ final_name b1 = final_name b) as (Hk & Hh & Hn).
  { destruct (Z.leb_spec 0 (pending_fd (pending b))) as [Hp|]; [|by simplify_eq].
    destruct (CleanPendingSnapshot K s b _ w) as [[e0 b0] w0] eqn:E0. apply CleanPendingSnapshot_spec in E0; [|done]. simplify_eq.
    destruct E0 as [[-> ->]|(-> & _ & HV)]; [done|]. split; [|done]. eapply keeps_either; [by apply Ht|done]. }
  set (w2 := if 0 <=? stable_fd (stable b1) then _ else w1) in E.
  assert (view w2 = view w1) as HV2.
  { unfold w2. destruct (0 <=? stable_fd _); [|done]. destruct (StableIdentityMatches K b1 w1) as [m w3] eqn:E3. apply stable_untouched in E3 as [<- _].
    destruct m; [|done]. apply CloseExact_view. }
  simplify_eq. rewrite Hh. split; [|done]. rewrite <- HV2 in Hk. eapply keeps_trans; [exact Hk|]. destruct (_ && has_session b); [|apply keeps_refl].
  rewrite Hn. by eapply keeps_either, RemoveNamedFile_view.
Qed.

Lemma store_calls_return fuel content : forall s b w, session_at s -> (length content + interrupts w <= fuel)%nat ->
  (forall p m id, CreateVirtualFileBacking K fuel content p m id s b w <> None) /\ (forall snap, PrepareVirtualFileSnapshot K fuel s b content snap w <> None).
Proof.
  intros s b w Hs Hf. split.
  - intros p m id. unfold CreateVirtualFileBacking. destruct (_ || _); [done|]. destruct (SessionIdentityMatches K s w) as [r w1] eqn:E1.
    apply session_untouched in E1 as [(_ & _ & HI) Hr]. destruct r; [|done]. assert (session_fd s = directory) as -> by (specialize (Hr eq_refl); destruct Hs; lia). cbn [negb].
    destruct (JoinPath _ _ _); [|done]. pose proof (law_openat _ _ _ _ _ laws (final_name_of id) false w1) as HL. destruct (openat_new K directory _ false w1) as [[|fd] w2]; [done|].
    destruct HL as (_ & _ & Hi & file & _ & HV & HO). pose proof (fill_file_total fuel fd content (FinalMode m) w2 file HO ltac:(rewrite HV; apply lookup_insert_eq) ltac:(lia)) as HT.
    destruct (fill_file K fuel fd content _ w2) as [[[e3 ident] w3]|]; [|done]. destruct (negb _); [done|].
    destruct (CacheStableIdentity K _ w3) as [[e4 b4] w4]. by destruct (negb _).
  - intros snap. unfold PrepareVirtualFileSnapshot. destruct (_ || _); [done|]. destruct (StableIdentityMatches K (set_commit b 0 0) w) as [m w1] eqn:E1.
    destruct (if m then SessionIdentityMatches K s w1 else (false, w1)) as [r w2] eqn:E2.
    assert ((let '(m, w) := StableIdentityMatches K (set_commit b 0 0) w in if m then SessionIdentityMatches K s w else (false, w)) = (r, w2)) as E12 by (by rewrite E1).
    apply both_untouched in E12 as [(_ & _ & HI) Hr]. destruct r; [|done]. assert (session_fd s = directory) as -> by (specialize (Hr eq_refl); destruct Hs; lia).
    cbn [negb]. destruct (0 <=? _); [done|]. destruct (temporary_loop K _ _ _ _ w2) as [[e3|[[fd serial] name]] w3] eqn:E3; [done|].
    apply temporary_loop_spec in E3 as (_ & _ & w0 & _ & Hi0 & Eo). pose proof (law_openat _ _ _ _ _ laws name true w0) as HL. rewrite Eo in HL.
    destruct HL as (_ & _ & Hi & file & _ & HV & HO). pose proof (fill_file_total fuel fd content (FinalMode (mode (set_commit b 0 0))) w3 file HO ltac:(rewrite HV; apply lookup_insert_eq) ltac:(lia)) as HT.
    destruct (fill_file K fuel fd content _ w3) as [[[e4 ident] w4]|]; [|done]. by destruct (negb _).
Qed.

(** ** The store: one session and its files *)

(** [published] and [snapshot] are not in the program: what was last published under the name of the file, and what was
    last prepared for it. *)
Record Slot := { backing : VirtualFileBacking; published : list Z; snapshot : list Z }.
Definition live (slot : Slot) : Prop := has_session (backing slot) = true.
#[global] Instance live_dec slot : Decision (live slot).
Proof. unfold live. apply _. Defined.

Definition names_file (slot : Slot) (name : list Z) : Prop := name = final_name (backing slot) \/ temporary_of (file_id (backing slot)) name.

Record slot_ok (fs : Fs) (slot : Slot) : Prop := {
  ok_id : id_ok (file_id (backing slot));
  ok_final : final_name (backing slot) = final_name_of (file_id (backing slot));
  ok_stable : 0 <= stable_fd (stable (backing slot));
  ok_published : exists file, entries fs !! final_name (backing slot) = Some file /\ data fs !! file = Some (published slot);
  ok_pending : 0 <= pending_fd (pending (backing slot)) -> temporary_of (file_id (backing slot)) (pending_temp_name (pending (backing slot))) /\
    exists file, entries fs !! pending_temp_name (pending (backing slot)) = Some file /\ data fs !! file = Some (snapshot slot);
  ok_flag : last_commit_published (backing slot) = 1 -> snapshot slot = published slot }.

Definition live_count (slots : list Slot) : Z := Z.of_nat (length (filter live slots)).

Record store_ok (s : VirtualBackingSession) (slots : list Slot) (w : W) : Prop := {
  store_session : session_at s;
  store_count : 0 <= session_fd s -> active_backings s = live_count slots;
  store_slots : forall i slot, slots !! i = Some slot -> if decide (live slot) then slot_ok (view w) slot else inert (backing slot);
  store_ids : forall i j slot1 slot2, slots !! i = Some slot1 -> slots !! j = Some slot2 -> live slot1 -> live slot2 -> i <> j ->
    file_id (backing slot1) <> file_id (backing slot2) }.

Lemma foreign_names slot1 slot2 name : id_ok (file_id (backing slot1)) -> id_ok (file_id (backing slot2)) ->
  final_name (backing slot1) = final_name_of (file_id (backing slot1)) -> final_name (backing slot2) = final_name_of (file_id (backing slot2)) ->
  file_id (backing slot1) <> file_id (backing slot2) -> names_file slot1 name -> names_file slot2 name -> False.
Proof.
  intros H1 H2 F1 F2 Hne [E1|[n1 E1]] [E2|[n2 E2]]; rewrite ?F1, ?F2 in *; subst name.
  - by apply Hne, final_names.
  - by apply final_not_temporary in E2.
  - symmetry in E2. by apply final_not_temporary in E2.
  - by apply Hne, (temporary_names _ _ n1 n2).
Qed.

Lemma content_keeps (mine : list Z -> Prop) fs fs' name bs : keeps mine fs fs' -> ~ mine name ->
  (exists file, entries fs !! name = Some file /\ data fs !! file = Some bs) -> exists file, entries fs' !! name = Some file /\ data fs' !! file = Some bs.
Proof. intros [K1 K2] Hm (file & He & Hd). exists file. rewrite K1 by done. auto. Qed.

Lemma slot_keeps mine fs fs' slot : keeps mine fs fs' -> (forall name, names_file slot name -> ~ mine name) -> slot_ok fs slot -> slot_ok fs' slot.
Proof.
  intros Hk Hm [H1 H2 H3 H4 H5 H6]. split; try done.
  - eapply content_keeps; [exact Hk| |exact H4]. apply Hm. by left.
  - intros Hp. destruct (H5 Hp) as [Ht Hc]. split; [done|]. eapply content_keeps; [exact Hk| |exact Hc]. apply Hm. by right.
Qed.

Lemma live_count_insert slots i old new : slots !! i = Some old ->
  live_count (<[i := new]> slots) = live_count slots - (if decide (live old) then 1 else 0) + (if decide (live new) then 1 else 0).
Proof.
  intros Hi. assert (i < length slots)%nat as Hl by (eapply lookup_lt_Some; exact Hi). unfold live_count.
  rewrite insert_take_drop by done. rewrite <- (take_drop_middle slots i old Hi) at 3. rewrite !filter_app, !filter_cons, !length_app.
  destruct (decide (live old)), (decide (live new)); cbn [length]; lia.
Qed.

Lemma store_update s slots w i old new s' w' (mine : list Z -> Prop) : store_ok s slots w -> slots !! i = Some old -> session_at s' ->
  keeps mine (view w) (view w') ->
  (forall j slot name, slots !! j = Some slot -> j <> i -> live slot -> slot_ok (view w) slot -> names_file slot name -> ~ mine name) ->
  (if decide (live new) then slot_ok (view w') new else inert (backing new)) ->
  (live new -> forall j slot, slots !! j = Some slot -> j <> i -> live slot -> file_id (backing slot) <> file_id (backing new)) ->
  (0 <= session_fd s' -> active_backings s' = live_count (<[i := new]> slots)) ->
  store_ok s' (<[i := new]> slots) w'.
Proof.
  intros [HS HC HB HI] Hi Hs' Hk Hmine Hnew Hids Hc. split; [done|done| |].
  - intros j slot Hj. destruct (decide (i = j)) as [<-|Hne].
    + rewrite list_lookup_insert_eq in Hj by (eapply lookup_lt_Some; exact Hi). injection Hj as <-. exact Hnew.
    + rewrite list_lookup_insert_ne in Hj by done. specialize (HB j slot Hj). destruct (decide (live slot)) as [Hl|]; [|done].
      eapply slot_keeps; [exact Hk| |done]. intros name Hn. eapply Hmine; eauto.
  - assert (forall j slot, (<[i := new]> slots) !! j = Some slot -> (j = i /\ slot = new) \/ (j <> i /\ slots !! j = Some slot)) as Hlook.
    { intros j slot Hj. destruct (decide (i = j)) as [<-|Hne]; [left|right; by rewrite list_lookup_insert_ne in Hj by done].
      rewrite list_lookup_insert_eq in Hj by (eapply lookup_lt_Some; exact Hi). split; [done|congruence]. }
    intros j1 j2 slot1 slot2 H1%Hlook H2%Hlook L1 L2 Hne. destruct H1 as [[-> ->]|[N1 H1]], H2 as [[-> ->]|[N2 H2]]; [done| | |by eapply HI].
    + intros E. by eapply (Hids L1 j2 slot2).
    + by eapply (Hids L2 j1 slot1).
Qed.

(** A change of a live slot that stays live under its file id. *)
Lemma store_update_live s slots w i old new w' : store_ok s slots w -> slots !! i = Some old -> live old -> same_file (backing old) (backing new) ->
  keeps (names_file old) (view w) (view w') -> slot_ok (view w') new -> store_ok s (<[i := new]> slots) w'.
Proof.
  intros Hok Hi Hl (Hh & Hid & _ & _ & _) Hk Hnew. pose proof Hok as [HS HC HB HI]. assert (live new) as Hln by (unfold live in *; congruence).
  pose proof (HB i old Hi) as Hold. rewrite decide_True in Hold by done. eapply store_update; [exact Hok|exact Hi|done|exact Hk| | | |].
  - intros j slot name Hj Hne Hlj Hslot Hn Hm. eapply (foreign_names slot old); [apply Hslot|apply Hold|apply Hslot|apply Hold|by eapply HI|done|done].
  - by rewrite decide_True.
  - intros _ j slot Hj Hne Hlj. rewrite Hid. by eapply HI.
  - intros Hs. rewrite (live_count_insert _ _ _ _ Hi), !decide_True, HC by done. lia.
Qed.

(** The calls, with any arguments and any result. *)
Inductive store_step : VirtualBackingSession * list Slot * W -> VirtualBackingSession * list Slot * W -> Prop :=
  | step_create s slots w i slot fuel content p m id e s' b' w' : slots !! i = Some slot -> id_ok id ->
      CreateVirtualFileBacking K fuel content p m id s (backing slot) w = Some (e, s', b', w') ->
      store_step (s, slots, w) (s', <[i := {| backing := b'; published := if e =? 0 then content else published slot; snapshot := snapshot slot |}]> slots, w')
  | step_prepare s slots w i slot fuel content fd e b' fd' w' : slots !! i = Some slot ->
      PrepareVirtualFileSnapshot K fuel s (backing slot) content fd w = Some (e, b', fd', w') ->
      store_step (s, slots, w) (s, <[i := {| backing := b'; published := published slot; snapshot := if e =? 0 then content else snapshot slot |}]> slots, w')
  | step_commit s slots w i slot fd e b' w' : slots !! i = Some slot -> CommitVirtualFileSnapshot K s (backing slot) fd w = (e, b', w') ->
      store_step (s, slots, w) (s, <[i := {| backing := b'; published := if last_commit_published b' =? 1 then snapshot slot else published slot;
                                             snapshot := snapshot slot |}]> slots, w')
  | step_discard s slots w i slot fd e b' w' : slots !! i = Some slot -> DiscardVirtualFileSnapshot K s (backing slot) fd w = (e, b', w') ->
      store_step (s, slots, w) (s, <[i := {| backing := b'; published := published slot; snapshot := snapshot slot |}]> slots, w')
  | step_destroy s slots w i slot s' b' w' : slots !! i = Some slot -> DestroyVirtualFileBacking K s (backing slot) w = (s', b', w') ->
      store_step (s, slots, w) (s', <[i := {| backing := b'; published := published slot; snapshot := snapshot slot |}]> slots, w')
  | step_remove s slots w e s' w' : RemoveVirtualBackingSessionDirectory K s w = (e, s', w') -> store_step (s, slots, w) (s', slots, w')
  | step_close s slots w s' w' : DestroyVirtualBackingSession K s w = (s', w') -> store_step (s, slots, w) (s', slots, w').

(** ** Every call keeps the store *)

Lemma create_keeps s slots w i slot fuel content p m id e s' b' w' : store_ok s slots w -> Z.of_nat (length slots) < 2 ^ 32 -> slots !! i = Some slot -> id_ok id ->
  CreateVirtualFileBacking K fuel content p m id s (backing slot) w = Some (e, s', b', w') ->
  store_ok s' (<[i := {| backing := b'; published := if e =? 0 then content else published slot; snapshot := snapshot slot |}]> slots) w'.
Proof.
  intros Hok Hlen Hi Hid E. pose proof Hok as [HS HC HB HI]. pose proof (HB i slot Hi) as Hslot. apply CreateVirtualFileBacking_spec in E as [Hk E]; [|done].
  assert (forall j sl, slots !! j = Some sl -> live sl -> entries (view w) !! final_name_of id = None -> file_id (backing sl) <> id) as Hnew.
  { intros j sl Hj Hl Hn <-. specialize (HB j sl Hj). rewrite decide_True in HB by done. destruct HB as [_ HF _ (file & He & _) _ _]. rewrite HF in He. congruence. }
  assert (forall j sl name, slots !! j = Some sl -> j <> i -> live sl -> slot_ok (view w) sl -> names_file sl name ->
    entries (view w) !! final_name_of id = None -> final_name_of id <> name) as Hforeign.
  { intros j sl name Hj Hne Hl Hsl Hn Hnone <-. destruct Hn as [Hn|[serial Hn]]; [|by apply final_not_temporary in Hn].
    rewrite (ok_final _ _ Hsl) in Hn. apply final_names in Hn; [|done|apply Hsl]. by apply (Hnew j sl Hj Hl Hnone). }
  destruct E as [(He & -> & Hb & Hv)|(-> & -> & Hsfd & Hst & Hnone & Hh & Hfid & Hfn & Hfc & Hst' & Hp & Hflag & Hcont)].
  - assert (keeps (fun name => entries (view w) !! final_name_of id = None /\ final_name_of id = name) (view w) (view w')) as Hk'.
    { destruct Hv as [->|Hnone]; [apply keeps_refl|]. destruct Hk as [K1 K2]. split; [|done]. intros name Hn. apply K1. intros <-. auto. }
    replace (e =? 0) with false by lia. assert (b' = backing slot) as ->.
    { destruct Hb as [->|[-> Hneg]]; [done|]. destruct (decide (live slot)) as [Hl|]; [|done]. pose proof (ok_stable _ _ Hslot). lia. }
    assert ({| backing := backing slot; published := published slot; snapshot := snapshot slot |} = slot) as -> by (by destruct slot).
    rewrite list_insert_id by done. split; [done|done| |done]. intros j sl Hj. specialize (HB j sl Hj). destruct (decide (live sl)) as [Hl|]; [|done].
    eapply slot_keeps; [exact Hk'| |done]. intros name Hn [Hnone <-]. destruct Hn as [Hn|[serial Hn]]; [|by apply final_not_temporary in Hn].
    rewrite (ok_final _ _ HB) in Hn. apply final_names in Hn; [|done|apply HB]. by apply (Hnew j sl Hj Hl Hnone).
  - assert (~ live slot) as Hdead by (intros Hl; rewrite decide_True in Hslot by done; pose proof (ok_stable _ _ Hslot); lia).
    rewrite decide_False in Hslot by done. unfold inert in Hslot. eapply (store_update _ _ _ i slot _ _ _ (eq (final_name_of id))); [exact Hok|exact Hi|exact HS|exact Hk| | | |].
    + intros j sl name Hj Hne Hl Hsl Hn. by eapply Hforeign.
    + rewrite decide_True by done. split; cbn [backing published snapshot]; rewrite ?Hfid, ?Hfn; try done.
      * rewrite Hp, Hslot. cbn. lia.
      * rewrite Hflag, Hslot. cbn. lia.
    + intros _ j sl Hj Hne Hl. cbn. rewrite Hfid. by eapply Hnew.
    + intros _. cbn [active_backings set_active session_fd]. rewrite (live_count_insert _ _ _ _ Hi), decide_False, decide_True, HC by done.
      unfold u32. rewrite Z.mod_small; [lia|]. pose proof (lookup_lt_Some _ _ _ Hi). unfold live_count.
      assert (length (filter live slots) < length slots)%nat; [|lia]. by apply (length_filter_lt _ _ slot); [eapply list_elem_of_lookup_2|].
Qed.

(** A slot that is not live stays as it is. *)
Lemma store_update_inert s slots w i old w' : store_ok s slots w -> slots !! i = Some old -> ~ live old -> view w' = view w ->
  forall new, backing new = backing old -> store_ok s (<[i := new]> slots) w'.
Proof.
  intros Hok Hi Hl HV new Hb. pose proof Hok as [HS HC HB HI]. pose proof (HB i old Hi) as Hold. rewrite decide_False in Hold by done.
  assert (~ live new) as Hln by (unfold live in *; by rewrite Hb).
  eapply (store_update _ _ _ i old _ _ _ (fun _ => False)); [exact Hok|exact Hi|done|by rewrite HV| | | |].
  - auto.
  - rewrite decide_False by done. unfold inert in *. congruence.
  - done.
  - intros Hs. rewrite (live_count_insert _ _ _ _ Hi), !decide_False, HC by done. lia.
Qed.

Lemma prepare_keeps s slots w i slot fuel content fd e b' fd' w' : store_ok s slots w -> slots !! i = Some slot ->
  PrepareVirtualFileSnapshot K fuel s (backing slot) content fd w = Some (e, b', fd', w') ->
  store_ok s (<[i := {| backing := b'; published := published slot; snapshot := if e =? 0 then content else snapshot slot |}]> slots) w'.
Proof.
  intros Hok Hi E. pose proof (store_slots _ _ _ Hok i slot Hi) as Hslot. destruct (decide (live slot)) as [Hl|Hl].
  - apply PrepareVirtualFileSnapshot_spec in E as [Hk E]; [|apply Hok].
    assert (keeps (names_file slot) (view w) (view w')) as Hk' by (destruct Hk as [K1 K2]; split; [|done]; intros n Hn; apply K1; intros Hm; apply Hn; by right).
    pose proof Hslot as [H1 H2 H3 H4 H5 H6].
    assert (exists file, entries (view w') !! final_name (backing slot) = Some file /\ data (view w') !! file = Some (published slot)) as Hpub.
    { eapply content_keeps; [exact Hk| |exact H4]. rewrite H2. intros [serial Hn]. by apply final_not_temporary in Hn. }
    eapply store_update_live; [exact Hok|exact Hi|exact Hl| |exact Hk'|].
    + destruct E as [(_ & [->| ->] & _)|(_ & _ & _ & _ & p & serial & -> & _)]; done.
    + destruct E as [(He & Hb & Hv)|(-> & _ & _ & _ & p & serial & -> & _ & Ht & Hcont)]; [|done].
      replace (e =? 0) with false by lia. destruct Hb as [->| ->]; split; try done; cbn; intros Hp; rewrite (Hv Hp); by apply H5.
  - unfold inert in Hslot. rewrite Hslot in E. injection E as <- <- _ <-. eapply store_update_inert; [exact Hok|exact Hi|exact Hl|done|done].
Qed.

Lemma commit_keeps s slots w i slot fd e b' w' : store_ok s slots w -> slots !! i = Some slot -> CommitVirtualFileSnapshot K s (backing slot) fd w = (e, b', w') ->
  store_ok s (<[i := {| backing := b'; published := if last_commit_published b' =? 1 then snapshot slot else published slot; snapshot := snapshot slot |}]> slots) w'.
Proof.
  intros Hok Hi E. pose proof (store_slots _ _ _ Hok i slot Hi) as Hslot. destruct (decide (live slot)) as [Hl|Hl].
  - pose proof Hslot as [H1 H2 H3 H4 H5 H6]. apply CommitVirtualFileSnapshot_spec in E; [|apply Hok].
    destruct E as [(HV & Hb)|(file & Hp & Hfile & HV & Hsame & Hpend & Hflag)].
    + eapply store_update_live; [exact Hok|exact Hi|exact Hl|by destruct Hb as [->| ->]|rewrite HV; apply keeps_refl|]. rewrite HV.
      destruct Hb as [->| ->]; cbn [last_commit_published set_commit]; [|by split].
      destruct (Z.eqb_spec (last_commit_published (backing slot)) 1) as [H1f|]; [rewrite <- (H6 H1f) in H4|]; by split.
    + destruct (H5 Hp) as [[serial Ht] (file' & Hfile' & Hcont)]. rewrite Hfile in Hfile'. injection Hfile' as <-. pose proof Hsame as (S1 & S2 & S3 & S4 & S5).
      eapply store_update_live; [exact Hok|exact Hi|exact Hl|exact Hsame| |]; rewrite HV.
      * split; [|done]. intros name Hn. cbn. rewrite lookup_insert_ne by (intros <-; apply Hn; by left). rewrite lookup_delete_ne; [done|].
        intros <-. apply Hn. right. by exists serial.
      * rewrite Hflag. cbn [Z.eqb Pos.eqb]. split; cbn [backing published snapshot]; rewrite ?S2, ?S3, ?S5; try done.
        -- exists file. cbn. by rewrite lookup_insert_eq.
        -- rewrite Hpend. cbn. lia.
  - unfold inert in Hslot. apply CommitVirtualFileSnapshot_spec in E; [|apply Hok]. rewrite Hslot in E. destruct E as [(HV & [->| ->])|(file & Hp & _)]; [| |cbn in Hp; lia].
    all: eapply store_update_inert; [exact Hok|exact Hi|exact Hl|exact HV|by rewrite Hslot].
Qed.

Lemma discard_keeps s slots w i slot fd e b' w' : store_ok s slots w -> slots !! i = Some slot -> DiscardVirtualFileSnapshot K s (backing slot) fd w = (e, b', w') ->
  store_ok s (<[i := {| backing := b'; published := published slot; snapshot := snapshot slot |}]> slots) w'.
Proof.
  intros Hok Hi E. pose proof (store_slots _ _ _ Hok i slot Hi) as Hslot. apply CleanPendingSnapshot_spec in E; [|apply Hok]. destruct (decide (live slot)) as [Hl|Hl].
  - pose proof Hslot as [H1 H2 H3 H4 H5 H6]. destruct E as [[HV ->]|(-> & Hp & HV)].
    + eapply store_update_live; [exact Hok|exact Hi|exact Hl|done|rewrite HV; apply keeps_refl|]. rewrite HV. by split.
    + destruct (H5 Hp) as [Ht _]. pose proof (keeps_either (temporary_of (file_id (backing slot))) _ _ _ Ht HV) as Hk.
      eapply store_update_live; [exact Hok|exact Hi|exact Hl|done| |].
      * destruct Hk as [K1 K2]. split; [|done]. intros n Hn. apply K1. intros Hm. apply Hn. by right.
      * split; cbn; try done. eapply content_keeps; [exact Hk| |exact H4]. rewrite H2. intros [serial Hn]. by apply final_not_temporary in Hn.
  - unfold inert in Hslot. rewrite Hslot in E. destruct E as [[HV ->]|(_ & Hp & _)]; [|cbn in Hp; lia].
    eapply store_update_inert; [exact Hok|exact Hi|exact Hl|exact HV|by rewrite Hslot].
Qed.

Lemma destroy_keeps s slots w i slot s' b' w' : store_ok s slots w -> Z.of_nat (length slots) < 2 ^ 32 -> slots !! i = Some slot ->
  DestroyVirtualFileBacking K s (backing slot) w = (s', b', w') ->
  store_ok s' (<[i := {| backing := b'; published := published slot; snapshot := snapshot slot |}]> slots) w'.
Proof.
  intros Hok Hlen Hi E. pose proof Hok as [HS HC HB HI]. pose proof (HB i slot Hi) as Hslot. destruct (decide (live slot)) as [Hl|Hl].
  - assert (0 < live_count slots < 2 ^ 32) as Hcount.
    { unfold live_count. pose proof (length_filter live slots). assert (slot ∈ filter live slots) as Hin by (apply list_elem_of_filter; split; [done|by eapply list_elem_of_lookup_2]).
      destruct (filter live slots); [by apply elem_of_nil in Hin|cbn in *; lia]. }
    apply (DestroyVirtualFileBacking_spec (names_file slot)) in E as (Hk & Hb & ->); [|done|intros Hp; right; by apply Hslot|by left].
    unfold live in Hl. rewrite Hl. cbn [andb]. eapply (store_update _ _ _ i slot); [exact Hok|exact Hi| |exact Hk| | | |].
    + by destruct (negb _).
    + intros j sl name Hj Hne Hlj Hsl Hn Hm. eapply (foreign_names sl slot); [apply Hsl|apply Hslot|apply Hsl|apply Hslot|by eapply HI|done|done].
    + rewrite decide_False; [done|]. unfold live. cbn. by rewrite Hb.
    + unfold live. cbn. by rewrite Hb.
    + intros Hs'. rewrite (live_count_insert _ _ _ _ Hi), decide_True, decide_False; [|unfold live; cbn; by rewrite Hb|done].
      destruct (Z.eqb_spec (active_backings s) 0) as [H0|H0]; cbn [negb active_backings set_active session_fd] in *; rewrite HC in * by done; [lia|].
      unfold u32. rewrite Z.mod_small; lia.
  - unfold inert in Hslot. rewrite Hslot in E. injection E as <- <- <-. eapply store_update_inert; [exact Hok|exact Hi|exact Hl|done|by rewrite Hslot].
Qed.

Lemma store_step_keeps s slots w s' slots' w' : Z.of_nat (length slots) < 2 ^ 32 -> store_ok s slots w -> store_step (s, slots, w) (s', slots', w') ->
  store_ok s' slots' w' /\ length slots' = length slots.
Proof.
  intros Hlen Hok Hstep. inversion Hstep; subst; rewrite ?length_insert; (split; [|done]).
  - by eapply create_keeps.
  - by eapply prepare_keeps.
  - by eapply commit_keeps.
  - eapply discard_keeps; eassumption.
  - eapply destroy_keeps; eassumption.
  - destruct (RemoveDirectory_view s w e s' w') as [HV Hs]; [done|]. destruct Hok as [HS HC HB HI]. split; [by destruct Hs as [->| ->]|by destruct Hs as [->| ->]| |done].
    intros j sl Hj. rewrite HV. exact (HB j sl Hj).
  - destruct (DestroySession_view s w s' w') as [HV ->]; [done|]. destruct Hok as [HS HC HB HI]. split; [right; cbn; lia|cbn; lia| |done].
    intros j sl Hj. rewrite HV. exact (HB j sl Hj).
Qed.

Lemma store_reachable_ok x y : rtc store_step x y -> Z.of_nat (length (snd (fst x))) < 2 ^ 32 -> store_ok (fst (fst x)) (snd (fst x)) (snd x) ->
  store_ok (fst (fst y)) (snd (fst y)) (snd y).
Proof.
  induction 1 as [x|x y z Hxy Hyz IH]; [done|]. intros Hlen Hok. destruct x as [[s slots] w], y as [[s' slots'] w'].
  destruct (store_step_keeps _ _ _ _ _ _ Hlen Hok Hxy) as [Hok' Hl']. apply IH; cbn in *; [by rewrite Hl'|done].
Qed.
End Quiet.

(** ** What holds of the files *)

(** C29 (invariant): Publishing is atomic. Whatever the calls on a session and its files were, with any arguments, any results
    of the system calls and any failures between them, the file of every virtual file in use contains exactly the content
    that was last published for it (or its first one): a snapshot that was only prepared, discarded or failed does not
    show, and last_commit_published tells the caller the truth. The directory is not removed while a file is in use, and
    creating and preparing return as soon as the writes are no longer interrupted. *)
Theorem files_show_published {W : Type} (K : Kernel W) (directory : Z) (view : W -> Fs) (opened : W -> gmap Z (Z * nat)) (interrupts : W -> nat)
    (laws : Laws K directory view opened interrupts) (s s' : VirtualBackingSession) (slots slots' : list Slot) (w w' : W) :
  session_at directory s -> active_backings s = 0 -> Forall (fun slot => inert (backing slot)) slots -> Z.of_nat (length slots) < 2 ^ 32 ->
  rtc (store_step K) (s, slots, w) (s', slots', w') ->
  (forall i slot, slots' !! i = Some slot -> live slot ->
    exists file, entries (view w') !! final_name (backing slot) = Some file /\ data (view w') !! file = Some (published slot)) /\
  (forall i slot, slots' !! i = Some slot -> live slot -> 0 <= session_fd s' -> directory_created s' <> 0 ->
    RemoveVirtualBackingSessionDirectory K s' w' = (EBUSY, s', w')) /\
  (forall fuel content b, (length content + interrupts w' <= fuel)%nat ->
    (forall p m id, CreateVirtualFileBacking K fuel content p m id s' b w' <> None) /\ (forall snap, PrepareVirtualFileSnapshot K fuel s' b content snap w' <> None)).
Proof.
  intros Hs Ha Hin Hlen Hsteps. rewrite Forall_forall in Hin.
  assert (forall slot, inert (backing slot) -> ~ live slot) as Hdead by (unfold inert, live; intros slot ->; done).
  assert (store_ok directory view s slots w) as Hok.
  { split; [done| | |].
    - intros _. rewrite Ha. unfold live_count. destruct (filter live slots) as [|x l] eqn:E; [done|]. exfalso.
      assert (x ∈ filter live slots) as [Hl Hx]%list_elem_of_filter by (rewrite E; by left). by eapply Hdead, Hl; apply Hin.
    - intros i slot Hi. rewrite decide_False; [|apply Hdead]; apply Hin; by eapply list_elem_of_lookup_2.
    - intros i j slot1 slot2 Hi _ Hl _ _. exfalso. eapply Hdead, Hl. apply Hin. by eapply list_elem_of_lookup_2. }
  pose proof (store_reachable_ok K directory view opened interrupts laws _ _ Hsteps Hlen Hok) as [HS HC HB HI]. cbn [fst snd] in *. split; [|split].
  - intros i slot Hi Hl. specialize (HB i slot Hi). rewrite decide_True in HB by done. apply HB.
  - intros i slot Hi Hl Hfd Hcreated. assert (slot ∈ filter live slots') as Hf by (apply list_elem_of_filter; split; [done|by eapply list_elem_of_lookup_2]).
    unfold RemoveVirtualBackingSessionDirectory. rewrite HC by done. unfold live_count. replace (directory_created s' =? 0) with false by lia.
    destruct (filter live slots'); [by apply elem_of_nil in Hf|done].
  - intros fuel content b Hf. by apply (store_calls_return K directory view opened interrupts laws).
Qed.

(** A file in use whose identity is not known. *)
Definition lost (b : VirtualFileBacking) : Prop := has_session b = true /\ 0 <= stable_fd (stable b) /\ stable_identity_valid (stable b) = 0.

Lemma lost_mismatch {W : Type} (K : Kernel W) b w : stable_identity_valid (stable b) = 0 -> StableIdentityMatches K b w = (false, w).
Proof. intros Hv. unfold StableIdentityMatches. rewrite Hv. cbn [Z.eqb]. by rewrite orb_true_r. Qed.

(** How a commit loses it: the rename and the replacement succeeded. *)
Lemma Commit_lost {W : Type} (K : Kernel W) s b fd w e b' w' : CommitVirtualFileSnapshot K s b fd w = (e, b', w') ->
  last_commit_published b = 0 -> last_commit_published b' = 1 -> stable_identity_valid (stable b') = 0 -> e <> 0 /\ lost b'.
Proof.
  intros E H0 H1 Hv. unfold CommitVirtualFileSnapshot in E. destruct (_ || _) eqn:Hg; [simplify_eq; congruence|].
  destruct (Z.eqb_spec (stable_identity_valid (stable b)) 0) as [Hb|Hb]; [rewrite lost_mismatch in E by done; cbn [negb orb] in E; by simplify_eq|].
  destruct (StableIdentityMatches K (set_commit b 0 0) w) as [m w1]. destruct (if m then SessionIdentityMatches K s w1 else (false, w1)) as [r w2]. destruct (negb r || _) eqn:Hg2; [by simplify_eq|].
  destruct (CheckFdObjectIdentity _ _ _ _) as [e3 w3]. destruct (negb (e3 =? 0)); [by simplify_eq|]. destruct (renameat K _ _ _ w3) as [[|] w4]; [by simplify_eq|].
  unfold synchronize in E. destruct (fsync K _ w4) as [r5 w5]. destruct (dup3 K fd _ w5) as [[e6|] w6]; [simplify_eq; by cbn in Hv|].
  unfold CacheStableIdentity in E. cbn [set_commit stable] in E. replace (stable_fd (stable b) <? 0) with false in E by lia.
  destruct (CaptureRawFdObjectIdentity K _ _ w6) as [[e7 ident] w7]. destruct (Z.eqb_spec e7 0) as [->|He7]; cbn -[next_generation] in E; [simplify_eq; by cbn in Hv|].
  replace (e7 =? 0) with false in E by lia. simplify_eq. split; [destruct (errno_of r5 =? 0) eqn:Er; lia|]. unfold lost. cbn.
  split_and!; [by destruct (has_session b)|lia|done].
Qed.

(** C40 (safety): A published snapshot whose open file could not be identified afterwards is the last one. When fstat fails
    after the descriptor was replaced, the commit reports an error and every later preparation and commit for the file
    fails with ESTALE (or EINVAL), although a later publication is meant to synchronize the descriptor again. *)
Theorem lost_identity_is_final {W : Type} (K : Kernel W) (s : VirtualBackingSession) (b b' : VirtualFileBacking) (fd e : Z) (w w' : W) :
  CommitVirtualFileSnapshot K s b fd w = (e, b', w') -> last_commit_published b = 0 -> last_commit_published b' = 1 -> stable_identity_valid (stable b') = 0 ->
  e <> 0 /\ lost b' /\
  forall lost_b, lost lost_b ->
    (forall fuel s2 content snap w2, PrepareVirtualFileSnapshot K fuel s2 lost_b content snap w2 = Some (ESTALE, set_commit lost_b 0 0, -1, w2)) /\
    (forall s2 fd2 w2, exists e2 b2, CommitVirtualFileSnapshot K s2 lost_b fd2 w2 = (e2, b2, w2) /\ (e2 = ESTALE \/ e2 = EINVAL) /\ lost b2) /\
    (forall s2 fd2 w2, lost (snd (fst (DiscardVirtualFileSnapshot K s2 lost_b fd2 w2)))).
Proof.
  intros E H0 H1 Hv. apply Commit_lost in E as [He Hl]; [|done..]. split; [done|]. split; [done|]. intros lost_b (Hh & Hfd & Hlost).
  assert (forall n1 n2, lost (set_commit lost_b n1 n2)) as Hlost' by done. split; [|split].
  - intros fuel s2 content snap w2. unfold PrepareVirtualFileSnapshot. rewrite Hh. replace (stable_fd (stable lost_b) <? 0) with false by lia. cbn [negb orb].
    by rewrite lost_mismatch.
  - intros s2 fd2 w2. unfold CommitVirtualFileSnapshot. destruct (_ || _) eqn:Hg; [exists EINVAL, lost_b; split_and!; [done|by right|done..]|]. rewrite lost_mismatch by done. cbn [negb orb].
    exists ESTALE, (set_commit lost_b 0 0). split_and!; [done|by left|done..].
  - intros s2 fd2 w2. unfold DiscardVirtualFileSnapshot, CleanPendingSnapshot. destruct (_ || _); [done|]. destruct (CloseExact K fd2 _ w2) as [r w3].
    destruct (_ && _); [|done]. by destruct (RemoveNamedFile K s2 _ w3).
Qed.

(** ** Examples *)

(** A kernel with the session directory behind descriptor 3 and its root behind 4: writes take two bytes and are interrupted
    as often as the world says. With [breaks], no descriptor can be examined after one was replaced. *)
Record SampleWorld := { sample_fs : Fs; sample_opened : gmap Z (Z * nat); sample_interrupts : nat; sample_blind : bool }.
Definition sample_set (w : SampleWorld) (fs : Fs) : SampleWorld :=
  {| sample_fs := fs; sample_opened := sample_opened w; sample_interrupts := sample_interrupts w; sample_blind := sample_blind w |}.
Definition sample_stat (fd : Z) (w : SampleWorld) : (Z + Stat) * SampleWorld :=
  if sample_blind w then (inl EIO, w)
  else if (fd =? 3) || (fd =? 4) then (inr {| st_dev := 1; st_ino := fd; st_rdev := 0; st_mode := S_IFDIR + 448 |}, w)
  else match sample_opened w !! fd with
  | Some (file, _) => (inr {| st_dev := 1; st_ino := 100 + file; st_rdev := 0; st_mode := 32768 |}, w)
  | None => (inl EBADF, w)
  end.
Definition sample_openat (directory : Z) (name : list Z) (cloexec : bool) (w : SampleWorld) : (Z + Z) * SampleWorld :=
  if negb (directory =? 3) then (inl EBADF, w)
  else match entries (sample_fs w) !! name with
  | Some _ => (inl EEXIST, w)
  | None =>
    let file := fresh (dom (data (sample_fs w))) in
    let fd := 10 + Z.abs file in
    (inr fd, {| sample_fs := {| entries := <[name := file]> (entries (sample_fs w)); data := <[file := []]> (data (sample_fs w)) |};
                sample_opened := <[fd := (file, O)]> (sample_opened w); sample_interrupts := sample_interrupts w; sample_blind := sample_blind w |})
  end.
Definition sample_write (fd : Z) (content : list Z) (w : SampleWorld) : (Z + nat) * SampleWorld :=
  match sample_opened w !! fd with
  | None => (inl EBADF, w)
  | Some (file, offset) =>
    match sample_interrupts w, data (sample_fs w) !! file with
    | S k, _ => (inl EINTR, {| sample_fs := sample_fs w; sample_opened := sample_opened w; sample_interrupts := k; sample_blind := sample_blind w |})
    | O, None => (inl EIO, w)
    | O, Some bs =>
      let n := (length content `min` 2)%nat in
      (inr n, {| sample_fs := {| entries := entries (sample_fs w); data := <[file := take offset bs ++ take n content ++ drop (offset + n) bs]> (data (sample_fs w)) |};
                 sample_opened := <[fd := (file, offset + n)%nat]> (sample_opened w); sample_interrupts := O; sample_blind := sample_blind w |})
    end
  end.
Definition sample_rename (directory : Z) (a b : list Z) (w : SampleWorld) : (Z + Z) * SampleWorld :=
  match entries (sample_fs w) !! a with
  | None => (inl ENOENT, w)
  | Some file => (inr 0, sample_set w (with_entries (fun es => <[b := file]> (delete a es)) (sample_fs w)))
  end.
Definition sample_unlink (directory : Z) (name : list Z) (is_directory : bool) (w : SampleWorld) : (Z + Z) * SampleWorld :=
  if is_directory then (inr 0, w)
  else match entries (sample_fs w) !! name with
  | None => (inl ENOENT, w)
  | Some _ => (inr 0, sample_set w (with_entries (delete name) (sample_fs w)))
  end.
Definition sample_dup3 (breaks : bool) (a b : Z) (w : SampleWorld) : (Z + unit) * SampleWorld :=
  match sample_opened w !! a with
  | None => (inl EBADF, w)
  | Some f => (inr tt, {| sample_fs := sample_fs w; sample_opened := <[b := f]> (sample_opened w); sample_interrupts := sample_interrupts w;
                          sample_blind := breaks |})
  end.
Definition sample_close (fd : Z) (w : SampleWorld) : (Z + Z) * SampleWorld :=
  (inr 0, {| sample_fs := sample_fs w; sample_opened := delete fd (sample_opened w); sample_interrupts := sample_interrupts w; sample_blind := sample_blind w |}).

Definition sample_kernel (breaks : bool) : Kernel SampleWorld := {|
  fstat := sample_stat; owner_tag := None; close_with_tag := None; close := sample_close; open_directory := fun _ w => (inr 4, w);
  openat_directory := fun _ _ w => (inr 3, w); mkdirat := fun _ _ w => (inr 0, w); openat_new := sample_openat; write := sample_write;
  fchmod := fun _ _ w => (inr 0, w); fsync := fun _ w => (inr 0, w); renameat := sample_rename; unlinkat := sample_unlink; dup3 := sample_dup3 breaks |}.

Lemma sample_kernel_laws breaks : Laws (sample_kernel breaks) 3 sample_fs sample_opened sample_interrupts.
Proof.
  split; cbn [sample_kernel fstat close close_with_tag dup3 fchmod fsync unlinkat openat_new write renameat].
  - intros fd w. unfold sample_stat. destruct (sample_blind w); [done|]. destruct (_ || _); [done|]. by destruct (sample_opened w !! fd) as [[]|].
  - done.
  - done.
  - intros a b w. unfold sample_dup3. by destruct (sample_opened w !! a).
  - done.
  - done.
  - done.
  - intros name cloexec w. unfold sample_openat. cbn [Z.eqb Pos.eqb negb]. destruct (entries (sample_fs w) !! name) eqn:E; [by split; [|split]|].
    split; [apply Z.add_nonneg_nonneg; [lia|apply Z.abs_nonneg]|]. split; [done|]. split; [done|]. exists (fresh (dom (data (sample_fs w)))). split; [apply not_elem_of_dom, is_fresh|]. split; [done|]. cbn. apply lookup_insert_eq.
  - intros fd content w file bs Ho Hd. unfold sample_write. rewrite Ho. destruct (sample_interrupts w) as [|k] eqn:Ei; [rewrite Hd|cbn; split_and!; [done..|lia]].
    cbn [sample_fs sample_opened sample_interrupts]. split; [lia|]. split; [lia|]. rewrite firstn_all, drop_ge, app_nil_r by lia. split; [done|].
    rewrite lookup_insert_eq, length_app, length_take. do 2 f_equal. lia.
  - intros a b w. unfold sample_rename. destruct (entries (sample_fs w) !! a) as [file|] eqn:E; [exists file; done|done].
  - intros name w. unfold sample_unlink. by destruct (entries (sample_fs w) !! name).
Qed.

Definition sample_world : SampleWorld := {| sample_fs := {| entries := ∅; data := ∅ |}; sample_opened := ∅; sample_interrupts := 2; sample_blind := false |}.
Definition sample_session : VirtualBackingSession :=
  snd (fst (CreateVirtualBackingSession (sample_kernel false) (chars "/data/backing") 1311768467463790320 InitializeVirtualBackingSession sample_world)).

Example sample_session_path : session_path sample_session = chars "/data/backing/hookself-vf-12345678-9abcdef0-00" /\ directory_created sample_session = 1.
Proof. split; reflexivity. Qed.

(** A file is made, a second content prepared and published. *)
Definition sample_run (breaks : bool) : option (Z * VirtualFileBacking * VirtualFileBacking * VirtualBackingSession * SampleWorld * SampleWorld) :=
  match CreateVirtualFileBacking (sample_kernel breaks) 20 [1; 2; 3] 2 0 7 sample_session InitializeVirtualFileBacking sample_world with
  | Some (0, s, b1, w1) =>
    match PrepareVirtualFileSnapshot (sample_kernel breaks) 20 s b1 [4; 5; 6; 7; 8] (-1) w1 with
    | Some (0, b2, fd, w2) => Some (fd, b1, b2, s, w1, w2)
    | _ => None
    end
  | _ => None
  end.
Example sample_run_published : (fun '(fd, _, b, s, _, w) => fst (fst (CommitVirtualFileSnapshot (sample_kernel false) s b fd w))) <$> sample_run false = Some 0.
Proof. vm_compute. reflexivity. Qed.
Example sample_run_lost : (fun '(fd, _, b, s, _, w) => let '(e, b, _) := CommitVirtualFileSnapshot (sample_kernel true) s b fd w in
  (e, last_commit_published b, stable_identity_valid (stable b))) <$> sample_run true = Some (EIO, 1, 0).
Proof. vm_compute. reflexivity. Qed.

Definition sample_slot : Slot := {| backing := InitializeVirtualFileBacking; published := []; snapshot := [] |}.

Lemma files_show_published_witness : exists s' slot w' file, rtc (store_step (sample_kernel false)) (sample_session, [sample_slot], sample_world) (s', [slot], w') /\
  entries (sample_fs w') !! chars "vfile-00000007" = Some file /\ data (sample_fs w') !! file = Some [4; 5; 6; 7; 8].
Proof.
  destruct (sample_run false) as [[[[[[fd b1] b2] s1] w1] w2]|] eqn:E; [|vm_compute in E; discriminate].
  destruct (CommitVirtualFileSnapshot (sample_kernel false) s1 b2 fd w2) as [[e b3] w3] eqn:E3.
  assert (e = 0 /\ last_commit_published b3 = 1 /\ has_session b3 = true /\ final_name b3 = chars "vfile-00000007") as (He & Hp & Hh & Hn).
  { pose proof (f_equal (fmap (fun '(fd, _, b, s, _, w) => let '(e, b, _) := CommitVirtualFileSnapshot (sample_kernel false) s b fd w in
      (e, last_commit_published b, has_session b, final_name b))) E) as HC. cbn [fmap option_fmap option_map] in HC. rewrite E3 in HC.
    vm_compute in HC. injection HC as H0 H1 H2 H3. exact (conj (eq_sym H0) (conj (eq_sym H1) (conj (eq_sym H2) (eq_sym H3)))). }
  unfold sample_run in E. destruct (CreateVirtualFileBacking _ _ _ _ _ _ _ _ _) as [[[[[| |] ?] ?] ?]|] eqn:E1; [|done..].
  destruct (PrepareVirtualFileSnapshot _ _ _ _ _ _ _) as [[[[[| |] ?] ?] ?]|] eqn:E2; [|done..]. injection E as -> -> -> -> -> ->.
  assert (rtc (store_step (sample_kernel false)) (sample_session, [sample_slot], sample_world)
    (s1, [{| backing := b3; published := [4; 5; 6; 7; 8]; snapshot := [4; 5; 6; 7; 8] |}], w3)) as Hsteps.
  { eapply rtc_l; [exact (step_create (sample_kernel false) sample_session [sample_slot] sample_world 0 sample_slot 20 [1; 2; 3] 2 0 7 _ _ _ _ eq_refl ltac:(unfold id_ok; lia) E1)|].
    eapply rtc_l; [exact (step_prepare (sample_kernel false) s1 [{| backing := b1; published := [1; 2; 3]; snapshot := [] |}] w1 0
      {| backing := b1; published := [1; 2; 3]; snapshot := [] |} 20 [4; 5; 6; 7; 8] (-1) _ _ _ _ eq_refl E2)|].
    apply rtc_once. pose proof (step_commit (sample_kernel false) s1 [{| backing := b2; published := [1; 2; 3]; snapshot := [4; 5; 6; 7; 8] |}] w2 0
      {| backing := b2; published := [1; 2; 3]; snapshot := [4; 5; 6; 7; 8] |} fd e b3 w3 eq_refl E3) as HS.
    rewrite Hp in HS. exact HS. }
  destruct (files_show_published (sample_kernel false) 3 sample_fs sample_opened sample_interrupts (sample_kernel_laws false) sample_session s1 [sample_slot] _ sample_world w3
    ltac:(left; reflexivity) ltac:(reflexivity) ltac:(repeat constructor) ltac:(simpl; lia) Hsteps) as (HP & _ & _).
  destruct (HP O _ eq_refl Hh) as (file & Hf & Hd). cbn [backing published] in Hf, Hd. rewrite Hn in Hf.
  exists s1, {| backing := b3; published := [4; 5; 6; 7; 8]; snapshot := [4; 5; 6; 7; 8] |}, w3, file. split; [exact Hsteps|]. split; [exact Hf|exact Hd].
Defined.

Lemma lost_identity_is_final_witness : exists b, forall fuel s content snap w,
  PrepareVirtualFileSnapshot (sample_kernel true) fuel s b content snap w = Some (ESTALE, set_commit b 0 0, -1, w).
Proof.
  destruct (sample_run true) as [[[[[[fd b1] b2] s1] w1] w2]|] eqn:E; [|vm_compute in E; discriminate].
  destruct (CommitVirtualFileSnapshot (sample_kernel true) s1 b2 fd w2) as [[e b3] w3] eqn:E3.
  pose proof (f_equal (fmap (fun '(fd, _, b, s, _, w) => let '(e, b', _) := CommitVirtualFileSnapshot (sample_kernel true) s b fd w in
    (last_commit_published b, last_commit_published b', stable_identity_valid (stable b')))) E) as HC. cbn [fmap option_fmap option_map] in HC. rewrite E3 in HC.
  vm_compute in HC. injection HC as H0 H1 H2.
  destruct (lost_identity_is_final (sample_kernel true) s1 b2 b3 fd e w2 w3 E3 (eq_sym H0) (eq_sym H1) (eq_sym H2)) as (_ & Hl & HF).
  exists b3. apply (HF b3 Hl).
Defined.
